(* ===== verification/_CoqProject ===== *)
-Q . S2P
Prelude.v
CTypes.v
Memory.v
Buffer.v
BuffFmt.v
Argument.v
Fields.v
Command.v
SilcID.v
Channel.v
Notify.v
Cipher.v
Hmac.v
Message.v
MessageSpec.v
MessageThms.v
HashTable.v
HashFun.v
Packet.v
PacketCipher.v
PacketSpec.v
PacketRead.v
PacketThms.v
PacketSafe.v
Lists.v
DList.v
PacketProcess.v
IDCache.v
IDCacheThms.v
MerkleDamgard.v
Sha1.v
Sha256.v
Md5.v
StrUtil.v
Utf8.v
Outcome.v
Schedule.v
ScheduleThms.v
Membership.v
MembershipLeave.v
MembershipJoin.v
MembershipThms.v
Aes.v
AesThms.v
AesKeys.v
Mp.v
SkePayload.v
Registry.v
SkeNegotiate.v
SkeKeys.v
Ske.v
SkeThms.v
SkeSafe.v
SkeRekey.v
