(* ===== verification/Prelude.v ===== *)
(** * SILC server: a verification library

    The program is the SILC secure chat server: a toolkit of libraries under
    [src/lib] and the server daemon under [src/apps/silcd].  Everything the
    server receives or sends is a payload, built and taken apart by the code of
    [lib/silccore] on top of the buffers and the formatting routines of
    [lib/silcutil], and protected by the ciphers, HMACs and signatures of
    [lib/silccrypt].  This library models that path and the hash tables the
    server keeps its entries in, and proves them correct.

    ** Files

    - [Prelude]: this header; lengths, slices and updates of lists at integer
      indices, the databases and tactics shared by all files.
    - [CTypes]: integers of 8 to 64 bits with their wrap-around ([u8] .. [u64],
      [i32]) and the MSB-first get and put macros ([silctypes.h]).
    - [Memory]: which sizes the allocator refuses ([silcmemory.c]).
    - [Buffer]: [SilcBuffer] as a memory and the offsets of its data and tail,
      with every operation of [silcbuffer.h]; [of_areas h d t] is the buffer
      whose head, data and tail areas are those lists.
    - [BuffFmt]: [silc_buffer_format] and [silc_buffer_unformat]
      ([silcbuffmt.c]), loops over the list of the variadic arguments (modules
      [Format] and [Unformat]); what they write and read is specified by
      [enc_args] and [uparse] (modules [Encoding] and [RoundTrip]).
    - [Fields]: schemas of integers and counted strings, their codec, and that
      formatting and unformatting implement it; used by all payloads.
    - [Argument], [Command], [SilcID], [Channel], [Notify]: the payloads of
      [silcargument.c], [silccommand.c], [silcid.c], [silcchannel.c] and
      [silcnotify.c], each as parsers and encoders with the code's checks.
    - [Cipher]: CBC and CTR mode ([aes.c]) and cipher objects ([silccipher.c]).
      The AES block functions are the class [BlockCipher]; what clients need of
      a cipher is the class [CipherOps] with the law [CipherLaws], for which
      the two modes are instances.
    - [Hmac]: HMAC ([silchmac.c]) over hash functions given by the class
      [HashOps] with the laws [HashLaws].
    - [Message], [MessageSpec], [MessageThms]: message payloads
      ([silcmessage.c]): definitions, what they write and read, properties.
      Keys and signatures are the class [PkcsOps]; [PkcsPair] says that one key
      verifies what the other signs.
    - [HashTable]: [silchashtable.c], and its specification, a list.

    ** Conventions

    A C function is a definition of the same name; its loops and the parts that
    are shared or long have definitions of their own, named in the comments.
    Pointers are [option (list Z)], NULL being [None]; a block is the list of
    its bytes, and a result of several values is a tuple.  Errors are the
    values the code returns ([None] for NULL, [false] for FALSE, -1).  Integers
    are [Z], reduced to their width where the C code does so.  Loops are
    structural in a list or in the number of rounds the code computes before
    them, so no fuel is needed, except in the channel list parser, where the
    length of the payload bounds the rounds ([Channel.channel_list_spec] proves
    that it is enough), and in the traversal of [HashTable.traverse], which is
    given one round more than there are entries.

    ** What the theorems show

    - Round trips: every payload is parsed back to what was encoded, and
      re-encoding what a parser accepted gives the bytes it was given.
    - Refinement: formatting and unformatting against a codec, HMAC against
      RFC 2104, the hash table against a list of entries.
    - Safety: parsers stay inside their input; a message with a wrong MAC is
      not decrypted; and, where the code does not keep to this, a theorem that
      exhibits it ([message_double_free], [decrypt_overrun], [datalen_limit],
      [make_truncated_garbage], [replace_collision]).
    - Termination and bounds: the channel list, traversals, chain lengths.

    ** Not modelled

    Memory is not shared between values: aliasing, freeing (except what a
    message frees) and the region allocator [SilcStack] are left out, and the
    host allocator succeeds below [SILC_MAX_ALLOC].  Bytes that C leaves
    indeterminate are zero.  Logging and debug output are left out, and so is
    unformatting with callbacks and [silc_buffer_strformat].  Random bytes are
    arguments.  The rounds of block ciphers and hash functions, multi-precision
    arithmetic, sockets, files, configuration and the event loop are outside.

    ** Plan

    Next: the packet engine ([silcpacket.c]), authentication and key exchange
    payloads ([silcauth.c], [lib/silcske]), attributes, MIME and string
    encodings, the state machine and event loop ([silcfsm.c],
    [silcschedule.c]), and the ID lists of the server ([idlist.c],
    [serverid.c]). *)

From Stdlib Require Export ZArith Lia.
From stdpp Require Export base list option numbers.

#[export] Set Default Goal Selector "!".

Declare Scope silc_scope.
Delimit Scope silc_scope with silc.
#[global] Open Scope Z_scope.

(** ** Lengths and slices indexed by [Z] *)

(** The C code measures every memory area with an integer; [zlen], [ztake],
    [zdrop] and [znth] are the list operations at such indices. *)
Definition zlen {A} (l : list A) : Z := Z.of_nat (length l).
Definition ztake {A} (n : Z) (l : list A) : list A := take (Z.to_nat n) l.
Definition zdrop {A} (n : Z) (l : list A) : list A := drop (Z.to_nat n) l.

(** [l[i]] in a byte array; every read of the model is guarded by a bound. *)
Definition znth (l : list Z) (i : Z) : Z := nth (Z.to_nat i) l 0.

(** [zslice off n l]: the [n] elements of [l] from offset [off]. *)
Definition zslice {A} (off n : Z) (l : list A) : list A := ztake n (zdrop off l).

(** [n] zero bytes, what [calloc] and [memset(_, 0, n)] leave. *)
Definition zeros (n : Z) : list Z := replicate (Z.to_nat n) 0.

(** [memcpy(mem + off, bs, |bs|)]. *)
Definition splice {A} (off : Z) (bs mem : list A) : list A :=
  ztake off mem ++ bs ++ zdrop (off + zlen bs) mem.

#[global] Arguments zlen : simpl never.
#[global] Arguments ztake : simpl never.
#[global] Arguments zdrop : simpl never.
#[global] Arguments zslice : simpl never.
#[global] Arguments znth : simpl never.
#[global] Arguments zeros : simpl never.
#[global] Arguments splice : simpl never.

Create Rewrite HintDb zlist.

Section ZLists.
Context {A : Type}.
Implicit Types (l k : list A) (n m : Z).

Lemma zlen_nonneg l : 0 <= zlen l.
Proof. unfold zlen. lia. Qed.

Lemma zlen_nil : zlen (@nil A) = 0.
Proof. reflexivity. Qed.

Lemma zlen_cons x l : zlen (x :: l) = 1 + zlen l.
Proof. unfold zlen. rewrite length_cons. lia. Qed.

Lemma zlen_app l k : zlen (l ++ k) = zlen l + zlen k.
Proof. unfold zlen. rewrite length_app. lia. Qed.

Lemma zlen_zero_nil l : zlen l = 0 -> l = [].
Proof. destruct l; [done|]. rewrite zlen_cons. pose proof (zlen_nonneg l). lia. Qed.

Lemma zlen_take n l : 0 <= n <= zlen l -> zlen (ztake n l) = n.
Proof. unfold zlen, ztake. rewrite length_take. lia. Qed.

Lemma zlen_take_min n l : 0 <= n -> zlen (ztake n l) = Z.min n (zlen l).
Proof. unfold zlen, ztake. rewrite length_take. lia. Qed.

Lemma zlen_drop n l : 0 <= n <= zlen l -> zlen (zdrop n l) = zlen l - n.
Proof. unfold zlen, zdrop. rewrite length_drop. lia. Qed.

(** For any [n]: what is dropped is between nothing and everything. *)
Lemma zlen_drop_max n l : zlen (zdrop n l) = Z.max 0 (zlen l - Z.max 0 n).
Proof. unfold zlen, zdrop. rewrite length_drop. lia. Qed.

Lemma zlen_slice off n l :
  0 <= off -> 0 <= n -> off + n <= zlen l -> zlen (zslice off n l) = n.
Proof. intros. unfold zslice. rewrite zlen_take; rewrite ?zlen_drop; lia. Qed.

Lemma ztake_drop n l : ztake n l ++ zdrop n l = l.
Proof. apply take_drop. Qed.

Lemma ztake_ge n l : zlen l <= n -> ztake n l = l.
Proof. unfold zlen, ztake. intros. apply take_ge. lia. Qed.

Lemma zdrop_ge n l : zlen l <= n -> zdrop n l = [].
Proof. unfold zlen, zdrop. intros. apply drop_ge. lia. Qed.

Lemma ztake_0 n l : n <= 0 -> ztake n l = [].
Proof. unfold ztake. intros. by rewrite Z2Nat.nonpos. Qed.

Lemma zdrop_0 n l : n <= 0 -> zdrop n l = l.
Proof. unfold zdrop. intros. by rewrite Z2Nat.nonpos. Qed.

Lemma ztake_nil n : ztake n (@nil A) = [].
Proof. apply take_nil. Qed.

Lemma zdrop_nil n : zdrop n (@nil A) = [].
Proof. apply drop_nil. Qed.

Lemma zdrop_zdrop n m l : 0 <= n -> 0 <= m -> zdrop m (zdrop n l) = zdrop (n + m) l.
Proof. intros. unfold zdrop. rewrite drop_drop. f_equal. lia. Qed.

Lemma ztake_ztake n m l : m <= n -> ztake m (ztake n l) = ztake m l.
Proof. intros. unfold ztake. rewrite take_take. f_equal. lia. Qed.

Lemma ztake_app_l n l k : n <= zlen l -> ztake n (l ++ k) = ztake n l.
Proof. unfold zlen, ztake. intros. apply take_app_le. lia. Qed.

Lemma ztake_app_r n l k :
  zlen l <= n -> ztake n (l ++ k) = l ++ ztake (n - zlen l) k.
Proof.
  unfold zlen, ztake. intros. rewrite take_app_ge by lia. do 2 f_equal. lia.
Qed.

Lemma zdrop_app_l n l k : n <= zlen l -> zdrop n (l ++ k) = zdrop n l ++ k.
Proof. unfold zlen, zdrop. intros. apply drop_app_le. lia. Qed.

Lemma zdrop_app_r n l k : zlen l <= n -> zdrop n (l ++ k) = zdrop (n - zlen l) k.
Proof. unfold zlen, zdrop. intros. rewrite drop_app_ge by lia. f_equal. lia. Qed.

Lemma ztake_app_exact n l k : n = zlen l -> ztake n (l ++ k) = l.
Proof. intros ->. rewrite ztake_app_l, ztake_ge; [done| |]; lia. Qed.

Lemma zdrop_app_exact n l k : n = zlen l -> zdrop n (l ++ k) = k.
Proof. intros ->. rewrite zdrop_app_r by lia. apply zdrop_0. lia. Qed.

Lemma ztake_zdrop n m l :
  0 <= n -> 0 <= m -> ztake m (zdrop n l) = zdrop n (ztake (n + m) l).
Proof.
  intros. unfold ztake, zdrop. rewrite take_drop_commute. do 2 f_equal. lia.
Qed.

Lemma zslice_all l : zslice 0 (zlen l) l = l.
Proof. unfold zslice. rewrite zdrop_0, ztake_ge; [done| |]; lia. Qed.

Lemma zlen_splice off (bs mem : list A) :
  0 <= off -> off + zlen bs <= zlen mem -> zlen (splice off bs mem) = zlen mem.
Proof.
  intros. pose proof (zlen_nonneg bs). unfold splice.
  rewrite !zlen_app, zlen_take, zlen_drop; lia.
Qed.

Lemma zlen_splice_max off (bs mem : list A) :
  0 <= off <= zlen mem ->
  zlen (splice off bs mem) = Z.max (zlen mem) (off + zlen bs).
Proof.
  intros. pose proof (zlen_nonneg bs). unfold splice.
  rewrite !zlen_app, zlen_take by lia.
  destruct (decide (off + zlen bs <= zlen mem)).
  - rewrite zlen_drop; lia.
  - rewrite zdrop_ge, zlen_nil by lia. lia.
Qed.

(** Two adjacent copies are one copy. *)
Lemma splice_splice off (bs1 bs2 mem : list A) :
  0 <= off <= zlen mem ->
  splice (off + zlen bs1) bs2 (splice off bs1 mem) = splice off (bs1 ++ bs2) mem.
Proof.
  intros. pose proof (zlen_nonneg bs1). pose proof (zlen_nonneg bs2).
  unfold splice. rewrite (app_assoc _ bs1 (zdrop _ _)).
  rewrite ztake_app_exact by (rewrite zlen_app, zlen_take; lia).
  rewrite zdrop_app_r by (rewrite zlen_app, zlen_take; lia).
  rewrite zlen_app, zlen_take, zdrop_zdrop by lia.
  rewrite <- !app_assoc. do 4 f_equal. rewrite zlen_app. lia.
Qed.

Lemma splice_nil off (mem : list A) : splice off [] mem = mem.
Proof. unfold splice. rewrite zlen_nil, Z.add_0_r. apply ztake_drop. Qed.

Lemma splice_all (bs mem : list A) : zlen bs = zlen mem -> splice 0 bs mem = bs.
Proof.
  intros E. unfold splice. rewrite ztake_0 by lia.
  rewrite zdrop_ge by lia. by rewrite app_nil_r.
Qed.
End ZLists.

Lemma zlen_zeros n : 0 <= n -> zlen (zeros n) = n.
Proof. intros. unfold zlen, zeros. rewrite length_replicate. lia. Qed.

Lemma zeros_app n m : 0 <= n -> 0 <= m -> zeros (n + m) = zeros n ++ zeros m.
Proof. intros. unfold zeros. rewrite <- replicate_add. f_equal. lia. Qed.

Lemma zlen_fmap {A B} (f : A -> B) l : zlen (f <$> l) = zlen l.
Proof. unfold zlen. by rewrite length_fmap. Qed.

#[export] Hint Rewrite @zlen_nil @zlen_cons @zlen_app @zlen_fmap : zlist.
#[export] Hint Rewrite @zlen_take @zlen_drop @zlen_slice @zlen_splice zlen_zeros
  using (autorewrite with zlist; lia) : zlist.

(** A decidable fact about closed terms. *)
Ltac by_compute := apply (bool_decide_unpack _); vm_compute; exact I.

(** Adds [0 <= zlen l] for every length in sight. *)
Ltac zlen_facts :=
  repeat match goal with
  | |- context [zlen ?l] =>
      lazymatch goal with
      | _ : 0 <= zlen l |- _ => fail
      | _ => pose proof (zlen_nonneg l)
      end
  | _ : context [zlen ?l] |- _ =>
      lazymatch goal with
      | _ : 0 <= zlen l |- _ => fail
      | _ => pose proof (zlen_nonneg l)
      end
  end.

(** Arithmetic on lengths. *)
Ltac zl := autorewrite with zlist in *; zlen_facts; lia.

Lemma znth_0 x l : znth (x :: l) 0 = x.
Proof. reflexivity. Qed.

Lemma znth_app_l l k i : 0 <= i < zlen l -> znth (l ++ k) i = znth l i.
Proof. unfold znth, zlen. intros. apply app_nth1. lia. Qed.

Lemma znth_app_r l k i : zlen l <= i -> znth (l ++ k) i = znth k (i - zlen l).
Proof. unfold znth, zlen. intros. rewrite app_nth2 by lia. f_equal. lia. Qed.

Lemma znth_zdrop n i l : 0 <= n -> 0 <= i -> znth (zdrop n l) i = znth l (n + i).
Proof.
  intros. unfold znth, zdrop. rewrite nth_skipn. f_equal. lia.
Qed.

Lemma znth_ztake n i l : 0 <= i < n -> znth (ztake n l) i = znth l i.
Proof.
  intros. unfold znth, ztake. destruct (decide (Z.to_nat i < length l)%nat).
  - rewrite <- (take_drop (Z.to_nat n) l) at 2.
    rewrite app_nth1; [done|]. rewrite length_take. lia.
  - rewrite !nth_overflow; [done|lia|]. rewrite length_take. lia.
Qed.
