(* ===== verification/CTypes.v ===== *)
(** * Machine integers and byte order ([lib/silcutil/silctypes.h])

    Machine integers are [Z] values; a conversion to a C type is written where
    the C code converts.  The [SILC_GETn_MSB] / [SILC_PUTn_MSB] macros are
    transcribed with their shifts and ors; the lemmas relate them to
    positional notation and show that they are inverse to each other. *)

From S2P Require Import Prelude.

(** ** Conversions to the fixed-width types *)

Definition u8 (x : Z) : Z := x mod 256.
Definition u16 (x : Z) : Z := x mod 65536.
Definition u32 (x : Z) : Z := x mod 4294967296.
Definition u64 (x : Z) : Z := x mod 18446744073709551616.

(** Conversion to the signed [int]: two's complement. *)
Definition i32 (x : Z) : Z := (x + 2147483648) mod 4294967296 - 2147483648.
Definition i16 (x : Z) : Z := (x + 32768) mod 65536 - 32768.
Definition i8 (x : Z) : Z := (x + 128) mod 256 - 128.
Definition i64 (x : Z) : Z :=
  (x + 9223372036854775808) mod 18446744073709551616 - 9223372036854775808.

(** A list of bytes. *)
Definition bytes_ok (l : list Z) : Prop := Forall (fun b => 0 <= b < 256) l.

(** Goals of arithmetic with divisions and remainders. *)
Ltac warith :=
  unfold u8, u16, u32, u64, i8, i16, i32, i64 in *; Z.div_mod_to_equations; lia.

Lemma u8_range x : 0 <= u8 x < 256.
Proof. warith. Qed.
Lemma u16_range x : 0 <= u16 x < 65536.
Proof. warith. Qed.
Lemma u32_range x : 0 <= u32 x < 4294967296.
Proof. warith. Qed.
Lemma u8_id x : 0 <= x < 256 -> u8 x = x.
Proof. warith. Qed.
Lemma u16_id x : 0 <= x < 65536 -> u16 x = x.
Proof. warith. Qed.
Lemma u32_id x : 0 <= x < 4294967296 -> u32 x = x.
Proof. warith. Qed.
Lemma i32_id x : -2147483648 <= x < 2147483648 -> i32 x = x.
Proof. warith. Qed.
Lemma u32_i32 x : u32 (i32 x) = u32 x.
Proof. warith. Qed.

Create Rewrite HintDb machine.
#[export] Hint Rewrite u8_id u16_id u32_id i32_id using lia : machine.

(** ** Big-endian accessors *)

(** [SILC_GET16_MSB(l, cp)] with [cp] pointing at offset [i]. *)
Definition SILC_GET16_MSB (cp : list Z) : Z :=
  Z.lor (Z.shiftl (u8 (znth cp 0)) 8) (u8 (znth cp 1)).

(** [SILC_GET32_MSB(l, cp)]; the shifts are on [SilcUInt32]. *)
Definition SILC_GET32_MSB (cp : list Z) : Z :=
  Z.lor (Z.lor (Z.lor (u32 (Z.shiftl (u8 (znth cp 0)) 24))
                      (u32 (Z.shiftl (u8 (znth cp 1)) 16)))
               (u32 (Z.shiftl (u8 (znth cp 2)) 8)))
        (u8 (znth cp 3)).

(** [SILC_GET64_MSB(l, cp)]: two words, the first shifted up. *)
Definition SILC_GET64_MSB (cp : list Z) : Z :=
  Z.lor (u64 (Z.shiftl (SILC_GET32_MSB cp) 32)) (SILC_GET32_MSB (zdrop 4 cp)).

(** The bytes [SILC_PUT16_MSB(l, cp)] stores. *)
Definition SILC_PUT16_MSB (l : Z) : list Z := [u8 (Z.shiftr l 8); u8 l].

Definition SILC_PUT32_MSB (l : Z) : list Z :=
  [u8 (Z.shiftr l 24); u8 (Z.shiftr l 16); u8 (Z.shiftr l 8); u8 l].

Definition SILC_PUT64_MSB (l : Z) : list Z :=
  SILC_PUT32_MSB (u32 (Z.shiftr (u64 l) 32)) ++ SILC_PUT32_MSB (u32 l).

(** ** Positional form *)

(** Or-ing a number below [2^k] into a shifted one adds it. *)
Lemma lor_shiftl_add hi lo k :
  0 <= k -> 0 <= lo < 2 ^ k -> Z.lor (Z.shiftl hi k) lo = hi * 2 ^ k + lo.
Proof.
  intros Hk Hlo. rewrite <- Z.shiftl_mul_pow2 by done.
  enough (E : Z.land (Z.shiftl hi k) lo = 0).
  { by rewrite Z.add_nocarry_lxor, Z.lxor_lor by done. }
  apply Z.bits_inj'. intros n Hn. rewrite Z.land_spec, Z.bits_0.
  destruct (decide (n < k)); [by rewrite Z.shiftl_spec_low by lia|].
  destruct (decide (lo = 0)) as [->|]; [by rewrite Z.bits_0, andb_false_r|].
  rewrite (Z.bits_above_log2 lo n), andb_false_r; [done|lia|].
  apply Z.log2_lt_pow2; [lia|]. eapply Z.lt_le_trans; [apply Hlo|].
  apply Z.pow_le_mono_r; lia.
Qed.

Lemma get16_spec cp :
  SILC_GET16_MSB cp = u8 (znth cp 0) * 256 + u8 (znth cp 1).
Proof.
  unfold SILC_GET16_MSB. rewrite lor_shiftl_add; [done|lia|].
  change (2 ^ 8) with 256. apply u8_range.
Qed.

Lemma get32_spec cp :
  SILC_GET32_MSB cp =
  u8 (znth cp 0) * 16777216 + u8 (znth cp 1) * 65536 + u8 (znth cp 2) * 256
  + u8 (znth cp 3).
Proof.
  unfold SILC_GET32_MSB.
  pose proof (u8_range (znth cp 0)). pose proof (u8_range (znth cp 1)).
  pose proof (u8_range (znth cp 2)). pose proof (u8_range (znth cp 3)).
  set (a := u8 (znth cp 0)) in *. set (b := u8 (znth cp 1)) in *.
  set (c := u8 (znth cp 2)) in *. set (d := u8 (znth cp 3)) in *.
  rewrite (u32_id (Z.shiftl a 24)), (u32_id (Z.shiftl b 16)), (u32_id (Z.shiftl c 8))
    by (rewrite Z.shiftl_mul_pow2 by lia; lia).
  rewrite <- !Z.lor_assoc.
  rewrite (lor_shiftl_add c d 8) by lia.
  rewrite (lor_shiftl_add b _ 16) by lia.
  rewrite (lor_shiftl_add a _ 24) by lia. lia.
Qed.

Lemma get64_spec cp :
  SILC_GET64_MSB cp = SILC_GET32_MSB cp * 4294967296 + SILC_GET32_MSB (zdrop 4 cp).
Proof.
  unfold SILC_GET64_MSB.
  assert (H : forall l, 0 <= SILC_GET32_MSB l < 4294967296).
  { intros l. rewrite get32_spec. warith. }
  pose proof (H cp). pose proof (H (zdrop 4 cp)).
  unfold u64. rewrite Z.mod_small by (rewrite Z.shiftl_mul_pow2 by lia; lia).
  rewrite lor_shiftl_add by lia. lia.
Qed.

Lemma get16_range cp : 0 <= SILC_GET16_MSB cp < 65536.
Proof. rewrite get16_spec. warith. Qed.

Lemma get32_range cp : 0 <= SILC_GET32_MSB cp < 4294967296.
Proof. rewrite get32_spec. warith. Qed.

Lemma get64_range cp : 0 <= SILC_GET64_MSB cp < 18446744073709551616.
Proof.
  rewrite get64_spec. pose proof (get32_range cp).
  pose proof (get32_range (zdrop 4 cp)). lia.
Qed.

(** ** The accessors are inverse to each other *)

Lemma get16_cons a b rest : SILC_GET16_MSB (a :: b :: rest) = u8 a * 256 + u8 b.
Proof. by rewrite get16_spec. Qed.

Lemma get32_cons a b c d rest :
  SILC_GET32_MSB (a :: b :: c :: d :: rest) =
  u8 a * 16777216 + u8 b * 65536 + u8 c * 256 + u8 d.
Proof. by rewrite get32_spec. Qed.

Lemma u8_u8 x : u8 (u8 x) = u8 x.
Proof. unfold u8. by rewrite Z.mod_mod by lia. Qed.

Lemma get16_put16 x rest : SILC_GET16_MSB (SILC_PUT16_MSB x ++ rest) = u16 x.
Proof.
  cbn [SILC_PUT16_MSB app]. rewrite get16_cons, !u8_u8.
  rewrite Z.shiftr_div_pow2 by lia. change (2 ^ 8) with 256. warith.
Qed.

Lemma get32_put32 x rest : SILC_GET32_MSB (SILC_PUT32_MSB x ++ rest) = u32 x.
Proof.
  cbn [SILC_PUT32_MSB app]. rewrite get32_cons, !u8_u8.
  rewrite !Z.shiftr_div_pow2 by lia.
  change (2 ^ 8) with 256; change (2 ^ 16) with 65536; change (2 ^ 24) with 16777216.
  warith.
Qed.

Lemma get64_put64 x rest : SILC_GET64_MSB (SILC_PUT64_MSB x ++ rest) = u64 x.
Proof.
  rewrite get64_spec. unfold SILC_PUT64_MSB. rewrite <- app_assoc, get32_put32.
  rewrite zdrop_app_exact by done. rewrite get32_put32.
  rewrite Z.shiftr_div_pow2 by lia. change (2 ^ 32) with 4294967296.
  assert (E : u32 (u32 x) = u64 x mod 4294967296).
  { unfold u32, u64. rewrite Z.mod_mod, Z.mod_mod_divide; [done| |lia].
    by exists 4294967296. }
  rewrite E. clear E.
  pose proof (Z.mod_pos_bound x 18446744073709551616 ltac:(lia)) as B.
  fold (u64 x) in B. set (y := u64 x) in *. clearbody y. warith.
Qed.

Lemma put16_get16 a b :
  0 <= a < 256 -> 0 <= b < 256 -> SILC_PUT16_MSB (SILC_GET16_MSB [a; b]) = [a; b].
Proof.
  intros. rewrite get16_cons, !u8_id by lia. unfold SILC_PUT16_MSB.
  rewrite Z.shiftr_div_pow2 by lia. change (2 ^ 8) with 256.
  f_equal; [|f_equal]; warith.
Qed.

Lemma zlen_put16 x : zlen (SILC_PUT16_MSB x) = 2.
Proof. done. Qed.
Lemma zlen_put32 x : zlen (SILC_PUT32_MSB x) = 4.
Proof. done. Qed.
Lemma zlen_put64 x : zlen (SILC_PUT64_MSB x) = 8.
Proof. done. Qed.
#[export] Hint Rewrite zlen_put16 zlen_put32 zlen_put64 : zlist.

Lemma put16_bytes x : bytes_ok (SILC_PUT16_MSB x).
Proof. repeat constructor; apply u8_range. Qed.
Lemma put32_bytes x : bytes_ok (SILC_PUT32_MSB x).
Proof. repeat constructor; apply u8_range. Qed.

(** Reading looks only at the bytes it covers. *)
Lemma get16_app l k : 2 <= zlen l -> SILC_GET16_MSB (l ++ k) = SILC_GET16_MSB l.
Proof. intros. unfold SILC_GET16_MSB. by rewrite !znth_app_l by lia. Qed.
Lemma get32_app l k : 4 <= zlen l -> SILC_GET32_MSB (l ++ k) = SILC_GET32_MSB l.
Proof. intros. unfold SILC_GET32_MSB. by rewrite !znth_app_l by lia. Qed.

(** ** What is stored depends only on the bits that fit *)

Lemma div_mod_mul x a b : 0 < a -> 0 < b -> (x / a) mod b = (x mod (a * b)) / a.
Proof.
  intros. rewrite Z.rem_mul_r by lia. rewrite (Z.mul_comm a), Z.div_add by lia.
  rewrite (Z.div_small (x mod a)); [done|]. apply Z.mod_pos_bound. lia.
Qed.

Lemma byte_at_mod x y k m :
  0 <= k -> x mod (2 ^ k * 256 * m) = y mod (2 ^ k * 256 * m) -> 0 < m ->
  u8 (Z.shiftr x k) = u8 (Z.shiftr y k).
Proof.
  intros Hk E Hm. rewrite !Z.shiftr_div_pow2 by done. unfold u8.
  assert (0 < 2 ^ k) by (apply Z.pow_pos_nonneg; lia).
  rewrite !div_mod_mul by lia. f_equal.
  rewrite <- (Z.mod_mod_divide x (2 ^ k * 256 * m)), <- (Z.mod_mod_divide y (2 ^ k * 256 * m)).
  - by rewrite E.
  - exists m. lia.
  - exists m. lia.
Qed.

Lemma put16_mod x y : u16 x = u16 y -> SILC_PUT16_MSB x = SILC_PUT16_MSB y.
Proof.
  unfold u16. intros E. unfold SILC_PUT16_MSB.
  f_equal; [by apply (byte_at_mod _ _ 8 1)|]. f_equal. warith.
Qed.

Lemma put32_mod x y : u32 x = u32 y -> SILC_PUT32_MSB x = SILC_PUT32_MSB y.
Proof.
  unfold u32. intros E. unfold SILC_PUT32_MSB.
  f_equal; [by apply (byte_at_mod _ _ 24 1)|].
  f_equal; [by apply (byte_at_mod _ _ 16 256)|].
  f_equal; [by apply (byte_at_mod _ _ 8 65536)|].
  f_equal. pose proof (byte_at_mod x y 0 16777216) as H.
  rewrite !Z.shiftr_0_r in H. by apply H.
Qed.

Lemma u32_u64 x : u32 (u64 x) = u32 x.
Proof.
  unfold u32, u64. apply Z.mod_mod_divide. by exists 4294967296.
Qed.

Lemma put64_mod x y : u64 x = u64 y -> SILC_PUT64_MSB x = SILC_PUT64_MSB y.
Proof.
  intros E. unfold SILC_PUT64_MSB. rewrite E.
  by rewrite <- (u32_u64 x), <- (u32_u64 y), E.
Qed.

Lemma u16_u16 x : u16 (u16 x) = u16 x.
Proof. unfold u16. by rewrite Z.mod_mod. Qed.
Lemma u32_u32 x : u32 (u32 x) = u32 x.
Proof. unfold u32. by rewrite Z.mod_mod. Qed.
Lemma u64_u64 x : u64 (u64 x) = u64 x.
Proof. unfold u64. by rewrite Z.mod_mod. Qed.
Lemma u16_i16 x : u16 (i16 x) = u16 x.
Proof. warith. Qed.
Lemma u8_i8 x : u8 (i8 x) = u8 x.
Proof. warith. Qed.
Lemma u64_i64 x : u64 (i64 x) = u64 x.
Proof.
  unfold u64, i64. rewrite Zminus_mod, Z.mod_mod, <- Zminus_mod by lia. f_equal. lia.
Qed.

Lemma put16_u16 x : SILC_PUT16_MSB (u16 x) = SILC_PUT16_MSB x.
Proof. apply put16_mod, u16_u16. Qed.
Lemma put16_i16 x : SILC_PUT16_MSB (i16 x) = SILC_PUT16_MSB x.
Proof. apply put16_mod, u16_i16. Qed.
Lemma put32_u32 x : SILC_PUT32_MSB (u32 x) = SILC_PUT32_MSB x.
Proof. apply put32_mod, u32_u32. Qed.
Lemma put32_i32 x : SILC_PUT32_MSB (i32 x) = SILC_PUT32_MSB x.
Proof. apply put32_mod, u32_i32. Qed.
Lemma put64_u64 x : SILC_PUT64_MSB (u64 x) = SILC_PUT64_MSB x.
Proof. apply put64_mod, u64_u64. Qed.
Lemma put64_i64 x : SILC_PUT64_MSB (i64 x) = SILC_PUT64_MSB x.
Proof. apply put64_mod, u64_i64. Qed.
#[export] Hint Rewrite put16_u16 put16_i16 put32_u32 put32_i32 put64_u64 put64_i64
  u8_i8 u8_u8 : machine.

Lemma get64_app l k : 8 <= zlen l -> SILC_GET64_MSB (l ++ k) = SILC_GET64_MSB l.
Proof.
  intros. rewrite !get64_spec, zdrop_app_l, !get32_app by (rewrite ?zlen_drop; lia).
  done.
Qed.

Lemma u16_get16 l : u16 (SILC_GET16_MSB l) = SILC_GET16_MSB l.
Proof. apply u16_id, get16_range. Qed.

Lemma u32_get32 l : u32 (SILC_GET32_MSB l) = SILC_GET32_MSB l.
Proof. apply u32_id, get32_range. Qed.

(** ** Little-endian accessors *)

(** The portable forms of [SILC_GETn_LSB] and [SILC_PUTn_LSB]. *)
Definition SILC_GET16_LSB (cp : list Z) : Z :=
  Z.lor (u8 (znth cp 0)) (Z.shiftl (u8 (znth cp 1)) 8).

Definition SILC_GET32_LSB (cp : list Z) : Z :=
  Z.lor (Z.lor (Z.lor (u8 (znth cp 0)) (u32 (Z.shiftl (u8 (znth cp 1)) 8)))
               (u32 (Z.shiftl (u8 (znth cp 2)) 16)))
        (u32 (Z.shiftl (u8 (znth cp 3)) 24)).

Definition SILC_PUT16_LSB (l : Z) : list Z := [u8 l; u8 (Z.shiftr l 8)].

Definition SILC_PUT32_LSB (l : Z) : list Z :=
  [u8 l; u8 (Z.shiftr l 8); u8 (Z.shiftr l 16); u8 (Z.shiftr l 24)].

(** The words of the two byte orders are those of the reversed bytes. *)
Lemma get16_lsb a b rest : SILC_GET16_LSB (a :: b :: rest) = SILC_GET16_MSB [b; a].
Proof. unfold SILC_GET16_LSB, SILC_GET16_MSB, znth. cbn. apply Z.lor_comm. Qed.

Lemma get32_lsb a b c d rest :
  SILC_GET32_LSB (a :: b :: c :: d :: rest) = SILC_GET32_MSB [d; c; b; a].
Proof.
  unfold SILC_GET32_LSB, SILC_GET32_MSB, znth. cbn.
  set (x := u32 (Z.shiftl (u8 b) 8)). set (y := u32 (Z.shiftl (u8 c) 16)).
  set (z := u32 (Z.shiftl (u8 d) 24)).
  by rewrite (Z.lor_comm _ z), (Z.lor_comm _ y), (Z.lor_comm _ x), !Z.lor_assoc.
Qed.

Lemma put16_lsb l : SILC_PUT16_LSB l = reverse (SILC_PUT16_MSB l).
Proof. done. Qed.

Lemma put32_lsb l : SILC_PUT32_LSB l = reverse (SILC_PUT32_MSB l).
Proof. done. Qed.

Lemma get16_put16_lsb x rest : SILC_GET16_LSB (SILC_PUT16_LSB x ++ rest) = u16 x.
Proof. cbn [SILC_PUT16_LSB app]. rewrite get16_lsb. apply (get16_put16 x []). Qed.

Lemma get32_put32_lsb x rest : SILC_GET32_LSB (SILC_PUT32_LSB x ++ rest) = u32 x.
Proof. cbn [SILC_PUT32_LSB app]. rewrite get32_lsb. apply (get32_put32 x []). Qed.

(** ** C strings *)

(** The characters before the NUL. *)
Fixpoint c_string (s : list Z) : list Z :=
  match s with
  | [] => []
  | c :: s => if c =? 0 then [] else c :: c_string s
  end.

Lemma c_string_take s : ztake (zlen (c_string s)) s = c_string s.
Proof.
  induction s as [|c s IH]; [done|]. cbn [c_string]. destruct (c =? 0); [done|].
  rewrite zlen_cons. zlen_facts. unfold ztake in *.
  replace (Z.to_nat (1 + zlen (c_string s))) with (S (Z.to_nat (zlen (c_string s)))) by lia.
  cbn [take]. by rewrite IH.
Qed.

(** [strlen]. *)
Definition strlen (s : list Z) : Z := zlen (c_string s).

Lemma c_string_app s t : Forall (fun c => c <> 0) s -> c_string (s ++ 0 :: t) = s.
Proof.
  induction 1 as [|c s Hc Hs IH]; [done|]. cbn [app c_string].
  rewrite (proj2 (Z.eqb_neq c 0) Hc). by rewrite IH.
Qed.

Lemma c_string_nonzero s : Forall (fun c => c <> 0) (c_string s).
Proof.
  induction s as [|c s IH]; [constructor|]. cbn [c_string].
  destruct (Z.eqb_spec c 0); [constructor|by constructor].
Qed.
