(* ===== verification/Memory.v ===== *)
(** * Allocation ([lib/silcutil/silcmemory.c])

    A memory block is the list of its bytes.  The allocation routines refuse
    the sizes the source refuses (nothing, or [SILC_MAX_ALLOC] and more); below
    that limit the host allocator is taken to succeed.  Bytes the C standard
    leaves indeterminate ([malloc], the tail a [realloc] adds) are modelled as
    zero; no theorem reads one before it is written. *)

From S2P Require Import Prelude CTypes.

(** [#define SILC_MAX_ALLOC (1024 * 1024L * 1024L)]. *)
Definition SILC_MAX_ALLOC : Z := 1024 * 1024 * 1024.

(** The test every allocation routine makes on its size ([size_t]). *)
Definition alloc_ok (size : Z) : bool := negb ((size <=? 0) || (SILC_MAX_ALLOC <=? size)).

Definition silc_malloc (size : Z) : option (list Z) :=
  if alloc_ok (u64 size) then Some (zeros (u64 size)) else None.

Definition silc_calloc (items size : Z) : option (list Z) :=
  if alloc_ok (u64 (size * items)) then Some (zeros (u64 (size * items))) else None.

(** [realloc] keeps the common prefix of the old and the new block. *)
Definition silc_realloc (ptr : list Z) (size : Z) : option (list Z) :=
  if alloc_ok (u64 size)
  then Some (ztake size ptr ++ zeros (size - zlen ptr))
  else None.

(** The copy is NUL terminated one byte past the [size] bytes copied. *)
Definition silc_memdup (ptr : list Z) (size : Z) : option (list Z) :=
  match silc_malloc (size + 1) with
  | None => None
  | Some addr => Some (splice size [0] (splice 0 (ztake size ptr) addr))
  end.

(** [silc_scalloc] with no stack is [silc_calloc]; its arguments are
    [SilcUInt32]. *)
Definition silc_scalloc_heap (items size : Z) : option (list Z) :=
  silc_calloc (u32 items) (u32 size).

Lemma alloc_ok_true size : alloc_ok size = true <-> 0 < size < SILC_MAX_ALLOC.
Proof. unfold alloc_ok. rewrite negb_true_iff, orb_false_iff. lia. Qed.

Lemma alloc_ok_range size : 0 < size < SILC_MAX_ALLOC -> alloc_ok size = true.
Proof. apply alloc_ok_true. Qed.

Lemma alloc_u64 size : 0 <= size < SILC_MAX_ALLOC -> u64 size = size.
Proof. unfold SILC_MAX_ALLOC, u64. intros. apply Z.mod_small. lia. Qed.

Lemma silc_calloc_ok items size :
  0 < size * items < SILC_MAX_ALLOC ->
  silc_calloc items size = Some (zeros (size * items)).
Proof.
  intros. unfold silc_calloc. rewrite alloc_u64 by lia.
  by rewrite alloc_ok_range by lia.
Qed.

Lemma silc_realloc_ok ptr size :
  zlen ptr <= size -> 0 < size < SILC_MAX_ALLOC ->
  silc_realloc ptr size = Some (ptr ++ zeros (size - zlen ptr)).
Proof.
  intros. unfold silc_realloc. rewrite alloc_u64, alloc_ok_range by lia.
  by rewrite ztake_ge.
Qed.

(** A duplicate is the bytes and the terminator. *)
Lemma silc_memdup_ok ptr size :
  0 <= size <= zlen ptr -> size + 1 < SILC_MAX_ALLOC ->
  silc_memdup ptr size = Some (ztake size ptr ++ [0]).
Proof.
  intros. unfold silc_memdup, silc_malloc.
  rewrite alloc_u64, alloc_ok_range by lia. f_equal.
  assert (E : zlen (ztake size ptr) = size) by (apply zlen_take; lia).
  replace (splice size [0] _)
    with (splice (0 + zlen (ztake size ptr)) [0]
            (splice 0 (ztake size ptr) (zeros (size + 1)))) by (f_equal; lia).
  rewrite splice_splice by (rewrite zlen_zeros; lia).
  apply splice_all. rewrite zlen_app, E, zlen_zeros by lia. done.
Qed.
