(* ===== verification/Buffer.v ===== *)
(** * Buffers ([lib/silcutil/silcbuffer.h])

    A [SilcBuffer] is four pointers into one block: [head] and [end] bound the
    block, [data] and [tail] the current data area.  The model keeps the block
    and the offsets of [data] and [tail] from [head]; a buffer whose pointers
    are NULL is the empty block.  Operations that return a pointer return
    [Some] of its offset, or [None] where the code returns NULL.

    The abstract view of a buffer is three adjacent areas (head, data, tail);
    the lemmas at the end show that each operation moves bytes between
    adjacent areas, or overwrites the start of one, and nothing else. *)

From S2P Require Import Prelude CTypes Memory.

Record SilcBuffer := mkBuffer {
  b_mem : list Z;   (* the bytes from [head] to [end] *)
  b_data : Z;       (* data - head *)
  b_tail : Z        (* tail - head *)
}.

Definition set_data (b : SilcBuffer) (d : Z) : SilcBuffer :=
  mkBuffer (b_mem b) d (b_tail b).
Definition set_tail (b : SilcBuffer) (t : Z) : SilcBuffer :=
  mkBuffer (b_mem b) (b_data b) t.
Definition set_mem (b : SilcBuffer) (m : list Z) : SilcBuffer :=
  mkBuffer m (b_data b) (b_tail b).

(** ** Lengths *)

Definition silc_buffer_truelen (x : SilcBuffer) : Z := u32 (zlen (b_mem x)).
Definition silc_buffer_len (x : SilcBuffer) : Z := u32 (b_tail x - b_data x).
Definition silc_buffer_headlen (x : SilcBuffer) : Z := u32 (b_data x).
Definition silc_buffer_taillen (x : SilcBuffer) : Z := u32 (zlen (b_mem x) - b_tail x).

(** The bytes from [data] on, as a pointer to them sees them. *)
Definition silc_buffer_data (x : SilcBuffer) : list Z := zdrop (b_data x) (b_mem x).

(** ** Allocation *)

Definition silc_buffer_alloc (len : Z) : option SilcBuffer :=
  if len =? 0 then Some (mkBuffer [] 0 0)
  else match silc_calloc len 1 with
       | None => None
       | Some head => Some (mkBuffer head 0 0)
       end.

Definition silc_buffer_steal (sb : SilcBuffer) : SilcBuffer * list Z * Z :=
  (mkBuffer [] 0 0, b_mem sb, silc_buffer_truelen sb).

Definition silc_buffer_purge (sb : SilcBuffer) : SilcBuffer :=
  let '(sb', _, _) := silc_buffer_steal sb in sb'.

Definition silc_buffer_set (data : list Z) (data_len : Z) : SilcBuffer :=
  mkBuffer (ztake data_len data) 0 data_len.

(** ** Moving the pointers *)

Definition silc_buffer_pull (sb : SilcBuffer) (len : Z) : SilcBuffer * option Z :=
  if silc_buffer_len sb <? len then (sb, None)
  else (set_data sb (b_data sb + len), Some (b_data sb)).

Definition silc_buffer_push (sb : SilcBuffer) (len : Z) : SilcBuffer * option Z :=
  if b_data sb - len <? 0 then (sb, None)
  else (set_data sb (b_data sb - len), Some (b_data sb)).

Definition silc_buffer_pull_tail (sb : SilcBuffer) (len : Z) : SilcBuffer * option Z :=
  if silc_buffer_taillen sb <? len then (sb, None)
  else (set_tail sb (b_tail sb + len), Some (b_tail sb)).

Definition silc_buffer_push_tail (sb : SilcBuffer) (len : Z) : SilcBuffer * option Z :=
  if b_tail sb - len <? b_data sb then (sb, None)
  else (set_tail sb (b_tail sb - len), Some (b_tail sb)).

(** ** Copying into an area *)

Definition silc_buffer_put_head (sb : SilcBuffer) (data : list Z) (len : Z)
    : SilcBuffer * option Z :=
  if silc_buffer_headlen sb <? len then (sb, None)
  else (set_mem sb (splice 0 (ztake len data) (b_mem sb)), Some 0).

Definition silc_buffer_put (sb : SilcBuffer) (data : list Z) (len : Z)
    : SilcBuffer * option Z :=
  if silc_buffer_len sb <? len then (sb, None)
  else (set_mem sb (splice (b_data sb) (ztake len data) (b_mem sb)), Some (b_data sb)).

Definition silc_buffer_put_tail (sb : SilcBuffer) (data : list Z) (len : Z)
    : SilcBuffer * option Z :=
  if silc_buffer_taillen sb <? len then (sb, None)
  else (set_mem sb (splice (b_tail sb) (ztake len data) (b_mem sb)), Some (b_tail sb)).

(** ** Whole-buffer operations *)

Definition silc_buffer_alloc_size (len : Z) : option SilcBuffer :=
  match silc_buffer_alloc len with
  | None => None
  | Some sb => Some (silc_buffer_pull_tail sb len).1
  end.

Definition silc_buffer_reset (sb : SilcBuffer) : SilcBuffer := mkBuffer (b_mem sb) 0 0.

Definition silc_buffer_clear (sb : SilcBuffer) : SilcBuffer :=
  silc_buffer_reset (set_mem sb (splice 0 (zeros (silc_buffer_truelen sb)) (b_mem sb))).

Definition silc_buffer_start (sb : SilcBuffer) : SilcBuffer := set_data sb 0.

Definition silc_buffer_end (sb : SilcBuffer) : SilcBuffer :=
  set_tail sb (zlen (b_mem sb)).

Definition silc_buffer_copy (sb : SilcBuffer) : option SilcBuffer :=
  match silc_buffer_alloc_size (silc_buffer_len sb) with
  | None => None
  | Some sb_new =>
      Some (silc_buffer_put sb_new (silc_buffer_data sb) (silc_buffer_len sb)).1
  end.

Definition silc_buffer_clone (sb : SilcBuffer) : option SilcBuffer :=
  match silc_buffer_alloc_size (silc_buffer_truelen sb) with
  | None => None
  | Some sb_new =>
      let sb_new := (silc_buffer_put sb_new (b_mem sb) (silc_buffer_truelen sb)).1 in
      let sb_new := set_data sb_new (silc_buffer_headlen sb) in
      Some (set_tail sb_new (b_data sb_new + silc_buffer_len sb))
  end.

(** [sb] is [None] where the code passes NULL. *)
Definition silc_buffer_realloc (sb : option SilcBuffer) (newsize : Z)
    : option SilcBuffer :=
  match sb with
  | None => silc_buffer_alloc newsize
  | Some sb =>
      if newsize <=? silc_buffer_truelen sb then Some sb
      else
        let hlen := silc_buffer_headlen sb in
        let dlen := silc_buffer_len sb in
        match silc_realloc (b_mem sb) newsize with
        | None => None
        | Some h => Some (mkBuffer h hlen (hlen + dlen))
        end
  end.

Definition silc_buffer_realloc_size (sb : option SilcBuffer) (newsize : Z)
    : option SilcBuffer :=
  match silc_buffer_realloc sb newsize with
  | None => None
  | Some sb => Some (silc_buffer_pull_tail sb (silc_buffer_taillen sb)).1
  end.

(** Returns the buffer and whether it is large enough.  The sums are on
    [SilcUInt32]. *)
Definition silc_buffer_enlarge (sb : SilcBuffer) (size : Z) : SilcBuffer * bool :=
  if silc_buffer_len sb <? size then
    let grown :=
      if u32 (silc_buffer_taillen sb + silc_buffer_len sb) <? size then
        silc_buffer_realloc (Some sb)
          (u32 (silc_buffer_truelen sb
                + (size - silc_buffer_taillen sb - silc_buffer_len sb)))
      else Some sb in
    match grown with
    | None => (sb, false)
    | Some sb => ((silc_buffer_pull_tail sb (u32 (size - silc_buffer_len sb))).1, true)
    end
  else (sb, true).

(** ** Well-formedness *)

(** The pointers are ordered inside the block and every length fits [int]. *)
Definition wf_buffer (b : SilcBuffer) : Prop :=
  0 <= b_data b <= b_tail b /\ b_tail b <= zlen (b_mem b) < 2147483648.

(** The three areas. *)
Definition head_area (b : SilcBuffer) : list Z := ztake (b_data b) (b_mem b).
Definition data_area (b : SilcBuffer) : list Z :=
  zslice (b_data b) (b_tail b - b_data b) (b_mem b).
Definition tail_area (b : SilcBuffer) : list Z := zdrop (b_tail b) (b_mem b).

(** A buffer from its three areas. *)
Definition of_areas (h d t : list Z) : SilcBuffer :=
  mkBuffer (h ++ d ++ t) (zlen h) (zlen h + zlen d).

Lemma areas_mem b :
  wf_buffer b -> head_area b ++ data_area b ++ tail_area b = b_mem b.
Proof.
  intros [??]. unfold head_area, data_area, tail_area, zslice.
  replace (b_tail b) with (b_data b + (b_tail b - b_data b)) at 2 by lia.
  rewrite <- zdrop_zdrop by lia. by rewrite !ztake_drop.
Qed.

Lemma of_areas_eta b :
  wf_buffer b -> of_areas (head_area b) (data_area b) (tail_area b) = b.
Proof.
  intros Hwf. unfold of_areas. rewrite areas_mem by done. destruct Hwf as [H1 H2].
  destruct b as [m d t]; cbn in *. unfold head_area, data_area; cbn.
  rewrite zlen_slice, zlen_take by lia. f_equal; lia.
Qed.

Section Areas.
Context (h d t : list Z).
Hypothesis fits : zlen h + zlen d + zlen t < 2147483648.

Let b := of_areas h d t.

Lemma of_areas_wf : wf_buffer b.
Proof. unfold wf_buffer, b, of_areas; cbn. zl. Qed.

Lemma of_areas_head : head_area b = h.
Proof. unfold head_area, b, of_areas; cbn. by apply ztake_app_exact. Qed.

Lemma of_areas_data : data_area b = d.
Proof.
  unfold data_area, zslice, b, of_areas; cbn. rewrite zdrop_app_exact by done.
  apply ztake_app_exact. lia.
Qed.

Lemma of_areas_tail : tail_area b = t.
Proof.
  unfold tail_area, b, of_areas; cbn. rewrite app_assoc.
  apply zdrop_app_exact. by rewrite zlen_app.
Qed.

Lemma of_areas_len : silc_buffer_len b = zlen d.
Proof. unfold silc_buffer_len, b, of_areas; cbn. rewrite u32_id; zl. Qed.

Lemma of_areas_truelen : silc_buffer_truelen b = zlen h + zlen d + zlen t.
Proof. unfold silc_buffer_truelen, b, of_areas; cbn. rewrite u32_id; zl. Qed.

Lemma of_areas_headlen : silc_buffer_headlen b = zlen h.
Proof. unfold silc_buffer_headlen, b, of_areas; cbn. rewrite u32_id; zl. Qed.

Lemma of_areas_taillen : silc_buffer_taillen b = zlen t.
Proof. unfold silc_buffer_taillen, b, of_areas; cbn. rewrite u32_id; zl. Qed.
End Areas.

Create Rewrite HintDb areas.
#[export] Hint Rewrite of_areas_len of_areas_truelen of_areas_headlen of_areas_taillen
  of_areas_head of_areas_data of_areas_tail using zl : areas.

(** ** Each operation on the three areas *)

Lemma pull_areas h x d t :
  zlen h + zlen x + zlen d + zlen t < 2147483648 ->
  silc_buffer_pull (of_areas h (x ++ d) t) (zlen x) =
  (of_areas (h ++ x) d t, Some (zlen h)).
Proof.
  intros. unfold silc_buffer_pull. rewrite of_areas_len by zl.
  rewrite (proj2 (Z.ltb_ge _ _)) by zl.
  unfold set_data, of_areas; cbn. f_equal. f_equal; [by rewrite <- !app_assoc|zl..].
Qed.

Lemma push_areas h x d t :
  silc_buffer_push (of_areas (h ++ x) d t) (zlen x) =
  (of_areas h (x ++ d) t, Some (zlen (h ++ x))).
Proof.
  unfold silc_buffer_push, of_areas; cbn.
  rewrite (proj2 (Z.ltb_ge _ _)) by zl.
  unfold set_data; cbn. f_equal. f_equal; [by rewrite <- !app_assoc|zl..].
Qed.

Lemma pull_tail_areas h d x t :
  zlen h + zlen d + zlen x + zlen t < 2147483648 ->
  silc_buffer_pull_tail (of_areas h d (x ++ t)) (zlen x) =
  (of_areas h (d ++ x) t, Some (zlen h + zlen d)).
Proof.
  intros. unfold silc_buffer_pull_tail. rewrite of_areas_taillen by zl.
  rewrite (proj2 (Z.ltb_ge _ _)) by zl.
  unfold set_tail, of_areas; cbn. f_equal. f_equal; [by rewrite <- !app_assoc|zl..].
Qed.

Lemma push_tail_areas h d x t :
  silc_buffer_push_tail (of_areas h (d ++ x) t) (zlen x) =
  (of_areas h d (x ++ t), Some (zlen h + zlen (d ++ x))).
Proof.
  unfold silc_buffer_push_tail, of_areas; cbn.
  rewrite (proj2 (Z.ltb_ge _ _)) by zl.
  unfold set_tail; cbn. f_equal. f_equal; [by rewrite <- !app_assoc|zl..].
Qed.

Lemma put_areas h y d t x :
  zlen h + zlen x + zlen d + zlen t < 2147483648 -> zlen y = zlen x ->
  silc_buffer_put (of_areas h (y ++ d) t) x (zlen x) =
  (of_areas h (x ++ d) t, Some (zlen h)).
Proof.
  intros ? E. unfold silc_buffer_put. rewrite of_areas_len by zl.
  rewrite (proj2 (Z.ltb_ge _ _)) by zl.
  unfold set_mem, of_areas, splice; cbn. rewrite (ztake_ge _ x) by lia.
  rewrite ztake_app_exact by done. rewrite zdrop_app_r by zl.
  rewrite <- app_assoc, zdrop_app_exact by lia.
  f_equal. f_equal; [by rewrite <- !app_assoc|zl..].
Qed.

(** An operation that asks for more than its area holds changes nothing. *)
Lemma pull_areas_fail h d t n :
  zlen h + zlen d + zlen t < 2147483648 -> zlen d < n ->
  silc_buffer_pull (of_areas h d t) n = (of_areas h d t, None).
Proof.
  intros. unfold silc_buffer_pull. rewrite of_areas_len by zl.
  by rewrite (proj2 (Z.ltb_lt _ _)) by lia.
Qed.

Lemma push_areas_fail h d t n :
  zlen h < n -> silc_buffer_push (of_areas h d t) n = (of_areas h d t, None).
Proof.
  intros. unfold silc_buffer_push, of_areas; cbn.
  by rewrite (proj2 (Z.ltb_lt _ _)) by lia.
Qed.

Lemma alloc_size_areas len :
  0 <= len < SILC_MAX_ALLOC ->
  silc_buffer_alloc_size len = Some (of_areas [] (zeros len) []).
Proof.
  unfold SILC_MAX_ALLOC. intros. unfold silc_buffer_alloc_size, silc_buffer_alloc.
  destruct (Z.eqb_spec len 0) as [->|]; [done|].
  rewrite silc_calloc_ok by (unfold SILC_MAX_ALLOC; lia). rewrite Z.mul_1_l.
  assert (E : zlen (zeros len) = len) by (apply zlen_zeros; lia).
  f_equal. change (mkBuffer (zeros len) 0 0) with (of_areas [] [] (zeros len)).
  rewrite <- (app_nil_r (zeros len)) at 1. rewrite <- E at 2.
  by rewrite pull_tail_areas by zl.
Qed.

Lemma set_areas data len :
  zlen data = len -> silc_buffer_set data len = of_areas [] data [].
Proof.
  intros <-. unfold silc_buffer_set, of_areas. cbn.
  by rewrite ztake_ge, app_nil_r by lia.
Qed.

Lemma realloc_areas h d t size :
  zlen h + zlen d + zlen t < size -> size < SILC_MAX_ALLOC ->
  silc_buffer_realloc (Some (of_areas h d t)) size =
  Some (of_areas h d (t ++ zeros (size - (zlen h + zlen d + zlen t)))).
Proof.
  unfold SILC_MAX_ALLOC. intros. unfold silc_buffer_realloc.
  autorewrite with areas. rewrite (proj2 (Z.leb_gt _ _)) by lia.
  rewrite silc_realloc_ok by (unfold SILC_MAX_ALLOC, of_areas; cbn; zl).
  f_equal. unfold of_areas; cbn. rewrite <- !app_assoc. do 5 f_equal. zl.
Qed.

(** [silc_buffer_enlarge] by cases: the data area is large enough, the tail
    area has the missing bytes, or the block grows by exactly what is missing. *)
Lemma enlarge_areas_tail h d x t :
  zlen h + zlen d + zlen x + zlen t < 2147483648 ->
  silc_buffer_enlarge (of_areas h d (x ++ t)) (zlen d + zlen x) =
  (of_areas h (d ++ x) t, true).
Proof.
  intros. unfold silc_buffer_enlarge. autorewrite with areas.
  destruct (Z.ltb_spec (zlen d) (zlen d + zlen x)).
  - rewrite (proj2 (Z.ltb_ge _ _)) by (rewrite u32_id; zl).
    autorewrite with areas. rewrite u32_id by zl.
    replace (zlen d + zlen x - zlen d) with (zlen x) by lia.
    by rewrite pull_tail_areas by lia.
  - assert (x = []) as -> by (apply zlen_zero_nil; zl). by rewrite app_nil_r.
Qed.

Lemma enlarge_areas_grow h d t size :
  zlen h + zlen d + zlen t < 2147483648 ->
  zlen d + zlen t < size -> zlen h + size < SILC_MAX_ALLOC ->
  silc_buffer_enlarge (of_areas h d t) size =
  (of_areas h (d ++ t ++ zeros (size - zlen d - zlen t)) [], true).
Proof.
  unfold SILC_MAX_ALLOC. intros. unfold silc_buffer_enlarge. autorewrite with areas.
  zlen_facts. rewrite (proj2 (Z.ltb_lt _ _)) by lia.
  rewrite u32_id, (proj2 (Z.ltb_lt _ _)) by lia. rewrite u32_id by lia.
  rewrite realloc_areas by (unfold SILC_MAX_ALLOC; lia).
  replace (zlen h + zlen d + zlen t + (size - zlen t - zlen d) - (zlen h + zlen d + zlen t))
    with (size - zlen d - zlen t) by lia.
  set (z := zeros (size - zlen d - zlen t)).
  assert (Ez : zlen z = size - zlen d - zlen t) by (apply zlen_zeros; lia).
  clearbody z. autorewrite with areas. rewrite u32_id by lia.
  replace (size - zlen d) with (zlen (t ++ z)) by zl.
  rewrite <- (app_nil_r (t ++ z)) at 1. by rewrite pull_tail_areas by zl.
Qed.

Lemma enlarge_areas_enough h d t size :
  zlen h + zlen d + zlen t < 2147483648 -> size <= zlen d ->
  silc_buffer_enlarge (of_areas h d t) size = (of_areas h d t, true).
Proof.
  intros. unfold silc_buffer_enlarge. autorewrite with areas.
  by rewrite (proj2 (Z.ltb_ge _ _)) by lia.
Qed.

(** A buffer that is all data, as the encoders return it. *)
Definition whole (bytes : list Z) : SilcBuffer := of_areas [] bytes [].

Lemma whole_data bytes : silc_buffer_data (whole bytes) = bytes.
Proof. unfold silc_buffer_data, whole, of_areas; cbn. by rewrite app_nil_r, zdrop_0. Qed.

Lemma whole_len bytes : zlen bytes < 4294967296 -> silc_buffer_len (whole bytes) = zlen bytes.
Proof. intros. unfold silc_buffer_len, whole, of_areas; cbn. rewrite u32_id; zl. Qed.

Lemma set_whole data len : zlen data = len -> silc_buffer_set data len = whole data.
Proof. apply set_areas. Qed.
