(* ===== verification/BuffFmt.v ===== *)
(** * Formatting and unformatting buffers ([lib/silcutil/silcbuffmt.c])

    The variadic [silc_buffer_format] / [silc_buffer_unformat] read typed
    arguments up to [SILC_PARAM_END]; here the argument list is a [list] whose
    end stands for that marker.  The parameter types that share a [case] of
    the source share a constructor; the two that share the FUNC case's callback
    are Coq functions on buffers.  [stack] is NULL throughout, as in
    [silc_buffer_format].

    The second half gives the reference semantics: formatting writes the
    concatenation of the arguments' encodings over the data area (growing it
    when needed) and unformatting parses the data area, and both leave the
    [data] pointer where it was. *)

From S2P Require Import Prelude CTypes Memory Buffer.

(** Length of the C string at the start of a block. *)
Fixpoint strlen (x : list Z) : Z :=
  match x with
  | [] => 0
  | c :: x => if c =? 0 then 0 else 1 + strlen x
  end.

Module Format.

(** ** Formatting arguments ([SilcBufferParamType]) *)

Inductive fmt_arg :=
  | PARAM_FUNC (func : SilcBuffer -> SilcBuffer * Z)
  | PARAM_STRING (x : option (list Z))
  | PARAM_NSTRING (x : option (list Z)) (len : Z)
  | PARAM_UI8_CHAR (x : Z)
  | PARAM_UI16_SHORT (x : Z)
  | PARAM_UI32_INT (x : Z)
  | PARAM_UI64_INT (x : Z)
  | PARAM_SI8_CHAR (x : Z)
  | PARAM_SI16_SHORT (x : Z)
  | PARAM_SI32_INT (x : Z)
  | PARAM_SI64_INT (x : Z)
  | PARAM_BUFFER (x : option SilcBuffer)
  | PARAM_OFFSET (offst : Z)
  | PARAM_ADVANCE
  | PARAM_BAD.

(** The locals of [silc_buffer_sformat_vp]. *)
Record fmt_state := mkFmt { dst : SilcBuffer; flen : Z; advance : bool }.

(** The state at the end of a case, and whether the case ended normally
    ([true]) or by [goto fail]. *)
Definition fmt_res : Type := fmt_state * bool.

Definition fbind (r : fmt_res) (k : fmt_state -> fmt_res) : fmt_res :=
  if r.2 then k r.1 else r.

Definition set_dst (s : fmt_state) (b : SilcBuffer) : fmt_state :=
  mkFmt b (flen s) (advance s).

(** [FORMAT_HAS_SPACE(stack, dst, req)]. *)
Definition FORMAT_HAS_SPACE (s : fmt_state) (req : Z) : fmt_res :=
  match silc_buffer_enlarge (dst s) req with
  | (b, true) => (mkFmt b (i32 (flen s + req)) (advance s), true)
  | (b, false) => (set_dst s b, false)
  end.

(** [silc_buffer_put(dst, xf, n); silc_buffer_pull(dst, n);]. *)
Definition put_pull (s : fmt_state) (xf : list Z) (n : Z) : fmt_state :=
  set_dst s (silc_buffer_pull (silc_buffer_put (dst s) xf n).1 n).1.

Definition format_bytes (s : fmt_state) (xf : list Z) (n : Z) : fmt_res :=
  fbind (FORMAT_HAS_SPACE s n) (fun s => (put_pull s xf n, true)).

(** One [case] of the switch. *)
Definition format_arg (s : fmt_state) (a : fmt_arg) : fmt_res :=
  match a with
  | PARAM_FUNC func =>
      let '(b, tmp_len) := func (dst s) in
      let s := set_dst s b in
      if tmp_len <? 0 then (s, false)
      else if negb (tmp_len =? 0)
      then (mkFmt (silc_buffer_pull b tmp_len).1 (i32 (flen s + tmp_len)) (advance s), true)
      else (s, true)
  | PARAM_STRING x =>
      let tmp_len := match x with Some x => u32 (strlen x) | None => 0 end in
      match x with
      | Some x => if negb (tmp_len =? 0) then format_bytes s x tmp_len else (s, true)
      | None => (s, true)
      end
  | PARAM_NSTRING x len =>
      let tmp_len := u32 len in
      match x with
      | Some x => if negb (tmp_len =? 0) then format_bytes s x tmp_len else (s, true)
      | None => (s, true)
      end
  | PARAM_UI8_CHAR x => format_bytes s [u8 x] 1
  | PARAM_UI16_SHORT x => format_bytes s (SILC_PUT16_MSB (u16 x)) 2
  | PARAM_UI32_INT x => format_bytes s (SILC_PUT32_MSB (u32 x)) 4
  | PARAM_UI64_INT x => format_bytes s (SILC_PUT64_MSB (u64 x)) 8
  | PARAM_SI8_CHAR x => format_bytes s [u8 (i8 x)] 1
  | PARAM_SI16_SHORT x => format_bytes s (SILC_PUT16_MSB (i16 x)) 2
  | PARAM_SI32_INT x => format_bytes s (SILC_PUT32_MSB (i32 x)) 4
  | PARAM_SI64_INT x => format_bytes s (SILC_PUT64_MSB (i64 x)) 8
  | PARAM_BUFFER x =>
      match x with
      | Some x =>
          if negb (silc_buffer_len x =? 0) then
            fbind (FORMAT_HAS_SPACE s (u32 (silc_buffer_len x + 4))) (fun s =>
              let s := put_pull s (SILC_PUT32_MSB (silc_buffer_len x)) 4 in
              (put_pull s (silc_buffer_data x) (silc_buffer_len x), true))
          else (s, true)
      | None => (s, true)
      end
  | PARAM_OFFSET offst =>
      if offst =? 0 then (s, true)
      else if 1 <? offst then
        if silc_buffer_len (dst s) <? u32 offst then (s, false)
        else (mkFmt (silc_buffer_pull (dst s) offst).1 (i32 (flen s + offst)) (advance s), true)
      else (mkFmt (silc_buffer_push (dst s) (u32 (- offst))).1
                  (i32 (flen s + - offst)) (advance s), true)
  | PARAM_ADVANCE => (mkFmt (dst s) (flen s) true, true)
  | PARAM_BAD => (s, false)
  end.

(** [while (1) { fmt = va_arg(...); switch (fmt) ... }]. *)
Fixpoint format_loop (s : fmt_state) (ap : list fmt_arg) : fmt_res :=
  match ap with
  | [] => (s, true)
  | a :: ap => fbind (format_arg s a) (fun s => format_loop s ap)
  end.

(** The buffer is pushed back to where it was unless it is to advance; the
    result is the formatted length, or -1. *)
Definition silc_buffer_sformat_vp (b : SilcBuffer) (ap : list fmt_arg) : SilcBuffer * Z :=
  let '(s, ok) := format_loop (mkFmt b 0 false) ap in
  let b' := if advance s then dst s else (silc_buffer_push (dst s) (u32 (flen s))).1 in
  (b', if ok then flen s else -1).

Definition silc_buffer_format : SilcBuffer -> list fmt_arg -> SilcBuffer * Z :=
  silc_buffer_sformat_vp.

(** ** Reference semantics *)

(** The bytes an argument stands for. *)
Definition enc_arg (a : fmt_arg) : list Z :=
  match a with
  | PARAM_STRING (Some x) => ztake (strlen x) x
  | PARAM_NSTRING (Some x) len => ztake len x
  | PARAM_UI8_CHAR x | PARAM_SI8_CHAR x => [u8 x]
  | PARAM_UI16_SHORT x | PARAM_SI16_SHORT x => SILC_PUT16_MSB x
  | PARAM_UI32_INT x | PARAM_SI32_INT x => SILC_PUT32_MSB x
  | PARAM_UI64_INT x | PARAM_SI64_INT x => SILC_PUT64_MSB x
  | PARAM_BUFFER (Some x) =>
      if zlen (data_area x) =? 0 then []
      else SILC_PUT32_MSB (zlen (data_area x)) ++ data_area x
  | _ => []
  end.

(** Arguments that write data: no callback and no pointer movement, and the
    data pointed to is as long as it is said to be. *)
Definition data_arg (a : fmt_arg) : Prop :=
  match a with
  | PARAM_FUNC _ | PARAM_OFFSET _ | PARAM_ADVANCE | PARAM_BAD => False
  | PARAM_NSTRING (Some x) len => 0 <= len <= zlen x
  | PARAM_BUFFER (Some x) => wf_buffer x
  | _ => True
  end.

Definition enc_args (ap : list fmt_arg) : list Z := concat (enc_arg <$> ap).

(** The areas after writing [e] at the data pointer and pulling past it. *)
Definition written (h d t e : list Z) : SilcBuffer :=
  of_areas (h ++ e) (zdrop (zlen e) d) (zdrop (zlen e - zlen d) t).

(** Room for the buffer and for [n] more bytes after [h] in one allocation. *)
Definition fits (h d t : list Z) (n : Z) : Prop :=
  zlen h + zlen d + zlen t < SILC_MAX_ALLOC /\ zlen h + n < SILC_MAX_ALLOC.

Lemma put_pull_areas f adv h y d t x n :
  zlen h + n + zlen d + zlen t < 2147483648 ->
  0 <= n -> zlen (ztake n x) = n -> zlen y = n ->
  put_pull (mkFmt (of_areas h (y ++ d) t) f adv) x n =
  mkFmt (of_areas (h ++ ztake n x) d t) f adv.
Proof.
  intros Hb Hn Hx Hy. assert (n <= zlen x).
  { rewrite zlen_take_min in Hx by lia. lia. }
  unfold put_pull, set_dst; cbn [dst flen advance]. f_equal.
  assert (E : silc_buffer_put (of_areas h (y ++ d) t) x n =
              silc_buffer_put (of_areas h (y ++ d) t) (ztake n x) (zlen (ztake n x))).
  { rewrite Hx. unfold silc_buffer_put. by rewrite ztake_ztake by lia. }
  rewrite E, put_areas by lia. cbn [fst].
  rewrite <- Hx at 2. by rewrite pull_areas by lia.
Qed.

(** Two copies, one after the other. *)
Lemma put_pull_twice f adv h y d t x1 n1 x2 n2 :
  zlen h + zlen y + zlen d + zlen t < 2147483648 ->
  0 <= n1 <= zlen x1 -> 0 <= n2 <= zlen x2 -> zlen y = n1 + n2 ->
  put_pull (put_pull (mkFmt (of_areas h (y ++ d) t) f adv) x1 n1) x2 n2 =
  mkFmt (of_areas (h ++ ztake n1 x1 ++ ztake n2 x2) d t) f adv.
Proof.
  intros. rewrite <- (ztake_drop n1 y), <- app_assoc.
  assert (Hm : forall n (x : list Z), 0 <= n <= zlen x -> zlen (ztake n x) = n)
    by (intros; by apply zlen_take).
  zlen_facts. rewrite put_pull_areas by (rewrite ?zlen_app, ?zlen_drop, ?Hm; lia).
  rewrite put_pull_areas by (rewrite ?zlen_app, ?zlen_drop, ?Hm; lia).
  by rewrite <- app_assoc.
Qed.

(** [FORMAT_HAS_SPACE]: the data area now starts with [n] bytes to write on. *)
Lemma has_space_areas f adv h d t n :
  fits h d t n -> 0 <= n -> 0 <= f -> f + n < SILC_MAX_ALLOC ->
  exists y,
    zlen y = n /\
    FORMAT_HAS_SPACE (mkFmt (of_areas h d t) f adv) n =
    (mkFmt (of_areas h (y ++ zdrop n d) (zdrop (n - zlen d) t)) (f + n) adv, true).
Proof.
  unfold fits, SILC_MAX_ALLOC. intros [? ?] ? ? ?. zlen_facts.
  unfold FORMAT_HAS_SPACE, set_dst; cbn [dst flen advance].
  destruct (Z.le_gt_cases n (zlen d)) as [C1|C1].
  - exists (ztake n d). split; [apply zlen_take; lia|].
    rewrite enlarge_areas_enough, ztake_drop, (zdrop_0 _ t), i32_id by lia. done.
  - rewrite (zdrop_ge n d) by lia.
    destruct (Z.le_gt_cases n (zlen d + zlen t)) as [C2|C2].
    + exists (d ++ ztake (n - zlen d) t). rewrite zlen_app, zlen_take by lia.
      split; [lia|].
      pose proof (enlarge_areas_tail h d (ztake (n - zlen d) t) (zdrop (n - zlen d) t)) as E.
      rewrite ztake_drop, zlen_take, zlen_drop in E by lia.
      replace (zlen d + (n - zlen d)) with n in E by lia.
      by rewrite E, i32_id, app_nil_r by lia.
    + exists (d ++ t ++ zeros (n - zlen d - zlen t)).
      rewrite !zlen_app, zlen_zeros by lia. split; [lia|].
      rewrite enlarge_areas_grow by (unfold SILC_MAX_ALLOC; lia).
      by rewrite (zdrop_ge (n - zlen d) t), i32_id, app_nil_r by lia.
Qed.

Lemma format_bytes_areas f adv h d t x n :
  fits h d t n -> 0 <= n <= zlen x -> 0 <= f -> f + n < SILC_MAX_ALLOC ->
  format_bytes (mkFmt (of_areas h d t) f adv) x n =
  (mkFmt (written h d t (ztake n x)) (f + n) adv, true).
Proof.
  intros Hfit Hn Hf Hfn. pose proof Hfit as [? ?]. unfold SILC_MAX_ALLOC in *.
  assert (E : zlen (ztake n x) = n) by (apply zlen_take; lia).
  destruct (has_space_areas f adv h d t n) as (y & Hy & Hs); try done; try lia.
  unfold format_bytes. rewrite Hs. unfold fbind; cbn [fst snd].
  rewrite put_pull_areas by (rewrite ?zlen_drop_max; zlen_facts; lia).
  unfold written. by rewrite E.
Qed.

Lemma written_nil h d t : written h d t [] = of_areas h d t.
Proof. unfold written. rewrite app_nil_r, !zdrop_0 by zl. done. Qed.

Lemma strlen_range x : 0 <= strlen x <= zlen x.
Proof. induction x as [|c x IH]; cbn; [done|]. case_match; zl. Qed.

Lemma wf_data_area_len x : wf_buffer x -> silc_buffer_len x = zlen (data_area x).
Proof.
  intros Hwf. pose proof Hwf as [??]. rewrite <- (of_areas_eta x) at 1 by done.
  rewrite of_areas_len; [done|].
  rewrite <- !zlen_app, <- app_assoc, areas_mem; lia || done.
Qed.

Lemma wf_data_take x :
  wf_buffer x -> ztake (silc_buffer_len x) (silc_buffer_data x) = data_area x.
Proof.
  intros [??]. unfold silc_buffer_len, silc_buffer_data, data_area, zslice.
  by rewrite u32_id by lia.
Qed.

(** A data argument writes its encoding and moves past it. *)
Lemma format_arg_areas f adv h d t a :
  data_arg a -> fits h d t (zlen (enc_arg a)) ->
  0 <= f -> f + zlen (enc_arg a) < SILC_MAX_ALLOC ->
  format_arg (mkFmt (of_areas h d t) f adv) a =
  (mkFmt (written h d t (enc_arg a)) (f + zlen (enc_arg a)) adv, true).
Proof.
  intros Ha Hfit Hf Hfn. pose proof Hfit as [Hfit1 Hfit2].
  unfold SILC_MAX_ALLOC in Hfit1, Hfit2, Hfn.
  assert (Hskip : enc_arg a = [] ->
    (mkFmt (of_areas h d t) f adv, true) =
    (mkFmt (written h d t (enc_arg a)) (f + zlen (enc_arg a)) adv, true)).
  { intros ->. by rewrite written_nil, Z.add_0_r. }
  assert (Hput : forall x n, 0 <= n <= zlen x -> ztake n x = enc_arg a ->
    format_bytes (mkFmt (of_areas h d t) f adv) x n =
    (mkFmt (written h d t (enc_arg a)) (f + zlen (enc_arg a)) adv, true)).
  { intros x n Hn E. rewrite <- E in *. rewrite zlen_take in * by lia.
    by apply format_bytes_areas. }
  destruct a as [|[x|]|[x|] len| | | | | | | | |[x|]| | |]; cbn [format_arg data_arg] in *;
    try done; try (by apply Hskip);
    try (apply Hput; autorewrite with machine; [done|by rewrite ztake_ge by done]).
  - (* a C string *)
    pose proof (strlen_range x). cbn [enc_arg] in *. rewrite zlen_take in * by lia.
    rewrite u32_id by lia. destruct (Z.eqb_spec (strlen x) 0) as [E|]; cbn [negb].
    + apply Hskip. by apply ztake_0; lia.
    + by apply Hput.
  - (* counted data *)
    cbn [enc_arg] in *. rewrite zlen_take in * by lia.
    rewrite u32_id by lia. destruct (Z.eqb_spec len 0) as [E|]; cbn [negb].
    + apply Hskip. by apply ztake_0; lia.
    + by apply Hput.
  - (* a buffer *)
    cbn [enc_arg] in *. rewrite !wf_data_area_len in * by done.
    destruct (Z.eqb_spec (zlen (data_area x)) 0) as [E|]; cbn [negb]; [by apply Hskip|].
    rewrite zlen_app, zlen_put32 in *. rewrite u32_id by zl.
    destruct (has_space_areas f adv h d t (zlen (data_area x) + 4)) as (y & Hy & ->);
      try zl. { unfold fits, SILC_MAX_ALLOC. lia. } { unfold SILC_MAX_ALLOC. lia. }
    unfold fbind; cbn [fst snd].
    assert (Hdl : zlen (data_area x) <= zlen (silc_buffer_data x)).
    { rewrite <- wf_data_take, zlen_take_min by (done || apply u32_range). lia. }
    rewrite put_pull_twice; try zl.
    + replace (ztake (zlen (data_area x)) (silc_buffer_data x)) with (data_area x)
        by (by rewrite <- wf_data_area_len, wf_data_take).
      rewrite ztake_ge by done. unfold written. rewrite zlen_app, zlen_put32.
      by rewrite (Z.add_comm (zlen (data_area x)) 4).
    + rewrite !zlen_drop_max. zl.
Qed.

(** Writing [e1] and then [e2] is writing [e1 ++ e2]. *)
Lemma written_app h d t e1 e2 :
  written (h ++ e1) (zdrop (zlen e1) d) (zdrop (zlen e1 - zlen d) t) e2 =
  written h d t (e1 ++ e2).
Proof.
  unfold written. rewrite <- app_assoc, zlen_app, !zlen_drop_max, zdrop_zdrop by zl.
  f_equal. zlen_facts. destruct (Z.le_gt_cases (zlen e1) (zlen d)) as [C|C].
  - rewrite (zdrop_0 (zlen e1 - zlen d) t) by lia. f_equal. lia.
  - rewrite zdrop_zdrop by lia. f_equal. lia.
Qed.

Lemma fits_written h d t e n :
  fits h d t (zlen e + n) -> 0 <= n ->
  fits (h ++ e) (zdrop (zlen e) d) (zdrop (zlen e - zlen d) t) n.
Proof. unfold fits. intros [??] ?. rewrite zlen_app, !zlen_drop_max. zlen_facts. lia. Qed.

Lemma format_loop_areas ap : forall f adv h d t,
  Forall data_arg ap -> fits h d t (zlen (enc_args ap)) ->
  0 <= f -> f + zlen (enc_args ap) < SILC_MAX_ALLOC ->
  format_loop (mkFmt (of_areas h d t) f adv) ap =
  (mkFmt (written h d t (enc_args ap)) (f + zlen (enc_args ap)) adv, true).
Proof.
  unfold enc_args. induction ap as [|a ap IH]; intros f adv h d t Ha Hfit Hf Hn.
  - cbn. by rewrite written_nil, Z.add_0_r.
  - apply list.Forall_cons_1 in Ha as [Ha Hap]. cbn [fmap list_fmap concat] in *.
    rewrite zlen_app in *. cbn [format_loop].
    pose proof (zlen_nonneg (enc_arg a)). set (e := concat _) in *.
    pose proof (zlen_nonneg e). destruct Hfit as [Hfit1 Hfit2].
    rewrite format_arg_areas; [|done|unfold fits in *; lia..].
    unfold fbind; cbn [fst snd]. unfold written at 1.
    rewrite IH; [|done|by apply fits_written|lia|lia].
    rewrite written_app. do 2 f_equal. lia.
Qed.

(** Formatting data arguments writes the concatenation of their encodings over
    the data area, which grows into the tail area and then by reallocation, and
    leaves the data pointer at the start of what was written. *)
Theorem format_areas h d t ap :
  Forall data_arg ap -> fits h d t (zlen (enc_args ap)) ->
  silc_buffer_format (of_areas h d t) ap =
  (of_areas h (enc_args ap ++ zdrop (zlen (enc_args ap)) d)
      (zdrop (zlen (enc_args ap) - zlen d) t),
   zlen (enc_args ap)).
Proof.
  intros Ha Hfit. pose proof Hfit as [Hfit1 Hfit2].
  unfold SILC_MAX_ALLOC in *. zlen_facts.
  unfold silc_buffer_format, silc_buffer_sformat_vp.
  rewrite format_loop_areas by (unfold SILC_MAX_ALLOC; done || lia).
  cbn [advance dst flen]. rewrite Z.add_0_l, u32_id by lia.
  unfold written. by rewrite push_areas.
Qed.

End Format.

Module Unformat.

(** Width of the length prefix of a string parameter. *)
Inductive lenw := UI8 | UI16 | UI32.

(** Unformatting arguments.  An argument carries the values the caller passes
    in; what the call stores through the caller's pointers is an output. *)
Inductive uf_arg :=
  | U_DATA (len2 : Z)                 (* UI_XNSTRING, DATA *)
  | U_DATA_ALLOC (len2 : Z)           (* UI_XNSTRING_ALLOC, DATA_ALLOC *)
  | U_UI8_CHAR
  | U_UI16_SHORT
  | U_UI32_INT
  | U_UI64_INT
  | U_SI8_CHAR
  | U_SI16_SHORT
  | U_SI32_INT
  | U_SI64_INT
  | U_STRING (w : lenw)               (* UIn_STRING *)
  | U_STRING_ALLOC (w : lenw)         (* UIn_STRING_ALLOC *)
  | U_NSTRING (w : lenw)              (* UIn_NSTRING *)
  | U_NSTRING_ALLOC (w : lenw)        (* UIn_NSTRING_ALLOC *)
  | U_BUFFER
  | U_BUFFER_ALLOC (x : SilcBuffer)
  | U_OFFSET (offst : Z)
  | U_ADVANCE
  | U_BAD.

(** What is stored through the caller's pointers: an integer, a pointer into
    the buffer (all the bytes it sees up to the end of the block), a fresh
    block, the latter two with the length where the parameter has one, or a
    buffer.  [None] is a pointer the call leaves as the caller set it. *)
Inductive uval :=
  | VInt (x : Z)
  | VPtr (x : option (list Z))
  | VStr (x : option (list Z)) (len : Z)
  | VBuf (x : SilcBuffer).

Record uf_state := mkUf { src : SilcBuffer; outs : list uval; uadvance : bool }.

Definition uf_res : Type := uf_state * bool.

Definition ubind (r : uf_res) (k : uf_state -> uf_res) : uf_res :=
  if r.2 then k r.1 else r.

(** [UNFORMAT_HAS_SPACE(src, req)] with [req] of type [SilcUInt32]. *)
Definition UNFORMAT_HAS_SPACE (s : uf_state) (req : Z) : uf_res :=
  if silc_buffer_len (src s) <? req then (s, false)
  else if u32 (req + 1) <=? 0 then (s, false)
  else (s, true).

(** The same with [req] an [int]. *)
Definition UNFORMAT_HAS_SPACE_int (s : uf_state) (req : Z) : uf_res :=
  if silc_buffer_len (src s) <? u32 req then (s, false)
  else if i32 (req + 1) <=? 0 then (s, false)
  else (s, true).

Definition upull (s : uf_state) (n : Z) : uf_state :=
  mkUf (silc_buffer_pull (src s) n).1 (outs s) (uadvance s).

Definition out (s : uf_state) (v : uval) : uf_state :=
  mkUf (src s) (outs s ++ [v]) (uadvance s).

(** [*x = silc_scalloc(stack, n + 1, 1); if ( *x) memcpy( *x, src->data, n);]. *)
Definition alloc_copy (p : list Z) (n : Z) : option (list Z) :=
  match silc_scalloc_heap (n + 1) 1 with
  | None => None
  | Some x => Some (splice 0 (ztake n p) x)
  end.

(** An integer of [n] bytes read by [get]. *)
Definition unformat_int (s : uf_state) (n : Z) (get : list Z -> Z) : uf_res :=
  ubind (UNFORMAT_HAS_SPACE_int s n) (fun s =>
    (upull (out s (VInt (get (silc_buffer_data (src s))))) n, true)).

Definition width (w : lenw) : Z := match w with UI8 => 1 | UI16 => 2 | UI32 => 4 end.

Definition get_len (w : lenw) (p : list Z) : Z :=
  match w with
  | UI8 => u8 (znth p 0)
  | UI16 => u16 (SILC_GET16_MSB p)
  | UI32 => SILC_GET32_MSB p
  end.

(** The check on the string that follows its length: [len2] is promoted to
    [int] for the 8 and 16-bit types and is [SilcUInt32] otherwise. *)
Definition HAS_SPACE_w (w : lenw) (s : uf_state) (len2 : Z) : uf_res :=
  match w with
  | UI32 => UNFORMAT_HAS_SPACE s len2
  | _ => UNFORMAT_HAS_SPACE_int s len2
  end.

(** A length prefix and that many bytes; [val] makes the output from the
    pointer to the string and its length. *)
Definition unformat_string (w : lenw) (val : list Z -> Z -> uval) (s : uf_state) : uf_res :=
  ubind (UNFORMAT_HAS_SPACE_int s (width w)) (fun s =>
    let len2 := get_len w (silc_buffer_data (src s)) in
    ubind (HAS_SPACE_w w (upull s (width w)) len2) (fun s =>
      (upull (out s (val (silc_buffer_data (src s)) len2)) len2, true))).

Definition alloc_val (p : list Z) (len2 : Z) : option (list Z) :=
  if len2 =? 0 then None else alloc_copy p len2.

(** One [case] of the switch. *)
Definition unformat_arg (s : uf_state) (a : uf_arg) : uf_res :=
  match a with
  | U_DATA len2 =>
      let len2 := u32 len2 in
      ubind (UNFORMAT_HAS_SPACE s len2) (fun s =>
        let v := if len2 =? 0 then None else Some (silc_buffer_data (src s)) in
        (upull (out s (VPtr v)) len2, true))
  | U_DATA_ALLOC len2 =>
      let len2 := u32 len2 in
      ubind (UNFORMAT_HAS_SPACE s len2) (fun s =>
        (upull (out s (VPtr (alloc_val (silc_buffer_data (src s)) len2))) len2, true))
  | U_UI8_CHAR => unformat_int s 1 (fun p => u8 (znth p 0))
  | U_UI16_SHORT => unformat_int s 2 (fun p => u16 (SILC_GET16_MSB p))
  | U_UI32_INT => unformat_int s 4 SILC_GET32_MSB
  | U_UI64_INT => unformat_int s 8 SILC_GET64_MSB
  | U_SI8_CHAR => unformat_int s 1 (fun p => i8 (znth p 0))
  | U_SI16_SHORT => unformat_int s 2 (fun p => i16 (SILC_GET16_MSB p))
  | U_SI32_INT => unformat_int s 4 (fun p => i32 (SILC_GET32_MSB p))
  | U_SI64_INT => unformat_int s 8 (fun p => i64 (SILC_GET64_MSB p))
  | U_STRING w => unformat_string w (fun p _ => VPtr (Some p)) s
  | U_STRING_ALLOC w => unformat_string w (fun p n => VPtr (alloc_val p n)) s
  | U_NSTRING w => unformat_string w (fun p n => VStr (Some p) n) s
  | U_NSTRING_ALLOC UI32 => (s, false)   (* no such case: the default *)
  | U_NSTRING_ALLOC w => unformat_string w (fun p n => VStr (alloc_val p n) n) s
  | U_BUFFER => unformat_string UI32 (fun p n => VBuf (silc_buffer_set p n)) s
  | U_BUFFER_ALLOC x =>
      ubind (UNFORMAT_HAS_SPACE_int s 4) (fun s =>
        let len2 := SILC_GET32_MSB (silc_buffer_data (src s)) in
        ubind (UNFORMAT_HAS_SPACE (upull s 4) len2) (fun s =>
          let '(x', ret) :=
            Format.silc_buffer_format x
              [Format.PARAM_NSTRING (Some (silc_buffer_data (src s))) len2] in
          if ret <? 0 then (s, false)
          else (upull (out s (VBuf x')) len2, true)))
  | U_OFFSET offst =>
      if offst =? 0 then (s, true)
      else if 1 <? offst then
        ubind (UNFORMAT_HAS_SPACE_int s offst) (fun s => (upull s offst, true))
      else (mkUf (silc_buffer_push (src s) (u32 (- offst))).1 (outs s) (uadvance s), true)
  | U_ADVANCE => (mkUf (src s) (outs s) true, true)
  | U_BAD => (s, false)
  end.

Fixpoint unformat_loop (s : uf_state) (ap : list uf_arg) : uf_res :=
  match ap with
  | [] => (s, true)
  | a :: ap => ubind (unformat_arg s a) (fun s => unformat_loop s ap)
  end.

(** Returns the length unformatted or -1, the buffer, and the outputs.  The
    buffer goes back to its start, on success unless it is to advance ([len]
    is then the initial 0), on failure always. *)
Definition silc_buffer_sunformat_vp (b : SilcBuffer) (ap : list uf_arg)
    : SilcBuffer * Z * list uval :=
  let '(s, ok) := unformat_loop (mkUf b [] false) ap in
  let len := i32 (b_data (src s) - b_data b) in
  let back := (silc_buffer_push (src s) (u32 len)).1 in
  if ok then
    if uadvance s then (src s, 0, outs s) else (back, len, outs s)
  else (back, -1, outs s).

Definition silc_buffer_unformat : SilcBuffer -> list uf_arg -> SilcBuffer * Z * list uval :=
  silc_buffer_sunformat_vp.

(** ** Reference semantics *)

(** [n] bytes of the data area [d], and what they mean; [None] when the area
    is shorter. *)
Definition p_int (n : Z) (v : uval) (d : list Z) : option (list uval * Z) :=
  if zlen d <? n then None else Some ([v], n).

Definition p_string (w : lenw) (val : list Z -> Z -> uval) (d t : list Z)
    : option (list uval * Z) :=
  if zlen d <? width w then None
  else
    let len2 := get_len w d in
    let d' := zdrop (width w) d in
    if zlen d' <? len2 then None else Some ([val (d' ++ t) len2], width w + len2).

(** The outputs of one argument and the number of bytes it takes from [d]; the
    tail area [t] only shows through pointers. *)
Definition uparse1 (a : uf_arg) (d t : list Z) : option (list uval * Z) :=
  match a with
  | U_DATA len2 =>
      p_int (u32 len2) (VPtr (if u32 len2 =? 0 then None else Some (d ++ t))) d
  | U_DATA_ALLOC len2 => p_int (u32 len2) (VPtr (alloc_val (d ++ t) (u32 len2))) d
  | U_UI8_CHAR => p_int 1 (VInt (u8 (znth d 0))) d
  | U_UI16_SHORT => p_int 2 (VInt (SILC_GET16_MSB d)) d
  | U_UI32_INT => p_int 4 (VInt (SILC_GET32_MSB d)) d
  | U_UI64_INT => p_int 8 (VInt (SILC_GET64_MSB d)) d
  | U_SI8_CHAR => p_int 1 (VInt (i8 (znth d 0))) d
  | U_SI16_SHORT => p_int 2 (VInt (i16 (SILC_GET16_MSB d))) d
  | U_SI32_INT => p_int 4 (VInt (i32 (SILC_GET32_MSB d))) d
  | U_SI64_INT => p_int 8 (VInt (i64 (SILC_GET64_MSB d))) d
  | U_STRING w => p_string w (fun p _ => VPtr (Some p)) d t
  | U_STRING_ALLOC w => p_string w (fun p n => VPtr (alloc_val p n)) d t
  | U_NSTRING w => p_string w (fun p n => VStr (Some p) n) d t
  | U_NSTRING_ALLOC UI32 => None
  | U_NSTRING_ALLOC w => p_string w (fun p n => VStr (alloc_val p n) n) d t
  | U_BUFFER => p_string UI32 (fun p n => VBuf (silc_buffer_set p n)) d t
  | U_OFFSET n => if n =? 0 then Some ([], 0) else if zlen d <? n then None else Some ([], n)
  | _ => None
  end.

Fixpoint uparse (ap : list uf_arg) (d t : list Z) : option (list uval * Z) :=
  match ap with
  | [] => Some ([], 0)
  | a :: ap =>
      match uparse1 a d t with
      | None => None
      | Some (v, n) =>
          match uparse ap (zdrop n d) t with
          | None => None
          | Some (vs, m) => Some (v ++ vs, n + m)
          end
      end
  end.

(** Arguments that read data or skip it; the code does not skip a single byte
    ([offset_one]). *)
Definition plain_arg (a : uf_arg) : Prop :=
  match a with
  | U_BUFFER_ALLOC _ | U_ADVANCE => False
  | U_OFFSET n => n = 0 \/ 1 < n < 2147483647
  | _ => True
  end.

(** What a case does to the state, against the reference: on success the bytes
    read move to the head area, on failure some bytes may have. *)
Definition arg_spec (h d t : list Z) (o : list uval) (r : uf_res)
    (p : option (list uval * Z)) : Prop :=
  match p with
  | Some (v, n) =>
      0 <= n <= zlen d /\
      r = (mkUf (of_areas (h ++ ztake n d) (zdrop n d) t) (o ++ v) false, true)
  | None =>
      exists n o', 0 <= n <= zlen d /\
      r = (mkUf (of_areas (h ++ ztake n d) (zdrop n d) t) o' false, false)
  end.

Section Args.
Context (h d t : list Z) (o : list uval).
Hypothesis small : zlen h + zlen d + zlen t < 2147483648.

Let s := mkUf (of_areas h d t) o false.

Lemma has_space_int n :
  0 <= n < 2147483647 -> UNFORMAT_HAS_SPACE_int s n = (s, negb (zlen d <? n)).
Proof.
  intros. unfold UNFORMAT_HAS_SPACE_int, s; cbn [src].
  rewrite of_areas_len, u32_id, i32_id by zl. case_match; [done|].
  by rewrite (proj2 (Z.leb_gt _ _)) by lia.
Qed.

Lemma has_space_u32 n :
  0 <= n < 4294967296 -> UNFORMAT_HAS_SPACE s n = (s, negb (zlen d <? n)).
Proof.
  intros. unfold UNFORMAT_HAS_SPACE, s; cbn [src].
  rewrite of_areas_len by zl. destruct (Z.ltb_spec (zlen d) n); [done|].
  rewrite u32_id by zl. by rewrite (proj2 (Z.leb_gt _ _)) by lia.
Qed.

Lemma data_areas : silc_buffer_data (of_areas h d t) = d ++ t.
Proof. unfold silc_buffer_data, of_areas; cbn. by apply zdrop_app_exact. Qed.

Lemma upull_areas n v :
  0 <= n <= zlen d ->
  upull (mkUf (of_areas h d t) v false) n =
  mkUf (of_areas (h ++ ztake n d) (zdrop n d) t) v false.
Proof.
  intros. unfold upull; cbn [src outs uadvance]. f_equal.
  rewrite <- (ztake_drop n d) at 1.
  rewrite <- (zlen_take n d) at 3 by done.
  rewrite pull_areas by (rewrite zlen_take, zlen_drop; lia). done.
Qed.

Lemma fail_spec : arg_spec h d t o (s, false) None.
Proof.
  exists 0, o. rewrite ztake_0, zdrop_0, app_nil_r by lia. split; [zl|done].
Qed.
End Args.

Section Ints.
Context (h d t : list Z) (o : list uval).
Hypothesis small : zlen h + zlen d + zlen t < 2147483648.

Let s := mkUf (of_areas h d t) o false.

Lemma unformat_int_spec n get v :
  0 <= n < 2147483647 -> (n <= zlen d -> VInt (get (d ++ t)) = v) ->
  arg_spec h d t o (unformat_int s n get) (p_int n v d).
Proof.
  intros Hn Hv. unfold unformat_int, s. rewrite has_space_int by done.
  unfold p_int. destruct (Z.ltb_spec (zlen d) n); cbn.
  - by apply fail_spec.
  - split; [lia|]. rewrite data_areas, Hv by lia.
    unfold out; cbn [src outs uadvance]. by rewrite upull_areas by lia.
Qed.

Lemma unformat_data_spec n val :
  0 <= n < 4294967296 ->
  arg_spec h d t o
    (ubind (UNFORMAT_HAS_SPACE s n) (fun s =>
       (upull (out s (val (silc_buffer_data (src s)))) n, true)))
    (p_int n (val (d ++ t)) d).
Proof.
  intros Hn. unfold s. rewrite has_space_u32 by done.
  unfold p_int. destruct (Z.ltb_spec (zlen d) n); cbn.
  - by apply fail_spec.
  - split; [lia|]. rewrite data_areas.
    unfold out; cbn [src outs uadvance]. by rewrite upull_areas by lia.
Qed.

Lemma get_len_app w : width w <= zlen d -> get_len w (d ++ t) = get_len w d.
Proof.
  intros. destruct w; cbn in *.
  - by rewrite znth_app_l by lia.
  - by rewrite get16_app.
  - by rewrite get32_app.
Qed.

Lemma get_len_range w : 0 <= get_len w d < 4294967296.
Proof.
  destruct w; cbn.
  - pose proof (u8_range (znth d 0)). lia.
  - pose proof (u16_range (SILC_GET16_MSB d)). lia.
  - apply get32_range.
Qed.

Lemma has_space_w h' d' w n :
  zlen h' + zlen d' + zlen t < 2147483648 ->
  0 <= n < match w with UI32 => 4294967296 | _ => 65536 end ->
  HAS_SPACE_w w (mkUf (of_areas h' d' t) o false) n =
  (mkUf (of_areas h' d' t) o false, negb (zlen d' <? n)).
Proof.
  intros. destruct w; cbn [HAS_SPACE_w].
  - by rewrite has_space_int by lia.
  - by rewrite has_space_int by lia.
  - by rewrite has_space_u32 by lia.
Qed.

Lemma unformat_offset_spec n :
  n = 0 \/ 1 < n < 2147483647 ->
  arg_spec h d t o (unformat_arg s (U_OFFSET n)) (uparse1 (U_OFFSET n) d t).
Proof.
  intros Hn. cbn [unformat_arg uparse1]. destruct (Z.eqb_spec n 0) as [->|].
  { cbn. rewrite ztake_0, zdrop_0, !app_nil_r by lia. split; [zl|done]. }
  rewrite (proj2 (Z.ltb_lt 1 n)) by lia. unfold s. rewrite has_space_int by lia.
  destruct (Z.ltb_spec (zlen d) n); cbn [negb ubind fst snd]; [by apply fail_spec|].
  cbn. rewrite upull_areas, app_nil_r by lia. split; [lia|done].
Qed.

(** [SILC_STR_OFFSET(1)] is taken for a negative offset and does nothing. *)
Lemma offset_one : unformat_arg s (U_OFFSET 1) = (s, true).
Proof.
  zlen_facts. unfold s. cbn [unformat_arg Z.eqb Z.ltb Z.compare Pos.compare Pos.compare_cont].
  cbn [src outs uadvance]. rewrite push_areas_fail; [done|]. change (u32 (- (1))) with 4294967295. lia.
Qed.

Lemma unformat_string_spec w val :
  arg_spec h d t o (unformat_string w val s) (p_string w val d t).
Proof.
  assert (Hw : 1 <= width w <= 4) by (destruct w; cbn; lia).
  unfold unformat_string, s. rewrite has_space_int by lia.
  unfold p_string. destruct (Z.ltb_spec (zlen d) (width w)); cbn [negb].
  { by apply fail_spec. }
  unfold ubind at 1; cbn [fst snd src]. rewrite data_areas.
  rewrite get_len_app, upull_areas by lia.
  assert (Hn : 0 <= get_len w d < match w with UI32 => 4294967296 | _ => 65536 end).
  { destruct w; cbn; [pose proof (u8_range (znth d 0)); lia|apply u16_range|].
    apply get32_range. }
  set (n := get_len w d) in *. set (k := width w) in *. clearbody n k.
  rewrite has_space_w by (rewrite ?zlen_app, ?zlen_take, ?zlen_drop; lia).
  destruct (Z.ltb_spec (zlen (zdrop k d)) n) as [C|C]; cbn [negb].
  { exists k, o. split; [lia|done]. }
  unfold ubind; cbn [fst snd src]. rewrite data_areas. unfold out; cbn [src outs uadvance].
  rewrite zlen_drop in C by lia.
  rewrite upull_areas by (rewrite ?zlen_app, ?zlen_take, ?zlen_drop; lia).
  split; [destruct w; lia|]. do 2 f_equal.
  rewrite zdrop_zdrop, <- app_assoc by (destruct w; lia). do 2 f_equal.
  rewrite <- (ztake_drop k (ztake (k + n) d)).
  rewrite ztake_ztake, ztake_zdrop by (destruct w; lia). done.
Qed.
End Ints.

Lemma unformat_arg_spec h d t o a :
  zlen h + zlen d + zlen t < 2147483648 -> plain_arg a ->
  arg_spec h d t o (unformat_arg (mkUf (of_areas h d t) o false) a) (uparse1 a d t).
Proof.
  intros Hs Ha.
  destruct a; try (by apply unformat_offset_spec);
    cbn [unformat_arg uparse1]; try done; try (by apply fail_spec);
    try (by apply unformat_string_spec);
    try (apply unformat_int_spec; [done|lia|]; intros; f_equal).
  - apply (unformat_data_spec _ _ _ _ Hs (u32 len2)
      (fun p => VPtr (if u32 len2 =? 0 then None else Some p))), u32_range.
  - apply (unformat_data_spec _ _ _ _ Hs (u32 len2)
      (fun p => VPtr (alloc_val p (u32 len2)))), u32_range.
  - by rewrite znth_app_l by lia.
  - by rewrite u16_get16, get16_app.
  - by rewrite get32_app.
  - by rewrite get64_app.
  - by rewrite znth_app_l by lia.
  - by rewrite get16_app.
  - by rewrite get32_app.
  - by rewrite get64_app.
  - destruct w; [by apply unformat_string_spec..|by apply fail_spec].
Qed.

Lemma unformat_loop_spec ap : forall h d t o,
  zlen h + zlen d + zlen t < 2147483648 -> Forall plain_arg ap ->
  arg_spec h d t o (unformat_loop (mkUf (of_areas h d t) o false) ap) (uparse ap d t).
Proof.
  induction ap as [|a ap IH]; intros h d t o Hs Hap.
  - cbn. rewrite ztake_0, zdrop_0, !app_nil_r by lia. split; [zl|done].
  - apply list.Forall_cons_1 in Hap as [Ha Hap]. cbn [unformat_loop uparse].
    pose proof (unformat_arg_spec h d t o a Hs Ha) as H1.
    destruct (uparse1 a d t) as [[v n]|]; cbn in H1.
    + destruct H1 as [Hn ->]. unfold ubind; cbn [fst snd].
      specialize (IH (h ++ ztake n d) (zdrop n d) t (o ++ v)).
      rewrite zlen_app, zlen_take, zlen_drop in IH by done.
      specialize (IH ltac:(lia) Hap).
      assert (E : forall k, 0 <= k <= zlen (zdrop n d) ->
        of_areas ((h ++ ztake n d) ++ ztake k (zdrop n d)) (zdrop k (zdrop n d)) t =
        of_areas (h ++ ztake (n + k) d) (zdrop (n + k) d) t).
      { intros k Hk. rewrite zdrop_zdrop, <- app_assoc by lia. do 2 f_equal.
        rewrite ztake_zdrop, <- (ztake_ztake (n + k) n), ztake_drop by lia. done. }
      destruct (uparse ap (zdrop n d) t) as [[vs m]|]; cbn in IH |- *.
      * destruct IH as [Hm ->]. rewrite E, <- app_assoc by done.
        rewrite zlen_drop in Hm by lia. split; [lia|done].
      * destruct IH as (m & o' & Hm & ->). rewrite E by done.
        rewrite zlen_drop in Hm by lia. exists (n + m), o'. split; [lia|done].
    + destruct H1 as (n & o' & Hn & ->). unfold ubind; cbn [fst snd].
      by exists n, o'.
Qed.

(** The flag of [SILC_PARAM_ADVANCE] does not change what a case does. *)
Lemma unformat_arg_flag b o a f :
  plain_arg a ->
  unformat_arg (mkUf b o f) a =
  (let '(s, ok) := unformat_arg (mkUf b o false) a in (mkUf (src s) (outs s) f, ok)).
Proof.
  destruct a; intros Ha; try done; cbn [unformat_arg];
    unfold unformat_int, unformat_string, HAS_SPACE_w, UNFORMAT_HAS_SPACE, UNFORMAT_HAS_SPACE_int,
      ubind, upull, out; cbn [src outs uadvance];
    repeat (case_match; cbn [fst snd src outs uadvance] in *; try done).
Qed.

Lemma unformat_loop_flag ap : forall b o f,
  Forall plain_arg ap ->
  unformat_loop (mkUf b o f) ap =
  (let '(s, ok) := unformat_loop (mkUf b o false) ap in (mkUf (src s) (outs s) f, ok)).
Proof.
  induction ap as [|a ap IH]; intros b o f Hap; [done|].
  apply list.Forall_cons_1 in Hap as [Ha Hap]. cbn [unformat_loop].
  rewrite unformat_arg_flag by done.
  pose proof (unformat_arg_flag b o a false Ha) as F.
  destruct (unformat_arg (mkUf b o false) a) as [[b' o' f'] ok]. cbn [src outs] in *.
  injection F as ->. unfold ubind; cbn [fst snd]. destruct ok; [|done]. by rewrite IH.
Qed.

Lemma back_to_start h d t n :
  zlen h + zlen d + zlen t < 2147483648 -> 0 <= n <= zlen d ->
  let b' := of_areas (h ++ ztake n d) (zdrop n d) t in
  i32 (b_data b' - b_data (of_areas h d t)) = n /\
  (silc_buffer_push b' (u32 n)).1 = of_areas h d t.
Proof.
  intros Hs Hn b'. subst b'. split.
  - unfold of_areas; cbn. rewrite zlen_app, zlen_take, i32_id by zl. lia.
  - rewrite u32_id by zl. rewrite <- (zlen_take n d) at 3 by done.
    rewrite push_areas. cbn. by rewrite ztake_drop.
Qed.

(** Unformatting data arguments parses the data area: the outputs and the
    length are the reference parser's, and the buffer is unchanged whether the
    parse succeeds or not. *)
Theorem unformat_areas h d t ap :
  zlen h + zlen d + zlen t < 2147483648 -> Forall plain_arg ap ->
  match uparse ap d t with
  | Some (v, n) =>
      silc_buffer_unformat (of_areas h d t) ap = (of_areas h d t, n, v) /\
      0 <= n <= zlen d
  | None =>
      exists o, silc_buffer_unformat (of_areas h d t) ap = (of_areas h d t, -1, o)
  end.
Proof.
  intros Hs Hap. pose proof (unformat_loop_spec ap h d t [] Hs Hap) as H.
  unfold silc_buffer_unformat, silc_buffer_sunformat_vp.
  destruct (uparse ap d t) as [[v n]|]; cbn in H.
  - destruct H as [Hn ->]. destruct (back_to_start h d t n Hs Hn) as [E1 E2].
    cbn [src outs uadvance]. rewrite E1, E2. done.
  - destruct H as (n & o & Hn & ->). destruct (back_to_start h d t n Hs Hn) as [E1 E2].
    cbn [src outs uadvance]. exists o. rewrite E1, E2. done.
Qed.

(** With [SILC_STR_ADVANCE] the buffer stays past what was read. *)
Lemma unformat_advance h d t ap v n :
  uparse ap d t = Some (v, n) -> Forall plain_arg ap ->
  zlen h + zlen d + zlen t < 2147483648 ->
  silc_buffer_unformat (of_areas h d t) (U_ADVANCE :: ap) =
  (of_areas (h ++ ztake n d) (zdrop n d) t, 0, v) /\ 0 <= n <= zlen d.
Proof.
  intros E Hap Hs. pose proof (unformat_loop_spec ap h d t [] Hs Hap) as S. rewrite E in S.
  destruct S as [Hn S]. split; [|done].
  unfold silc_buffer_unformat, silc_buffer_sunformat_vp.
  cbn [unformat_loop unformat_arg]. unfold ubind; cbn [fst snd src outs].
  by rewrite unformat_loop_flag, S by done.
Qed.

(** What an [_ALLOC] parameter allocates: the bytes and a terminating NUL. *)
Lemma alloc_copy_ok p n :
  0 <= n <= zlen p -> n + 1 < SILC_MAX_ALLOC ->
  alloc_copy p n = Some (ztake n p ++ [0]).
Proof.
  unfold SILC_MAX_ALLOC. intros. unfold alloc_copy, silc_scalloc_heap.
  rewrite !u32_id, silc_calloc_ok by (unfold SILC_MAX_ALLOC; lia). f_equal.
  assert (E : zeros (1 * (n + 1)) = zeros n ++ [0]).
  { unfold zeros. rewrite <- replicate_cons_app, <- replicate_S. f_equal. lia. }
  rewrite E. unfold splice. rewrite ztake_0 by lia. cbn [app].
  rewrite zlen_take, zdrop_app_exact by (rewrite ?zlen_zeros; lia). done.
Qed.

(** Use of [unformat_areas]: the result from the reference parser's. *)
Lemma unformat_some h d t ap v n :
  uparse ap d t = Some (v, n) -> Forall plain_arg ap ->
  zlen h + zlen d + zlen t < 2147483648 ->
  silc_buffer_unformat (of_areas h d t) ap = (of_areas h d t, n, v) /\ (n =? -1) = false.
Proof.
  intros E Hap Hs. pose proof (unformat_areas h d t ap Hs Hap) as H. rewrite E in H.
  destruct H as [H ?]. split; [done|]. lia.
Qed.

Lemma unformat_none h d t ap :
  uparse ap d t = None -> Forall plain_arg ap ->
  zlen h + zlen d + zlen t < 2147483648 ->
  exists o, silc_buffer_unformat (of_areas h d t) ap = (of_areas h d t, -1, o).
Proof.
  intros E Hap Hs. pose proof (unformat_areas h d t ap Hs Hap) as H. by rewrite E in H.
Qed.

Lemma p_int_ok n v d : n <= zlen d -> p_int n v d = Some ([v], n).
Proof. intros. unfold p_int. by rewrite (proj2 (Z.ltb_ge _ _)) by lia. Qed.

Lemma p_int_short n v d : zlen d < n -> p_int n v d = None.
Proof. intros. unfold p_int. by rewrite (proj2 (Z.ltb_lt _ _)) by lia. Qed.

Lemma p_string_ok w val d t :
  width w <= zlen d -> width w + get_len w d <= zlen d ->
  p_string w val d t =
  Some ([val (zdrop (width w) d ++ t) (get_len w d)], width w + get_len w d).
Proof.
  intros. assert (0 < width w) by (destruct w; cbn; lia). unfold p_string.
  rewrite (proj2 (Z.ltb_ge _ _)) by lia. rewrite zlen_drop by lia.
  by rewrite (proj2 (Z.ltb_ge _ _)) by lia.
Qed.

Lemma p_string_short w val d t :
  zlen d < width w \/ zlen d < width w + get_len w d -> p_string w val d t = None.
Proof.
  intros H. assert (0 < width w) by (destruct w; cbn; lia). unfold p_string.
  destruct (Z.ltb_spec (zlen d) (width w)); [done|]. rewrite zlen_drop by lia.
  by rewrite (proj2 (Z.ltb_lt _ _)) by lia.
Qed.

(** A block of [n] bytes as the [_ALLOC] parameters make it: NULL for none. *)
Definition block (data : list Z) : option (list Z) :=
  if decide (data = []) then None else Some (data ++ [0]).

Lemma alloc_val_block p n :
  0 <= n <= zlen p -> n + 1 < SILC_MAX_ALLOC -> alloc_val p n = block (ztake n p).
Proof.
  intros. unfold alloc_val, block. destruct (Z.eqb_spec n 0) as [->|].
  - by rewrite ztake_0, decide_True by done.
  - rewrite alloc_copy_ok by done. rewrite decide_False; [done|].
    intros E. apply (f_equal zlen) in E. rewrite zlen_take, zlen_nil in E; lia.
Qed.

End Unformat.

Module RoundTrip.
Import Format Unformat.

(** [reads fs us vs]: the unformatting arguments [us] read what the formatting
    arguments [fs] write, giving the values [vs]. *)
Inductive reads : list fmt_arg -> list uf_arg -> list uval -> Prop :=
  | reads_nil : reads [] [] []
  | reads_ui8 x fs us vs : reads fs us vs ->
      reads (PARAM_UI8_CHAR x :: fs) (U_UI8_CHAR :: us) (VInt (u8 x) :: vs)
  | reads_ui16 x fs us vs : reads fs us vs ->
      reads (PARAM_UI16_SHORT x :: fs) (U_UI16_SHORT :: us) (VInt (u16 x) :: vs)
  | reads_ui32 x fs us vs : reads fs us vs ->
      reads (PARAM_UI32_INT x :: fs) (U_UI32_INT :: us) (VInt (u32 x) :: vs)
  | reads_ui64 x fs us vs : reads fs us vs ->
      reads (PARAM_UI64_INT x :: fs) (U_UI64_INT :: us) (VInt (u64 x) :: vs)
  | reads_si8 x fs us vs : reads fs us vs ->
      reads (PARAM_SI8_CHAR x :: fs) (U_SI8_CHAR :: us) (VInt (i8 x) :: vs)
  | reads_si16 x fs us vs : reads fs us vs ->
      reads (PARAM_SI16_SHORT x :: fs) (U_SI16_SHORT :: us) (VInt (i16 x) :: vs)
  | reads_si32 x fs us vs : reads fs us vs ->
      reads (PARAM_SI32_INT x :: fs) (U_SI32_INT :: us) (VInt (i32 x) :: vs)
  | reads_data x len fs us vs :
      0 <= len <= zlen x -> len + 1 < SILC_MAX_ALLOC -> reads fs us vs ->
      reads (PARAM_NSTRING (Some x) len :: fs) (U_DATA_ALLOC len :: us)
        (VPtr (block (ztake len x)) :: vs)
  | reads_nstring8 x len fs us vs :
      0 <= len <= zlen x -> len < 256 -> reads fs us vs ->
      reads (PARAM_UI8_CHAR len :: PARAM_NSTRING (Some x) len :: fs)
        (U_NSTRING_ALLOC UI8 :: us) (VStr (block (ztake len x)) len :: vs)
  | reads_nstring16 x len fs us vs :
      0 <= len <= zlen x -> len < 65536 -> reads fs us vs ->
      reads (PARAM_UI16_SHORT len :: PARAM_NSTRING (Some x) len :: fs)
        (U_NSTRING_ALLOC UI16 :: us) (VStr (block (ztake len x)) len :: vs).

Lemma enc_args_cons a ap : enc_args (a :: ap) = enc_arg a ++ enc_args ap.
Proof. reflexivity. Qed.

(** One reference parse step over a known prefix. *)
Lemma uparse_step a us d e t v vs m :
  uparse1 a (e ++ d) t = Some ([v], zlen e) -> uparse us d t = Some (vs, m) ->
  uparse (a :: us) (e ++ d) t = Some (v :: vs, zlen e + m).
Proof. intros E1 E2. cbn [uparse]. by rewrite E1, zdrop_app_exact, E2. Qed.

Lemma uparse_int n v d e : zlen e = n -> p_int n v (e ++ d) = Some ([v], zlen e).
Proof. intros <-. apply p_int_ok. zl. Qed.

(** A length prefix of any width followed by the string. *)
Lemma uparse_string w val e x d t :
  zlen e = width w -> get_len w e = zlen x ->
  p_string w val (e ++ x ++ d) t = Some ([val (x ++ d ++ t) (zlen x)], zlen (e ++ x)).
Proof.
  intros He Hx. rewrite p_string_ok.
  - rewrite zdrop_app_exact, get_len_app, Hx by lia. rewrite <- app_assoc.
    do 2 f_equal. zl.
  - zl.
  - rewrite get_len_app, Hx by lia. zl.
Qed.

Lemma uparse_reads fs us vs : reads fs us vs -> forall d t,
  uparse us (enc_args fs ++ d) t = Some (vs, zlen (enc_args fs)).
Proof.
  assert (Hblock : forall len x d, 0 <= len <= zlen x -> len + 1 < SILC_MAX_ALLOC ->
    alloc_val (ztake len x ++ d) len = block (ztake len x)).
  { intros len x d Hl Hm. pose proof (zlen_take len x Hl) as E.
    rewrite alloc_val_block by (rewrite ?zlen_app; zlen_facts; lia).
    by rewrite ztake_app_exact. }
  induction 1; intros d t; [done|..]; rewrite ?enc_args_cons;
    rewrite <- ?app_assoc, ?zlen_app; try (apply uparse_step; [|done]); cbn [enc_arg uparse1].
  - rewrite uparse_int by done. cbn [app]. by rewrite znth_0, u8_u8.
  - rewrite uparse_int by done. by rewrite get16_put16.
  - rewrite uparse_int by done. by rewrite get32_put32.
  - rewrite uparse_int by done. by rewrite get64_put64.
  - rewrite uparse_int by done. cbn [app]. rewrite znth_0. do 4 f_equal. warith.
  - rewrite uparse_int by done. rewrite get16_put16. do 4 f_equal. warith.
  - rewrite uparse_int by done. rewrite get32_put32. do 4 f_equal. warith.
  - unfold SILC_MAX_ALLOC in *. rewrite u32_id, uparse_int by (rewrite ?zlen_take; lia).
    by rewrite <- app_assoc, Hblock by (unfold SILC_MAX_ALLOC; lia).
  - pose proof (zlen_take len x H) as El.
    rewrite (app_assoc [u8 len]), Z.add_assoc, <- zlen_app.
    apply uparse_step; [|done]. rewrite <- app_assoc. cbn [uparse1].
    rewrite uparse_string; [|done|].
    + by rewrite El, Hblock by (unfold SILC_MAX_ALLOC; lia).
    + cbn [get_len]. rewrite znth_0, u8_u8, u8_id; lia.
  - pose proof (zlen_take len x H) as El.
    rewrite (app_assoc (SILC_PUT16_MSB len)), Z.add_assoc, <- zlen_app.
    apply uparse_step; [|done]. rewrite <- app_assoc. cbn [uparse1].
    rewrite uparse_string; [|done|].
    + by rewrite El, Hblock by (unfold SILC_MAX_ALLOC; lia).
    + cbn [get_len]. rewrite <- (app_nil_r (SILC_PUT16_MSB len)), get16_put16, u16_u16.
      rewrite u16_id; lia.
Qed.

Lemma reads_data_args fs us vs : reads fs us vs -> Forall data_arg fs.
Proof. induction 1; repeat constructor; try done; lia. Qed.

Lemma reads_plain_args fs us vs : reads fs us vs -> Forall plain_arg us.
Proof. induction 1; by repeat constructor. Qed.

(** ** Properties *)

(** C32: formatting writes exactly the concatenation of its arguments' encodings
    over the start of the data area, growing it into the tail area and then by
    reallocation, leaves the head area and the data pointer alone and returns
    the length written; the result is well formed. *)
Theorem format_spec (b : SilcBuffer) (ap : list fmt_arg) :
  wf_buffer b -> Forall data_arg ap ->
  fits (head_area b) (data_area b) (tail_area b) (zlen (enc_args ap)) ->
  let '(b', ret) := silc_buffer_format b ap in
  wf_buffer b' /\ ret = zlen (enc_args ap) /\ head_area b' = head_area b /\
  data_area b' = enc_args ap ++ zdrop (zlen (enc_args ap)) (data_area b) /\
  tail_area b' = zdrop (zlen (enc_args ap) - zlen (data_area b)) (tail_area b).
Proof.
  intros Hwf Hap Hfit. pose proof (of_areas_eta b Hwf) as E.
  set (h := head_area b) in *. set (d := data_area b) in *. set (t := tail_area b) in *.
  clearbody h d t. subst b. rewrite format_areas by done.
  destruct Hfit as [? ?]. unfold SILC_MAX_ALLOC in *. zlen_facts.
  assert (zlen h + zlen (enc_args ap ++ zdrop (zlen (enc_args ap)) d)
    + zlen (zdrop (zlen (enc_args ap) - zlen d) t) < 2147483648).
  { rewrite zlen_app, !zlen_drop_max. lia. }
  rewrite of_areas_head, of_areas_data, of_areas_tail by done.
  split; [by apply of_areas_wf|done].
Qed.

Lemma format_spec_witness :
  let b := mkBuffer [9; 0; 0; 7] 1 2 in
  let ap := [PARAM_UI16_SHORT 258; PARAM_NSTRING (Some [65; 66]) 2] in
  let '(b', ret) := silc_buffer_format b ap in
  wf_buffer b' /\ ret = 4 /\ head_area b' = [9] /\ data_area b' = [1; 2; 65; 66] /\
  tail_area b' = [].
Proof.
  apply (format_spec (mkBuffer [9; 0; 0; 7] 1 2)
    [PARAM_UI16_SHORT 258; PARAM_NSTRING (Some [65; 66]) 2]).
  - vm_compute; intuition discriminate.
  - repeat constructor; vm_compute; discriminate.
  - vm_compute; done.
Defined.

(** C33: unformatting is the reference parser on the data area: it returns the
    parser's values and length, or -1 exactly when the area is too short for
    what it announces, and in both cases leaves the buffer as it was. *)
Theorem unformat_spec (b : SilcBuffer) (ap : list uf_arg) :
  wf_buffer b -> Forall plain_arg ap ->
  match uparse ap (data_area b) (tail_area b) with
  | Some (v, n) =>
      silc_buffer_unformat b ap = (b, n, v) /\ 0 <= n <= zlen (data_area b)
  | None => exists o, silc_buffer_unformat b ap = (b, -1, o)
  end.
Proof.
  intros Hwf Hap. pose proof (of_areas_eta b Hwf) as E. pose proof Hwf as [_ [_ Hs]].
  rewrite <- (areas_mem b Hwf), !zlen_app in Hs.
  set (h := head_area b) in *. set (d := data_area b) in *. set (t := tail_area b) in *.
  clearbody h d t. subst b. apply unformat_areas; [lia|done].
Qed.

Lemma unformat_spec_witness :
  let b := mkBuffer [9; 1; 2; 65; 66; 7] 1 5 in
  silc_buffer_unformat b [U_UI8_CHAR; U_STRING_ALLOC UI8] =
  (b, 4, [VInt 1; VPtr (Some [65; 66; 0])]) /\ 0 <= 4 <= 4.
Proof.
  apply (unformat_spec (mkBuffer [9; 1; 2; 65; 66; 7] 1 5) [U_UI8_CHAR; U_STRING_ALLOC UI8]).
  - vm_compute; intuition discriminate.
  - repeat constructor.
Defined.

(** unformatting reads back what formatting wrote: for every matching pair
    of argument lists, the integers come back reduced to their width and the
    data as fresh NUL terminated blocks. *)
Theorem format_unformat (b : SilcBuffer) fs us vs :
  wf_buffer b -> reads fs us vs ->
  fits (head_area b) (data_area b) (tail_area b) (zlen (enc_args fs)) ->
  let b' := (silc_buffer_format b fs).1 in
  silc_buffer_unformat b' us = (b', zlen (enc_args fs), vs).
Proof.
  intros Hwf Hr Hfit. pose proof (of_areas_eta b Hwf) as E.
  set (h := head_area b) in *. set (d := data_area b) in *. set (t := tail_area b) in *.
  clearbody h d t. subst b. pose proof (reads_data_args _ _ _ Hr) as Hd.
  cbn zeta. rewrite format_areas by done. cbn [fst].
  destruct Hfit as [? ?]. unfold SILC_MAX_ALLOC in *. zlen_facts.
  apply (unformat_some h _ _ us vs _ (uparse_reads _ _ _ Hr _ _)).
  - by eapply reads_plain_args.
  - rewrite zlen_app, !zlen_drop_max. lia.
Qed.

Lemma format_unformat_witness :
  let fs := [PARAM_UI32_INT 66051; PARAM_UI16_SHORT 2; PARAM_NSTRING (Some [65; 66; 67]) 2] in
  let b' := (silc_buffer_format (mkBuffer [] 0 0) fs).1 in
  silc_buffer_unformat b' [U_UI32_INT; U_NSTRING_ALLOC UI16] =
  (b', 8, [VInt 66051; VStr (Some [65; 66; 0]) 2]).
Proof.
  apply (format_unformat (mkBuffer [] 0 0)
    [PARAM_UI32_INT 66051; PARAM_UI16_SHORT 2; PARAM_NSTRING (Some [65; 66; 67]) 2]).
  - vm_compute; intuition discriminate.
  - apply (reads_ui32 66051), (reads_nstring16 [65; 66; 67] 2), reads_nil;
      vm_compute; intuition discriminate.
  - vm_compute; done.
Defined.

End RoundTrip.

(** ** Use in the payload encoders *)

Module Encoding.
Import Format.

(** A buffer allocated for exactly the encoding and formatted once. *)
Lemma format_whole n ap :
  Forall data_arg ap -> zlen (enc_args ap) = n -> n < SILC_MAX_ALLOC ->
  silc_buffer_format (whole (zeros n)) ap = (whole (enc_args ap), n).
Proof.
  intros Hap <- Hs. zlen_facts. unfold whole.
  assert (E : zlen (zeros (zlen (enc_args ap))) = zlen (enc_args ap)) by (apply zlen_zeros; lia).
  rewrite format_areas by (try done; unfold fits; rewrite ?E; zl).
  rewrite (zdrop_ge _ (zeros _)), (zdrop_ge _ []), app_nil_r by (rewrite ?E; zl).
  done.
Qed.

(** Formatting over the first bytes of a larger buffer. *)
Lemma format_front x d ap :
  Forall data_arg ap -> zlen (enc_args ap) = zlen x -> zlen x + zlen d < SILC_MAX_ALLOC ->
  silc_buffer_format (whole (x ++ d)) ap = (whole (enc_args ap ++ d), zlen x).
Proof.
  intros Hap E Hs. zlen_facts. unfold whole.
  rewrite format_areas by (try done; unfold fits; rewrite ?E; zl).
  by rewrite E, zdrop_app_exact, zdrop_nil.
Qed.

(** [pull n; format; push n] where the format fills the rest. *)
Lemma format_rest h d ap :
  Forall data_arg ap -> zlen (enc_args ap) = zlen d -> zlen h + zlen d < SILC_MAX_ALLOC ->
  (silc_buffer_push
     (silc_buffer_format (silc_buffer_pull (whole (h ++ d)) (zlen h)).1 ap).1 (zlen h)).1 =
  whole (h ++ enc_args ap).
Proof.
  intros Hap E Hs. unfold SILC_MAX_ALLOC in Hs. zlen_facts. unfold whole.
  rewrite pull_areas by zl. cbn [fst app].
  rewrite format_areas by
    (try done; unfold fits, SILC_MAX_ALLOC; rewrite ?E; zl).
  rewrite E, (zdrop_ge _ d), (zdrop_ge _ []), app_nil_r by zl.
  cbn [fst]. rewrite <- (app_nil_l h) at 1. by rewrite push_areas.
Qed.

(** The same where the format fills only [y] of the rest. *)
Lemma format_mid h y d ap :
  Forall data_arg ap -> zlen (enc_args ap) = zlen y ->
  zlen h + zlen y + zlen d < SILC_MAX_ALLOC ->
  (silc_buffer_push
     (silc_buffer_format (silc_buffer_pull (whole (h ++ y ++ d)) (zlen h)).1 ap).1
     (zlen h)).1 = whole (h ++ enc_args ap ++ d).
Proof.
  intros Hap E Hs. unfold SILC_MAX_ALLOC in Hs. zlen_facts. unfold whole.
  rewrite pull_areas by zl. cbn [fst app].
  rewrite format_areas by
    (try done; unfold fits, SILC_MAX_ALLOC; rewrite ?E; zl).
  rewrite E, zdrop_app_exact, zdrop_nil by done.
  cbn [fst]. rewrite <- (app_nil_l h) at 1. by rewrite push_areas.
Qed.

(** Formatting after an offset from the start of the data area. *)
Lemma format_offset x y d ap :
  Forall data_arg ap -> zlen (enc_args ap) = zlen y -> 1 < zlen x ->
  zlen x + zlen y + zlen d < SILC_MAX_ALLOC ->
  silc_buffer_format (whole (x ++ y ++ d)) (PARAM_OFFSET (zlen x) :: ap) =
  (whole (x ++ enc_args ap ++ d), zlen x + zlen y).
Proof.
  intros Hap E Hx Hs. pose proof Hs as Hs'. unfold SILC_MAX_ALLOC in Hs'. zlen_facts.
  unfold silc_buffer_format, silc_buffer_sformat_vp, whole.
  cbn [format_loop format_arg dst flen advance].
  rewrite (proj2 (Z.eqb_neq _ _)), (proj2 (Z.ltb_lt 1 _)) by lia.
  rewrite of_areas_len, u32_id by (rewrite ?zlen_app, ?zlen_nil; lia).
  rewrite (proj2 (Z.ltb_ge _ _)) by (rewrite ?zlen_app; lia).
  rewrite pull_areas by (rewrite ?zlen_app, ?zlen_nil; lia).
  unfold fbind; cbn [fst snd app]. rewrite Z.add_0_l, i32_id by lia.
  rewrite format_loop_areas; try done; rewrite ?E; try lia.
  - cbn [advance dst flen]. unfold written. rewrite E, zdrop_app_exact, zdrop_nil by done.
    rewrite u32_id by lia. rewrite <- E, <- zlen_app.
    rewrite <- (app_nil_l (x ++ enc_args ap)) at 1. rewrite push_areas. cbn [fst].
    by rewrite <- app_assoc.
  - unfold fits, SILC_MAX_ALLOC. rewrite zlen_app, zlen_nil. lia.
Qed.
End Encoding.

(** ** Tactics for the payload parsers *)

(** [zdrop k (x :: l)] with a literal [k] no longer than the visible prefix. *)
Ltac zdrop_red :=
  repeat match goal with
  | |- context [zdrop ?n (?x :: ?l)] =>
      let r := eval cbv [zdrop Z.to_nat Pos.to_nat Pos.iter_op Nat.add drop]
        in (zdrop n (x :: l)) in
      progress change (zdrop n (x :: l)) with r
  end.

(** Accessors see only the bytes they read. *)
Ltac get_red :=
  repeat match goal with
  | |- context [SILC_GET16_MSB (?a :: ?b :: ?l)] =>
      lazymatch l with [] => fail | _ => idtac end;
      change (SILC_GET16_MSB (a :: b :: l)) with (SILC_GET16_MSB [a; b])
  | |- context [SILC_GET32_MSB (?a :: ?b :: ?c :: ?d :: ?l)] =>
      lazymatch l with [] => fail | _ => idtac end;
      change (SILC_GET32_MSB (a :: b :: c :: d :: l)) with (SILC_GET32_MSB [a; b; c; d])
  end; rewrite ?znth_0.

(** Runs the reference parser over integers in front of a list. *)
Ltac uparse_ints :=
  cbn [Unformat.uparse Unformat.uparse1];
  repeat (rewrite Unformat.p_int_ok by zl; cbn iota; zdrop_red).

Ltac plain_args := solve [repeat constructor].

(** Replaces a call of [silc_buffer_unformat] that succeeds by its result; the
    tactic [tac] runs the reference parser to [Some (_, _)]. *)
Ltac run_unformat_with tac :=
  match goal with
  | |- context [Unformat.silc_buffer_unformat (of_areas ?h ?d ?t) ?ap] =>
      let H := fresh "Hu" in
      let v := fresh "v" in let n := fresh "n" in
      evar (v : list Unformat.uval); evar (n : Z);
      assert (H : Unformat.uparse ap d t = Some (v, n));
      [ unfold v, n; tac
      | subst v n;
        let E1 := fresh in let E2 := fresh in
        destruct (Unformat.unformat_some h d t ap _ _ H ltac:(plain_args) ltac:(zl))
          as [E1 E2];
        rewrite E1, E2; clear E1 E2 H; cbn [app]; cbn iota; get_red ]
  end.

Ltac run_unformat := run_unformat_with ltac:(uparse_ints; reflexivity).

(** Closes a goal where the data area is a visible list, too short. *)
Ltac short_unformat :=
  match goal with
  | |- context [Unformat.silc_buffer_unformat (of_areas ?h ?d ?t) ?ap] =>
      let o := fresh "o" in let E := fresh in
      destruct (Unformat.unformat_none h d t ap eq_refl ltac:(plain_args) ltac:(zl))
        as [o E];
      rewrite E; reflexivity
  end.
