(* ===== verification/Argument.v ===== *)
(** * Argument payloads ([lib/silccore/silcargument.c])

    An argument payload is a sequence of (length, type, data) records; a
    payload object is the parallel arrays the source keeps and the position of
    its iterator.  A parsed argument is a fresh NUL terminated block, and NULL
    when its length is 0.  The reference form is a list of records, [tlv]. *)

From S2P Require Import Prelude CTypes Memory Buffer BuffFmt.
Import Format Unformat.

(** [struct SilcArgumentPayloadStruct]. *)
Record SilcArgumentPayload := mkArgs {
  argc : Z;
  argv : list (option (list Z));
  argv_lens : list Z;
  argv_types : list Z;
  pos : Z
}.

(** ** Parsing *)

(** The body of the parsing loop: one argument off the front of the buffer.
    Returns the buffer, the block, the length and the type. *)
Definition parse_one_arg (buffer : SilcBuffer)
    : option (SilcBuffer * (option (list Z) * Z * Z)) :=
  let '(buffer, ret, o) := silc_buffer_unformat buffer [U_UI16_SHORT; U_UI8_CHAR] in
  if ret =? -1 then None
  else match o with
  | [VInt p_len; VInt arg_type] =>
      if u32 (silc_buffer_len buffer - 3) <? p_len then None
      else
        let buffer := (silc_buffer_pull buffer 3).1 in
        let '(buffer, ret, o) := silc_buffer_unformat buffer [U_DATA_ALLOC p_len] in
        if ret =? -1 then None
        else match o with
        | [VPtr v] => Some ((silc_buffer_pull buffer p_len).1, (v, p_len, arg_type))
        | _ => None
        end
  | _ => None
  end.

(** [for (i = 0; i < argc; i++)]: the buffer left and the argument of each
    round. *)
Fixpoint parse_loop (n : nat) (buffer : SilcBuffer)
    : option (SilcBuffer * list (option (list Z) * Z * Z)) :=
  match n with
  | O => Some (buffer, [])
  | S n =>
      match parse_one_arg buffer with
      | None => None
      | Some (buffer, a) =>
          match parse_loop n buffer with
          | None => None
          | Some (buffer, l) => Some (buffer, a :: l)
          end
      end
  end.

Definition silc_argument_payload_parse (payload : list Z) (payload_len argc : Z)
    : option SilcArgumentPayload :=
  let buffer := silc_buffer_set payload payload_len in
  match silc_calloc argc 8, silc_calloc argc 4, silc_calloc argc 4 with
  | Some _, Some _, Some _ =>
      match parse_loop (Z.to_nat argc) buffer with
      | None => None
      | Some (buffer, l) =>
          if negb (silc_buffer_len buffer =? 0) then None
          else Some (mkArgs argc ((fun a => a.1.1) <$> l) ((fun a => a.1.2) <$> l)
                       ((fun a => a.2) <$> l) 0)
      end
  | _, _, _ => None
  end.

(** ** Encoding *)

(** One round of the encoding loop: format the argument and pull past it. *)
Definition encode_arg (buffer : SilcBuffer) (arg : option (list Z)) (len len16 type : Z)
    : SilcBuffer :=
  let buffer := (silc_buffer_format buffer
    [PARAM_UI16_SHORT len; PARAM_UI8_CHAR type; PARAM_NSTRING arg len16]).1 in
  (silc_buffer_pull buffer (3 + len16)).1.

Fixpoint encode_loop (buffer : SilcBuffer) (cut : Z -> Z)
    (args : list (option (list Z) * Z * Z)) : SilcBuffer :=
  match args with
  | [] => buffer
  | (arg, len, type) :: args =>
      encode_loop (encode_arg buffer arg len (cut len) type) cut args
  end.

(** [for (...) len += 3 + cut(argv_lens[i]);] on [SilcUInt32]. *)
Fixpoint total_len (cut : Z -> Z) (lens : list Z) (len : Z) : Z :=
  match lens with
  | [] => len
  | l :: lens => total_len cut lens (u32 (len + (3 + cut l)))
  end.

Definition zip3 {A B C} (l : list A) (k : list B) (m : list C) : list (A * B * C) :=
  zip (zip l k) m.

Definition encode_with (cut : Z -> Z) (n : Z) (argv : list (option (list Z)))
    (argv_lens argv_types : list Z) : option SilcBuffer :=
  let len := total_len cut (ztake n argv_lens) 0 in
  match silc_buffer_alloc_size len with
  | None => None
  | Some buffer =>
      let buffer := encode_loop buffer cut (ztake n (zip3 argv argv_lens argv_types)) in
      Some (silc_buffer_push buffer len).1
  end.

(** Lengths are cut to [SilcUInt16] here ... *)
Definition silc_argument_payload_encode (argc : Z) (argv : list (option (list Z)))
    (argv_lens argv_types : list Z) : option SilcBuffer :=
  encode_with u16 argc argv argv_lens argv_types.

(** ... and used as they are when they come from a payload. *)
Definition silc_argument_payload_encode_payload (payload : SilcArgumentPayload)
    : option SilcBuffer :=
  encode_with id (argc payload) (argv payload) (argv_lens payload) (argv_types payload).

Definition silc_argument_payload_encode_one (args : option SilcBuffer)
    (arg : option (list Z)) (arg_len arg_type : Z) : option SilcBuffer :=
  let len := 3 + u16 arg_len in
  match silc_buffer_realloc args
          (match args with Some b => u32 (silc_buffer_truelen b + len) | None => len end) with
  | None => None
  | Some buffer =>
      let buffer := (silc_buffer_pull buffer (silc_buffer_len buffer)).1 in
      let buffer := (silc_buffer_pull_tail buffer len).1 in
      let buffer := (silc_buffer_format buffer
        [PARAM_UI16_SHORT arg_len; PARAM_UI8_CHAR arg_type;
         PARAM_NSTRING arg (u16 arg_len)]).1 in
      Some (silc_buffer_push buffer (u32 (b_data buffer))).1
  end.

(** ** Access *)

Definition silc_argument_get_arg_num (payload : option SilcArgumentPayload) : Z :=
  match payload with Some p => argc p | None => 0 end.

Definition set_pos (p : SilcArgumentPayload) (n : Z) : SilcArgumentPayload :=
  mkArgs (argc p) (argv p) (argv_lens p) (argv_types p) n.

(** The pointer and what is stored through [type] and [ret_len]. *)
Definition arg_at (p : SilcArgumentPayload) (i : Z) : option (list Z) * Z * Z :=
  (nth (Z.to_nat i) (argv p) None, znth (argv_types p) i, znth (argv_lens p) i).

Definition silc_argument_get_first_arg (p : SilcArgumentPayload)
    : SilcArgumentPayload * (option (list Z) * Z * Z) :=
  (set_pos p 1, arg_at p 0).

(** [None] when there are no more arguments: NULL, and nothing stored. *)
Definition silc_argument_get_next_arg (p : SilcArgumentPayload)
    : SilcArgumentPayload * option (option (list Z) * Z * Z) :=
  if argc p <=? pos p then (p, None)
  else (set_pos p (pos p + 1), Some (arg_at p (pos p))).

(** [for (i = 0; i < argc; i++) if (argv_types[i] == type) break;]. *)
Fixpoint find_type (types : list Z) (type : Z) (i : Z) : Z :=
  match types with
  | [] => i
  | x :: types => if x =? type then i else find_type types type (i + 1)
  end.

Definition silc_argument_get_arg_type (payload : option SilcArgumentPayload) (type : Z)
    : option (option (list Z) * Z) :=
  match payload with
  | None => None
  | Some p =>
      let i := find_type (ztake (argc p) (argv_types p)) type 0 in
      if argc p <=? i then None
      else Some (nth (Z.to_nat i) (argv p) None, znth (argv_lens p) i)
  end.

(** ** Argument lists *)

Definition silc_argument_list_parse (payload : list Z) (payload_len : Z)
    : option SilcArgumentPayload :=
  if payload_len <? 5 then None
  else
    let argc := u16 (SILC_GET16_MSB payload) in
    silc_argument_payload_parse (zdrop 2 payload) (payload_len - 2) argc.

(** ** Reference form *)

(** A record: its type and its data. *)
Abbreviation tlv := (Z * list Z)%type (only parsing).

Definition enc_tlv (a : tlv) : list Z := SILC_PUT16_MSB (zlen a.2) ++ u8 a.1 :: a.2.
Definition enc_tlvs (l : list tlv) : list Z := concat (enc_tlv <$> l).

(** Exactly [n] records and nothing after them. *)
Fixpoint dec_tlvs (n : nat) (d : list Z) : option (list tlv) :=
  match n with
  | O => if decide (d = []) then Some [] else None
  | S n =>
      match d with
      | a :: b :: ty :: d =>
          let len := SILC_GET16_MSB [a; b] in
          if zlen d <? len then None
          else cons (u8 ty, ztake len d) <$> dec_tlvs n (zdrop len d)
      | _ => None
      end
  end.

(** A record the format can carry: its length and type fit their fields. *)
Definition tlv_ok (a : tlv) : Prop := 0 <= a.1 < 256 /\ zlen a.2 < 65536.

(** The payload object of a list of records, its iterator at the start. *)
Definition payload_of (l : list tlv) : SilcArgumentPayload :=
  mkArgs (zlen l) ((fun a => block a.2) <$> l) ((fun a => zlen a.2) <$> l)
    (fst <$> l) 0.

Lemma enc_tlvs_cons a l : enc_tlvs (a :: l) = enc_tlv a ++ enc_tlvs l.
Proof. reflexivity. Qed.

Lemma zlen_enc_tlv a : zlen (enc_tlv a) = 3 + zlen a.2.
Proof. unfold enc_tlv. zl. Qed.

Lemma dec_enc_tlvs l rest :
  Forall tlv_ok l ->
  dec_tlvs (length l) (enc_tlvs l ++ rest) = (if decide (rest = []) then Some l else None).
Proof.
  unfold enc_tlvs. induction l as [|[ty data] l IH]; intros Hl; [done|].
  apply list.Forall_cons_1 in Hl as [[Hty Hlen] Hl]. cbn in Hty, Hlen.
  cbn [fmap list_fmap concat length dec_tlvs enc_tlv fst snd SILC_PUT16_MSB app].
  rewrite <- !app_assoc.
  pose proof (get16_put16 (zlen data) []) as E. rewrite app_nil_r in E.
  unfold SILC_PUT16_MSB in E. rewrite E, u16_id by zl. rewrite app_assoc.
  rewrite (proj2 (Z.ltb_ge _ _)) by (rewrite <- app_assoc; zl).
  rewrite <- app_assoc, ztake_app_exact, zdrop_app_exact by done.
  rewrite u8_u8, u8_id, IH by done. by case_decide.
Qed.

Lemma enc_dec_tlvs n : forall d l,
  bytes_ok d -> dec_tlvs n d = Some l ->
  enc_tlvs l = d /\ length l = n /\ Forall tlv_ok l.
Proof.
  induction n as [|n IH]; cbn; intros d l Hd E.
  - case_decide; simplify_eq. done.
  - destruct d as [|a [|b [|ty d]]]; try done.
    apply list.Forall_cons_1 in Hd as [Ha Hd]. apply list.Forall_cons_1 in Hd as [Hb Hd].
    apply list.Forall_cons_1 in Hd as [Hty Hd].
    set (len := SILC_GET16_MSB [a; b]) in *.
    assert (Hlen : 0 <= len < 65536) by apply get16_range.
    destruct (Z.ltb_spec (zlen d) len) as [|C]; [done|].
    destruct (dec_tlvs n (zdrop len d)) as [l'|] eqn:El; cbn in E; simplify_eq.
    apply IH in El as (E1 & E2 & E3); [|by apply Forall_drop].
    assert (El : zlen (ztake len d) = len) by (apply zlen_take; lia).
    unfold enc_tlvs in *. cbn [fmap list_fmap concat enc_tlv fst snd].
    split; [|split; [cbn; lia|]].
    + rewrite E1. unfold enc_tlv; cbn [fst snd]. rewrite El. unfold len at 1. rewrite put16_get16, u8_u8, u8_id by done.
      cbn. by rewrite ztake_drop.
    + constructor; [|done]. split; cbn; [apply u8_range|lia].
Qed.

(** ** The parser implements the reference decoder *)

Lemma parse_one_arg_areas h d :
  zlen h + zlen d < 2147483648 ->
  parse_one_arg (of_areas h d []) =
  match d with
  | a :: b :: ty :: d' =>
      let len := SILC_GET16_MSB [a; b] in
      if zlen d' <? len then None
      else Some (of_areas (h ++ ztake (3 + len) d) (zdrop len d') [],
                 (block (ztake len d'), len, u8 ty))
  | _ => None
  end.
Proof.
  intros Hs. unfold parse_one_arg.
  assert (Hap : Forall plain_arg [U_UI16_SHORT; U_UI8_CHAR]) by (repeat constructor).
  assert (Hs' : zlen h + zlen d + zlen (@nil Z) < 2147483648) by zl.
  destruct d as [|a [|b [|ty d]]].
  1: { destruct (unformat_none h [] [] [U_UI16_SHORT; U_UI8_CHAR] eq_refl Hap Hs') as [o ->]. reflexivity. }
  1: { destruct (unformat_none h [a] [] [U_UI16_SHORT; U_UI8_CHAR] eq_refl Hap Hs') as [o ->]. reflexivity. }
  1: { destruct (unformat_none h [a; b] [] [U_UI16_SHORT; U_UI8_CHAR] eq_refl Hap Hs') as [o ->]. reflexivity. }
  assert (Hu : uparse [U_UI16_SHORT; U_UI8_CHAR] (a :: b :: ty :: d) [] =
               Some ([VInt (SILC_GET16_MSB [a; b]); VInt (u8 ty)], 3)).
  { cbn [uparse uparse1]. rewrite (p_int_ok 2) by zl. cbn iota.
    change (zdrop 2 (a :: b :: ty :: d)) with (ty :: d). by rewrite p_int_ok by zl. }
  destruct (unformat_some _ _ _ _ _ _ Hu Hap Hs') as [-> _].
  cbn zeta iota. change (3 =? -1) with false. cbn iota.
  pose proof (get16_range [a; b]) as Hlen. set (len := SILC_GET16_MSB [a; b]) in *.
  rewrite !zlen_cons, zlen_nil in Hs'. zlen_facts.
  rewrite of_areas_len, u32_id by zl. rewrite !zlen_cons.
  replace (1 + (1 + (1 + zlen d)) - 3) with (zlen d) by lia.
  destruct (Z.ltb_spec (zlen d) len) as [|C]; [done|].
  change (a :: b :: ty :: d) with ([a; b; ty] ++ d). change 3 with (zlen [a; b; ty]) at 1.
  rewrite pull_areas by zl. cbn [fst].
  assert (Hu' : uparse [U_DATA_ALLOC len] d [] = Some ([VPtr (block (ztake len d))], len)).
  { cbn [uparse uparse1]. rewrite u32_id, p_int_ok by lia.
    rewrite alloc_val_block, ztake_app_l by (unfold SILC_MAX_ALLOC; zl).
    cbn. by rewrite Z.add_0_r. }
  destruct (unformat_some (h ++ [a; b; ty]) d [] _ _ _ Hu') as [-> ->];
    [by repeat constructor|zl|].
  cbn iota. rewrite <- (ztake_drop len d) at 1. rewrite <- (zlen_take len d) at 3 by lia.
  rewrite pull_areas by (rewrite zlen_take, zlen_drop; zl). cbn [fst].
  rewrite ztake_app_r by zl. replace (3 + len - zlen [a; b; ty]) with len by zl.
  by rewrite <- app_assoc.
Qed.

Lemma parse_loop_areas n : forall h d,
  zlen h + zlen d < 2147483648 ->
  match parse_loop n (of_areas h d []) with
  | Some (b, l) => if silc_buffer_len b =? 0
                   then dec_tlvs n d <> None /\
                        forall ts, dec_tlvs n d = Some ts ->
                          l = (fun a => (block a.2, zlen a.2, a.1)) <$> ts
                   else dec_tlvs n d = None
  | None => dec_tlvs n d = None
  end.
Proof.
  induction n as [|n IH]; intros h d Hs.
  - cbn [parse_loop dec_tlvs]. rewrite of_areas_len by zl.
    destruct d as [|x d]; cbn; [|done]. split; [done|]. by intros ts [= <-].
  - cbn [parse_loop dec_tlvs]. rewrite parse_one_arg_areas by done.
    destruct d as [|a [|b [|ty d]]]; try done.
    pose proof (get16_range [a; b]) as Hlen. set (len := SILC_GET16_MSB [a; b]) in *.
    cbn zeta. destruct (Z.ltb_spec (zlen d) len) as [|C]; [done|].
    rewrite !zlen_cons in Hs. zlen_facts.
    specialize (IH (h ++ ztake (3 + len) (a :: b :: ty :: d)) (zdrop len d)).
    rewrite zlen_app, zlen_take, zlen_drop in IH by zl. specialize (IH ltac:(lia)).
    destruct (parse_loop n _) as [[bf l]|]; [|by rewrite IH].
    case_match; [|by rewrite IH]. destruct IH as [IH1 IH2].
    destruct (dec_tlvs n (zdrop len d)) as [ts|]; [|done]. cbn. split; [done|].
    intros ts' [= <-]. cbn. rewrite zlen_take by lia. f_equal. by apply IH2.
Qed.

(** [silc_calloc(argc, 8)] succeeds exactly for these counts. *)
Definition argc_ok (argc : Z) : Prop := 0 < argc < 134217728.

Lemma calloc_argc n : argc_ok n -> exists p, silc_calloc n 8 = Some p.
Proof.
  unfold argc_ok. intros. rewrite silc_calloc_ok; [by eexists|]. unfold SILC_MAX_ALLOC. lia.
Qed.

Lemma payload_parse_ok d n :
  zlen d < 2147483648 -> argc_ok n ->
  silc_argument_payload_parse d (zlen d) n =
  payload_of <$> dec_tlvs (Z.to_nat n) d.
Proof.
  intros Hd Hn. unfold silc_argument_payload_parse.
  destruct (calloc_argc n Hn) as [p ->].
  unfold argc_ok in Hn. rewrite silc_calloc_ok by (unfold SILC_MAX_ALLOC; lia).
  rewrite set_areas by done.
  pose proof (parse_loop_areas (Z.to_nat n) [] d ltac:(zl)) as H.
  destruct (parse_loop _ _) as [[b l]|]; [|by rewrite H].
  destruct (Z.eqb_spec (silc_buffer_len b) 0); cbn [negb]; [|by rewrite H].
  destruct H as [H1 H2]. destruct (dec_tlvs (Z.to_nat n) d) as [ts|] eqn:E; [|done].
  cbn. rewrite (H2 ts) by done. unfold payload_of.
  rewrite <- !list_fmap_compose. f_equal. f_equal.
  assert (El : forall m d ts, dec_tlvs m d = Some ts -> length ts = m).
  { clear. induction m as [|m IH]; cbn; intros d ts E; [by case_decide; simplify_eq|].
    destruct d as [|a [|b [|ty d]]]; try done. case_match; [done|].
    destruct (dec_tlvs m _) as [ts'|] eqn:E'; cbn in E; simplify_eq. cbn.
    f_equal. by eapply IH. }
  apply El in E. unfold zlen. lia.
Qed.

Lemma payload_parse_bad_argc payload payload_len n :
  0 <= n < 4294967296 -> ~ argc_ok n ->
  silc_argument_payload_parse payload payload_len n = None.
Proof.
  unfold argc_ok. intros Hn Hbad. unfold silc_argument_payload_parse, silc_calloc, alloc_ok.
  replace (u64 (8 * n)) with (8 * n) by (unfold u64; rewrite Z.mod_small; lia).
  unfold SILC_MAX_ALLOC. destruct (Z.leb_spec (8 * n) 0); [done|].
  destruct (Z.leb_spec (1024 * 1024 * 1024) (8 * n)); [done|]. lia.
Qed.

(** ** The encoders implement the reference encoder *)

(** A triple (pointer, length, type) as the encoders take it. *)
Abbreviation triple := (option (list Z) * Z * Z)%type (only parsing).

(** The pointer has the bytes the length announces. *)
Definition triple_ok (a : triple) : Prop :=
  0 <= a.1.2 < 65536 /\ match a.1.1 with Some x => a.1.2 <= zlen x | None => a.1.2 = 0 end.

Definition tlv_of (a : triple) : tlv :=
  (a.2, match a.1.1 with Some x => ztake a.1.2 x | None => [] end).

Lemma tlv_of_len a : triple_ok a -> zlen (tlv_of a).2 = a.1.2.
Proof.
  destruct a as [[[x|] len] ty]; unfold triple_ok; cbn; intros.
  - apply zlen_take; lia.
  - rewrite zlen_nil. lia.
Qed.

Lemma arg_params_ok a :
  triple_ok a ->
  let ap := [PARAM_UI16_SHORT a.1.2; PARAM_UI8_CHAR a.2; PARAM_NSTRING a.1.1 a.1.2] in
  Forall data_arg ap /\ enc_args ap = enc_tlv (tlv_of a).
Proof.
  intros Ha. pose proof (tlv_of_len a Ha) as E. destruct a as [[x len] ty].
  cbn zeta. split.
  - repeat constructor. unfold triple_ok in Ha; cbn in *. destruct x; [lia|done].
  - unfold enc_tlv, enc_args. rewrite E. cbn. unfold tlv_of; cbn.
    destruct x; by rewrite ?app_nil_r.
Qed.

Lemma encode_arg_areas h y d t a :
  triple_ok a -> zlen y = 3 + a.1.2 -> zlen h + zlen y + zlen d + zlen t < SILC_MAX_ALLOC ->
  encode_arg (of_areas h (y ++ d) t) a.1.1 a.1.2 a.1.2 a.2 =
  of_areas (h ++ enc_tlv (tlv_of a)) d t.
Proof.
  unfold SILC_MAX_ALLOC. intros Ha Hy Hs. unfold encode_arg.
  destruct (arg_params_ok a Ha) as [Hap E]. zlen_facts.
  assert (El : zlen (enc_tlv (tlv_of a)) = 3 + a.1.2)
    by (rewrite zlen_enc_tlv, tlv_of_len by done; lia).
  rewrite format_areas by
    (try done; unfold fits, SILC_MAX_ALLOC; rewrite E, El, zlen_app; lia).
  cbn [fst]. rewrite E, El, zdrop_app_exact, (zdrop_0 _ t) by (rewrite ?zlen_app; lia).
  rewrite <- El at 1. rewrite pull_areas by lia. done.
Qed.

Lemma encode_loop_areas cut l : forall h y d t,
  Forall triple_ok l -> (forall n, 0 <= n < 65536 -> cut n = n) ->
  zlen y = zlen (enc_tlvs (tlv_of <$> l)) ->
  zlen h + zlen y + zlen d + zlen t < SILC_MAX_ALLOC ->
  encode_loop (of_areas h (y ++ d) t) cut l =
  of_areas (h ++ enc_tlvs (tlv_of <$> l)) d t.
Proof.
  induction l as [|a l IH]; intros h y d t Hl Hcut Hy Hs.
  - apply zlen_zero_nil in Hy as ->. cbn. by rewrite app_nil_r.
  - apply list.Forall_cons_1 in Hl as [Ha Hl].
    assert (El : zlen (enc_tlv (tlv_of a)) = 3 + a.1.2)
      by (rewrite zlen_enc_tlv, tlv_of_len by done; lia).
    pose proof Ha as [Hlen _]. rewrite fmap_cons, enc_tlvs_cons in *.
    rewrite zlen_app, El in Hy. zlen_facts. cbn [encode_loop].
    rewrite <- (ztake_drop (3 + a.1.2) y), <- app_assoc.
    destruct a as [[x len] ty]; cbn [fst snd] in *. rewrite Hcut by lia.
    pose proof (encode_arg_areas h (ztake (3 + len) y) (zdrop (3 + len) y ++ d) t
                  (x, len, ty)) as E; cbn [fst snd] in E. rewrite E; clear E; try done.
    + rewrite IH; [by rewrite <- app_assoc|done|done| |].
      * rewrite zlen_drop; lia.
      * rewrite zlen_app, El, zlen_drop; lia.
    + apply zlen_take. lia.
    + rewrite zlen_app, zlen_take, zlen_drop; lia.
Qed.

Lemma total_len_ok cut l : forall n,
  Forall triple_ok l -> (forall n, 0 <= n < 65536 -> cut n = n) ->
  0 <= n -> n + zlen (enc_tlvs (tlv_of <$> l)) < 4294967296 ->
  total_len cut ((fun a => a.1.2) <$> l) n = n + zlen (enc_tlvs (tlv_of <$> l)).
Proof.
  induction l as [|a l IH]; intros n Hl Hcut Hn Hs.
  - cbn. rewrite zlen_nil. lia.
  - apply list.Forall_cons_1 in Hl as [Ha Hl]. pose proof Ha as [Hlen _].
    rewrite !fmap_cons, enc_tlvs_cons in *. cbn [total_len].
    rewrite zlen_app, zlen_enc_tlv, tlv_of_len in * by done. zlen_facts.
    rewrite Hcut, u32_id by lia. rewrite IH by (done || lia). lia.
Qed.

Lemma zip3_fmap {A B C D} (f : A -> B) (g : A -> C) (k : A -> D) l :
  zip3 (f <$> l) (g <$> l) (k <$> l) = (fun a => (f a, g a, k a)) <$> l.
Proof. unfold zip3. induction l; cbn; [done|]. by f_equal. Qed.

Lemma encode_with_ok cut l :
  Forall triple_ok l -> (forall n, 0 <= n < 65536 -> cut n = n) ->
  zlen (enc_tlvs (tlv_of <$> l)) < SILC_MAX_ALLOC ->
  encode_with cut (zlen l) ((fun a => a.1.1) <$> l) ((fun a => a.1.2) <$> l)
    ((fun a => a.2) <$> l) =
  Some (of_areas [] (enc_tlvs (tlv_of <$> l)) []).
Proof.
  intros Hl Hcut Hs. pose proof Hs as Hs'. unfold SILC_MAX_ALLOC in Hs'. zlen_facts.
  unfold encode_with.
  rewrite zip3_fmap, !ztake_ge by (rewrite zlen_fmap; reflexivity).
  assert (E : (fun a : triple => (a.1.1, a.1.2, a.2)) <$> l = l).
  { rewrite <- (list_fmap_id l) at 2. apply list_fmap_ext. by intros _ [[??]?] _. }
  rewrite E. clear E. rewrite total_len_ok by (done || lia). rewrite Z.add_0_l.
  set (e := enc_tlvs _) in *. rewrite alloc_size_areas by (unfold SILC_MAX_ALLOC; lia).
  rewrite <- (app_nil_r (zeros (zlen e))).
  rewrite encode_loop_areas; try done; fold e.
  - cbn [app]. rewrite <- (app_nil_l e) at 1. rewrite push_areas. cbn.
    by rewrite app_nil_r.
  - rewrite zlen_zeros; lia.
  - rewrite zlen_zeros, !zlen_nil by lia. unfold SILC_MAX_ALLOC. lia.
Qed.

Lemma dec_tlvs_length n : forall d l, dec_tlvs n d = Some l -> length l = n.
Proof.
  induction n as [|n IH]; cbn; intros d l E; [by case_decide; simplify_eq|].
  destruct d as [|a [|b [|ty d]]]; try done. case_match; [done|].
  destruct (dec_tlvs n _) as [l'|] eqn:E'; cbn in E; simplify_eq. cbn.
  f_equal. by eapply IH.
Qed.

(** The triples of a parsed payload: its blocks, lengths and types. *)
Definition triples_of (l : list tlv) : list triple :=
  (fun a => (block a.2, zlen a.2, a.1)) <$> l.

Lemma triples_of_ok l : Forall tlv_ok l -> Forall triple_ok (triples_of l).
Proof.
  intros H. apply Forall_fmap. eapply Forall_impl; [|exact H].
  intros [ty data] [_ Hlen]. unfold triple_ok, compose, block; cbn in *.
  zlen_facts. split; [lia|]. case_decide; [by subst|]. zl.
Qed.

Lemma tlv_of_triples l : tlv_of <$> triples_of l = l.
Proof.
  unfold triples_of. rewrite <- list_fmap_compose. rewrite <- (list_fmap_id l) at 2.
  apply list_fmap_ext. intros _ [ty data] _. unfold tlv_of, block, compose; cbn.
  case_decide; [by subst|]. by rewrite ztake_app_exact.
Qed.

Lemma payload_of_triples l :
  payload_of l = mkArgs (zlen (triples_of l)) ((fun a => a.1.1) <$> triples_of l)
    ((fun a => a.1.2) <$> triples_of l) ((fun a => a.2) <$> triples_of l) 0.
Proof.
  unfold payload_of, triples_of. by rewrite <- !list_fmap_compose, zlen_fmap.
Qed.

Lemma encode_payload_ok l :
  Forall tlv_ok l -> zlen (enc_tlvs l) < SILC_MAX_ALLOC ->
  silc_argument_payload_encode_payload (payload_of l) = Some (whole (enc_tlvs l)).
Proof.
  intros Hl Hs. unfold silc_argument_payload_encode_payload.
  rewrite payload_of_triples; cbn [argc argv argv_lens argv_types].
  rewrite encode_with_ok; rewrite ?tlv_of_triples; try done. by apply triples_of_ok.
Qed.

Lemma encode_ok l :
  Forall triple_ok l -> zlen (enc_tlvs (tlv_of <$> l)) < SILC_MAX_ALLOC ->
  silc_argument_payload_encode (zlen l) ((fun a => a.1.1) <$> l)
    ((fun a => a.1.2) <$> l) ((fun a => a.2) <$> l) =
  Some (whole (enc_tlvs (tlv_of <$> l))).
Proof. intros. apply encode_with_ok; [done| |done]. intros. by apply u16_id. Qed.

(** Appending one argument to a buffer that is all data. *)
Lemma encode_one_ok d a :
  triple_ok a -> zlen d + zlen (enc_tlv (tlv_of a)) < SILC_MAX_ALLOC ->
  silc_argument_payload_encode_one (Some (whole d)) a.1.1 a.1.2 a.2 =
  Some (whole (d ++ enc_tlv (tlv_of a))).
Proof.
  intros Ha Hs. pose proof Ha as [Hlen _]. unfold SILC_MAX_ALLOC in Hs.
  pose proof (tlv_of_len a Ha) as El. rewrite zlen_enc_tlv, El in Hs. zlen_facts.
  unfold silc_argument_payload_encode_one, whole. rewrite u16_id by lia.
  autorewrite with areas. rewrite ?zlen_nil, u32_id by lia.
  rewrite realloc_areas by (unfold SILC_MAX_ALLOC; rewrite ?zlen_nil; lia).
  cbn [app]. replace (zeros _) with (zeros (3 + a.1.2)) by (f_equal; zl).
  set (y := zeros (3 + a.1.2)). assert (Ey : zlen y = 3 + a.1.2) by (apply zlen_zeros; lia).
  clearbody y. autorewrite with areas.
  replace (of_areas [] d y) with (of_areas [] (d ++ []) y) by by rewrite app_nil_r.
  rewrite pull_areas by zl. cbn [fst app].
  assert (Ept : (silc_buffer_pull_tail (of_areas d [] y) (3 + a.1.2)).1 = of_areas d y []).
  { rewrite <- Ey. rewrite <- (app_nil_r y) at 1. by rewrite pull_tail_areas by zl. }
  rewrite Ept.
  destruct (arg_params_ok a Ha) as [Hap E].
  rewrite format_areas by (try done; unfold fits, SILC_MAX_ALLOC;
    rewrite E, zlen_enc_tlv, El, ?zlen_nil; lia).
  cbn [fst]. rewrite E, (zdrop_ge _ y), (zdrop_ge _ [])
    by (rewrite zlen_enc_tlv, El, ?zlen_nil; lia).
  rewrite app_nil_r. change (b_data _) with (zlen d). rewrite u32_id by lia.
  pose proof (push_areas [] d (enc_tlv (tlv_of a)) []) as Ep. cbn [app] in Ep.
  by rewrite Ep.
Qed.

(** ** Access to a payload *)

(** The data of the first record of a type. *)
Fixpoint first_of (type : Z) (l : list tlv) : option (list Z) :=
  match l with
  | [] => None
  | a :: l => if a.1 =? type then Some a.2 else first_of type l
  end.

Lemma find_type_shift types type : forall i,
  find_type types type i = i + find_type types type 0.
Proof.
  induction types as [|x types IH]; intros i; cbn [find_type]; [lia|].
  case_match; [lia|]. rewrite (IH (i + 1)), (IH (0 + 1)). lia.
Qed.

Lemma find_type_cons x types type :
  find_type (x :: types) type 0 = if x =? type then 0 else 1 + find_type types type 0.
Proof. cbn [find_type]. case_match; [done|]. by rewrite (find_type_shift _ _ (0 + 1)). Qed.

Lemma find_type_range types type : 0 <= find_type types type 0 <= zlen types.
Proof.
  induction types as [|x types IH]; [done|].
  rewrite find_type_cons, zlen_cons. case_match; zl.
Qed.

Lemma nth_S_Z {A} (x : A) l d k : 0 <= k -> nth (Z.to_nat (1 + k)) (x :: l) d = nth (Z.to_nat k) l d.
Proof. intros. by replace (Z.to_nat (1 + k)) with (S (Z.to_nat k)) by lia. Qed.

Lemma get_arg_type_of l type :
  silc_argument_get_arg_type (Some (payload_of l)) type =
  (fun data => (block data, zlen data)) <$> first_of type l.
Proof.
  unfold silc_argument_get_arg_type, payload_of; cbn [argc argv argv_lens argv_types].
  rewrite ztake_ge by (rewrite zlen_fmap; lia).
  induction l as [|[ty data] l IH]; [done|].
  rewrite !fmap_cons, find_type_cons, zlen_cons. cbn [first_of fst snd].
  pose proof (find_type_range (fst <$> l) type) as Hr. zlen_facts.
  destruct (Z.eqb_spec ty type).
  - rewrite (proj2 (Z.leb_gt _ _)) by lia. done.
  - unfold znth in *. rewrite !nth_S_Z by lia. rewrite <- IH.
    repeat case_match; done || lia.
Qed.

(** The iterator: what is left after the position. *)
Definition args_after (p : SilcArgumentPayload) : list (option (list Z) * Z * Z) :=
  (fun i => arg_at p (Z.of_nat i)) <$> seq (Z.to_nat (pos p)) (Z.to_nat (argc p - pos p)).

Lemma get_next_arg_ok p :
  0 <= pos p ->
  silc_argument_get_next_arg p =
  match args_after p with
  | [] => (p, None)
  | a :: _ => (set_pos p (pos p + 1), Some a)
  end /\
  (pos p < argc p -> args_after (set_pos p (pos p + 1)) = tail (args_after p)).
Proof.
  intros Hp. unfold silc_argument_get_next_arg, args_after. cbn [pos argc set_pos].
  destruct (Z.leb_spec (argc p) (pos p)) as [|H].
  - replace (Z.to_nat (argc p - pos p)) with 0%nat by lia. split; [done|lia].
  - replace (Z.to_nat (argc p - pos p)) with (S (Z.to_nat (argc p - (pos p + 1)))) by lia.
    replace (Z.to_nat (pos p + 1)) with (S (Z.to_nat (pos p))) by lia.
    cbn [seq fmap list_fmap tail]. rewrite Z2Nat.id by lia. done.
Qed.

(** All arguments from the position on, by calls of [get_next]. *)
Fixpoint walk (n : nat) (p : SilcArgumentPayload) : list (option (list Z) * Z * Z) :=
  match n with
  | O => []
  | S n => match silc_argument_get_next_arg p with
           | (p, Some a) => a :: walk n p
           | (_, None) => []
           end
  end.

Lemma walk_ok n : forall p,
  0 <= pos p -> argc p - pos p <= Z.of_nat n -> walk n p = args_after p.
Proof.
  induction n as [|n IH]; intros p Hp Hn; cbn [walk].
  - unfold args_after. by replace (Z.to_nat (argc p - pos p)) with 0%nat by lia.
  - destruct (get_next_arg_ok p Hp) as [E Ht]. rewrite E.
    destruct (args_after p) as [|a k] eqn:Ek; [done|].
    assert (pos p < argc p).
    { apply Z.nle_gt. intros C. unfold args_after in Ek.
      by replace (Z.to_nat (argc p - pos p)) with 0%nat in Ek by lia. }
    f_equal. rewrite IH by (cbn; lia). by rewrite Ht.
Qed.

Lemma args_after_all l :
  args_after (payload_of l) = (fun a => (block a.2, a.1, zlen a.2)) <$> l.
Proof.
  unfold args_after, payload_of; cbn [argc pos].
  rewrite Z.sub_0_r. replace (Z.to_nat (zlen l)) with (length l) by (unfold zlen; lia).
  change (Z.to_nat 0) with 0%nat.
  apply list_eq. intros i. rewrite !list_lookup_fmap.
  destruct (decide (i < length l)%nat) as [Hi|Hi].
  - rewrite lookup_seq_lt by done. destruct (lookup_lt_is_Some_2 l i Hi) as [a Ha].
    rewrite Ha. cbn. unfold arg_at, znth; cbn [argv argv_lens argv_types].
    rewrite Nat2Z.id. f_equal.
    f_equal; [f_equal|]; apply nth_lookup_Some; rewrite list_lookup_fmap, Ha; done.
  - rewrite (lookup_ge_None_2 l i), lookup_seq_ge by lia. done.
Qed.

(** Appending to no buffer at all. *)
Lemma encode_one_none a :
  triple_ok a -> zlen (enc_tlv (tlv_of a)) < SILC_MAX_ALLOC ->
  silc_argument_payload_encode_one None a.1.1 a.1.2 a.2 =
  Some (whole (enc_tlv (tlv_of a))).
Proof.
  intros Ha Hs. pose proof Ha as [Hlen _]. unfold SILC_MAX_ALLOC in Hs.
  pose proof (tlv_of_len a Ha) as El. rewrite zlen_enc_tlv, El in Hs.
  unfold silc_argument_payload_encode_one, silc_buffer_realloc, silc_buffer_alloc.
  rewrite u16_id by lia. destruct (Z.eqb_spec (3 + a.1.2) 0); [lia|].
  rewrite silc_calloc_ok by (unfold SILC_MAX_ALLOC; lia). rewrite Z.mul_1_l.
  set (y := zeros (3 + a.1.2)). assert (Ey : zlen y = 3 + a.1.2) by (apply zlen_zeros; lia).
  clearbody y. change (mkBuffer y 0 0) with (of_areas [] [] y).
  autorewrite with areas. pose proof (pull_areas [] [] [] y ltac:(zl)) as Epl.
  cbn [app] in Epl. rewrite Epl; clear Epl. cbn [fst].
  assert (Ept : (silc_buffer_pull_tail (of_areas [] [] y) (3 + a.1.2)).1 = of_areas [] y []).
  { rewrite <- Ey. rewrite <- (app_nil_r y) at 1. by rewrite pull_tail_areas by zl. }
  rewrite Ept. destruct (arg_params_ok a Ha) as [Hap E].
  rewrite format_areas by (try done; unfold fits, SILC_MAX_ALLOC;
    rewrite E, zlen_enc_tlv, El, ?zlen_nil; lia).
  cbn [fst]. rewrite E, (zdrop_ge _ y), (zdrop_ge _ [])
    by (rewrite zlen_enc_tlv, El, ?zlen_nil; lia).
  rewrite app_nil_r. done.
Qed.

(** Encoding the arguments one call at a time. *)
Fixpoint encode_each (b : option SilcBuffer) (l : list triple) : option SilcBuffer :=
  match l with
  | [] => b
  | a :: l =>
      match silc_argument_payload_encode_one b a.1.1 a.1.2 a.2 with
      | None => None
      | Some b => encode_each (Some b) l
      end
  end.

Lemma encode_each_ok l : forall d,
  Forall triple_ok l -> zlen d + zlen (enc_tlvs (tlv_of <$> l)) < SILC_MAX_ALLOC ->
  encode_each (Some (whole d)) l = Some (whole (d ++ enc_tlvs (tlv_of <$> l))).
Proof.
  induction l as [|a l IH]; intros d Hl Hs; cbn [encode_each].
  - by rewrite app_nil_r.
  - apply list.Forall_cons_1 in Hl as [Ha Hl]. rewrite fmap_cons, enc_tlvs_cons, zlen_app in *.
    zlen_facts. rewrite encode_one_ok by (done || lia).
    rewrite IH by (done || (rewrite zlen_app; lia)). by rewrite <- app_assoc.
Qed.

(** ** Properties *)

(** an encoded argument list is parsed back to the arguments that were
    encoded, each as a NUL terminated block (NULL when empty) with its length
    and type, for every list whose lengths and types fit the format. *)
Theorem argument_roundtrip (l : list triple) :
  Forall triple_ok l -> Forall (fun a : triple => 0 <= a.2 < 256) l -> argc_ok (zlen l) ->
  zlen (enc_tlvs (tlv_of <$> l)) < SILC_MAX_ALLOC ->
  exists b,
    silc_argument_payload_encode (zlen l) ((fun a => a.1.1) <$> l)
      ((fun a => a.1.2) <$> l) ((fun a => a.2) <$> l) = Some b /\
    silc_argument_payload_parse (silc_buffer_data b) (silc_buffer_len b) (zlen l) =
      Some (payload_of (tlv_of <$> l)).
Proof.
  intros Hl Hty Hn Hs. eexists. split; [by apply encode_ok|].
  unfold SILC_MAX_ALLOC in Hs. rewrite whole_data, whole_len by lia.
  rewrite payload_parse_ok by (done || lia).
  assert (Hok : Forall tlv_ok (tlv_of <$> l)).
  { apply Forall_fmap. eapply Forall_impl; [|exact (Forall_and Hl Hty)].
    intros a [Ha Ht]. split; [done|]. rewrite tlv_of_len by done. apply Ha. }
  pose proof (dec_enc_tlvs (tlv_of <$> l) [] Hok) as E. rewrite app_nil_r in E.
  unfold zlen at 1. rewrite Nat2Z.id, <- (length_fmap tlv_of l), E. done.
Qed.

Lemma argument_roundtrip_witness :
  exists b,
    silc_argument_payload_encode 2 [Some [65; 66; 7]; None] [2; 0] [1; 9] = Some b /\
    silc_argument_payload_parse (silc_buffer_data b) (silc_buffer_len b) 2 =
      Some (mkArgs 2 [Some [65; 66; 0]; None] [2; 0] [1; 9] 0).
Proof.
  apply (argument_roundtrip [(Some [65; 66; 7], 2, 1); (None, 0, 9)]).
  - repeat constructor; vm_compute; done.
  - repeat constructor; vm_compute; done.
  - vm_compute; done.
  - vm_compute; done.
Defined.

(** C34: what parsed is canonical: encoding a parsed payload again gives exactly
    the bytes it was parsed from, so no two payloads share an encoding and the
    parser accepts no junk. *)
Theorem argument_parse_encode (d : list Z) (n : Z) (p : SilcArgumentPayload) :
  bytes_ok d -> zlen d < SILC_MAX_ALLOC -> 0 <= n < 4294967296 ->
  silc_argument_payload_parse d (zlen d) n = Some p ->
  silc_argument_payload_encode_payload p = Some (whole d).
Proof.
  unfold SILC_MAX_ALLOC. intros Hd Hs Hn E.
  destruct (decide (argc_ok n)) as [Hok|Hbad]; [|by rewrite payload_parse_bad_argc in E].
  rewrite payload_parse_ok in E by (done || lia).
  destruct (dec_tlvs (Z.to_nat n) d) as [l|] eqn:El; cbn in E; simplify_eq.
  apply enc_dec_tlvs in El as (<- & _ & Hl); [|done].
  apply encode_payload_ok; [done|]. unfold SILC_MAX_ALLOC. lia.
Qed.

Lemma argument_parse_encode_witness :
  silc_argument_payload_encode_payload
    (mkArgs 2 [Some [65; 66; 0]; None] [2; 0] [1; 9] 0) =
  Some (whole [0; 2; 1; 65; 66; 0; 0; 9]).
Proof.
  apply (argument_parse_encode _ 2).
  - repeat constructor; vm_compute; done.
  - vm_compute; done.
  - done.
  - vm_compute; reflexivity.
Defined.

(** An argument is looked up by type as the first record of that type, and
    the iterator visits every argument once, in order, and then stays at the
    end. *)
Theorem argument_access (l : list tlv) (type : Z) (n : nat) :
  l <> [] -> (length l <= n)%nat ->
  silc_argument_get_arg_type (Some (payload_of l)) type =
    (fun data => (block data, zlen data)) <$> first_of type l /\
  (let '(p, a) := silc_argument_get_first_arg (payload_of l) in a :: walk n p) =
    (fun a => (block a.2, a.1, zlen a.2)) <$> l.
Proof.
  intros Hl Hn. split; [apply get_arg_type_of|].
  unfold silc_argument_get_first_arg. rewrite <- args_after_all.
  destruct (get_next_arg_ok (payload_of l) ltac:(done)) as [_ Ht].
  assert (Hargc : 0 < argc (payload_of l)).
  { cbn. destruct l; [done|]. rewrite zlen_cons. zlen_facts. lia. }
  rewrite walk_ok; [|done|cbn; unfold zlen; lia].
  change (set_pos (payload_of l) 1) with (set_pos (payload_of l) (pos (payload_of l) + 1)).
  rewrite Ht by done. destruct l as [|a l]; [done|]. by rewrite args_after_all.
Qed.

Lemma argument_access_witness :
  silc_argument_get_arg_type (Some (payload_of [(1, [7]); (2, []); (2, [8])])) 2 =
    Some (None, 0) /\
  (let '(p, a) := silc_argument_get_first_arg (payload_of [(1, [7]); (2, []); (2, [8])]) in
   a :: walk 5 p) = [(Some [7; 0], 1, 1); (None, 2, 0); (Some [8; 0], 2, 1)].
Proof. apply (argument_access [(1, [7]); (2, []); (2, [8])] 2 5); [done|cbn; lia]. Defined.

(** Appending arguments one by one, from no buffer, builds the same buffer
    as encoding them together. *)
Theorem encode_one_by_one (l : list triple) :
  l <> [] -> Forall triple_ok l -> zlen (enc_tlvs (tlv_of <$> l)) < SILC_MAX_ALLOC ->
  encode_each None l =
  silc_argument_payload_encode (zlen l) ((fun a => a.1.1) <$> l)
    ((fun a => a.1.2) <$> l) ((fun a => a.2) <$> l).
Proof.
  intros Hne Hl Hs. rewrite encode_ok by done. destruct l as [|a l]; [done|].
  cbn [encode_each]. apply list.Forall_cons_1 in Hl as [Ha Hl].
  rewrite fmap_cons, enc_tlvs_cons, zlen_app in *. zlen_facts.
  by rewrite encode_one_none, encode_each_ok by (done || lia).
Qed.

Lemma encode_one_by_one_witness :
  encode_each None [(Some [65; 66; 7], 2, 1); (None, 0, 9)] =
  silc_argument_payload_encode 2 [Some [65; 66; 7]; None] [2; 0] [1; 9].
Proof.
  apply (encode_one_by_one [(Some [65; 66; 7], 2, 1); (None, 0, 9)]); [done| |done].
  repeat constructor; vm_compute; done.
Defined.
