(* ===== verification/Fields.v ===== *)
(** * Fields of a payload

    Most payloads are a fixed sequence of integers and counted strings.  This
    file gives such sequences a reference codec, [enc_fields] and [dec_fields],
    mutually inverse, and shows once that the [silc_buffer_unformat] and
    [silc_buffer_format] calls of the payload code implement it. *)

From S2P Require Import Prelude CTypes Memory Buffer BuffFmt.
Import Format Unformat RoundTrip Encoding.

(** ** Fields and their values *)

Inductive field :=
  | F8                (* SILC_STR_UI_CHAR *)
  | F16               (* SILC_STR_UI_SHORT *)
  | F32               (* SILC_STR_UI_INT *)
  | FS16              (* SILC_STR_UI16_NSTRING_ALLOC *)
  | FD (n : Z).       (* SILC_STR_DATA_ALLOC *)

Inductive fval := FInt (x : Z) | FStr (x : list Z).

(** The value fits the field. *)
Definition fval_ok (f : field) (v : fval) : Prop :=
  match f, v with
  | F8, FInt x => 0 <= x < 256
  | F16, FInt x => 0 <= x < 65536
  | F32, FInt x => 0 <= x < 4294967296
  | FS16, FStr x => zlen x < 65536
  | FD n, FStr x => zlen x = n /\ n < 1073741823
  | _, _ => False
  end.

Definition enc_field (f : field) (v : fval) : list Z :=
  match f, v with
  | F8, FInt x => [u8 x]
  | F16, FInt x => SILC_PUT16_MSB x
  | F32, FInt x => SILC_PUT32_MSB x
  | FS16, FStr x => SILC_PUT16_MSB (zlen x) ++ x
  | FD _, FStr x => x
  | _, _ => []
  end.

Definition dec_field (f : field) (d : list Z) : option (fval * list Z) :=
  match f, d with
  | F8, a :: d => Some (FInt (u8 a), d)
  | F16, a :: b :: d => Some (FInt (SILC_GET16_MSB [a; b]), d)
  | F32, a :: b :: c :: e :: d => Some (FInt (SILC_GET32_MSB [a; b; c; e]), d)
  | FS16, a :: b :: d =>
      let n := SILC_GET16_MSB [a; b] in
      if zlen d <? n then None else Some (FStr (ztake n d), zdrop n d)
  | FD n, d => if zlen d <? n then None else Some (FStr (ztake n d), zdrop n d)
  | _, _ => None
  end.

(** The unformatting argument of a field and its output for a value. *)
Definition uf_of (f : field) : uf_arg :=
  match f with
  | F8 => U_UI8_CHAR
  | F16 => U_UI16_SHORT
  | F32 => U_UI32_INT
  | FS16 => U_NSTRING_ALLOC UI16
  | FD n => U_DATA_ALLOC n
  end.

Definition uval_of (f : field) (v : fval) : uval :=
  match f, v with
  | FS16, FStr x => VStr (block x) (zlen x)
  | _, FStr x => VPtr (block x)
  | _, FInt x => VInt x
  end.

(** The formatting arguments that write a value. *)
Definition fmt_of (f : field) (v : fval) : list fmt_arg :=
  match f, v with
  | F8, FInt x => [PARAM_UI8_CHAR x]
  | F16, FInt x => [PARAM_UI16_SHORT x]
  | F32, FInt x => [PARAM_UI32_INT x]
  | FS16, FStr x => [PARAM_UI16_SHORT (zlen x); PARAM_NSTRING (Some x) (zlen x)]
  | FD _, FStr x => [PARAM_NSTRING (Some x) (zlen x)]
  | _, _ => []
  end.

Fixpoint dec_fields (fs : list field) (d : list Z) : option (list fval * list Z) :=
  match fs with
  | [] => Some ([], d)
  | f :: fs =>
      match dec_field f d with
      | None => None
      | Some (v, d) =>
          match dec_fields fs d with
          | None => None
          | Some (vs, d) => Some (v :: vs, d)
          end
      end
  end.

Definition enc_fields (fs : list field) (vs : list fval) : list Z :=
  concat (zip_with enc_field fs vs).
Definition uvals_of (fs : list field) (vs : list fval) : list uval := zip_with uval_of fs vs.
Definition fmts_of (fs : list field) (vs : list fval) : list fmt_arg :=
  concat (zip_with fmt_of fs vs).

(** The sizes a schema may announce. *)
Definition field_ok (f : field) : Prop :=
  match f with FD n => 0 <= n < 1073741823 | _ => True end.

(** ** The codec *)

Lemma get16_pair x rest :
  0 <= x < 65536 -> SILC_GET16_MSB (u8 (Z.shiftr x 8) :: u8 x :: rest) = x.
Proof.
  intros Hx. change (u8 (Z.shiftr x 8) :: u8 x :: rest) with (SILC_PUT16_MSB x ++ rest).
  rewrite get16_put16. by apply u16_id.
Qed.

Lemma get32_quad x :
  0 <= x < 4294967296 -> SILC_GET32_MSB (SILC_PUT32_MSB x) = x.
Proof.
  intros Hx. rewrite <- (app_nil_r (SILC_PUT32_MSB x)), get32_put32. by apply u32_id.
Qed.

Lemma dec_enc_field f v rest :
  fval_ok f v -> dec_field f (enc_field f v ++ rest) = Some (v, rest).
Proof.
  destruct f, v; cbn [fval_ok enc_field]; try done; intros Hv.
  - cbn. by rewrite u8_u8, u8_id.
  - cbn. by rewrite get16_pair.
  - pose proof (get32_quad _ Hv) as E. unfold SILC_PUT32_MSB in *. cbn. by rewrite E.
  - zlen_facts. cbn. rewrite get16_pair, zlen_app by lia.
    rewrite (proj2 (Z.ltb_ge _ _)) by zl. by rewrite ztake_app_exact, zdrop_app_exact.
  - destruct Hv as [<- ?]. cbn. rewrite (proj2 (Z.ltb_ge _ _)) by zl.
    by rewrite ztake_app_exact, zdrop_app_exact.
Qed.

Lemma dec_enc_fields fs : forall vs rest,
  Forall2 fval_ok fs vs -> dec_fields fs (enc_fields fs vs ++ rest) = Some (vs, rest).
Proof.
  induction fs as [|f fs IH]; intros vs rest H; inversion H as [|? v ? vs' Hv Hvs]; subst; [done|].
  unfold enc_fields in *. cbn [zip_with concat dec_fields].
  rewrite <- app_assoc, dec_enc_field by done. by rewrite IH.
Qed.

Lemma put32_get32 a b c d :
  0 <= a < 256 -> 0 <= b < 256 -> 0 <= c < 256 -> 0 <= d < 256 ->
  SILC_PUT32_MSB (SILC_GET32_MSB [a; b; c; d]) = [a; b; c; d].
Proof.
  intros. rewrite get32_cons, !u8_id by lia. unfold SILC_PUT32_MSB.
  rewrite !Z.shiftr_div_pow2 by lia.
  change (2 ^ 24) with 16777216. change (2 ^ 16) with 65536. change (2 ^ 8) with 256.
  repeat f_equal; warith.
Qed.

Lemma enc_dec_field f d v rest :
  field_ok f -> bytes_ok d -> dec_field f d = Some (v, rest) ->
  d = enc_field f v ++ rest /\ fval_ok f v /\ bytes_ok rest.
Proof.
  unfold bytes_ok. intros Hf Hd E. destruct f; cbn in E.
  - destruct d as [|a d]; simplify_eq. apply list.Forall_cons in Hd as [Ha Hd].
    cbn. rewrite u8_u8, u8_id by done. done.
  - destruct d as [|a [|b d]]; simplify_eq. rewrite !list.Forall_cons in Hd.
    destruct Hd as (Ha & Hb & Hd). cbn [enc_field fval_ok].
    rewrite put16_get16 by done. split; [done|]. split; [apply get16_range|done].
  - destruct d as [|a [|b [|c [|e d]]]]; simplify_eq. rewrite !list.Forall_cons in Hd.
    destruct Hd as (Ha & Hb & Hc & He & Hd). cbn [enc_field fval_ok].
    rewrite put32_get32 by done. split; [done|]. split; [apply get32_range|done].
  - destruct d as [|a [|b d]]; try done. rewrite !list.Forall_cons in Hd.
    destruct Hd as (Ha & Hb & Hd). pose proof (get16_range [a; b]).
    destruct (Z.ltb_spec (zlen d) (SILC_GET16_MSB [a; b])); simplify_eq.
    cbn [enc_field fval_ok]. rewrite zlen_take by lia.
    rewrite put16_get16 by done. cbn. rewrite ztake_drop.
    split; [done|]. split; [lia|]. by apply Forall_drop.
  - destruct (Z.ltb_spec (zlen d) n); simplify_eq. cbn [enc_field fval_ok field_ok] in *.
    rewrite ztake_drop, zlen_take by lia. split; [done|]. split; [lia|]. by apply Forall_drop.
Qed.

Lemma enc_dec_fields fs : forall d vs rest,
  Forall field_ok fs -> bytes_ok d -> dec_fields fs d = Some (vs, rest) ->
  d = enc_fields fs vs ++ rest /\ Forall2 fval_ok fs vs /\ bytes_ok rest.
Proof.
  induction fs as [|f fs IH]; cbn [dec_fields]; intros d vs rest Hf Hd E; [by simplify_eq|].
  apply list.Forall_cons_1 in Hf as [Hf Hfs].
  destruct (dec_field f d) as [[v d']|] eqn:Ev; [|done].
  destruct (dec_fields fs d') as [[vs' d'']|] eqn:Evs; simplify_eq.
  apply enc_dec_field in Ev as (-> & Hv & Hd'); [|done..].
  apply IH in Evs as (-> & Hvs & Hr); [|done..].
  unfold enc_fields. cbn [zip_with concat]. rewrite <- app_assoc.
  split; [done|]. split; [by constructor|done].
Qed.

Lemma dec_fields_vals fs d vs rest :
  Forall field_ok fs -> bytes_ok d -> dec_fields fs d = Some (vs, rest) ->
  zlen d = zlen (enc_fields fs vs) + zlen rest /\ Forall2 fval_ok fs vs /\ bytes_ok rest.
Proof.
  intros Hf Hd E. apply enc_dec_fields in E as (-> & ? & ?); [|done..].
  by rewrite zlen_app.
Qed.

Definition fval_bytes (v : fval) : Prop := match v with FStr x => bytes_ok x | _ => True end.

Lemma enc_fields_bytes fs : forall vs,
  Forall fval_bytes vs -> bytes_ok (enc_fields fs vs).
Proof.
  unfold enc_fields, bytes_ok. induction fs as [|f fs IH]; intros [|v vs] H; [done..|].
  apply list.Forall_cons in H as [Hv Hvs]. cbn [zip_with concat].
  apply Forall_app_2; [|by apply IH]. destruct f, v; cbn [enc_field]; try done.
  - repeat constructor; apply u8_range.
  - apply put16_bytes.
  - apply put32_bytes.
  - apply Forall_app_2; [apply put16_bytes|done].
Qed.

(** ** Unformatting implements the decoder *)

Lemma uparse_field f d t :
  field_ok f ->
  uparse1 (uf_of f) d t =
  match dec_field f d with
  | Some (v, rest) => Some ([uval_of f v], zlen d - zlen rest)
  | None => None
  end.
Proof.
  intros Hf. destruct f; cbn [uf_of uparse1].
  - destruct d as [|a d]; [done|]. cbn. rewrite p_int_ok by zl. do 2 f_equal. zl.
  - destruct d as [|a [|b d]]; try done. cbn. rewrite p_int_ok by zl. do 2 f_equal. zl.
  - destruct d as [|a [|b [|c [|e d]]]]; try done. cbn. rewrite p_int_ok by zl.
    do 2 f_equal. zl.
  - destruct d as [|a [|b d]]; try done. unfold p_string.
    rewrite (proj2 (Z.ltb_ge _ _)) by (cbn; zl). cbn zeta. cbn [width get_len]. zdrop_red.
    get_red. rewrite u16_get16. cbn [dec_field]. pose proof (get16_range [a; b]).
    set (n := SILC_GET16_MSB [a; b]) in *. destruct (Z.ltb_spec (zlen d) n); [done|].
    cbn [uval_of]. zlen_facts.
    rewrite alloc_val_block, ztake_app_l by (rewrite ?zlen_app; unfold SILC_MAX_ALLOC; zlen_facts; lia).
    rewrite zlen_take by lia. do 2 f_equal. rewrite zlen_drop by lia. zl.
  - cbn in Hf. rewrite u32_id by lia. cbn [dec_field]. unfold p_int.
    destruct (Z.ltb_spec (zlen d) n); [done|]. zlen_facts.
    rewrite alloc_val_block, ztake_app_l by (rewrite ?zlen_app; unfold SILC_MAX_ALLOC; zlen_facts; lia).
    cbn [uval_of]. do 2 f_equal. rewrite zlen_drop by lia. lia.
Qed.

Lemma dec_field_suffix f d v rest :
  field_ok f -> dec_field f d = Some (v, rest) ->
  zlen rest <= zlen d /\ rest = zdrop (zlen d - zlen rest) d.
Proof.
  intros Hf E. assert (H : exists k, d = k ++ rest).
  { destruct f; cbn in E.
    - destruct d as [|a d]; simplify_eq. by exists [a].
    - destruct d as [|a [|b d]]; simplify_eq. by exists [a; b].
    - destruct d as [|a [|b [|c [|e d]]]]; simplify_eq. by exists [a; b; c; e].
    - destruct d as [|a [|b d]]; try done. case_match; simplify_eq.
      eexists (a :: b :: ztake _ d). cbn. by rewrite ztake_drop.
    - case_match; simplify_eq. exists (ztake n d). by rewrite ztake_drop. }
  destruct H as [k ->]. split; [zl|]. rewrite zdrop_app_exact; [done|]. zl.
Qed.

Lemma uparse_fields fs : forall d t,
  Forall field_ok fs ->
  uparse (uf_of <$> fs) d t =
  match dec_fields fs d with
  | Some (vs, rest) => Some (uvals_of fs vs, zlen d - zlen rest)
  | None => None
  end.
Proof.
  induction fs as [|f fs IH]; intros d t Hf; cbn [dec_fields fmap list_fmap uparse].
  - by rewrite Z.sub_diag.
  - apply list.Forall_cons_1 in Hf as [Hf Hfs]. rewrite uparse_field by done.
    destruct (dec_field f d) as [[v d']|] eqn:E; [|done].
    apply dec_field_suffix in E as [Hl E]; [|done]. rewrite <- E, IH by done.
    destruct (dec_fields fs d') as [[vs rest]|]; [|done]. cbn. do 2 f_equal. lia.
Qed.

Lemma plain_fields fs : Forall plain_arg (uf_of <$> fs).
Proof. apply Forall_fmap, Forall_true. by intros []. Qed.

(** The call as the payload parsers make it. *)
Lemma unformat_fields h d fs :
  zlen h + zlen d < 2147483648 -> Forall field_ok fs ->
  match dec_fields fs d with
  | Some (vs, rest) =>
      silc_buffer_unformat (of_areas h d []) (uf_of <$> fs) =
        (of_areas h d [], zlen d - zlen rest, uvals_of fs vs) /\
      (zlen d - zlen rest =? -1) = false
  | None =>
      exists o, silc_buffer_unformat (of_areas h d []) (uf_of <$> fs) = (of_areas h d [], -1, o)
  end.
Proof.
  intros Hs Hf. pose proof (uparse_fields fs d [] Hf) as E.
  destruct (dec_fields fs d) as [[vs rest]|].
  - apply unformat_some; [done|apply plain_fields|zl].
  - apply unformat_none; [done|apply plain_fields|zl].
Qed.

(** ** Formatting implements the encoder *)

Lemma fmts_of_ok fs : forall vs,
  Forall2 fval_ok fs vs ->
  Forall data_arg (fmts_of fs vs) /\ enc_args (fmts_of fs vs) = enc_fields fs vs.
Proof.
  unfold fmts_of, enc_fields, enc_args.
  induction fs as [|f fs IH]; intros vs H; inversion H as [|? v ? vs' Hv Hvs]; subst; [done|].
  destruct (IH _ Hvs) as [IH1 IH2]. cbn [zip_with concat]. rewrite fmap_app, concat_app.
  rewrite IH2. split.
  - apply Forall_app_2; [|done]. destruct f, v; cbn in *; repeat constructor; try done; zl.
  - f_equal. destruct f, v; cbn in *; try done; by rewrite ?ztake_ge, ?app_nil_r.
Qed.

(** A buffer allocated for the fields and formatted in one call. *)
Lemma format_fields n fs vs :
  Forall2 fval_ok fs vs -> zlen (enc_fields fs vs) = n -> n < SILC_MAX_ALLOC ->
  silc_buffer_format (whole (zeros n)) (fmts_of fs vs) = (whole (enc_fields fs vs), n).
Proof.
  intros Hv Hn Hs. destruct (fmts_of_ok fs vs Hv) as [Hd E]. rewrite <- E in Hn |- *.
  by apply format_whole.
Qed.

(** Splits a list that decoded by a literal schema: for each value, its shape. *)
Ltac fvals :=
  repeat match goal with
  | H : Forall2 fval_ok (_ :: _) ?vs |- _ =>
      let v := fresh "v" in let Hv := fresh "Hv" in
      inversion H as [|? v ? ? Hv]; clear H; subst;
      destruct v; cbn [fval_ok] in Hv; try done
  | H : Forall2 fval_ok [] ?vs |- _ => inversion H; clear H; subst
  end.
