(* ===== verification/Command.v ===== *)
(** * Command payloads ([lib/silccore/silccommand.c])

    A command payload is a header (length, command, number of arguments,
    identifier) and an argument payload. *)

From S2P Require Import Prelude CTypes Memory Buffer BuffFmt Argument.
Import Format Unformat RoundTrip Encoding.

(** [struct SilcCommandPayloadStruct]. *)
Record SilcCommandPayload := mkCommand {
  cmd : Z;
  ident : Z;
  args : option SilcArgumentPayload
}.

Definition SILC_COMMAND_PAYLOAD_LEN : Z := 6.

Definition silc_command_payload_parse (payload : list Z) (payload_len : Z)
    : option SilcCommandPayload :=
  let buffer := silc_buffer_set payload payload_len in
  let '(buffer, ret, o) :=
    silc_buffer_unformat buffer [U_UI16_SHORT; U_UI8_CHAR; U_UI8_CHAR; U_UI16_SHORT] in
  if ret =? -1 then None
  else match o with
  | [VInt p_len; VInt cmd; VInt args_num; VInt ident] =>
      if negb (p_len =? silc_buffer_len buffer) then None
      else if cmd =? 0 then None
      else
        let buffer := (silc_buffer_pull buffer SILC_COMMAND_PAYLOAD_LEN).1 in
        if negb (args_num =? 0) then
          match silc_argument_payload_parse (silc_buffer_data buffer)
                  (silc_buffer_len buffer) args_num with
          | None => None
          | Some args => Some (mkCommand cmd ident (Some args))
          end
        else Some (mkCommand cmd ident None)
  | _ => None
  end.

(** The part the two encoders share: the header, then the encoded arguments. *)
Definition encode_command (cmd argc ident : Z) (args : option SilcBuffer)
    : option SilcBuffer :=
  let len := u32 (match args with Some a => silc_buffer_len a | None => 0 end
                  + SILC_COMMAND_PAYLOAD_LEN) in
  match silc_buffer_alloc_size len with
  | None => None
  | Some buffer =>
      let buffer := (silc_buffer_format buffer
        [PARAM_UI16_SHORT len; PARAM_UI8_CHAR cmd; PARAM_UI8_CHAR argc;
         PARAM_UI16_SHORT ident]).1 in
      match args with
      | None => Some buffer
      | Some a =>
          let buffer := (silc_buffer_pull buffer SILC_COMMAND_PAYLOAD_LEN).1 in
          let buffer := (silc_buffer_format buffer
            [PARAM_NSTRING (Some (silc_buffer_data a)) (silc_buffer_len a)]).1 in
          Some (silc_buffer_push buffer SILC_COMMAND_PAYLOAD_LEN).1
      end
  end.

Definition silc_command_payload_encode (cmd argc : Z) (argv : list (option (list Z)))
    (argv_lens argv_types : list Z) (ident : Z) : option SilcBuffer :=
  if negb (argc =? 0) then
    match silc_argument_payload_encode argc argv argv_lens argv_types with
    | None => None
    | Some args => encode_command cmd argc ident (Some args)
    end
  else encode_command cmd argc ident None.

Definition silc_command_payload_encode_payload (payload : SilcCommandPayload)
    : option SilcBuffer :=
  match args payload with
  | Some a =>
      encode_command (cmd payload) (silc_argument_get_arg_num (Some a)) (ident payload)
        (silc_argument_payload_encode_payload a)
  | None => encode_command (cmd payload) 0 (ident payload) None
  end.

(** [va_arg] triples, in the order type, data, length. *)
Abbreviation va_triple := (Z * option (list Z) * Z)%type (only parsing).

(** The loop of the variadic encoders: triples without a type, data or length
    are skipped, the data of the others duplicated.  [None] is [goto out]. *)
Fixpoint va_collect (n : nat) (ap : list va_triple) : option (list (option (list Z) * Z * Z)) :=
  match n, ap with
  | S n, (x_type, x, x_len) :: ap =>
      match x with
      | Some x =>
          if (x_type =? 0) || (x_len =? 0) then va_collect n ap
          else match silc_memdup x x_len with
               | None => None
               | Some dup => cons (Some dup, x_len, x_type) <$> va_collect n ap
               end
      | None => va_collect n ap
      end
  | _, _ => Some []
  end.

Definition encode_triples (cmd ident : Z) (l : list (option (list Z) * Z * Z))
    : option SilcBuffer :=
  silc_command_payload_encode cmd (zlen l) ((fun a => a.1.1) <$> l)
    ((fun a => a.1.2) <$> l) ((fun a => a.2) <$> l) ident.

Definition silc_command_payload_encode_vap (cmd ident argc : Z) (ap : list va_triple)
    : option SilcBuffer :=
  if negb (argc =? 0) then
    match silc_calloc argc 8, silc_calloc argc 4, silc_calloc argc 4 with
    | Some _, Some _, Some _ =>
        match va_collect (Z.to_nat argc) ap with
        | None => None
        | Some l => encode_triples cmd ident l
        end
    | _, _, _ => None
    end
  else encode_triples cmd ident [].

Definition silc_command_payload_encode_va : Z -> Z -> Z -> list va_triple -> option SilcBuffer :=
  silc_command_payload_encode_vap.

(** The status and the error go first, as an argument of type 1. *)
Definition silc_command_reply_payload_encode_vap (cmd status error ident argc : Z)
    (ap : list va_triple) : option SilcBuffer :=
  let argc := u32 (argc + 1) in
  match silc_calloc argc 8, silc_calloc argc 4, silc_calloc argc 4 with
  | Some _, Some _, Some _ =>
      match silc_memdup [u8 status; u8 error] 2 with
      | None => None
      | Some argv0 =>
          match va_collect (Z.to_nat (argc - 1)) ap with
          | None => None
          | Some l => encode_triples cmd ident ((Some argv0, 2, 1) :: l)
          end
      end
  | _, _, _ => None
  end.

Definition silc_command_reply_payload_encode_va
    : Z -> Z -> Z -> Z -> Z -> list va_triple -> option SilcBuffer :=
  silc_command_reply_payload_encode_vap.

Definition silc_command_get (payload : SilcCommandPayload) : Z := cmd payload.
Definition silc_command_get_args (payload : SilcCommandPayload)
    : option SilcArgumentPayload := args payload.
Definition silc_command_get_ident (payload : SilcCommandPayload) : Z := ident payload.

Definition SILC_STATUS_OK : Z := 0.
Definition SILC_STATUS_ERR_NO_SUCH_NICK : Z := 10.

(** The result, and the status and error stored through the two pointers
    ([None] when nothing is stored). *)
Definition silc_command_get_status (payload : SilcCommandPayload) : bool * option (Z * Z) :=
  match args payload with
  | None => (false, None)
  | Some a =>
      match silc_argument_get_arg_type (Some a) 1 with
      | Some (Some tmp, tmp_len) =>
          if negb (tmp_len =? 2) then (false, None)
          else
            let tmp0 := znth tmp 0 in
            let tmp1 := znth tmp 1 in
            if (tmp0 =? 0) && negb (tmp1 =? 0) then
              let s := u8 (SILC_GET16_MSB tmp) in
              (s <? SILC_STATUS_ERR_NO_SUCH_NICK,
               Some (s, if SILC_STATUS_ERR_NO_SUCH_NICK <=? s then s else 0))
            else
              ((tmp0 <? SILC_STATUS_ERR_NO_SUCH_NICK) && (tmp1 =? SILC_STATUS_OK),
               Some (tmp0, if SILC_STATUS_ERR_NO_SUCH_NICK <=? tmp0 then tmp0 else tmp1))
      | _ => (false, None)
      end
  end.

Definition silc_command_set_ident (payload : SilcCommandPayload) (n : Z)
    : SilcCommandPayload := mkCommand (cmd payload) n (args payload).
Definition silc_command_set_command (payload : SilcCommandPayload) (command : Z)
    : SilcCommandPayload := mkCommand command (ident payload) (args payload).

(** ** Reference form *)

(** The six header bytes. *)
Definition enc_header (len cmd argc ident : Z) : list Z :=
  SILC_PUT16_MSB len ++ [u8 cmd; u8 argc] ++ SILC_PUT16_MSB ident.

(** A payload from its bytes: the length must be the whole payload, the command
    not 0, and the records exactly as many as announced; without records the
    rest of the payload is not looked at. *)
Definition dec_command (d : list Z) : option SilcCommandPayload :=
  match d with
  | a :: b :: c :: n :: i :: j :: d' =>
      if negb (SILC_GET16_MSB [a; b] =? zlen d) then None
      else if u8 c =? 0 then None
      else if u8 n =? 0 then Some (mkCommand (u8 c) (SILC_GET16_MSB [i; j]) None)
      else (fun l => mkCommand (u8 c) (SILC_GET16_MSB [i; j]) (Some (payload_of l)))
             <$> dec_tlvs (Z.to_nat (u8 n)) d'
  | _ => None
  end.

Lemma argc_u8_ok n : u8 n <> 0 -> argc_ok (u8 n).
Proof. pose proof (u8_range n). unfold argc_ok. lia. Qed.

Lemma command_parse_ok d :
  zlen d < 2147483648 -> silc_command_payload_parse d (zlen d) = dec_command d.
Proof.
  intros Hd. unfold silc_command_payload_parse. rewrite set_areas by done.
  destruct d as [|a [|b [|c [|e [|i [|j d]]]]]]; try short_unformat.
  run_unformat. cbn [dec_command]. rewrite of_areas_len by zl.
  destruct (Z.eqb_spec (SILC_GET16_MSB [a; b]) (zlen (a :: b :: c :: e :: i :: j :: d)));
    cbn [negb]; [|done].
  destruct (Z.eqb_spec (u8 c) 0); [done|].
  change (of_areas [] (a :: b :: c :: e :: i :: j :: d) [])
    with (of_areas [] ([a; b; c; e; i; j] ++ d) []).
  change SILC_COMMAND_PAYLOAD_LEN with (zlen [a; b; c; e; i; j]).
  rewrite pull_areas by zl. cbn [fst].
  destruct (Z.eqb_spec (u8 e) 0) as [|Hn]; cbn [negb]; [done|].
  rewrite data_areas, of_areas_len, app_nil_r by zl.
  rewrite payload_parse_ok; [by destruct (dec_tlvs _ _)|zl|by apply argc_u8_ok].
Qed.

Lemma enc_header_args len cmd argc ident :
  enc_args [PARAM_UI16_SHORT len; PARAM_UI8_CHAR cmd; PARAM_UI8_CHAR argc;
            PARAM_UI16_SHORT ident] = enc_header len cmd argc ident.
Proof. reflexivity. Qed.

Lemma encode_command_ok cmd argc ident e :
  6 + zlen e < SILC_MAX_ALLOC ->
  encode_command cmd argc ident (Some (whole e)) =
  Some (whole (enc_header (6 + zlen e) cmd argc ident ++ e)).
Proof.
  intros Hs. pose proof Hs as Hs'. unfold SILC_MAX_ALLOC in Hs'. zlen_facts.
  unfold encode_command, SILC_COMMAND_PAYLOAD_LEN.
  rewrite whole_len, whole_data, (Z.add_comm (zlen e)), u32_id by lia.
  rewrite alloc_size_areas by lia. fold (whole (zeros (6 + zlen e))).
  rewrite zeros_app by lia.
  assert (Ez : zlen (zeros (zlen e)) = zlen e) by (apply zlen_zeros; lia).
  rewrite format_front;
    [|repeat constructor|done|rewrite Ez, zlen_zeros; [done|lia]].
  cbn [fst]. rewrite enc_header_args. set (hdr := enc_header _ _ _ _).
  change 6 with (zlen hdr).
  rewrite (format_rest hdr (zeros (zlen e)) [PARAM_NSTRING (Some e) (zlen e)]).
  - by rewrite enc_args_cons, app_nil_r; cbn [enc_arg]; rewrite ztake_ge.
  - constructor; [cbn; lia|done].
  - rewrite Ez, enc_args_cons, app_nil_r; cbn [enc_arg]. by rewrite ztake_ge.
  - by rewrite Ez.
Qed.

Lemma encode_command_none cmd argc ident :
  encode_command cmd argc ident None = Some (whole (enc_header 6 cmd argc ident)).
Proof.
  unfold encode_command. cbn [silc_buffer_len].
  change (u32 (0 + SILC_COMMAND_PAYLOAD_LEN)) with 6.
  rewrite alloc_size_areas by done. fold (whole (zeros 6)).
  by rewrite format_whole by (done || by repeat constructor).
Qed.

(** The encoder on a list of arguments. *)
Lemma encode_triples_ok cmd ident l :
  Forall triple_ok l -> 6 + zlen (enc_tlvs (tlv_of <$> l)) < SILC_MAX_ALLOC ->
  encode_triples cmd ident l =
  Some (whole (enc_header (6 + zlen (enc_tlvs (tlv_of <$> l))) cmd (zlen l) ident
               ++ enc_tlvs (tlv_of <$> l))).
Proof.
  intros Hl Hs. unfold encode_triples, silc_command_payload_encode.
  destruct (Z.eqb_spec (zlen l) 0) as [E|E]; cbn [negb].
  - apply zlen_zero_nil in E as ->. rewrite encode_command_none. by rewrite app_nil_r.
  - rewrite encode_ok by (done || unfold SILC_MAX_ALLOC in *; lia).
    by apply encode_command_ok.
Qed.

(** Decoding what the header and the records encode. *)
Lemma dec_command_ok cmd ident l :
  0 < cmd < 256 -> 0 <= ident < 65536 -> Forall tlv_ok l -> zlen l < 256 ->
  6 + zlen (enc_tlvs l) < 65536 ->
  dec_command (enc_header (6 + zlen (enc_tlvs l)) cmd (zlen l) ident ++ enc_tlvs l) =
  Some (mkCommand cmd ident (if decide (l = []) then None else Some (payload_of l))).
Proof.
  intros Hc Hi Hl Hn Hs. zlen_facts. set (len := 6 + zlen (enc_tlvs l)) in *.
  assert (G : forall x, 0 <= x < 65536 ->
    SILC_GET16_MSB [u8 (Z.shiftr x 8); u8 x] = x).
  { intros x Hx. change [u8 (Z.shiftr x 8); u8 x] with (SILC_PUT16_MSB x).
    rewrite <- (app_nil_r (SILC_PUT16_MSB x)), get16_put16. by apply u16_id. }
  unfold enc_header, SILC_PUT16_MSB. cbn [app dec_command].
  rewrite !G, !u8_u8, (u8_id cmd), (u8_id (zlen l)) by lia. rewrite !zlen_cons.
  destruct (Z.eqb_spec len (1 + (1 + (1 + (1 + (1 + (1 + zlen (enc_tlvs l))))))));
    [|unfold len in *; lia]. cbn [negb].
  destruct (Z.eqb_spec cmd 0); [lia|]. destruct (Z.eqb_spec (zlen l) 0) as [E|E].
  - apply zlen_zero_nil in E as ->. done.
  - rewrite decide_False by (intros ->; done).
    pose proof (dec_enc_tlvs l [] Hl) as D. rewrite app_nil_r in D.
    unfold zlen at 1. rewrite Nat2Z.id, D. done.
Qed.

(** A call of the variadic encoders whose data are as long as announced. *)
Definition va_ok (a : va_triple) : Prop :=
  match a.1.2 with
  | Some x => a.1.1 <> 0 -> 0 <= a.2 <= zlen x /\ a.2 < 65536
  | None => True
  end.

(** The arguments a call sends: those with a type, data and length. *)
Fixpoint va_sent (ap : list va_triple) : list tlv :=
  match ap with
  | [] => []
  | (x_type, Some x, x_len) :: ap =>
      if (x_type =? 0) || (x_len =? 0) then va_sent ap
      else (x_type, ztake x_len x) :: va_sent ap
  | (_, None, _) :: ap => va_sent ap
  end.

Lemma va_collect_ok ap :
  Forall va_ok ap ->
  exists l, va_collect (length ap) ap = Some l /\ Forall triple_ok l /\
            tlv_of <$> l = va_sent ap.
Proof.
  induction ap as [|[[ty [x|]] len] ap IH]; intros Hap; [by exists []| |];
    apply list.Forall_cons_1 in Hap as [Ha Hap]; destruct (IH Hap) as (l & E & Hl & Ht);
    cbn [length va_collect va_sent]; [|by exists l].
  destruct (Z.eqb_spec ty 0) as [|Hty]; cbn [orb]; [by exists l|].
  destruct (Z.eqb_spec len 0); cbn [orb]; [by exists l|].
  destruct (Ha Hty) as [Hlen Hlen']; cbn [fst snd] in *.
  rewrite silc_memdup_ok by (done || unfold SILC_MAX_ALLOC; lia). rewrite E.
  eexists. split; [done|]. split.
  - constructor; [|done]. split; cbn; [lia|]. rewrite zlen_app, zlen_take; zl.
  - rewrite fmap_cons, Ht. f_equal. unfold tlv_of; cbn. f_equal.
    by rewrite ztake_app_exact by (rewrite zlen_take; lia).
Qed.

Lemma va_sent_ok ap :
  Forall va_ok ap -> Forall (fun a : va_triple => 0 <= a.1.1 < 256) ap ->
  Forall tlv_ok (va_sent ap).
Proof.
  induction ap as [|[[ty [x|]] len] ap IH]; intros Hap Hty; [done| |];
    apply list.Forall_cons_1 in Hap as [Ha Hap]; apply list.Forall_cons_1 in Hty as [Ht Hty];
    cbn [va_sent fst] in *; [|by apply IH].
  destruct (Z.eqb_spec ty 0) as [|E]; cbn [orb]; [by apply IH|].
  destruct (Z.eqb_spec len 0); cbn [orb]; [by apply IH|].
  constructor; [|by apply IH]. destruct (Ha E); cbn in *.
  split; cbn; [done|]. rewrite zlen_take; lia.
Qed.

Lemma zlen_va_sent ap : zlen (va_sent ap) <= zlen ap.
Proof.
  induction ap as [|[[ty [x|]] len] ap IH]; cbn [va_sent]; rewrite ?zlen_cons; [done| |lia].
  case_match; rewrite ?zlen_cons; lia.
Qed.

(** A successful [calloc] of the three arrays. *)
Lemma va_calloc n : argc_ok n ->
  exists a b, silc_calloc n 8 = Some a /\ silc_calloc n 4 = Some b.
Proof.
  intros Hn. destruct (calloc_argc n Hn) as [a Ha]. unfold argc_ok in Hn.
  eexists _, _. split; [exact Ha|]. apply silc_calloc_ok. unfold SILC_MAX_ALLOC. lia.
Qed.

(** The bytes of a payload with these records. *)
Definition command_bytes (cmd ident : Z) (l : list tlv) : list Z :=
  enc_header (6 + zlen (enc_tlvs l)) cmd (zlen l) ident ++ enc_tlvs l.

Lemma encode_vap_ok cmd ident ap :
  Forall va_ok ap -> zlen ap < 134217728 ->
  6 + zlen (enc_tlvs (va_sent ap)) < SILC_MAX_ALLOC ->
  silc_command_payload_encode_va cmd ident (zlen ap) ap =
  Some (whole (command_bytes cmd ident (va_sent ap))).
Proof.
  intros Hap Hn Hs. unfold silc_command_payload_encode_va, silc_command_payload_encode_vap.
  destruct (va_collect_ok ap Hap) as (l & El & Hl & Ht). unfold command_bytes.
  rewrite <- Ht in *. rewrite zlen_fmap.
  destruct (Z.eqb_spec (zlen ap) 0) as [E|E]; cbn [negb].
  - apply zlen_zero_nil in E as ->. cbn in El. simplify_eq.
    by rewrite encode_triples_ok.
  - zlen_facts. destruct (va_calloc (zlen ap)) as (a & b & -> & ->);
      [unfold argc_ok; lia|].
    replace (Z.to_nat (zlen ap)) with (length ap) by (unfold zlen; lia).
    by rewrite El, encode_triples_ok.
Qed.

Lemma reply_encode_vap_ok cmd status error ident ap :
  Forall va_ok ap -> zlen ap < 134217727 ->
  11 + zlen (enc_tlvs (va_sent ap)) < SILC_MAX_ALLOC ->
  silc_command_reply_payload_encode_va cmd status error ident (zlen ap) ap =
  Some (whole (command_bytes cmd ident ((1, [u8 status; u8 error]) :: va_sent ap))).
Proof.
  intros Hap Hn Hs. unfold silc_command_reply_payload_encode_va,
    silc_command_reply_payload_encode_vap.
  zlen_facts. rewrite u32_id by lia.
  destruct (va_calloc (zlen ap + 1)) as (a & b & -> & ->); [unfold argc_ok; lia|].
  rewrite silc_memdup_ok by done.
  replace (Z.to_nat (zlen ap + 1 - 1)) with (length ap) by (unfold zlen; lia).
  destruct (va_collect_ok ap Hap) as (l & El & Hl & Ht). rewrite El.
  set (a0 := (Some _, 2, 1)).
  assert (Hl' : Forall triple_ok (a0 :: l)) by (constructor; [done|done]).
  assert (E : tlv_of <$> (a0 :: l) = (1, [u8 status; u8 error]) :: va_sent ap)
    by (rewrite fmap_cons, Ht; done).
  rewrite encode_triples_ok; rewrite ?E; [|done|].
  - unfold command_bytes. rewrite <- E. by rewrite zlen_fmap.
  - rewrite enc_tlvs_cons, zlen_app, zlen_enc_tlv. cbn [fst snd]. zl.
Qed.

(** Parsing the bytes of a payload. *)
Lemma parse_command_bytes cmd ident l :
  0 < cmd < 256 -> 0 <= ident < 65536 -> Forall tlv_ok l -> zlen l < 256 ->
  6 + zlen (enc_tlvs l) < 65536 ->
  silc_command_payload_parse (command_bytes cmd ident l) (zlen (command_bytes cmd ident l)) =
  Some (mkCommand cmd ident (if decide (l = []) then None else Some (payload_of l))).
Proof.
  intros. unfold command_bytes. rewrite command_parse_ok; [by apply dec_command_ok|].
  rewrite zlen_app. unfold enc_header. zl.
Qed.

Lemma zlen_command_bytes cmd ident l :
  zlen (command_bytes cmd ident l) = 6 + zlen (enc_tlvs l).
Proof. unfold command_bytes, enc_header. zl. Qed.

(** The arguments of a payload, re-encoded. *)
Lemma encode_payload_bytes cmd ident l :
  Forall tlv_ok l -> 6 + zlen (enc_tlvs l) < SILC_MAX_ALLOC ->
  silc_command_payload_encode_payload (mkCommand cmd ident (Some (payload_of l))) =
  Some (whole (command_bytes cmd ident l)).
Proof.
  intros Hl Hs. unfold silc_command_payload_encode_payload; cbn [args].
  rewrite encode_payload_ok by (done || unfold SILC_MAX_ALLOC in *; lia).
  cbn. by rewrite encode_command_ok.
Qed.

(** What the decoder accepts is what the encoder writes. *)
Lemma dec_command_canonical d p l :
  bytes_ok d -> dec_command d = Some p -> args p = Some (payload_of l) -> Forall tlv_ok l ->
  enc_tlvs l = zdrop 6 d -> zlen l = znth d 3 ->
  d = command_bytes (cmd p) (ident p) l.
Proof.
  intros Hd E Ha Hl El Hn. unfold dec_command in E.
  destruct d as [|a [|b [|c [|e [|i [|j d]]]]]]; try done.
  unfold bytes_ok in Hd. rewrite !list.Forall_cons in Hd. destruct Hd as (?&?&?&?&?&?&?).
  revert El. zdrop_red. intros El. change (znth _ 3) with e in Hn.
  destruct (Z.eqb_spec (SILC_GET16_MSB [a; b]) (zlen (a :: b :: c :: e :: i :: j :: d))) as [Elen|];
    [|done]. cbn [negb] in E.
  assert (Hp : cmd p = u8 c /\ ident p = SILC_GET16_MSB [i; j]).
  { repeat case_match; try done; [by simplify_eq|].
    destruct (dec_tlvs _ d); by cbn in E; simplify_eq. }
  destruct Hp as [-> ->]. unfold command_bytes, enc_header. rewrite El, Hn.
  rewrite !zlen_cons in Elen.
  replace (6 + zlen d) with (SILC_GET16_MSB [a; b]) by lia.
  rewrite !put16_get16, !u8_u8 by done. rewrite !u8_id by done. reflexivity.
Qed.

(** The status of a payload whose first record is the status record. *)
Lemma get_status_first cmd ident status error l :
  0 <= status < 256 -> 0 <= error < 256 ->
  silc_command_get_status
    (mkCommand cmd ident (Some (payload_of ((1, [u8 status; u8 error]) :: l)))) =
  (if status =? 0 then error <? 10 else (status <? 10) && (error =? 0),
   Some (if status =? 0 then (error, if 10 <=? error then error else 0)
         else (status, if 10 <=? status then status else error))).
Proof.
  intros Hs He. unfold silc_command_get_status; cbn [args].
  rewrite get_arg_type_of, !u8_id by done. cbn [first_of fst snd].
  change (1 =? 1) with true. cbn [fmap option_fmap option_map].
  change (block [status; error]) with (Some [status; error; 0]).
  change (zlen [status; error] =? 2) with true. cbn [negb].
  change (znth [status; error; 0] 0) with status.
  change (znth [status; error; 0] 1) with error.
  unfold SILC_STATUS_OK, SILC_STATUS_ERR_NO_SUCH_NICK.
  destruct (Z.eqb_spec status 0) as [->|]; cbn [andb]; [|done].
  destruct (Z.eqb_spec error 0) as [->|]; cbn [negb]; [done|].
  rewrite get16_spec. change (znth [0; error; 0] 0) with 0.
  change (znth [0; error; 0] 1) with error. by rewrite !u8_id by (rewrite ?u8_id; lia).
Qed.

(** ** Properties *)

(** a command encoded from variadic arguments is parsed back to the same
    command, identifier and arguments, those without type, data or length
    left out. *)
Theorem command_roundtrip (cmd ident : Z) (ap : list va_triple) :
  0 < cmd < 256 -> 0 <= ident < 65536 ->
  Forall va_ok ap -> Forall (fun a : va_triple => 0 <= a.1.1 < 256) ap ->
  zlen ap < 256 -> 6 + zlen (enc_tlvs (va_sent ap)) < 65536 ->
  exists b,
    silc_command_payload_encode_va cmd ident (zlen ap) ap = Some b /\
    silc_command_payload_parse (silc_buffer_data b) (silc_buffer_len b) =
      Some (mkCommand cmd ident
              (if decide (va_sent ap = []) then None else Some (payload_of (va_sent ap)))).
Proof.
  intros Hc Hi Hap Hty Hn Hs. pose proof (zlen_va_sent ap).
  eexists. split; [apply encode_vap_ok; unfold SILC_MAX_ALLOC; done || lia|].
  rewrite whole_data, whole_len by (rewrite zlen_command_bytes; lia).
  apply parse_command_bytes; done || lia || by apply va_sent_ok.
Qed.

Lemma command_roundtrip_witness :
  exists b,
    silc_command_payload_encode_va 4 258 3
      [(1, Some [65; 66; 67], 2); (2, None, 5); (3, Some [], 0)] = Some b /\
    silc_command_payload_parse (silc_buffer_data b) (silc_buffer_len b) =
      Some (mkCommand 4 258 (Some (mkArgs 1 [Some [65; 66; 0]] [2] [1] 0))).
Proof.
  apply (command_roundtrip 4 258 [(1, Some [65; 66; 67], 2); (2, None, 5); (3, Some [], 0)]).
  - lia.
  - lia.
  - repeat constructor; vm_compute; intuition discriminate.
  - repeat constructor; vm_compute; intuition discriminate.
  - vm_compute; done.
  - vm_compute; done.
Defined.

(** a parsed command with arguments is canonical: the length field is the
    payload's length, the command is not 0, and encoding the payload object
    gives back exactly the bytes that were parsed. *)
Theorem command_parse_encode (d : list Z) (p : SilcCommandPayload) :
  bytes_ok d -> zlen d < 2147483648 ->
  silc_command_payload_parse d (zlen d) = Some p ->
  SILC_GET16_MSB d = zlen d /\ 0 < cmd p < 256 /\
  (args p <> None -> silc_command_payload_encode_payload p = Some (whole d)).
Proof.
  intros Hd Hs. rewrite command_parse_ok by done. intros E. pose proof E as E0.
  unfold dec_command in E.
  destruct d as [|a [|b [|c [|e [|i [|j d]]]]]]; try done.
  destruct (Z.eqb_spec (SILC_GET16_MSB [a; b]) (zlen (a :: b :: c :: e :: i :: j :: d))) as [Elen|];
    [|done]. cbn [negb] in E. pose proof (u8_range c).
  destruct (Z.eqb_spec (u8 c) 0); [done|].
  split; [exact Elen|]. destruct (Z.eqb_spec (u8 e) 0) as [|He].
  { simplify_eq. cbn. split; [lia|done]. }
  destruct (dec_tlvs (Z.to_nat (u8 e)) d) as [l|] eqn:El; cbn in E; simplify_eq.
  cbn [cmd args]. split; [lia|]. intros _. pose proof (get16_range [a; b]).
  pose proof Hd as Hd'. unfold bytes_ok in Hd'. rewrite !list.Forall_cons in Hd'.
  destruct Hd' as (?&?&?&?&?&?&?).
  pose proof (enc_dec_tlvs _ _ _ ltac:(eassumption) El) as (E1 & E2 & E3).
  rewrite encode_payload_bytes; [|done|].
  - do 2 f_equal. symmetry. eapply (dec_command_canonical _ _ _ Hd E0); [done|done| |].
    + by zdrop_red.
    + change (znth _ 3) with e. unfold zlen. rewrite E2, u8_id by done. lia.
  - rewrite E1. unfold SILC_MAX_ALLOC. rewrite !zlen_cons in Elen. lia.
Qed.

Lemma command_parse_encode_witness :
  let d := [0; 11; 4; 1; 1; 2; 0; 2; 1; 65; 66] in
  let p := mkCommand 4 258 (Some (mkArgs 1 [Some [65; 66; 0]] [2] [1] 0)) in
  SILC_GET16_MSB d = zlen d /\ 0 < cmd p < 256 /\
  (args p <> None -> silc_command_payload_encode_payload p = Some (whole d)).
Proof.
  apply (command_parse_encode [0; 11; 4; 1; 1; 2; 0; 2; 1; 65; 66]).
  - repeat constructor; vm_compute; done.
  - done.
  - vm_compute; reflexivity.
Defined.

(** the status of a reply as its receiver reads it.  Statuses from 10 on
    are errors and are reported as both status and error; a list status keeps
    the error sent with it; and status OK with an error, which no list status
    allows, is taken for a protocol 1.0 reply whose status is that error. *)
Theorem reply_status (cmd status error ident : Z) (ap : list va_triple) :
  0 < cmd < 256 -> 0 <= ident < 65536 -> 0 <= status < 256 -> 0 <= error < 256 ->
  Forall va_ok ap -> Forall (fun a : va_triple => 0 <= a.1.1 < 256) ap ->
  zlen ap < 255 -> 11 + zlen (enc_tlvs (va_sent ap)) < 65536 ->
  exists b p,
    silc_command_reply_payload_encode_va cmd status error ident (zlen ap) ap = Some b /\
    silc_command_payload_parse (silc_buffer_data b) (silc_buffer_len b) = Some p /\
    silc_command_get_status p =
      (if status =? 0 then error <? 10 else (status <? 10) && (error =? 0),
       Some (if status =? 0 then (error, if 10 <=? error then error else 0)
             else (status, if 10 <=? status then status else error))).
Proof.
  intros Hc Hi Hst Her Hap Hty Hn Hs. pose proof (zlen_va_sent ap). zlen_facts.
  eexists _, _. split; [apply reply_encode_vap_ok; unfold SILC_MAX_ALLOC; done || lia|].
  set (l := (1, [u8 status; u8 error]) :: va_sent ap).
  assert (El : zlen (enc_tlvs l) = 5 + zlen (enc_tlvs (va_sent ap)))
    by (unfold l; rewrite enc_tlvs_cons, zlen_app, zlen_enc_tlv; cbn [snd]; zl).
  assert (Hl : Forall tlv_ok l) by (constructor; [done|by apply va_sent_ok]).
  rewrite whole_data, whole_len by (rewrite zlen_command_bytes; lia). split.
  - apply parse_command_bytes; try done; unfold l in *; rewrite ?zlen_cons; lia.
  - rewrite decide_False by done. unfold l. by rewrite get_status_first.
Qed.

Lemma reply_status_witness :
  exists b p,
    silc_command_reply_payload_encode_va 4 10 0 7 1 [(2, Some [65], 1)] = Some b /\
    silc_command_payload_parse (silc_buffer_data b) (silc_buffer_len b) = Some p /\
    silc_command_get_status p = (false, Some (10, 10)).
Proof.
  apply (reply_status 4 10 0 7 [(2, Some [65], 1)]); try lia.
  - repeat constructor; vm_compute; intuition discriminate.
  - repeat constructor; vm_compute; intuition discriminate.
  - vm_compute; done.
  - vm_compute; done.
Defined.
