(* ===== verification/SilcID.v ===== *)
(** * Identifiers and ID payloads ([lib/silccore/silcid.c], [silcid.h])

    A server, client or channel ID and its wire form.  The code passes an ID as
    [void *] with its type beside it; here the two travel together as a tagged
    value, so an ID is never read through another type's structure. *)

From S2P Require Import Prelude CTypes Memory Buffer BuffFmt.
Import Format Unformat RoundTrip Encoding.

(** ** Data ([silcid.h]) *)

(** [data] is the 16 byte array, of which [data_len] are the address. *)
Record SilcIDIP := mkIP { ip_data : list Z; data_len : Z }.

Record SilcServerID := mkServerID { s_ip : SilcIDIP; s_port : Z; s_rnd : Z }.
Record SilcClientID := mkClientID { c_ip : SilcIDIP; c_rnd : Z; c_hash : list Z }.
Record SilcChannelID := mkChannelID { ch_ip : SilcIDIP; ch_port : Z; ch_rnd : Z }.

Definition SILC_ID_NONE : Z := 0.
Definition SILC_ID_SERVER : Z := 1.
Definition SILC_ID_CLIENT : Z := 2.
Definition SILC_ID_CHANNEL : Z := 3.
Definition CLIENTID_HASH_LEN : Z := 11.
Definition SILC_PACKET_MAX_ID_LEN : Z := 28.

(** An ID pointer and the type passed with it. *)
Inductive id_ptr :=
  | ServerID (id : SilcServerID)
  | ClientID (id : SilcClientID)
  | ChannelID (id : SilcChannelID)
  | OtherID (type : Z).

Definition id_type (id : id_ptr) : Z :=
  match id with
  | ServerID _ => SILC_ID_SERVER
  | ClientID _ => SILC_ID_CLIENT
  | ChannelID _ => SILC_ID_CHANNEL
  | OtherID type => type
  end.

(** [SilcID]: the union and its type. *)
Record SilcID := mkSilcID { sid_type : Z; sid_u : id_ptr }.

(** [sizeof] of the structures. *)
Definition sizeof_id (type : Z) : Z := if type =? SILC_ID_CLIENT then 29 else 22.

Definition ID_SERVER_LEN_PART : Z := 4.
Definition ID_CLIENT_LEN_PART : Z := CLIENTID_HASH_LEN + 1.
Definition ID_CHANNEL_LEN_PART : Z := 4.

(** ** Conversions *)

Definition silc_id_get_len (id : id_ptr) : Z :=
  match id with
  | ServerID id => ID_SERVER_LEN_PART + data_len (s_ip id)
  | ClientID id => ID_CLIENT_LEN_PART + data_len (c_ip id)
  | ChannelID id => ID_CHANNEL_LEN_PART + data_len (ch_ip id)
  | OtherID _ => 0
  end.

(** The result, what is stored through [ret_id_len], and the bytes written at
    [ret_id]. *)
Definition silc_id_id2str (id : id_ptr) (ret_id_size : Z)
    : bool * option Z * option (list Z) :=
  let id_len := silc_id_get_len id in
  if ret_id_size <? id_len then (false, None, None)
  else if SILC_PACKET_MAX_ID_LEN <? id_len then (false, Some id_len, None)
  else
    match id with
    | ServerID s =>
        (true, Some id_len,
         Some (ztake (data_len (s_ip s)) (ip_data (s_ip s)) ++
               SILC_PUT16_MSB (s_port s) ++ SILC_PUT16_MSB (s_rnd s)))
    | ClientID c =>
        (true, Some id_len,
         Some (ztake (data_len (c_ip c)) (ip_data (c_ip c)) ++
               [u8 (c_rnd c)] ++ ztake CLIENTID_HASH_LEN (c_hash c)))
    | ChannelID c =>
        (true, Some id_len,
         Some (ztake (data_len (ch_ip c)) (ip_data (ch_ip c)) ++
               SILC_PUT16_MSB (ch_port c) ++ SILC_PUT16_MSB (ch_rnd c)))
    | OtherID _ => (false, Some id_len, None)
    end.

(** The address part: [memset] of the structure, then [memcpy] of 4 or 16
    bytes. *)
Definition read_ip (id : list Z) (n : Z) : SilcIDIP :=
  mkIP (splice 0 (ztake n id) (zeros 16)) n.

(** The ID stored through [ret_id], or [None] for FALSE, with nothing
    stored. *)
Definition silc_id_str2id (id : list Z) (id_len type ret_id_size : Z) : option id_ptr :=
  if SILC_PACKET_MAX_ID_LEN <? id_len then None
  else if type =? SILC_ID_SERVER then
    if negb (id_len =? ID_SERVER_LEN_PART + 4) && negb (id_len =? ID_SERVER_LEN_PART + 16)
    then None
    else if ret_id_size <? sizeof_id SILC_ID_SERVER then None
    else
      let n := if ID_SERVER_LEN_PART + 4 <? id_len then 16 else 4 in
      Some (ServerID (mkServerID (read_ip id n) (SILC_GET16_MSB (zdrop n id))
                        (SILC_GET16_MSB (zdrop (n + 2) id))))
  else if type =? SILC_ID_CLIENT then
    if negb (id_len =? ID_CLIENT_LEN_PART + 4) && negb (id_len =? ID_CLIENT_LEN_PART + 16)
    then None
    else if ret_id_size <? sizeof_id SILC_ID_CLIENT then None
    else
      let n := if ID_CLIENT_LEN_PART + 4 <? id_len then 16 else 4 in
      Some (ClientID (mkClientID (read_ip id n) (znth id n)
                        (ztake CLIENTID_HASH_LEN (zdrop (n + 1) id))))
  else if type =? SILC_ID_CHANNEL then
    if negb (id_len =? ID_CHANNEL_LEN_PART + 4) && negb (id_len =? ID_CHANNEL_LEN_PART + 16)
    then None
    else if ret_id_size <? sizeof_id SILC_ID_CHANNEL then None
    else
      let n := if ID_CHANNEL_LEN_PART + 4 <? id_len then 16 else 4 in
      Some (ChannelID (mkChannelID (read_ip id n) (SILC_GET16_MSB (zdrop n id))
                         (SILC_GET16_MSB (zdrop (n + 2) id))))
  else None.

(** The type is stored before anything is checked; the union only on success. *)
Definition silc_id_str2id2 (id : list Z) (id_len type : Z) (ret_id : option SilcID)
    : bool * option SilcID :=
  match ret_id with
  | None => (false, None)
  | Some r =>
      if (type =? SILC_ID_CLIENT) || (type =? SILC_ID_SERVER) || (type =? SILC_ID_CHANNEL) then
        match silc_id_str2id id id_len type (sizeof_id type) with
        | Some u => (true, Some (mkSilcID type u))
        | None => (false, Some (mkSilcID type (sid_u r)))
        end
      else (false, Some (mkSilcID type (sid_u r)))
  end.

(** A copy of the structure; NULL for other types. *)
Definition silc_id_dup (id : id_ptr) : option id_ptr :=
  match id with
  | OtherID _ => None
  | _ => if alloc_ok (sizeof_id (id_type id) + 1) then Some id else None
  end.

(** ** ID payload *)

(** [struct SilcIDPayloadStruct]. *)
Record SilcIDPayload := mkIDPayload { pl_type : Z; pl_len : Z; pl_id : option (list Z) }.

Definition silc_id_payload_parse (payload : list Z) (payload_len : Z)
    : option SilcIDPayload :=
  let buffer := silc_buffer_set payload payload_len in
  let '(buffer, ret, o) := silc_buffer_unformat buffer [U_UI16_SHORT; U_UI16_SHORT] in
  if ret =? -1 then None
  else match o with
  | [VInt type; VInt len] =>
      if SILC_ID_CHANNEL <? type then None
      else
        let buffer := (silc_buffer_pull buffer 4).1 in
        if (silc_buffer_len buffer <? len) || (SILC_PACKET_MAX_ID_LEN <? len) then None
        else
          let '(buffer, ret, o) := silc_buffer_unformat buffer [U_DATA_ALLOC len] in
          if ret =? -1 then None
          else match o with
          | [VPtr id] => Some (mkIDPayload type len id)
          | _ => None
          end
  | _ => None
  end.

(** The result and [ret_id]; the type is stored before the ID is converted. *)
Definition silc_id_payload_parse_id (data : list Z) (len : Z) (ret_id : option SilcID)
    : bool * option SilcID :=
  match ret_id with
  | None => (false, None)
  | Some r =>
      let buffer := silc_buffer_set data len in
      let '(buffer, ret, o) := silc_buffer_unformat buffer [U_UI16_SHORT; U_UI16_SHORT] in
      if ret =? -1 then (false, ret_id)
      else match o with
      | [VInt type; VInt idlen] =>
          if SILC_ID_CHANNEL <? type then (false, ret_id)
          else
            let buffer := (silc_buffer_pull buffer 4).1 in
            if (silc_buffer_len buffer <? idlen) || (SILC_PACKET_MAX_ID_LEN <? idlen)
            then (false, ret_id)
            else
              let '(buffer, ret, o) := silc_buffer_unformat buffer [U_DATA idlen] in
              if ret =? -1 then (false, ret_id)
              else match o with
              | [VPtr id_data] =>
                  match silc_id_str2id (default [] id_data) idlen type (sizeof_id type) with
                  | None => (false, Some (mkSilcID type (sid_u r)))
                  | Some u => (true, Some (mkSilcID type u))
                  end
              | _ => (false, ret_id)
              end
      | _ => (false, ret_id)
      end
  end.

Definition silc_id_payload_encode_data (id : list Z) (id_len type : Z) : option SilcBuffer :=
  match silc_buffer_alloc_size (u32 (4 + id_len)) with
  | None => None
  | Some buffer =>
      Some (silc_buffer_format buffer
              [PARAM_UI16_SHORT type; PARAM_UI16_SHORT id_len;
               PARAM_NSTRING (Some id) id_len]).1
  end.

(** [id_data] is 32 bytes on the stack. *)
Definition silc_id_payload_encode (id : id_ptr) : option SilcBuffer :=
  match silc_id_id2str id 32 with
  | (true, Some len, Some id_data) => silc_id_payload_encode_data id_data len (id_type id)
  | _ => None
  end.

Definition silc_id_payload_get_type (payload : option SilcIDPayload) : Z :=
  match payload with Some p => pl_type p | None => 0 end.

Definition silc_id_payload_get_id (payload : option SilcIDPayload) (ret_id_len : Z)
    : option id_ptr :=
  match payload with
  | None => None
  | Some p => silc_id_str2id (default [] (pl_id p)) (pl_len p) (pl_type p) ret_id_len
  end.

Definition silc_id_payload_get_data (payload : option SilcIDPayload) : option (list Z) :=
  match payload with
  | None => None
  | Some p => silc_memdup (default [] (pl_id p)) (pl_len p)
  end.

Definition silc_id_payload_get_len (payload : option SilcIDPayload) : Z :=
  match payload with Some p => pl_len p | None => 0 end.

(** ** Well-formed identifiers *)

(** An IPv4 or IPv6 address, the rest of the array zero. *)
Definition wf_ip (ip : SilcIDIP) : Prop :=
  (data_len ip = 4 \/ data_len ip = 16) /\ zlen (ip_data ip) = 16 /\
  zdrop (data_len ip) (ip_data ip) = zeros (16 - data_len ip).

Definition wf_id (id : id_ptr) : Prop :=
  match id with
  | ServerID s => wf_ip (s_ip s) /\ 0 <= s_port s < 65536 /\ 0 <= s_rnd s < 65536
  | ClientID c => wf_ip (c_ip c) /\ 0 <= c_rnd c < 256 /\ zlen (c_hash c) = CLIENTID_HASH_LEN
  | ChannelID c => wf_ip (ch_ip c) /\ 0 <= ch_port c < 65536 /\ 0 <= ch_rnd c < 65536
  | OtherID _ => False
  end.

(** The wire form. *)
Definition ip_bytes (ip : SilcIDIP) : list Z := ztake (data_len ip) (ip_data ip).

Definition enc_id (id : id_ptr) : list Z :=
  match id with
  | ServerID s => ip_bytes (s_ip s) ++ SILC_PUT16_MSB (s_port s) ++ SILC_PUT16_MSB (s_rnd s)
  | ClientID c => ip_bytes (c_ip c) ++ u8 (c_rnd c) :: ztake CLIENTID_HASH_LEN (c_hash c)
  | ChannelID c => ip_bytes (ch_ip c) ++ SILC_PUT16_MSB (ch_port c) ++ SILC_PUT16_MSB (ch_rnd c)
  | OtherID _ => []
  end.

Lemma ip_bytes_len ip : wf_ip ip -> zlen (ip_bytes ip) = data_len ip.
Proof. intros ([E|E] & Hl & _); apply zlen_take; lia. Qed.

Lemma zlen_enc_id id : wf_id id -> zlen (enc_id id) = silc_id_get_len id.
Proof.
  destruct id as [s|c|c|]; cbn; [| | |done]; intros (Hip & H1 & H2);
    rewrite zlen_app, ip_bytes_len by done; unfold ID_SERVER_LEN_PART, ID_CLIENT_LEN_PART,
      ID_CHANNEL_LEN_PART, CLIENTID_HASH_LEN in *; rewrite ?zlen_cons, ?zlen_take by lia; zl.
Qed.

Lemma wf_ip_len ip : wf_ip ip -> data_len ip = 4 \/ data_len ip = 16.
Proof. by intros [? _]. Qed.

Lemma wf_id_len id : wf_id id -> 8 <= silc_id_get_len id <= 28.
Proof.
  destruct id as [s|c|c|]; cbn; [| | |done]; intros (Hip & _ & _);
    apply wf_ip_len in Hip; unfold ID_SERVER_LEN_PART, ID_CLIENT_LEN_PART,
      ID_CHANNEL_LEN_PART, CLIENTID_HASH_LEN; lia.
Qed.

Lemma id2str_ok id size :
  wf_id id -> silc_id_get_len id <= size ->
  silc_id_id2str id size = (true, Some (silc_id_get_len id), Some (enc_id id)).
Proof.
  intros Hwf Hs. unfold silc_id_id2str. pose proof (wf_id_len id Hwf).
  rewrite (proj2 (Z.ltb_ge _ _)) by lia.
  rewrite (proj2 (Z.ltb_ge _ _)) by (unfold SILC_PACKET_MAX_ID_LEN; lia).
  by destruct id.
Qed.

Lemma read_ip_ok ip rest : wf_ip ip -> read_ip (ip_bytes ip ++ rest) (data_len ip) = ip.
Proof.
  intros Hip. pose proof (ip_bytes_len ip Hip) as E.
  destruct Hip as (Hl & H16 & Hz). unfold read_ip.
  rewrite ztake_app_exact by done. destruct ip as [data n]; cbn in *. f_equal.
  unfold splice, ip_bytes in *; cbn in *. rewrite ztake_0, E by lia. cbn [app].
  rewrite <- (ztake_drop n data) at 2. f_equal. rewrite Hz.
  destruct Hl as [-> | ->]; reflexivity.
Qed.

(** Reading the two 16-bit fields after an address. *)
Lemma read_ports ip p r :
  wf_ip ip -> 0 <= p < 65536 -> 0 <= r < 65536 ->
  let s := ip_bytes ip ++ SILC_PUT16_MSB p ++ SILC_PUT16_MSB r in
  SILC_GET16_MSB (zdrop (data_len ip) s) = p /\
  SILC_GET16_MSB (zdrop (data_len ip + 2) s) = r.
Proof.
  intros Hip Hp Hr. pose proof (ip_bytes_len ip Hip) as E. pose proof (wf_ip_len ip Hip).
  cbn zeta. rewrite zdrop_app_exact by done. rewrite get16_put16, u16_id by done.
  split; [done|]. rewrite <- zdrop_zdrop, zdrop_app_exact by lia.
  rewrite zdrop_app_exact by done.
  rewrite <- (app_nil_r (SILC_PUT16_MSB r)), get16_put16. by apply u16_id.
Qed.

Lemma str2id_enc id size :
  wf_id id -> sizeof_id (id_type id) <= size ->
  silc_id_str2id (enc_id id) (silc_id_get_len id) (id_type id) size = Some id.
Proof.
  intros Hwf Hs. pose proof (wf_id_len id Hwf) as Hl. unfold silc_id_str2id.
  rewrite (proj2 (Z.ltb_ge _ _)) by (unfold SILC_PACKET_MAX_ID_LEN; lia).
  destruct id as [s|c|c|]; cbn [wf_id id_type enc_id silc_id_get_len] in *; [| | |done];
    destruct Hwf as (Hip & H1 & H2); pose proof (wf_ip_len _ Hip) as Hn.
  - change (SILC_ID_SERVER =? SILC_ID_SERVER) with true. cbn iota.
    destruct (read_ports _ _ _ Hip H1 H2) as [E1 E2].
    unfold ID_SERVER_LEN_PART.
    rewrite (proj2 (Z.ltb_ge size _)) by done.
    replace (if 4 + 4 <? 4 + data_len (s_ip s) then 16 else 4) with (data_len (s_ip s))
      by (destruct Hn as [-> | ->]; reflexivity).
    rewrite E1, E2, read_ip_ok by done. destruct Hn as [-> | ->]; by destruct s.
  - change (SILC_ID_CLIENT =? SILC_ID_SERVER) with false.
    change (SILC_ID_CLIENT =? SILC_ID_CLIENT) with true. cbn iota.
    unfold ID_CLIENT_LEN_PART, CLIENTID_HASH_LEN in *.
    rewrite (proj2 (Z.ltb_ge size _)) by done.
    replace (if 11 + 1 + 4 <? 11 + 1 + data_len (c_ip c) then 16 else 4)
      with (data_len (c_ip c)) by (destruct Hn as [-> | ->]; reflexivity).
    pose proof (ip_bytes_len _ Hip) as E.
    rewrite read_ip_ok, znth_app_r, E, Z.sub_diag, znth_0, u8_id by (done || lia).
    rewrite <- zdrop_zdrop, zdrop_app_exact by lia.
    rewrite (ztake_ge _ (c_hash c)) by lia.
    change (zdrop 1 (c_rnd c :: c_hash c)) with (c_hash c). rewrite ztake_ge by lia.
    destruct Hn as [-> | ->]; by destruct c.
  - change (SILC_ID_CHANNEL =? SILC_ID_SERVER) with false.
    change (SILC_ID_CHANNEL =? SILC_ID_CLIENT) with false.
    change (SILC_ID_CHANNEL =? SILC_ID_CHANNEL) with true. cbn iota.
    destruct (read_ports _ _ _ Hip H1 H2) as [E1 E2].
    unfold ID_CHANNEL_LEN_PART.
    rewrite (proj2 (Z.ltb_ge size _)) by done.
    replace (if 4 + 4 <? 4 + data_len (ch_ip c) then 16 else 4) with (data_len (ch_ip c))
      by (destruct Hn as [-> | ->]; reflexivity).
    rewrite E1, E2, read_ip_ok by done. destruct Hn as [-> | ->]; by destruct c.
Qed.

(** A string that converts is the wire form of a well-formed ID. *)
Lemma read_ip_wf id n :
  n = 4 \/ n = 16 -> n <= zlen id -> wf_ip (read_ip id n) /\ ip_bytes (read_ip id n) = ztake n id.
Proof.
  intros Hn Hl. unfold wf_ip, ip_bytes, read_ip, splice; cbn [ip_data data_len].
  assert (E : zlen (ztake n id) = n) by (apply zlen_take; lia).
  rewrite (ztake_0 0), E by lia. cbn [app].
  rewrite ztake_app_exact, zdrop_app_exact, zlen_app, E by done.
  split; [|done]. split; [done|]. split; destruct Hn as [-> | ->]; reflexivity.
Qed.

Lemma split4 (l : list Z) : zlen l = 4 -> exists a b c d, l = [a; b; c; d].
Proof.
  destruct l as [|a [|b [|c [|d [|e l]]]]]; rewrite ?zlen_cons, ?zlen_nil; zlen_facts;
    try lia. eauto.
Qed.

(** The two fields after the address, written back. *)
Lemma write_ports s n :
  bytes_ok s -> 0 <= n -> zlen s = n + 4 ->
  SILC_PUT16_MSB (SILC_GET16_MSB (zdrop n s)) ++
  SILC_PUT16_MSB (SILC_GET16_MSB (zdrop (n + 2) s)) = zdrop n s.
Proof.
  intros Hs Hn Hl. rewrite <- zdrop_zdrop by lia.
  assert (Hd : bytes_ok (zdrop n s)) by by apply Forall_drop.
  destruct (split4 (zdrop n s)) as (a & b & c & d & E); [rewrite zlen_drop; lia|].
  rewrite E in *. zdrop_red. get_red. unfold bytes_ok in Hd.
  rewrite !list.Forall_cons in Hd. destruct Hd as (?&?&?&?&_).
  by rewrite !put16_get16 by done.
Qed.

Lemma read_port_fields s n :
  bytes_ok s -> n = 4 \/ n = 16 -> zlen s = n + 4 ->
  wf_ip (read_ip s n) /\ 0 <= SILC_GET16_MSB (zdrop n s) < 65536 /\
  0 <= SILC_GET16_MSB (zdrop (n + 2) s) < 65536 /\
  ip_bytes (read_ip s n) ++ SILC_PUT16_MSB (SILC_GET16_MSB (zdrop n s)) ++
    SILC_PUT16_MSB (SILC_GET16_MSB (zdrop (n + 2) s)) = s.
Proof.
  intros Hs Hn Hl. destruct (read_ip_wf s n Hn) as [W ->]; [lia|].
  split; [done|]. split; [apply get16_range|]. split; [apply get16_range|].
  rewrite write_ports by (done || lia). apply ztake_drop.
Qed.

Lemma znth_byte s n : bytes_ok s -> 0 <= n < zlen s -> 0 <= znth s n < 256.
Proof.
  intros Hs Hn. apply (proj1 (List.Forall_nth _ s) Hs). unfold zlen in *. lia.
Qed.

Lemma znth_split s n : 0 <= n < zlen s -> s = ztake n s ++ znth s n :: zdrop (n + 1) s.
Proof.
  intros Hn. rewrite <- (ztake_drop n s) at 1. f_equal.
  rewrite <- zdrop_zdrop by lia. rewrite <- (Z.add_0_r n) at 2.
  rewrite <- znth_zdrop by lia.
  destruct (zdrop n s) as [|x k] eqn:Ek; [|by zdrop_red].
  apply (f_equal zlen) in Ek. rewrite zlen_drop, zlen_nil in Ek; lia.
Qed.

Lemma read_client_fields s n :
  bytes_ok s -> n = 4 \/ n = 16 -> zlen s = n + 12 ->
  wf_ip (read_ip s n) /\ 0 <= znth s n < 256 /\
  zlen (ztake 11 (zdrop (n + 1) s)) = 11 /\
  ip_bytes (read_ip s n) ++ u8 (znth s n) :: ztake 11 (ztake 11 (zdrop (n + 1) s)) = s.
Proof.
  intros Hs Hn Hl. destruct (read_ip_wf s n Hn) as [W ->]; [lia|].
  pose proof (znth_byte s n Hs ltac:(lia)).
  split; [done|]. split; [done|]. split; [apply zlen_take; rewrite zlen_drop; lia|].
  rewrite ztake_ztake, u8_id, (ztake_ge 11) by (rewrite ?zlen_drop; lia || done).
  symmetry. apply znth_split. lia.
Qed.

(** Both address lengths of a type whose other fields take [k] bytes. *)
Ltac id_lengths k L E s :=
  destruct (Z.eqb_spec (zlen s) (k + 4)) as [L|];
    [|destruct (Z.eqb_spec (zlen s) (k + 16)) as [L|]; [|done]];
  rewrite L in E; cbn in E; simplify_eq.

Lemma enc_str2id s type size id :
  bytes_ok s -> silc_id_str2id s (zlen s) type size = Some id ->
  wf_id id /\ enc_id id = s /\ id_type id = type /\ sizeof_id type <= size.
Proof.
  intros Hs E. unfold silc_id_str2id, ID_SERVER_LEN_PART, ID_CLIENT_LEN_PART,
    ID_CHANNEL_LEN_PART, CLIENTID_HASH_LEN in E.
  destruct (Z.ltb_spec SILC_PACKET_MAX_ID_LEN (zlen s)); [done|].
  destruct (Z.eqb_spec type SILC_ID_SERVER) as [->|]; [|
    destruct (Z.eqb_spec type SILC_ID_CLIENT) as [->|]; [|
      destruct (Z.eqb_spec type SILC_ID_CHANNEL) as [->|]; [|done]]].
  - destruct (Z.ltb_spec size (sizeof_id SILC_ID_SERVER)); [by case_match|].
    id_lengths 4 L E s; [destruct (read_port_fields s 4 Hs) as (?&?&?&?)
      |destruct (read_port_fields s 16 Hs) as (?&?&?&?)]; auto; by cbn.
  - destruct (Z.ltb_spec size (sizeof_id SILC_ID_CLIENT)); [by case_match|].
    id_lengths (11 + 1) L E s; [destruct (read_client_fields s 4 Hs) as (?&?&?&?)
      |destruct (read_client_fields s 16 Hs) as (?&?&?&?)]; auto; by cbn.
  - destruct (Z.ltb_spec size (sizeof_id SILC_ID_CHANNEL)); [by case_match|].
    id_lengths 4 L E s; [destruct (read_port_fields s 4 Hs) as (?&?&?&?)
      |destruct (read_port_fields s 16 Hs) as (?&?&?&?)]; auto; by cbn.
Qed.


Lemma port_fields_prefix x r n :
  0 <= n -> n + 4 <= zlen x ->
  read_ip (x ++ r) n = read_ip x n /\
  SILC_GET16_MSB (zdrop n (x ++ r)) = SILC_GET16_MSB (zdrop n x) /\
  SILC_GET16_MSB (zdrop (n + 2) (x ++ r)) = SILC_GET16_MSB (zdrop (n + 2) x).
Proof.
  intros Hn Hl. unfold read_ip. rewrite ztake_app_l, !zdrop_app_l by lia.
  by rewrite !get16_app by (rewrite zlen_drop; lia).
Qed.

Lemma client_fields_prefix x r n :
  0 <= n -> n + 12 <= zlen x ->
  read_ip (x ++ r) n = read_ip x n /\ znth (x ++ r) n = znth x n /\
  ztake 11 (zdrop (n + 1) (x ++ r)) = ztake 11 (zdrop (n + 1) x).
Proof.
  intros Hn Hl. unfold read_ip. rewrite ztake_app_l, zdrop_app_l, znth_app_l by lia.
  by rewrite ztake_app_l by (rewrite zlen_drop; lia).
Qed.

(** The address length chosen from the length of the string. *)
Lemma addr_len_ok k len :
  negb (len =? k + 4) && negb (len =? k + 16) = false ->
  0 <= (if k + 4 <? len then 16 else 4) /\ (if k + 4 <? len then 16 else 4) + k <= len.
Proof.
  rewrite andb_false_iff, !negb_false_iff, !Z.eqb_eq. case_match; lia.
Qed.

(** Only the announced bytes are read. *)
Lemma str2id_prefix x r type size :
  silc_id_str2id (x ++ r) (zlen x) type size = silc_id_str2id x (zlen x) type size.
Proof.
  unfold silc_id_str2id, ID_SERVER_LEN_PART, ID_CLIENT_LEN_PART, ID_CHANNEL_LEN_PART,
    CLIENTID_HASH_LEN.
  destruct (SILC_PACKET_MAX_ID_LEN <? zlen x); [done|].
  destruct (type =? SILC_ID_SERVER); [|
    destruct (type =? SILC_ID_CLIENT); [|destruct (type =? SILC_ID_CHANNEL); [|done]]];
    destruct (negb _ && negb _) eqn:C; try done; apply addr_len_ok in C;
    destruct (size <? _); try done; cbn zeta;
    match type of C with 0 <= ?e /\ _ => set (n := e) in * end.
  - destruct (port_fields_prefix x r n) as (-> & -> & ->); done || lia.
  - destruct (client_fields_prefix x r n) as (-> & -> & ->); done || lia.
  - destruct (port_fields_prefix x r n) as (-> & -> & ->); done || lia.
Qed.

Lemma str2id_take d len type size :
  0 <= len <= zlen d -> silc_id_str2id (ztake len d) len type size = silc_id_str2id d len type size.
Proof.
  intros Hl. pose proof (zlen_take len d Hl) as E.
  pose proof (str2id_prefix (ztake len d) (zdrop len d) type size) as P.
  by rewrite ztake_drop, E in P.
Qed.

(** ** The payload *)

(** Type and bytes of an ID payload; what follows them is ignored. *)
Definition dec_id_payload (d : list Z) : option (Z * list Z) :=
  match d with
  | a :: b :: c :: e :: d =>
      let type := SILC_GET16_MSB [a; b] in
      let len := SILC_GET16_MSB [c; e] in
      if (3 <? type) || (zlen d <? len) || (28 <? len) then None
      else Some (type, ztake len d)
  | _ => None
  end.

Definition enc_id_payload (type : Z) (x : list Z) : list Z :=
  SILC_PUT16_MSB type ++ SILC_PUT16_MSB (zlen x) ++ x.

Lemma dec_enc_id_payload type x rest :
  0 <= type <= 3 -> zlen x <= 28 -> dec_id_payload (enc_id_payload type x ++ rest) = Some (type, x).
Proof.
  intros Ht Hx. zlen_facts. unfold enc_id_payload, SILC_PUT16_MSB.
  cbn [app dec_id_payload].
  assert (G : forall y, 0 <= y < 65536 -> SILC_GET16_MSB [u8 (Z.shiftr y 8); u8 y] = y).
  { intros y Hy. change [u8 (Z.shiftr y 8); u8 y] with (SILC_PUT16_MSB y).
    rewrite <- (app_nil_r (SILC_PUT16_MSB y)), get16_put16. by apply u16_id. }
  rewrite !G by lia. rewrite zlen_app, ztake_app_exact by done.
  rewrite (proj2 (Z.ltb_ge 3 _)), (proj2 (Z.ltb_ge (zlen x + _) _)),
    (proj2 (Z.ltb_ge 28 _)) by (zlen_facts; lia). done.
Qed.

(** The common part of the two parsers, up to the second unformat. *)
Ltac run_id_header a b c e d :=
  run_unformat; rewrite ?u16_get16;
  change (of_areas [] (a :: b :: c :: e :: d) []) with (of_areas [] ([a; b; c; e] ++ d) []);
  change 4 with (zlen [a; b; c; e]); rewrite pull_areas by zl; cbn [fst app];
  rewrite of_areas_len by zl; change (zlen [a; b; c; e]) with 4;
  unfold SILC_ID_CHANNEL, SILC_PACKET_MAX_ID_LEN, dec_id_payload; cbn zeta.

Lemma id_payload_parse_ok d :
  zlen d < 2147483648 ->
  silc_id_payload_parse d (zlen d) =
  (fun x => mkIDPayload x.1 (zlen x.2) (block x.2)) <$> dec_id_payload d.
Proof.
  intros Hd. unfold silc_id_payload_parse. rewrite set_areas by done.
  destruct d as [|a [|b [|c [|e d]]]]; try short_unformat.
  run_id_header a b c e d. pose proof (get16_range [c; e]).
  set (type := SILC_GET16_MSB [a; b]). set (len := SILC_GET16_MSB [c; e]) in *.
  destruct (3 <? type); cbn [orb]; [done|].
  destruct (Z.ltb_spec (zlen d) len); cbn [orb]; [done|].
  destruct (Z.ltb_spec 28 len); [done|].
  run_unformat_with ltac:(
    cbn [uparse uparse1]; rewrite u32_id, p_int_ok by lia;
    rewrite alloc_val_block, ztake_app_l by (unfold SILC_MAX_ALLOC; zl); reflexivity).
  cbn [fmap option_fmap option_map fst snd].
  by rewrite zlen_take by lia.
Qed.

Lemma id_payload_parse_id_ok d r :
  zlen d < 2147483648 ->
  silc_id_payload_parse_id d (zlen d) (Some r) =
  match dec_id_payload d with
  | None => (false, Some r)
  | Some (type, x) =>
      match silc_id_str2id x (zlen x) type (sizeof_id type) with
      | None => (false, Some (mkSilcID type (sid_u r)))
      | Some u => (true, Some (mkSilcID type u))
      end
  end.
Proof.
  intros Hd. unfold silc_id_payload_parse_id. rewrite set_areas by done.
  destruct d as [|a [|b [|c [|e d]]]]; try short_unformat.
  run_id_header a b c e d. pose proof (get16_range [c; e]).
  set (type := SILC_GET16_MSB [a; b]). set (len := SILC_GET16_MSB [c; e]) in *.
  destruct (3 <? type); cbn [orb]; [done|].
  destruct (Z.ltb_spec (zlen d) len); cbn [orb]; [done|].
  destruct (Z.ltb_spec 28 len); [done|].
  run_unformat_with ltac:(
    cbn [uparse uparse1]; rewrite u32_id, p_int_ok by lia; rewrite app_nil_r; reflexivity).
  rewrite zlen_take by lia. destruct (Z.eqb_spec len 0) as [->|].
  - by rewrite ztake_0.
  - cbn [default]. by rewrite app_nil_r, str2id_take by lia.
Qed.

Lemma id_payload_encode_data_ok x type :
  zlen x + 4 < SILC_MAX_ALLOC ->
  silc_id_payload_encode_data x (zlen x) type = Some (whole (enc_id_payload type x)).
Proof.
  unfold SILC_MAX_ALLOC. intros Hs. zlen_facts. unfold silc_id_payload_encode_data.
  rewrite u32_id, alloc_size_areas by (unfold SILC_MAX_ALLOC; lia).
  fold (whole (zeros (4 + zlen x))).
  assert (E : enc_args [PARAM_UI16_SHORT type; PARAM_UI16_SHORT (zlen x);
                        PARAM_NSTRING (Some x) (zlen x)] = enc_id_payload type x).
  { rewrite !enc_args_cons. cbn [enc_arg]. by rewrite ztake_ge, app_nil_r. }
  rewrite format_whole; rewrite ?E; try (unfold SILC_MAX_ALLOC; lia).
  - done.
  - repeat constructor; cbn; lia.
  - unfold enc_id_payload. zl.
Qed.

Lemma get_id_block type x size :
  silc_id_payload_get_id (Some (mkIDPayload type (zlen x) (block x))) size =
  silc_id_str2id x (zlen x) type size.
Proof.
  unfold silc_id_payload_get_id, block; cbn [pl_id pl_len pl_type].
  case_decide; [by subst|]. apply str2id_prefix.
Qed.

(** ** Properties *)

(** the string form of an ID and the ID determine each other: a well-formed
    ID is converted to the bytes of its wire form, from which it is read back,
    and a string that is accepted as an ID is the wire form of a well-formed
    one. *)
Theorem id_str_roundtrip (id : id_ptr) (s : list Z) (type : Z) :
  wf_id id -> bytes_ok s ->
  silc_id_id2str id 32 = (true, Some (zlen (enc_id id)), Some (enc_id id)) /\
  silc_id_str2id (enc_id id) (zlen (enc_id id)) (id_type id) (sizeof_id (id_type id)) =
    Some id /\
  (forall id', silc_id_str2id s (zlen s) type (sizeof_id type) = Some id' ->
     wf_id id' /\ silc_id_id2str id' 32 = (true, Some (zlen s), Some s)).
Proof.
  intros Hwf Hs. pose proof (wf_id_len id Hwf). rewrite zlen_enc_id by done.
  split; [apply id2str_ok; lia || done|]. split; [apply str2id_enc; lia || done|].
  intros id' E. apply enc_str2id in E as (Hwf' & E & _); [|done]. split; [done|].
  rewrite <- E, zlen_enc_id by done. pose proof (wf_id_len id' Hwf'). apply id2str_ok; done || lia.
Qed.

Lemma id_str_roundtrip_witness :
  let id := ClientID (mkClientID (mkIP [10;0;0;1;0;0;0;0;0;0;0;0;0;0;0;0] 4) 7
                        [1;2;3;4;5;6;7;8;9;10;11]) in
  let s := [127; 0; 0; 1; 2; 194; 0; 9] in
  silc_id_id2str id 32 =
    (true, Some 16, Some [10;0;0;1;7;1;2;3;4;5;6;7;8;9;10;11]) /\
  silc_id_str2id [10;0;0;1;7;1;2;3;4;5;6;7;8;9;10;11] 16 2 29 = Some id /\
  (forall id', silc_id_str2id s 8 1 22 = Some id' ->
     wf_id id' /\ silc_id_id2str id' 32 = (true, Some 8, Some s)).
Proof.
  apply (id_str_roundtrip
    (ClientID (mkClientID (mkIP [10;0;0;1;0;0;0;0;0;0;0;0;0;0;0;0] 4) 7
                 [1;2;3;4;5;6;7;8;9;10;11])) [127; 0; 0; 1; 2; 194; 0; 9] 1).
  - split; [|split; [cbn; lia|reflexivity]]. split; [by left|split; reflexivity].
  - repeat constructor; vm_compute; done.
Defined.

(** C35: an ID payload carries its ID: what is encoded is read back both
    directly and through a payload object, whatever follows the payload. *)
Theorem id_payload_roundtrip (id : id_ptr) (r : SilcID) (rest : list Z) :
  wf_id id -> zlen rest < 1073741824 ->
  exists b,
    silc_id_payload_encode id = Some b /\
    let d := silc_buffer_data b ++ rest in
    silc_id_payload_parse_id d (zlen d) (Some r) = (true, Some (mkSilcID (id_type id) id)) /\
    silc_id_payload_get_id (silc_id_payload_parse d (zlen d)) (sizeof_id (id_type id)) = Some id.
Proof.
  intros Hwf Hr. pose proof (wf_id_len id Hwf). pose proof (zlen_enc_id id Hwf) as El.
  unfold silc_id_payload_encode. rewrite id2str_ok by (done || lia). rewrite <- El.
  eexists. split; [apply id_payload_encode_data_ok; unfold SILC_MAX_ALLOC; lia|].
  cbn zeta. rewrite whole_data.
  assert (Ed : dec_id_payload (enc_id_payload (id_type id) (enc_id id) ++ rest) =
               Some (id_type id, enc_id id)).
  { apply dec_enc_id_payload; [|lia]. destruct id; done || by destruct Hwf. }
  assert (Hl : zlen (enc_id_payload (id_type id) (enc_id id) ++ rest) < 2147483648)
    by (unfold enc_id_payload; rewrite !zlen_app, !zlen_put16; lia).
  rewrite id_payload_parse_id_ok, id_payload_parse_ok, Ed by done.
  cbn [fmap option_fmap option_map fst snd]. rewrite get_id_block, El.
  by rewrite str2id_enc by (done || lia).
Qed.

Lemma id_payload_roundtrip_witness :
  let id := ChannelID (mkChannelID (mkIP [10;0;0;1;0;0;0;0;0;0;0;0;0;0;0;0] 4) 706 9) in
  exists b,
    silc_id_payload_encode id = Some b /\
    let d := silc_buffer_data b ++ [1; 2; 3] in
    silc_id_payload_parse_id d (zlen d) (Some (mkSilcID 0 (OtherID 0))) =
      (true, Some (mkSilcID 3 id)) /\
    silc_id_payload_get_id (silc_id_payload_parse d (zlen d)) 22 = Some id.
Proof.
  apply (id_payload_roundtrip
    (ChannelID (mkChannelID (mkIP [10;0;0;1;0;0;0;0;0;0;0;0;0;0;0;0] 4) 706 9))
    (mkSilcID 0 (OtherID 0)) [1; 2; 3]).
  - split; [|split; [cbn; lia|cbn; lia]]. split; [by left|split; reflexivity].
  - done.
Defined.

(** Both ID payload parsers accept exactly the payloads with a known type
    whose data is all there and no longer than the longest ID, and then agree
    on it; the direct parser stores the type even when the ID is malformed. *)
Theorem id_payload_parsers (d : list Z) (r : SilcID) :
  zlen d < 2147483648 ->
  silc_id_payload_parse d (zlen d) =
    (fun x => mkIDPayload x.1 (zlen x.2) (block x.2)) <$> dec_id_payload d /\
  silc_id_payload_parse_id d (zlen d) (Some r) =
    match dec_id_payload d with
    | None => (false, Some r)
    | Some (type, x) =>
        match silc_id_payload_get_id (silc_id_payload_parse d (zlen d)) (sizeof_id type) with
        | None => (false, Some (mkSilcID type (sid_u r)))
        | Some u => (true, Some (mkSilcID type u))
        end
    end.
Proof.
  intros Hd. rewrite id_payload_parse_id_ok, id_payload_parse_ok by done.
  split; [done|]. destruct (dec_id_payload d) as [[type x]|]; [|done].
  cbn [fmap option_fmap option_map fst snd]. by rewrite get_id_block.
Qed.

Lemma id_payload_parsers_witness :
  silc_id_payload_parse [0; 1; 0; 2; 5; 6; 7] 7 = Some (mkIDPayload 1 2 (Some [5; 6; 0])) /\
  silc_id_payload_parse_id [0; 1; 0; 2; 5; 6; 7] 7 (Some (mkSilcID 0 (OtherID 0))) =
    (false, Some (mkSilcID 1 (OtherID 0))).
Proof.
  apply (id_payload_parsers [0; 1; 0; 2; 5; 6; 7] (mkSilcID 0 (OtherID 0))). done.
Defined.
