(* ===== verification/Channel.v ===== *)
(** * Channel and channel key payloads ([lib/silccore/silcchannel.c]) *)

From S2P Require Import Prelude CTypes Memory Buffer BuffFmt Fields SilcID.
Import Format Unformat RoundTrip Encoding.

(** ** Channel payload *)

(** [struct SilcChannelPayloadStruct]. *)
Record SilcChannelPayload := mkChannel {
  channel_name : option (list Z);
  channel_id : option (list Z);
  mode : Z;
  name_len : Z;
  id_len : Z
}.

(** The check after the unformat, [len] being the data area's length. *)
Definition channel_bad_lens (name_len id_len len : Z) : bool :=
  ((name_len <? 1) || (u32 (len - 8) <? name_len)) ||
  ((id_len <? 1) || (u32 (len - 8) <? id_len)) ||
  (u32 (len - 8) <? id_len + name_len).

Definition silc_channel_payload_parse (payload : list Z) (payload_len : Z)
    : option SilcChannelPayload :=
  let buffer := silc_buffer_set payload payload_len in
  let '(buffer, ret, o) :=
    silc_buffer_unformat buffer [U_NSTRING_ALLOC UI16; U_NSTRING_ALLOC UI16; U_UI32_INT] in
  if ret =? -1 then None
  else match o with
  | [VStr channel_name name_len; VStr channel_id id_len; VInt mode] =>
      if channel_bad_lens name_len id_len (silc_buffer_len buffer) then None
      else Some (mkChannel channel_name channel_id mode name_len id_len)
  | _ => None
  end.

(** [while (silc_buffer_len(&buffer))]; [acc] is the list so far.  The
    outer [None] is fuel that ran out, the inner one [goto err]. *)
Fixpoint channel_list_loop (fuel : nat) (buffer : SilcBuffer)
    (acc : list SilcChannelPayload) : option (option (list SilcChannelPayload)) :=
  match fuel with
  | O => None
  | S fuel =>
      if silc_buffer_len buffer =? 0 then Some (Some acc)
      else
        let '(buffer, ret, o) :=
          silc_buffer_unformat buffer
            [U_NSTRING_ALLOC UI16; U_NSTRING_ALLOC UI16; U_UI32_INT] in
        if ret =? -1 then Some None
        else match o with
        | [VStr channel_name name_len; VStr channel_id id_len; VInt mode] =>
            if channel_bad_lens name_len id_len (silc_buffer_len buffer) then Some None
            else
              let len := 2 + name_len + 2 + id_len + 4 in
              if silc_buffer_len buffer <? len then Some (Some acc)
              else channel_list_loop fuel (silc_buffer_pull buffer len).1
                     (acc ++ [mkChannel channel_name channel_id mode name_len id_len])
        | _ => Some None
        end
  end.

(** Every round takes at least ten bytes, so the length is enough fuel. *)
Definition silc_channel_payload_parse_list (payload : list Z) (payload_len : Z)
    : option (option (list SilcChannelPayload)) :=
  channel_list_loop (S (Z.to_nat payload_len)) (silc_buffer_set payload payload_len) [].

Definition silc_channel_payload_encode (channel_name : option (list Z)) (channel_name_len : Z)
    (channel_id : option (list Z)) (channel_id_len mode : Z) : option SilcBuffer :=
  match silc_buffer_alloc_size (u32 (2 + channel_name_len + 2 + channel_id_len + 4)) with
  | None => None
  | Some buffer =>
      Some (silc_buffer_format buffer
              [PARAM_UI16_SHORT channel_name_len; PARAM_NSTRING channel_name channel_name_len;
               PARAM_UI16_SHORT channel_id_len; PARAM_NSTRING channel_id channel_id_len;
               PARAM_UI32_INT mode]).1
  end.

Definition silc_channel_get_name (payload : SilcChannelPayload) : option (list Z) * Z :=
  (channel_name payload, name_len payload).
Definition silc_channel_get_id (payload : SilcChannelPayload) : option (list Z) * Z :=
  (channel_id payload, id_len payload).
Definition silc_channel_get_id_parse (payload : SilcChannelPayload) : option id_ptr :=
  silc_id_str2id (default [] (channel_id payload)) (id_len payload) SILC_ID_CHANNEL
    (sizeof_id SILC_ID_CHANNEL).
Definition silc_channel_get_mode (payload : SilcChannelPayload) : Z := mode payload.

(** ** Channel key payload *)

(** [struct SilcChannelKeyPayloadStruct]. *)
Record SilcChannelKeyPayload := mkChannelKey {
  k_id : option (list Z);
  k_cipher : option (list Z);
  k_key : option (list Z);
  k_id_len : Z;
  k_cipher_len : Z;
  k_key_len : Z
}.

Definition silc_channel_key_payload_parse (payload : list Z) (payload_len : Z)
    : option SilcChannelKeyPayload :=
  let buffer := silc_buffer_set payload payload_len in
  let '(buffer, ret, o) :=
    silc_buffer_unformat buffer
      [U_NSTRING_ALLOC UI16; U_NSTRING_ALLOC UI16; U_NSTRING_ALLOC UI16] in
  if ret =? -1 then None
  else match o with
  | [VStr id id_len; VStr cipher cipher_len; VStr key key_len] =>
      if (id_len <? 1) || (key_len <? 1) || (cipher_len <? 1) ||
         (u32 (silc_buffer_len buffer - 6) <? id_len + cipher_len + key_len)
      then None
      else Some (mkChannelKey id cipher key id_len cipher_len key_len)
  | _ => None
  end.

Definition silc_channel_key_payload_encode (id_len : Z) (id : option (list Z))
    (cipher_len : Z) (cipher : option (list Z)) (key_len : Z) (key : option (list Z))
    : option SilcBuffer :=
  let len := u32 (2 + id_len + 2 + key_len + 2 + cipher_len) in
  match silc_buffer_alloc_size len with
  | None => None
  | Some buffer =>
      Some (silc_buffer_format buffer
              [PARAM_UI16_SHORT id_len; PARAM_NSTRING id id_len;
               PARAM_UI16_SHORT cipher_len; PARAM_NSTRING cipher cipher_len;
               PARAM_UI16_SHORT key_len; PARAM_NSTRING key key_len]).1
  end.

Definition silc_channel_key_get_id (p : SilcChannelKeyPayload) : option (list Z) * Z :=
  (k_id p, k_id_len p).
Definition silc_channel_key_get_cipher (p : SilcChannelKeyPayload) : option (list Z) * Z :=
  (k_cipher p, k_cipher_len p).
Definition silc_channel_key_get_key (p : SilcChannelKeyPayload) : option (list Z) * Z :=
  (k_key p, k_key_len p).

(** ** Reference form *)

(** A channel entry: name, ID data and mode. *)
Abbreviation chan := (list Z * list Z * Z)%type (only parsing).

Definition chan_fields : list field := [FS16; FS16; F32].
Definition chan_vals (c : chan) : list fval := [FStr c.1.1; FStr c.1.2; FInt c.2].
Definition enc_chan (c : chan) : list Z := enc_fields chan_fields (chan_vals c).
Definition enc_chans (l : list chan) : list Z := concat (enc_chan <$> l).

Definition chan_ok (c : chan) : Prop :=
  1 <= zlen c.1.1 < 65536 /\ 1 <= zlen c.1.2 < 65536 /\ 0 <= c.2 < 4294967296.

Definition channel_of (c : chan) : SilcChannelPayload :=
  mkChannel (block c.1.1) (block c.1.2) c.2 (zlen c.1.1) (zlen c.1.2).

(** The first entry and the rest; entries with an empty name or ID are not
    accepted. *)
Definition dec_chan (d : list Z) : option (chan * list Z) :=
  match dec_fields chan_fields d with
  | Some ([FStr n; FStr i; FInt m], rest) =>
      if (zlen n <? 1) || (zlen i <? 1) then None else Some ((n, i, m), rest)
  | _ => None
  end.

Lemma chan_fields_ok : Forall field_ok chan_fields.
Proof. by repeat constructor. Qed.

Lemma zlen_enc_chan c : zlen (enc_chan c) = 8 + zlen c.1.1 + zlen c.1.2.
Proof. unfold enc_chan, enc_fields. cbn. zl. Qed.

Lemma dec_enc_chan c rest : chan_ok c -> dec_chan (enc_chan c ++ rest) = Some (c, rest).
Proof.
  intros (H1 & H2 & H3). unfold dec_chan, enc_chan. rewrite dec_enc_fields.
  - cbn [chan_vals]. rewrite !(proj2 (Z.ltb_ge _ _)) by lia. by destruct c as [[??]?].
  - repeat constructor; cbn; lia.
Qed.

Lemma enc_dec_chan d c rest :
  bytes_ok d -> dec_chan d = Some (c, rest) ->
  d = enc_chan c ++ rest /\ chan_ok c /\ bytes_ok rest.
Proof.
  unfold dec_chan. intros Hd E.
  destruct (dec_fields chan_fields d) as [[vs r]|] eqn:Ef; [|done].
  apply enc_dec_fields in Ef as (-> & Hv & Hr); [|apply chan_fields_ok|done].
  unfold chan_fields in *. fvals.
  destruct ((zlen x <? 1) || (zlen x0 <? 1)) eqn:C; simplify_eq.
  apply orb_false_iff in C as [C1 C2]. split; [done|]. split; [|done].
  unfold chan_ok; cbn. lia.
Qed.

(** What the unformat and the check do, on a data area after [h]. *)
Lemma channel_unformat h d :
  zlen h + zlen d < 2147483648 -> bytes_ok d ->
  let b := of_areas h d [] in
  match silc_buffer_unformat b [U_NSTRING_ALLOC UI16; U_NSTRING_ALLOC UI16; U_UI32_INT] with
  | (b', ret, o) =>
      b' = b /\
      match dec_chan d with
      | Some (c, rest) =>
          (ret =? -1) = false /\
          o = [VStr (block c.1.1) (zlen c.1.1); VStr (block c.1.2) (zlen c.1.2); VInt c.2] /\
          channel_bad_lens (zlen c.1.1) (zlen c.1.2) (zlen d) = false
      | None =>
          (ret =? -1) = true \/
          exists n nl i il m, (ret =? -1) = false /\ o = [VStr n nl; VStr i il; VInt m] /\
            channel_bad_lens nl il (zlen d) = true
      end
  end.
Proof.
  intros Hs Hd b. subst b.
  pose proof (unformat_fields h d chan_fields Hs chan_fields_ok) as H.
  change (uf_of <$> chan_fields)
    with [U_NSTRING_ALLOC UI16; U_NSTRING_ALLOC UI16; U_UI32_INT] in H.
  destruct (dec_fields chan_fields d) as [[vs rest]|] eqn:E.
  - pose proof (dec_fields_vals _ _ _ _ chan_fields_ok Hd E) as (El & Hv & Hr).
    unfold chan_fields in Hv. fvals. destruct H as [-> H]. split; [done|].
    unfold dec_chan. rewrite E.
    assert (zlen d = 8 + zlen x + zlen x0 + zlen rest)
      by (rewrite El; unfold enc_fields; cbn; zl).
    zlen_facts. destruct ((zlen x <? 1) || (zlen x0 <? 1)) eqn:C.
    + right. eexists _, _, _, _, _. split; [done|]. split; [reflexivity|].
      unfold channel_bad_lens. apply orb_true_iff in C as [->| ->]; [done|].
      by rewrite orb_true_r.
    + apply orb_false_iff in C as [C1 C2]. split; [done|]. split; [done|].
      unfold channel_bad_lens; cbn [fst snd]. rewrite C1, C2, u32_id by lia.
      by rewrite !(proj2 (Z.ltb_ge (zlen d - 8) _)) by lia.
  - destruct H as [o ->]. split; [done|]. unfold dec_chan. rewrite E. by left.
Qed.

Lemma channel_parse_ok d :
  zlen d < 2147483648 -> bytes_ok d ->
  silc_channel_payload_parse d (zlen d) = (fun x => channel_of x.1) <$> dec_chan d.
Proof.
  intros Hs Hd. unfold silc_channel_payload_parse. rewrite set_areas by done.
  pose proof (channel_unformat [] d ltac:(zl) Hd) as H. cbn zeta in H.
  destruct (silc_buffer_unformat _ _) as [[b ret] o]. destruct H as [-> H].
  rewrite of_areas_len by zl.
  destruct (dec_chan d) as [[[[n i] m] rest]|].
  - destruct H as (-> & -> & ->). done.
  - destruct H as [->|(?&?&?&?&?& -> & -> & ->)]; done.
Qed.

(** A list of entries that fills the payload. *)
Fixpoint dec_chans (fuel : nat) (d : list Z) : option (list chan) :=
  match fuel with
  | O => None
  | S fuel =>
      if decide (d = []) then Some []
      else match dec_chan d with
           | None => None
           | Some (c, rest) => cons c <$> dec_chans fuel rest
           end
  end.

Lemma dec_enc_chans l : forall fuel,
  Forall chan_ok l -> (length l < fuel)%nat -> dec_chans fuel (enc_chans l) = Some l.
Proof.
  unfold enc_chans. induction l as [|c l IH]; intros [|fuel] Hl Hf; cbn in Hf; try lia; [done|].
  apply list.Forall_cons_1 in Hl as [Hc Hl]. cbn [dec_chans fmap list_fmap concat].
  pose proof Hc as (H1 & _). rewrite decide_False.
  - rewrite dec_enc_chan by done. rewrite IH by (done || lia). done.
  - intros E. apply (f_equal zlen) in E. rewrite zlen_app, zlen_enc_chan, zlen_nil in E.
    zlen_facts. lia.
Qed.

Lemma enc_dec_chans fuel : forall d l,
  bytes_ok d -> dec_chans fuel d = Some l -> d = enc_chans l /\ Forall chan_ok l.
Proof.
  induction fuel as [|fuel IH]; intros d l Hd E; [done|]. cbn [dec_chans] in E.
  case_decide; simplify_eq; [done|].
  destruct (dec_chan d) as [[c rest]|] eqn:Ec; [|done].
  apply enc_dec_chan in Ec as (-> & Hc & Hr); [|done].
  destruct (dec_chans fuel rest) as [l'|] eqn:El; cbn in E; simplify_eq.
  apply IH in El as [-> Hl]; [|done]. split; [done|by constructor].
Qed.

Lemma channel_list_loop_ok fuel : forall h d acc,
  zlen h + zlen d < 2147483648 -> bytes_ok d -> zlen d < Z.of_nat fuel ->
  channel_list_loop fuel (of_areas h d []) acc =
  Some ((fun l => acc ++ (channel_of <$> l)) <$> dec_chans fuel d).
Proof.
  induction fuel as [|fuel IH]; intros h d acc Hs Hd Hf; [zlen_facts; lia|].
  cbn [channel_list_loop dec_chans]. rewrite of_areas_len by zl.
  destruct (Z.eqb_spec (zlen d) 0) as [E|E].
  { apply zlen_zero_nil in E as ->. rewrite decide_True by done. cbn. by rewrite app_nil_r. }
  rewrite decide_False by (intros ->; done).
  pose proof (channel_unformat h d Hs Hd) as H. cbn zeta in H.
  destruct (silc_buffer_unformat _ _) as [[b ret] o]. destruct H as [-> H].
  rewrite of_areas_len by zl. destruct (dec_chan d) as [[c rest]|] eqn:Ec.
  - destruct H as (-> & -> & ->). apply enc_dec_chan in Ec as (-> & Hc & Hr); [|done].
    pose proof (zlen_enc_chan c) as El. rewrite zlen_app in *. zlen_facts. cbn zeta.
    rewrite (proj2 (Z.ltb_ge _ _)) by lia.
    replace (2 + zlen c.1.1 + 2 + zlen c.1.2 + 4) with (zlen (enc_chan c)) by lia.
    rewrite pull_areas by zl. cbn [fst]. rewrite IH by (done || rewrite ?zlen_app; lia).
    f_equal. destruct (dec_chans fuel rest) as [l|]; [|done]. cbn. f_equal.
    by rewrite <- app_assoc.
  - destruct H as [->|(?&?&?&?&?& -> & -> & ->)]; done.
Qed.

(** ** Channel key entries *)

Definition key_fields : list field := [FS16; FS16; FS16].

Lemma key_fields_ok : Forall field_ok key_fields.
Proof. by repeat constructor. Qed.

Definition key_ok (id cipher key : list Z) : Prop :=
  1 <= zlen id < 65536 /\ 1 <= zlen cipher < 65536 /\ 1 <= zlen key < 65536.

Definition enc_key (id cipher key : list Z) : list Z :=
  enc_fields key_fields [FStr id; FStr cipher; FStr key].

Definition key_payload_of (id cipher key : list Z) : SilcChannelKeyPayload :=
  mkChannelKey (block id) (block cipher) (block key) (zlen id) (zlen cipher) (zlen key).

Lemma key_parse_ok d id cipher key rest :
  zlen d < 2147483648 -> bytes_ok d ->
  dec_fields key_fields d = Some ([FStr id; FStr cipher; FStr key], rest) ->
  silc_channel_key_payload_parse d (zlen d) =
  if (zlen id <? 1) || (zlen key <? 1) || (zlen cipher <? 1) then None
  else Some (key_payload_of id cipher key).
Proof.
  intros Hs Hd E. unfold silc_channel_key_payload_parse. rewrite set_areas by done.
  pose proof (unformat_fields [] d key_fields ltac:(zl) key_fields_ok) as H.
  pose proof (dec_fields_vals _ _ _ _ key_fields_ok Hd E) as (El & _ & _).
  rewrite E in H. destruct H as [H Hn].
  change (uf_of <$> key_fields)
    with [U_NSTRING_ALLOC UI16; U_NSTRING_ALLOC UI16; U_NSTRING_ALLOC UI16] in H.
  rewrite H, Hn. cbn [uvals_of zip_with uval_of key_fields]. rewrite of_areas_len by zl.
  assert (zlen d = 6 + zlen id + zlen cipher + zlen key + zlen rest)
    by (rewrite El; unfold enc_fields; cbn; zl).
  zlen_facts. rewrite u32_id, (proj2 (Z.ltb_ge (zlen d - 6) _)) by lia.
  by rewrite orb_false_r.
Qed.

Lemma key_parse_none d :
  zlen d < 2147483648 -> dec_fields key_fields d = None ->
  silc_channel_key_payload_parse d (zlen d) = None.
Proof.
  intros Hs E. unfold silc_channel_key_payload_parse. rewrite set_areas by done.
  pose proof (unformat_fields [] d key_fields ltac:(zl) key_fields_ok) as H.
  rewrite E in H. destruct H as [o H].
  change (uf_of <$> key_fields)
    with [U_NSTRING_ALLOC UI16; U_NSTRING_ALLOC UI16; U_NSTRING_ALLOC UI16] in H.
  by rewrite H.
Qed.

Lemma key_encode_ok id cipher key :
  key_ok id cipher key ->
  silc_channel_key_payload_encode (zlen id) (Some id) (zlen cipher) (Some cipher)
    (zlen key) (Some key) = Some (whole (enc_key id cipher key)).
Proof.
  intros (H1 & H2 & H3). unfold silc_channel_key_payload_encode.
  rewrite u32_id, alloc_size_areas by (unfold SILC_MAX_ALLOC; lia).
  set (n := 2 + zlen id + 2 + zlen key + 2 + zlen cipher). fold (whole (zeros n)).
  pose proof (format_fields n key_fields [FStr id; FStr cipher; FStr key]) as E.
  cbn [fmts_of key_fields zip_with fmt_of concat app] in E. rewrite E.
  - done.
  - repeat constructor; cbn; lia.
  - unfold enc_fields; cbn. unfold n. zl.
  - unfold n, SILC_MAX_ALLOC. lia.
Qed.

Lemma channel_encode_ok c :
  chan_ok c ->
  silc_channel_payload_encode (Some c.1.1) (zlen c.1.1) (Some c.1.2) (zlen c.1.2) c.2 =
  Some (whole (enc_chan c)).
Proof.
  intros (H1 & H2 & H3). unfold silc_channel_payload_encode.
  rewrite u32_id, alloc_size_areas by (unfold SILC_MAX_ALLOC; lia).
  set (n := 2 + zlen c.1.1 + 2 + zlen c.1.2 + 4). fold (whole (zeros n)).
  pose proof (format_fields n chan_fields (chan_vals c)) as E.
  cbn [fmts_of chan_fields chan_vals zip_with fmt_of concat app] in E. rewrite E.
  - done.
  - repeat constructor; cbn; lia.
  - fold chan_fields. change (enc_fields _ _) with (enc_chan c). rewrite zlen_enc_chan.
    unfold n. lia.
  - unfold n, SILC_MAX_ALLOC. lia.
Qed.

(** ** Properties *)

(** C37: parsing a list of channel payloads always ends, and its result is the
    list of entries when the payload is exactly a sequence of encoded entries
    with non-empty names and IDs, and NULL otherwise; so no entry is ever
    dropped from a list that parses. *)
Theorem channel_list_spec (d : list Z) :
  bytes_ok d -> zlen d < 2147483648 ->
  exists r, silc_channel_payload_parse_list d (zlen d) = Some r /\
    match r with
    | Some l => exists cs, Forall chan_ok cs /\ d = enc_chans cs /\ l = channel_of <$> cs
    | None => forall cs, Forall chan_ok cs -> d <> enc_chans cs
    end.
Proof.
  intros Hd Hs. unfold silc_channel_payload_parse_list. rewrite set_areas by done.
  set (fuel := S (Z.to_nat (zlen d))). zlen_facts.
  rewrite channel_list_loop_ok by (zl || done). eexists. split; [done|].
  destruct (dec_chans fuel d) as [cs|] eqn:E; cbn.
  - apply enc_dec_chans in E as [-> Hcs]; [|done]. by exists cs.
  - intros cs Hcs ->. rewrite dec_enc_chans in E; [done|done|]. unfold fuel.
    assert (zlen cs <= zlen (enc_chans cs)); [|unfold zlen in *; lia].
    clear. unfold enc_chans. induction cs as [|c cs IH]; [done|].
    cbn [fmap list_fmap concat]. rewrite zlen_cons, zlen_app, zlen_enc_chan.
    zlen_facts. lia.
Qed.

Lemma channel_list_spec_witness :
  exists r, silc_channel_payload_parse_list [0;1;65;0;1;7;0;0;0;9] 10 = Some r /\
    match r with
    | Some l => exists cs, Forall chan_ok cs /\ [0;1;65;0;1;7;0;0;0;9] = enc_chans cs /\
                           l = channel_of <$> cs
    | None => forall cs, Forall chan_ok cs -> [0;1;65;0;1;7;0;0;0;9] <> enc_chans cs
    end.
Proof.
  apply (channel_list_spec [0;1;65;0;1;7;0;0;0;9]);
    [repeat constructor; vm_compute; done|done].
Defined.

(** channel and channel key payloads round trip: what the encoders write
    from non-empty fields the parsers read back. *)
Theorem channel_roundtrip (c : chan) (id cipher key : list Z) :
  chan_ok c -> key_ok id cipher key ->
  Forall bytes_ok [c.1.1; c.1.2; id; cipher; key] ->
  (exists b,
     silc_channel_payload_encode (Some c.1.1) (zlen c.1.1) (Some c.1.2) (zlen c.1.2) c.2 =
       Some b /\
     silc_channel_payload_parse (silc_buffer_data b) (silc_buffer_len b) =
       Some (channel_of c)) /\
  (exists b,
     silc_channel_key_payload_encode (zlen id) (Some id) (zlen cipher) (Some cipher)
       (zlen key) (Some key) = Some b /\
     silc_channel_key_payload_parse (silc_buffer_data b) (silc_buffer_len b) =
       Some (key_payload_of id cipher key)).
Proof.
  intros Hc Hk Hb. rewrite !list.Forall_cons in Hb. destruct Hb as (B1 & B2 & B3 & B4 & B5 & _).
  pose proof Hc as (? & ? & ?). pose proof Hk as (? & ? & ?). split.
  - eexists. split; [by apply channel_encode_ok|]. pose proof (zlen_enc_chan c).
    rewrite whole_data, whole_len by lia. rewrite channel_parse_ok.
    + rewrite <- (app_nil_r (enc_chan c)). by rewrite dec_enc_chan.
    + lia.
    + by apply enc_fields_bytes; repeat constructor.
  - eexists. split; [by apply key_encode_ok|].
    assert (El : zlen (enc_key id cipher key) = 6 + zlen id + zlen cipher + zlen key)
      by (unfold enc_key, enc_fields; cbn; zl).
    rewrite whole_data, whole_len by lia.
    rewrite (key_parse_ok _ id cipher key []).
    + by rewrite !(proj2 (Z.ltb_ge _ _)) by lia.
    + lia.
    + by apply enc_fields_bytes; repeat constructor.
    + unfold enc_key. rewrite <- (app_nil_r (enc_fields _ _)), dec_enc_fields; [done|].
      repeat constructor; cbn; lia.
Qed.

Lemma channel_roundtrip_witness :
  (exists b,
     silc_channel_payload_encode (Some [65; 66]) 2 (Some [1; 2; 3]) 3 5 = Some b /\
     silc_channel_payload_parse (silc_buffer_data b) (silc_buffer_len b) =
       Some (mkChannel (Some [65; 66; 0]) (Some [1; 2; 3; 0]) 5 2 3)) /\
  (exists b,
     silc_channel_key_payload_encode 1 (Some [9]) 2 (Some [97; 101]) 3 (Some [1; 2; 3]) =
       Some b /\
     silc_channel_key_payload_parse (silc_buffer_data b) (silc_buffer_len b) =
       Some (mkChannelKey (Some [9; 0]) (Some [97; 101; 0]) (Some [1; 2; 3; 0]) 1 2 3)).
Proof.
  apply (channel_roundtrip ([65; 66], [1; 2; 3], 5) [9] [97; 101] [1; 2; 3]).
  - vm_compute; intuition discriminate.
  - vm_compute; intuition discriminate.
  - repeat constructor; vm_compute; done.
Defined.

(** The channel key parser accepts exactly the payloads that start with
    three non-empty counted strings; bytes after them are ignored. *)
Theorem channel_key_parse_spec (d : list Z) :
  bytes_ok d -> zlen d < 2147483648 ->
  match silc_channel_key_payload_parse d (zlen d) with
  | Some p => exists id cipher key rest,
      key_ok id cipher key /\ d = enc_key id cipher key ++ rest /\
      p = key_payload_of id cipher key
  | None => forall id cipher key rest,
      key_ok id cipher key -> d <> enc_key id cipher key ++ rest
  end.
Proof.
  intros Hd Hs. destruct (dec_fields key_fields d) as [[vs rest]|] eqn:E.
  - pose proof (enc_dec_fields _ _ _ _ key_fields_ok Hd E) as (Ed & Hv & _).
    revert Ed. unfold key_fields in Hv. fvals. intros Ed.
    rewrite (key_parse_ok d x x0 x1 rest) by done.
    destruct ((zlen x <? 1) || (zlen x1 <? 1) || (zlen x0 <? 1)) eqn:C.
    + intros id cipher key rest' Hk ->. revert E. unfold enc_key. rewrite dec_enc_fields.
      * intros [= <- <- <- <-]. destruct Hk as (?&?&?).
        rewrite !(proj2 (Z.ltb_ge _ _)) in C by lia. done.
      * destruct Hk as (?&?&?). repeat constructor; cbn; lia.
    + rewrite !orb_false_iff in C. destruct C as [[C1 C2] C3].
      exists x, x0, x1, rest. split; [unfold key_ok; lia|done].
  - rewrite key_parse_none by done. intros id cipher key rest Hk ->. revert E.
    unfold enc_key. rewrite dec_enc_fields; [done|].
    destruct Hk as (?&?&?). repeat constructor; cbn; lia.
Qed.

Lemma channel_key_parse_spec_witness :
  match silc_channel_key_payload_parse [0;1;7;0;1;8;0;1;9;5] 10 with
  | Some p => exists id cipher key rest,
      key_ok id cipher key /\ [0;1;7;0;1;8;0;1;9;5] = enc_key id cipher key ++ rest /\
      p = key_payload_of id cipher key
  | None => forall id cipher key rest,
      key_ok id cipher key -> [0;1;7;0;1;8;0;1;9;5] <> enc_key id cipher key ++ rest
  end.
Proof.
  apply (channel_key_parse_spec [0;1;7;0;1;8;0;1;9;5]);
    [repeat constructor; vm_compute; done|done].
Defined.
