(* ===== verification/Notify.v ===== *)
(** * Notify payloads ([lib/silccore/silcnotify.c]) *)

From S2P Require Import Prelude CTypes Memory Buffer BuffFmt Argument Fields.
Import Format Unformat RoundTrip Encoding.

(** [struct SilcNotifyPayloadStruct]. *)
Record SilcNotifyPayload := mkNotify {
  n_type : Z;
  n_argc : Z;
  n_args : option SilcArgumentPayload
}.

Definition silc_notify_payload_parse (payload : list Z) (payload_len : Z)
    : option SilcNotifyPayload :=
  let buffer := silc_buffer_set payload payload_len in
  let '(buffer, ret, o) :=
    silc_buffer_unformat buffer [U_UI16_SHORT; U_UI16_SHORT; U_UI8_CHAR] in
  if ret =? -1 then None
  else match o with
  | [VInt type; VInt len; VInt argc] =>
      if silc_buffer_len buffer <? len then None
      else if negb (argc =? 0) then
        let buffer := (silc_buffer_pull buffer 5).1 in
        match silc_argument_payload_parse (silc_buffer_data buffer)
                (silc_buffer_len buffer) argc with
        | None => None
        | Some args => Some (mkNotify type argc (Some args))
        end
      else Some (mkNotify type argc None)
  | _ => None
  end.

(** The loop over the variadic pairs: an argument's type is its position,
    counted from 1, also when earlier ones are skipped. *)
Fixpoint notify_collect (n : nat) (i : Z) (ap : list (option (list Z) * Z))
    : option (list (option (list Z) * Z * Z)) :=
  match n, ap with
  | S n, (x, x_len) :: ap =>
      match x with
      | Some x =>
          if x_len =? 0 then notify_collect n (i + 1) ap
          else match silc_memdup x x_len with
               | None => None
               | Some dup => cons (Some dup, x_len, i + 1) <$> notify_collect n (i + 1) ap
               end
      | None => notify_collect n (i + 1) ap
      end
  | _, _ => Some []
  end.

(** The end of both encoders: [k] is the number of arguments sent, [args] their
    encoding, [has_args] whether it is added. *)
Definition notify_format (type len k : Z) (args : SilcBuffer) (has_args : bool)
    : option SilcBuffer :=
  match silc_buffer_alloc_size len with
  | None => None
  | Some buffer =>
      let buffer := (silc_buffer_format buffer
        [PARAM_UI16_SHORT type; PARAM_UI16_SHORT len; PARAM_UI8_CHAR k]).1 in
      if has_args then
        Some (silc_buffer_format buffer
          [PARAM_OFFSET 5; PARAM_NSTRING (Some (silc_buffer_data args)) (silc_buffer_len args)]).1
      else Some buffer
  end.

(** A NULL from the argument encoder is not checked for; it ends the call
    here. *)
Definition silc_notify_payload_encode (type argc : Z) (ap : list (option (list Z) * Z))
    : option SilcBuffer :=
  if negb (argc =? 0) then
    match silc_calloc argc 8, silc_calloc argc 4, silc_calloc argc 4 with
    | Some _, Some _, Some _ =>
        match notify_collect (Z.to_nat argc) 0 ap with
        | None => None
        | Some l =>
            match silc_argument_payload_encode (zlen l) ((fun a => a.1.1) <$> l)
                    ((fun a => a.1.2) <$> l) ((fun a => a.2) <$> l) with
            | None => None
            | Some args =>
                notify_format type (u32 (silc_buffer_len args + 5)) (zlen l) args
                  (negb (zlen l =? 0))
            end
        end
    | _, _, _ => None
    end
  else notify_format type 5 0 (mkBuffer [] 0 0) false.

Definition silc_notify_payload_encode_args (type argc : Z) (args : option SilcBuffer)
    : option SilcBuffer :=
  match args with
  | Some a => notify_format type (u32 (5 + silc_buffer_len a)) argc a true
  | None => notify_format type 5 argc (mkBuffer [] 0 0) false
  end.

Definition silc_notify_get_type (payload : SilcNotifyPayload) : Z := n_type payload.
Definition silc_notify_get_arg_num (payload : SilcNotifyPayload) : Z := n_argc payload.
Definition silc_notify_get_args (payload : SilcNotifyPayload)
    : option SilcArgumentPayload := n_args payload.

(** ** Reference form *)

Definition notify_fields : list field := [F16; F16; F8].
Definition notify_header (type len argc : Z) : list Z :=
  enc_fields notify_fields [FInt type; FInt len; FInt argc].

(** The bytes of a notify with these records. *)
Definition notify_bytes (type : Z) (l : list tlv) : list Z :=
  notify_header type (5 + zlen (enc_tlvs l)) (zlen l) ++ enc_tlvs l.

Definition notify_of (type : Z) (l : list tlv) : SilcNotifyPayload :=
  mkNotify type (zlen l) (if decide (l = []) then None else Some (payload_of l)).

Lemma notify_fields_ok : Forall field_ok notify_fields.
Proof. by repeat constructor. Qed.

(** The parser: the length field may be smaller than the payload, the records
    must fill the payload. *)
Definition dec_notify (d : list Z) : option SilcNotifyPayload :=
  match dec_fields notify_fields d with
  | Some ([FInt type; FInt len; FInt argc], rest) =>
      if zlen d <? len then None
      else if argc =? 0 then Some (mkNotify type 0 None)
      else (fun l => mkNotify type argc (Some (payload_of l))) <$> dec_tlvs (Z.to_nat argc) rest
  | _ => None
  end.

Lemma notify_split d type len argc rest :
  dec_fields notify_fields d = Some ([FInt type; FInt len; FInt argc], rest) ->
  exists x, d = x ++ rest /\ zlen x = 5 /\ 0 <= argc < 256.
Proof.
  intros E. destruct d as [|a [|b [|c [|e [|f d]]]]]; try done. cbn in E. simplify_eq.
  exists [a; b; c; e; f]. split; [done|]. split; [done|]. apply u8_range.
Qed.

Lemma notify_parse_ok d :
  zlen d < 2147483648 -> silc_notify_payload_parse d (zlen d) = dec_notify d.
Proof.
  intros Hs. unfold silc_notify_payload_parse, dec_notify. rewrite set_areas by done.
  pose proof (unformat_fields [] d notify_fields ltac:(zl) notify_fields_ok) as H.
  change (uf_of <$> notify_fields) with [U_UI16_SHORT; U_UI16_SHORT; U_UI8_CHAR] in H.
  destruct (dec_fields notify_fields d) as [[vs rest]|] eqn:E; [|by destruct H as [o ->]].
  destruct H as [-> ->]. assert (Hvs : exists t l a, vs = [FInt t; FInt l; FInt a]).
  { destruct d as [|a [|b [|c [|e [|f d]]]]]; try done. cbn in E. simplify_eq. eauto. }
  destruct Hvs as (type & len & argc & ->). cbn [uvals_of zip_with uval_of notify_fields].
  apply notify_split in E as (x & -> & Hx & Hargc). rewrite of_areas_len by zl.
  destruct (zlen (x ++ rest) <? len); [done|].
  destruct (Z.eqb_spec argc 0) as [->|Hn]; cbn [negb]; [done|].
  rewrite <- Hx. rewrite pull_areas by zl. cbn [fst app].
  rewrite data_areas, of_areas_len, app_nil_r by zl.
  rewrite payload_parse_ok by (zl || (unfold argc_ok; lia)).
  by destruct (dec_tlvs _ rest).
Qed.

Lemma dec_notify_bytes type l :
  0 <= type < 65536 -> Forall tlv_ok l -> zlen l < 256 -> 5 + zlen (enc_tlvs l) < 65536 ->
  dec_notify (notify_bytes type l) = Some (notify_of type l).
Proof.
  intros Ht Hl Hn Hs. zlen_facts. unfold dec_notify, notify_bytes, notify_header.
  rewrite dec_enc_fields by (repeat constructor; cbn; lia).
  rewrite zlen_app. change (zlen (enc_fields _ _)) with 5.
  rewrite (proj2 (Z.ltb_ge _ _)) by lia. unfold notify_of.
  destruct (Z.eqb_spec (zlen l) 0) as [E|E].
  - apply zlen_zero_nil in E as ->. done.
  - rewrite decide_False by (intros ->; done).
    pose proof (dec_enc_tlvs l [] Hl) as D. rewrite app_nil_r in D.
    replace (Z.to_nat (zlen l)) with (length l) by (unfold zlen; lia).
    by rewrite D.
Qed.

Lemma notify_format_none type k a :
  notify_format type 5 k a false = Some (whole (notify_header type 5 k)).
Proof.
  unfold notify_format. rewrite alloc_size_areas by done. fold (whole (zeros 5)).
  by rewrite format_whole by (done || by repeat constructor).
Qed.

Lemma notify_format_ok type k e :
  5 + zlen e < SILC_MAX_ALLOC ->
  notify_format type (5 + zlen e) k (whole e) true =
  Some (whole (notify_header type (5 + zlen e) k ++ e)).
Proof.
  intros Hs. pose proof Hs as Hs'. unfold SILC_MAX_ALLOC in Hs'. zlen_facts.
  unfold notify_format. rewrite alloc_size_areas by lia. fold (whole (zeros (5 + zlen e))).
  rewrite zeros_app by lia.
  assert (Ez : zlen (zeros (zlen e)) = zlen e) by (apply zlen_zeros; lia).
  rewrite format_front; [|repeat constructor|done|rewrite Ez, zlen_zeros; [done|lia]].
  cbn [fst]. change (enc_args _) with (notify_header type (5 + zlen e) k).
  rewrite whole_data, whole_len by lia.
  set (hdr := notify_header _ _ _). change 5 with (zlen hdr).
  rewrite <- (app_nil_r (zeros _)).
  assert (Ea : enc_args [PARAM_NSTRING (Some e) (zlen e)] = e).
  { rewrite enc_args_cons, app_nil_r; cbn [enc_arg]. by rewrite ztake_ge. }
  rewrite format_offset; rewrite ?Ea, ?Ez, ?app_nil_r; try done.
  - constructor; [cbn; lia|done].
  - change (zlen hdr) with 5. rewrite zlen_nil. lia.
Qed.

(** The arguments a call sends, with their positions. *)
Fixpoint notify_sent (i : Z) (ap : list (option (list Z) * Z)) : list tlv :=
  match ap with
  | [] => []
  | (Some x, x_len) :: ap =>
      if x_len =? 0 then notify_sent (i + 1) ap
      else (i + 1, ztake x_len x) :: notify_sent (i + 1) ap
  | (None, _) :: ap => notify_sent (i + 1) ap
  end.

(** Data as long as announced. *)
Definition pair_ok (a : option (list Z) * Z) : Prop :=
  match a.1 with Some x => 0 <= a.2 <= zlen x /\ a.2 < 65536 | None => True end.

Lemma notify_collect_ok ap : forall i,
  Forall pair_ok ap ->
  exists l, notify_collect (length ap) i ap = Some l /\ Forall triple_ok l /\
            tlv_of <$> l = notify_sent i ap.
Proof.
  induction ap as [|[[x|] len] ap IH]; intros i Hap; [by exists []| |];
    apply list.Forall_cons_1 in Hap as [Ha Hap];
    destruct (IH (i + 1) Hap) as (l & E & Hl & Ht);
    cbn [length notify_collect notify_sent]; [|by exists l].
  destruct Ha as [Hlen Hlen']; cbn [fst snd] in *.
  destruct (Z.eqb_spec len 0); [by exists l|].
  rewrite silc_memdup_ok by (done || unfold SILC_MAX_ALLOC; lia). rewrite E.
  eexists. split; [done|]. split.
  - constructor; [|done]. split; cbn; [lia|]. rewrite zlen_app, zlen_take; zl.
  - rewrite fmap_cons, Ht. f_equal. unfold tlv_of; cbn. f_equal.
    by rewrite ztake_app_exact by (rewrite zlen_take; lia).
Qed.

Lemma notify_sent_ok ap : forall i,
  Forall pair_ok ap -> 0 <= i -> i + zlen ap < 256 -> Forall tlv_ok (notify_sent i ap).
Proof.
  induction ap as [|[[x|] len] ap IH]; intros i Hap Hi Hn; [done| |];
    apply list.Forall_cons_1 in Hap as [Ha Hap]; rewrite zlen_cons in Hn; zlen_facts;
    cbn [notify_sent]; [|apply IH; done || lia].
  destruct Ha as [Hlen Hlen']; cbn [fst snd] in *.
  destruct (Z.eqb_spec len 0); [apply IH; done || lia|].
  constructor; [|apply IH; done || lia]. split; cbn; [lia|]. rewrite zlen_take; lia.
Qed.

Lemma zlen_notify_sent ap : forall i, zlen (notify_sent i ap) <= zlen ap.
Proof.
  induction ap as [|[[x|] len] ap IH]; intros i; cbn [notify_sent]; [done| |];
    rewrite zlen_cons; specialize (IH (i + 1)); [case_match; rewrite ?zlen_cons|]; lia.
Qed.

Lemma notify_encode_ok type ap :
  Forall pair_ok ap -> zlen ap < 134217728 ->
  5 + zlen (enc_tlvs (notify_sent 0 ap)) < SILC_MAX_ALLOC ->
  silc_notify_payload_encode type (zlen ap) ap =
  Some (whole (notify_bytes type (notify_sent 0 ap))).
Proof.
  intros Hap Hn Hs. unfold silc_notify_payload_encode.
  destruct (Z.eqb_spec (zlen ap) 0) as [E|E]; cbn [negb].
  { apply zlen_zero_nil in E as ->. by rewrite notify_format_none. }
  zlen_facts. destruct (calloc_argc (zlen ap)) as [a ->]; [unfold argc_ok; lia|].
  rewrite silc_calloc_ok by (unfold SILC_MAX_ALLOC; lia).
  replace (Z.to_nat (zlen ap)) with (length ap) by (unfold zlen; lia).
  destruct (notify_collect_ok ap 0 Hap) as (l & -> & Hl & Ht).
  rewrite <- Ht in *. unfold SILC_MAX_ALLOC in Hs. zlen_facts.
  rewrite encode_ok by (done || unfold SILC_MAX_ALLOC; lia).
  unfold notify_bytes. rewrite whole_len, Z.add_comm, u32_id, zlen_fmap by lia.
  destruct (Z.eqb_spec (zlen l) 0) as [El|El]; cbn [negb].
  - apply zlen_zero_nil in El as ->. rewrite notify_format_none. by rewrite app_nil_r.
  - by rewrite notify_format_ok by (unfold SILC_MAX_ALLOC; lia).
Qed.

(** ** Properties *)

(** a notify payload is parsed back to its type and arguments; an argument
    that is not sent leaves a gap in the argument types, so the receiver still
    finds each of the others under its position. *)
Theorem notify_roundtrip (type : Z) (ap : list (option (list Z) * Z)) :
  0 <= type < 65536 -> Forall pair_ok ap -> zlen ap < 256 ->
  5 + zlen (enc_tlvs (notify_sent 0 ap)) < 65536 ->
  exists b,
    silc_notify_payload_encode type (zlen ap) ap = Some b /\
    silc_notify_payload_parse (silc_buffer_data b) (silc_buffer_len b) =
      Some (notify_of type (notify_sent 0 ap)).
Proof.
  intros Ht Hap Hn Hs. pose proof (zlen_notify_sent ap 0).
  eexists. split; [apply notify_encode_ok; done || unfold SILC_MAX_ALLOC; lia|].
  assert (El : zlen (notify_bytes type (notify_sent 0 ap)) =
               5 + zlen (enc_tlvs (notify_sent 0 ap))).
  { unfold notify_bytes, notify_header, enc_fields. cbn. zl. }
  rewrite whole_data, whole_len, notify_parse_ok by lia.
  apply dec_notify_bytes; done || lia || by apply notify_sent_ok.
Qed.

Lemma notify_roundtrip_witness :
  exists b,
    silc_notify_payload_encode 3 3 [(Some [65], 1); (None, 0); (Some [66; 67], 2)] = Some b /\
    silc_notify_payload_parse (silc_buffer_data b) (silc_buffer_len b) =
      Some (mkNotify 3 2 (Some (mkArgs 2 [Some [65; 0]; Some [66; 67; 0]] [1; 2] [1; 3] 0))).
Proof.
  apply (notify_roundtrip 3 [(Some [65], 1); (None, 0); (Some [66; 67], 2)]);
    [lia| |vm_compute; done|vm_compute; done].
  repeat constructor; vm_compute; intuition discriminate.
Defined.

(** Encoding a notify from an argument payload buffer writes what encoding
    it from the arguments does. *)
Theorem notify_encode_args_equiv (type : Z) (l : list triple) :
  l <> [] -> Forall triple_ok l -> 5 + zlen (enc_tlvs (tlv_of <$> l)) < SILC_MAX_ALLOC ->
  exists args,
    silc_argument_payload_encode (zlen l) ((fun a => a.1.1) <$> l)
      ((fun a => a.1.2) <$> l) ((fun a => a.2) <$> l) = Some args /\
    silc_notify_payload_encode_args type (zlen l) (Some args) =
      Some (whole (notify_bytes type (tlv_of <$> l))).
Proof.
  intros Hne Hl Hs. unfold SILC_MAX_ALLOC in Hs. zlen_facts. eexists.
  split; [apply encode_ok; done || unfold SILC_MAX_ALLOC; lia|].
  unfold silc_notify_payload_encode_args, notify_bytes.
  rewrite whole_len, u32_id, zlen_fmap by lia.
  by apply notify_format_ok; unfold SILC_MAX_ALLOC; lia.
Qed.

Lemma notify_encode_args_equiv_witness :
  exists args,
    silc_argument_payload_encode 1 [Some [7; 8]] [2] [1] = Some args /\
    silc_notify_payload_encode_args 4 1 (Some args) =
      Some (whole [0; 4; 0; 10; 1; 0; 2; 1; 7; 8]).
Proof.
  apply (notify_encode_args_equiv 4 [(Some [7; 8], 2, 1)]); [done| |done].
  repeat constructor; vm_compute; done.
Defined.
