(* ===== verification/Cipher.v ===== *)
(** * Cipher modes ([lib/silccrypt/aes.c], [none.c], [silccipher.c])

    The CBC and CTR modes over the AES block functions, which are the interface
    [BlockCipher], and the cipher object whose [encrypt] and [decrypt] pointers
    are these.  The clients of a cipher (message payloads) only use the
    interface [CipherOps] and its law [CipherLaws]: a message decrypted in
    steps of whole blocks comes back as it was encrypted. *)

From S2P Require Import Prelude CTypes.

(** A block of the cipher. *)
Definition block16 (x : list Z) : Prop := zlen x = 16 /\ bytes_ok x.

(** ** The block functions, with their key schedules *)

Class BlockCipher := {
  aes_encrypt : list Z -> list Z;
  aes_decrypt : list Z -> list Z
}.

Class BlockCipherOk `{BlockCipher} := {
  aes_encrypt_block x : block16 x -> block16 (aes_encrypt x);
  aes_decrypt_encrypt x : block16 x -> aes_decrypt (aes_encrypt x) = x
}.

(** ** What the message code needs of a cipher *)

(** [cipher->encrypt(context, src, dst, len, iv)]: [None] for FALSE, otherwise
    the [len] bytes written at [dst], the bytes left at [iv] and the context. *)
Class CipherOps (C : Type) := {
  cipher_block_len : Z;
  cipher_encrypt : C -> list Z -> Z -> list Z -> option (list Z * list Z * C);
  cipher_decrypt : C -> list Z -> Z -> list Z -> option (list Z * list Z * C)
}.

(** [sync c d]: the receiver's context [d] follows the sender's [c]. *)
Class CipherLaws (C : Type) `{CipherOps C} := {
  sync : C -> C -> Prop;
  iv_ok : list Z -> Prop;
  cipher_block_len_range : 0 <= cipher_block_len <= 16;
  iv_ok_len iv : iv_ok iv -> zlen iv = 16;
  cipher_roundtrip c d src iv n m :
    sync c d -> iv_ok iv -> bytes_ok src -> 0 <= n -> 0 <= m -> zlen src = n + m ->
    n mod 16 = 0 -> m mod 16 = 0 ->
    exists dst iv' c' iv1 d1 d2,
      cipher_encrypt c src (n + m) iv = Some (dst, iv', c') /\
      zlen dst = n + m /\ bytes_ok dst /\ iv_ok iv' /\ iv_ok iv1 /\ sync c' d2 /\
      cipher_decrypt d (ztake n dst) n iv = Some (ztake n src, iv1, d1) /\
      cipher_decrypt d1 (zdrop n dst) m iv1 = Some (zdrop n src, iv', d2)
}.

(** ** CBC *)

(** Word [i] of a block, and the exclusive or by words. *)
Definition word (i : Z) (l : list Z) : Z := SILC_GET32_MSB (zdrop (4 * i) l).

Definition xor_block (a b : list Z) : list Z :=
  SILC_PUT32_MSB (Z.lxor (word 0 a) (word 0 b)) ++
  SILC_PUT32_MSB (Z.lxor (word 1 a) (word 1 b)) ++
  SILC_PUT32_MSB (Z.lxor (word 2 a) (word 2 b)) ++
  SILC_PUT32_MSB (Z.lxor (word 3 a) (word 3 b)).

Section CBC.
Context `{BlockCipher}.

(** [while (nb--)]; returns the bytes written and the IV. *)
Fixpoint cbc_encrypt_loop (nb : nat) (src iv : list Z) : list Z * list Z :=
  match nb with
  | O => ([], iv)
  | S nb =>
      let iv := aes_encrypt (xor_block iv src) in
      let '(dst, iv') := cbc_encrypt_loop nb (zdrop 16 src) iv in
      (iv ++ dst, iv')
  end.

Definition silc_aes_cbc_encrypt (src : list Z) (len : Z) (iv : list Z)
    : option (list Z * list Z) :=
  if negb (Z.land len (16 - 1) =? 0) then None
  else Some (cbc_encrypt_loop (Z.to_nat (Z.shiftr len 4)) src iv).

Fixpoint cbc_decrypt_loop (nb : nat) (src iv : list Z) : list Z * list Z :=
  match nb with
  | O => ([], iv)
  | S nb =>
      let tmp := ztake 16 src in
      let dst := xor_block (aes_decrypt tmp) iv in
      let '(dst', iv') := cbc_decrypt_loop nb (zdrop 16 src) tmp in
      (dst ++ dst', iv')
  end.

Definition silc_aes_cbc_decrypt (src : list Z) (len : Z) (iv : list Z)
    : option (list Z * list Z) :=
  if negb (Z.land len (16 - 1) =? 0) then None
  else Some (cbc_decrypt_loop (Z.to_nat (Z.shiftr len 4)) src iv).
End CBC.

(** ** CTR *)

(** The part of [AesContext] the mode keeps: [inf.b[2]] and [pad]. *)
Record CtrContext := mkCtr { ctr_b2 : Z; ctr_pad : list Z }.

(** [for (k = 15; k >= 0; k--) if (++iv[k]) break;]: adds one to the counter,
    here on the reversed block. *)
Fixpoint ctr_inc_rev (iv : list Z) : list Z :=
  match iv with
  | [] => []
  | b :: iv => let b := u8 (b + 1) in if negb (b =? 0) then b :: iv else b :: ctr_inc_rev iv
  end.

Definition ctr_inc (iv : list Z) : list Z := reverse (ctr_inc_rev (reverse iv)).

Section CTR.
Context `{BlockCipher}.

(** The next byte of [pad], refilled from the counter when it is used up. *)
Definition ctr_next (st : Z * list Z * list Z) : Z * (Z * list Z * list Z) :=
  let '(i, pad, iv) := st in
  let '(i, pad, iv) :=
    if i =? 16 then let iv := ctr_inc iv in (0, aes_encrypt iv, iv) else (i, pad, iv) in
  (znth pad i, (i + 1, pad, iv)).

(** [while (len-- > 0)]. *)
Fixpoint ctr_loop (src : list Z) (st : Z * list Z * list Z)
    : list Z * (Z * list Z * list Z) :=
  match src with
  | [] => ([], st)
  | x :: src =>
      let '(k, st) := ctr_next st in
      let '(dst, st) := ctr_loop src st in
      (u8 (Z.lxor x k) :: dst, st)
  end.

Definition silc_aes_ctr_set_iv (c : CtrContext) : CtrContext := mkCtr 0 (ctr_pad c).

Definition silc_aes_ctr_encrypt (c : CtrContext) (src : list Z) (len : Z) (iv : list Z)
    : option (list Z * list Z * CtrContext) :=
  let i := if ctr_b2 c =? 0 then 16 else ctr_b2 c in
  let '(dst, (i, pad, iv)) := ctr_loop (ztake len src) (i, ctr_pad c, iv) in
  Some (dst, iv, mkCtr (u8 i) pad).

Definition silc_aes_ctr_decrypt : CtrContext -> list Z -> Z -> list Z ->
    option (list Z * list Z * CtrContext) := silc_aes_ctr_encrypt.
End CTR.

(** ** None *)

Definition silc_none_encrypt (src : list Z) (len : Z) (iv : list Z)
    : option (list Z * list Z) := Some (ztake len src, iv).
Definition silc_none_decrypt (src : list Z) (len : Z) (iv : list Z)
    : option (list Z * list Z) := Some (ztake len src, iv).

(** ** The cipher object *)

(** [struct SilcCipherStruct]: the context and the IV kept with it. *)
Record SilcCipher (C : Type) := mkCipher { context : C; c_iv : list Z }.
Arguments mkCipher {C}.
Arguments context {C}.
Arguments c_iv {C}.

Section Object.
Context {C : Type} `{CipherOps C}.

(** The functions see [len] bytes at [src].  [iv] is [None] for NULL, the
    cipher's own.  Returns the bytes at [dst], the
    cipher, and the caller's IV if there is one. *)
Definition silc_cipher_encrypt (cipher : SilcCipher C) (src : list Z) (len : Z)
    (iv : option (list Z)) : option (list Z * SilcCipher C * option (list Z)) :=
  match cipher_encrypt (context cipher) (ztake len src) len (default (c_iv cipher) iv) with
  | None => None
  | Some (dst, iv', c) =>
      Some match iv with
           | Some _ => (dst, mkCipher c (c_iv cipher), Some iv')
           | None => (dst, mkCipher c iv', None)
           end
  end.

Definition silc_cipher_decrypt (cipher : SilcCipher C) (src : list Z) (len : Z)
    (iv : option (list Z)) : option (list Z * SilcCipher C * option (list Z)) :=
  match cipher_decrypt (context cipher) (ztake len src) len (default (c_iv cipher) iv) with
  | None => None
  | Some (dst, iv', c) =>
      Some match iv with
           | Some _ => (dst, mkCipher c (c_iv cipher), Some iv')
           | None => (dst, mkCipher c iv', None)
           end
  end.

Definition silc_cipher_get_block_len (cipher : SilcCipher C) : Z := cipher_block_len.
Definition silc_cipher_get_iv (cipher : SilcCipher C) : list Z := c_iv cipher.
End Object.

(** The entries of [silc_default_ciphers]. *)
#[export] Instance aes_cbc_cipher `{BlockCipher} : CipherOps unit := {|
  cipher_block_len := 16;
  cipher_encrypt := fun c src len iv =>
    (fun r => (r.1, r.2, c)) <$> silc_aes_cbc_encrypt src len iv;
  cipher_decrypt := fun c src len iv =>
    (fun r => (r.1, r.2, c)) <$> silc_aes_cbc_decrypt src len iv
|}.

#[export] Instance aes_ctr_cipher `{BlockCipher} : CipherOps CtrContext := {|
  cipher_block_len := 16;
  cipher_encrypt := silc_aes_ctr_encrypt;
  cipher_decrypt := silc_aes_ctr_decrypt
|}.

Definition none_cipher : CipherOps unit := {|
  cipher_block_len := 0;
  cipher_encrypt := fun c src len iv =>
    (fun r => (r.1, r.2, c)) <$> silc_none_encrypt src len iv;
  cipher_decrypt := fun c src len iv =>
    (fun r => (r.1, r.2, c)) <$> silc_none_decrypt src len iv
|}.

(** ** CBC is invertible *)

Lemma put32_word l i :
  bytes_ok l -> 0 <= i -> 4 * i + 4 <= zlen l -> SILC_PUT32_MSB (word i l) = zslice (4 * i) 4 l.
Proof.
  intros Hl Hi Hn. unfold word, zslice.
  assert (Hd : bytes_ok (zdrop (4 * i) l)) by by apply Forall_drop.
  assert (Hz : 4 <= zlen (zdrop (4 * i) l)) by (rewrite zlen_drop; lia).
  destruct (zdrop (4 * i) l) as [|a [|b [|c [|d k]]]]; rewrite ?zlen_cons, ?zlen_nil in Hz;
    try lia. unfold bytes_ok in Hd. rewrite !list.Forall_cons in Hd. destruct Hd as (?&?&?&?&_).
  rewrite get32_cons, !u8_id by done. unfold SILC_PUT32_MSB.
  rewrite !Z.shiftr_div_pow2 by lia.
  change (2 ^ 24) with 16777216. change (2 ^ 16) with 65536. change (2 ^ 8) with 256.
  change (ztake 4 (a :: b :: c :: d :: k)) with [a; b; c; d].
  repeat f_equal; warith.
Qed.

Lemma block_words l :
  block16 l ->
  SILC_PUT32_MSB (word 0 l) ++ SILC_PUT32_MSB (word 1 l) ++
  SILC_PUT32_MSB (word 2 l) ++ SILC_PUT32_MSB (word 3 l) = l.
Proof.
  intros [Hl Hb]. rewrite !put32_word by (done || lia). unfold zslice.
  rewrite (zdrop_0 (4 * 0)) by lia.
  rewrite <- (ztake_drop (4 * 1) l) at 5. f_equal.
  rewrite <- (ztake_drop 4 (zdrop (4 * 1) l)) at 2. f_equal.
  rewrite zdrop_zdrop by lia. change (4 * 1 + 4) with (4 * 2).
  rewrite <- (ztake_drop 4 (zdrop (4 * 2) l)) at 2. f_equal.
  rewrite zdrop_zdrop by lia. change (4 * 2 + 4) with (4 * 3).
  apply ztake_ge. rewrite zlen_drop; lia.
Qed.

Lemma lxor_range a b :
  0 <= a < 4294967296 -> 0 <= b < 4294967296 -> 0 <= Z.lxor a b < 4294967296.
Proof.
  intros Ha Hb. assert (0 <= Z.lxor a b) by (apply Z.lxor_nonneg; lia). split; [done|].
  change 4294967296 with (2 ^ 32) in *.
  destruct (Z.eq_dec (Z.lxor a b) 0) as [->|Hn]; [lia|].
  apply Z.log2_lt_pow2; [lia|]. eapply Z.le_lt_trans; [by apply Z.log2_lxor; lia|].
  apply Z.max_lub_lt.
  - destruct (Z.eq_dec a 0) as [->|]; [done|]. apply Z.log2_lt_pow2; lia.
  - destruct (Z.eq_dec b 0) as [->|]; [done|]. apply Z.log2_lt_pow2; lia.
Qed.

Lemma word_range i l : 0 <= word i l < 4294967296.
Proof. apply get32_range. Qed.

Lemma xor_block_block a b : block16 (xor_block a b).
Proof.
  split; [unfold xor_block; rewrite !zlen_app, !zlen_put32; lia|].
  unfold xor_block, bytes_ok. repeat apply Forall_app_2; apply put32_bytes.
Qed.

Lemma word_xor_block i a b :
  0 <= i <= 3 -> word i (xor_block a b) = Z.lxor (word i a) (word i b).
Proof.
  intros Hi. assert (G : forall x r, 0 <= x < 4294967296 ->
    SILC_GET32_MSB (SILC_PUT32_MSB x ++ r) = x).
  { intros x r Hx. rewrite get32_put32. by apply u32_id. }
  assert (R : forall j, 0 <= Z.lxor (word j a) (word j b) < 4294967296)
    by (intros; apply lxor_range; apply word_range).
  unfold word at 1, xor_block.
  assert (Ci : i = 0 \/ i = 1 \/ i = 2 \/ i = 3) by lia.
  destruct Ci as [-> | [-> | [-> | ->]]].
  - rewrite zdrop_0 by lia. by apply G.
  - change (4 * 1) with 4. rewrite zdrop_app_exact by done. by apply G.
  - change (4 * 2) with 8. rewrite app_assoc, zdrop_app_exact by done. by apply G.
  - change (4 * 3) with 12. rewrite 2!app_assoc, zdrop_app_exact by done.
    rewrite <- (app_nil_r (SILC_PUT32_MSB _)). by apply G.
Qed.

(** [xor_block] undoes itself, from either side. *)
Lemma xor_block_cancel a b : block16 b -> xor_block (xor_block a b) a = b.
Proof.
  intros Hb. unfold xor_block at 1. rewrite !word_xor_block by lia.
  assert (E : forall j, Z.lxor (Z.lxor (word j a) (word j b)) (word j a) = word j b).
  { intros j. rewrite Z.lxor_comm, <- Z.lxor_assoc, Z.lxor_nilpotent. apply Z.lxor_0_l. }
  rewrite !E. by apply block_words.
Qed.

(** Only the first block of the source is read. *)
Lemma xor_block_take iv src : 16 <= zlen src -> xor_block iv (ztake 16 src) = xor_block iv src.
Proof.
  intros Hs. unfold xor_block.
  assert (W : forall i, 0 <= i <= 3 -> word i (ztake 16 src) = word i src).
  { intros i Hi. unfold word. rewrite <- (ztake_drop 16 src) at 2.
    rewrite zdrop_app_l by (rewrite zlen_take; lia).
    by rewrite get32_app by (rewrite zlen_drop, zlen_take by (rewrite ?zlen_take; lia); lia). }
  by rewrite !W by lia.
Qed.

Section CBCProofs.
Context `{BlockCipherOk}.

Lemma cbc_loops nb : forall src iv,
  block16 iv -> bytes_ok src -> zlen src = 16 * Z.of_nat nb ->
  let '(dst, iv') := cbc_encrypt_loop nb src iv in
  zlen dst = zlen src /\ bytes_ok dst /\ block16 iv' /\
  cbc_decrypt_loop nb dst iv = (src, iv').
Proof.
  induction nb as [|nb IH]; intros src iv Hiv Hb Hl; cbn [cbc_encrypt_loop cbc_decrypt_loop].
  { assert (src = []) as -> by (apply zlen_zero_nil; lia). done. }
  pose proof (aes_encrypt_block _ (xor_block_block iv src)) as He.
  set (e := aes_encrypt _) in *. specialize (IH (zdrop 16 src) e He).
  destruct (cbc_encrypt_loop nb (zdrop 16 src) e) as [dst iv'].
  destruct IH as (IH1 & IH2 & IH3 & IH4);
    [by apply Forall_drop|rewrite zlen_drop; lia|].
  destruct He as [Hel Heb]. rewrite zlen_drop in IH1 by lia. rewrite zlen_app.
  split; [lia|]. split; [by apply Forall_app_2|]. split; [done|].
  rewrite ztake_app_exact, zdrop_app_exact by done. rewrite IH4. f_equal.
  unfold e. rewrite aes_decrypt_encrypt by apply xor_block_block.
  rewrite <- (xor_block_take iv src) by lia. rewrite xor_block_cancel; [apply ztake_drop|].
  split; [apply zlen_take; lia|by apply Forall_take].
Qed.

Lemma cbc_decrypt_app n m : forall dst iv,
  16 * Z.of_nat n <= zlen dst ->
  cbc_decrypt_loop (n + m) dst iv =
  let '(p, iv1) := cbc_decrypt_loop n (ztake (16 * Z.of_nat n) dst) iv in
  let '(q, iv2) := cbc_decrypt_loop m (zdrop (16 * Z.of_nat n) dst) iv1 in
  (p ++ q, iv2).
Proof.
  induction n as [|n IH]; intros dst iv Hl; cbn [Nat.add cbc_decrypt_loop].
  - rewrite zdrop_0 by lia. by destruct (cbc_decrypt_loop m dst iv).
  - rewrite IH by (rewrite zlen_drop; lia).
    rewrite ztake_ztake by lia. rewrite ztake_zdrop by lia.
    replace (16 + 16 * Z.of_nat n) with (16 * Z.of_nat (S n)) by lia.
    rewrite zdrop_zdrop by lia.
    replace (16 + 16 * Z.of_nat n) with (16 * Z.of_nat (S n)) by lia.
    destruct (cbc_decrypt_loop n _ _) as [p iv1].
    destruct (cbc_decrypt_loop m _ _) as [q iv2]. by rewrite <- app_assoc.
Qed.

Lemma cbc_decrypt_len nb : forall src iv,
  zlen (cbc_decrypt_loop nb src iv).1 = 16 * Z.of_nat nb.
Proof.
  induction nb as [|nb IH]; intros src iv; cbn [cbc_decrypt_loop]; [done|].
  specialize (IH (zdrop 16 src) (ztake 16 src)).
  destruct (cbc_decrypt_loop nb _ _) as [p q]. cbn [fst] in *.
  destruct (xor_block_block (aes_decrypt (ztake 16 src)) iv) as [E _].
  rewrite zlen_app, E, IH. lia.
Qed.

Lemma cbc_decrypt_iv nb : forall src iv,
  block16 iv -> bytes_ok src -> 16 * Z.of_nat nb <= zlen src ->
  block16 (cbc_decrypt_loop nb src iv).2.
Proof.
  induction nb as [|nb IH]; intros src iv Hiv Hb Hl; cbn [cbc_decrypt_loop]; [done|].
  specialize (IH (zdrop 16 src) (ztake 16 src)).
  destruct (cbc_decrypt_loop nb _ _) as [p q]. apply IH.
  - split; [apply zlen_take; lia|by apply Forall_take].
  - by apply Forall_drop.
  - rewrite zlen_drop; lia.
Qed.

(** Whole blocks pass the length check. *)
Lemma blocks_of n : 0 <= n -> n mod 16 = 0 ->
  (Z.land n (16 - 1) =? 0) = true /\ n = 16 * Z.of_nat (Z.to_nat (Z.shiftr n 4)).
Proof.
  intros Hn Hm. change (16 - 1) with (Z.ones 4). rewrite Z.land_ones by lia.
  change (2 ^ 4) with 16. rewrite Hm, Z.shiftr_div_pow2 by lia. change (2 ^ 4) with 16.
  split; [done|]. rewrite Z2Nat.id by (apply Z.div_pos; lia).
  pose proof (Z_div_mod_eq_full n 16). lia.
Qed.

#[export] Instance aes_cbc_laws : CipherLaws unit.
Proof.
  refine {| sync := fun _ _ => True; iv_ok := block16 |};
    [cbn; lia|by intros iv []|].
  intros [] [] src iv n m _ Hiv Hb Hn Hm Hl Hn16 Hm16.
  cbn [cipher_encrypt cipher_decrypt aes_cbc_cipher].
  destruct (blocks_of n Hn Hn16) as [Cn En]. destruct (blocks_of m Hm Hm16) as [Cm Em].
  destruct (blocks_of (n + m)) as [Cnm Enm]; [lia|by rewrite Z.add_mod, Hn16, Hm16 by done|].
  unfold silc_aes_cbc_encrypt, silc_aes_cbc_decrypt. rewrite Cnm, Cn, Cm. cbn [negb].
  set (bn := Z.to_nat (Z.shiftr n 4)) in *. set (bm := Z.to_nat (Z.shiftr m 4)) in *.
  assert (E : Z.to_nat (Z.shiftr (n + m) 4) = (bn + bm)%nat) by lia. rewrite E.
  pose proof (cbc_loops (bn + bm) src iv Hiv Hb ltac:(lia)) as L.
  destruct (cbc_encrypt_loop (bn + bm) src iv) as [dst iv'].
  destruct L as (L1 & L2 & L3 & L4).
  rewrite cbc_decrypt_app in L4 by lia. rewrite <- En in L4.
  pose proof (cbc_decrypt_len bn (ztake n dst) iv) as Lp.
  pose proof (cbc_decrypt_iv bn (ztake n dst) iv Hiv (Forall_take _ _ _ L2)) as Li.
  rewrite zlen_take in Li by lia. specialize (Li ltac:(lia)).
  destruct (cbc_decrypt_loop bn (ztake n dst) iv) as [p iv1] eqn:Ep. cbn [fst snd] in *.
  destruct (cbc_decrypt_loop bm (zdrop n dst) iv1) as [q iv2] eqn:Eq.
  injection L4 as <- <-.
  eexists dst, iv2, (), iv1, (), (). rewrite Ep, Eq. cbn.
  rewrite ztake_app_exact, zdrop_app_exact by lia. rewrite <- Hl. done.
Defined.
End CBCProofs.

(** ** CTR is a stream *)

Section CTRProofs.
Context `{BlockCipher}.

(** Adding the key stream twice gives the byte back. *)
Lemma u8_lxor_twice x k : 0 <= x < 256 -> u8 (Z.lxor (u8 (Z.lxor x k)) k) = x.
Proof.
  intros Hx. rewrite <- (u8_id x Hx) at 2. unfold u8. change 256 with (2 ^ 8).
  apply Z.bits_inj'. intros i Hi. destruct (Z.lt_ge_cases i 8).
  - rewrite Z.mod_pow2_bits_low, Z.lxor_spec, !Z.mod_pow2_bits_low, Z.lxor_spec by lia.
    by destruct (Z.testbit x i), (Z.testbit k i).
  - by rewrite !Z.mod_pow2_bits_high by lia.
Qed.

Lemma ctr_loop_app x : forall y st,
  ctr_loop (x ++ y) st =
  let '(p, st1) := ctr_loop x st in
  let '(q, st2) := ctr_loop y st1 in (p ++ q, st2).
Proof.
  induction x as [|b x IH]; intros y st; cbn [app ctr_loop]; [by destruct (ctr_loop y st)|].
  destruct (ctr_next st) as [k st'].
  rewrite IH. destruct (ctr_loop x st') as [p st1]. by destruct (ctr_loop y st1).
Qed.

(** The loop on its own output gives the input back. *)
Lemma ctr_loop_twice x : forall st,
  bytes_ok x ->
  let '(p, st') := ctr_loop x st in
  zlen p = zlen x /\ bytes_ok p /\ ctr_loop p st = (x, st').
Proof.
  induction x as [|b x IH]; intros st Hx; cbn [ctr_loop]; [done|].
  apply list.Forall_cons in Hx as [Hb Hx].
  destruct (ctr_next st) as [k st1] eqn:Ek. specialize (IH st1 Hx).
  destruct (ctr_loop x st1) as [p st2]. destruct IH as (I1 & I2 & I3).
  rewrite !zlen_cons, I1. split; [done|]. split; [constructor; [apply u8_range|done]|].
  cbn [ctr_loop]. by rewrite Ek, I3, u8_lxor_twice.
Qed.

(** The index stays inside the pad, and is never 0 between calls. *)
Lemma ctr_loop_index x : forall i pad iv,
  1 <= i <= 16 -> 1 <= (ctr_loop x (i, pad, iv)).2.1.1 <= 16.
Proof.
  induction x as [|b x IH]; intros i pad iv Hi; cbn [ctr_loop ctr_next]; [done|].
  destruct (Z.eqb_spec i 16).
  - specialize (IH (0 + 1) (aes_encrypt (ctr_inc iv)) (ctr_inc iv) ltac:(lia)).
    by destruct (ctr_loop x _) as [p [[? ?] ?]].
  - specialize (IH (i + 1) pad iv ltac:(lia)).
    by destruct (ctr_loop x _) as [p [[? ?] ?]].
Qed.

(** Counting does not change the length of the counter. *)
Lemma ctr_inc_rev_len iv : zlen (ctr_inc_rev iv) = zlen iv.
Proof.
  induction iv as [|b iv IH]; cbn [ctr_inc_rev]; [done|].
  case_match; rewrite !zlen_cons; [done|]. by rewrite IH.
Qed.

Lemma zlen_reverse (l : list Z) : zlen (reverse l) = zlen l.
Proof. unfold zlen. by rewrite length_reverse. Qed.

Lemma ctr_inc_len iv : zlen (ctr_inc iv) = zlen iv.
Proof. unfold ctr_inc. by rewrite zlen_reverse, ctr_inc_rev_len, zlen_reverse. Qed.

Lemma ctr_loop_iv x : forall i pad iv, zlen (ctr_loop x (i, pad, iv)).2.2 = zlen iv.
Proof.
  induction x as [|b x IH]; intros i pad iv; cbn [ctr_loop ctr_next]; [done|].
  destruct (i =? 16).
  - specialize (IH (0 + 1) (aes_encrypt (ctr_inc iv)) (ctr_inc iv)).
    rewrite ctr_inc_len in IH. by destruct (ctr_loop x _) as [p [[? ?] ?]].
  - specialize (IH (i + 1) pad iv). by destruct (ctr_loop x _) as [p [[? ?] ?]].
Qed.

Definition ctr_index (c : CtrContext) : Z := if ctr_b2 c =? 0 then 16 else ctr_b2 c.
Definition ctr_ok (c : CtrContext) : Prop := 0 <= ctr_b2 c <= 16.

(** One call, and the context it leaves. *)
Lemma ctr_call c x n iv :
  ctr_ok c -> zlen x = n ->
  exists p c' iv',
    silc_aes_ctr_encrypt c x n iv = Some (p, iv', c') /\ 1 <= ctr_b2 c' <= 16 /\
    zlen iv' = zlen iv /\
    ctr_loop x (ctr_index c, ctr_pad c, iv) = (p, (ctr_index c', ctr_pad c', iv')).
Proof.
  unfold ctr_ok. intros Hc Hx. unfold silc_aes_ctr_encrypt. rewrite ztake_ge by lia.
  fold (ctr_index c). assert (Hi : 1 <= ctr_index c <= 16).
  { unfold ctr_index. destruct (Z.eqb_spec (ctr_b2 c) 0); lia. }
  pose proof (ctr_loop_index x (ctr_index c) (ctr_pad c) iv Hi) as Hr.
  pose proof (ctr_loop_iv x (ctr_index c) (ctr_pad c) iv) as Hv.
  destruct (ctr_loop x _) as [p [[i pad] iv']]. cbn [fst snd] in Hr.
  eexists p, _, iv'. split; [done|]. cbn [ctr_b2 ctr_pad]. rewrite u8_id by lia.
  split; [lia|]. split; [done|]. unfold ctr_index at 1; cbn [ctr_b2].
  by destruct (Z.eqb_spec i 0); [lia|].
Qed.

(** Between calls the context is determined by index and pad. *)
Lemma ctr_ctx_eq c d :
  1 <= ctr_b2 c <= 16 -> 1 <= ctr_b2 d <= 16 ->
  ctr_index c = ctr_index d -> ctr_pad c = ctr_pad d -> c = d.
Proof.
  destruct c as [b p], d as [b' p']; unfold ctr_index; cbn. intros ? ? E ->.
  by rewrite !(proj2 (Z.eqb_neq _ 0)) in E by lia; subst.
Qed.

(** What is encrypted in one call is decrypted in two. *)
Lemma ctr_roundtrip c src iv n m :
  ctr_ok c -> bytes_ok src -> 0 <= n -> 0 <= m -> zlen src = n + m ->
  exists dst iv' c' iv1 d1,
    silc_aes_ctr_encrypt c src (n + m) iv = Some (dst, iv', c') /\
    zlen dst = n + m /\ bytes_ok dst /\ ctr_ok c' /\ zlen iv' = zlen iv /\ zlen iv1 = zlen iv /\
    silc_aes_ctr_encrypt c (ztake n dst) n iv = Some (ztake n src, iv1, d1) /\
    silc_aes_ctr_encrypt d1 (zdrop n dst) m iv1 = Some (zdrop n src, iv', c').
Proof.
  intros Hc Hb Hn Hm Hl.
  destruct (ctr_call c src (n + m) iv Hc Hl) as (p & c' & iv' & E & Hc' & Hv & L).
  pose proof (ctr_loop_twice src (ctr_index c, ctr_pad c, iv) Hb) as T. rewrite L in T.
  destruct T as (T1 & T2 & T3). rewrite <- (ztake_drop n p), ctr_loop_app in T3.
  destruct (ctr_call c (ztake n p) n iv Hc) as (q1 & d1 & iv1 & E1 & Hd1 & Hv1 & L1);
    [apply zlen_take; lia|]. rewrite L1 in T3.
  assert (Hd1' : ctr_ok d1) by (unfold ctr_ok; lia).
  destruct (ctr_call d1 (zdrop n p) m iv1 Hd1') as (q2 & d2 & iv2 & E2 & Hd2 & Hv2 & L2);
    [rewrite zlen_drop; lia|]. rewrite L2 in T3.
  injection T3 as T3 Ti Tp Tv. subst iv2.
  assert (c' = d2) as <- by by apply ctr_ctx_eq.
  assert (Hq1 : zlen q1 = n).
  { pose proof (ctr_loop_twice (ztake n p) (ctr_index c, ctr_pad c, iv)) as U.
    rewrite L1 in U. destruct U as [U _]; [by apply Forall_take|].
    rewrite U. apply zlen_take. lia. }
  exists p, iv', c', iv1, d1. rewrite E, E1, E2, <- T3.
  rewrite ztake_app_exact, zdrop_app_exact by done.
  split; [done|]. split; [lia|]. split; [done|]. split; [unfold ctr_ok; lia|].
  split; [lia|]. split; [lia|done].
Qed.

#[export] Instance aes_ctr_laws : CipherLaws CtrContext.
Proof.
  refine {| sync := fun c d => c = d /\ ctr_ok c; iv_ok := fun iv => zlen iv = 16 |};
    [cbn; lia|done|].
  intros c d src iv n m [<- Hc] Hiv Hb Hn Hm Hl _ _.
  destruct (ctr_roundtrip c src iv n m Hc Hb Hn Hm Hl)
    as (dst & iv' & c' & iv1 & d1 & E & El & Eb & Hc' & Hv & Hv1 & E1 & E2).
  rewrite Hiv in Hv, Hv1. by exists dst, iv', c', iv1, d1, c'.
Defined.
End CTRProofs.

(** ** Properties *)

(** A block function to evaluate the modes on: each byte flipped, and the
    halves swapped. *)
Definition toy_block (x : list Z) : list Z :=
  (fun b => Z.lxor b 90) <$> (zdrop 8 x ++ ztake 8 x).
#[local] Instance toy : BlockCipher := {| aes_encrypt := toy_block; aes_decrypt := toy_block |}.

Lemma lxor_byte a b : 0 <= a < 256 -> 0 <= b < 256 -> 0 <= Z.lxor a b < 256.
Proof.
  intros Ha Hb. assert (Hn : 0 <= Z.lxor a b) by (apply Z.lxor_nonneg; lia). split; [done|].
  change 256 with (2 ^ 8) in *. destruct (Z.eq_dec (Z.lxor a b) 0) as [->|]; [lia|].
  apply Z.log2_lt_pow2; [lia|]. eapply Z.le_lt_trans; [by apply Z.log2_lxor; lia|].
  apply Z.max_lub_lt.
  - destruct (Z.eq_dec a 0) as [->|]; [done|]. apply Z.log2_lt_pow2; lia.
  - destruct (Z.eq_dec b 0) as [->|]; [done|]. apply Z.log2_lt_pow2; lia.
Qed.

#[local] Instance toy_ok : BlockCipherOk.
Proof.
  split; cbn; unfold toy_block.
  - intros x [Hl Hb]. split.
    + rewrite zlen_fmap, zlen_app, zlen_drop, zlen_take by lia. lia.
    + apply Forall_fmap, Forall_app_2; (eapply Forall_impl;
        [|by (apply Forall_drop || apply Forall_take)]; intros b Hb'; by apply lxor_byte).
  - intros x [Hl Hb]. assert (L : zlen (zdrop 8 x) = 8) by (rewrite zlen_drop; lia).
    rewrite !fmap_app. set (f := fun b => Z.lxor b 90).
    rewrite zdrop_app_exact, ztake_app_exact by by rewrite zlen_fmap.
    rewrite <- !list_fmap_compose, <- fmap_app, ztake_drop.
    rewrite <- (list_fmap_id x) at 2. apply list_fmap_ext. intros _ b _. unfold compose, f.
    by rewrite Z.lxor_assoc, Z.lxor_nilpotent, Z.lxor_0_r.
Defined.

(** CBC decryption inverts CBC encryption for every source of whole blocks,
    leaving the same IV for the next call, and both refuse any other length. *)
Theorem cbc_roundtrip `{BlockCipherOk} (src iv : list Z) (len : Z) :
  block16 iv -> bytes_ok src -> zlen src = len ->
  if len mod 16 =? 0 then
    exists dst iv',
      silc_aes_cbc_encrypt src len iv = Some (dst, iv') /\ zlen dst = len /\ block16 iv' /\
      silc_aes_cbc_decrypt dst len iv = Some (src, iv')
  else silc_aes_cbc_encrypt src len iv = None /\ silc_aes_cbc_decrypt src len iv = None.
Proof.
  intros Hiv Hb <-. zlen_facts. unfold silc_aes_cbc_encrypt, silc_aes_cbc_decrypt.
  destruct (Z.eqb_spec (zlen src mod 16) 0) as [E|E].
  - destruct (blocks_of (zlen src)) as [-> En]; [done..|]. cbn [negb].
    pose proof (cbc_loops _ src iv Hiv Hb En) as L.
    destruct (cbc_encrypt_loop _ src iv) as [dst iv']. destruct L as (L1 & _ & L3 & L4).
    exists dst, iv'. by rewrite L4.
  - change (16 - 1) with (Z.ones 4). rewrite Z.land_ones by lia. change (2 ^ 4) with 16.
    by rewrite (proj2 (Z.eqb_neq _ _)).
Qed.

Lemma cbc_roundtrip_witness :
  let src := zeros 16 ++ [1;2;3;4;5;6;7;8;9;10;11;12;13;14;15;16] in
  exists dst iv',
    silc_aes_cbc_encrypt src 32 (zeros 16) = Some (dst, iv') /\ zlen dst = 32 /\ block16 iv' /\
    silc_aes_cbc_decrypt dst 32 (zeros 16) = Some (src, iv').
Proof.
  apply (cbc_roundtrip (zeros 16 ++ [1;2;3;4;5;6;7;8;9;10;11;12;13;14;15;16]) (zeros 16) 32).
  - split; [done|]. repeat constructor; vm_compute; done.
  - repeat constructor; vm_compute; done.
  - done.
Defined.

(** CTR is a stream cipher: from equal contexts, what one call encrypts is
    decrypted by two calls of any lengths, and both sides end in the same
    state. *)
Theorem ctr_stream `{BlockCipher} (c : CtrContext) (src iv : list Z) (n m : Z) :
  ctr_ok c -> bytes_ok src -> 0 <= n -> 0 <= m -> zlen src = n + m ->
  exists dst iv' c' iv1 d1,
    silc_aes_ctr_encrypt c src (n + m) iv = Some (dst, iv', c') /\ zlen dst = n + m /\
    silc_aes_ctr_decrypt c (ztake n dst) n iv = Some (ztake n src, iv1, d1) /\
    silc_aes_ctr_decrypt d1 (zdrop n dst) m iv1 = Some (zdrop n src, iv', c').
Proof.
  intros Hc Hb Hn Hm Hl. destruct (ctr_roundtrip c src iv n m Hc Hb Hn Hm Hl)
    as (dst & iv' & c' & iv1 & d1 & E & El & _ & _ & _ & _ & E1 & E2).
  by exists dst, iv', c', iv1, d1.
Qed.

Lemma ctr_stream_witness :
  exists dst iv' c' iv1 d1,
    silc_aes_ctr_encrypt (mkCtr 0 []) [1;2;3;4;5] 5 (zeros 16) = Some (dst, iv', c') /\
    zlen dst = 5 /\
    silc_aes_ctr_decrypt (mkCtr 0 []) (ztake 2 dst) 2 (zeros 16) = Some ([1; 2], iv1, d1) /\
    silc_aes_ctr_decrypt d1 (zdrop 2 dst) 3 iv1 = Some ([3; 4; 5], iv', c').
Proof.
  apply (ctr_stream (mkCtr 0 []) [1;2;3;4;5] (zeros 16) 2 3); try done.
  repeat constructor; vm_compute; done.
Defined.
