(* ===== verification/Hmac.v ===== *)
(** * Hash objects and HMAC ([lib/silccrypt/silchash.c], [silchmac.c])

    The hash functions are the interface [HashOps], whose law says that the
    digest depends on the concatenation of the updates only.  The HMAC object
    is modelled over it and shown to be the HMAC construction of RFC 2104,
    truncated to the length of the HMAC. *)

From S2P Require Import Prelude CTypes Memory.

Definition SILC_HASH_MAXLEN : Z := 64.

(** The function pointers of a hash object; [H] is its context. *)
Class HashOps (H : Type) := {
  hash_len : Z;
  hash_block_len : Z;
  hash_init : H -> H;
  hash_update : H -> list Z -> H;
  hash_final : H -> H * list Z
}.

(** Data whose length, and what the hash functions add to it, fits the
    [SilcUInt32] it is passed with. *)
Definition hashable (x : list Z) : Prop := zlen x <= 4294967232.

Class HashLaws (H : Type) `{HashOps H} := {
  digest : list Z -> list Z;
  hash_lens : 0 < hash_len <= hash_block_len /\ hash_block_len <= 64;
  digest_len x : zlen (digest x) = hash_len;
  hash_spec c l : Forall hashable l ->
    (hash_final (foldl hash_update (hash_init c) l)).2 = digest (concat l)
}.

Section Hash.
Context {H : Type} `{HashOps H}.

Definition silc_hash_init (hash : H) : H := hash_init hash.
Definition silc_hash_update (hash : H) (data : list Z) (data_len : Z) : H :=
  hash_update hash (ztake data_len data).
Definition silc_hash_final (hash : H) : H * list Z := hash_final hash.
Definition silc_hash_len (hash : H) : Z := hash_len.
Definition silc_hash_block_len (hash : H) : Z := hash_block_len.

Definition silc_hash_make (hash : H) (data : list Z) (len : Z) : H * list Z :=
  let hash := silc_hash_init hash in
  let hash := silc_hash_update hash data len in
  silc_hash_final hash.

(** ** The HMAC object *)

(** [struct SilcHmacStruct]; [len] is [hmac->len] of the HMAC's entry. *)
Record SilcHmac := mkHmac {
  hm_len : Z;
  hm_hash : H;
  inner_pad : list Z;
  outer_pad : list Z;
  hm_key : option (list Z);
  key_len : Z
}.

(** [for (i = 0; i < n; i++) pad[i] ^= c;]. *)
Definition xor_pad (c n : Z) (pad : list Z) : list Z :=
  ((fun b => u8 (Z.lxor b c)) <$> ztake n pad) ++ zdrop n pad.

Definition silc_hmac_init_internal (hmac : SilcHmac) (key : list Z) (n : Z) : SilcHmac :=
  let hash := hm_hash hmac in
  let block_len := silc_hash_block_len hash in
  let '(hash, key, n) :=
    if block_len <? n then
      let '(hash, hvalue) := silc_hash_make hash key n in
      (hash, hvalue, silc_hash_len hash)
    else (hash, key, n) in
  let inner := splice 0 (ztake n key) (zeros 64) in
  let outer := splice 0 (ztake n key) (zeros 64) in
  mkHmac (hm_len hmac) hash (xor_pad 54 block_len inner) (xor_pad 92 block_len outer)
    (hm_key hmac) (key_len hmac).

Definition silc_hmac_len (hmac : SilcHmac) : Z := hm_len hmac.
Definition silc_hmac_get_hash (hmac : SilcHmac) : H := hm_hash hmac.

(** When the copy cannot be made the length of the old key stays. *)
Definition silc_hmac_set_key (hmac : SilcHmac) (key : list Z) (n : Z) : SilcHmac :=
  match silc_malloc n with
  | None => mkHmac (hm_len hmac) (hm_hash hmac) (inner_pad hmac) (outer_pad hmac) None
              (key_len hmac)
  | Some k => mkHmac (hm_len hmac) (hm_hash hmac) (inner_pad hmac) (outer_pad hmac)
                (Some (splice 0 (ztake n key) k)) n
  end.

Definition silc_hmac_get_key (hmac : SilcHmac) : option (list Z) * Z :=
  (hm_key hmac, key_len hmac).

Definition set_hash (hmac : SilcHmac) (hash : H) : SilcHmac :=
  mkHmac (hm_len hmac) hash (inner_pad hmac) (outer_pad hmac) (hm_key hmac) (key_len hmac).

Definition silc_hmac_init_with_key (hmac : SilcHmac) (key : list Z) (n : Z) : SilcHmac :=
  let hmac := silc_hmac_init_internal hmac key n in
  let hash := silc_hash_init (hm_hash hmac) in
  set_hash hmac (silc_hash_update hash (inner_pad hmac) (silc_hash_block_len hash)).

Definition silc_hmac_init (hmac : SilcHmac) : SilcHmac :=
  silc_hmac_init_with_key hmac (default [] (hm_key hmac)) (key_len hmac).

Definition silc_hmac_update (hmac : SilcHmac) (data : list Z) (data_len : Z) : SilcHmac :=
  set_hash hmac (silc_hash_update (hm_hash hmac) data data_len).

(** The bytes written at [return_hash]; [*return_len] is their number. *)
Definition silc_hmac_final (hmac : SilcHmac) : SilcHmac * list Z :=
  let hash := hm_hash hmac in
  let '(hash, mac) := silc_hash_final hash in
  let hash := silc_hash_init hash in
  let hash := silc_hash_update hash (outer_pad hmac) (silc_hash_block_len hash) in
  let hash := silc_hash_update hash mac (silc_hash_len hash) in
  let '(hash, mac) := silc_hash_final hash in
  (set_hash hmac hash, ztake (hm_len hmac) mac).

Definition silc_hmac_make (hmac : SilcHmac) (data : list Z) (data_len : Z)
    : SilcHmac * list Z :=
  silc_hmac_final (silc_hmac_update (silc_hmac_init hmac) data data_len).

Definition silc_hmac_make_with_key (hmac : SilcHmac) (data : list Z) (data_len : Z)
    (key : list Z) (n : Z) : SilcHmac * list Z :=
  silc_hmac_final (silc_hmac_update (silc_hmac_init_with_key hmac key n) data data_len).

(** [hvalue] is what the uninitialised array on the stack holds; [return_hash]
    the caller's buffer before the call. *)
Definition silc_hmac_make_truncated (hvalue : list Z) (hmac : SilcHmac) (data : list Z)
    (data_len truncated_len : Z) (return_hash : list Z) : SilcHmac * list Z :=
  let '(hmac, mac) := silc_hmac_final (silc_hmac_update (silc_hmac_init hmac) data data_len) in
  let return_hash := splice 0 mac return_hash in
  (hmac, splice 0 (ztake truncated_len hvalue) return_hash).
End Hash.
Arguments SilcHmac H : clear implicits.

(** ** HMAC as RFC 2104 defines it *)

Section Spec.
Context {H : Type} `{HashLaws H}.

Definition hmac_key0 (key : list Z) : list Z :=
  if hash_block_len <? zlen key then digest key else key.

Definition hmac_pad (c : Z) (key : list Z) : list Z :=
  (fun b => u8 (Z.lxor b c)) <$> (hmac_key0 key ++ zeros (hash_block_len - zlen (hmac_key0 key))).

Definition hmac_spec (len : Z) (key data : list Z) : list Z :=
  ztake len (digest (hmac_pad 92 key ++ digest (hmac_pad 54 key ++ data))).

Lemma hmac_key0_len key : zlen (hmac_key0 key) <= hash_block_len.
Proof.
  unfold hmac_key0. destruct (Z.ltb_spec hash_block_len (zlen key)); [|done].
  rewrite digest_len. apply hash_lens.
Qed.

Lemma hmac_pad_len c key : zlen (hmac_pad c key) = hash_block_len.
Proof.
  pose proof (hmac_key0_len key). unfold hmac_pad.
  rewrite zlen_fmap, zlen_app, zlen_zeros; lia.
Qed.

Lemma hmac_pad_hashable c key : hashable (hmac_pad c key).
Proof. unfold hashable. rewrite hmac_pad_len. pose proof hash_lens. lia. Qed.

Lemma digest_hashable x : hashable (digest x).
Proof. unfold hashable. rewrite digest_len. pose proof hash_lens. lia. Qed.

Lemma hashable_le x n : zlen x <= n -> n <= 4294967232 -> hashable x.
Proof. unfold hashable. lia. Qed.

Lemma hash_make_ok c data :
  hashable data -> (silc_hash_make c data (zlen data)).2 = digest data.
Proof.
  intros Hd.
  unfold silc_hash_make, silc_hash_final, silc_hash_update, silc_hash_init.
  rewrite ztake_ge by lia. pose proof (hash_spec c [data]) as E. cbn [foldl concat] in E.
  by rewrite app_nil_r in E; apply E; repeat constructor.
Qed.

(** The pads the code leaves in its 64-byte arrays. *)
Lemma xor_pad_ok c key :
  ztake hash_block_len (xor_pad c hash_block_len (splice 0 (hmac_key0 key) (zeros 64))) =
  hmac_pad c key.
Proof.
  pose proof (hmac_key0_len key). pose proof hash_lens as [? ?]. zlen_facts.
  unfold xor_pad, hmac_pad. set (k := hmac_key0 key) in *.
  rewrite ztake_app_exact.
  - f_equal. unfold splice. rewrite (ztake_0 0) by lia. cbn [app].
    rewrite ztake_app_r by lia. f_equal. rewrite Z.add_0_l.
    assert (E : zeros 64 = zeros (zlen k) ++ zeros (hash_block_len - zlen k) ++
                           zeros (64 - hash_block_len)).
    { rewrite <- !zeros_app by lia. f_equal. lia. }
    rewrite E, zdrop_app_exact by (rewrite zlen_zeros; lia).
    apply ztake_app_exact. rewrite zlen_zeros; lia.
  - rewrite zlen_fmap, zlen_take; [done|]. rewrite zlen_splice_max; rewrite ?zlen_zeros; lia.
Qed.

(** Initialisation, with a key as long as announced. *)
Lemma hmac_init_pads (hmac : SilcHmac H) key :
  hashable key ->
  let h := silc_hmac_init_internal hmac key (zlen key) in
  ztake hash_block_len (inner_pad h) = hmac_pad 54 key /\
  ztake hash_block_len (outer_pad h) = hmac_pad 92 key /\ hm_len h = hm_len hmac.
Proof.
  intros Hd. cbn zeta. unfold silc_hmac_init_internal, silc_hash_block_len, silc_hash_len.
  rewrite <- !xor_pad_ok. unfold hmac_key0.
  destruct (hash_block_len <? zlen key).
  - pose proof (hash_make_ok (hm_hash hmac) key Hd) as E.
    destruct (silc_hash_make _ key _) as [h v]. cbn [snd] in E. subst v.
    cbn [inner_pad outer_pad hm_len]. by rewrite (ztake_ge _ (digest key)) by (rewrite digest_len; lia).
  - cbn [inner_pad outer_pad hm_len]. by rewrite (ztake_ge _ key) by lia.
Qed.

Definition hmac_updates (hmac : SilcHmac H) (l : list (list Z)) : SilcHmac H :=
  foldl (fun h data => silc_hmac_update h data (zlen data)) hmac l.

Lemma hmac_updates_hash l : forall hmac,
  hmac_updates hmac l = set_hash hmac (foldl hash_update (hm_hash hmac) l).
Proof.
  unfold hmac_updates. induction l as [|x l IH]; intros hmac; cbn; [by destruct hmac|].
  rewrite IH. unfold silc_hmac_update, silc_hash_update; cbn. by rewrite ztake_ge by lia.
Qed.

(** One computation, with any number of updates. *)
Lemma hmac_run (hmac : SilcHmac H) key l :
  hashable key -> Forall hashable l ->
  (silc_hmac_final (hmac_updates (silc_hmac_init_with_key hmac key (zlen key)) l)).2 =
  hmac_spec (hm_len hmac) key (concat l).
Proof.
  intros Hd Hl. rewrite hmac_updates_hash. unfold silc_hmac_init_with_key.
  destruct (hmac_init_pads hmac key Hd) as (E1 & E2 & E3).
  set (h := silc_hmac_init_internal _ _ _) in *. clearbody h.
  unfold silc_hmac_final, silc_hash_final, silc_hash_update, silc_hash_init,
    silc_hash_block_len, silc_hash_len, set_hash;
    cbn [hm_hash outer_pad hm_len inner_pad hm_key key_len].
  rewrite E1, E2, E3. pose proof (hash_spec (hm_hash h) (hmac_pad 54 key :: l)
    (List.Forall_cons _ _ _ (hmac_pad_hashable 54 key) Hl)) as S1.
  cbn [foldl concat] in S1. set (c := foldl _ _ l) in *. clearbody c.
  destruct (hash_final c) as [c' mac]. cbn [snd] in S1. subst mac.
  set (m := digest (hmac_pad 54 key ++ concat l)).
  rewrite (ztake_ge _ m) by (unfold m; rewrite digest_len; lia).
  assert (Hm : Forall hashable [hmac_pad 92 key; m]).
  { repeat constructor; [apply hmac_pad_hashable|apply digest_hashable]. }
  pose proof (hash_spec c' [hmac_pad 92 key; m] Hm) as S2. cbn [foldl concat] in S2.
  rewrite app_nil_r in S2. destruct (hash_final _) as [c'' mac]. cbn [snd] in *. by subst mac.
Qed.

Lemma set_key_ok (hmac : SilcHmac H) key :
  0 < zlen key < SILC_MAX_ALLOC ->
  hm_key (silc_hmac_set_key hmac key (zlen key)) = Some key /\
  key_len (silc_hmac_set_key hmac key (zlen key)) = zlen key /\
  hm_len (silc_hmac_set_key hmac key (zlen key)) = hm_len hmac.
Proof.
  intros Hk. unfold silc_hmac_set_key, silc_malloc. rewrite alloc_u64 by lia.
  rewrite alloc_ok_range by done. cbn. rewrite ztake_ge by lia.
  split; [|done]. f_equal. apply splice_all. rewrite zlen_zeros; lia.
Qed.
(** The HMAC object holds this key. *)
Definition keyed (h : SilcHmac H) (key : list Z) : Prop :=
  hm_key h = Some key /\ key_len h = zlen key /\ 0 < hm_len h <= hash_len /\ hashable key.

Lemma update_take (h : SilcHmac H) data n :
  0 <= n <= zlen data ->
  silc_hmac_update h data n = silc_hmac_update h (ztake n data) (zlen (ztake n data)).
Proof.
  intros Hn. unfold silc_hmac_update, silc_hash_update. by rewrite (ztake_ge _ (ztake n data)).
Qed.

Lemma keyed_mac (h : SilcHmac H) key l :
  keyed h key -> Forall hashable l ->
  (silc_hmac_final (hmac_updates (silc_hmac_init h) l)).2 = hmac_spec (hm_len h) key (concat l).
Proof.
  intros (E1 & E2 & _ & Hd) Hl. unfold silc_hmac_init. rewrite E1, E2. cbn [from_option]. by apply hmac_run.
Qed.

Lemma hmac_spec_len n key data : 0 <= n <= hash_len -> zlen (hmac_spec n key data) = n.
Proof. intros Hn. unfold hmac_spec. apply zlen_take. by rewrite digest_len. Qed.

Lemma hmac_bytes_len (h : SilcHmac H) key x : keyed h key -> zlen (hmac_spec (hm_len h) key x) = hm_len h.
Proof. intros (_ & _ & Hr & _). apply hmac_spec_len. lia. Qed.

(** A computation leaves the key and the length. *)
Definition same_key (h h' : SilcHmac H) : Prop :=
  hm_key h' = hm_key h /\ key_len h' = key_len h /\ hm_len h' = hm_len h.

Lemma run_same_key (h : SilcHmac H) l :
  same_key h (silc_hmac_final (hmac_updates (silc_hmac_init h) l)).1.
Proof.
  rewrite hmac_updates_hash.
  unfold silc_hmac_final, silc_hmac_init, silc_hmac_init_with_key, silc_hmac_init_internal, set_hash.
  destruct (if _ <? _ then _ else _) as [[? ?] ?]. cbn.
  destruct (silc_hash_final _) as [? ?]. by destruct (silc_hash_final _).
Qed.

Lemma keyed_same (h h' : SilcHmac H) key : same_key h h' -> keyed h key -> keyed h' key.
Proof. intros (E1 & E2 & E3). unfold keyed. by rewrite E1, E2, E3. Qed.
End Spec.

(** ** Properties *)

(** A hash to evaluate the HMAC on: a 4-byte sum over a 8-byte block. *)
Definition toy_sum (x : list Z) : list Z :=
  SILC_PUT32_MSB (foldl (fun a b => u32 (a * 31 + b + 7)) 5 x).
#[local] Instance toy_hash : HashOps (list Z) := {|
  hash_len := 4;
  hash_block_len := 8;
  hash_init := fun _ => [];
  hash_update := fun c x => c ++ x;
  hash_final := fun c => (c, toy_sum c)
|}.
#[local] Instance toy_hash_laws : HashLaws (list Z).
Proof.
  refine {| digest := toy_sum |}; [cbn; lia|done|].
  intros c l _. cbn. f_equal.
  enough (E : forall a, foldl (fun c x => c ++ x) a l = a ++ concat l) by apply (E []).
  induction l as [|x l IH]; intros a; cbn; [by rewrite app_nil_r|]. by rewrite IH, <- app_assoc.
Defined.

(** C36: the HMAC object computes HMAC: after its key is set, any sequence of
    updates followed by the final call gives the RFC 2104 value of the
    concatenated data, cut to the HMAC's length, whatever state the object was
    in; and the one-call form gives the same. *)
Theorem hmac_rfc2104 {H : Type} `{HashLaws H} (hmac : SilcHmac H) (key : list Z)
    (l : list (list Z)) :
  0 < zlen key < SILC_MAX_ALLOC -> Forall hashable l -> hashable (concat l) ->
  let h := silc_hmac_set_key hmac key (zlen key) in
  (silc_hmac_final (hmac_updates (silc_hmac_init h) l)).2 =
    hmac_spec (hm_len hmac) key (concat l) /\
  (silc_hmac_make h (concat l) (zlen (concat l))).2 =
    hmac_spec (hm_len hmac) key (concat l).
Proof.
  intros Hk Hl Hc. cbn zeta. destruct (set_key_ok hmac key Hk) as (E1 & E2 & E3).
  assert (Hd : hashable key) by (revert Hk; unfold hashable, SILC_MAX_ALLOC; lia).
  set (h := silc_hmac_set_key _ _ _) in *. unfold silc_hmac_make, silc_hmac_init.
  rewrite E1, E2. cbn [default]. rewrite <- E3. split; [by apply hmac_run|].
  pose proof (hmac_run h key [concat l] Hd (List.Forall_cons _ _ _ Hc (List.Forall_nil _))) as E. cbn [concat] in E.
  by rewrite app_nil_r in E.
Qed.

Lemma hmac_rfc2104_witness :
  let h := silc_hmac_set_key (mkHmac 3 [] [] [] None 0) [1; 2; 3] 3 in
  (silc_hmac_final (hmac_updates (silc_hmac_init h) [[7]; [8; 9]])).2 =
    hmac_spec 3 [1; 2; 3] [7; 8; 9] /\
  (silc_hmac_make h [7; 8; 9] 3).2 = hmac_spec 3 [1; 2; 3] [7; 8; 9].
Proof.
  apply (hmac_rfc2104 (mkHmac 3 [] [] [] None 0) [1; 2; 3] [[7]; [8; 9]]);
    by_compute.
Defined.

(** [silc_hmac_make_truncated] does not return a MAC: the bytes it is asked
    for are those of an array it never writes, whatever the key and the
    data. *)
Theorem make_truncated_garbage {H : Type} `{HashOps H} (hvalue : list Z) (hmac : SilcHmac H)
    (data return_hash : list Z) (data_len n : Z) :
  0 <= n <= zlen hvalue ->
  ztake n (silc_hmac_make_truncated hvalue hmac data data_len n return_hash).2 = ztake n hvalue.
Proof.
  intros Hn. unfold silc_hmac_make_truncated. destruct (silc_hmac_final _) as [h mac].
  cbn [snd]. unfold splice at 1. rewrite (ztake_0 0) by lia. cbn [app].
  apply ztake_app_exact. by rewrite zlen_take.
Qed.

Lemma make_truncated_garbage_witness :
  ztake 2 (silc_hmac_make_truncated [170; 171; 172] (mkHmac 3 [] [] [] (Some [1]) 1) [7; 8]
             2 2 []).2 = [170; 171].
Proof.
  apply (make_truncated_garbage [170; 171; 172] (mkHmac 3 [] [] [] (Some [1]) 1) [7; 8] [] 2 2).
  vm_compute. split; discriminate.
Defined.
