(* ===== verification/Message.v ===== *)
(** * Message payloads ([lib/silccore/silcmessage.c])

    The payload of channel and private messages: header, data, padding, an
    optional signature, the IV and the MAC.  Ciphers, HMACs and keys are used
    through their interfaces.  Random bytes (IV, padding) are arguments. *)

From S2P Require Import Prelude CTypes Memory Buffer BuffFmt Fields Cipher Hmac.
Import Format Unformat RoundTrip Encoding.

Definition SILC_PACKET_MAX_LEN : Z := 65535.
Definition SILC_MESSAGE_FLAG_SIGNED : Z := 32.

(** [SILC_MESSAGE_PAD]. *)
Definition SILC_MESSAGE_PAD (payloadlen : Z) : Z := 16 - payloadlen mod 16.

(** What the message code uses of [silcpkcs.c]: [PK] and [SK] are public and
    private keys.  Signing is over the hash of the data. *)
Class PkcsOps (PK SK : Type) := {
  silc_pkcs_public_key_encode : PK -> option (list Z);
  silc_pkcs_public_key_get_len : PK -> Z;
  silc_pkcs_private_key_get_len : SK -> Z;
  silc_pkcs_get_type : SK -> Z;
  silc_pkcs_sign : SK -> list Z -> option (list Z);
  silc_pkcs_verify : PK -> list Z -> list Z -> bool
}.

(** A key pair: what one signs the other verifies; sizes fit the payload. *)
Class PkcsPair {PK SK : Type} `{PkcsOps PK SK} (pub : PK) (prv : SK) := {
  pkcs_verify_sign m s : silc_pkcs_sign prv m = Some s -> silc_pkcs_verify pub s m = true;
  pkcs_sign_len m s : silc_pkcs_sign prv m = Some s -> 0 < zlen s <= 2048;
  pkcs_type_range : 0 <= silc_pkcs_get_type prv < 65536
}.

(** ** Data *)

(** [struct SilcMessageSignedPayloadStruct]. *)
Record SilcMessageSignedPayload := mkSig {
  pk_data : option (list Z);
  sign_data : option (list Z);
  pk_len : Z;
  pk_type : Z;
  sign_len : Z
}.

(** [struct SilcMessagePayloadObject]. *)
Record SilcMessagePayload := mkMessage {
  m_data : option (list Z);
  m_pad : option (list Z);
  m_mac : option (list Z);
  m_sig : SilcMessageSignedPayload;
  m_flags : Z;
  m_data_len : Z;
  m_pad_len : Z;
  m_allocated : bool
}.

Definition sig_zero : SilcMessageSignedPayload := mkSig None None 0 0 0.

(** The heap blocks a message owns, for following what is freed. *)
Inductive msg_block := BData | BPad | BPk | BSign | BStruct.

Definition freed_if {A} (p : option A) (b : msg_block) : list msg_block :=
  match p with Some _ => [b] | None => [] end.

(** ** Lengths *)

Definition is_signed (flags : Z) : bool := negb (Z.land flags SILC_MESSAGE_FLAG_SIGNED =? 0).

(** The macros [SILC_MESSAGE_HLEN] and [SILC_MESSAGE_MAX_LEN] have no
    parentheses, so the maximum is [65535 - 6 + 16 - 16] when it is compared
    with, and the expression [dlen - SILC_MESSAGE_MAX_LEN] is
    [dlen - 65535 - 6 + 16 - 16]. *)
Definition fit_datalen (data_len header_len pklen prlen : Z) : Z :=
  let dlen := u32 (data_len + 6 + 16 + header_len + pklen + prlen) in
  if SILC_PACKET_MAX_LEN - 6 + 16 - 16 <? dlen
  then u32 (data_len - u32 (dlen - SILC_PACKET_MAX_LEN - 6 + 16 - 16))
  else data_len.

(** ** The signed payload *)

Definition silc_message_signed_payload_free (sig : SilcMessageSignedPayload) : list msg_block :=
  freed_if (sign_data sig) BSign ++ freed_if (pk_data sig) BPk.

(** The result, the structure filled in, and what was freed; the pointers that
    were freed stay in the structure. *)
Definition silc_message_signed_payload_parse (data : list Z) (data_len : Z)
    : bool * SilcMessageSignedPayload * list msg_block :=
  let buffer := silc_buffer_set data data_len in
  let '(buffer, ret, o) := silc_buffer_unformat buffer [U_UI16_SHORT; U_UI16_SHORT] in
  match o with
  | [VInt pk_len; VInt pk_type] =>
      if (ret =? -1) || (u32 (data_len - 4) <? pk_len)
      then (false, mkSig None None pk_len pk_type 0, [])
      else
        let buffer := (silc_buffer_pull buffer 4).1 in
        let '(buffer, ret, o) :=
          silc_buffer_unformat buffer [U_DATA_ALLOC pk_len; U_NSTRING_ALLOC UI16] in
        let sig := match o with
                   | [VPtr pk] => mkSig pk None pk_len pk_type 0
                   | [VPtr pk; VStr sign sign_len] => mkSig pk sign pk_len pk_type sign_len
                   | _ => mkSig None None pk_len pk_type 0
                   end in
        if (ret =? -1) || (u32 (silc_buffer_len buffer - pk_len - 2) <? sign_len sig)
        then (false, sig, silc_message_signed_payload_free sig)
        else if sign_len sig <? 1
        then (false, sig, silc_message_signed_payload_free sig)
        else (true, sig, [])
  | [VInt pk_len] => (false, mkSig None None pk_len 0 0, [])
  | _ => (false, sig_zero, [])
  end.

(** The data to be signed. *)
Definition silc_message_signed_encode_data (message_payload : list Z)
    (message_payload_len : Z) (pk : option (list Z)) (pk_len pk_type : Z)
    : option SilcBuffer :=
  match silc_buffer_alloc_size (u32 (message_payload_len + 4 + pk_len)) with
  | None => None
  | Some sign =>
      let sign := (silc_buffer_format sign
        [PARAM_NSTRING (Some message_payload) message_payload_len;
         PARAM_UI16_SHORT pk_len; PARAM_UI16_SHORT pk_type]).1 in
      match pk with
      | Some _ =>
          if negb (pk_len =? 0) then
            let sign := (silc_buffer_pull sign (u32 (message_payload_len + 4))).1 in
            let sign := (silc_buffer_format sign [PARAM_NSTRING pk pk_len]).1 in
            Some (silc_buffer_push sign (u32 (message_payload_len + 4))).1
          else Some sign
      | None => Some sign
      end
  end.

Section Signing.
Context {PK SK : Type} `{PkcsOps PK SK}.

(** The private key is not checked for NULL; it is 0 bits long here then. *)
Definition silc_message_payload_datalen (data_len header_len flags : Z)
    (public_key : option PK) (private_key : option SK) : Z :=
  let pklen := match public_key with
               | Some k => if is_signed flags then silc_pkcs_public_key_get_len k else 0
               | None => 0
               end in
  let prlen := match private_key with
               | Some k => if is_signed flags then silc_pkcs_private_key_get_len k / 8 else 0
               | None => 0
               end in
  fit_datalen data_len header_len pklen prlen.

(** [has_hash] is false where the hash is NULL. *)
Definition silc_message_signed_payload_encode (message_payload : list Z)
    (message_payload_len : Z) (public_key : option PK) (private_key : option SK)
    (has_hash : bool) : option SilcBuffer :=
  match private_key with
  | None => None
  | Some private_key =>
      if (message_payload_len =? 0) || negb has_hash then None
      else
        let pk := match public_key with
                  | Some k => match silc_pkcs_public_key_encode k with
                              | Some p => Some (Some p)
                              | None => None
                              end
                  | None => Some None
                  end in
        match pk with
        | None => None
        | Some pk =>
            let pk_len := match pk with Some p => zlen p | None => 0 end in
            let pk_type := silc_pkcs_get_type private_key in
            match silc_message_signed_encode_data message_payload message_payload_len
                    pk pk_len pk_type with
            | None => None
            | Some sign =>
                match silc_pkcs_sign private_key
                        (ztake (silc_buffer_len sign) (silc_buffer_data sign)) with
                | None => None
                | Some auth_data =>
                    let auth_len := zlen auth_data in
                    match silc_buffer_alloc_size (u32 (4 + pk_len + 2 + auth_len)) with
                    | None => None
                    | Some buffer =>
                        let buffer := (silc_buffer_format buffer
                          [PARAM_UI16_SHORT pk_len; PARAM_UI16_SHORT pk_type]).1 in
                        let buffer :=
                          match pk with
                          | Some _ =>
                              if negb (pk_len =? 0) then
                                let buffer := (silc_buffer_pull buffer 4).1 in
                                let buffer :=
                                  (silc_buffer_format buffer [PARAM_NSTRING pk pk_len]).1 in
                                (silc_buffer_push buffer 4).1
                              else buffer
                          | None => buffer
                          end in
                        let buffer := (silc_buffer_pull buffer (u32 (4 + pk_len))).1 in
                        let buffer := (silc_buffer_format buffer
                          [PARAM_UI16_SHORT auth_len;
                           PARAM_NSTRING (Some auth_data) auth_len]).1 in
                        Some (silc_buffer_push buffer (u32 (4 + pk_len))).1
                    end
                end
            end
        end
  end.

(** [true] for [SILC_AUTH_OK]. *)
Definition silc_message_signed_verify (message : SilcMessagePayload)
    (remote_public_key : option PK) (has_hash : bool) : bool :=
  let sig := m_sig message in
  match remote_public_key with
  | None => false
  | Some key =>
      if negb (is_signed (m_flags message)) || (sign_len sig =? 0) || negb has_hash then false
      else
        match silc_buffer_alloc_size (6 + m_data_len message + m_pad_len message) with
        | None => false
        | Some tmp =>
            let tmp := (silc_buffer_format tmp
              [PARAM_UI16_SHORT (m_flags message); PARAM_UI16_SHORT (m_data_len message);
               PARAM_NSTRING (m_data message) (m_data_len message);
               PARAM_UI16_SHORT (m_pad_len message);
               PARAM_NSTRING (m_pad message) (m_pad_len message)]).1 in
            match silc_message_signed_encode_data
                    (ztake (silc_buffer_len tmp) (silc_buffer_data tmp))
                    (silc_buffer_len tmp) (pk_data sig) (pk_len sig) (pk_type sig) with
            | None => false
            | Some sign =>
                silc_pkcs_verify key (ztake (sign_len sig) (default [] (sign_data sig)))
                  (ztake (silc_buffer_len sign) (silc_buffer_data sign))
            end
        end
  end.
End Signing.

(** ** Decryption and parsing *)

Section Parse.
Context {C H : Type} `{CipherOps C} `{HashOps H}.

(** [DecOverrun]: the block to decrypt reaches past the encrypted part, over
    the IV or MAC or the end of the packet; what the code then computes is not
    modelled. *)
Inductive dec_result := DecFail | DecOverrun | DecOk.

(** The MAC over the data and the IDs, compared with the last bytes. *)
Definition check_mac_with (hmac : SilcHmac H) (data : list Z) (data_len mac_len : Z)
    (ids : list (list Z)) : SilcHmac H * bool :=
  let hmac := silc_hmac_init hmac in
  let hmac := silc_hmac_update hmac data (data_len - mac_len) in
  let hmac := foldl (fun h id => silc_hmac_update h id (zlen id)) hmac ids in
  let '(hmac, mac) := silc_hmac_final hmac in
  (hmac, bool_decide (zslice (data_len - mac_len) mac_len data = ztake mac_len mac)).

(** Writing back an IV that points into the data. *)
Definition put_ivp (ivoff : Z) (ivp : option (list Z)) (data : list Z) : list Z :=
  match ivp with Some v => splice ivoff v data | None => data end.

(** The payload length is in the first block; then the rest is decrypted. *)
Definition decrypt_rest (data : list Z) (data_len mac_len iv_len block_len : Z)
    (cipher : SilcCipher C) (hmac : SilcHmac H) (ivp : option (list Z))
    : list Z * SilcCipher C * SilcHmac H * dec_result :=
  let ivoff := data_len - iv_len - mac_len in
  let len := SILC_GET16_MSB (zdrop 2 data) in
  let totlen := u16 (2 + (2 + len)) in
  if data_len <? totlen + iv_len + mac_len + 2 then (data, cipher, hmac, DecFail)
  else
    let totlen := u16 (totlen + 2) in
    if block_len <=? totlen then
      let n := u32 (totlen - block_len + SILC_MESSAGE_PAD totlen) in
      if ivoff <? block_len + n then (data, cipher, hmac, DecOverrun)
      else
        match silc_cipher_decrypt cipher (zdrop block_len data) n ivp with
        | None => (data, cipher, hmac, DecFail)
        | Some (dst, cipher, ivp) =>
            (put_ivp ivoff ivp (splice block_len dst data), cipher, hmac, DecOk)
        end
    else (data, cipher, hmac, DecOk).

(** Returns the data, decrypted in place as far as the code got, the cipher,
    the HMAC and the result. *)
Definition silc_message_payload_decrypt (data : list Z) (data_len : Z)
    (private_message static_key : bool) (cipher : SilcCipher C) (hmac : SilcHmac H)
    (sender_id receiver_id : list Z) (check_mac : bool)
    : list Z * SilcCipher C * SilcHmac H * dec_result :=
  let mac_len := silc_hmac_len hmac in
  let block_len := silc_cipher_get_block_len cipher in
  let iv_len := if negb private_message || (private_message && static_key)
                then block_len else 0 in
  if data_len <? u32 (mac_len + iv_len + block_len) then (data, cipher, hmac, DecFail)
  else
    let '(hmac, mac_ok) :=
      if check_mac then
        let '(hmac, ok) := check_mac_with hmac data data_len mac_len
                             [sender_id; receiver_id] in
        if ok then (hmac, true) else check_mac_with hmac data data_len mac_len []
      else (hmac, true) in
    if negb mac_ok then (data, cipher, hmac, DecFail)
    else
      let ivoff := data_len - iv_len - mac_len in
      let ivp := if iv_len =? 0 then None else Some (zslice ivoff iv_len data) in
      match silc_cipher_decrypt cipher data block_len ivp with
      | None => (data, cipher, hmac, DecFail)
      | Some (dst, cipher, ivp) =>
          decrypt_rest (put_ivp ivoff ivp (splice 0 dst data)) data_len mac_len iv_len
            block_len cipher hmac ivp
      end.

Definition silc_message_payload_free (payload : SilcMessagePayload) : list msg_block :=
  silc_message_signed_payload_free (m_sig payload) ++
  (if m_allocated payload then freed_if (m_data payload) BData else []) ++
  (if m_allocated payload then freed_if (m_pad payload) BPad ++ [BStruct] else []).

(** What a parse leaves: the pointer returned, the context filled in, the
    payload, cipher and HMAC, and the blocks freed, in order. *)
Record parse_result := mkParse {
  p_ret : option SilcMessagePayload;
  p_message : SilcMessagePayload;
  p_payload : list Z;
  p_cipher : option (SilcCipher C);
  p_hmac : option (SilcHmac H);
  p_freed : list msg_block;
  p_overrun : bool
}.

Definition message_zero (allocated : bool) : SilcMessagePayload :=
  mkMessage None None None sig_zero 0 0 0 allocated.

(** The context after the unformat, complete or not. *)
Definition message_fields (allocated : bool) (o : list uval) : SilcMessagePayload :=
  match o with
  | [VInt flags] => mkMessage None None None sig_zero flags 0 0 allocated
  | [VInt flags; VStr data data_len] =>
      mkMessage data None None sig_zero flags data_len 0 allocated
  | [VInt flags; VStr data data_len; VStr pad pad_len] =>
      mkMessage data pad None sig_zero flags data_len pad_len allocated
  | _ => message_zero allocated
  end.

Definition set_sig (m : SilcMessagePayload) (s : SilcMessageSignedPayload) : SilcMessagePayload :=
  mkMessage (m_data m) (m_pad m) (m_mac m) s (m_flags m) (m_data_len m) (m_pad_len m)
    (m_allocated m).
Definition set_mac (m : SilcMessagePayload) (mac : option (list Z)) : SilcMessagePayload :=
  mkMessage (m_data m) (m_pad m) mac (m_sig m) (m_flags m) (m_data_len m) (m_pad_len m)
    (m_allocated m).

(** After decryption.  [given] says that the caller passed a message context;
    the function then returns NULL also on success. *)
Definition parse_plain (buffer : SilcBuffer) (mac_len iv_len : Z)
    (no_allocation given : bool) : option SilcMessagePayload * SilcMessagePayload * list msg_block :=
  let allocated := negb no_allocation in
  let '(buffer, ret, o) :=
    silc_buffer_unformat buffer
      (if no_allocation then [U_UI16_SHORT; U_NSTRING UI16; U_NSTRING UI16]
       else [U_UI16_SHORT; U_NSTRING_ALLOC UI16; U_NSTRING_ALLOC UI16]) in
  let message := message_fields allocated o in
  let err message freed :=
    (None, message, freed ++ (if given then [] else silc_message_payload_free message)) in
  if ret =? -1 then err message []
  else
    let room := u32 (silc_buffer_len buffer - 6 - mac_len - iv_len) in
    if (room <? m_data_len message) || (room <? m_pad_len message + m_data_len message)
    then err message []
    else
      let after := 6 + m_data_len message + m_pad_len message in
      let '(ok, message, freed) :=
        if is_signed (m_flags message) &&
           (u32 (after + mac_len + iv_len) <? silc_buffer_len buffer) then
          let '(ok, sig, freed) :=
            silc_message_signed_payload_parse (zdrop after (silc_buffer_data buffer))
              (u32 (silc_buffer_len buffer - iv_len - mac_len - after)) in
          (ok, set_sig message sig, freed)
        else (true, message, []) in
      if negb ok then err message freed
      else
        let message :=
          if mac_len =? 0 then message
          else set_mac message
                 (Some (zdrop (silc_buffer_len buffer - mac_len) (silc_buffer_data buffer))) in
        (if given then None else Some message, message, freed).

Definition silc_message_payload_parse (payload : list Z) (payload_len : Z)
    (private_message static_key : bool) (cipher : option (SilcCipher C))
    (hmac : option (SilcHmac H)) (sender_id receiver_id : list Z)
    (no_allocation given : bool) : parse_result :=
  let buffer := silc_buffer_set payload payload_len in
  let mac_len := match hmac with Some h => silc_hmac_len h | None => 0 end in
  match cipher, hmac with
  | Some c, Some h =>
      let iv_len := if negb private_message || (private_message && static_key)
                    then silc_cipher_get_block_len c else 0 in
      let '(data, c, h, r) :=
        silc_message_payload_decrypt (silc_buffer_data buffer) (silc_buffer_len buffer)
          private_message static_key c h sender_id receiver_id true in
      let payload := splice 0 data payload in
      match r with
      | DecOk =>
          let '(ret, message, freed) :=
            parse_plain (silc_buffer_set payload payload_len) mac_len iv_len
              no_allocation given in
          mkParse ret message payload (Some c) (Some h) freed false
      | DecFail => mkParse None (message_zero false) payload (Some c) (Some h) [] false
      | DecOverrun => mkParse None (message_zero false) payload (Some c) (Some h) [] true
      end
  | Some c, None =>
      (* the HMAC is used without a check for NULL *)
      mkParse None (message_zero false) payload (Some c) None [] false
  | None, _ =>
      let '(ret, message, freed) := parse_plain buffer mac_len 0 no_allocation given in
      mkParse ret message payload None hmac freed false
  end.

Definition silc_message_get_flags (payload : SilcMessagePayload) : Z := m_flags payload.
Definition silc_message_get_data (payload : SilcMessagePayload) : option (list Z) * Z :=
  (m_data payload, m_data_len payload).
Definition silc_message_get_mac (payload : SilcMessagePayload) : option (list Z) :=
  m_mac payload.
End Parse.
Arguments parse_result C H : clear implicits.

(** ** Encoding *)

Section Encode.
Context {C H PK SK : Type} `{CipherOps C} `{HashOps H} `{PkcsOps PK SK}.

(** Encrypts [data_len] bytes of [data] in place and writes the MAC of its
    first [true_len] bytes after them. *)
Definition silc_message_payload_encrypt (data : list Z) (data_len true_len : Z)
    (iv : option (list Z)) (cipher : SilcCipher C) (hmac : SilcHmac H)
    : option (list Z * SilcCipher C * SilcHmac H) :=
  match silc_cipher_encrypt cipher data data_len iv with
  | None => None
  | Some (dst, cipher, _) =>
      let data := splice 0 dst data in
      let hmac := silc_hmac_init hmac in
      let hmac := silc_hmac_update hmac data true_len in
      let '(hmac, mac) := silc_hmac_final hmac in
      Some (splice true_len mac data, cipher, hmac)
  end.

(** [SilcMessageEncode], less the IDs, which are not used. *)
Record SilcMessageEncode := mkEncode {
  e_flags : Z;
  e_public_key : option PK;
  e_private_key : option SK;
  e_hash : bool;
  e_cipher : option (SilcCipher C);
  e_hmac : option (SilcHmac H);
  e_iv : option (list Z);
  e_payload_len : Z
}.

(** The callback that encrypts: the buffer, the result, and the cipher and
    HMAC in the context afterwards. *)
Definition encode_encrypt (e : SilcMessageEncode) (buffer : SilcBuffer)
    : SilcBuffer * Z * option (SilcCipher C) * option (SilcHmac H) :=
  match e_cipher e, e_hmac e with
  | Some c, Some h =>
      let mac_len := silc_hmac_len h in
      match silc_buffer_enlarge buffer mac_len with
      | (buffer, false) => (buffer, -1, Some c, Some h)
      | (buffer, true) =>
          match silc_message_payload_encrypt (b_mem buffer) (e_payload_len e)
                  (silc_buffer_headlen buffer) (e_iv e) c h with
          | None => (buffer, -1, Some c, Some h)
          | Some (mem, c, h) => (set_mem buffer mem, mac_len, Some c, Some h)
          end
      end
  | c, h => (buffer, 0, c, h)
  end.

Definition silc_message_payload_encode_encrypt (e : SilcMessageEncode) (buffer : SilcBuffer)
    : SilcBuffer * Z := (encode_encrypt e buffer).1.1.

(** The callback that signs. *)
Definition silc_message_payload_encode_sig (e : SilcMessageEncode) (buffer : SilcBuffer)
    : SilcBuffer * Z :=
  if negb (is_signed (e_flags e)) then (buffer, 0)
  else
    match silc_message_signed_payload_encode (b_mem buffer) (silc_buffer_headlen buffer)
            (e_public_key e) (e_private_key e) (e_hash e) with
    | None => (buffer, -1)
    | Some sig =>
        let '(buffer, len) :=
          silc_buffer_format buffer
            [PARAM_NSTRING (Some (silc_buffer_data sig)) (silc_buffer_len sig)] in
        if len <? 0 then (buffer, -1) else (buffer, len)
    end.

(** [iv] and [pad] are the 16-byte arrays with the random bytes in them (as
    the stack left them where none are generated).  Returns the buffer, and the
    cipher and HMAC as the encrypting callback leaves them: it runs on the
    buffer the format has when it reaches it. *)
Definition silc_message_payload_encode (flags : Z) (data : list Z) (data_len : Z)
    (generate_iv private_message : bool) (cipher : option (SilcCipher C))
    (hmac : option (SilcHmac H)) (iv pad : list Z) (public_key : option PK)
    (private_key : option SK) (has_hash : bool) (buffer : option SilcBuffer)
    : option SilcBuffer * option (SilcCipher C) * option (SilcHmac H) :=
  if data_len =? 0 then (None, cipher, hmac)
  else if negb private_message && (negb (bool_decide (is_Some cipher)) ||
                                   negb (bool_decide (is_Some hmac)))
  then (None, cipher, hmac)
  else
    match match buffer with Some b => Some b | None => silc_buffer_alloc 0 end with
    | None => (None, cipher, hmac)
    | Some buffer =>
        let buffer := silc_buffer_reset buffer in
        let generate_iv := if negb private_message && negb generate_iv then true
                           else generate_iv in
        let iv_len := match cipher with
                      | Some c => if generate_iv then silc_cipher_get_block_len c else 0
                      | None => 0
                      end in
        let mac_len := match hmac with Some h => silc_hmac_len h | None => 0 end in
        let data_len := silc_message_payload_datalen data_len (u32 (mac_len + iv_len)) flags
                          public_key private_key in
        let pad_len := SILC_MESSAGE_PAD (u32 (6 + data_len)) in
        let e := mkEncode flags public_key private_key has_hash cipher hmac
                   (if iv_len =? 0 then None else Some iv) (u16 (6 + data_len + pad_len)) in
        let before := [PARAM_UI16_SHORT flags; PARAM_UI16_SHORT data_len;
                       PARAM_NSTRING (Some data) data_len; PARAM_UI16_SHORT pad_len;
                       PARAM_NSTRING (Some pad) pad_len;
                       PARAM_FUNC (silc_message_payload_encode_sig e);
                       PARAM_NSTRING (Some iv) iv_len] in
        let '(buffer', ret) :=
          silc_buffer_format buffer
            (before ++ [PARAM_FUNC (silc_message_payload_encode_encrypt e)]) in
        let '(cipher, hmac) :=
          match format_loop (mkFmt buffer 0 false) before with
          | (s, true) => ((encode_encrypt e (dst s)).1.2, (encode_encrypt e (dst s)).2)
          | (_, false) => (cipher, hmac)
          end in
        if ret <? 0 then (None, cipher, hmac) else (Some buffer', cipher, hmac)
    end.
End Encode.
Arguments SilcMessageEncode C H PK SK : clear implicits.
