(* ===== verification/MessageSpec.v ===== *)
(** * What the message payload code does

    The bytes the encoder of [Message.v] writes, that the parser reads them
    back, signed or not, encrypted or not, and where the code does not do what
    it means to. *)

From S2P Require Import Prelude CTypes Memory Buffer BuffFmt Fields Cipher Hmac Message.
Import Format Unformat RoundTrip Encoding.

(** ** The bytes of a message *)

Definition msg_fields : list field := [F16; FS16; FS16].
Definition msg_plain (flags : Z) (data pad : list Z) : list Z :=
  enc_fields msg_fields [FInt flags; FStr data; FStr pad].

(** The signed payload: public key, its type, signature. *)
Definition sig_bytes (pk : list Z) (type : Z) (s : list Z) : list Z :=
  SILC_PUT16_MSB (zlen pk) ++ SILC_PUT16_MSB type ++ pk ++ SILC_PUT16_MSB (zlen s) ++ s.

Definition sig_of (pk : list Z) (type : Z) (s : list Z) : SilcMessageSignedPayload :=
  mkSig (block pk) (block s) (zlen pk) type (zlen s).

Lemma zlen_msg_plain flags data pad :
  zlen (msg_plain flags data pad) = 6 + zlen data + zlen pad.
Proof. unfold msg_plain, enc_fields. cbn. zl. Qed.

Lemma zlen_sig_bytes pk type s : zlen (sig_bytes pk type s) = 6 + zlen pk + zlen s.
Proof. unfold sig_bytes. rewrite !zlen_app, !zlen_put16. lia. Qed.

Lemma pad_range n : 1 <= SILC_MESSAGE_PAD n <= 16.
Proof. unfold SILC_MESSAGE_PAD. pose proof (Z.mod_pos_bound n 16). lia. Qed.

Lemma pad_blocks n : (n + SILC_MESSAGE_PAD n) mod 16 = 0.
Proof.
  unfold SILC_MESSAGE_PAD. replace (n + (16 - n mod 16)) with ((n / 16 + 1) * 16).
  - apply Z.mod_mul. lia.
  - pose proof (Z_div_mod_eq_full n 16). lia.
Qed.

(** ** The signed payload *)

Lemma signed_parse_bytes pk type s :
  zlen pk < 65536 -> 0 <= type < 65536 -> zlen s < 65536 ->
  forall rest, silc_message_signed_payload_parse (sig_bytes pk type s ++ rest)
    (zlen (sig_bytes pk type s)) =
  (if zlen s <? 1
   then (false, sig_of pk type s, silc_message_signed_payload_free (sig_of pk type s))
   else (true, sig_of pk type s, [])).
Proof.
  intros Hpk Ht Hs rest. pose proof (zlen_sig_bytes pk type s) as El. zlen_facts.
  unfold silc_message_signed_payload_parse, silc_buffer_set.
  rewrite ztake_app_exact by done.
  set (bytes := sig_bytes pk type s) in *.
  replace (mkBuffer bytes 0 (zlen bytes)) with (of_areas [] bytes [])
    by (unfold of_areas; cbn; by rewrite app_nil_r).
  pose proof (unformat_fields [] bytes [F16; F16] ltac:(zl) ltac:(by repeat constructor)) as U.
  change (uf_of <$> [F16; F16]) with [U_UI16_SHORT; U_UI16_SHORT] in U.
  set (tl := pk ++ SILC_PUT16_MSB (zlen s) ++ s).
  assert (Eb : bytes = enc_fields [F16; F16] [FInt (zlen pk); FInt type] ++ tl)
    by (unfold bytes, sig_bytes, tl, enc_fields; cbn; by rewrite ?app_nil_r, <- ?app_assoc).
  assert (Ed : dec_fields [F16; F16] bytes = Some ([FInt (zlen pk); FInt type], tl))
    by (rewrite Eb; apply dec_enc_fields; repeat constructor; cbn; lia).
  rewrite Ed in U.
  destruct U as [-> ->]. cbn [uvals_of zip_with uval_of orb].
  assert (Etl : zlen tl = 2 + zlen pk + zlen s)
    by (unfold tl; rewrite !zlen_app, zlen_put16; lia).
  rewrite u32_id, (proj2 (Z.ltb_ge _ _)) by lia.
  rewrite Eb. set (hd := enc_fields [F16; F16] _) in *.
  assert (Hhd : zlen hd = 4) by done. clearbody hd. rewrite <- Hhd.
  rewrite pull_areas by (rewrite Etl, ?zlen_nil; lia). cbn [fst app].
  pose proof (unformat_fields hd tl [FD (zlen pk); FS16] ltac:(lia)
    ltac:(repeat constructor; cbn; lia)) as V.
  change (uf_of <$> [FD (zlen pk); FS16])
    with [U_DATA_ALLOC (zlen pk); U_NSTRING_ALLOC UI16] in V.
  assert (Ev : dec_fields [FD (zlen pk); FS16] tl = Some ([FStr pk; FStr s], [])).
  { pose proof (dec_enc_fields [FD (zlen pk); FS16] [FStr pk; FStr s] []) as D.
    unfold enc_fields in D; cbn [zip_with concat enc_field] in D.
    rewrite !app_nil_r in D. apply D. repeat constructor; cbn; lia. }
  rewrite Ev in V. destruct V as [-> ->]. cbn [uvals_of zip_with uval_of sign_len orb].
  rewrite of_areas_len, Etl, u32_id by (rewrite ?Etl, ?zlen_nil; lia).
  rewrite (proj2 (Z.ltb_ge (2 + zlen pk + zlen s - zlen pk - 2) _)) by lia.
  by destruct (zlen s <? 1).
Qed.

Lemma signed_parse_ok pk type s :
  zlen pk < 65536 -> 0 <= type < 65536 -> 0 < zlen s < 65536 ->
  forall rest, silc_message_signed_payload_parse (sig_bytes pk type s ++ rest)
    (zlen (sig_bytes pk type s)) = (true, sig_of pk type s, []).
Proof.
  intros Hpk Ht Hs rest. rewrite signed_parse_bytes by lia.
  by rewrite (proj2 (Z.ltb_ge _ _)) by lia.
Qed.

(** A pointer to the bytes [x], NULL only for none. *)
Definition points_to (p : option (list Z)) (x : list Z) : Prop :=
  match p with Some y => exists r, y = x ++ r | None => x = [] end.

Lemma points_to_block x : points_to (block x) x.
Proof. unfold block. case_decide; [done|]. by exists [0]. Qed.

Lemma points_to_arg p x :
  points_to p x ->
  data_arg (PARAM_NSTRING p (zlen x)) /\ enc_arg (PARAM_NSTRING p (zlen x)) = x.
Proof.
  destruct p as [y|]; cbn; [|by intros ->]. intros [r ->].
  split; [zl|by apply ztake_app_exact].
Qed.

(** The buffer [silc_message_signed_encode_data] builds. *)
Lemma signed_data_ok mp payload p pk type :
  zlen payload + zlen pk < 1000000000 -> points_to (Some mp) payload -> points_to p pk ->
  silc_message_signed_encode_data mp (zlen payload) p (zlen pk) type =
  Some (whole (payload ++ SILC_PUT16_MSB (zlen pk) ++ SILC_PUT16_MSB type ++ pk)).
Proof.
  intros Hs Hmp Hp. destruct (points_to_arg p pk Hp) as [Hd Hx].
  destruct (points_to_arg (Some mp) payload Hmp) as [Hd' Hx'].
  zlen_facts. unfold silc_message_signed_encode_data.
  rewrite u32_id, alloc_size_areas by (unfold SILC_MAX_ALLOC; lia).
  fold (whole (zeros (zlen payload + 4 + zlen pk))). rewrite zeros_app by lia.
  set (ap := [PARAM_NSTRING (Some mp) (zlen payload); PARAM_UI16_SHORT (zlen pk);
              PARAM_UI16_SHORT type]).
  assert (Ea : enc_args ap = payload ++ SILC_PUT16_MSB (zlen pk) ++ SILC_PUT16_MSB type).
  { unfold ap. rewrite !enc_args_cons, Hx'; cbn [enc_arg]. by rewrite app_nil_r. }
  assert (El : zlen (enc_args ap) = zlen payload + 4)
    by (rewrite Ea, !zlen_app, !zlen_put16; lia).
  rewrite format_front; cycle 1.
  { unfold ap. constructor; [done|]. by repeat constructor. }
  { rewrite El, zlen_zeros; lia. }
  { rewrite !zlen_zeros by lia. unfold SILC_MAX_ALLOC. lia. }
  cbn [fst]. destruct p as [y|]; [destruct (Z.eqb_spec (zlen pk) 0) as [E|E]; cbn [negb]|].
  - apply zlen_zero_nil in E as ->. rewrite Ea. cbn. by rewrite !app_nil_r.
  - rewrite u32_id, <- El by lia.
    rewrite (format_rest (enc_args ap) (zeros (zlen pk)) [PARAM_NSTRING (Some y) (zlen pk)]).
    + rewrite enc_args_cons, app_nil_r, Hx, Ea. by rewrite <- !app_assoc.
    + by constructor.
    + rewrite enc_args_cons, app_nil_r, zlen_zeros, Hx by lia. done.
    + rewrite El, zlen_zeros by lia. unfold SILC_MAX_ALLOC. lia.
  - cbn in Hp. subst pk. rewrite Ea. cbn. by rewrite !app_nil_r.
Qed.

Section Signed.
Context {PK SK : Type} `{PkcsOps PK SK}.

(** What is signed. *)
Definition to_sign (payload pk : list Z) (type : Z) : list Z :=
  payload ++ SILC_PUT16_MSB (zlen pk) ++ SILC_PUT16_MSB type ++ pk.

Lemma points_to_self x : points_to (Some x) x.
Proof. exists []. by rewrite app_nil_r. Qed.

Lemma signed_encode_ok mp payload pub prv pk s :
  points_to (Some mp) payload -> 0 < zlen payload -> zlen payload + zlen pk < 1000000000 ->
  silc_pkcs_public_key_encode pub = Some pk -> zlen s <= 2048 ->
  silc_pkcs_sign prv (to_sign payload pk (silc_pkcs_get_type prv)) = Some s ->
  silc_message_signed_payload_encode mp (zlen payload) (Some pub) (Some prv) true =
  Some (whole (sig_bytes pk (silc_pkcs_get_type prv) s)).
Proof.
  intros Hmp Hp Hn Hpk Hs Hsign. zlen_facts. unfold silc_message_signed_payload_encode.
  rewrite (proj2 (Z.eqb_neq _ _)), Hpk by lia. cbn [orb negb].
  rewrite (signed_data_ok mp payload) by (done || lia || apply points_to_self). fold (to_sign payload pk (silc_pkcs_get_type prv)).
  assert (El : zlen (to_sign payload pk (silc_pkcs_get_type prv)) = zlen payload + 4 + zlen pk)
    by (unfold to_sign; rewrite !zlen_app, !zlen_put16; lia).
  rewrite whole_data, whole_len, ztake_ge, Hsign by lia.
  rewrite (u32_id (4 + zlen pk + 2 + zlen s)), alloc_size_areas
    by (unfold SILC_MAX_ALLOC; lia).
  fold (whole (zeros (4 + zlen pk + 2 + zlen s))).
  replace (4 + zlen pk + 2 + zlen s) with (4 + (zlen pk + (2 + zlen s))) by lia.
  rewrite (zeros_app 4), (zeros_app (zlen pk)) by lia.
  set (type := silc_pkcs_get_type prv).
  assert (Z1 : zlen (zeros (zlen pk)) = zlen pk) by (apply zlen_zeros; lia).
  assert (Z2 : zlen (zeros (2 + zlen s)) = 2 + zlen s) by (apply zlen_zeros; lia).
  rewrite format_front; [|by repeat constructor|done
    |rewrite zlen_app, Z1, Z2, zlen_zeros by lia; unfold SILC_MAX_ALLOC; lia].
  cbn [fst]. set (hd := enc_args _). assert (Hhd : zlen hd = 4) by done.
  assert (Emid : (if negb (zlen pk =? 0)
    then (silc_buffer_push (silc_buffer_format
           (silc_buffer_pull (whole (hd ++ zeros (zlen pk) ++ zeros (2 + zlen s))) 4).1
           [PARAM_NSTRING (Some pk) (zlen pk)]).1 4).1
    else whole (hd ++ zeros (zlen pk) ++ zeros (2 + zlen s))) =
    whole ((hd ++ pk) ++ zeros (2 + zlen s))).
  { destruct (Z.eqb_spec (zlen pk) 0) as [E|E]; cbn [negb].
    - apply zlen_zero_nil in E as ->. by rewrite app_nil_r.
    - assert (Ep : enc_args [PARAM_NSTRING (Some pk) (zlen pk)] = pk)
        by (rewrite enc_args_cons, app_nil_r; cbn [enc_arg]; by rewrite ztake_ge).
      rewrite <- Hhd. rewrite format_mid; rewrite ?Ep, ?Z1, ?Z2; try done.
      + constructor; [cbn; lia|done].
      + unfold SILC_MAX_ALLOC. lia. }
  rewrite Emid. assert (Eh : zlen (hd ++ pk) = 4 + zlen pk) by (rewrite zlen_app; lia).
  rewrite u32_id, <- Eh by lia.
  rewrite format_rest; cycle 1.
  { repeat constructor; cbn; lia. }
  { rewrite !enc_args_cons, app_nil_r, zlen_app, Z2; cbn [enc_arg].
    by rewrite ztake_ge. }
  { rewrite Eh, Z2. unfold SILC_MAX_ALLOC. lia. }
  rewrite !enc_args_cons, app_nil_r; cbn [enc_arg]. rewrite ztake_ge by lia.
  reflexivity.
Qed.

(** Verification of a message with these fields rebuilds what was signed. *)
Lemma verify_ok pub flags data pad mac sig alloc pk type s :
  is_signed flags = true -> zlen data < 65536 -> zlen pad < 65536 -> zlen pk < 65536 ->
  0 < zlen s -> sig = sig_of pk type s ->
  silc_message_signed_verify
    (mkMessage (block data) (block pad) mac sig flags (zlen data) (zlen pad) alloc)
    (Some pub) true =
  silc_pkcs_verify pub s (to_sign (msg_plain flags data pad) pk type).
Proof.
  intros Hf Hd Hp Hpk Hs ->. zlen_facts. unfold silc_message_signed_verify, sig_of.
  cbn [m_sig m_flags m_data m_data_len m_pad m_pad_len sign_len pk_data pk_len pk_type sign_data].
  rewrite Hf, (proj2 (Z.eqb_neq _ _)) by lia. cbn [negb orb].
  rewrite alloc_size_areas by (unfold SILC_MAX_ALLOC; lia).
  fold (whole (zeros (6 + zlen data + zlen pad))).
  assert (B : forall x, data_arg (PARAM_NSTRING (block x) (zlen x)) /\
    enc_arg (PARAM_NSTRING (block x) (zlen x)) = x)
    by (intros; apply points_to_arg, points_to_block).
  set (ap := [PARAM_UI16_SHORT flags; _; _; _; _]).
  assert (Ea : enc_args ap = msg_plain flags data pad).
  { unfold ap. rewrite !enc_args_cons, !(proj2 (B _)). unfold msg_plain, enc_fields. cbn.
    by rewrite ?app_nil_r, <- ?app_assoc. }
  pose proof (zlen_msg_plain flags data pad) as El.
  rewrite format_whole; rewrite ?Ea, ?El; try (unfold SILC_MAX_ALLOC; lia).
  2: { unfold ap. repeat constructor; apply B. }
  cbn [fst]. rewrite whole_data, whole_len, ztake_ge by lia.
  set (plain := msg_plain flags data pad) in *.
  rewrite (signed_data_ok plain plain) by (lia || done || apply points_to_block || apply points_to_self).
  fold (to_sign plain pk type).
  assert (Et : zlen (to_sign plain pk type) = zlen plain + 4 + zlen pk)
    by (unfold to_sign; rewrite !zlen_app, !zlen_put16; lia).
  rewrite whole_data, whole_len, (ztake_ge _ (to_sign plain pk type)) by lia.
  unfold block. rewrite decide_False by (intros ->; done). cbn [from_option]; unfold id.
  by rewrite ztake_app_exact.
Qed.
End Signed.

(** ** Formatting at the end of a buffer, with callbacks *)

Lemma format_loop_app ap rest : forall s,
  format_loop s (ap ++ rest) = fbind (format_loop s ap) (fun s => format_loop s rest).
Proof.
  induction ap as [|a ap IH]; intros s; cbn [app format_loop]; [done|].
  unfold fbind at 1 3. destruct (format_arg s a) as [s' []]; cbn [fst snd]; [apply IH|done].
Qed.

(** Sizes that stay inside one allocation and an [int]. *)
Definition small (h t : list Z) (n : Z) : Prop :=
  zlen h + zlen t < SILC_MAX_ALLOC /\ zlen h + n < SILC_MAX_ALLOC.

(** Sizes of areas built by concatenation. *)
Ltac sizes :=
  unfold small, SILC_MAX_ALLOC in *; rewrite ?zlen_app, ?zlen_nil; zlen_facts; lia.

Lemma loop_data ap rest h t f adv :
  Forall data_arg ap -> small h t (zlen (enc_args ap)) -> 0 <= f <= zlen h ->
  format_loop (mkFmt (of_areas h [] t) f adv) (ap ++ rest) =
  format_loop (mkFmt (of_areas (h ++ enc_args ap) [] (zdrop (zlen (enc_args ap)) t))
                 (f + zlen (enc_args ap)) adv) rest.
Proof.
  intros Hap [H1 H2] Hf. rewrite format_loop_app.
  rewrite format_loop_areas by (try done; unfold fits; rewrite ?zlen_nil; lia).
  unfold fbind, written; cbn [fst snd]. by rewrite zdrop_nil, zlen_nil, Z.sub_0_r.
Qed.

Lemma loop_func g rest h h' x t t' f adv :
  g (of_areas h [] t) = (of_areas h' x t', zlen x) -> 0 <= f <= zlen h ->
  small h' t' (zlen x) -> zlen h' + zlen x + zlen t' < 2147483648 -> zlen h' = zlen h ->
  format_loop (mkFmt (of_areas h [] t) f adv) (PARAM_FUNC g :: rest) =
  format_loop (mkFmt (of_areas (h' ++ x) [] t') (f + zlen x) adv) rest.
Proof.
  intros Hg Hf [H1 H2] H3 H4. unfold SILC_MAX_ALLOC in *. zlen_facts.
  cbn [format_loop format_arg dst]. rewrite Hg. unfold set_dst; cbn [flen advance].
  rewrite (proj2 (Z.ltb_ge _ _)) by lia.
  destruct (Z.eqb_spec (zlen x) 0) as [E|E]; cbn [negb]; unfold fbind; cbn [fst snd].
  - apply zlen_zero_nil in E as ->. by rewrite app_nil_r, zlen_nil, Z.add_0_r.
  - rewrite <- (app_nil_r x) at 1. rewrite pull_areas by (rewrite zlen_nil; lia). cbn [fst].
    by rewrite i32_id by lia.
Qed.

Lemma enlarge_empty h t n :
  small h t n -> 0 <= n -> zlen h + n + zlen t < 2147483648 ->
  exists x t', zlen x = n /\ zlen t' <= zlen t /\
    silc_buffer_enlarge (of_areas h [] t) n = (of_areas h x t', true).
Proof.
  intros [H1 H2] Hn H3.
  destruct (has_space_areas 0 false h [] t n) as (y & Hy & E);
    [unfold fits; rewrite zlen_nil; lia|done|lia|zlen_facts; lia|].
  unfold FORMAT_HAS_SPACE, set_dst in E; cbn [dst flen advance] in E.
  exists y, (zdrop n t). split; [done|]. split; [rewrite zlen_drop_max; zlen_facts; lia|].
  destruct (silc_buffer_enlarge _ _) as [b []]; [|done]. injection E as ->.
  by rewrite zdrop_nil, app_nil_r, zlen_nil, Z.sub_0_r.
Qed.

(** ** What the encoder writes *)

Section Encoder.
Context {C H PK SK : Type} `{CipherLaws C} `{HashLaws H} `{PkcsOps PK SK}.

(** Encrypting in place and adding the MAC. *)
Lemma payload_encrypt_ok plain s x t c h key iv dst iv' c' :
  keyed h key -> hashable (plain ++ s) -> zlen x = hm_len h ->
  cipher_encrypt (context c) plain (zlen plain) (default (c_iv c) iv) = Some (dst, iv', c') ->
  zlen dst = zlen plain ->
  exists c1 h1,
    silc_message_payload_encrypt ((plain ++ s) ++ x ++ t) (zlen plain) (zlen (plain ++ s))
      iv c h =
    Some ((dst ++ s) ++ hmac_spec (hm_len h) key (dst ++ s) ++ t, c1, h1).
Proof.
  intros Hk Hps Hx He Hd. pose proof Hk as (_ & _ & Hr). zlen_facts.
  unfold silc_message_payload_encrypt, silc_cipher_encrypt.
  rewrite <- !app_assoc, ztake_app_exact by done. rewrite He.
  assert (Es : splice 0 dst (plain ++ s ++ x ++ t) = (dst ++ s) ++ x ++ t).
  { unfold splice. rewrite (ztake_0 0), Z.add_0_l, zdrop_app_exact by (done || lia).
    by rewrite <- app_assoc. }
  assert (E : exists c1 (i : option (list Z)),
    match iv with
    | Some _ => (dst, mkCipher c' (c_iv c), Some iv')
    | None => (dst, mkCipher c' iv', None)
    end = (dst, c1, i)) by (destruct iv; by eauto).
  destruct E as (c1 & i & ->). cbn iota beta zeta. rewrite Es.
  assert (El : zlen (plain ++ s) = zlen (dst ++ s)) by (rewrite !zlen_app; lia).
  rewrite El. rewrite update_take by (rewrite !zlen_app; zlen_facts; lia).
  rewrite ztake_app_exact by done.
  assert (Hds : hashable (dst ++ s)) by (unfold hashable in *; lia).
  pose proof (keyed_mac h key [dst ++ s] Hk ltac:(by repeat constructor)) as M. cbn [concat] in M.
  rewrite app_nil_r in M. unfold hmac_updates in M. cbn [foldl] in M.
  destruct (silc_hmac_final _) as [h1 mac]. cbn [snd] in M. subst mac.
  exists c1, h1. set (mac := hmac_spec _ _ _).
  assert (Hm : zlen mac = hm_len h) by (apply hmac_spec_len; lia).
  assert (Ef : splice (zlen (dst ++ s)) mac ((dst ++ s) ++ x ++ t) = (dst ++ s) ++ mac ++ t).
  { unfold splice. rewrite ztake_app_exact by done. do 2 f_equal.
    rewrite zdrop_app_r by lia. apply zdrop_app_exact. lia. }
  by rewrite Ef, <- app_assoc.
Qed.

(** The encrypting callback at the end of the message. *)
Lemma encode_encrypt_ok (e : SilcMessageEncode C H PK SK) plain s t c h key dst iv' c' :
  e_cipher e = Some c -> e_hmac e = Some h -> e_payload_len e = zlen plain ->
  keyed h key -> hash_len <= 64 ->
  cipher_encrypt (context c) plain (zlen plain) (default (c_iv c) (e_iv e)) =
    Some (dst, iv', c') ->
  zlen dst = zlen plain -> zlen (plain ++ s) + zlen t < 1000000000 ->
  exists t' c1 h1, zlen t' <= zlen t /\
    encode_encrypt e (of_areas (plain ++ s) [] t) =
    (of_areas (dst ++ s) (hmac_spec (hm_len h) key (dst ++ s)) t', hm_len h, c1, h1).
Proof.
  intros Ec Eh Ep Hk H64 He Hd Hs. pose proof Hk as (_ & _ & Hr). zlen_facts.
  unfold encode_encrypt. rewrite Ec, Eh. unfold silc_hmac_len.
  destruct (enlarge_empty (plain ++ s) t (hm_len h)) as (x & t' & Hx & Ht & ->);
    [unfold small, SILC_MAX_ALLOC; lia|lia|lia|].
  rewrite of_areas_headlen by (zlen_facts; lia). cbn [b_mem of_areas].
  assert (Hps : hashable (plain ++ s)) by (unfold hashable; lia).
  destruct (payload_encrypt_ok plain s x t' c h key (e_iv e) dst iv' c')
    as (c1 & h1 & E); [done..|].
  rewrite Ep, E. exists t', (Some c1), (Some h1). split; [done|].
  do 3 f_equal. unfold set_mem, of_areas; cbn [b_data b_tail].
  rewrite hmac_spec_len, Hx by lia. f_equal; rewrite !zlen_app; lia.
Qed.

(** The whole format call: [s] is what the signing callback appends, and the
    message is encrypted and authenticated. *)
Lemma encode_format_ok (e : SilcMessageEncode C H PK SK) flags data pad n iv iv_len s t c h
    key dst iv' c' :
  let padding := ztake n pad in
  let plain := msg_plain flags data padding in
  let ivb := ztake iv_len iv in
  let before := [PARAM_UI16_SHORT flags; PARAM_UI16_SHORT (zlen data);
                 PARAM_NSTRING (Some data) (zlen data); PARAM_UI16_SHORT n;
                 PARAM_NSTRING (Some pad) n;
                 PARAM_FUNC (silc_message_payload_encode_sig e);
                 PARAM_NSTRING (Some iv) iv_len] in
  0 <= n <= zlen pad -> 0 <= iv_len <= zlen iv -> zlen data < 65536 -> n < 65536 ->
  e_cipher e = Some c -> e_hmac e = Some h -> e_payload_len e = zlen plain ->
  keyed h key -> hash_len <= 64 ->
  cipher_encrypt (context c) plain (zlen plain) (default (c_iv c) (e_iv e)) =
    Some (dst, iv', c') ->
  zlen dst = zlen plain -> zlen s < 65536 -> zlen iv < 65536 -> zlen t < 500000000 ->
  (forall t, zlen t < 500000000 -> exists t', zlen t' <= zlen t /\
     silc_message_payload_encode_sig e (of_areas plain [] t) = (of_areas plain s t', zlen s)) ->
  exists t' c1 h1,
    let mac := hmac_spec (hm_len h) key (dst ++ s ++ ivb) in
    zlen t' <= zlen t /\
    silc_buffer_format (of_areas [] [] t)
      (before ++ [PARAM_FUNC (silc_message_payload_encode_encrypt e)]) =
      (of_areas [] (dst ++ s ++ ivb ++ mac) t', zlen (dst ++ s ++ ivb ++ mac)) /\
    (exists b, format_loop (mkFmt (of_areas [] [] t) 0 false) before = (b, true) /\
       ((encode_encrypt e (Format.dst b)).1.2, (encode_encrypt e (Format.dst b)).2) = (c1, h1)).
Proof.
  intros padding plain ivb before Hn Hiv Hdl Hn16 Ec Eh Ep Hk H64 He Hd Hs Hivl Ht Hsig.
  pose proof Hk as (_ & _ & Hr).
  assert (Hpad : zlen padding = n) by (apply zlen_take; lia).
  assert (Hivb : zlen ivb = iv_len) by (apply zlen_take; lia).
  pose proof (zlen_msg_plain flags data padding) as El. fold plain in El.
  set (ap1 := [PARAM_UI16_SHORT flags; PARAM_UI16_SHORT (zlen data);
               PARAM_NSTRING (Some data) (zlen data); PARAM_UI16_SHORT n;
               PARAM_NSTRING (Some pad) n]).
  set (ap2 := [PARAM_NSTRING (Some iv) iv_len]).
  assert (E1 : enc_args ap1 = plain).
  { unfold ap1. rewrite !enc_args_cons; cbn [enc_arg]. rewrite (ztake_ge _ data) by lia.
    unfold plain, msg_plain, enc_fields; cbn. fold padding. rewrite Hpad.
    by rewrite ?app_nil_r, <- ?app_assoc. }
  assert (E2 : enc_args ap2 = ivb)
    by (unfold ap2; rewrite enc_args_cons, app_nil_r; done).
  assert (D1 : Forall data_arg ap1) by (repeat constructor; cbn; zlen_facts; lia).
  assert (D2 : Forall data_arg ap2) by (repeat constructor; cbn; lia).
  zlen_facts. destruct (Hsig (zdrop (zlen plain) t)) as (t1 & Ht1 & Es);
    [rewrite zlen_drop_max; lia|].
  rewrite zlen_drop_max in Ht1. zlen_facts.
  assert (L : forall rest, format_loop (mkFmt (of_areas [] [] t) 0 false)
    (ap1 ++ PARAM_FUNC (silc_message_payload_encode_sig e) :: ap2 ++ rest) =
    format_loop (mkFmt (of_areas (plain ++ s ++ ivb) [] (zdrop iv_len t1))
                   (zlen (plain ++ s ++ ivb)) false) rest).
  { intros rest. rewrite loop_data by (done || rewrite ?E1; sizes).
    rewrite E1. cbn [app]. rewrite Z.add_0_l.
    rewrite (loop_func _ _ _ _ _ _ _ _ _ Es) by (done || sizes).
    rewrite loop_data by (done || rewrite ?E2; sizes). rewrite E2, Hivb.
    by rewrite <- app_assoc, !zlen_app, Hivb, Z.add_assoc. }
  destruct (encode_encrypt_ok e plain (s ++ ivb) (zdrop iv_len t1) c h key dst iv' c')
    as (t' & c1 & h1 & Ht' & Ee); try done.
  { rewrite !zlen_app, zlen_drop_max. lia. }
  set (mac := hmac_spec _ _ _) in *.
  assert (Hm : zlen mac = hm_len h) by (apply hmac_spec_len; lia).
  rewrite zlen_drop_max in Ht'. zlen_facts.
  exists t', c1, h1. cbn zeta. split; [|split]; [lia| |].
  - unfold silc_buffer_format, silc_buffer_sformat_vp.
    change (before ++ _) with (ap1 ++ PARAM_FUNC (silc_message_payload_encode_sig e) :: ap2 ++
      [PARAM_FUNC (silc_message_payload_encode_encrypt e)]). rewrite L.
    assert (Eg : silc_message_payload_encode_encrypt e
                   (of_areas (plain ++ s ++ ivb) [] (zdrop iv_len t1)) =
                 (of_areas (dst ++ s ++ ivb) mac t', zlen mac))
      by (unfold silc_message_payload_encode_encrypt; rewrite Ee; by rewrite Hm).
    rewrite (loop_func _ _ _ _ _ _ _ _ _ Eg) by (done || sizes).
    cbn [format_loop Format.dst flen advance]. rewrite <- !app_assoc.
    assert (Ef : zlen (plain ++ s ++ ivb) + zlen mac = zlen (dst ++ s ++ ivb ++ mac))
      by (rewrite !zlen_app; lia).
    rewrite Ef, u32_id by (rewrite <- Ef, !zlen_app; lia).
    pose proof (push_areas [] (dst ++ s ++ ivb ++ mac) [] t') as P.
    rewrite app_nil_r in P. cbn [app] in P. by rewrite P.
  - eexists. split.
    + change before with (ap1 ++ PARAM_FUNC (silc_message_payload_encode_sig e) :: ap2 ++ []).
      rewrite L. reflexivity.
    + cbn [Format.dst]. by rewrite Ee.
Qed.

(** Whether the message carries its IV, on either side. *)
Definition has_iv (private_message flag : bool) : bool :=
  negb private_message || (private_message && flag).

Definition ivlen (b : bool) : Z := if b then 16 else 0.

(** The encoder, where the data fits the packet. *)
Lemma message_encode_ok flags data pad iv s buffer private gen c h key pub prv has_hash dst iv' c' :
  let n := SILC_MESSAGE_PAD (6 + zlen data) in
  let plain := msg_plain flags data (ztake n pad) in
  let iv_len := ivlen (has_iv private gen) in
  let ivb := ztake iv_len iv in
  let e := mkEncode flags pub prv has_hash (Some c) (Some h)
             (if iv_len =? 0 then None else Some iv) (zlen plain) in
  cipher_block_len = 16 -> zlen pad = 16 -> zlen iv = 16 -> 0 < zlen data <= 65507 ->
  match buffer with Some b => zlen (b_mem b) < 500000000 | None => True end ->
  silc_message_payload_datalen (zlen data) (u32 (hm_len h + iv_len)) flags pub prv =
    zlen data ->
  keyed h key -> hash_len <= 64 ->
  cipher_encrypt (context c) plain (zlen plain) (default (c_iv c) (e_iv e)) =
    Some (dst, iv', c') ->
  zlen dst = zlen plain -> zlen s < 65536 ->
  (forall t, zlen t < 500000000 -> exists t', zlen t' <= zlen t /\
     silc_message_payload_encode_sig e (of_areas plain [] t) = (of_areas plain s t', zlen s)) ->
  exists t c1 h1, zlen t < 500000000 /\
    silc_message_payload_encode flags data (zlen data) gen private (Some c) (Some h) iv pad
      pub prv has_hash buffer =
    (Some (of_areas [] (dst ++ s ++ ivb ++ hmac_spec (hm_len h) key (dst ++ s ++ ivb)) t),
     c1, h1).
Proof.
  intros n plain iv_len ivb e Hblk Hpad Hiv Hd Hbuf Hfit Hk H64 He Hdst Hs Hsig.
  pose proof (pad_range (6 + zlen data)) as Hn. fold n in Hn.
  assert (Hil : 0 <= iv_len <= 16) by (unfold iv_len, ivlen; by destruct (has_iv private gen)).
  pose proof (zlen_msg_plain flags data (ztake n pad)) as El. fold plain in El.
  rewrite zlen_take in El by lia.
  unfold silc_message_payload_encode. rewrite (proj2 (Z.eqb_neq _ _)) by lia.
  rewrite !(bool_decide_eq_true_2 (is_Some _)) by by eexists. cbn [negb orb].
  rewrite andb_false_r.
  assert (Eg : (if (if negb private && negb gen then true else gen)
                then silc_cipher_get_block_len c else 0) = iv_len).
  { unfold silc_cipher_get_block_len. rewrite Hblk. unfold iv_len, ivlen, has_iv.
    by destruct private, gen. }
  assert (Eb : exists t, zlen t < 500000000 /\
    match match buffer with Some b => Some b | None => silc_buffer_alloc 0 end with
    | Some b => silc_buffer_reset b = of_areas [] [] t
    | None => False
    end).
  { destruct buffer as [b|]; [by exists (b_mem b)|by exists []]. }
  destruct Eb as (t & Ht & Eb). destruct (match buffer with Some b => _ | None => _ end) as [b|];
    [|done]. rewrite Eb, Eg. unfold silc_hmac_len. rewrite Hfit.
  rewrite (u32_id (6 + zlen data)) by lia. fold n.
  replace (u16 (6 + zlen data + n)) with (zlen plain) by (rewrite u16_id; lia). fold e.
  destruct (encode_format_ok e flags data pad n iv iv_len s t c h key dst iv' c')
    as (t' & c1 & h1 & Ht' & E1 & bs & E2 & E3); try done; try lia.
  cbn zeta. rewrite E1, E2. cbn iota beta. exists t', c1, h1. split; [lia|].
  injection E3 as -> ->. rewrite (proj2 (Z.ltb_ge _ _)) by (zlen_facts; lia). done.
Qed.
End Encoder.

(** ** Decryption *)

Section Decoder.
Context {C H : Type} `{CipherLaws C} `{HashLaws H}.

(** The old style MAC check succeeds on a MAC over the data alone. *)
Lemma check_mac_ok (h : SilcHmac H) key body n :
  keyed h key -> hashable body -> n = zlen (body ++ hmac_spec (hm_len h) key body) ->
  (check_mac_with h (body ++ hmac_spec (hm_len h) key body) n (hm_len h) []).2 = true.
Proof.
  intros Hk Hb ->. pose proof Hk as (_ & _ & Hr). unfold check_mac_with. cbn [foldl].
  set (mac := hmac_spec _ _ _).
  assert (Hm : zlen mac = hm_len h) by (apply hmac_spec_len; lia).
  rewrite zlen_app, Hm. replace (zlen body + hm_len h - hm_len h) with (zlen body) by lia.
  zlen_facts. rewrite update_take, ztake_app_exact by (rewrite ?zlen_app; lia || done).
  pose proof (keyed_mac h key [body] Hk ltac:(by repeat constructor)) as M. cbn [concat] in M. rewrite app_nil_r in M.
  unfold hmac_updates in M; cbn [foldl] in M.
  destruct (silc_hmac_final _) as [h1 m]. cbn [snd] in *. subst m. fold mac.
  apply bool_decide_eq_true_2. unfold zslice. by rewrite zdrop_app_exact.
Qed.

(** One step of in-place decryption. *)
Definition own_iv (c : SilcCipher C) (iv : option (list Z)) : list Z := default (c_iv c) iv.

Lemma cipher_decrypt_step (d : SilcCipher C) src n iv out iv1 d1 :
  cipher_decrypt (context d) (ztake n src) n (own_iv d iv) = Some (out, iv1, d1) ->
  exists dc ivo,
    silc_cipher_decrypt d src n iv = Some (out, dc, ivo) /\ context dc = d1 /\
    own_iv dc ivo = iv1 /\ (is_Some ivo <-> is_Some iv).
Proof.
  intros E. unfold silc_cipher_decrypt. fold (own_iv d iv). rewrite E.
  destruct iv as [v|]; cbn.
  - eexists _, (Some iv1). by repeat split.
  - eexists _, None. by repeat split.
Qed.

Lemma splice_front (out mem : list Z) n :
  zlen out = n -> n <= zlen mem -> splice 0 out mem = out ++ zdrop n mem.
Proof. intros <- Hn. unfold splice. by rewrite (ztake_0 0) by lia. Qed.

(** Overwriting the middle of three parts. *)
Lemma splice_mid (a v w z : list Z) n :
  n = zlen a -> zlen v = zlen w -> splice n v (a ++ w ++ z) = a ++ v ++ z.
Proof.
  intros -> Hv. unfold splice. rewrite ztake_app_exact by done. do 2 f_equal.
  rewrite Hv, zdrop_app_r, Z.add_simpl_l by (zlen_facts; lia). by apply zdrop_app_exact.
Qed.

(** Checking a MAC leaves the key. *)
Lemma check_mac_keyed (h : SilcHmac H) key data n m ids :
  keyed h key ->
  keyed (check_mac_with h data n m ids).1 key /\
  hm_len (check_mac_with h data n m ids).1 = hm_len h.
Proof.
  intros (E1 & E2 & E3). unfold check_mac_with.
  assert (F : forall ids g, (hm_key g = Some key /\ key_len g = zlen key /\ hm_len g = hm_len h) ->
    let g' := foldl (fun g id => silc_hmac_update g id (zlen id)) g ids in
    hm_key g' = Some key /\ key_len g' = zlen key /\ hm_len g' = hm_len h).
  { induction ids0 as [|id ids0 IH]; intros g Hg; [done|]. cbn. by apply IH. }
  set (h0 := silc_hmac_update _ _ _).
  assert (H0' : hm_key h0 = Some key /\ key_len h0 = zlen key /\ hm_len h0 = hm_len h).
  { unfold h0, silc_hmac_update, silc_hmac_init, silc_hmac_init_with_key, set_hash,
      silc_hmac_init_internal. destruct (_ <? key_len h); [|done].
    by destruct (silc_hash_make _ _ _). }
  specialize (F ids h0 H0'). cbn zeta in F. set (h1 := foldl _ h0 ids) in *.
  unfold silc_hmac_final. destruct (silc_hash_final _) as [c1 m1].
  destruct (silc_hash_final _) as [c2 m2]. cbn [fst]. unfold set_hash, keyed.
  cbn [hm_key key_len hm_len]. destruct F as (F1 & F2 & F3). by rewrite F3.
Qed.

(** The MAC check of the decryption: with the IDs, or in the old style. *)
Lemma mac_check_ok (h : SilcHmac H) key body n sid rid :
  keyed h key -> hashable body -> n = zlen (body ++ hmac_spec (hm_len h) key body) ->
  exists h',
    (let '(h1, ok) := check_mac_with h (body ++ hmac_spec (hm_len h) key body) n (hm_len h)
                        [sid; rid] in
     if ok then (h1, true)
     else check_mac_with h1 (body ++ hmac_spec (hm_len h) key body) n (hm_len h) []) =
    (h', true).
Proof.
  intros Hk Hb Hn. set (mac := hmac_spec _ _ _) in *.
  destruct (check_mac_keyed h key (body ++ mac) n (hm_len h) [sid; rid] Hk) as [Hk1 Hl1].
  destruct (check_mac_with h (body ++ mac) n (hm_len h) [sid; rid]) as [h1 []];
    cbn [fst] in *; [by eexists|].
  pose proof (check_mac_ok h1 key body n Hk1 Hb) as E. rewrite Hl1 in E. specialize (E Hn).
  fold mac in E. destruct (check_mac_with h1 _ _ _ _) as [h2 ok]. cbn in E. subst ok.
  by eexists.
Qed.

(** The data length of a decrypted first block. *)
Lemma first_block_len flags data padding x :
  zlen data < 65536 -> 16 <= zlen (msg_plain flags data padding) ->
  SILC_GET16_MSB (zdrop 2 (ztake 16 (msg_plain flags data padding) ++ x)) = zlen data.
Proof.
  intros Hd Hl. zlen_facts.
  rewrite zdrop_app_l by (rewrite zlen_take; lia).
  rewrite get16_app by (rewrite zlen_drop; rewrite zlen_take; lia).
  set (plain := msg_plain flags data padding) in *.
  rewrite <- (get16_app _ (zdrop 16 plain)) by (rewrite zlen_drop; rewrite zlen_take; lia).
  rewrite <- zdrop_app_l, ztake_drop by (rewrite zlen_take; lia).
  unfold plain, msg_plain, enc_fields; cbn [zip_with concat enc_field msg_fields].
  rewrite zdrop_app_exact by done. rewrite <- app_assoc, get16_put16. apply u16_id. lia.
Qed.

(** The IV region after a call: what the call left there, if the message has
    one. *)
Definition iv_left (ivo : option (list Z)) : list Z := default [] ivo.

Lemma put_iv (ivo : option (list Z)) a w z :
  zlen (iv_left ivo) = zlen w ->
  put_ivp (zlen a) ivo (a ++ w ++ z) = a ++ iv_left ivo ++ z.
Proof.
  unfold put_ivp.
  destruct ivo as [v|]; cbn; intros E; [by rewrite splice_mid|].
  symmetry in E. rewrite zlen_nil in E. by apply zlen_zero_nil in E as ->.
Qed.

Lemma iv_left_len (d : SilcCipher C) (ivo iv : option (list Z)) x :
  own_iv d ivo = x -> zlen x = 16 -> (is_Some ivo <-> is_Some iv) ->
  zlen (iv_left ivo) = match iv with Some _ => 16 | None => 0 end.
Proof.
  intros <- Hx Hi. destruct ivo as [v|], iv as [w|]; cbn in *; try done.
  - exfalso. destruct Hi as [Hi _]. by destruct Hi.
  - exfalso. destruct Hi as [_ Hi]. by destruct Hi.
Qed.

(** Decrypting the rest, the first block being in clear. *)
Lemma decrypt_rest_ok flags data padding dst s w mac dc ivo (h : SilcHmac H) iv1 iv2 d2 :
  let plain := msg_plain flags data padding in
  let bytes := ztake 16 plain ++ zdrop 16 dst ++ s ++ w ++ mac in
  0 < zlen data <= 65507 -> zlen padding = SILC_MESSAGE_PAD (6 + zlen data) ->
  zlen dst = zlen plain -> zlen s < 65536 -> zlen w <= 16 -> zlen mac <= 64 ->
  zlen iv2 = 16 -> own_iv dc ivo = iv1 -> zlen w = (match ivo with Some _ => 16 | None => 0 end) ->
  cipher_decrypt (context dc) (zdrop 16 dst) (zlen plain - 16) iv1 =
    Some (zdrop 16 plain, iv2, d2) ->
  exists iv' d', zlen iv' = zlen w /\
    decrypt_rest bytes (zlen bytes) (zlen mac) (zlen w) 16 dc h ivo =
    (plain ++ s ++ iv' ++ mac, d', h, DecOk).
Proof.
  intros plain bytes Hd Hpad Hdst Hs Hw Hmac Hi2 Eo Hivo D2.
  pose proof (pad_range (6 + zlen data)) as Hp.
  pose proof (pad_blocks (6 + zlen data)) as Hm16.
  pose proof (zlen_msg_plain flags data padding) as El. fold plain in El.
  assert (H16 : 16 <= zlen plain).
  { pose proof (Z_div_mod_eq_full (6 + zlen data + SILC_MESSAGE_PAD (6 + zlen data)) 16). lia. }
  zlen_facts.
  assert (Eb : zlen bytes = zlen dst + zlen s + zlen w + zlen mac)
    by (unfold bytes; rewrite !zlen_app, zlen_take, zlen_drop; lia).
  assert (Hg : SILC_GET16_MSB (zdrop 2 bytes) = zlen data)
    by (apply first_block_len; fold plain; lia).
  unfold decrypt_rest. rewrite Hg.
  rewrite (u16_id (2 + (2 + zlen data))), (proj2 (Z.ltb_ge (zlen bytes) _)) by lia.
  rewrite u16_id by lia. replace (2 + (2 + zlen data) + 2) with (6 + zlen data) by lia.
  destruct (Z.leb_spec 16 (6 + zlen data)) as [Hlong|Hshort].
  - rewrite u32_id by lia.
    replace (6 + zlen data - 16 + SILC_MESSAGE_PAD (6 + zlen data)) with (zlen plain - 16) by lia.
    rewrite (proj2 (Z.ltb_ge _ _)) by lia. unfold bytes at 1.
    rewrite zdrop_app_exact by (rewrite zlen_take; lia).
    assert (E16 : ztake (zlen plain - 16) (zdrop 16 dst ++ s ++ w ++ mac) = zdrop 16 dst)
      by (apply ztake_app_exact; rewrite zlen_drop; lia).
    rewrite <- Eo, <- E16 in D2.
    destruct (cipher_decrypt_step dc _ _ ivo _ _ _ D2) as (dc' & ivo' & -> & _ & Eo' & Ei').
    pose proof (iv_left_len dc' ivo' ivo iv2 Eo' Hi2 Ei') as L2. rewrite <- Hivo in L2.
    unfold bytes at 2. rewrite splice_mid by (rewrite ?zlen_take, ?zlen_drop; lia).
    rewrite (app_assoc (ztake 16 plain) (zdrop 16 plain)), ztake_drop, (app_assoc plain s).
    replace (zlen bytes - zlen w - zlen mac) with (zlen (plain ++ s)) by (rewrite zlen_app; lia).
    rewrite put_iv by done. rewrite <- !app_assoc. by exists (iv_left ivo'), dc'.
  - assert (E16 : zlen plain = 16).
    { assert (6 + zlen data + SILC_MESSAGE_PAD (6 + zlen data) = 16); [|lia].
      unfold SILC_MESSAGE_PAD. rewrite Z.mod_small; lia. }
    unfold bytes. rewrite (zdrop_ge 16 dst), (ztake_ge 16 plain) by lia. cbn [app].
    by exists w, dc.
Qed.

(** Decrypting what the sender encrypted. *)
Lemma decrypt_ok flags data padding dst s ivb d (h : SilcHmac H) key sid rid private static
    iv1 d1 iv2 d2 :
  let plain := msg_plain flags data padding in
  let iv_len := ivlen (has_iv private static) in
  let mac := hmac_spec (hm_len h) key (dst ++ s ++ ivb) in
  let ivp := if iv_len =? 0 then None else Some ivb in
  cipher_block_len = 16 -> keyed h key -> hash_len <= 64 -> 0 < zlen data <= 65507 ->
  zlen padding = SILC_MESSAGE_PAD (6 + zlen data) ->
  zlen dst = zlen plain -> zlen s < 65536 -> zlen ivb = iv_len ->
  zlen iv1 = 16 -> zlen iv2 = 16 ->
  cipher_decrypt (context d) (ztake 16 dst) 16 (own_iv d ivp) = Some (ztake 16 plain, iv1, d1) ->
  cipher_decrypt d1 (zdrop 16 dst) (zlen plain - 16) iv1 = Some (zdrop 16 plain, iv2, d2) ->
  exists iv' d' h', zlen iv' = iv_len /\
    silc_message_payload_decrypt (dst ++ s ++ ivb ++ mac) (zlen (dst ++ s ++ ivb ++ mac))
      private static d h sid rid true =
    (plain ++ s ++ iv' ++ mac, d', h', DecOk).
Proof.
  intros plain iv_len mac ivp Hblk Hk H64 Hd Hpad Hdst Hs Hivb Hi1 Hi2 D1 D2.
  pose proof Hk as (_ & _ & Hr). pose proof (pad_range (6 + zlen data)) as Hp.
  pose proof (pad_blocks (6 + zlen data)) as Hm16.
  pose proof (zlen_msg_plain flags data padding) as El. fold plain in El.
  assert (Hmac : zlen mac = hm_len h) by (apply hmac_spec_len; lia).
  assert (Hil : iv_len = 0 \/ iv_len = 16)
    by (unfold iv_len, ivlen; destruct (has_iv private static); auto).
  assert (H16 : 16 <= zlen plain).
  { pose proof (Z_div_mod_eq_full (6 + zlen data + SILC_MESSAGE_PAD (6 + zlen data)) 16). lia. }
  zlen_facts. unfold silc_message_payload_decrypt, silc_hmac_len, silc_cipher_get_block_len.
  rewrite Hblk. change (if negb private || (private && static) then 16 else 0) with iv_len.
  set (bytes := dst ++ s ++ ivb ++ mac).
  assert (Eb : zlen bytes = zlen dst + zlen s + iv_len + hm_len h)
    by (unfold bytes; rewrite !zlen_app; lia).
  rewrite u32_id, (proj2 (Z.ltb_ge _ _)) by lia.
  destruct (mac_check_ok h key (dst ++ s ++ ivb) (zlen bytes) sid rid Hk) as (h' & Eh).
  { unfold hashable. rewrite !zlen_app. lia. }
  { unfold bytes, mac. by rewrite <- !app_assoc. }
  fold mac in Eh. rewrite <- !app_assoc in Eh. fold bytes in Eh. rewrite Eh. cbn [negb].
  replace (zlen bytes - iv_len - hm_len h) with (zlen (dst ++ s)) by (rewrite zlen_app; lia).
  assert (Ep : (if iv_len =? 0 then None else Some (zslice (zlen (dst ++ s)) iv_len bytes)) = ivp).
  { unfold ivp. destruct (iv_len =? 0); [done|]. f_equal. unfold zslice, bytes.
    rewrite (app_assoc dst), zdrop_app_exact by done. by apply ztake_app_exact. }
  rewrite Ep.
  assert (Et : ztake 16 bytes = ztake 16 dst) by (unfold bytes; apply ztake_app_l; lia).
  rewrite <- Et in D1.
  destruct (cipher_decrypt_step d bytes 16 ivp _ _ _ D1) as (dc & ivo & -> & Ec & Eo & Ei).
  assert (L1 : zlen (iv_left ivo) = zlen ivb).
  { rewrite (iv_left_len dc ivo ivp iv1 Eo Hi1 Ei), Hivb. unfold ivp.
    by destruct Hil as [-> | ->]. }
  assert (Es : splice 0 (ztake 16 plain) bytes = (ztake 16 plain ++ zdrop 16 dst ++ s) ++ ivb ++ mac).
  { rewrite (splice_front _ _ 16) by (rewrite ?zlen_take; lia). unfold bytes.
    rewrite zdrop_app_l by lia. by rewrite <- !app_assoc. }
  rewrite Es. set (a := ztake 16 plain ++ zdrop 16 dst ++ s).
  assert (Ea : zlen (dst ++ s) = zlen a)
    by (unfold a; rewrite !zlen_app, zlen_take, zlen_drop; lia).
  rewrite Ea, put_iv by done. unfold a. rewrite <- !app_assoc.
  rewrite <- Hmac, <- Hivb, <- L1.
  replace (zlen bytes) with (zlen (ztake 16 plain ++ zdrop 16 dst ++ s ++ iv_left ivo ++ mac))
    by (rewrite Eb, !zlen_app, zlen_take, zlen_drop; lia).
  rewrite <- Ec in D2.
  destruct (decrypt_rest_ok flags data padding dst s (iv_left ivo) mac dc ivo h' iv1 iv2 d2)
    as (iv' & d' & Hi' & E); try done; try lia.
  { rewrite (iv_left_len dc ivo ivo iv1 Eo Hi1 ltac:(done)). done. }
  exists iv', d', h'. split; [lia|exact E].
Qed.
End Decoder.

(** ** Parsing *)

(** The signature part of a message and what it is parsed to. *)
Definition sig_part (flags : Z) (s : list Z) (sig : SilcMessageSignedPayload) : Prop :=
  if is_signed flags then
    exists pk type sg, s = sig_bytes pk type sg /\ sig = sig_of pk type sg /\
      zlen pk < 32768 /\ 0 <= type < 65536 /\ 0 < zlen sg <= 2048
  else s = [] /\ sig = sig_zero.

Lemma sig_part_len flags s sig : sig_part flags s sig -> zlen s < 40000.
Proof.
  unfold sig_part. case_match.
  - intros (pk & type & sg & -> & _ & ? & ? & ?). rewrite zlen_sig_bytes. lia.
  - by intros [-> _].
Qed.

Definition message_of (flags : Z) (data pad : list Z) (mac : option (list Z))
    (sig : SilcMessageSignedPayload) : SilcMessagePayload :=
  mkMessage (block data) (block pad) mac sig flags (zlen data) (zlen pad) true.

Lemma parse_plain_ok flags data pad s iv mac sig given :
  let bytes := msg_plain flags data pad ++ s ++ iv ++ mac in
  let m := message_of flags data pad (if zlen mac =? 0 then None else Some mac) sig in
  0 <= flags < 65536 -> zlen data < 65536 -> zlen pad < 65536 ->
  zlen iv <= 64 -> zlen mac <= 64 -> sig_part flags s sig ->
  parse_plain (silc_buffer_set bytes (zlen bytes)) (zlen mac) (zlen iv) false given =
  (if given then None else Some m, m, []).
Proof.
  intros bytes m Hf Hd Hp Hiv Hm Hsig. pose proof (sig_part_len _ _ _ Hsig) as Hsl.
  pose proof (zlen_msg_plain flags data pad) as El. zlen_facts.
  assert (Eb : zlen bytes = 6 + zlen data + zlen pad + zlen s + zlen iv + zlen mac)
    by (unfold bytes; rewrite !zlen_app; lia).
  rewrite set_areas by done. unfold parse_plain. cbn [negb].
  pose proof (unformat_fields [] bytes msg_fields ltac:(zl) ltac:(by repeat constructor)) as U.
  change (uf_of <$> msg_fields) with [U_UI16_SHORT; U_NSTRING_ALLOC UI16; U_NSTRING_ALLOC UI16] in U.
  assert (Ed : dec_fields msg_fields bytes = Some ([FInt flags; FStr data; FStr pad], s ++ iv ++ mac))
    by (apply dec_enc_fields; repeat constructor; cbn; lia).
  rewrite Ed in U. destruct U as [-> ->].
  cbn [uvals_of zip_with uval_of msg_fields message_fields m_data_len m_pad_len m_flags].
  rewrite of_areas_len by zl. rewrite (u32_id (zlen bytes - 6 - zlen mac - zlen iv)) by lia.
  rewrite !(proj2 (Z.ltb_ge (zlen bytes - 6 - zlen mac - zlen iv) _)) by lia. cbn [orb].
  rewrite (u32_id (_ + zlen mac + zlen iv)) by lia.
  rewrite data_areas, app_nil_r.
  assert (Emac : zdrop (zlen bytes - zlen mac) bytes = mac).
  { unfold bytes. rewrite 2!app_assoc. apply zdrop_app_exact. rewrite !zlen_app in *. lia. }
  unfold sig_part in Hsig. destruct (is_signed flags); cbn [andb].
  - destruct Hsig as (pk & type & sg & -> & -> & Hpk & Ht & Hsg).
    pose proof (zlen_sig_bytes pk type sg) as Es. zlen_facts.
    rewrite (proj2 (Z.ltb_lt _ (zlen bytes))) by lia.
    rewrite <- El, u32_id by lia. unfold bytes at 1. rewrite zdrop_app_exact by done.
    replace (zlen bytes - zlen iv - zlen mac - zlen (msg_plain flags data pad))
      with (zlen (sig_bytes pk type sg)) by lia.
    rewrite signed_parse_ok by lia. cbn [negb]. rewrite Emac.
    unfold m, message_of. by destruct (zlen mac =? 0).
  - destruct Hsig as [-> ->]. rewrite zlen_nil in Eb.
    cbn [negb]. rewrite Emac.
    unfold m, message_of. by destruct (zlen mac =? 0).
Qed.

(** ** From sender to receiver *)

(** What fits: the code's limit as it computes it. *)
Lemma datalen_fits data_len header pklen prlen :
  0 <= data_len -> 0 <= header -> 0 <= pklen -> 0 <= prlen ->
  data_len + 22 + header + pklen + prlen <= 65529 ->
  fit_datalen data_len (u32 header) pklen prlen = data_len.
Proof.
  intros. unfold fit_datalen. rewrite (u32_id header), u32_id by lia.
  by rewrite (proj2 (Z.ltb_ge _ _)) by (unfold SILC_PACKET_MAX_LEN; lia).
Qed.

Section Transfer.
Context {C H PK SK : Type} `{CipherLaws C} `{HashLaws H} `{PkcsOps PK SK}.

(** What sender and receiver agree on: block size, key, and a cipher state the
    IV starts from. *)
Definition agreed (c d : SilcCipher C) (h h2 : SilcHmac H) (key iv : list Z)
    (with_iv : bool) : Prop :=
  cipher_block_len = 16 /\ hash_len <= 64 /\ keyed h key /\ keyed h2 key /\
  hm_len h2 = hm_len h /\ sync (context c) (context d) /\ zlen iv = 16 /\ bytes_ok iv /\
  if with_iv then iv_ok iv else c_iv d = c_iv c /\ iv_ok (c_iv c).

(** The receiver's side: what it decrypts it parses. *)
Lemma parse_received flags data padding dst s ivb sig d (h : SilcHmac H) key sid rid private
    static iv1 d1 iv2 d2 :
  let plain := msg_plain flags data padding in
  let iv_len := ivlen (has_iv private static) in
  let mac := hmac_spec (hm_len h) key (dst ++ s ++ ivb) in
  let bytes := dst ++ s ++ ivb ++ mac in
  let ivp := if iv_len =? 0 then None else Some ivb in
  cipher_block_len = 16 -> keyed h key -> hash_len <= 64 -> 0 <= flags < 65536 ->
  0 < zlen data <= 65507 -> zlen padding = SILC_MESSAGE_PAD (6 + zlen data) ->
  zlen dst = zlen plain -> sig_part flags s sig -> zlen ivb = iv_len ->
  zlen iv1 = 16 -> zlen iv2 = 16 ->
  cipher_decrypt (context d) (ztake 16 dst) 16 (own_iv d ivp) = Some (ztake 16 plain, iv1, d1) ->
  cipher_decrypt d1 (zdrop 16 dst) (zlen plain - 16) iv1 = Some (zdrop 16 plain, iv2, d2) ->
  p_ret (silc_message_payload_parse bytes (zlen bytes) private static (Some d) (Some h) sid rid
           false false) = Some (message_of flags data padding (Some mac) sig).
Proof.
  intros plain iv_len mac bytes ivp Hblk Hk H64 Hf Hd Hpad Hdst Hsig Hivb Hi1 Hi2 D1 D2.
  pose proof Hk as (_ & _ & Hr). pose proof (sig_part_len _ _ _ Hsig) as Hsl.
  pose proof (pad_range (6 + zlen data)) as Hp.
  pose proof (hmac_bytes_len h key (dst ++ s ++ ivb) Hk) as Hmac. fold mac in Hmac.
  pose proof (zlen_msg_plain flags data padding) as El. fold plain in El.
  assert (Hil : 0 <= iv_len <= 16) by (unfold iv_len, ivlen; by destruct (has_iv private static)).
  destruct (decrypt_ok flags data padding dst s ivb d h key sid rid private static iv1 d1 iv2 d2)
    as (iv' & d' & h' & Hi' & E); try done; try lia.
  fold mac in E. fold bytes in E. fold plain in E. fold iv_len in Hi'. zlen_facts.
  assert (Eb : zlen bytes = zlen (plain ++ s ++ iv' ++ mac))
    by (unfold bytes; rewrite !zlen_app; lia).
  unfold silc_message_payload_parse, silc_hmac_len, silc_cipher_get_block_len.
  rewrite set_whole by done. rewrite whole_data, whole_len by
    (rewrite Eb, !zlen_app; lia). rewrite E, Hblk.
  change (if negb private || (private && static) then 16 else 0) with iv_len.
  rewrite splice_all by done. rewrite Eb, <- Hmac, <- Hi'.
  pose proof (parse_plain_ok flags data padding s iv' mac sig false) as P. cbn zeta in P.
  fold plain in P. rewrite P by (done || lia).
  cbn [p_ret]. by rewrite (proj2 (Z.eqb_neq _ _)) by lia.
Qed.

(** The cipher calls of both sides. *)
Lemma transfer_cipher c d h h2 key iv with_iv plain :
  agreed c d h h2 key iv with_iv -> bytes_ok plain -> 16 <= zlen plain ->
  zlen plain mod 16 = 0 ->
  let iv_len := ivlen with_iv in
  let ivp := if iv_len =? 0 then None else Some iv in
  exists dst iv' c' iv1 d1 d2,
    cipher_encrypt (context c) plain (zlen plain) (default (c_iv c) ivp) = Some (dst, iv', c') /\
    zlen dst = zlen plain /\ zlen iv' = 16 /\ zlen iv1 = 16 /\
    cipher_decrypt (context d) (ztake 16 dst) 16 (own_iv d ivp) =
      Some (ztake 16 plain, iv1, d1) /\
    cipher_decrypt d1 (zdrop 16 dst) (zlen plain - 16) iv1 = Some (zdrop 16 plain, iv', d2).
Proof.
  intros (_ & _ & _ & _ & _ & Hsync & Hiv & _ & Hivok) Hb H16 Hmod iv_len ivp.
  assert (Hivu : iv_ok (default (c_iv c) ivp) /\ own_iv d ivp = default (c_iv c) ivp).
  { unfold ivp, iv_len, own_iv, ivlen in *. destruct with_iv; [done|]. cbn.
    by destruct Hivok. }
  destruct Hivu as [Hivu ->].
  assert (Hm : (zlen plain - 16) mod 16 = 0)
    by (rewrite Zminus_mod, Hmod; done).
  destruct (cipher_roundtrip (context c) (context d) plain (default (c_iv c) ivp) 16
              (zlen plain - 16))
    as (dst & iv' & c' & iv1 & d1 & d2 & Ee & Hdl & _ & Hi' & Hi1 & _ & D1 & D2);
    try done; try lia.
  replace (16 + (zlen plain - 16)) with (zlen plain) in * by lia.
  exists dst, iv', c', iv1, d1, d2. repeat split; by try apply iv_ok_len.
Qed.

Lemma message_run flags data pad iv private gen has_hash c d h h2 key pub prv s sig sid rid :
  let padding := ztake (SILC_MESSAGE_PAD (6 + zlen data)) pad in
  let plain := msg_plain flags data padding in
  agreed c d h h2 key iv (has_iv private gen) ->
  0 <= flags < 65536 -> 0 < zlen data <= 65507 -> zlen pad = 16 ->
  bytes_ok data -> bytes_ok pad ->
  silc_message_payload_datalen (zlen data) (u32 (hm_len h + ivlen (has_iv private gen)))
    flags pub prv = zlen data ->
  sig_part flags s sig ->
  (forall e, e_flags e = flags -> e_public_key e = pub -> e_private_key e = prv ->
     e_hash e = has_hash -> forall t, zlen t < 500000000 -> exists t', zlen t' <= zlen t /\
     silc_message_payload_encode_sig (C := C) (H := H) e (of_areas plain [] t) =
     (of_areas plain s t', zlen s)) ->
  exists b c1 h1 mac,
    silc_message_payload_encode flags data (zlen data) gen private (Some c) (Some h) iv pad
      pub prv has_hash None = (Some b, c1, h1) /\
    let bytes := ztake (silc_buffer_len b) (silc_buffer_data b) in
    p_ret (silc_message_payload_parse bytes (silc_buffer_len b) private gen (Some d)
             (Some h2) sid rid false false) =
      Some (message_of flags data padding (Some mac) sig).
Proof.
  intros padding plain Hag Hf Hd Hpad Hbd Hbp Hfit Hsig Hcb.
  pose proof Hag as (Hblk & H64 & Hk & Hk2 & Hlen & _ & Hiv & _).
  set (iv_len := ivlen (has_iv private gen)) in *.
  pose proof (pad_range (6 + zlen data)) as Hn. pose proof (pad_blocks (6 + zlen data)) as Hm16.
  assert (Hpl : zlen padding = SILC_MESSAGE_PAD (6 + zlen data)) by (apply zlen_take; lia).
  pose proof (zlen_msg_plain flags data padding) as El. fold plain in El. rewrite Hpl in El.
  assert (H16 : 16 <= zlen plain).
  { pose proof (Z_div_mod_eq_full (6 + zlen data + SILC_MESSAGE_PAD (6 + zlen data)) 16). lia. }
  assert (Hbpl : bytes_ok plain)
    by (apply enc_fields_bytes; repeat constructor; cbn; by try apply Forall_take).
  destruct (transfer_cipher c d h h2 key iv _ plain Hag Hbpl H16 ltac:(by rewrite El))
    as (dst & iv' & c' & iv1 & d1 & d2 & Ee & Hdl & Hi' & Hi1 & D1 & D2). fold iv_len in Ee, D1.
  set (ivb := ztake iv_len iv).
  assert (Hil : iv_len = 0 \/ iv_len = 16)
    by (unfold iv_len, ivlen; destruct (has_iv private gen); auto).
  assert (Hivl : zlen ivb = iv_len) by (apply zlen_take; lia).
  assert (Eivb : (if iv_len =? 0 then None else Some iv) =
                 (if iv_len =? 0 then None else Some ivb)).
  { unfold ivb. destruct (Z.eqb_spec iv_len 0); [done|]. by rewrite ztake_ge by lia. }
  pose proof (sig_part_len _ _ _ Hsig) as Hsl.
  destruct (message_encode_ok flags data pad iv s None private gen c h key pub prv has_hash dst iv' c')
    as (t & c1 & h1 & Ht & E); try done; try lia; [by apply Hcb|].
  fold iv_len in E. fold ivb in E. rewrite <- Hlen in E.
  set (mac := hmac_spec (hm_len h2) key (dst ++ s ++ ivb)) in *.
  pose proof (hmac_bytes_len h2 key (dst ++ s ++ ivb) Hk2) as Hmac. fold mac in Hmac.
  pose proof Hk2 as (_ & _ & Hr). zlen_facts.
  eexists _, c1, h1, mac. split; [exact E|]. cbn zeta.
  rewrite of_areas_len by (rewrite ?zlen_app, ?zlen_nil; zlen_facts; rewrite ?Hmac; lia).
  rewrite data_areas, ztake_app_exact by done. rewrite Eivb in D1.
  eapply (parse_received flags data padding dst s ivb sig d h2 key sid rid private gen iv1 d1 iv' d2);
    done || lia.
Qed.
End Transfer.
