(* ===== verification/MessageThms.v ===== *)
(** * Message payloads: what the encoder, parser and verifier promise

    The properties of [Message], from the lemmas of [MessageSpec]: messages go
    from sender to receiver unchanged, signatures verify, and what happens at
    the limits of the lengths and on malformed signatures. *)

From S2P Require Import Prelude CTypes Memory Buffer BuffFmt Fields Cipher Hmac Message.
From S2P Require Import MessageSpec.
Import Format Unformat RoundTrip Encoding.

#[local] Existing Instances Cipher.toy Cipher.toy_ok Hmac.toy_hash Hmac.toy_hash_laws.

(** A key pair to evaluate signatures on: a checksum. *)
#[local] Instance toy_pkcs : PkcsOps unit unit := {|
  silc_pkcs_public_key_encode := fun _ => Some [7; 8; 9];
  silc_pkcs_public_key_get_len := fun _ => 24;
  silc_pkcs_private_key_get_len := fun _ => 24;
  silc_pkcs_get_type := fun _ => 1;
  silc_pkcs_sign := fun _ m => Some (Hmac.toy_sum m);
  silc_pkcs_verify := fun _ s m => bool_decide (s = Hmac.toy_sum m)
|}.
#[local] Instance toy_pair : PkcsPair tt tt.
Proof.
  split; cbn; [|by intros m s [= <-]|done].
  intros m s [= <-]. by apply bool_decide_eq_true_2.
Defined.

Section Callback.
Context {C H PK SK : Type} `{CipherOps C} `{HashOps H} `{PkcsOps PK SK}.

(** The signing callback of a message that is not signed. *)
Lemma encode_sig_unsigned (e : SilcMessageEncode C H PK SK) plain t :
  is_signed (e_flags e) = false ->
  silc_message_payload_encode_sig e (of_areas plain [] t) = (of_areas plain [] t, zlen (@nil Z)).
Proof. intros E. unfold silc_message_payload_encode_sig. by rewrite E. Qed.

(** And of one that is: it appends the signed payload. *)
Lemma encode_sig_signed (e : SilcMessageEncode C H PK SK) plain pub prv pk s t :
  is_signed (e_flags e) = true -> e_public_key e = Some pub -> e_private_key e = Some prv ->
  e_hash e = true -> 0 < zlen plain < 131072 -> zlen t < 500000000 -> zlen pk < 32768 ->
  silc_pkcs_public_key_encode pub = Some pk -> 0 < zlen s <= 2048 ->
  silc_pkcs_sign prv (to_sign plain pk (silc_pkcs_get_type prv)) = Some s ->
  let sg := sig_bytes pk (silc_pkcs_get_type prv) s in
  exists t', zlen t' <= zlen t /\
    silc_message_payload_encode_sig e (of_areas plain [] t) = (of_areas plain sg t', zlen sg).
Proof.
  intros Ef Epub Eprv Eh Hpl Ht Hpk Ek Hs Hsign sg. zlen_facts.
  pose proof (zlen_sig_bytes pk (silc_pkcs_get_type prv) s) as El. fold sg in El.
  unfold silc_message_payload_encode_sig. rewrite Ef, Epub, Eprv, Eh. cbn [negb].
  rewrite of_areas_headlen by zl. cbn [b_mem of_areas].
  rewrite (signed_encode_ok _ plain pub prv pk s); try done; try lia.
  2: { by exists t. }
  fold sg. rewrite whole_data, whole_len by lia.
  rewrite format_areas.
  - rewrite enc_args_cons; cbn [enc_arg]. rewrite ztake_ge, app_nil_r by lia.
    rewrite (zdrop_nil (zlen sg)), app_nil_r, (zlen_nil (A:=Z)), Z.sub_0_r.
    rewrite (proj2 (Z.ltb_ge _ _)) by lia. eexists. split; [|done].
    rewrite zlen_drop_max. zlen_facts. lia.
  - constructor; [simpl; lia|done].
  - rewrite enc_args_cons; cbn [enc_arg]. rewrite ztake_ge, app_nil_r by lia.
    unfold fits. rewrite zlen_nil. unfold SILC_MAX_ALLOC. lia.
Qed.
End Callback.

(** C12: an encrypted message arrives: what the encoder writes for flags and
    data that fit the packet, the parser of a receiver with the same keys
    decrypts, authenticates and parses to those flags, data and padding, with
    the sender's MAC, for channel messages and for private messages with and
    without an IV, whatever IDs are passed to the parser. *)
Theorem message_roundtrip {C H PK SK : Type} `{CipherLaws C} `{HashLaws H} `{PkcsOps PK SK}
    (flags : Z) (data pad iv : list Z) (private gen has_hash : bool) (c d : SilcCipher C)
    (h h2 : SilcHmac H) (key sid rid : list Z) (pub : option PK) (prv : option SK) :
  agreed c d h h2 key iv (has_iv private gen) ->
  0 <= flags < 65536 -> is_signed flags = false ->
  0 < zlen data -> bytes_ok data -> zlen pad = 16 -> bytes_ok pad ->
  zlen data + 22 + hm_len h + ivlen (has_iv private gen) <= 65529 ->
  exists b c1 h1 mac,
    silc_message_payload_encode flags data (zlen data) gen private (Some c) (Some h) iv pad
      pub prv has_hash None = (Some b, c1, h1) /\
    let bytes := ztake (silc_buffer_len b) (silc_buffer_data b) in
    let padding := ztake (SILC_MESSAGE_PAD (6 + zlen data)) pad in
    p_ret (silc_message_payload_parse bytes (silc_buffer_len b) private gen (Some d)
             (Some h2) sid rid false false) =
      Some (message_of flags data padding (Some mac) sig_zero).
Proof.
  intros Hag Hf Hs Hd Hb Hp Hbp Hfit.
  pose proof Hag as (_ & _ & Hk & _). pose proof Hk as (_ & _ & Hr).
  assert (Hil : 0 <= ivlen (has_iv private gen) <= 16) by (by destruct (has_iv private gen)).
  eapply (message_run flags data pad iv private gen has_hash c d h h2 key pub prv []);
    try done; try lia.
  - unfold silc_message_payload_datalen. rewrite Hs.
    replace (match pub with Some _ => 0 | None => 0 end) with 0 by by destruct pub.
    replace (match prv with Some _ => 0 | None => 0 end) with 0 by by destruct prv.
    apply datalen_fits; lia.
  - unfold sig_part. by rewrite Hs.
  - intros e Ef _ _ _ t Ht. exists t. split; [lia|].
    apply encode_sig_unsigned. by rewrite Ef.
Qed.

Lemma message_roundtrip_witness :
  exists b c1 h1 mac,
    silc_message_payload_encode 4 [104; 105] 2 true true (Some (mkCipher tt []))
      (Some (mkHmac 3 [] [] [] (Some [1; 2]) 2)) (zeros 16) (zeros 16) (None (A:=unit)) (None (A:=unit)) false None = (Some b, c1, h1) /\
    let bytes := ztake (silc_buffer_len b) (silc_buffer_data b) in
    p_ret (silc_message_payload_parse bytes (silc_buffer_len b) true true
             (Some (mkCipher tt [])) (Some (mkHmac 3 [9] [] [] (Some [1; 2]) 2)) [1] [2]
             false false) =
      Some (message_of 4 [104; 105] (zeros 8) (Some mac) sig_zero).
Proof.
  apply (message_roundtrip (PK := unit) (SK := unit) 4 [104; 105] (zeros 16) (zeros 16) true
           true false (mkCipher tt []) (mkCipher tt []) (mkHmac 3 [] [] [] (Some [1; 2]) 2)
           (mkHmac 3 [9] [] [] (Some [1; 2]) 2) [1; 2] [1] [2] None None).
  all: try by_compute.
Defined.

(** a signed message arrives with a signature that verifies: the receiver
    parses the flags, data and padding, the sender's public key and the
    signature, and [silc_message_signed_verify] with that key accepts. *)
Theorem message_signed_roundtrip {C H PK SK : Type} `{CipherLaws C} `{HashLaws H}
    `{PkcsPair PK SK pub prv} (flags : Z) (data pad iv : list Z) (private gen : bool)
    (c d : SilcCipher C) (h h2 : SilcHmac H) (key sid rid pk s : list Z) :
  let padding := ztake (SILC_MESSAGE_PAD (6 + zlen data)) pad in
  agreed c d h h2 key iv (has_iv private gen) ->
  0 <= flags < 65536 -> is_signed flags = true ->
  0 < zlen data <= 65507 -> bytes_ok data -> zlen pad = 16 -> bytes_ok pad ->
  silc_message_payload_datalen (zlen data) (u32 (hm_len h + ivlen (has_iv private gen))) flags
    (Some pub) (Some prv) = zlen data ->
  silc_pkcs_public_key_encode pub = Some pk -> zlen pk < 32768 ->
  silc_pkcs_sign prv (to_sign (msg_plain flags data padding) pk (silc_pkcs_get_type prv)) =
    Some s ->
  exists b c1 h1 m mac,
    silc_message_payload_encode flags data (zlen data) gen private (Some c) (Some h) iv pad
      (Some pub) (Some prv) true None = (Some b, c1, h1) /\
    let bytes := ztake (silc_buffer_len b) (silc_buffer_data b) in
    p_ret (silc_message_payload_parse bytes (silc_buffer_len b) private gen (Some d)
             (Some h2) sid rid false false) = Some m /\
    m = message_of flags data padding (Some mac) (sig_of pk (silc_pkcs_get_type prv) s) /\
    silc_message_signed_verify m (Some pub) true = true.
Proof.
  intros padding Hag Hf Hs Hd Hb Hp Hbp Hfit Hpk Hpkl Hsign.
  pose proof (pad_range (6 + zlen data)) as Hn.
  pose proof (pkcs_sign_len (pub := pub) _ _ Hsign) as Hsl.
  pose proof (pkcs_type_range (pub := pub) (prv := prv)) as Ht.
  pose proof (zlen_msg_plain flags data padding) as El.
  assert (Hpl : zlen padding = SILC_MESSAGE_PAD (6 + zlen data)) by (apply zlen_take; lia).
  set (sg := sig_bytes pk (silc_pkcs_get_type prv) s).
  destruct (message_run flags data pad iv private gen true c d h h2 key (Some pub) (Some prv)
              sg (sig_of pk (silc_pkcs_get_type prv) s) sid rid)
    as (b & c1 & h1 & mac & E1 & E2); try done.
  - unfold sig_part. rewrite Hs. exists pk, (silc_pkcs_get_type prv), s. repeat split; done || lia.
  - intros e Ef Epub Eprv Eh t Htl. zlen_facts.
    fold padding. apply (encode_sig_signed e _ pub prv pk s t); try done; try lia; congruence.
  - cbn zeta in E2. eexists b, c1, h1, _, mac. split; [exact E1|]. cbn zeta.
    split; [exact E2|]. split; [done|]. unfold message_of. zlen_facts.
    rewrite (verify_ok pub flags data padding _ _ _ pk (silc_pkcs_get_type prv) s)
      by (done || lia).
    by apply (pkcs_verify_sign (pub := pub) (prv := prv)).
Qed.

Lemma message_signed_roundtrip_witness :
  exists b c1 h1 m mac,
    silc_message_payload_encode 36 [104; 105] 2 true false (Some (mkCipher tt []))
      (Some (mkHmac 3 [] [] [] (Some [1; 2]) 2)) (zeros 16) (zeros 16) (Some tt) (Some tt) true
      None = (Some b, c1, h1) /\
    let bytes := ztake (silc_buffer_len b) (silc_buffer_data b) in
    p_ret (silc_message_payload_parse bytes (silc_buffer_len b) false true
             (Some (mkCipher tt [])) (Some (mkHmac 3 [9] [] [] (Some [1; 2]) 2)) [1] [2]
             false false) = Some m /\
    m = message_of 36 [104; 105] (zeros 8) (Some mac)
          (sig_of [7; 8; 9] 1
             (Hmac.toy_sum (to_sign (msg_plain 36 [104; 105] (zeros 8)) [7; 8; 9] 1))) /\
    silc_message_signed_verify m (Some tt) true = true.
Proof.
  pose proof (message_signed_roundtrip (pub := tt) (prv := tt) 36 [104; 105] (zeros 16) (zeros 16)
           false true (mkCipher tt []) (mkCipher tt []) (mkHmac 3 [] [] [] (Some [1; 2]) 2)
           (mkHmac 3 [9] [] [] (Some [1; 2]) 2) [1; 2] [1] [2] [7; 8; 9]
           (Hmac.toy_sum (to_sign (msg_plain 36 [104; 105] (zeros 8)) [7; 8; 9] 1))) as W.
  cbn zeta in W. apply W; by_compute || reflexivity.
Defined.

(** The length the encoder cuts data to.  Data that fits is kept; any other
    length becomes the same value, with which the message takes 65541 bytes,
    more than the 65535 of a packet, and which is larger than the data when it
    exceeded the limit by less than 12 bytes. *)
Theorem datalen_limit {PK SK : Type} `{PkcsOps PK SK} (data_len header flags : Z)
    (pub : option PK) (prv : option SK) :
  is_signed flags = false -> 0 <= data_len < 2147483648 -> 0 <= header <= 4096 ->
  let total n := n + 6 + 16 + header in
  let n := silc_message_payload_datalen data_len header flags pub prv in
  if total data_len <=? 65529 then n = data_len
  else total n = 65541 /\ SILC_PACKET_MAX_LEN < total n /\
       (data_len < n <-> total data_len < 65541).
Proof.
  intros Hs Hd Hh. cbn zeta. unfold silc_message_payload_datalen. rewrite Hs.
  replace (match pub with Some _ => 0 | None => 0 end) with 0 by by destruct pub.
  replace (match prv with Some _ => 0 | None => 0 end) with 0 by by destruct prv.
  unfold fit_datalen, SILC_PACKET_MAX_LEN.
  rewrite (u32_id (data_len + 6 + 16 + header + 0 + 0)) by lia.
  destruct (Z.leb_spec (data_len + 6 + 16 + header) 65529) as [L|L].
  - by rewrite (proj2 (Z.ltb_ge _ _)) by lia.
  - rewrite (proj2 (Z.ltb_lt _ _)) by lia.
    assert (E : u32 (data_len - u32 (data_len + 6 + 16 + header + 0 + 0 - 65535 - 6 + 16 - 16)) =
                65519 - header).
    { unfold u32. rewrite Zminus_mod_idemp_r. rewrite <- (Z.mod_small (65519 - header) 4294967296)
        by lia. f_equal. lia. }
    rewrite E. lia.
Qed.

Lemma datalen_limit_witness :
  silc_message_payload_datalen (PK := unit) (SK := unit) 65490 19 0 None None = 65500.
Proof.
  destruct (datalen_limit (PK := unit) (SK := unit) 65490 19 0 None None) as (E & _);
    [done|lia|lia|lia].
Defined.

(** ** Authenticity *)

(** The last bytes are the MAC of the rest, with the IDs or without. *)
Definition authentic {H : Type} `{HashLaws H} (n : Z) (key sid rid payload : list Z) : Prop :=
  exists body mac, payload = body ++ mac /\
    (mac = hmac_spec n key (body ++ sid ++ rid) \/ mac = hmac_spec n key body).

Section Auth.
Context {C H : Type} `{CipherOps C} `{HashLaws H}.

Lemma check_mac_true (h : SilcHmac H) key data ids :
  keyed h key -> hashable data -> Forall hashable ids -> hm_len h <= zlen data ->
  (check_mac_with h data (zlen data) (hm_len h) ids).2 = true ->
  exists body, data = body ++ hmac_spec (hm_len h) key (body ++ concat ids).
Proof.
  intros Hk Hd Hi Hn. pose proof Hk as (_ & _ & Hr). zlen_facts. unfold check_mac_with.
  set (n := zlen data - hm_len h). rewrite update_take by lia.
  assert (Hz : hashable (ztake n data)) by (unfold hashable in *; rewrite zlen_take; lia).
  pose proof (keyed_mac h key (ztake n data :: ids) Hk (List.Forall_cons _ _ _ Hz Hi)) as M.
  unfold hmac_updates in M. cbn [foldl concat] in M.
  destruct (silc_hmac_final _) as [h1 m]. cbn [snd] in *. subst m.
  intros E%bool_decide_eq_true_1. exists (ztake n data).
  assert (Hl : zlen (hmac_spec (hm_len h) key (ztake n data ++ concat ids)) = hm_len h)
    by (apply hmac_spec_len; lia).
  rewrite (ztake_ge _ (hmac_spec _ _ _)) in E by lia. rewrite <- E.
  unfold zslice. rewrite (ztake_ge _ (zdrop n data)) by (rewrite zlen_drop; lia).
  by rewrite ztake_drop.
Qed.

Lemma decrypt_auth (c : SilcCipher C) (h : SilcHmac H) key data private static sid rid :
  keyed h key -> hash_len <= 64 -> 0 <= cipher_block_len <= 16 ->
  Forall hashable [data; sid; rid] ->
  authentic (hm_len h) key sid rid data \/
  exists h', silc_message_payload_decrypt data (zlen data) private static c h sid rid true =
    (data, c, h', DecFail).
Proof.
  intros Hk H64 Hblk [Hd Hids]%list.Forall_cons. pose proof Hk as (_ & _ & Hr).
  unfold silc_message_payload_decrypt.
  unfold silc_hmac_len, silc_cipher_get_block_len.
  set (iv_len := if _ || _ then _ else 0).
  assert (Hiv : 0 <= iv_len <= 16) by (unfold iv_len; destruct (_ || _); lia).
  rewrite u32_id by lia. destruct (Z.ltb_spec (zlen data) (hm_len h + iv_len + cipher_block_len)) as [|L].
  { right. by eexists. }
  destruct (check_mac_keyed h key data (zlen data) (hm_len h) [sid; rid] Hk) as [Hk1 Hl1].
  pose proof (check_mac_true h key data [sid; rid] Hk Hd Hids ltac:(lia)) as T.
  destruct (check_mac_with h data _ _ [sid; rid]) as [h1 []]; cbn [fst snd] in *.
  { left. destruct (T eq_refl) as (body & E). cbn [concat] in E. rewrite app_nil_r in E.
    exists body. eexists. split; [exact E|by left]. }
  pose proof (check_mac_true h1 key data [] Hk1 Hd (List.Forall_nil _) ltac:(lia)) as T1. rewrite Hl1 in T1.
  destruct (check_mac_with h1 data _ _ []) as [h2 []]; cbn [fst snd negb] in *.
  - left. destruct (T1 eq_refl) as (body & E). cbn [concat] in E. rewrite app_nil_r in E.
    exists body. eexists. split; [exact E|by right].
  - right. by eexists.
Qed.
End Auth.

(** C13: nothing is done with a message whose MAC is wrong: either the last
    bytes of the payload are the HMAC, under the receiver's key, of what is
    before them (with the IDs, or in the old style without), or the parser
    returns NULL, with the payload not decrypted, the cipher as it was, and
    nothing freed or read past the end. *)
Theorem message_authentic {C H : Type} `{CipherOps C} `{HashLaws H} (c : SilcCipher C)
    (h : SilcHmac H) (key payload sid rid : list Z) (private static na given : bool) :
  keyed h key -> hash_len <= 64 -> 0 <= cipher_block_len <= 16 ->
  Forall hashable [payload; sid; rid] ->
  let r := silc_message_payload_parse payload (zlen payload) private static (Some c) (Some h)
             sid rid na given in
  authentic (hm_len h) key sid rid payload \/
  p_ret r = None /\ p_payload r = payload /\ p_cipher r = Some c /\ p_freed r = [] /\
  p_overrun r = false.
Proof.
  intros Hk H64 Hblk Hl. cbn zeta.
  destruct (decrypt_auth c h key payload private static sid rid) as [|(h' & E)]; try done;
    [by left|right]. apply list.Forall_cons in Hl as [Hl _].
  assert (zlen payload < 4294967296) by (unfold hashable in Hl; lia).
  unfold silc_message_payload_parse. rewrite set_whole by done.
  rewrite whole_data, whole_len, E by done. cbn [p_ret p_payload p_cipher p_freed p_overrun].
  by rewrite splice_all.
Qed.

Lemma message_authentic_witness :
  let payload := zeros 40 in
  let h := mkHmac 3 [] [] [] (Some [1; 2]) 2 in
  let r := silc_message_payload_parse payload 40 true true (Some (mkCipher tt [])) (Some h)
             [1] [2] false false in
  authentic 3 [1; 2] [1] [2] payload \/
  p_ret r = None /\ p_payload r = payload /\ p_cipher r = Some (mkCipher tt []) /\
  p_freed r = [] /\ p_overrun r = false.
Proof.
  apply (message_authentic (mkCipher tt []) (mkHmac 3 [] [] [] (Some [1; 2]) 2) [1; 2]
           (zeros 40)); by_compute.
Defined.

(** ** Parsing without a cipher *)

Section ParsePlain.
Context {C H : Type} `{CipherOps C} `{HashOps H}.

(** The fields of a payload, and what the unformat in the parser gives. *)
Lemma plain_unformat d :
  bytes_ok d -> zlen d < 2147483648 ->
  match dec_fields msg_fields d with
  | Some (vs, rest) => exists flags data pad,
      d = msg_plain flags data pad ++ rest /\ 0 <= flags < 65536 /\
      zlen data < 65536 /\ zlen pad < 65536 /\
      silc_buffer_unformat (whole d) [U_UI16_SHORT; U_NSTRING_ALLOC UI16; U_NSTRING_ALLOC UI16]
        = (whole d, zlen d - zlen rest,
           [VInt flags; VStr (block data) (zlen data); VStr (block pad) (zlen pad)]) /\
      (zlen d - zlen rest =? -1) = false
  | None => exists o,
      silc_buffer_unformat (whole d) [U_UI16_SHORT; U_NSTRING_ALLOC UI16; U_NSTRING_ALLOC UI16]
        = (whole d, -1, o)
  end.
Proof.
  intros Hb Hl. pose proof (unformat_fields [] d msg_fields ltac:(zl) ltac:(by repeat constructor)) as U.
  change (uf_of <$> msg_fields) with [U_UI16_SHORT; U_NSTRING_ALLOC UI16; U_NSTRING_ALLOC UI16] in U.
  fold (whole d) in U. destruct (dec_fields msg_fields d) as [[vs rest]|] eqn:E; [|done].
  apply enc_dec_fields in E as (Ed & Hv & _); [|by repeat constructor|done].
  destruct U as [U1 U2]. unfold msg_fields in Hv. fvals.
  eexists _, _, _. split; [reflexivity|]. split; [done|]. split; [done|]. split; [done|].
  split; [exact U1|exact U2].
Qed.
End ParsePlain.

(** what the parser accepts, without a cipher, is in the payload: the flags,
    the data and the padding are its first fields, each a copy of the bytes
    there, the MAC is its last bytes after them, and an unsigned message has no
    signature. *)
Theorem message_parse_sound {C H : Type} `{CipherOps C} `{HashOps H} (payload sid rid : list Z)
    (private static : bool) (hmac : option (SilcHmac H)) (m : SilcMessagePayload) :
  let mac_len := match hmac with Some h => hm_len h | None => 0 end in
  0 <= mac_len -> 6 + mac_len <= zlen payload < 2147483648 -> bytes_ok payload ->
  p_ret (silc_message_payload_parse (C := C) payload (zlen payload) private static None hmac
           sid rid false false) = Some m ->
  exists data pad rest,
    payload = msg_plain (m_flags m) data pad ++ rest /\ mac_len <= zlen rest /\
    m_data m = block data /\ m_data_len m = zlen data /\
    m_pad m = block pad /\ m_pad_len m = zlen pad /\
    m_mac m = (if mac_len =? 0 then None else Some (zdrop (zlen payload - mac_len) payload)) /\
    (is_signed (m_flags m) = false -> m_sig m = sig_zero).
Proof.
  intros mac_len Hm Hl Hb. unfold silc_message_payload_parse, silc_hmac_len.
  fold mac_len. rewrite set_whole by done. unfold parse_plain. cbn [negb].
  pose proof (plain_unformat payload Hb ltac:(lia)) as U.
  destruct (dec_fields msg_fields payload) as [[vs rest]|]; cycle 1.
  { destruct U as [o ->]. by cbn. }
  destruct U as (flags & data & pad & Ep & Hf & Hd & Hp & -> & ->).
  pose proof (zlen_msg_plain flags data pad) as El. zlen_facts.
  assert (Elp : zlen payload = 6 + zlen data + zlen pad + zlen rest)
    by (rewrite Ep, zlen_app; lia).
  cbn [message_fields m_data_len m_pad_len m_flags].
  rewrite whole_len, whole_data, (u32_id (zlen payload - 6 - mac_len - 0)) by lia.
  destruct (Z.ltb_spec (zlen payload - 6 - mac_len - 0) (zlen data)) as [|L1]; [done|].
  destruct (Z.ltb_spec (zlen payload - 6 - mac_len - 0) (zlen pad + zlen data)) as [|L2]; [done|].
  cbn [orb]. set (sg := if is_signed flags && _ then _ else _).
  assert (Hsg : let '(ok, m, freed) := sg in
    exists s, m = mkMessage (block data) (block pad) None s flags (zlen data) (zlen pad) true /\
      (is_signed flags = false -> s = sig_zero)).
  { unfold sg. destruct (is_signed flags && _) eqn:B; [|by eexists].
    destruct (silc_message_signed_payload_parse _ _) as [[ok s] freed].
    eexists. split; [done|]. by apply andb_prop in B as [-> _]. }
  destruct sg as [[ok m0] freed]. destruct Hsg as (s & -> & Hs).
  destruct ok; cbn [negb]; [|done].
  intros E. injection E as <-. exists data, pad, rest.
  destruct (mac_len =? 0); cbn; repeat split; try done; lia.
Qed.

Lemma message_parse_sound_witness :
  let payload := msg_plain 4 [104; 105] [0; 0] in
  exists data pad rest,
    payload = msg_plain 4 data pad ++ rest /\ 0 <= zlen rest /\
    block [104; 105] = block data /\ 2 = zlen data /\ block [0; 0] = block pad /\
    2 = zlen pad /\ None (A := list Z) = None /\
    (is_signed 4 = false -> sig_zero = sig_zero).
Proof.
  apply (message_parse_sound (C := unit) (H := list Z) (msg_plain 4 [104; 105] [0; 0]) [] []
           true true None
           (mkMessage (block [104; 105]) (block [0; 0]) None sig_zero 4 2 2 true));
    by_compute || reflexivity.
Defined.

(** a signature part whose signature is empty makes the parser free the
    public key twice: [silc_message_signed_payload_parse] frees what it
    allocated but leaves the pointers, and the parser's error path frees the
    whole message. *)
Theorem message_double_free {C H : Type} `{CipherOps C} `{HashOps H} (flags type : Z)
    (data pad pk sid rid : list Z) (private static : bool) :
  0 <= flags < 65536 -> is_signed flags = true -> 0 <= type < 65536 ->
  0 < zlen data < 65536 -> 0 < zlen pad < 65536 -> 0 < zlen pk < 65536 ->
  let payload := msg_plain flags data pad ++ sig_bytes pk type [] in
  let r := silc_message_payload_parse (C := C) (H := H) payload (zlen payload) private static
             None None sid rid false false in
  p_ret r = None /\ p_freed r = [BPk; BPk; BData; BPad; BStruct].
Proof.
  intros Hf Hs Ht Hd Hp Hpk payload. cbn zeta.
  pose proof (zlen_msg_plain flags data pad) as El. pose proof (zlen_sig_bytes pk type []) as Es.
  rewrite zlen_nil in Es.
  assert (Ep : zlen payload = zlen (msg_plain flags data pad) + zlen (sig_bytes pk type []))
    by (unfold payload; by rewrite zlen_app).
  unfold silc_message_payload_parse. rewrite set_whole by done.
  enough (X : exists m, parse_plain (whole payload) 0 0 false false =
                        (None, m, [BPk; BPk; BData; BPad; BStruct]))
    by by destruct X as (m & ->).
  unfold parse_plain. cbn [negb].
  pose proof (unformat_fields [] payload msg_fields ltac:(zl) ltac:(by repeat constructor)) as U.
  change (uf_of <$> msg_fields) with [U_UI16_SHORT; U_NSTRING_ALLOC UI16; U_NSTRING_ALLOC UI16] in U.
  assert (Ed : dec_fields msg_fields payload =
               Some ([FInt flags; FStr data; FStr pad], sig_bytes pk type []))
    by (apply dec_enc_fields; repeat constructor; cbn; lia).
  rewrite Ed in U. fold (whole payload) in U. destruct U as [-> ->].
  cbn [uvals_of zip_with uval_of msg_fields message_fields m_data_len m_pad_len m_flags].
  rewrite whole_len, whole_data, !u32_id by lia.
  rewrite !(proj2 (Z.ltb_ge _ _)), Hs, (proj2 (Z.ltb_lt _ _)) by lia. cbn [orb andb].
  replace (6 + zlen data + zlen pad) with (zlen (msg_plain flags data pad)) by lia.
  unfold payload at 1. rewrite zdrop_app_exact by done.
  replace (zlen payload - 0 - 0 - _) with (zlen (sig_bytes pk type [])) by lia.
  pose proof (signed_parse_bytes pk type [] ltac:(lia) Ht ltac:(done) []) as P.
  rewrite app_nil_r in P. rewrite P, (proj2 (Z.ltb_lt _ 1)) by done.
  cbn [negb]. unfold silc_message_payload_free, silc_message_signed_payload_free, sig_of.
  cbn [set_sig m_sig sign_data pk_data m_allocated m_data m_pad app].
  unfold block. rewrite !decide_False by (intros ->; rewrite zlen_nil in *; lia).
  by eexists.
Qed.

Lemma message_double_free_witness :
  p_freed (silc_message_payload_parse (C := unit) (H := list Z)
    (msg_plain 32 [1] [2] ++ sig_bytes [3] 1 []) 15 true true None None [] [] false false) =
    [BPk; BPk; BData; BPad; BStruct].
Proof.
  apply (message_double_free 32 1 [1] [2] [3] [] [] true true); by_compute.
Defined.

(** A message can be decrypted past its end: the check of the length does
    not count the padding, so a private message of one block without an IV,
    with a right MAC and 10 as its length, makes the code decrypt a second
    block, over the MAC and beyond it. *)
Theorem decrypt_overrun {C H : Type} `{CipherOps C} `{HashLaws H} (c d : SilcCipher C)
    (h : SilcHmac H) (key block sid rid out : list Z) :
  cipher_block_len = 16 -> hash_len <= 64 -> keyed h key -> zlen block = 16 ->
  silc_cipher_decrypt c block 16 None = Some (out, d, None) -> zlen out = 16 ->
  SILC_GET16_MSB (zdrop 2 out) = 10 ->
  let packet := block ++ hmac_spec (hm_len h) key block in
  (silc_message_payload_decrypt packet (zlen packet) true false c h sid rid true).2 = DecOverrun.
Proof.
  intros Hblk H64 Hk Hb Ed Ho Hg packet. pose proof Hk as (_ & _ & Hr).
  set (mac := hmac_spec _ _ _) in packet.
  assert (Hm : zlen mac = hm_len h) by (apply hmac_spec_len; lia).
  assert (Ep : zlen packet = 16 + hm_len h) by (unfold packet; rewrite zlen_app; lia).
  unfold silc_message_payload_decrypt, silc_hmac_len, silc_cipher_get_block_len.
  rewrite Hblk. cbn [negb andb orb].
  rewrite u32_id, (proj2 (Z.ltb_ge _ _)) by lia.
  destruct (mac_check_ok h key block (zlen packet) sid rid Hk) as (h' & Eh); [unfold hashable; lia|done|].
  fold mac packet in Eh. rewrite Eh. cbn [negb Z.eqb].
  assert (E16 : ztake 16 packet = block) by (unfold packet; by apply ztake_app_exact).
  unfold silc_cipher_decrypt in Ed |- *. rewrite (ztake_ge _ block) in Ed by lia. rewrite E16.
  destruct (cipher_decrypt _ block 16 _) as [[[o iv'] c']|]; [|done].
  injection Ed as -> _. cbn [put_ivp]. rewrite (splice_front out packet 16) by lia.
  unfold decrypt_rest. rewrite zdrop_app_l, get16_app, Hg by (rewrite ?zlen_drop; lia).
  change (u16 (2 + (2 + 10))) with 14. rewrite (proj2 (Z.ltb_ge _ _)) by lia.
  change (u16 (14 + 2)) with 16. rewrite Z.leb_refl.
  change (u32 _) with 16. by rewrite (proj2 (Z.ltb_lt _ _)) by lia.
Qed.

Lemma decrypt_overrun_witness :
  let block := [90; 90; 90; 90; 90; 90; 90; 90; 90; 94; 90; 80; 90; 90; 90; 90] in
  let h := mkHmac 3 [] [] [] (Some [1; 2]) 2 in
  let packet := block ++ hmac_spec (hm_len h) [1; 2] block in
  (silc_message_payload_decrypt packet (zlen packet) true false (mkCipher tt (zeros 16)) h
     [1] [2] true).2 = DecOverrun.
Proof.
  intros block h packet.
  assert (Ed : silc_cipher_decrypt (mkCipher tt (zeros 16)) block 16 None =
               Some ([0; 4; 0; 10] ++ zeros 12, mkCipher tt block, None))
    by (vm_compute; reflexivity).
  apply (decrypt_overrun (mkCipher tt (zeros 16)) (mkCipher tt block) h [1; 2] block [1] [2]
           ([0; 4; 0; 10] ++ zeros 12)); try exact Ed; by_compute.
Defined.
