(* ===== verification/HashTable.v ===== *)
(** * Hash tables ([lib/silcutil/silchashtable.c])

    Chained hash tables with duplicate keys and automatic resizing.  Keys,
    contexts, user contexts and destructors are the types [K], [V], [U], [D];
    comparing two pointers is their decidable equality.  A chain is the list of
    its entries.  A function that may call the destructor also returns the
    calls it made, in order.  Callbacks of the traversals act on a state of
    their own; that they alter the table they traverse is not modelled. *)

From S2P Require Import Prelude CTypes Memory.

(** ** Data *)

(** [SILC_HASH_TABLE_SIZE]. *)
Definition SILC_HASH_TABLE_SIZE : Z := 2.

Definition primesize : list Z :=
  [3; 5; 11; 17; 37; 67; 109; 131; 163; 257; 367; 521; 823; 1031;
   1237; 1447; 2053; 2389; 2777; 3323; 4099; 5059; 6247; 7001; 8209; 10993;
   14057; 16411; 19181; 21089; 25033; 32771; 40009; 47431; 65537; 106721;
   131101; 262147; 360163; 524309; 810343; 1048583; 2097169; 4194319;
   6153409; 8388617; 13845163; 16777259; 33554467; 67108879].

(** [primesize[i]]. *)
Definition prime (i : Z) : Z := nth (Z.to_nat i) primesize 0.

Section HashTable.
Context {K V U D : Type} `{EqDecision K} `{EqDecision V}.

(** Hash and comparison functions take a user context, perhaps NULL. *)
Definition SilcHashFunction := K -> option U -> Z.
Definition SilcHashCompare := K -> K -> option U -> bool.

(** The functions of the table, part of [struct SilcHashTableStruct]; a
    destructor comes with its user context. *)
Record HashTableFuns := mkFuns {
  hash : SilcHashFunction;
  compare : option SilcHashCompare;
  destructor : option D;
  hash_user_context : option U;
  compare_user_context : option U
}.

(** [struct SilcHashTableStruct]; an entry is a key and a context. *)
Record SilcHashTable := mkHT {
  table : list (list (K * V));
  table_size : Z;
  entry_count : Z;
  funs : HashTableFuns;
  auto_rehash : bool
}.

Definition set_table (ht : SilcHashTable) (t : list (list (K * V))) (count : Z) : SilcHashTable :=
  mkHT t (table_size ht) count (funs ht) (auto_rehash ht).
Definition set_rehash (ht : SilcHashTable) (b : bool) : SilcHashTable :=
  mkHT (table ht) (table_size ht) (entry_count ht) (funs ht) b.

(** ** Sizes *)

Fixpoint primesize_loop (i : Z) (primes : list Z) (size : Z) : option (Z * Z) :=
  match primes with
  | [] => None
  | p :: primes => if size <=? p then Some (p, i) else primesize_loop (i + 1) primes size
  end.

(** The size and its index. *)
Definition silc_hash_table_primesize (size : Z) : Z * Z :=
  match primesize_loop 0 primesize size with
  | Some r => r
  | None => (prime 49, 49)
  end.

(** The macros [SILC_HASH_TABLE_HASH], [SILC_HASH_REHASH_INC] and
    [SILC_HASH_REHASH_DEC]. *)
Definition SILC_HASH_TABLE_HASH (ht : SilcHashTable) (f : SilcHashFunction) (key : K)
    (c : option U) : nat := Z.to_nat (f key c mod prime (table_size ht)).

Definition SILC_HASH_REHASH_INC (ht : SilcHashTable) : bool :=
  auto_rehash ht && (prime (table_size ht) <? entry_count ht / 2).

Definition SILC_HASH_REHASH_DEC (ht : SilcHashTable) : bool :=
  auto_rehash ht && (u32 (entry_count ht * 2) <? prime (table_size ht)) &&
  (prime SILC_HASH_TABLE_SIZE <? entry_count ht).

(** ** Chains *)

(** [table[i]]. *)
Definition chain (ht : SilcHashTable) (i : nat) : list (K * V) := nth i (table ht) [].
Definition set_chain (ht : SilcHashTable) (i : nat) (c : list (K * V)) (count : Z) : SilcHashTable :=
  set_table ht (<[i := c]> (table ht)) count.

(** The entries before the first that matches, and the rest from it on. *)
Fixpoint chain_find (p : K * V -> bool) (c : list (K * V)) : list (K * V) * list (K * V) :=
  match c with
  | [] => ([], [])
  | e :: next =>
      if p e then ([], c)
      else let '(before, rest) := chain_find p next in (e :: before, rest)
  end.

Definition match_key (compare : option SilcHashCompare) (c : option U) (key : K) (e : K * V)
    : bool :=
  match compare with
  | Some f => f e.1 key c
  | None => bool_decide (e.1 = key)
  end.

(** Which comparison is made depends on [ht->compare], the function called is
    [compare]. *)
Definition match_context (ht_compare compare : option SilcHashCompare) (c : option U)
    (key : K) (context : V) (e : K * V) : bool :=
  match ht_compare, compare with
  | Some _, Some f => f e.1 key c && bool_decide (e.2 = context)
  | Some _, None => false
  | None, _ => bool_decide (e.1 = key) && bool_decide (e.2 = context)
  end.

(** [a ? a : b]. *)
Definition or_else {A} (a b : option A) : option A := match a with Some _ => a | None => b end.

(** ** Finding *)

(** The chain's index, the entries before the one found, and the rest from it
    on, empty when nothing is found. *)
Definition silc_hash_table_find_internal (ht : SilcHashTable) (key : K)
    (hash : SilcHashFunction) (hc : option U) (compare : option SilcHashCompare)
    (cc : option U) : nat * (list (K * V) * list (K * V)) :=
  let i := SILC_HASH_TABLE_HASH ht hash key hc in
  (i, chain_find (match_key compare cc key) (chain ht i)).

Definition silc_hash_table_find_internal_context (ht : SilcHashTable) (key : K) (context : V)
    (hash : SilcHashFunction) (hc : option U) (cmp : option SilcHashCompare)
    (cc : option U) : nat * (list (K * V) * list (K * V)) :=
  let i := SILC_HASH_TABLE_HASH ht hash key hc in
  (i, chain_find (match_context (compare (funs ht)) cmp cc key context) (chain ht i)).

Definition silc_hash_table_find_internal_simple (ht : SilcHashTable) (key : K)
    (hash : SilcHashFunction) (hc : option U) (compare : option SilcHashCompare)
    (cc : option U) : option (K * V) :=
  let i := SILC_HASH_TABLE_HASH ht hash key hc in
  head (chain_find (match_key compare cc key) (chain ht i)).2.

(** The found key and context. *)
Definition silc_hash_table_find_ext (ht : SilcHashTable) (key : K)
    (h : option SilcHashFunction) (hc : option U) (cmp : option SilcHashCompare)
    (cc : option U) : option (K * V) :=
  silc_hash_table_find_internal_simple ht key (default (hash (funs ht)) h)
    (or_else hc (hash_user_context (funs ht))) (or_else cmp (compare (funs ht)))
    (or_else cc (compare_user_context (funs ht))).

Definition silc_hash_table_find (ht : SilcHashTable) (key : K) : option (K * V) :=
  silc_hash_table_find_ext ht key None None None None.

Definition silc_hash_table_find_by_context_ext (ht : SilcHashTable) (key : K) (context : V)
    (h : option SilcHashFunction) (hc : option U) (cmp : option SilcHashCompare)
    (cc : option U) : option K :=
  let '(_, (_, rest)) :=
    silc_hash_table_find_internal_context ht key context (default (hash (funs ht)) h)
      (or_else hc (hash_user_context (funs ht))) (or_else cmp (compare (funs ht)))
      (or_else cc (compare_user_context (funs ht))) in
  match rest with e :: _ => Some e.1 | [] => None end.

Definition silc_hash_table_find_by_context (ht : SilcHashTable) (key : K) (context : V)
    : option K :=
  silc_hash_table_find_by_context_ext ht key context None None None None.

(** [foreach(key, context, user_context)] on the caller's state; the context is
    NULL in the call that says that nothing was found. *)
Definition silc_hash_table_find_internal_all {S} (ht : SilcHashTable) (key : K)
    (hash : SilcHashFunction) (hc : option U) (compare : option SilcHashCompare)
    (cc : option U) (foreach : S -> K -> option V -> S) (s : S) : S :=
  let i := SILC_HASH_TABLE_HASH ht hash key hc in
  let '(s, found) :=
    foldl (fun '(s, found) e =>
             if match_key compare cc key e then (foreach s e.1 (Some e.2), true)
             else (s, found)) (s, false) (chain ht i) in
  if found then s else foreach s key None.

Definition silc_hash_table_find_foreach_ext {S} (ht : SilcHashTable) (key : K)
    (h : option SilcHashFunction) (hc : option U) (cmp : option SilcHashCompare)
    (cc : option U) (foreach : S -> K -> option V -> S) (s : S) : S :=
  silc_hash_table_find_internal_all ht key (default (hash (funs ht)) h)
    (or_else hc (hash_user_context (funs ht))) (or_else cmp (compare (funs ht)))
    (or_else cc (compare_user_context (funs ht))) foreach s.

Definition silc_hash_table_find_foreach {S} (ht : SilcHashTable) (key : K)
    (foreach : S -> K -> option V -> S) (s : S) : S :=
  silc_hash_table_find_internal_all ht key (hash (funs ht)) (hash_user_context (funs ht))
    (compare (funs ht)) (compare_user_context (funs ht)) foreach s.

Definition silc_hash_table_foreach {S} (ht : SilcHashTable)
    (foreach : option (S -> K -> V -> S)) (s : S) : S :=
  match foreach with
  | None => s
  | Some foreach =>
      foldl (fun s c => foldl (fun s e => foreach s e.1 e.2) s c) s
        (ztake (prime (table_size ht)) (table ht))
  end.

(** ** Adding and resizing *)

(** Adding to the chain, before the check for a resize; entries are 24 bytes. *)
Definition add_entry (ht : SilcHashTable) (key : K) (context : V) (hash : SilcHashFunction)
    (hc : option U) : bool * SilcHashTable :=
  let i := SILC_HASH_TABLE_HASH ht hash key hc in
  match silc_calloc 1 24 with
  | None => (false, ht)
  | Some _ => (true, set_chain ht i (chain ht i ++ [(key, context)]) (u32 (entry_count ht + 1)))
  end.

(** The table a resize starts from, its entries not yet added: the automatic
    resize is off while they are. *)
Definition empty_table (ht : SilcHashTable) (index : Z) : SilcHashTable :=
  mkHT (replicate (Z.to_nat (prime index)) []) index 0 (funs ht) false.

(** The entries of the old table are added one by one; [add_entry] is what
    [silc_hash_table_add_ext] does when the automatic resize is off
    ([add_no_rehash] below). *)
Definition silc_hash_table_rehash_ext (ht : SilcHashTable) (new_size : Z)
    (hash : SilcHashFunction) (hc : option U) : SilcHashTable :=
  let '(_, size_index) :=
    silc_hash_table_primesize (if negb (new_size =? 0) then new_size else entry_count ht) in
  if size_index =? table_size ht then ht
  else
    match silc_calloc (prime size_index) 8 with
    | None => set_rehash (set_table ht [] (entry_count ht)) false
    | Some _ =>
        let new :=
          foldl (fun ht c => foldl (fun ht e => (add_entry ht e.1 e.2 hash hc).2) ht c)
            (empty_table ht size_index) (ztake (prime (table_size ht)) (table ht)) in
        set_rehash new (auto_rehash ht)
    end.

Definition silc_hash_table_rehash (ht : SilcHashTable) (new_size : Z) : SilcHashTable :=
  silc_hash_table_rehash_ext ht new_size (hash (funs ht)) (hash_user_context (funs ht)).

Definition silc_hash_table_add_internal (ht : SilcHashTable) (key : K) (context : V)
    (hash : SilcHashFunction) (hc : option U) : bool * SilcHashTable :=
  match add_entry ht key context hash hc with
  | (false, ht) => (false, ht)
  | (true, ht) =>
      (true, if SILC_HASH_REHASH_INC ht then silc_hash_table_rehash ht 0 else ht)
  end.

Definition silc_hash_table_add (ht : SilcHashTable) (key : K) (context : V)
    : bool * SilcHashTable :=
  silc_hash_table_add_internal ht key context (hash (funs ht)) (hash_user_context (funs ht)).

Definition silc_hash_table_add_ext (ht : SilcHashTable) (key : K) (context : V)
    (hash : SilcHashFunction) (hc : option U) : bool * SilcHashTable :=
  silc_hash_table_add_internal ht key context hash hc.

(** The calls of a destructor. *)
Definition destroy (d : option D) (e : K * V) : list (D * K * V) :=
  match d with Some d => [(d, e.1, e.2)] | None => [] end.

(** The first entry of the chain is replaced, whatever its key. *)
Definition silc_hash_table_replace_internal (ht : SilcHashTable) (key : K) (context : V)
    (hash : SilcHashFunction) (hc : option U) : bool * SilcHashTable * list (D * K * V) :=
  let i := SILC_HASH_TABLE_HASH ht hash key hc in
  let '(ok, ht, log) :=
    match chain ht i with
    | e :: next =>
        (true, set_chain ht i ((key, context) :: next) (entry_count ht),
         destroy (destructor (funs ht)) e)
    | [] =>
        match silc_calloc 1 24 with
        | None => (false, ht, [])
        | Some _ => (true, set_chain ht i [(key, context)] (u32 (entry_count ht + 1)), [])
        end
    end in
  if negb ok then (false, ht, log)
  else (true, if SILC_HASH_REHASH_INC ht then silc_hash_table_rehash ht 0 else ht, log).

Definition silc_hash_table_replace (ht : SilcHashTable) (key : K) (context : V)
    : bool * SilcHashTable * list (D * K * V) :=
  silc_hash_table_replace_internal ht key context (hash (funs ht)) (hash_user_context (funs ht)).

Definition silc_hash_table_replace_ext (ht : SilcHashTable) (key : K) (context : V)
    (hash : SilcHashFunction) (hc : option U) : bool * SilcHashTable * list (D * K * V) :=
  silc_hash_table_replace_internal ht key context hash hc.

(** ** Deleting *)

(** Taking the entry out from between its predecessor and [next]. *)
Definition unlink (before next : list (K * V)) : list (K * V) :=
  match before, next with
  | [], _ :: _ => next
  | [], [] => []
  | _ :: _, [] => before
  | _ :: _, _ :: _ => before ++ next
  end.

(** What all deletions do with the entry they found. *)
Definition del_found (ht : SilcHashTable) (found : nat * (list (K * V) * list (K * V)))
    (d : option D) : bool * SilcHashTable * list (D * K * V) :=
  let '(i, (before, rest)) := found in
  match rest with
  | [] => (false, ht, [])
  | e :: next =>
      let ht := set_chain ht i (unlink before next) (u32 (entry_count ht - 1)) in
      (true, if SILC_HASH_REHASH_DEC ht then silc_hash_table_rehash ht 0 else ht, destroy d e)
  end.

Definition silc_hash_table_del (ht : SilcHashTable) (key : K)
    : bool * SilcHashTable * list (D * K * V) :=
  del_found ht
    (silc_hash_table_find_internal ht key (hash (funs ht)) (hash_user_context (funs ht))
       (compare (funs ht)) (compare_user_context (funs ht)))
    (destructor (funs ht)).

Definition silc_hash_table_del_ext (ht : SilcHashTable) (key : K) (h : option SilcHashFunction)
    (hc : option U) (cmp : option SilcHashCompare) (cc : option U) (d : option D)
    : bool * SilcHashTable * list (D * K * V) :=
  del_found ht
    (silc_hash_table_find_internal ht key (default (hash (funs ht)) h)
       (or_else hc (hash_user_context (funs ht))) (or_else cmp (compare (funs ht)))
       (or_else cc (compare_user_context (funs ht))))
    (or_else d (destructor (funs ht))).

Definition silc_hash_table_del_by_context (ht : SilcHashTable) (key : K) (context : V)
    : bool * SilcHashTable * list (D * K * V) :=
  del_found ht
    (silc_hash_table_find_internal_context ht key context (hash (funs ht))
       (hash_user_context (funs ht)) (compare (funs ht)) (compare_user_context (funs ht)))
    (destructor (funs ht)).

Definition silc_hash_table_del_by_context_ext (ht : SilcHashTable) (key : K) (context : V)
    (h : option SilcHashFunction) (hc : option U) (cmp : option SilcHashCompare)
    (cc : option U) (d : option D) : bool * SilcHashTable * list (D * K * V) :=
  del_found ht
    (silc_hash_table_find_internal_context ht key context (default (hash (funs ht)) h)
       (or_else hc (hash_user_context (funs ht))) (or_else cmp (compare (funs ht)))
       (or_else cc (compare_user_context (funs ht))))
    (or_else d (destructor (funs ht))).

(** ** The table *)

Definition silc_hash_table_alloc (size : Z) (h : option SilcHashFunction) (hc : option U)
    (cmp : option SilcHashCompare) (cc : option U) (d : option D) (rehash : bool)
    : option SilcHashTable :=
  match h with
  | None => None
  | Some h =>
      let '(p, index) :=
        if negb (size =? 0) then silc_hash_table_primesize size
        else (prime SILC_HASH_TABLE_SIZE, SILC_HASH_TABLE_SIZE) in
      match silc_calloc p 8 with
      | None => None
      | Some _ =>
          Some (mkHT (replicate (Z.to_nat p) []) index 0 (mkFuns h cmp d hc cc) rehash)
      end
  end.

(** The destructor calls made. *)
Definition silc_hash_table_free (ht : SilcHashTable) : list (D * K * V) :=
  concat ((fun c => concat (destroy (destructor (funs ht)) <$> c)) <$>
            ztake (prime (table_size ht)) (table ht)).

Definition silc_hash_table_size (ht : SilcHashTable) : Z := prime (table_size ht).
Definition silc_hash_table_count (ht : SilcHashTable) : Z := entry_count ht.

(** ** Traversal with a cursor *)

(** [SilcHashTableList]; the entry pointer is the chain from it on, as it was
    when the cursor was moved there. *)
Record SilcHashTableList := mkHTL {
  htl_entry : list (K * V);
  htl_index : Z;
  htl_auto_rehash : bool
}.

Definition silc_hash_table_list (ht : SilcHashTable) : SilcHashTable * SilcHashTableList :=
  (set_rehash ht false, mkHTL [] 0 (auto_rehash ht)).

Definition silc_hash_table_list_reset (ht : SilcHashTable) (htl : SilcHashTableList)
    : SilcHashTable :=
  set_rehash ht (htl_auto_rehash htl).

(** The first chain that is not empty, from [index] on. *)
Fixpoint next_chain (chains : list (list (K * V))) (index : Z) : list (K * V) * Z :=
  match chains with
  | [] => ([], index)
  | [] :: chains => next_chain chains (index + 1)
  | c :: _ => (c, index + 1)
  end.

Definition silc_hash_table_get (ht : SilcHashTable) (htl : SilcHashTableList)
    : option (K * V) * SilcHashTableList :=
  if entry_count ht =? 0 then (None, htl)
  else
    let '(entry, index) :=
      match htl_entry htl with
      | [] => next_chain (zdrop (htl_index htl) (ztake (prime (table_size ht)) (table ht)))
                (htl_index htl)
      | e => (e, htl_index htl)
      end in
    match entry with
    | [] => (None, mkHTL [] index (htl_auto_rehash htl))
    | e :: next => (Some e, mkHTL next index (htl_auto_rehash htl))
    end.
End HashTable.
Arguments SilcHashTable K V U D : clear implicits.
Arguments SilcHashTableList K V : clear implicits.
Arguments HashTableFuns K U D : clear implicits.

(** ** Filtering and removing *)

Section Lists.
Context {A : Type}.
Implicit Types (p q : A -> bool) (l : list A).

Fixpoint remove_first p l : list A :=
  match l with [] => [] | e :: l => if p e then l else e :: remove_first p l end.

Lemma remove_filter p q l :
  (forall e, p e = true -> q e = true) ->
  List.filter q (remove_first p l) = remove_first p (List.filter q l).
Proof.
  intros H. induction l as [|e l IH]; cbn; [done|]. destruct (p e) eqn:P.
  - rewrite (H e P). cbn. by rewrite P.
  - cbn. destruct (q e); cbn; [by rewrite P, IH|done].
Qed.

Lemma remove_other p q l :
  (forall e, p e = true -> q e = false) -> List.filter q (remove_first p l) = List.filter q l.
Proof.
  intros H. induction l as [|e l IH]; cbn; [done|]. destruct (p e) eqn:P; cbn.
  - by rewrite (H e P).
  - by rewrite IH.
Qed.

Lemma filter_sub p q l :
  (forall e, p e = true -> q e = true) ->
  List.filter p (List.filter q l) = List.filter p l.
Proof.
  intros H. induction l as [|e l IH]; cbn; [done|]. destruct (q e) eqn:Q; cbn; rewrite IH; [done|].
  destruct (p e) eqn:P; [|done]. by rewrite (H e P) in Q.
Qed.

Lemma filter_ext_in p q l :
  (forall e, e ∈ l -> p e = q e) -> List.filter p l = List.filter q l.
Proof.
  induction l as [|e l IH]; intros H; cbn; [done|].
  rewrite (H e), IH; [done| |apply list_elem_of_here].
  intros x Hx. apply H. by apply list_elem_of_further.
Qed.

Lemma remove_len p l :
  zlen (remove_first p l) = zlen l - match List.filter p l with [] => 0 | _ => 1 end.
Proof.
  induction l as [|e l IH]; cbn [remove_first List.filter]; [done|].
  destruct (p e); rewrite ?zlen_cons; [lia|]. rewrite IH. lia.
Qed.

Lemma filter_nil p l : (forall e, e ∈ l -> p e = false) -> List.filter p l = [].
Proof.
  induction l as [|e l IH]; intros H; cbn; [done|].
  rewrite (H e) by apply list_elem_of_here. apply IH. intros x Hx.
  apply H. by apply list_elem_of_further.
Qed.

Lemma remove_none p l : List.filter p l = [] -> remove_first p l = l.
Proof.
  induction l as [|e l IH]; cbn; [done|]. destruct (p e); [done|]. intros E. by rewrite IH.
Qed.

Lemma elem_remove p l e : e ∈ remove_first p l -> e ∈ l.
Proof.
  induction l as [|x l IH]; cbn; [done|]. destruct (p x).
  - by apply list_elem_of_further.
  - rewrite !elem_of_cons. by intros [->|?]; auto.
Qed.

(** The chains: an entry of the concatenation is in one of them. *)
Lemma elem_concat (t : list (list A)) e : e ∈ concat t -> exists j, e ∈ nth j t [].
Proof.
  induction t as [|c t IH]; cbn; [by intros ?%not_elem_of_nil|].
  rewrite elem_of_app. intros [H|H]; [by exists 0%nat|].
  destruct (IH H) as [j ?]. by exists (S j).
Qed.

Lemma nth_concat (t : list (list A)) j e : e ∈ nth j t [] -> e ∈ concat t.
Proof.
  revert j. induction t as [|c t IH]; intros [|j]; cbn; try by intros ?%not_elem_of_nil.
  - rewrite elem_of_app. by left.
  - rewrite elem_of_app. intros H. right. by eapply IH.
Qed.

Lemma filter_concat p (t : list (list A)) : forall i,
  (forall j e, e ∈ nth j t [] -> p e = true -> j = i) ->
  List.filter p (concat t) = List.filter p (nth i t []).
Proof.
  induction t as [|c t IH]; intros i H; cbn [concat]; [by destruct i|].
  rewrite List.filter_app. destruct i as [|i]; cbn [nth].
  - rewrite (filter_nil p (concat t)), app_nil_r; [done|].
    intros e He. destruct (elem_concat t e He) as [j Hj].
    destruct (p e) eqn:P; [|done]. by specialize (H (S j) e Hj P).
  - rewrite (filter_nil p c); cbn [app].
    + apply IH. intros j e He P. specialize (H (S j) e He P). by injection H.
    + intros e He. destruct (p e) eqn:P; [|done]. by specialize (H 0%nat e He P).
Qed.

Lemma concat_insert_len (t : list (list A)) : forall i c,
  (i < length t)%nat ->
  zlen (concat (<[i := c]> t)) = zlen (concat t) - zlen (nth i t []) + zlen c.
Proof.
  induction t as [|x t IH]; intros [|i] c H; cbn [length] in H; [lia..| |].
  - cbn [insert list_insert concat nth]. rewrite !zlen_app. lia.
  - cbn [insert list_insert concat nth]. rewrite !zlen_app.
    fold (insert (M := list (list A)) i c t). rewrite IH by lia. lia.
Qed.

Lemma nth_insert (t : list (list A)) i j c :
  (i < length t)%nat -> nth j (<[i := c]> t) [] = if decide (j = i) then c else nth j t [].
Proof.
  intros H. rewrite !nth_lookup. case_decide as E.
  - subst. by rewrite list_lookup_insert_eq by done.
  - by rewrite list_lookup_insert_ne by done.
Qed.

Lemma foldl_concat {S : Type} (f : S -> A -> S) (t : list (list A)) : forall s,
  foldl (fun s c => foldl f s c) s t = foldl f s (concat t).
Proof. induction t as [|c t IH]; intros s; cbn; [done|]. by rewrite foldl_app, IH. Qed.

Lemma concat_replicate_nil n : concat (replicate n (@nil A)) = [].
Proof. by induction n. Qed.
End Lists.

(** ** Sizes *)

Lemma prime_range i : 0 <= i < 50 -> 3 <= prime i <= 67108879.
Proof.
  intros Hi. assert (F : Forall (fun p => 3 <= p <= 67108879) primesize) by by_compute.
  rewrite List.Forall_forall in F. apply F. unfold prime. apply nth_In.
  change (length primesize) with 50%nat. lia.
Qed.

Lemma primesize_loop_spec size ps : forall i,
  match primesize_loop i ps size with
  | Some (p, j) => i <= j < i + zlen ps /\ p = nth (Z.to_nat (j - i)) ps 0 /\ size <= p /\
                   Forall (fun q => q < size) (ztake (j - i) ps)
  | None => Forall (fun q => q < size) ps
  end.
Proof.
  induction ps as [|q ps IH]; intros i; cbn [primesize_loop]; [constructor|].
  rewrite zlen_cons. zlen_facts. destruct (Z.leb_spec size q) as [L|L].
  - rewrite Z.sub_diag. split; [lia|]. split; [done|]. split; [done|constructor].
  - specialize (IH (i + 1)). destruct (primesize_loop _ ps size) as [[p j]|]; cycle 1.
    { by constructor. }
    destruct IH as (H1 & H2 & H3 & H4). split; [lia|].
    replace (Z.to_nat (j - i)) with (S (Z.to_nat (j - (i + 1)))) by lia.
    split; [done|]. split; [done|]. unfold ztake in *.
    replace (Z.to_nat (j - i)) with (S (Z.to_nat (j - (i + 1)))) by lia.
    cbn [take]. by constructor.
Qed.

Lemma primesize_index size :
  0 <= (silc_hash_table_primesize size).2 < 50 /\
  (silc_hash_table_primesize size).1 = prime (silc_hash_table_primesize size).2.
Proof.
  pose proof (primesize_loop_spec size primesize 0) as H. unfold silc_hash_table_primesize.
  destruct (primesize_loop 0 primesize size) as [[p j]|]; [|done]. cbn [fst snd].
  change (zlen primesize) with 50 in H. destruct H as (H1 & H2 & _). split; [lia|].
  by rewrite Z.sub_0_r in H2.
Qed.

(** ** The invariant *)

Section Invariant.
Context {K V U D : Type} `{EqDecision K} `{EqDecision V}.
Abbreviation HT := (SilcHashTable K V U D).
Implicit Types (ht : HT) (f : HashTableFuns K U D).

(** The bucket of a key, and whether two keys are the same, by the table's own
    functions. *)
Definition own_hash ht (key : K) : nat :=
  SILC_HASH_TABLE_HASH ht (hash (funs ht)) key (hash_user_context (funs ht)).
Definition same f (k key : K) : bool :=
  match compare f with
  | Some c => c k key (compare_user_context f)
  | None => bool_decide (k = key)
  end.

(** What the table needs of its functions: the comparison is an equivalence the
    hash respects. *)
Class FunsOk f := {
  same_refl k : same f k k = true;
  same_sym k k' : same f k k' = true -> same f k' k = true;
  same_trans k k' k'' : same f k k' = true -> same f k' k'' = true -> same f k k'' = true;
  same_hash k k' : same f k k' = true ->
    hash f k (hash_user_context f) = hash f k' (hash_user_context f)
}.

Definition entries ht : list (K * V) := concat (table ht).
Definition key_of f (key : K) (e : K * V) : bool := same f e.1 key.
(** The entries of a key, in the order of their chain. *)
Definition matches ht (key : K) : list (K * V) := List.filter (key_of (funs ht) key) (entries ht).

Record wf ht : Prop := {
  wf_index : 0 <= table_size ht < 50;
  wf_table : zlen (table ht) = prime (table_size ht);
  wf_chain : forall i e, e ∈ chain ht i -> own_hash ht e.1 = i;
  wf_count : entry_count ht = zlen (entries ht)
}.

Lemma match_key_own f key (e : K * V) :
  match_key (compare f) (compare_user_context f) key e = key_of f key e.
Proof. done. Qed.

Lemma own_hash_lt ht key : wf ht -> (own_hash ht key < length (table ht))%nat.
Proof.
  intros [Hi Ht _ _]. pose proof (prime_range _ Hi). unfold zlen in Ht.
  unfold own_hash, SILC_HASH_TABLE_HASH.
  pose proof (Z.mod_pos_bound (hash (funs ht) key (hash_user_context (funs ht)))
                (prime (table_size ht)) ltac:(lia)). lia.
Qed.

Lemma own_hash_same ht `{!FunsOk (funs ht)} k key :
  same (funs ht) k key = true -> own_hash ht k = own_hash ht key.
Proof. intros E. unfold own_hash, SILC_HASH_TABLE_HASH. by rewrite (same_hash _ _ E). Qed.

(** The entries of a key are all in its bucket. *)
Lemma matches_chain ht `{!FunsOk (funs ht)} key :
  wf ht -> matches ht key = List.filter (key_of (funs ht) key) (chain ht (own_hash ht key)).
Proof.
  intros Hwf. apply filter_concat. intros j e He Hs.
  rewrite <- (wf_chain _ Hwf j e He). by apply own_hash_same.
Qed.

(** Replacing one chain by entries of the same bucket. *)
Lemma set_chain_ok ht `{!FunsOk (funs ht)} i c :
  wf ht -> (i < length (table ht))%nat -> (forall e, e ∈ c -> own_hash ht e.1 = i) ->
  let n := entry_count ht - zlen (chain ht i) + zlen c in
  wf (set_chain ht i c n) /\
  forall key, matches (set_chain ht i c n) key =
    if decide (own_hash ht key = i) then List.filter (key_of (funs ht) key) c
    else matches ht key.
Proof.
  intros Hwf Hi Hc n. destruct Hwf as [W1 W2 W3 W4] eqn:EW.
  assert (Hwf' : wf (set_chain ht i c n)).
  { split; cbn [set_chain set_table table_size table entry_count].
    - done.
    - unfold zlen. by rewrite length_insert.
    - intros j e. unfold chain; cbn [set_chain set_table table]. rewrite nth_insert by done.
      case_decide as E; [subst; apply Hc|apply W3].
    - unfold entries. cbn [table set_chain set_table]. rewrite concat_insert_len by done.
      unfold n. rewrite W4. done. }
  split; [done|]. intros key.
  rewrite (matches_chain (set_chain ht i c n) key Hwf').
  change (own_hash (set_chain ht i c n) key) with (own_hash ht key).
  unfold chain at 1; cbn [set_chain set_table table funs]. rewrite nth_insert by done.
  case_decide; [done|]. by rewrite (matches_chain ht key Hwf).
Qed.

(** ** Adding *)

Lemma add_entry_ok ht `{!FunsOk (funs ht)} k v :
  wf ht -> entry_count ht < 4294967295 ->
  let r := add_entry ht k v (hash (funs ht)) (hash_user_context (funs ht)) in
  r.1 = true /\ wf r.2 /\ funs r.2 = funs ht /\ auto_rehash r.2 = auto_rehash ht /\
  table_size r.2 = table_size ht /\ entry_count r.2 = entry_count ht + 1 /\
  forall key, matches r.2 key =
    matches ht key ++ (if same (funs ht) k key then [(k, v)] else []).
Proof.
  intros Hwf Hn. pose proof (wf_count _ Hwf) as Wc. zlen_facts. unfold add_entry.
  change (silc_calloc 1 24) with (Some (zeros 24)). cbn [fst snd].
  fold (own_hash ht k). pose proof (own_hash_lt ht k Hwf) as Hlt.
  rewrite u32_id by lia.
  destruct (set_chain_ok ht (own_hash ht k) (chain ht (own_hash ht k) ++ [(k, v)]) Hwf Hlt)
    as [W M].
  { intros e [He|He%list_elem_of_singleton]%elem_of_app; [by apply (wf_chain _ Hwf)|by subst]. }
  rewrite zlen_app in W, M.
  replace (entry_count ht - _ + _) with (entry_count ht + 1) in W, M
    by (change (zlen [(k, v)]) with 1; lia).
  split; [done|]. split; [done|]. do 4 (split; [done|]). intros key. rewrite M.
  case_decide as E.
  - rewrite (matches_chain ht key Hwf), E, List.filter_app. f_equal.
  - destruct (same (funs ht) k key) eqn:S; [|by rewrite app_nil_r].
    by rewrite (own_hash_same ht k key S) in E.
Qed.

Lemma add_no_rehash ht k v h hc :
  auto_rehash ht = false ->
  silc_hash_table_add_internal ht k v h hc = add_entry ht k v h hc.
Proof.
  intros E. unfold silc_hash_table_add_internal, add_entry.
  change (silc_calloc 1 24) with (Some (zeros 24)). unfold SILC_HASH_REHASH_INC.
  cbn [auto_rehash set_chain set_table]. by rewrite E.
Qed.

(** Adding the entries of a list, as a resize does. *)
Lemma add_entries_ok es : forall ht `{!FunsOk (funs ht)} f,
  wf ht -> f = funs ht -> entry_count ht + zlen es < 4294967296 ->
  let ht' := foldl (fun ht e => (add_entry ht e.1 e.2 (hash f) (hash_user_context f)).2) ht es in
  wf ht' /\ funs ht' = funs ht /\ table_size ht' = table_size ht /\
  entry_count ht' = entry_count ht + zlen es /\
  forall key, matches ht' key = matches ht key ++ List.filter (key_of f key) es.
Proof.
  induction es as [|[k v] es IH]; intros ht Hok f Hwf -> Hn; cbn [foldl].
  - cbn. rewrite Z.add_0_r. repeat split; try done; try apply Hwf. intros key. by rewrite app_nil_r.
  - rewrite zlen_cons in *. zlen_facts. cbn [fst snd].
    destruct (add_entry_ok ht k v Hwf) as (_ & W & F & _ & S & C & M); [lia|].
    set (ht1 := (add_entry ht k v _ _).2) in *.
    assert (FunsOk (funs ht1)) by by rewrite F.
    destruct (IH ht1 _ (funs ht) W) as (W' & F' & S' & C' & M'); [done|lia|].
    split; [done|]. split; [congruence|]. split; [congruence|]. split; [lia|].
    intros key. rewrite M', M, <- app_assoc. f_equal.
    cbn [List.filter]. unfold key_of at 2. cbn [fst]. by destruct (same (funs ht) k key).
Qed.

(** ** Resizing *)

Lemma empty_table_wf ht i : 0 <= i < 50 -> wf (empty_table ht i).
Proof.
  intros Hi. pose proof (prime_range i Hi). split; cbn [empty_table table table_size entry_count].
  - done.
  - unfold zlen. rewrite length_replicate. lia.
  - intros j e. unfold chain, empty_table; cbn [table]. rewrite nth_lookup.
    destruct (replicate _ _ !! j) as [c|] eqn:E; cbn.
    + apply lookup_replicate in E as [-> _]. by intros ?%not_elem_of_nil.
    + by intros ?%not_elem_of_nil.
  - unfold entries; cbn [table empty_table]. by rewrite concat_replicate_nil.
Qed.

Lemma set_rehash_ok ht b :
  wf ht -> wf (set_rehash ht b) /\ forall key, matches (set_rehash ht b) key = matches ht key.
Proof. intros [W1 W2 W3 W4]. by split. Qed.

(** What a resize keeps. *)
Definition resized ht ht' : Prop :=
  wf ht' /\ funs ht' = funs ht /\ auto_rehash ht' = auto_rehash ht /\
  entry_count ht' = entry_count ht /\ forall key, matches ht' key = matches ht key.

Lemma resized_refl ht : wf ht -> resized ht ht.
Proof. intros W. do 4 (split; [done|]). done. Qed.

Lemma rehash_ok ht `{!FunsOk (funs ht)} n :
  wf ht -> entry_count ht < 4294967296 ->
  resized ht (silc_hash_table_rehash ht n) /\
  table_size (silc_hash_table_rehash ht n) =
    (silc_hash_table_primesize (if n =? 0 then entry_count ht else n)).2.
Proof.
  intros Hwf Hn. pose proof (wf_count _ Hwf) as Wc. zlen_facts.
  unfold silc_hash_table_rehash, silc_hash_table_rehash_ext.
  replace (if negb (n =? 0) then n else entry_count ht) with (if n =? 0 then entry_count ht else n)
    by by destruct (n =? 0).
  destruct (primesize_index (if n =? 0 then entry_count ht else n)) as [Hi _].
  destruct (silc_hash_table_primesize _) as [p i]. cbn [snd] in *.
  destruct (Z.eqb_spec i (table_size ht)) as [->|Ei]; [by split; [apply resized_refl|]|].
  pose proof (prime_range i Hi) as Hp.
  rewrite silc_calloc_ok by (unfold SILC_MAX_ALLOC; lia).
  rewrite ztake_ge, foldl_concat by (rewrite (wf_table _ Hwf); lia).
  destruct (add_entries_ok (concat (table ht)) (empty_table ht i) (funs ht))
    as (W & F & S & C & M); [by apply empty_table_wf|done|cbn; unfold entries in Wc; lia|].
  set (ht1 := foldl _ _ _) in *.
  destruct (set_rehash_ok ht1 (auto_rehash ht) W) as [W' M'].
  split; [|done]. split; [done|]. split; [done|]. split; [done|].
  split; [by cbn in *; rewrite C, Wc|].
  intros key. rewrite M', M. unfold matches, entries; cbn [empty_table table funs].
  by rewrite concat_replicate_nil.
Qed.

(** ** The specification: the entries in the order they were added *)

Definition represents ht (l : list (K * V)) : Prop :=
  wf ht /\ entry_count ht = zlen l /\
  forall key, matches ht key = List.filter (key_of (funs ht) key) l.

Lemma resized_represents ht ht' l : resized ht ht' -> represents ht l -> represents ht' l.
Proof.
  intros (W & F & _ & C & M) (_ & C' & M'). split; [done|]. split; [congruence|].
  intros key. by rewrite M, F.
Qed.

Lemma maybe_rehash_ok ht `{!FunsOk (funs ht)} (b : bool) l :
  represents ht l -> zlen l < 4294967296 ->
  let ht' := if b then silc_hash_table_rehash ht 0 else ht in
  represents ht' l /\ funs ht' = funs ht /\ auto_rehash ht' = auto_rehash ht.
Proof.
  intros Hr Hl. pose proof Hr as (W & C & _). destruct b; [|done].
  destruct (rehash_ok ht 0 W) as [R _]; [lia|]. pose proof R as (_ & F & A & _).
  split; [by eapply resized_represents|done].
Qed.

Lemma add_ok ht `{!FunsOk (funs ht)} k v l :
  represents ht l -> zlen l < 4294967295 ->
  let r := silc_hash_table_add ht k v in
  r.1 = true /\ represents r.2 (l ++ [(k, v)]) /\ funs r.2 = funs ht.
Proof.
  intros (W & C & M) Hl.
  unfold silc_hash_table_add, silc_hash_table_add_internal.
  destruct (add_entry_ok ht k v W) as (E & W1 & F & _ & _ & C1 & M1); [lia|].
  destruct (add_entry ht k v _ _) as [ok ht1]. cbn [fst snd] in *. subst ok. cbn [fst snd].
  assert (R1 : represents ht1 (l ++ [(k, v)])).
  { split; [done|]. split; [rewrite C1, C, zlen_app; done|]. intros key.
    rewrite M1, M, F, List.filter_app. f_equal. }
  assert (FunsOk (funs ht1)) by by rewrite F.
  destruct (maybe_rehash_ok ht1 (SILC_HASH_REHASH_INC ht1) _ R1) as (R2 & F2 & _).
  { rewrite zlen_app. change (zlen [(k, v)]) with 1. lia. }
  split; [done|]. split; [done|congruence].
Qed.

Lemma chain_find_spec (p : K * V -> bool) c :
  let '(b, r) := chain_find p c in
  c = b ++ r /\ remove_first p c = b ++ tail r /\ head r = head (List.filter p c).
Proof.
  induction c as [|e c IH]; cbn; [done|]. destruct (p e); [done|].
  destruct (chain_find p c) as [b r]. destruct IH as (-> & E2 & E3). cbn. by rewrite E2.
Qed.

Lemma unlink_app (b n : list (K * V)) : unlink b n = b ++ n.
Proof. destruct b, n; cbn; by rewrite ?app_nil_r. Qed.

(** A predicate that picks entries of one key. *)
Definition of_key ht (k : K) (p : K * V -> bool) : Prop :=
  forall e, p e = true -> key_of (funs ht) k e = true.

Lemma chain_entries ht `{!FunsOk (funs ht)} k p l :
  represents ht l -> of_key ht k p ->
  List.filter p (chain ht (own_hash ht k)) = List.filter p l.
Proof.
  intros (W & _ & M) Hp. rewrite <- (filter_sub p _ _ Hp), <- (filter_sub p _ l Hp).
  by rewrite <- M, matches_chain.
Qed.

(** Deleting the first entry a predicate picks. *)
Lemma del_found_ok ht `{!FunsOk (funs ht)} k p d l :
  represents ht l -> of_key ht k p -> zlen l < 4294967296 ->
  let r := del_found ht (own_hash ht k, chain_find p (chain ht (own_hash ht k))) d in
  match List.filter p l with
  | [] => r = (false, ht, [])
  | e :: _ => r.1.1 = true /\ r.2 = destroy d e
  end /\ represents r.1.2 (remove_first p l) /\ funs r.1.2 = funs ht.
Proof.
  intros Hr Hp Hl. pose proof Hr as (W & C & M).
  pose proof (chain_entries ht k p l Hr Hp) as Ec. set (i := own_hash ht k) in *.
  pose proof (own_hash_lt ht k W) as Hlt. fold i in Hlt.
  pose proof (chain_find_spec p (chain ht i)) as Cf. unfold del_found.
  destruct (chain_find p (chain ht i)) as [b r]. destruct Cf as (C1 & C2 & C3).
  rewrite Ec in C3. destruct r as [|e next]; destruct (List.filter p l) as [|e' fl] eqn:El;
    try done.
  { cbn. split; [done|]. split; [|done]. by rewrite remove_none. }
  injection C3 as <-. cbn [tail] in C2.
  assert (Ez : zlen (remove_first p l) = zlen l - 1) by by rewrite remove_len, El.
  assert (Ec1 : zlen (b ++ next) = zlen (chain ht i) - 1).
  { rewrite <- C2, remove_len, Ec. done. }
  assert (Hpos : 0 <= zlen l - 1) by (rewrite <- Ez; zlen_facts; lia).
  destruct (set_chain_ok ht i (b ++ next) W Hlt) as [W1 M1].
  { intros x Hx. apply (wf_chain _ W). rewrite <- C2 in Hx. by eapply elem_remove. }
  rewrite u32_id, unlink_app by lia.
  replace (entry_count ht - zlen (chain ht i) + zlen (b ++ next)) with (entry_count ht - 1)
    in W1, M1 by lia.
  set (ht1 := set_chain ht i (b ++ next) (entry_count ht - 1)) in *.
  assert (R1 : represents ht1 (remove_first p l)).
  { split; [done|]. split; [cbn; lia|]. intros key. rewrite M1, <- C2.
    change (funs ht1) with (funs ht). set (q := key_of (funs ht) key).
    pose proof (M key) as Mk. pose proof (matches_chain ht key W) as Mc. fold q in Mk, Mc.
    destruct (same (funs ht) k key) eqn:S.
    - assert (Hpq : forall e, p e = true -> q e = true)
        by (intros x Hx; unfold q, key_of; eapply same_trans; [by apply (Hp x)|done]).
      rewrite decide_True by by rewrite <- (own_hash_same ht k key S).
      rewrite !remove_filter by done. rewrite <- Mk, Mc. f_equal.
      unfold i. by rewrite (own_hash_same ht k key S).
    - assert (Hpq : forall e, p e = true -> q e = false).
      { intros x Hx. destruct (q x) eqn:Q; [|done]. exfalso.
        enough (same (funs ht) k key = true) by congruence.
        eapply same_trans; [apply same_sym; by apply (Hp x)|done]. }
      rewrite !remove_other by done. rewrite <- Mk. case_decide as E; [|done].
      by rewrite Mc, E. }
  destruct (maybe_rehash_ok ht1 (SILC_HASH_REHASH_DEC ht1) _ R1) as (R2 & F2 & _); [lia|].
  cbn [fst snd]. by split.
Qed.
End Invariant.

(** ** Operations and their specification *)

Section Operations.
Context {K V U D : Type} `{EqDecision K} `{EqDecision V}.
Abbreviation HT := (SilcHashTable K V U D).
Implicit Types (ht : HT) (f : HashTableFuns K U D) (l : list (K * V)).

Inductive op :=
  | OpAdd (key : K) (context : V)
  | OpDel (key : K)
  | OpDelContext (key : K) (context : V)
  | OpFind (key : K)
  | OpFindContext (key : K) (context : V)
  | OpFindAll (key : K)
  | OpRehash (size : Z)
  | OpCount.

(** What an operation answers: a result with the destructor calls, an entry, a
    key, the calls of a callback, or a number. *)
Inductive answer :=
  | ADone (ok : bool) (destroyed : list (D * K * V))
  | AFound (e : option (K * V))
  | AKey (k : option K)
  | AAll (calls : list (K * option V))
  | ANothing
  | ACount (n : Z).

Definition collect (s : list (K * option V)) (k : K) (v : option V) : list (K * option V) :=
  s ++ [(k, v)].

Definition run_op (o : op) (ht : HT) : HT * answer :=
  match o with
  | OpAdd k v => let '(ok, ht) := silc_hash_table_add ht k v in (ht, ADone ok [])
  | OpDel k => let '(ok, ht, log) := silc_hash_table_del ht k in (ht, ADone ok log)
  | OpDelContext k v =>
      let '(ok, ht, log) := silc_hash_table_del_by_context ht k v in (ht, ADone ok log)
  | OpFind k => (ht, AFound (silc_hash_table_find ht k))
  | OpFindContext k v => (ht, AKey (silc_hash_table_find_by_context ht k v))
  | OpFindAll k => (ht, AAll (silc_hash_table_find_foreach ht k collect []))
  | OpRehash n => (silc_hash_table_rehash ht n, ANothing)
  | OpCount => (ht, ACount (silc_hash_table_count ht))
  end.

Definition key_context f (key : K) (context : V) (e : K * V) : bool :=
  key_of f key e && bool_decide (e.2 = context).

Definition spec_del f (p : K * V -> bool) l : list (K * V) * answer :=
  (remove_first p l,
   match List.filter p l with
   | [] => ADone false []
   | e :: _ => ADone true (destroy (destructor f) e)
   end).

(** The specification works on the list of the entries in the order they were
    added. *)
Definition spec_op f (o : op) l : list (K * V) * answer :=
  match o with
  | OpAdd k v => (l ++ [(k, v)], ADone true [])
  | OpDel k => spec_del f (key_of f k) l
  | OpDelContext k v => spec_del f (key_context f k v) l
  | OpFind k => (l, AFound (head (List.filter (key_of f k) l)))
  | OpFindContext k v => (l, AKey (fst <$> head (List.filter (key_context f k v) l)))
  | OpFindAll k =>
      (l, AAll match List.filter (key_of f k) l with
               | [] => [(k, None)]
               | es => (fun e => (e.1, Some e.2)) <$> es
               end)
  | OpRehash _ => (l, ANothing)
  | OpCount => (l, ACount (zlen l))
  end.

Fixpoint run {S} (step : op -> S -> S * answer) (ops : list op) (s : S) : S * list answer :=
  match ops with
  | [] => (s, [])
  | o :: ops =>
      let '(s, a) := step o s in
      let '(s, answers) := run step ops s in (s, a :: answers)
  end.

Lemma match_context_own f k v (e : K * V) :
  match_context (compare f) (compare f) (compare_user_context f) k v e = key_context f k v e.
Proof. unfold match_context, key_context, key_of, same. by destruct (compare f). Qed.

Lemma chain_find_ext (p q : K * V -> bool) c :
  (forall e, p e = q e) -> chain_find p c = chain_find q c.
Proof.
  intros H. induction c as [|e c IH]; cbn; [done|]. by rewrite H, IH.
Qed.

Lemma own_key ht k : of_key ht k (key_of (funs ht) k).
Proof. by intros e. Qed.

Lemma key_context_of_key ht k v : of_key ht k (key_context (funs ht) k v).
Proof. intros e. unfold key_context. by intros [? _]%andb_prop. Qed.

(** The callback is called for the entries of the key in order, or once with
    NULL. *)
Lemma find_foreach_ok {S} ht `{!FunsOk (funs ht)} key (fe : S -> K -> option V -> S) s l :
  represents ht l ->
  silc_hash_table_find_foreach ht key fe s =
  match List.filter (key_of (funs ht) key) l with
  | [] => fe s key None
  | es => foldl (fun s e => fe s e.1 (Some e.2)) s es
  end.
Proof.
  intros Hr. unfold silc_hash_table_find_foreach, silc_hash_table_find_internal_all.
  fold (own_hash ht key).
  rewrite <- (chain_entries ht key _ l Hr (own_key ht key)).
  set (c := chain _ _). set (p := key_of _ _).
  assert (E : forall s b, foldl (fun '(s, found) e =>
      if match_key (compare (funs ht)) (compare_user_context (funs ht)) key e
      then (fe s e.1 (Some e.2), true) else (s, found)) (s, b) c =
    (foldl (fun s e => fe s e.1 (Some e.2)) s (List.filter p c),
     match List.filter p c with [] => b | _ => true end)).
  { clearbody c. induction c as [|e c IH]; intros s0 b; cbn; [done|].
    rewrite match_key_own. fold p. destruct (p e); cbn; rewrite IH; [|done].
    by destruct (List.filter p c). }
  rewrite E. by destruct (List.filter p c).
Qed.

Lemma collect_all es s :
  foldl (fun s (e : K * V) => collect s e.1 (Some e.2)) s es =
  s ++ ((fun e => (e.1, Some e.2)) <$> es).
Proof.
  revert s. induction es as [|e es IH]; intros s; cbn; [by rewrite app_nil_r|].
  rewrite IH. unfold collect. by rewrite <- app_assoc.
Qed.

Lemma del_step ht `{!FunsOk (funs ht)} k p l r :
  represents ht l -> of_key ht k p -> zlen l < 4294967296 ->
  r = del_found ht (own_hash ht k, chain_find p (chain ht (own_hash ht k)))
        (destructor (funs ht)) ->
  let s := spec_del (funs ht) p l in
  ADone r.1.1 r.2 = s.2 /\ represents r.1.2 s.1 /\ funs r.1.2 = funs ht.
Proof.
  intros Hr Hp Hl ->. destruct (del_found_ok ht k p (destructor (funs ht)) l Hr Hp Hl) as (E & R & F).
  unfold spec_del. cbn [fst snd]. split; [|done].
  destruct (List.filter p l); [by rewrite E|by destruct E as [-> ->]].
Qed.

(** One step of the table is one step of the specification. *)
Lemma step_ok o ht `{!FunsOk (funs ht)} l :
  represents ht l -> zlen l < 4294967295 ->
  let r := run_op o ht in let s := spec_op (funs ht) o l in
  r.2 = s.2 /\ represents r.1 s.1 /\ funs r.1 = funs ht.
Proof.
  intros Hr Hl. pose proof Hr as (W & C & M).
  destruct o as [k v|k|k v|k|k v|k|n|]; cbn [run_op spec_op fst snd].
  - destruct (add_ok ht k v l Hr Hl) as (E & R & F).
    destruct (silc_hash_table_add ht k v) as [ok ht1]. cbn in *. by subst ok.
  - destruct (del_step ht k (key_of (funs ht) k) l (silc_hash_table_del ht k))
      as (E & R & F); [done|apply own_key|lia|done|].
    by destruct (silc_hash_table_del ht k) as [[ok ht1] log].
  - destruct (del_step ht k (key_context (funs ht) k v) l (silc_hash_table_del_by_context ht k v))
      as (E & R & F); [done|apply key_context_of_key|lia| |].
    + unfold silc_hash_table_del_by_context, silc_hash_table_find_internal_context.
      by rewrite (chain_find_ext _ _ _ (match_context_own (funs ht) k v)).
    + by destruct (silc_hash_table_del_by_context ht k v) as [[ok ht1] log].
  - split; [|done]. f_equal.
    rewrite <- (chain_entries ht k _ l Hr (own_key ht k)).
    pose proof (chain_find_spec (key_of (funs ht) k) (chain ht (own_hash ht k))) as S.
    unfold silc_hash_table_find, silc_hash_table_find_ext, silc_hash_table_find_internal_simple.
    cbn [or_else from_option]. unfold id. fold (own_hash ht k).
    rewrite (chain_find_ext _ (key_of (funs ht) k)) by done.
    destruct (chain_find _ _) as [b r]. by destruct S as (_ & _ & S).
  - split; [|done]. f_equal.
    rewrite <- (chain_entries ht k _ l Hr (key_context_of_key ht k v)).
    pose proof (chain_find_spec (key_context (funs ht) k v) (chain ht (own_hash ht k))) as S.
    unfold silc_hash_table_find_by_context, silc_hash_table_find_by_context_ext,
      silc_hash_table_find_internal_context.
    cbn [or_else from_option]. unfold id. fold (own_hash ht k).
    rewrite (chain_find_ext _ _ _ (match_context_own (funs ht) k v)).
    destruct (chain_find _ _) as [b r]. destruct S as (_ & _ & <-). by destruct r.
  - split; [|done]. rewrite (find_foreach_ok ht k collect [] l Hr).
    destruct (List.filter _ l) as [|e es]; [done|]. by rewrite collect_all.
  - destruct (rehash_ok ht n W) as [R _]; [lia|]. split; [done|].
    split; [by eapply resized_represents|]. by destruct R as (_ & F & _).
  - split; [|done]. unfold silc_hash_table_count. by rewrite C.
Qed.

Lemma spec_op_len f o l : zlen (spec_op f o l).1 <= zlen l + 1.
Proof.
  destruct o; cbn [spec_op spec_del fst]; rewrite ?zlen_app, ?remove_len; try lia.
  - change (zlen [(key, context)]) with 1. lia.
  - destruct (List.filter _ l); lia.
  - destruct (List.filter _ l); lia.
Qed.

Lemma run_ok ops : forall ht `{!FunsOk (funs ht)} l,
  represents ht l -> zlen l + zlen ops < 4294967296 ->
  let r := run run_op ops ht in let s := run (spec_op (funs ht)) ops l in
  r.2 = s.2 /\ represents r.1 s.1 /\ funs r.1 = funs ht.
Proof.
  induction ops as [|o ops IH]; intros ht Hok l Hr Hl; cbn [run]; [done|].
  rewrite zlen_cons in Hl. zlen_facts.
  destruct (step_ok o ht l Hr ltac:(lia)) as (E & R & F).
  pose proof (spec_op_len (funs ht) o l) as L.
  destruct (run_op o ht) as [ht1 a]. destruct (spec_op (funs ht) o l) as [l1 b].
  cbn [fst snd] in *. subst b. assert (Hok1 : FunsOk (funs ht1)) by by rewrite F.
  destruct (IH ht1 Hok1 l1 R) as (E2 & R2 & F2); [lia|]. rewrite F in E2, R2.
  destruct (run run_op ops ht1) as [ht2 as1]. destruct (run (spec_op (funs ht)) ops l1) as [l2 as2].
  cbn [fst snd] in *. subst. split; [done|]. split; [done|congruence].
Qed.

Lemma alloc_ok_table size h hc cmp cc d b :
  exists ht,
    silc_hash_table_alloc size (Some h) hc cmp cc d b = Some ht /\
    represents (U := U) (D := D) ht [] /\ funs ht = mkFuns h cmp d hc cc /\ auto_rehash ht = b.
Proof.
  unfold silc_hash_table_alloc.
  assert (Hi : forall r, r = (if negb (size =? 0) then silc_hash_table_primesize size
    else (prime SILC_HASH_TABLE_SIZE, SILC_HASH_TABLE_SIZE)) -> 0 <= r.2 < 50 /\ r.1 = prime r.2).
  { intros r ->. destruct (negb _); [apply primesize_index|done]. }
  destruct (if negb (size =? 0) then _ else _) as [p i].
  destruct (Hi _ eq_refl) as [Hr Hp]. cbn [fst snd] in *. subst p.
  pose proof (prime_range i Hr). rewrite silc_calloc_ok by (unfold SILC_MAX_ALLOC; lia).
  eexists. split; [done|]. split; [|done].
  pose proof (empty_table_wf (V := V) (mkHT [] 0 0 (mkFuns h cmp d hc cc) b) i Hr) as [W1 W2 W3 W4].
  split; [by split|]. split; [done|]. intros key.
  unfold matches, entries; cbn [table]. by rewrite concat_replicate_nil.
Qed.
End Operations.
Arguments op K V : clear implicits.
Arguments answer K V D : clear implicits.

(** ** Properties *)

(** C17: the hash table implements a list of entries: from an allocated table,
    any sequence of additions, deletions by key or by key and context, lookups,
    callbacks over a key, resizes and counts, with automatic resizing on or
    off, gives the answers and destructor calls of the same operations on the
    list of the entries in the order they were added, of which a key finds the
    first that is its own. *)
Theorem hash_table_refines {K V U D : Type} `{EqDecision K} `{EqDecision V}
    (f : HashTableFuns K U D) `{!FunsOk f} (size : Z) (rehash : bool) (ops : list (op K V)) :
  zlen ops < 4294967296 ->
  exists ht,
    silc_hash_table_alloc size (Some (hash f)) (hash_user_context f) (compare f)
      (compare_user_context f) (destructor f) rehash = Some ht /\
    (run run_op ops ht).2 = (run (spec_op f) ops []).2.
Proof.
  intros Hn.
  destruct (alloc_ok_table (V := V) size (hash f) (hash_user_context f) (compare f)
              (compare_user_context f) (destructor f) rehash) as (ht & E & R & F & _).
  exists ht. split; [done|]. assert (Ef : funs ht = f) by (rewrite F; by destruct f).
  assert (FunsOk (funs ht)) by by rewrite Ef.
  destruct (run_ok ops ht [] R) as (A & _); [by rewrite zlen_nil|]. by rewrite A, Ef.
Qed.

(** Keys that are equal modulo 100, hashed by that, with a destructor. *)
Definition mod_funs : HashTableFuns Z unit nat :=
  mkFuns (fun k _ => k mod 100) (Some (fun a b _ => a mod 100 =? b mod 100)) (Some 7%nat)
    None None.

#[local] Instance mod_funs_ok : FunsOk mod_funs.
Proof.
  split; unfold same; cbn; intros; rewrite ?Z.eqb_eq in *; congruence.
Defined.

Lemma hash_table_refines_witness :
  exists ht : SilcHashTable Z Z unit nat,
    silc_hash_table_alloc 0 (Some (hash mod_funs)) None (compare mod_funs) None (Some 7%nat)
      true = Some ht /\
    (run run_op [OpAdd 1 10; OpAdd 101 11; OpAdd 12 12; OpFindAll 1; OpRehash 100; OpDel 201;
                 OpFind 1; OpFindContext 12 12; OpDelContext 12 13; OpCount] ht).2 =
    [ADone true []; ADone true []; ADone true []; AAll [(1, Some 10); (101, Some 11)];
     ANothing; ADone true [(7%nat, 1, 10)]; AFound (Some (101, 11)); AKey (Some 12);
     ADone false []; ACount 2].
Proof.
  destruct (hash_table_refines mod_funs 0 true
    [OpAdd 1 10; OpAdd 101 11; OpAdd 12 12; OpFindAll 1; OpRehash 100; OpDel 201;
     OpFind 1; OpFindContext 12 12; OpDelContext 12 13; OpCount]) as (ht & E1 & E2);
    [done|].
  exists ht. split; [exact E1|]. rewrite E2. vm_compute. reflexivity.
Defined.

(** The size chosen is the first prime that is large enough. *)
Lemma primesize_spec size :
  let r := silc_hash_table_primesize size in
  0 <= r.2 < 50 /\ r.1 = prime r.2 /\ (size <= 67108879 -> size <= prime r.2) /\
  (67108879 < size -> r.2 = 49) /\ (forall i, 0 <= i < r.2 -> prime i < size).
Proof.
  cbn zeta. destruct (primesize_index size) as [Hi Hp]. split; [done|]. split; [done|].
  pose proof (primesize_loop_spec size primesize 0) as H. revert Hi Hp.
  unfold silc_hash_table_primesize.
  assert (T : forall n, (forall q, q ∈ take n primesize -> q < size) ->
    forall i, 0 <= i < Z.of_nat n -> i < 50 -> prime i < size).
  { intros n Hq i Hi Hi50. apply Hq. unfold prime. rewrite nth_lookup.
    destruct (primesize !! Z.to_nat i) as [x|] eqn:Ex; cbn.
    - apply list_elem_of_lookup. exists (Z.to_nat i). rewrite lookup_take_lt by lia. done.
    - apply lookup_ge_None in Ex. change (length primesize) with 50%nat in Ex. lia. }
  destruct (primesize_loop 0 primesize size) as [[p j]|]; cbn [fst snd]; intros Hi Hp.
  - destruct H as (H1 & -> & H3 & H4). rewrite Z.sub_0_r in *. fold (prime j) in H3 |- *.
    split; [done|]. pose proof (prime_range j Hi). split; [lia|].
    intros i Hij. apply (T (Z.to_nat j)); [|lia..].
    by apply list.Forall_forall.
  - assert (L : forall q, q ∈ primesize -> q < size) by by apply list.Forall_forall.
    split; [|split; [done|]].
    + intros Hs. specialize (L 67108879). assert (Hin : 67108879 ∈ primesize) by by_compute.
      specialize (L Hin). lia.
    + intros i Hi2. apply (T 50%nat); [by intros q Hq; apply L|lia..].
Qed.

(** chains stay short: after an addition to a table with automatic resizing
    there are at most twice as many entries as chains, and one, unless the
    table has the largest size; and a resize to fit picks the smallest size of
    the list that has a chain for every entry. *)
Theorem hash_table_load {K V U D : Type} `{EqDecision K} `{EqDecision V}
    (ht : SilcHashTable K V U D) `{!FunsOk (funs ht)} (l : list (K * V)) (k : K) (v : V) :
  represents ht l -> zlen l < 4294967295 -> auto_rehash ht = true ->
  let ht' := (silc_hash_table_add ht k v).2 in
  (zlen l + 1 <= 2 * silc_hash_table_size ht' + 1 \/ table_size ht' = 49) /\
  let ht'' := silc_hash_table_rehash ht 0 in
  (zlen l <= 67108879 -> zlen l <= silc_hash_table_size ht'') /\
  (forall i, 0 <= i < table_size ht'' -> prime i < zlen l).
Proof.
  intros Hr Hl Ha. pose proof Hr as (W & C & _). cbn zeta. split.
  - unfold silc_hash_table_add, silc_hash_table_add_internal, silc_hash_table_size.
    destruct (add_entry_ok ht k v W) as (E & W1 & F & A & _ & C1 & _); [lia|].
    destruct (add_entry ht k v _ _) as [ok ht1]. cbn [fst snd] in *. subst ok. cbn [snd].
    unfold SILC_HASH_REHASH_INC. rewrite A, Ha. cbn [andb].
    assert (FunsOk (funs ht1)) by by rewrite F.
    destruct (Z.ltb_spec (prime (table_size ht1)) (entry_count ht1 / 2)) as [L|L].
    + destruct (rehash_ok ht1 0 W1) as [_ ->]; [lia|]. cbn [Z.eqb].
      destruct (primesize_spec (entry_count ht1)) as (_ & _ & S1 & S2 & _).
      destruct (Z.le_gt_cases (entry_count ht1) 67108879); [|by right; auto].
      left. specialize (S1 ltac:(done)). pose proof (primesize_index (entry_count ht1)) as [Hi _].
      pose proof (prime_range _ Hi). lia.
    + left. pose proof (Z.div_mod (entry_count ht1) 2). 
      pose proof (Z.mod_pos_bound (entry_count ht1) 2). lia.
  - unfold silc_hash_table_size. destruct (rehash_ok ht 0 W) as [_ ->]; [lia|]. cbn [Z.eqb].
    rewrite C. destruct (primesize_spec (zlen l)) as (_ & _ & S1 & _ & S3). done.
Qed.

Lemma hash_table_load_witness :
  let ht : SilcHashTable Z Z unit nat := empty_table (mkHT [] 0 0 mod_funs true) 0 in
  let ht := set_rehash ht true in
  let ht' := (silc_hash_table_add ht 1 2).2 in
  (0 + 1 <= 2 * silc_hash_table_size ht' + 1 \/ table_size ht' = 49) /\
  let ht'' := silc_hash_table_rehash ht 0 in
  (0 <= 67108879 -> 0 <= silc_hash_table_size ht'') /\
  (forall i, 0 <= i < table_size ht'' -> prime i < 0).
Proof.
  apply (hash_table_load (set_rehash (empty_table (mkHT [] 0 0 mod_funs true) 0) true) [] 1 2);
    [|done..].
  split; [|done]. apply set_rehash_ok, empty_table_wf. done.
Defined.

(** [silc_hash_table_replace] replaces the first entry of the key's chain
    whether or not it has that key: an entry of another key that shares the
    chain is destroyed and no longer found, although nothing with the new key
    was in the table. *)
Theorem replace_collision {K V U D : Type} `{EqDecision K} `{EqDecision V}
    (ht : SilcHashTable K V U D) `{!FunsOk (funs ht)} (k k2 : K) (v v2 : V)
    (next : list (K * V)) :
  wf ht -> auto_rehash ht = false -> chain ht (own_hash ht k) = (k2, v2) :: next ->
  same (funs ht) k2 k = false ->
  let '(ok, ht', log) := silc_hash_table_replace ht k v in
  ok = true /\ log = destroy (destructor (funs ht)) (k2, v2) /\
  matches ht k2 = (k2, v2) :: matches ht' k2 /\ entry_count ht' = entry_count ht.
Proof.
  intros W Ha Hc Hs. unfold silc_hash_table_replace, silc_hash_table_replace_internal.
  fold (own_hash ht k). rewrite Hc. cbn [negb]. unfold SILC_HASH_REHASH_INC.
  cbn [auto_rehash set_chain set_table]. rewrite Ha. cbn [andb].
  split; [done|]. split; [done|].
  assert (E2 : own_hash ht k2 = own_hash ht k)
    by (apply (wf_chain _ W _ (k2, v2)); rewrite Hc; apply list_elem_of_here).
  destruct (set_chain_ok ht (own_hash ht k) ((k, v) :: next) W) as [_ M].
  { by apply own_hash_lt. }
  { intros e [->|He]%elem_of_cons; [done|]. apply (wf_chain _ W). rewrite Hc.
    by apply list_elem_of_further. }
  rewrite Hc, !zlen_cons in M.
  replace (entry_count ht - _ + _) with (entry_count ht) in M by lia.
  rewrite M, decide_True by done. rewrite (matches_chain ht k2 W), E2, Hc.
  cbn [List.filter]. unfold key_of at 1. cbn [fst]. rewrite same_refl.
  unfold key_of at 2. cbn [fst]. destruct (same (funs ht) k k2) eqn:S; [|done].
  by rewrite (same_sym _ _ S) in Hs.
Qed.

Definition two_keys : SilcHashTable Z Z unit nat :=
  (silc_hash_table_add (mkHT (replicate 3 []) 0 0 mod_funs false) 1 10).2.

Lemma two_keys_wf : wf two_keys.
Proof.
  pose proof (set_rehash_ok _ false
    (empty_table_wf (V := Z) (D := nat) (mkHT [] 0 0 mod_funs true) 0 ltac:(lia))) as [W _].
  pose proof (add_entry_ok (set_rehash (empty_table (mkHT [] 0 0 mod_funs true) 0) false) 1 10 W)
    as (_ & W1 & _); [done|]. exact W1.
Qed.

Lemma replace_collision_witness :
  let '(ok, ht', log) := silc_hash_table_replace two_keys 4 40 in
  ok = true /\ log = [(7%nat, 1, 10)] /\
  matches two_keys 1 = (1, 10) :: matches ht' 1 /\ entry_count ht' = entry_count two_keys.
Proof.
  apply (replace_collision two_keys 4 1 40 10 []); [|reflexivity..].
  apply two_keys_wf.
Defined.

Section Traversal.
Context {K V U D : Type} `{EqDecision K} `{EqDecision V}.
Implicit Types (ht : SilcHashTable K V U D) (htl : SilcHashTableList K V).

(** [while (silc_hash_table_get(htl, &key, &context))], at most [n] times:
    what was seen, the cursor, and whether the loop ended. *)
Fixpoint traverse (n : nat) ht htl : list (K * V) * SilcHashTableList K V * bool :=
  match n with
  | O => ([], htl, false)
  | S n =>
      match silc_hash_table_get ht htl with
      | (None, htl) => ([], htl, true)
      | (Some e, htl) =>
          let '(es, htl, ended) := traverse n ht htl in (e :: es, htl, ended)
      end
  end.

(** What the cursor has before it. *)
Definition pending ht htl : list (K * V) :=
  htl_entry htl ++ concat (zdrop (htl_index htl) (table ht)).

Lemma next_chain_spec (chains : list (list (K * V))) : forall i,
  let '(c, j) := next_chain chains i in
  i <= j /\ concat chains = c ++ concat (zdrop (j - i) chains) /\
  (c = [] -> concat chains = []).
Proof.
  induction chains as [|[|e c] chains IH]; intros i; cbn [next_chain].
  - split; [lia|]. by rewrite zdrop_nil.
  - specialize (IH (i + 1)). destruct (next_chain chains (i + 1)) as [c j].
    destruct IH as (H1 & H2 & H3).
    split; [lia|]. split; [|done]. cbn [concat app]. rewrite H2. do 2 f_equal. unfold zdrop.
    by replace (Z.to_nat (j - i)) with (S (Z.to_nat (j - (i + 1)))) by lia.
  - split; [lia|]. by replace (i + 1 - i) with 1 by lia.
Qed.

Lemma get_ok ht htl :
  wf ht -> 0 <= htl_index htl -> (entry_count ht = 0 -> pending ht htl = []) ->
  let '(o, htl') := silc_hash_table_get ht htl in
  o = head (pending ht htl) /\ pending ht htl' = tail (pending ht htl) /\
  0 <= htl_index htl' /\ htl_auto_rehash htl' = htl_auto_rehash htl.
Proof.
  intros W Hi He. unfold silc_hash_table_get. destruct (Z.eqb_spec (entry_count ht) 0) as [E|E].
  { by rewrite (He E). }
  rewrite ztake_ge by (rewrite (wf_table _ W); lia). unfold pending.
  destruct (htl_entry htl) as [|e next]; [|done].
  pose proof (next_chain_spec (zdrop (htl_index htl) (table ht)) (htl_index htl)) as N.
  destruct (next_chain _ _) as [c j]. destruct N as (N1 & N2 & N3). cbn [app].
  assert (Ez : zdrop (j - htl_index htl) (zdrop (htl_index htl) (table ht)) = zdrop j (table ht)).
  { unfold zdrop. rewrite drop_drop. f_equal. lia. }
  rewrite Ez in N2. destruct c as [|e next].
  - cbn [app] in N2. rewrite (N3 eq_refl) in N2 |- *. cbn [htl_entry htl_index app].
    rewrite <- N2. repeat split; lia.
  - rewrite N2. cbn. repeat split; lia.
Qed.

Lemma traverse_ok n : forall ht htl,
  wf ht -> 0 <= htl_index htl -> (entry_count ht = 0 -> pending ht htl = []) ->
  (length (pending ht htl) < n)%nat ->
  let '(es, htl', ended) := traverse n ht htl in
  es = pending ht htl /\ ended = true /\ htl_auto_rehash htl' = htl_auto_rehash htl.
Proof.
  induction n as [|n IH]; intros ht htl W Hi He Hn; [lia|]. cbn [traverse].
  pose proof (get_ok ht htl W Hi He) as G.
  destruct (silc_hash_table_get ht htl) as [o htl1]. destruct G as (-> & G2 & G3 & G4).
  destruct (pending ht htl) as [|e es] eqn:P; cbn [head]; [done|].
  cbn [tail length] in *. specialize (IH ht htl1 W G3).
  destruct (traverse n ht htl1) as [[es' htl2] ended].
  destruct IH as (-> & -> & ->); [by intros E%He|rewrite G2; lia|]. by rewrite G2.
Qed.
End Traversal.

(** a traversal with [silc_hash_table_list] and [silc_hash_table_get] ends,
    having visited every entry of the table exactly once; the table is not
    resized meanwhile, and [silc_hash_table_list_reset] leaves it as it was. *)
Theorem traversal_complete {K V U D : Type} `{EqDecision K} `{EqDecision V}
    (ht : SilcHashTable K V U D) :
  wf ht ->
  let '(ht1, htl) := silc_hash_table_list ht in
  let '(es, htl', ended) := traverse (S (Z.to_nat (silc_hash_table_count ht))) ht1 htl in
  es = entries ht /\ ended = true /\ auto_rehash ht1 = false /\
  silc_hash_table_list_reset ht1 htl' = ht.
Proof.
  intros W. cbn [silc_hash_table_list]. set (ht1 := set_rehash ht false).
  set (htl := mkHTL [] 0 (auto_rehash ht)).
  destruct (set_rehash_ok ht false W) as [W1 _]. fold ht1 in W1.
  assert (P : pending ht1 htl = entries ht) by done.
  pose proof (wf_count _ W) as C. unfold zlen in C.
  pose proof (traverse_ok (S (Z.to_nat (silc_hash_table_count ht))) ht1 htl W1) as T.
  rewrite P in T. destruct (traverse _ ht1 htl) as [[es htl'] ended].
  destruct T as (-> & -> & A); [done| |unfold silc_hash_table_count; lia|].
  { intros E. change (entry_count ht1) with (entry_count ht) in E.
    apply List.length_zero_iff_nil. lia. }
  split; [done|]. split; [done|]. split; [done|].
  unfold silc_hash_table_list_reset. rewrite A. by destruct ht.
Qed.

Lemma traversal_complete_witness :
  let '(ht1, htl) := silc_hash_table_list two_keys in
  let '(es, htl', ended) := traverse 2 ht1 htl in
  es = [(1, 10)] /\ ended = true /\ auto_rehash ht1 = false /\
  silc_hash_table_list_reset ht1 htl' = two_keys.
Proof.
  apply (traversal_complete two_keys).
  apply two_keys_wf.
Defined.
