(* ===== verification/HashFun.v ===== *)
(** * Hash and comparison functions ([lib/silcutil/silcutil.c])

    The functions hash tables are made with for IDs, names and pointers, and
    that each pair is what the tables need: a comparison that is an equivalence
    and a hash it respects ([FunsOk]).  A key that is a pointer to an ID is the
    ID it points to; the padding byte of the C structures, which [memcmp]
    compares as well, is taken to be the same in all IDs. *)

From S2P Require Import Prelude CTypes SilcID HashTable.

#[export] Instance SilcIDIP_eq_dec : EqDecision SilcIDIP.
Proof. solve_decision. Defined.
#[export] Instance SilcServerID_eq_dec : EqDecision SilcServerID.
Proof. solve_decision. Defined.
#[export] Instance SilcClientID_eq_dec : EqDecision SilcClientID.
Proof. solve_decision. Defined.
#[export] Instance SilcChannelID_eq_dec : EqDecision SilcChannelID.
Proof. solve_decision. Defined.
#[export] Instance id_ptr_eq_dec : EqDecision id_ptr.
Proof. solve_decision. Defined.

(** ** Hashes *)

(** One round of the string hashes: [h = (h << 4) + c], and the top four bits
    are folded back. *)
Definition hash_round (h c : Z) : Z :=
  let h := u32 (Z.shiftl h 4 + c) in
  let g := Z.land h 4026531840 in
  if negb (g =? 0) then Z.lxor (Z.lxor h (Z.shiftr g 24)) g else h.

Definition silc_hash_utf8_string {U} (key : list Z) (user_context : option U) : Z :=
  foldl hash_round 0 (c_string key).

Definition silc_hash_uint {U} (key : Z) (user_context : option U) : Z := u32 key.
Definition silc_hash_ptr {U} (key : Z) (user_context : option U) : Z := u32 key.

Definition silc_hash_client_id_hash {U} (key : list Z) (user_context : option U) : Z :=
  foldl hash_round 0 (ztake CLIENTID_HASH_LEN key).

(** The user context is the length. *)
Definition silc_hash_data (key : list Z) (user_context : option Z) : Z :=
  let len := default 0 user_context in
  foldl Z.lxor (u32 ((znth key 0 * znth key (len - 1) + 1) * len)) (ztake len key).

(** A port and a random number multiplied, and the bytes of an address. *)
Definition hash_ip (ip : SilcIDIP) (port rnd : Z) : Z :=
  foldl Z.lxor (u32 (port * rnd)) (ztake (data_len ip) (ip_data ip)).

(** The user context is the type of the ID; an ID of another type is not
    passed. *)
Definition silc_hash_id (key : id_ptr) (user_context : option Z) : Z :=
  let id_type := default SILC_ID_NONE user_context in
  if id_type =? SILC_ID_CLIENT then
    match key with ClientID id => silc_hash_client_id_hash (U := Z) (c_hash id) None | _ => 0 end
  else if id_type =? SILC_ID_SERVER then
    match key with ServerID id => hash_ip (s_ip id) (s_port id) (s_rnd id) | _ => 0 end
  else if id_type =? SILC_ID_CHANNEL then
    match key with ChannelID id => hash_ip (ch_ip id) (ch_port id) (ch_rnd id) | _ => 0 end
  else 0.

(** ** Comparisons *)

(** [SILC_ID_COMPARE_TYPE] for two IDs of the type. *)
Definition SILC_ID_COMPARE_TYPE (id1 id2 : id_ptr) (type : Z) : bool := bool_decide (id1 = id2).

Definition SILC_ID_COMPARE_HASH (id1 id2 : SilcClientID) : bool :=
  bool_decide (ztake CLIENTID_HASH_LEN (c_hash id1) = ztake CLIENTID_HASH_LEN (c_hash id2)).

Definition silc_hash_id_compare (key1 key2 : id_ptr) (user_context : option Z) : bool :=
  let id_type := default SILC_ID_NONE user_context in
  if id_type =? SILC_ID_CLIENT then
    match key1, key2 with
    | ClientID id1, ClientID id2 => SILC_ID_COMPARE_HASH id1 id2
    | _, _ => SILC_ID_COMPARE_TYPE key1 key2 id_type
    end
  else SILC_ID_COMPARE_TYPE key1 key2 id_type.

Definition silc_hash_id_compare_full (key1 key2 : id_ptr) (user_context : option Z) : bool :=
  SILC_ID_COMPARE_TYPE key1 key2 (default SILC_ID_NONE user_context).

Definition silc_hash_client_id_compare (key1 key2 : id_ptr) (user_context : option Z) : bool :=
  SILC_ID_COMPARE_TYPE key1 key2 SILC_ID_CLIENT.

Definition silc_hash_data_compare (key1 key2 : list Z) (user_context : option Z) : bool :=
  let len := default 0 user_context in bool_decide (ztake len key1 = ztake len key2).

(** [strlen] of both, then [memcmp]. *)
Definition silc_hash_utf8_compare {U} (key1 key2 : list Z) (user_context : option U) : bool :=
  let l1 := zlen (c_string key1) in
  let l2 := zlen (c_string key2) in
  if negb (l1 =? l2) then false else bool_decide (ztake l2 key1 = ztake l2 key2).

(** ** The pairs the code uses *)

Lemma utf8_compare_eq {U} a b (c : option U) :
  silc_hash_utf8_compare a b c = bool_decide (c_string a = c_string b).
Proof.
  unfold silc_hash_utf8_compare. destruct (Z.eqb_spec (zlen (c_string a)) (zlen (c_string b))) as [E|E]; cbn [negb].
  - rewrite c_string_take, <- E, c_string_take. done.
  - rewrite bool_decide_false; [done|]. intros E'. by rewrite E' in E.
Qed.

(** Client IDs are one key when their hashes are. *)
Definition id_class (type : Z) (id : id_ptr) : id_ptr + list Z :=
  match id with
  | ClientID c => if type =? SILC_ID_CLIENT then inr (ztake CLIENTID_HASH_LEN (c_hash c)) else inl id
  | _ => inl id
  end.

Lemma id_compare_class a b type :
  silc_hash_id_compare a b (Some type) = bool_decide (id_class type a = id_class type b).
Proof.
  unfold silc_hash_id_compare, SILC_ID_COMPARE_HASH, SILC_ID_COMPARE_TYPE. cbn [default from_option id].
  destruct a, b; cbn [id_class]; destruct (type =? SILC_ID_CLIENT); apply bool_decide_ext; split; congruence.
Qed.

Definition id_funs {D} (type : Z) (d : option D) : HashTableFuns id_ptr Z D :=
  mkFuns silc_hash_id (Some silc_hash_id_compare) d (Some type) (Some type).
Definition name_funs {U D} (d : option D) : HashTableFuns (list Z) U D :=
  mkFuns silc_hash_utf8_string (Some silc_hash_utf8_compare) d None None.
Definition ptr_funs {U D} (d : option D) : HashTableFuns Z U D :=
  mkFuns silc_hash_ptr None d None None.

(** A comparison that is equality of classes, and a hash of the class. *)
Lemma funs_ok_class {K U D X} `{EqDecision K} (f : HashTableFuns K U D) (class : K -> X) (h : X -> Z) :
  (forall k k', same f k k' = true <-> class k = class k') ->
  (forall k, hash f k (hash_user_context f) = h (class k)) -> FunsOk f.
Proof.
  intros E Eh. split; intros; rewrite ?E, ?Eh in *; congruence.
Qed.

#[export] Instance id_funs_ok {D} type (d : option D) : FunsOk (id_funs type d).
Proof.
  apply (funs_ok_class _ (id_class type)
    (fun x => match x with
              | inl k => silc_hash_id k (Some type)
              | inr s => silc_hash_client_id_hash (U := Z) s None
              end)).
  - intros k k'. unfold same. cbn. rewrite id_compare_class. apply bool_decide_eq_true.
  - intros k. cbn. destruct k; cbn [id_class]; try done.
    destruct (type =? SILC_ID_CLIENT) eqn:E; [|done].
    unfold silc_hash_id. change (default SILC_ID_NONE (Some type)) with type. rewrite E.
    unfold silc_hash_client_id_hash, CLIENTID_HASH_LEN, ztake. rewrite take_take. done.
Qed.

#[export] Instance name_funs_ok {U D} (d : option D) : FunsOk (name_funs (U := U) d).
Proof.
  apply (funs_ok_class _ c_string (foldl hash_round 0)).
  - intros k k'. unfold same. cbn. rewrite utf8_compare_eq. apply bool_decide_eq_true.
  - done.
Qed.

#[export] Instance ptr_funs_ok {U D} (d : option D) : FunsOk (ptr_funs (U := U) d).
Proof.
  apply (funs_ok_class _ (fun k => k) u32).
  - intros k k'. unfold same. cbn. apply bool_decide_eq_true.
  - done.
Qed.
