(* ===== verification/Packet.v ===== *)
(** * Packets ([lib/silccore/silcpacket.c])

    The packet stream: assembling, encrypting and authenticating packets into
    the output buffer, and taking the packets that have arrived out of the
    input buffer, as the code does it.  Ciphers are used through [CipherOps] and
    their mode; random bytes are arguments.  The stream's two directions are
    records of their own.  Packet processors, reference counts, locks and UDP
    remote streams are left out: a received packet goes to the callback
    [dispatch], which says whether the stream is still there afterwards. *)

From S2P Require Import Prelude CTypes Memory Buffer BuffFmt Fields SilcID Cipher Hmac.
Import Format Unformat.

Definition SILC_PACKET_MAX_LEN : Z := 65535.
Definition SILC_PACKET_MAX_ID_LEN : Z := 28.
Definition SILC_PACKET_DEFAULT_SIZE : Z := 1024.
Definition SILC_PACKET_HEADER_LEN : Z := 10.
Definition SILC_PACKET_MIN_HEADER_LEN : Z := 16.
Definition SILC_PACKET_MIN_HEADER_LEN_IV : Z := 32 + 1.
Definition SILC_PACKET_MAX_PADLEN : Z := 128.
Definition SILC_PACKET_DEFAULT_PADLEN : Z := 16.
Definition SILC_PACKET_MIN_LEN : Z := SILC_PACKET_HEADER_LEN + 1.

Definition SILC_PACKET_CHANNEL_MESSAGE : Z := 7.
Definition SILC_PACKET_PRIVATE_MESSAGE : Z := 9.
Definition SILC_PACKET_REKEY_DONE : Z := 23.
Definition SILC_PACKET_FLAG_PRIVMSG_KEY : Z := 1.
Definition SILC_PACKET_FLAG_LONG_PAD : Z := 32.

(** [flags & f]. *)
Definition has_flag (flags f : Z) : bool := negb (Z.land flags f =? 0).

(** ** Ciphers with a mode *)

Inductive SilcCipherMode :=
  | SILC_CIPHER_MODE_ECB | SILC_CIPHER_MODE_CBC | SILC_CIPHER_MODE_CTR
  | SILC_CIPHER_MODE_CFB | SILC_CIPHER_MODE_OFB.

#[export] Instance SilcCipherMode_eq_dec : EqDecision SilcCipherMode.
Proof. solve_decision. Defined.

(** The mode of a cipher, and its [set_iv]. *)
Class PacketCipher (C : Type) `{CipherOps C} := {
  silc_cipher_get_mode : SilcCipherMode;
  cipher_set_iv : C -> C
}.

(** ** Data *)

Inductive SilcPacketError :=
  | SILC_PACKET_ERR_READ | SILC_PACKET_ERR_WRITE | SILC_PACKET_ERR_MAC_FAILED
  | SILC_PACKET_ERR_DECRYPTION_FAILED | SILC_PACKET_ERR_UNKNOWN_SID | SILC_PACKET_ERR_MALFORMED | SILC_PACKET_ERR_NO_MEMORY.

(** [struct SilcPacketStruct]; an ID pointer points into the buffer. *)
Record SilcPacket := mkPacket {
  pk_buffer : SilcBuffer;
  pk_src_id : option (list Z);
  pk_dst_id : option (list Z);
  pk_src_id_len : Z;
  pk_src_id_type : Z;
  pk_dst_id_len : Z;
  pk_dst_id_type : Z;
  pk_type : Z;
  pk_flags : Z
}.

(** The engine's callbacks: a packet received, the end of the stream, an
    error. *)
Inductive event := EvPacket (p : SilcPacket) | EvEos | EvError (e : SilcPacketError).

Section Packets.
Context {C H : Type} `{PacketCipher C} `{HashOps H}.

(** The keys of one direction, [key[0]] and [key[1]], and its sequence number. *)
Record Direction := mkDir {
  key : option (SilcCipher C);
  old_key : option (SilcCipher C);
  hm : option (SilcHmac H);
  old_hm : option (SilcHmac H);
  psn : Z
}.

(** [struct SilcPacketStreamStruct]. *)
Record SilcPacketStream := mkStream {
  outbuf : SilcBuffer;
  inbuf : option SilcBuffer;
  snd_dir : Direction;
  rcv_dir : Direction;
  src_id : option (list Z);
  dst_id : option (list Z);
  src_id_len : Z;
  src_id_type : Z;
  dst_id_len : Z;
  dst_id_type : Z;
  sid : Z;
  is_router : bool;
  iv_included : bool
}.

Definition set_outbuf (s : SilcPacketStream) (b : SilcBuffer) : SilcPacketStream :=
  mkStream b (inbuf s) (snd_dir s) (rcv_dir s) (src_id s) (dst_id s) (src_id_len s)
    (src_id_type s) (dst_id_len s) (dst_id_type s) (sid s) (is_router s) (iv_included s).
Definition set_inbuf (s : SilcPacketStream) (b : option SilcBuffer) : SilcPacketStream :=
  mkStream (outbuf s) b (snd_dir s) (rcv_dir s) (src_id s) (dst_id s) (src_id_len s)
    (src_id_type s) (dst_id_len s) (dst_id_type s) (sid s) (is_router s) (iv_included s).
Definition set_snd (s : SilcPacketStream) (d : Direction) : SilcPacketStream :=
  mkStream (outbuf s) (inbuf s) d (rcv_dir s) (src_id s) (dst_id s) (src_id_len s)
    (src_id_type s) (dst_id_len s) (dst_id_type s) (sid s) (is_router s) (iv_included s).
Definition set_rcv (s : SilcPacketStream) (d : Direction) : SilcPacketStream :=
  mkStream (outbuf s) (inbuf s) (snd_dir s) d (src_id s) (dst_id s) (src_id_len s)
    (src_id_type s) (dst_id_len s) (dst_id_type s) (sid s) (is_router s) (iv_included s).

Definition set_key (d : Direction) (c : option (SilcCipher C)) : Direction :=
  mkDir c (old_key d) (hm d) (old_hm d) (psn d).
Definition set_old_key (d : Direction) (c : option (SilcCipher C)) : Direction :=
  mkDir (key d) c (hm d) (old_hm d) (psn d).
Definition set_hm (d : Direction) (h : option (SilcHmac H)) : Direction :=
  mkDir (key d) (old_key d) h (old_hm d) (psn d).
Definition set_psn (d : Direction) (n : Z) : Direction :=
  mkDir (key d) (old_key d) (hm d) (old_hm d) n.

(** ** Ciphers *)

(** [silc_cipher_set_iv]: a given IV is copied (16 bytes), and the cipher's own
    routine is called. *)
Definition silc_cipher_set_iv (c : SilcCipher C) (iv : option (list Z)) : SilcCipher C :=
  mkCipher (cipher_set_iv (context c))
    (match iv with Some v => ztake 16 v | None => c_iv c end).

Definition is_ctr : bool := bool_decide (silc_cipher_get_mode = SILC_CIPHER_MODE_CTR).

(** ** Lengths *)

(** [SILC_PACKET_LENGTH]: the true length and the length with padding. *)
Definition SILC_PACKET_LENGTH (packetdata : list Z) : Z * Z :=
  let truelen := SILC_GET16_MSB packetdata in
  (truelen, u32 (truelen + u8 (znth packetdata 4))).

Definition SILC_PACKET_DATALEN (data_len header_len : Z) : Z :=
  if SILC_PACKET_MAX_LEN <? u32 (data_len + header_len)
  then u32 (data_len - u32 (u32 (data_len + header_len) - SILC_PACKET_MAX_LEN))
  else data_len.

Definition pad_block (blocklen : Z) : Z :=
  if blocklen =? 0 then SILC_PACKET_DEFAULT_PADLEN else blocklen.

Definition SILC_PACKET_PADLEN (packetlen blocklen : Z) : Z :=
  let padlen := SILC_PACKET_DEFAULT_PADLEN - packetlen mod pad_block blocklen in
  if padlen <? 8 then padlen + pad_block blocklen else padlen.

Definition SILC_PACKET_PADLEN_MAX (packetlen blocklen : Z) : Z :=
  SILC_PACKET_MAX_PADLEN - packetlen mod pad_block blocklen.

(** ** Sending *)

(** The output buffer with room for the packet at its end, the offset of the
    packet, and the packet as a buffer over that memory. *)
Definition silc_packet_send_prepare (s : SilcPacketStream) (totlen : Z)
    (hmac : option (SilcHmac H)) : option (SilcBuffer * Z * SilcBuffer) :=
  let mac_len := match hmac with Some h => silc_hmac_len h | None => 0 end in
  let totlen := u32 (totlen + mac_len) in
  let ob := outbuf s in
  let ob :=
    if silc_buffer_taillen ob <? totlen
    then silc_buffer_realloc (Some ob) (u32 (silc_buffer_truelen ob + totlen))
    else Some ob in
  match ob with
  | None => None
  | Some ob =>
      let '(ob', oldptr) := silc_buffer_pull_tail ob totlen in
      match oldptr with
      | None => None   (* not reached: there is room *)
      | Some off =>
          let packet := silc_buffer_set (zdrop off (b_mem ob')) totlen in
          Some (ob', off, (silc_buffer_push_tail packet mac_len).1)
      end
  end.

(** The increment of the 64-bit packet counter at offset 4 of the IV. *)
Definition counter64 (iv : list Z) : list Z :=
  let pc1 := SILC_GET32_MSB (zdrop 4 iv) in
  let pc2 := u32 (SILC_GET32_MSB (zdrop 8 iv) + 1) in
  let pc1 := if pc2 =? 0 then u32 (pc1 + 1) else pc1 in
  splice 8 (SILC_PUT32_MSB pc2) (splice 4 (SILC_PUT32_MSB pc1) iv).

(** The IV of the cipher and the 8 bytes for the packet; [nonce] is the random
    byte. *)
Definition silc_packet_send_ctr_increment (included : bool) (iv : list Z) (nonce : Z)
    : list Z * list Z :=
  let iv := splice 12 (zeros 4) iv in
  if included then
    let r0 := u8 nonce in
    let r1 := u8 (r0 + znth iv 4) in
    let r2 := u8 (Z.lxor r0 r1) in
    let r3 := u8 (r0 + r2) in
    let pc1 := u32 (SILC_GET32_MSB (zdrop 8 iv) + 1) in
    let ret_iv := [r0; r1; r2; r3] ++ SILC_PUT32_MSB pc1 in
    (splice 4 ret_iv iv, ret_iv)
  else (counter64 iv, []).

(** The padding and the length to encrypt. *)
Definition packet_layout (local_is_router stream_is_router ctr : bool) (type flags truelen
    src_id_len dst_id_len psnlen block_len : Z) : Z * Z :=
  let header := SILC_PACKET_HEADER_LEN + src_id_len + dst_id_len in
  let special :=
    let padlen := if ctr then 0 else SILC_PACKET_PADLEN (header + psnlen) block_len in
    (padlen, header + padlen + psnlen) in
  if (type =? SILC_PACKET_PRIVATE_MESSAGE) && has_flag flags SILC_PACKET_FLAG_PRIVMSG_KEY
  then special
  else if type =? SILC_PACKET_CHANNEL_MESSAGE then
    if local_is_router && stream_is_router then
      let padlen := if ctr then 0 else SILC_PACKET_PADLEN (truelen + psnlen) block_len in
      (padlen, truelen + padlen + psnlen)
    else special
  else
    let padlen :=
      if has_flag flags SILC_PACKET_FLAG_LONG_PAD
      then SILC_PACKET_PADLEN_MAX (truelen + psnlen) block_len
      else if ctr then 0 else SILC_PACKET_PADLEN (truelen + psnlen) block_len in
    (padlen, truelen + padlen + psnlen).

(** [random]: the nonce byte followed by the padding bytes.  Returns the
    stream, the cipher and the HMAC after it, and the result. *)
Definition silc_packet_send_raw (local_is_router : bool) (s : SilcPacketStream)
    (type flags src_type : Z) (src : option (list Z)) (src_len dst_type : Z)
    (dst : option (list Z)) (dst_len : Z) (data : option (list Z)) (data_len : Z)
    (cipher : option (SilcCipher C)) (hmac : option (SilcHmac H)) (random : list Z)
    : SilcPacketStream * option (SilcCipher C) * option (SilcHmac H) * bool :=
  let block_len := match cipher with Some c => silc_cipher_get_block_len c | None => 0 end in
  let data_len := SILC_PACKET_DATALEN data_len (SILC_PACKET_HEADER_LEN + src_len + dst_len) in
  let truelen := data_len + SILC_PACKET_HEADER_LEN + src_len + dst_len in
  let ctr := match cipher with Some _ => is_ctr | None => false end in
  let '(cipher, iv, ivlen, psnlen) :=
    match cipher with
    | Some c =>
        if is_ctr then
          let '(civ, ret_iv) :=
            silc_packet_send_ctr_increment (iv_included s) (c_iv c) (znth random 0) in
          let c := mkCipher (context c) civ in
          if iv_included s then (Some c, sid s :: ret_iv, 8 + 1, 4) else (Some c, [], 0, 0)
        else
          if iv_included s then (Some c, sid s :: ztake block_len (c_iv c), block_len + 1, 4)
          else (Some c, [], 0, 0)
    | None => (None, [], 0, 0)
    end in
  let '(padlen, enclen) :=
    packet_layout local_is_router (is_router s) ctr type flags truelen src_len dst_len
      psnlen block_len in
  let flags := Z.land flags (255 - SILC_PACKET_FLAG_LONG_PAD) in
  let tmppad := ztake padlen (zdrop 1 random) in
  match silc_packet_send_prepare s (truelen + padlen + ivlen + psnlen) hmac with
  | None => (s, cipher, hmac, false)
  | Some (ob, off, packet) =>
      let seq := SILC_PUT32_MSB (psn (snd_dir s)) in
      let write packet := set_outbuf s (set_mem ob (splice off (b_mem packet) (b_mem ob))) in
      let '(packet, i) := silc_buffer_format packet
        [PARAM_NSTRING (Some iv) ivlen; PARAM_NSTRING (Some seq) psnlen;
         PARAM_UI16_SHORT truelen; PARAM_UI8_CHAR flags; PARAM_UI8_CHAR type;
         PARAM_UI8_CHAR padlen; PARAM_UI8_CHAR 0; PARAM_UI8_CHAR src_len;
         PARAM_UI8_CHAR dst_len; PARAM_UI8_CHAR src_type; PARAM_NSTRING src src_len;
         PARAM_UI8_CHAR dst_type; PARAM_NSTRING dst dst_len;
         PARAM_NSTRING (Some tmppad) padlen; PARAM_NSTRING data data_len] in
      if i <? 0 then (write packet, cipher, hmac, false)
      else
        let '(packet, cipher, ok) :=
          match cipher with
          | Some c =>
              let c := silc_cipher_set_iv c None in
              match silc_cipher_encrypt c (zdrop ivlen (silc_buffer_data packet)) enclen None with
              | Some (dst, c, _) =>
                  (set_mem packet (splice (b_data packet + ivlen) dst (b_mem packet)), Some c, true)
              | None => (packet, Some c, false)
              end
          | None => (packet, None, true)
          end in
        if negb ok then (write packet, cipher, hmac, false)
        else
          match hmac with
          | Some h =>
              let h := silc_hmac_init h in
              let h := silc_hmac_update h seq 4 in
              let h := silc_hmac_update h (silc_buffer_data packet) (silc_buffer_len packet) in
              let '(h, mac) := silc_hmac_final h in
              let packet := set_mem packet (splice (b_tail packet) mac (b_mem packet)) in
              let s := write packet in
              (set_snd s (set_psn (snd_dir s) (u32 (psn (snd_dir s) + 1))), cipher, Some h, true)
          | None => (write packet, cipher, None, true)
          end
  end.

(** What one call of [silc_stream_write] does: it takes some bytes (at least
    one and at most those it is given, whatever [n]), the other end is closed, an
    error, or it cannot write now. *)
Inductive write_result := WroteSome (n : Z) | WriteEOS | WriteError | WriteLater.

(** [silc_packet_stream_write] on a stream that is not UDP, given what the
    calls of [silc_stream_write] return, as many as are made: the bytes taken
    by the stream, and the callback after which it returns FALSE, if any. *)
Fixpoint write_loop (ob : SilcBuffer) (results : list write_result)
    : SilcBuffer * list Z * option event :=
  if silc_buffer_len ob <=? 0 then (silc_buffer_reset ob, [], None)
  else
    match results with
    | WroteSome n :: results =>
        let n := Z.max 1 (Z.min n (silc_buffer_len ob)) in
        let sent := ztake n (silc_buffer_data ob) in
        let '(ob, rest, ev) := write_loop (silc_buffer_pull ob n).1 results in
        (ob, sent ++ rest, ev)
    | WriteEOS :: _ => (silc_buffer_reset ob, [], Some EvEos)
    | WriteError :: _ => (silc_buffer_reset ob, [], Some (EvError SILC_PACKET_ERR_WRITE))
    | WriteLater :: _ | [] => (ob, [], None)
    end.

Definition silc_packet_stream_write (s : SilcPacketStream) (results : list write_result)
    : SilcPacketStream * list Z * option event :=
  let '(ob, sent, ev) := write_loop (outbuf s) results in (set_outbuf s ob, sent, ev).

(** The stream's own IDs and keys. *)
Definition silc_packet_send (local_is_router : bool) (s : SilcPacketStream) (type flags : Z)
    (data : option (list Z)) (data_len : Z) (random : list Z) (results : list write_result)
    : SilcPacketStream * list Z * option event * bool :=
  let '(s, c, h, ret) :=
    silc_packet_send_raw local_is_router s type flags (src_id_type s) (src_id s) (src_id_len s)
      (dst_id_type s) (dst_id s) (dst_id_len s) data data_len (key (snd_dir s))
      (hm (snd_dir s)) random in
  let s := set_snd s (set_hm (set_key (snd_dir s) c) h) in
  if ret then
    let '(s, sent, ev) := silc_packet_stream_write s results in
    (s, sent, ev, match ev with None => true | Some _ => false end)
  else (s, [], None, false).

(** ** Receiving *)

(** [None] for no HMAC; the MAC is the first [hmac->len] bytes at
    [packet_mac]. *)
Definition silc_packet_check_mac (hmac : option (SilcHmac H)) (data : list Z) (data_len : Z)
    (packet_mac : list Z) (packet_seq : option (list Z)) (sequence : Z)
    : option (SilcHmac H) * bool :=
  match hmac with
  | None => (None, true)
  | Some h =>
      let h := silc_hmac_init h in
      let h := match packet_seq with
               | None => silc_hmac_update h (SILC_PUT32_MSB sequence) 4
               | Some seq => silc_hmac_update h seq 4
               end in
      let h := silc_hmac_update h data data_len in
      let '(h, mac) := silc_hmac_final h in
      (Some h, bool_decide (ztake (hm_len h) packet_mac = mac))
  end.

Definition silc_packet_receive_ctr_increment (included : bool) (iv packet_iv : list Z) : list Z :=
  let iv := if included then splice 4 (ztake 8 packet_iv) iv else counter64 iv in
  splice 12 (zeros 4) iv.

Definition silc_packet_special_len (data : list Z) : Z :=
  u8 (znth data 4) + u8 (znth data 6) + u8 (znth data 7) + SILC_PACKET_HEADER_LEN.

(** Decrypts [len] bytes at the data pointer in place, with the cipher's IV. *)
Definition decrypt_area (c : SilcCipher C) (buffer : SilcBuffer) (len : Z)
    : option (SilcCipher C * SilcBuffer) :=
  match silc_cipher_decrypt c (silc_buffer_data buffer) len None with
  | Some (dst, c, _) => Some (c, set_mem buffer (splice (b_data buffer) dst (b_mem buffer)))
  | None => None
  end.

(** [None] for -1; otherwise the code's 0 or 1 is [negb normal]. *)
Definition silc_packet_decrypt (cipher : option (SilcCipher C)) (buffer : SilcBuffer)
    (normal : bool) : option (option (SilcCipher C) * SilcBuffer) :=
  match cipher with
  | None => Some (None, buffer)
  | Some c =>
      let r :=
        if normal then decrypt_area c buffer (silc_buffer_len buffer)
        else
          let block_len := silc_cipher_get_block_len c in
          let buffer := (silc_buffer_push buffer block_len).1 in
          let len := u16 (silc_packet_special_len (silc_buffer_data buffer) - block_len) in
          let buffer := (silc_buffer_pull buffer block_len).1 in
          if silc_buffer_len buffer <? len then None else decrypt_area c buffer len in
      match r with
      | Some (c, buffer) => Some (Some c, buffer)
      | None => None
      end
  end.

Definition set_buffer (p : SilcPacket) (b : SilcBuffer) : SilcPacket :=
  mkPacket b (pk_src_id p) (pk_dst_id p) (pk_src_id_len p) (pk_src_id_type p)
    (pk_dst_id_len p) (pk_dst_id_type p) (pk_type p) (pk_flags p).

(** The packet with the header parsed and the buffer at its payload, or [None]
    for FALSE. *)
Definition silc_packet_parse (packet : SilcPacket) : option SilcPacket :=
  let buffer := pk_buffer packet in
  let padlen := u8 (znth (silc_buffer_data buffer) 4) in
  let '(buffer, ret, o) :=
    silc_buffer_unformat buffer [U_ADVANCE; U_OFFSET 6; U_UI8_CHAR; U_UI8_CHAR; U_UI8_CHAR] in
  if ret =? -1 then None
  else
    match o with
    | [VInt src_id_len; VInt dst_id_len; VInt src_id_type] =>
        if (SILC_PACKET_MAX_ID_LEN <? src_id_len) || (SILC_PACKET_MAX_ID_LEN <? dst_id_len)
        then None
        else
          let '(buffer, ret, o) :=
            silc_buffer_unformat buffer
              [U_ADVANCE; U_DATA src_id_len; U_UI8_CHAR; U_DATA dst_id_len; U_OFFSET padlen] in
          if ret =? -1 then None
          else
            match o with
            | [VPtr src; VInt dst_id_type; VPtr dst] =>
                if (SILC_ID_CHANNEL <? src_id_type) || (SILC_ID_CHANNEL <? dst_id_type) then None
                else Some (mkPacket buffer src dst src_id_len src_id_type dst_id_len dst_id_type
                             (pk_type packet) (pk_flags packet))
            | _ => None
            end
    | _ => None
    end.

(** A packet from the pool of free ones, or a new one. *)
Definition silc_packet_alloc (pool : list SilcBuffer) : option (SilcBuffer * list SilcBuffer) :=
  match pool with
  | b :: pool => Some (b, pool)
  | [] =>
      match silc_malloc SILC_PACKET_DEFAULT_SIZE with
      | None => None
      | Some tmp => Some (silc_buffer_reset (silc_buffer_set tmp SILC_PACKET_DEFAULT_SIZE), [])
      end
  end.

(** [silc_packet_free]: back to the pool. *)
Definition silc_packet_free (buffer : SilcBuffer) (pool : list SilcBuffer) : list SilcBuffer :=
  pool ++ [silc_buffer_reset buffer].

(** What the first block of a packet gives: the cipher, whether it is the old
    key, the HMAC, the header read, the sequence number in the packet, the IV
    after the block, and the lengths. *)
Record first_block := mkFirst {
  f_cipher : option (SilcCipher C);
  f_old : bool;
  f_hmac : option (SilcHmac H);
  f_header : list Z;
  f_seq : option (list Z);
  f_iv : list Z;
  f_ivlen : Z;
  f_psnlen : Z;
  f_block_len : Z
}.

(** The cipher, HMAC and IV to use; [None] for an unknown security ID. *)
Definition select_key (s : SilcPacketStream) (c : SilcCipher C) (data : list Z)
    : option (SilcCipher C * bool * option (SilcHmac H) * list Z * Z * Z) :=
  let d := rcv_dir s in
  let block_len := silc_cipher_get_block_len c in
  if iv_included s then
    let id := u8 (znth data 0) in
    let '(iv, ivlen) :=
      if is_ctr
      then (silc_packet_receive_ctr_increment true (ztake block_len (c_iv c)) (zdrop 1 data), 8 + 1)
      else (ztake block_len (zdrop 1 data), block_len + 1) in
    if negb (id =? sid s) then
      match old_key d, old_hm d with
      | Some old, None =>
          if (0 <? id) && (0 <? sid s) && (sid s - 1 =? id)
          then Some (old, true, None, iv, ivlen, 4) else None
      | _, _ => None
      end
    else Some (c, false, hm d, iv, ivlen, 4)
  else
    let iv := ztake block_len (c_iv c) in
    Some (c, false, hm d,
          if is_ctr then silc_packet_receive_ctr_increment false iv [] else iv, 0, 0).

(** Should the cipher fail, the 16 bytes on the stack are not written. *)
Definition read_first_block (s : SilcPacketStream) (data : list Z) : option first_block :=
  match key (rcv_dir s) with
  | Some c =>
      match select_key s c data with
      | None => None
      | Some (c, old, hmac, iv, ivlen, psnlen) =>
          let block_len := silc_cipher_get_block_len c in
          let c := if is_ctr then silc_cipher_set_iv c None else c in
          let '(tmp, c, iv) :=
            match silc_cipher_decrypt c (zdrop ivlen data) block_len (Some iv) with
            | Some (tmp, c, iv') => (tmp, c, default iv iv')
            | None => (zeros SILC_PACKET_MIN_HEADER_LEN, c, iv)
            end in
          if iv_included s
          then Some (mkFirst (Some c) old hmac (zdrop 4 tmp) (Some tmp) iv ivlen psnlen block_len)
          else Some (mkFirst (Some c) old hmac tmp None iv ivlen psnlen block_len)
      end
  | None =>
      Some (mkFirst None false (hm (rcv_dir s)) data None [] 0 0 SILC_PACKET_MIN_HEADER_LEN)
  end.

Definition put_keys (s : SilcPacketStream) (old : bool) (c : option (SilcCipher C))
    (h : option (SilcHmac H)) : SilcPacketStream :=
  let d := rcv_dir s in
  match c with
  | None => set_rcv s (set_hm d h)
  | Some _ =>
      if old then set_rcv s (set_old_key d c) else set_rcv s (set_hm (set_key d c) h)
  end.

(** Whether the whole packet is encrypted. *)
Definition packet_normal (local_is_router stream_is_router : bool) (type flags : Z) : bool :=
  if local_is_router then
    if (type =? SILC_PACKET_PRIVATE_MESSAGE) && has_flag flags SILC_PACKET_FLAG_PRIVMSG_KEY
    then false
    else if negb (type =? SILC_PACKET_CHANNEL_MESSAGE) ||
            ((type =? SILC_PACKET_CHANNEL_MESSAGE) && stream_is_router)
    then true else false
  else
    if (type =? SILC_PACKET_PRIVATE_MESSAGE) && has_flag flags SILC_PACKET_FLAG_PRIVMSG_KEY
    then false
    else if negb (type =? SILC_PACKET_CHANNEL_MESSAGE) then true else false.

(** One round of the loop of [silc_packet_read_process]: more data is needed,
    the loop is left ([goto out] or [break]), or it goes on. *)
Inductive round :=
  | RWait (s : SilcPacketStream)
  | ROut (s : SilcPacketStream) (evs : list event) (pool : list SilcBuffer)
  | RNext (s : SilcPacketStream) (inb : SilcBuffer) (evs : list event) (pool : list SilcBuffer).

(** The packet's buffer before decryption, or [None] for lack of memory. *)
Definition fill_packet (buf : SilcBuffer) (f : first_block) (data : list Z) (paddedlen : Z)
    : option SilcBuffer :=
  let grown :=
    if silc_buffer_truelen buf <? paddedlen
    then silc_buffer_realloc (Some buf)
           (u32 (silc_buffer_truelen buf + (paddedlen - silc_buffer_truelen buf)))
    else Some buf in
  match grown with
  | None => None
  | Some buf =>
      let n := f_block_len f - f_psnlen f in
      let buf := (silc_buffer_pull_tail buf paddedlen).1 in
      let buf := (silc_buffer_put buf (f_header f) n).1 in
      let buf := (silc_buffer_pull buf n).1 in
      Some (silc_buffer_put buf (zdrop (f_ivlen f + f_psnlen f + n) data)
              (u32 (paddedlen - f_ivlen f - f_psnlen f - n))).1
  end.

(** From the allocation of the packet to its dispatch. *)
Definition take_packet (s : SilcPacketStream) (inb : SilcBuffer) (f : first_block)
    (type flags paddedlen mac_len : Z) (normal : bool) (pool : list SilcBuffer)
    (dispatch : SilcPacket -> bool) : round :=
  match silc_packet_alloc pool with
  | None => ROut s [EvError SILC_PACKET_ERR_NO_MEMORY] pool
  | Some (buf, pool) =>
      match fill_packet buf f (silc_buffer_data inb) paddedlen with
      | None => ROut s [EvError SILC_PACKET_ERR_NO_MEMORY] (silc_packet_free buf pool)
      | Some buf =>
          let cipher :=
            match f_cipher f with
            | Some c => Some (silc_cipher_set_iv c (Some (f_iv f)))
            | None => None
            end in
          match silc_packet_decrypt cipher buf normal with
          | None =>
              ROut (put_keys s (f_old f) cipher (f_hmac f))
                [EvError SILC_PACKET_ERR_DECRYPTION_FAILED] (silc_packet_free buf pool)
          | Some (cipher, buf) =>
              let s := put_keys s (f_old f) cipher (f_hmac f) in
              let s := match cipher with
                       | Some _ => set_rcv s (set_psn (rcv_dir s) (u32 (psn (rcv_dir s) + 1)))
                       | None => s
                       end in
              let buf := (silc_buffer_push buf (f_block_len f)).1 in
              let inb := (silc_buffer_pull inb (u32 (paddedlen + mac_len))).1 in
              match silc_packet_parse (mkPacket buf None None 0 0 0 0 type flags) with
              | None => ROut s [EvError SILC_PACKET_ERR_MALFORMED] (silc_packet_free buf pool)
              | Some p =>
                  if dispatch p then RNext s inb [EvPacket p] pool
                  else ROut s [EvPacket p] pool
              end
          end
      end
  end.

Definition read_round (local_is_router : bool) (s : SilcPacketStream) (inb : SilcBuffer)
    (pool : list SilcBuffer) (dispatch : SilcPacket -> bool) : round :=
  let len := silc_buffer_len inb in
  let data := silc_buffer_data inb in
  if len <? (if iv_included s then SILC_PACKET_MIN_HEADER_LEN_IV else SILC_PACKET_MIN_HEADER_LEN)
  then RWait s
  else
    let mac_len := match hm (rcv_dir s) with Some h => silc_hmac_len h | None => 0 end in
    match read_first_block s data with
    | None => ROut s [EvError SILC_PACKET_ERR_UNKNOWN_SID] pool
    | Some f =>
        let s := put_keys s (f_old f) (f_cipher f) (f_hmac f) in
        let header := f_header f in
        let '(packetlen, paddedlen) := SILC_PACKET_LENGTH header in
        let flags := u8 (znth header 2) in
        let type := u8 (znth header 3) in
        let normal := packet_normal local_is_router (is_router s) type flags in
        let check_pad := match f_cipher f with Some _ => negb is_ctr | None => false end in
        if check_pad &&
           ((normal && negb (paddedlen mod f_block_len f =? 0)) ||
            (negb normal && negb (silc_packet_special_len header mod f_block_len f =? 0)))
        then ROut s [EvError SILC_PACKET_ERR_MALFORMED] pool
        else if len <? u32 (paddedlen + f_ivlen f + mac_len) then RWait s
        else
          let '(hmac, ok) :=
            silc_packet_check_mac (f_hmac f) data (u32 (paddedlen + f_ivlen f))
              (zdrop (f_ivlen f + paddedlen) data) (f_seq f) (psn (rcv_dir s)) in
          let f := mkFirst (f_cipher f) (f_old f) hmac (f_header f) (f_seq f) (f_iv f)
                     (f_ivlen f) (f_psnlen f) (f_block_len f) in
          let s := put_keys s (f_old f) (f_cipher f) hmac in
          if negb ok then ROut s [EvError SILC_PACKET_ERR_MAC_FAILED] pool
          else if packetlen <? SILC_PACKET_MIN_LEN
          then ROut s [EvError SILC_PACKET_ERR_MALFORMED] pool
          else take_packet s inb f type flags paddedlen mac_len normal pool dispatch
    end.

(** The loop; [None] is fuel that ran out.  A round that goes on takes the
    bytes of a packet, so the length of the data is enough
    ([PacketSafe.read_loop_total]). *)
Fixpoint read_loop (fuel : nat) (local_is_router : bool) (s : SilcPacketStream)
    (inb : SilcBuffer) (pool : list SilcBuffer) (dispatch : SilcPacket -> bool)
    : option (SilcPacketStream * SilcBuffer * list event * list SilcBuffer) :=
  let out s evs pool := Some (set_inbuf s None, silc_buffer_reset inb, evs, pool) in
  if silc_buffer_len inb <=? 0 then out s [] pool
  else
    match fuel with
    | O => None
    | S fuel =>
        match read_round local_is_router s inb pool dispatch with
        | RWait s => Some (set_inbuf s (Some inb), inb, [], pool)
        | ROut s evs pool => out s evs pool
        | RNext s inb evs pool =>
            match read_loop fuel local_is_router s inb pool dispatch with
            | None => None
            | Some (s, inb, evs', pool) => Some (s, inb, evs ++ evs', pool)
            end
        end
    end.

(** [inb] is the stream's own input buffer or the first of the free ones; in
    the result it is the stream's again when the stream has an input buffer,
    and a free one otherwise. *)
Definition silc_packet_read_process (local_is_router : bool) (s : SilcPacketStream)
    (inb : SilcBuffer) (pool : list SilcBuffer) (dispatch : SilcPacket -> bool)
    : option (SilcPacketStream * SilcBuffer * list event * list SilcBuffer) :=
  read_loop (Z.to_nat (silc_buffer_len inb)) local_is_router s inb pool dispatch.

(** What [silc_stream_read] does, with room for as many bytes as it gives. *)
Inductive read_result := ReadSome (bytes : list Z) | ReadEOS | ReadError | ReadLater.

(** The buffer to read into, with room for 2048 bytes: the stream's own, the
    first of the free ones, or a new one. *)
Definition read_buffer (s : SilcPacketStream) (free : option SilcBuffer) : option SilcBuffer :=
  let inb :=
    match inbuf s with
    | Some inb => Some inb
    | None =>
        match free with
        | Some inb => Some inb
        | None => silc_buffer_reset <$> silc_buffer_alloc (SILC_PACKET_DEFAULT_SIZE * 65)
        end
    end in
  match inb with
  | None => None
  | Some inb =>
      if silc_buffer_taillen inb <? SILC_PACKET_DEFAULT_SIZE * 2
      then Some (default inb
             (silc_buffer_realloc (Some inb)
                (u32 (silc_buffer_truelen inb + SILC_PACKET_DEFAULT_SIZE * 2))))
      else Some inb
  end.

(** The buffer goes where it came from: it is the stream's or a free one. *)
Definition put_inbuf (s : SilcPacketStream) (inb : SilcBuffer) : SilcPacketStream :=
  match inbuf s with Some _ => set_inbuf s (Some inb) | None => s end.

(** [silc_packet_stream_read] on a stream that is not UDP: the stream and the
    buffer read into, and [None] for TRUE or what is called before FALSE. *)
Definition silc_packet_stream_read (s : SilcPacketStream) (free : option SilcBuffer)
    (r : read_result) : SilcPacketStream * option SilcBuffer * option (list event) :=
  match read_buffer s free with
  | None => (s, None, Some [])
  | Some inb =>
      match r with
      | ReadSome bytes =>
          let inb := set_mem inb (splice (b_tail inb) bytes (b_mem inb)) in
          let inb := (silc_buffer_pull_tail inb (zlen bytes)).1 in
          (put_inbuf s inb, Some inb, None)
      | ReadEOS =>
          let inb := silc_buffer_reset inb in (put_inbuf s inb, Some inb, Some [EvEos])
      | ReadLater => (put_inbuf s inb, Some inb, Some [])
      | ReadError =>
          let inb := silc_buffer_reset inb in
          (put_inbuf s inb, Some inb, Some [EvError SILC_PACKET_ERR_READ])
      end
  end.

(** [silc_packet_stream_io] for [SILC_STREAM_CAN_READ].  The result is the
    stream, the buffer (free again unless it is the stream's), the callbacks
    and the pool of packets. *)
Definition io_can_read (local_is_router : bool) (s : SilcPacketStream)
    (free : option SilcBuffer) (pool : list SilcBuffer) (dispatch : SilcPacket -> bool)
    (r : read_result)
    : option (SilcPacketStream * option SilcBuffer * list event * list SilcBuffer) :=
  match silc_packet_stream_read s free r with
  | (s, inb, Some evs) => Some (s, inb, evs, pool)
  | (s, None, None) => None   (* not reached: TRUE comes with a buffer *)
  | (s, Some inb, None) =>
      (fun '(s, inb, evs, pool) => (s, Some inb, evs, pool)) <$>
        silc_packet_read_process local_is_router s inb pool dispatch
  end.

(** [silc_packet_stream_io] for [SILC_STREAM_CAN_WRITE]. *)
Definition io_can_write (s : SilcPacketStream) (results : list write_result)
    : SilcPacketStream * list Z * option event :=
  if silc_buffer_headlen (outbuf s) =? 0 then (s, [], None)
  else silc_packet_stream_write s results.
End Packets.
Arguments SilcPacketStream C H : clear implicits.
Arguments Direction C H : clear implicits.
