(* ===== verification/PacketCipher.v ===== *)
(** * What the packet code needs of a cipher

    The receiver decrypts the first block of a packet each time more data
    arrives, and the rest when the packet is there.  The law says that this
    gives what the sender encrypted in one call, and that the first block can be
    decrypted again.  AES in the CBC and CTR modes satisfies it. *)

From S2P Require Import Prelude CTypes Cipher Packet.

(** [pk_sync c d]: between two packets, the receiver's context [d] follows the
    sender's [c]. *)
Class PacketCipherLaws (C : Type) `{PacketCipher C} := {
  pk_sync : C -> C -> Prop;
  pk_iv : list Z -> Prop;
  pk_block_len : cipher_block_len = 16;
  pk_iv_len iv : pk_iv iv -> zlen iv = 16;
  pk_counter iv : is_ctr = true -> pk_iv iv -> pk_iv (counter64 (splice 12 (zeros 4) iv));
  pk_roundtrip c d src iv m :
    pk_sync c d -> pk_iv iv -> bytes_ok src -> 0 <= m -> zlen src = 16 + m ->
    (is_ctr = true \/ m mod 16 = 0) ->
    exists dst iv' c' iv1 d1 d2,
      cipher_encrypt (cipher_set_iv c) src (16 + m) iv = Some (dst, iv', c') /\
      zlen dst = 16 + m /\ pk_iv iv' /\ pk_iv iv1 /\ pk_sync c d1 /\ pk_sync c' d2 /\
      cipher_decrypt (if is_ctr then cipher_set_iv d else d) (ztake 16 dst) 16 iv =
        Some (ztake 16 src, iv1, d1) /\
      cipher_decrypt (cipher_set_iv d1) (zdrop 16 dst) m iv1 = Some (zdrop 16 src, iv', d2)
}.

(** ** The counter *)

Lemma zlen_counter64 iv : 12 <= zlen iv -> zlen (counter64 iv) = zlen iv.
Proof.
  intros. unfold counter64.
  set (pc1 := if u32 _ =? 0 then _ else _). clearbody pc1. set (pc2 := u32 _). clearbody pc2.
  rewrite zlen_splice; rewrite ?zlen_splice; rewrite ?zlen_put32; lia.
Qed.

(** Resetting the block counter before or after the increment is the same. *)
Lemma counter64_reset iv :
  zlen iv = 16 ->
  splice 12 (zeros 4) (counter64 iv) = counter64 (splice 12 (zeros 4) iv).
Proof.
  intros Hl. do 16 (destruct iv as [|? iv]; [done|]). destruct iv; [|rewrite !zlen_cons in Hl; zl].
  unfold counter64, SILC_PUT32_MSB. cbv zeta.
  set (p1 := SILC_GET32_MSB (zdrop 4 _)). set (p2 := SILC_GET32_MSB (zdrop 8 _)).
  clearbody p1 p2. set (pc1 := if _ =? 0 then _ else _). clearbody pc1.
  reflexivity.
Qed.

(** ** CBC *)

#[export] Instance aes_cbc_packet `{BlockCipher} : PacketCipher unit := {|
  silc_cipher_get_mode := SILC_CIPHER_MODE_CBC;
  cipher_set_iv := fun c => c
|}.

#[export] Instance aes_cbc_packet_laws `{BlockCipherOk} : PacketCipherLaws unit.
Proof.
  refine {| pk_sync := fun _ _ => True; pk_iv := block16 |}; [done|by intros iv []|done|].
  intros [] [] src iv m _ Hiv Hb Hm Hl [?|Hm16]; [done|].
  destruct (cipher_roundtrip () () src iv 16 m) as (dst & iv' & [] & iv1 & [] & [] & L);
    [done..|].
  destruct L as (L1 & L2 & L3 & L4 & L5 & _ & L6 & L7).
  by exists dst, iv', (), iv1, (), ().
Defined.

(** ** CTR *)

#[export] Instance aes_ctr_packet `{BlockCipher} : PacketCipher CtrContext := {|
  silc_cipher_get_mode := SILC_CIPHER_MODE_CTR;
  cipher_set_iv := silc_aes_ctr_set_iv
|}.

Section CTR.
Context `{BlockCipher}.

(** A call that starts with a fresh block does not depend on the pad. *)
Lemma ctr_fresh c d x n iv :
  ztake n x <> [] ->
  silc_aes_ctr_encrypt (silc_aes_ctr_set_iv c) x n iv =
  silc_aes_ctr_encrypt (silc_aes_ctr_set_iv d) x n iv.
Proof.
  intros Hx. unfold silc_aes_ctr_encrypt, silc_aes_ctr_set_iv; cbn [ctr_b2 ctr_pad].
  by destruct (ztake n x).
Qed.

(** A block takes one pad. *)
Lemma ctr_loop_block x : forall i pad iv,
  0 <= i <= 16 -> zlen x = 16 - i ->
  (ctr_loop x (i, pad, iv)).2.1.1 = 16.
Proof.
  induction x as [|b x IH]; intros i pad iv Hi Hx; cbn [ctr_loop ctr_next].
  - cbn. rewrite zlen_nil in Hx. lia.
  - rewrite zlen_cons in Hx. zlen_facts. rewrite (proj2 (Z.eqb_neq i 16)) by lia.
    specialize (IH (i + 1) pad iv ltac:(lia) ltac:(lia)).
    by destruct (ctr_loop x _) as [p [[? ?] ?]].
Qed.

Lemma ctr_one_block c x iv p iv' d :
  zlen x = 16 -> silc_aes_ctr_encrypt (silc_aes_ctr_set_iv c) x 16 iv = Some (p, iv', d) ->
  ctr_b2 d = 16.
Proof.
  intros Hx. unfold silc_aes_ctr_encrypt, silc_aes_ctr_set_iv; cbn [ctr_b2 ctr_pad].
  rewrite ztake_ge by lia. destruct x as [|b x]; [done|]. rewrite zlen_cons in Hx.
  cbn [ctr_loop ctr_next Z.eqb Pos.eqb Z.add].
  pose proof (ctr_loop_block x 1 (aes_encrypt (ctr_inc iv)) (ctr_inc iv) ltac:(lia) ltac:(lia)) as E.
  destruct (ctr_loop x _) as [q [[i pad] v]]. cbn in E. subst i. by intros [= <- <- <-].
Qed.

(** The call to [set_iv] between two blocks changes nothing. *)
Lemma ctr_set_iv_block d x n iv :
  ctr_b2 d = 16 ->
  silc_aes_ctr_encrypt (silc_aes_ctr_set_iv d) x n iv = silc_aes_ctr_encrypt d x n iv.
Proof. destruct d as [b pad]; cbn. by intros ->. Qed.

#[export] Instance aes_ctr_packet_laws : PacketCipherLaws CtrContext.
Proof.
  refine {| pk_sync := fun _ _ => True; pk_iv := fun iv => zlen iv = 16 |}; [done|done|..].
  { intros iv _ Hl. assert (E : zlen (splice 12 (zeros 4) iv) = 16).
    { change (zeros 4) with [0; 0; 0; 0]. rewrite zlen_splice; zl. }
    rewrite zlen_counter64; lia. }
  intros c d src iv m _ Hiv Hb Hm Hl _.
  destruct (ctr_roundtrip (silc_aes_ctr_set_iv c) src iv 16 m)
    as (dst & iv' & c' & iv1 & d1 & E & El & Eb & Hc' & Hv & Hv1 & E1 & E2);
    [unfold ctr_ok; cbn; lia|done|lia..|].
  assert (Hd : zlen (ztake 16 dst) = 16) by (apply zlen_take; lia).
  exists dst, iv', c', iv1, d1, c'. split; [done|]. split; [done|]. split; [lia|].
  split; [lia|]. split; [done|]. split; [done|].
  cbn [cipher_decrypt aes_ctr_cipher cipher_set_iv aes_ctr_packet].
  change is_ctr with true. unfold silc_aes_ctr_decrypt. split.
  - rewrite (ctr_fresh d c); [done|]. rewrite ztake_ge by lia.
    intros E0. by rewrite E0 in Hd.
  - rewrite ctr_set_iv_block; [done|]. by apply (ctr_one_block _ _ _ _ _ _ Hd E1).
Defined.
End CTR.
