(* ===== verification/PacketSpec.v ===== *)
(** * What a packet is on the wire

    The bytes a message becomes, as a function of the sender's IDs, cipher and
    sequence number ([plain], [seal]); the sender writes them at the end of its
    output buffer ([send_raw_ok]).  The receiver's side is in
    [PacketRead]. *)

From S2P Require Import Prelude CTypes Memory Buffer BuffFmt SilcID Cipher Hmac Packet PacketCipher.
Import Format Unformat.

(** What the application sends; [m_random] is what the random number generator
    gives. *)
Record Msg := mkMsg {
  m_type : Z;
  m_flags : Z;
  m_data : option (list Z);
  m_random : list Z
}.

(** The IDs a stream sends with. *)
Record Address := mkAddress {
  a_src : option (list Z);
  a_src_type : Z;
  a_dst : option (list Z);
  a_dst_type : Z
}.

Definition src_bytes (a : Address) : list Z := default [] (a_src a).
Definition dst_bytes (a : Address) : list Z := default [] (a_dst a).

Definition id_bytes_ok (x : list Z) : Prop := bytes_ok x /\ zlen x <= SILC_PACKET_MAX_ID_LEN.

Definition address_ok (a : Address) : Prop :=
  id_bytes_ok (src_bytes a) /\ id_bytes_ok (dst_bytes a) /\
  0 <= a_src_type a <= SILC_ID_CHANNEL /\ 0 <= a_dst_type a <= SILC_ID_CHANNEL.

Definition msg_ok (m : Msg) : Prop :=
  0 <= m_type m < 256 /\ 0 <= m_flags m < 256 /\ bytes_ok (default [] (m_data m)) /\
  zlen (default [] (m_data m)) < 2147483648 /\ bytes_ok (m_random m) /\ 129 <= zlen (m_random m).

(** ** The layout *)

Definition header_len (a : Address) : Z :=
  SILC_PACKET_HEADER_LEN + zlen (src_bytes a) + zlen (dst_bytes a).

(** The data that fits a packet. *)
Definition payload (a : Address) (m : Msg) : list Z :=
  ztake (SILC_PACKET_DATALEN (zlen (default [] (m_data m))) (header_len a)) (default [] (m_data m)).

Definition truelen (a : Address) (m : Msg) : Z := header_len a + zlen (payload a m).

(** The flags of the header: one is not sent. *)
Definition sent_flags (m : Msg) : Z := Z.land (m_flags m) (255 - SILC_PACKET_FLAG_LONG_PAD).

Lemma header_len_range a : address_ok a -> 10 <= header_len a <= 66.
Proof.
  intros ([_ H1] & [_ H2] & _). unfold header_len, SILC_PACKET_HEADER_LEN, SILC_PACKET_MAX_ID_LEN in *.
  zlen_facts. lia.
Qed.

Lemma payload_len a m :
  address_ok a -> msg_ok m ->
  SILC_PACKET_DATALEN (zlen (default [] (m_data m))) (header_len a) = zlen (payload a m) /\
  zlen (payload a m) = Z.min (zlen (default [] (m_data m))) (65535 - header_len a).
Proof.
  intros Ha (_ & _ & _ & Hd & _). pose proof (header_len_range a Ha). unfold payload.
  set (d := default [] (m_data m)) in *. zlen_facts. unfold SILC_PACKET_DATALEN, SILC_PACKET_MAX_LEN.
  rewrite (u32_id (zlen d + header_len a)) by lia.
  destruct (Z.ltb_spec 65535 (zlen d + header_len a)).
  - rewrite (u32_id (zlen d + header_len a - 65535)), u32_id by lia.
    rewrite zlen_take by lia. lia.
  - rewrite zlen_take by lia. lia.
Qed.

Lemma truelen_range a m : address_ok a -> msg_ok m -> 10 <= truelen a m <= 65535.
Proof.
  intros Ha Hm. pose proof (header_len_range a Ha). unfold truelen. zlen_facts.
  destruct (payload_len a m Ha Hm) as [_ ->]. pose proof (zlen_nonneg (default [] (m_data m))). lia.
Qed.

Section Wire.
Context {C H : Type} `{PacketCipherLaws C} `{HashLaws H}.

Definition layout (lr sr : bool) (a : Address) (m : Msg) : Z * Z :=
  packet_layout lr sr is_ctr (m_type m) (m_flags m) (truelen a m) (zlen (src_bytes a))
    (zlen (dst_bytes a)) 0 16.

Definition padlen lr sr a m : Z := (layout lr sr a m).1.
Definition enclen lr sr a m : Z := (layout lr sr a m).2.

(** The packet before encryption. *)
Definition plain (lr sr : bool) (a : Address) (m : Msg) : list Z :=
  SILC_PUT16_MSB (truelen a m) ++
  [u8 (sent_flags m); u8 (m_type m); u8 (padlen lr sr a m); 0; u8 (zlen (src_bytes a));
   u8 (zlen (dst_bytes a)); u8 (a_src_type a)] ++
  src_bytes a ++ [u8 (a_dst_type a)] ++ dst_bytes a ++
  ztake (padlen lr sr a m) (zdrop 1 (m_random m)) ++ payload a m.

(** Whether the payload is left in clear. *)
Definition special (lr sr : bool) (m : Msg) : bool :=
  ((m_type m =? SILC_PACKET_PRIVATE_MESSAGE) && has_flag (m_flags m) SILC_PACKET_FLAG_PRIVMSG_KEY)
  || ((m_type m =? SILC_PACKET_CHANNEL_MESSAGE) && negb (lr && sr)).

Lemma padlen_16 n :
  0 <= n -> 8 <= SILC_PACKET_PADLEN n 16 <= 23 /\ (n + SILC_PACKET_PADLEN n 16) mod 16 = 0.
Proof.
  intros. unfold SILC_PACKET_PADLEN, pad_block, SILC_PACKET_DEFAULT_PADLEN. cbn [Z.eqb].
  pose proof (Z.mod_pos_bound n 16 ltac:(lia)). pose proof (Z.div_mod n 16 ltac:(lia)).
  destruct (Z.ltb_spec (16 - n mod 16) 8); (split; [lia|]).
  - replace (n + _) with ((n / 16 + 2) * 16) by lia. by apply Z.mod_mul.
  - replace (n + _) with ((n / 16 + 1) * 16) by lia. by apply Z.mod_mul.
Qed.

Lemma padlen_max_16 n :
  0 <= n -> 113 <= SILC_PACKET_PADLEN_MAX n 16 <= 128 /\ (n + SILC_PACKET_PADLEN_MAX n 16) mod 16 = 0.
Proof.
  intros. unfold SILC_PACKET_PADLEN_MAX, pad_block, SILC_PACKET_MAX_PADLEN. cbn [Z.eqb].
  pose proof (Z.mod_pos_bound n 16 ltac:(lia)). pose proof (Z.div_mod n 16 ltac:(lia)).
  split; [lia|]. replace (n + _) with ((n / 16 + 8) * 16) by lia. by apply Z.mod_mul.
Qed.

(** The padding fits its byte, and what is encrypted is the header or all of the
    packet, in whole blocks unless the cipher is in counter mode. *)
Lemma layout_ok lr sr a m :
  address_ok a -> msg_ok m ->
  0 <= padlen lr sr a m <= 128 /\
  enclen lr sr a m =
    (if special lr sr m then header_len a else truelen a m) + padlen lr sr a m /\
  (is_ctr = false -> enclen lr sr a m mod 16 = 0 /\ 16 <= enclen lr sr a m).
Proof.
  intros Ha Hm. pose proof (header_len_range a Ha) as Hh.
  pose proof (truelen_range a m Ha Hm) as Ht.
  unfold padlen, enclen, layout, packet_layout, special.
  fold (header_len a).
  pose proof (padlen_16 (header_len a + 0) ltac:(lia)) as P1.
  pose proof (padlen_16 (truelen a m + 0) ltac:(lia)) as P2.
  pose proof (padlen_max_16 (truelen a m + 0) ltac:(lia)) as P3.
  destruct (m_type m =? SILC_PACKET_PRIVATE_MESSAGE);
    destruct (has_flag (m_flags m) SILC_PACKET_FLAG_PRIVMSG_KEY);
    destruct (m_type m =? SILC_PACKET_CHANNEL_MESSAGE); destruct (lr && sr);
    destruct (has_flag (m_flags m) SILC_PACKET_FLAG_LONG_PAD); destruct is_ctr;
    cbn [andb orb negb fst snd]; rewrite ?Z.add_0_r in *;
    (split; [lia|]); (split; [lia|]); (intros E; first [discriminate E|split; [tauto|lia]]).
Qed.

Lemma plain_len lr sr a m :
  address_ok a -> msg_ok m -> zlen (plain lr sr a m) = truelen a m + padlen lr sr a m.
Proof.
  intros Ha Hm. destruct (layout_ok lr sr a m Ha Hm) as (Hp & _ & _).
  destruct Hm as (_ & _ & _ & _ & _ & Hr). unfold plain.
  rewrite !zlen_app, zlen_put16, zlen_take by (rewrite zlen_drop; lia).
  unfold truelen, header_len, SILC_PACKET_HEADER_LEN. rewrite !zlen_cons, zlen_nil. lia.
Qed.

Lemma plain_bytes lr sr a m : address_ok a -> msg_ok m -> bytes_ok (plain lr sr a m).
Proof.
  intros ([Hs _] & [Hd _] & _) (_ & _ & Hb & _ & Hr & _). unfold plain, payload, bytes_ok in *.
  repeat apply Forall_app_2; try done; [apply put16_bytes|..].
  - repeat constructor; try apply u8_range; lia.
  - repeat constructor; apply u8_range.
  - by apply Forall_take, Forall_drop.
  - by apply Forall_take.
Qed.

Lemma enclen_range lr sr a m :
  address_ok a -> msg_ok m -> 0 <= enclen lr sr a m <= zlen (plain lr sr a m).
Proof.
  intros Ha Hm. destruct (layout_ok lr sr a m Ha Hm) as (Hp & -> & _).
  rewrite plain_len by done. pose proof (header_len_range a Ha).
  pose proof (truelen_range a m Ha Hm). unfold truelen in *.
  pose proof (zlen_nonneg (payload a m)). destruct (special lr sr m); lia.
Qed.

(** ** The bytes on the wire *)

(** The cipher before a packet: in counter mode the packet counter has gone up
    and the block counter is 0. *)
Definition send_cipher (c : SilcCipher C) : SilcCipher C :=
  if is_ctr then mkCipher (context c) (counter64 (splice 12 (zeros 4) (c_iv c))) else c.

(** The bytes of the message numbered [seq], and the cipher after it. *)
Definition seal (c : SilcCipher C) (key : list Z) (mac_len seq : Z) (lr sr : bool) (a : Address)
    (m : Msg) : option (list Z * SilcCipher C) :=
  match silc_cipher_encrypt (silc_cipher_set_iv (send_cipher c) None) (plain lr sr a m)
          (enclen lr sr a m) None with
  | None => None
  | Some (dst, c', _) =>
      let body := dst ++ zdrop (enclen lr sr a m) (plain lr sr a m) in
      Some (body ++ hmac_spec mac_len key (SILC_PUT32_MSB seq ++ body), c')
  end.

(** Room for a packet and its MAC at the end of the output buffer. *)
Lemma prepare_ok (s : SilcPacketStream C H) oh od ot (h : SilcHmac H) tot :
  outbuf s = of_areas oh od ot -> 0 < tot -> 0 <= hm_len h ->
  zlen oh + zlen od + zlen ot + tot + hm_len h < SILC_MAX_ALLOC ->
  exists x y ot',
    silc_packet_send_prepare s tot (Some h) =
      Some (of_areas oh (od ++ x ++ y) ot', zlen oh + zlen od, of_areas [] x y) /\
    zlen x = tot /\ zlen y = hm_len h /\
    zlen ot' <= zlen ot /\
    zlen oh + zlen od + zlen x + zlen y + zlen ot' <=
      zlen oh + zlen od + zlen ot + tot + hm_len h.
Proof.
  intros Eo Ht Hh Hs. pose proof Hs as Hs'. unfold SILC_MAX_ALLOC in Hs'. zlen_facts.
  set (n := tot + hm_len h) in *.
  assert (G : exists z ot', zlen z = n /\ zlen ot' <= zlen ot /\
    (if silc_buffer_taillen (outbuf s) <? n
     then silc_buffer_realloc (Some (outbuf s)) (u32 (silc_buffer_truelen (outbuf s) + n))
     else Some (outbuf s)) = Some (of_areas oh od (z ++ ot')) /\
    zlen z + zlen ot' <= zlen ot + n).
  { rewrite Eo. autorewrite with areas. destruct (Z.ltb_spec (zlen ot) n).
    - rewrite u32_id, realloc_areas by lia.
      set (t := ot ++ zeros _).
      assert (Hl : zlen t = zlen ot + n) by (unfold t; rewrite zlen_app, zlen_zeros; lia).
      exists (ztake n t), (zdrop n t). rewrite ztake_drop, zlen_take, zlen_drop by lia.
      split; [done|]. split; [lia|]. split; [done|lia].
    - exists (ztake n ot), (zdrop n ot). rewrite ztake_drop, zlen_take, zlen_drop by lia.
      split; [done|]. split; [lia|]. split; [done|lia]. }
  destruct G as (z & ot' & Hz & Hot & E & Hb).
  exists (ztake tot z), (zdrop tot z), ot'. unfold silc_packet_send_prepare, silc_hmac_len.
  fold n. rewrite (u32_id n), E by lia. rewrite <- Hz, pull_tail_areas by lia. cbn [fst snd].
  rewrite ztake_drop, zlen_take, zlen_drop by lia. split; [|lia].
  assert (Em : zdrop (zlen oh + zlen od) (b_mem (of_areas oh (od ++ z) ot')) = z ++ ot').
  { unfold of_areas; cbn [b_mem]. rewrite <- app_assoc, app_assoc. apply zdrop_app_exact. zl. }
  rewrite Em. do 2 f_equal.
  assert (Es : silc_buffer_set (z ++ ot') (zlen z) = of_areas [] z []).
  { rewrite <- (set_areas z (zlen z)) by done. unfold silc_buffer_set.
    by rewrite ztake_app_exact, ztake_ge by lia. }
  rewrite Es, <- (ztake_drop tot z) at 1.
  replace (hm_len h) with (zlen (zdrop tot z)) by (rewrite zlen_drop; lia).
  rewrite push_tail_areas. cbn [fst]. by rewrite app_nil_r.
Qed.

(** The header and the data as the code formats them. *)
Lemma enc_id (x : option (list Z)) : enc_arg (PARAM_NSTRING x (zlen (default [] x))) = default [] x.
Proof. destruct x as [l|]; [|done]. by apply (ztake_ge (zlen l) l). Qed.

Lemma data_arg_id (x : option (list Z)) n :
  0 <= n <= zlen (default [] x) -> data_arg (PARAM_NSTRING x n).
Proof. by destruct x. Qed.

Lemma format_packet lr sr a m seq x y :
  address_ok a -> msg_ok m -> zlen x = truelen a m + padlen lr sr a m ->
  zlen x + zlen y < SILC_MAX_ALLOC ->
  silc_buffer_format (of_areas [] x y)
    [PARAM_NSTRING (Some []) 0; PARAM_NSTRING (Some seq) 0;
     PARAM_UI16_SHORT (truelen a m); PARAM_UI8_CHAR (sent_flags m); PARAM_UI8_CHAR (m_type m);
     PARAM_UI8_CHAR (padlen lr sr a m); PARAM_UI8_CHAR 0; PARAM_UI8_CHAR (zlen (src_bytes a));
     PARAM_UI8_CHAR (zlen (dst_bytes a)); PARAM_UI8_CHAR (a_src_type a);
     PARAM_NSTRING (a_src a) (zlen (src_bytes a)); PARAM_UI8_CHAR (a_dst_type a);
     PARAM_NSTRING (a_dst a) (zlen (dst_bytes a));
     PARAM_NSTRING (Some (ztake (padlen lr sr a m) (zdrop 1 (m_random m)))) (padlen lr sr a m);
     PARAM_NSTRING (m_data m) (zlen (payload a m))] =
  (of_areas [] (plain lr sr a m) y, zlen x).
Proof.
  intros Ha Hm Hx Hs. rewrite <- plain_len in Hx by done.
  destruct (layout_ok lr sr a m Ha Hm) as (Hp & _ & _).
  destruct (payload_len a m Ha Hm) as [Hpl Hpm]. destruct Hm as (_ & _ & _ & _ & _ & Hr).
  assert (Hpad : zlen (ztake (padlen lr sr a m) (zdrop 1 (m_random m))) = padlen lr sr a m)
    by (apply zlen_take; rewrite zlen_drop; lia).
  set (ap := [_; _; _; _; _; _; _; _; _; _; _; _; _; _; _]).
  assert (E : enc_args ap = plain lr sr a m).
  { assert (Ed : enc_arg (PARAM_NSTRING (m_data m) (zlen (payload a m))) = payload a m).
    { rewrite <- Hpl. unfold payload. destruct (m_data m); [done|]. symmetry. apply ztake_nil. }
    unfold ap, enc_args, plain, src_bytes, dst_bytes. cbn [fmap list_fmap concat].
    rewrite (enc_id (a_src a)), (enc_id (a_dst a)), Ed. cbn [enc_arg].
    rewrite (ztake_ge _ (ztake _ _)), !(ztake_0 0) by lia. change (u8 0) with 0.
    cbn [app]. by rewrite app_nil_r. }
  zlen_facts. rewrite format_areas, E, Hx.
  - rewrite zdrop_ge, Z.sub_diag, (zdrop_0 0), app_nil_r by lia. done.
  - unfold ap. pose proof (zlen_nonneg (payload a m)).
    repeat first [apply list.Forall_nil_2|apply list.Forall_cons_2]; try exact I;
      apply data_arg_id; unfold src_bytes, dst_bytes; simpl; zlen_facts; rewrite ?zlen_nil in *; lia.
  - unfold fits. rewrite E, zlen_nil. lia.
Qed.

(** A write into the packet is a write into the output buffer. *)
Lemma write_packet oh od x ot y :
  zlen y = zlen x ->
  set_mem (of_areas oh (od ++ x) ot)
    (splice (zlen oh + zlen od) y (b_mem (of_areas oh (od ++ x) ot))) =
  of_areas oh (od ++ y) ot.
Proof.
  intros E. unfold set_mem, of_areas, splice; cbn [b_mem b_data b_tail].
  rewrite !zlen_app, E. f_equal.
  assert (Em : oh ++ (od ++ x) ++ ot = (oh ++ od) ++ x ++ ot) by by rewrite !app_assoc.
  rewrite Em, ztake_app_exact by zl. rewrite zdrop_app_r, zdrop_app_exact by zl.
  by rewrite !app_assoc.
Qed.

(** The MAC both sides compute: of the sequence number and the packet. *)
Lemma packet_mac (h : SilcHmac H) key seq body rest :
  keyed h key -> zlen seq = 4 -> hashable body ->
  exists h',
    silc_hmac_final (silc_hmac_update (silc_hmac_update (silc_hmac_init h) seq 4)
      (body ++ rest) (zlen body)) = (h', hmac_spec (hm_len h) key (seq ++ body)) /\
    same_key h h'.
Proof.
  intros Hk Hs Hb. assert (Hsq : hashable seq) by (unfold hashable; by rewrite Hs).
  pose proof (keyed_mac h key [seq; body] Hk ltac:(by repeat constructor)) as M.
  pose proof (run_same_key h [seq; body]) as K.
  unfold hmac_updates in M, K. cbn [foldl concat] in M, K. rewrite app_nil_r, Hs in *.
  rewrite (update_take _ (body ++ rest)) by zl. rewrite ztake_app_exact by done.
  destruct (silc_hmac_final _) as [h' mac]. cbn [fst snd] in *. subst mac. by exists h'.
Qed.

Lemma encrypt_in_place (c : SilcCipher C) x y n :
  0 <= n <= zlen x ->
  silc_cipher_encrypt c (zdrop 0 (silc_buffer_data (of_areas [] x y))) n None =
  silc_cipher_encrypt c x n None.
Proof.
  intros. unfold silc_cipher_encrypt. rewrite (zdrop_0 0), data_areas by lia.
  by rewrite ztake_app_l by lia.
Qed.

Lemma splice_data dst x y :
  zlen dst <= zlen x ->
  set_mem (of_areas [] x y) (splice (b_data (of_areas [] x y) + 0) dst (b_mem (of_areas [] x y))) =
  of_areas [] (dst ++ zdrop (zlen dst) x) y.
Proof.
  intros. unfold set_mem, of_areas, splice; cbn [b_mem b_data b_tail app].
  rewrite (zlen_nil (A := Z)), !Z.add_0_l. rewrite (ztake_0 0), zdrop_app_l by lia. cbn [app].
  f_equal; [by rewrite app_assoc|]. rewrite zlen_app, zlen_drop by zl. lia.
Qed.

Lemma splice_tail body y mac :
  zlen mac = zlen y ->
  b_mem (set_mem (of_areas [] body y)
    (splice (b_tail (of_areas [] body y)) mac (b_mem (of_areas [] body y)))) = body ++ mac.
Proof.
  intros E. unfold set_mem, of_areas, splice; cbn [b_mem b_data b_tail app].
  rewrite (zlen_nil (A := Z)), Z.add_0_l, ztake_app_exact by done.
  by rewrite zdrop_ge, app_nil_r by zl.
Qed.

(** Encrypting and authenticating the assembled packet. *)
Lemma seal_body c key mac_len seq lr sr a m wire c' :
  seal c key mac_len seq lr sr a m = Some (wire, c') ->
  exists dst o,
    silc_cipher_encrypt (silc_cipher_set_iv (send_cipher c) None) (plain lr sr a m)
      (enclen lr sr a m) None = Some (dst, c', o) /\
    wire = (dst ++ zdrop (enclen lr sr a m) (plain lr sr a m)) ++
           hmac_spec mac_len key (SILC_PUT32_MSB seq ++ dst ++
             zdrop (enclen lr sr a m) (plain lr sr a m)).
Proof.
  unfold seal. destruct (silc_cipher_encrypt _ _ _ _) as [[[dst ?] o]|]; [|done].
  intros [= <- <-]. by exists dst, o.
Qed.

Lemma send_raw_ok lr (s : SilcPacketStream C H) oh od ot c h key a m wire c' :
  outbuf s = of_areas oh od ot -> iv_included s = false -> address_ok a -> msg_ok m ->
  keyed h key ->
  seal c key (hm_len h) (psn (snd_dir s)) lr (is_router s) a m = Some (wire, c') ->
  zlen wire = zlen (plain lr (is_router s) a m) + hm_len h ->
  zlen oh + zlen od + zlen ot + zlen wire < SILC_MAX_ALLOC ->
  exists h' ot',
    silc_packet_send_raw lr s (m_type m) (m_flags m) (a_src_type a) (a_src a)
      (zlen (src_bytes a)) (a_dst_type a) (a_dst a) (zlen (dst_bytes a)) (m_data m)
      (zlen (default [] (m_data m))) (Some c) (Some h) (m_random m) =
    (set_snd (set_outbuf s (of_areas oh (od ++ wire) ot'))
       (set_psn (snd_dir s) (u32 (psn (snd_dir s) + 1))), Some c', Some h', true) /\
    same_key h h' /\ zlen oh + zlen (od ++ wire) + zlen ot' <=
                     zlen oh + zlen od + zlen ot + zlen wire.
Proof.
  intros Eo Ei Ha Hm Hk Hseal Hw Hs. set (sr := is_router s) in *.
  pose proof (truelen_range a m Ha Hm) as Ht.
  destruct (layout_ok lr sr a m Ha Hm) as (Hp & _ & _).
  pose proof (enclen_range lr sr a m Ha Hm) as He.
  destruct (payload_len a m Ha Hm) as [Hpl Hpm].
  pose proof (plain_len lr sr a m Ha Hm) as Hl.
  destruct (seal_body _ _ _ _ _ _ _ _ _ _ Hseal) as (dst & o & Eenc & Ew).
  set (rest := zdrop (enclen lr sr a m) (plain lr sr a m)) in *.
  set (mac := hmac_spec _ _ _) in Ew.
  assert (Hmac : zlen mac = hm_len h) by by apply hmac_bytes_len.
  assert (Hrest : zlen rest = zlen (plain lr sr a m) - enclen lr sr a m) by (apply zlen_drop; lia).
  assert (Hdst : zlen dst = enclen lr sr a m) by (rewrite Ew, !zlen_app in Hw; lia).
  destruct (prepare_ok s oh od ot h (truelen a m + padlen lr sr a m))
    as (x & y & ot' & Eprep & Hx & Hy & Hot & Hb); [done|lia|zlen_facts; lia|lia|].
  unfold silc_packet_send_raw. unfold silc_cipher_get_block_len. rewrite pk_block_len.
  change (SILC_PACKET_HEADER_LEN + zlen (src_bytes a) + zlen (dst_bytes a)) with (header_len a).
  rewrite Hpl.
  assert (Etl : zlen (payload a m) + SILC_PACKET_HEADER_LEN + zlen (src_bytes a) +
                zlen (dst_bytes a) = truelen a m) by (unfold truelen, header_len; lia).
  rewrite Etl, Ei.
  assert (Eciv : (if is_ctr
     then let '(civ, _) := silc_packet_send_ctr_increment false (c_iv c) (znth (m_random m) 0) in
          (Some (mkCipher (context c) civ), @nil Z, 0, 0)
     else (Some c, [], 0, 0)) = (Some (send_cipher c), [], 0, 0)).
  { unfold send_cipher, silc_packet_send_ctr_increment. by destruct is_ctr. }
  rewrite Eciv. change (packet_layout _ _ _ _ _ _ _ _ _ _) with (layout lr sr a m).
  rewrite (surjective_pairing (layout lr sr a m)). fold (padlen lr sr a m) (enclen lr sr a m).
  rewrite !Z.add_0_r, Eprep. change (Z.land (m_flags m) _) with (sent_flags m).
  rewrite format_packet by (done || unfold SILC_MAX_ALLOC in *; zlen_facts; lia).
  rewrite (proj2 (Z.ltb_ge (zlen x) 0)) by lia.
  rewrite encrypt_in_place, Eenc, splice_data by lia. rewrite Hdst. fold rest.
  cbn [negb]. set (body := dst ++ rest) in *.
  assert (Hbody : zlen body = zlen x) by (unfold body; rewrite zlen_app; lia).
  rewrite data_areas, of_areas_len by (unfold SILC_MAX_ALLOC in *; zlen_facts; rewrite ?zlen_nil; lia).
  destruct (packet_mac h key (SILC_PUT32_MSB (psn (snd_dir s))) body y Hk (zlen_put32 _))
    as (h' & Efin & Hsame); [unfold hashable, SILC_MAX_ALLOC in *; zlen_facts; lia|].
  rewrite Efin. fold mac. exists h', ot'.
  rewrite splice_tail, write_packet, <- Ew by (rewrite ?zlen_app; lia).
  split; [done|]. split; [done|]. rewrite zlen_app. lia.
Qed.
End Wire.

(** ** What the receiver makes of it *)

Section Open.
Context {C H : Type} `{PacketCipherLaws C} `{HashLaws H}.

(** Between two packets the receiver's cipher follows the sender's. *)
Definition in_sync (c d : SilcCipher C) : Prop :=
  pk_sync (context c) (context d) /\ c_iv d = c_iv c /\ pk_iv (c_iv c).

(** The cipher the first block is decrypted with. *)
Definition first_cipher (d : SilcCipher C) : SilcCipher C :=
  if is_ctr then silc_cipher_set_iv d None else d.

(** [dst] is the encrypted part of the message; decrypting its first block
    leaves the ciphers in step, so it can be done again, and decrypting the rest
    puts them in step for the next packet. *)
Record opens (c d c' : SilcCipher C) (lr sr : bool) (a : Address) (m : Msg) (dst iv1 : list Z)
    (d1 d' : SilcCipher C) : Prop := {
  opens_len : zlen dst = enclen lr sr a m;
  opens_first x :
    ztake 16 x = ztake 16 dst ->
    silc_cipher_decrypt (first_cipher d) x 16 (Some (c_iv (send_cipher c))) =
    Some (ztake 16 (plain lr sr a m), d1, Some iv1);
  opens_again : in_sync c d1;
  opens_rest rest :
    silc_cipher_decrypt (silc_cipher_set_iv d1 (Some iv1)) (zdrop 16 dst ++ rest)
      (enclen lr sr a m - 16) None =
    Some (zslice 16 (enclen lr sr a m - 16) (plain lr sr a m), d', None);
  opens_sync : in_sync c' d'
}.

Lemma seal_opens c d key mac_len seq lr sr a m :
  in_sync c d -> address_ok a -> msg_ok m -> 16 <= enclen lr sr a m -> 0 <= mac_len <= hash_len ->
  exists dst c' iv1 d1 d',
    seal c key mac_len seq lr sr a m =
      Some ((dst ++ zdrop (enclen lr sr a m) (plain lr sr a m)) ++
            hmac_spec mac_len key (SILC_PUT32_MSB seq ++ dst ++
              zdrop (enclen lr sr a m) (plain lr sr a m)), c') /\
    opens c d c' lr sr a m dst iv1 d1 d'.
Proof.
  intros (Hsync & Eiv & Hiv) Ha Hm He Hml.
  pose proof (enclen_range lr sr a m Ha Hm) as Hr.
  destruct (layout_ok lr sr a m Ha Hm) as (_ & _ & Hblk).
  set (n := enclen lr sr a m) in *. set (p := plain lr sr a m) in *.
  assert (Hiv' : pk_iv (c_iv (send_cipher c))).
  { unfold send_cipher. destruct is_ctr eqn:Ectr; [|done]. by apply pk_counter. }
  assert (Hp : zlen (ztake n p) = 16 + (n - 16)) by (rewrite zlen_take; lia).
  destruct (pk_roundtrip (context c) (context d) (ztake n p) (c_iv (send_cipher c)) (n - 16))
    as (dst & iv' & c' & iv1 & d1 & d2 & E1 & El & Hiv2 & Hiv1 & S1 & S2 & E2 & E3);
    [done|done|apply Forall_take, plain_bytes; done|lia|done| |].
  { destruct is_ctr; [by left|]. right. destruct Hblk as [Hb _]; [done|].
    rewrite Zminus_mod, Hb. done. }
  exists dst, (mkCipher c' iv'), iv1, (mkCipher d1 (c_iv d)), (mkCipher d2 iv').
  replace (16 + (n - 16)) with n in * by lia.
  split.
  - unfold seal. fold n p. unfold silc_cipher_encrypt, silc_cipher_set_iv; cbn [context c_iv default from_option].
    unfold id. assert (Ec : context (send_cipher c) = context c) by (unfold send_cipher; by destruct is_ctr).
    rewrite Ec, E1. done.
  - split; [done| | | |].
    + intros x Hx. unfold silc_cipher_decrypt, first_cipher, silc_cipher_set_iv.
      rewrite Hx. fold p. rewrite <- (ztake_ztake n 16 p) by lia.
      destruct is_ctr; cbn [context c_iv default from_option]; unfold id; by rewrite E2.
    + done.
    + intros rest. fold n p. unfold silc_cipher_decrypt, silc_cipher_set_iv; cbn [context c_iv].
      rewrite ztake_app_exact by (rewrite zlen_drop; lia).
      rewrite (ztake_ge 16 iv1) by (rewrite (pk_iv_len iv1); done || lia).
      cbn [default from_option]. rewrite E3. do 4 f_equal.
      unfold zslice. rewrite ztake_zdrop by lia. do 2 f_equal. lia.
    + done.
Qed.
End Open.
