(* ===== verification/PacketRead.v ===== *)
(** * Reading packets

    A packet that is in the input buffer is taken out of it and given to the
    application as it was sent; of a packet that has not arrived completely
    nothing is taken, and the first block can be decrypted again later.  The
    receiver's stream is related to the sender's cipher by [rcv_ok]. *)

From S2P Require Import Prelude CTypes Memory Buffer BuffFmt SilcID Cipher Hmac.
From S2P Require Import Packet PacketCipher PacketSpec.
Import Format Unformat.

#[local] Abbreviation nilZ := (zlen_nil (A := Z)).

(** ** The header *)

Section Header.
Context {C H : Type} `{PacketCipherLaws C} `{HashLaws H}.
Context (lr sr : bool) (a : Address) (m : Msg).
Hypothesis Ha : address_ok a.
Hypothesis Hm : msg_ok m.

Let p := plain lr sr a m.

Lemma field_ranges :
  0 <= sent_flags m < 256 /\ 0 <= m_type m < 256 /\ 0 <= padlen lr sr a m < 256 /\
  0 <= zlen (src_bytes a) <= 28 /\ 0 <= zlen (dst_bytes a) <= 28 /\
  0 <= a_src_type a <= 3 /\ 0 <= a_dst_type a <= 3.
Proof.
  destruct (layout_ok lr sr a m Ha Hm) as (Hp & _ & _).
  destruct Ha as ([_ L1] & [_ L2] & L3 & L4). destruct Hm as (L5 & L6 & _).
  unfold SILC_PACKET_MAX_ID_LEN, SILC_ID_CHANNEL in *. zlen_facts.
  assert (E : sent_flags m = sent_flags m mod 2 ^ 8).
  { rewrite <- Z.land_ones by lia. unfold sent_flags. by rewrite <- Z.land_assoc. }
  rewrite E. pose proof (Z.mod_pos_bound (sent_flags m) (2 ^ 8)). lia.
Qed.

(** The nine bytes before the IDs. *)
Lemma plain_header rest :
  exists b0 b1 l, SILC_PUT16_MSB (truelen a m) = [b0; b1] /\
  p ++ rest = b0 :: b1 :: sent_flags m :: m_type m :: padlen lr sr a m :: 0 ::
              zlen (src_bytes a) :: zlen (dst_bytes a) :: a_src_type a :: l /\
  l = src_bytes a ++ a_dst_type a :: dst_bytes a ++
      ztake (padlen lr sr a m) (zdrop 1 (m_random m)) ++ payload a m ++ rest.
Proof.
  pose proof field_ranges. eexists _, _, _. split; [reflexivity|]. split; [|reflexivity].
  unfold p, plain, SILC_PUT16_MSB. cbn [app].
  rewrite (u8_id (sent_flags m)), (u8_id (m_type m)), (u8_id (padlen lr sr a m)),
    (u8_id (zlen _)), (u8_id (zlen (dst_bytes a))), (u8_id (a_src_type a)),
    (u8_id (a_dst_type a)) by lia.
  rewrite <- !app_assoc. cbn [app]. by rewrite <- !app_assoc.
Qed.

Lemma get16_truelen b0 b1 :
  SILC_PUT16_MSB (truelen a m) = [b0; b1] -> SILC_GET16_MSB [b0; b1] = truelen a m.
Proof.
  intros <-. pose proof (truelen_range a m Ha Hm).
  rewrite <- (app_nil_r (SILC_PUT16_MSB _)), get16_put16. apply u16_id. lia.
Qed.

(** What the receiver reads in the first block, or in the whole packet. *)
Lemma header_fields x :
  ztake 9 x = ztake 9 p ->
  SILC_PACKET_LENGTH x = (truelen a m, zlen p) /\ u8 (znth x 2) = sent_flags m /\
  u8 (znth x 3) = m_type m /\ u8 (znth x 4) = padlen lr sr a m /\
  silc_packet_special_len x = header_len a + padlen lr sr a m.
Proof.
  intros Hx. pose proof field_ranges as F. pose proof (truelen_range a m Ha Hm).
  pose proof (plain_len lr sr a m Ha Hm) as El. fold p in El.
  assert (G : exists b0 b1 l, SILC_PUT16_MSB (truelen a m) = [b0; b1] /\
    x = b0 :: b1 :: sent_flags m :: m_type m :: padlen lr sr a m :: 0 ::
        zlen (src_bytes a) :: zlen (dst_bytes a) :: a_src_type a :: l).
  { destruct (plain_header []) as (b0 & b1 & l & E0 & E & _). rewrite app_nil_r in E.
    rewrite E in Hx. change (ztake 9 (b0 :: ?l)) with (b0 :: ztake 8 l) in Hx.
    exists b0, b1, (zdrop 9 x). split; [done|]. rewrite <- (ztake_drop 9 x) at 1. by rewrite Hx. }
  destruct G as (b0 & b1 & l & E0 & ->). apply get16_truelen in E0.
  unfold SILC_PACKET_LENGTH, silc_packet_special_len. cbv [znth Z.to_nat Pos.to_nat Pos.iter_op Init.Nat.add nth].
  change (SILC_GET16_MSB (b0 :: b1 :: ?l)) with (SILC_GET16_MSB [b0; b1]).
  rewrite E0, !u8_id by lia. rewrite u32_id, El by lia.
  unfold header_len, SILC_PACKET_HEADER_LEN. repeat split; lia.
Qed.

(** The receiver finds out what was left in clear. *)
Lemma normal_special lr' sr' :
  lr' && sr' = lr && sr ->
  packet_normal lr' sr' (m_type m) (sent_flags m) = negb (special lr sr m).
Proof.
  intros E. unfold packet_normal, special.
  assert (Ef : has_flag (sent_flags m) SILC_PACKET_FLAG_PRIVMSG_KEY =
               has_flag (m_flags m) SILC_PACKET_FLAG_PRIVMSG_KEY).
  { unfold has_flag, sent_flags. by rewrite <- Z.land_assoc. }
  rewrite Ef, <- E. destruct lr'; destruct (_ && has_flag _ _); try done;
    destruct (m_type m =? _); try done; by destruct sr'.
Qed.

(** ** Parsing *)

(** The packet the application gets is the message that was sent. *)
Definition packet_is (pk : SilcPacket) : Prop :=
  pk_type pk = m_type m /\ pk_flags pk = sent_flags m /\
  pk_src_id_type pk = a_src_type a /\ pk_dst_id_type pk = a_dst_type a /\
  pk_src_id_len pk = zlen (src_bytes a) /\ pk_dst_id_len pk = zlen (dst_bytes a) /\
  ztake (pk_src_id_len pk) (default [] (pk_src_id pk)) = src_bytes a /\
  ztake (pk_dst_id_len pk) (default [] (pk_dst_id pk)) = dst_bytes a /\
  data_area (pk_buffer pk) = payload a m.

(** What an ID pointer of the parser points to. *)
Lemma id_pointer (x rest : list Z) :
  ztake (zlen x) (default [] (if zlen x =? 0 then None else Some (x ++ rest))) = x.
Proof.
  destruct (Z.eqb_spec (zlen x) 0) as [E|]; cbn [default from_option].
  - rewrite ztake_nil. symmetry. by apply zlen_zero_nil.
  - by apply ztake_app_exact.
Qed.

Lemma padlen_not_1 : padlen lr sr a m <> 1.
Proof.
  unfold padlen, layout, packet_layout.
  pose proof (header_len_range a Ha). pose proof (truelen_range a m Ha Hm).
  fold (header_len a).
  pose proof (padlen_16 (header_len a + 0) ltac:(lia)).
  pose proof (padlen_16 (truelen a m + 0) ltac:(lia)).
  pose proof (padlen_max_16 (truelen a m + 0) ltac:(lia)).
  repeat case_match; cbn; lia.
Qed.

Lemma parse_head t :
  zlen p + zlen t < 2147483648 ->
  silc_buffer_unformat (of_areas [] p t)
    [U_ADVANCE; U_OFFSET 6; U_UI8_CHAR; U_UI8_CHAR; U_UI8_CHAR] =
  (of_areas (ztake 9 p) (zdrop 9 p) t, 0,
   [VInt (zlen (src_bytes a)); VInt (zlen (dst_bytes a)); VInt (a_src_type a)]).
Proof.
  intros Hs. pose proof field_ranges as F.
  destruct (plain_header []) as (b0 & b1 & l & _ & E & _). rewrite app_nil_r in E.
  assert (U : uparse [U_OFFSET 6; U_UI8_CHAR; U_UI8_CHAR; U_UI8_CHAR] p t =
    Some ([VInt (zlen (src_bytes a)); VInt (zlen (dst_bytes a)); VInt (a_src_type a)], 9)).
  { rewrite E. cbn [uparse uparse1 Z.eqb]. rewrite (proj2 (Z.ltb_ge _ 6)) by zl. zdrop_red.
    uparse_ints. rewrite !znth_0, !u8_id by lia. done. }
  eapply unformat_advance in U as [U _]; [exact U| |by rewrite zlen_nil].
  repeat apply list.Forall_cons_2; try exact I; [cbn; lia|constructor].
Qed.

Lemma parse_ids h t pad :
  zlen pad = padlen lr sr a m -> padlen lr sr a m <> 1 ->
  let l := src_bytes a ++ a_dst_type a :: dst_bytes a ++ pad ++ payload a m in
  zlen h + zlen l + zlen t < 2147483648 ->
  exists h' v1 v2,
    silc_buffer_unformat (of_areas h l t)
      [U_ADVANCE; U_DATA (zlen (src_bytes a)); U_UI8_CHAR; U_DATA (zlen (dst_bytes a));
       U_OFFSET (padlen lr sr a m)] =
    (of_areas h' (payload a m) t, 0, [VPtr v1; VInt (a_dst_type a); VPtr v2]) /\
    zlen h' + zlen (payload a m) = zlen h + zlen l /\
    ztake (zlen (src_bytes a)) (default [] v1) = src_bytes a /\
    ztake (zlen (dst_bytes a)) (default [] v2) = dst_bytes a.
Proof.
  intros Hpad Hp1 l Hs. pose proof field_ranges as F.
  set (l2 := dst_bytes a ++ pad ++ payload a m) in *.
  set (v1 := if zlen (src_bytes a) =? 0 then None else Some (l ++ t)).
  set (v2 := if zlen (dst_bytes a) =? 0 then None else Some (l2 ++ t)).
  set (n := zlen (src_bytes a) + (zlen [a_dst_type a] + (zlen (dst_bytes a) + (zlen pad + 0)))).
  assert (U : uparse [U_DATA (zlen (src_bytes a)); U_UI8_CHAR; U_DATA (zlen (dst_bytes a));
      U_OFFSET (padlen lr sr a m)] l t = Some ([VPtr v1; VInt (a_dst_type a); VPtr v2], n)).
  { unfold l at 1. apply (RoundTrip.uparse_step _ _ _ (src_bytes a)).
    { cbn [uparse1]. rewrite u32_id by lia. fold l. fold v1. apply p_int_ok. unfold l. zl. }
    change (a_dst_type a :: l2) with ([a_dst_type a] ++ l2).
    apply (RoundTrip.uparse_step _ _ _ [a_dst_type a]).
    { cbn [uparse1 app]. by rewrite znth_0, u8_id, p_int_ok by (rewrite ?zlen_cons; zlen_facts; lia). }
    unfold l2 at 1. apply (RoundTrip.uparse_step _ _ _ (dst_bytes a)).
    { cbn [uparse1]. rewrite u32_id by lia. fold l2. fold v2. apply p_int_ok. unfold l2. zl. }
    cbn [uparse uparse1]. rewrite <- Hpad. destruct (Z.eqb_spec (zlen pad) 0) as [E0|].
    - by rewrite E0.
    - by rewrite (proj2 (Z.ltb_ge _ (zlen pad))) by zl. }
  pose proof U as U'. eapply unformat_advance in U as [U Hn]; [| |exact Hs].
  - set (x := src_bytes a ++ [a_dst_type a] ++ dst_bytes a ++ pad).
    assert (El : l = x ++ payload a m) by (unfold l, l2, x; by rewrite <- !app_assoc).
    assert (En : n = zlen x) by (unfold n, x; rewrite !zlen_app; lia).
    exists (h ++ x), v1, v2. rewrite U. split; [|split; [|split]].
    + by rewrite El, En, ztake_app_exact, zdrop_app_exact.
    + rewrite El, !zlen_app. lia.
    + unfold v1, l. rewrite <- app_assoc. apply id_pointer.
    + unfold v2, l2. rewrite <- app_assoc. apply id_pointer.
  - repeat apply list.Forall_cons_2; try exact I; [cbn; lia|constructor].
Qed.

Lemma parse_plain t :
  zlen p + zlen t < 2147483648 ->
  exists pk,
    silc_packet_parse (mkPacket (of_areas [] p t) None None 0 0 0 0 (m_type m) (sent_flags m)) =
    Some pk /\ packet_is pk.
Proof.
  intros Hs. pose proof field_ranges as F.
  destruct (plain_header []) as (b0 & b1 & l & _ & E & El). rewrite app_nil_r in E, El.
  set (pad := ztake _ _) in El.
  assert (Hpad : zlen pad = padlen lr sr a m).
  { apply zlen_take. destruct Hm as (_ & _ & _ & _ & _ & Hr).
    destruct (layout_ok lr sr a m Ha Hm) as (Hp & _). rewrite zlen_drop; lia. }
  assert (Ep : zdrop 9 p = l) by (rewrite E; reflexivity).
  assert (Hl : zlen (ztake 9 p) + zlen l = zlen p).
  { rewrite <- Ep, <- zlen_app. by rewrite ztake_drop. }
  unfold silc_packet_parse; cbn [pk_buffer pk_type pk_flags].
  rewrite data_areas. destruct (header_fields (p ++ t)) as (_ & _ & _ & -> & _).
  { apply ztake_app_l. rewrite E. zl. }
  rewrite parse_head, Ep by done. cbn [Z.eqb].
  unfold SILC_PACKET_MAX_ID_LEN, SILC_ID_CHANNEL.
  rewrite !(proj2 (Z.ltb_ge 28 _)) by lia. cbn [orb].
  destruct (parse_ids (ztake 9 p) t pad Hpad) as (h' & v1 & v2 & U & Hh & E1 & E2);
    [apply padlen_not_1|rewrite <- El; lia|].
  rewrite El, U. cbn [Z.eqb]. rewrite !(proj2 (Z.ltb_ge 3 _)) by lia. cbn [orb].
  eexists. split; [reflexivity|]. unfold packet_is; cbn.
  rewrite of_areas_data by (rewrite <- El in Hh; lia). by repeat split.
Qed.
End Header.

(** ** One round of the loop *)

Section Round.
Context {C H : Type} `{PacketCipherLaws C} `{HashLaws H}.

(** The receiver is where the sender is: [c] is the sender's cipher, [k] and
    [mac_len] the HMAC's, [seq] the number of the next packet. *)
Definition rcv_ok (r : SilcPacketStream C H) (c : SilcCipher C) (k : list Z) (mac_len seq : Z)
    : Prop :=
  exists d h, key (rcv_dir r) = Some d /\ hm (rcv_dir r) = Some h /\ in_sync c d /\
  keyed h k /\ hm_len h = mac_len /\ psn (rcv_dir r) = seq /\ iv_included r = false.

(** A round only changes the receiving direction. *)
Definition same_stream (r r' : SilcPacketStream C H) : Prop := exists d, r' = set_rcv r d.

Lemma same_stream_trans r1 r2 r3 : same_stream r1 r2 -> same_stream r2 r3 -> same_stream r1 r3.
Proof. intros [d ->] [d' ->]. by exists d'. Qed.

Lemma put_keys_same (r : SilcPacketStream C H) old c h : same_stream r (put_keys r old c h).
Proof. unfold put_keys. destruct c; [destruct old|]; by eexists. Qed.

(** The IV of the first block is the one the sender started with. *)
Lemma receive_iv c d :
  in_sync c d ->
  (if is_ctr then silc_packet_receive_ctr_increment false (ztake 16 (c_iv d)) []
   else ztake 16 (c_iv d)) = c_iv (send_cipher c).
Proof.
  intros (_ & E & Hiv). pose proof (pk_iv_len _ Hiv) as Hl. rewrite E, ztake_ge by lia.
  unfold send_cipher, silc_packet_receive_ctr_increment.
  destruct is_ctr; [|done]. cbn [c_iv]. by apply counter64_reset.
Qed.

Lemma first_block_ok (r : SilcPacketStream C H) c d c' lr sr a m dst iv1 d1 d' x :
  key (rcv_dir r) = Some d -> iv_included r = false -> in_sync c d ->
  opens c d c' lr sr a m dst iv1 d1 d' -> ztake 16 x = ztake 16 dst ->
  read_first_block r x =
  Some (mkFirst (Some d1) false (hm (rcv_dir r)) (ztake 16 (plain lr sr a m)) None iv1 0 0 16).
Proof.
  intros Ek Ei Hs Ho Hx. unfold read_first_block, select_key. rewrite Ek, Ei.
  unfold silc_cipher_get_block_len. rewrite pk_block_len.
  pose proof (receive_iv c d Hs) as Eiv.
  pose proof (opens_first _ _ _ _ _ _ _ _ _ _ _ Ho x Hx) as E. unfold first_cipher in E.
  destruct is_ctr; rewrite Eiv, (zdrop_0 0), E by lia; done.
Qed.

(** The message fits the receiver: it has a block to decrypt, and more than a
    bare header. *)
Definition receivable lr sr (a : Address) (m : Msg) : Prop :=
  address_ok a /\ msg_ok m /\ 16 <= enclen lr sr a m /\ SILC_PACKET_MIN_LEN <= truelen a m.

(** A round up to the length check and the MAC. *)
Lemma read_round_head lr' (r : SilcPacketStream C H) inb pool dispatch c d c' h lr sr a m dst iv1 d1 d' :
  key (rcv_dir r) = Some d -> hm (rcv_dir r) = Some h -> iv_included r = false ->
  in_sync c d -> opens c d c' lr sr a m dst iv1 d1 d' -> receivable lr sr a m ->
  lr' && is_router r = lr && sr -> 0 <= hm_len h <= 64 ->
  16 <= silc_buffer_len inb -> ztake 16 (silc_buffer_data inb) = ztake 16 dst ->
  let n := zlen (plain lr sr a m) in
  let s1 := put_keys r false (Some d1) (Some h) in
  read_round lr' r inb pool dispatch =
  if silc_buffer_len inb <? n + hm_len h then RWait s1
  else
    let '(hmac, ok) :=
      silc_packet_check_mac (Some h) (silc_buffer_data inb) n (zdrop n (silc_buffer_data inb))
        None (psn (rcv_dir r)) in
    let s := put_keys s1 false (Some d1) hmac in
    if negb ok then ROut s [EvError SILC_PACKET_ERR_MAC_FAILED] pool
    else
      take_packet s inb (mkFirst (Some d1) false hmac (ztake 16 (plain lr sr a m)) None iv1 0 0 16)
        (m_type m) (sent_flags m) n (hm_len h) (negb (special lr sr m)) pool dispatch.
Proof.
  intros Ek Eh Ei Hs Ho (Ha & Hm & He & Ht) Hrr Hh Hlen Hd n s1.
  pose proof (truelen_range a m Ha Hm). pose proof (plain_len lr sr a m Ha Hm) as Hn.
  destruct (layout_ok lr sr a m Ha Hm) as (Hp & Hel & Hblk). fold n in Hn.
  destruct (header_fields lr sr a m Ha Hm (ztake 16 (plain lr sr a m)))
    as (E1 & E2 & E3 & _ & E5); [by apply ztake_ztake|]. fold n in E1.
  unfold read_round. rewrite Ei, Eh. unfold SILC_PACKET_MIN_HEADER_LEN, silc_hmac_len.
  rewrite (proj2 (Z.ltb_ge _ 16)) by lia.
  rewrite (first_block_ok r c d c' lr sr a m dst iv1 d1 d' _ Ek Ei Hs Ho Hd), Eh.
  cbn [f_header f_cipher f_hmac f_old f_ivlen f_seq f_block_len f_iv f_psnlen].
  fold s1. change (is_router s1) with (is_router r). change (psn (rcv_dir s1)) with (psn (rcv_dir r)).
  rewrite E1, E2, E3, E5, (normal_special lr sr m lr' (is_router r) Hrr).
  assert (Hchk : negb is_ctr &&
    (negb (special lr sr m) && negb (n mod 16 =? 0) ||
     negb (negb (special lr sr m)) && negb ((header_len a + padlen lr sr a m) mod 16 =? 0)) = false).
  { destruct is_ctr; [done|]. destruct Hblk as [Hb _]; [done|]. rewrite Hel in Hb.
    destruct (special lr sr m); cbn [negb andb orb]; [by rewrite Hb|by rewrite Hn, Hb]. }
  rewrite Hchk, !Z.add_0_r, !u32_id by lia.
  destruct (silc_packet_check_mac _ _ _ _ _ _) as [hmac ok].
  by rewrite (proj2 (Z.ltb_ge _ SILC_PACKET_MIN_LEN)) by lia.
Qed.

(** The free packets: their buffers are empty and of a moderate size. *)
Definition free_packet (b : SilcBuffer) : Prop :=
  exists mem, b = of_areas [] [] mem /\ zlen mem < 1073741824.

Definition pool_ok (pool : list SilcBuffer) : Prop := Forall free_packet pool.

Lemma alloc_packet pool :
  pool_ok pool ->
  exists mem pool', silc_packet_alloc pool = Some (of_areas [] [] mem, pool') /\
  zlen mem < 1073741824 /\ pool_ok pool'.
Proof.
  intros Hp. destruct pool as [|b pool].
  - exists (zeros 1024), []. split; [reflexivity|]. by rewrite zlen_zeros by lia.
  - apply list.Forall_cons_1 in Hp as [(mem & -> & Hm) Hp]. by exists mem, pool.
Qed.

Lemma put_longer h y d t x n :
  zlen h + n + zlen d + zlen t < 2147483648 -> zlen y = n -> 0 <= n <= zlen x ->
  silc_buffer_put (of_areas h (y ++ d) t) x n = (of_areas h (ztake n x ++ d) t, Some (zlen h)).
Proof.
  intros Hs Hy Hn. pose proof (zlen_take n x Hn) as El.
  assert (E : silc_buffer_put (of_areas h (y ++ d) t) x n =
              silc_buffer_put (of_areas h (y ++ d) t) (ztake n x) (zlen (ztake n x))).
  { unfold silc_buffer_put. by rewrite El, ztake_ztake by lia. }
  rewrite E. apply put_areas; lia.
Qed.

(** The packet's buffer: the first block decrypted, the rest as it arrived. *)
Lemma fill_ok mem hdr data n (c : option (SilcCipher C)) old (h : option (SilcHmac H)) seq iv :
  zlen mem < 1073741824 -> zlen hdr = 16 -> 16 <= n <= zlen data -> n < 100000 ->
  exists t,
    fill_packet (of_areas [] [] mem) (mkFirst c old h hdr seq iv 0 0 16) data n =
      Some (of_areas hdr (zslice 16 (n - 16) data) t) /\
    n + zlen t < 1074000000.
Proof.
  intros Hm Hh Hn Hn'. zlen_facts. unfold fill_packet.
  cbn [f_block_len f_psnlen f_header f_ivlen Z.sub Z.add Z.opp].
  assert (G : exists mem', zlen mem' < 1073741824 + n /\ n <= zlen mem' /\
    (if silc_buffer_truelen (of_areas [] [] mem) <? n
     then silc_buffer_realloc (Some (of_areas [] [] mem))
            (u32 (silc_buffer_truelen (of_areas [] [] mem) +
                  (n - silc_buffer_truelen (of_areas [] [] mem))))
     else Some (of_areas [] [] mem)) = Some (of_areas [] [] mem')).
  { rewrite of_areas_truelen, !nilZ, !Z.add_0_l by (rewrite !nilZ; lia).
    destruct (Z.ltb_spec (zlen mem) n).
    - replace (zlen mem + (n - zlen mem)) with n by lia.
      rewrite u32_id, realloc_areas by (rewrite ?nilZ; unfold SILC_MAX_ALLOC; lia).
      eexists. split; [|split; [|reflexivity]]; rewrite zlen_app, zlen_zeros, !nilZ;
        rewrite ?nilZ; lia.
    - exists mem. split; [lia|]. split; [lia|done]. }
  destruct G as (mem' & Hm1 & Hm2 & ->).
  set (x := ztake n mem'). set (t := zdrop n mem').
  assert (Hx : zlen x = n) by (apply zlen_take; lia).
  assert (Ht : zlen t = zlen mem' - n) by (apply zlen_drop; lia).
  exists t. rewrite <- (ztake_drop n mem'). fold x t. rewrite <- Hx at 1 2.
  rewrite pull_tail_areas by (rewrite !nilZ; lia). cbn [fst app].
  change (16 - 0) with 16. change (0 + 0 + 16) with 16.
  replace (zlen x - 0 - 0 - 16) with (n - 16) by lia. rewrite (u32_id (n - 16)) by lia.
  assert (Hx1 : zlen (ztake 16 x) = 16) by (apply zlen_take; lia).
  assert (Hx2 : zlen (zdrop 16 x) = n - 16) by (rewrite zlen_drop; lia).
  rewrite <- (ztake_drop 16 x), put_longer by (rewrite ?nilZ; lia).
  cbn [fst]. rewrite (ztake_ge 16 hdr) by lia.
  pose proof (pull_areas [] hdr (zdrop 16 x) t) as Ep. rewrite Hh in Ep.
  rewrite Ep by (rewrite nilZ; lia). cbn [fst app].
  rewrite <- (app_nil_r (zdrop 16 x)), put_longer by (rewrite ?zlen_drop, ?nilZ; lia). cbn [fst].
  rewrite app_nil_r. split; [done|lia].
Qed.

(** Decrypting the rest of the packet, all of it or up to the payload. *)
Lemma decrypt_area_ok c d c' lr sr a m dst iv1 d1 d' h t :
  opens c d c' lr sr a m dst iv1 d1 d' -> receivable lr sr a m ->
  let p := plain lr sr a m in let e := enclen lr sr a m in
  decrypt_area (silc_cipher_set_iv d1 (Some iv1)) (of_areas h (zdrop 16 dst ++ zdrop e p) t) (e - 16) =
  Some (d', of_areas h (zdrop 16 p) t).
Proof.
  intros Ho (Ha & Hm & He & _) p e. pose proof (enclen_range lr sr a m Ha Hm) as Hr.
  pose proof (opens_len _ _ _ _ _ _ _ _ _ _ _ Ho) as Hl. fold p e in Hr, Hl, He.
  unfold decrypt_area. rewrite data_areas, <- app_assoc.
  rewrite (opens_rest _ _ _ _ _ _ _ _ _ _ _ Ho). fold p e.
  assert (Hz : zlen (zslice 16 (e - 16) p) = zlen (zdrop 16 dst)).
  { rewrite zlen_slice, zlen_drop by lia. lia. }
  do 2 f_equal. unfold set_mem, of_areas, splice; cbn [b_mem b_data b_tail].
  rewrite ztake_app_exact by done. rewrite Hz, <- app_assoc.
  rewrite zdrop_app_r, Z.add_simpl_l, zdrop_app_exact by zl.
  assert (E : zslice 16 (e - 16) p ++ zdrop e p = zdrop 16 p).
  { unfold zslice. rewrite <- (ztake_drop (e - 16) (zdrop 16 p)) at 2.
    rewrite zdrop_zdrop by lia. do 2 f_equal. lia. }
  f_equal; [by rewrite (app_assoc (zslice _ _ _)), E|].
  rewrite <- E, !zlen_app. lia.
Qed.

Lemma packet_decrypt_ok c d c' lr sr a m dst iv1 d1 d' t :
  opens c d c' lr sr a m dst iv1 d1 d' -> receivable lr sr a m ->
  let p := plain lr sr a m in let e := enclen lr sr a m in
  zlen p + zlen t < 2147483648 ->
  silc_packet_decrypt (Some (silc_cipher_set_iv d1 (Some iv1)))
    (of_areas (ztake 16 p) (zdrop 16 dst ++ zdrop e p) t) (negb (special lr sr m)) =
  Some (Some d', of_areas (ztake 16 p) (zdrop 16 p) t).
Proof.
  intros Ho Hrcv p e Hs. pose proof (decrypt_area_ok _ _ _ _ _ _ _ _ _ _ _ (ztake 16 p) t Ho Hrcv) as D.
  cbn zeta in D. fold p e in D. destruct Hrcv as (Ha & Hm & He & _).
  pose proof (enclen_range lr sr a m Ha Hm) as Hr.
  pose proof (opens_len _ _ _ _ _ _ _ _ _ _ _ Ho) as Hl. fold p e in Hr, Hl, He.
  destruct (layout_ok lr sr a m Ha Hm) as (Hp & Hcase & _). fold e in Hcase.
  pose proof (plain_len lr sr a m Ha Hm) as Hpl. fold p in Hpl.
  pose proof (truelen_range a m Ha Hm). pose proof (header_len_range a Ha).
  assert (H16 : zlen (ztake 16 p) = 16) by (apply zlen_take; lia).
  set (x := zdrop 16 dst ++ zdrop e p) in *.
  assert (Hx : zlen x = zlen p - 16) by (unfold x; rewrite zlen_app, !zlen_drop; lia).
  unfold silc_packet_decrypt. destruct (special lr sr m); cbn [negb].
  - unfold silc_cipher_get_block_len. rewrite pk_block_len.
    pose proof (push_areas [] (ztake 16 p) x t) as E1. rewrite H16 in E1. cbn [app] in E1.
    rewrite E1. cbn [fst]. rewrite data_areas.
    destruct (header_fields lr sr a m Ha Hm ((ztake 16 p ++ x) ++ t)) as (_ & _ & _ & _ & E5).
    { rewrite <- app_assoc, ztake_app_l by lia. by apply ztake_ztake. }
    rewrite E5. pose proof (pull_areas [] (ztake 16 p) x t) as E2. rewrite H16 in E2. cbn [app] in E2.
    rewrite E2 by (rewrite nilZ; lia). cbn [fst].
    unfold u16. rewrite Z.mod_small by lia. rewrite of_areas_len by lia.
    rewrite (proj2 (Z.ltb_ge _ _)) by lia. by rewrite <- Hcase, D.
  - rewrite of_areas_len by lia. replace (zlen x) with (e - 16) by lia. by rewrite D.
Qed.

(** The MAC of the packet is the one the receiver computes. *)
Lemma packet_mac_ok (h : SilcHmac H) k body rest seq :
  keyed h k -> hashable body ->
  exists h',
    silc_packet_check_mac (Some h) (body ++ hmac_spec (hm_len h) k (SILC_PUT32_MSB seq ++ body) ++ rest)
      (zlen body) (hmac_spec (hm_len h) k (SILC_PUT32_MSB seq ++ body) ++ rest) None seq =
    (Some h', true) /\ same_key h h'.
Proof.
  intros Hk Hb. set (mac := hmac_spec _ _ _).
  destruct (packet_mac h k (SILC_PUT32_MSB seq) body (mac ++ rest) Hk (zlen_put32 _) Hb)
    as (h' & E & Hs).
  exists h'. split; [|done]. unfold silc_packet_check_mac. rewrite E. fold mac.
  pose proof Hs as (_ & _ & El). cbn [hm_len] in *.
  rewrite ztake_app_exact by (unfold mac; rewrite (hmac_bytes_len h k) by done; done || lia).
  by rewrite bool_decide_true.
Qed.

(** The packet is taken out of the buffer and dispatched. *)
Lemma take_packet_ok (r : SilcPacketStream C H) h c d c' lr sr a m dst iv1 d1 d' mac ih more it
    pool dispatch :
  opens c d c' lr sr a m dst iv1 d1 d' -> receivable lr sr a m -> pool_ok pool ->
  (forall p, dispatch p = true) ->
  let p := plain lr sr a m in
  let wire := (dst ++ zdrop (enclen lr sr a m) p) ++ mac in
  zlen ih + zlen wire + zlen more + zlen it < 2147483648 ->
  exists pk pool',
    take_packet r (of_areas ih (wire ++ more) it)
      (mkFirst (Some d1) false (Some h) (ztake 16 p) None iv1 0 0 16)
      (m_type m) (sent_flags m) (zlen p) (zlen mac) (negb (special lr sr m)) pool dispatch =
    RNext (let r := put_keys r false (Some d') (Some h) in
           set_rcv r (set_psn (rcv_dir r) (u32 (psn (rcv_dir r) + 1))))
      (of_areas (ih ++ wire) more it) [EvPacket pk] pool' /\
    packet_is a m pk /\ pool_ok pool'.
Proof.
  intros Ho Hrcv Hpool Hdisp p wire Hs. pose proof Hrcv as (Ha & Hm & He & Ht).
  pose proof (enclen_range lr sr a m Ha Hm) as Hr.
  pose proof (opens_len _ _ _ _ _ _ _ _ _ _ _ Ho) as Hl.
  pose proof (plain_len lr sr a m Ha Hm) as Hpl.
  pose proof (truelen_range a m Ha Hm). destruct (layout_ok lr sr a m Ha Hm) as (Hp & _ & _).
  fold p in Hr, Hpl. set (e := enclen lr sr a m) in *. zlen_facts.
  assert (H16 : zlen (ztake 16 p) = 16) by (apply zlen_take; lia).
  assert (Hbody : zlen (dst ++ zdrop e p) = zlen p) by (rewrite zlen_app, zlen_drop; lia).
  unfold take_packet. destruct (alloc_packet pool Hpool) as (mem & pool' & -> & Hmem & Hpool').
  rewrite data_areas.
  destruct (fill_ok mem (ztake 16 p) ((wire ++ more) ++ it) (zlen p) (Some d1) false (Some h) None iv1)
    as (t & -> & Ht2); [done|done|unfold wire; rewrite !zlen_app in *; lia|lia|].
  assert (Ez : zslice 16 (zlen p - 16) ((wire ++ more) ++ it) = zdrop 16 dst ++ zdrop e p).
  { unfold zslice, wire. rewrite <- !app_assoc, zdrop_app_l by lia.
    rewrite app_assoc, ztake_app_exact; [done|]. rewrite zlen_app, !zlen_drop; lia. }
  rewrite Ez. cbn [f_cipher f_hmac f_old f_iv f_block_len].
  pose proof (packet_decrypt_ok _ _ _ _ _ _ _ _ _ _ _ t Ho Hrcv) as D. cbn zeta in D. fold p e in D.
  rewrite D by lia.
  pose proof (push_areas [] (ztake 16 p) (zdrop 16 p) t) as E1.
  rewrite H16, ztake_drop in E1. cbn [app] in E1. rewrite E1. cbn [fst].
  rewrite (u32_id (zlen p + _)) by (unfold wire in Hs; rewrite zlen_app in Hs; lia).
  replace (zlen p + zlen mac) with (zlen wire) by (unfold wire; rewrite zlen_app; lia).
  rewrite pull_areas by lia. cbn [fst].
  destruct (parse_plain lr sr a m Ha Hm t) as (pk & Epk & Hpk); [fold p; lia|].
  fold p in Epk. rewrite Epk, Hdisp. by exists pk, pool'.
Qed.

Lemma rcv_ok_next (r : SilcPacketStream C H) c k mac_len seq d h :
  in_sync c d -> keyed h k -> hm_len h = mac_len -> iv_included r = false ->
  psn (rcv_dir r) = seq ->
  rcv_ok (put_keys r false (Some d) (Some h)) c k mac_len seq.
Proof. intros. by exists d, h. Qed.

(** A round on a packet that has arrived. *)
Lemma round_ok lr' (r : SilcPacketStream C H) c k mac_len seq lr sr a m wire c' ih more it pool
    dispatch :
  rcv_ok r c k mac_len seq -> receivable lr sr a m -> 0 <= mac_len <= 64 ->
  seal c k mac_len seq lr sr a m = Some (wire, c') -> lr' && is_router r = lr && sr ->
  pool_ok pool -> (forall p, dispatch p = true) ->
  zlen ih + zlen wire + zlen more + zlen it < 2147483648 ->
  exists r' pk pool',
    read_round lr' r (of_areas ih (wire ++ more) it) pool dispatch =
      RNext r' (of_areas (ih ++ wire) more it) [EvPacket pk] pool' /\
    rcv_ok r' c' k mac_len (u32 (seq + 1)) /\ same_stream r r' /\ packet_is a m pk /\
    pool_ok pool'.
Proof.
  intros (d & h & Ek & Eh & Hs & Hk & El & Es & Ei) Hrcv Hml Eseal Hrr Hpool Hdisp Hsz.
  pose proof Hrcv as (Ha & Hm & He & Ht). pose proof Hk as (_ & _ & Hkl).
  destruct (seal_opens c d k mac_len seq lr sr a m Hs Ha Hm He) as (dst & c'' & iv1 & d1 & d' & E & Ho);
    [lia|].
  rewrite E in Eseal. injection Eseal as <- <-.
  pose proof (enclen_range lr sr a m Ha Hm) as Hr. pose proof (opens_len _ _ _ _ _ _ _ _ _ _ _ Ho) as Hl.
  pose proof (plain_len lr sr a m Ha Hm) as Hpl.
  set (p := plain lr sr a m) in *. set (e := enclen lr sr a m) in *.
  set (body := dst ++ zdrop e p) in *. set (mac := hmac_spec _ _ _) in *.
  assert (Hmac : zlen mac = mac_len) by (unfold mac; apply hmac_spec_len; lia).
  assert (Hbody : zlen body = zlen p) by (unfold body; rewrite zlen_app, zlen_drop; lia).
  zlen_facts. pose proof (read_round_head lr' r (of_areas ih ((body ++ mac) ++ more) it) pool dispatch
    c d c'' h lr sr a m dst iv1 d1 d' Ek Eh Ei Hs Ho Hrcv Hrr ltac:(lia)) as R.
  rewrite !zlen_app in Hsz.
  rewrite of_areas_len, data_areas in R by (rewrite !zlen_app; lia). rewrite !zlen_app in R.
  cbn zeta in R. rewrite R; clear R.
  2: lia. 2: { unfold body. rewrite <- !app_assoc. apply ztake_app_l. lia. }
  fold p. rewrite (proj2 (Z.ltb_ge _ _)) by lia.
  destruct (packet_mac_ok h k body (more ++ it) seq Hk) as (h' & Ec & Hh').
  { unfold hashable; lia. }
  rewrite El, Hbody in Ec. change (hmac_spec mac_len k (SILC_PUT32_MSB seq ++ body)) with mac in Ec.
  rewrite <- !app_assoc, zdrop_app_exact, Es, Ec by lia. cbn [negb].
  destruct (take_packet_ok (put_keys (put_keys r false (Some d1) (Some h)) false (Some d1) (Some h'))
    h' c d c'' lr sr a m dst iv1 d1 d' mac ih more it pool dispatch Ho Hrcv Hpool Hdisp)
    as (pk & pool' & Et & Hpk & Hpool'); fold e p; fold body; [rewrite !zlen_app; lia|].
  cbn zeta in Et. fold e p in Et. fold body in Et.
  rewrite El, <- Hmac, app_assoc, Et. eexists _, pk, pool'. split; [reflexivity|].
  split; [|split; [by eexists|done]].
  exists d', h'. cbn. pose proof Ho as [_ _ _ _ Hd']. 
  split; [done|]. split; [done|]. split; [done|].
  split; [by eapply keyed_same|]. destruct Hh' as (_ & _ & Eh').
  by rewrite Eh', El, Es.
Qed.

(** A round on the beginning of a packet: nothing is taken, and the receiver is
    where it was. *)
Lemma round_partial lr' (r : SilcPacketStream C H) c k mac_len seq lr sr a m wire c' ih part rest it
    pool dispatch :
  rcv_ok r c k mac_len seq -> receivable lr sr a m -> 0 <= mac_len <= 64 ->
  seal c k mac_len seq lr sr a m = Some (wire, c') -> lr' && is_router r = lr && sr ->
  wire = part ++ rest -> rest <> [] ->
  zlen ih + zlen part + zlen it < 2147483648 ->
  exists r',
    read_round lr' r (of_areas ih part it) pool dispatch = RWait r' /\
    rcv_ok r' c k mac_len seq /\ same_stream r r'.
Proof.
  intros Hrcv0 Hrcv Hml Eseal Hrr Ew Hrest Hsz.
  pose proof Hrcv0 as (d & h & Ek & Eh & Hs & Hk & El & Es & Ei).
  destruct (Z.lt_ge_cases (zlen part) 16) as [Hlt|Hge].
  { exists r. unfold read_round. rewrite Ei, of_areas_len by lia.
    rewrite (proj2 (Z.ltb_lt _ _)) by done. split; [done|]. split; [done|]. by exists (rcv_dir r); destruct r. }
  pose proof Hrcv as (Ha & Hm & He & Ht). pose proof Hk as (_ & _ & Hkl).
  destruct (seal_opens c d k mac_len seq lr sr a m Hs Ha Hm He) as (dst & c'' & iv1 & d1 & d' & E & Ho);
    [lia|].
  rewrite E in Eseal. injection Eseal as Ew' <-.
  pose proof (enclen_range lr sr a m Ha Hm) as Hr. pose proof (opens_len _ _ _ _ _ _ _ _ _ _ _ Ho) as Hl.
  set (p := plain lr sr a m) in *. set (e := enclen lr sr a m) in *.
  set (mac := hmac_spec _ _ _) in *.
  assert (Hmac : zlen mac = mac_len) by (unfold mac; apply hmac_spec_len; lia).
  assert (Hwire : zlen wire = zlen p + mac_len).
  { rewrite <- Ew', !zlen_app, zlen_drop by lia. lia. }
  assert (Hpart : zlen part < zlen wire).
  { rewrite Ew, zlen_app. destruct rest; [done|]. rewrite zlen_cons. zlen_facts. lia. }
  zlen_facts. pose proof (read_round_head lr' r (of_areas ih part it) pool dispatch
    c d c'' h lr sr a m dst iv1 d1 d' Ek Eh Ei Hs Ho Hrcv Hrr ltac:(lia)) as R.
  rewrite of_areas_len, data_areas in R by lia. cbn zeta in R. rewrite R; [|lia|].
  - fold p. rewrite (proj2 (Z.ltb_lt _ _)) by lia. eexists. split; [reflexivity|].
    split; [|apply put_keys_same]. apply rcv_ok_next; try done. by destruct Ho.
  - rewrite ztake_app_l by lia. rewrite <- (ztake_app_l 16 part rest), <- Ew, <- Ew' by lia.
    rewrite <- !app_assoc. apply ztake_app_l. lia.
Qed.
End Round.
