(* ===== verification/PacketThms.v ===== *)
(** * The packet stream as a whole

    What one side sends, in any pieces the network makes of it, the other side
    gets: every packet, once, unchanged and in order.  The receiver reports a
    packet only when its MAC is right, and reading always ends. *)

From S2P Require Import Prelude CTypes Memory Buffer BuffFmt SilcID Cipher Hmac.
From S2P Require Import Packet PacketCipher PacketSpec PacketRead.
Import Unformat.

Section Stream.
Context {C H : Type} `{PacketCipherLaws C} `{HashLaws H}.

(** ** The sender *)

Definition not_failed (r : write_result) : Prop :=
  match r with WroteSome _ | WriteLater => True | WriteEOS | WriteError => False end.

(** Writing takes bytes off the front of the output buffer. *)
Lemma write_loop_ok results : forall h d t,
  Forall not_failed results -> zlen h + zlen d + zlen t < 2147483648 ->
  exists h' d' t' sent,
    write_loop (of_areas h d t) results = (of_areas h' d' t', sent, None) /\
    d = sent ++ d' /\ zlen h' + zlen d' + zlen t' = zlen h + zlen d + zlen t.
Proof.
  induction results as [|w results IH]; intros h d t Hr Hs; cbn [write_loop];
    rewrite of_areas_len by done; zlen_facts;
    destruct (Z.leb_spec (zlen d) 0) as [Hd|Hd].
  1, 3: assert (d = []) as -> by (apply zlen_zero_nil; lia);
    exists [], [], (h ++ t), []; unfold silc_buffer_reset, of_areas; cbn;
    split; [done|]; rewrite !zlen_app, (zlen_nil (A := Z)); split; [done|lia].
  - by exists h, d, t, [].
  - apply list.Forall_cons_1 in Hr as [Hw Hr]. destruct w as [n| | |]; try done.
    2: { by exists h, d, t, []. }
    set (k := Z.max 1 (Z.min n (zlen d))). rewrite data_areas, ztake_app_l by lia.
    assert (Hk : zlen (ztake k d) = k) by (apply zlen_take; lia).
    pose proof (pull_areas h (ztake k d) (zdrop k d) t) as E. rewrite ztake_drop, Hk in E.
    rewrite zlen_drop in E by lia. rewrite E by lia. cbn [fst].
    destruct (IH (h ++ ztake k d) (zdrop k d) t Hr) as (h' & d' & t' & sent & E1 & E2 & E3).
    { rewrite zlen_app, zlen_drop; lia. }
    rewrite E1. exists h', d', t', (ztake k d ++ sent). split; [done|].
    rewrite <- app_assoc, <- E2, ztake_drop. split; [done|].
    rewrite E3, zlen_app, zlen_drop; lia.
Qed.

Definition addressed (s : SilcPacketStream C H) (a : Address) : Prop :=
  src_id s = a_src a /\ src_id_type s = a_src_type a /\ src_id_len s = zlen (src_bytes a) /\
  dst_id s = a_dst a /\ dst_id_type s = a_dst_type a /\ dst_id_len s = zlen (dst_bytes a).

(** The key and the number the next packet is sent with. *)
Definition snd_ok (s : SilcPacketStream C H) (c : SilcCipher C) (k : list Z) (mac_len seq : Z)
    (a : Address) : Prop :=
  exists h, key (snd_dir s) = Some c /\ hm (snd_dir s) = Some h /\ keyed h k /\
  hm_len h = mac_len /\ psn (snd_dir s) = seq /\ iv_included s = false /\ addressed s a.

(** What the application and the scheduler do to the sending stream: a packet is
    sent, or the underlying stream can be written. *)
Inductive action := ASend (m : Msg) (results : list write_result) | AWrite (results : list write_result).

Definition results_of (x : action) : list write_result :=
  match x with ASend _ r | AWrite r => r end.

Definition act (lr : bool) (s : SilcPacketStream C H) (x : action)
    : SilcPacketStream C H * list Z * option event :=
  match x with
  | ASend m results =>
      (silc_packet_send lr s (m_type m) (m_flags m) (m_data m) (zlen (default [] (m_data m)))
         (m_random m) results).1
  | AWrite results => io_can_write s results
  end.

Fixpoint acts (lr : bool) (s : SilcPacketStream C H) (l : list action)
    : SilcPacketStream C H * list Z * list event :=
  match l with
  | [] => (s, [], [])
  | x :: l =>
      let '(s, sent, ev) := act lr s x in
      let '(s, sent', evs) := acts lr s l in
      (s, sent ++ sent', match ev with Some e => e :: evs | None => evs end)
  end.

Definition sends (l : list action) : list Msg :=
  omap (fun x => match x with ASend m _ => Some m | AWrite _ => None end) l.

Section Wires.
Context (k : list Z) (mac_len : Z) (lr sr : bool) (a : Address).

(** The bytes of a sequence of packets. *)
Inductive wires : SilcCipher C -> Z -> list Msg -> list Z -> Prop :=
  | wires_nil c seq : wires c seq [] []
  | wires_cons c seq m ms w c' ws :
      seal c k mac_len seq lr sr a m = Some (w, c') ->
      zlen w = zlen (plain lr sr a m) + mac_len ->
      wires c' (u32 (seq + 1)) ms ws -> wires c seq (m :: ms) (w ++ ws).

Lemma wires_inv c seq m ms x :
  wires c seq (m :: ms) x ->
  exists w c' ws, seal c k mac_len seq lr sr a m = Some (w, c') /\
    zlen w = zlen (plain lr sr a m) + mac_len /\ wires c' (u32 (seq + 1)) ms ws /\ x = w ++ ws.
Proof. inversion 1; subst. by eexists _, _, _. Qed.

Lemma wire_pos c seq m w c' :
  receivable lr sr a m -> 0 <= mac_len -> seal c k mac_len seq lr sr a m = Some (w, c') ->
  zlen w = zlen (plain lr sr a m) + mac_len -> 0 < zlen w.
Proof.
  intros (Ha & Hm & _) Hl _ ->. rewrite plain_len by done.
  pose proof (truelen_range a m Ha Hm). destruct (layout_ok lr sr a m Ha Hm). lia.
Qed.

Lemma wires_nil_inv c seq ms :
  Forall (receivable lr sr a) ms -> 0 <= mac_len -> wires c seq ms [] -> ms = [].
Proof.
  intros Hms Hl Hw. destruct ms as [|m ms]; [done|].
  apply wires_inv in Hw as (w & c' & ws & E1 & E2 & _ & E).
  apply list.Forall_cons_1 in Hms as [Hm _]. pose proof (wire_pos _ _ _ _ _ Hm Hl E1 E2).
  by destruct w.
Qed.

Lemma wires_exist ms : forall c d seq,
  0 <= mac_len <= hash_len -> in_sync c d -> Forall (receivable lr sr a) ms ->
  exists ws, wires c seq ms ws.
Proof.
  induction ms as [|m ms IH]; intros c d seq Hl Hs Hr; [eexists; constructor|].
  apply list.Forall_cons_1 in Hr as [(Ha & Hm & He & _) Hr].
  destruct (seal_opens c d k mac_len seq lr sr a m Hs Ha Hm He) as (dst & c' & iv1 & d1 & d' & E & Ho);
    [lia|].
  pose proof (enclen_range lr sr a m Ha Hm). pose proof (opens_len _ _ _ _ _ _ _ _ _ _ _ Ho).
  destruct (IH c' d' (u32 (seq + 1)) Hl) as [ws Hws]; [by destruct Ho|done|].
  eexists. econstructor; [exact E| |exact Hws].
  rewrite !zlen_app, zlen_drop, hmac_spec_len by lia. lia.
Qed.

(** One send: the packet goes to the end of the output buffer, and some bytes
    off its front. *)
Lemma send_ok (s : SilcPacketStream C H) c seq m results w c' oh od ot :
  snd_ok s c k mac_len seq a -> is_router s = sr -> address_ok a -> msg_ok m ->
  outbuf s = of_areas oh od ot -> Forall not_failed results ->
  seal c k mac_len seq lr sr a m = Some (w, c') ->
  zlen w = zlen (plain lr sr a m) + mac_len ->
  zlen oh + zlen od + zlen ot + zlen w < SILC_MAX_ALLOC ->
  exists s' oh' od' ot' sent,
    act lr s (ASend m results) = (s', sent, None) /\ snd_ok s' c' k mac_len (u32 (seq + 1)) a /\
    is_router s' = sr /\ outbuf s' = of_areas oh' od' ot' /\ od ++ w = sent ++ od' /\
    zlen oh' + zlen od' + zlen ot' <= zlen oh + zlen od + zlen ot + zlen w.
Proof.
  intros (h & Ek & Eh & Hk & El & Es & Ei & Had) Esr Ha Hm Eo Hr Eseal Hw Hs.
  rewrite <- Esr in *. rewrite <- El, <- Es in Eseal. rewrite <- El in Hw.
  destruct (send_raw_ok lr s oh od ot c h k a m w c' Eo Ei Ha Hm Hk Eseal Hw Hs)
    as (h' & ot' & E & Hsame & Hot).
  unfold act, silc_packet_send. destruct Had as (A1 & A2 & A3 & A4 & A5 & A6).
  rewrite A1, A2, A3, A4, A5, A6, Ek, Eh, E. unfold silc_packet_stream_write. cbn [outbuf set_snd set_outbuf].
  destruct (write_loop_ok results oh (od ++ w) ot' Hr) as (h1 & d1 & t1 & sent & Ew & E2 & E3);
    [unfold SILC_MAX_ALLOC in Hs; lia|].
  rewrite Ew. cbn [fst]. eexists _, h1, d1, t1, sent. split; [reflexivity|].
  split; [|split; [done|split; [done|split; [done|lia]]]].
  exists h'. cbn. split; [done|]. split; [done|]. split; [by eapply keyed_same|].
  split; [destruct Hsame as (_ & _ & ->); done|]. split; [by rewrite Es|]. done.
Qed.

Lemma wires_len ms c seq ws :
  address_ok a -> Forall msg_ok ms -> mac_len <= 64 -> wires c seq ms ws ->
  zlen ws <= 65727 * zlen ms.
Proof.
  intros Ha Hms Hl Hw. induction Hw as [|c seq m ms w c' ws _ Ew _ IH]; [done|].
  apply list.Forall_cons_1 in Hms as [Hm Hms]. specialize (IH Hms).
  pose proof (truelen_range a m Ha Hm). destruct (layout_ok lr sr a m Ha Hm) as (Hp & _).
  rewrite plain_len in Ew by done. rewrite zlen_app, zlen_cons. lia.
Qed.

(** Everything the stream is asked to send is written or in the output buffer,
    in order. *)
Lemma acts_ok l : forall (s : SilcPacketStream C H) c seq oh od ot ws,
  snd_ok s c k mac_len seq a -> is_router s = sr -> address_ok a -> Forall msg_ok (sends l) ->
  outbuf s = of_areas oh od ot -> Forall (fun x => Forall not_failed (results_of x)) l ->
  wires c seq (sends l) ws -> zlen oh + zlen od + zlen ot + zlen ws < SILC_MAX_ALLOC ->
  exists s' oh' od' ot' sent,
    acts lr s l = (s', sent, []) /\ outbuf s' = of_areas oh' od' ot' /\ od ++ ws = sent ++ od' /\
    zlen oh' + zlen od' + zlen ot' < SILC_MAX_ALLOC.
Proof.
  induction l as [|x l IH]; intros s c seq oh od ot ws Hok Hsr Ha Hm Eo Hr Hw Hs.
  { inversion Hw; subst. exists s, oh, od, ot, []. rewrite app_nil_r in *. zlen_facts.
    split; [done|]. split; [done|]. split; [done|]. lia. }
  apply list.Forall_cons_1 in Hr as [Hx Hr]. cbn [acts]. destruct x as [m results|results].
  - change (sends (ASend m results :: l)) with (m :: sends l) in *.
    apply list.Forall_cons_1 in Hm as [Hm Hms].
    apply wires_inv in Hw as (w & c' & ws' & E1 & E2 & E3 & ->). rewrite zlen_app in Hs. zlen_facts.
    destruct (send_ok s c seq m results w c' oh od ot Hok Hsr Ha Hm Eo Hx E1 E2 ltac:(lia))
      as (s1 & h1 & d1 & t1 & sent1 & -> & Hok1 & Hsr1 & Eo1 & Eq1 & Hs1).
    destruct (IH s1 c' _ h1 d1 t1 ws' Hok1 Hsr1 Ha Hms Eo1 Hr E3 ltac:(lia))
      as (s2 & h2 & d2 & t2 & sent2 & -> & Eo2 & Eq2 & Hs2).
    exists s2, h2, d2, t2, (sent1 ++ sent2). split; [done|]. split; [done|]. split; [|done].
    by rewrite app_assoc, Eq1, <- !app_assoc, Eq2.
  - change (sends (AWrite results :: l)) with (sends l) in *. zlen_facts.
    assert (G : exists s1 h1 d1 t1 sent1,
      act lr s (AWrite results) = (s1, sent1, None) /\ snd_ok s1 c k mac_len seq a /\
      is_router s1 = sr /\ outbuf s1 = of_areas h1 d1 t1 /\ od = sent1 ++ d1 /\
      zlen h1 + zlen d1 + zlen t1 = zlen oh + zlen od + zlen ot).
    { unfold act, io_can_write. destruct (_ =? 0); [by exists s, oh, od, ot, []|].
      unfold silc_packet_stream_write. rewrite Eo.
      destruct (write_loop_ok results oh od ot Hx) as (h1 & d1 & t1 & sent & -> & E2 & E3);
        [unfold SILC_MAX_ALLOC in Hs; lia|].
      eexists _, h1, d1, t1, sent. split; [reflexivity|]. done. }
    destruct G as (s1 & h1 & d1 & t1 & sent1 & -> & Hok1 & Hsr1 & Eo1 & -> & Hs1).
    destruct (IH s1 c seq h1 d1 t1 ws Hok1 Hsr1 Ha Hm Eo1 Hr Hw ltac:(lia))
      as (s2 & h2 & d2 & t2 & sent2 & -> & Eo2 & Eq2 & Hs2).
    exists s2, h2, d2, t2, (sent1 ++ sent2). split; [done|]. split; [done|]. split; [|done].
    by rewrite <- !app_assoc, Eq2.
Qed.

(** ** The receiver *)

(** What has arrived of a packet waits in the stream's own buffer. *)
Definition pending (r : SilcPacketStream C H) (part : list Z) (size : Z) : Prop :=
  (part = [] /\ inbuf r = None) \/
  (part <> [] /\ exists ih it, inbuf r = Some (of_areas ih part it) /\
   zlen ih + zlen part + zlen it <= size).

Lemma read_loop_nil fuel lr' (r : SilcPacketStream C H) ih it pool dispatch :
  zlen ih + zlen (@nil Z) + zlen it < 2147483648 ->
  read_loop fuel lr' r (of_areas ih [] it) pool dispatch =
  Some (set_inbuf r None, silc_buffer_reset (of_areas ih [] it), [], pool).
Proof. intros. destruct fuel; cbn [read_loop]; by rewrite of_areas_len by done. Qed.

(** The loop on a prefix of the packets: those that are complete are dispatched,
    the beginning of the next one is kept. *)
Lemma read_loop_ok lr' dispatch ms : forall fuel (r : SilcPacketStream C H) c seq part rest ih it pool,
  rcv_ok r c k mac_len seq -> wires c seq ms (part ++ rest) ->
  Forall (receivable lr sr a) ms -> 0 <= mac_len <= 64 -> pool_ok pool ->
  (forall p, dispatch p = true) -> lr' && is_router r = lr && sr ->
  zlen ih + zlen part + zlen it < 2147483648 -> (length part <= fuel)%nat ->
  exists r' inb' pks pool' dn ms' c' seq' part',
    read_loop fuel lr' r (of_areas ih part it) pool dispatch =
      Some (r', inb', EvPacket <$> pks, pool') /\
    ms = dn ++ ms' /\ Forall2 (packet_is a) dn pks /\ rcv_ok r' c' k mac_len seq' /\
    wires c' seq' ms' (part' ++ rest) /\ pending r' part' (zlen ih + zlen part + zlen it) /\
    (rest = [] -> ms' = []) /\ is_router r' = is_router r.
Proof.
  induction ms as [|m ms IH]; intros fuel r c seq part rest ih it pool
    Hrcv Hw Hms Hml Hpool Hd Hrr Hs Hf;
    (destruct (decide (part = [])) as [->|Hp0];
      [eexists _, _, [], pool, [], _, c, seq, []; rewrite read_loop_nil by done;
       split; [reflexivity|]; split; [reflexivity|]; split; [constructor|]; split; [done|];
       split; [done|]; split; [by left|]; split; [|done]; intros ->;
       eapply wires_nil_inv; [exact Hms|lia|exact Hw]|]).
  { inversion Hw as [? ? E|]. by destruct part. }
  assert (Hp : 0 < zlen part) by (destruct part; [done|rewrite zlen_cons; zlen_facts; lia]).
  apply wires_inv in Hw as (w & c' & ws & E1 & E2 & E3 & E5).
  apply list.Forall_cons_1 in Hms as [Hm Hms]. zlen_facts.
  destruct fuel as [|fuel]; [unfold zlen in Hp; lia|]. cbn [read_loop].
  rewrite of_areas_len, (proj2 (Z.leb_gt _ 0)) by lia.
  destruct (Z.le_gt_cases (zlen w) (zlen part)) as [Hle|Hgt].
  - assert (Ep : part = w ++ zdrop (zlen w) part).
    { rewrite <- (ztake_drop (zlen w) part) at 1. f_equal.
      rewrite <- (ztake_app_l _ part rest), E5 by lia. by apply ztake_app_exact. }
    set (more := zdrop (zlen w) part) in *. rewrite Ep in *. rewrite zlen_app in *.
    rewrite <- app_assoc in E5. apply app_inv_head in E5. subst ws.
    destruct (round_ok lr' r c k mac_len seq lr sr a m w c' ih more it pool dispatch)
      as (r1 & pk & pool1 & -> & Hrcv1 & [dir ->] & Hpk & Hpool1); try done; [lia|].
    pose proof (wire_pos c seq m w c' Hm ltac:(lia) E1 E2) as Hw0.
    destruct (IH fuel (set_rcv r dir) c' (u32 (seq + 1)) more rest (ih ++ w) it pool1)
      as (r2 & inb2 & pks & pool2 & dn & ms' & c2 & seq2 & part2 & -> & -> & F1 & F2 & F3 & F4 & F5);
      try done; [rewrite zlen_app; lia|unfold zlen in *; rewrite length_app in Hf; lia|].
    exists r2, inb2, (pk :: pks), pool2, (m :: dn), ms', c2, seq2, part2.
    split; [done|]. split; [done|]. split; [by constructor|]. split; [done|]. split; [done|].
    split; [|done]. rewrite zlen_app in F4. by replace (zlen ih + (zlen w + zlen more) + zlen it)
      with (zlen ih + zlen w + zlen more + zlen it) by lia.
  - assert (Ew : w = part ++ zdrop (zlen part) w).
    { rewrite <- (ztake_drop (zlen part) w) at 1. f_equal.
      rewrite <- (ztake_app_l _ w ws), <- E5 by lia. by apply ztake_app_exact. }
    destruct (round_partial lr' r c k mac_len seq lr sr a m w c' ih part (zdrop (zlen part) w) it
      pool dispatch) as (r1 & -> & Hrcv1 & [dir ->]); try done.
    { intros E0. apply (f_equal zlen) in E0. rewrite zlen_drop, (zlen_nil (A := Z)) in E0 by lia. lia. }
    exists (set_inbuf (set_rcv r dir) (Some (of_areas ih part it))), (of_areas ih part it), [], pool, [],
      (m :: ms), c, seq, part. split; [done|]. split; [done|]. split; [constructor|]. split; [done|].
    split; [rewrite E5; by econstructor|].
    split; [right; split; [done|]; eexists ih, it; split; [done|lia]|]. split; [|done].
    intros ->. apply (f_equal zlen) in E5. rewrite app_nil_r, zlen_app in E5.
    zlen_facts. lia.
Qed.

(** A free input buffer, or none: then one of 66560 bytes is allocated. *)
Definition free_ok (free : option SilcBuffer) (size : Z) : Prop :=
  match free with
  | Some b => exists mem, b = of_areas [] [] mem /\ zlen mem <= size
  | None => 66560 <= size
  end.

Lemma read_buffer_ok (r : SilcPacketStream C H) part size free :
  pending r part size -> free_ok free size -> size + 2048 < SILC_MAX_ALLOC ->
  exists ih it, read_buffer r free = Some (of_areas ih part it) /\
    zlen ih + zlen part + zlen it <= size + 2048 /\ 2048 <= zlen it.
Proof.
  intros Hp Hf Hs. unfold SILC_MAX_ALLOC in Hs.
  assert (G : exists ih it, zlen ih + zlen part + zlen it <= size /\
    match inbuf r with
    | Some inb => Some inb
    | None => match free with
              | Some inb => Some inb
              | None => silc_buffer_reset <$> silc_buffer_alloc (SILC_PACKET_DEFAULT_SIZE * 65)
              end
    end = Some (of_areas ih part it)).
  { destruct Hp as [[-> ->]|[_ (ih & it & -> & Hsz)]]; [|by exists ih, it].
    destruct free as [b|]; cbn in Hf.
    - destruct Hf as (mem & -> & Hm). exists [], mem. split; [by rewrite (zlen_nil (A := Z))|done].
    - exists [], (zeros 66560). split; [rewrite zlen_zeros by lia; rewrite (zlen_nil (A := Z)); lia|].
      unfold silc_buffer_alloc. change (SILC_PACKET_DEFAULT_SIZE * 65) with 66560. cbn [Z.eqb].
      by rewrite silc_calloc_ok. }
  destruct G as (ih & it & Hsz & E). unfold read_buffer. rewrite E. zlen_facts.
  change (SILC_PACKET_DEFAULT_SIZE * 2) with 2048. autorewrite with areas.
  destruct (Z.ltb_spec (zlen it) 2048).
  - rewrite u32_id, realloc_areas by (unfold SILC_MAX_ALLOC; lia). cbn [default from_option].
    eexists ih, _. split; [reflexivity|]. rewrite zlen_app, zlen_zeros by lia. lia.
  - exists ih, it. split; [done|lia].
Qed.

Lemma io_ok lr' (r : SilcPacketStream C H) c seq ms part rest size free pool dispatch bytes :
  rcv_ok r c k mac_len seq -> wires c seq ms (part ++ bytes ++ rest) ->
  Forall (receivable lr sr a) ms -> 0 <= mac_len <= 64 -> pool_ok pool ->
  (forall p, dispatch p = true) -> lr' && is_router r = lr && sr ->
  pending r part size -> free_ok free size -> size + 2048 < SILC_MAX_ALLOC ->
  zlen bytes <= 2048 ->
  exists r' inb' pks pool' dn ms' c' seq' part',
    io_can_read lr' r free pool dispatch (ReadSome bytes) =
      Some (r', inb', EvPacket <$> pks, pool') /\
    ms = dn ++ ms' /\ Forall2 (packet_is a) dn pks /\ rcv_ok r' c' k mac_len seq' /\
    wires c' seq' ms' (part' ++ rest) /\ pending r' part' (size + 2048) /\
    (rest = [] -> ms' = []) /\ is_router r' = is_router r.
Proof.
  intros Hrcv Hw Hms Hml Hpool Hd Hrr Hp Hf Hs Hb.
  destruct (read_buffer_ok r part size free Hp Hf Hs) as (ih & it & E & Hsz & Hit).
  unfold SILC_MAX_ALLOC in Hs. zlen_facts.
  unfold io_can_read, silc_packet_stream_read. rewrite E.
  assert (Em : set_mem (of_areas ih part it) (splice (b_tail (of_areas ih part it)) bytes
                 (b_mem (of_areas ih part it))) =
               of_areas ih part (bytes ++ zdrop (zlen bytes) it)).
  { unfold set_mem, of_areas, splice; cbn [b_mem b_data b_tail].
    rewrite (app_assoc ih part it), ztake_app_exact, zdrop_app_r by zl.
    rewrite zlen_app, Z.add_simpl_l. by rewrite <- app_assoc. }
  rewrite Em, pull_tail_areas by (rewrite zlen_drop; lia). cbn [fst].
  set (r1 := put_inbuf r _). rewrite app_assoc in Hw.
  assert (Hr1 : rcv_dir r1 = rcv_dir r /\ iv_included r1 = iv_included r /\ is_router r1 = is_router r).
  { unfold r1, put_inbuf. by destruct (inbuf r). }
  destruct Hr1 as (R1 & R2 & R3). unfold silc_packet_read_process.
  rewrite of_areas_len by (rewrite zlen_app, zlen_drop; lia).
  destruct (read_loop_ok lr' dispatch ms (Z.to_nat (zlen (part ++ bytes))) r1 c seq (part ++ bytes)
    rest ih (zdrop (zlen bytes) it) pool)
    as (r2 & inb2 & pks & pool2 & dn & ms' & c2 & seq2 & part2 & E2 & F0 & F1 & F2 & F3 & F4 & F5);
    try done.
  - unfold rcv_ok in *. by rewrite R1, R2.
  - by rewrite R3.
  - rewrite zlen_app, zlen_drop; lia.
  - unfold zlen. lia.
  - rewrite E2. exists r2, (Some inb2), pks, pool2, dn, ms', c2, seq2, part2.
    split; [done|]. split; [done|]. split; [done|]. split; [done|]. split; [done|].
    destruct F5 as [F5 F6]. split; [|by rewrite F6, R3]. rewrite zlen_app, zlen_drop in F4 by lia.
    destruct F4 as [?|(? & x & y & ? & ?)]; [by left|right]. split; [done|].
    exists x, y. split; [done|lia].
Qed.

(** The stream becomes readable: the free buffer and packets at that time, and
    the bytes read. *)
Record arrival := mkArrival {
  ar_free : option SilcBuffer;
  ar_pool : list SilcBuffer;
  ar_bytes : list Z
}.

Definition arrival_ok (size : Z) (x : arrival) : Prop :=
  free_ok (ar_free x) size /\ pool_ok (ar_pool x) /\ zlen (ar_bytes x) <= 2048.

Fixpoint receive (lr' : bool) (r : SilcPacketStream C H) (dispatch : SilcPacket -> bool)
    (l : list arrival) : option (SilcPacketStream C H * list event) :=
  match l with
  | [] => Some (r, [])
  | x :: l =>
      match io_can_read lr' r (ar_free x) (ar_pool x) dispatch (ReadSome (ar_bytes x)) with
      | None => None
      | Some (r, _, evs, _) =>
          match receive lr' r dispatch l with
          | None => None
          | Some (r, evs') => Some (r, evs ++ evs')
          end
      end
  end.

Lemma arrival_ok_mono size size' x : size <= size' -> arrival_ok size x -> arrival_ok size' x.
Proof.
  intros Hs (Hf & Hp & Hb). split; [|done]. destruct (ar_free x); cbn in *; [|lia].
  destruct Hf as (mem & -> & ?). exists mem. split; [done|lia].
Qed.

Lemma receive_ok lr' dispatch l : forall (r : SilcPacketStream C H) c seq ms part rest size,
  rcv_ok r c k mac_len seq -> wires c seq ms (part ++ concat (ar_bytes <$> l) ++ rest) ->
  Forall (receivable lr sr a) ms -> 0 <= mac_len <= 64 ->
  (forall p, dispatch p = true) -> lr' && is_router r = lr && sr ->
  pending r part size -> Forall (arrival_ok size) l -> size + 2048 * zlen l < SILC_MAX_ALLOC ->
  (l = [] -> rest = [] -> part = []) ->
  exists r' pks dn ms',
    receive lr' r dispatch l = Some (r', EvPacket <$> pks) /\ ms = dn ++ ms' /\
    Forall2 (packet_is a) dn pks /\ (rest = [] -> ms' = []).
Proof.
  induction l as [|x l IH]; intros r c seq ms part rest size Hrcv Hw Hms Hml Hd Hrr Hp Hl Hs Hlast.
  { exists r, [], [], ms. split; [done|]. split; [done|]. split; [constructor|]. intros Er.
    rewrite (Hlast eq_refl Er), Er in Hw. eapply wires_nil_inv; [exact Hms|lia|exact Hw]. }
  apply list.Forall_cons_1 in Hl as [(Hf & Hpool & Hb) Hl]. rewrite zlen_cons in Hs. zlen_facts.
  cbn [fmap list_fmap concat] in Hw. rewrite <- app_assoc in Hw.
  destruct (io_ok lr' r c seq ms part (concat (ar_bytes <$> l) ++ rest) size (ar_free x) (ar_pool x)
    dispatch (ar_bytes x) Hrcv Hw Hms Hml Hpool Hd Hrr Hp Hf ltac:(lia) Hb)
    as (r1 & inb & pks & pool & dn & ms' & c1 & seq1 & part1 & E & -> & F1 & F2 & F3 & F4 & F5 & F6).
  cbn [receive]. rewrite E. apply Forall_app in Hms as [_ Hms].
  destruct (IH r1 c1 seq1 ms' part1 rest (size + 2048) F2 F3 Hms Hml Hd)
    as (r2 & pks2 & dn2 & ms2 & E2 & -> & G1 & G2); try done.
  - by rewrite F6.
  - eapply list.Forall_impl; [exact Hl|]. intros y. apply arrival_ok_mono. lia.
  - lia.
  - intros -> ->. cbn in F5. specialize (F5 eq_refl). subst ms'. inversion F3 as [? ? E0|].
    by destruct part1.
  - rewrite E2. exists r2, (pks ++ pks2), (dn ++ dn2), ms2. rewrite fmap_app.
    split; [done|]. split; [by rewrite app_assoc|]. split; [by apply Forall2_app|done].
Qed.
End Wires.
End Stream.

(** ** Properties *)

(** C3: A packet stream is a FIFO of messages.  The sender's and the receiver's
    streams have the same keys and sequence number, the sender's output buffer
    is empty and no stream write fails.  Whatever the sizes of the writes the
    stream accepts (it may accept none for a while), however the bytes that
    went out are cut into reads, and wherever the buffers and free packets
    came from, the receiver runs to its end, reports nothing but packets, and
    these are the packets sent, in order, without loss or repetition, with the
    type, flags, IDs and data sent ([packet_is]); when every byte sent has
    arrived, every message has. *)
Theorem packet_stream_roundtrip {C H : Type} `{PacketCipherLaws C} `{HashLaws H}
    (s r : SilcPacketStream C H) (c : SilcCipher C) (k : list Z) (mac_len seq : Z) (lr lr' : bool)
    (a : Address) (mem : list Z) (size : Z) (dispatch : SilcPacket -> bool)
    (l : list action) (arrivals : list arrival) (rest : list Z) :
  snd_ok s c k mac_len seq a -> rcv_ok r c k mac_len seq -> 0 <= mac_len <= 64 ->
  lr' && is_router r = lr && is_router s ->
  outbuf s = of_areas [] [] mem -> inbuf r = None ->
  address_ok a -> Forall (receivable lr (is_router s) a) (sends l) ->
  Forall (fun x => Forall not_failed (results_of x)) l ->
  zlen mem + 65727 * zlen (sends l) < SILC_MAX_ALLOC ->
  (forall p, dispatch p = true) ->
  Forall (arrival_ok size) arrivals -> size + 2048 * zlen arrivals < SILC_MAX_ALLOC ->
  let '(s', sent, evs) := acts lr s l in
  evs = [] /\
  (sent ++ data_area (outbuf s') = concat (ar_bytes <$> arrivals) ++ rest ->
   exists r' pks dn ms,
     receive lr' r dispatch arrivals = Some (r', EvPacket <$> pks) /\
     sends l = dn ++ ms /\ Forall2 (packet_is a) dn pks /\ (rest = [] -> ms = [])).
Proof.
  intros Hsnd Hrcv Hml Hrr Eo Ei Ha Hms Hres Hmem Hd Harr Hsz.
  pose proof Hrcv as (d & h & _ & _ & Hsync & (_ & _ & Hk) & El & _).
  destruct (wires_exist k mac_len lr (is_router s) a (sends l) c d seq) as [ws Hws];
    [lia|done|done|].
  assert (Hmok : Forall msg_ok (sends l)).
  { eapply list.Forall_impl; [exact Hms|]. by intros m (_ & Hm & _). }
  pose proof (wires_len k mac_len lr (is_router s) a (sends l) c seq ws Ha Hmok ltac:(lia) Hws).
  destruct (acts_ok k mac_len lr (is_router s) a l s c seq [] [] mem ws)
    as (s' & oh & od & ot & sent & E & Eo' & Ed & Hs'); try done.
  { rewrite !(zlen_nil (A := Z)). lia. }
  rewrite E. split; [done|]. rewrite Eo', of_areas_data by (unfold SILC_MAX_ALLOC in *; lia).
  cbn [app] in Ed. rewrite <- Ed. intros ->.
  destruct (receive_ok k mac_len lr (is_router s) a lr' dispatch arrivals r c seq (sends l) [] rest size)
    as (r' & pks & dn & ms & R1 & R2 & R3 & R4); try done; [by left|].
  by exists r', pks, dn, ms.
Qed.

(** A packet can be left behind for ever.  When the stream takes no byte of a
    packet at the first attempt ([WriteLater]), the packet stays in the output
    buffer, and the handler that is called when the stream can be written
    again sends nothing however often it is called and whatever the stream
    would accept: the handler tests the head area of the buffer, which is
    empty, and not the data. *)
Theorem write_stall {C H : Type} `{PacketCipherLaws C} `{HashLaws H}
    (s : SilcPacketStream C H) (c d : SilcCipher C) (k : list Z) (mac_len seq : Z) (lr : bool)
    (a : Address) (m : Msg) (mem : list Z) :
  snd_ok s c k mac_len seq a -> in_sync c d -> 0 <= mac_len <= 64 -> address_ok a ->
  receivable lr (is_router s) a m -> outbuf s = of_areas [] [] mem ->
  zlen mem + 65727 < SILC_MAX_ALLOC ->
  exists s',
    (forall rs, acts lr s (ASend m [WriteLater] :: (AWrite <$> rs)) = (s', [], [])) /\
    data_area (outbuf s') <> [].
Proof.
  intros (h & Ek & Eh & Hk & El & Es & Ei & Had) Hsync Hml Ha Hm Eo Hs.
  pose proof Hk as (_ & _ & Hkl). set (sr := is_router s) in *.
  destruct (wires_exist k mac_len lr sr a [m] c d seq) as [ws Hw]; [lia|done|by constructor|].
  pose proof (wires_len k mac_len lr sr a [m] c seq ws Ha) as Hl.
  rewrite zlen_cons, zlen_nil in Hl. specialize (Hl ltac:(by constructor; [apply Hm|])).
  specialize (Hl ltac:(lia) Hw).
  apply wires_inv in Hw as (w & c' & ws' & E1 & E2 & _ & ->). rewrite zlen_app in Hl. zlen_facts.
  pose proof (wire_pos k mac_len lr sr a c seq m w c' Hm ltac:(lia) E1 E2) as Hpos.
  destruct Hm as (_ & Hm & _). rewrite <- El, <- Es in E1. rewrite <- El in E2.
  destruct (send_raw_ok lr s [] [] mem c h k a m w c' Eo Ei Ha Hm Hk E1 E2)
    as (h' & ot & E & _ & Hot); [rewrite !(zlen_nil (A := Z)); lia|].
  cbn [app] in *. rewrite !(zlen_nil (A := Z)) in Hot. unfold SILC_MAX_ALLOC in Hs.
  eexists. split.
  - intros rs. cbn [acts]. unfold act, silc_packet_send.
    destruct Had as (A1 & A2 & A3 & A4 & A5 & A6). rewrite A1, A2, A3, A4, A5, A6, Ek, Eh, E.
    unfold silc_packet_stream_write. cbn [outbuf set_snd set_outbuf write_loop].
    rewrite of_areas_len, (proj2 (Z.leb_gt _ 0)) by (rewrite ?(zlen_nil (A := Z)); lia). cbn [fst snd].
    match goal with |- context [acts lr ?x _] => set (s' := x) end.
    assert (F : acts lr s' (AWrite <$> rs) = (s', [], [])).
    { induction rs as [|r rs IH]; [done|]. cbn [fmap list_fmap acts act].
      unfold io_can_write. change (silc_buffer_headlen (outbuf s')) with 0. cbn [Z.eqb].
      change (list_fmap _ _ AWrite rs) with (AWrite <$> rs). by rewrite IH. }
    rewrite F. reflexivity.
  - cbn [outbuf set_snd set_outbuf]. rewrite of_areas_data by (rewrite ?(zlen_nil (A := Z)); lia).
    by destruct w.
Qed.

(** A router and a client: two packets over AES in CBC mode, the second split
    over two reads. *)
#[local] Existing Instances Cipher.toy Cipher.toy_ok Hmac.toy_hash Hmac.toy_hash_laws.

Definition ex_dir : Direction unit (list Z) :=
  mkDir (Some (mkCipher () (zeros 16))) None (Some (mkHmac 4 [] [] [] (Some [1; 2; 3]) 3)) None 7.
Definition ex_stream (router : bool) : SilcPacketStream unit (list Z) :=
  mkStream (of_areas [] [] []) None ex_dir ex_dir (Some [1; 2; 3; 4]) None 4 1 0 0 0 router false.
Definition ex_address : Address := mkAddress (Some [1; 2; 3; 4]) 1 None 0.
Definition ex_random : list Z := replicate 129 9.
Definition ex_actions : list action :=
  [ASend (mkMsg 5 0 (Some [10; 20; 30]) ex_random) [WroteSome 10; WriteLater];
   ASend (mkMsg 7 32 (Some (replicate 40 8)) ex_random) [WroteSome 1000]].
Definition ex_sent : list Z := (acts true (ex_stream false) ex_actions).1.2.
Definition ex_arrivals : list arrival :=
  [mkArrival None [] (ztake 50 ex_sent);
   mkArrival (Some (of_areas [] [] (zeros 10))) [of_areas [] [] (zeros 20)] (zdrop 50 ex_sent)].

Lemma ex_all_sent :
  let '(s', sent, _) := acts true (ex_stream false) ex_actions in
  sent ++ data_area (outbuf s') = concat (ar_bytes <$> ex_arrivals) ++ [].
Proof. vm_compute. reflexivity. Qed.

Lemma ex_snd_ok :
  snd_ok (ex_stream false) (mkCipher () (zeros 16)) [1; 2; 3] 4 7 ex_address.
Proof.
  exists (mkHmac 4 [] [] [] (Some [1; 2; 3]) 3). vm_compute. intuition discriminate.
Qed.

Lemma ex_rcv_ok : rcv_ok (ex_stream false) (mkCipher () (zeros 16)) [1; 2; 3] 4 7.
Proof.
  exists (mkCipher () (zeros 16)), (mkHmac 4 [] [] [] (Some [1; 2; 3]) 3).
  assert (B : block16 (zeros 16)) by (unfold block16, bytes_ok; by_compute).
  split; [reflexivity|]. split; [reflexivity|]. split; [split; [exact I|split; [reflexivity|exact B]]|].
  unfold keyed. by_compute.
Qed.

Lemma ex_arrivals_ok : Forall (arrival_ok 66560) ex_arrivals.
Proof.
  constructor; [|constructor; [|constructor]].
  - split; [cbn; lia|]. split; [constructor|by_compute].
  - split; [exists (zeros 10); split; [reflexivity|by_compute]|]. split; [|by_compute].
    constructor; [|constructor]. exists (zeros 20). split; [reflexivity|by_compute].
Qed.

Lemma packet_stream_roundtrip_witness :
  exists r' pks,
    receive false (ex_stream false) (fun _ => true) ex_arrivals = Some (r', EvPacket <$> pks) /\
    Forall2 (packet_is ex_address) (sends ex_actions) pks.
Proof.
  pose proof (packet_stream_roundtrip (ex_stream false) (ex_stream false)
    (mkCipher () (zeros 16)) [1; 2; 3] 4 7 true false ex_address [] 66560 (fun _ => true)
    ex_actions ex_arrivals [] ex_snd_ok ex_rcv_ok) as W.
  pose proof ex_all_sent as E.
  destruct (acts true (ex_stream false) ex_actions) as [[s' sent] evs].
  destruct W as [_ W]; [lia|reflexivity|reflexivity|reflexivity|..].
  - unfold address_ok, id_bytes_ok, bytes_ok. by_compute.
  - unfold receivable, address_ok, msg_ok, id_bytes_ok, bytes_ok. by_compute.
  - repeat constructor.
  - by_compute.
  - reflexivity.
  - exact ex_arrivals_ok.
  - by_compute.
  - destruct (W E) as (r' & pks & dn & ms & W1 & W2 & W3 & W4).
    rewrite (W4 eq_refl), app_nil_r in W2. subst dn. exists r', pks. exact (conj W1 W3).
Defined.

Lemma write_stall_witness :
  exists s', (forall rs, acts true (ex_stream false)
                (ASend (mkMsg 5 0 (Some [10; 20; 30]) ex_random) [WriteLater] :: (AWrite <$> rs)) =
              (s', [], [])) /\
  data_area (outbuf s') <> [].
Proof.
  destruct ex_rcv_ok as (d & _ & _ & _ & Hs & _).
  apply (write_stall (ex_stream false) (mkCipher () (zeros 16)) d [1; 2; 3] 4 7 true ex_address
    (mkMsg 5 0 (Some [10; 20; 30]) ex_random) []); [exact ex_snd_ok|exact Hs|lia|..].
  - unfold address_ok, id_bytes_ok, bytes_ok. by_compute.
  - unfold receivable, address_ok, msg_ok, id_bytes_ok, bytes_ok. by_compute.
  - reflexivity.
  - by_compute.
Defined.
