(* ===== verification/PacketSafe.v ===== *)
(** * Reading packets from anyone

    Whatever bytes arrive, reading ends, and a packet is only reported when the
    bytes it came from are followed by their MAC with the next sequence
    number. *)

From S2P Require Import Prelude CTypes Memory Buffer BuffFmt Cipher Hmac Packet.
From S2P Require Import PacketCipher PacketSpec PacketRead PacketThms.

Section Safe.
Context {C H : Type} `{PacketCipher C} `{HashOps H}.

(** ** What a round that goes on has checked *)

Lemma put_keys_psn (s : SilcPacketStream C H) old c h : psn (rcv_dir (put_keys s old c h)) = psn (rcv_dir s).
Proof. unfold put_keys. destruct c; [destruct old|]; done. Qed.

Lemma put_keys_hm (s : SilcPacketStream C H) (old : bool) c h :
  hm (rcv_dir (put_keys s old c h)) =
  match c with Some _ => if old then hm (rcv_dir s) else h | None => h end.
Proof. unfold put_keys. destruct c; [destruct old|]; done. Qed.

(** A packet dispatched with the stream still there. *)
Lemma take_packet_next (s : SilcPacketStream C H) inb f type flags n mac_len normal pool dispatch
    s' inb' evs pool' :
  take_packet s inb f type flags n mac_len normal pool dispatch = RNext s' inb' evs pool' ->
  inb' = (silc_buffer_pull inb (u32 (n + mac_len))).1 /\ (exists p, evs = [EvPacket p]) /\
  hm (rcv_dir s') = match f_cipher f with
                    | Some _ => if f_old f then hm (rcv_dir s) else f_hmac f
                    | None => f_hmac f
                    end /\
  psn (rcv_dir s') = match f_cipher f with
                     | Some _ => u32 (psn (rcv_dir s) + 1)
                     | None => psn (rcv_dir s)
                     end /\
  iv_included s' = iv_included s /\
  (f_old f = false -> is_Some (f_cipher f) -> is_Some (key (rcv_dir s'))).
Proof.
  unfold take_packet. destruct (silc_packet_alloc pool) as [[buf pool1]|]; [|done].
  destruct (fill_packet _ _ _ _) as [buf1|]; [|done].
  destruct (f_cipher f) as [c|]; cbn [silc_packet_decrypt];
    [set (x := if normal then _ else _); destruct x as [[c1 buf2]|]; [|done]|];
    (destruct (silc_packet_parse _) as [p|]; [|done]); (destruct (dispatch p); [|done]);
    intros [= <- <- <- <-]; (split; [done|]); (split; [by eexists|]);
    unfold put_keys; destruct (f_old f); cbn; repeat split; try done; intros _ []; by eexists.
Qed.

Lemma read_round_next lr' (s : SilcPacketStream C H) inb pool dispatch s' inb' evs pool' :
  read_round lr' s inb pool dispatch = RNext s' inb' evs pool' ->
  let data := silc_buffer_data inb in
  let mac_len := match hm (rcv_dir s) with Some h => silc_hmac_len h | None => 0 end in
  exists f h' len n,
    read_first_block s data = Some f /\ SILC_PACKET_LENGTH (f_header f) = (len, n) /\
    u32 (n + f_ivlen f + mac_len) <= silc_buffer_len inb /\ SILC_PACKET_MIN_LEN <= len /\
    silc_packet_check_mac (f_hmac f) data (u32 (n + f_ivlen f)) (zdrop (f_ivlen f + n) data)
      (f_seq f) (psn (rcv_dir s)) = (h', true) /\
    inb' = (silc_buffer_pull inb (u32 (n + mac_len))).1 /\ (exists p, evs = [EvPacket p]) /\
    hm (rcv_dir s') = match f_cipher f with
                      | Some _ => if f_old f then hm (rcv_dir s) else h'
                      | None => h'
                      end /\
    psn (rcv_dir s') = match f_cipher f with
                       | Some _ => u32 (psn (rcv_dir s) + 1)
                       | None => psn (rcv_dir s)
                       end /\
    iv_included s' = iv_included s /\
    (f_old f = false -> is_Some (f_cipher f) -> is_Some (key (rcv_dir s'))).
Proof.
  intros E. cbn zeta. revert E. unfold read_round. destruct (_ <? _); [done|].
  destruct (read_first_block s _) as [f|]; [|done].
  destruct (SILC_PACKET_LENGTH (f_header f)) as [len n] eqn:El.
  destruct (_ && _); [done|].
  match goal with |- (if ?b then _ else _) = _ -> _ => destruct b eqn:Ec end; [done|].
  apply Z.ltb_ge in Ec. rewrite put_keys_psn.
  destruct (silc_packet_check_mac _ _ _ _ _ _) as [h' [|]] eqn:Em; cbn [negb]; [|done].
  destruct (Z.ltb_spec len SILC_PACKET_MIN_LEN); [done|]. intros E.
  apply take_packet_next in E as (E1 & E2 & E3 & E4 & E5 & E6). cbn [f_cipher f_old f_hmac] in *.
  exists f, h', len, n. rewrite !put_keys_hm, !put_keys_psn in *.
  assert (E7 : iv_included s' = iv_included s).
  { rewrite E5. unfold put_keys. by destruct (f_cipher f); [destruct (f_old f)|]. }
  repeat split; try done. rewrite E3. destruct (f_cipher f); [by destruct (f_old f)|done].
Qed.

(** ** The sizes involved *)

(** The MAC in use is no longer than the arrays the code keeps MACs in. *)
Definition hm_fits (s : SilcPacketStream C H) : Prop :=
  match hm (rcv_dir s) with Some h => 0 <= hm_len h <= 64 | None => True end.

Lemma packet_length_range data len n :
  SILC_PACKET_LENGTH data = (len, n) -> 0 <= len < 65536 /\ len <= n < len + 256.
Proof.
  intros [= <- <-]. pose proof (get16_range data). pose proof (u8_range (znth data 4)).
  rewrite u32_id; lia.
Qed.

Lemma first_block_facts (s : SilcPacketStream C H) data f :
  0 <= cipher_block_len <= 64 -> read_first_block s data = Some f ->
  0 <= f_ivlen f <= 65 /\ f_hmac f = (if f_old f then None else hm (rcv_dir s)) /\
  match f_cipher f with None => f_old f = false | Some _ => True end /\
  (iv_included s = false -> f_old f = false /\ f_seq f = None /\ f_ivlen f = 0) /\
  (is_Some (key (rcv_dir s)) -> is_Some (f_cipher f)).
Proof.
  intros Hb. unfold read_first_block. destruct (key (rcv_dir s)) as [c|].
  2: { intros [= <-]. cbn. split; [lia|]. split; [done|]. split; [done|]. split; [done|]. by intros []. }
  destruct (select_key s c data) as [[[[[[c1 old] h] iv] ivlen] psnlen]|] eqn:Es; [|done].
  assert (F : 0 <= ivlen <= 65 /\ h = (if old then None else hm (rcv_dir s)) /\
              (iv_included s = false -> old = false /\ ivlen = 0)).
  { unfold select_key, silc_cipher_get_block_len in Es. destruct (iv_included s) eqn:Ei.
    - repeat case_match; simplify_eq; by split; [lia|].
    - injection Es as <- <- <- <- <- <-. by split; [lia|]. }
  destruct F as (F1 & F2 & F3).
  set (dec := silc_cipher_decrypt _ _ _ _).
  destruct (match dec with Some _ => _ | None => _ end) as [[tmp c2] iv2].
  destruct (iv_included s) eqn:Ei; intros [= <-]; cbn; (split; [done|]); (split; [done|]);
    (split; [done|]); (split; [|by eexists]); [done|]. intros _. destruct (F3 eq_refl) as [-> ->]. done.
Qed.

Lemma check_mac_same (h : SilcHmac H) data n mac seq psn h' ok :
  silc_packet_check_mac (Some h) data n mac seq psn = (h', ok) ->
  exists h1, h' = Some h1 /\ same_key h h1.
Proof.
  unfold silc_packet_check_mac, silc_hmac_final.
  set (h0 := silc_hmac_update _ data n).
  assert (S : same_key h h0).
  { unfold h0, silc_hmac_update, silc_hmac_init, silc_hmac_init_with_key, silc_hmac_init_internal, set_hash.
    destruct (if _ <? _ then _ else _) as [[? ?] ?]. by destruct seq. }
  destruct (silc_hash_final _) as [? ?]. destruct (silc_hash_final _) as [? ?].
  intros [= <- _]. eexists. split; [reflexivity|]. exact S.
Qed.

Lemma pull_wf b n :
  wf_buffer b -> 0 <= n <= silc_buffer_len b ->
  wf_buffer (silc_buffer_pull b n).1 /\
  silc_buffer_len (silc_buffer_pull b n).1 = silc_buffer_len b - n /\
  silc_buffer_data (silc_buffer_pull b n).1 = zdrop n (silc_buffer_data b) /\
  data_area (silc_buffer_pull b n).1 = zdrop n (data_area b).
Proof.
  intros [H1' H2'] Hn. unfold silc_buffer_pull. rewrite (proj2 (Z.ltb_ge _ _)) by lia.
  unfold silc_buffer_len, silc_buffer_data, data_area, zslice, wf_buffer, set_data in *; cbn.
  rewrite u32_id in Hn by lia. rewrite !u32_id by lia.
  split; [lia|]. split; [lia|]. split; [by rewrite zdrop_zdrop by lia|].
  rewrite <- zdrop_zdrop, ztake_zdrop by lia. do 2 f_equal. lia.
Qed.

(** A round that goes on takes at least the header. *)
Lemma round_takes lr' (s : SilcPacketStream C H) inb pool dispatch s' inb' evs pool' :
  0 <= cipher_block_len <= 64 -> wf_buffer inb -> hm_fits s ->
  read_round lr' s inb pool dispatch = RNext s' inb' evs pool' ->
  wf_buffer inb' /\ hm_fits s' /\ silc_buffer_len inb' < silc_buffer_len inb.
Proof.
  intros Hb Hwf Hh E. apply read_round_next in E. cbn zeta in E.
  destruct E as (f & h' & len & n & E1 & E2 & E3 & E4 & E5 & -> & _ & E7 & _ & _ & _).
  destruct (first_block_facts s _ f Hb E1) as (F1 & F2 & F3 & _ & _).
  apply packet_length_range in E2. unfold SILC_PACKET_MIN_LEN, SILC_PACKET_HEADER_LEN in E4.
  unfold hm_fits, silc_hmac_len in *. set (ml := match hm (rcv_dir s) with Some h => hm_len h | None => 0 end) in *.
  assert (Hml : 0 <= ml <= 64) by (unfold ml; destruct (hm (rcv_dir s)); lia).
  rewrite u32_id in E3 by lia. rewrite u32_id by lia.
  destruct (pull_wf inb (n + ml) Hwf) as (P1 & P2 & _); [lia|]. split; [done|].
  split; [|rewrite P2; lia]. rewrite E7. rewrite F2 in E5.
  destruct (f_old f); destruct (f_cipher f); try done.
  all: destruct (hm (rcv_dir s)) as [h|];
    first [apply check_mac_same in E5 as (h1 & -> & (_ & _ & ->)); exact Hh|by injection E5 as <-|exact Hh].
Qed.

Lemma read_loop_total_fuel lr' dispatch fuel : forall (s : SilcPacketStream C H) inb pool,
  0 <= cipher_block_len <= 64 -> wf_buffer inb -> hm_fits s -> silc_buffer_len inb <= Z.of_nat fuel ->
  exists res, read_loop fuel lr' s inb pool dispatch = Some res.
Proof.
  induction fuel as [|fuel IH]; intros s inb pool Hb Hwf Hh Hf; cbn [read_loop].
  - rewrite (proj2 (Z.leb_le _ 0)) by lia. by eexists.
  - destruct (_ <=? 0); [by eexists|].
    destruct (read_round lr' s inb pool dispatch) as [s1|s1 evs pool1|s1 inb1 evs pool1] eqn:E;
      [by eexists..|].
    destruct (round_takes _ _ _ _ _ _ _ _ _ Hb Hwf Hh E) as (Hwf1 & Hh1 & Hlt).
    destruct (IH s1 inb1 pool1 Hb Hwf1 Hh1 ltac:(lia)) as [[[[s2 inb2] evs2] pool2] ->]. by eexists.
Qed.
End Safe.

(** ** What is reported *)

Definition packets (evs : list event) : list SilcPacket :=
  omap (fun e => match e with EvPacket p => Some p | _ => None end) evs.

Section Authentic.
Context {C H : Type} `{PacketCipher C} `{HashLaws H}.

Definition round_events (r : round (C := C) (H := H)) : list event :=
  match r with RWait _ => [] | ROut _ evs _ | RNext _ _ evs _ => evs end.

Lemma take_packet_events (s : SilcPacketStream C H) inb f type flags n mac_len normal pool dispatch :
  let ps := packets (round_events
    (take_packet s inb f type flags n mac_len normal pool dispatch)) in
  ps = [] \/ exists p, ps = [p].
Proof.
  cbn zeta. unfold take_packet. repeat case_match; cbn; (by left) || (right; by eexists).
Qed.

(** A round that reports a packet has checked the MAC at its end. *)
Lemma read_round_packet lr' (s : SilcPacketStream C H) inb pool dispatch :
  let ps := packets (round_events (read_round lr' s inb pool dispatch)) in
  ps = [] \/
  exists p f h' len n, ps = [p] /\
    read_first_block s (silc_buffer_data inb) = Some f /\
    SILC_PACKET_LENGTH (f_header f) = (len, n) /\
    u32 (n + f_ivlen f + match hm (rcv_dir s) with Some h => silc_hmac_len h | None => 0 end)
      <= silc_buffer_len inb /\
    silc_packet_check_mac (f_hmac f) (silc_buffer_data inb) (u32 (n + f_ivlen f))
      (zdrop (f_ivlen f + n) (silc_buffer_data inb)) (f_seq f) (psn (rcv_dir s)) = (h', true).
Proof.
  cbn zeta. unfold read_round. destruct (_ <? _); [by left|].
  destruct (read_first_block s _) as [f|]; [|by left].
  destruct (SILC_PACKET_LENGTH (f_header f)) as [len n] eqn:El.
  destruct (_ && _); [by left|].
  match goal with |- context [if ?b then RWait _ else _] => destruct b eqn:Ec end; [by left|].
  apply Z.ltb_ge in Ec. rewrite put_keys_psn.
  destruct (silc_packet_check_mac _ _ _ _ _ _) as [h' [|]] eqn:Em; cbn [negb]; [|by left].
  destruct (Z.ltb_spec len SILC_PACKET_MIN_LEN); [by left|].
  match goal with |- context [take_packet ?a ?b ?c ?d ?e ?f ?g ?h ?i ?j] =>
    destruct (take_packet_events a b c d e f g h i j) as [E|[p E]] end; [by left|right].
  by exists p, f, h', len, n.
Qed.

(** The bytes of the packets [ps], numbered from [seq], are in front of what is
    left of the data: each is followed by its MAC. *)
Inductive authentic (k : list Z) (mac_len : Z) : Z -> list Z -> list SilcPacket -> Prop :=
  | auth_nil seq data : authentic k mac_len seq data []
  | auth_cons seq body data p ps :
      authentic k mac_len (u32 (seq + 1)) data ps ->
      authentic k mac_len seq
        (body ++ hmac_spec mac_len k (SILC_PUT32_MSB seq ++ body) ++ data) (p :: ps).

Lemma mac_checked (h : SilcHmac H) k d t n seq h' :
  keyed h k -> 0 <= n <= 4294967232 -> n + hm_len h <= zlen d ->
  silc_packet_check_mac (Some h) (d ++ t) n (zdrop n (d ++ t)) None seq = (h', true) ->
  d = ztake n d ++ hmac_spec (hm_len h) k (SILC_PUT32_MSB seq ++ ztake n d) ++ zdrop (n + hm_len h) d.
Proof.
  intros Hk Hn Hl E. pose proof Hk as (_ & _ & Hkl).
  assert (Hz : zlen (ztake n d) = n) by (apply zlen_take; lia).
  destruct (packet_mac h k (SILC_PUT32_MSB seq) (ztake n d) (zdrop n d ++ t) Hk (zlen_put32 _))
    as (h1 & Em & (_ & _ & El)); [unfold hashable; lia|].
  rewrite app_assoc, ztake_drop, Hz in Em. unfold silc_packet_check_mac in E. rewrite Em in E.
  apply (f_equal snd) in E. cbn [snd] in E. apply bool_decide_eq_true in E. rewrite El in E.
  rewrite zdrop_app_l, ztake_app_l in E by (rewrite ?zlen_drop; lia).
  rewrite <- E. rewrite <- (zdrop_zdrop n (hm_len h)), ztake_drop, ztake_drop by lia. done.
Qed.

Lemma packets_app x y : packets (x ++ y) = packets x ++ packets y.
Proof. apply omap_app. Qed.

(** What the first packet in the buffer says about its bytes. *)
Lemma packet_in_front (s : SilcPacketStream C H) inb c h k f h' len n :
  0 <= cipher_block_len <= 64 -> wf_buffer inb -> hm_len h <= 64 ->
  key (rcv_dir s) = Some c -> hm (rcv_dir s) = Some h -> keyed h k -> iv_included s = false ->
  read_first_block s (silc_buffer_data inb) = Some f ->
  SILC_PACKET_LENGTH (f_header f) = (len, n) ->
  u32 (n + f_ivlen f + silc_hmac_len h) <= silc_buffer_len inb ->
  silc_packet_check_mac (f_hmac f) (silc_buffer_data inb) (u32 (n + f_ivlen f))
    (zdrop (f_ivlen f + n) (silc_buffer_data inb)) (f_seq f) (psn (rcv_dir s)) = (h', true) ->
  0 <= n /\ n + hm_len h <= silc_buffer_len inb /\ n < 65791 /\
  data_area inb = ztake n (data_area inb) ++
    hmac_spec (hm_len h) k (SILC_PUT32_MSB (psn (rcv_dir s)) ++ ztake n (data_area inb)) ++
    zdrop (n + hm_len h) (data_area inb).
Proof.
  intros Hb Hwf Hh Ek Eh Hk Ei E1 E2 E3 E4. pose proof Hk as (_ & _ & Hkl).
  destruct (first_block_facts s _ f Hb E1) as (F1 & F2 & _ & F4 & _).
  destruct (F4 Ei) as (Eo & Es & Ev). rewrite Eo in F2. rewrite Ev, Z.add_0_r in *.
  apply packet_length_range in E2. unfold silc_hmac_len in E3.
  rewrite u32_id in E3 by lia. rewrite Z.add_0_l, u32_id, F2, Eh, Es in E4 by lia.
  split; [lia|]. split; [lia|]. split; [lia|].
  pose proof (of_areas_eta inb Hwf) as Ea. rewrite <- Ea, Unformat.data_areas in E4.
  eapply mac_checked; [done|lia| |exact E4].
  rewrite <- Format.wf_data_area_len by done. lia.
Qed.

Lemma read_loop_authentic lr' dispatch k fuel : forall (s : SilcPacketStream C H) inb pool h s' inb' evs pool',
  0 <= cipher_block_len <= 64 -> wf_buffer inb -> hm_len h <= 64 ->
  is_Some (key (rcv_dir s)) -> hm (rcv_dir s) = Some h -> keyed h k -> iv_included s = false ->
  read_loop fuel lr' s inb pool dispatch = Some (s', inb', evs, pool') ->
  authentic k (hm_len h) (psn (rcv_dir s)) (data_area inb) (packets evs).
Proof.
  induction fuel as [|fuel IH]; intros s inb pool h s' inb' evs pool' Hb Hwf Hh [c Ek] Eh Hk Ei;
    cbn [read_loop]; (destruct (_ <=? 0); [intros [= _ _ <- _]; constructor|]); [done|].
  pose proof (read_round_packet lr' s inb pool dispatch) as P. rewrite Eh in P. cbn zeta in P.
  destruct (read_round lr' s inb pool dispatch) as [s1|s1 evs1 pool1|s1 inb1 evs1 pool1] eqn:E.
  { intros [= _ _ <- _]. constructor. }
  { intros [= _ _ <- _]. cbn [round_events] in P.
    destruct P as [->|(p & f & h' & len & n & -> & P1 & P2 & P3 & P4)]; [constructor|].
    destruct (packet_in_front s inb c h k f h' len n Hb Hwf Hh Ek Eh Hk Ei P1 P2 P3 P4)
      as (_ & _ & _ & ->). constructor. constructor. }
  destruct (read_loop fuel lr' s1 inb1 pool1 dispatch) as [[[[s2 inb2] evs2] pool2]|] eqn:El; [|done].
  intros [= _ _ <- _]. apply read_round_next in E. cbn zeta in E. rewrite Eh in E.
  destruct E as (f & h' & len & n & E1 & E2 & E3 & E4 & E5 & -> & [p ->] & E7 & E8 & E9 & E10).
  destruct (first_block_facts s _ f Hb E1) as (_ & F2 & _ & F4 & F5).
  destruct (F4 Ei) as (Eo & _ & _). rewrite Eo in F2, E7.
  specialize (F5 ltac:(by eexists)). specialize (E10 Eo F5). destruct F5 as [c' Ec]. rewrite Ec in E7, E8.
  destruct (packet_in_front s inb c h k f h' len n Hb Hwf Hh Ek Eh Hk Ei E1 E2 E3 E5)
    as (Hn & Hl & Hn' & ->). pose proof Hk as (_ & _ & Hkl).
  rewrite F2, Eh in E5. apply check_mac_same in E5 as (h1 & -> & Hs1). pose proof Hs1 as (_ & _ & El1).
  unfold silc_hmac_len in El. rewrite u32_id in El by lia.
  destruct (pull_wf inb (n + hm_len h) Hwf) as (W1 & _ & _ & W4); [lia|].
  specialize (IH s1 _ pool1 h1 s2 inb2 evs2 pool2 Hb W1).
  rewrite El1, E8, W4 in IH. cbn [app packets omap list_omap]. constructor.
  apply IH; try done; [by eapply keyed_same|by rewrite E9].
Qed.
End Authentic.

(** ** Properties *)

(** C31: Processing the input buffer ends.  For every content of the buffer, with
    or without keys, in every cipher mode and with the security IDs included
    or not, [silc_packet_read_process] returns: each round of its loop takes
    at least one byte or leaves the loop, so the length of the data is enough
    fuel. *)
Theorem read_loop_total {C H : Type} `{PacketCipher C} `{HashOps H} (lr' : bool)
    (s : SilcPacketStream C H) (inb : SilcBuffer) (pool : list SilcBuffer)
    (dispatch : SilcPacket -> bool) :
  0 <= cipher_block_len <= 64 -> wf_buffer inb -> hm_fits s ->
  exists res, silc_packet_read_process lr' s inb pool dispatch = Some res.
Proof.
  intros Hb Hwf Hh. unfold silc_packet_read_process. apply read_loop_total_fuel; try done.
  pose proof (u32_range (b_tail inb - b_data inb)). unfold silc_buffer_len. lia.
Qed.


#[local] Existing Instances Cipher.toy Cipher.toy_ok Hmac.toy_hash Hmac.toy_hash_laws.

(** The second example packet with a byte changed: only the first is reported. *)
Definition ex_tampered : list Z := ztake 60 ex_sent ++ [77] ++ zdrop 61 ex_sent.

Lemma read_loop_total_witness :
  exists res, silc_packet_read_process false (ex_stream false) (of_areas [] ex_tampered []) []
                (fun _ => true) = Some res.
Proof.
  apply (read_loop_total false (ex_stream false) (of_areas [] ex_tampered []) [] (fun _ => true)).
  - by_compute.
  - unfold wf_buffer. by_compute.
  - cbn. lia.
Defined.

