(* ===== verification/Lists.v ===== *)
(** * Lists ([lib/silcutil/silclist.h], [silcdlist.h])

    [SilcList] keeps its entries together through pointers stored in the
    entries themselves.  The store is modelled: an entry is an address, and the
    heap maps it to its two pointers.  A list represents a sequence of addresses
    when the pointers in the heap say so; every operation implements the
    operation on sequences, with the place the traversal has reached. *)

From stdpp Require Import gmap.
From S2P Require Import Prelude CTypes.

#[local] Abbreviation last := list.last.

(** ** The store *)

(** The [next] and [prev] pointers of an entry; [None] is NULL. *)
Record node := mkNode { n_next : option Z; n_prev : option Z }.

Abbreviation heap := (gmap Z node).

Definition get_node (h : heap) (a : Z) : node := default (mkNode None None) (h !! a).
Definition next_of (h : heap) (a : Z) : option Z := n_next (get_node h a).
Definition prev_of (h : heap) (a : Z) : option Z := n_prev (get_node h a).
Definition set_next (h : heap) (a : Z) (p : option Z) : heap := <[a := mkNode p (prev_of h a)]> h.
Definition set_prev (h : heap) (a : Z) (p : option Z) : heap := <[a := mkNode (next_of h a) p]> h.

(** ** [SilcList] *)

Record SilcList := mkList {
  l_head : option Z;
  l_tail : option Z;
  l_current : option Z;
  prev_set : bool;
  end_set : bool;
  l_count : Z
}.

(** The 30 bits of the counter. *)
Definition u30 (n : Z) : Z := n mod 1073741824.

Definition silc_list_init : SilcList := mkList None None None false false 0.
Definition silc_list_init_prev : SilcList := mkList None None None true false 0.
Definition silc_list_count (l : SilcList) : Z := l_count l.

Definition silc_list_start (l : SilcList) : SilcList :=
  mkList (l_head l) (l_tail l) (l_head l) (prev_set l) false (l_count l).
Definition silc_list_end (l : SilcList) : SilcList :=
  mkList (l_head l) (l_tail l) (l_tail l) (prev_set l) true (l_count l).

Definition silc_list_add (h : heap) (l : SilcList) (entry : Z) : heap * SilcList :=
  let '(h, head) :=
    match l_head l, l_tail l with
    | None, _ => (h, Some entry)
    | Some hd, Some t => (set_next h t (Some entry), Some hd)
    | Some hd, None => (h, Some hd)   (* not reached: a list with a head has a tail *)
    end in
  let h := if prev_set l then set_prev h entry (l_tail l) else h in
  let h := set_next h entry None in
  (h, mkList head (Some entry) (l_current l) (prev_set l) (end_set l) (u30 (l_count l + 1))).

(** After [current], or at the head. *)
Definition silc_list_insert (h : heap) (l : SilcList) (current : option Z) (entry : Z)
    : heap * SilcList :=
  match current with
  | None =>
      let h := set_next h entry (l_head l) in
      let h := match l_head l with
               | Some hd => if prev_set l then set_prev h hd (Some entry) else h
               | None => h
               end in
      let tail := match l_tail l with None => Some entry | Some t => Some t end in
      let h := if prev_set l then set_prev h entry None else h in
      (h, mkList (Some entry) tail (l_current l) (prev_set l) (end_set l) (u30 (l_count l + 1)))
  | Some c =>
      let h := set_next h entry (next_of h c) in
      let h := set_next h c (Some entry) in
      let h :=
        if prev_set l then
          let h := set_prev h entry (Some c) in
          match next_of h entry with
          | Some n => set_prev h n (Some entry)
          | None => h
          end
        else h in
      let tail := if bool_decide (l_tail l = Some c) then Some entry else l_tail l in
      (h, mkList (l_head l) tail (l_current l) (prev_set l) (end_set l) (u30 (l_count l + 1)))
  end.

(** The entry is found: [loc] is the place [p] points to, [None] for the head of
    the list and an entry for its [next]. *)
Definition list_del_found (h : heap) (l : SilcList) (entry : Z) (loc : option Z) : heap * SilcList :=
  let nx := next_of h entry in
  let '(h, head) :=
    match loc with None => (h, nx) | Some a => (set_next h a nx, l_head l) end in
  let h :=
    match nx with
    | Some n => if prev_set l then set_prev h n (prev_of h entry) else h
    | None => h
    end in
  let current := if bool_decide (l_current l = Some entry) then nx else l_current l in
  (h, mkList head (l_tail l) current (prev_set l) (end_set l) (u30 (l_count l - 1))).

(** The loop of [silc_list_del], with the variable [prev].  Returns the heap, the
    list and [prev]; [None] is fuel that ran out. *)
Fixpoint del_loop (fuel : nat) (h : heap) (l : SilcList) (entry : Z) (loc prev : option Z)
    : option (heap * SilcList * option Z) :=
  let here := match loc with None => l_head l | Some a => next_of h a end in
  match here with
  | None => Some (h, l, prev)
  | Some x =>
      if x =? entry then Some (list_del_found h l entry loc, prev)
      else
        match fuel with
        | O => None
        | S fuel => del_loop fuel h l entry (Some x) (Some x)
        end
  end.

(** The length of the list is enough fuel. *)
Definition silc_list_del (h : heap) (l : SilcList) (entry : Z) : option (heap * SilcList) :=
  match del_loop (Z.to_nat (l_count l)) h l entry None None with
  | None => None
  | Some (h, l, prev) =>
      Some (h, if bool_decide (l_tail l = Some entry)
               then mkList (l_head l) prev (l_current l) (prev_set l) (end_set l) (l_count l)
               else l)
  end.

Definition silc_list_get (h : heap) (l : SilcList) : SilcList * option Z :=
  match l_current l with
  | None => (l, None)
  | Some pos =>
      let c := if end_set l then prev_of h pos else next_of h pos in
      (mkList (l_head l) (l_tail l) c (prev_set l) (end_set l) (l_count l), Some pos)
  end.

(** ** Representation *)

(** The entry after or before [x] in [xs]. *)
Fixpoint after (x : Z) (xs : list Z) : option Z :=
  match xs with
  | [] => None
  | y :: ys => if x =? y then head ys else after x ys
  end.

Definition before (x : Z) (xs : list Z) : option Z := after x (reverse xs).

(** The list is the sequence [xs]: the [next] pointers go through it, the [prev]
    pointers, if there are any, go back, and the traversal is at an entry of
    it or at the end. *)
Record rep (h : heap) (l : SilcList) (xs : list Z) : Prop := mkRep {
  rep_nodup : NoDup xs;
  rep_head : l_head l = head xs;
  rep_next : forall x, x ∈ xs -> next_of h x = after x xs;
  rep_prev : prev_set l = true -> forall x, x ∈ xs -> prev_of h x = before x xs;
  rep_tail : l_tail l = last xs;
  rep_count : l_count l = zlen xs;
  rep_small : zlen xs < 1073741824;
  rep_current : forall c, l_current l = Some c -> c ∈ xs
}.

(** ** Reading what was written *)

Lemma next_set_next h a p b : next_of (set_next h a p) b = if b =? a then p else next_of h b.
Proof.
  unfold next_of at 1, get_node, set_next. destruct (Z.eqb_spec b a) as [->|].
  - by rewrite lookup_insert_eq.
  - by rewrite lookup_insert_ne by done.
Qed.

Lemma prev_set_next h a p b : prev_of (set_next h a p) b = prev_of h b.
Proof.
  unfold prev_of at 1, get_node, set_next. destruct (decide (b = a)) as [->|].
  - by rewrite lookup_insert_eq.
  - by rewrite lookup_insert_ne by done.
Qed.

Lemma next_set_prev h a p b : next_of (set_prev h a p) b = next_of h b.
Proof.
  unfold next_of at 1, get_node, set_prev. destruct (decide (b = a)) as [->|].
  - by rewrite lookup_insert_eq.
  - by rewrite lookup_insert_ne by done.
Qed.

Lemma prev_set_prev h a p b : prev_of (set_prev h a p) b = if b =? a then p else prev_of h b.
Proof.
  unfold prev_of at 1, get_node, set_prev. destruct (Z.eqb_spec b a) as [->|].
  - by rewrite lookup_insert_eq.
  - by rewrite lookup_insert_ne by done.
Qed.

Create Rewrite HintDb heap.
#[export] Hint Rewrite next_set_next prev_set_next next_set_prev prev_set_prev : heap.

(** ** Neighbours *)

Lemma after_r x l1 l2 : x ∉ l1 -> after x (l1 ++ l2) = after x l2.
Proof.
  induction l1 as [|y l1 IH]; intros Hx; cbn [app after]; [done|].
  apply not_elem_of_cons in Hx as [Hy Hx]. rewrite (proj2 (Z.eqb_neq _ _)) by done. by apply IH.
Qed.

Lemma after_l x l1 l2 :
  NoDup l1 -> x ∈ l1 ->
  after x (l1 ++ l2) = if bool_decide (last l1 = Some x) then head l2 else after x l1.
Proof.
  induction l1 as [|y l1 IH]; intros Hd Hx; [by apply not_elem_of_nil in Hx|].
  apply list.NoDup_cons in Hd as [Hy Hd]. cbn [app after]. destruct (Z.eqb_spec x y) as [->|Hne].
  - destruct l1 as [|z l1]; cbn [app head]; [by rewrite bool_decide_true|].
    rewrite bool_decide_false; [done|]. cbn. intros E.
    apply Hy. by apply last_Some_elem_of.
  - apply elem_of_cons in Hx as [?|Hx]; [done|]. rewrite IH by done.
    destruct l1 as [|z l1]; [by apply not_elem_of_nil in Hx|done].
Qed.

(** Where an entry [y] sits between [l1] and [l2]. *)
Section Spot.
Context (l1 l2 : list Z) (y : Z).
Hypothesis nodup : NoDup (l1 ++ y :: l2).

Lemma spot_parts : NoDup l1 /\ NoDup l2 /\ (y ∉ l1) /\ (y ∉ l2) /\ (forall z, z ∈ l1 -> z ∉ l2).
Proof.
  apply list.NoDup_app in nodup as (N1 & N2 & N3). apply list.NoDup_cons in N3 as [N3 N4].
  split; [done|]. split; [done|]. split; [intros Hy; apply (N2 y Hy); by left|]. split; [done|].
  intros z Hz Hz2. apply (N2 z Hz). by right.
Qed.

Lemma spot_after : after y (l1 ++ y :: l2) = head l2.
Proof.
  destruct spot_parts as (_ & _ & N & _). rewrite after_r by done. cbn. by rewrite Z.eqb_refl.
Qed.

Lemma spot_after_ne z :
  z ∈ l1 ++ l2 ->
  after z (l1 ++ y :: l2) = (if bool_decide (last l1 = Some z) then Some y else after z (l1 ++ l2)) /\
  (last l1 = Some z -> after z (l1 ++ l2) = head l2).
Proof.
  destruct spot_parts as (N1 & N2 & N3 & N4 & N5). intros [Hz|Hz]%elem_of_app.
  - rewrite !after_l by done. destruct (bool_decide_reflect (last l1 = Some z)); by split.
  - assert (Hn : z ∉ l1) by (intros ?; by apply (N5 z)). rewrite !after_r by done.
    assert (Hl : last l1 <> Some z) by (intros E; apply Hn; by apply last_Some_elem_of).
    rewrite bool_decide_false by done. split; [|done]. cbn.
    rewrite (proj2 (Z.eqb_neq _ _)); [done|]. by intros ->.
Qed.
End Spot.

Lemma nodup_spot_rev l1 l2 (y : Z) : NoDup (l1 ++ y :: l2) -> NoDup (reverse l2 ++ y :: reverse l1).
Proof.
  intros Hd. replace (reverse l2 ++ y :: reverse l1) with (reverse (l1 ++ y :: l2)).
  - by rewrite reverse_Permutation.
  - by rewrite reverse_app, reverse_cons, <- app_assoc.
Qed.

Lemma before_spot l1 l2 y z : before z (l1 ++ y :: l2) = after z (reverse l2 ++ y :: reverse l1).
Proof. unfold before. by rewrite reverse_app, reverse_cons, <- app_assoc. Qed.

Lemma spot_before l1 l2 y : NoDup (l1 ++ y :: l2) -> before y (l1 ++ y :: l2) = last l1.
Proof. intros Hd%nodup_spot_rev. by rewrite before_spot, spot_after, head_reverse. Qed.

Lemma spot_before_ne l1 l2 y z :
  NoDup (l1 ++ y :: l2) -> z ∈ l1 ++ l2 ->
  before z (l1 ++ y :: l2) =
    (if bool_decide (head l2 = Some z) then Some y else before z (l1 ++ l2)) /\
  (head l2 = Some z -> before z (l1 ++ l2) = last l1).
Proof.
  intros Hd%nodup_spot_rev Hz. rewrite before_spot.
  destruct (spot_after_ne (reverse l2) (reverse l1) y Hd z) as [E1 E2].
  - by rewrite <- reverse_app, elem_of_reverse.
  - rewrite last_reverse in *. rewrite head_reverse in E2. rewrite <- reverse_app in *. by split.
Qed.

(** ** Linking an entry in and out *)

Lemma head_spot (l1 l2 : list Z) : head (l1 ++ l2) = match l1 with [] => head l2 | x :: _ => Some x end.
Proof. by destruct l1. Qed.

Lemma last_spot (l1 l2 : list Z) : last (l1 ++ l2) = match last l2 with Some x => Some x | None => last l1 end.
Proof. apply last_app. Qed.

Lemma last_cons_spot (l1 l2 : list Z) e :
  last (l1 ++ e :: l2) = match last l2 with Some x => Some x | None => Some e end.
Proof. by rewrite last_spot, last_cons; destruct (last l2). Qed.

Section Link.
Context (h h' : heap) (l l' : SilcList) (l1 l2 : list Z) (e : Z).
Hypothesis same_prev_set : prev_set l' = prev_set l.
Hypothesis head' : l_head l' = head (l1 ++ e :: l2).
Hypothesis tail' : l_tail l' = last (l1 ++ e :: l2).

Lemma link_in :
  rep h l (l1 ++ l2) -> e ∉ l1 ++ l2 -> zlen (l1 ++ l2) < 1073741823 ->
  next_of h' e = head l2 -> (prev_set l = true -> prev_of h' e = last l1) ->
  (forall z, z ∈ l1 ++ l2 ->
     next_of h' z = if bool_decide (last l1 = Some z) then Some e else next_of h z) ->
  (prev_set l = true -> forall z, z ∈ l1 ++ l2 ->
     prev_of h' z = if bool_decide (head l2 = Some z) then Some e else prev_of h z) ->
  l_current l' = l_current l -> l_count l' = u30 (l_count l + 1) ->
  rep h' l' (l1 ++ e :: l2).
Proof.
  intros [Hd _ Hn Hp _ Hc _ Hcur] He Hsm Ne Pe Nz Pz Cur Cnt.
  assert (Hd' : NoDup (l1 ++ e :: l2)).
  { rewrite <- Permutation_middle. by apply list.NoDup_cons. }
  assert (Hlen : zlen (l1 ++ e :: l2) = zlen (l1 ++ l2) + 1) by (rewrite !zlen_app, zlen_cons; lia).
  assert (Hin : forall z, z ∈ l1 ++ e :: l2 -> z = e \/ z ∈ l1 ++ l2).
  { intros z. rewrite <- Permutation_middle. by rewrite elem_of_cons. }
  split; [done|done| | |done| |lia|].
  - intros z [->|Hz]%Hin; [by rewrite Ne, spot_after|].
    destruct (spot_after_ne l1 l2 e Hd' z Hz) as [E _]. rewrite E, Nz by done.
    by rewrite Hn by done.
  - rewrite same_prev_set. intros Hps z [->|Hz]%Hin; [by rewrite Pe, spot_before|].
    destruct (spot_before_ne l1 l2 e z Hd' Hz) as [E _]. rewrite E, Pz by done.
    by rewrite Hp by done.
  - rewrite Cnt, Hc, Hlen. unfold u30. rewrite Z.mod_small; [lia|].
    pose proof (zlen_nonneg (l1 ++ l2)). lia.
  - rewrite Cur. intros c E. rewrite <- Permutation_middle. right. by apply Hcur.
Qed.
End Link.

Section Unlink.
Context (h h' : heap) (l l' : SilcList) (l1 l2 : list Z) (e : Z).

Lemma link_out :
  rep h l (l1 ++ e :: l2) ->
  prev_set l' = prev_set l -> l_head l' = head (l1 ++ l2) -> l_tail l' = last (l1 ++ l2) ->
  (forall z, z ∈ l1 ++ l2 ->
     next_of h' z = if bool_decide (last l1 = Some z) then head l2 else next_of h z) ->
  (prev_set l = true -> forall z, z ∈ l1 ++ l2 ->
     prev_of h' z = if bool_decide (head l2 = Some z) then last l1 else prev_of h z) ->
  l_current l' = (if bool_decide (l_current l = Some e) then head l2 else l_current l) ->
  l_count l' = u30 (l_count l - 1) ->
  rep h' l' (l1 ++ l2).
Proof.
  intros [Hd _ Hn Hp _ Hc Hsm Hcur] Ps Hh Ht Nz Pz Cur Cnt.
  assert (Hlen : zlen (l1 ++ e :: l2) = zlen (l1 ++ l2) + 1) by (rewrite !zlen_app, zlen_cons; lia).
  assert (Hd' : NoDup (l1 ++ l2)).
  { rewrite <- Permutation_middle in Hd. by apply list.NoDup_cons in Hd as [_ ?]. }
  assert (Hin : forall z, z ∈ l1 ++ l2 -> z ∈ l1 ++ e :: l2).
  { intros z Hz. rewrite <- Permutation_middle. by right. }
  pose proof (zlen_nonneg (l1 ++ l2)).
  split; [done|done| | |done| |lia|].
  - intros z Hz. destruct (spot_after_ne l1 l2 e Hd z Hz) as [E1 E2].
    rewrite Nz, Hn, E1 by auto. destruct (bool_decide_reflect (last l1 = Some z)); [|done].
    by rewrite E2.
  - rewrite Ps. intros Hps z Hz. destruct (spot_before_ne l1 l2 e z Hd Hz) as [E1 E2].
    rewrite Pz, Hp, E1 by auto. destruct (bool_decide_reflect (head l2 = Some z)); [|done].
    by rewrite E2.
  - rewrite Cnt, Hc, Hlen. unfold u30. rewrite Z.mod_small; lia.
  - rewrite Cur. intros c. case_bool_decide as E; intros Ec.
    + apply elem_of_app. right. destruct l2; [done|]. injection Ec as ->. left.
    + assert (Hi := Hcur c Ec). rewrite <- Permutation_middle in Hi.
      apply elem_of_cons in Hi as [->|?]; done.
Qed.
End Unlink.

(** ** The operations *)

Lemma list_init_ok h : rep h silc_list_init [].
Proof. split; cbn; try done; try apply NoDup_nil_2; intros x Hx; by apply not_elem_of_nil in Hx. Qed.

Lemma list_init_prev_ok h : rep h silc_list_init_prev [].
Proof.
  split; cbn; try done; try apply NoDup_nil_2; [|intros _]; intros x Hx; by apply not_elem_of_nil in Hx.
Qed.

(** What no operation but the traversal changes. *)
Definition kept (l l' : SilcList) : Prop :=
  prev_set l' = prev_set l /\ end_set l' = end_set l.

Lemma in_ne (z e : Z) (xs : list Z) : z ∈ xs -> e ∉ xs -> (z =? e) = false.
Proof. intros Hz He. apply Z.eqb_neq. by intros ->. Qed.

(** The comparison of addresses, as the lemmas on neighbours state it. *)
Lemma eqb_decide {A} (z t : Z) (a b : A) :
  (if z =? t then a else b) = if bool_decide (Some t = Some z) then a else b.
Proof.
  destruct (Z.eqb_spec z t) as [->|]; [by rewrite bool_decide_true|].
  rewrite bool_decide_false; congruence.
Qed.

Lemma if_decide_ext {A} (P Q : Prop) `{Decision P} `{Decision Q} (a b : A) :
  (P <-> Q) -> (if bool_decide P then a else b) = if bool_decide Q then a else b.
Proof. intros E. by rewrite (bool_decide_ext _ _ E). Qed.

Lemma head_last_none (xs : list Z) : head xs = None -> last xs = None.
Proof. by destruct xs. Qed.

Lemma list_add_ok h l xs e :
  rep h l xs -> e ∉ xs -> zlen xs < 1073741823 ->
  let '(h', l') := silc_list_add h l e in
  rep h' l' (xs ++ [e]) /\ l_current l' = l_current l /\ kept l l'.
Proof.
  intros R He Hsm. unfold silc_list_add. rewrite (rep_head _ _ _ R), (rep_tail _ _ _ R).
  assert (exists h1 hd,
            match head xs, last xs with
            | None, _ => (h, Some e)
            | Some hd, Some t => (set_next h t (Some e), Some hd)
            | Some hd, None => (h, Some hd)
            end = (h1, hd) /\ hd = head (xs ++ [e]) /\
            (forall z, next_of h1 z = if bool_decide (last xs = Some z) then Some e else next_of h z) /\
            (forall z, prev_of h1 z = prev_of h z)) as (h1 & hd & -> & Ehd & N1 & P1).
  { destruct xs as [|x xs]; cbn [head]; [by exists h, (Some e)|].
    destruct (last (x :: xs)) as [t|] eqn:El; [|by rewrite last_None in El].
    exists (set_next h t (Some e)), (Some x). repeat split.
    - intros z. autorewrite with heap. apply eqb_decide.
    - intros z. by autorewrite with heap. }
  split; [|by repeat split].
  apply (link_in h _ l _ xs [] e); cbn [prev_set l_head l_tail l_current l_count];
    rewrite ?app_nil_r; try done.
  - by rewrite last_snoc.
  - autorewrite with heap. by rewrite Z.eqb_refl.
  - intros ->. autorewrite with heap. by rewrite Z.eqb_refl.
  - intros z Hz. autorewrite with heap. rewrite (in_ne z e xs) by done.
    destruct (prev_set l); autorewrite with heap; apply N1.
  - intros -> z Hz. autorewrite with heap. by rewrite (in_ne z e xs), P1 by done.
Qed.

(** The sequence with [e] after [c], or in front. *)
Fixpoint insert_after (c e : Z) (xs : list Z) : list Z :=
  match xs with
  | [] => []
  | x :: xs => if x =? c then x :: e :: xs else x :: insert_after c e xs
  end.

Definition insert_at (c : option Z) (e : Z) (xs : list Z) : list Z :=
  match c with None => e :: xs | Some c => insert_after c e xs end.

Lemma insert_at_spot c e xs :
  (forall x, c = Some x -> x ∈ xs) -> NoDup xs ->
  exists l1 l2, xs = l1 ++ l2 /\ insert_at c e xs = l1 ++ e :: l2 /\ last l1 = c.
Proof.
  intros Hc Hd. destruct c as [c|]; [|by exists [], xs]. specialize (Hc c eq_refl).
  induction xs as [|x xs IH]; [by apply not_elem_of_nil in Hc|]. apply list.NoDup_cons in Hd as [Hx Hd].
  cbn. destruct (Z.eqb_spec x c) as [->|Hne]; [by exists [c], xs|].
  apply elem_of_cons in Hc as [->|Hc]; [done|].
  destruct (IH Hc Hd) as (l1 & l2 & -> & E & L). cbn in E. exists (x :: l1), l2.
  rewrite E. split; [done|]. split; [done|]. by destruct l1.
Qed.

Lemma list_insert_ok h l xs c e :
  rep h l xs -> e ∉ xs -> zlen xs < 1073741823 -> (forall x, c = Some x -> x ∈ xs) ->
  let '(h', l') := silc_list_insert h l c e in
  rep h' l' (insert_at c e xs) /\ l_current l' = l_current l /\ kept l l'.
Proof.
  intros R He Hsm Hc. destruct (insert_at_spot c e xs Hc (rep_nodup _ _ _ R)) as (l1 & l2 & -> & -> & L).
  pose proof (rep_head _ _ _ R) as Eh. pose proof (rep_tail _ _ _ R) as Et.
  assert (Hin : forall z, z ∈ l1 ++ l2 -> (z =? e) = false) by (intros z Hz; by apply (in_ne z e (l1 ++ l2))).
  assert (H2 : forall n, head l2 = Some n -> n ∈ l1 ++ l2).
  { intros n E. apply elem_of_app. right. destruct l2; [done|]. injection E as ->. left. }
  unfold silc_list_insert. destruct c as [c|].
  - assert (Hcl : c ∈ l1) by by apply last_Some_elem_of.
    assert (Ce : (e =? c) = false) by (rewrite Z.eqb_sym; apply Hin; set_solver).
    assert (Ne : next_of h c = head l2).
    { rewrite (rep_next _ _ _ R) by (apply elem_of_app; by left).
      pose proof (rep_nodup _ _ _ R) as [Hd _]%list.NoDup_app.
      rewrite after_l by done. by rewrite bool_decide_true. }
    split; [|by repeat split]. rewrite Ne. autorewrite with heap. rewrite Ce, Z.eqb_refl.
    apply (link_in h _ l _ l1 l2 e); cbn [prev_set l_head l_tail l_current l_count]; try done.
    + rewrite Eh. by destruct l1.
    + rewrite Et, last_cons_spot, !last_spot, L. destruct (last l2) as [t|] eqn:El; cbn.
      * rewrite bool_decide_false; [done|]. intros [= ->].
        pose proof (rep_nodup _ _ _ R) as (_ & N & _)%list.NoDup_app. apply (N c Hcl).
        by apply last_Some_elem_of.
      * by rewrite bool_decide_true.
    + destruct (prev_set l), (head l2); autorewrite with heap; by rewrite Ce, Z.eqb_refl.
    + intros ->. rewrite L. destruct (head l2) as [n|] eqn:En; autorewrite with heap; rewrite ?Z.eqb_refl; [|done].
      rewrite Z.eqb_sym. by rewrite Hin by auto.
    + intros z Hz. transitivity (if z =? c then Some e else next_of h z).
      * destruct (prev_set l), (head l2); autorewrite with heap; by rewrite Hin.
      * rewrite L. apply eqb_decide.
    + intros -> z Hz. destruct (head l2) as [n|] eqn:En; autorewrite with heap; rewrite Hin by done; [|done].
      apply eqb_decide.
  - destruct l1 as [|x l1]; [|by rewrite last_cons in L; destruct (last l1)].
    cbn [app] in *. rewrite Eh, Et. split; [|by repeat split].
    apply (link_in h _ l _ [] l2 e); cbn [prev_set l_head l_tail l_current l_count app]; try done.
    + by rewrite last_cons.
    + destruct (head l2), (prev_set l); autorewrite with heap; by rewrite Z.eqb_refl.
    + intros ->. destruct (head l2); autorewrite with heap; by rewrite Z.eqb_refl.
    + intros z Hz. destruct (head l2), (prev_set l); autorewrite with heap; by rewrite Hin.
    + intros -> z Hz. destruct (head l2) as [n|]; autorewrite with heap; rewrite Hin by done; [|done].
      apply eqb_decide.
Qed.

(** Deletion. *)
Lemma list_del_found_ok h l l1 l2 e :
  rep h l (l1 ++ e :: l2) ->
  let '(h', l') := list_del_found h l e (last l1) in
  rep h' (mkList (l_head l') (last (l1 ++ l2)) (l_current l') (prev_set l') (end_set l') (l_count l'))
      (l1 ++ l2) /\
  l_tail l' = l_tail l /\ kept l l' /\
  l_current l' = if bool_decide (l_current l = Some e) then head l2 else l_current l.
Proof.
  intros R. pose proof (rep_nodup _ _ _ R) as Hd.
  assert (He : e ∈ l1 ++ e :: l2) by set_solver.
  assert (Ne : next_of h e = head l2) by by rewrite (rep_next _ _ _ R), spot_after by done.
  destruct (spot_parts l1 l2 e Hd) as (_ & _ & He1 & He2 & _).
  unfold list_del_found. rewrite Ne.
  assert (exists h1 hd,
            match last l1 with
            | None => (h, head l2)
            | Some a => (set_next h a (head l2), l_head l)
            end = (h1, hd) /\ hd = head (l1 ++ l2) /\
            (forall z, next_of h1 z = if bool_decide (last l1 = Some z) then head l2 else next_of h z) /\
            (forall z, prev_of h1 z = prev_of h z)) as (h1 & hd & -> & Ehd & N1 & P1).
  { pose proof (rep_head _ _ _ R) as Eh. destruct (last l1) as [a|] eqn:El.
    - exists (set_next h a (head l2)), (l_head l). repeat split.
      + rewrite Eh. by destruct l1.
      + intros z. autorewrite with heap. apply eqb_decide.
      + intros z. by autorewrite with heap.
    - apply last_None in El as ->. by exists h, (head l2). }
  split; [|by repeat split].
  apply (link_out h _ l _ l1 l2 e); cbn [prev_set l_head l_tail l_current l_count]; try done.
  - intros z Hz. rewrite <- N1. by destruct (head l2), (prev_set l); autorewrite with heap.
  - intros Hp z Hz. rewrite Hp. destruct (head l2) as [n|]; [|by rewrite P1].
    autorewrite with heap. rewrite !P1, <- eqb_decide.
    by rewrite (rep_prev _ _ _ R Hp e He), spot_before by done.
Qed.

Lemma loop_here h l l1 k :
  rep h l (l1 ++ k) -> match last l1 with None => l_head l | Some a => next_of h a end = head k.
Proof.
  intros R. destruct l1 as [|x l1] using rev_ind; [by apply (rep_head _ _ _ R)|].
  rewrite last_snoc, (rep_next _ _ _ R) by set_solver.
  pose proof (rep_nodup _ _ _ R) as Hd. rewrite <- app_assoc in *. cbn [app] in *. by rewrite spot_after.
Qed.

Lemma del_loop_found h l e l2 : forall k l1 fuel,
  rep h l (l1 ++ k ++ e :: l2) -> (length k <= fuel)%nat ->
  del_loop fuel h l e (last l1) (last l1) = Some (list_del_found h l e (last (l1 ++ k)), last (l1 ++ k)).
Proof.
  induction k as [|x k IH]; intros l1 fuel R Hf; pose proof (loop_here _ _ _ _ R) as Eh;
    destruct fuel as [|fuel]; cbn [del_loop app head] in *; rewrite Eh; rewrite ?Z.eqb_refl, ?app_nil_r;
    try done; [cbn in Hf; lia|].
  assert (x <> e).
  { pose proof (rep_nodup _ _ _ R) as (_ & _ & N)%list.NoDup_app.
    apply list.NoDup_cons in N as [N _]. intros ->. apply N. set_solver. }
  rewrite (proj2 (Z.eqb_neq _ _)) by done.
  specialize (IH (l1 ++ [x]) fuel). rewrite last_snoc, <- !app_assoc in IH.
  apply IH; [done|]. cbn in Hf. lia.
Qed.

Lemma del_loop_absent h l e : forall k l1 fuel,
  rep h l (l1 ++ k) -> e ∉ k -> (length k <= fuel)%nat ->
  del_loop fuel h l e (last l1) (last l1) = Some (h, l, last (l1 ++ k)).
Proof.
  induction k as [|x k IH]; intros l1 fuel R He Hf; pose proof (loop_here _ _ _ _ R) as Eh;
    destruct fuel as [|fuel]; cbn [del_loop app head] in *; rewrite Eh; rewrite ?app_nil_r;
    try done; [cbn in Hf; lia|].
  apply not_elem_of_cons in He as [He1 He2]. rewrite (proj2 (Z.eqb_neq _ _)) by done.
  specialize (IH (l1 ++ [x]) fuel). rewrite last_snoc, <- !app_assoc in IH.
  apply IH; [done..|]. cbn in Hf. lia.
Qed.

(** The sequence without [e]. *)
Definition remove (e : Z) (xs : list Z) : list Z := filter (fun x => x <> e) xs.

Lemma remove_absent e xs : e ∉ xs -> remove e xs = xs.
Proof.
  unfold remove. induction xs as [|x xs IH]; intros He; [done|].
  apply not_elem_of_cons in He as [He1 He2]. rewrite list.filter_cons_True by done. by rewrite IH.
Qed.

Lemma remove_spot e l1 l2 : NoDup (l1 ++ e :: l2) -> remove e (l1 ++ e :: l2) = l1 ++ l2.
Proof.
  intros (_ & _ & H1 & H2 & _)%spot_parts. unfold remove. rewrite list.filter_app, list.filter_cons_False by auto.
  f_equal; by apply remove_absent.
Qed.

Lemma list_del_ok h l xs e :
  rep h l xs ->
  exists h' l', silc_list_del h l e = Some (h', l') /\ rep h' l' (remove e xs) /\ kept l l' /\
    l_current l' = if bool_decide (l_current l = Some e /\ e ∈ xs) then after e xs else l_current l.
Proof.
  intros R. pose proof (rep_nodup _ _ _ R) as Hd. unfold silc_list_del.
  assert (Ef : Z.to_nat (l_count l) = length xs).
  { rewrite (rep_count _ _ _ R). unfold zlen. lia. }
  rewrite Ef. destruct (decide (e ∈ xs)) as [Hin|Hin].
  - apply list_elem_of_split in Hin as (l1 & l2 & ->).
    rewrite (del_loop_found h l e l2 l1 [] _ R) by (rewrite length_app; lia). cbn [app].
    pose proof (list_del_found_ok h l l1 l2 e R) as F. destruct (list_del_found h l e (last l1)) as [h' l'].
    destruct F as (R' & T & [K1 K2] & C). rewrite remove_spot by done.
    destruct (spot_parts l1 l2 e Hd) as (_ & _ & _ & He & _).
    assert (Et : (if bool_decide (l_tail l' = Some e)
                  then mkList (l_head l') (last l1) (l_current l') (prev_set l') (end_set l') (l_count l')
                  else l') =
                 mkList (l_head l') (last (l1 ++ l2)) (l_current l') (prev_set l') (end_set l') (l_count l')).
    { rewrite T, (rep_tail _ _ _ R), last_cons_spot, last_spot. destruct (last l2) as [t|] eqn:El.
      - rewrite bool_decide_false.
        + destruct l'; cbn in *. by rewrite T, (rep_tail _ _ _ R), last_cons_spot, El.
        + intros [= ->]. apply He. by apply last_Some_elem_of.
      - by rewrite bool_decide_true. }
    exists h'. eexists. split; [by rewrite Et|]. cbn. split; [done|]. split; [done|].
    rewrite C, spot_after by done. apply if_decide_ext. split; [|by intros [E _]].
    intros E. split; [done|]. rewrite elem_of_app. right. left.
  - rewrite (del_loop_absent h l e xs [] _ R) by (done || lia). cbn [app].
    rewrite bool_decide_false, remove_absent by (done || intros E; apply Hin; apply last_Some_elem_of;
      by rewrite <- (rep_tail _ _ _ R)).
    exists h, l. split; [done|]. split; [done|]. split; [done|].
    symmetry. case_bool_decide as E; [|done]. by destruct E.
Qed.

Lemma current_rep h l xs c :
  rep h l xs -> (forall x, c = Some x -> x ∈ xs) -> forall b,
  rep h (mkList (l_head l) (l_tail l) c (prev_set l) b (l_count l)) xs.
Proof. intros [? ? ? ? ? ? ? ?] Hc b. by split. Qed.

Lemma head_in (xs : list Z) x : head xs = Some x -> x ∈ xs.
Proof. destruct xs; [done|]. intros [= ->]. left. Qed.

Lemma list_start_ok h l xs : rep h l xs -> rep h (silc_list_start l) xs.
Proof. intros R. apply current_rep; [done|]. intros x E. rewrite (rep_head _ _ _ R) in E. by apply head_in. Qed.

Lemma list_end_ok h l xs : rep h l xs -> rep h (silc_list_end l) xs.
Proof.
  intros R. apply current_rep; [done|]. intros x E. rewrite (rep_tail _ _ _ R) in E.
  by apply last_Some_elem_of.
Qed.

Lemma after_in x xs y : after x xs = Some y -> y ∈ xs.
Proof.
  induction xs as [|z xs IH]; cbn; [done|]. destruct (x =? z); intros E; right; [by apply head_in|auto].
Qed.

(** The step of a traversal: to the next entry or to the previous one. *)
Definition toward (back : bool) (x : Z) (xs : list Z) : option Z :=
  if back then before x xs else after x xs.

Lemma toward_in back x xs y : toward back x xs = Some y -> y ∈ xs.
Proof. destruct back; cbn; [intros E%after_in; by apply elem_of_reverse|apply after_in]. Qed.

Lemma list_get_ok h l xs :
  rep h l xs -> (end_set l = true -> prev_set l = true) ->
  let '(l', r) := silc_list_get h l in
  rep h l' xs /\ kept l l' /\ r = l_current l /\
  l_current l' = (x ← l_current l; toward (end_set l) x xs).
Proof.
  intros R Hb. unfold silc_list_get. destruct (l_current l) as [c|] eqn:Ec.
  2:{ cbn. by rewrite Ec. }
  assert (Hc := rep_current _ _ _ R c Ec).
  assert (E : (if end_set l then prev_of h c else next_of h c) = toward (end_set l) c xs).
  { destruct (end_set l); cbn; [apply (rep_prev _ _ _ R)|apply (rep_next _ _ _ R)]; auto. }
  rewrite E. split; [|by repeat split]. apply current_rep; [done|]. apply toward_in.
Qed.

(** ** Several lists in one store *)

(** A list without [prev] pointers does not see what happens to entries that are
    not its own. *)
Lemma rep_frame h h' l xs :
  rep h l xs -> prev_set l = false -> (forall x, x ∈ xs -> next_of h' x = next_of h x) -> rep h' l xs.
Proof.
  intros [] Hp Hn. split; try done.
  - intros x Hx. rewrite Hn by done. auto.
  - by rewrite Hp.
Qed.

(** What the operations leave alone. *)
Lemma add_frame h l e x :
  x <> e -> l_tail l <> Some x -> next_of (fst (silc_list_add h l e)) x = next_of h x.
Proof.
  intros He Ht. unfold silc_list_add.
  destruct (l_head l) as [hd|], (l_tail l) as [t|], (prev_set l); cbn; autorewrite with heap;
    repeat (case_match; [lia || congruence|]); try done.
  all: destruct (Z.eqb_spec x t); congruence.
Qed.

Lemma insert_frame h l c e x :
  x <> e -> c <> Some x -> next_of (fst (silc_list_insert h l c e)) x = next_of h x.
Proof.
  intros He Hc. unfold silc_list_insert.
  destruct c as [c|]; repeat case_match; cbn; autorewrite with heap;
    rewrite ?(proj2 (Z.eqb_neq x e)) by done; try done.
  all: rewrite (proj2 (Z.eqb_neq x c)) by congruence; done.
Qed.

Lemma del_frame h l xs e h' l' x :
  rep h l xs -> prev_set l = false -> silc_list_del h l e = Some (h', l') -> x ∉ xs ->
  next_of h' x = next_of h x.
Proof.
  intros R Hp E Hx. unfold silc_list_del in E.
  assert (Ef : Z.to_nat (l_count l) = length xs).
  { rewrite (rep_count _ _ _ R). unfold zlen. lia. }
  rewrite Ef in E. destruct (decide (e ∈ xs)) as [Hin|Hin].
  - apply list_elem_of_split in Hin as (l1 & l2 & ->).
    rewrite (del_loop_found h l e l2 l1 [] _ R) in E by (rewrite length_app; lia). cbn [app] in E.
    destruct (list_del_found h l e (last l1)) as [h1 l1'] eqn:D. injection E as <- _.
    unfold list_del_found in D. rewrite Hp in D.
    destruct (last l1) as [a|] eqn:El; injection D as <- _; [|by case_match].
    replace (match next_of h e with Some _ => set_next h a (next_of h e) | None => set_next h a (next_of h e) end)
      with (set_next h a (next_of h e)) by by case_match.
    autorewrite with heap. destruct (Z.eqb_spec x a) as [->|]; [|done].
    destruct Hx. apply elem_of_app. left. by apply last_Some_elem_of.
  - rewrite (del_loop_absent h l e xs [] _ R) in E by (done || lia). by injection E as <- _.
Qed.

(** ** Refinement: the operations on a sequence with a place *)

Record place := mkPlace { p_seq : list Z; p_cur : option Z; p_back : bool }.

Inductive op :=
  Add (entry : Z) | Insert (current : option Z) (entry : Z) | Del (entry : Z) | Start | End_ | Get.

(** One call on the list in the heap, with the entry [silc_list_get] returns. *)
Definition step (h : heap) (l : SilcList) (o : op) : option (heap * SilcList * option Z) :=
  match o with
  | Add e => Some (silc_list_add h l e, None)
  | Insert c e => Some (silc_list_insert h l c e, None)
  | Del e => '(h, l) ← silc_list_del h l e; Some (h, l, None)
  | Start => Some (h, silc_list_start l, None)
  | End_ => Some (h, silc_list_end l, None)
  | Get => let '(l, r) := silc_list_get h l in Some (h, l, r)
  end.

Fixpoint run (h : heap) (l : SilcList) (os : list op) : option (heap * SilcList * list (option Z)) :=
  match os with
  | [] => Some (h, l, [])
  | o :: os =>
      '(h, l, r) ← step h l o; '(h, l, rs) ← run h l os; Some (h, l, r :: rs)
  end.

(** The same on the sequence. *)
Definition spec_step (s : place) (o : op) : place * option Z :=
  let '(mkPlace xs c b) := s in
  match o with
  | Add e => (mkPlace (xs ++ [e]) c b, None)
  | Insert cur e => (mkPlace (insert_at cur e xs) c b, None)
  | Del e => (mkPlace (remove e xs) (if bool_decide (c = Some e /\ e ∈ xs) then after e xs else c) b, None)
  | Start => (mkPlace xs (head xs) false, None)
  | End_ => (mkPlace xs (last xs) true, None)
  | Get => (mkPlace xs (x ← c; toward b x xs) b, c)
  end.

Fixpoint spec_run (s : place) (os : list op) : place * list (option Z) :=
  match os with
  | [] => (s, [])
  | o :: os =>
      let '(s, r) := spec_step s o in
      let '(s, rs) := spec_run s os in (s, r :: rs)
  end.

(** What the interface asks of its callers: an entry is in the list once, an
    entry is inserted after one of the list, there are fewer than 2^30 of
    them, and [silc_list_end] needs the [prev] pointers. *)
Definition legal (both : bool) (s : place) (o : op) : Prop :=
  match o with
  | Add e => (e ∉ p_seq s) /\ zlen (p_seq s) < 1073741823
  | Insert c e =>
      (e ∉ p_seq s) /\ zlen (p_seq s) < 1073741823 /\ forall x, c = Some x -> x ∈ p_seq s
  | End_ => both = true
  | _ => True
  end.

Fixpoint legal_run (both : bool) (s : place) (os : list op) : Prop :=
  match os with
  | [] => True
  | o :: os => legal both s o /\ legal_run both (fst (spec_step s o)) os
  end.

(** A list, the heap it is in and the place it stands for. *)
Definition stands (both : bool) (h : heap) (l : SilcList) (s : place) : Prop :=
  rep h l (p_seq s) /\ l_current l = p_cur s /\ end_set l = p_back s /\
  prev_set l = both /\ (p_back s = true -> both = true).

Lemma step_stands both h l s o :
  stands both h l s -> legal both s o ->
  exists h' l' r, step h l o = Some (h', l', r) /\
    stands both h' l' (fst (spec_step s o)) /\ r = snd (spec_step s o).
Proof.
  destruct s as [xs c b]. intros (R & Ec & Eb & Ep & Hb) L. cbn in R, Ec, Eb, Hb. subst c b both. unfold stands.
  destruct o as [e|cur e|e| | |]; cbn in L |- *.
  - destruct L as [L1 L2]. pose proof (list_add_ok h l xs e R L1 L2) as H.
    destruct (silc_list_add h l e) as [h' l']. destruct H as (R' & C & K1 & K2).
    exists h', l', None. by rewrite C, K1, K2.
  - destruct L as (L1 & L2 & L3). pose proof (list_insert_ok h l xs cur e R L1 L2 L3) as H.
    destruct (silc_list_insert h l cur e) as [h' l']. destruct H as (R' & C & K1 & K2).
    exists h', l', None. by rewrite C, K1, K2.
  - destruct (list_del_ok h l xs e R) as (h' & l' & E & R' & (K1 & K2) & C). rewrite E.
    exists h', l', None. by rewrite C, K1, K2.
  - exists h, (silc_list_start l), None. cbn. rewrite (rep_head _ _ _ R). pose proof (list_start_ok h l xs R).
    repeat split; try done; apply H.
  - exists h, (silc_list_end l), None. cbn. rewrite (rep_tail _ _ _ R). pose proof (list_end_ok h l xs R).
    repeat split; try done; apply H.
  - pose proof (list_get_ok h l xs R Hb) as H. destruct (silc_list_get h l) as [l' r].
    destruct H as (R' & (K1 & K2) & Er & C). exists h, l', r. by rewrite C, K1, K2.
Qed.

Lemma run_stands both : forall os h l s,
  stands both h l s -> legal_run both s os ->
  exists h' l', run h l os = Some (h', l', snd (spec_run s os)) /\
    stands both h' l' (fst (spec_run s os)).
Proof.
  induction os as [|o os IH]; intros h l s S L; cbn; [by exists h, l|]. destruct L as [L Ls].
  destruct (step_stands both h l s o S L) as (h1 & l1 & r & E & S1 & ->).
  destruct (IH h1 l1 _ S1 Ls) as (h' & l' & E' & S'). rewrite E. cbn. rewrite E'. cbn.
  destruct (spec_step s o) as [s1 r]. cbn in *. destruct (spec_run s1 os) as [s2 rs]. by exists h', l'.
Qed.

(** C28: A [SilcList] is the sequence of its entries.  Started from
    [silc_list_init] (or [silc_list_init_prev], for [both] directions), every
    sequence of additions, insertions, deletions, restarts and
    [silc_list_get]s that respects the interface runs to its end, returns the
    entries the same operations on a sequence with a place in it return, and
    leaves pointers, head, tail, counter and current entry standing for that
    sequence: no entry is lost, duplicated or reached after its deletion. *)
Theorem list_refines (both : bool) (h : heap) (os : list op) :
  legal_run both (mkPlace [] None false) os ->
  exists h' l' s,
    run h (if both then silc_list_init_prev else silc_list_init) os =
      Some (h', l', snd (spec_run (mkPlace [] None false) os)) /\
    s = fst (spec_run (mkPlace [] None false) os) /\
    rep h' l' (p_seq s) /\ l_current l' = p_cur s /\ silc_list_count l' = zlen (p_seq s).
Proof.
  intros L. destruct (run_stands both os h (if both then silc_list_init_prev else silc_list_init)
    (mkPlace [] None false)) as (h' & l' & E & (R & C & _)); [|done|].
  - pose proof (list_init_ok h). pose proof (list_init_prev_ok h). destruct both; (split; [done|by repeat split]).
  - exists h', l'. eexists. split; [done|]. split; [done|]. split; [done|]. split; [done|].
    by apply (rep_count _ _ _ R).
Qed.

Definition tour : list op :=
  [Add 1; Add 2; Insert None 3; Insert (Some 3) 4; Start; Get; Get; Del 1; Get; End_; Get; Del 2; Get].

Lemma tour_legal : legal_run true (mkPlace [] None false) tour.
Proof.
  cbn; unfold zlen; cbn.
  repeat split; try lia; try done; try by apply (bool_decide_unpack _).
  intros x [= <-]. by apply (bool_decide_unpack _).
Qed.

Lemma list_refines_witness :
  legal_run true (mkPlace [] None false) tour /\
  exists h' l' s,
    run ∅ silc_list_init_prev tour =
      Some (h', l', [None; None; None; None; None; Some 3; Some 4; None; Some 2; None; Some 2; None; Some 4]) /\
    p_seq s = [3; 4] /\ rep h' l' (p_seq s).
Proof.
  split; [exact tour_legal|].
  destruct (list_refines true ∅ _ tour_legal) as (h' & l' & s & E & Es & R & _).
  exists h', l', s. split; [exact E|]. subst s. split; [reflexivity|exact R].
Defined.

(** ** Traversals *)

(** [while ((e = silc_list_get(list)) != SILC_LIST_END) if (f(e)) silc_list_del(list, e);],
    with the entries it visits. *)
Fixpoint list_walk (fuel : nat) (f : Z -> bool) (h : heap) (l : SilcList)
    : option (heap * SilcList * list Z) :=
  let '(l, r) := silc_list_get h l in
  match r, fuel with
  | None, _ => Some (h, l, [])
  | Some _, O => None
  | Some e, S fuel =>
      '(h, l) ← (if f e then silc_list_del h l e else Some (h, l));
      '(h, l, es) ← list_walk fuel f h l;
      Some (h, l, e :: es)
  end.

(** The sequence with the entries visited ([seen]) on the side the traversal
    leaves behind it, and the rest of it ([rest], in the order of the visit). *)
Definition shape (back : bool) (seen rest : list Z) : list Z :=
  if back then reverse rest ++ reverse seen else seen ++ rest.

Lemma shape_toward back seen x rest :
  NoDup (shape back seen (x :: rest)) -> toward back x (shape back seen (x :: rest)) = head rest.
Proof.
  destruct back; cbn [shape toward]; intros Hd; [|by apply spot_after].
  rewrite reverse_cons, <- app_assoc in *. cbn [app] in *. rewrite spot_before by done. apply last_reverse.
Qed.

Lemma shape_snoc back seen x rest : shape back (seen ++ [x]) rest = shape back seen (x :: rest).
Proof. destruct back; cbn [shape]; [by rewrite reverse_cons, reverse_app, <- app_assoc|by rewrite <- app_assoc]. Qed.

Lemma shape_remove back seen x rest :
  NoDup (shape back seen (x :: rest)) -> remove x (shape back seen (x :: rest)) = shape back seen rest.
Proof.
  destruct back; cbn [shape]; [|by apply remove_spot].
  rewrite reverse_cons, <- app_assoc. apply remove_spot.
Qed.

Lemma shape_in back seen x rest : x ∈ shape back seen (x :: rest).
Proof. destruct back; cbn [shape]; set_solver. Qed.

Lemma shape_twice back seen x rest : NoDup (shape back seen (x :: rest)) -> x ∉ rest.
Proof.
  destruct back; cbn [shape]; [rewrite reverse_cons, <- app_assoc|]; intros (_ & _ & H1 & H2 & _)%spot_parts; [|done].
  by rewrite elem_of_reverse in H1.
Qed.

(** Deleting the entry just returned does not disturb the traversal. *)
Lemma list_walk_ok f both back : forall rest fuel h l seen,
  (length rest <= fuel)%nat ->
  stands both h l (mkPlace (shape back seen rest) (head rest) back) ->
  exists h' l', list_walk fuel f h l = Some (h', l', rest) /\
    stands both h' l' (mkPlace (shape back (seen ++ filter (fun x => f x = false) rest) []) None back).
Proof.
  induction rest as [|x rest IH]; intros fuel h l seen Hf S;
    destruct (step_stands both h l _ Get S I) as (h1 & l1 & r & E & S1 & Er); cbn in E, S1, Er;
    pose proof (rep_nodup _ _ _ (proj1 S)) as Hd; cbn in Hd;
    destruct fuel as [|fuel]; cbn in Hf; try lia; cbn [list_walk];
    destruct (silc_list_get h l) as [l2 r2]; injection E as <- <- ->; rewrite Er.
  1,2: exists h, l2; rewrite app_nil_r; by split.
  cbn [mbind option_bind] in S1. rewrite shape_toward in S1 by done.
  assert (exists h3 l3, (if f x then silc_list_del h l2 x else Some (h, l2)) = Some (h3, l3) /\
    stands both h3 l3
      (mkPlace (shape back (if f x then seen else seen ++ [x]) rest) (head rest) back))
    as (h3 & l3 & -> & S3).
  { destruct (f x).
    - destruct (step_stands both h l2 _ (Del x) S1 I) as (h3 & l3 & ? & E3 & S3 & _).
      cbn [step] in E3. destruct (silc_list_del h l2 x) as [[h4 l4]|]; [|done]. injection E3 as -> -> _.
      exists h3, l3. split; [done|]. cbn [spec_step fst] in S3. rewrite shape_remove in S3 by done.
      rewrite bool_decide_false in S3; [done|]. intros [Ex _].
      apply head_in in Ex. by apply shape_twice in Hd.
    - exists h, l2. rewrite shape_snoc. by split. }
  cbn [mbind option_bind].
  destruct (IH fuel h3 l3 _ (proj2 (Nat.succ_le_mono _ _) Hf) S3) as (h' & l' & -> & S').
  cbn [mbind option_bind]. exists h', l'. split; [done|]. rewrite list.filter_cons.
  destruct (f x); case_decide; try done. by rewrite <- app_assoc in S'.
Qed.

Lemma filter_rev (P : Z -> Prop) `{forall x, Decision (P x)} xs : filter P (reverse xs) = reverse (filter P xs).
Proof.
  induction xs as [|x xs IH]; [done|].
  rewrite reverse_cons, list.filter_app, IH, !list.filter_cons. cbn.
  destruct (decide (P x)); by rewrite ?reverse_cons, ?app_nil_r.
Qed.

(** A traversal visits every entry once, in order.  After
    [silc_list_start] (or [silc_list_end], which goes backwards and needs the
    [prev] pointers), calling [silc_list_get] until it returns SILC_LIST_END
    visits exactly the entries of the list, from the head to the tail (or from
    the tail to the head), also when the loop's body deletes entries it is
    given from the list; the list then holds the entries that were not
    deleted, in order.  The length of the list is enough fuel: the loop ends. *)
Theorem list_traverse (f : Z -> bool) (back : bool) (h : heap) (l : SilcList) (xs : list Z) :
  rep h l xs -> (back = true -> prev_set l = true) ->
  exists h' l',
    list_walk (length xs) f h (if back then silc_list_end l else silc_list_start l) =
      Some (h', l', if back then reverse xs else xs) /\
    rep h' l' (filter (fun x => f x = false) xs) /\ l_current l' = None.
Proof.
  intros R Hb. set (rest := if back then reverse xs else xs).
  assert (Er : shape back [] rest = xs).
  { subst rest. destruct back; cbn [shape]; [|done]. by rewrite reverse_involutive, app_nil_r. }
  destruct (list_walk_ok f (prev_set l) back rest (length xs) h
    (if back then silc_list_end l else silc_list_start l) []) as (h' & l' & E & R' & C & _).
  - subst rest. destruct back; [by rewrite length_reverse|done].
  - unfold stands. cbn [p_seq p_cur p_back]. rewrite Er. subst rest. destruct back.
    + rewrite head_reverse. split; [by apply list_end_ok|]. cbn. by rewrite (rep_tail _ _ _ R), Hb.
    + split; [by apply list_start_ok|]. cbn. by rewrite (rep_head _ _ _ R).
  - exists h', l'. split; [done|]. split; [|done]. cbn [p_seq app] in R'. subst rest.
    destruct back; cbn [shape] in R'; [|by rewrite app_nil_r in R'].
    by rewrite filter_rev, reverse_involutive in R'.
Qed.

Definition toured : heap * SilcList :=
  match run ∅ silc_list_init_prev tour with Some (h, l, _) => (h, l) | None => (∅, silc_list_init) end.

Lemma toured_rep : rep (fst toured) (snd toured) [3; 4].
Proof.
  pose proof (list_init_prev_ok ∅) as R0.
  destruct (run_stands true tour ∅ silc_list_init_prev (mkPlace [] None false)) as (h' & l' & E & (R & _)).
  - split; [done|by repeat split].
  - apply tour_legal.
  - unfold toured. rewrite E. exact R.
Qed.

Lemma list_traverse_witness :
  rep (fst toured) (snd toured) [3; 4] /\
  exists h' l',
    list_walk 2 (fun x => x =? 4) (fst toured) (silc_list_end (snd toured)) = Some (h', l', [4; 3]) /\
    rep h' l' [3] /\ l_current l' = None.
Proof.
  split; [exact toured_rep|].
  exact (list_traverse (fun x => x =? 4) true (fst toured) (snd toured) [3; 4] toured_rep (fun _ => eq_refl)).
Defined.

(** Deleting the entry a backward traversal would return next takes it back to
    the entry it has just returned: the current entry becomes the one after
    the deleted entry whatever the direction. *)
Lemma delete_ahead_backwards :
  (fun '(_, _, rs) => rs) <$>
    run ∅ silc_list_init_prev [Add 1; Add 2; Add 3; End_; Get; Del 2; Get; Get; Get] =
  Some [None; None; None; None; Some 3; None; Some 3; Some 1; None].
Proof. vm_compute. reflexivity. Qed.
