(* ===== verification/DList.v ===== *)
(** * Dynamic lists ([lib/silcutil/silcdlist.h])

    [SilcDList] allocates its entries: an entry holds a context of the caller and
    the pointers of a [SilcList].  Allocated entries are the addresses the heap
    has a context for, so that leaks and dangling pointers are visible:
    [silc_dlist_insert] goes through the pointer [prev] that [silc_dlist_get]
    left behind, which must not be that of a freed entry. *)

From stdpp Require Import gmap.
From S2P Require Import Prelude CTypes Lists.

(** ** Entries and lists *)

(** The links of the entries, and the contexts of those that are allocated. *)
Record dheap := mkDHeap { links : gmap Z node; contexts : gmap Z Z }.

Record SilcDList := mkDList {
  dl_list : SilcList;
  dl_current : option Z;
  dl_prev : option Z
}.

(** [alloc] tells whether [silc_malloc] succeeds. *)
Definition silc_dlist_init (alloc : bool) : option SilcDList :=
  if alloc then Some (mkDList silc_list_init_prev None None) else None.

Definition silc_dlist_count (d : SilcDList) : Z := silc_list_count (dl_list d).
Definition silc_dlist_start (d : SilcDList) : SilcDList :=
  mkDList (silc_list_start (dl_list d)) None None.
Definition silc_dlist_end (d : SilcDList) : SilcDList :=
  mkDList (silc_list_end (dl_list d)) None None.

(** [e] is the address [silc_malloc] returns, [None] for NULL. *)
Definition silc_dlist_add (h : dheap) (d : SilcDList) (e : option Z) (context : Z)
    : dheap * SilcDList * bool :=
  match e with
  | None => (h, d, false)
  | Some e =>
      let '(ls, l) := silc_list_add (links h) (dl_list d) e in
      (mkDHeap ls (<[e := context]> (contexts h)), mkDList l (dl_current d) (dl_prev d), true)
  end.

Definition silc_dlist_insert (h : dheap) (d : SilcDList) (e : option Z) (context : Z)
    : dheap * SilcDList * bool :=
  match e with
  | None => (h, d, false)
  | Some e =>
      let '(ls, l) := silc_list_insert (links h) (dl_list d) (dl_prev d) e in
      (mkDHeap ls (<[e := context]> (contexts h)), mkDList l (dl_current d) (dl_prev d), true)
  end.

(** Returns the context; 0 is NULL, which SILC_LIST_END is too. *)
Definition silc_dlist_get (h : dheap) (d : SilcDList) : SilcDList * Z :=
  let '(l, e) := silc_list_get (links h) (dl_list d) in
  (mkDList l e (dl_current d), match e with Some e => default 0 (contexts h !! e) | None => 0 end).

(** [silc_free(e)] *)
Definition free_entry (h : dheap) (e : Z) : dheap := mkDHeap (links h) (delete e (contexts h)).

(** The loop of [silc_dlist_del]; [None] is fuel that ran out. *)
Fixpoint dlist_del_loop (fuel : nat) (h : dheap) (d : SilcDList) (entry : Z) : option (dheap * SilcDList) :=
  let '(l, r) := silc_list_get (links h) (dl_list d) in
  let d := mkDList l (dl_current d) (dl_prev d) in
  match r, fuel with
  | None, _ => Some (h, d)
  | Some _, O => None
  | Some e, S fuel =>
      if bool_decide (contexts h !! e = Some entry) then
        '(ls, l) ← silc_list_del (links h) l e;
        let current := if bool_decide (dl_current d = Some e) then None else dl_current d in
        let prev := if bool_decide (dl_prev d = Some e) then None else dl_prev d in
        Some (free_entry (mkDHeap ls (contexts h)) e, mkDList l current prev)
      else dlist_del_loop fuel h d entry
  end.

(** The number of entries is enough fuel. *)
Definition silc_dlist_del (h : dheap) (d : SilcDList) (entry : Z) : option (dheap * SilcDList) :=
  dlist_del_loop (Z.to_nat (silc_dlist_count d)) h
    (mkDList (silc_list_start (dl_list d)) (dl_current d) (dl_prev d)) entry.

(** The loop of [silc_dlist_uninit]. *)
Fixpoint dlist_uninit_loop (fuel : nat) (h : dheap) (l : SilcList) : option dheap :=
  let '(l, r) := silc_list_get (links h) l in
  match r, fuel with
  | None, _ => Some h
  | Some _, O => None
  | Some e, S fuel =>
      '(ls, l) ← silc_list_del (links h) l e;
      dlist_uninit_loop fuel (free_entry (mkDHeap ls (contexts h)) e) l
  end.

Definition silc_dlist_uninit (h : dheap) (d : option SilcDList) : option dheap :=
  match d with
  | None => Some h
  | Some d =>
      dlist_uninit_loop (Z.to_nat (silc_dlist_count d)) h (silc_list_start (dl_list d))
  end.

(** ** The list of contexts *)

(** Entries with their contexts, the entries the traversal has returned last
    and before that, and the one it is to return. *)
Record dplace := mkDPlace {
  d_seq : list (Z * Z);
  d_next : option Z;
  d_back : bool;
  d_current : option Z;
  d_prev : option Z
}.

Inductive dop :=
  DAdd (e : option Z) (context : Z) | DInsert (e : option Z) (context : Z) | DDel (context : Z) |
  DStart | DEnd | DGet.

(** One call, with what it returns (TRUE is 1). *)
Definition dstep (h : dheap) (d : SilcDList) (o : dop) : option (dheap * SilcDList * Z) :=
  match o with
  | DAdd e c => let '(h, d, b) := silc_dlist_add h d e c in Some (h, d, Z.b2z b)
  | DInsert e c => let '(h, d, b) := silc_dlist_insert h d e c in Some (h, d, Z.b2z b)
  | DDel c => '(h, d) ← silc_dlist_del h d c; Some (h, d, 0)
  | DStart => Some (h, silc_dlist_start d, 0)
  | DEnd => Some (h, silc_dlist_end d, 0)
  | DGet => let '(d, c) := silc_dlist_get h d in Some (h, d, c)
  end.

Fixpoint drun (h : dheap) (d : SilcDList) (os : list dop) : option (dheap * SilcDList * list Z) :=
  match os with
  | [] => Some (h, d, [])
  | o :: os => '(h, d, r) ← dstep h d o; '(h, d, rs) ← drun h d os; Some (h, d, r :: rs)
  end.

(** The sequence with [p] put after the entry [c], or in front. *)
Fixpoint pair_after (c : Z) (p : Z * Z) (ps : list (Z * Z)) : list (Z * Z) :=
  match ps with
  | [] => []
  | q :: ps => if q.1 =? c then q :: p :: ps else q :: pair_after c p ps
  end.

Definition pair_at (c : option Z) (p : Z * Z) (ps : list (Z * Z)) : list (Z * Z) :=
  match c with None => p :: ps | Some c => pair_after c p ps end.

(** The first entry with the context [c]. *)
Fixpoint entry_of (c : Z) (ps : list (Z * Z)) : option Z :=
  match ps with
  | [] => None
  | p :: ps => if p.2 =? c then Some p.1 else entry_of c ps
  end.

Definition unless (e : Z) (x : option Z) : option Z := if bool_decide (x = Some e) then None else x.

Definition dspec_step (s : dplace) (o : dop) : dplace * Z :=
  let '(mkDPlace ps nx b cur prev) := s in
  match o with
  | DAdd None _ | DInsert None _ => (s, 0)
  | DAdd (Some e) c => (mkDPlace (ps ++ [(e, c)]) nx b cur prev, 1)
  | DInsert (Some e) c => (mkDPlace (pair_at prev (e, c) ps) nx b cur prev, 1)
  | DDel c =>
      match entry_of c ps with
      | None => (mkDPlace ps None false cur prev, 0)
      | Some e =>
          (mkDPlace (filter (fun p => p.1 <> e) ps) (after e ps.*1) false (unless e cur) (unless e prev), 0)
      end
  | DStart => (mkDPlace ps (head ps.*1) false None None, 0)
  | DEnd => (mkDPlace ps (list.last ps.*1) true None None, 0)
  | DGet =>
      (mkDPlace ps (x ← nx; toward b x ps.*1) b nx cur,
       match nx with
       | Some e => default 0 ((list_to_map ps : gmap Z Z) !! e)
       | None => 0
       end)
  end.

Fixpoint dspec_run (s : dplace) (os : list dop) : dplace * list Z :=
  match os with
  | [] => (s, [])
  | o :: os =>
      let '(s, r) := dspec_step s o in
      let '(s, rs) := dspec_run s os in (s, r :: rs)
  end.

(** [silc_malloc] returns memory that is not in use, and the list does not
    outgrow its counter. *)
Definition dlegal (s : dplace) (o : dop) : Prop :=
  match o with
  | DAdd (Some e) _ | DInsert (Some e) _ => (e ∉ (d_seq s).*1) /\ zlen (d_seq s) < 1073741823
  | _ => True
  end.

Fixpoint dlegal_run (s : dplace) (os : list dop) : Prop :=
  match os with
  | [] => True
  | o :: os => dlegal s o /\ dlegal_run (fst (dspec_step s o)) os
  end.

(** The entries in the heap are those of the list, no more and no less, and the
    pointers the list keeps are to them or NULL. *)
Record drep (h : dheap) (d : SilcDList) (s : dplace) : Prop := mkDRep {
  dr_list : stands true (links h) (dl_list d) (mkPlace (d_seq s).*1 (d_next s) (d_back s));
  dr_heap : contexts h = list_to_map (d_seq s);
  dr_current : dl_current d = d_current s;
  dr_prev : dl_prev d = d_prev s;
  dr_current_in : forall x, d_current s = Some x -> x ∈ (d_seq s).*1;
  dr_prev_in : forall x, d_prev s = Some x -> x ∈ (d_seq s).*1
}.

(** ** Sequences of pairs *)

Lemma remove_fst e (ps : list (Z * Z)) : (filter (fun p => p.1 <> e) ps).*1 = remove e ps.*1.
Proof.
  unfold remove. induction ps as [|p ps IH]; [done|].
  rewrite list.filter_cons. cbn [fmap list_fmap]. rewrite list.filter_cons.
  destruct (decide (p.1 <> e)); cbn [fmap list_fmap]; by rewrite IH.
Qed.

Lemma delete_map e (ps : list (Z * Z)) :
  delete e (list_to_map ps : gmap Z Z) = list_to_map (filter (fun p => p.1 <> e) ps).
Proof.
  induction ps as [|[x c] ps IH]; [apply delete_empty|].
  rewrite list.filter_cons. cbn [list_to_map foldr fst snd]. case_decide as E; cbn in E.
  - rewrite delete_insert_ne by auto. cbn. by rewrite <- IH.
  - subst x. rewrite delete_insert_eq. exact IH.
Qed.

Lemma pair_at_fst c (p : Z * Z) ps : (pair_at c p ps).*1 = insert_at c p.1 ps.*1.
Proof.
  destruct c as [c|]; [|done]. cbn. induction ps as [|q ps IH]; [done|]. cbn.
  destruct (q.1 =? c); cbn; by rewrite ?IH.
Qed.

Lemma pair_at_perm c (p : Z * Z) ps : (forall x, c = Some x -> x ∈ ps.*1) -> pair_at c p ps ≡ₚ p :: ps.
Proof.
  destruct c as [c|]; [|done]. intros Hc. specialize (Hc c eq_refl). cbn.
  induction ps as [|q ps IH]; cbn in *; [by apply not_elem_of_nil in Hc|].
  destruct (Z.eqb_spec q.1 c) as [E|]; [by rewrite Permutation_swap|].
  apply elem_of_cons in Hc as [->|Hc]; [done|]. rewrite IH by done. apply Permutation_swap.
Qed.

Lemma new_entry {A} (ps ps' : list (Z * A)) e c :
  NoDup ps.*1 -> e ∉ ps.*1 -> ps' ≡ₚ (e, c) :: ps ->
  <[e := c]> (list_to_map ps : gmap Z A) = list_to_map ps'.
Proof.
  intros Hd He E. rewrite <- list_to_map_cons. symmetry. apply list_to_map_proper; [|done].
  rewrite E. by apply list.NoDup_cons.
Qed.

Lemma seq_nodup h d s : drep h d s -> NoDup (d_seq s).*1.
Proof. intros [S _ _ _ _ _]. apply (rep_nodup _ _ _ (proj1 S)). Qed.

Lemma zlen_fst (ps : list (Z * Z)) : zlen ps.*1 = zlen ps.
Proof. unfold zlen. by rewrite length_fmap. Qed.

Lemma unless_in e (x : option Z) (xs : list Z) :
  (forall y, x = Some y -> y ∈ xs) -> forall y, unless e x = Some y -> y ∈ remove e xs.
Proof.
  intros H y. unfold unless. case_bool_decide as E; [done|]. intros ->.
  apply list_elem_of_filter. split; [congruence|auto].
Qed.

(** ** The loop of [silc_dlist_del] *)

Lemma stands_get both h l xs c b l' r :
  stands both h l (mkPlace xs c b) -> silc_list_get h l = (l', r) ->
  stands both h l' (mkPlace xs (x ← c; toward b x xs) b) /\ r = c.
Proof.
  intros S E. destruct (step_stands both h l _ Get S I) as (h1 & l1 & r1 & E1 & S1 & Er).
  cbn in E1, S1, Er. rewrite E in E1. by injection E1 as <- <- <-.
Qed.

Lemma stands_del both h l xs c b e :
  stands both h l (mkPlace xs c b) ->
  exists h' l', silc_list_del h l e = Some (h', l') /\
    stands both h' l' (mkPlace (remove e xs) (if bool_decide (c = Some e /\ e ∈ xs) then after e xs else c) b).
Proof.
  intros S. destruct (step_stands both h l _ (Del e) S I) as (h1 & l1 & r1 & E1 & S1 & _).
  cbn [step] in E1. destruct (silc_list_del h l e) as [[h' l']|]; [|done].
  injection E1 as -> -> _. by exists h1, l1.
Qed.

Lemma dlist_del_loop_ok c : forall k seen fuel h d,
  (length k <= fuel)%nat ->
  contexts h = list_to_map (seen ++ k) ->
  stands true (links h) (dl_list d) (mkPlace (seen ++ k).*1 (head k.*1) false) ->
  exists h' d', dlist_del_loop fuel h d c = Some (h', d') /\
  match entry_of c k with
  | None =>
      contexts h' = contexts h /\ dl_current d' = dl_current d /\ dl_prev d' = dl_prev d /\
      stands true (links h') (dl_list d') (mkPlace (seen ++ k).*1 None false)
  | Some e =>
      contexts h' = delete e (contexts h) /\
      dl_current d' = unless e (dl_current d) /\ dl_prev d' = unless e (dl_prev d) /\
      stands true (links h') (dl_list d')
        (mkPlace (remove e (seen ++ k).*1) (after e (seen ++ k).*1) false)
  end.
Proof.
  induction k as [|[x cx] k IH]; intros seen fuel h d Hf Hc S;
    destruct (silc_list_get (links h) (dl_list d)) as [l r] eqn:G;
    destruct (stands_get _ _ _ _ _ _ _ _ S G) as [S1 ->];
    destruct fuel as [|fuel]; cbn in Hf; try lia; cbn [dlist_del_loop fmap list_fmap head] in *; rewrite G.
  1,2: eexists _, _; split; [done|]; cbn [entry_of]; repeat split; try done; apply S1.
  assert (Hd := rep_nodup _ _ _ (proj1 S)). cbn [p_seq] in Hd.
  assert (Ex : contexts h !! x = Some cx).
  { rewrite Hc. apply elem_of_list_to_map_1; [done|]. apply elem_of_app. right. left. }
  cbn [mbind option_bind toward] in S1. rewrite fmap_app in S1, Hd. cbn [fmap list_fmap fst] in S1, Hd.
  rewrite spot_after in S1 by done. cbn [entry_of fst snd]. rewrite Ex.
  destruct (Z.eqb_spec cx c) as [->|Hne].
  - rewrite bool_decide_true by done.
    destruct (stands_del _ _ _ _ _ _ x S1) as (ls & l' & -> & S2). cbn [mbind option_bind].
    rewrite bool_decide_false in S2.
    + eexists _, _. split; [done|]. rewrite fmap_app. cbn [fmap list_fmap fst]. rewrite spot_after by done.
      split; [done|]. split; [done|]. split; [done|exact S2].
    + intros [Ex1 _]. apply spot_parts in Hd as (_ & _ & _ & N & _). by apply N, head_in.
  - rewrite bool_decide_false by congruence.
    replace (seen ++ (x, cx) :: k) with ((seen ++ [(x, cx)]) ++ k) in * by by rewrite <- app_assoc.
    apply (IH (seen ++ [(x, cx)]) fuel h (mkDList l (dl_current d) (dl_prev d))); [lia|done|].
    rewrite !fmap_app, <- app_assoc. exact S1.
Qed.

(** ** Every call keeps the list *)

Lemma entry_in c (ps : list (Z * Z)) e : entry_of c ps = Some e -> e ∈ ps.*1.
Proof.
  induction ps as [|p ps IH]; cbn; [done|]. destruct (p.2 =? c); [intros [= ->]; left|right; auto].
Qed.

(** A new entry at any place: [ps'] is the new sequence. *)
Lemma drep_new h ls d l ps' ps nx b cur prev e c :
  drep h d (mkDPlace ps nx b cur prev) -> e ∉ ps.*1 -> ps' ≡ₚ (e, c) :: ps ->
  stands true ls l (mkPlace ps'.*1 nx b) ->
  drep (mkDHeap ls (<[e := c]> (contexts h))) (mkDList l (dl_current d) (dl_prev d))
    (mkDPlace ps' nx b cur prev).
Proof.
  intros R He Ep S. pose proof (seq_nodup _ _ _ R) as Hd. destruct R as [_ Hc C P Ci Pi]. cbn in *.
  assert (Hin : forall x, x ∈ ps.*1 -> x ∈ ps'.*1) by (intros x Hx; rewrite Ep; by right).
  split; cbn; try done; [|auto|auto].
  rewrite Hc. by apply new_entry.
Qed.

Lemma dadd_ok h d s e c :
  drep h d s -> dlegal s (DAdd (Some e) c) ->
  exists h' d', silc_dlist_add h d (Some e) c = (h', d', true) /\
    drep h' d' (fst (dspec_step s (DAdd (Some e) c))).
Proof.
  destruct s as [ps nx b cur prev]. intros R [L1 L2]. cbn in L1, L2.
  rewrite <- zlen_fst in L2.
  destruct (step_stands _ _ _ _ (Lists.Add e) (dr_list _ _ _ R) (conj L1 L2)) as (ls & l & ? & E & S & _).
  cbn [step] in E. unfold silc_dlist_add. destruct (silc_list_add (links h) (dl_list d) e) as [ls' l'].
  injection E as -> -> _. eexists _, _. split; [done|]. cbn [dspec_step fst].
  apply (drep_new h ls d l _ ps); [done..| |].
  - by rewrite Permutation_app_comm.
  - by rewrite fmap_app.
Qed.

Lemma dinsert_ok h d s e c :
  drep h d s -> dlegal s (DInsert (Some e) c) ->
  exists h' d', silc_dlist_insert h d (Some e) c = (h', d', true) /\
    drep h' d' (fst (dspec_step s (DInsert (Some e) c))).
Proof.
  destruct s as [ps nx b cur prev]. intros R [L1 L2]. cbn in L1, L2.
  rewrite <- zlen_fst in L2. pose proof (dr_prev_in _ _ _ R) as Pi. cbn in Pi.
  destruct (step_stands _ _ _ _ (Lists.Insert prev e) (dr_list _ _ _ R) (conj L1 (conj L2 Pi)))
    as (ls & l & ? & E & S & _).
  cbn [step] in E. unfold silc_dlist_insert.
  assert (P : dl_prev d = prev) by apply (dr_prev _ _ _ R). rewrite P.
  destruct (silc_list_insert (links h) (dl_list d) prev e) as [ls' l'].
  injection E as -> -> _. eexists _, _. split; [done|]. cbn [dspec_step fst].
  rewrite <- P at 1. apply (drep_new h ls d l _ ps); [done|done|by apply pair_at_perm|].
  by rewrite pair_at_fst.
Qed.

Lemma ddel_ok h d s c :
  drep h d s ->
  exists h' d', silc_dlist_del h d c = Some (h', d') /\ drep h' d' (fst (dspec_step s (DDel c))).
Proof.
  destruct s as [ps nx b cur prev]. intros [S Hc C P Ci Pi]. cbn in *. unfold silc_dlist_del.
  destruct (step_stands _ _ _ _ Lists.Start S I) as (? & ? & ? & E & S1 & _). cbn in E, S1.
  injection E as <- <- _.
  destruct (dlist_del_loop_ok c ps [] (Z.to_nat (silc_dlist_count d)) h
    (mkDList (silc_list_start (dl_list d)) (dl_current d) (dl_prev d))) as (h' & d' & -> & H).
  - unfold silc_dlist_count, silc_list_count. rewrite (rep_count _ _ _ (proj1 S)). cbn [p_seq].
    rewrite zlen_fst. unfold zlen. lia.
  - done.
  - exact S1.
  - exists h', d'. split; [done|]. cbn in H. destruct (entry_of c ps) as [e|] eqn:Ee;
      destruct H as (H1 & H2 & H3 & H4); split; cbn.
    all: rewrite ?H1, ?H2, ?H3, ?Hc, ?C, ?P, ?delete_map, ?remove_fst; try done; by apply unless_in.
Qed.

Lemma dget_ok h d s :
  drep h d s ->
  exists d' r, silc_dlist_get h d = (d', r) /\
    drep h d' (fst (dspec_step s DGet)) /\ r = snd (dspec_step s DGet).
Proof.
  destruct s as [ps nx b cur prev]. intros [S Hc C P Ci Pi]. cbn in *. unfold silc_dlist_get.
  destruct (silc_list_get (links h) (dl_list d)) as [l r] eqn:G.
  destruct (stands_get _ _ _ _ _ _ _ _ S G) as [S1 ->].
  eexists _, _. split; [done|]. split; [|by rewrite Hc].
  split; cbn; try done. intros x ->. pose proof (rep_current _ _ _ (proj1 S)) as H. cbn in H.
  apply H. by apply (proj2 S).
Qed.

Lemma dstep_ok h d s o :
  drep h d s -> dlegal s o ->
  exists h' d', dstep h d o = Some (h', d', snd (dspec_step s o)) /\ drep h' d' (fst (dspec_step s o)).
Proof.
  intros R L. destruct o as [[e|] c|[e|] c|c| | |]; cbn [dstep].
  - destruct (dadd_ok h d s e c R L) as (h' & d' & -> & R'). exists h', d'. by destruct s.
  - exists h, d. by destruct s.
  - destruct (dinsert_ok h d s e c R L) as (h' & d' & -> & R'). exists h', d'. by destruct s.
  - exists h, d. by destruct s.
  - destruct (ddel_ok h d s c R) as (h' & d' & -> & R'). exists h', d'. cbn [mbind option_bind].
    split; [|done]. destruct s; cbn. by destruct (entry_of c d_seq0).
  - eexists _, _. destruct s as [ps nx b cur prev], R as [S Hc C P Ci Pi]. split; [done|].
    destruct (step_stands _ _ _ _ Lists.Start S I) as (? & ? & ? & E & S1 & _). cbn in E, S1.
    injection E as <- <- _. by split.
  - eexists _, _. destruct s as [ps nx b cur prev], R as [S Hc C P Ci Pi]. split; [done|].
    destruct (step_stands _ _ _ _ Lists.End_ S eq_refl) as (? & ? & ? & E & S1 & _). cbn in E, S1.
    injection E as <- <- _. by split.
  - destruct (dget_ok h d s R) as (d' & r & -> & R' & ->). exists h, d'. by destruct s.
Qed.

Lemma drun_ok : forall os h d s,
  drep h d s -> dlegal_run s os ->
  exists h' d', drun h d os = Some (h', d', snd (dspec_run s os)) /\ drep h' d' (fst (dspec_run s os)).
Proof.
  induction os as [|o os IH]; intros h d s R L; cbn; [by exists h, d|]. destruct L as [L Ls].
  destruct (dstep_ok h d s o R L) as (h1 & d1 & -> & R1). cbn.
  destruct (IH h1 d1 _ R1 Ls) as (h' & d' & -> & R'). cbn.
  destruct (dspec_step s o) as [s1 r]. cbn in *. destruct (dspec_run s1 os). by exists h', d'.
Qed.

(** Reading the list from the start: [seen] has been returned, [k] has not. *)
Lemma dwalk_get h d seen x k cur prev :
  drep h d (mkDPlace (seen ++ x :: k) (Some x.1) false cur prev) ->
  exists d', silc_dlist_get h d = (d', x.2) /\
    drep h d' (mkDPlace (seen ++ x :: k) (head k.*1) false (Some x.1) cur).
Proof.
  intros R. pose proof (seq_nodup _ _ _ R) as Hd. destruct (dget_ok h d _ R) as (d' & r & E & R' & ->).
  exists d'. cbn [d_seq] in Hd. rewrite E. cbn [dspec_step fst snd toward mbind option_bind] in R' |- *. split.
  - f_equal. rewrite (elem_of_list_to_map_1 _ _ x.2); [done|done|]. apply elem_of_app. right.
    destruct x. left.
  - rewrite fmap_app in Hd, R'. cbn [fmap list_fmap] in Hd, R'. by rewrite spot_after in R'.
Qed.

Lemma dwalk_end h d ps b cur prev :
  drep h d (mkDPlace ps None b cur prev) ->
  exists d', silc_dlist_get h d = (d', 0) /\ drep h d' (mkDPlace ps None b None cur).
Proof. intros R. destruct (dget_ok h d _ R) as (d' & r & E & R' & ->). by exists d'. Qed.

Lemma dwalk_start h d s : drep h d s -> drep h (silc_dlist_start d) (mkDPlace (d_seq s) (head (d_seq s).*1) false None None).
Proof.
  intros R. destruct (dstep_ok h d s DStart R I) as (h' & d' & E & R'). injection E as <- <-.
  by destruct s.
Qed.

Lemma pair_at_last (p : Z * Z) : forall seen k,
  NoDup (seen ++ k).*1 -> pair_at (list.last seen.*1) p (seen ++ k) = seen ++ p :: k.
Proof.
  induction seen as [|y seen IH]; intros k Hd; [done|]. cbn [app fmap list_fmap] in Hd.
  apply list.NoDup_cons in Hd as [Hy Hd]. specialize (IH k Hd). cbn [fmap list_fmap].
  rewrite last_cons. destruct (list.last seen.*1) as [c|] eqn:El.
  - cbn [pair_at pair_after app] in *. rewrite (proj2 (Z.eqb_neq _ _)); [by rewrite IH|]. intros <-.
    apply Hy. rewrite fmap_app. apply elem_of_app. left. by apply last_Some_elem_of.
  - apply last_None, fmap_nil_inv in El as ->. cbn. by rewrite Z.eqb_refl.
Qed.

(** [silc_dlist_uninit] frees every entry. *)
Lemma dlist_uninit_loop_ok both : forall k fuel h l,
  (length k <= fuel)%nat -> contexts h = list_to_map k ->
  stands both (links h) l (mkPlace k.*1 (head k.*1) false) ->
  exists h', dlist_uninit_loop fuel h l = Some h' /\ contexts h' = ∅.
Proof.
  induction k as [|[x cx] k IH]; intros fuel h l Hf Hc S;
    destruct (silc_list_get (links h) l) as [l1 r] eqn:G;
    destruct (stands_get _ _ _ _ _ _ _ _ S G) as [S1 ->];
    destruct fuel as [|fuel]; cbn in Hf; try lia; cbn [dlist_uninit_loop fmap list_fmap head] in *; rewrite G.
  1,2: by exists h.
  assert (Hd := rep_nodup _ _ _ (proj1 S)). cbn [p_seq fst] in Hd, S1.
  destruct (stands_del _ _ _ _ _ _ x S1) as (ls & l' & E & S2). cbn [fst]. rewrite E. cbn [mbind option_bind].
  cbn [mbind option_bind toward] in S2.
  pose proof (spot_after [] k.*1 x Hd) as A. pose proof (remove_spot x [] k.*1 Hd) as B. cbn [app] in A, B.
  rewrite A, B in S2.
  apply list.NoDup_cons in Hd as [Hx Hd].
  apply IH; [lia| |].
  - cbn [free_entry contexts]. rewrite Hc. cbn. apply delete_insert_id.
    apply not_elem_of_list_to_map_1. exact Hx.
  - cbn [free_entry links]. rewrite bool_decide_false in S2; [done|]. intros [Ex1 _]. by apply Hx, head_in.
Qed.

Lemma dlist_uninit_ok h d s :
  drep h d s -> exists h', silc_dlist_uninit h (Some d) = Some h' /\ contexts h' = ∅.
Proof.
  intros [S Hc _ _ _ _]. pose proof (rep_count _ _ _ (proj1 S)) as Hn. cbn [p_seq] in Hn. rewrite zlen_fst in Hn.
  destruct (dlist_uninit_loop_ok true (d_seq s) (Z.to_nat (silc_dlist_count d)) h (silc_list_start (dl_list d)))
    as (h' & U & U0); [|done| |by exists h'].
  - unfold silc_dlist_count, silc_list_count. rewrite Hn. unfold zlen. lia.
  - destruct (step_stands _ _ _ _ Lists.Start S I) as (? & ? & ? & E1 & S1 & _). cbn in E1, S1.
    injection E1 as <- <- _. exact S1.
Qed.

(** ** Properties *)

Definition no_dlist : dplace := mkDPlace [] None false None None.
Definition no_entries : dheap := mkDHeap ∅ ∅.


Definition dtour : list dop :=
  [DAdd (Some 1) 10; DAdd None 20; DAdd (Some 2) 30; DStart; DGet; DGet; DInsert (Some 3) 40; DDel 10;
   DGet; DEnd; DGet].


(** [silc_dlist_del] searches with the traversal of the list: deleting any entry
    but the one just returned moves the traversal there (entry 20 is returned
    twice), deleting a context that is not in the list ends it, and a backward
    traversal goes forward after a deletion. *)
Lemma del_moves_traversal :
  let add := [DAdd (Some 1) 10; DAdd (Some 2) 20; DAdd (Some 3) 30] in
  let returned os :=
    (fun '(_, _, rs) => rs) <$> drun no_entries (mkDList silc_list_init_prev None None) (add ++ os) in
  returned [DStart; DGet; DGet; DDel 10; DGet] = Some [1; 1; 1; 0; 10; 20; 0; 20] /\
  returned [DStart; DGet; DDel 99; DGet] = Some [1; 1; 1; 0; 10; 0; 0] /\
  returned [DEnd; DGet; DGet; DDel 20; DGet] = Some [1; 1; 1; 0; 30; 20; 0; 30].
Proof. vm_compute. repeat split. Qed.
