(* ===== verification/PacketProcess.v ===== *)
(** * Packet processors ([lib/silccore/silcpacket.c], 1009-1135 and 2010-2099)

    Applications link processors to a packet stream: callbacks with a priority
    and the packet types they want.  The stream keeps them in a [SilcDList];
    a packet that arrives is offered to them in that order, with the engine's own
    callbacks at priority 0, until one takes it.  Locks and what callbacks do to
    the stream are left out. *)

From Stdlib Require Import Sorted.
From stdpp Require Import gmap.
From S2P Require Import Prelude CTypes Lists DList.

(** ** Data *)

(** [struct SilcPacketProcessStruct]; [None] for no types, pointers as
    integers. *)
Record SilcPacketProcess := mkProcess {
  types : option (list Z);
  callbacks : Z;
  callback_context : Z;
  priority : Z
}.

(** The entries, the processors that are allocated, and [stream->process]. *)
Record Processors := mkProcessors {
  pr_heap : dheap;
  pr_procs : gmap Z SilcPacketProcess;
  pr_list : option SilcDList
}.

Definition no_process : SilcPacketProcess := mkProcess None 0 0 0.
Definition proc_at (st : Processors) (p : Z) : SilcPacketProcess := default no_process (pr_procs st !! p).

(** ** Linking *)

(** The loop that finds the place by priority; the boolean says that the
    processor was inserted ([break]).  [None] is fuel that ran out. *)
Fixpoint link_loop (fuel : nat) (procs : gmap Z SilcPacketProcess) (h : dheap) (d : SilcDList)
    (p prio : Z) (entry : option Z) : option (dheap * SilcDList * bool) :=
  let '(d, e) := silc_dlist_get h d in
  if e =? 0 then Some (h, d, false)
  else
    match fuel with
    | O => None
    | S fuel =>
        if priority (default no_process (procs !! e)) <? prio
        then let '(h, d, _) := silc_dlist_insert h d entry p in Some (h, d, true)
        else link_loop fuel procs h d p prio entry
    end.

(** The packet types of the variable arguments, up to SILC_PACKET_ANY (0) or -1;
    [grown i] tells whether the [i]th [silc_realloc] succeeds.  [None] when one
    fails, and then the types are lost. *)
Fixpoint va_types (i : Z) (grown : Z -> bool) (ap : list Z) : option (list Z) :=
  match ap with
  | [] => Some []
  | t :: ap =>
      if (t =? 0) || (t =? -1) then Some []
      else if grown i then cons (u8 t) <$> va_types (i + 1) grown ap
      else None
  end.

(** No type at all leaves the pointer NULL. *)
Definition types_of (ts : list Z) : option (list Z) := match ts with [] => None | _ => Some ts end.

Definition set_types (ts : option (list Z)) (p : SilcPacketProcess) : SilcPacketProcess :=
  mkProcess ts (callbacks p) (callback_context p) (priority p).

(** [cbs] is 0 for NULL; [p], [entry] and [dlist] are what the allocations of
    the processor, of the list entry and of the list return. *)
Definition silc_packet_stream_link_va (st : Processors) (cbs : Z) (packet_receive : bool)
    (context prio : Z) (ap : list Z) (p : option Z) (dlist : bool) (entry : option Z)
    (grown : Z -> bool) : option (Processors * bool) :=
  if cbs =? 0 then Some (st, false)
  else if negb packet_receive then Some (st, false)
  else
    match p with
    | None => Some (st, false)
    | Some p =>
        match (match pr_list st with None => silc_dlist_init dlist | Some d => Some d end) with
        | None => Some (st, false)
        | Some d =>
            let procs := <[p := mkProcess None cbs context prio]> (pr_procs st) in
            '(h, d, found) ← link_loop (Z.to_nat (silc_dlist_count d)) procs (pr_heap st)
                               (silc_dlist_start d) p prio entry;
            let '(h, d) := if found : bool then (h, d) else (silc_dlist_add h d entry p).1 in
            match va_types 1 grown ap with
            | None => Some (mkProcessors h procs (Some d), false)
            | Some ts => Some (mkProcessors h (alter (set_types (types_of ts)) p procs) (Some d), true)
            end
        end
    end.

(** ** Unlinking *)

(** The loop that finds the processor and deletes it. *)
Fixpoint unlink_loop (fuel : nat) (procs : gmap Z SilcPacketProcess) (h : dheap) (d : SilcDList)
    (cbs context : Z) : option (dheap * SilcDList * gmap Z SilcPacketProcess) :=
  let '(d, p) := silc_dlist_get h d in
  if p =? 0 then Some (h, d, procs)
  else
    match fuel with
    | O => None
    | S fuel =>
        let pr := default no_process (procs !! p) in
        if (callbacks pr =? cbs) && (callback_context pr =? context)
        then '(h, d) ← silc_dlist_del h d p; Some (h, d, delete p procs)
        else unlink_loop fuel procs h d cbs context
    end.

(** [None] also stands for the use of a NULL list. *)
Definition silc_packet_stream_unlink (st : Processors) (cbs context : Z) : option Processors :=
  d ← pr_list st;
  '(h, d, procs) ← unlink_loop (Z.to_nat (silc_dlist_count d)) (pr_procs st) (pr_heap st)
                     (silc_dlist_start d) cbs context;
  if silc_dlist_count d =? 0
  then h ← silc_dlist_uninit h (Some d); Some (mkProcessors h procs None)
  else Some (mkProcessors h procs (Some d)).

(** ** Dispatching *)

(** [takes] is what the callbacks of a processor, or of the engine for [None],
    return for the packet. *)
Section Dispatch.
Context (takes : option Z -> bool) (packet_type : Z).

(** The array of types ends at its 0. *)
Fixpoint in_types (ts : list Z) : bool :=
  match ts with
  | [] => false
  | t :: ts => if t =? 0 then false else if t =? packet_type then true else in_types ts
  end.

Definition wants (pr : SilcPacketProcess) : bool :=
  match types pr with None => true | Some ts => in_types ts end.

(** The loop: whom the packet was offered to, in order, whether it was taken,
    and whether the engine's callbacks had it. *)
Fixpoint dispatch_loop (fuel : nat) (procs : gmap Z SilcPacketProcess) (h : dheap) (d : SilcDList)
    (default_sent : bool) : option (list (option Z) * bool * bool) :=
  let '(d, p) := silc_dlist_get h d in
  if p =? 0 then Some ([], false, default_sent)
  else
    match fuel with
    | O => None
    | S fuel =>
        let pr := default no_process (procs !! p) in
        let first := negb default_sent && (priority pr <=? 0) in
        let default_sent := default_sent || first in
        let offers := if first then [None] else [] in
        if first && takes None then Some (offers, true, default_sent)
        else
          let offers := if wants pr then offers ++ [Some p] else offers in
          if wants pr && takes (Some p) then Some (offers, true, default_sent)
          else
            match dispatch_loop fuel procs h d default_sent with
            | None => None
            | Some (rest, taken, default_sent) => Some (offers ++ rest, taken, default_sent)
            end
    end.

(** The offers, and whether the packet was taken; it is freed if not. *)
Definition silc_packet_dispatch (st : Processors) : option (list (option Z) * bool) :=
  match pr_list st with
  | None => Some ([None], takes None)
  | Some d =>
      match dispatch_loop (Z.to_nat (silc_dlist_count d)) (pr_procs st) (pr_heap st)
              (silc_dlist_start d) false with
      | None => None
      | Some (offers, true, _) => Some (offers, true)
      | Some (offers, false, true) => Some (offers, false)
      | Some (offers, false, false) => Some (offers ++ [None], takes None)
      end
  end.
End Dispatch.

(** ** The sequence of processors *)

(** In front of the first processor of a lower priority. *)
Fixpoint by_priority (q : Z * SilcPacketProcess) (qs : list (Z * SilcPacketProcess))
    : list (Z * SilcPacketProcess) :=
  match qs with
  | [] => [q]
  | x :: qs => if priority x.2 <? priority q.2 then q :: x :: qs else x :: by_priority q qs
  end.

(** Without the first one with these callbacks. *)
Fixpoint without (cbs context : Z) (qs : list (Z * SilcPacketProcess)) : list (Z * SilcPacketProcess) :=
  match qs with
  | [] => []
  | x :: qs =>
      if (callbacks x.2 =? cbs) && (callback_context x.2 =? context) then qs
      else x :: without cbs context qs
  end.

(** Up to the first that takes the packet. *)
Fixpoint until_taken (takes : option Z -> bool) (os : list (option Z)) : list (option Z) * bool :=
  match os with
  | [] => ([], false)
  | o :: os => if takes o then ([o], true) else let '(l, b) := until_taken takes os in (o :: l, b)
  end.

Definition interested (packet_type : Z) (qs : list (Z * SilcPacketProcess)) : list (option Z) :=
  Some <$> (filter (fun q => wants packet_type q.2 = true) qs).*1.

(** Whom a packet may be offered to: the processors of positive priority that
    want its type, the engine, and the others. *)
Definition audience (packet_type : Z) (qs : list (Z * SilcPacketProcess)) : list (option Z) :=
  interested packet_type (filter (fun q => 0 < priority q.2) qs) ++ [None] ++
  interested packet_type (filter (fun q => priority q.2 <= 0) qs).

(** The processors [qs] are linked: those that are allocated, in the order of
    the list. *)
Record linked (st : Processors) (qs : list (Z * SilcPacketProcess)) : Prop := mkLinked {
  ln_list : match pr_list st with
            | None => qs = [] /\ contexts (pr_heap st) = ∅
            | Some d => qs <> [] /\ exists s, drep (pr_heap st) d s /\ (d_seq s).*2 = qs.*1
            end;
  ln_procs : pr_procs st = list_to_map qs;
  ln_nodup : NoDup qs.*1;
  ln_valid : Forall (fun q => q.1 <> 0) qs
}.

(** ** The loops *)

(** The list in the heap holds [seen] and [k], and is read up to [k]. *)
Definition read_to (h : dheap) (d : SilcDList) (seen k : list (Z * Z)) : Prop :=
  exists prev, drep h d (mkDPlace (seen ++ k) (head k.*1) false (list.last seen.*1) prev).

Lemma read_next h d seen x k :
  read_to h d seen (x :: k) ->
  exists d', silc_dlist_get h d = (d', x.2) /\ read_to h d' (seen ++ [x]) k /\
    drep h d' (mkDPlace (seen ++ x :: k) (head k.*1) false (Some x.1) (list.last seen.*1)).
Proof.
  intros [prev R]. destruct (dwalk_get h d seen x k _ prev R) as (d' & E & R'). exists d'.
  split; [done|]. split; [|done]. exists (list.last seen.*1).
  rewrite fmap_app. cbn [fmap list_fmap]. by rewrite last_snoc, <- app_assoc.
Qed.

Lemma read_end h d seen :
  read_to h d seen [] -> exists d' cur, silc_dlist_get h d = (d', 0) /\
    drep h d' (mkDPlace seen None false None cur).
Proof.
  intros [prev R]. rewrite app_nil_r in R. destruct (dwalk_end h d _ _ _ _ R) as (d' & E & R').
  by exists d', (list.last seen.*1).
Qed.

Lemma read_start h d s : drep h d s -> read_to h (silc_dlist_start d) [] (d_seq s).
Proof. intros R. exists None. by apply dwalk_start. Qed.

Section Link.
Context (procs : gmap Z SilcPacketProcess) (p prio e : Z).

Definition prio_of (c : Z) : Z := priority (default no_process (procs !! c)).

(** The new entry goes between [k1] and [k2]. *)
Lemma link_loop_ok : forall k seen fuel h d,
  read_to h d seen k -> (length k <= fuel)%nat -> Forall (fun x => x.2 <> 0) k ->
  e ∉ (seen ++ k).*1 -> zlen (seen ++ k) < 1073741823 ->
  exists k1 k2 h' d' found, k = k1 ++ k2 /\
    link_loop fuel procs h d p prio (Some e) = Some (h', d', found) /\
    Forall (fun x => prio <= prio_of x.2) k1 /\
    match k2 with
    | [] => found = false /\ h' = h /\ exists s, drep h d' s /\ d_seq s = seen ++ k1
    | x :: _ =>
        found = true /\ prio_of x.2 < prio /\
        exists s, drep h' d' s /\ d_seq s = seen ++ k1 ++ (e, p) :: k2
    end.
Proof.
  induction k as [|x k IH]; intros seen fuel h d R Hf Hn He Hl.
  - destruct (read_end h d seen R) as (d' & cur & E & R'). exists [], [], h, d', false.
    split; [done|]. split; [|split; [done|split; [done|split; [done|]]]].
    + by destruct fuel; cbn [link_loop]; rewrite E.
    + eexists. split; [exact R'|]. by rewrite app_nil_r.
  - destruct fuel as [|fuel]; cbn in Hf; [lia|]. apply list.Forall_cons in Hn as [Hx Hn].
    destruct (read_next h d seen x k R) as (d' & E & R' & Rd). cbn [link_loop]. rewrite E.
    rewrite (proj2 (Z.eqb_neq _ _)) by done. fold (prio_of x.2).
    destruct (Z.ltb_spec (prio_of x.2) prio) as [Hp|Hp].
    + destruct (dinsert_ok h d' _ e p Rd (conj He Hl)) as (h1 & d1 & E1 & R1). rewrite E1.
      exists [], (x :: k), h1, d1, true. split; [done|]. split; [done|]. split; [done|].
      split; [done|]. split; [done|]. eexists. split; [exact R1|]. cbn [dspec_step fst d_seq app].
      apply (pair_at_last (e, p)). apply (seq_nodup _ _ _ Rd).
    + replace (seen ++ x :: k) with ((seen ++ [x]) ++ k) in * by by rewrite <- app_assoc.
      destruct (IH (seen ++ [x]) fuel h d' R' ltac:(lia) Hn He Hl)
        as (k1 & k2 & h1 & d1 & fd & -> & E1 & F & M).
      exists (x :: k1), k2, h1, d1, fd. split; [done|]. split; [done|]. split; [by constructor|].
      destruct k2 as [|y k2]; rewrite <- app_assoc in M; exact M.
Qed.
End Link.

Section Unlink.
Context (procs : gmap Z SilcPacketProcess) (cbs context : Z).

Definition matches (c : Z) : bool :=
  let pr := default no_process (procs !! c) in
  (callbacks pr =? cbs) && (callback_context pr =? context).

Lemma entry_of_spot c x : forall k1 k2,
  c ∉ k1.*2 -> entry_of c (k1 ++ (x, c) :: k2) = Some x.
Proof.
  induction k1 as [|y k1 IH]; intros k2 Hc; cbn; [by rewrite Z.eqb_refl|].
  apply not_elem_of_cons in Hc as [Hy Hc]. rewrite (proj2 (Z.eqb_neq _ _)) by congruence. by apply IH.
Qed.

Lemma filter_absent x (k : list (Z * Z)) : x ∉ k.*1 -> filter (fun q => q.1 <> x) k = k.
Proof.
  induction k as [|y k IH]; cbn [fmap list_fmap]; intros Hx; [done|].
  apply not_elem_of_cons in Hx as [Hy Hx]. rewrite list.filter_cons_True by done. by rewrite IH.
Qed.

Lemma filter_spot x c (k1 k2 : list (Z * Z)) :
  NoDup (k1 ++ (x, c) :: k2).*1 -> filter (fun q => q.1 <> x) (k1 ++ (x, c) :: k2) = k1 ++ k2.
Proof.
  rewrite fmap_app. cbn [fmap list_fmap fst]. intros (_ & _ & H1 & H2 & _)%spot_parts.
  rewrite list.filter_app, list.filter_cons_False by (cbn; by intros []).
  by rewrite !filter_absent.
Qed.

Lemma unlink_loop_ok : forall k seen fuel h d,
  read_to h d seen k -> (length k <= fuel)%nat -> Forall (fun x => x.2 <> 0) k ->
  NoDup (seen ++ k).*2 ->
  exists k1 k2 h' d' s, k = k1 ++ k2 /\ drep h' d' s /\ Forall (fun x => matches x.2 = false) k1 /\
    match k2 with
    | [] => unlink_loop fuel procs h d cbs context = Some (h', d', procs) /\ d_seq s = seen ++ k
    | x :: k2 =>
        unlink_loop fuel procs h d cbs context = Some (h', d', delete x.2 procs) /\
        matches x.2 = true /\ d_seq s = seen ++ k1 ++ k2
    end.
Proof.
  induction k as [|x k IH]; intros seen fuel h d R Hf Hn Hd.
  - destruct (read_end h d seen R) as (d' & cur & E & R'). exists [], [], h, d'. eexists.
    split; [done|]. split; [exact R'|]. split; [done|]. split; [|by rewrite app_nil_r].
    by destruct fuel; cbn [unlink_loop]; rewrite E.
  - destruct fuel as [|fuel]; cbn in Hf; [lia|]. apply list.Forall_cons in Hn as [Hx Hn].
    destruct (read_next h d seen x k R) as (d' & E & R' & Rd). cbn [unlink_loop]. rewrite E.
    rewrite (proj2 (Z.eqb_neq _ _)) by done. fold (matches x.2). destruct (matches x.2) eqn:Em.
    + destruct (ddel_ok h d' _ x.2 Rd) as (h1 & d1 & E1 & R1). rewrite E1.
      exists [], (x :: k), h1, d1. eexists. split; [done|]. split; [exact R1|]. split; [done|].
      split; [done|]. split; [done|]. cbn [dspec_step app]. destruct x as [x c]. cbn [fst snd] in *.
      rewrite fmap_app in Hd. cbn [fmap list_fmap snd] in Hd.
      apply spot_parts in Hd as (_ & _ & Hc & _).
      rewrite (entry_of_spot c x) by done. cbn [d_seq fst]. apply filter_spot. apply (seq_nodup _ _ _ Rd).
    + replace (seen ++ x :: k) with ((seen ++ [x]) ++ k) in * by by rewrite <- app_assoc.
      destruct (IH (seen ++ [x]) fuel h d' R' ltac:(lia) Hn Hd) as (k1 & k2 & h1 & d1 & s1 & -> & R1 & F & M).
      exists (x :: k1), k2, h1, d1, s1. split; [done|]. split; [done|]. split; [by constructor|].
      destruct k2 as [|y k2]; [rewrite <- ?app_assoc in M |- *|rewrite <- app_assoc in M]; exact M.
Qed.
End Unlink.

Section DispatchLoop.
Context (takes : option Z -> bool) (packet_type : Z) (procs : gmap Z SilcPacketProcess).

(** The offers of the loop, were the packet not taken. *)
Fixpoint offers (sent : bool) (qs : list (Z * SilcPacketProcess)) : list (option Z) :=
  match qs with
  | [] => []
  | q :: qs =>
      let first := negb sent && (priority q.2 <=? 0) in
      (if first then [None] else []) ++ (if wants packet_type q.2 then [Some q.1] else []) ++
      offers (sent || first) qs
  end.

Definition default_after (sent : bool) (qs : list (Z * SilcPacketProcess)) : bool :=
  sent || existsb (fun q => priority q.2 <=? 0) qs.

Lemma until_app (l1 l2 : list (option Z)) :
  until_taken takes (l1 ++ l2) =
    let '(o, b) := until_taken takes l1 in
    if b then (o, true) else let '(o2, b2) := until_taken takes l2 in (o ++ o2, b2).
Proof.
  induction l1 as [|x l1 IH]; cbn [app until_taken]; [by destruct (until_taken takes l2)|].
  destruct (takes x); [done|]. rewrite IH. destruct (until_taken takes l1) as [o []]; [done|].
  by destruct (until_taken takes l2).
Qed.

Lemma dispatch_loop_ok : forall qs k seen fuel h d sent,
  read_to h d seen k -> k.*2 = qs.*1 -> (length k <= fuel)%nat ->
  Forall (fun q => q.1 <> 0 /\ procs !! q.1 = Some q.2) qs ->
  exists ds, dispatch_loop takes packet_type fuel procs h d sent =
    Some (until_taken takes (offers sent qs), ds) /\
    ((until_taken takes (offers sent qs)).2 = false -> ds = default_after sent qs).
Proof.
  induction qs as [|q qs IH]; intros [|x k] seen fuel h d sent R E Hf Hq; try done.
  - destruct (read_end h d seen R) as (d' & cur & G & _). exists sent.
    split; [|by unfold default_after; rewrite orb_false_r].
    by destruct fuel; cbn [dispatch_loop]; rewrite G.
  - cbn [fmap list_fmap] in E. injection E as Ex E.
    destruct fuel as [|fuel]; cbn in Hf; [lia|].
    apply list.Forall_cons in Hq as [[Hx Hp] Hq].
    destruct (read_next h d seen x k R) as (d' & G & R' & _). cbn [dispatch_loop]. rewrite G, Ex.
    rewrite (proj2 (Z.eqb_neq _ _)) by done. rewrite Hp.
    change (default no_process (Some q.2)) with q.2. cbn [offers].
    set (first := negb sent && (priority q.2 <=? 0)).
    destruct (IH k (seen ++ [x]) fuel h d' (sent || first) R' E ltac:(lia) Hq) as (ds & Ed & Hds).
    assert (Eda : default_after (sent || first) qs = default_after sent (q :: qs)).
    { unfold default_after, first. cbn [existsb]. by destruct sent, (priority q.2 <=? 0). }
    rewrite Eda in Hds. rewrite Ed, !until_app.
    destruct (until_taken takes (offers (sent || first) qs)) as [o b]. cbn [snd] in Hds.
    destruct first, (wants packet_type q.2); cbn [andb app until_taken];
      destruct (takes None), (takes (Some q.1)); cbn [andb app];
      eexists; (split; [reflexivity|]); cbn; intros; by auto.
Qed.
End DispatchLoop.

(** ** Priorities *)

Definition prio_ge (a b : Z * SilcPacketProcess) : Prop := priority b.2 <= priority a.2.

Lemma by_priority_split q q1 q2 :
  Forall (fun x => priority q.2 <= priority x.2) q1 ->
  match q2 with [] => True | x :: _ => priority x.2 < priority q.2 end ->
  by_priority q (q1 ++ q2) = q1 ++ q :: q2.
Proof.
  induction q1 as [|x q1 IH]; intros F H; cbn [app by_priority].
  - destruct q2 as [|x q2]; [done|]. cbn [by_priority]. by rewrite (proj2 (Z.ltb_lt _ _)) by done.
  - apply list.Forall_cons in F as [Hx F]. rewrite (proj2 (Z.ltb_ge _ _)) by done. by rewrite IH.
Qed.

Lemma by_priority_perm q qs : by_priority q qs ≡ₚ q :: qs.
Proof.
  induction qs as [|x qs IH]; cbn [by_priority]; [done|]. destruct (_ <? _); [done|].
  rewrite IH. apply Permutation_swap.
Qed.

Lemma by_priority_sorted q qs : StronglySorted prio_ge qs -> StronglySorted prio_ge (by_priority q qs).
Proof.
  induction 1 as [|x qs S IH F]; cbn [by_priority]; [by repeat constructor|].
  destruct (Z.ltb_spec (priority x.2) (priority q.2)).
  - constructor; [by constructor|]. constructor; [unfold prio_ge; lia|].
    eapply list.Forall_impl; [exact F|]. unfold prio_ge. intros y Hy. lia.
  - constructor; [done|]. rewrite by_priority_perm. by constructor.
Qed.

Lemma without_sublist cbs context qs : sublist (without cbs context qs) qs.
Proof. induction qs as [|x qs IH]; cbn; [done|]. destruct (_ && _); by constructor. Qed.

Lemma without_fst cbs context qs : sublist (without cbs context qs).*1 qs.*1.
Proof. induction qs as [|x qs IH]; cbn; [done|]. destruct (_ && _); cbn; by constructor. Qed.

Lemma sorted_sublist {A} (R : A -> A -> Prop) l k : sublist l k -> StronglySorted R k -> StronglySorted R l.
Proof.
  induction 1 as [|x l k S IH|x l k S IH]; intros H; [done| |];
    apply StronglySorted_inv in H as [H F]; [|auto].
  constructor; [auto|]. clear -S F. induction S; inversion F; subst; auto.
Qed.

Lemma interested_cons t q qs :
  interested t (q :: qs) = (if wants t q.2 then [Some q.1] else []) ++ interested t qs.
Proof.
  unfold interested. rewrite list.filter_cons. destruct (wants t q.2); [by rewrite decide_True|].
  by rewrite decide_False.
Qed.

(** With the processors in order, the engine comes after those of positive
    priority. *)
Lemma audience_offers packet_type qs :
  StronglySorted prio_ge qs ->
  offers packet_type false qs ++ (if default_after false qs then [] else [None]) =
    audience packet_type qs.
Proof.
  assert (A : forall qs, Forall (fun q => priority q.2 <= 0) qs ->
    offers packet_type true qs = interested packet_type qs /\
    filter (fun q => 0 < priority q.2) qs = [] /\ filter (fun q => priority q.2 <= 0) qs = qs).
  { induction 1 as [|q qs' Hq F (I1 & I2 & I3)]; [done|]. cbn [offers orb negb andb app].
    rewrite I1, !list.filter_cons, I2, I3, interested_cons.
    split; [done|]. split; case_decide; (done || lia). }
  unfold audience. induction 1 as [|q qs' S IH F]; [done|].
  cbn [offers negb andb orb app]. rewrite !(list.filter_cons _ q qs'). unfold default_after in *. cbn [existsb orb] in *.
  destruct (Z.leb_spec (priority q.2) 0) as [Hq|Hq].
  - assert (F' : Forall (fun q => priority q.2 <= 0) qs').
    { eapply list.Forall_impl; [exact F|]. unfold prio_ge. intros y Hy. lia. }
    destruct (A qs' F') as (-> & -> & ->). case_decide; [lia|]. case_decide; [|lia].
    cbn [app orb]. by rewrite app_nil_r, interested_cons.
  - case_decide; [|lia]. case_decide; [lia|]. cbn [app orb].
    by rewrite interested_cons, <- !app_assoc, IH.
Qed.

(** ** Linking and unlinking keep the processors *)

(** The types linked with. *)
Fixpoint requested (ap : list Z) : list Z :=
  match ap with
  | [] => []
  | t :: ap => if (t =? 0) || (t =? -1) then [] else u8 t :: requested ap
  end.

Lemma va_types_ok : forall ap i, va_types i (fun _ => true) ap = Some (requested ap).
Proof.
  induction ap as [|t ap IH]; intros i; cbn [va_types requested]; [done|].
  destruct (_ || _); [done|]. by rewrite IH.
Qed.

(** The list of [linked], whether there is one or not. *)
Lemma linked_list st qs :
  linked st qs ->
  exists d s, (match pr_list st with None => silc_dlist_init true | Some d => Some d end) = Some d /\
    drep (pr_heap st) d s /\ (d_seq s).*2 = qs.*1 /\ length (d_seq s) = length qs /\
    silc_dlist_count d = zlen qs /\ Forall (fun x => x.2 <> 0) (d_seq s) /\
    (forall e, contexts (pr_heap st) !! e = None -> e ∉ (d_seq s).*1).
Proof.
  intros [L _ _ V].
  assert (exists d s, (match pr_list st with None => silc_dlist_init true | Some d => Some d end) = Some d /\
    drep (pr_heap st) d s /\ (d_seq s).*2 = qs.*1) as (d & s & E & R & Es).
  { destruct (pr_list st) as [d|]; [destruct L as (_ & s & R & E); by exists d, s|].
    destruct L as [-> L]. exists (mkDList silc_list_init_prev None None), no_dlist.
    split; [done|]. split; [|done]. split; try done. split; [apply list_init_prev_ok|done]. }
  exists d, s. split; [done|]. split; [done|]. split; [done|].
  assert (El : length (d_seq s) = length qs).
  { apply (f_equal length) in Es. by rewrite !length_fmap in Es. }
  split; [done|]. split; [|split].
  - pose proof (rep_count _ _ _ (proj1 (dr_list _ _ _ R))) as Hc. cbn [p_seq] in Hc.
    unfold silc_dlist_count, silc_list_count. rewrite Hc, zlen_fst. unfold zlen. by rewrite El.
  - apply (list.Forall_fmap snd (fun c => c <> 0)). rewrite Es. by apply list.Forall_fmap.
  - intros e He. rewrite (dr_heap _ _ _ R) in He. by apply not_elem_of_list_to_map_2.
Qed.

Lemma proc_lookup (qs : list (Z * SilcPacketProcess)) q :
  NoDup qs.*1 -> q ∈ qs -> (list_to_map qs : gmap Z SilcPacketProcess) !! q.1 = Some q.2.
Proof. intros Hd Hq. apply elem_of_list_to_map_1; [done|]. by destruct q. Qed.

Lemma split_procs (k1 k2 : list (Z * Z)) (qs : list (Z * SilcPacketProcess)) :
  (k1 ++ k2).*2 = qs.*1 ->
  exists q1 q2, qs = q1 ++ q2 /\ k1.*2 = q1.*1 /\ k2.*2 = q2.*1.
Proof.
  rewrite fmap_app. intros E. symmetry in E. apply fmap_app_inv in E as (q1 & q2 & E1 & E2 & ->).
  by exists q1, q2.
Qed.

Lemma fst_in (qs : list (Z * SilcPacketProcess)) q : q ∈ qs -> q.1 ∈ qs.*1.
Proof. intros Hq. apply list_elem_of_fmap. by exists q. Qed.

Section LinkOk.
Context (st : Processors) (qs : list (Z * SilcPacketProcess)) (p cbs context prio e : Z) (ap : list Z).
Hypothesis L : linked st qs.
Hypothesis fresh_p : p ∉ qs.*1.
Let procs := <[p := mkProcess None cbs context prio]> (pr_procs st).
Let q : Z * SilcPacketProcess := (p, mkProcess (types_of (requested ap)) cbs context prio).

Lemma prio_of_in x : x ∈ qs -> prio_of procs x.1 = priority x.2.
Proof.
  intros Hx. unfold prio_of, procs. rewrite lookup_insert_ne.
  - rewrite (ln_procs _ _ L), proc_lookup; [done|apply (ln_nodup _ _ L)|done].
  - intros ->. apply fresh_p. by apply fst_in.
Qed.

Lemma new_procs : alter (set_types (types_of (requested ap))) p procs = list_to_map (by_priority q qs).
Proof.
  unfold procs. rewrite alter_insert_eq, (ln_procs _ _ L). cbn.
  apply new_entry; [apply (ln_nodup _ _ L)|done|]. apply by_priority_perm.
Qed.

Lemma link_ok :
  cbs <> 0 -> p <> 0 -> contexts (pr_heap st) !! e = None -> zlen qs < 1073741823 ->
  exists st',
    silc_packet_stream_link_va st cbs true context prio ap (Some p) true (Some e) (fun _ => true) =
      Some (st', true) /\ linked st' (by_priority q qs).
Proof.
  intros Hcbs Hp He Hl. destruct (linked_list _ _ L) as (d & s & Ed & R & Es & El & Ec & Hn & Hf).
  unfold silc_packet_stream_link_va. rewrite (proj2 (Z.eqb_neq _ _)) by done. cbn [negb]. rewrite Ed.
  fold procs. specialize (Hf e He).
  assert (Hz : zlen (d_seq s) < 1073741823) by (unfold zlen in *; by rewrite El).
  destruct (link_loop_ok procs p prio e (d_seq s) [] (Z.to_nat (silc_dlist_count d)) (pr_heap st)
    (silc_dlist_start d) (read_start _ _ _ R)) as (k1 & k2 & h1 & d1 & found & Ek & -> & F & M);
    [rewrite Ec; unfold zlen; lia|done|done|done|].
  cbn [mbind option_bind app] in *. rewrite va_types_ok.
  assert (exists h' d' s', (if found then (h1, d1) else (silc_dlist_add h1 d1 (Some e) p).1) = (h', d') /\
    drep h' d' s' /\ d_seq s' = k1 ++ (e, p) :: k2) as (h' & d' & s' & -> & R' & E').
  { destruct k2 as [|x k2].
    - destruct M as (-> & -> & s1 & R1 & E1). rewrite app_nil_r in Ek.
      destruct (dadd_ok (pr_heap st) d1 s1 e p R1) as (h' & d' & -> & R').
      { cbn. rewrite E1, <- Ek. by split. }
      exists h', d'. eexists. split; [done|]. split; [exact R'|].
      destruct s1. cbn in *. by rewrite E1.
    - destruct M as (-> & _ & s1 & R1 & E1). by exists h1, d1, s1. }
  eexists. split; [reflexivity|]. rewrite Ek in Es. apply split_procs in Es as (q1 & q2 & Eqs & Eq1 & Eq2).
  assert (Eb : by_priority q qs = q1 ++ q :: q2).
  { rewrite Eqs. apply by_priority_split; cbn.
    - apply (proj2 (list.Forall_fmap snd (fun c => prio <= prio_of procs c) k1)) in F. rewrite Eq1 in F.
      apply (proj1 (list.Forall_fmap fst _ _)) in F. apply list.Forall_forall. intros x Hx.
      apply (proj1 (list.Forall_forall _ _)) with (x := x) in F; [|done]. cbn in F.
      rewrite prio_of_in in F; [done|]. rewrite Eqs. apply elem_of_app. by left.
    - destruct k2 as [|x k2], q2 as [|y q2]; try done. destruct M as (_ & Hlt & _).
      cbn in Eq2. injection Eq2 as Ex _. rewrite Ex in Hlt. rewrite prio_of_in in Hlt; [done|].
      rewrite Eqs. apply elem_of_app. right. left. }
  pose proof (by_priority_perm q qs) as Hperm.
  split; cbn [pr_list pr_heap pr_procs].
  - rewrite Eb. split; [by destruct q1|]. exists s'. split; [done|].
    rewrite E', !fmap_app. cbn [fmap list_fmap]. by rewrite Eq1, Eq2.
  - apply new_procs.
  - rewrite Hperm. constructor; [done|]. apply (ln_nodup _ _ L).
  - rewrite Hperm. constructor; [done|]. apply (ln_valid _ _ L).
Qed.
End LinkOk.

Lemma without_split cbs context q1 q2 :
  let m x := (callbacks x =? cbs) && (callback_context x =? context) in
  Forall (fun x => m x.2 = false) q1 ->
  match q2 with [] => True | x :: _ => m x.2 = true end ->
  without cbs context (q1 ++ q2) = q1 ++ tail q2.
Proof.
  intros m F M. induction F as [|x q1 Hx F IH]; cbn [app without].
  - destruct q2 as [|x q2]; [done|]. cbn [without tail]. unfold m in M. by rewrite M.
  - unfold m in Hx. by rewrite Hx, IH.
Qed.

Lemma drop_entry (q1 q2 : list (Z * SilcPacketProcess)) x :
  NoDup (q1 ++ x :: q2).*1 ->
  delete x.1 (list_to_map (q1 ++ x :: q2) : gmap Z SilcPacketProcess) = list_to_map (q1 ++ q2).
Proof.
  rewrite fmap_app. cbn [fmap list_fmap]. intros Hd. pose proof (spot_parts _ _ _ Hd) as (N1 & N2 & H1 & H2 & _).
  assert (Hx : x.1 ∉ (q1 ++ q2).*1) by (rewrite fmap_app; by apply not_elem_of_app).
  rewrite <- (new_entry (q1 ++ q2) (q1 ++ x :: q2) x.1 x.2).
  - apply delete_insert_id. by apply not_elem_of_list_to_map_1.
  - rewrite fmap_app. apply list.NoDup_app. split; [done|]. split; [|done].
    apply list.NoDup_app in Hd as (_ & Hd & _). intros y Hy Hy2. apply (Hd y Hy). by right.
  - done.
  - destruct x. by rewrite <- Permutation_middle.
Qed.

Section UnlinkOk.
Context (st : Processors) (qs : list (Z * SilcPacketProcess)) (cbs context : Z).
Hypothesis L : linked st qs.

Lemma matches_in q : q ∈ qs -> matches (pr_procs st) cbs context q.1 =
  (callbacks q.2 =? cbs) && (callback_context q.2 =? context).
Proof.
  intros Hq. unfold matches. rewrite (ln_procs _ _ L), proc_lookup; [done|apply (ln_nodup _ _ L)|done].
Qed.

Lemma unlink_loop_linked d s :
  drep (pr_heap st) d s -> (d_seq s).*2 = qs.*1 -> Forall (fun x => x.2 <> 0) (d_seq s) ->
  exists h' d' s' procs,
    unlink_loop (length qs) (pr_procs st) (pr_heap st) (silc_dlist_start d) cbs context = Some (h', d', procs) /\
    drep h' d' s' /\ procs = list_to_map (without cbs context qs) /\
    (d_seq s').*2 = (without cbs context qs).*1.
Proof.
  intros R Es Hn. pose proof (ln_nodup _ _ L) as Hd.
  assert (El : length (d_seq s) = length qs) by (apply (f_equal length) in Es; by rewrite !length_fmap in Es).
  destruct (unlink_loop_ok (pr_procs st) cbs context (d_seq s) [] (length qs) (pr_heap st)
    (silc_dlist_start d) (read_start _ _ _ R)) as (k1 & k2 & h' & d' & s' & Ek & R' & F & M);
    [lia|done|cbn [app]; by rewrite Es|].
  rewrite Ek in Es. apply split_procs in Es as (q1 & q2 & Eqs & Eq1 & Eq2).
  apply (proj2 (list.Forall_fmap snd (fun c => matches (pr_procs st) cbs context c = false) k1)) in F.
  rewrite Eq1 in F. apply (proj1 (list.Forall_fmap fst _ _)) in F.
  assert (F' : Forall (fun x => (callbacks x.2 =? cbs) && (callback_context x.2 =? context) = false) q1).
  { apply list.Forall_forall. intros x Hx. apply (proj1 (list.Forall_forall _ _)) with (x := x) in F; [|done].
    cbn in F. rewrite matches_in in F; [done|]. rewrite Eqs. apply elem_of_app. by left. }
  exists h', d', s'. destruct k2 as [|x k2], q2 as [|y q2]; try done; cbn [app tail] in *.
  - destruct M as [M1 M2]. exists (pr_procs st). split; [done|]. split; [done|].
    rewrite (ln_procs _ _ L). rewrite Eqs, without_split by done. cbn [tail].
    split; [done|]. by rewrite M2, Ek, !app_nil_r.
  - destruct M as (M1 & M2 & M3). cbn in Eq2. injection Eq2 as Ex Eq2. rewrite Ex in *.
    rewrite matches_in in M2 by (rewrite Eqs; apply elem_of_app; right; left).
    exists (delete y.1 (pr_procs st)). split; [done|]. split; [done|].
    rewrite (ln_procs _ _ L). rewrite Eqs in Hd |- *. rewrite without_split by done. cbn [tail].
    split; [by apply drop_entry|]. by rewrite M3, !fmap_app, Eq1, Eq2.
Qed.

Lemma unlink_ok :
  qs <> [] ->
  exists st', silc_packet_stream_unlink st cbs context = Some st' /\ linked st' (without cbs context qs).
Proof.
  intros Hne. destruct (linked_list _ _ L) as (d & s & Ed & R & Es & El & Ec & Hn & _).
  assert (Ed' : pr_list st = Some d).
  { pose proof (ln_list _ _ L) as Hl. destruct (pr_list st); [done|]. by destruct Hl. }
  destruct (unlink_loop_linked d s R Es Hn) as (h' & d' & s' & procs & El' & R' & Ep & Es').
  unfold silc_packet_stream_unlink. rewrite Ed'. cbn [mbind option_bind].
  replace (Z.to_nat (silc_dlist_count d)) with (length qs) by (rewrite Ec; unfold zlen; lia).
  rewrite El'. cbn [mbind option_bind].
  assert (Hc : silc_dlist_count d' = zlen (d_seq s')).
  { pose proof (rep_count _ _ _ (proj1 (dr_list _ _ _ R'))) as Hc. cbn [p_seq] in Hc.
    unfold silc_dlist_count, silc_list_count. by rewrite Hc, zlen_fst. }
  assert (Hd' : NoDup (without cbs context qs).*1).
  { eapply sublist_NoDup; [apply (ln_nodup _ _ L)|]. apply without_fst. }
  assert (Hv : Forall (fun q => q.1 <> 0) (without cbs context qs)).
  { apply list.Forall_forall. intros x Hx. apply (proj1 (list.Forall_forall _ _) (ln_valid _ _ L)).
    eapply elem_of_submseteq; [exact Hx|]. apply sublist_submseteq, without_sublist. }
  rewrite Hc. destruct (d_seq s') as [|w ws] eqn:E; cbn [fmap list_fmap] in Es'.
  - change (zlen (@nil (Z * Z)) =? 0) with true. cbn iota.
    destruct (dlist_uninit_ok h' d' s' R') as (h'' & -> & U). cbn [mbind option_bind].
    eexists. split; [done|]. symmetry in Es'. apply fmap_nil_inv in Es'. by split.
  - rewrite (proj2 (Z.eqb_neq _ _)) by (rewrite zlen_cons; pose proof (zlen_nonneg ws); lia).
    eexists. split; [done|]. split; try done. cbn [pr_list pr_heap].
    split; [intros E'; by rewrite E' in Es'|]. exists s'. split; [done|]. by rewrite E.
Qed.
End UnlinkOk.

(** ** Properties *)

Definition no_processors : Processors := mkProcessors no_entries ∅ None.

(** What linking asks for: callbacks, memory that is not in use, and fewer than
    2^30 processors. *)
Definition link_legal (st : Processors) (qs : list (Z * SilcPacketProcess)) (cbs p e : Z) : Prop :=
  cbs <> 0 /\ p <> 0 /\ (p ∉ qs.*1) /\ contexts (pr_heap st) !! e = None /\ zlen qs < 1073741823.

(** The states calls lead to, with the processors linked: a new one goes after
    those of its priority, and an unlinked one leaves the others as they are. *)
Inductive linked_by : Processors -> list (Z * SilcPacketProcess) -> Prop :=
  | linked_none : linked_by no_processors []
  | linked_link st qs cbs context prio ap p e st' :
      linked_by st qs -> link_legal st qs cbs p e ->
      silc_packet_stream_link_va st cbs true context prio ap (Some p) true (Some e) (fun _ => true) =
        Some (st', true) ->
      linked_by st' (by_priority (p, mkProcess (types_of (requested ap)) cbs context prio) qs)
  | linked_unlink st qs cbs context st' :
      linked_by st qs -> silc_packet_stream_unlink st cbs context = Some st' ->
      linked_by st' (without cbs context qs).

Lemma linked_by_ok st qs : linked_by st qs -> linked st qs /\ StronglySorted prio_ge qs.
Proof.
  induction 1 as [|st qs cbs context prio ap p e st' _ [L S] (H1 & H2 & H3 & H4 & H5) E
                  |st qs cbs context st' _ [L S] E].
  - split; [|constructor]. split; try done. by apply NoDup_nil_2.
  - split; [|by apply by_priority_sorted].
    destruct (link_ok st qs p cbs context prio e ap L H3 H1 H2 H4 H5) as (st1 & E1 & L1).
    rewrite E in E1. by injection E1 as <-.
  - split; [|eapply sorted_sublist; [apply without_sublist|exact S]].
    destruct (unlink_ok st qs cbs context L) as (st1 & E1 & L1).
    + intros ->. pose proof (ln_list _ _ L) as Hl. unfold silc_packet_stream_unlink in E.
      destruct (pr_list st); [by destruct Hl|done].
    + rewrite E in E1. by injection E1 as <-.
Qed.

Lemma dispatch_ok takes packet_type st qs :
  linked st qs -> StronglySorted prio_ge qs ->
  silc_packet_dispatch takes packet_type st = Some (until_taken takes (audience packet_type qs)).
Proof.
  intros L S. pose proof (audience_offers packet_type qs S) as <-. unfold silc_packet_dispatch.
  destruct (linked_list _ _ L) as (d & s & Ed & R & Es & El & Ec & _). pose proof (ln_list _ _ L) as Hl.
  destruct (pr_list st) as [d1|]; [injection Ed as ->|].
  - destruct (dispatch_loop_ok takes packet_type (pr_procs st) qs (d_seq s) [] (Z.to_nat (silc_dlist_count d))
      (pr_heap st) (silc_dlist_start d) false) as (ds & -> & Hds).
    + by apply read_start.
    + done.
    + rewrite Ec. unfold zlen. lia.
    + apply list.Forall_forall. intros x Hx. split; [by apply (proj1 (list.Forall_forall _ _) (ln_valid _ _ L))|].
      rewrite (ln_procs _ _ L). apply proc_lookup; [apply (ln_nodup _ _ L)|done].
    + rewrite until_app. destruct (until_taken takes (offers packet_type false qs)) as [o []]; [done|].
      rewrite <- (Hds eq_refl). destruct ds; cbn; [by rewrite app_nil_r|]. by destruct (takes None).
  - destruct Hl as [-> _]. cbn. by destruct (takes None).
Qed.

(** C29: Packets are offered by priority.  In every state that linking and
    unlinking processors leads to, the processors are in the order of their
    priorities, those of one priority in the order they were linked; another
    one can always be linked, and the first with given callbacks unlinked; and
    a packet is offered to the processors of positive priority that want its
    type, then to the engine's own callbacks, then to the others that want it,
    each once and no further than the first that takes it.  When none does the
    dispatch ends with the packet freed. *)
Theorem dispatch_by_priority (st : Processors) (qs : list (Z * SilcPacketProcess)) :
  linked_by st qs ->
  StronglySorted prio_ge qs /\
  (forall takes packet_type,
     silc_packet_dispatch takes packet_type st = Some (until_taken takes (audience packet_type qs))) /\
  (forall cbs context prio ap p e, link_legal st qs cbs p e -> exists st',
     silc_packet_stream_link_va st cbs true context prio ap (Some p) true (Some e) (fun _ => true) =
       Some (st', true)) /\
  (forall cbs context, qs <> [] -> exists st', silc_packet_stream_unlink st cbs context = Some st').
Proof.
  intros [L S]%linked_by_ok. split; [done|]. split; [intros; by apply dispatch_ok|]. split.
  - intros cbs context prio ap p e (H1 & H2 & H3 & H4 & H5).
    destruct (link_ok st qs p cbs context prio e ap L H3 H1 H2 H4 H5) as (st1 & E1 & _). by exists st1.
  - intros cbs context Hne. destruct (unlink_ok st qs cbs context L Hne) as (st1 & E1 & _). by exists st1.
Qed.

Definition ex_link (st : Processors) (cbs prio : Z) (ap : list Z) (p : Z) : Processors :=
  match silc_packet_stream_link_va st cbs true 0 prio ap (Some p) true (Some p) (fun _ => true) with
  | Some (st, _) => st
  | None => st
  end.

(** Processors at 1, 2 and 3 of priorities 5, -1 and 5; the first wants type 7
    only. *)
Definition ex_processors : Processors :=
  ex_link (ex_link (ex_link no_processors 100 5 [7; 0] 1) 101 (-1) [0] 2) 102 5 [-1] 3.

Definition ex_procs : list (Z * SilcPacketProcess) :=
  [(1, mkProcess (Some [7]) 100 0 5); (3, mkProcess None 102 0 5); (2, mkProcess None 101 0 (-1))].

Lemma ex_linked : linked_by ex_processors ex_procs.
Proof.
  assert (L1 : linked_by (ex_link no_processors 100 5 [7; 0] 1) [(1, mkProcess (Some [7]) 100 0 5)]).
  { apply (linked_link no_processors [] 100 0 5 [7; 0] 1 1); [constructor| |vm_compute; reflexivity].
    unfold link_legal. split; [done|]. split; [done|]. split; [apply not_elem_of_nil|]. by vm_compute. }
  assert (L2 : linked_by (ex_link (ex_link no_processors 100 5 [7; 0] 1) 101 (-1) [0] 2)
                 [(1, mkProcess (Some [7]) 100 0 5); (2, mkProcess None 101 0 (-1))]).
  { apply (linked_link _ _ 101 0 (-1) [0] 2 2 _ L1); [|vm_compute; reflexivity].
    unfold link_legal. split; [done|]. split; [done|].
    split; [by apply (bool_decide_unpack _)|]. by vm_compute. }
  apply (linked_link _ _ 102 0 5 [-1] 3 3 _ L2); [|vm_compute; reflexivity].
  unfold link_legal. split; [done|]. split; [done|].
  split; [by apply (bool_decide_unpack _)|]. by vm_compute.
Qed.

Lemma dispatch_by_priority_witness :
  linked_by ex_processors ex_procs /\
  silc_packet_dispatch (fun o => bool_decide (o = Some 2)) 8 ex_processors =
    Some ([Some 3; None; Some 2], true).
Proof.
  split; [exact ex_linked|].
  exact (proj1 (proj2 (dispatch_by_priority ex_processors ex_procs ex_linked))
           (fun o => bool_decide (o = Some 2)) 8).
Defined.
