(* ===== verification/IDCache.v ===== *)
(** * ID cache ([lib/silcapputil/silcidcache.c], [silcidcache.h])

    The cache the server and the client keep their clients, servers and
    channels in: entries found by ID, by name and by context through three hash
    tables.  Entries are addresses in a heap.  Keys are the IDs and names that
    the pointers in an entry lead to, which only the cache changes; the caller's
    memory, and whether an old name is freed, are left out.  A call with a NULL
    cache returns FALSE or NULL at once and is left out too. *)

From stdpp Require Import gmap.
From S2P Require Import Prelude CTypes SilcID HashTable HashFun Lists.

(** ** Data *)

(** [struct SilcIDCacheEntryStruct], its link for result lists apart; [None] is
    NULL. *)
Record SilcIDCacheEntry := mkEntry {
  e_id : option id_ptr;
  e_name : option (list Z);
  e_context : option Z
}.

(** [struct SilcIDCacheStruct]; the tables map to addresses of entries. *)
Record SilcIDCache := mkCache {
  id_table : SilcHashTable id_ptr Z Z unit;
  name_table : SilcHashTable (list Z) Z Z unit;
  context_table : SilcHashTable Z Z Z unit;
  ic_destructor : bool;
  ic_id_type : Z
}.

Abbreviation entries_heap := (gmap Z SilcIDCacheEntry).

Definition no_entry : SilcIDCacheEntry := mkEntry None None None.
Definition entry_at (h : entries_heap) (a : Z) : SilcIDCacheEntry := default no_entry (h !! a).

Definition set_id_table (c : SilcIDCache) t : SilcIDCache :=
  mkCache t (name_table c) (context_table c) (ic_destructor c) (ic_id_type c).
Definition set_name_table (c : SilcIDCache) t : SilcIDCache :=
  mkCache (id_table c) t (context_table c) (ic_destructor c) (ic_id_type c).
Definition set_context_table (c : SilcIDCache) t : SilcIDCache :=
  mkCache (id_table c) (name_table c) t (ic_destructor c) (ic_id_type c).

Definition silc_idcache_alloc (count id_type : Z) (destructor : bool) : option SilcIDCache :=
  match
    silc_hash_table_alloc count (Some silc_hash_id) (Some id_type) (Some silc_hash_id_compare)
      (Some id_type) None true,
    silc_hash_table_alloc count (Some silc_hash_utf8_string) None (Some silc_hash_utf8_compare)
      None None true,
    silc_hash_table_alloc count (Some silc_hash_ptr) None None None None true
  with
  | Some it, Some nt, Some ct => Some (mkCache it nt ct destructor id_type)
  | _, _, _ => None
  end.

(** The destructor calls the tables make when they are freed; the entries are
    not freed. *)
Definition silc_idcache_free (c : SilcIDCache) : list (unit * id_ptr * Z) * list (unit * list Z * Z) * list (unit * Z * Z) :=
  (silc_hash_table_free (id_table c), silc_hash_table_free (name_table c),
   silc_hash_table_free (context_table c)).

(** ** Finding one entry *)

Definition silc_idcache_find_by_id_one (c : SilcIDCache) (id : id_ptr) : option Z :=
  snd <$> silc_hash_table_find_ext (id_table c) id None None (Some silc_hash_id_compare_full)
            (Some (ic_id_type c)).

Definition silc_idcache_find_by_context (c : SilcIDCache) (context : Z) : option Z :=
  snd <$> silc_hash_table_find (context_table c) context.

Definition silc_idcache_find_by_name_one (c : SilcIDCache) (name : list Z) : option Z :=
  snd <$> silc_hash_table_find (name_table c) name.

(** ** Adding and deleting *)

Section Tables.
Context {K : Type} `{EqDecision K}.

(** [if (key) if (!silc_hash_table_add(table, key, c))] *)
Definition add_key (t : SilcHashTable K Z Z unit) (key : option K) (a : Z)
    : bool * SilcHashTable K Z Z unit :=
  match key with Some k => silc_hash_table_add t k a | None => (true, t) end.

(** [if (key) ret = silc_hash_table_del_by_context(table, key, c)] *)
Definition del_key (t : SilcHashTable K Z Z unit) (key : option K) (a : Z) (ret : bool)
    : bool * SilcHashTable K Z Z unit :=
  match key with
  | Some k => let '(ret, t, _) := silc_hash_table_del_by_context t k a in (ret, t)
  | None => (ret, t)
  end.
End Tables.

(** The keys of the entry out of the tables, and the result of the last
    deletion, FALSE if there was none. *)
Definition del_keys (c : SilcIDCache) (e : SilcIDCacheEntry) (a : Z) : bool * SilcIDCache :=
  let '(ret, nt) := del_key (name_table c) (e_name e) a false in
  let '(ret, ct) := del_key (context_table c) (e_context e) a ret in
  let '(ret, it) := del_key (id_table c) (e_id e) a ret in
  (ret, mkCache it nt ct (ic_destructor c) (ic_id_type c)).

(** The keys of the entry into the tables, up to the first that fails. *)
Definition add_keys (c : SilcIDCache) (e : SilcIDCacheEntry) (a : Z) : bool * SilcIDCache :=
  let '(ok, it) := add_key (id_table c) (e_id e) a in
  let c := set_id_table c it in
  if negb ok then (false, c)
  else
    let '(ok, nt) := add_key (name_table c) (e_name e) a in
    let c := set_name_table c nt in
    if negb ok then (false, c)
    else
      let '(ok, ct) := add_key (context_table c) (e_context e) a in
      (ok, set_context_table c ct).

Definition is_none {A} (x : option A) : bool := match x with None => true | Some _ => false end.

Definition silc_idcache_add (h : entries_heap) (c : SilcIDCache) (name : option (list Z))
    (id : option id_ptr) (context : option Z) (a : option Z) : entries_heap * SilcIDCache * option Z :=
  if is_none name && is_none id && is_none context then (h, c, None)
  else
    match a with
    | None => (h, c, None)
    | Some a =>
        let e := mkEntry id name context in
        let again := match id with Some i => negb (is_none (silc_idcache_find_by_id_one c i)) | None => false end in
        let '(ok, c) := if again then (false, c) else add_keys c e a in
        if ok then (<[a := e]> h, c, Some a)
        else (h, (del_keys c e a).2, None)
    end.

(** With the calls of the destructor. *)
Definition silc_idcache_del (h : entries_heap) (c : SilcIDCache) (a : Z) (app_context : Z)
    : entries_heap * SilcIDCache * bool * list (Z * Z) :=
  let '(ret, c) := del_keys c (entry_at h a) a in
  if ret then (delete a h, c, true, if ic_destructor c then [(a, app_context)] else [])
  else (h, c, false, []).

Definition silc_idcache_del_by_id (h : entries_heap) (c : SilcIDCache) (id : id_ptr) (app_context : Z)
    : entries_heap * SilcIDCache * bool * list (Z * Z) :=
  match silc_hash_table_find (id_table c) id with
  | None => (h, c, false, [])
  | Some (_, a) => silc_idcache_del h c a app_context
  end.

Definition silc_idcache_del_by_context (h : entries_heap) (c : SilcIDCache) (context app_context : Z)
    : entries_heap * SilcIDCache * bool * list (Z * Z) :=
  match silc_hash_table_find (context_table c) context with
  | None => (h, c, false, [])
  | Some (_, a) => silc_idcache_del h c a app_context
  end.

(** ** Updating and moving *)

(** The new ID is copied over the old one, by the type of the cache. *)
Definition copy_id (c : SilcIDCache) (old new_id : id_ptr) : id_ptr :=
  if (ic_id_type c =? SILC_ID_CLIENT) || (ic_id_type c =? SILC_ID_SERVER) ||
     (ic_id_type c =? SILC_ID_CHANNEL)
  then new_id else old.

Definition update_id (h : entries_heap) (c : SilcIDCache) (a : Z) (new_id : id_ptr)
    : entries_heap * SilcIDCache * bool :=
  let e := entry_at h a in
  let put id := mkEntry (Some id) (e_name e) (e_context e) in
  match e_id e with
  | Some old =>
      let '(ok, it, _) := silc_hash_table_del_by_context (id_table c) old a in
      if negb ok then (h, set_id_table c it, false)
      else
        let id := copy_id c old new_id in
        let '(ok, it) := silc_hash_table_add it id a in
        (<[a := put id]> h, set_id_table c it, ok)
  | None =>
      let '(ok, it) := silc_hash_table_add (id_table c) new_id a in
      (<[a := put new_id]> h, set_id_table c it, ok)
  end.

Definition update_name (h : entries_heap) (c : SilcIDCache) (a : Z) (new_name : list Z)
    : entries_heap * SilcIDCache * bool :=
  let e := entry_at h a in
  let '(ok, nt) := del_key (name_table c) (e_name e) a true in
  if negb ok then (h, set_name_table c nt, false)
  else
    let '(ok, nt) := silc_hash_table_add nt new_name a in
    (<[a := mkEntry (e_id e) (Some new_name) (e_context e)]> h, set_name_table c nt, ok).

Definition silc_idcache_update (h : entries_heap) (c : SilcIDCache) (a : Z) (new_id : option id_ptr)
    (new_name : option (list Z)) : entries_heap * SilcIDCache * bool :=
  let '(h, c, ok) :=
    match new_id with Some id => update_id h c a id | None => (h, c, true) end in
  if negb ok then (h, c, false)
  else match new_name with Some n => update_name h c a n | None => (h, c, true) end.

Definition silc_idcache_update_by_context (h : entries_heap) (c : SilcIDCache) (context : Z)
    (new_id : option id_ptr) (new_name : option (list Z)) : entries_heap * SilcIDCache * bool :=
  match silc_hash_table_find (context_table c) context with
  | None => (h, c, false)
  | Some (_, a) => silc_idcache_update h c a new_id new_name
  end.

(** The entry the tables have for the first key the entry has. *)
Definition find_entry (c : SilcIDCache) (e : SilcIDCacheEntry) : option Z :=
  match e_context e, e_name e, e_id e with
  | Some x, _, _ => snd <$> silc_hash_table_find (context_table c) x
  | None, Some n, _ => snd <$> silc_hash_table_find (name_table c) n
  | None, None, Some i => snd <$> silc_hash_table_find (id_table c) i
  | None, None, None => None
  end.

(** Failures of the additions are ignored. *)
Definition silc_idcache_move (h : entries_heap) (from_cache to_cache : SilcIDCache) (a : Z)
    : SilcIDCache * SilcIDCache * bool :=
  let e := entry_at h a in
  if negb (ic_id_type from_cache =? ic_id_type to_cache) then (from_cache, to_cache, false)
  else if negb (bool_decide (find_entry from_cache e = Some a)) then (from_cache, to_cache, false)
  else if match e_id e with
          | Some i => negb (is_none (silc_idcache_find_by_id_one to_cache i))
          | None => false
          end then (from_cache, to_cache, false)
  else
    let '(_, from_cache) := del_keys from_cache e a in
    let it := (add_key (id_table to_cache) (e_id e) a).2 in
    let nt := (add_key (name_table to_cache) (e_name e) a).2 in
    let ct := (add_key (context_table to_cache) (e_context e) a).2 in
    (from_cache, mkCache it nt ct (ic_destructor to_cache) (ic_id_type to_cache), true).

(** ** Finding many *)

(** [silc_idcache_get_all_foreach]; the heap has the links of the entries. *)
Definition silc_idcache_get_all_foreach {K} (s : gmap Z node * SilcList) (key : K) (context : option Z)
    : gmap Z node * SilcList :=
  match context with None => s | Some a => silc_list_add s.1 s.2 a end.

(** The list, with the links after it, and [None] for FALSE. *)
Definition result_list (s : gmap Z node * SilcList) : gmap Z node * option SilcList :=
  (s.1, if silc_list_count s.2 =? 0 then None else Some s.2).

Definition silc_idcache_get_all (links : gmap Z node) (c : SilcIDCache) : gmap Z node * option SilcList :=
  if silc_hash_table_count (id_table c) =? 0 then (links, None)
  else
    result_list (silc_hash_table_foreach (id_table c)
                   (Some (fun s k a => silc_idcache_get_all_foreach s k (Some a)))
                   (links, silc_list_init)).

Definition silc_idcache_find_by_id (links : gmap Z node) (c : SilcIDCache) (id : id_ptr)
    : gmap Z node * option SilcList :=
  if silc_hash_table_count (id_table c) =? 0 then (links, None)
  else
    result_list (silc_hash_table_find_foreach (id_table c) id silc_idcache_get_all_foreach
                   (links, silc_list_init)).

Definition silc_idcache_find_by_name (links : gmap Z node) (c : SilcIDCache) (name : list Z)
    : gmap Z node * option SilcList :=
  if silc_hash_table_count (name_table c) =? 0 then (links, None)
  else
    result_list (silc_hash_table_find_foreach (name_table c) name silc_idcache_get_all_foreach
                   (links, silc_list_init)).
