(* ===== verification/IDCacheThms.v ===== *)
(** * The ID cache is a set of entries

    The three tables of a cache index the same entries: every live entry is in
    the table of each key it has, once, and nothing else is in a table.  Every
    call keeps this, and does to the set of entries what it says. *)

From stdpp Require Import gmap.
From S2P Require Import Prelude CTypes SilcID HashTable HashFun Lists IDCache.

(** ** Tables *)

Section Tab.
Context {K : Type} `{EqDecision K} (f : HashTableFuns K Z unit) `{!FunsOk f}.
Implicit Types (t : SilcHashTable K Z Z unit) (l : list (K * Z)).

(** The table has the functions [f] and the entries [l]. *)
Definition tab t l : Prop := represents t l /\ funs t = f.

(** The entries that are not for [a]. *)
Definition drop_addr (a : Z) l : list (K * Z) := filter (fun q => q.2 <> a) l.

Lemma tab_ok t l : tab t l -> FunsOk (funs t).
Proof. by intros [_ ->]. Qed.

Lemma tab_add t l k a :
  tab t l -> zlen l < 4294967295 ->
  exists t', silc_hash_table_add t k a = (true, t') /\ tab t' (l ++ [(k, a)]).
Proof.
  intros T Hl. pose proof (tab_ok _ _ T). destruct T as [R F].
  destruct (step_ok (OpAdd k a) t l R Hl) as (E & R' & F'). cbn in E, R', F'.
  destruct (silc_hash_table_add t k a) as [ok t']. cbn in *. injection E as ->. exists t'.
  split; [done|]. split; [done|congruence].
Qed.

Lemma tab_find t l k :
  tab t l -> silc_hash_table_find t k = head (List.filter (key_of f k) l).
Proof.
  intros T. pose proof (tab_ok _ _ T). destruct T as [R F].
  unfold silc_hash_table_find, silc_hash_table_find_ext, silc_hash_table_find_internal_simple.
  rewrite <- (chain_entries t k (key_of f k) l R) by (unfold of_key; rewrite F; by intros ?).
  pose proof (chain_find_spec (key_of f k) (chain t (own_hash t k))) as S.
  cbn [or_else]. change (default (hash (funs t)) None) with (hash (funs t)). fold (own_hash t k).
  rewrite (chain_find_ext _ (key_of f k)) by (by rewrite F).
  destruct (chain_find _ _) as [b r]. by destruct S as (_ & _ & S).
Qed.

(** Entries are found again, and deleted alone, by a key and an address. *)
Lemma tab_del t l k a :
  tab t l -> zlen l < 4294967295 -> NoDup l.*2 ->
  (k, a) ∈ l \/ a ∉ l.*2 ->
  exists t' log, silc_hash_table_del_by_context t k a = (bool_decide ((k, a) ∈ l), t', log) /\
    tab t' (drop_addr a l).
Proof.
  intros T Hl Hd Hin. pose proof (tab_ok _ _ T). destruct T as [R F].
  destruct (step_ok (OpDelContext k a) t l R Hl) as (E & R' & F').
  cbn [run_op spec_op spec_del fst snd] in E, R', F'.
  destruct (silc_hash_table_del_by_context t k a) as [[ok t'] log]. cbn [fst snd] in *. exists t', log.
  rewrite F in *. set (p := key_context f k a) in *.
  assert (remove_first p l = drop_addr a l /\ (List.filter p l = [] <-> (k, a) ∉ l)) as [Er Ef].
  { clear -Hd Hin FunsOk0. subst p. unfold drop_addr. induction l as [|[x b] l IH]; [split; [done|]; split; [intros _; apply not_elem_of_nil|done]|].
    cbn [fmap list_fmap] in Hd, Hin. apply list.NoDup_cons in Hd as [Hb Hd].
    cbn [remove_first List.filter]. unfold key_context at 1 3, key_of at 1 2. cbn [fst snd].
    rewrite list.filter_cons. cbn [snd].
    destruct (decide (b = a)) as [->|Hne].
    - assert (Hx : (x, a) = (k, a)).
      { destruct Hin as [Hin|Hin]; [|by destruct Hin; left].
        apply elem_of_cons in Hin as [->|Hin]; [done|]. destruct Hb.
        apply list_elem_of_fmap. by exists (k, a). }
      injection Hx as ->. rewrite same_refl, bool_decide_true by done. cbn [andb].
      rewrite decide_False by tauto.
      split; [|split; [done|intros N; destruct N; left]].
      clear -Hb. induction l as [|[y c] l IH]; [done|]. cbn [fmap list_fmap] in Hb.
      apply not_elem_of_cons in Hb as [H1 H2]. cbn in H1. rewrite list.filter_cons, decide_True by (cbn; auto).
      by rewrite <- IH.
    - rewrite bool_decide_false, andb_false_r by done. rewrite decide_True by done.
      destruct IH as [IH1 IH2]; [done| |].
      + destruct Hin as [Hin|Hin]; [|right; intros H; apply Hin; by right].
        apply elem_of_cons in Hin as [Hin|Hin]; [congruence|by left].
      + rewrite IH1, IH2, not_elem_of_cons. split; [done|]. split; [|by intros [_ ?]]. intros ?.
        split; [|done]. intros [= _ E]. by apply Hne. }
  split; [|split; [by rewrite <- Er|congruence]].
  assert (Eok : ok = bool_decide ((k, a) ∈ l)); [|by rewrite Eok].
  destruct (List.filter p l) as [|e es] eqn:G; injection E as -> _.
  - rewrite bool_decide_false; [done|]. by apply Ef.
  - rewrite bool_decide_true; [done|]. apply dec_stable. intros N. by apply Ef in N.
Qed.
End Tab.

(** ** Indexes *)

Section Index.
Context {K : Type} (key_at : SilcIDCacheEntry -> option K).
Implicit Types (m : entries_heap) (l : list (K * Z)).

(** Every entry is listed under its key, once, and nothing else is. *)
Definition indexes m l : Prop :=
  NoDup l.*2 /\ forall k a, (k, a) ∈ l <-> exists e, m !! a = Some e /\ key_at e = Some k.

Definition listed (key : option K) (a : Z) : list (K * Z) :=
  match key with Some k => [(k, a)] | None => [] end.

Lemma in_snd l a : a ∈ l.*2 <-> exists k, (k, a) ∈ l.
Proof.
  rewrite list_elem_of_fmap. split; [intros ([k b] & -> & H); by exists k|].
  intros [k H]. by exists (k, a).
Qed.

Lemma drop_in a l k b : (k, b) ∈ drop_addr a l <-> b <> a /\ (k, b) ∈ l.
Proof. unfold drop_addr. by rewrite list_elem_of_filter. Qed.

Lemma drop_nodup a l : NoDup l.*2 -> NoDup (drop_addr a l).*2.
Proof.
  unfold drop_addr. induction l as [|[k b] l IH]; intros Hd; [done|]. cbn [fmap list_fmap] in Hd.
  apply list.NoDup_cons in Hd as [Hb Hd]. rewrite list.filter_cons. case_decide; [|auto].
  cbn [fmap list_fmap]. apply list.NoDup_cons. split; [|auto]. cbn [snd]. intros (k' & H')%in_snd.
  apply drop_in in H' as [_ H']. apply Hb, in_snd. by exists k'.
Qed.

Lemma drop_absent a l : a ∉ l.*2 -> drop_addr a l = l.
Proof.
  unfold drop_addr. induction l as [|[k b] l IH]; cbn [fmap list_fmap]; intros Ha; [done|].
  apply not_elem_of_cons in Ha as [H1 H2]. rewrite list.filter_cons, decide_True by (cbn in *; congruence).
  by rewrite IH.
Qed.

Lemma index_none m l a : indexes m l -> (forall e, m !! a = Some e -> key_at e = None) -> a ∉ l.*2.
Proof.
  intros [_ H] N [k Hk]%in_snd. apply H in Hk as (e & E & Ek). by rewrite (N e E) in Ek.
Qed.

Lemma index_del m l a : indexes m l -> indexes (delete a m) (drop_addr a l).
Proof.
  intros [Hd H]. split; [by apply drop_nodup|]. intros k b. rewrite drop_in, H. split.
  - intros [Hne (e & E & Ek)]. exists e. by rewrite lookup_delete_ne by done.
  - intros (e & E & Ek). rewrite lookup_delete in E. case_decide; [done|]. split; [done|]. by exists e.
Qed.

Lemma index_set m l a e :
  indexes m l -> indexes (<[a := e]> m) (drop_addr a l ++ listed (key_at e) a).
Proof.
  intros [Hd H]. split.
  - rewrite fmap_app. apply list.NoDup_app. split; [by apply drop_nodup|]. split.
    + intros b (k & Hk)%in_snd Hb. apply drop_in in Hk as [Hne _].
      destruct (key_at e); cbn in Hb; [|by apply not_elem_of_nil in Hb].
      by apply list_elem_of_singleton in Hb.
    + destruct (key_at e); cbn; [apply NoDup_singleton|apply NoDup_nil_2].
  - intros k b. rewrite elem_of_app, drop_in, H. split.
    + intros [[Hne (e' & E & Ek)]|Hb]; [exists e'; by rewrite lookup_insert_ne by done|].
      exists e. destruct (key_at e) as [k'|]; cbn in Hb; [|by apply not_elem_of_nil in Hb].
      apply list_elem_of_singleton in Hb as [= -> ->]. by rewrite lookup_insert_eq.
    + intros (e' & E & Ek). rewrite lookup_insert in E. case_decide as Hab.
      * injection E as <-. right. rewrite Ek. cbn. subst. by apply list_elem_of_singleton.
      * left. split; [done|]. by exists e'.
Qed.

(** Setting what the entry has already. *)
Lemma index_keep m l a e e' :
  indexes m l -> m !! a = Some e -> key_at e' = key_at e -> indexes (<[a := e']> m) l.
Proof.
  intros [Hd H] E Ek. split; [done|]. intros k b. rewrite H. split; intros (x & Ex & Hx).
  - destruct (decide (b = a)) as [->|Hne].
    + exists e'. rewrite lookup_insert_eq. split; [done|]. congruence.
    + exists x. by rewrite lookup_insert_ne by done.
  - rewrite lookup_insert in Ex. case_decide; [|by exists x]. injection Ex as <-. subst. exists e.
    by rewrite <- Ek.
Qed.

Lemma index_size m l : indexes m l -> zlen l <= Z.of_nat (size m).
Proof.
  intros [Hd H]. assert (Hs : list_to_set l.*2 ⊆ dom m).
  { intros a Ha. apply elem_of_list_to_set, in_snd in Ha as [k Hk].
    apply H in Hk as (e & E & _). by apply elem_of_dom_2 in E. }
  apply subseteq_size in Hs. rewrite size_list_to_set, length_fmap, size_dom in Hs by done.
  unfold zlen. lia.
Qed.

Lemma index_addr m l k a b : indexes m l -> (k, a) ∈ l -> (b, a) ∈ l -> k = b.
Proof.
  intros [_ H] H1 H2. apply H in H1 as (e & E & E1). apply H in H2 as (e' & E' & E2). congruence.
Qed.
End Index.

(** ** The invariant of a cache *)

(** The entries [m] are in the tables of the cache. *)
Record cache_ok (m : entries_heap) (c : SilcIDCache) : Prop := mkCacheOk {
  ck_id : exists l, tab (id_funs (ic_id_type c) None) (id_table c) l /\ indexes e_id m l;
  ck_name : exists l, tab (name_funs None) (name_table c) l /\ indexes e_name m l;
  ck_context : exists l, tab (ptr_funs None) (context_table c) l /\ indexes e_context m l
}.

(** No two entries have the same ID. *)
Definition unique_ids (m : entries_heap) : Prop :=
  forall a b e e' i, m !! a = Some e -> m !! b = Some e' -> e_id e = Some i -> e_id e' = Some i -> a = b.

Definition id_taken (m : entries_heap) (i : id_ptr) : Prop :=
  exists a e, m !! a = Some e /\ e_id e = Some i.

(** A table that indexes [m] is changed with it. *)
Section TabIndex.
Context {K : Type} `{EqDecision K} (f : HashTableFuns K Z unit) `{!FunsOk f}.
Context (key_at : SilcIDCacheEntry -> option K).
Implicit Types (t : SilcHashTable K Z Z unit).

Definition table_for (m : entries_heap) t : Prop := exists l, tab f t l /\ indexes key_at m l.

(** The key of a live entry is found and deleted. *)
Lemma table_del m t a e ret :
  table_for m t -> Z.of_nat (size m) < 4294967295 -> m !! a = Some e ->
  exists t', del_key t (key_at e) a ret = (ret || negb (is_none (key_at e)), t') /\ table_for (delete a m) t' /\
    (forall e', key_at e' = None -> table_for (<[a := e']> m) t').
Proof.
  intros (l & T & X) Hm Ha. pose proof (index_size _ _ _ X).
  assert (Hset : forall e', key_at e' = None -> indexes key_at (<[a := e']> m) (drop_addr a l)).
  { intros e' E'. pose proof (index_set _ m l a e' X) as X'. rewrite E' in X'. by rewrite app_nil_r in X'. }
  unfold del_key. destruct (key_at e) as [k|] eqn:Ek; cbn [is_none negb].
  - assert (Hk : (k, a) ∈ l) by (apply X; by exists e).
    destruct (tab_del f t l k a T ltac:(lia) (proj1 X) (or_introl Hk)) as (t' & log & E & T').
    rewrite E, bool_decide_true, orb_true_r by done. exists t'. split; [done|].
    split; [|intros e' E']; exists (drop_addr a l); split; auto. by apply index_del.
  - rewrite orb_false_r. exists t. split; [done|].
    assert (Hn : a ∉ l.*2) by (eapply index_none; [exact X|]; intros ? E; congruence).
    split; [|intros e' E']; exists l; (split; [done|]); rewrite <- (drop_absent a l) by done;
      [by apply index_del|auto].
Qed.

Lemma table_put m t a e :
  table_for m t -> Z.of_nat (size m) < 4294967295 -> (forall e', m !! a = Some e' -> key_at e' = None) ->
  exists t', add_key t (key_at e) a = (true, t') /\ table_for (<[a := e]> m) t'.
Proof.
  intros (l & T & X) Hm Ha. pose proof (index_size _ _ _ X). pose proof (index_set _ m l a e X) as X'.
  rewrite drop_absent in X' by (eapply index_none; [exact X|done]).
  unfold add_key. destruct (key_at e) as [k|].
  - destruct (tab_add f t l k a T ltac:(lia)) as (t' & E & T'). exists t'. split; [done|]. by exists (l ++ [(k, a)]).
  - exists t. split; [done|]. exists l. by rewrite app_nil_r in X'.
Qed.

Lemma table_add m t a e :
  table_for m t -> Z.of_nat (size m) < 4294967295 -> m !! a = None ->
  exists t', add_key t (key_at e) a = (true, t') /\ table_for (<[a := e]> m) t'.
Proof. intros T Hm Ha. apply table_put; [done|done|]. by rewrite Ha. Qed.

Lemma table_keep m t a e e' :
  table_for m t -> m !! a = Some e -> key_at e' = key_at e -> table_for (<[a := e']> m) t.
Proof. intros (l & T & X) Ha E. exists l. split; [done|]. by eapply index_keep. Qed.

(** Another key for a live entry: [e0] is the entry without it. *)
Lemma table_change m t a e e0 e1 :
  table_for m t -> Z.of_nat (size m) < 4294967295 -> m !! a = Some e -> key_at e0 = None ->
  exists t1 t2, del_key t (key_at e) a true = (true, t1) /\
    add_key t1 (key_at e1) a = (true, t2) /\ table_for (<[a := e1]> m) t2.
Proof.
  intros T Hm Ha H0. destruct (table_del m t a e true T Hm Ha) as (t1 & E1 & _ & K1).
  specialize (K1 e0 H0).
  destruct (table_put (<[a := e0]> m) t1 a e1 K1) as (t2 & E2 & T2).
  - rewrite map_size_insert_Some by by eexists. done.
  - intros e'. rewrite lookup_insert_eq. by intros [= <-].
  - exists t1, t2. split; [by rewrite E1|]. split; [done|]. by rewrite insert_insert_eq in T2.
Qed.

(** Deleting what is not there changes nothing. *)
Lemma table_del_absent m t a k ret :
  table_for m t -> Z.of_nat (size m) < 4294967295 -> m !! a = None ->
  exists ret' t', del_key t k a ret = (ret', t') /\ table_for m t'.
Proof.
  intros (l & T & X) Hm Ha. pose proof (index_size _ _ _ X). unfold del_key.
  destruct k as [k|]; [|exists ret, t; split; [done|]; by exists l].
  assert (Hn : a ∉ l.*2) by (eapply index_none; [exact X|]; intros ? E; congruence).
  destruct (tab_del f t l k a T ltac:(lia) (proj1 X) (or_intror Hn)) as (t' & log & E & T').
  rewrite E. eexists _, t'. split; [done|]. exists l. by rewrite drop_absent in T'.
Qed.

(** What finding by a key returns. *)
Lemma table_find m t k :
  table_for m t ->
  match silc_hash_table_find t k with
  | Some (_, a) => exists e k', m !! a = Some e /\ key_at e = Some k' /\ same f k' k = true
  | None => forall a e k', m !! a = Some e -> key_at e = Some k' -> same f k' k = false
  end.
Proof.
  intros (l & T & X). rewrite (tab_find f t l k T).
  destruct (List.filter (key_of f k) l) as [|[k' a] es] eqn:E; cbn [head].
  - intros a e k' Ha Hk. assert (Hin : (k', a) ∈ l) by (apply X; by exists e).
    destruct (same f k' k) eqn:S; [|done]. exfalso.
    assert (Hf : In (k', a) (List.filter (key_of f k) l)) by (apply List.filter_In; split; [by apply list_elem_of_In|done]).
    by rewrite E in Hf.
  - assert (Hf : In (k', a) (List.filter (key_of f k) l)) by (rewrite E; by left).
    apply List.filter_In in Hf as [Hf S]. apply list_elem_of_In, X in Hf as (e & He & Hk).
    by exists e, k'.
Qed.
End TabIndex.

Lemma find_one_spec m c i :
  cache_ok m c ->
  match silc_idcache_find_by_id_one c i with
  | Some a => exists e, m !! a = Some e /\ e_id e = Some i
  | None => ~ id_taken m i
  end.
Proof.
  intros [(l & [R F] & X) _ _]. set (f := id_funs (ic_id_type c) None) in *.
  unfold silc_idcache_find_by_id_one, silc_hash_table_find_ext, silc_hash_table_find_internal_simple.
  cbn [or_else]. change (default (hash (funs (id_table c))) None) with (hash (funs (id_table c))).
  fold (own_hash (id_table c) i). set (p := fun e : id_ptr * Z => bool_decide (e.1 = i)).
  assert (Hp : of_key (id_table c) i p).
  { intros e He. apply bool_decide_eq_true in He. unfold key_of. rewrite F, He. apply same_refl. }
  assert (FunsOk (funs (id_table c))) by (rewrite F; apply id_funs_ok).
  rewrite (chain_find_ext _ p) by (intros; reflexivity).
  pose proof (chain_find_spec p (chain (id_table c) (own_hash (id_table c) i))) as S.
  destruct (chain_find _ _) as [b r]. destruct S as (_ & _ & S). cbn [snd].
  rewrite (chain_entries _ i p l R Hp) in S. rewrite S.
  destruct (List.filter p l) as [|[k a] es] eqn:E; cbn [head fmap option_fmap option_map].
  - intros (a & e & Ha & Hi). assert (Hin : (i, a) ∈ l) by (apply X; by exists e).
    assert (Hf : In (i, a) (List.filter p l)).
    { apply List.filter_In. split; [by apply list_elem_of_In|]. unfold p. cbn. by apply bool_decide_eq_true. }
    by rewrite E in Hf.
  - assert (Hf : In (k, a) (List.filter p l)) by (rewrite E; by left).
    apply List.filter_In in Hf as [Hf S']. apply bool_decide_eq_true in S'. cbn in S'. subst k.
    apply list_elem_of_In, X in Hf as (e & He & Hk). by exists e.
Qed.

(** All keys of an entry in or out of the tables. *)
Lemma add_keys_ok m c a e :
  cache_ok m c -> Z.of_nat (size m) < 4294967295 -> m !! a = None ->
  exists c', add_keys c e a = (true, c') /\ cache_ok (<[a := e]> m) c' /\
    ic_id_type c' = ic_id_type c /\ ic_destructor c' = ic_destructor c.
Proof.
  intros [C1 C2 C3] Hm Ha. unfold add_keys.
  destruct (table_add _ e_id m _ a e C1 Hm Ha) as (it & -> & C1'). cbn [negb name_table set_id_table].
  destruct (table_add _ e_name m _ a e C2 Hm Ha) as (nt & -> & C2').
  cbn [negb context_table set_name_table set_id_table].
  destruct (table_add _ e_context m _ a e C3 Hm Ha) as (ct & -> & C3').
  eexists. split; [done|]. by split.
Qed.

Lemma del_keys_ok m c a e :
  cache_ok m c -> Z.of_nat (size m) < 4294967295 -> m !! a = Some e ->
  exists c', del_keys c e a =
      (negb (is_none (e_name e) && is_none (e_id e) && is_none (e_context e)), c') /\
    cache_ok (delete a m) c' /\ ic_id_type c' = ic_id_type c /\ ic_destructor c' = ic_destructor c.
Proof.
  intros [C1 C2 C3] Hm Ha. unfold del_keys.
  destruct (table_del _ e_name m _ a e false C2 Hm Ha) as (nt & -> & C2' & _).
  destruct (table_del _ e_context m _ a e (false || negb (is_none (e_name e))) C3 Hm Ha) as (ct & -> & C3' & _).
  match goal with |- context [del_key (id_table c) _ _ ?r] =>
    destruct (table_del _ e_id m _ a e r C1 Hm Ha) as (it & -> & C1' & _) end.
  exists (mkCache it nt ct (ic_destructor c) (ic_id_type c)). split; [|by split].
  f_equal. by destruct (e_name e), (e_id e), (e_context e).
Qed.

Lemma del_keys_absent m c a e :
  cache_ok m c -> Z.of_nat (size m) < 4294967295 -> m !! a = None ->
  cache_ok m (del_keys c e a).2.
Proof.
  intros [C1 C2 C3] Hm Ha. unfold del_keys.
  destruct (table_del_absent _ e_name m _ a (e_name e) false C2 Hm Ha) as (r1 & nt & -> & C2').
  destruct (table_del_absent _ e_context m _ a (e_context e) r1 C3 Hm Ha) as (r2 & ct & -> & C3').
  destruct (table_del_absent _ e_id m _ a (e_id e) r2 C1 Hm Ha) as (r3 & it & -> & C1').
  by split.
Qed.

(** ** The calls *)

Inductive call :=
  | CAdd (name : option (list Z)) (id : option id_ptr) (context : option Z) (a : option Z)
  | CDel (a : Z) | CDelId (id : id_ptr) | CDelContext (context : Z)
  | CUpdate (a : Z) (new_id : option id_ptr) (new_name : option (list Z))
  | CUpdateContext (context : Z) (new_id : option id_ptr) (new_name : option (list Z))
  | CFindId (id : id_ptr) | CFindContext (context : Z) | CFindName (name : list Z).

(** An entry, or a boolean with the destructor calls. *)
Inductive result := REntry (a : option Z) | RBool (b : bool) (destroyed : list (Z * Z)).

Definition run_call (h : entries_heap) (c : SilcIDCache) (x : call) : entries_heap * SilcIDCache * result :=
  let del '(h, c, b, log) := (h, c, RBool b log) in
  let upd '(h, c, b) := (h, c, RBool b []) in
  match x with
  | CAdd name id context a =>
      let '(h, c, r) := silc_idcache_add h c name id context a in (h, c, REntry r)
  | CDel a => del (silc_idcache_del h c a 0)
  | CDelId id => del (silc_idcache_del_by_id h c id 0)
  | CDelContext x => del (silc_idcache_del_by_context h c x 0)
  | CUpdate a i n => upd (silc_idcache_update h c a i n)
  | CUpdateContext x i n => upd (silc_idcache_update_by_context h c x i n)
  | CFindId id => (h, c, REntry (silc_idcache_find_by_id_one c id))
  | CFindContext x => (h, c, REntry (silc_idcache_find_by_context c x))
  | CFindName n => (h, c, REntry (silc_idcache_find_by_name_one c n))
  end.

(** What the entry becomes. *)
Definition updated (e : SilcIDCacheEntry) (new_id : option id_ptr) (new_name : option (list Z))
    : SilcIDCacheEntry :=
  mkEntry (or_else new_id (e_id e)) (or_else new_name (e_name e)) (e_context e).

Section Spec.
Context (type : Z) (destructor : bool).

(** An entry with the key [k], by the equality [eq], and none. *)
Definition has {K} (key_at : SilcIDCacheEntry -> option K) (eq : K -> Prop) (m : entries_heap) (a : Z) : Prop :=
  exists e k, m !! a = Some e /\ key_at e = Some k /\ eq k.

Definition destroyed (a : Z) : list (Z * Z) := if destructor then [(a, 0)] else [].

(** The entry that is found is one that has the key. *)
Definition found {K} (key_at : SilcIDCacheEntry -> option K) (eq : K -> Prop) (m : entries_heap)
    (r : option Z) : Prop :=
  match r with Some a => has key_at eq m a | None => forall a, ~ has key_at eq m a end.

(** The calls on the set of entries: [m] before, [m'] and the result after. *)
Definition spec_call (m : entries_heap) (x : call) (m' : entries_heap) (r : result) : Prop :=
  match x with
  | CAdd name id context a =>
      let given := negb (is_none name && is_none id && is_none context) in
      match a with
      | Some a =>
          given = true /\ (forall i, id = Some i -> ~ id_taken m i) /\
            m' = <[a := mkEntry id name context]> m /\ r = REntry (Some a) \/
          (given = false \/ exists i, id = Some i /\ id_taken m i) /\ m' = m /\ r = REntry None
      | None => m' = m /\ r = REntry None
      end
  | CDel a => m' = delete a m /\ r = RBool true (destroyed a)
  | CDelId i =>
      exists o, found e_id (fun k => id_class type k = id_class type i) m o /\
        match o with
        | Some a => m' = delete a m /\ r = RBool true (destroyed a)
        | None => m' = m /\ r = RBool false []
        end
  | CDelContext x =>
      exists o, found e_context (eq x) m o /\
        match o with
        | Some a => m' = delete a m /\ r = RBool true (destroyed a)
        | None => m' = m /\ r = RBool false []
        end
  | CUpdate a i n =>
      exists e, m !! a = Some e /\ m' = <[a := updated e i n]> m /\ r = RBool true []
  | CUpdateContext x i n =>
      exists o, found e_context (eq x) m o /\
        match o with
        | Some a => exists e, m !! a = Some e /\ m' = <[a := updated e i n]> m /\ r = RBool true []
        | None => m' = m /\ r = RBool false []
        end
  | CFindId i => m' = m /\ exists o, r = REntry o /\ found e_id (eq i) m o
  | CFindContext x => m' = m /\ exists o, r = REntry o /\ found e_context (eq x) m o
  | CFindName n => m' = m /\ exists o, r = REntry o /\ found e_name (fun k => c_string k = c_string n) m o
  end.
End Spec.

(** What the interface asks for: new memory for a new entry, live entries, and
    new IDs that no other entry has. *)
Definition legal_call (m : entries_heap) (x : call) : Prop :=
  Z.of_nat (size m) < 4294967295 /\
  match x with
  | CAdd _ _ _ (Some a) => m !! a = None
  | CDel a => is_Some (m !! a)
  | CUpdate a i _ => is_Some (m !! a) /\ forall j, i = Some j -> ~ id_taken m j
  | CUpdateContext _ i _ => forall j, i = Some j -> ~ id_taken m j
  | _ => True
  end.

(** ** Every call does what the specification says *)

Lemma same_eq_id type k k' : same (id_funs (D := unit) type None) k k' = true <-> id_class type k = id_class type k'.
Proof. unfold same. cbn. rewrite id_compare_class. apply bool_decide_eq_true. Qed.

Lemma same_eq_name k k' : same (name_funs (U := Z) (D := unit) None) k k' = true <-> c_string k = c_string k'.
Proof. unfold same. cbn. rewrite utf8_compare_eq. apply bool_decide_eq_true. Qed.

Lemma same_eq_context k k' : same (ptr_funs (U := Z) (D := unit) None) k k' = true <-> k' = k.
Proof. unfold same. cbn. rewrite bool_decide_eq_true. split; congruence. Qed.

Lemma found_table {K} `{EqDecision K} (f : HashTableFuns K Z unit) `{!FunsOk f} key_at (eqk : K -> Prop) m t k :
  table_for f key_at m t -> (forall k', same f k' k = true <-> eqk k') ->
  found key_at eqk m (snd <$> silc_hash_table_find t k).
Proof.
  intros T E. pose proof (table_find f key_at m t k T) as F.
  destruct (silc_hash_table_find t k) as [[x a]|]; cbn.
  - destruct F as (e & k' & H1 & H2 & H3). exists e, k'. split; [done|]. split; [done|]. by apply E.
  - intros a (e & k' & H1 & H2 & H3). apply E in H3. by rewrite (F a e k' H1 H2) in H3.
Qed.

Lemma find_context_found m c x : cache_ok m c ->
  found e_context (eq x) m (snd <$> silc_hash_table_find (context_table c) x).
Proof.
  intros [_ _ C]. apply (found_table (ptr_funs None)); [exact C|]. intros. apply same_eq_context.
Qed.

Lemma find_id_found m c i : cache_ok m c ->
  found e_id (fun k => id_class (ic_id_type c) k = id_class (ic_id_type c) i) m
    (snd <$> silc_hash_table_find (id_table c) i).
Proof.
  intros [C _ _]. apply (found_table (id_funs (ic_id_type c) None)); [exact C|]. intros. apply same_eq_id.
Qed.

Lemma find_name_found m c n : cache_ok m c ->
  found e_name (fun k => c_string k = c_string n) m (snd <$> silc_hash_table_find (name_table c) n).
Proof.
  intros [_ C _]. apply (found_table (name_funs None)); [exact C|]. intros. apply same_eq_name.
Qed.

(** Between calls: the tables index the entries, an entry has a key, IDs are not
    shared, and the ID type is one of the three. *)
Record cache_inv (m : entries_heap) (c : SilcIDCache) : Prop := mkCacheInv {
  ci_ok : cache_ok m c;
  ci_unique : unique_ids m;
  ci_keyed : forall a e, m !! a = Some e -> e_name e = None -> e_id e = None -> e_context e = None -> False;
  ci_type : ic_id_type c = SILC_ID_CLIENT \/ ic_id_type c = SILC_ID_SERVER \/ ic_id_type c = SILC_ID_CHANNEL
}.

(** The simulation of one call. *)
Definition simulates (c : SilcIDCache) (m : entries_heap) (x : call) (m' : entries_heap) (c' : SilcIDCache)
    (r : result) : Prop :=
  spec_call (ic_id_type c) (ic_destructor c) m x m' r /\ cache_inv m' c' /\
  ic_id_type c' = ic_id_type c /\ ic_destructor c' = ic_destructor c.

Lemma delete_inv m c c' a :
  cache_inv m c -> cache_ok (delete a m) c' -> ic_id_type c' = ic_id_type c -> cache_inv (delete a m) c'.
Proof.
  intros [_ U Ky T] C E. split; [done| | |by rewrite E].
  - intros b b' e e' i Hb Hb'. apply lookup_delete_Some in Hb as [_ Hb], Hb' as [_ Hb']. by apply (U b b' e e' i).
  - intros b e Hb. apply lookup_delete_Some in Hb as [_ Hb]. by apply (Ky b).
Qed.

Lemma set_inv m c c' a e :
  cache_inv m c -> cache_ok (<[a := e]> m) c' -> ic_id_type c' = ic_id_type c ->
  (forall b e' i, b <> a -> m !! b = Some e' -> e_id e' = Some i -> e_id e <> Some i) ->
  (e_name e = None -> e_id e = None -> e_context e = None -> False) ->
  cache_inv (<[a := e]> m) c'.
Proof.
  intros [_ U Ky T] C E N K'. split; [done| | |by rewrite E].
  - intros b b' x x' i Hb Hb' Hx Hx'. rewrite lookup_insert in Hb, Hb'.
    destruct (decide (a = b)) as [H1|H1], (decide (a = b')) as [H2|H2]; [congruence| | |].
    + injection Hb as <-. by destruct (N b' x' i).
    + injection Hb' as <-. by destruct (N b x i).
    + by apply (U b b' x x' i).
  - intros b x Hb. rewrite lookup_insert in Hb. case_decide; [by injection Hb as <-|by apply (Ky b)].
Qed.

Lemma sim_del m c a :
  cache_inv m c -> Z.of_nat (size m) < 4294967295 -> is_Some (m !! a) ->
  exists c', silc_idcache_del m c a 0 = (delete a m, c', true, destroyed (ic_destructor c) a) /\
    cache_inv (delete a m) c' /\ ic_id_type c' = ic_id_type c /\ ic_destructor c' = ic_destructor c.
Proof.
  intros I Hm [e He]. destruct (del_keys_ok m c a e (ci_ok _ _ I) Hm He) as (c' & E & C & T & D).
  unfold silc_idcache_del, entry_at. rewrite He. change (default no_entry (Some e)) with e. rewrite E.
  assert (negb (is_none (e_name e) && is_none (e_id e) && is_none (e_context e)) = true) as ->.
  { pose proof (ci_keyed _ _ I a e He). destruct (e_name e), (e_id e), (e_context e); try done. by destruct H. }
  exists c'. split; [by rewrite D|]. split; [by eapply delete_inv|done].
Qed.

Lemma sim_add m c name id context a :
  cache_inv m c -> legal_call m (CAdd name id context a) ->
  let '(m', c', r) := silc_idcache_add m c name id context a in
  simulates c m (CAdd name id context a) m' c' (REntry r).
Proof.
  intros I [Hm L]. unfold silc_idcache_add, simulates. cbn [spec_call].
  destruct (is_none name && is_none id && is_none context) eqn:G; cbn [negb].
  { split; [|done]. destruct a; [|done]. right. by split; [left|]. }
  destruct a as [a|]; [|done]. pose proof (ci_ok _ _ I) as C. set (e := mkEntry id name context).
  assert (Hid : match id with Some i => negb (is_none (silc_idcache_find_by_id_one c i)) | None => false end = true
    -> exists i, id = Some i /\ id_taken m i).
  { destruct id as [i|]; [|done]. pose proof (find_one_spec m c i C) as F.
    destruct (silc_idcache_find_by_id_one c i) as [b|]; [|done]. intros _. exists i. split; [done|]. by exists b. }
  assert (Hfree : match id with Some i => negb (is_none (silc_idcache_find_by_id_one c i)) | None => false end = false
    -> forall i, id = Some i -> ~ id_taken m i).
  { intros Hf i ->. pose proof (find_one_spec m c i C) as F.
    by destruct (silc_idcache_find_by_id_one c i) as [b|]. }
  destruct (match id with Some i => negb (is_none (silc_idcache_find_by_id_one c i)) | None => false end).
  - specialize (Hid eq_refl). split; [right; by split; [right|]|].
    split; [|by unfold del_keys; destruct (del_key _ _ _ _), (del_key _ _ _ _), (del_key _ _ _ _)].
    destruct I as [_ U Ky T]. split; try done; [by apply del_keys_absent|].
    by unfold del_keys; destruct (del_key _ _ _ _), (del_key _ _ _ _), (del_key _ _ _ _).
  - specialize (Hfree eq_refl). destruct (add_keys_ok m c a e C Hm L) as (c' & -> & C' & T' & D').
    split; [left; done|]. split; [|done]. eapply set_inv; [exact I|done|done| |].
    + intros b e' i Hne Hb Hi E. apply (Hfree i E). by exists b, e'.
    + cbn. by intros -> -> ->.
Qed.

Lemma del_key_some {K} `{EqDecision K} (t : SilcHashTable K Z Z unit) k a ret r t' :
  del_key t (Some k) a ret = (r, t') -> exists log, silc_hash_table_del_by_context t k a = (r, t', log).
Proof.
  unfold del_key. destruct (silc_hash_table_del_by_context t k a) as [[r1 t1] log]. intros [= <- <-].
  by exists log.
Qed.

Lemma update_id_ok m c a e i :
  cache_inv m c -> Z.of_nat (size m) < 4294967295 -> m !! a = Some e ->
  exists c', update_id m c a i = (<[a := mkEntry (Some i) (e_name e) (e_context e)]> m, c', true) /\
    cache_ok (<[a := mkEntry (Some i) (e_name e) (e_context e)]> m) c' /\
    ic_id_type c' = ic_id_type c /\ ic_destructor c' = ic_destructor c.
Proof.
  intros I Hm Ha. destruct (ci_ok _ _ I) as [C1 C2 C3]. set (e1 := mkEntry (Some i) (e_name e) (e_context e)).
  destruct (table_change _ e_id m _ a e no_entry e1 C1 Hm Ha eq_refl) as (t1 & t2 & E1 & E2 & T2).
  cbn [add_key e_id e1] in E2. assert (Hcopy : forall old, copy_id c old i = i).
  { intros old. unfold copy_id. by destruct (ci_type _ _ I) as [-> | [-> | ->]]. }
  exists (set_id_table c t2). split.
  - unfold update_id, entry_at. rewrite Ha. change (default no_entry (Some e)) with e.
    destruct (e_id e) as [old|].
    + apply del_key_some in E1 as [log ->]. cbn [negb]. by rewrite Hcopy, E2.
    + cbn [del_key] in E1. injection E1 as <-. by rewrite E2.
  - split; [|done]. split; [done|by eapply table_keep|by eapply table_keep].
Qed.

Lemma update_name_ok m c a e n :
  cache_ok m c -> Z.of_nat (size m) < 4294967295 -> m !! a = Some e ->
  exists c', update_name m c a n = (<[a := mkEntry (e_id e) (Some n) (e_context e)]> m, c', true) /\
    cache_ok (<[a := mkEntry (e_id e) (Some n) (e_context e)]> m) c' /\
    ic_id_type c' = ic_id_type c /\ ic_destructor c' = ic_destructor c.
Proof.
  intros [C1 C2 C3] Hm Ha. set (e1 := mkEntry (e_id e) (Some n) (e_context e)).
  destruct (table_change _ e_name m _ a e no_entry e1 C2 Hm Ha eq_refl) as (t1 & t2 & E1 & E2 & T2).
  cbn [add_key e_name e1] in E2. exists (set_name_table c t2). split.
  - unfold update_name, entry_at. rewrite Ha. change (default no_entry (Some e)) with e.
    rewrite E1. cbn [negb]. by rewrite E2.
  - split; [|done]. split; [by eapply table_keep|done|by eapply table_keep].
Qed.

Lemma updated_none e : updated e None None = e.
Proof. by destruct e. Qed.

Lemma sim_update m c a e i n :
  cache_inv m c -> Z.of_nat (size m) < 4294967295 -> m !! a = Some e ->
  (forall j, i = Some j -> ~ id_taken m j) ->
  exists c', silc_idcache_update m c a i n = (<[a := updated e i n]> m, c', true) /\
    cache_inv (<[a := updated e i n]> m) c' /\
    ic_id_type c' = ic_id_type c /\ ic_destructor c' = ic_destructor c.
Proof.
  intros I Hm Ha Hi. unfold silc_idcache_update.
  assert (exists c1, (match i with Some id => update_id m c a id | None => (m, c, true) end) =
    (<[a := updated e i None]> m, c1, true) /\ cache_inv (<[a := updated e i None]> m) c1 /\
    ic_id_type c1 = ic_id_type c /\ ic_destructor c1 = ic_destructor c) as (c1 & -> & I1 & T1 & D1).
  { destruct i as [i|]; [|exists c; rewrite updated_none, insert_id by done; by repeat split; try apply I].
    destruct (update_id_ok m c a e i I Hm Ha) as (c1 & E & C & T & D). exists c1. split; [done|].
    split; [|done]. eapply set_inv; [exact I|done|done| |done].
    intros b e' j Hne Hb Hj [= ->]. apply (Hi j eq_refl). by exists b, e'. }
  cbn [negb]. destruct n as [n|]; [|by exists c1].
  set (e1 := updated e i None) in *.
  assert (Ha1 : <[a := e1]> m !! a = Some e1) by by rewrite lookup_insert_eq.
  destruct (update_name_ok _ c1 a e1 n (ci_ok _ _ I1)) as (c2 & -> & C2 & T2 & D2);
    [by rewrite map_size_insert_Some by by eexists|done|].
  rewrite insert_insert_eq in *. exists c2. split; [done|]. split; [|split; congruence].
  destruct I1 as [_ U1 K1 Y1]. split; [done| | |by rewrite T2].
  - intros b b' x x' j Hb Hb' Hx Hx'. rewrite lookup_insert in Hb, Hb'.
    apply (U1 b b' (if decide (a = b) then e1 else x) (if decide (a = b') then e1 else x') j);
      rewrite ?lookup_insert; destruct (decide (a = b)), (decide (a = b'));
      try (injection Hb as <-); try (injection Hb' as <-); done.
  - intros b x Hb. rewrite lookup_insert in Hb. case_decide; [injection Hb as <-; by intros|].
    intros. apply (K1 b x); [|done..]. by rewrite lookup_insert_ne.
Qed.

Lemma sim_call m c x :
  cache_inv m c -> legal_call m x ->
  let '(m', c', r) := run_call m c x in simulates c m x m' c' r.
Proof.
  intros I [Hm L]. pose proof (ci_ok _ _ I) as C.
  assert (Hdel : forall a, is_Some (m !! a) -> exists c', silc_idcache_del m c a 0 =
    (delete a m, c', true, destroyed (ic_destructor c) a) /\ cache_inv (delete a m) c' /\
    ic_id_type c' = ic_id_type c /\ ic_destructor c' = ic_destructor c) by (intros a Ha; by apply sim_del).
  assert (Hlive : forall K (key_at : _ -> option K) eq a, has key_at eq m a -> is_Some (m !! a)).
  { intros K key_at eq a (e & k & Ha & _). by exists e. }
  unfold simulates. destruct x as [name id context a|a|i|x|a i n|x i n|i|x|n]; cbn [run_call].
  - pose proof (sim_add m c name id context a I (conj Hm L)) as S.
    by destruct (silc_idcache_add m c name id context a) as [[m' c'] r].
  - destruct (Hdel a L) as (c' & -> & I' & T & D). by split.
  - unfold silc_idcache_del_by_id. pose proof (find_id_found m c i C) as F. cbn [spec_call].
    destruct (silc_hash_table_find (id_table c) i) as [[k a]|]; cbn [fmap option_fmap option_map snd] in F.
    + destruct (Hdel a (Hlive _ _ _ _ F)) as (c' & -> & I' & T & D). split; [by exists (Some a)|done].
    + split; [by exists None|done].
  - unfold silc_idcache_del_by_context. pose proof (find_context_found m c x C) as F. cbn [spec_call].
    destruct (silc_hash_table_find (context_table c) x) as [[k a]|]; cbn [fmap option_fmap option_map snd] in F.
    + destruct (Hdel a (Hlive _ _ _ _ F)) as (c' & -> & I' & T & D). split; [by exists (Some a)|done].
    + split; [by exists None|done].
  - destruct L as [[e He] L]. destruct (sim_update m c a e i n I Hm He L) as (c' & -> & I' & T & D).
    split; [by exists e|done].
  - unfold silc_idcache_update_by_context. pose proof (find_context_found m c x C) as F. cbn [spec_call].
    destruct (silc_hash_table_find (context_table c) x) as [[k a]|]; cbn [fmap option_fmap option_map snd] in F.
    + destruct (Hlive _ _ _ _ F) as [e He]. destruct (sim_update m c a e i n I Hm He L) as (c' & -> & I' & T & D).
      split; [exists (Some a); split; [done|by exists e]|done].
    + split; [by exists None|done].
  - split; [|done]. split; [done|]. eexists. split; [done|]. pose proof (find_one_spec m c i C) as F.
    destruct (silc_idcache_find_by_id_one c i) as [a|]; cbn.
    + destruct F as (e & He & Hi). by exists e, i.
    + intros a (e & k & He & Hk & <-). apply F. by exists a, e.
  - split; [|done]. split; [done|]. eexists. split; [done|]. by apply find_context_found.
  - split; [|done]. split; [done|]. eexists. split; [done|]. by apply find_name_found.
Qed.

(** ** Sequences of calls *)

Fixpoint run_calls (h : entries_heap) (c : SilcIDCache) (xs : list call)
    : entries_heap * SilcIDCache * list result :=
  match xs with
  | [] => (h, c, [])
  | x :: xs =>
      let '(h, c, r) := run_call h c x in
      let '(h, c, rs) := run_calls h c xs in (h, c, r :: rs)
  end.

Fixpoint legal_calls (h : entries_heap) (c : SilcIDCache) (xs : list call) : Prop :=
  match xs with
  | [] => True
  | x :: xs => legal_call h x /\ let '(h, c, _) := run_call h c x in legal_calls h c xs
  end.

Inductive spec_calls (type : Z) (destructor : bool) : entries_heap -> list call -> entries_heap -> list result -> Prop :=
  | spec_done m : spec_calls type destructor m [] m []
  | spec_next m x m1 r xs m' rs :
      spec_call type destructor m x m1 r -> spec_calls type destructor m1 xs m' rs ->
      spec_calls type destructor m (x :: xs) m' (r :: rs).

Lemma sim_calls : forall xs m c,
  cache_inv m c -> legal_calls m c xs ->
  let '(m', c', rs) := run_calls m c xs in
  spec_calls (ic_id_type c) (ic_destructor c) m xs m' rs /\ cache_inv m' c' /\ ic_id_type c' = ic_id_type c.
Proof.
  induction xs as [|x xs IH]; intros m c I L; cbn [run_calls legal_calls] in *; [split; [constructor|done]|].
  destruct L as [L Ls]. pose proof (sim_call m c x I L) as S.
  destruct (run_call m c x) as [[m1 c1] r]. destruct S as (S & I1 & T & D). specialize (IH m1 c1 I1 Ls).
  destruct (run_calls m1 c1 xs) as [[m' c'] rs]. destruct IH as (S' & I' & T'). rewrite T, D in S'.
  split; [by econstructor|]. split; [done|congruence].
Qed.

Lemma empty_table_for {K} `{EqDecision K} (f : HashTableFuns K Z unit) key_at t :
  tab f t [] -> table_for f key_at ∅ t.
Proof.
  intros T. exists []. split; [done|]. split; [apply NoDup_nil_2|]. intros k a. split; [by intros ?%not_elem_of_nil|].
  intros (e & He & _). by rewrite lookup_empty in He.
Qed.

Lemma alloc_inv count type destructor c :
  silc_idcache_alloc count type destructor = Some c ->
  type = SILC_ID_CLIENT \/ type = SILC_ID_SERVER \/ type = SILC_ID_CHANNEL ->
  cache_inv ∅ c /\ ic_id_type c = type /\ ic_destructor c = destructor.
Proof.
  unfold silc_idcache_alloc. intros E Ht.
  destruct (alloc_ok_table (V := Z) (D := unit) count silc_hash_id (Some type) (Some silc_hash_id_compare)
    (Some type) None true) as (it & E1 & R1 & F1 & _).
  destruct (alloc_ok_table (V := Z) (U := Z) (D := unit) count silc_hash_utf8_string None
    (Some silc_hash_utf8_compare) None None true) as (nt & E2 & R2 & F2 & _).
  destruct (alloc_ok_table (K := Z) (V := Z) (U := Z) (D := unit) count silc_hash_ptr None None None None true)
    as (ct & E3 & R3 & F3 & _).
  unfold SilcHashFunction in E1, E2, E3. rewrite E1, E2, E3 in E. injection E as <-. split; [|done]. split; [|by intros ??????|by intros ??|done].
  split; cbn; by apply empty_table_for.
Qed.

(** ** Lists of entries *)

Lemma collect_ok {K} (es : list (K * Z)) : forall h l xs,
  rep h l xs -> NoDup (xs ++ es.*2) -> zlen xs + zlen es < 1073741823 ->
  let s := foldl (fun s e => silc_idcache_get_all_foreach s e.1 (Some e.2)) (h, l) es in
  rep s.1 s.2 (xs ++ es.*2).
Proof.
  induction es as [|[k a] es IH]; intros h l xs R Hd Hl; cbn [foldl fmap list_fmap] in *; [by rewrite app_nil_r|].
  cbn [silc_idcache_get_all_foreach fst snd]. rewrite zlen_cons in Hl. zlen_facts.
  pose proof (list_add_ok h l xs a R) as A. cbn [snd] in Hd.
  apply spot_parts in Hd as Hd'. destruct Hd' as (_ & _ & Ha & _).
  specialize (A Ha ltac:(lia)). destruct (silc_list_add h l a) as [h1 l1]. destruct A as [R1 _].
  replace (xs ++ a :: es.*2) with ((xs ++ [a]) ++ es.*2) in * by by rewrite <- app_assoc.
  apply IH; [done|done|]. rewrite zlen_app. change (zlen [a]) with 1. lia.
Qed.

(** The list a search returns has the entries with the key, each once. *)
Definition lists (key_has : Z -> Prop) (r : gmap Z node * option SilcList) : Prop :=
  match r.2 with
  | None => forall a, ~ key_has a
  | Some l => exists xs, xs <> [] /\ rep r.1 l xs /\ forall a, a ∈ xs <-> key_has a
  end.

Lemma result_list_ok {K} links (es : list (K * Z)) (key_has : Z -> Prop) :
  NoDup es.*2 -> zlen es < 1073741823 -> (forall a, a ∈ es.*2 <-> key_has a) ->
  lists key_has (result_list (foldl (fun s e => silc_idcache_get_all_foreach s e.1 (Some e.2))
                                (links, silc_list_init) es)).
Proof.
  intros Hd Hl Hk. pose proof (collect_ok es links silc_list_init [] (list_init_ok links) Hd) as R.
  specialize (R ltac:(rewrite zlen_nil; lia)). cbn zeta in R. cbn [app] in R.
  set (s := foldl _ _ _) in *. unfold lists, result_list. cbn [fst snd].
  unfold silc_list_count. rewrite (rep_count _ _ _ R).
  destruct es as [|e es]; cbn [fmap list_fmap] in *.
  - change (zlen (@nil Z) =? 0) with true. cbn iota. intros a Ha. apply Hk in Ha. by apply not_elem_of_nil in Ha.
  - rewrite zlen_cons, (proj2 (Z.eqb_neq _ _)) by (zlen_facts; lia).
    exists (e.2 :: es.*2). by split.
Qed.

Section Search.
Context {K : Type} `{EqDecision K} (f : HashTableFuns K Z unit) `{!FunsOk f}.
Context (key_at : SilcIDCacheEntry -> option K) (m : entries_heap) (t : SilcHashTable K Z Z unit).
Hypothesis T : table_for f key_at m t.
Hypothesis small : Z.of_nat (size m) < 1073741823.

Lemma table_empty : (silc_hash_table_count t =? 0) = true -> forall (eq : K -> Prop) a, ~ has key_at eq m a.
Proof.
  destruct T as (l & [(_ & C & _) _] & [_ X]). unfold silc_hash_table_count. rewrite C. intros E%Z.eqb_eq.
  apply zlen_zero_nil in E as ->. intros eq a (e & k & He & Hk & _).
  assert (N : (k, a) ∈ @nil (K * Z)) by (apply X; by exists e). by apply not_elem_of_nil in N.
Qed.

Lemma search_ok links k (eq : K -> Prop) :
  (forall k', same f k' k = true <-> eq k') ->
  lists (has key_at eq m)
    (if silc_hash_table_count t =? 0 then (links, None)
     else result_list (silc_hash_table_find_foreach t k silc_idcache_get_all_foreach (links, silc_list_init))).
Proof.
  intros E. destruct (silc_hash_table_count t =? 0) eqn:C; [intros ?; by apply table_empty|].
  destruct T as (l & [R F] & X). assert (FunsOk (funs t)) by by rewrite F.
  rewrite (find_foreach_ok t k _ _ l R), F. pose proof (index_size _ _ _ X) as Hs. destruct X as [Hd X].
  assert (Hsub : sublist (List.filter (key_of f k) l) l).
  { clear. induction l as [|e l IH]; cbn; [done|]. destruct (key_of f k e); by constructor. }
  assert (Hf : forall a, a ∈ (List.filter (key_of f k) l).*2 <-> has key_at eq m a).
  { intros a. rewrite in_snd. unfold has. split.
    - intros (k' & Hk). apply list_elem_of_In, List.filter_In in Hk as [Hk S].
      apply list_elem_of_In, X in Hk as (e & He & Hk). exists e, k'. by rewrite <- E.
    - intros (e & k' & He & Hk & S). exists k'. apply list_elem_of_In, List.filter_In.
      split; [apply list_elem_of_In, X; by exists e|by apply E]. }
  pose proof (result_list_ok links (List.filter (key_of f k) l) (has key_at eq m)) as A.
  pose proof (sublist_length _ _ Hsub).
  assert (Hd' : NoDup (List.filter (key_of f k) l).*2).
  { eapply sublist_NoDup; [exact Hd|]. clear -Hsub. induction Hsub; cbn; by constructor. }
  specialize (A Hd' ltac:(unfold zlen in *; lia) Hf).
  destruct (List.filter (key_of f k) l); exact A.
Qed.

(** The whole table, in the order of its chains. *)
Lemma all_ok links :
  lists (has key_at (fun _ => True) m)
    (if silc_hash_table_count t =? 0 then (links, None)
     else result_list (silc_hash_table_foreach t
            (Some (fun s k a => silc_idcache_get_all_foreach s k (Some a))) (links, silc_list_init))).
Proof.
  destruct (silc_hash_table_count t =? 0) eqn:C; [intros ?; by apply table_empty|].
  destruct T as (l & [R F] & X). pose proof (index_size _ _ _ X) as Hs. destruct X as [Hd X].
  destruct R as (W & Ec & M). assert (FunsOk (funs t)) by by rewrite F.
  cbn [silc_hash_table_foreach]. rewrite ztake_ge, foldl_concat by (rewrite (wf_table _ W); lia).
  fold (entries t).
  assert (Hin : forall e, e ∈ entries t <-> e ∈ l).
  { intros e. specialize (M e.1). unfold matches in M.
    assert (S : key_of (funs t) e.1 e = true) by apply same_refl.
    split; intros He; apply list_elem_of_In; apply list_elem_of_In in He.
    - assert (Hf : In e (List.filter (key_of (funs t) e.1) l)) by (rewrite <- M; by apply List.filter_In).
      by apply List.filter_In in Hf as [? _].
    - assert (Hf : In e (List.filter (key_of (funs t) e.1) (entries t))) by (rewrite M; by apply List.filter_In).
      by apply List.filter_In in Hf as [? _]. }
  assert (El : length (entries t) = length l).
  { pose proof (wf_count _ W) as Wc. rewrite Ec in Wc. unfold zlen in Wc. lia. }
  apply result_list_ok.
  - apply NoDup_ListNoDup. apply (List.NoDup_incl_NoDup (l := l.*2)).
    + by apply NoDup_ListNoDup.
    + by rewrite !length_fmap, El.
    + intros a Ha. apply list_elem_of_In, in_snd in Ha as [k Hk]. apply list_elem_of_In, in_snd.
      exists k. by apply Hin.
  - unfold zlen in *. lia.
  - intros a. rewrite in_snd. unfold has. split.
    + intros [k Hk]. apply Hin, X in Hk as (e & He & Hk). by exists e, k.
    + intros (e & k & He & Hk & _). exists k. apply Hin, X. by exists e.
Qed.
End Search.

(** ** Properties *)

(** C18: The ID cache is a set of entries indexed by ID, name and context.  On a
    new cache, any sequence of calls that respects the interface (additions,
    deletions by entry, by ID and by context, updates, and the lookups of one
    entry) does to the set of live entries, and returns, what the
    specification says: an entry whose ID is taken is refused, a lookup finds
    a live entry with the key when there is one and nothing else, the
    destructor is called for the entry deleted; and afterwards the three
    tables list exactly the live entries under the keys they have, no two
    entries having the same ID. *)
Theorem idcache_refines (count type : Z) (destructor : bool) (c : SilcIDCache) (xs : list call) :
  silc_idcache_alloc count type destructor = Some c ->
  type = SILC_ID_CLIENT \/ type = SILC_ID_SERVER \/ type = SILC_ID_CHANNEL ->
  legal_calls ∅ c xs ->
  exists m' c' rs, run_calls ∅ c xs = (m', c', rs) /\
    spec_calls type destructor ∅ xs m' rs /\ cache_inv m' c'.
Proof.
  intros E Ht L. destruct (alloc_inv _ _ _ _ E Ht) as (I & Et & Ed).
  pose proof (sim_calls xs ∅ c I L) as S. destruct (run_calls ∅ c xs) as [[m' c'] rs].
  destruct S as (S & I' & _). rewrite Et, Ed in S. by exists m', c', rs.
Qed.

(** The searches for many entries return all of them.  With a cache that
    lists the entries [m], [silc_idcache_find_by_name] returns a list of
    exactly the live entries with the name, [silc_idcache_find_by_id] of those
    with the ID (for clients, with the hash of the nickname in the ID) and
    [silc_idcache_get_all] of those that have an ID, each entry once; and they
    return FALSE when there are none. *)
Theorem idcache_searches (m : entries_heap) (c : SilcIDCache) (links : gmap Z node) :
  cache_inv m c -> Z.of_nat (size m) < 1073741823 ->
  (forall n, lists (has e_name (fun k => c_string k = c_string n) m) (silc_idcache_find_by_name links c n)) /\
  (forall i, lists (has e_id (fun k => id_class (ic_id_type c) k = id_class (ic_id_type c) i) m)
               (silc_idcache_find_by_id links c i)) /\
  lists (has e_id (fun _ => True) m) (silc_idcache_get_all links c).
Proof.
  intros [[C1 C2 C3] _ _ _] Hm. split; [|split].
  - intros n. apply (search_ok _ e_name m _ C2 Hm). intros. apply same_eq_name.
  - intros i. apply (search_ok _ e_id m _ C1 Hm). intros. apply same_eq_id.
  - apply (all_ok _ e_id m _ C1 Hm).
Qed.

(** Two clients of one nickname. *)
Definition ex_id (rnd : Z) : id_ptr :=
  ClientID (mkClientID (mkIP (replicate 16 1) 4) rnd (replicate 11 7)).
Definition ex_cache : SilcIDCache :=
  default (mkCache (mkHT [] 0 0 (id_funs 0 None) false) (mkHT [] 0 0 (name_funs None) false)
             (mkHT [] 0 0 (ptr_funs None) false) false 0) (silc_idcache_alloc 0 SILC_ID_CLIENT true).
Definition ex_calls : list call :=
  [CAdd (Some [98; 111; 98]) (Some (ex_id 1)) (Some 100) (Some 1);
   CAdd (Some [98; 111; 98]) (Some (ex_id 2)) None (Some 2);
   CAdd None (Some (ex_id 1)) None (Some 3);
   CFindName [98; 111; 98]; CFindId (ex_id 2); CUpdate 1 None (Some [97; 108]); CFindName [98; 111; 98];
   CDelContext 100; CFindContext 100].

Lemma alloc_some count type destructor : is_Some (silc_idcache_alloc count type destructor).
Proof.
  unfold silc_idcache_alloc.
  destruct (alloc_ok_table (V := Z) (D := unit) count silc_hash_id (Some type) (Some silc_hash_id_compare)
    (Some type) None true) as (it & E1 & _).
  destruct (alloc_ok_table (V := Z) (U := Z) (D := unit) count silc_hash_utf8_string None
    (Some silc_hash_utf8_compare) None None true) as (nt & E2 & _).
  destruct (alloc_ok_table (K := Z) (V := Z) (U := Z) (D := unit) count silc_hash_ptr None None None None true)
    as (ct & E3 & _).
  unfold SilcHashFunction in E1, E2, E3. rewrite E1, E2, E3. by eexists.
Qed.

Lemma ex_alloc : silc_idcache_alloc 0 SILC_ID_CLIENT true = Some ex_cache.
Proof. unfold ex_cache. by destruct (alloc_some 0 SILC_ID_CLIENT true) as [c ->]. Qed.

Lemma ex_legal : legal_calls ∅ ex_cache ex_calls.
Proof. vm_compute. repeat split; intros; try discriminate; eexists; reflexivity. Qed.

Lemma ex_results : (run_calls ∅ ex_cache ex_calls).2 =
  [REntry (Some 1); REntry (Some 2); REntry None; REntry (Some 1); REntry (Some 2); RBool true [];
   REntry (Some 2); RBool true [(1, 0)]; REntry None].
Proof. vm_compute. reflexivity. Qed.

Lemma idcache_refines_witness :
  legal_calls ∅ ex_cache ex_calls /\
  exists m' c', spec_calls SILC_ID_CLIENT true ∅ ex_calls m'
      [REntry (Some 1); REntry (Some 2); REntry None; REntry (Some 1); REntry (Some 2); RBool true [];
       REntry (Some 2); RBool true [(1, 0)]; REntry None] /\ cache_inv m' c'.
Proof.
  split; [exact ex_legal|].
  destruct (idcache_refines 0 SILC_ID_CLIENT true ex_cache ex_calls ex_alloc (or_introl eq_refl) ex_legal)
    as (m' & c' & rs & E & S & I).
  exists m', c'. pose proof ex_results as R. rewrite E in R. cbn [snd] in R. rewrite R in S. by split.
Defined.

Definition ex_state : entries_heap * SilcIDCache := (run_calls ∅ ex_cache (take 2 ex_calls)).1.

Lemma ex_state_inv : cache_inv (fst ex_state) (snd ex_state).
Proof.
  destruct (alloc_inv _ _ _ _ ex_alloc (or_introl eq_refl)) as (I & _).
  pose proof (sim_calls (take 2 ex_calls) ∅ ex_cache I) as S.
  unfold ex_state. destruct (run_calls ∅ ex_cache (take 2 ex_calls)) as [[m' c'] rs].
  apply S. vm_compute. repeat split; intros; try discriminate; eexists; reflexivity.
Qed.

Lemma ex_state_small : Z.of_nat (size (fst ex_state)) < 1073741823.
Proof. vm_compute. reflexivity. Qed.

Lemma idcache_searches_witness :
  cache_inv (fst ex_state) (snd ex_state) /\
  lists (has e_name (fun k => c_string k = [98; 111; 98]) (fst ex_state))
    (silc_idcache_find_by_name ∅ (snd ex_state) [98; 111; 98]).
Proof.
  split; [exact ex_state_inv|].
  exact (proj1 (idcache_searches (fst ex_state) (snd ex_state) ∅ ex_state_inv ex_state_small) [98; 111; 98]).
Defined.

(** [silc_idcache_del_by_id] compares the hashes in client IDs only: asked to
    delete the second client, it deletes the first of the same nickname. *)
Lemma del_by_id_same_hash :
  let '(m, c, _) := run_calls ∅ ex_cache (take 2 ex_calls) in
  let '(m', _, deleted, destroyed) := silc_idcache_del_by_id m c (ex_id 2) 0 in
  deleted = true /\ destroyed = [(1, 0)] /\ m' !! 1 = None /\ is_Some (m' !! 2).
Proof. vm_compute. repeat split. eexists. reflexivity. Qed.

(** [silc_idcache_update] does not look whether the new ID is taken, which
    [silc_idcache_add] refuses. *)
Lemma update_shares_id :
  let '(m, c, _) := run_calls ∅ ex_cache (take 2 ex_calls) in
  let '(m', _, ok) := silc_idcache_update m c 2 (Some (ex_id 1)) None in
  ok = true /\ e_id (entry_at m' 1) = Some (ex_id 1) /\ e_id (entry_at m' 2) = Some (ex_id 1).
Proof. vm_compute. repeat split. Qed.
