(* ===== verification/MerkleDamgard.v ===== *)
(** * Iterated hash functions

    What MD5, SHA-1 and SHA-256 have in common: a compression function iterated
    over the 64-byte blocks of the message, padded with one bit, zeros and the
    length.  This is the specification the three files [Sha1], [Sha256] and
    [Md5] refine; [streamed] relates the state and the buffer of a context to
    the message it has been given, and each implementation keeps it. *)

From S2P Require Import Prelude CTypes.

(** [f] over the first [k] blocks of [l]. *)
Fixpoint absorb (f : list Z -> list Z -> list Z) (k : nat) (st l : list Z) : list Z :=
  match k with
  | O => st
  | S k => absorb f k (f st (ztake 64 l)) (zdrop 64 l)
  end.

Definition blocks (l : list Z) : nat := Z.to_nat (zlen l / 64).

(** A hash function: its initial state, its compression function, how it writes
    the number of bits of the message and how it gives the digest out. *)
Record iterated_hash := mkIterated {
  ih_iv : list Z;
  ih_compress : list Z -> list Z -> list Z;
  ih_length : Z -> list Z;
  ih_out : list Z -> list Z
}.

(** The padding of a message of [n] bytes. *)
Definition md_pad (h : iterated_hash) (n : Z) : list Z :=
  [128] ++ zeros ((55 - n) mod 64) ++ ih_length h (u64 (8 * n)).

Definition md_digest (h : iterated_hash) (m : list Z) : list Z :=
  let p := m ++ md_pad h (zlen m) in
  ih_out h (absorb (ih_compress h) (blocks p) (ih_iv h) p).

(** The zeros of the padding, in the block it starts in or with the next. *)
Lemma pad_fills_inv n k :
  0 <= n -> (k = 55 - n mod 64 /\ 0 <= k) \/ k = 119 - n mod 64 /\ 55 < n mod 64 ->
  k = (55 - n) mod 64.
Proof. intros Hn Hk. Z.div_mod_to_equations. lia. Qed.

Section Streaming.
Variable f : list Z -> list Z -> list Z.
Variable iv : list Z.

(** The function reads one block. *)
Hypothesis f_block : forall st l, f st (ztake 64 l) = f st l.

Lemma absorb_app k : forall st l x,
  64 * Z.of_nat k <= zlen l ->
  absorb f k st (l ++ x) = absorb f k st l.
Proof.
  induction k as [|k IH]; intros st l x Hl; [done|]. cbn [absorb]. zlen_facts.
  rewrite ztake_app_l, zdrop_app_l by lia. apply IH. rewrite zlen_drop; lia.
Qed.

Lemma absorb_add k : forall k' st l,
  absorb f (k + k') st l = absorb f k' (absorb f k st l) (zdrop (64 * Z.of_nat k) l).
Proof.
  induction k as [|k IH]; intros k' st l; [by rewrite zdrop_0 by lia|].
  cbn [absorb Nat.add]. rewrite IH, zdrop_zdrop by lia. do 2 f_equal. lia.
Qed.

(** What has been hashed of [m] is its whole blocks; the rest is in the
    buffer. *)
Definition streamed (m st buf : list Z) : Prop :=
  st = absorb f (blocks m) iv m /\ zlen buf = 64 /\
  ztake (zlen m mod 64) buf = zdrop (64 * (zlen m / 64)) m.

Lemma streamed_nil buf : zlen buf = 64 -> streamed [] iv buf.
Proof. intros Hb. split; [done|]. split; [done|]. by rewrite ztake_0, zdrop_0 by done. Qed.

Lemma rest_len (m : list Z) : zlen (zdrop (64 * (zlen m / 64)) m) = zlen m mod 64.
Proof.
  pose proof (Z_div_mod_eq_full (zlen m) 64). pose proof (Z.mod_pos_bound (zlen m) 64).
  pose proof (zlen_nonneg m). rewrite zlen_drop; lia.
Qed.

(** Data that does not fill the buffer is copied behind what is there. *)
Lemma streamed_part m st buf x :
  streamed m st buf -> zlen m mod 64 + zlen x < 64 ->
  streamed (m ++ x) st (splice (zlen m mod 64) x buf).
Proof.
  intros (E1 & E2 & E3) Hx. zlen_facts.
  pose proof (Z_div_mod_eq_full (zlen m) 64) as Dm.
  pose proof (Z.mod_pos_bound (zlen m) 64 ltac:(lia)) as Bm.
  assert (Ed : (zlen m + zlen x) / 64 = zlen m / 64)
    by (symmetry; apply (Z.div_unique _ _ _ (zlen m mod 64 + zlen x)); lia).
  assert (Em : (zlen m + zlen x) mod 64 = zlen m mod 64 + zlen x)
    by (symmetry; apply (Z.mod_unique _ _ (zlen m / 64)); lia).
  unfold streamed, blocks. rewrite zlen_app, Ed, Em.
  split; [|split].
  - rewrite absorb_app; [done|]. rewrite Z2Nat.id by (apply Z.div_pos; lia). lia.
  - rewrite zlen_splice; lia.
  - unfold splice. rewrite app_assoc, ztake_app_exact by (rewrite zlen_app, zlen_take; lia).
    rewrite E3, zdrop_app_l by lia. done.
Qed.

(** Data that fills it up: the function is applied to the block [y]. *)
Lemma streamed_block m st buf x y buf' :
  streamed m st buf -> zlen m mod 64 + zlen x = 64 -> zlen buf' = 64 ->
  ztake 64 y = ztake (zlen m mod 64) buf ++ x ->
  streamed (m ++ x) (f st y) buf'.
Proof.
  intros (E1 & E2 & E3) Hx Hb Hy. zlen_facts.
  pose proof (Z_div_mod_eq_full (zlen m) 64) as Dm.
  pose proof (Z.mod_pos_bound (zlen m) 64 ltac:(lia)) as Bm.
  assert (Ed : (zlen m + zlen x) / 64 = zlen m / 64 + 1)
    by (symmetry; apply (Z.div_unique _ _ _ 0); lia).
  assert (Em : (zlen m + zlen x) mod 64 = 0)
    by (symmetry; apply (Z.mod_unique _ _ (zlen m / 64 + 1)); lia).
  assert (Hd : 0 <= zlen m / 64) by (apply Z.div_pos; lia).
  unfold streamed, blocks. rewrite zlen_app, Ed, Em.
  split; [|split; [done|]].
  - rewrite Z2Nat.inj_add, absorb_add by lia.
    rewrite absorb_app by lia. rewrite Z2Nat.id by lia.
    unfold blocks in E1. rewrite <- E1. change (Z.to_nat 1) with 1%nat. cbn [absorb].
    rewrite <- (f_block st y), Hy, E3, zdrop_app_l by lia. f_equal. symmetry.
    apply ztake_ge. rewrite zlen_app, rest_len. lia.
  - rewrite ztake_0, zdrop_ge by (rewrite ?zlen_app; lia). done.
Qed.

(** A block hashed where it is. *)
Lemma streamed_direct m st buf x y :
  streamed m st buf -> zlen m mod 64 = 0 -> zlen x = 64 -> ztake 64 y = x ->
  streamed (m ++ x) (f st y) buf.
Proof.
  intros Hs Em Hx Hy. pose proof Hs as (_ & Hb & _).
  apply (streamed_block m st buf x y buf Hs); [lia|done|].
  by rewrite Em, (ztake_0 0), Hy by lia.
Qed.

(** A block completed in the buffer. *)
Lemma streamed_fill m st buf x :
  streamed m st buf -> zlen m mod 64 + zlen x = 64 ->
  let buf' := splice (zlen m mod 64) x buf in
  streamed (m ++ x) (f st buf') buf'.
Proof.
  intros Hs Hx. cbn zeta. pose proof Hs as (_ & Hb & _). zlen_facts.
  pose proof (Z.mod_pos_bound (zlen m) 64 ltac:(lia)) as Bm.
  apply (streamed_block m st buf x _ _ Hs); [done| |].
  - rewrite zlen_splice; lia.
  - unfold splice. rewrite app_assoc. apply ztake_app_exact.
    rewrite zlen_app, zlen_take; lia.
Qed.

(** Both ends of a message: the padding in the block that is in the buffer, or
    that block filled up and one more. *)
Lemma streamed_end m st buf bits :
  let j := zlen m mod 64 in
  streamed m st buf -> zlen bits = 8 -> j < 56 ->
  let buf' := splice j ([128] ++ zeros (55 - j) ++ bits) buf in
  streamed (m ++ [128] ++ zeros ((55 - zlen m) mod 64) ++ bits) (f st buf') buf'.
Proof.
  cbn zeta. intros Hs Hb L. zlen_facts. pose proof (Z.mod_pos_bound (zlen m) 64 ltac:(lia)) as Bm.
  rewrite <- (pad_fills_inv (zlen m) (55 - zlen m mod 64)) by lia.
  apply streamed_fill; [done|]. rewrite !zlen_app, zlen_zeros, Hb by lia.
  change (zlen [128]) with 1. lia.
Qed.

Lemma streamed_end_two m st buf bits :
  let j := zlen m mod 64 in
  streamed m st buf -> zlen bits = 8 -> 56 <= j ->
  let buf1 := splice j ([128] ++ zeros (63 - j)) buf in
  let buf2 := splice 0 (zeros 56 ++ bits) buf1 in
  zlen buf1 = 64 /\
  streamed (m ++ [128] ++ zeros ((55 - zlen m) mod 64) ++ bits) (f (f st buf1) buf2) buf2.
Proof.
  cbn zeta. intros Hs Hb L. zlen_facts. pose proof (Z.mod_pos_bound (zlen m) 64 ltac:(lia)) as Bm.
  set (j := zlen m mod 64) in *. set (x := [128] ++ zeros (63 - j)).
  assert (Hx : zlen x = 64 - j)
    by (unfold x; rewrite zlen_app, zlen_zeros by lia; change (zlen [128]) with 1; lia).
  pose proof (streamed_fill m st buf x Hs ltac:(fold j; lia)) as S1. cbn zeta in S1. fold j in S1.
  set (buf1 := splice j x buf) in *. split; [apply S1|].
  assert (Hm : zlen (m ++ x) mod 64 = 0).
  { pose proof (Z_div_mod_eq_full (zlen m) 64).
    rewrite zlen_app, Hx. replace (zlen m + (64 - j)) with ((zlen m / 64 + 1) * 64) by lia.
    apply Z.mod_mul. lia. }
  pose proof (streamed_fill _ _ _ (zeros 56 ++ bits) S1) as S2.
  rewrite Hm, zlen_app, Hb, zlen_zeros in S2 by lia. specialize (S2 ltac:(lia)). cbn zeta in S2.
  rewrite <- (pad_fills_inv (zlen m) (63 - j + 56)) by lia.
  rewrite zeros_app by lia. unfold x in S2. by rewrite <- !app_assoc in S2 |- *.
Qed.
End Streaming.

(** The zeros and the length, written one after the other. *)
Lemma splice_zeros_app n bits buf :
  0 <= n <= zlen buf -> splice n bits (splice 0 (zeros (n - 0)) buf) = splice 0 (zeros n ++ bits) buf.
Proof.
  intros Hn. rewrite Z.sub_0_r. rewrite <- (splice_splice 0 (zeros n)) by lia.
  by rewrite zlen_zeros by lia.
Qed.

(** The digest, once the padding has been streamed. *)
Lemma streamed_digest (h : iterated_hash) m st buf :
  streamed (ih_compress h) (ih_iv h) (m ++ md_pad h (zlen m)) st buf ->
  ih_out h st = md_digest h m.
Proof. intros (-> & _). done. Qed.

(** ** Words *)

(** Rotations of 32-bit words, as FIPS 180 and RFC 1321 define them. *)
Definition ROTL (n x : Z) : Z := Z.lor (u32 (Z.shiftl x n)) (Z.shiftr x (32 - n)).
Definition ROTR (n x : Z) : Z := Z.lor (Z.shiftr (u32 x) n) (u32 (Z.shiftl x (32 - n))).

(** The sixteen words of a block. *)
Definition words (get : list Z -> Z) (l : list Z) : list Z :=
  (fun i => get (zdrop (4 * Z.of_nat i) l)) <$> seq 0 16.

Lemma words_block get l :
  (forall x y, ztake 4 x = ztake 4 y -> get x = get y) ->
  words get (ztake 64 l) = words get l.
Proof.
  intros Hg. unfold words. apply list_fmap_ext. intros k i Hi%lookup_seq.
  apply Hg. rewrite !ztake_zdrop by lia. by rewrite ztake_ztake by lia.
Qed.

Lemma get32_take x y : ztake 4 x = ztake 4 y -> SILC_GET32_MSB x = SILC_GET32_MSB y.
Proof.
  intros E. unfold SILC_GET32_MSB.
  rewrite <- (znth_ztake 4 0 x), <- (znth_ztake 4 1 x), <- (znth_ztake 4 2 x),
    <- (znth_ztake 4 3 x), E by lia.
  by rewrite !znth_ztake by lia.
Qed.

Lemma get32_lsb_take x y : ztake 4 x = ztake 4 y -> SILC_GET32_LSB x = SILC_GET32_LSB y.
Proof.
  intros E. unfold SILC_GET32_LSB.
  rewrite <- (znth_ztake 4 0 x), <- (znth_ztake 4 1 x), <- (znth_ztake 4 2 x),
    <- (znth_ztake 4 3 x), E by lia.
  by rewrite !znth_ztake by lia.
Qed.

(** The two ways of writing the choice of two words by a third, and the
    majority of three. *)
Lemma choose_xor x y z :
  Z.lxor z (Z.land x (Z.lxor y z)) = Z.lxor (Z.land x y) (Z.land (Z.lnot x) z).
Proof.
  apply Z.bits_inj'. intros n Hn. rewrite !Z.lxor_spec, !Z.land_spec, Z.lxor_spec, Z.lnot_spec by done.
  by destruct (Z.testbit x n), (Z.testbit y n), (Z.testbit z n).
Qed.

Lemma nth_insert_eq k x (l : list Z) : (k < length l)%nat -> nth k (<[k := x]> l) 0 = x.
Proof. intros Hk. apply nth_lookup_Some. by apply list_lookup_insert_eq. Qed.

Lemma nth_insert_ne j k x (l : list Z) : j <> k -> nth j (<[k := x]> l) 0 = nth j l 0.
Proof. intros Hk. by rewrite !nth_lookup, list_lookup_insert_ne by done. Qed.

(** ** Register files

    The unrolled rounds rename the registers instead of moving the values: at
    round [t] the value a specification calls [k] is in register
    [(k - t) mod n], which is [(k + (n - 1) t) mod n]. *)
Definition place (n k t : nat) : nat := Nat.modulo (k + (n - 1) * t) n.

Definition view (n t : nat) (regs : list Z) : list Z :=
  (fun k => nth (place n k t) regs 0) <$> seq 0 n.

Lemma place_mod n k t : n <> O -> place n k t = place n k (Nat.modulo t n).
Proof.
  intros Hn. unfold place. rewrite <- (Nat.Div0.add_mod_idemp_r k ((n - 1) * t)).
  rewrite <- (Nat.Div0.add_mod_idemp_r k ((n - 1) * (t mod n))).
  by rewrite (Nat.Div0.mul_mod_idemp_r (n - 1) t).
Qed.

Lemma place_S n k t : n <> O -> place n k (S t) = place n k (S (Nat.modulo t n)).
Proof.
  intros Hn. rewrite (place_mod n k (S t)), (place_mod n k (S (t mod n))) by done. f_equal.
  change (S t) with (1 + t)%nat. change (S (t mod n)) with (1 + t mod n)%nat.
  by rewrite Nat.Div0.add_mod_idemp_r.
Qed.

Lemma view_0 n regs : length regs = n -> view n 0 regs = regs.
Proof.
  intros Hn. apply (list_eq_same_length _ _ n); [done|unfold view; by rewrite length_fmap, length_seq|].
  intros i x y Hi E1 E2. unfold view in E1. rewrite list_lookup_fmap, lookup_seq_lt in E1 by done.
  cbn in E1. injection E1 as <-. unfold place. rewrite Nat.mul_0_r, Nat.add_0_r, Nat.mod_small by done.
  rewrite (nth_lookup_Some _ _ _ _ E2). done.
Qed.

(** After a multiple of [n] rounds every value is back in its register. *)
Lemma view_period n k regs : length regs = n -> n <> O -> view n (n * k) regs = regs.
Proof.
  intros Hn H0. rewrite <- (view_0 n regs Hn) at 2. unfold view. apply list_fmap_ext.
  intros i x _. rewrite (place_mod n x (n * k)) by done.
  by rewrite (Nat.mul_comm n k), Nat.Div0.mod_mul.
Qed.

(** ** The contexts of MD5 and SHA-1 *)

(** The number of bits, in two words. *)
Definition bit_count (n c0 c1 : Z) : Prop :=
  c0 = u32 (8 * n) /\ c1 = u32 (8 * n / 4294967296).

Lemma bit_count_0 : bit_count 0 0 0.
Proof. done. Qed.

(** Adding to the low word carries exactly when the sum is below either
    term. *)
Lemma bit_count_add n c0 c1 len t :
  0 <= n -> 0 <= len < 4294967296 -> bit_count n c0 c1 ->
  let bits := u32 (Z.shiftl len 3) in
  let c0' := u32 (c0 + bits) in
  t = bits \/ t = c0 ->
  bit_count (n + len) c0'
    (u32 ((if c0' <? t then u32 (c1 + 1) else c1) + Z.shiftr len 29)).
Proof.
  intros Hn Hl [-> ->]. cbn zeta.
  rewrite Z.shiftl_mul_pow2, Z.shiftr_div_pow2 by lia.
  change (2 ^ 3) with 8. change (2 ^ 29) with 536870912.
  intros Ht. unfold bit_count. split; [warith|].
  assert (Eb : u32 (len * 8) = 8 * len - 4294967296 * (len / 536870912)) by warith.
  set (hi := len / 536870912) in *. set (q := 8 * n / 4294967296).
  assert (Ec : u32 (8 * n) = 8 * n - 4294967296 * q) by (unfold q; warith).
  pose proof (u32_range (8 * n)). pose proof (u32_range (len * 8)).
  set (b := u32 (len * 8)) in *. set (c := u32 (8 * n)) in *.
  assert (Ed : 8 * (n + len) = 4294967296 * (q + hi) + (c + b)) by lia.
  rewrite Ed, (Z.add_comm (4294967296 * _)), Z.mul_comm, Z.div_add by lia.
  destruct (Z.ltb_spec (u32 (c + b)) t) as [L|L].
  - assert ((c + b) / 4294967296 = 1) as -> by (destruct Ht as [-> | ->]; revert L; warith).
    warith.
  - assert ((c + b) / 4294967296 = 0) as -> by (destruct Ht as [-> | ->]; revert L; warith).
    warith.
Qed.

Lemma bit_count_bytes n c0 c1 :
  0 <= n -> bit_count n c0 c1 -> Z.land (Z.shiftr c0 3) 63 = n mod 64.
Proof.
  intros Hn [-> _]. change 63 with (Z.ones 6). rewrite Z.land_ones, Z.shiftr_div_pow2 by lia.
  change (2 ^ 3) with 8. change (2 ^ 6) with 64. warith.
Qed.

Lemma bit_count_u64 n c0 c1 :
  0 <= n -> bit_count n c0 c1 -> u64 (8 * n) = c1 * 4294967296 + c0.
Proof.
  intros Hn [-> ->]. unfold u64, u32.
  change 18446744073709551616 with (4294967296 * 4294967296).
  rewrite (Z.rem_mul_r (8 * n)) by lia. lia.
Qed.

(** Two compression functions that agree on the states that occur. *)
Lemma absorb_ext (f g : list Z -> list Z -> list Z) (P : list Z -> Prop) k :
  (forall st l, P st -> f st l = g st l /\ P (g st l)) ->
  forall st l, P st -> absorb f k st l = absorb g k st l /\ P (absorb g k st l).
Proof.
  intros Hfg. induction k as [|k IH]; intros st l HP; [done|]. cbn [absorb].
  destruct (Hfg st (ztake 64 l) HP) as [-> Hg]. by apply IH.
Qed.

(** The low bits of the count say when the padding is complete. *)
Lemma bit_count_low n c0 c1 :
  0 <= n -> bit_count n c0 c1 -> Z.land c0 504 = 8 * (n mod 64).
Proof.
  intros Hn Hc. pose proof (bit_count_bytes n c0 c1 Hn Hc) as E. destruct Hc as [-> _].
  change 504 with (Z.shiftl 63 3).
  rewrite <- E. apply Z.bits_inj'. intros k Hk.
  rewrite (Z.mul_comm 8 (Z.land _ _)), <- (Z.shiftl_mul_pow2 (Z.land _ _) 3) by lia.
  rewrite Z.land_spec. destruct (decide (k < 3)).
  - rewrite !Z.shiftl_spec_low by lia. apply andb_false_r.
  - rewrite !Z.shiftl_spec, Z.land_spec, Z.shiftr_spec by lia. by rewrite Z.sub_add.
Qed.

(** The length in two words. *)
Lemma put64_words c0 c1 :
  0 <= c0 < 4294967296 -> 0 <= c1 < 4294967296 ->
  SILC_PUT64_MSB (c1 * 4294967296 + c0) = SILC_PUT32_MSB c1 ++ SILC_PUT32_MSB c0.
Proof.
  intros H0 H1. unfold SILC_PUT64_MSB.
  assert (u64 (c1 * 4294967296 + c0) = c1 * 4294967296 + c0) as -> by warith.
  rewrite Z.shiftr_div_pow2 by lia. change (2 ^ 32) with 4294967296.
  f_equal; f_equal; warith.
Qed.

(** A context's buffer is an array of 64 bytes, for which a list stands: this is
    the identity on lists of that length. *)
Definition sized (buffer : list Z) : list Z := ztake 64 (buffer ++ zeros 64).

Lemma zlen_sized b : zlen (sized b) = 64.
Proof.
  unfold sized. pose proof (zlen_nonneg b). rewrite zlen_take; [done|].
  rewrite zlen_app, zlen_zeros; lia.
Qed.

Lemma sized_id b : zlen b = 64 -> sized b = b.
Proof. intros Hb. by apply ztake_app_exact. Qed.
