(* ===== verification/Sha1.v ===== *)
(** * SHA-1 ([lib/silccrypt/sha1.c])

    The context, its updates and its end, and the unrolled transform with its
    sixteen-word buffer, shown to be SHA-1 as FIPS 180 defines it.  A hash
    object with this context is an instance of [HashLaws]. *)

From S2P Require Import Prelude CTypes MerkleDamgard Hmac.

(** ** The transform *)

(** The variables of [SHA1Transform]: [a] to [e], [W] and the moving [data]. *)
Record sha1_vars := mkVars { v_regs : list Z; v_W : list Z; v_data : list Z }.

Definition rol (x nr : Z) : Z := Z.lor (u32 (Z.shiftl x nr)) (Z.shiftr x (32 - nr)).

Definition GET_WORD (cp : list Z) : Z :=
  Z.lor (Z.lor (Z.lor (u32 (Z.shiftl (u8 (znth cp 0)) 24)) (u32 (Z.shiftl (u8 (znth cp 1)) 16)))
               (u32 (Z.shiftl (u8 (znth cp 2)) 8)))
        (u8 (znth cp 3)).

Definition Wi (W : list Z) (i : nat) : Z := nth i W 0.

(** The value of the expression, and [W] after it. *)
Definition blk0 (s : sha1_vars) (i : nat) : Z * list Z :=
  let w := GET_WORD (v_data s) in (w, <[i := w]> (v_W s)).

Definition blk1 (s : sha1_vars) (i : nat) : Z * list Z :=
  let W := v_W s in
  let w := rol (Z.lxor (Z.lxor (Z.lxor (Wi W (Nat.modulo (i + 13) 16))
                                       (Wi W (Nat.modulo (i + 8) 16)))
                               (Wi W (Nat.modulo (i + 2) 16)))
                       (Wi W (Nat.modulo i 16))) 1 in
  (w, <[Nat.modulo i 16 := w]> W).

Definition f1 (x y z : Z) : Z := Z.lxor z (Z.land x (Z.lxor y z)).
Definition f2 (x y z : Z) : Z := Z.lxor (Z.lxor x y) z.
Definition f3 (x y z : Z) : Z := Z.lor (Z.land x y) (Z.land z (Z.lor x y)).
Definition f4 (x y z : Z) : Z := Z.lxor (Z.lxor x y) z.

(** [z += f(w,x,y) + blk(i) + k + rol(v,5); w = rol(w,30);] *)
Definition R (f : Z -> Z -> Z -> Z) (blk : sha1_vars -> nat -> Z * list Z) (k step : Z)
    (v w x y z i : nat) (s : sha1_vars) : sha1_vars :=
  let r n := nth n (v_regs s) 0 in
  let '(b, W) := blk s i in
  let regs := <[z := u32 (r z + (f (r w) (r x) (r y) + b + k + rol (r v) 5))]> (v_regs s) in
  mkVars (<[w := rol (nth w regs 0) 30]> regs) W (zdrop step (v_data s)).

Definition R0 := R f1 blk0 0x5A827999 4.
Definition R1 := R f1 blk1 0x5A827999 0.
Definition R2 := R f2 blk1 0x6ED9EBA1 0.
Definition R3 := R f3 blk1 0x8F1BBCDC 0.
Definition R4 := R f4 blk1 0xCA62C1D6 0.

Definition sha1_rounds : list (sha1_vars -> sha1_vars) :=
  let a := 0%nat in let b := 1%nat in let c := 2%nat in let d := 3%nat in let e := 4%nat in
  [R0 a b c d e  0; R0 e a b c d  1; R0 d e a b c  2; R0 c d e a b  3;
   R0 b c d e a  4; R0 a b c d e  5; R0 e a b c d  6; R0 d e a b c  7;
   R0 c d e a b  8; R0 b c d e a  9; R0 a b c d e 10; R0 e a b c d 11;
   R0 d e a b c 12; R0 c d e a b 13; R0 b c d e a 14; R0 a b c d e 15;
   R1 e a b c d 16; R1 d e a b c 17; R1 c d e a b 18; R1 b c d e a 19;
   R2 a b c d e 20; R2 e a b c d 21; R2 d e a b c 22; R2 c d e a b 23;
   R2 b c d e a 24; R2 a b c d e 25; R2 e a b c d 26; R2 d e a b c 27;
   R2 c d e a b 28; R2 b c d e a 29; R2 a b c d e 30; R2 e a b c d 31;
   R2 d e a b c 32; R2 c d e a b 33; R2 b c d e a 34; R2 a b c d e 35;
   R2 e a b c d 36; R2 d e a b c 37; R2 c d e a b 38; R2 b c d e a 39;
   R3 a b c d e 40; R3 e a b c d 41; R3 d e a b c 42; R3 c d e a b 43;
   R3 b c d e a 44; R3 a b c d e 45; R3 e a b c d 46; R3 d e a b c 47;
   R3 c d e a b 48; R3 b c d e a 49; R3 a b c d e 50; R3 e a b c d 51;
   R3 d e a b c 52; R3 c d e a b 53; R3 b c d e a 54; R3 a b c d e 55;
   R3 e a b c d 56; R3 d e a b c 57; R3 c d e a b 58; R3 b c d e a 59;
   R4 a b c d e 60; R4 e a b c d 61; R4 d e a b c 62; R4 c d e a b 63;
   R4 b c d e a 64; R4 a b c d e 65; R4 e a b c d 66; R4 d e a b c 67;
   R4 c d e a b 68; R4 b c d e a 69; R4 a b c d e 70; R4 e a b c d 71;
   R4 d e a b c 72; R4 c d e a b 73; R4 b c d e a 74; R4 a b c d e 75;
   R4 e a b c d 76; R4 d e a b c 77; R4 c d e a b 78; R4 b c d e a 79].

(** [W] is not initialised; the rounds write a word before they read it. *)
Definition SHA1Transform (state data : list Z) : list Z :=
  let s := foldl (fun s r => r s) (mkVars state (zeros 16) data) sha1_rounds in
  zip_with (fun x y => u32 (x + y)) state (v_regs s).

(** ** The context *)

Record SHA1_CTX := mkSha1 {
  sha_state : list Z;
  sha_count0 : Z;
  sha_count1 : Z;
  sha_buffer : list Z
}.

Definition SHA1Init (context : SHA1_CTX) : SHA1_CTX :=
  mkSha1 [0x67452301; 0xEFCDAB89; 0x98BADCFE; 0x10325476; 0xC3D2E1F0] 0 0 (sha_buffer context).

(** [for ( ; i + 63 < len; i += 64) SHA1Transform(state, &data[i]);] *)
Fixpoint sha1_blocks (fuel : nat) (state data : list Z) (i len : Z) : list Z * Z :=
  match fuel with
  | O => (state, i)
  | S fuel =>
      if u32 (i + 63) <? len then
        sha1_blocks fuel (SHA1Transform state (zdrop i data)) data (i + 64) len
      else (state, i)
  end.

Definition SHA1Update (context : SHA1_CTX) (data : list Z) (len : Z) : SHA1_CTX :=
  let j := Z.land (Z.shiftr (sha_count0 context) 3) 63 in
  let bits := u32 (Z.shiftl len 3) in
  let count0 := u32 (sha_count0 context + bits) in
  let count1 := if count0 <? bits then u32 (sha_count1 context + 1) else sha_count1 context in
  let count1 := u32 (count1 + Z.shiftr len 29) in
  if 63 <? u32 (j + len) then
    let i := 64 - j in
    let buffer := splice j (ztake i data) (sha_buffer context) in
    let state := SHA1Transform (sha_state context) buffer in
    let '(state, i) := sha1_blocks (S (Z.to_nat (len / 64))) state data i len in
    mkSha1 state count0 count1 (splice 0 (ztake (len - i) (zdrop i data)) buffer)
  else
    mkSha1 (sha_state context) count0 count1
      (splice j (ztake len data) (sha_buffer context)).

(** The big-endian bytes of an array of words, the way both loops of
    [SHA1Final] take them: byte [i] of the words in this order. *)
Definition word_byte (w : Z) (i : Z) : Z := Z.land (Z.shiftr w ((3 - Z.land i 3) * 8)) 255.

(** [while ((count[0] & 504) != 448) SHA1Update(context, "\0", 1);] *)
Fixpoint sha1_pad (fuel : nat) (context : SHA1_CTX) : SHA1_CTX :=
  match fuel with
  | O => context
  | S fuel =>
      if Z.land (sha_count0 context) 504 =? 448 then context
      else sha1_pad fuel (SHA1Update context [0] 1)
  end.

Definition SHA1Final (context : SHA1_CTX) : SHA1_CTX * list Z :=
  let finalcount :=
    (fun i => word_byte (if 4 <=? i then sha_count0 context else sha_count1 context) i)
      <$> seqZ 0 8 in
  let context := SHA1Update context [128] 1 in
  let context := sha1_pad 64 context in
  let context := SHA1Update context finalcount 8 in
  let digest :=
    (fun i => word_byte (nth (Z.to_nat (Z.shiftr i 2)) (sha_state context) 0) i) <$> seqZ 0 20 in
  (mkSha1 (SHA1Transform (zeros 5) (zeros 64)) 0 0 (zeros 64), digest).

Example sha1_abc :
  (SHA1Final (SHA1Update (SHA1Init (mkSha1 [] 0 0 (zeros 64))) [97; 98; 99] 3)).2 =
  [0xa9; 0x99; 0x3e; 0x36; 0x47; 0x06; 0x81; 0x6a; 0xba; 0x3e; 0x25; 0x71; 0x78; 0x50; 0xc2;
   0x6c; 0x9c; 0xd0; 0xd8; 0x9d].
Proof. vm_compute. reflexivity. Qed.

(** ** SHA-1 as FIPS 180 defines it *)

Definition fips_f (t : nat) (x y z : Z) : Z :=
  if decide (t < 20)%nat then Z.lxor (Z.land x y) (Z.land (Z.lnot x) z)
  else if decide (t < 40)%nat then Z.lxor (Z.lxor x y) z
  else if decide (t < 60)%nat then
    Z.lxor (Z.lxor (Z.land x y) (Z.land x z)) (Z.land y z)
  else Z.lxor (Z.lxor x y) z.

Definition fips_K (t : nat) : Z :=
  if decide (t < 20)%nat then 0x5A827999
  else if decide (t < 40)%nat then 0x6ED9EBA1
  else if decide (t < 60)%nat then 0x8F1BBCDC else 0xCA62C1D6.

(** The first [n] words of the message schedule of the block [M]. *)
Fixpoint fips_W (M : list Z) (n : nat) : list Z :=
  match n with
  | O => []
  | S t =>
      let W := fips_W M t in
      W ++ [if decide (t < 16)%nat then nth t M 0
            else ROTL 1 (Z.lxor (Z.lxor (Z.lxor (nth (t - 3) W 0) (nth (t - 8) W 0))
                                        (nth (t - 14) W 0)) (nth (t - 16) W 0))]
  end.

Definition fips_step (W : list Z) (H : list Z) (t : nat) : list Z :=
  match H with
  | [a; b; c; d; e] =>
      [u32 (ROTL 5 a + fips_f t b c d + e + fips_K t + nth t W 0); a; ROTL 30 b; c; d]
  | _ => H
  end.

Definition fips_compress (H block : list Z) : list Z :=
  let W := fips_W (words SILC_GET32_MSB block) 80 in
  zip_with (fun x y => u32 (x + y)) H (foldl (fips_step W) H (seq 0 80)).

Definition sha1_spec : iterated_hash :=
  mkIterated [0x67452301; 0xEFCDAB89; 0x98BADCFE; 0x10325476; 0xC3D2E1F0] fips_compress
    SILC_PUT64_MSB (fun H => concat (SILC_PUT32_MSB <$> H)).

(** ** The transform computes the compression function *)

Lemma length_fips_W M n : length (fips_W M n) = n.
Proof. induction n as [|n IH]; [done|]. cbn [fips_W]. rewrite length_app, IH. cbn. lia. Qed.

Lemma fips_W_prefix M k n : (k < n)%nat -> nth k (fips_W M n) 0 = nth k (fips_W M (S k)) 0.
Proof.
  intros Hk. induction n as [|n IH]; [lia|]. destruct (decide (k = n)) as [->|]; [done|].
  cbn [fips_W]. rewrite app_nth1 by (rewrite length_fips_W; lia). apply IH. lia.
Qed.

Lemma fips_W_word M t n :
  (t < n)%nat ->
  let W := fips_W M n in
  nth t W 0 = if decide (t < 16)%nat then nth t M 0
              else ROTL 1 (Z.lxor (Z.lxor (Z.lxor (nth (t - 3) W 0) (nth (t - 8) W 0))
                                          (nth (t - 14) W 0)) (nth (t - 16) W 0)).
Proof.
  intros Ht. cbn zeta. rewrite fips_W_prefix by done. cbn [fips_W].
  rewrite app_nth2 by (rewrite length_fips_W; lia). rewrite length_fips_W, Nat.sub_diag. cbn [nth].
  destruct (decide (t < 16)%nat); [done|].
  by rewrite !(fips_W_prefix M _ n), !(fips_W_prefix M _ t) by lia.
Qed.

Section Transform.
Variable block : list Z.

(** The schedule of the block. *)
Variable W80 : list Z.
Hypothesis schedule : forall t, (t < 80)%nat ->
  nth t W80 0 =
  if decide (t < 16)%nat then nth t (words SILC_GET32_MSB block) 0
  else ROTL 1 (Z.lxor (Z.lxor (Z.lxor (nth (t - 3) W80 0) (nth (t - 8) W80 0))
                              (nth (t - 14) W80 0)) (nth (t - 16) W80 0)).

(** The sixteen-word buffer holds the last words of the schedule. *)
Definition window (t : nat) (W : list Z) : Prop :=
  length W = 16%nat /\
  forall j, (j < t <= j + 16)%nat -> nth (Nat.modulo j 16) W 0 = nth j W80 0.

Lemma window_next t W :
  (t < 80)%nat -> window t W -> window (S t) (<[Nat.modulo t 16 := nth t W80 0]> W).
Proof.
  intros Ht [HW Hj]. pose proof (Nat.mod_upper_bound t 16 ltac:(lia)).
  split; [by rewrite length_insert|]. intros j Hr.
  destruct (decide (j = t)) as [->|].
  - rewrite nth_insert_eq; [done|lia].
  - rewrite nth_insert_ne; [apply Hj; lia|]. intros E.
    assert (exists q, t = (j + q * 16)%nat \/ j = (t + q * 16)%nat) as [q [-> | ->]]; [|lia..].
    pose proof (Nat.div_mod_eq t 16). pose proof (Nat.div_mod_eq j 16).
    exists (t / 16 - j / 16)%nat. left. lia.
Qed.

Lemma GET_WORD_msb cp : GET_WORD cp = SILC_GET32_MSB cp.
Proof. done. Qed.

Definition blk (t : nat) : sha1_vars -> nat -> Z * list Z :=
  if decide (t < 16)%nat then blk0 else blk1.

Lemma window_wrap t m W :
  window t W -> (16 <= t)%nat -> (m < 16)%nat ->
  Wi W (Nat.modulo (t + m) 16) = nth (t - (16 - m)) W80 0.
Proof.
  intros [_ Hj] Ht Hm. unfold Wi. rewrite <- Hj by lia. f_equal.
  replace (t + m)%nat with (t - (16 - m) + 1 * 16)%nat by lia. apply Nat.Div0.mod_add.
Qed.

Lemma blk_ok t s :
  (t < 80)%nat -> window t (v_W s) ->
  ((t < 16)%nat -> v_data s = zdrop (4 * Z.of_nat t) block) ->
  blk t s t = (nth t W80 0, <[Nat.modulo t 16 := nth t W80 0]> (v_W s)).
Proof.
  intros Ht HW Hd. pose proof (schedule t Ht) as E.
  unfold blk. destruct (decide (t < 16)%nat) as [L|L].
  - unfold blk0. rewrite GET_WORD_msb, Hd, Nat.mod_small by done.
    enough (SILC_GET32_MSB (zdrop (4 * Z.of_nat t) block) = nth t W80 0) as -> by done.
    rewrite E. unfold words. symmetry. apply nth_lookup_Some.
    by rewrite list_lookup_fmap, lookup_seq_lt by done.
  - unfold blk1. rewrite E. pose proof (window_wrap t 0 _ HW) as E16.
    rewrite Nat.add_0_r in E16.
    rewrite (window_wrap t 13 _ HW), (window_wrap t 8 _ HW), (window_wrap t 2 _ HW), E16 by lia.
    reflexivity.
Qed.

Definition code_f (t : nat) : Z -> Z -> Z -> Z :=
  if decide (t < 20)%nat then f1 else if decide (t < 40)%nat then f2
  else if decide (t < 60)%nat then f3 else f4.

Lemma sha1_code_f_ok t x y z : code_f t x y z = fips_f t x y z.
Proof.
  unfold code_f, fips_f. repeat case_decide; try done.
  - apply choose_xor.
  - unfold f3. apply Z.bits_inj'. intros n Hn.
    rewrite !Z.lxor_spec, Z.lor_spec, !Z.land_spec, Z.lor_spec.
    by destruct (Z.testbit x n), (Z.testbit y n), (Z.testbit z n).
Qed.

Definition round (t : nat) : sha1_vars -> sha1_vars :=
  let p k := place 5 k t in
  R (code_f t) (blk t) (fips_K t) (if decide (t < 16)%nat then 4 else 0)
    (p 0%nat) (p 1%nat) (p 2%nat) (p 3%nat) (p 4%nat) t.

Lemma sha1_rounds_eq : sha1_rounds = round <$> seq 0 80.
Proof. reflexivity. Qed.

(** The registers of one round, and the step it stands for. *)
Lemma sha1_view_round t g F regs :
  length regs = 5%nat ->
  let p k := place 5 k t in
  let regs1 := <[p 4%nat := F]> regs in
  view 5 (S t) (<[p 1%nat := g (nth (p 1%nat) regs1 0)]> regs1) =
  [F; nth (p 0%nat) regs 0; g (nth (p 1%nat) regs 0); nth (p 2%nat) regs 0;
   nth (p 3%nat) regs 0].
Proof.
  intros Hl. cbn zeta. unfold view. cbn [seq fmap list_fmap].
  rewrite !(place_S 5 _ t), !(place_mod 5 _ t) by lia.
  pose proof (Nat.mod_upper_bound t 5 ltac:(lia)). set (r := Nat.modulo t 5) in *. clearbody r.
  destruct regs as [|r0 [|r1 [|r2 [|r3 [|r4 [|]]]]]]; try done.
  do 5 (destruct r as [|r]; [done|]). lia.
Qed.

Lemma sha1_round_ok t s :
  (t < 80)%nat -> length (v_regs s) = 5%nat -> window t (v_W s) ->
  ((t < 16)%nat -> v_data s = zdrop (4 * Z.of_nat t) block) ->
  let s' := round t s in
  length (v_regs s') = 5%nat /\ window (S t) (v_W s') /\
  ((S t < 16)%nat -> v_data s' = zdrop (4 * Z.of_nat (S t)) block) /\
  view 5 (S t) (v_regs s') = fips_step W80 (view 5 t (v_regs s)) t.
Proof.
  intros Ht Hl HW Hd. unfold round, R. rewrite blk_ok by done. cbn [v_regs v_W v_data].
  split; [by rewrite !length_insert|]. split; [by apply window_next|]. split.
  - intros L. rewrite decide_True by lia. rewrite Hd, zdrop_zdrop by lia. f_equal. lia.
  - rewrite (sha1_view_round t (fun x => rol x 30)) by done. unfold view. cbn [seq fmap list_fmap fips_step].
    f_equal. rewrite sha1_code_f_ok. f_equal.
    change (rol ?x 5) with (ROTL 5 x). lia.
Qed.

Lemma sha1_rounds_ok t s0 :
  (t <= 80)%nat -> length (v_regs s0) = 5%nat -> window 0 (v_W s0) -> v_data s0 = block ->
  let s := foldl (fun s r => r s) s0 (round <$> seq 0 t) in
  length (v_regs s) = 5%nat /\ window t (v_W s) /\
  ((t < 16)%nat -> v_data s = zdrop (4 * Z.of_nat t) block) /\
  view 5 t (v_regs s) = foldl (fips_step W80) (v_regs s0) (seq 0 t).
Proof.
  intros Ht Hl HW Hd. cbn zeta. induction t as [|t IH].
  - cbn [seq fmap list_fmap foldl]. rewrite view_0 by done. by rewrite zdrop_0 by lia.
  - rewrite seq_S, fmap_app, !foldl_app. cbn [Nat.add fmap list_fmap foldl].
    destruct (IH ltac:(lia)) as (I1 & I2 & I3 & I4). rewrite <- I4.
    apply sha1_round_ok; [lia|done..].
Qed.
End Transform.

Lemma window_start W80 : window W80 0 (zeros 16).
Proof. split; [done|]. lia. Qed.

(** The optimised transform is the compression function of the standard. *)
Lemma transform_fips state block :
  length state = 5%nat -> SHA1Transform state block = fips_compress state block.
Proof.
  intros Hl. unfold SHA1Transform, fips_compress. rewrite sha1_rounds_eq.
  set (W80 := fips_W _ 80).
  assert (HW : forall t, (t < 80)%nat -> nth t W80 0 = _) by (intros t Ht; by apply fips_W_word).
  destruct (sha1_rounds_ok block W80 HW 80 (mkVars state (zeros 16) block))
    as (E1 & _ & _ & E4); [lia|done|apply window_start|done|].
  clearbody W80. f_equal. cbn [v_regs] in E4. rewrite <- E4.
  by rewrite (view_period 5 16) by done.
Qed.

(** ** Contexts *)

Lemma fips_step_len W H t : length H = 5%nat -> length (fips_step W H t) = 5%nat.
Proof. by destruct H as [|? [|? [|? [|? [|? []]]]]]. Qed.

Lemma fips_compress_len H block : length H = 5%nat -> length (fips_compress H block) = 5%nat.
Proof.
  intros Hl. unfold fips_compress.
  assert (E : forall l r, length r = 5%nat ->
    length (foldl (fips_step (fips_W (words SILC_GET32_MSB block) 80)) r l) = 5%nat).
  { induction l as [|t l IH]; intros r Hr; [done|]. cbn [foldl]. by apply IH, fips_step_len. }
  rewrite length_zip_with, (E _ _ Hl), Hl. done.
Qed.

Lemma fips_block st l : fips_compress st (ztake 64 l) = fips_compress st l.
Proof. unfold fips_compress. by rewrite (words_block _ _ get32_take). Qed.

Abbreviation sha1_streamed := (streamed fips_compress (ih_iv sha1_spec)).

(** The context after the message [m]. *)
Definition sha1_ctx (m : list Z) (c : SHA1_CTX) : Prop :=
  sha1_streamed m (sha_state c) (sha_buffer c) /\ length (sha_state c) = 5%nat /\
  bit_count (zlen m) (sha_count0 c) (sha_count1 c).

Lemma sha1_init_ok c : zlen (sha_buffer c) = 64 -> sha1_ctx [] (SHA1Init c).
Proof. intros Hb. split; [by apply streamed_nil|done]. Qed.

(** The blocks of the data that are hashed where they are. *)
Lemma sha1_blocks_ok m data buf fuel : forall st i,
  zlen data <= 4294967232 -> 0 <= i <= zlen data ->
  sha1_streamed (m ++ ztake i data) st buf -> length st = 5%nat ->
  (zlen m + i) mod 64 = 0 -> (zlen data - i) / 64 < Z.of_nat fuel ->
  exists st' i', sha1_blocks fuel st data i (zlen data) = (st', i') /\
    i <= i' <= zlen data /\ zlen data - i' < 64 /\ (zlen m + i') mod 64 = 0 /\
    length st' = 5%nat /\ sha1_streamed (m ++ ztake i' data) st' buf.
Proof.
  induction fuel as [|fuel IH]; intros st i Hd Hi Hs Hst Hm Hf.
  - exfalso. pose proof (Z.div_pos (zlen data - i) 64). lia.
  - cbn [sha1_blocks]. rewrite u32_id by lia. destruct (Z.ltb_spec (i + 63) (zlen data)) as [L|L].
    + rewrite transform_fips by done.
      destruct (IH (fips_compress st (zdrop i data)) (i + 64)) as (st' & i' & E & H1 & H2 & H3 & H4);
        [done|lia| |by apply fips_compress_len|by rewrite Z.add_assoc, <- Z.add_mod_idemp_r, Z.add_0_r by lia| |].
      * replace (ztake (i + 64) data) with (ztake i data ++ ztake 64 (zdrop i data)).
        -- rewrite app_assoc. apply streamed_direct; [apply fips_block|done| | |done].
           ++ by rewrite zlen_app, zlen_take by lia.
           ++ rewrite zlen_take; rewrite ?zlen_drop; lia.
        -- rewrite ztake_zdrop by lia. rewrite <- (ztake_ztake (i + 64) i) by lia.
           apply ztake_drop.
      * assert ((zlen data - (i + 64)) / 64 = (zlen data - i) / 64 - 1) by (Z.div_mod_to_equations; lia).
        lia.
      * exists st', i'. split; [done|]. split; [lia|]. done.
    + exists st, i. split; [done|]. split; [lia|]. split; [lia|]. done.
Qed.

Lemma sha1_update_ok m c x :
  hashable x -> sha1_ctx m c -> sha1_ctx (m ++ x) (SHA1Update c x (zlen x)).
Proof.
  unfold hashable. intros Hx (Hs & Hst & Hc). zlen_facts.
  pose proof (Z.mod_pos_bound (zlen m) 64 ltac:(lia)) as Bm.
  pose proof (bit_count_add (zlen m) _ _ (zlen x) _ ltac:(lia) ltac:(lia) Hc (or_introl eq_refl)) as Hc'.
  unfold SHA1Update. rewrite (bit_count_bytes (zlen m) _ _ ltac:(lia) Hc), u32_id by lia.
  set (j := zlen m mod 64) in *. unfold sha1_ctx. rewrite zlen_app.
  destruct (Z.ltb_spec 63 (j + zlen x)) as [L|L].
  - assert (Hfill : zlen m mod 64 + zlen (ztake (64 - j) x) = 64)
      by (rewrite zlen_take; lia).
    pose proof (streamed_fill _ _ fips_block m _ _ _ Hs Hfill) as Hf. cbn zeta in Hf.
    fold j in Hf. set (buf := splice j _ _) in *. rewrite transform_fips by done.
    destruct (sha1_blocks_ok m x buf (S (Z.to_nat (zlen x / 64))) (fips_compress (sha_state c) buf)
      (64 - j)) as (st' & i & -> & H1 & H2 & H3 & H4 & H5); [done|lia|done|by apply fips_compress_len| | |].
    + replace (zlen m + (64 - j)) with ((zlen m / 64 + 1) * 64); [apply Z.mod_mul; lia|].
      pose proof (Z_div_mod_eq_full (zlen m) 64). lia.
    + rewrite Nat2Z.inj_succ, Z2Nat.id by (apply Z.div_pos; lia).
      pose proof (Z.div_le_mono (zlen x - (64 - j)) (zlen x) 64). lia.
    + split; [|by split]. cbn [sha_state sha_buffer].
      rewrite (ztake_ge (zlen x - i)) by (rewrite zlen_drop; lia).
      assert (Hl : zlen (m ++ ztake i x) mod 64 = 0) by (by rewrite zlen_app, zlen_take by lia).
      pose proof (streamed_part _ _ _ _ _ (zdrop i x) H5) as Hp.
      rewrite Hl, <- app_assoc, ztake_drop in Hp. apply Hp. rewrite zlen_drop; lia.
  - split; [|by split]. cbn [sha_state sha_buffer]. rewrite ztake_ge by lia.
    apply streamed_part; [done|]. fold j. lia.
Qed.

Lemma sha1_pad_ok fuel : forall m c k,
  sha1_ctx m c -> 0 <= k < 64 -> (zlen m + k) mod 64 = 56 -> k <= Z.of_nat fuel ->
  sha1_ctx (m ++ zeros k) (sha1_pad fuel c).
Proof.
  induction fuel as [|fuel IH]; intros m c k Hc Hk E Hf.
  - assert (k = 0) as -> by lia. cbn. by rewrite app_nil_r.
  - cbn [sha1_pad]. pose proof Hc as (_ & _ & Hn). zlen_facts.
    rewrite (bit_count_low (zlen m) _ _ ltac:(lia) Hn).
    destruct (Z.eqb_spec (8 * (zlen m mod 64)) 448) as [E1|E1].
    + assert (k = 0) as -> by (Z.div_mod_to_equations; lia). cbn. by rewrite app_nil_r.
    + assert (0 < k) by (Z.div_mod_to_equations; lia).
      replace (zeros k) with ([0] ++ zeros (k - 1)).
      * rewrite app_assoc. apply IH; [by apply (sha1_update_ok m c [0])|lia| |lia].
        rewrite zlen_app. change (zlen [0]) with 1. rewrite <- E. f_equal. lia.
      * change [0] with (zeros 1). rewrite <- zeros_app by lia. f_equal. lia.
Qed.

Lemma word_bytes w : (fun i => word_byte w i) <$> seqZ 0 4 = SILC_PUT32_MSB w.
Proof.
  assert (E : forall x, Z.land x 255 = u8 x)
    by (intros x; change 255 with (Z.ones 8); by rewrite Z.land_ones by lia).
  change (_ <$> _) with [Z.land (Z.shiftr w 24) 255; Z.land (Z.shiftr w 16) 255;
                         Z.land (Z.shiftr w 8) 255; Z.land (Z.shiftr w 0) 255].
  by rewrite !E, Z.shiftr_0_r.
Qed.

(** The end of the computation. *)
Lemma sha1_final_ok m c :
  sha1_ctx m c -> (SHA1Final c).2 = md_digest sha1_spec m.
Proof.
  intros Hc. pose proof Hc as (_ & _ & Hn). zlen_facts.
  unfold SHA1Final. cbn [snd]. set (fin := _ <$> seqZ 0 8).
  assert (Ef : fin = SILC_PUT64_MSB (u64 (8 * zlen m))).
  { rewrite (bit_count_u64 (zlen m) _ _ ltac:(lia) Hn).
    pose proof Hn as [E0 E1].
    rewrite put64_words by (rewrite ?E0, ?E1; apply u32_range).
    rewrite <- !word_bytes. reflexivity. }
  set (k := (55 - zlen m) mod 64).
  pose proof (Z.mod_pos_bound (55 - zlen m) 64 ltac:(lia)) as Hk. fold k in Hk.
  pose proof (sha1_update_ok m c [128] ltac:(by unfold hashable) Hc) as H1.
  apply (sha1_pad_ok 64 _ _ k) in H1; [|done| |lia].
  2: { rewrite zlen_app. change (zlen [128]) with 1. unfold k. Z.div_mod_to_equations. lia. }
  apply (sha1_update_ok _ _ fin) in H1; [|rewrite Ef; done].
  rewrite <- !app_assoc, Ef in H1. rewrite Ef. change (zlen [128]) with 1 in H1.
  change (zlen (SILC_PUT64_MSB _)) with 8 in H1.
  set (c' := SHA1Update _ _ 8) in *. destruct H1 as (Hs & Hl & _).
  rewrite <- (streamed_digest sha1_spec m _ _ Hs).
  cbn [ih_out sha1_spec]. destruct (sha_state c') as [|a [|b [|d [|e [|f []]]]]]; try done.
  cbn [fmap list_fmap concat]. rewrite <- !word_bytes. reflexivity.
Qed.

(** ** The hash object *)

#[export] Instance sha1_hash : HashOps SHA1_CTX := {|
  hash_len := 20;
  hash_block_len := 64;
  hash_init := fun c => SHA1Init (mkSha1 (sha_state c) (sha_count0 c) (sha_count1 c)
                                    (sized (sha_buffer c)));
  hash_update := fun c data => SHA1Update c data (zlen data);
  hash_final := SHA1Final
|}.

Lemma sha1_updates_ok l : forall m c,
  Forall hashable l -> sha1_ctx m c -> sha1_ctx (m ++ concat l) (foldl hash_update c l).
Proof.
  induction l as [|x l IH]; intros m c Hl Hc; cbn [concat foldl]; [by rewrite app_nil_r|].
  apply list.Forall_cons in Hl as [Hx Hl]. rewrite app_assoc. apply IH; [done|].
  by apply sha1_update_ok.
Qed.

Lemma sha1_out_len m : zlen (md_digest sha1_spec m) = 20.
Proof.
  unfold md_digest. set (p := m ++ _). unfold sha1_spec; cbn [ih_out ih_compress ih_iv].
  destruct (absorb_ext fips_compress fips_compress (fun st => length st = 5%nat) (blocks p)) with
    (st := ih_iv sha1_spec) (l := p) as [_ Hl]; [|done|].
  - intros st l Hst. split; [done|by apply fips_compress_len].
  - cbn [ih_iv sha1_spec] in Hl. set (st := absorb _ _ _ p) in *.
    by destruct st as [|? [|? [|? [|? [|? []]]]]].
Qed.

#[export] Instance sha1_laws : HashLaws SHA1_CTX.
Proof.
  refine {| digest := md_digest sha1_spec |}; [done|apply sha1_out_len|].
  intros c l Hl. apply sha1_final_ok. apply (sha1_updates_ok l [] _ Hl).
  apply sha1_init_ok. cbn. apply zlen_sized.
Qed.

(** ** Properties *)

(** C26: SHA-1.  A context that is initialised, given a message in any number of
    pieces of any lengths, and finished gives the SHA-1 digest of FIPS 180 of
    the whole message: the buffering, the padding, the 64-bit count with its
    carry and the unrolled transform with its sixteen-word buffer are right. *)
Theorem sha1_refines (c : SHA1_CTX) (l : list (list Z)) :
  zlen (sha_buffer c) = 64 -> Forall hashable l ->
  (SHA1Final (foldl (fun c x => SHA1Update c x (zlen x)) (SHA1Init c) l)).2 =
  md_digest sha1_spec (concat l).
Proof.
  intros Hb Hl. apply sha1_final_ok. apply (sha1_updates_ok l [] _ Hl). by apply sha1_init_ok.
Qed.

Lemma sha1_refines_witness :
  (SHA1Final (foldl (fun c x => SHA1Update c x (zlen x)) (SHA1Init (mkSha1 [] 7 7 (zeros 64)))
     [[97]; zeros 70; []; [98; 99]])).2 = md_digest sha1_spec (97 :: zeros 70 ++ [98; 99]).
Proof.
  apply (sha1_refines (mkSha1 [] 7 7 (zeros 64)) [[97]; zeros 70; []; [98; 99]]); by_compute.
Defined.

(** With a length within 63 of what [SilcUInt32] holds, the sum that decides
    whether the data fills the buffer wraps, and all of the data is copied
    behind what the buffer holds. *)
Lemma sha1_update_wrap (c : SHA1_CTX) (data : list Z) :
  zlen (sha_buffer c) = 64 -> sha_count0 c = 8 -> zlen data = 4294967295 ->
  zlen (sha_buffer (SHA1Update c data (zlen data))) = 4294967296.
Proof.
  intros Hb Hc Hl. unfold SHA1Update. rewrite Hc, Hl. cbn [sha_buffer].
  change (Z.land (Z.shiftr 8 3) 63) with 1. change (u32 (1 + 4294967295)) with 0.
  cbn [Z.ltb Z.compare sha_buffer]. rewrite ztake_ge, zlen_splice_max by lia. lia.
Qed.
