(* ===== verification/Sha256.v ===== *)
(** * SHA-256 ([lib/silccrypt/sha256.c])

    The compression with its registers renamed from round to round, the
    buffering of the message and the padding, shown to be SHA-256 as FIPS 180
    defines it; the context is an instance of [HashLaws]. *)

From S2P Require Import Prelude CTypes MerkleDamgard Hmac.

(** ** The compression *)

(** The portable rotation; [x] and [y] are the macro's arguments. *)
Definition RORc (x y : Z) : Z :=
  Z.land (Z.lor (Z.shiftr (Z.land x 0xFFFFFFFF) (Z.land y 31))
                (Z.shiftl x (32 - Z.land y 31))) 0xFFFFFFFF.

Definition Ch (x y z : Z) : Z := Z.lxor z (Z.land x (Z.lxor y z)).
Definition Maj (x y z : Z) : Z := Z.lor (Z.land (Z.lor x y) z) (Z.land x y).
(** The macro [S(x, n)]. *)
Definition rotr (x n : Z) : Z := RORc x n.
Definition R (x n : Z) : Z := Z.shiftr (Z.land x 0xFFFFFFFF) n.
Definition Sigma0 (x : Z) : Z := Z.lxor (Z.lxor (rotr x 2) (rotr x 13)) (rotr x 22).
Definition Sigma1 (x : Z) : Z := Z.lxor (Z.lxor (rotr x 6) (rotr x 11)) (rotr x 25).
Definition Gamma0 (x : Z) : Z := Z.lxor (Z.lxor (rotr x 7) (rotr x 18)) (R x 3).
Definition Gamma1 (x : Z) : Z := Z.lxor (Z.lxor (rotr x 17) (rotr x 19)) (R x 10).

(** [RND(S[a],...,S[h],i,ki)]. *)
Definition RND (a b c d e f g h i : nat) (ki : Z) (W S : list Z) : list Z :=
  let r n := nth n S 0 in
  let t0 := u32 (r h + Sigma1 (r e) + Ch (r e) (r f) (r g) + ki + nth i W 0) in
  let t1 := u32 (Sigma0 (r a) + Maj (r a) (r b) (r c)) in
  <[h := u32 (t0 + t1)]> (<[d := u32 (r d + t0)]> S).

Definition sha256_rounds : list (list Z -> list Z -> list Z) :=
  [RND 0 1 2 3 4 5 6 7  0 0x428a2f98;
   RND 7 0 1 2 3 4 5 6  1 0x71374491;
   RND 6 7 0 1 2 3 4 5  2 0xb5c0fbcf;
   RND 5 6 7 0 1 2 3 4  3 0xe9b5dba5;
   RND 4 5 6 7 0 1 2 3  4 0x3956c25b;
   RND 3 4 5 6 7 0 1 2  5 0x59f111f1;
   RND 2 3 4 5 6 7 0 1  6 0x923f82a4;
   RND 1 2 3 4 5 6 7 0  7 0xab1c5ed5;
   RND 0 1 2 3 4 5 6 7  8 0xd807aa98;
   RND 7 0 1 2 3 4 5 6  9 0x12835b01;
   RND 6 7 0 1 2 3 4 5 10 0x243185be;
   RND 5 6 7 0 1 2 3 4 11 0x550c7dc3;
   RND 4 5 6 7 0 1 2 3 12 0x72be5d74;
   RND 3 4 5 6 7 0 1 2 13 0x80deb1fe;
   RND 2 3 4 5 6 7 0 1 14 0x9bdc06a7;
   RND 1 2 3 4 5 6 7 0 15 0xc19bf174;
   RND 0 1 2 3 4 5 6 7 16 0xe49b69c1;
   RND 7 0 1 2 3 4 5 6 17 0xefbe4786;
   RND 6 7 0 1 2 3 4 5 18 0x0fc19dc6;
   RND 5 6 7 0 1 2 3 4 19 0x240ca1cc;
   RND 4 5 6 7 0 1 2 3 20 0x2de92c6f;
   RND 3 4 5 6 7 0 1 2 21 0x4a7484aa;
   RND 2 3 4 5 6 7 0 1 22 0x5cb0a9dc;
   RND 1 2 3 4 5 6 7 0 23 0x76f988da;
   RND 0 1 2 3 4 5 6 7 24 0x983e5152;
   RND 7 0 1 2 3 4 5 6 25 0xa831c66d;
   RND 6 7 0 1 2 3 4 5 26 0xb00327c8;
   RND 5 6 7 0 1 2 3 4 27 0xbf597fc7;
   RND 4 5 6 7 0 1 2 3 28 0xc6e00bf3;
   RND 3 4 5 6 7 0 1 2 29 0xd5a79147;
   RND 2 3 4 5 6 7 0 1 30 0x06ca6351;
   RND 1 2 3 4 5 6 7 0 31 0x14292967;
   RND 0 1 2 3 4 5 6 7 32 0x27b70a85;
   RND 7 0 1 2 3 4 5 6 33 0x2e1b2138;
   RND 6 7 0 1 2 3 4 5 34 0x4d2c6dfc;
   RND 5 6 7 0 1 2 3 4 35 0x53380d13;
   RND 4 5 6 7 0 1 2 3 36 0x650a7354;
   RND 3 4 5 6 7 0 1 2 37 0x766a0abb;
   RND 2 3 4 5 6 7 0 1 38 0x81c2c92e;
   RND 1 2 3 4 5 6 7 0 39 0x92722c85;
   RND 0 1 2 3 4 5 6 7 40 0xa2bfe8a1;
   RND 7 0 1 2 3 4 5 6 41 0xa81a664b;
   RND 6 7 0 1 2 3 4 5 42 0xc24b8b70;
   RND 5 6 7 0 1 2 3 4 43 0xc76c51a3;
   RND 4 5 6 7 0 1 2 3 44 0xd192e819;
   RND 3 4 5 6 7 0 1 2 45 0xd6990624;
   RND 2 3 4 5 6 7 0 1 46 0xf40e3585;
   RND 1 2 3 4 5 6 7 0 47 0x106aa070;
   RND 0 1 2 3 4 5 6 7 48 0x19a4c116;
   RND 7 0 1 2 3 4 5 6 49 0x1e376c08;
   RND 6 7 0 1 2 3 4 5 50 0x2748774c;
   RND 5 6 7 0 1 2 3 4 51 0x34b0bcb5;
   RND 4 5 6 7 0 1 2 3 52 0x391c0cb3;
   RND 3 4 5 6 7 0 1 2 53 0x4ed8aa4a;
   RND 2 3 4 5 6 7 0 1 54 0x5b9cca4f;
   RND 1 2 3 4 5 6 7 0 55 0x682e6ff3;
   RND 0 1 2 3 4 5 6 7 56 0x748f82ee;
   RND 7 0 1 2 3 4 5 6 57 0x78a5636f;
   RND 6 7 0 1 2 3 4 5 58 0x84c87814;
   RND 5 6 7 0 1 2 3 4 59 0x8cc70208;
   RND 4 5 6 7 0 1 2 3 60 0x90befffa;
   RND 3 4 5 6 7 0 1 2 61 0xa4506ceb;
   RND 2 3 4 5 6 7 0 1 62 0xbef9a3f7;
   RND 1 2 3 4 5 6 7 0 63 0xc67178f2].

(** [W[i] = Gamma1(W[i - 2]) + W[i - 7] + Gamma0(W[i - 15]) + W[i - 16]]. *)
Definition fill_W (W : list Z) (i : nat) : list Z :=
  <[i := u32 (Gamma1 (nth (i - 2) W 0) + nth (i - 7) W 0 + Gamma0 (nth (i - 15) W 0) +
              nth (i - 16) W 0)]> W.

Definition sha256_compress (state buf : list Z) : list Z :=
  let W := foldl (fun W i => <[i := SILC_GET32_MSB (zdrop (4 * Z.of_nat i) buf)]> W)
             (zeros 64) (seq 0 16) in
  let W := foldl fill_W W (seq 16 48) in
  let S := foldl (fun S rnd => rnd W S) state sha256_rounds in
  zip_with (fun x y => u32 (x + y)) state S.

(** ** The context *)

Record sha256_state := mkSha256 {
  md_length : Z;
  md_state : list Z;
  md_curlen : Z;
  md_buf : list Z
}.

Definition sha256_init (md : sha256_state) : sha256_state :=
  mkSha256 0 [0x6A09E667; 0xBB67AE85; 0x3C6EF372; 0xA54FF53A; 0x510E527F; 0x9B05688C;
              0x1F83D9AB; 0x5BE0CD19] 0 (md_buf md).

(** The loop of [sha256_process]; every round takes a byte or more. *)
Fixpoint sha256_loop (fuel : nat) (md : sha256_state) (i : list Z) (inlen : Z) : sha256_state :=
  match fuel with
  | O => md
  | S fuel =>
      if 0 <? inlen then
        if (md_curlen md =? 0) && (64 <=? inlen) then
          let md := mkSha256 (u64 (md_length md + 64 * 8)) (sha256_compress (md_state md) i)
                      (md_curlen md) (md_buf md) in
          sha256_loop fuel md (zdrop 64 i) (inlen - 64)
        else
          let n := Z.min inlen (64 - md_curlen md) in
          let buf := splice (md_curlen md) (ztake n i) (md_buf md) in
          let curlen := md_curlen md + n in
          let md :=
            if curlen =? 64 then
              mkSha256 (u64 (md_length md + 64 * 8)) (sha256_compress (md_state md) buf) 0 buf
            else mkSha256 (md_length md) (md_state md) curlen buf in
          sha256_loop fuel md (zdrop n i) (inlen - n)
      else md
  end.

Definition sha256_process (md : sha256_state) (i : list Z) (inlen : Z) : sha256_state * bool :=
  if 64 <? md_curlen md then (md, false)
  else (sha256_loop (Z.to_nat inlen) md i inlen, true).

(** [while (curlen < n) buf[curlen++] = 0;] *)
Fixpoint sha256_zero (fuel : nat) (n curlen : Z) (buf : list Z) : Z * list Z :=
  match fuel with
  | O => (curlen, buf)
  | S fuel =>
      if curlen <? n then sha256_zero fuel n (curlen + 1) (splice curlen [0] buf)
      else (curlen, buf)
  end.

(** The digest written at [out], when the call succeeds. *)
Definition sha256_done (md : sha256_state) : sha256_state * option (list Z) :=
  if 64 <=? md_curlen md then (md, None)
  else
    let length := u64 (md_length md + md_curlen md * 8) in
    let buf := splice (md_curlen md) [128] (md_buf md) in
    let curlen := md_curlen md + 1 in
    let '(state, curlen, buf) :=
      if 56 <? curlen then
        let '(_, buf) := sha256_zero 64 64 curlen buf in
        (sha256_compress (md_state md) buf, 0, buf)
      else (md_state md, curlen, buf) in
    let '(curlen, buf) := sha256_zero 64 56 curlen buf in
    let buf := splice 56 (SILC_PUT64_MSB length) buf in
    let state := sha256_compress state buf in
    (mkSha256 length state curlen buf, Some (concat (SILC_PUT32_MSB <$> state))).

Example sha256_abc :
  (sha256_done (sha256_process (sha256_init (mkSha256 0 [] 0 (zeros 64))) [97; 98; 99] 3).1).2 =
  Some [0xba; 0x78; 0x16; 0xbf; 0x8f; 0x01; 0xcf; 0xea; 0x41; 0x41; 0x40; 0xde; 0x5d; 0xae;
        0x22; 0x23; 0xb0; 0x03; 0x61; 0xa3; 0x96; 0x17; 0x7a; 0x9c; 0xb4; 0x10; 0xff; 0x61;
        0xf2; 0x00; 0x15; 0xad].
Proof. vm_compute. reflexivity. Qed.

(** ** SHA-256 as FIPS 180 defines it *)

(** The first 32 bits of the fractional parts of the cube roots of the first 64
    primes: [cbrt b n] is the integer cube root, below [2^b], of [n]. *)
Fixpoint cbrt (b : nat) (n r : Z) : Z :=
  match b with
  | O => r
  | S b =>
      let r' := r + 2 ^ Z.of_nat b in
      cbrt b n (if r' * r' * r' <=? n then r' else r)
  end.

Definition small_prime (n : Z) : bool :=
  forallb (fun d => negb (n mod d =? 0) || (d =? n)) (seqZ 2 (n - 1)).

Definition cube_root_words (primes : list Z) : list Z :=
  (fun p => cbrt 36 (p * 2 ^ 96) 0 mod 2 ^ 32) <$> primes.

Definition fips256_K : list Z :=
  Eval vm_compute in cube_root_words (List.filter small_prime (seqZ 2 310)).

Definition fips_ch (x y z : Z) : Z := Z.lxor (Z.land x y) (Z.land (Z.lnot x) z).
Definition fips_maj (x y z : Z) : Z :=
  Z.lxor (Z.lxor (Z.land x y) (Z.land x z)) (Z.land y z).
Definition SHR (n x : Z) : Z := Z.shiftr (u32 x) n.
Definition fips_Sigma0 (x : Z) : Z := Z.lxor (Z.lxor (ROTR 2 x) (ROTR 13 x)) (ROTR 22 x).
Definition fips_Sigma1 (x : Z) : Z := Z.lxor (Z.lxor (ROTR 6 x) (ROTR 11 x)) (ROTR 25 x).
Definition fips_sigma0 (x : Z) : Z := Z.lxor (Z.lxor (ROTR 7 x) (ROTR 18 x)) (SHR 3 x).
Definition fips_sigma1 (x : Z) : Z := Z.lxor (Z.lxor (ROTR 17 x) (ROTR 19 x)) (SHR 10 x).

Fixpoint fips256_W (M : list Z) (n : nat) : list Z :=
  match n with
  | O => []
  | S t =>
      let W := fips256_W M t in
      W ++ [if decide (t < 16)%nat then nth t M 0
            else u32 (fips_sigma1 (nth (t - 2) W 0) + nth (t - 7) W 0 +
                      fips_sigma0 (nth (t - 15) W 0) + nth (t - 16) W 0)]
  end.

Definition fips256_step (W : list Z) (H : list Z) (t : nat) : list Z :=
  match H with
  | [a; b; c; d; e; f; g; h] =>
      let T1 := h + fips_Sigma1 e + fips_ch e f g + nth t fips256_K 0 + nth t W 0 in
      let T2 := fips_Sigma0 a + fips_maj a b c in
      [u32 (T1 + T2); a; b; c; u32 (d + T1); e; f; g]
  | _ => H
  end.

Definition fips256_compress (H block : list Z) : list Z :=
  let W := fips256_W (words SILC_GET32_MSB block) 64 in
  zip_with (fun x y => u32 (x + y)) H (foldl (fips256_step W) H (seq 0 64)).

Definition sha256_spec : iterated_hash :=
  mkIterated [0x6A09E667; 0xBB67AE85; 0x3C6EF372; 0xA54FF53A; 0x510E527F; 0x9B05688C;
              0x1F83D9AB; 0x5BE0CD19] fips256_compress
    SILC_PUT64_MSB (fun H => concat (SILC_PUT32_MSB <$> H)).

(** ** The compression function *)

Lemma length_fips256_W M n : length (fips256_W M n) = n.
Proof. induction n as [|n IH]; [done|]. cbn [fips256_W]. rewrite length_app, IH. cbn. lia. Qed.

Lemma fips256_W_prefix M k n :
  (k < n)%nat -> nth k (fips256_W M n) 0 = nth k (fips256_W M (S k)) 0.
Proof.
  intros Hk. induction n as [|n IH]; [lia|]. destruct (decide (k = n)) as [->|]; [done|].
  cbn [fips256_W]. rewrite app_nth1 by (rewrite length_fips256_W; lia). apply IH. lia.
Qed.

Lemma fips256_W_word M t n :
  (t < n)%nat ->
  let W := fips256_W M n in
  nth t W 0 = if decide (t < 16)%nat then nth t M 0
              else u32 (fips_sigma1 (nth (t - 2) W 0) + nth (t - 7) W 0 +
                        fips_sigma0 (nth (t - 15) W 0) + nth (t - 16) W 0).
Proof.
  intros Ht. cbn zeta. rewrite fips256_W_prefix by done. cbn [fips256_W].
  rewrite app_nth2 by (rewrite length_fips256_W; lia).
  rewrite length_fips256_W, Nat.sub_diag. cbn [nth].
  destruct (decide (t < 16)%nat); [done|].
  by rewrite !(fips256_W_prefix M _ n), !(fips256_W_prefix M _ t) by lia.
Qed.

Lemma RORc_ROTR x n : 0 <= n < 32 -> RORc x n = ROTR n x.
Proof.
  intros Hn. unfold RORc, ROTR. change 0xFFFFFFFF with (Z.ones 32). change 31 with (Z.ones 5).
  rewrite !Z.land_ones by lia. change (2 ^ 32) with 4294967296. change (2 ^ 5) with 32.
  rewrite (Z.mod_small n 32) by lia. fold (u32 x).
  set (a := Z.shiftr (u32 x) n). set (b := Z.shiftl x (32 - n)).
  pose proof (u32_range x). assert (Ha : 0 <= a < 2 ^ 32).
  { unfold a. rewrite Z.shiftr_div_pow2 by lia. assert (0 < 2 ^ n) by (apply Z.pow_pos_nonneg; lia).
    change (2 ^ 32) with 4294967296. split; [apply Z.div_pos; lia|].
    apply Z.div_lt_upper_bound; [lia|]. nia. }
  unfold u32. change 4294967296 with (2 ^ 32). rewrite <- !Z.land_ones by lia.
  rewrite Z.land_lor_distr_l. f_equal. rewrite Z.land_ones by lia. by apply Z.mod_small.
Qed.

Lemma Sigmas x :
  Sigma0 x = fips_Sigma0 x /\ Sigma1 x = fips_Sigma1 x /\
  Gamma0 x = fips_sigma0 x /\ Gamma1 x = fips_sigma1 x.
Proof.
  unfold Sigma0, Sigma1, Gamma0, Gamma1, rotr. rewrite !RORc_ROTR by lia.
  unfold R, fips_sigma0, fips_sigma1, SHR. change 0xFFFFFFFF with (Z.ones 32).
  by rewrite Z.land_ones by lia.
Qed.

Lemma Maj_maj x y z : Maj x y z = fips_maj x y z.
Proof.
  unfold Maj, fips_maj. apply Z.bits_inj'. intros n Hn.
  rewrite !Z.lxor_spec, Z.lor_spec, !Z.land_spec, Z.lor_spec.
  by destruct (Z.testbit x n), (Z.testbit y n), (Z.testbit z n).
Qed.

(** The array [W] after the words below [t] have been stored. *)
Definition stored (sched : list Z) (t : nat) (W : list Z) : Prop :=
  length W = 64%nat /\ forall j, (j < t)%nat -> nth j W 0 = nth j sched 0.

Lemma stored_next sched t W x :
  (t < 64)%nat -> stored sched t W -> x = nth t sched 0 -> stored sched (S t) (<[t := x]> W).
Proof.
  intros Ht [Hl Hj] ->. split; [by rewrite length_insert|]. intros j Hjt.
  destruct (decide (j = t)) as [->|]; [apply nth_insert_eq; lia|].
  rewrite nth_insert_ne by done. apply Hj. lia.
Qed.

Lemma W_filled block :
  let W := foldl (fun W i => <[i := SILC_GET32_MSB (zdrop (4 * Z.of_nat i) block)]> W)
             (zeros 64) (seq 0 16) in
  stored (fips256_W (words SILC_GET32_MSB block) 64) 64 (foldl fill_W W (seq 16 48)).
Proof.
  cbn zeta. set (M := words _ block). set (sched := fips256_W M 64).
  pose proof (fun t => fips256_W_word M t 64) as Hs. cbn zeta in Hs. fold sched in Hs.
  clearbody sched.
  assert (H1 : forall k, (k <= 16)%nat -> stored sched k
    (foldl (fun W i => <[i := SILC_GET32_MSB (zdrop (4 * Z.of_nat i) block)]> W)
       (zeros 64) (seq 0 k))).
  { induction k as [|k IH]; intros Hk; [split; [done|lia]|].
    rewrite seq_S, foldl_app. cbn [foldl]. apply stored_next; [lia|apply IH; lia|].
    rewrite Hs, decide_True by lia. symmetry. apply nth_lookup_Some.
    unfold M, words. by rewrite list_lookup_fmap, lookup_seq_lt by lia. }
  specialize (H1 16%nat ltac:(lia)). set (W0 := foldl _ _ (seq 0 16)) in *. clearbody W0.
  assert (H2 : forall k, (k <= 48)%nat -> stored sched (16 + k) (foldl fill_W W0 (seq 16 k))).
  { induction k as [|k IH]; intros Hk; [done|].
    rewrite seq_S, foldl_app. cbn [foldl]. replace (16 + S k)%nat with (S (16 + k)) by lia.
    pose proof (IH ltac:(lia)) as HW. apply stored_next; [lia|done|].
    destruct HW as [_ HW]. rewrite !HW by lia. rewrite (Hs (16 + k)%nat), decide_False by lia.
    set (x := nth (16 + k - 2) sched 0). set (y := nth (16 + k - 15) sched 0).
    destruct (Sigmas x) as (_ & _ & _ & ->). by destruct (Sigmas y) as (_ & _ & -> & _). }
  by apply (H2 48%nat).
Qed.

(** One round: [RND] on the renamed registers is a step. *)
Definition round (t : nat) : list Z -> list Z -> list Z :=
  let p k := place 8 k t in
  RND (p 0%nat) (p 1%nat) (p 2%nat) (p 3%nat) (p 4%nat) (p 5%nat) (p 6%nat) (p 7%nat) t
    (nth t fips256_K 0).

Lemma sha256_rounds_eq : sha256_rounds = round <$> seq 0 64.
Proof. reflexivity. Qed.

Lemma sha256_view_round t F G regs :
  length regs = 8%nat ->
  let p k := place 8 k t in
  let r k := nth (p k) regs 0 in
  view 8 (S t) (<[p 7%nat := F]> (<[p 3%nat := G]> regs)) =
  [F; r 0%nat; r 1%nat; r 2%nat; G; r 4%nat; r 5%nat; r 6%nat].
Proof.
  intros Hl. cbn zeta. unfold view. cbn [seq fmap list_fmap].
  rewrite !(place_S 8 _ t), !(place_mod 8 _ t) by lia.
  pose proof (Nat.mod_upper_bound t 8 ltac:(lia)). set (r := Nat.modulo t 8) in *. clearbody r.
  destruct regs as [|r0 [|r1 [|r2 [|r3 [|r4 [|r5 [|r6 [|r7 [|]]]]]]]]]; try done.
  do 8 (destruct r as [|r]; [done|]). lia.
Qed.

Lemma sha256_round_ok sched W t regs :
  (t < 64)%nat -> length regs = 8%nat -> stored sched 64 W ->
  length (round t W regs) = 8%nat /\
  view 8 (S t) (round t W regs) = fips256_step sched (view 8 t regs) t.
Proof.
  intros Ht Hl [_ HW]. unfold round, RND. split; [by rewrite !length_insert|].
  rewrite sha256_view_round by done. unfold view. cbn [seq fmap list_fmap fips256_step].
  rewrite HW by done.
  set (a := nth (place 8 0 t) regs 0). set (e := nth (place 8 4 t) regs 0).
  destruct (Sigmas a) as (-> & _ & _). destruct (Sigmas e) as (_ & -> & _).
  rewrite Maj_maj. unfold Ch. rewrite choose_xor. fold (fips_ch e (nth (place 8 5 t) regs 0)
    (nth (place 8 6 t) regs 0)).
  f_equal; [warith|]. do 3 f_equal. f_equal. warith.
Qed.

Lemma sha256_rounds_ok sched W t regs :
  (t <= 64)%nat -> length regs = 8%nat -> stored sched 64 W ->
  let S := foldl (fun S rnd => rnd W S) regs (round <$> seq 0 t) in
  length S = 8%nat /\ view 8 t S = foldl (fips256_step sched) regs (seq 0 t).
Proof.
  intros Ht Hl HW. cbn zeta. induction t as [|t IH].
  - split; [done|]. by apply view_0.
  - rewrite seq_S, fmap_app, !foldl_app. cbn [Nat.add fmap list_fmap foldl].
    destruct (IH ltac:(lia)) as [I1 I2]. rewrite <- I2. by apply sha256_round_ok.
Qed.

Lemma compress_fips state block :
  length state = 8%nat -> sha256_compress state block = fips256_compress state block.
Proof.
  intros Hl. unfold sha256_compress, fips256_compress. rewrite sha256_rounds_eq.
  pose proof (W_filled block) as HW. cbn zeta in HW.
  set (W := foldl fill_W _ _) in *. set (sched := fips256_W _ 64) in *.
  clearbody W sched. destruct (sha256_rounds_ok sched W 64 state) as [E1 E2]; [lia|done..|].
  f_equal. rewrite <- E2. by rewrite (view_period 8 8) by done.
Qed.

(** ** Contexts *)

Lemma fips256_step_len W H t : length H = 8%nat -> length (fips256_step W H t) = 8%nat.
Proof. by destruct H as [|? [|? [|? [|? [|? [|? [|? [|? []]]]]]]]]. Qed.

Lemma fips256_compress_len H block :
  length H = 8%nat -> length (fips256_compress H block) = 8%nat.
Proof.
  intros Hl. unfold fips256_compress.
  assert (E : forall l r, length r = 8%nat ->
    length (foldl (fips256_step (fips256_W (words SILC_GET32_MSB block) 64)) r l) = 8%nat).
  { induction l as [|t l IH]; intros r Hr; [done|]. cbn [foldl]. by apply IH, fips256_step_len. }
  rewrite length_zip_with, (E _ _ Hl), Hl. done.
Qed.

Lemma fips256_block st l : fips256_compress st (ztake 64 l) = fips256_compress st l.
Proof. unfold fips256_compress. by rewrite (words_block _ _ get32_take). Qed.

Abbreviation sha256_streamed := (streamed fips256_compress (ih_iv sha256_spec)).

(** The context after the message [m]: the length counts the whole blocks. *)
Definition sha256_ctx (m : list Z) (md : sha256_state) : Prop :=
  sha256_streamed m (md_state md) (md_buf md) /\ length (md_state md) = 8%nat /\
  md_curlen md = zlen m mod 64 /\ md_length md = u64 (512 * (zlen m / 64)).

Lemma sha256_init_ok md : zlen (md_buf md) = 64 -> sha256_ctx [] (sha256_init md).
Proof. intros Hb. split; [by apply streamed_nil|done]. Qed.

(** One more block. *)
Lemma length_block (m x : list Z) :
  zlen m mod 64 + zlen x = 64 ->
  zlen (m ++ x) mod 64 = 0 /\
  u64 (u64 (512 * (zlen m / 64)) + 64 * 8) = u64 (512 * (zlen (m ++ x) / 64)).
Proof.
  intros Hx. rewrite zlen_app. pose proof (Z_div_mod_eq_full (zlen m) 64).
  replace (zlen m + zlen x) with ((zlen m / 64 + 1) * 64) by lia.
  rewrite Z.mod_mul, Z.div_mul by lia. split; [done|]. unfold u64.
  rewrite Z.add_mod_idemp_l by lia. f_equal. lia.
Qed.

Lemma length_part (m x : list Z) :
  zlen m mod 64 + zlen x < 64 ->
  zlen (m ++ x) mod 64 = zlen m mod 64 + zlen x /\ zlen (m ++ x) / 64 = zlen m / 64.
Proof.
  intros Hx. rewrite zlen_app. zlen_facts. pose proof (Z_div_mod_eq_full (zlen m) 64).
  pose proof (Z.mod_pos_bound (zlen m) 64 ltac:(lia)).
  split; symmetry; [apply (Z.mod_unique _ _ (zlen m / 64))|apply (Z.div_unique _ _ _ (zlen m mod 64 + zlen x))];
    lia.
Qed.

Lemma sha256_loop_ok fuel : forall m md x,
  zlen x <= Z.of_nat fuel -> sha256_ctx m md ->
  sha256_ctx (m ++ x) (sha256_loop fuel md x (zlen x)).
Proof.
  induction fuel as [|fuel IH]; intros m md x Hf Hc.
  { rewrite (zlen_zero_nil x) by (zlen_facts; lia). by rewrite app_nil_r. }
  cbn [sha256_loop]. zlen_facts. destruct (Z.ltb_spec 0 (zlen x)) as [L|L].
  2: { rewrite (zlen_zero_nil x) by lia. by rewrite app_nil_r. }
  destruct Hc as (Hs & Hl & Hcur & Hlen). rewrite Hcur, Hlen.
  pose proof (Z.mod_pos_bound (zlen m) 64 ltac:(lia)) as Bm.
  destruct (Z.eqb_spec (zlen m mod 64) 0) as [E0|E0], (Z.leb_spec 64 (zlen x)) as [L64|L64];
    cbn [andb].
  1: { assert (H64 : zlen (ztake 64 x) = 64) by (rewrite zlen_take; lia).
    destruct (length_block m (ztake 64 x)) as [M1 M2]; [lia|].
    rewrite <- (ztake_drop 64 x) at 1. rewrite app_assoc.
    replace (zlen x - 64) with (zlen (zdrop 64 x)) by (rewrite zlen_drop; lia).
    apply IH; [rewrite zlen_drop; lia|].
    split; [|split; [|split]]; cbn [md_state md_buf md_curlen md_length]; rewrite ?compress_fips by done.
    - by apply streamed_direct; [apply fips256_block|..].
    - by apply fips256_compress_len.
    - lia.
    - done. }
  all: set (n := Z.min (zlen x) (64 - zlen m mod 64)).
  all: assert (Hn : 0 < n <= zlen x /\ zlen m mod 64 + n <= 64) by lia.
  all: assert (Hz : zlen (ztake n x) = n) by (rewrite zlen_take; lia).
  all: rewrite <- (ztake_drop n x) at 1; rewrite app_assoc.
  all: replace (zlen x - n) with (zlen (zdrop n x)) by (rewrite zlen_drop; lia).
  all: apply IH; [rewrite zlen_drop; lia|].
  all: destruct (Z.eqb_spec (zlen m mod 64 + n) 64) as [E|E].
  all: split; [|split; [|split]]; cbn [md_state md_buf md_curlen md_length]; rewrite ?compress_fips by done.
  all: try (by apply fips256_compress_len); try done.
  all: try (destruct (length_block m (ztake n x) ltac:(lia)) as [M1 M2]; lia || exact M2).
  all: try (destruct (length_part m (ztake n x) ltac:(lia)) as [M1 M2]; lia || by rewrite M2).
  all: try (by apply streamed_part; [|lia]).
  all: apply (streamed_fill _ _ fips256_block _ _ _ _ Hs); lia.
Qed.

Lemma sha256_process_ok m md x :
  sha256_ctx m md ->
  sha256_ctx (m ++ x) (sha256_process md x (zlen x)).1 /\ (sha256_process md x (zlen x)).2 = true.
Proof.
  intros Hc. pose proof Hc as (_ & _ & Hcur & _). unfold sha256_process. zlen_facts.
  pose proof (Z.mod_pos_bound (zlen m) 64 ltac:(lia)).
  rewrite (proj2 (Z.ltb_ge _ _)) by lia. split; [|done]. apply sha256_loop_ok; [lia|done].
Qed.

Lemma sha256_zero_ok fuel : forall n curlen buf,
  0 <= curlen <= n -> n <= zlen buf -> n - curlen <= Z.of_nat fuel ->
  sha256_zero fuel n curlen buf = (n, splice curlen (zeros (n - curlen)) buf).
Proof.
  induction fuel as [|fuel IH]; intros n curlen buf Hc Hb Hf; cbn [sha256_zero].
  - assert (curlen = n) as -> by lia. rewrite Z.sub_diag. change (zeros 0) with (@nil Z). by rewrite splice_nil.
  - destruct (Z.ltb_spec curlen n) as [L|L].
    + assert (H1 : zlen [0] = 1) by done.
      rewrite IH by (rewrite ?zlen_splice; lia). f_equal.
      rewrite <- H1, splice_splice by lia. f_equal. change [0] with (zeros 1).
      rewrite <- zeros_app by (rewrite ?zlen_zeros; lia). f_equal. rewrite zlen_zeros; lia.
    + assert (curlen = n) as -> by lia. rewrite Z.sub_diag. change (zeros 0) with (@nil Z). by rewrite splice_nil.
Qed.

(** The end of the message: one block or two. *)
Lemma sha256_done_ok m md :
  sha256_ctx m md -> (sha256_done md).2 = Some (md_digest sha256_spec m).
Proof.
  intros (Hs & Hl & Hcur & Hlen). zlen_facts.
  pose proof (Z.mod_pos_bound (zlen m) 64 ltac:(lia)) as Bm.
  pose proof (Z_div_mod_eq_full (zlen m) 64) as Dm.
  unfold sha256_done. rewrite Hcur, Hlen, (proj2 (Z.leb_gt _ _)) by lia.
  assert (El : u64 (u64 (512 * (zlen m / 64)) + zlen m mod 64 * 8) = u64 (8 * zlen m)).
  { unfold u64. rewrite Z.add_mod_idemp_l by lia. f_equal. lia. }
  rewrite El. set (bits := SILC_PUT64_MSB _).
  assert (Hbits : zlen bits = 8) by done.
  set (j := zlen m mod 64) in *. pose proof Hs as (_ & Hb & _).
  assert (H128 : zlen [128] = 1) by done.
  destruct (Z.ltb_spec 56 (j + 1)) as [L|L].
  - rewrite sha256_zero_ok by (rewrite ?zlen_splice; lia).
    rewrite <- H128, splice_splice by lia. replace (64 - (j + zlen [128])) with (63 - j) by lia.
    destruct (streamed_end_two _ _ fips256_block m _ _ bits Hs Hbits) as [Hb1 H2]; [fold j; lia|].
    fold j in Hb1, H2. set (buf := splice j _ _) in *. rewrite sha256_zero_ok by lia.
    rewrite (splice_zeros_app 56 bits) by lia.
    rewrite !compress_fips by (rewrite ?compress_fips by done; try done; by apply fips256_compress_len).
    cbn [snd]. f_equal. exact (streamed_digest sha256_spec m _ _ H2).
  - rewrite sha256_zero_ok by (rewrite ?zlen_splice; lia).
    rewrite <- H128, splice_splice by lia.
    assert (E : splice 56 bits (splice j ([128] ++ zeros (56 - (j + zlen [128]))) (md_buf md)) =
                splice j ([128] ++ zeros (55 - j) ++ bits) (md_buf md)).
    { replace (56 - (j + zlen [128])) with (55 - j) by lia.
      rewrite app_assoc, <- (splice_splice j ([128] ++ zeros (55 - j)) bits) by lia. f_equal.
      rewrite zlen_app, zlen_zeros, H128; lia. }
    rewrite E, compress_fips by done. cbn [snd]. f_equal.
    pose proof (streamed_end _ _ fips256_block m _ _ bits Hs Hbits ltac:(fold j; lia)) as H2.
    exact (streamed_digest sha256_spec m _ _ H2).
Qed.

(** ** The hash object *)

#[export] Instance sha256_hash : HashOps sha256_state := {|
  hash_len := 32;
  hash_block_len := 64;
  hash_init := fun c => sha256_init (mkSha256 (md_length c) (md_state c) (md_curlen c)
                                       (sized (md_buf c)));
  hash_update := fun c data => (sha256_process c data (zlen data)).1;
  hash_final := fun c => let '(c, out) := sha256_done c in (c, default [] out)
|}.

Lemma sha256_updates_ok l : forall m c,
  sha256_ctx m c -> sha256_ctx (m ++ concat l) (foldl hash_update c l).
Proof.
  induction l as [|x l IH]; intros m c Hc; cbn [concat foldl]; [by rewrite app_nil_r|].
  rewrite app_assoc. apply IH. by apply sha256_process_ok.
Qed.

Lemma sha256_out_len m : zlen (md_digest sha256_spec m) = 32.
Proof.
  unfold md_digest. set (p := m ++ _). unfold sha256_spec; cbn [ih_out ih_compress ih_iv].
  destruct (absorb_ext fips256_compress fips256_compress (fun st => length st = 8%nat) (blocks p))
    with (st := ih_iv sha256_spec) (l := p) as [_ Hl]; [|done|].
  - intros st l Hst. split; [done|by apply fips256_compress_len].
  - cbn [ih_iv sha256_spec] in Hl. set (st := absorb _ _ _ p) in *.
    by destruct st as [|? [|? [|? [|? [|? [|? [|? [|? []]]]]]]]].
Qed.

#[export] Instance sha256_laws : HashLaws sha256_state.
Proof.
  refine {| digest := md_digest sha256_spec |}; [done|apply sha256_out_len|].
  intros c l _. cbn [hash_final sha256_hash].
  pose proof (sha256_done_ok (concat l) (foldl hash_update (hash_init c) l)) as E.
  destruct (sha256_done _) as [c' out]. cbn [snd] in *. rewrite E; [done|].
  apply (sha256_updates_ok l []), sha256_init_ok. cbn. apply zlen_sized.
Qed.

(** ** Properties *)

(** C25: SHA-256.  A context that is initialised, given a message in any number
    of pieces of any lengths, and finished gives the SHA-256 digest of FIPS 180
    of the whole message, and none of the calls reports an error. *)
Theorem sha256_refines (md : sha256_state) (l : list (list Z)) :
  zlen (md_buf md) = 64 ->
  let md := foldl (fun md x => (sha256_process md x (zlen x)).1) (sha256_init md) l in
  (sha256_done md).2 = Some (md_digest sha256_spec (concat l)) /\
  forall x, (sha256_process md x (zlen x)).2 = true.
Proof.
  intros Hb. cbn zeta.
  pose proof (sha256_updates_ok l [] _ (sha256_init_ok md Hb)) as Hc. cbn [app] in Hc.
  split; [by apply sha256_done_ok|]. intros x. by eapply sha256_process_ok.
Qed.

Lemma sha256_refines_witness :
  let md := foldl (fun md x => (sha256_process md x (zlen x)).1)
              (sha256_init (mkSha256 9 [] 9 (zeros 64))) [[97]; zeros 70; []; [98; 99]] in
  (sha256_done md).2 = Some (md_digest sha256_spec (97 :: zeros 70 ++ [98; 99])) /\
  forall x, (sha256_process md x (zlen x)).2 = true.
Proof.
  apply (sha256_refines (mkSha256 9 [] 9 (zeros 64)) [[97]; zeros 70; []; [98; 99]]). by_compute.
Defined.
