(* ===== verification/Md5.v ===== *)
(** * MD5 ([lib/silccrypt/md5.c])

    The context, its updates and its end, and the unrolled transform, shown to
    be MD5 as RFC 1321 defines it; the context is an instance of [HashLaws].
    What the end leaves of the context is shown too. *)

From S2P Require Import Prelude CTypes MerkleDamgard Hmac.

(** ** The transform *)

Definition F1 (x y z : Z) : Z := Z.lxor z (Z.land x (Z.lxor y z)).
Definition F2 (x y z : Z) : Z := F1 z x y.
Definition F3 (x y z : Z) : Z := Z.lxor (Z.lxor x y) z.
Definition F4 (x y z : Z) : Z := Z.lxor y (Z.lor x (u32 (Z.lnot z))).

(** [MD5STEP(f, w, x, y, z, in[k] + c, s)]. *)
Definition MD5STEP (f : Z -> Z -> Z -> Z) (w x y z k : nat) (c s : Z) (inw regs : list Z)
    : list Z :=
  let r n := nth n regs 0 in
  let v := u32 (r w + (f (r x) (r y) (r z) + (nth k inw 0 + c))) in
  let v := Z.land (Z.lor (Z.shiftl v s) (Z.shiftr v (32 - s))) 0xffffffff in
  <[w := u32 (v + r x)]> regs.

Definition md5_steps : list (list Z -> list Z -> list Z) :=
  let a := 0%nat in let b := 1%nat in let c := 2%nat in let d := 3%nat in
  [MD5STEP F1 a b c d  0 0xd76aa478  7;
   MD5STEP F1 d a b c  1 0xe8c7b756 12;
   MD5STEP F1 c d a b  2 0x242070db 17;
   MD5STEP F1 b c d a  3 0xc1bdceee 22;
   MD5STEP F1 a b c d  4 0xf57c0faf  7;
   MD5STEP F1 d a b c  5 0x4787c62a 12;
   MD5STEP F1 c d a b  6 0xa8304613 17;
   MD5STEP F1 b c d a  7 0xfd469501 22;
   MD5STEP F1 a b c d  8 0x698098d8  7;
   MD5STEP F1 d a b c  9 0x8b44f7af 12;
   MD5STEP F1 c d a b 10 0xffff5bb1 17;
   MD5STEP F1 b c d a 11 0x895cd7be 22;
   MD5STEP F1 a b c d 12 0x6b901122  7;
   MD5STEP F1 d a b c 13 0xfd987193 12;
   MD5STEP F1 c d a b 14 0xa679438e 17;
   MD5STEP F1 b c d a 15 0x49b40821 22;
   MD5STEP F2 a b c d  1 0xf61e2562  5;
   MD5STEP F2 d a b c  6 0xc040b340  9;
   MD5STEP F2 c d a b 11 0x265e5a51 14;
   MD5STEP F2 b c d a  0 0xe9b6c7aa 20;
   MD5STEP F2 a b c d  5 0xd62f105d  5;
   MD5STEP F2 d a b c 10 0x02441453  9;
   MD5STEP F2 c d a b 15 0xd8a1e681 14;
   MD5STEP F2 b c d a  4 0xe7d3fbc8 20;
   MD5STEP F2 a b c d  9 0x21e1cde6  5;
   MD5STEP F2 d a b c 14 0xc33707d6  9;
   MD5STEP F2 c d a b  3 0xf4d50d87 14;
   MD5STEP F2 b c d a  8 0x455a14ed 20;
   MD5STEP F2 a b c d 13 0xa9e3e905  5;
   MD5STEP F2 d a b c  2 0xfcefa3f8  9;
   MD5STEP F2 c d a b  7 0x676f02d9 14;
   MD5STEP F2 b c d a 12 0x8d2a4c8a 20;
   MD5STEP F3 a b c d  5 0xfffa3942  4;
   MD5STEP F3 d a b c  8 0x8771f681 11;
   MD5STEP F3 c d a b 11 0x6d9d6122 16;
   MD5STEP F3 b c d a 14 0xfde5380c 23;
   MD5STEP F3 a b c d  1 0xa4beea44  4;
   MD5STEP F3 d a b c  4 0x4bdecfa9 11;
   MD5STEP F3 c d a b  7 0xf6bb4b60 16;
   MD5STEP F3 b c d a 10 0xbebfbc70 23;
   MD5STEP F3 a b c d 13 0x289b7ec6  4;
   MD5STEP F3 d a b c  0 0xeaa127fa 11;
   MD5STEP F3 c d a b  3 0xd4ef3085 16;
   MD5STEP F3 b c d a  6 0x04881d05 23;
   MD5STEP F3 a b c d  9 0xd9d4d039  4;
   MD5STEP F3 d a b c 12 0xe6db99e5 11;
   MD5STEP F3 c d a b 15 0x1fa27cf8 16;
   MD5STEP F3 b c d a  2 0xc4ac5665 23;
   MD5STEP F4 a b c d  0 0xf4292244  6;
   MD5STEP F4 d a b c  7 0x432aff97 10;
   MD5STEP F4 c d a b 14 0xab9423a7 15;
   MD5STEP F4 b c d a  5 0xfc93a039 21;
   MD5STEP F4 a b c d 12 0x655b59c3  6;
   MD5STEP F4 d a b c  3 0x8f0ccc92 10;
   MD5STEP F4 c d a b 10 0xffeff47d 15;
   MD5STEP F4 b c d a  1 0x85845dd1 21;
   MD5STEP F4 a b c d  8 0x6fa87e4f  6;
   MD5STEP F4 d a b c 15 0xfe2ce6e0 10;
   MD5STEP F4 c d a b  6 0xa3014314 15;
   MD5STEP F4 b c d a 13 0x4e0811a1 21;
   MD5STEP F4 a b c d  4 0xf7537e82  6;
   MD5STEP F4 d a b c 11 0xbd3af235 10;
   MD5STEP F4 c d a b  2 0x2ad7d2bb 15;
   MD5STEP F4 b c d a  9 0xeb86d391 21].

Definition MD5Transform (buf kbuf : list Z) : list Z :=
  let inw := (fun i => SILC_GET32_LSB (zdrop (4 * Z.of_nat i) kbuf)) <$> seq 0 16 in
  zip_with (fun x y => u32 (x + y)) buf (foldl (fun regs step => step inw regs) buf md5_steps).

(** ** The context *)

Record MD5Context := mkMd5 {
  md5_buf : list Z;
  bits0 : Z;
  bits1 : Z;
  md5_in : list Z
}.

Definition MD5Init (ctx : MD5Context) : MD5Context :=
  mkMd5 [0x67452301; 0xefcdab89; 0x98badcfe; 0x10325476] 0 0 (md5_in ctx).

(** [while (len >= 64)]: the state, the buffer, and what is left. *)
Fixpoint md5_blocks (fuel : nat) (st inb buf : list Z) (len : Z)
    : list Z * list Z * list Z * Z :=
  match fuel with
  | O => (st, inb, buf, len)
  | S fuel =>
      if 64 <=? len then
        let inb := splice 0 (ztake 64 buf) inb in
        md5_blocks fuel (MD5Transform st inb) inb (zdrop 64 buf) (len - 64)
      else (st, inb, buf, len)
  end.

Definition MD5Update (ctx : MD5Context) (buf : list Z) (len : Z) : MD5Context :=
  let t := bits0 ctx in
  let b0 := Z.land (t + u32 (Z.shiftl len 3)) 0xffffffff in
  let b1 := if b0 <? t then u32 (bits1 ctx + 1) else bits1 ctx in
  let b1 := u32 (b1 + Z.shiftr len 29) in
  let t := Z.land (Z.shiftr t 3) 63 in
  if negb (t =? 0) && (len <? 64 - t) then
    mkMd5 (md5_buf ctx) b0 b1 (splice t (ztake len buf) (md5_in ctx))
  else
    let '(st, inb, buf, len) :=
      if negb (t =? 0) then
        let inb := splice t (ztake (64 - t) buf) (md5_in ctx) in
        (MD5Transform (md5_buf ctx) inb, inb, zdrop (64 - t) buf, len - (64 - t))
      else (md5_buf ctx, md5_in ctx, buf, len) in
    let '(st, inb, buf, len) := md5_blocks (Z.to_nat (len / 64)) st inb buf len in
    mkMd5 st b0 b1 (splice 0 (ztake len buf) inb).

(** [memset(ctx, 0, sizeof(ctx))]: [ctx] is a pointer, and what is cleared are
    as many bytes of the context as a pointer has, eight. *)
Definition wipe_pointer (ctx : MD5Context) : MD5Context :=
  mkMd5 (zeros 2 ++ zdrop 2 (md5_buf ctx)) (bits0 ctx) (bits1 ctx) (md5_in ctx).

Definition MD5Final (ctx : MD5Context) : MD5Context * list Z :=
  let count := Z.land (Z.shiftr (bits0 ctx) 3) 0x3F in
  let p := count + 1 in
  let inb := splice count [0x80] (md5_in ctx) in
  let count := 64 - 1 - count in
  let '(st, inb) :=
    if count <? 8 then
      let inb := splice p (zeros count) inb in
      let st := MD5Transform (md5_buf ctx) inb in
      (st, splice 0 (zeros 56) inb)
    else (md5_buf ctx, splice p (zeros (count - 8)) inb) in
  let inb := splice 56 (SILC_PUT32_LSB (bits0 ctx)) inb in
  let inb := splice 60 (SILC_PUT32_LSB (bits1 ctx)) inb in
  let st := MD5Transform st inb in
  (wipe_pointer (mkMd5 st (bits0 ctx) (bits1 ctx) inb),
   SILC_PUT32_LSB (nth 0 st 0) ++ SILC_PUT32_LSB (nth 1 st 0) ++
   SILC_PUT32_LSB (nth 2 st 0) ++ SILC_PUT32_LSB (nth 3 st 0)).

Example md5_abc :
  (MD5Final (MD5Update (MD5Init (mkMd5 [] 0 0 (zeros 64))) [97; 98; 99] 3)).2 =
  [0x90; 0x01; 0x50; 0x98; 0x3c; 0xd2; 0x4f; 0xb0; 0xd6; 0x96; 0x3f; 0x7d; 0x28; 0xe1; 0x7f;
   0x72].
Proof. vm_compute. reflexivity. Qed.

(** ** MD5 as RFC 1321 defines it *)

Definition rfc_T : list Z :=
  [0xd76aa478; 0xe8c7b756; 0x242070db; 0xc1bdceee; 0xf57c0faf; 0x4787c62a;
   0xa8304613; 0xfd469501; 0x698098d8; 0x8b44f7af; 0xffff5bb1; 0x895cd7be;
   0x6b901122; 0xfd987193; 0xa679438e; 0x49b40821; 0xf61e2562; 0xc040b340;
   0x265e5a51; 0xe9b6c7aa; 0xd62f105d; 0x02441453; 0xd8a1e681; 0xe7d3fbc8;
   0x21e1cde6; 0xc33707d6; 0xf4d50d87; 0x455a14ed; 0xa9e3e905; 0xfcefa3f8;
   0x676f02d9; 0x8d2a4c8a; 0xfffa3942; 0x8771f681; 0x6d9d6122; 0xfde5380c;
   0xa4beea44; 0x4bdecfa9; 0xf6bb4b60; 0xbebfbc70; 0x289b7ec6; 0xeaa127fa;
   0xd4ef3085; 0x04881d05; 0xd9d4d039; 0xe6db99e5; 0x1fa27cf8; 0xc4ac5665;
   0xf4292244; 0x432aff97; 0xab9423a7; 0xfc93a039; 0x655b59c3; 0x8f0ccc92;
   0xffeff47d; 0x85845dd1; 0x6fa87e4f; 0xfe2ce6e0; 0xa3014314; 0x4e0811a1;
   0xf7537e82; 0xbd3af235; 0x2ad7d2bb; 0xeb86d391].

Definition rfc_f (t : nat) (x y z : Z) : Z :=
  if decide (t < 16)%nat then Z.lor (Z.land x y) (Z.land (Z.lnot x) z)
  else if decide (t < 32)%nat then Z.lor (Z.land x z) (Z.land y (Z.lnot z))
  else if decide (t < 48)%nat then Z.lxor (Z.lxor x y) z
  else Z.lxor y (Z.lor x (u32 (Z.lnot z))).

(** The word of the block used at step [t]. *)
Definition rfc_k (t : nat) : nat :=
  if decide (t < 16)%nat then t
  else if decide (t < 32)%nat then Nat.modulo (5 * t + 1) 16
  else if decide (t < 48)%nat then Nat.modulo (3 * t + 5) 16
  else Nat.modulo (7 * t) 16.

Definition rfc_s (t : nat) : Z :=
  nth (Nat.modulo t 4)
    (if decide (t < 16)%nat then [7; 12; 17; 22]
     else if decide (t < 32)%nat then [5; 9; 14; 20]
     else if decide (t < 48)%nat then [4; 11; 16; 23]
     else [6; 10; 15; 21]) 0.

Definition rfc_step (X : list Z) (r : list Z) (t : nat) : list Z :=
  match r with
  | [a; b; c; d] =>
      [d; u32 (b + ROTL (rfc_s t) (u32 (a + rfc_f t b c d + nth (rfc_k t) X 0 + nth t rfc_T 0)));
       b; c]
  | _ => r
  end.

Definition rfc_compress (r block : list Z) : list Z :=
  let X := words SILC_GET32_LSB block in
  zip_with (fun x y => u32 (x + y)) r (foldl (rfc_step X) r (seq 0 64)).

Definition md5_spec : iterated_hash :=
  mkIterated [0x67452301; 0xefcdab89; 0x98badcfe; 0x10325476] rfc_compress
    (fun n => SILC_PUT32_LSB (u32 n) ++ SILC_PUT32_LSB (n / 4294967296))
    (fun r => concat (SILC_PUT32_LSB <$> r)).

Definition code_f (t : nat) : Z -> Z -> Z -> Z :=
  if decide (t < 16)%nat then F1 else if decide (t < 32)%nat then F2
  else if decide (t < 48)%nat then F3 else F4.

Lemma md5_code_f_ok t x y z : code_f t x y z = rfc_f t x y z.
Proof.
  unfold code_f, rfc_f, F2, F1, F4. repeat case_decide; try done; apply Z.bits_inj'; intros n Hn.
  all: rewrite !Z.lxor_spec, Z.lor_spec, !Z.land_spec, Z.lxor_spec, Z.lnot_spec by done.
  all: by destruct (Z.testbit x n), (Z.testbit y n), (Z.testbit z n).
Qed.

Definition step (t : nat) : list Z -> list Z -> list Z :=
  let p k := place 4 k t in
  MD5STEP (code_f t) (p 0%nat) (p 1%nat) (p 2%nat) (p 3%nat) (rfc_k t) (nth t rfc_T 0) (rfc_s t).

Lemma steps_eq : md5_steps = step <$> seq 0 64.
Proof. reflexivity. Qed.

Lemma view_step t F regs :
  length regs = 4%nat ->
  let r k := nth (place 4 k t) regs 0 in
  view 4 (S t) (<[place 4 0 t := F]> regs) = [r 3%nat; F; r 1%nat; r 2%nat].
Proof.
  intros Hl. cbn zeta. unfold view. cbn [seq fmap list_fmap].
  rewrite !(place_S 4 _ t), !(place_mod 4 _ t) by lia.
  pose proof (Nat.mod_upper_bound t 4 ltac:(lia)). set (r := Nat.modulo t 4) in *. clearbody r.
  destruct regs as [|r0 [|r1 [|r2 [|r3 [|]]]]]; try done.
  do 4 (destruct r as [|r]; [done|]). lia.
Qed.

Lemma md5_step_ok t X regs :
  length regs = 4%nat ->
  length (step t X regs) = 4%nat /\
  view 4 (S t) (step t X regs) = rfc_step X (view 4 t regs) t.
Proof.
  intros Hl. unfold step, MD5STEP. split; [by rewrite length_insert|].
  rewrite view_step by done. unfold view. cbn [seq fmap list_fmap rfc_step].
  do 2 f_equal. rewrite md5_code_f_ok, Z.add_comm. do 2 f_equal.
  set (a := nth (place 4 0 t) regs 0). set (b := nth (place 4 1 t) regs 0).
  set (v := u32 _). assert (E : v = u32 (a + rfc_f t b (nth (place 4 2 t) regs 0)
    (nth (place 4 3 t) regs 0) + nth (rfc_k t) X 0 + nth t rfc_T 0)) by (unfold v; f_equal; lia).
  rewrite <- E. pose proof (u32_range (a + (rfc_f t b (nth (place 4 2 t) regs 0)
    (nth (place 4 3 t) regs 0) + (nth (rfc_k t) X 0 + nth t rfc_T 0)))) as Hv. fold v in Hv.
  change 0xffffffff with (Z.ones 32). unfold ROTL.
  rewrite Z.land_lor_distr_l, !Z.land_ones by lia. change (2 ^ 32) with 4294967296.
  fold (u32 (Z.shiftl v (rfc_s t))). rewrite (Z.mod_small (Z.shiftr v _)); [done|].
  assert (Hs : 0 <= rfc_s t < 32).
  { unfold rfc_s. pose proof (Nat.mod_upper_bound t 4 ltac:(lia)).
    destruct (Nat.modulo t 4) as [|[|[|[|]]]]; [..|lia]; repeat case_decide; done. }
  rewrite Z.shiftr_div_pow2 by lia. assert (0 < 2 ^ (32 - rfc_s t)) by (apply Z.pow_pos_nonneg; lia).
  split; [apply Z.div_pos; lia|]. apply Z.div_lt_upper_bound; [lia|]. nia.
Qed.

Lemma steps_ok X t regs :
  length regs = 4%nat ->
  let r := foldl (fun regs step => step X regs) regs (step <$> seq 0 t) in
  length r = 4%nat /\ view 4 t r = foldl (rfc_step X) regs (seq 0 t).
Proof.
  intros Hl. cbn zeta. induction t as [|t IH].
  - split; [done|]. by apply view_0.
  - rewrite seq_S, fmap_app, !foldl_app. cbn [Nat.add fmap list_fmap foldl].
    destruct IH as [I1 I2]. rewrite <- I2. by apply md5_step_ok.
Qed.

Lemma transform_rfc st block :
  length st = 4%nat -> MD5Transform st block = rfc_compress st block.
Proof.
  intros Hl. unfold MD5Transform, rfc_compress. rewrite steps_eq.
  fold (words SILC_GET32_LSB block). set (X := words _ _). clearbody X.
  destruct (steps_ok X 64 st Hl) as [E1 E2]. cbn zeta in *.
  f_equal. rewrite <- E2. by rewrite (view_period 4 16) by done.
Qed.

(** ** Contexts *)

Lemma rfc_step_len X r t : length r = 4%nat -> length (rfc_step X r t) = 4%nat.
Proof. by destruct r as [|? [|? [|? [|? []]]]]. Qed.

Lemma rfc_compress_len r block : length r = 4%nat -> length (rfc_compress r block) = 4%nat.
Proof.
  intros Hl. unfold rfc_compress.
  assert (E : forall l r, length r = 4%nat ->
    length (foldl (rfc_step (words SILC_GET32_LSB block)) r l) = 4%nat).
  { induction l as [|t l IH]; intros q Hr; [done|]. cbn [foldl]. by apply IH, rfc_step_len. }
  rewrite length_zip_with, (E _ _ Hl), Hl. done.
Qed.

Lemma rfc_block st l : rfc_compress st (ztake 64 l) = rfc_compress st l.
Proof. unfold rfc_compress. by rewrite (words_block _ _ get32_lsb_take). Qed.

Abbreviation md5_streamed := (streamed rfc_compress (ih_iv md5_spec)).

Definition md5_ctx (m : list Z) (c : MD5Context) : Prop :=
  md5_streamed m (md5_buf c) (md5_in c) /\ length (md5_buf c) = 4%nat /\
  bit_count (zlen m) (bits0 c) (bits1 c).

Lemma md5_init_ok c : zlen (md5_in c) = 64 -> md5_ctx [] (MD5Init c).
Proof. intros Hb. split; [by apply streamed_nil|done]. Qed.

(** The whole blocks of the data. *)
Lemma md5_blocks_ok fuel : forall m st inb x,
  md5_streamed m st inb -> length st = 4%nat -> zlen m mod 64 = 0 ->
  zlen x / 64 <= Z.of_nat fuel ->
  exists st' inb' y rest,
    md5_blocks fuel st inb x (zlen x) = (st', inb', rest, zlen rest) /\ x = y ++ rest /\
    zlen rest < 64 /\ zlen (m ++ y) mod 64 = 0 /\ length st' = 4%nat /\
    md5_streamed (m ++ y) st' inb'.
Proof.
  assert (Hend : forall m st inb x, md5_streamed m st inb -> length st = 4%nat ->
    zlen m mod 64 = 0 -> zlen x < 64 ->
    exists st' inb' y rest, (st, inb, x, zlen x) = (st', inb', rest, zlen rest) /\
      x = y ++ rest /\ zlen rest < 64 /\ zlen (m ++ y) mod 64 = 0 /\ length st' = 4%nat /\
      md5_streamed (m ++ y) st' inb').
  { intros m st inb x Hs Hl Hm Hx. exists st, inb, [], x. by rewrite app_nil_r. }
  induction fuel as [|fuel IH]; intros m st inb x Hs Hl Hm Hf; cbn [md5_blocks].
  { apply Hend; try done. zlen_facts. Z.div_mod_to_equations. lia. }
  destruct (Z.leb_spec 64 (zlen x)) as [L|L]; [|by apply Hend].
  assert (Hz : zlen (ztake 64 x) = 64) by (rewrite zlen_take; lia).
  pose proof (streamed_fill _ _ rfc_block m st inb (ztake 64 x) Hs ltac:(lia)) as Hf1.
  cbn zeta in Hf1. rewrite Hm in Hf1. rewrite transform_rfc by done.
  replace (zlen x - 64) with (zlen (zdrop 64 x)) by (rewrite zlen_drop; lia).
  destruct (IH _ _ _ (zdrop 64 x) Hf1) as (st' & inb' & y & rest & E1 & E2 & E3 & E4 & E5 & E6).
  - by apply rfc_compress_len.
  - rewrite zlen_app, Hz, <- Z.add_mod_idemp_l, Hm by lia. done.
  - rewrite zlen_drop by lia.
    assert ((zlen x - 64) / 64 = zlen x / 64 - 1) by (Z.div_mod_to_equations; lia). lia.
  - exists st', inb', (ztake 64 x ++ y), rest. rewrite (app_assoc m).
    split; [done|]. split; [|done]. by rewrite <- app_assoc, <- E2, ztake_drop.
Qed.

Lemma land_u32 x : Z.land x 0xffffffff = u32 x.
Proof. change 0xffffffff with (Z.ones 32). by rewrite Z.land_ones by lia. Qed.

Lemma md5_update_ok m c x :
  hashable x -> md5_ctx m c -> md5_ctx (m ++ x) (MD5Update c x (zlen x)).
Proof.
  unfold hashable. intros Hx (Hs & Hl & Hc). zlen_facts.
  pose proof (Z.mod_pos_bound (zlen m) 64 ltac:(lia)) as Bm.
  pose proof (bit_count_add (zlen m) _ _ (zlen x) _ ltac:(lia) ltac:(lia) Hc (or_intror eq_refl))
    as Hc'.
  unfold MD5Update. rewrite (bit_count_bytes (zlen m) _ _ ltac:(lia) Hc), land_u32.
  set (j := zlen m mod 64) in *. unfold md5_ctx. rewrite zlen_app.
  destruct (negb (j =? 0) && (zlen x <? 64 - j)) eqn:Eb.
  - apply andb_prop in Eb as [_ L%Z.ltb_lt]. split; [|by split]. cbn [md5_buf md5_in].
    rewrite ztake_ge by lia. apply streamed_part; [done|]. fold j. lia.
  - set (init := if negb (j =? 0) then _ else _).
    assert (exists st0 in0 a b, init = (st0, in0, b, zlen b) /\ x = a ++ b /\
      zlen (m ++ a) mod 64 = 0 /\ length st0 = 4%nat /\ md5_streamed (m ++ a) st0 in0)
      as (st0 & in0 & a & b & -> & Ex & Hm & Hl0 & Hs0).
    { unfold init. destruct (Z.eqb_spec j 0) as [E0|E0]; cbn [negb andb] in *.
      - exists (md5_buf c), (md5_in c), [], x. by rewrite app_nil_r.
      - apply Z.ltb_ge in Eb. assert (Hz : zlen (ztake (64 - j) x) = 64 - j) by (rewrite zlen_take; lia).
        pose proof (streamed_fill _ _ rfc_block m _ _ (ztake (64 - j) x) Hs ltac:(fold j; lia)) as H1.
        cbn zeta in H1. fold j in H1. rewrite transform_rfc by done.
        eexists _, _, (ztake (64 - j) x), (zdrop (64 - j) x). rewrite zlen_drop, ztake_drop by lia.
        split; [done|]. split; [done|]. split; [|by split; [apply rfc_compress_len|]].
        rewrite zlen_app, Hz. replace (zlen m + (64 - j)) with ((zlen m / 64 + 1) * 64).
        + apply Z.mod_mul. lia.
        + pose proof (Z_div_mod_eq_full (zlen m) 64). lia. }
    destruct (md5_blocks_ok (Z.to_nat (zlen b / 64)) (m ++ a) st0 in0 b Hs0 Hl0 Hm)
      as (st' & inb' & y & rest & -> & Eb' & Hr & Hm' & Hl' & Hs').
    { rewrite Z2Nat.id; [done|]. apply Z.div_pos; zlen_facts; lia. }
    split; [|by split]. cbn [md5_buf md5_in]. rewrite ztake_ge by lia.
    pose proof (streamed_part _ _ _ _ _ rest Hs') as Hp. rewrite Hm' in Hp.
    rewrite Ex, Eb', app_assoc, app_assoc. apply Hp. lia.
Qed.

(** ** The end of the message *)

Lemma md5_length_words n c0 c1 :
  0 <= n -> bit_count n c0 c1 ->
  ih_length md5_spec (u64 (8 * n)) = SILC_PUT32_LSB c0 ++ SILC_PUT32_LSB c1.
Proof.
  intros Hn Hc. rewrite (bit_count_u64 n c0 c1 Hn Hc). destruct Hc as [-> ->].
  cbn [ih_length md5_spec]. f_equal; f_equal; warith.
Qed.

Lemma put32_lsb_len x : zlen (SILC_PUT32_LSB x) = 4.
Proof. done. Qed.

Lemma md5_final_ok m c :
  md5_ctx m c -> (MD5Final c).2 = md_digest md5_spec m.
Proof.
  intros (Hs & Hl & Hc). zlen_facts. pose proof Hs as (_ & Hb & _).
  pose proof (Z.mod_pos_bound (zlen m) 64 ltac:(lia)) as Bm.
  pose proof (Z_div_mod_eq_full (zlen m) 64) as Dm.
  unfold MD5Final. change 0x3F with 63.
  rewrite (bit_count_bytes (zlen m) _ _ ltac:(lia) Hc).
  pose proof (md5_length_words (zlen m) _ _ ltac:(lia) Hc) as El.
  set (j := zlen m mod 64) in *. set (l0 := SILC_PUT32_LSB (bits0 c)) in *.
  set (l1 := SILC_PUT32_LSB (bits1 c)) in *.
  assert (H0 : zlen l0 = 4) by done. assert (H1 : zlen l1 = 4) by done.
  assert (H128 : zlen [128] = 1) by done.
  assert (Hlen : forall inb, zlen inb = 64 ->
    splice 60 l1 (splice 56 l0 inb) = splice 56 (l0 ++ l1) inb).
  { intros inb Hi. change 60 with (56 + 4). rewrite <- H0. apply splice_splice. lia. }
  assert (Hout : forall st, length st = 4%nat ->
    SILC_PUT32_LSB (nth 0 st 0) ++ SILC_PUT32_LSB (nth 1 st 0) ++
    SILC_PUT32_LSB (nth 2 st 0) ++ SILC_PUT32_LSB (nth 3 st 0) = ih_out md5_spec st).
  { intros st Hst. by destruct st as [|? [|? [|? [|? []]]]]. }
  assert (Hbits : zlen (l0 ++ l1) = 8) by (rewrite zlen_app; lia).
  replace (j + 1) with (j + zlen [128]) by lia.
  destruct (Z.ltb_spec (64 - 1 - j) 8) as [L|L]; rewrite splice_splice by lia.
  - replace (64 - 1 - j) with (63 - j) by lia.
    destruct (streamed_end_two _ _ rfc_block m _ _ (l0 ++ l1) Hs Hbits) as [Hb1 S2]; [fold j; lia|].
    fold j in Hb1, S2. set (inb := splice j _ _) in *.
    rewrite Hlen by (rewrite zlen_splice; rewrite ?zlen_zeros; lia).
    rewrite (splice_zeros_app 56 (l0 ++ l1)) by lia.
    rewrite !transform_rfc by (rewrite ?transform_rfc by done; try done; by apply rfc_compress_len).
    cbn [snd]. rewrite Hout by (by apply rfc_compress_len, rfc_compress_len).
    eapply (streamed_digest md5_spec). unfold md_pad. rewrite El. exact S2.
  - rewrite Hlen by (rewrite zlen_splice; rewrite ?zlen_app, ?zlen_zeros; lia).
    assert (E : splice 56 (l0 ++ l1) (splice j ([128] ++ zeros (64 - 1 - j - 8)) (md5_in c)) =
                splice j ([128] ++ zeros (55 - j) ++ l0 ++ l1) (md5_in c)).
    { replace (64 - 1 - j - 8) with (55 - j) by lia.
      rewrite app_assoc, <- (splice_splice j ([128] ++ zeros (55 - j)) (l0 ++ l1)) by lia. f_equal.
      rewrite zlen_app, zlen_zeros, H128; lia. }
    rewrite E, transform_rfc by done. cbn [snd]. rewrite Hout by (by apply rfc_compress_len).
    pose proof (streamed_end _ _ rfc_block m _ _ (l0 ++ l1) Hs Hbits ltac:(fold j; lia)) as S1.
    cbn zeta in S1. fold j in S1. eapply (streamed_digest md5_spec). unfold md_pad. rewrite El.
    exact S1.
Qed.

(** ** The hash object *)

#[export] Instance md5_hash : HashOps MD5Context := {|
  hash_len := 16;
  hash_block_len := 64;
  hash_init := fun c => MD5Init (mkMd5 (md5_buf c) (bits0 c) (bits1 c) (sized (md5_in c)));
  hash_update := fun c data => MD5Update c data (zlen data);
  hash_final := MD5Final
|}.

Lemma md5_updates_ok l : forall m c,
  Forall hashable l -> md5_ctx m c -> md5_ctx (m ++ concat l) (foldl hash_update c l).
Proof.
  induction l as [|x l IH]; intros m c Hl Hc; cbn [concat foldl]; [by rewrite app_nil_r|].
  apply list.Forall_cons in Hl as [Hx Hl]. rewrite app_assoc. apply IH; [done|].
  by apply md5_update_ok.
Qed.

Lemma md5_out_len m : zlen (md_digest md5_spec m) = 16.
Proof.
  unfold md_digest. set (p := m ++ _). unfold md5_spec; cbn [ih_out ih_compress ih_iv].
  destruct (absorb_ext rfc_compress rfc_compress (fun st => length st = 4%nat) (blocks p))
    with (st := ih_iv md5_spec) (l := p) as [_ Hl]; [|done|].
  - intros st l Hst. split; [done|by apply rfc_compress_len].
  - cbn [ih_iv md5_spec] in Hl. set (st := absorb _ _ _ p) in *.
    by destruct st as [|? [|? [|? [|? []]]]].
Qed.

#[export] Instance md5_laws : HashLaws MD5Context.
Proof.
  refine {| digest := md_digest md5_spec |}; [done|apply md5_out_len|].
  intros c l Hl. apply md5_final_ok. apply (md5_updates_ok l [] _ Hl).
  apply md5_init_ok. cbn. apply zlen_sized.
Qed.

(** ** Properties *)

(** C30: MD5.  A context that is initialised, given a message in any number of
    pieces of any lengths, and finished gives the MD5 digest of RFC 1321 of the
    whole message. *)
Theorem md5_refines (c : MD5Context) (l : list (list Z)) :
  zlen (md5_in c) = 64 -> Forall hashable l ->
  (MD5Final (foldl (fun c x => MD5Update c x (zlen x)) (MD5Init c) l)).2 =
  md_digest md5_spec (concat l).
Proof.
  intros Hb Hl. apply md5_final_ok. apply (md5_updates_ok l [] _ Hl). by apply md5_init_ok.
Qed.

Lemma md5_refines_witness :
  (MD5Final (foldl (fun c x => MD5Update c x (zlen x)) (MD5Init (mkMd5 [] 7 7 (zeros 64)))
     [[97]; zeros 70; []; [98; 99]])).2 = md_digest md5_spec (97 :: zeros 70 ++ [98; 99]).
Proof.
  apply (md5_refines (mkMd5 [] 7 7 (zeros 64)) [[97]; zeros 70; []; [98; 99]]); by_compute.
Defined.

(** [MD5Final] means to clear the context, "in case it's sensitive": it clears
    the first eight bytes, and the last bytes of the message stay. *)
Lemma md5_not_wiped :
  let c := (MD5Final (MD5Update (MD5Init (mkMd5 [] 0 0 (zeros 64))) [115; 101; 99] 3)).1 in
  ztake 3 (md5_in c) = [115; 101; 99] /\ nth 2 (md5_buf c) 0 <> 0.
Proof. vm_compute. by split. Qed.
