(* ===== verification/StrUtil.v ===== *)
(** * Strings ([lib/silcutil/silcstrutil.c])

    Base 64, bounded concatenation, splitting, and the rewriting of wildcard
    lists into regular expressions.  A string is a list of characters that
    holds a NUL, [c_string] what is before it; a block that is written past its
    end grows, so its length says whether that happens.  Matching regular
    expressions is the C library's, and [silc_string_compare] is left out. *)

From S2P Require Import Prelude CTypes Memory.

(** ** Base 64 *)

Definition pem_enc : list Z :=
  seqZ 65 26 ++ seqZ 97 26 ++ seqZ 48 10 ++ [43; 47].

Definition pem (i : Z) : Z := znth pem_enc i.

(** What has been written, [bits] and [char_count]. *)
Definition encode_round (s : list Z * Z * Z) (c : Z) : list Z * Z * Z :=
  let '(out, bits, char_count) := s in
  let bits := u32 (bits + c) in
  let char_count := char_count + 1 in
  if char_count =? 3 then
    (out ++ [pem (Z.shiftr bits 18); pem (Z.land (Z.shiftr bits 12) 0x3f);
             pem (Z.land (Z.shiftr bits 6) 0x3f); pem (Z.land bits 0x3f)], 0, 0)
  else (out, u32 (Z.shiftl bits 8), char_count).

Definition encode_tail (s : list Z * Z * Z) : list Z :=
  let '(out, bits, char_count) := s in
  if negb (char_count =? 0) then
    let bits := u32 (Z.shiftl bits (16 - 8 * char_count)) in
    let out := out ++ [pem (Z.shiftr bits 18); pem (Z.land (Z.shiftr bits 12) 0x3f)] in
    if char_count =? 1 then out ++ [61; 61]
    else out ++ [pem (Z.land (Z.shiftr bits 6) 0x3f); 61]
  else out.

(** The block returned; [None] where the allocation fails, which the code does
    not check. *)
Definition silc_base64_encode (data : list Z) (len : Z) : option (list Z) :=
  match silc_calloc (u32 (u32 (u32 (len * 8) + 5) / 6 + 5)) 1 with
  | None => None
  | Some block =>
      Some (splice 0 (encode_tail (foldl encode_round ([], 0, 0) (ztake len data))) block)
  end.

(** The copy with newlines: [i], [j], [cols], [len] and what has been
    written. *)
Fixpoint encode_file_loop (fuel : nat) (s : list Z) (i j cols len : Z) (out : list Z)
    : list Z :=
  match fuel with
  | O => out
  | S fuel =>
      if i <? len then
        if cols =? 72 then encode_file_loop fuel s (i + 1) j (0 + 1) (len + 1) (out ++ [10])
        else encode_file_loop fuel s (i + 1) (j + 1) (cols + 1) len (out ++ [znth s j])
      else out
  end.

Definition silc_base64_encode_file (data : list Z) (data_len : Z) : option (list Z) :=
  match silc_base64_encode data data_len with
  | None => None
  | Some s =>
      let len := strlen s in
      match silc_calloc (u32 (len + len / 72 + 1)) 1 with
      | None => None
      | Some pem2 => Some (splice 0 (encode_file_loop (Z.to_nat (2 * len)) s 0 0 1 len []) pem2)
      end
  end.

(** [ialpha] and [decoder] at a character. *)
Fixpoint decode_pos (l : list Z) (i c : Z) : option Z :=
  match l with
  | [] => None
  | x :: l => if x =? c then Some i else decode_pos l (i + 1) c
  end.

Definition decode_char (c : Z) : option Z := decode_pos pem_enc 0 c.

Fixpoint decode_loop (s : list Z) (out : list Z) (bits char_count : Z) : list Z * Z * Z :=
  match s with
  | [] => (out, bits, char_count)
  | c :: s =>
      if c =? 61 then (out, bits, char_count)
      else
        match (if 127 <? c then None else decode_char c) with
        | None => decode_loop s out bits char_count
        | Some d =>
            let bits := u32 (bits + d) in
            let char_count := char_count + 1 in
            if char_count =? 4 then
              decode_loop s (out ++ [u8 (Z.shiftr bits 16); Z.land (Z.shiftr bits 8) 0xff;
                                     Z.land bits 0xff]) 0 0
            else decode_loop s out (u32 (Z.shiftl bits 6)) char_count
        end
  end.

(** The [switch] at the end. *)
Definition decode_end (s : list Z * Z * Z) : option (list Z) :=
  let '(out, bits, char_count) := s in
  if char_count =? 1 then None
  else if char_count =? 2 then Some (out ++ [u8 (Z.shiftr bits 10)])
  else if char_count =? 3 then
    Some (out ++ [u8 (Z.shiftr bits 16); Z.land (Z.shiftr bits 8) 0xff])
  else Some out.

(** The block and [*ret_len]; [None] for NULL. *)
Definition silc_base64_decode (base64 : list Z) (base64_len : Z) : option (list Z * Z) :=
  let len := if base64_len =? 0 then strlen base64 else base64_len in
  let data := default [] (silc_calloc (u32 (len * 6) / 8) 1) in
  match decode_end (decode_loop (ztake len base64) [] 0 0) with
  | None => None
  | Some out => Some (splice 0 out data, zlen out)
  end.

(** ** Concatenation and splitting *)

(** [strncat] of the C library. *)
Definition strncat (dest src : list Z) (n : Z) : list Z :=
  splice (strlen dest) (ztake n (c_string src) ++ [0]) dest.

Definition silc_strncat (dest : list Z) (dest_size : Z) (src : list Z) (src_len : Z) : list Z :=
  let dest := splice (dest_size - 1) [0] dest in
  let len := dest_size - 1 - strlen dest in
  if len <? src_len then
    if 0 <? len then strncat dest src len else dest
  else strncat dest src src_len.

(** [strcspn]: the characters before the first one of [set]. *)
Fixpoint strcspn (s set : list Z) : Z :=
  match s with
  | [] => 0
  | c :: s => if bool_decide (c ∈ set) then 0 else 1 + strcspn s set
  end.

(** The [while] loop; [i] strings have been stored, [cp] is what follows. *)
Fixpoint string_split_loop (fuel : nat) (cp sep : list Z) (i : Z) : option (list (list Z)) :=
  match fuel with
  | O => None
  | S fuel =>
      let len := strcspn cp sep in
      match silc_memdup cp len with
      | None => None
      | Some item =>
          let cp := zdrop len cp in
          if alloc_ok ((i + 1) * 8) then
            if zlen cp =? 0 then Some [item]
            else
              match string_split_loop fuel (zdrop 1 cp) sep (i + 1) with
              | None => None
              | Some items => Some (item :: items)
              end
          else None
      end
  end.

(** The array, with NULL where a single copy fails.  [sep] has one character and
    no NUL; [stack] is what follows it in memory, up to which [strcspn] reads. *)
Definition silc_string_split (string : option (list Z)) (ch : Z) (stack : list Z)
    : option (list (option (list Z))) :=
  match string with
  | None => None
  | Some string =>
      let s := c_string string in
      if bool_decide (ch ∈ s) then
        match string_split_loop (S (length s)) s (c_string (ch :: stack)) 0 with
        | None => None
        | Some items => Some (Some <$> items)
        end
      else Some [silc_memdup s (zlen s)]
  end.

(** ** Regular expressions *)

Definition is_wild (c : Z) : bool := (c =? 42) || (c =? 63).

(** The extra room: 4, one for each wildcard, two for each comma. *)
Definition regex_count (s : list Z) : Z :=
  foldl (fun count c =>
    let count := if is_wild c then count + 1 else count in
    if c =? 44 then count + 2 else count) 4 s.

(** The loop over [string[i]]; [s] is the rest of the string. *)
Fixpoint regexify_loop (s : list Z) (i len : Z) (regex : list Z) : list Z :=
  match s with
  | [] => regex
  | c :: s =>
      if is_wild c then regexify_loop s (i + 1) len (regex ++ [46; c])
      else if c =? 44 then
        if i + 2 =? len then regexify_loop s (i + 1) len regex
        else regexify_loop s (i + 1) len (regex ++ [124; 94])
      else regexify_loop s (i + 1) len (regex ++ [c])
  end.

Definition silc_string_regexify (string : option (list Z)) : option (list Z) :=
  match string with
  | None => None
  | Some string =>
      let s := c_string string in
      let len := zlen s in
      match silc_calloc (len + regex_count s + 1) 1 with
      | None => None
      | Some regex => Some (splice 0 (regexify_loop s 0 len [40; 94] ++ [41; 36]) regex)
      end
  end.

Definition silc_string_regex_combine (string1 string2 : option (list Z)) : option (list Z) :=
  match string1, string2 with
  | Some string1, Some string2 =>
      let len1 := strlen string1 in
      let len2 := strlen string2 in
      match silc_calloc (2 + len1 + len2) 1 with
      | None => None
      | Some tmp =>
          let tmp := strncat tmp string1 (u64 (len1 - 2)) in
          let tmp := strncat tmp [124; 0] 1 in
          Some (strncat tmp (zdrop 1 string2) (u64 (len2 - 1)))
      end
  | _, _ => None
  end.

(** ** Base 64 as RFC 4648 defines it *)

Fixpoint b64 (l : list Z) : list Z :=
  match l with
  | a :: b :: c :: l =>
      [pem (a / 4); pem (a mod 4 * 16 + b / 16); pem (b mod 16 * 4 + c / 64); pem (c mod 64)] ++
      b64 l
  | [a; b] => [pem (a / 4); pem (a mod 4 * 16 + b / 16); pem (b mod 16 * 4); 61]
  | [a] => [pem (a / 4); pem (a mod 4 * 16); 61; 61]
  | [] => []
  end.

Lemma list_ind3 {A} (P : list A -> Prop) :
  P [] -> (forall a, P [a]) -> (forall a b, P [a; b]) ->
  (forall a b c l, P l -> P (a :: b :: c :: l)) -> forall l, P l.
Proof.
  intros H0 H1 H2 H3. fix IH 1. intros [|a [|b [|c l]]]; [done|apply H1|apply H2|].
  apply H3, IH.
Qed.

(** Shifts and masks as arithmetic. *)
Ltac bits :=
  change 63 with (Z.ones 6); change 255 with (Z.ones 8);
  rewrite ?Z.shiftl_mul_pow2, ?Z.shiftr_div_pow2, ?Z.land_ones by lia;
  change (2 ^ 18) with 262144; change (2 ^ 16) with 65536; change (2 ^ 12) with 4096;
  change (2 ^ 10) with 1024; change (2 ^ 8) with 256; change (2 ^ 6) with 64; change (2 ^ 0) with 1.

(** Equal characters one by one. *)
Ltac chars :=
  repeat first [reflexivity | apply (f_equal2 cons); [f_equal; Z.div_mod_to_equations; lia|]].

Lemma encode_three a b c :
  0 <= a < 256 -> 0 <= b < 256 -> 0 <= c < 256 ->
  let x := u32 (u32 (Z.shiftl (u32 (u32 (Z.shiftl (u32 (0 + a)) 8) + b)) 8) + c) in
  [pem (Z.shiftr x 18); pem (Z.land (Z.shiftr x 12) 0x3f);
   pem (Z.land (Z.shiftr x 6) 0x3f); pem (Z.land x 0x3f)] =
  [pem (a / 4); pem (a mod 4 * 16 + b / 16); pem (b mod 16 * 4 + c / 64); pem (c mod 64)].
Proof.
  intros Ha Hb Hc. cbn zeta. bits. set (x := u32 _).
  assert (E : x = a * 65536 + b * 256 + c) by (unfold x; warith).
  rewrite E. chars.
Qed.

Lemma encode_round_keep out bits k c :
  k + 1 <> 3 -> encode_round (out, bits, k) c = (out, u32 (Z.shiftl (u32 (bits + c)) 8), k + 1).
Proof. intros Hk. unfold encode_round. by rewrite (proj2 (Z.eqb_neq _ _) Hk). Qed.

Lemma encode_tail_one out a :
  0 <= a < 256 ->
  encode_tail (out, u32 (Z.shiftl (u32 (0 + a)) 8), 1) = out ++ b64 [a].
Proof.
  intros Ha. cbn [b64]. unfold encode_tail. change (negb (1 =? 0)) with true.
  change (1 =? 1) with true. cbn iota. rewrite <- app_assoc. f_equal. cbn [app].
  change (16 - 8 * 1) with 8. bits. set (x := u32 _).
  assert (E : x = a * 65536) by (unfold x; warith).
  rewrite E. chars.
Qed.

Lemma encode_tail_two out a b :
  0 <= a < 256 -> 0 <= b < 256 ->
  encode_tail (out, u32 (Z.shiftl (u32 (u32 (Z.shiftl (u32 (0 + a)) 8) + b)) 8), 2) =
  out ++ b64 [a; b].
Proof.
  intros Ha Hb. cbn [b64]. unfold encode_tail. change (negb (2 =? 0)) with true.
  change (2 =? 1) with false. cbn iota. rewrite <- app_assoc. f_equal. cbn [app].
  change (16 - 8 * 2) with 0. bits. set (x := u32 _).
  assert (E : x = a * 65536 + b * 256) by (unfold x; warith).
  rewrite E. chars.
Qed.

Lemma encode_b64 l : forall out,
  bytes_ok l -> encode_tail (foldl encode_round (out, 0, 0) l) = out ++ b64 l.
Proof.
  induction l as [|a|a b|a b c l IH] using list_ind3; intros out Hl.
  - by rewrite app_nil_r.
  - apply list.Forall_cons in Hl as [Ha _]. cbn [foldl]. rewrite encode_round_keep by done.
    by apply encode_tail_one.
  - apply list.Forall_cons in Hl as [Ha [Hb _]%list.Forall_cons]. cbn [foldl].
    rewrite !encode_round_keep by done. by apply encode_tail_two.
  - apply list.Forall_cons in Hl as [Ha [Hb [Hc Hl]%list.Forall_cons]%list.Forall_cons].
    cbn [foldl]. rewrite (encode_round_keep out 0 0), (encode_round_keep out _ (0 + 1)) by done.
    unfold encode_round at 2. change (0 + 1 + 1 + 1 =? 3) with true. cbn iota beta zeta.
    pose proof (encode_three a b c Ha Hb Hc) as E. cbn zeta in E. rewrite E, IH by done.
    cbn [b64]. by rewrite <- app_assoc.
Qed.

(** The alphabet. *)
Lemma pem_spec d :
  0 <= d < 64 ->
  decode_char (pem d) = Some d /\ (127 <? pem d) = false /\ (pem d =? 61) = false /\
  pem d <> 0 /\ pem d <> 10.
Proof.
  intros Hd.
  assert (H : Forall (fun d => decode_char (pem d) = Some d /\ (127 <? pem d) = false /\
    (pem d =? 61) = false /\ pem d <> 0 /\ pem d <> 10) (seqZ 0 64)) by by_compute.
  rewrite list.Forall_forall in H. apply H. apply elem_of_seqZ. lia.
Qed.

Lemma decode_step d s out bits k :
  0 <= d < 64 ->
  decode_loop (pem d :: s) out bits k =
  if k + 1 =? 4 then
    decode_loop s (out ++ [u8 (Z.shiftr (u32 (bits + d)) 16);
                           Z.land (Z.shiftr (u32 (bits + d)) 8) 0xff;
                           Z.land (u32 (bits + d)) 0xff]) 0 0
  else decode_loop s out (u32 (Z.shiftl (u32 (bits + d)) 6)) (k + 1).
Proof.
  intros Hd. destruct (pem_spec d Hd) as (E1 & E2 & E3 & _). cbn [decode_loop].
  by rewrite E3, E2, E1.
Qed.

Lemma decode_equals s out bits k : decode_loop (61 :: s) out bits k = (out, bits, k).
Proof. done. Qed.

Lemma digit_ranges a b c :
  0 <= a < 256 -> 0 <= b < 256 -> 0 <= c < 256 ->
  0 <= a / 4 < 64 /\ 0 <= a mod 4 * 16 + b / 16 < 64 /\ 0 <= b mod 16 * 4 + c / 64 < 64 /\
  0 <= c mod 64 < 64 /\ 0 <= a mod 4 * 16 < 64 /\ 0 <= b mod 16 * 4 < 64.
Proof. intros. repeat split; Z.div_mod_to_equations; lia. Qed.

Lemma decode_b64 l : forall out,
  bytes_ok l -> decode_end (decode_loop (b64 l) out 0 0) = Some (out ++ l).
Proof.
  induction l as [|a|a b|a b c l IH] using list_ind3; intros out Hl.
  - cbn. by rewrite app_nil_r.
  - apply list.Forall_cons in Hl as [Ha _].
    destruct (digit_ranges a 0 0 Ha) as (R1 & _ & _ & _ & R2 & _); [lia..|]. cbn [b64].
    rewrite !decode_step by done. change (0 + 1 =? 4) with false. change (0 + 1 + 1 =? 4) with false.
    cbn iota. rewrite decode_equals. unfold decode_end. change (0 + 1 + 1 =? 1) with false.
    change (0 + 1 + 1 =? 2) with true. cbn iota. do 2 f_equal. bits. f_equal. warith.
  - apply list.Forall_cons in Hl as [Ha [Hb _]%list.Forall_cons].
    destruct (digit_ranges a b 0 Ha Hb) as (R1 & R2 & _ & _ & _ & R3); [lia|]. cbn [b64].
    rewrite !decode_step by done. change (0 + 1 =? 4) with false. change (0 + 1 + 1 =? 4) with false.
    change (0 + 1 + 1 + 1 =? 4) with false. cbn iota. rewrite decode_equals. unfold decode_end.
    change (0 + 1 + 1 + 1 =? 1) with false. change (0 + 1 + 1 + 1 =? 2) with false.
    change (0 + 1 + 1 + 1 =? 3) with true. cbn iota. do 2 f_equal. bits.
    set (x := u32 _). assert (E : x = a * 65536 + b * 256) by (unfold x; warith).
    rewrite E. f_equal; [|f_equal]; warith.
  - apply list.Forall_cons in Hl as [Ha [Hb [Hc Hl]%list.Forall_cons]%list.Forall_cons].
    destruct (digit_ranges a b c Ha Hb Hc) as (R1 & R2 & R3 & R4 & _). cbn [b64 app].
    rewrite !decode_step by done. change (0 + 1 =? 4) with false. change (0 + 1 + 1 =? 4) with false.
    change (0 + 1 + 1 + 1 =? 4) with false. change (0 + 1 + 1 + 1 + 1 =? 4) with true. cbn iota.
    rewrite IH by done. rewrite <- app_assoc. do 2 f_equal. cbn [app]. bits.
    set (x := u32 _). assert (E : x = a * 65536 + b * 256 + c) by (unfold x; warith).
    rewrite E. f_equal; [|f_equal; [|f_equal]]; warith.
Qed.

(** Characters outside the alphabet do not count. *)
Definition kept (c : Z) : Prop := c = 61 \/ c <= 127 /\ decode_char c <> None.
#[local] Instance kept_dec c : Decision (kept c).
Proof. unfold kept. apply _. Defined.

Lemma decode_filter s : forall out bits k,
  decode_loop (filter kept s) out bits k = decode_loop s out bits k.
Proof.
  induction s as [|c s IH]; intros out bits k; [done|]. rewrite list.filter_cons.
  destruct (decide (kept c)) as [Hk|Hk].
  - cbn [decode_loop]. destruct (c =? 61); [done|].
    destruct (if 127 <? c then None else decode_char c); [|apply IH].
    destruct (k + 1 =? 4); apply IH.
  - cbn [decode_loop]. unfold kept in Hk. rewrite (proj2 (Z.eqb_neq c 61)) by tauto.
    destruct (Z.ltb_spec 127 c); [apply IH|].
    destruct (decode_char c) eqn:E; [|apply IH]. exfalso. apply Hk. right. by split.
Qed.

Lemma pem_kept d : 0 <= d < 64 -> kept (pem d).
Proof.
  intros Hd. destruct (pem_spec d Hd) as (E1 & E2%Z.ltb_ge & _). right. by rewrite E1.
Qed.

(** What the encoder writes: kept, never NUL or newline, four for three. *)
Lemma b64_chars l :
  bytes_ok l -> Forall (fun c => kept c /\ c <> 0 /\ c <> 10) (b64 l) /\
                zlen (b64 l) = 4 * ((zlen l + 2) / 3).
Proof.
  assert (Hp : forall d, 0 <= d < 64 -> kept (pem d) /\ pem d <> 0 /\ pem d <> 10).
  { intros d Hd. destruct (pem_spec d Hd) as (_ & _ & _ & E). by split; [apply pem_kept|]. }
  assert (He : kept 61 /\ 61 <> 0 /\ 61 <> 10) by (split; [by left|done]).
  induction l as [|a|a b|a b c l IH] using list_ind3; intros Hl.
  - by split; [constructor|].
  - apply list.Forall_cons in Hl as [Ha _].
    destruct (digit_ranges a 0 0 Ha) as (R1 & _ & _ & _ & R2 & _); [lia..|].
    split; [|done]. cbn [b64]. repeat first [apply List.Forall_nil | apply List.Forall_cons]; auto.
  - apply list.Forall_cons in Hl as [Ha [Hb _]%list.Forall_cons].
    destruct (digit_ranges a b 0 Ha Hb) as (R1 & R2 & _ & _ & _ & R3); [lia|].
    split; [|done]. cbn [b64]. repeat first [apply List.Forall_nil | apply List.Forall_cons]; auto.
  - apply list.Forall_cons in Hl as [Ha [Hb [Hc Hl]%list.Forall_cons]%list.Forall_cons].
    destruct (digit_ranges a b c Ha Hb Hc) as (R1 & R2 & R3 & R4 & _). destruct (IH Hl) as [I1 I2].
    split.
    + cbn [b64 app]. repeat apply List.Forall_cons; auto.
    + cbn [b64]. rewrite zlen_app, I2, !zlen_cons, zlen_nil. zlen_facts.
      Z.div_mod_to_equations. lia.
Qed.

Lemma b64_string l rest : bytes_ok l -> c_string (b64 l ++ 0 :: rest) = b64 l.
Proof.
  intros Hl. apply c_string_app. destruct (b64_chars l Hl) as [Hc _].
  eapply list.Forall_impl; [exact Hc|]. by intros c (_ & H & _).
Qed.

(** The data, as far as the 32-bit sizes and the allocator go. *)
Definition encodable (data : list Z) : Prop := bytes_ok data /\ zlen data < 268435456.

Lemma base64_encode_ok data :
  encodable data ->
  exists n, silc_base64_encode data (zlen data) = Some (b64 data ++ 0 :: zeros n).
Proof.
  intros [Hb Hl]. zlen_facts. destruct (b64_chars data Hb) as [_ El].
  assert (Es : u32 (u32 (u32 (zlen data * 8) + 5) / 6 + 5) = (zlen data * 8 + 5) / 6 + 5)
    by (rewrite (u32_id (zlen data * 8)), (u32_id (zlen data * 8 + 5)) by lia; apply u32_id;
        Z.div_mod_to_equations; lia).
  set (size := (zlen data * 8 + 5) / 6 + 5) in *.
  assert (Hs : zlen (b64 data) + 1 <= size /\ size < SILC_MAX_ALLOC)
    by (rewrite El; unfold size, SILC_MAX_ALLOC; Z.div_mod_to_equations; lia).
  unfold silc_base64_encode. rewrite Es, silc_calloc_ok, ztake_ge by (zlen_facts; lia).
  rewrite encode_b64 by done. exists (size - zlen (b64 data) - 1). f_equal.
  unfold splice. rewrite (ztake_0 0) by lia. cbn [app]. rewrite Z.add_0_l. f_equal.
  replace (1 * size) with (zlen (b64 data) + (1 + (size - zlen (b64 data) - 1))) by lia.
  change (0 :: zeros _) with (zeros 1 ++ zeros (size - zlen (b64 data) - 1)).
  rewrite (zeros_app (zlen _)), zeros_app by (zlen_facts; lia).
  apply zdrop_app_exact. rewrite zlen_zeros; zlen_facts; lia.
Qed.

(** Decoding a string that spells the encoding of the data, with any other
    characters in between. *)
Lemma base64_decode_ok s len data :
  bytes_ok data -> 0 < len < 536870912 -> len <= zlen s ->
  filter kept (ztake len s) = b64 data ->
  exists n, silc_base64_decode s len = Some (data ++ zeros n, zlen data).
Proof.
  intros Hb Hl Hs Hf. zlen_facts. unfold silc_base64_decode.
  rewrite (proj2 (Z.eqb_neq _ _)) by lia. rewrite <- decode_filter, Hf, decode_b64 by done.
  cbn [app]. destruct (b64_chars data Hb) as [_ El].
  assert (Hlen : zlen (b64 data) <= len).
  { rewrite <- Hf. pose proof (list.length_filter kept (ztake len s)) as Hle.
    transitivity (zlen (ztake len s)); [unfold zlen; lia|]. rewrite zlen_take; lia. }
  rewrite (u32_id (len * 6)) by lia. zlen_facts.
  assert (Hd : zlen data <= len * 6 / 8) by (Z.div_mod_to_equations; lia).
  destruct (decide (len * 6 / 8 = 0)) as [E|E].
  - rewrite E. change (silc_calloc 0 1) with (@None (list Z)). exists 0.
    rewrite (zlen_zero_nil data) by lia. done.
  - rewrite silc_calloc_ok by (unfold SILC_MAX_ALLOC; Z.div_mod_to_equations; lia).
    exists (len * 6 / 8 - zlen data). do 2 f_equal. cbn [default].
    unfold splice. rewrite (ztake_0 0), Z.add_0_l by lia. cbn [app]. f_equal.
    replace (1 * (len * 6 / 8)) with (zlen data + (len * 6 / 8 - zlen data)) by lia.
    rewrite zeros_app by lia. apply zdrop_app_exact. rewrite zlen_zeros; lia.
Qed.

Lemma filter_b64 l : bytes_ok l -> filter kept (b64 l) = b64 l.
Proof.
  intros Hl. destruct (b64_chars l Hl) as [Hc _].
  induction Hc as [|c s [Hk _] Hs IH]; [done|]. by rewrite list.filter_cons_True, IH.
Qed.

(** ** Lines *)

Fixpoint wrap (cols : Z) (l : list Z) : list Z :=
  match l with
  | [] => []
  | x :: l => if cols =? 72 then 10 :: x :: wrap 2 l else x :: wrap (cols + 1) l
  end.

Lemma wrap_len l : forall cols,
  1 <= cols <= 72 -> l <> [] -> zlen (wrap cols l) = zlen l + (zlen l + cols - 2) / 71.
Proof.
  induction l as [|x l IH]; intros cols Hc Hl; [done|]. cbn [wrap].
  destruct (decide (l = [])) as [->|Hl'].
  - destruct (Z.eqb_spec cols 72) as [->|E]; [done|].
    cbn [wrap]. rewrite zlen_cons, zlen_nil. Z.div_mod_to_equations. lia.
  - zlen_facts. destruct (Z.eqb_spec cols 72) as [->|E];
      rewrite !zlen_cons, IH by (done || lia); Z.div_mod_to_equations; lia.
Qed.

Lemma wrap_filter l : forall cols, filter kept (wrap cols l) = filter kept l.
Proof.
  assert (H10 : ~ kept 10) by by_compute.
  induction l as [|x l IH]; intros cols; [done|]. cbn [wrap].
  destruct (cols =? 72).
  - rewrite list.filter_cons_False by done. rewrite !list.filter_cons, IH. done.
  - by rewrite !list.filter_cons, IH.
Qed.

Lemma encode_file_loop_ok fuel : forall s i j cols len out,
  0 <= i <= len -> 0 <= j -> 1 <= cols <= 72 -> j + (len - i) <= zlen s ->
  2 * (len - i) - (if cols =? 72 then 0 else 1) <= Z.of_nat fuel ->
  encode_file_loop fuel s i j cols len out = out ++ wrap cols (ztake (len - i) (zdrop j s)).
Proof.
  induction fuel as [|fuel IH]; intros s i j cols len out Hi Hj Hc Hs Hf.
  - assert (len - i = 0) as -> by (destruct (cols =? 72); lia).
    rewrite ztake_0 by lia. by rewrite app_nil_r.
  - cbn [encode_file_loop]. destruct (Z.ltb_spec i len) as [L|L].
    2: { rewrite ztake_0 by lia. by rewrite app_nil_r. }
    assert (Ez : ztake (len - i) (zdrop j s) =
                 znth s j :: ztake (len - (i + 1)) (zdrop (j + 1) s)).
    { unfold znth, ztake, zdrop.
      replace (Z.to_nat (len - i)) with (S (Z.to_nat (len - (i + 1)))) by lia.
      replace (Z.to_nat (j + 1)) with (S (Z.to_nat j)) by lia.
      destruct (lookup_lt_is_Some_2 s (Z.to_nat j)) as [x Ex]; [unfold zlen in Hs; lia|].
      rewrite (drop_S _ _ _ Ex). cbn [take]. by rewrite (nth_lookup_Some _ _ _ _ Ex). }
    destruct (Z.eqb_spec cols 72) as [->|E].
    + rewrite IH by (try lia; change (0 + 1 =? 72) with false; lia).
      change (0 + 1) with 1. replace (len + 1 - (i + 1)) with (len - i) by lia.
      rewrite Ez. cbn [wrap]. by rewrite <- app_assoc.
    + rewrite IH by (try lia; destruct (cols + 1 =? 72); lia).
      rewrite Ez. cbn [wrap]. rewrite (proj2 (Z.eqb_neq _ _) E). by rewrite <- app_assoc.
Qed.

Lemma zlen_pos (l : list Z) : l <> [] -> 0 < zlen l.
Proof. destruct l as [|x l]; [done|]. rewrite zlen_cons. zlen_facts. lia. Qed.

Lemma base64_file_ok data :
  encodable data -> data <> [] ->
  let lines := wrap 1 (b64 data) in
  let n := zlen (b64 data) in
  exists block,
    silc_base64_encode_file data (zlen data) = Some block /\
    ztake (zlen lines) block = lines /\
    zlen block = Z.max (n + n / 72 + 1) (zlen lines) /\ zlen lines = n + (n - 1) / 71.
Proof.
  intros He Hd. cbn zeta. destruct (base64_encode_ok data He) as [k Ek].
  destruct He as [Hb Hl]. destruct (b64_chars data Hb) as [_ El]. zlen_facts.
  unfold silc_base64_encode_file, strlen. rewrite Ek, b64_string by done.
  set (n := zlen (b64 data)) in *.
  assert (Hpos : 0 < zlen data) by (by apply zlen_pos).
  assert (Hn : 0 < n < 400000000) by (rewrite El; Z.div_mod_to_equations; lia).
  assert (Hq : 0 <= n / 72 <= n) by (Z.div_mod_to_equations; lia).
  rewrite u32_id, silc_calloc_ok by (unfold SILC_MAX_ALLOC; Z.div_mod_to_equations; lia).
  rewrite encode_file_loop_ok by (rewrite ?zlen_app; zlen_facts; cbn; lia).
  rewrite (zdrop_0 0), ztake_app_exact by (fold n; lia). cbn [app].
  assert (Hne : b64 data <> []) by (intros E; apply (f_equal zlen) in E; rewrite zlen_nil in E; fold n in E; lia).
  rewrite !Z.mul_1_l. eexists. split; [reflexivity|].
  rewrite wrap_len by (done || lia). fold n. replace (n + 1 - 2) with (n - 1) by lia.
  assert (Hz : 0 <= n + (n - 1) / 71) by (Z.div_mod_to_equations; lia).
  split; [|split; [|done]].
  - unfold splice. rewrite (ztake_0 0) by lia. cbn [app]. apply ztake_app_exact.
    rewrite wrap_len by (done || lia). fold n. f_equal. f_equal. lia.
  - rewrite zlen_splice_max, zlen_zeros, wrap_len by (rewrite ?zlen_zeros; done || lia).
    fold n. replace (n + 1 - 2) with (n - 1) by lia. done.
Qed.

(** ** Concatenation, splitting and regular expressions *)

Lemma c_string_len s : zlen (c_string s) <= zlen s.
Proof. rewrite <- (c_string_take s) at 1. zlen_facts. rewrite zlen_take_min by lia. lia. Qed.

Lemma c_string_split s :
  zlen (c_string s) < zlen s -> exists t, s = c_string s ++ 0 :: t.
Proof.
  induction s as [|c s IH]; [done|]. cbn [c_string]. destruct (Z.eqb_spec c 0) as [->|].
  - intros _. by exists s.
  - rewrite !zlen_cons. intros Hl. destruct IH as [t E]; [lia|]. exists t. by rewrite E at 1.
Qed.

(** A NUL written into a string cuts it. *)
Lemma c_string_cut s n :
  0 <= n < zlen s ->
  c_string (splice n [0] s) = ztake n (c_string s) /\ strlen (splice n [0] s) <= n.
Proof.
  intros Hn. unfold strlen, splice.
  assert (E : c_string (ztake n s ++ 0 :: zdrop (n + zlen [0]) s) = ztake n (c_string s)).
  { clear. unfold ztake. generalize (Z.to_nat n) as k. intros k.
    generalize (zdrop (n + zlen [0]) s) as r. intros r. revert k.
    induction s as [|c s IH]; intros [|k]; cbn [take app c_string]; try done.
    destruct (c =? 0); [done|]. by rewrite IH. }
  cbn [app]. rewrite E. split; [done|]. zlen_facts. rewrite zlen_take_min by lia. lia.
Qed.

Lemma strncat_ok dest src n :
  0 <= n -> strlen dest + Z.min n (strlen src) < zlen dest ->
  let r := strncat dest src n in
  c_string r = c_string dest ++ ztake n (c_string src) /\ zlen r = zlen dest.
Proof.
  intros Hn Hl. cbn zeta. unfold strncat, strlen in *. zlen_facts.
  assert (Ez : zlen (ztake n (c_string src)) = Z.min n (zlen (c_string src)))
    by (by rewrite zlen_take_min).
  split.
  - unfold splice. rewrite c_string_take. rewrite <- app_assoc. cbn [app]. rewrite app_assoc.
    apply c_string_app. apply list.Forall_app. split; [apply c_string_nonzero|].
    apply list.Forall_take, c_string_nonzero.
  - rewrite zlen_splice; [done|lia|]. rewrite zlen_app. change (zlen [0]) with 1. lia.
Qed.

Fixpoint join (ch : Z) (l : list (list Z)) : list Z :=
  match l with
  | [] => []
  | [x] => x
  | x :: l => x ++ ch :: join ch l
  end.

Lemma strcspn_spec s ch :
  let n := strcspn s [ch] in
  0 <= n <= zlen s /\ (ch ∉ ztake n s) /\
  (zdrop n s = [] \/ exists t, zdrop n s = ch :: t).
Proof.
  cbn zeta. induction s as [|c s IH]; cbn [strcspn].
  - split; [done|]. split; [apply not_elem_of_nil|by left].
  - destruct IH as (I1 & I2 & I3). case_bool_decide as Hc.
    + apply list_elem_of_singleton in Hc as ->. rewrite zlen_cons. zlen_facts.
      rewrite ztake_0, zdrop_0 by lia.
      split; [lia|]. split; [apply not_elem_of_nil|right; by exists s].
    + rewrite list_elem_of_singleton in Hc. rewrite zlen_cons.
      set (k := strcspn s [ch]) in *. split; [lia|].
      unfold ztake, zdrop in *. replace (Z.to_nat (1 + k)) with (S (Z.to_nat k)) by lia.
      cbn [take drop]. split; [|done]. rewrite not_elem_of_cons. by split.
Qed.

Lemma string_split_loop_ok ch fuel : forall cp i,
  (length cp < fuel)%nat -> 0 <= i -> (i + zlen cp + 1) * 8 < SILC_MAX_ALLOC ->
  exists pieces,
    string_split_loop fuel cp [ch] i = Some ((fun p => p ++ [0]) <$> pieces) /\
    join ch pieces = cp /\ Forall (fun p => ch ∉ p) pieces /\ pieces <> [].
Proof.
  induction fuel as [|fuel IH]; intros cp i Hf Hi Hl; [lia|]. cbn [string_split_loop].
  destruct (strcspn_spec cp ch) as (S1 & S2 & S3). set (n := strcspn cp [ch]) in *. zlen_facts.
  rewrite silc_memdup_ok, alloc_ok_range by lia.
  pose proof (ztake_drop n cp) as E. destruct S3 as [S3|[t S3]]; rewrite S3 in *.
  - cbn. exists [ztake n cp]. rewrite app_nil_r in E. split; [done|]. split; [done|].
    split; [by repeat constructor|done].
  - rewrite zlen_cons. zlen_facts. rewrite (proj2 (Z.eqb_neq _ _)) by lia.
    change (zdrop 1 (ch :: t)) with t.
    assert (Hc : zlen cp = n + 1 + zlen t)
      by (rewrite <- E, zlen_app, zlen_cons, zlen_take by lia; lia).
    destruct (IH t (i + 1)) as (ps & -> & Ej & Hp & Hne); [unfold zlen in *; lia|lia|lia|].
    exists (ztake n cp :: ps). split; [done|]. split; [|by split; [constructor|]].
    destruct ps as [|p ps]; [done|].
    change (join ch (?x :: p :: ps)) with (x ++ ch :: join ch (p :: ps)). by rewrite Ej.
Qed.

(** What one character of a wildcard list becomes. *)
Definition regex_char (c : Z) : list Z :=
  if is_wild c then [46; c] else if c =? 44 then [124; 94] else [c].

(** The expression: the list with its commas as alternatives. *)
Definition regex_of (s : list Z) : list Z := [40; 94] ++ concat (regex_char <$> s) ++ [41; 36].

Lemma regexify_loop_ok s : forall i len out,
  i + zlen s = len -> (2 <= zlen s -> nth (length s - 2) s 0 <> 44) ->
  regexify_loop s i len out = out ++ concat (regex_char <$> s).
Proof.
  induction s as [|c s IH]; intros i len out Hl Hn; [by rewrite app_nil_r|].
  rewrite zlen_cons in *. zlen_facts.
  assert (Hs : 2 <= zlen s -> nth (length s - 2) s 0 <> 44).
  { intros H2. unfold zlen in H2. rewrite <- (Hn ltac:(unfold zlen; lia)) || intros E; apply (Hn ltac:(unfold zlen; lia)).
    cbn [length]. replace (S (length s) - 2)%nat with (S (length s - 2)) by lia. done. }
  cbn [regexify_loop fmap list_fmap concat]. unfold regex_char at 1.
  destruct (is_wild c); [rewrite IH by (done || lia); by rewrite <- app_assoc|].
  destruct (Z.eqb_spec c 44) as [->|E]; [|rewrite IH by (done || lia); by rewrite <- app_assoc].
  destruct (Z.eqb_spec (i + 2) len) as [E2|E2].
  - exfalso. apply Hn; [lia|]. assert (length s = 1%nat) as E1 by (unfold zlen in *; lia).
    cbn [length]. by rewrite E1.
  - rewrite IH by (done || lia). by rewrite <- app_assoc.
Qed.

Lemma regex_char_len c :
  zlen (regex_char c) = (if is_wild c then 1 else 0) + (if c =? 44 then 1 else 0) + 1.
Proof.
  unfold regex_char, is_wild. destruct (Z.eqb_spec c 42) as [->|]; [done|].
  destruct (Z.eqb_spec c 63) as [->|]; [done|]. cbn [orb]. by destruct (c =? 44).
Qed.

Lemma regex_count_ok s : forall n,
  n + zlen s + (zlen (concat (regex_char <$> s)) - zlen s) <=
  zlen s + foldl (fun count c =>
    let count := if is_wild c then count + 1 else count in
    if c =? 44 then count + 2 else count) n s.
Proof.
  induction s as [|c s IH]; intros n; [cbn; lia|].
  cbn [fmap list_fmap concat foldl]. rewrite zlen_app, regex_char_len, !zlen_cons.
  destruct (is_wild c), (c =? 44);
    [specialize (IH (n + 1 + 2))|specialize (IH (n + 1))|specialize (IH (n + 2))|specialize (IH n)];
    cbn zeta in *; lia.
Qed.

Lemma regex_chars_nonzero s :
  Forall (fun c => c <> 0) s -> Forall (fun c => c <> 0) (concat (regex_char <$> s)).
Proof.
  induction 1 as [|c s Hc Hs IH]; [constructor|]. cbn [fmap list_fmap concat].
  apply list.Forall_app. split; [|done]. unfold regex_char.
  destruct (is_wild c); [by repeat constructor|]. destruct (c =? 44); by repeat constructor.
Qed.

(** A second character from the end that is no comma. *)
Definition no_late_comma (s : list Z) : Prop := 2 <= zlen s -> nth (length s - 2) s 0 <> 44.

Lemma regexify_ok (string : list Z) :
  let s := c_string string in
  no_late_comma s -> 4 * zlen s + 5 < SILC_MAX_ALLOC ->
  exists r n, silc_string_regexify (Some string) = Some (r ++ 0 :: zeros n) /\
    r = regex_of s /\ c_string (r ++ 0 :: zeros n) = regex_of s /\ zlen r <= 4 * zlen s + 4.
Proof.
  cbn zeta. intros Hn Hl. unfold silc_string_regexify.
  pose proof (c_string_nonzero string) as Hz. set (s := c_string string) in *.
  pose proof (regex_count_ok s 4) as Hc. change (foldl _ 4 s) with (regex_count s) in Hc. zlen_facts.
  assert (Hub : forall l n, foldl (fun count c =>
    let count := if is_wild c then count + 1 else count in
    if c =? 44 then count + 2 else count) n l <= n + 3 * zlen l).
  { induction l as [|c l IHl]; intros k; [rewrite (@zlen_nil Z); cbn; lia|]. cbn [foldl]. rewrite zlen_cons.
    destruct (is_wild c), (c =? 44); cbn iota zeta;
      match goal with |- foldl _ ?m _ <= _ => specialize (IHl m) end; cbn zeta in *; lia. }
  specialize (Hub s 4). change (foldl _ 4 s) with (regex_count s) in Hub.
  set (body := concat (regex_char <$> s)) in *.
  assert (Hr : zlen (regex_of s) = zlen body + 4).
  { unfold regex_of. fold body. rewrite !zlen_app. change (zlen [40; 94]) with 2.
    change (zlen [41; 36]) with 2. lia. }
  rewrite silc_calloc_ok by lia. rewrite regexify_loop_ok by (done || lia).
  exists (regex_of s), (zlen s + regex_count s - zlen (regex_of s)).
  split; [|split; [done|]].
  - fold body. assert (Er : ([40; 94] ++ body) ++ [41; 36] = regex_of s)
      by (unfold regex_of; by rewrite <- app_assoc).
    rewrite Er. unfold splice. rewrite (ztake_0 0), app_nil_l, Z.add_0_l by lia. do 2 f_equal.
    replace (1 * _) with (zlen (regex_of s) + (1 + (zlen s + regex_count s - zlen (regex_of s)))) by lia.
    rewrite zeros_app, zeros_app by lia. apply zdrop_app_exact. rewrite zlen_zeros; lia.
  - split; [|lia]. apply c_string_app. unfold regex_of. apply list.Forall_app.
    split; [by repeat constructor|]. apply list.Forall_app. split; [by apply regex_chars_nonzero|].
    by repeat constructor.
Qed.

(** ** Properties *)

(** C38: Base 64: what the encoder returns is the NUL-terminated RFC 4648 encoding
    of the data; the decoder, given it with its length or 0, or given it broken
    into lines or with other characters in between, returns the data. *)
Theorem base64_roundtrip (data : list Z) (s : list Z) :
  encodable data -> data <> [] -> zlen s < 536870912 -> filter kept s = b64 data ->
  (exists n m,
     silc_base64_encode data (zlen data) = Some (b64 data ++ 0 :: zeros n) /\
     silc_base64_decode (b64 data ++ 0 :: zeros n) 0 = Some (data ++ zeros m, zlen data)) /\
  exists m, silc_base64_decode s (zlen s) = Some (data ++ zeros m, zlen data).
Proof.
  intros He Hd Hs Hf. pose proof He as [Hb Hl]. destruct (b64_chars data Hb) as [_ El].
  assert (Hpos : 0 < zlen data) by (by apply zlen_pos).
  assert (Hn : 0 < zlen (b64 data) < 400000000) by (rewrite El; Z.div_mod_to_equations; lia).
  split.
  - destruct (base64_encode_ok data He) as [n En]. exists n.
    destruct (base64_decode_ok (b64 data ++ 0 :: zeros n) (zlen (b64 data)) data) as [m Em];
      [done|lia|rewrite zlen_app; zlen_facts; lia|by rewrite ztake_app_exact, filter_b64|].
    exists m. split; [done|]. rewrite <- Em. unfold silc_base64_decode at 1, strlen.
    rewrite b64_string by done. unfold silc_base64_decode.
    by rewrite (proj2 (Z.eqb_neq (zlen (b64 data)) 0)) by lia.
  - apply base64_decode_ok; [done| |done|by rewrite ztake_ge].
    assert (0 < zlen s); [|lia]. zlen_facts.
    destruct (decide (zlen s = 0)) as [E|E]; [|lia].
    rewrite (zlen_zero_nil s E) in Hf. apply (f_equal zlen) in Hf.
    change (filter kept []) with (@nil Z) in Hf. rewrite zlen_nil in Hf. lia.
Qed.

Lemma base64_roundtrip_witness :
  (exists n m,
     silc_base64_encode [115; 105; 108; 99] 4 = Some (b64 [115; 105; 108; 99] ++ 0 :: zeros n) /\
     silc_base64_decode (b64 [115; 105; 108; 99] ++ 0 :: zeros n) 0 =
       Some ([115; 105; 108; 99] ++ zeros m, 4)) /\
  exists m, silc_base64_decode [99; 50; 10; 108; 115; 32; 89; 119; 61; 61] 10 =
    Some ([115; 105; 108; 99] ++ zeros m, 4).
Proof.
  apply (base64_roundtrip [115; 105; 108; 99] [99; 50; 10; 108; 115; 32; 89; 119; 61; 61]);
    [split; by_compute|done|done|reflexivity].
Defined.

(** The file form writes the encoding in lines of 71 characters and the
    decoder takes it back; but its block is sized for lines of 72: the lines end
    without a NUL, or past the end of the block, exactly when there are more
    line breaks than a 72nd of the characters. *)
Theorem base64_file_bounds (data : list Z) :
  encodable data -> data <> [] ->
  let lines := wrap 1 (b64 data) in
  let n := zlen (b64 data) in
  exists block size,
    silc_base64_encode_file data (zlen data) = Some block /\ size = n + n / 72 + 1 /\
    ztake (zlen lines) block = lines /\
    (zlen lines < size <-> (n - 1) / 71 <= n / 72) /\
    (size < zlen block <-> n / 72 + 1 < (n - 1) / 71) /\
    exists m, silc_base64_decode lines (zlen lines) = Some (data ++ zeros m, zlen data).
Proof.
  intros He Hd. cbn zeta. destruct (base64_file_ok data He Hd) as (block & E1 & E2 & E3 & E4).
  pose proof He as [Hb Hl]. destruct (b64_chars data Hb) as [_ El].
  set (n := zlen (b64 data)) in *.
  assert (Hpos : 0 < zlen data) by (by apply zlen_pos).
  assert (Hn : 0 < n < 400000000) by (rewrite El; Z.div_mod_to_equations; lia).
  exists block, (n + n / 72 + 1). split; [done|]. split; [done|]. split; [done|].
  split; [lia|]. split; [lia|].
  apply base64_decode_ok; [done|Z.div_mod_to_equations; lia|lia|].
  rewrite ztake_ge, wrap_filter by lia. by apply filter_b64.
Qed.

Lemma base64_file_bounds_witness :
  exists block size,
    silc_base64_encode_file (zeros 4155) (zlen (zeros 4155)) = Some block /\
    size = zlen (b64 (zeros 4155)) + zlen (b64 (zeros 4155)) / 72 + 1 /\
    ztake (zlen (wrap 1 (b64 (zeros 4155)))) block = wrap 1 (b64 (zeros 4155)) /\
    (zlen (wrap 1 (b64 (zeros 4155))) < size <->
      (zlen (b64 (zeros 4155)) - 1) / 71 <= zlen (b64 (zeros 4155)) / 72) /\
    (size < zlen block <->
      zlen (b64 (zeros 4155)) / 72 + 1 < (zlen (b64 (zeros 4155)) - 1) / 71) /\
    exists m, silc_base64_decode (wrap 1 (b64 (zeros 4155))) (zlen (wrap 1 (b64 (zeros 4155)))) =
      Some (zeros 4155 ++ zeros m, zlen (zeros 4155)).
Proof. apply (base64_file_bounds (zeros 4155)); [split; by_compute|done]. Defined.

(** The smallest such data: 265 bytes are returned without a NUL, 4153 bytes
    are written one past the block. *)
Lemma base64_file_overrun :
  (exists b, silc_base64_encode_file (zeros 265) 265 = Some b /\ zlen b = 356 + 356 / 72 + 1 /\
     ~ In 0 b) /\
  exists b, silc_base64_encode_file (zeros 4153) 4153 = Some b /\ zlen b = 5540 + 5540 / 72 + 2.
Proof.
  split.
  - destruct (base64_file_ok (zeros 265)) as (b & E & Ht & Hl & _); [split; by_compute|done|].
    assert (En : zlen (b64 (zeros 265)) = 356) by (vm_compute; reflexivity).
    assert (Ew : zlen (wrap 1 (b64 (zeros 265))) = 361) by (vm_compute; reflexivity).
    rewrite zlen_zeros in E by done. rewrite En, Ew in Hl. exists b.
    split; [exact E|]. split; [exact Hl|].
    rewrite Ew, ztake_ge in Ht by (rewrite Hl; done). rewrite Ht. clear.
    assert (H : Forall (fun c => c <> 0) (wrap 1 (b64 (zeros 265)))) by by_compute.
    intros Hi. rewrite List.Forall_forall in H. by apply (H 0).
  - destruct (base64_file_ok (zeros 4153)) as (b & E & _ & Hl & _); [split; by_compute|done|].
    assert (En : zlen (b64 (zeros 4153)) = 5540) by (vm_compute; reflexivity).
    assert (Ew : zlen (wrap 1 (b64 (zeros 4153))) = 5618) by (vm_compute; reflexivity).
    rewrite zlen_zeros in E by done. exists b. split; [exact E|].
    rewrite Hl, En, Ew. vm_compute. reflexivity.
Qed.

(** [silc_strncat] appends what fits of the first [src_len] characters, ends
    the string inside the first [dest_size] bytes, and leaves the rest. *)
Lemma strncat_bounds (dest src : list Z) (dest_size src_len : Z) :
  0 < dest_size <= zlen dest -> 0 <= src_len ->
  let r := silc_strncat dest dest_size src src_len in
  let old := ztake (dest_size - 1) (c_string dest) in
  c_string r = old ++ ztake (Z.min src_len (dest_size - 1 - zlen old)) (c_string src) /\
  zlen r = zlen dest /\ zlen (c_string r) < dest_size.
Proof.
  intros Hd Hs. cbn zeta. unfold silc_strncat.
  destruct (c_string_cut dest (dest_size - 1)) as [E1 E2]; [lia|].
  set (d := splice _ [0] dest) in *.
  assert (Hl : zlen d = zlen dest)
    by (unfold d; rewrite zlen_splice; change (zlen [0]) with 1; lia).
  unfold strlen in *. rewrite E1 in *. set (old := ztake _ (c_string dest)) in *. zlen_facts.
  assert (Hcat : forall n, 0 <= n -> n <= dest_size - 1 - zlen old ->
    c_string (strncat d src n) = old ++ ztake n (c_string src) /\ zlen (strncat d src n) = zlen dest /\
    zlen (c_string (strncat d src n)) < dest_size).
  { intros n Hn0 Hn. destruct (strncat_ok d src n Hn0) as [C1 C2];
      [unfold strlen; rewrite E1, Hl; lia|]. rewrite C1, C2, E1, zlen_app. zlen_facts.
    split; [done|]. split; [done|]. rewrite (zlen_take_min n) by lia. lia. }
  destruct (Z.ltb_spec (dest_size - 1 - zlen old) src_len) as [L|L].
  - rewrite Z.min_r by lia. destruct (Z.ltb_spec 0 (dest_size - 1 - zlen old)) as [L0|L0].
    + apply Hcat; lia.
    + rewrite ztake_0, app_nil_r, E1 by lia. split; [done|]. lia.
  - rewrite Z.min_l by lia. apply Hcat; lia.
Qed.

(** [silc_string_split], with a NUL behind its separator: the pieces hold no
    separator and, joined by it, are the string. *)
Lemma string_split_join (string rest : list Z) (ch : Z) :
  let s := c_string string in
  ch <> 0 -> (zlen s + 1) * 8 < SILC_MAX_ALLOC ->
  exists pieces,
    silc_string_split (Some string) ch (0 :: rest) = Some ((fun p => Some (p ++ [0])) <$> pieces) /\
    join ch pieces = s /\ Forall (fun p => ch ∉ p) pieces.
Proof.
  cbn zeta. intros Hc Hl. unfold silc_string_split. set (s := c_string string) in *.
  cbn [c_string]. rewrite (proj2 (Z.eqb_neq _ _) Hc), Z.eqb_refl.
  case_bool_decide as E.
  - destruct (string_split_loop_ok ch (S (length s)) s 0) as (ps & H1 & H2 & H3 & _);
      [lia|lia|lia|]. exists ps. rewrite H1, <- list_fmap_compose. by split.
  - zlen_facts. rewrite silc_memdup_ok by lia. exists [s].
    rewrite ztake_ge by lia. split; [done|]. split; [done|]. by repeat constructor.
Qed.

(** The separator is not a string: what follows it on the stack splits too. *)
Lemma split_unterminated :
  silc_string_split (Some [97; 44; 98; 58; 99; 0]) 44 [58; 0] =
    Some [Some [97; 0]; Some [98; 0]; Some [99; 0]] /\
  silc_string_split (Some [97; 44; 98; 58; 99; 0]) 44 [0] = Some [Some [97; 0]; Some [98; 58; 99; 0]].
Proof. vm_compute. by split. Qed.

(** A comma before the last character is dropped: the list "a,b" becomes the
    expression of "ab". *)
Lemma regexify_late_comma :
  silc_string_regexify (Some [97; 44; 98; 0]) = Some (regex_of [97; 98] ++ zeros 4) /\
  silc_string_regexify (Some [97; 44; 98; 98; 0]) = Some (regex_of [97; 44; 98; 98] ++ zeros 2).
Proof. vm_compute. by split. Qed.

(** Combining two expressions: the first loses its last two characters and the
    second its first. *)
Lemma combine_ok (string1 string2 a b : list Z) x y c :
  c_string string1 = a ++ [x; y] -> c_string string2 = c :: b ->
  zlen a + zlen b < 1000000000 ->
  exists r, silc_string_regex_combine (Some string1) (Some string2) = Some r /\
            c_string r = a ++ 124 :: b.
Proof.
  intros E1 E2 Hl. zlen_facts. unfold silc_string_regex_combine, strlen.
  assert (H1 : zlen (a ++ [x; y]) = zlen a + 2) by by rewrite zlen_app.
  assert (H2 : zlen (c :: b) = 1 + zlen b) by apply zlen_cons.
  rewrite E1, E2, H1, H2.
  rewrite silc_calloc_ok, Z.mul_1_l by (unfold SILC_MAX_ALLOC; lia).
  set (size := 2 + _ + _).
  assert (Hu : forall k, 0 <= k < 1000000003 -> u64 k = k)
    by (intros k Hk; apply Z.mod_small; lia).
  rewrite !Hu by lia. rewrite Z.add_simpl_r, Z.add_simpl_l.
  assert (Z1 : c_string (zeros size) = []).
  { replace size with (1 + (size - 1)) by lia. by rewrite zeros_app by (unfold size; lia). }
  assert (Z2 : zlen (zeros size) = size) by (apply zlen_zeros; unfold size; lia).
  destruct (strncat_ok (zeros size) string1 (zlen a)) as [A1 A2];
    [lia|unfold strlen; rewrite Z1, E1, H1, zlen_nil, Z2; unfold size; lia|].
  set (t1 := strncat (zeros size) _ _) in *. rewrite Z1, E1, ztake_app_exact in A1 by done.
  destruct (strncat_ok t1 [124; 0] 1) as [B1 B2];
    [lia|unfold strlen; rewrite A1, A2, Z2; change (zlen (c_string [124; 0])) with 1; unfold size;
         cbn [app]; lia|].
  set (t2 := strncat t1 _ 1) in *. rewrite A1 in B1.
  change (ztake 1 (c_string [124; 0])) with [124] in B1.
  assert (Hd : c_string (zdrop 1 string2) = b).
  { destruct string2 as [|d s]; [done|]. cbn [c_string] in E2. destruct (d =? 0); [done|].
    by injection E2. }
  destruct (strncat_ok t2 (zdrop 1 string2) (zlen b)) as [C1 _];
    [lia|unfold strlen; rewrite B1, B2, A2, Hd, Z2, !zlen_app, zlen_nil; unfold size;
         change (zlen [124]) with 1; lia|].
  eexists. split; [reflexivity|]. rewrite C1, B1, Hd, ztake_ge by lia.
  cbn [app]. by rewrite <- app_assoc.
Qed.

(** Wildcard lists: the expression of a list is a NUL-terminated string with
    an alternative for each element and a dot before each wildcard, and
    combining the expressions of two lists gives the expression of the list of
    both, unless a comma is the last but one character, where it is lost. *)
Theorem regex_combine_lists (string1 string2 : list Z) :
  let s1 := c_string string1 in
  let s2 := c_string string2 in
  no_late_comma s1 -> no_late_comma s2 -> zlen s1 + zlen s2 < 100000000 ->
  exists r1 r2 r,
    silc_string_regexify (Some string1) = Some r1 /\ c_string r1 = regex_of s1 /\
    silc_string_regexify (Some string2) = Some r2 /\ c_string r2 = regex_of s2 /\
    silc_string_regex_combine (Some r1) (Some r2) = Some r /\
    c_string r = regex_of (s1 ++ 44 :: s2).
Proof.
  cbn zeta. intros N1 N2 Hl. zlen_facts.
  destruct (regexify_ok string1 N1) as (r1 & n1 & E1 & F1 & G1 & L1);
    [unfold SILC_MAX_ALLOC; lia|].
  destruct (regexify_ok string2 N2) as (r2 & n2 & E2 & F2 & G2 & L2);
    [unfold SILC_MAX_ALLOC; lia|].
  set (s1 := c_string string1) in *. set (s2 := c_string string2) in *.
  rewrite F1 in L1. rewrite F2 in L2.
  assert (R1 : regex_of s1 = ([40; 94] ++ concat (regex_char <$> s1)) ++ [41; 36])
    by (unfold regex_of; by rewrite <- app_assoc).
  set (a := [40; 94] ++ _) in R1.
  destruct (combine_ok (r1 ++ 0 :: zeros n1) (r2 ++ 0 :: zeros n2) a
    ([94] ++ concat (regex_char <$> s2) ++ [41; 36]) 41 36 40) as (r & E & Er).
  { by rewrite G1. }
  { by rewrite G2. }
  { rewrite R1, zlen_app in L1. unfold regex_of in L2. rewrite zlen_app in L2 |- *.
    change (zlen [40; 94]) with 2 in L2. change (zlen [94]) with 1.
    change (zlen [41; 36]) with 2 in L1. lia. }
  exists (r1 ++ 0 :: zeros n1), (r2 ++ 0 :: zeros n2), r. rewrite Er.
  split; [done|]. split; [done|]. split; [done|]. split; [done|]. split; [done|].
  unfold a, regex_of. rewrite fmap_app, concat_app. cbn [fmap list_fmap concat].
  change (regex_char 44) with [124; 94]. by rewrite <- !app_assoc.
Qed.

Lemma regex_combine_lists_witness :
  exists r1 r2 r,
    silc_string_regexify (Some [97; 42; 44; 98; 99; 0]) = Some r1 /\
    c_string r1 = regex_of [97; 42; 44; 98; 99] /\
    silc_string_regexify (Some [100; 0]) = Some r2 /\ c_string r2 = regex_of [100] /\
    silc_string_regex_combine (Some r1) (Some r2) = Some r /\
    c_string r = regex_of ([97; 42; 44; 98; 99] ++ 44 :: [100]).
Proof.
  apply (regex_combine_lists [97; 42; 44; 98; 99; 0] [100; 0]);
    [intros _ H; discriminate H|intros H; exfalso; revert H; by_compute|done].
Defined.
