(* ===== verification/Utf8.v ===== *)
(** * UTF-8 ([lib/silcutil/silcutf8.c])

    [silc_utf8_encode] and [silc_utf8_decode] between UTF-8 and the other
    encodings, and the functions over them.  The length of the output buffer is
    a Z beside the block, since the C code compares with the length it is given;
    a block that is written past its end grows, so its length says whether that
    happens.  The C library's locale is outside the repository: what [isprint]
    answers and what [iconv] converts are parameters.  Case folding
    ([silc_utf8_strcasecmp]) is the stringprep library's and is left out. *)

From S2P Require Import Prelude CTypes Memory.

(** ** Encodings *)

(** [SilcStringEncoding] ([silcstrutil.h]); [SILC_STRING_UTF8_ESCAPE] is
    [SILC_STRING_LDAP_DN], and the numbers are theirs in the order of the
    constructors. *)
Inductive SilcStringEncoding :=
  | SILC_STRING_ASCII | SILC_STRING_ASCII_ESC | SILC_STRING_BMP | SILC_STRING_BMP_LSB
  | SILC_STRING_UNIVERSAL | SILC_STRING_UNIVERSAL_LSB | SILC_STRING_LOCALE
  | SILC_STRING_UTF8 | SILC_STRING_PRINTABLE | SILC_STRING_VISIBLE
  | SILC_STRING_TELETEX | SILC_STRING_NUMERICAL | SILC_STRING_LDAP_DN.

#[export] Instance SilcStringEncoding_eq_dec : EqDecision SilcStringEncoding.
Proof. solve_decision. Defined.

(** ** [sscanf] of the C library, for the format of this file *)

Definition isspace (c : Z) : bool := (c =? 32) || ((9 <=? c) && (c <=? 13)).
Definition isdigit (c : Z) : bool := (48 <=? c) && (c <=? 57).

Definition hex_digit (c : Z) : option Z :=
  if isdigit c then Some (c - 48)
  else if (65 <=? c) && (c <=? 70) then Some (c - 55)
  else if (97 <=? c) && (c <=? 102) then Some (c - 87)
  else None.

Fixpoint skip_space (s : list Z) : list Z :=
  match s with
  | c :: s' => if isspace c then skip_space s' else s
  | [] => []
  end.

(** ["%02X"]: space, then at most two characters of a number with an optional
    sign or [0x]; the value where the conversion is made.  The end of the block
    ends the string as a NUL does. *)
Definition sscanf_02X (s : list Z) : option Z :=
  match skip_space s with
  | a :: s =>
      let second := match s with b :: _ => hex_digit b | [] => None end in
      let is_x := match s with b :: _ => (b =? 120) || (b =? 88) | [] => false end in
      if a =? 43 then second
      else if a =? 45 then option_map (fun d => u32 (- d)) second
      else
        match hex_digit a, second with
        | Some d, Some e => Some (d * 16 + e)
        | Some d, None => if (a =? 48) && is_x then None else Some d
        | None, _ => None
        end
  | [] => None
  end.

(** ** Writing to the buffer *)

(** [utf8] or [bin] with [enclen]; the pointer may be NULL. *)
Abbreviation out := (option (list Z)).

(** The bytes [bs] at [enclen], where [enclen + need] is compared with [size] when
    there is a buffer; [None] is the [return 0]. *)
Definition put (need : Z) (bs : list Z) (size : Z) (o : out) (enclen : Z) : option out :=
  match o with
  | Some buf =>
      if size <? u32 (enclen + need) then None else Some (Some (splice enclen bs buf))
  | None => Some None
  end.

(** What a function returns, and the buffer it leaves. *)
Definition fail (o : out) : Z * out := (0, o).

(** ** Decoding *)

Section Decode.
(** [isprint] in the locale of the process. *)
Variable isprint : Z -> bool.

Definition cont (b : Z) : bool := Z.land b 0xc0 =? 0x80.

(** The first character of the [n] bytes at [s]: [charval] and [bytes]. *)
Definition utf8_decode_char (s : list Z) (n : Z) : option (Z * Z) :=
  let b i := znth s i in
  let part i m k := Z.shiftl (Z.land (b i) m) k in
  if Z.land (b 0) 0x80 =? 0x00 then Some (Z.land (b 0) 0x7f, 1)
  else if Z.land (b 0) 0xe0 =? 0xc0 then
    if n <=? 1 then None
    else if negb (cont (b 1)) then None
    else
      let charval := Z.lor (part 0 0x1f 6) (part 1 0x3f 0) in
      if charval <? 0x80 then None else Some (charval, 2)
  else if Z.land (b 0) 0xf0 =? 0xe0 then
    if n <=? 2 then None
    else if negb (cont (b 1)) || negb (cont (b 2)) then None
    else if (b 0 =? 0xed) && (0xa0 <=? b 1) && (b 1 <=? 0xbf) &&
            (0x80 <=? b 2) && (b 2 <=? 0xbf) then None
    else
      let charval := Z.lor (Z.lor (part 0 0xf 12) (part 1 0x3f 6)) (part 2 0x3f 0) in
      if charval <? 0x800 then None else Some (charval, 3)
  else if Z.land (b 0) 0xf8 =? 0xf0 then
    if n <=? 3 then None
    else if negb (cont (b 1)) || negb (cont (b 2)) || negb (cont (b 3)) then None
    else
      let charval := Z.lor (Z.lor (Z.lor (part 0 0x7 18) (part 1 0x3f 12)) (part 2 0x3f 6))
                           (part 3 0x3f 0) in
      if charval <? 0x10000 then None else Some (charval, 4)
  else if Z.land (b 0) 0xfc =? 0xf8 then
    if n <=? 4 then None
    else if negb (cont (b 1)) || negb (cont (b 2)) || negb (cont (b 3)) || negb (cont (b 4))
    then None
    else
      let charval :=
        Z.lor (Z.lor (Z.lor (Z.lor (part 0 0x3 24) (part 1 0x3f 18)) (part 2 0x3f 12))
                     (part 3 0x3f 6)) (part 4 0x3f 0) in
      if charval <? 0x200000 then None else Some (charval, 5)
  else if Z.land (b 0) 0xfe =? 0xfc then
    if n <=? 5 then None
    else if negb (cont (b 1)) || negb (cont (b 2)) || negb (cont (b 3)) || negb (cont (b 4)) ||
            negb (cont (b 5))
    then None
    else
      let charval :=
        Z.lor (Z.lor (Z.lor (Z.lor (Z.lor (part 0 0x1 30) (part 1 0x3f 24)) (part 2 0x3f 18))
                            (part 3 0x3f 12)) (part 4 0x3f 6)) (part 5 0x3f 0) in
      if charval <? 0x4000000 then None else Some (charval, 6)
  else None.

(** [silc_snprintf(.., 3, "%02X", cv)]: two digits and the NUL. *)
Definition hex_upper (d : Z) : Z := if d <? 10 then 48 + d else 55 + d.
Definition snprintf_02X (cv : Z) : list Z := [hex_upper (cv / 16); hex_upper (cv mod 16); 0].

Definition ldap_special (cv : Z) : bool :=
  (cv =? 44) || (cv =? 43) || (cv =? 34) || (cv =? 92) || (cv =? 60) || (cv =? 62) || (cv =? 59).

(** What a step leaves in the buffer, and [enclen] unless it returns 0. *)
Definition store (need : Z) (bs : list Z) (size : Z) (o : out) (enclen : Z) : out * option Z :=
  match put need bs size o enclen with
  | None => (o, None)
  | Some o => (o, Some (u32 (enclen + need)))
  end.

(** One turn of the loop over [k]; [last] is [i == utf8_len - 1]. *)
Definition ldap_byte (cv : Z) (last : bool) (size : Z) (o : out) (enclen : Z) : out * option Z :=
  if (enclen =? 0) && ((cv =? 35) || (cv =? 32)) then store 2 [92; cv] size o enclen
  else if last && (cv =? 32) then store 2 [92; cv] size o enclen
  else if ldap_special cv then store 2 [92; cv] size o enclen
  else if negb (isprint cv) then store 3 (92 :: snprintf_02X cv) size o enclen
  else store 1 [cv] size o enclen.

Fixpoint ldap_bytes (bs : list Z) (last : bool) (size : Z) (o : out) (enclen : Z)
    : out * option Z :=
  match bs with
  | [] => (o, Some enclen)
  | cv :: bs =>
      match ldap_byte cv last size o enclen with
      | (o, None) => (o, None)
      | (o, Some enclen) => ldap_bytes bs last size o enclen
      end
  end.

(** The [switch]: the character [charval], whose bytes are [bs]. *)
Definition decode_put (enc : SilcStringEncoding) (charval : Z) (bs : list Z) (last : bool)
    (size : Z) (o : out) (enclen : Z) : out * option Z :=
  match enc with
  | SILC_STRING_ASCII | SILC_STRING_PRINTABLE | SILC_STRING_VISIBLE | SILC_STRING_TELETEX
  | SILC_STRING_NUMERICAL => store 1 [u8 charval] size o enclen
  | SILC_STRING_BMP => store 2 (SILC_PUT16_MSB charval) size o enclen
  | SILC_STRING_BMP_LSB => store 2 (SILC_PUT16_LSB charval) size o enclen
  | SILC_STRING_UNIVERSAL => store 4 (SILC_PUT32_MSB charval) size o enclen
  | SILC_STRING_UNIVERSAL_LSB => store 4 (SILC_PUT32_LSB charval) size o enclen
  | SILC_STRING_LDAP_DN => ldap_bytes bs last size o enclen
  | SILC_STRING_ASCII_ESC | SILC_STRING_LOCALE | SILC_STRING_UTF8 => (o, None)
  end.

(** The [for] loop; [s] is what is left of the string. *)
Fixpoint utf8_decode_loop (fuel : nat) (enc : SilcStringEncoding) (s : list Z) (size : Z)
    (o : out) (enclen : Z) : Z * out :=
  match fuel with
  | O => (enclen, o)
  | S fuel =>
      match s with
      | [] => (enclen, o)
      | _ =>
          match utf8_decode_char s (zlen s) with
          | None => fail o
          | Some (charval, n) =>
              match decode_put enc charval (ztake n s) (zlen s =? n) size o enclen with
              | (o, None) => fail o
              | (o, Some enclen) => utf8_decode_loop fuel enc (zdrop n s) size o enclen
              end
          end
      end
  end.

Definition silc_utf8_valid (utf8 : list Z) (utf8_len : Z) : bool :=
  let s := ztake utf8_len utf8 in
  negb (zlen s =? 0) &&
  negb (fst (utf8_decode_loop (length s) SILC_STRING_ASCII s 0 None 0) =? 0).

(** [iconv] from the first encoding to the second with the room there is: whether
    it succeeds, and what it has written; a build without [iconv] is a function
    that always fails. *)
Variable iconv : bool -> list Z -> Z -> bool * list Z.

(** The branch for [SILC_STRING_LOCALE]: the bytes converted and the buffer, or the
    buffer for the fallback. *)
Definition locale_branch (to_utf8 : bool) (s : list Z) (size : Z) (o : out) : option Z * out :=
  match o with
  | None => (None, None)
  | Some buf =>
      let '(ok, w) := iconv to_utf8 s size in
      let buf := splice 0 w buf in
      if ok then (Some (zlen w), Some buf) else (None, Some buf)
  end.

Definition silc_utf8_decode (utf8 : list Z) (utf8_len : Z) (bin_encoding : SilcStringEncoding)
    (bin : out) (bin_size : Z) : Z * out :=
  let s := ztake utf8_len utf8 in
  if utf8_len =? 0 then fail bin
  else
    match bin_encoding with
    | SILC_STRING_UTF8 =>
        if negb (silc_utf8_valid utf8 utf8_len) || (bin_size <? utf8_len) then fail bin
        else (utf8_len, option_map (splice 0 s) bin)
    | SILC_STRING_LOCALE =>
        match locale_branch false s bin_size bin with
        | (Some n, bin) => (n, bin)
        | (None, bin) => utf8_decode_loop (length s) SILC_STRING_ASCII s bin_size bin 0
        end
    | _ => utf8_decode_loop (length s) bin_encoding s bin_size bin 0
    end.

Definition silc_utf8_decoded_len (bin : list Z) (bin_len : Z) (bin_encoding : SilcStringEncoding)
    : Z := fst (silc_utf8_decode bin bin_len bin_encoding None 0).

(** ** Encoding *)

(** The characters that stand for themselves after a backslash. *)
Definition ldap_plain (cv : Z) : bool :=
  (cv =? 44) || (cv =? 43) || (cv =? 34) || (cv =? 92) || (cv =? 60) || (cv =? 62) ||
  (cv =? 59) || (cv =? 32) || (cv =? 35).

(** The loop that removes the escapes; [n] bytes are left of the string, and [s] is
    the memory from there, where [sscanf] reads. *)
Fixpoint unescape_loop (fuel : nat) (s : list Z) (n : Z) (size : Z) (o : out) (enclen : Z)
    : Z * out :=
  match fuel with
  | O => (enclen, o)
  | S fuel =>
      if n <=? 0 then (enclen, o)
      else
        let keep s n :=
          match put 1 [znth s 0] size o enclen with
          | None => fail o
          | Some o => unescape_loop fuel (zdrop 1 s) (n - 1) size o (u32 (enclen + 1))
          end in
        if znth s 0 =? 92 then
          if n <=? 1 then fail o
          else if ldap_plain (znth s 1) then keep (zdrop 1 s) (n - 1)
          else if n <=? 2 then fail o
          else
            match sscanf_02X (zdrop 1 s) with
            | None => fail o
            | Some hexval =>
                match put 1 [u8 hexval] size o enclen with
                | None => fail o
                | Some o => unescape_loop fuel (zdrop 3 s) (n - 3) size o (u32 (enclen + 1))
                end
            end
        else keep s n
  end.

(** The [switch] over the encoding: the character at [s], and the bytes it takes. *)
Definition encode_char (enc : SilcStringEncoding) (s : list Z) (n : Z) : option (Z * Z) :=
  match enc with
  | SILC_STRING_ASCII | SILC_STRING_TELETEX => Some (znth s 0, 1)
  | SILC_STRING_BMP => if n <=? 1 then None else Some (SILC_GET16_MSB s, 2)
  | SILC_STRING_BMP_LSB => if n <=? 1 then None else Some (SILC_GET16_LSB s, 2)
  | SILC_STRING_UNIVERSAL => if n <=? 3 then None else Some (SILC_GET32_MSB s, 4)
  | SILC_STRING_UNIVERSAL_LSB => if n <=? 3 then None else Some (SILC_GET32_LSB s, 4)
  | SILC_STRING_PRINTABLE | SILC_STRING_VISIBLE =>
      if isprint (znth s 0) then Some (znth s 0, 1) else None
  | SILC_STRING_NUMERICAL =>
      if negb (znth s 0 =? 0x20) && negb (isdigit (znth s 0)) then None
      else Some (znth s 0, 1)
  | SILC_STRING_ASCII_ESC | SILC_STRING_LOCALE | SILC_STRING_UTF8 | SILC_STRING_LDAP_DN => None
  end.

(** The bytes of a character, and what is added to [enclen] in the comparison with
    the size of the buffer: nothing for a single byte. *)
Definition encode_bytes (charval : Z) : Z * list Z :=
  let sh k m p := u8 (Z.lor (Z.land (Z.shiftr charval k) m) p) in
  let lo := u8 (Z.lor (Z.land charval 0x3f) 0x80) in
  if charval <? 0x80 then (0, [u8 charval])
  else if charval <? 0x800 then (2, [sh 6 0x1f 0xc0; lo])
  else if charval <? 0x10000 then (3, [sh 12 0xf 0xe0; sh 6 0x3f 0x80; lo])
  else if charval <? 0x200000 then
    (4, [sh 18 0x7 0xf0; sh 12 0x3f 0x80; sh 6 0x3f 0x80; lo])
  else if charval <? 0x4000000 then
    (5, [sh 24 0x3 0xf8; sh 18 0x3f 0x80; sh 12 0x3f 0x80; sh 6 0x3f 0x80; lo])
  else
    (6, [sh 30 0x1 0xfc; sh 24 0x3f 0x80; sh 18 0x3f 0x80; sh 12 0x3f 0x80; sh 6 0x3f 0x80; lo]).

Fixpoint utf8_encode_loop (fuel : nat) (enc : SilcStringEncoding) (s : list Z) (size : Z)
    (o : out) (enclen : Z) : Z * out :=
  match fuel with
  | O => (enclen, o)
  | S fuel =>
      match s with
      | [] => (enclen, o)
      | _ =>
          match encode_char enc s (zlen s) with
          | None => fail o
          | Some (charval, n) =>
              let '(need, bs) := encode_bytes charval in
              match put need bs size o enclen with
              | None => fail o
              | Some o => utf8_encode_loop fuel enc (zdrop n s) size o (u32 (enclen + zlen bs))
              end
          end
      end
  end.

Definition silc_utf8_encode (bin : list Z) (bin_len : Z) (bin_encoding : SilcStringEncoding)
    (utf8 : out) (utf8_size : Z) : Z * out :=
  let s := ztake bin_len bin in
  if bin_len =? 0 then fail utf8
  else
    match bin_encoding with
    | SILC_STRING_UTF8 =>
        if negb (silc_utf8_valid bin bin_len) then fail utf8
        else
          match utf8 with
          | None => (bin_len, None)
          | Some buf =>
              if utf8_size <? bin_len then fail utf8 else (bin_len, Some (splice 0 s buf))
          end
    | SILC_STRING_LDAP_DN => unescape_loop (length s) bin bin_len utf8_size utf8 0
    | SILC_STRING_LOCALE =>
        match locale_branch true s utf8_size utf8 with
        | (Some n, utf8) => (n, utf8)
        | (None, utf8) => utf8_encode_loop (length s) SILC_STRING_ASCII s utf8_size utf8 0
        end
    | _ => utf8_encode_loop (length s) bin_encoding s utf8_size utf8 0
    end.

Definition silc_utf8_encoded_len (bin : list Z) (bin_len : Z) (bin_encoding : SilcStringEncoding)
    : Z := fst (silc_utf8_encode bin bin_len bin_encoding None 0).

(** ** Wide characters *)

(** The [for] loop over [tmp]: [k] is the number of characters. *)
Fixpoint wide_get (fuel : nat) (tmp : list Z) (i tmp_len : Z) : list Z :=
  match fuel with
  | O => []
  | S fuel =>
      if i <? tmp_len then SILC_GET16_MSB (zdrop i tmp) :: wide_get fuel tmp (i + 2) tmp_len
      else []
  end.

(** The value returned and the array of [SilcUInt16]. *)
Definition silc_utf8_c2w (utf8 : list Z) (utf8_len : Z) (utf8_wide : list Z) (utf8_wide_size : Z)
    : Z * list Z :=
  let tmp_len := silc_utf8_decoded_len utf8 utf8_len SILC_STRING_BMP in
  if tmp_len =? 0 then (0, utf8_wide)
  else if utf8_wide_size <? tmp_len / 2 then (0, utf8_wide)
  else
    let utf8_wide := splice 0 (zeros utf8_wide_size) utf8_wide in
    match silc_malloc tmp_len with
    | None => (0, utf8_wide)
    | Some tmp =>
        let tmp := default [] (snd (silc_utf8_decode utf8 utf8_len SILC_STRING_BMP (Some tmp) tmp_len)) in
        let ws := wide_get (Z.to_nat tmp_len) tmp 0 tmp_len in
        (zlen ws + 1, splice 0 ws utf8_wide)
    end.

(** The [for] loop of the other direction. *)
Fixpoint wide_put (fuel : nat) (ws : list Z) (i k wide_str_len : Z) (tmp : list Z) : list Z :=
  match fuel with
  | O => tmp
  | S fuel =>
      if i <? wide_str_len then
        wide_put fuel ws (i + 2) (k + 1) wide_str_len
                 (splice i (SILC_PUT16_MSB (znth ws k)) tmp)
      else tmp
  end.

(** [fresh] is what the block of [silc_malloc] holds. *)
Definition silc_utf8_w2c (fresh : list Z) (wide_str : list Z) (wide_str_len : Z) (utf8 : list Z)
    (utf8_size : Z) : Z * out :=
  if utf8_size <? u32 (wide_str_len * 2) then fail (Some utf8)
  else
    let utf8 := splice 0 (zeros utf8_size) utf8 in
    match silc_malloc (u32 (wide_str_len * 2)) with
    | None => fail (Some utf8)
    | Some _ =>
        let tmp := wide_put (Z.to_nat wide_str_len) wide_str 0 0 wide_str_len fresh in
        silc_utf8_encode tmp (u32 (wide_str_len * 2)) SILC_STRING_BMP (Some utf8) utf8_size
    end.

End Decode.

(** ** The encoding as RFC 2279 defines it *)

Definition utf8_char (c : Z) : list Z :=
  let t k := 128 + c / k mod 64 in
  if c <? 128 then [c]
  else if c <? 2048 then [192 + c / 64; t 1]
  else if c <? 65536 then [224 + c / 4096; t 64; t 1]
  else if c <? 2097152 then [240 + c / 262144; t 4096; t 64; t 1]
  else if c <? 67108864 then [248 + c / 16777216; t 262144; t 4096; t 64; t 1]
  else [252 + c / 1073741824; t 16777216; t 262144; t 4096; t 64; t 1].

(** The characters there are: 31 bits, without the surrogates. *)
Definition ok_char (c : Z) : Prop := 0 <= c < 2147483648 /\ ~ 55296 <= c < 57344.

#[export] Instance ok_char_dec c : Decision (ok_char c) := ltac:(unfold ok_char; apply _).

Definition utf8_string (cs : list Z) : list Z := concat (utf8_char <$> cs).

(** *** Masks *)

Lemma every_byte (P : Z -> bool) :
  forallb P (seqZ 0 256) = true -> forall b, 0 <= b < 256 -> P b = true.
Proof.
  intros H b Hb. apply forallb_forall with (x := b) in H; [done|].
  apply list_elem_of_In, elem_of_seqZ. lia.
Qed.

(** The tests on a byte. *)
Lemma mask_tests b :
  0 <= b < 256 ->
  (Z.land b 0x80 =? 0x00) = (b <? 128) /\
  (Z.land b 0xe0 =? 0xc0) = ((192 <=? b) && (b <? 224)) /\
  (Z.land b 0xf0 =? 0xe0) = ((224 <=? b) && (b <? 240)) /\
  (Z.land b 0xf8 =? 0xf0) = ((240 <=? b) && (b <? 248)) /\
  (Z.land b 0xfc =? 0xf8) = ((248 <=? b) && (b <? 252)) /\
  (Z.land b 0xfe =? 0xfc) = ((252 <=? b) && (b <? 254)) /\
  cont b = ((128 <=? b) && (b <? 192)).
Proof.
  intros Hb.
  assert (H := every_byte (fun b =>
    eqb (Z.land b 0x80 =? 0x00) (b <? 128) &&
    (eqb (Z.land b 0xe0 =? 0xc0) ((192 <=? b) && (b <? 224)) &&
    (eqb (Z.land b 0xf0 =? 0xe0) ((224 <=? b) && (b <? 240)) &&
    (eqb (Z.land b 0xf8 =? 0xf0) ((240 <=? b) && (b <? 248)) &&
    (eqb (Z.land b 0xfc =? 0xf8) ((248 <=? b) && (b <? 252)) &&
    (eqb (Z.land b 0xfe =? 0xfc) ((252 <=? b) && (b <? 254)) &&
     eqb (cont b) ((128 <=? b) && (b <? 192)))))))) ltac:(vm_compute; reflexivity) b Hb).
  rewrite !andb_true_iff, !eqb_true_iff in H. tauto.
Qed.

(** A mask of low bits is a remainder. *)
Lemma land_mask x k : 0 <= k -> Z.land x (2 ^ k - 1) = x mod 2 ^ k.
Proof. intros. rewrite <- Z.land_ones by done. f_equal. rewrite Z.ones_equiv. lia. Qed.

(** Or-ing parts that do not overlap adds them. *)
Lemma lor_parts a b k : 0 <= k -> 0 <= b < 2 ^ k -> Z.lor (Z.shiftl a k) b = a * 2 ^ k + b.
Proof. apply lor_shiftl_add. Qed.

Lemma lor_base x a k : 0 <= k -> 0 <= x < 2 ^ k -> Z.lor x (a * 2 ^ k) = a * 2 ^ k + x.
Proof.
  intros. rewrite Z.lor_comm, <- Z.shiftl_mul_pow2 by done. rewrite lor_parts by done.
  by rewrite Z.shiftl_mul_pow2.
Qed.

(** [utf8_decode_char] in arithmetic: [more] continuation bytes, and the least character
    that needs them. *)
Definition ref_ok (n more : Z) (conts : bool) (charval least : Z) : option (Z * Z) :=
  if n <=? more then None
  else if negb conts then None
  else if charval <? least then None else Some (charval, more + 1).

Definition decode_ref (s : list Z) (n : Z) : option (Z * Z) :=
  let b i := znth s i in
  let c i := (128 <=? b i) && (b i <? 192) in
  let x i := b i mod 64 in
  let ok := ref_ok n in
  if b 0 <? 128 then Some (b 0, 1)
  else if b 0 <? 192 then None
  else if b 0 <? 224 then ok 1 (c 1) (b 0 mod 32 * 64 + x 1) 128
  else if b 0 <? 240 then
    ok 2 (c 1 && c 2 && negb ((b 0 =? 237) && (160 <=? b 1)))
       (b 0 mod 16 * 4096 + x 1 * 64 + x 2) 2048
  else if b 0 <? 248 then
    ok 3 (c 1 && c 2 && c 3) (b 0 mod 8 * 262144 + x 1 * 4096 + x 2 * 64 + x 3) 65536
  else if b 0 <? 252 then
    ok 4 (c 1 && c 2 && c 3 && c 4)
       (b 0 mod 4 * 16777216 + x 1 * 262144 + x 2 * 4096 + x 3 * 64 + x 4) 2097152
  else if b 0 <? 254 then
    ok 5 (c 1 && c 2 && c 3 && c 4 && c 5)
       (b 0 mod 2 * 1073741824 + x 1 * 16777216 + x 2 * 262144 + x 3 * 4096 + x 4 * 64 + x 5)
       67108864
  else None.

Ltac masks :=
  repeat match goal with
  | |- context [Z.land ?x 127] => change (Z.land x 127) with (Z.land x (2 ^ 7 - 1))
  | |- context [Z.land ?x 63] => change (Z.land x 63) with (Z.land x (2 ^ 6 - 1))
  | |- context [Z.land ?x 31] => change (Z.land x 31) with (Z.land x (2 ^ 5 - 1))
  | |- context [Z.land ?x 15] => change (Z.land x 15) with (Z.land x (2 ^ 4 - 1))
  | |- context [Z.land ?x 7] => change (Z.land x 7) with (Z.land x (2 ^ 3 - 1))
  | |- context [Z.land ?x 3] => change (Z.land x 3) with (Z.land x (2 ^ 2 - 1))
  | |- context [Z.land ?x 1] => change (Z.land x 1) with (Z.land x (2 ^ 1 - 1))
  end;
  rewrite ?land_mask by lia; rewrite ?Z.shiftl_0_r.

Section Join.
Context (x0 x1 x2 x3 x4 x5 : Z).
Context (H1 : 0 <= x1 < 64) (H2 : 0 <= x2 < 64) (H3 : 0 <= x3 < 64) (H4 : 0 <= x4 < 64)
        (H5 : 0 <= x5 < 64).

Lemma join2 : Z.lor (Z.shiftl x0 6) x1 = x0 * 64 + x1.
Proof. by rewrite lor_parts by lia. Qed.

Lemma join3 : Z.lor (Z.lor (Z.shiftl x0 12) (Z.shiftl x1 6)) x2 = x0 * 4096 + x1 * 64 + x2.
Proof.
  rewrite <- Z.lor_assoc, (lor_parts x1) by lia. rewrite lor_parts by lia. lia.
Qed.

Lemma join4 :
  Z.lor (Z.lor (Z.lor (Z.shiftl x0 18) (Z.shiftl x1 12)) (Z.shiftl x2 6)) x3 =
  x0 * 262144 + x1 * 4096 + x2 * 64 + x3.
Proof.
  rewrite <- !Z.lor_assoc, (lor_parts x2) by lia. rewrite (lor_parts x1) by lia.
  rewrite lor_parts by lia. lia.
Qed.

Lemma join5 :
  Z.lor (Z.lor (Z.lor (Z.lor (Z.shiftl x0 24) (Z.shiftl x1 18)) (Z.shiftl x2 12))
               (Z.shiftl x3 6)) x4 =
  x0 * 16777216 + x1 * 262144 + x2 * 4096 + x3 * 64 + x4.
Proof.
  rewrite <- !Z.lor_assoc, (lor_parts x3) by lia. rewrite (lor_parts x2) by lia.
  rewrite (lor_parts x1) by lia. rewrite lor_parts by lia. lia.
Qed.

Lemma join6 :
  Z.lor (Z.lor (Z.lor (Z.lor (Z.lor (Z.shiftl x0 30) (Z.shiftl x1 24)) (Z.shiftl x2 18))
                      (Z.shiftl x3 12)) (Z.shiftl x4 6)) x5 =
  x0 * 1073741824 + x1 * 16777216 + x2 * 262144 + x3 * 4096 + x4 * 64 + x5.
Proof.
  rewrite <- !Z.lor_assoc, (lor_parts x4) by lia. rewrite (lor_parts x3) by lia.
  rewrite (lor_parts x2) by lia. rewrite (lor_parts x1) by lia. rewrite lor_parts by lia. lia.
Qed.
End Join.

Lemma mod64_range x : 0 <= x mod 64 < 64.
Proof. warith. Qed.

Lemma bytes_znth s i : bytes_ok s -> 0 <= znth s i < 256.
Proof.
  intros H. unfold znth. destruct (s !! Z.to_nat i) as [y|] eqn:E.
  - rewrite (nth_lookup_Some _ _ _ _ E). by apply (Forall_lookup_1 _ _ _ _ H E).
  - rewrite nth_overflow; [lia|]. by apply lookup_ge_None.
Qed.

Lemma decode_char_ref s n : bytes_ok s -> utf8_decode_char s n = decode_ref s n.
Proof.
  intros Hs. unfold utf8_decode_char, decode_ref, ref_ok.
  destruct (mask_tests (znth s 0) (bytes_znth s 0 Hs)) as (E0 & E1 & E2 & E3 & E4 & E5 & _).
  assert (C : forall i, cont (znth s i) = ((128 <=? znth s i) && (znth s i <? 192)))
    by (intros i; apply mask_tests, bytes_znth, Hs).
  rewrite E0, E1, E2, E3, E4, E5, !C. clear E0 E1 E2 E3 E4 E5. masks.
  pose proof (bytes_znth s 0 Hs). assert (R := fun i => mod64_range (znth s i)).
  rewrite join2, join3, join4, join5, join6 by apply R.
  change (2 ^ 7) with 128. change (2 ^ 6) with 64. change (2 ^ 5) with 32.
  change (2 ^ 4) with 16. change (2 ^ 3) with 8. change (2 ^ 2) with 4. change (2 ^ 1) with 2.
  set (c1 := (128 <=? znth s 1) && (znth s 1 <? 192)).
  set (c2 := (128 <=? znth s 2) && (znth s 2 <? 192)).
  destruct (znth s 0 <? 128) eqn:L0; [f_equal; f_equal; apply Z.mod_small; lia|].
  destruct (znth s 0 <? 192) eqn:L1.
  { by repeat match goal with |- context [?x <=? znth s 0] =>
      rewrite (proj2 (Z.leb_gt x (znth s 0))) by lia end. }
  destruct (znth s 0 <? 224) eqn:L2.
  { rewrite (proj2 (Z.leb_le 192 _)) by lia. done. }
  rewrite andb_false_r. destruct (znth s 0 <? 240) eqn:L3.
  { rewrite (proj2 (Z.leb_le 224 _)) by lia. cbn [andb].
    destruct (n <=? 2); [done|].
    destruct c1 eqn:Ec1, c2 eqn:Ec2; cbn [negb orb andb]; try done.
    unfold c1, c2 in Ec1, Ec2. rewrite !andb_true_iff in Ec1, Ec2.
    destruct (znth s 0 =? 237), (160 <=? znth s 1); cbn [negb andb]; try done.
    rewrite (proj2 (Z.leb_le (znth s 1) 191)), (proj2 (Z.leb_le 128 (znth s 2))),
      (proj2 (Z.leb_le (znth s 2) 191)) by lia. done. }
  rewrite andb_false_r. destruct (znth s 0 <? 248) eqn:L4.
  { rewrite (proj2 (Z.leb_le 240 _)) by lia. cbn [andb].
    by rewrite <- !negb_andb, <- ?andb_assoc. }
  rewrite andb_false_r. destruct (znth s 0 <? 252) eqn:L5.
  { rewrite (proj2 (Z.leb_le 248 _)) by lia. cbn [andb].
    by rewrite <- !negb_andb, <- ?andb_assoc. }
  rewrite andb_false_r. destruct (znth s 0 <? 254) eqn:L6; [|by rewrite andb_false_r].
  rewrite (proj2 (Z.leb_le 252 _)) by lia. cbn [andb].
  by rewrite <- !negb_andb, <- ?andb_assoc.
Qed.

(** *** One character *)

(** A byte of the encoding. *)
Lemma sh_byte c k m a :
  0 <= k -> 0 <= m -> a * 2 ^ m + 2 ^ m <= 256 -> 0 <= a ->
  u8 (Z.lor (Z.land (Z.shiftr c k) (2 ^ m - 1)) (a * 2 ^ m)) =
  a * 2 ^ m + c / 2 ^ k mod 2 ^ m.
Proof.
  intros Hk Hm Ha Ha0. rewrite land_mask, Z.shiftr_div_pow2 by done.
  pose proof (Z.mod_pos_bound (c / 2 ^ k) (2 ^ m) ltac:(apply Z.pow_pos_nonneg; lia)).
  rewrite lor_base by lia. apply u8_id. nia.
Qed.

Lemma encode_bytes_char c :
  0 <= c < 2147483648 ->
  encode_bytes c = (if c <? 128 then 0 else zlen (utf8_char c), utf8_char c).
Proof.
  intros Hc. unfold encode_bytes, utf8_char.
  assert (Lo : u8 (Z.lor (Z.land c 0x3f) 0x80) = 128 + c / 1 mod 64).
  { rewrite <- (Z.shiftr_0_r c) at 1. exact (sh_byte c 0 6 2 ltac:(lia) ltac:(lia) ltac:(lia) ltac:(lia)). }
  assert (Mid : forall k, 0 <= k ->
    u8 (Z.lor (Z.land (Z.shiftr c k) 0x3f) 0x80) = 128 + c / 2 ^ k mod 64).
  { intros k Hk. exact (sh_byte c k 6 2 Hk ltac:(lia) ltac:(lia) ltac:(lia)). }
  assert (Hi : forall k m a, 0 <= k -> 0 <= m -> a * 2 ^ m + 2 ^ m <= 256 -> 0 <= a ->
    c < 2 ^ (k + m) ->
    u8 (Z.lor (Z.land (Z.shiftr c k) (2 ^ m - 1)) (a * 2 ^ m)) = a * 2 ^ m + c / 2 ^ k).
  { intros k m a ????. rewrite Z.pow_add_r by done. intros.
    rewrite sh_byte by done. f_equal. apply Z.mod_small.
    split; [apply Z.div_pos; [lia|apply Z.pow_pos_nonneg; lia]|].
    apply Z.div_lt_upper_bound; [apply Z.pow_pos_nonneg; lia|lia]. }
  rewrite Lo, !Mid by lia.
  destruct (c <? 128) eqn:E1; [rewrite u8_id by lia; done|].
  destruct (c <? 2048) eqn:E2.
  { f_equal. f_equal. apply (Hi 6 5 6); lia. }
  destruct (c <? 65536) eqn:E3.
  { f_equal. f_equal. apply (Hi 12 4 14); lia. }
  destruct (c <? 2097152) eqn:E4.
  { f_equal. f_equal. apply (Hi 18 3 30); lia. }
  destruct (c <? 67108864) eqn:E5.
  { f_equal. f_equal. apply (Hi 24 2 62); lia. }
  f_equal. f_equal. apply (Hi 30 1 126); lia.
Qed.

Lemma utf8_char_len c : 0 <= c -> 1 <= zlen (utf8_char c) <= 6.
Proof.
  intros. unfold utf8_char. repeat case_match; zl.
Qed.

Lemma utf8_char_bytes c : 0 <= c < 2147483648 -> bytes_ok (utf8_char c).
Proof.
  intros. unfold utf8_char, bytes_ok.
  repeat case_match; repeat (apply list.Forall_cons; split);
    try apply list.Forall_nil; try done; try (Z.div_mod_to_equations; lia).
Qed.

(** The bytes of the groups of six bits of a number. *)
Lemma digit c k h l x :
  0 < k -> c = (h * 64 + x) * k + l -> 0 <= x < 64 -> 0 <= l < k -> c / k mod 64 = x.
Proof.
  intros Hk -> Hx Hl. rewrite Z.div_add_l by lia. rewrite (Z.div_small l) by done.
  rewrite Z.add_0_r, Z.add_comm, Z.mod_add by lia. by apply Z.mod_small.
Qed.

Lemma top c k h l : 0 < k -> c = h * k + l -> 0 <= l < k -> c / k = h.
Proof. intros Hk -> Hl. rewrite Z.div_add_l, (Z.div_small l) by lia. lia. Qed.

Lemma cont_byte b : (128 <=? b) && (b <? 192) = true -> b = 128 + b mod 64.
Proof. intros. Z.div_mod_to_equations; lia. Qed.

(** The encoding of a character, from its groups of six bits. *)
Section Split.
Context (x0 x1 x2 x3 x4 x5 : Z).
Context (H1 : 0 <= x1 < 64) (H2 : 0 <= x2 < 64) (H3 : 0 <= x3 < 64) (H4 : 0 <= x4 < 64)
        (H5 : 0 <= x5 < 64).

Ltac range c :=
  unfold utf8_char;
  repeat match goal with |- context [?a <? ?b] =>
    first [rewrite (proj2 (Z.ltb_lt a b)) by lia | rewrite (proj2 (Z.ltb_ge a b)) by lia] end.

Lemma group_split2 c : c = x0 * 64 + x1 -> 128 <= c < 2048 -> utf8_char c = [192 + x0; 128 + x1].
Proof.
  intros E R. range c. rewrite (top c 64 x0 x1), (digit c 1 x0 0 x1) by lia. done.
Qed.

Lemma group_split3 c :
  c = x0 * 4096 + x1 * 64 + x2 -> 2048 <= c < 65536 ->
  utf8_char c = [224 + x0; 128 + x1; 128 + x2].
Proof.
  intros E R. range c.
  rewrite (top c 4096 x0 (x1 * 64 + x2)), (digit c 64 x0 x2 x1),
    (digit c 1 (x0 * 64 + x1) 0 x2) by lia. done.
Qed.

Lemma group_split4 c :
  c = x0 * 262144 + x1 * 4096 + x2 * 64 + x3 -> 65536 <= c < 2097152 ->
  utf8_char c = [240 + x0; 128 + x1; 128 + x2; 128 + x3].
Proof.
  intros E R. range c.
  rewrite (top c 262144 x0 (x1 * 4096 + x2 * 64 + x3)), (digit c 4096 x0 (x2 * 64 + x3) x1),
    (digit c 64 (x0 * 64 + x1) x3 x2), (digit c 1 (x0 * 4096 + x1 * 64 + x2) 0 x3) by lia.
  done.
Qed.

Lemma group_split5 c :
  c = x0 * 16777216 + x1 * 262144 + x2 * 4096 + x3 * 64 + x4 -> 2097152 <= c < 67108864 ->
  utf8_char c = [248 + x0; 128 + x1; 128 + x2; 128 + x3; 128 + x4].
Proof.
  intros E R. range c.
  rewrite (top c 16777216 x0 (x1 * 262144 + x2 * 4096 + x3 * 64 + x4)),
    (digit c 262144 x0 (x2 * 4096 + x3 * 64 + x4) x1),
    (digit c 4096 (x0 * 64 + x1) (x3 * 64 + x4) x2),
    (digit c 64 (x0 * 4096 + x1 * 64 + x2) x4 x3),
    (digit c 1 (x0 * 262144 + x1 * 4096 + x2 * 64 + x3) 0 x4) by lia.
  done.
Qed.

Lemma group_split6 c :
  c = x0 * 1073741824 + x1 * 16777216 + x2 * 262144 + x3 * 4096 + x4 * 64 + x5 ->
  67108864 <= c ->
  utf8_char c = [252 + x0; 128 + x1; 128 + x2; 128 + x3; 128 + x4; 128 + x5].
Proof.
  intros E R. range c.
  rewrite (top c 1073741824 x0 (x1 * 16777216 + x2 * 262144 + x3 * 4096 + x4 * 64 + x5)),
    (digit c 16777216 x0 (x2 * 262144 + x3 * 4096 + x4 * 64 + x5) x1),
    (digit c 262144 (x0 * 64 + x1) (x3 * 4096 + x4 * 64 + x5) x2),
    (digit c 4096 (x0 * 4096 + x1 * 64 + x2) (x4 * 64 + x5) x3),
    (digit c 64 (x0 * 262144 + x1 * 4096 + x2 * 64 + x3) x5 x4),
    (digit c 1 (x0 * 16777216 + x1 * 262144 + x2 * 4096 + x3 * 64 + x4) 0 x5) by lia.
  done.
Qed.
End Split.

Ltac conts :=
  repeat match goal with
  | H : negb _ = false |- _ => apply negb_false_iff in H
  | H : _ && ?b = true |- _ =>
      lazymatch b with _ <? 192 => fail | _ => apply andb_true_iff in H as [H ?] end
  end;
  repeat match goal with
  | H : (128 <=? ?b) && (?b <? 192) = true |- _ => apply cont_byte in H; pose proof (mod64_range b)
  end.

Lemma take_front (p s rest : list Z) : s = p ++ rest -> s = p ++ zdrop (zlen p) s.
Proof. intros ->. by rewrite zdrop_app_exact. Qed.

(** The cases of a character with [k] bytes: [E] is the branch that accepts it. *)
Ltac accepted :=
  repeat match goal with
  | H : (if ?b then None else _) = Some _ |- _ =>
      let E := fresh "E" in destruct b eqn:E; [discriminate H|]
  end;
  match goal with H : Some _ = Some _ |- _ => injection H as <- <- end.

(** The bytes of the string are those of the groups. *)
Ltac same_bytes := repeat (apply (f_equal2 cons); [first [assumption|warith]|]); reflexivity.

(** What is read is the encoding of a character at the front of the string. *)
Definition reads (s : list Z) (c k : Z) : Prop :=
  exists p r, s = p ++ r /\ utf8_char c = p /\ k = zlen p /\ ok_char c.

Ltac at_bytes :=
  repeat match goal with
  | H : context [znth (?b :: ?l) ?i] |- _ =>
      let v := eval lazy [nth_error Z.to_nat Pos.to_nat Pos.iter_op Nat.add] in (nth_error (b :: l) (Z.to_nat i)) in
      match v with Some ?y => change (znth (b :: l) i) with y in H end
  | |- context [znth (?b :: ?l) ?i] =>
      let v := eval lazy [nth_error Z.to_nat Pos.to_nat Pos.iter_op Nat.add] in (nth_error (b :: l) (Z.to_nat i)) in
      match v with Some ?y => change (znth (b :: l) i) with y end
  end.

Lemma read2 b0 s c_ k :
  let b i := znth (b0 :: s) i in
  let c i := (128 <=? b i) && (b i <? 192) in
  let x i := b i mod 64 in
  ref_ok (zlen (b0 :: s)) 1 (c 1)
    (b0 mod 32 * 64 + x 1) 128 = Some (c_, k) ->
  192 <= b0 < 224 -> reads (b0 :: s) c_ k.
Proof.
  intros b c x H Hb. subst b c x. cbv beta in H. unfold ref_ok in H. accepted.
  destruct s as [|b1 s]; [zl..|]. at_bytes. conts.
  pose proof (Z.mod_pos_bound b0 32 ltac:(lia)).
  exists [192 + b0 mod 32; 128 + b1 mod 64], s.
  split; [same_bytes|]. split; [eapply group_split2; [..|lia]; lia|]. split; [done|].
  unfold ok_char. lia.
Qed.

Lemma read3 b0 s c_ k :
  let b i := znth (b0 :: s) i in
  let c i := (128 <=? b i) && (b i <? 192) in
  let x i := b i mod 64 in
  ref_ok (zlen (b0 :: s)) 2 (c 1 && c 2 && negb ((b0 =? 237) && (160 <=? b 1)))
    (b0 mod 16 * 4096 + x 1 * 64 + x 2) 2048 = Some (c_, k) ->
  224 <= b0 < 240 -> reads (b0 :: s) c_ k.
Proof.
  intros b c x H Hb. subst b c x. cbv beta in H. unfold ref_ok in H. accepted.
  destruct s as [|b1 [|b2 s]]; [zl..|]. at_bytes. conts.
  pose proof (Z.mod_pos_bound b0 16 ltac:(lia)).
  exists [224 + b0 mod 16; 128 + b1 mod 64; 128 + b2 mod 64], s.
  split; [same_bytes|]. split; [eapply group_split3; [..|lia]; lia|]. split; [done|].
  unfold ok_char. split; [lia|]. intros Hsur.
  assert (b0 mod 16 = 13) by lia. assert (b0 = 237) by warith. assert (160 <= b1) by lia. lia.
Qed.

Lemma read4 b0 s c_ k :
  let b i := znth (b0 :: s) i in
  let c i := (128 <=? b i) && (b i <? 192) in
  let x i := b i mod 64 in
  ref_ok (zlen (b0 :: s)) 3 (c 1 && c 2 && c 3)
    (b0 mod 8 * 262144 + x 1 * 4096 + x 2 * 64 + x 3) 65536 = Some (c_, k) ->
  240 <= b0 < 248 -> reads (b0 :: s) c_ k.
Proof.
  intros b c x H Hb. subst b c x. cbv beta in H. unfold ref_ok in H. accepted.
  destruct s as [|b1 [|b2 [|b3 s]]]; [zl..|]. at_bytes. conts.
  pose proof (Z.mod_pos_bound b0 8 ltac:(lia)).
  exists [240 + b0 mod 8; 128 + b1 mod 64; 128 + b2 mod 64; 128 + b3 mod 64], s.
  split; [same_bytes|]. split; [eapply group_split4; [..|lia]; lia|]. split; [done|].
  unfold ok_char. lia.
Qed.

Lemma read5 b0 s c_ k :
  let b i := znth (b0 :: s) i in
  let c i := (128 <=? b i) && (b i <? 192) in
  let x i := b i mod 64 in
  ref_ok (zlen (b0 :: s)) 4 (c 1 && c 2 && c 3 && c 4)
    (b0 mod 4 * 16777216 + x 1 * 262144 + x 2 * 4096 + x 3 * 64 + x 4) 2097152 = Some (c_, k) ->
  248 <= b0 < 252 -> reads (b0 :: s) c_ k.
Proof.
  intros b c x H Hb. subst b c x. cbv beta in H. unfold ref_ok in H. accepted.
  destruct s as [|b1 [|b2 [|b3 [|b4 s]]]]; [zl..|]. at_bytes. conts.
  pose proof (Z.mod_pos_bound b0 4 ltac:(lia)).
  exists [248 + b0 mod 4; 128 + b1 mod 64; 128 + b2 mod 64; 128 + b3 mod 64; 128 + b4 mod 64], s.
  split; [same_bytes|]. split; [eapply group_split5; [..|lia]; lia|]. split; [done|].
  unfold ok_char. lia.
Qed.

Lemma read6 b0 s c_ k :
  let b i := znth (b0 :: s) i in
  let c i := (128 <=? b i) && (b i <? 192) in
  let x i := b i mod 64 in
  ref_ok (zlen (b0 :: s)) 5 (c 1 && c 2 && c 3 && c 4 && c 5)
    (b0 mod 2 * 1073741824 + x 1 * 16777216 + x 2 * 262144 + x 3 * 4096 + x 4 * 64 + x 5) 67108864 = Some (c_, k) ->
  252 <= b0 < 254 -> reads (b0 :: s) c_ k.
Proof.
  intros b c x H Hb. subst b c x. cbv beta in H. unfold ref_ok in H. accepted.
  destruct s as [|b1 [|b2 [|b3 [|b4 [|b5 s]]]]]; [zl..|]. at_bytes. conts.
  pose proof (Z.mod_pos_bound b0 2 ltac:(lia)).
  exists [252 + b0 mod 2; 128 + b1 mod 64; 128 + b2 mod 64; 128 + b3 mod 64; 128 + b4 mod 64; 128 + b5 mod 64], s.
  split; [same_bytes|]. split; [eapply group_split6; [..|lia]; lia|]. split; [done|].
  unfold ok_char. lia.
Qed.

Lemma decode_ref_inv s c k :
  decode_ref s (zlen s) = Some (c, k) -> bytes_ok s -> s <> [] ->
  s = utf8_char c ++ zdrop k s /\ ok_char c /\ k = zlen (utf8_char c).
Proof.
  intros H Hs Hne. destruct s as [|b0 s]; [done|].
  apply list.Forall_cons in Hs as [Hb _].
  enough (reads (b0 :: s) c k) as (p & r & E & <- & -> & Hc)
    by (split; [by eapply take_front|done]).
  unfold decode_ref in H. rewrite znth_0 in H. cbv zeta in H.
  destruct (b0 <? 128) eqn:E0.
  { injection H as <- <-. exists [b0], s. unfold utf8_char, ok_char. rewrite E0.
    repeat split; try done; lia. }
  destruct (b0 <? 192) eqn:E1; [done|].
  destruct (b0 <? 224) eqn:E2; [eapply read2; [exact H|lia]|].
  destruct (b0 <? 240) eqn:E3; [eapply read3; [exact H|lia]|].
  destruct (b0 <? 248) eqn:E4; [eapply read4; [exact H|lia]|].
  destruct (b0 <? 252) eqn:E5; [eapply read5; [exact H|lia]|].
  destruct (b0 <? 254) eqn:E6; [eapply read6; [exact H|lia]|done].
Qed.

(** Tests whose outcome the bounds decide. *)
Ltac decided :=
  repeat match goal with
  | |- context [?a <? ?b] =>
      first [rewrite (proj2 (Z.ltb_lt a b)) by lia | rewrite (proj2 (Z.ltb_ge a b)) by lia]
  | |- context [?a <=? ?b] =>
      first [rewrite (proj2 (Z.leb_le a b)) by lia | rewrite (proj2 (Z.leb_gt a b)) by lia]
  end; cbn [andb negb].

Lemma mod_base a x m : 0 <= x < m -> a mod m = 0 -> (a + x) mod m = x.
Proof.
  intros Hx Ha. rewrite <- Zplus_mod_idemp_l, Ha. by apply Z.mod_small.
Qed.

Section Unsplit.
Context (x0 x1 x2 x3 x4 x5 n : Z) (rest : list Z).
Context (H1 : 0 <= x1 < 64) (H2 : 0 <= x2 < 64) (H3 : 0 <= x3 < 64) (H4 : 0 <= x4 < 64)
        (H5 : 0 <= x5 < 64).

Ltac unsplit :=
  unfold decode_ref, ref_ok; at_bytes; decided;
  rewrite ?(mod_base 128 x1 64), ?(mod_base 128 x2 64), ?(mod_base 128 x3 64),
    ?(mod_base 128 x4 64), ?(mod_base 128 x5 64), ?(mod_base 192 x0 32), ?(mod_base 224 x0 16),
    ?(mod_base 240 x0 8), ?(mod_base 248 x0 4), ?(mod_base 252 x0 2) by (reflexivity || lia);
  decided.

Lemma unsplit2 :
  0 <= x0 < 32 -> 2 <= n -> 128 <= x0 * 64 + x1 ->
  decode_ref (192 + x0 :: 128 + x1 :: rest) n = Some (x0 * 64 + x1, 2).
Proof. intros. unsplit. done. Qed.

Lemma unsplit3 :
  0 <= x0 < 16 -> 3 <= n -> 2048 <= x0 * 4096 + x1 * 64 + x2 ->
  ~ 55296 <= x0 * 4096 + x1 * 64 + x2 < 57344 ->
  decode_ref (224 + x0 :: 128 + x1 :: 128 + x2 :: rest) n = Some (x0 * 4096 + x1 * 64 + x2, 3).
Proof.
  intros. unsplit. destruct (_ =? 237) eqn:E; unsplit; done.
Qed.

Lemma unsplit4 :
  0 <= x0 < 8 -> 4 <= n -> 65536 <= x0 * 262144 + x1 * 4096 + x2 * 64 + x3 ->
  decode_ref (240 + x0 :: 128 + x1 :: 128 + x2 :: 128 + x3 :: rest) n =
  Some (x0 * 262144 + x1 * 4096 + x2 * 64 + x3, 4).
Proof. intros. unsplit. done. Qed.

Lemma unsplit5 :
  0 <= x0 < 4 -> 5 <= n ->
  2097152 <= x0 * 16777216 + x1 * 262144 + x2 * 4096 + x3 * 64 + x4 ->
  decode_ref (248 + x0 :: 128 + x1 :: 128 + x2 :: 128 + x3 :: 128 + x4 :: rest) n =
  Some (x0 * 16777216 + x1 * 262144 + x2 * 4096 + x3 * 64 + x4, 5).
Proof. intros. unsplit. done. Qed.

Lemma unsplit6 :
  0 <= x0 < 2 -> 6 <= n ->
  67108864 <= x0 * 1073741824 + x1 * 16777216 + x2 * 262144 + x3 * 4096 + x4 * 64 + x5 ->
  decode_ref (252 + x0 :: 128 + x1 :: 128 + x2 :: 128 + x3 :: 128 + x4 :: 128 + x5 :: rest) n =
  Some (x0 * 1073741824 + x1 * 16777216 + x2 * 262144 + x3 * 4096 + x4 * 64 + x5, 6).
Proof. intros. unsplit. done. Qed.
End Unsplit.

(** The groups of six bits of a character. *)
Lemma group c k : 0 < k -> c / k = c / (k * 64) * 64 + c / k mod 64.
Proof.
  intros. rewrite <- Z.div_div by lia. pose proof (Z.div_mod (c / k) 64 ltac:(lia)). lia.
Qed.

Lemma decode_ref_char c rest n :
  ok_char c -> zlen (utf8_char c) <= n ->
  decode_ref (utf8_char c ++ rest) n = Some (c, zlen (utf8_char c)).
Proof.
  intros [Hc Hs] Hn.
  pose proof (group c 1 ltac:(lia)) as G1. pose proof (group c 64 ltac:(lia)) as G2.
  pose proof (group c 4096 ltac:(lia)) as G3. pose proof (group c 262144 ltac:(lia)) as G4.
  pose proof (group c 16777216 ltac:(lia)) as G5. rewrite Z.div_1_r in G1.
  change (1 * 64) with 64 in *. change (64 * 64) with 4096 in *.
  change (4096 * 64) with 262144 in *. change (262144 * 64) with 16777216 in *.
  change (16777216 * 64) with 1073741824 in *.
  pose proof (mod64_range c). pose proof (mod64_range (c / 64)).
  pose proof (mod64_range (c / 4096)). pose proof (mod64_range (c / 262144)).
  pose proof (mod64_range (c / 16777216)).
  unfold utf8_char in *. rewrite Z.div_1_r in *.
  destruct (c <? 128) eqn:E1.
  { unfold decode_ref. cbn [app]. by rewrite znth_0, E1. }
  assert (B : forall k m, 0 < k -> 0 <= c < m * k -> 0 <= c / k < m).
  { intros k m Hk Hm. split; [apply Z.div_pos; lia|apply Z.div_lt_upper_bound; lia]. }
  assert (F : forall (x : Z) (l : list Z) k, x = c -> zlen l = k -> Some (x, k) = Some (c, zlen l))
    by (intros ??? -> ->; done).
  destruct (c <? 2048) eqn:E2; [|destruct (c <? 65536) eqn:E3; [|destruct (c <? 2097152) eqn:E4;
    [|destruct (c <? 67108864) eqn:E5]]]; cbn [app].
  - pose proof (B 64 32 ltac:(lia) ltac:(lia)).
    rewrite unsplit2; [apply F; [lia|done]|done|done|exact Hn|lia].
  - pose proof (B 4096 16 ltac:(lia) ltac:(lia)).
    rewrite unsplit3; [apply F; [lia|done]|done..|exact Hn|lia|lia].
  - pose proof (B 262144 8 ltac:(lia) ltac:(lia)).
    rewrite unsplit4; [apply F; [lia|done]|done..|exact Hn|lia].
  - pose proof (B 16777216 4 ltac:(lia) ltac:(lia)).
    rewrite unsplit5; [apply F; [lia|done]|done..|exact Hn|lia].
  - pose proof (B 1073741824 2 ltac:(lia) ltac:(lia)).
    rewrite unsplit6; [apply F; [lia|done]|done..|exact Hn|lia].
Qed.

Lemma utf8_char_head c : 0 <= c -> exists b l, utf8_char c = b :: l.
Proof. intros. unfold utf8_char. repeat case_match; eauto. Qed.

Lemma decode_char_ok c rest :
  ok_char c -> bytes_ok rest ->
  utf8_decode_char (utf8_char c ++ rest) (zlen (utf8_char c ++ rest)) = Some (c, zlen (utf8_char c)).
Proof.
  intros Hc Hr. rewrite decode_char_ref.
  - apply decode_ref_char; [done|zl].
  - apply list.Forall_app. split; [apply utf8_char_bytes, Hc|done].
Qed.

Lemma decode_char_inv s c k :
  utf8_decode_char s (zlen s) = Some (c, k) -> bytes_ok s -> s <> [] ->
  s = utf8_char c ++ zdrop k s /\ ok_char c /\ k = zlen (utf8_char c).
Proof. intros H Hs. rewrite decode_char_ref in H by done. by apply decode_ref_inv. Qed.

(** *** The loop of the decoder *)

Section Loops.
Variable isprint : Z -> bool.
Variable iconv : bool -> list Z -> Z -> bool * list Z.

(** What the loop does with the characters of a string. *)
Fixpoint emit (enc : SilcStringEncoding) (cs : list Z) (size : Z) (o : out) (enclen : Z)
    : Z * out :=
  match cs with
  | [] => (enclen, o)
  | c :: cs =>
      match decode_put isprint enc c (utf8_char c) (zlen (utf8_string cs) =? 0) size o enclen with
      | (o, None) => fail o
      | (o, Some enclen) => emit enc cs size o enclen
      end
  end.

Lemma utf8_string_bytes cs : Forall ok_char cs -> bytes_ok (utf8_string cs).
Proof.
  unfold utf8_string. induction 1 as [|c cs Hc Hcs IH]; [constructor|].
  cbn. apply list.Forall_app. split; [apply utf8_char_bytes, Hc|done].
Qed.

Lemma utf8_string_cons c cs : utf8_string (c :: cs) = utf8_char c ++ utf8_string cs.
Proof. done. Qed.

Lemma decode_loop_chars enc size : forall cs fuel o e,
  Forall ok_char cs -> zlen (utf8_string cs) <= Z.of_nat fuel ->
  utf8_decode_loop isprint fuel enc (utf8_string cs) size o e = emit enc cs size o e.
Proof.
  induction cs as [|c cs IH]; intros fuel o e Hok Hf; [by destruct fuel|].
  apply list.Forall_cons in Hok as [Hc Hcs]. rewrite utf8_string_cons in *.
  pose proof (utf8_char_len c ltac:(unfold ok_char in Hc; lia)).
  rewrite zlen_app in Hf. destruct fuel as [|fuel]; [zlen_facts; lia|].
  cbn [utf8_decode_loop emit]. rewrite decode_char_ok by (done || by apply utf8_string_bytes).
  destruct (utf8_char_head c ltac:(unfold ok_char in Hc; lia)) as (b & l & E).
  rewrite ztake_app_exact, zdrop_app_exact by done.
  replace (zlen (utf8_char c ++ utf8_string cs) =? zlen (utf8_char c))
    with (zlen (utf8_string cs) =? 0) by (rewrite zlen_app; lia).
  destruct (utf8_char c ++ utf8_string cs) eqn:E'; [by rewrite E in E'|].
  destruct (decode_put _ _ _ _ _ _ _ _) as [o' [e'|]]; [|done].
  apply IH; [done|]. lia.
Qed.

Lemma decode_loop_inv enc size : forall fuel s o e,
  bytes_ok s -> zlen s <= Z.of_nat fuel ->
  fst (utf8_decode_loop isprint fuel enc s size o e) <> 0 ->
  exists cs, Forall ok_char cs /\ s = utf8_string cs.
Proof.
  induction fuel as [|fuel IH]; intros s o e Hs Hf H.
  { exists []. split; [constructor|]. apply zlen_zero_nil. zl. }
  destruct s as [|b s]; [exists []; by split; [constructor|]|].
  set (t := b :: s) in *. cbn [utf8_decode_loop] in H. fold t in H.
  change (match t with [] => (e, o) | _ => ?x end) with x in H.
  destruct (utf8_decode_char t (zlen t)) as [[c k]|] eqn:E; [|done].
  apply decode_char_inv in E as (Et & Hc & Ek); [|done..].
  destruct (decode_put _ _ _ _ _ _ _ _) as [o' [e'|]]; [|done].
  pose proof (utf8_char_len c ltac:(unfold ok_char in Hc; lia)).
  destruct (IH (zdrop k t) o' e') as (cs & Hcs & E').
  - by apply list.Forall_drop.
  - assert (zlen t = k + zlen (zdrop k t)) by (rewrite Et at 1; rewrite zlen_app; lia). lia.
  - done.
  - exists (c :: cs). split; [by apply list.Forall_cons|]. by rewrite utf8_string_cons, <- E'.
Qed.

Lemma utf8_string_len cs : Forall ok_char cs -> zlen cs <= zlen (utf8_string cs).
Proof.
  unfold utf8_string. induction 1 as [|c cs Hc _ IH]; [done|]. cbn.
  pose proof (utf8_char_len c ltac:(unfold ok_char in Hc; lia)). zl.
Qed.

(** Counting, without a buffer. *)
Lemma emit_count cs : forall e,
  0 <= e -> e + zlen cs < 4294967296 -> emit SILC_STRING_ASCII cs 0 None e = (e + zlen cs, None).
Proof.
  induction cs as [|c cs IH]; intros e He Hl; [by rewrite Z.add_0_r|].
  cbn [emit decode_put store put]. rewrite zlen_cons in *. zlen_facts.
  rewrite u32_id by lia. rewrite IH by lia. f_equal. lia.
Qed.

(** C21: [silc_utf8_valid] accepts exactly the UTF-8 strings: the concatenations of
    the shortest encodings (RFC 2279) of characters below 2^31 that are not
    surrogates.  In particular overlong forms, stray continuation bytes,
    surrogates and strings cut in the middle of a character are refused. *)
Theorem utf8_valid_spec (s : list Z) :
  bytes_ok s -> 0 < zlen s < 4294967296 ->
  (silc_utf8_valid isprint s (zlen s) = true <->
   exists cs, Forall ok_char cs /\ s = utf8_string cs).
Proof.
  intros Hs Hl. unfold silc_utf8_valid. rewrite ztake_ge by lia.
  rewrite (proj2 (Z.eqb_neq (zlen s) 0)), andb_true_l, negb_true_iff, Z.eqb_neq by lia.
  split; [by apply decode_loop_inv|].
  intros (cs & Hcs & ->). rewrite decode_loop_chars by done.
  pose proof (utf8_string_len cs Hcs). rewrite emit_count by (zlen_facts; lia). cbn.
  assert (zlen cs <> 0); [|lia]. intros E%zlen_zero_nil. subst cs. by destruct Hl.
Qed.

(** *** Encodings of fixed width *)

(** The bytes of a character, and the characters there are; LDAP names, UTF-8 and
    the locale are not of fixed width. *)
Definition wide (enc : SilcStringEncoding) (c : Z) : list Z :=
  match enc with
  | SILC_STRING_BMP => SILC_PUT16_MSB c
  | SILC_STRING_BMP_LSB => SILC_PUT16_LSB c
  | SILC_STRING_UNIVERSAL => SILC_PUT32_MSB c
  | SILC_STRING_UNIVERSAL_LSB => SILC_PUT32_LSB c
  | _ => [u8 c]
  end.

Definition in_range (enc : SilcStringEncoding) (c : Z) : Prop :=
  ok_char c /\
  match enc with
  | SILC_STRING_ASCII | SILC_STRING_TELETEX => c < 256
  | SILC_STRING_PRINTABLE | SILC_STRING_VISIBLE => c < 256 /\ isprint c = true
  | SILC_STRING_NUMERICAL => c = 32 \/ 48 <= c <= 57
  | SILC_STRING_BMP | SILC_STRING_BMP_LSB => c < 65536
  | SILC_STRING_UNIVERSAL | SILC_STRING_UNIVERSAL_LSB => True
  | SILC_STRING_ASCII_ESC | SILC_STRING_LOCALE | SILC_STRING_UTF8 | SILC_STRING_LDAP_DN => False
  end.

Definition wide_string (enc : SilcStringEncoding) (cs : list Z) : list Z := concat (wide enc <$> cs).

Lemma in_range_ok enc cs : Forall (in_range enc) cs -> Forall ok_char cs.
Proof. intros H. eapply list.Forall_impl; [exact H|]. by intros c []. Qed.

Lemma decode_put_wide enc c bs last size o e :
  in_range enc c ->
  decode_put isprint enc c bs last size o e = store (zlen (wide enc c)) (wide enc c) size o e.
Proof. intros [_ H]. by destruct enc. Qed.

Lemma encode_char_wide enc c rest :
  in_range enc c ->
  encode_char isprint enc (wide enc c ++ rest) (zlen (wide enc c ++ rest)) =
  Some (c, zlen (wide enc c)).
Proof.
  intros [[Hc _] H]. rewrite zlen_app. zlen_facts.
  destruct enc; try done; cbn [encode_char wide]; unfold isdigit in *;
    rewrite ?get16_put16, ?get32_put32, ?get16_put16_lsb, ?get32_put32_lsb;
    rewrite ?znth_0; try (unfold wide; cbn [app]; rewrite ?znth_0); rewrite ?u8_id, ?u16_id, ?u32_id by lia.
  all: change (zlen (SILC_PUT16_MSB c)) with 2; change (zlen (SILC_PUT16_LSB c)) with 2;
    change (zlen (SILC_PUT32_MSB c)) with 4; change (zlen (SILC_PUT32_LSB c)) with 4.
  all: decided; try done.
  - by destruct H as [_ ->].
  - by destruct H as [_ ->].
  - destruct H as [->|]; [done|]. decided. by rewrite andb_false_r.
Qed.

(** The buffer has room up to [n], and the bytes it then holds. *)
Definition room (size : Z) (o : out) (n : Z) : Prop :=
  match o with Some buf => n <= size <= zlen buf | None => True end.
Definition stored_at (e : Z) (bs : list Z) (o : out) : out := option_map (splice e bs) o.

Lemma written_written e a b o n size :
  0 <= e -> e + zlen a <= n -> room size o n ->
  stored_at (e + zlen a) b (stored_at e a o) = stored_at e (a ++ b) o.
Proof.
  destruct o as [buf|]; [|done]. cbn. intros. f_equal. apply splice_splice. zlen_facts. lia.
Qed.

Lemma fits_after e a o n m size :
  0 <= e -> e + zlen a <= n -> m <= n -> room size o n -> room size (stored_at e a o) m.
Proof.
  destruct o as [buf|]; [|done]. cbn. intros. rewrite zlen_splice; zlen_facts; lia.
Qed.

Lemma fits_le size o n m : room size o n -> m <= n -> room size o m.
Proof. destruct o; cbn; [|done]. lia. Qed.

Lemma put_fits need bs size o e n :
  0 <= e -> 0 <= need -> e + need <= n < 4294967296 -> room size o n ->
  put need bs size o e = Some (stored_at e bs o).
Proof.
  intros He Hneed Hn Ho. destruct o as [buf|]; [|done]. cbn in *.
  rewrite u32_id by lia. by decided.
Qed.

Lemma store_fits bs size o e n :
  0 <= e -> e + zlen bs <= n < 4294967296 -> room size o n ->
  store (zlen bs) bs size o e = (stored_at e bs o, Some (e + zlen bs)).
Proof.
  intros He Hn Ho. zlen_facts. unfold store. rewrite (put_fits _ _ _ _ _ n) by (done || lia).
  by rewrite u32_id by lia.
Qed.

Lemma emit_wide enc size n : forall cs o e,
  Forall (in_range enc) cs -> 0 <= e -> e + zlen (wide_string enc cs) = n -> n < 4294967296 ->
  room size o n ->
  emit enc cs size o e = (n, stored_at e (wide_string enc cs) o).
Proof.
  induction cs as [|c cs IH]; intros o e Hcs He Hn Hl Ho.
  { unfold wide_string in *. cbn in *. rewrite zlen_nil in Hn. f_equal; [lia|].
    destruct o; [|done]. cbn. by rewrite splice_nil. }
  apply list.Forall_cons in Hcs as [Hc Hcs].
  change (wide_string enc (c :: cs)) with (wide enc c ++ wide_string enc cs) in *.
  rewrite zlen_app in Hn. zlen_facts.
  cbn [emit]. rewrite decode_put_wide, (store_fits _ _ _ _ n) by (done || lia).
  rewrite IH by first [done | lia | eapply fits_after; [| | |exact Ho]; lia].
  by rewrite (written_written _ _ _ _ n size) by (done || lia).
Qed.

Lemma encode_loop_wide enc size n : forall cs fuel o e,
  Forall (in_range enc) cs -> zlen (wide_string enc cs) <= Z.of_nat fuel ->
  0 <= e -> e + zlen (utf8_string cs) = n -> n < 4294967296 -> room size o n ->
  utf8_encode_loop isprint fuel enc (wide_string enc cs) size o e =
  (n, stored_at e (utf8_string cs) o).
Proof.
  induction cs as [|c cs IH]; intros fuel o e Hcs Hf He Hn Hl Ho.
  { cbn in *. rewrite zlen_nil in Hn.
    assert (E : (e, o) = (n, stored_at e [] o))
      by (f_equal; [lia|]; destruct o; [|done]; cbn; by rewrite splice_nil).
    by destruct fuel. }
  apply list.Forall_cons in Hcs as [Hc Hcs].
  change (wide_string enc (c :: cs)) with (wide enc c ++ wide_string enc cs) in *.
  rewrite utf8_string_cons in *. rewrite zlen_app in Hn, Hf. zlen_facts.
  assert (W : exists b l, wide enc c = b :: l) by (destruct enc; eauto).
  destruct W as (b & l & W). assert (1 <= zlen (wide enc c)) by (rewrite W; zl).
  destruct fuel as [|fuel]; [lia|]. cbn [utf8_encode_loop].
  rewrite encode_char_wide by done.
  rewrite zdrop_app_exact by done.
  rewrite encode_bytes_char by apply Hc.
  pose proof (utf8_char_len c ltac:(destruct Hc as [[]]; lia)).
  rewrite (put_fits _ _ _ _ _ n) by (done || lia || (case_match; lia)).
  rewrite u32_id by lia.
  destruct (wide enc c ++ wide_string enc cs) eqn:W'; [by rewrite W in W'|].
  rewrite IH by first [done | lia | eapply fits_after; [| | |exact Ho]; lia].
  by rewrite (written_written _ _ _ _ n size) by (done || lia).
Qed.

Lemma plain_decode enc cs s o size :
  in_range enc (hd 0 cs) -> zlen s <> 0 ->
  silc_utf8_decode isprint iconv s (zlen s) enc o size =
  utf8_decode_loop isprint (length s) enc s size o 0.
Proof.
  intros [_ H] Hs. unfold silc_utf8_decode. rewrite ztake_ge by lia.
  rewrite (proj2 (Z.eqb_neq _ _) Hs). by destruct enc.
Qed.

Lemma plain_encode enc cs s o size :
  in_range enc (hd 0 cs) -> zlen s <> 0 ->
  silc_utf8_encode isprint iconv s (zlen s) enc o size =
  utf8_encode_loop isprint (length s) enc s size o 0.
Proof.
  intros [_ H] Hs. unfold silc_utf8_encode. rewrite ztake_ge by lia.
  rewrite (proj2 (Z.eqb_neq _ _) Hs). by destruct enc.
Qed.

(** C22: Round trip: a string of characters in one of the encodings of fixed width
    (8-bit, printable, numeric, 16 or 32 bits in either byte order) is encoded as the
    UTF-8 of the characters, of the length [silc_utf8_encoded_len] announces, and
    decoding that gives the string back, of the length [silc_utf8_decoded_len]
    announces; nothing else of the buffers changes. *)
Theorem utf8_roundtrip (enc : SilcStringEncoding) (cs buf bin : list Z) (utf8_size bin_size : Z) :
  Forall (in_range enc) cs -> cs <> [] ->
  let s := wide_string enc cs in
  let u := utf8_string cs in
  zlen s < 4294967296 -> zlen u < 4294967296 ->
  zlen u <= utf8_size <= zlen buf -> zlen s <= bin_size <= zlen bin ->
  silc_utf8_encode isprint iconv s (zlen s) enc (Some buf) utf8_size =
    (zlen u, Some (splice 0 u buf)) /\
  silc_utf8_encoded_len isprint iconv s (zlen s) enc = zlen u /\
  silc_utf8_decode isprint iconv u (zlen u) enc (Some bin) bin_size =
    (zlen s, Some (splice 0 s bin)) /\
  silc_utf8_decoded_len isprint iconv u (zlen u) enc = zlen s.
Proof.
  intros Hcs Hne s u Hls Hlu Hbuf Hbin. destruct cs as [|c cs]; [done|].
  assert (Hok := in_range_ok enc (c :: cs) Hcs).
  assert (Hu : 1 <= zlen u).
  { pose proof (utf8_string_len (c :: cs) Hok). unfold u. rewrite zlen_cons in *. zlen_facts. lia. }
  assert (Hs : 1 <= zlen s).
  { unfold s. change (wide_string enc (c :: cs)) with (wide enc c ++ wide_string enc cs).
    rewrite zlen_app. zlen_facts. enough (1 <= zlen (wide enc c)) by lia. by destruct enc. }
  apply list.Forall_cons_1 in Hcs as Hc. destruct Hc as [Hc _].
  unfold silc_utf8_encoded_len, silc_utf8_decoded_len.
  rewrite !(plain_encode enc (c :: cs)), !(plain_decode enc (c :: cs)) by (done || lia).
  unfold s, u. rewrite !decode_loop_chars by (done || unfold zlen; lia).
  rewrite !(encode_loop_wide enc _ (zlen u)) by (done || (unfold zlen; lia) || (cbn; lia)).
  rewrite !(emit_wide enc _ (zlen s)) by (done || (cbn; lia)). done.
Qed.
End Loops.

(** The euro sign and a letter in UCS-2, with a printable range as in the C
    locale. *)
Definition ascii_print (c : Z) : bool := (32 <=? c) && (c <? 127).
Definition no_iconv (to_utf8 : bool) (s : list Z) (size : Z) : bool * list Z := (false, []).

Lemma utf8_roundtrip_witness :
  silc_utf8_encode ascii_print no_iconv [0x20; 0xac; 0; 65] 4 SILC_STRING_BMP (Some (zeros 6)) 6 =
    (4, Some [0xe2; 0x82; 0xac; 65; 0; 0]) /\
  silc_utf8_decode ascii_print no_iconv [0xe2; 0x82; 0xac; 65] 4 SILC_STRING_BMP (Some (zeros 4)) 4 =
    (4, Some [0x20; 0xac; 0; 65]).
Proof.
  destruct (utf8_roundtrip ascii_print no_iconv SILC_STRING_BMP [0x20ac; 65] (zeros 6) (zeros 4) 6 4)
    as (E1 & _ & E2 & _); [|done|..].
  - repeat (apply list.Forall_cons; split); [..|by apply list.Forall_nil];
      split; [apply (bool_decide_unpack _); exact I|lia|apply (bool_decide_unpack _); exact I|lia].
  - by vm_compute.
  - by vm_compute.
  - by vm_compute; split; discriminate.
  - by vm_compute; split; discriminate.
  - split; [exact E1|exact E2].
Defined.

(** Overlong forms and surrogates are refused, five bytes are taken. *)
Lemma utf8_valid_spec_witness :
  silc_utf8_valid ascii_print [0xf8; 0x88; 0x80; 0x80; 0x80; 65] 6 = true.
Proof.
  apply (proj2 (utf8_valid_spec ascii_print [0xf8; 0x88; 0x80; 0x80; 0x80; 65]
                  ltac:(apply (bool_decide_unpack _); vm_compute; exact I)
                  ltac:(split; reflexivity))).
  exists [0x200000; 65]. split; [apply (bool_decide_unpack _); vm_compute; exact I|reflexivity].
Defined.

(** ** Escaped strings *)

(** The forms in which a byte may stand in an escaped string. *)
Definition escapes (cv : Z) (esc : list Z) : Prop :=
  (esc = [92; cv] /\ ldap_plain cv = true) \/
  (esc = [92; hex_upper (cv / 16); hex_upper (cv mod 16)]) \/
  (esc = [cv] /\ cv <> 92).

Lemma hex_facts cv :
  0 <= cv < 256 ->
  ldap_plain (hex_upper (cv / 16)) = false /\ isspace (hex_upper (cv / 16)) = false /\
  (hex_upper (cv / 16) =? 43) = false /\ (hex_upper (cv / 16) =? 45) = false /\
  hex_digit (hex_upper (cv / 16)) = Some (cv / 16) /\
  hex_digit (hex_upper (cv mod 16)) = Some (cv mod 16).
Proof.
  intros Hb.
  assert (H : forallb (fun cv => bool_decide
    (ldap_plain (hex_upper (cv / 16)) = false /\ isspace (hex_upper (cv / 16)) = false /\
     (hex_upper (cv / 16) =? 43) = false /\ (hex_upper (cv / 16) =? 45) = false /\
     hex_digit (hex_upper (cv / 16)) = Some (cv / 16) /\
     hex_digit (hex_upper (cv mod 16)) = Some (cv mod 16))) (seqZ 0 256) = true)
    by (vm_compute; reflexivity).
  apply (every_byte _ H cv) in Hb. by apply bool_decide_eq_true in Hb.
Qed.

Lemma sscanf_hex cv rest :
  0 <= cv < 256 ->
  sscanf_02X (hex_upper (cv / 16) :: hex_upper (cv mod 16) :: rest) = Some cv.
Proof.
  intros Hb. destruct (hex_facts cv Hb) as (_ & E1 & E2 & E3 & E4 & E5).
  unfold sscanf_02X. cbn [skip_space]. rewrite E1, E2, E3, E4, E5. f_equal.
  pose proof (Z.div_mod cv 16 ltac:(lia)). lia.
Qed.

Section Escapes.
Variable isprint : Z -> bool.
Variable iconv : bool -> list Z -> Z -> bool * list Z.

Lemma ldap_byte_form cv last size o e :
  exists esc nul,
    ldap_byte isprint cv last size o e = store (zlen esc) (esc ++ nul) size o e /\
    escapes cv esc /\ zlen esc <= 3 /\ zlen nul <= 1.
Proof.
  unfold ldap_byte, escapes, ldap_special, ldap_plain.
  assert (P : forall b : bool, (b = true -> (cv =? 44) || (cv =? 43) || (cv =? 34) || (cv =? 92) ||
    (cv =? 60) || (cv =? 62) || (cv =? 59) || (cv =? 32) || (cv =? 35) = true) ->
    b = true -> exists esc nul,
      store 2 [92; cv] size o e = store (zlen esc) (esc ++ nul) size o e /\
      ((esc = [92; cv] /\ (cv =? 44) || (cv =? 43) || (cv =? 34) || (cv =? 92) ||
        (cv =? 60) || (cv =? 62) || (cv =? 59) || (cv =? 32) || (cv =? 35) = true) \/
       esc = [92; hex_upper (cv / 16); hex_upper (cv mod 16)] \/ (esc = [cv] /\ cv <> 92)) /\
      zlen esc <= 3 /\ zlen nul <= 1).
  { intros b Hb Eb. exists [92; cv], []. split; [done|]. split; [left; auto|]. done. }
  destruct (_ && ((cv =? 35) || (cv =? 32))) eqn:E1; [eapply P; [|exact E1]; lia|].
  destruct (last && _) eqn:E2; [eapply P; [|exact E2]; lia|].
  destruct (_ || (cv =? 59)) eqn:E3; [eapply P; [|exact E3]; lia|].
  destruct (isprint cv); cbn [negb].
  - exists [cv], []. split; [done|]. split; [|done]. right. right. split; [done|]. lia.
  - exists [92; hex_upper (cv / 16); hex_upper (cv mod 16)], [0].
    split; [done|]. split; [|done]. by right; left.
Qed.

(** The start of the buffer. *)
Definition starts (o : out) (p : list Z) : Prop :=
  match o with Some buf => ztake (zlen p) buf = p | None => False end.

Lemma starts_splice buf p esc nul :
  starts (Some buf) p -> starts (Some (splice (zlen p) (esc ++ nul) buf)) (p ++ esc).
Proof.
  cbn. intros Hp. unfold splice. rewrite Hp. rewrite <- app_assoc, app_assoc.
  by rewrite ztake_app_exact.
Qed.

Lemma ldap_bytes_ok last size : forall bs buf p,
  starts (Some buf) p -> size < 4294967296 -> zlen p + 3 * zlen bs < size <= zlen buf ->
  exists buf' es,
    ldap_bytes isprint bs last size (Some buf) (zlen p) =
      (Some buf', Some (zlen (p ++ concat es))) /\
    Forall2 escapes bs es /\ starts (Some buf') (p ++ concat es) /\ zlen buf' = zlen buf /\
    zlen (concat es) <= 3 * zlen bs.
Proof.
  induction bs as [|cv bs IH]; intros buf p Hp Hsize Hr.
  { exists buf, []. rewrite app_nil_r. repeat split; [constructor|done|done]. }
  rewrite zlen_cons in Hr. zlen_facts. cbn [ldap_bytes].
  destruct (ldap_byte_form cv last size (Some buf) (zlen p)) as (esc & nul & -> & He & Hl3 & Hl1).
  zlen_facts. unfold store, put. rewrite u32_id by lia. decided.
  set (buf2 := splice (zlen p) (esc ++ nul) buf).
  assert (L2 : zlen buf2 = zlen buf) by (apply zlen_splice; rewrite ?zlen_app; lia).
  destruct (IH buf2 (p ++ esc)) as (buf' & es & E & Hes & Hp' & Hl & Hc3);
    [by apply starts_splice|done|rewrite zlen_app; lia|].
  rewrite zlen_app in E. rewrite E. exists buf', (esc :: es).
  cbn [concat]. rewrite app_assoc, L2 in *. repeat split; [by constructor|done|done|].
  rewrite zlen_app, zlen_cons. lia.
Qed.

Lemma emit_ldap size : forall cs buf p,
  starts (Some buf) p -> size < 4294967296 ->
  zlen p + 3 * zlen (utf8_string cs) < size <= zlen buf ->
  exists buf' es,
    emit isprint SILC_STRING_LDAP_DN cs size (Some buf) (zlen p) =
      (zlen (p ++ concat es), Some buf') /\
    Forall2 escapes (utf8_string cs) es /\ starts (Some buf') (p ++ concat es) /\
    zlen buf' = zlen buf /\ zlen (concat es) <= 3 * zlen (utf8_string cs).
Proof.
  induction cs as [|c cs IH]; intros buf p Hp Hsize Hr.
  { exists buf, []. rewrite app_nil_r. repeat split; [constructor|done|done]. }
  rewrite utf8_string_cons in *. rewrite zlen_app in Hr. zlen_facts.
  cbn [emit decode_put].
  destruct (ldap_bytes_ok (zlen (utf8_string cs) =? 0) size (utf8_char c) buf p)
    as (buf2 & es & -> & Hes & Hp2 & L2 & Hc3); [done..|lia|].
  destruct (IH buf2 (p ++ concat es)) as (buf' & es' & -> & Hes' & Hp' & Hl & Hc3');
    [done..|rewrite zlen_app; lia|].
  exists buf', (es ++ es'). rewrite concat_app, app_assoc, !zlen_app, L2 in *.
  repeat split; [by apply Forall2_app|done|done|lia].
Qed.

Lemma unescape_ok size n : forall bs es, Forall2 escapes bs es ->
  forall fuel rest o e,
  bytes_ok bs -> zlen (concat es) <= Z.of_nat fuel ->
  0 <= e -> e + zlen bs = n -> n < 4294967296 -> room size o n ->
  unescape_loop fuel (concat es ++ rest) (zlen (concat es)) size o e = (n, stored_at e bs o).
Proof.
  induction 1 as [|cv esc bs es Hesc Hes IH]; intros fuel rest o e Hbs Hf He Hn Hl Ho.
  { rewrite zlen_nil in Hn. assert (E : (e, o) = (n, stored_at e [] o))
      by (f_equal; [lia|]; destruct o; [|done]; cbn; by rewrite splice_nil).
    by destruct fuel. }
  apply list.Forall_cons in Hbs as [Hb Hbs].
  change (concat (esc :: es)) with (esc ++ concat es) in *. rewrite zlen_app in *.
  rewrite zlen_cons in Hn. zlen_facts. rewrite <- app_assoc.
  assert (Hput : put 1 [cv] size o e = Some (stored_at e [cv] o))
    by (apply (put_fits _ _ _ _ _ n); done || lia).
  assert (Hstep : forall f m, zlen (concat es) <= Z.of_nat f -> m = zlen (concat es) ->
    unescape_loop f (concat es ++ rest) m size (stored_at e [cv] o) (u32 (e + 1)) =
    (n, stored_at e (cv :: bs) o)).
  { intros f m Hfm ->. rewrite u32_id by lia. rewrite IH by first
      [done | lia | eapply fits_after; [| | |exact Ho]; rewrite ?zlen_cons, ?zlen_nil; lia].
    change (e + 1) with (e + zlen [cv]).
    by rewrite (written_written e [cv] bs o n size) by (done || rewrite ?zlen_cons, ?zlen_nil; lia). }
  destruct fuel as [|fuel].
  { destruct Hesc as [[-> _]|[->|[-> _]]]; rewrite !zlen_cons in Hf; zlen_facts; lia. }
  destruct Hesc as [[-> Hpl]|[->|[-> Hne]]]; rewrite !zlen_cons, zlen_nil in *;
    cbn [unescape_loop app]; rewrite ?znth_0; decided.
  - change (92 =? 92) with true. cbv iota. at_bytes. rewrite Hpl.
    change (zdrop 1 (92 :: cv :: concat es ++ rest)) with (cv :: concat es ++ rest).
    change (zdrop 1 (cv :: concat es ++ rest)) with (concat es ++ rest).
    rewrite znth_0, Hput. apply Hstep; lia.
  - change (92 =? 92) with true. cbv iota. at_bytes.
    destruct (hex_facts cv Hb) as (-> & _).
    change (zdrop 1 (92 :: ?a :: ?b :: concat es ++ rest)) with (a :: b :: concat es ++ rest).
    rewrite sscanf_hex, u8_id, Hput by done.
    change (zdrop 3 (92 :: ?a :: ?b :: concat es ++ rest)) with (concat es ++ rest).
    apply Hstep; lia.
  - rewrite (proj2 (Z.eqb_neq _ _) Hne), Hput.
    change (zdrop 1 (cv :: concat es ++ rest)) with (concat es ++ rest). apply Hstep; lia.
Qed.

(** Round trip through the escapes of distinguished names (RFC 2253): whatever the
    locale holds printable, escaping a valid UTF-8 string with [silc_utf8_decode]
    takes at most three times its length, and [silc_utf8_encode] removes the escapes
    and gives the string back, with the rest of its buffer unchanged. *)
Theorem utf8_ldap_roundtrip (s bin buf : list Z) (bin_size utf8_size : Z) :
  bytes_ok s -> silc_utf8_valid isprint s (zlen s) = true ->
  3 * zlen s < bin_size <= zlen bin -> bin_size < 4294967296 ->
  zlen s <= utf8_size <= zlen buf ->
  exists n bin',
    silc_utf8_decode isprint iconv s (zlen s) SILC_STRING_LDAP_DN (Some bin) bin_size =
      (n, Some bin') /\
    zlen s <= n <= 3 * zlen s /\
    silc_utf8_encode isprint iconv bin' n SILC_STRING_LDAP_DN (Some buf) utf8_size =
      (zlen s, Some (splice 0 s buf)).
Proof.
  intros Hs Hv Hbin Hsize Hbuf.
  assert (Hne : zlen s <> 0).
  { intros E. unfold silc_utf8_valid in Hv. by rewrite ztake_ge, E in Hv by lia. }
  zlen_facts. apply (utf8_valid_spec isprint s Hs ltac:(lia)) in Hv as (cs & Hcs & Es).
  unfold silc_utf8_decode, silc_utf8_encode. rewrite ztake_ge by lia.
  rewrite (proj2 (Z.eqb_neq _ _) Hne).
  assert (D : forall o, utf8_decode_loop isprint (length s) SILC_STRING_LDAP_DN s bin_size o 0 =
                        emit isprint SILC_STRING_LDAP_DN cs bin_size o 0)
    by (intros o; rewrite Es; apply decode_loop_chars; [done|unfold zlen; lia]).
  rewrite D.
  destruct (emit_ldap bin_size cs bin []) as (bin' & es & E & Hes & Hp & Hl & H3);
    [by cbn; rewrite zlen_nil, ztake_0|done|rewrite zlen_nil, <- Es; lia|].
  rewrite zlen_nil in E. rewrite E, <- Es in *. cbn [app] in *.
  assert (Hle : zlen s <= zlen (concat es)).
  { clear -Hes. induction Hes as [|cv esc bs es H _ IH]; [done|].
    cbn [concat]. rewrite zlen_app, zlen_cons.
    enough (1 <= zlen esc) by lia. destruct H as [[-> _]|[->|[-> _]]]; done. }
  exists (zlen (concat es)), bin'. split; [done|]. split; [lia|].
  rewrite (proj2 (Z.eqb_neq _ _)) by lia. cbn in Hp. rewrite Hp.
  rewrite <- (ztake_drop (zlen (concat es)) bin'), Hp.
  rewrite (unescape_ok utf8_size (zlen s) s) by (done || (unfold zlen; lia) || (cbn; lia)).
  done.
Qed.
End Escapes.

Lemma utf8_ldap_roundtrip_witness :
  exists n bin',
    silc_utf8_decode ascii_print no_iconv [35; 0xc3; 0xa4; 44; 65] 5 SILC_STRING_LDAP_DN
      (Some (zeros 16)) 16 = (n, Some bin') /\
    5 <= n <= 15 /\
    silc_utf8_encode ascii_print no_iconv bin' n SILC_STRING_LDAP_DN (Some (zeros 6)) 6 =
      (5, Some [35; 0xc3; 0xa4; 44; 65; 0]).
Proof.
  exact (utf8_ldap_roundtrip ascii_print no_iconv [35; 0xc3; 0xa4; 44; 65] (zeros 16) (zeros 6) 16 6
    ltac:(apply (bool_decide_unpack _); vm_compute; exact I) ltac:(vm_compute; reflexivity)
    ltac:(vm_compute; split; congruence) ltac:(reflexivity) ltac:(vm_compute; split; congruence)).
Defined.

(** ** The end of the buffer *)

Section Ends.
Variable isprint : Z -> bool.
Variable iconv : bool -> list Z -> Z -> bool * list Z.
Context (size len : Z) (Hsize : 0 <= size <= len) (Hbound : size < 2147483648).

(** The writes stay within [over] bytes past the buffer, and the position with
    them. *)
Definition within (over : Z) (o : out) (e : Z) : Prop :=
  match o with Some buf => len <= zlen buf <= len + over /\ 0 <= e <= size + over | None => False end.

Lemma put_within over need bs o e o' :
  0 <= over <= 1 -> 0 <= need <= 6 -> within over o e ->
  zlen bs <= need + over -> put need bs size o e = Some o' ->
  within over o' e /\ e + need <= size.
Proof.
  destruct o as [buf|]; [|done]. intros Ho Hn [Hb He] Hl. unfold put.
  destruct (size <? u32 (e + need)) eqn:E; [done|]. intros [= <-].
  rewrite u32_id in E by lia. zlen_facts. cbn [within].
  rewrite zlen_splice_max by lia. lia.
Qed.

Lemma store_within over need bs o e o' r :
  0 <= over <= 1 -> 0 <= need <= 6 -> within over o e -> zlen bs <= need + over ->
  store need bs size o e = (o', r) ->
  match r with Some e' => within over o' e' | None => within over o' e end.
Proof.
  intros Ho Hn Hw Hl. unfold store. destruct (put need bs size o e) as [o2|] eqn:E.
  - intros [= <- <-]. apply (put_within over) in E as [H E]; [|done..].
    destruct o2 as [buf|]; [|done]. destruct H as [Hb He]. rewrite u32_id by lia.
    split; [done|lia].
  - by intros [= <- <-].
Qed.

Lemma ldap_bytes_within last : forall bs o e o' r,
  within 1 o e -> ldap_bytes isprint bs last size o e = (o', r) ->
  exists e', within 1 o' e' /\ match r with Some e'' => e'' = e' | None => True end.
Proof.
  induction bs as [|cv bs IH]; intros o e o' r Hw; cbn [ldap_bytes].
  { intros [= <- <-]. by exists e. }
  destruct (ldap_byte isprint cv last size o e) as [o2 r2] eqn:E.
  assert (H : match r2 with Some e' => within 1 o2 e' | None => within 1 o2 e end).
  { revert E. unfold ldap_byte. repeat case_match; intros E;
      eapply (store_within 1) in E; try exact E; try done; try lia. }
  destruct r2 as [e2|]; [by apply IH|]. intros [= <- <-]. by exists e.
Qed.

Lemma decode_loop_within over enc : forall fuel s o e,
  over = (if bool_decide (enc = SILC_STRING_LDAP_DN) then 1 else 0) -> within over o e ->
  exists e', within over (snd (utf8_decode_loop isprint fuel enc s size o e)) e'.
Proof.
  induction fuel as [|fuel IH]; intros s o e Hover Hw; cbn [utf8_decode_loop]; [by exists e|].
  destruct s as [|b s]; [by exists e|].
  destruct (utf8_decode_char _ _) as [[c k]|]; [|by exists e].
  set (bs := ztake k (b :: s)). set (last := zlen (b :: s) =? k).
  destruct (decode_put isprint enc c bs last size o e) as [o2 r] eqn:E.
  assert (H : exists e', within over o2 e' /\ match r with Some e'' => e'' = e' | None => True end).
  { destruct enc; subst over; cbn [bool_decide decide_rel] in *; cbn [decode_put] in E.
    all: try (eapply ldap_bytes_within; [|exact E]; done).
    all: try (injection E as <- <-; by exists e).
    all: eapply (store_within 0) in E; [|lia|lia|done|by vm_compute].
    all: destruct r as [e2|]; [by exists e2|by exists e]. }
  destruct H as (e' & H & Hr). destruct r as [e2|]; [subst e2; by apply (IH _ _ e')|].
  by exists e'.
Qed.

Lemma unescape_within : forall fuel s n o e,
  within 0 o e -> exists e', within 0 (snd (unescape_loop fuel s n size o e)) e'.
Proof.
  assert (W : forall b o e o', within 0 o e -> put 1 [b] size o e = Some o' ->
                               within 0 o' (u32 (e + 1))).
  { intros b o e o' Hw E. apply (put_within 0) in E as [H E]; [|done..].
    destruct o' as [buf|]; [|done]. destruct H as [Hb He]. rewrite u32_id by lia. split; [done|lia]. }
  induction fuel as [|fuel IH]; intros s n o e Hw; cbn [unescape_loop]; [by exists e|].
  repeat first
    [ by exists e
    | match goal with
      | |- context [put 1 ?b size o e] =>
          destruct (put 1 b size o e) as [o'|] eqn:E; [by eapply IH, W|]
      end
    | case_match; [|] ].
Qed.

Lemma encode_bytes_len c need bs :
  encode_bytes c = (need, bs) -> (need = 0 /\ zlen bs = 1) \/ (2 <= need <= 6 /\ zlen bs = need).
Proof.
  unfold encode_bytes. repeat case_match; intros [= <- <-]; [by left|right; by split..].
Qed.

Lemma encode_loop_within enc : forall fuel s o e,
  within 1 o e -> exists e', within 1 (snd (utf8_encode_loop isprint fuel enc s size o e)) e'.
Proof.
  induction fuel as [|fuel IH]; intros s o e Hw; cbn [utf8_encode_loop]; [by exists e|].
  destruct s as [|b s]; [by exists e|].
  destruct (encode_char _ _ _ _) as [[c k]|]; [|by exists e].
  destruct (encode_bytes c) as [need bs] eqn:Eb. apply encode_bytes_len in Eb.
  destruct (put need bs size o e) as [o2|] eqn:E; [|by exists e].
  apply (put_within 1) in E as [H Hn]; [|done|lia|done|lia].
  eapply (IH _ _ (u32 (e + zlen bs))).
  destruct o2 as [buf|]; [|done]. destruct H as [Hb He].
  assert (0 <= e) by (destruct o; [apply Hw|done]).
  rewrite u32_id by lia. split; [done|lia].
Qed.
End Ends.

(** Whatever the input, the decoder writes within its buffer, but for the NUL of an
    escape, and the encoder, but for a character of a single byte: at most one byte
    past the end. *)
Theorem utf8_bounds (isprint : Z -> bool) (iconv : bool -> list Z -> Z -> bool * list Z)
    (enc : SilcStringEncoding) (s buf : list Z) (s_len size : Z) :
  enc <> SILC_STRING_LOCALE -> 0 <= size <= zlen buf -> size < 2147483648 -> 0 <= s_len <= zlen s ->
  (exists buf', snd (silc_utf8_decode isprint iconv s s_len enc (Some buf) size) = Some buf' /\
     zlen buf <= zlen buf' <=
       zlen buf + (if bool_decide (enc = SILC_STRING_LDAP_DN) then 1 else 0)) /\
  (exists buf', snd (silc_utf8_encode isprint iconv s s_len enc (Some buf) size) = Some buf' /\
     zlen buf <= zlen buf' <=
       zlen buf + (if bool_decide (enc = SILC_STRING_LDAP_DN \/ enc = SILC_STRING_UTF8) then 0 else 1)).
Proof.
  intros Hloc Hsize Hbound Hs.
  assert (Hw : forall over, 0 <= over -> within size (zlen buf) over (Some buf) 0) by (split; lia).
  assert (Ex : forall over o e, within size (zlen buf) over o e ->
    exists buf', o = Some buf' /\ zlen buf <= zlen buf' <= zlen buf + over).
  { intros over [b|] e H; [|done]. exists b. split; [done|]. apply H. }
  assert (Hmem : (size <? s_len) = false ->
    exists buf', Some (splice 0 (ztake s_len s) buf) = Some buf' /\ zlen buf <= zlen buf' <= zlen buf + 0).
  { intros E. eexists. split; [done|]. rewrite zlen_splice; rewrite ?zlen_take; lia. }
  assert (Hno : forall over, 0 <= over -> exists buf', Some buf = Some buf' /\
    zlen buf <= zlen buf' <= zlen buf + over) by (intros; exists buf; split; [done|lia]).
  split.
  - assert (Loop : forall fuel, exists buf',
      snd (utf8_decode_loop isprint fuel enc (ztake s_len s) size (Some buf) 0) = Some buf' /\
      zlen buf <= zlen buf' <= zlen buf + (if bool_decide (enc = SILC_STRING_LDAP_DN) then 1 else 0)).
    { intros fuel. edestruct (decode_loop_within isprint size (zlen buf)) as [e He];
        [done..|apply Hw; by case_bool_decide|]. by eapply Ex. }
    unfold silc_utf8_decode. destruct (s_len =? 0); [apply Hno; by case_bool_decide|].
    destruct enc; try apply Loop; [done|].
    destruct (size <? s_len); [rewrite orb_true_r; by apply Hno|]. rewrite orb_false_r.
    destruct (negb _); [by apply Hno|]. by apply Hmem.
  - unfold silc_utf8_encode. destruct (s_len =? 0); [apply Hno; by case_bool_decide|].
    assert (Loop : forall fuel enc', exists buf',
      snd (utf8_encode_loop isprint fuel enc' (ztake s_len s) size (Some buf) 0) = Some buf' /\
      zlen buf <= zlen buf' <= zlen buf + 1).
    { intros fuel enc'. edestruct (encode_loop_within isprint size (zlen buf)) as [e He];
        [done..|by apply Hw|]. by eapply Ex. }
    destruct enc; try apply Loop; [done| |].
    + destruct (negb _); [by apply Hno|]. destruct (size <? s_len); [by apply Hno|]. by apply Hmem.
    + edestruct (unescape_within size (zlen buf)) as [e He]; [done..|by apply Hw|]. by eapply Ex.
Qed.

(** Both are reached: one byte of room is asked for nothing, and the NUL of an
    escape is not counted. *)
Lemma utf8_encode_overrun :
  silc_utf8_encode ascii_print no_iconv [65; 66; 67] 3 SILC_STRING_ASCII (Some [0; 0]) 2 =
  (3, Some [65; 66; 67]).
Proof. reflexivity. Qed.

Lemma utf8_decode_overrun :
  silc_utf8_decode ascii_print no_iconv [9] 1 SILC_STRING_LDAP_DN (Some [0; 0; 0]) 3 =
  (3, Some [92; 48; 57; 0]).
Proof. reflexivity. Qed.

(** ** What goes wrong *)

(** [silc_utf8_encode] takes surrogates and produces what [silc_utf8_valid] refuses. *)
Lemma utf8_encode_surrogate :
  silc_utf8_encode ascii_print no_iconv [0xd8; 0] 2 SILC_STRING_BMP (Some (zeros 3)) 3 =
    (3, Some [0xed; 0xa0; 0x80]) /\
  silc_utf8_valid ascii_print [0xed; 0xa0; 0x80] 3 = false.
Proof. by split. Qed.

(** Characters that the target encoding does not have lose their high bits. *)
Lemma utf8_decode_truncates :
  silc_utf8_decode ascii_print no_iconv [0xf0; 0x9f; 0x98; 0x80] 4 SILC_STRING_BMP
    (Some (zeros 2)) 2 = (2, Some [0xf6; 0]).
Proof. by vm_compute. Qed.

(** The length of a string decoded to UTF-8 is announced as an error. *)
Lemma utf8_decoded_len_utf8 isprint iconv s n :
  0 <= n -> silc_utf8_decoded_len isprint iconv s n SILC_STRING_UTF8 = 0.
Proof.
  intros Hn. unfold silc_utf8_decoded_len, silc_utf8_decode. destruct (n =? 0) eqn:E; [done|].
  rewrite (proj2 (Z.ltb_lt 0 n)), orb_true_r by lia. done.
Qed.

(** Two wide characters fill a buffer for two, and three are announced. *)
Lemma utf8_c2w_count :
  silc_utf8_c2w ascii_print no_iconv [0xe2; 0x82; 0xac; 65] 4 (zeros 2) 2 = (3, [0x20ac; 65]).
Proof. by vm_compute. Qed.

(** Four wide characters: the last two bytes are what the fresh memory held. *)
Lemma utf8_w2c_half :
  let w2c fresh := silc_utf8_w2c ascii_print no_iconv fresh [65; 66; 67; 68] 4 (zeros 8) 8 in
  w2c [0; 0; 0; 0; 0; 77; 0; 78] = (4, Some [65; 66; 77; 78; 0; 0; 0; 0]) /\
  w2c [0; 0; 0; 0; 0; 48; 0; 49] = (4, Some [65; 66; 48; 49; 0; 0; 0; 0]).
Proof. by vm_compute. Qed.
