(* ===== verification/Outcome.v ===== *)
(** * Outcomes of code that works on a heap

    The monad of the models whose objects are addresses in a heap (Schedule.v,
    Membership.v): a computation can use an object that was freed, which theorems
    show that it does not. *)

From S2P Require Import Prelude.

(** [Dangling]: a freed object is used; [NoFuel]: the recursion was cut short;
    [Outside]: the state leaves what the model describes. *)
Inductive outcome (A : Type) := Ok (a : A) | Dangling | NoFuel | Outside.
Arguments Ok {A} a.
Arguments Dangling {A}.
Arguments NoFuel {A}.
Arguments Outside {A}.

Definition obind {A B} (o : outcome A) (f : A -> outcome B) : outcome B :=
  match o with Ok a => f a | Dangling => Dangling | NoFuel => NoFuel | Outside => Outside end.

(** The result of a list operation, whose fuel is the length of the list. *)
Definition fueled {A} (o : option A) : outcome A := match o with Some a => Ok a | None => NoFuel end.

(** An object that is used. *)
Definition alive {A} (o : option A) : outcome A := match o with Some a => Ok a | None => Dangling end.

Declare Scope outcome_scope.
Delimit Scope outcome_scope with outcome.
Notation "'let*' p ':=' o 'in' k" := (obind o (fun x => match x with p => k end))
  (at level 10, p pattern, o at level 100, k at level 200) : outcome_scope.
