(* ===== verification/Schedule.v ===== *)
(** * Scheduler ([lib/silcutil/silcschedule.c], [silcschedule_i.h])

    The event loop: timeout tasks in a linked list ordered by their timeouts, with
    a free list they are recycled through, and tasks of file descriptors.  Tasks
    are addresses in a heap, so that a task that is used after it was freed shows
    ([Dangling]).  The callbacks are the application's: a callback is a program of
    calls to the scheduler.  The clock, the allocator, [poll] and the platform's
    [schedule_fd] are parameters.  The table of file descriptors is the map its
    hash table implements (HashTable.v).  Signals, wakeups, the notify callback
    and locking are left out, as is a scheduler run from one of its callbacks. *)

From stdpp Require Import gmap.
From S2P Require Import Prelude CTypes Outcome Lists.

#[local] Open Scope outcome_scope.

(** ** Data *)

Record timeval := mkTime { tv_sec : Z; tv_usec : Z }.

(** [silc_compare_timeval] ([silctime.c]): the difference is an [SilcInt32]. *)
Definition silc_compare_timeval (t1 t2 : timeval) : Z :=
  let s := i32 (tv_sec t1 - tv_sec t2) in
  if s =? 0 then i32 (tv_usec t1 - tv_usec t2) else s.

(** [SilcTaskTimeoutStruct] and [SilcTaskFdStruct], with the header. *)
Inductive TaskKind := TimeoutTask (timeout : timeval) | FdTask (events revents fd : Z).

Record Task := mkTask {
  t_callback : Z;
  t_context : Z;
  t_valid : bool;
  t_kind : TaskKind
}.

Definition SILC_TASK_READ : Z := 1.
Definition SILC_TASK_WRITE : Z := 2.
Definition SILC_TASK_EXPIRE : Z := 4.

(** [struct SilcScheduleStruct] with the heap: the allocated tasks and their
    [next] pointers.  [ticks] counts the readings of the clock; [s_called] lists the
    tasks whose callbacks have been called by [silc_schedule_dispatch_timeout], with
    their timeouts. *)
Record Schedule := mkSchedule {
  s_tasks : gmap Z Task;
  s_links : gmap Z node;
  fd_queue : gmap Z Z;
  fd_dispatch : SilcList;
  timeout_queue : SilcList;
  free_tasks : SilcList;
  s_timeout : timeval;
  has_timeout : bool;
  s_valid : bool;
  max_tasks : Z;
  ticks : nat;
  s_called : list (Z * timeval)
}.

Definition set_tasks (s : Schedule) m : Schedule :=
  mkSchedule m (s_links s) (fd_queue s) (fd_dispatch s) (timeout_queue s) (free_tasks s)
    (s_timeout s) (has_timeout s) (s_valid s) (max_tasks s) (ticks s) (s_called s).
Definition set_fd_queue (s : Schedule) q : Schedule :=
  mkSchedule (s_tasks s) (s_links s) q (fd_dispatch s) (timeout_queue s) (free_tasks s)
    (s_timeout s) (has_timeout s) (s_valid s) (max_tasks s) (ticks s) (s_called s).
Definition set_fd_dispatch (s : Schedule) h l : Schedule :=
  mkSchedule (s_tasks s) h (fd_queue s) l (timeout_queue s) (free_tasks s)
    (s_timeout s) (has_timeout s) (s_valid s) (max_tasks s) (ticks s) (s_called s).
Definition set_timeout_queue (s : Schedule) h l : Schedule :=
  mkSchedule (s_tasks s) h (fd_queue s) (fd_dispatch s) l (free_tasks s)
    (s_timeout s) (has_timeout s) (s_valid s) (max_tasks s) (ticks s) (s_called s).
Definition set_free_tasks (s : Schedule) h l : Schedule :=
  mkSchedule (s_tasks s) h (fd_queue s) (fd_dispatch s) (timeout_queue s) l
    (s_timeout s) (has_timeout s) (s_valid s) (max_tasks s) (ticks s) (s_called s).
Definition set_timeout (s : Schedule) t b : Schedule :=
  mkSchedule (s_tasks s) (s_links s) (fd_queue s) (fd_dispatch s) (timeout_queue s) (free_tasks s)
    t b (s_valid s) (max_tasks s) (ticks s) (s_called s).
Definition set_valid (s : Schedule) b : Schedule :=
  mkSchedule (s_tasks s) (s_links s) (fd_queue s) (fd_dispatch s) (timeout_queue s) (free_tasks s)
    (s_timeout s) (has_timeout s) b (max_tasks s) (ticks s) (s_called s).
Definition tick (s : Schedule) : Schedule :=
  mkSchedule (s_tasks s) (s_links s) (fd_queue s) (fd_dispatch s) (timeout_queue s) (free_tasks s)
    (s_timeout s) (has_timeout s) (s_valid s) (max_tasks s) (S (ticks s)) (s_called s).
Definition log_call (s : Schedule) c : Schedule :=
  mkSchedule (s_tasks s) (s_links s) (fd_queue s) (fd_dispatch s) (timeout_queue s) (free_tasks s)
    (s_timeout s) (has_timeout s) (s_valid s) (max_tasks s) (ticks s) (s_called s ++ [c]).

(** [task->valid = FALSE] *)
Definition invalid (t : Task) : Task := mkTask (t_callback t) (t_context t) false (t_kind t).
Definition invalidate (s : Schedule) (a : Z) : Schedule := set_tasks s (alter invalid a (s_tasks s)).

(** [silc_free(task)] *)
Definition free_task (s : Schedule) (a : Z) : Schedule := set_tasks s (delete a (s_tasks s)).

(** A task that is read. *)
Definition task_at (s : Schedule) (a : Z) : outcome Task :=
  match s_tasks s !! a with Some t => Ok t | None => Dangling end.

(** ** The scheduler *)

Section Scheduler.
(** [silc_gettimeofday]: the readings of the clock. *)
Variable clock : nat -> timeval.
(** [silc_calloc] of a task: an address, [None] for NULL. *)
Variable alloc : gmap Z Task -> option Z.
(** [schedule_ops.schedule_fd] for a descriptor and its events. *)
Variable schedule_fd : Z -> Z -> bool.

Definition gettimeofday (s : Schedule) : timeval * Schedule := (clock (ticks s), tick s).

(** The two branches of [silc_schedule_task_remove] for one task. *)
Definition remove_timeout (s : Schedule) (a : Z) : outcome Schedule :=
  let* (h, l) := fueled (silc_list_del (s_links s) (timeout_queue s) a) in
  let s := set_timeout_queue s h l in
  let '(h, l) := silc_list_add (s_links s) (free_tasks s) a in
  Ok (set_free_tasks s h l).

(** The destructor of the table frees the task. *)
Definition hash_del (s : Schedule) (fd : Z) : Schedule :=
  match fd_queue s !! fd with
  | Some a => set_fd_queue (free_task s a) (delete fd (fd_queue s))
  | None => s
  end.

Definition silc_schedule_task_remove (s : Schedule) (a : Z) : outcome Schedule :=
  let* t := task_at s a in
  match t_kind t with
  | TimeoutTask _ => remove_timeout s a
  | FdTask _ _ fd => Ok (hash_del s fd)
  end.

(** The timeout of a new task. *)
Definition add_timeval (now : timeval) (seconds useconds : Z) : timeval :=
  if 0 <? seconds + useconds then
    let sec := tv_sec now + (seconds + Z.quot useconds 1000000) in
    let usec := tv_usec now + Z.rem useconds 1000000 in
    if 1000000 <=? usec then mkTime (sec + 1) (usec - 1000000) else mkTime sec usec
  else now.

(** The [while] loop that looks for the spot, on a copy [l] of the list: [prev],
    and whether the loop was left for a task with a later timeout. *)
Fixpoint find_spot (fuel : nat) (s : Schedule) (l : SilcList) (timeout : timeval) (prev : option Z)
    : outcome (option Z * bool) :=
  let '(l, tmp) := silc_list_get (s_links s) l in
  match tmp, fuel with
  | None, _ => Ok (prev, false)
  | Some _, O => NoFuel
  | Some a, S fuel =>
      let* t := task_at s a in
      match t_kind t with
      | TimeoutTask at_ =>
          if silc_compare_timeval timeout at_ <? 0 then Ok (prev, true)
          else find_spot fuel s l timeout (Some a)
      | FdTask _ _ _ => Dangling   (* not reached: only timeouts are in the list *)
      end
  end.

(** The branch for [SILC_TASK_TIMEOUT]. *)
Definition add_timeout (s : Schedule) (callback context seconds useconds : Z)
    : outcome (Schedule * option Z) :=
  let s := set_free_tasks s (s_links s) (silc_list_start (free_tasks s)) in
  let '(fl, r) := silc_list_get (s_links s) (free_tasks s) in
  let s := set_free_tasks s (s_links s) fl in
  let* (s, r) :=
    match r with
    | Some a =>
        let* (h, l) := fueled (silc_list_del (s_links s) (free_tasks s) a) in
        Ok (set_free_tasks s h l, Some a)
    | None => Ok (s, alloc (s_tasks s))
    end in
  match r with
  | None => Ok (s, None)
  | Some a =>
      let '(now, s) := gettimeofday s in
      let timeout := add_timeval now seconds useconds in
      let s := set_tasks s (<[a := mkTask callback context true (TimeoutTask timeout)]> (s_tasks s)) in
      let list := silc_list_start (timeout_queue s) in
      let* (prev, found) :=
        find_spot (Z.to_nat (silc_list_count list)) s list timeout None in
      let '(h, l) :=
        if found then silc_list_insert (s_links s) (timeout_queue s) prev a
        else silc_list_add (s_links s) (timeout_queue s) a in
      Ok (set_timeout_queue s h l, Some a)
  end.

(** The branch for [SILC_TASK_FD]. *)
Definition add_fd (s : Schedule) (fd callback context : Z) : outcome (Schedule * option Z) :=
  let* (s, known) :=
    match fd_queue s !! fd with
    | Some a =>
        let* t := task_at s a in
        if t_valid t then Ok (s, Some a)
        else let* s := silc_schedule_task_remove s a in Ok (s, None)
    | None => Ok (s, None)
    end in
  match known with
  | Some a => Ok (s, Some a)
  | None =>
      if (0 <? max_tasks s) && (max_tasks s <=? Z.of_nat (size (fd_queue s))) then Ok (s, None)
      else
        match alloc (s_tasks s) with
        | None => Ok (s, None)
        | Some a =>
            let s := set_tasks s (<[a := mkTask callback context true (FdTask SILC_TASK_READ 0 fd)]>
                                    (s_tasks s)) in
            let s := set_fd_queue s (<[fd := a]> (fd_queue s)) in
            if schedule_fd fd SILC_TASK_READ then Ok (s, Some a) else Ok (hash_del s fd, None)
        end
  end.

Inductive SilcTaskType := SILC_TASK_FD | SILC_TASK_TIMEOUT.

(** The task, [None] for NULL. *)
Definition silc_schedule_task_add (s : Schedule) (fd callback context seconds useconds : Z)
    (type : SilcTaskType) : outcome (Schedule * option Z) :=
  if negb (s_valid s) then Ok (s, None)
  else
    match type with
    | SILC_TASK_TIMEOUT => add_timeout s callback context seconds useconds
    | SILC_TASK_FD => add_fd s fd callback context
    end.

(** The loops over the tasks of a list that invalidate those that [f] holds for:
    the list, and whether there were any. *)
Fixpoint walk (fuel : nat) (f : Task -> bool) (s : Schedule) (l : SilcList) (ret : bool)
    : outcome (Schedule * SilcList * bool) :=
  let '(l, r) := silc_list_get (s_links s) l in
  match r, fuel with
  | None, _ => Ok (s, l, ret)
  | Some _, O => NoFuel
  | Some a, S fuel =>
      let* t := task_at s a in
      if f t then walk fuel f (invalidate s a) l true else walk fuel f s l ret
  end.

(** The same over the table. *)
Definition fd_walk (f : Task -> bool) (s : Schedule) : outcome (Schedule * bool) :=
  foldr (fun a o =>
    let* (s, ret) := o in
    let* t := task_at s a in
    Ok (if f t then (invalidate s a, true) else (s, ret))) (Ok (s, false)) (map_to_list (fd_queue s)).*2.

Definition silc_schedule_task_del_all (s : Schedule) : outcome Schedule :=
  let* (s, _) := fd_walk (fun _ => true) s in
  let l := silc_list_start (timeout_queue s) in
  let* (s, l, _) := walk (Z.to_nat (silc_list_count l)) (fun _ => true) s l false in
  Ok (set_timeout_queue s (s_links s) l).

(** The caller's task exists: a write elsewhere is not modelled. *)
Definition silc_schedule_task_del (s : Schedule) (a : Z) : Schedule := invalidate s a.

(** Signals apart, which a descriptor without a task is taken for. *)
Definition silc_schedule_task_del_by_fd (s : Schedule) (fd : Z) : Schedule * bool :=
  match fd_queue s !! fd with Some a => (invalidate s a, true) | None => (s, true) end.

Definition del_matching (f : Task -> bool) (s : Schedule) : outcome (Schedule * bool) :=
  let* (s, ret) := fd_walk f s in
  let l := silc_list_start (timeout_queue s) in
  let* (s, _, ret) := walk (Z.to_nat (silc_list_count l)) f s l ret in
  Ok (s, ret).

Definition silc_schedule_task_del_by_callback (s : Schedule) (callback : Z) :=
  del_matching (fun t => t_callback t =? callback) s.

Definition silc_schedule_task_del_by_context (s : Schedule) (context : Z) :=
  del_matching (fun t => t_context t =? context) s.

(** It returns TRUE whether or not there was a task. *)
Definition silc_schedule_task_del_by_all (s : Schedule) (fd callback context : Z)
    : outcome (Schedule * bool) :=
  if negb (fd =? 0) then Ok (silc_schedule_task_del_by_fd s fd)
  else
    let l := silc_list_start (timeout_queue s) in
    let* (s, _, _) :=
      walk (Z.to_nat (silc_list_count l))
           (fun t => (t_callback t =? callback) && (t_context t =? context)) s l false in
    Ok (s, true).

Definition set_events (mask : Z) (t : Task) : Task :=
  mkTask (t_callback t) (t_context t) (t_valid t)
    (match t_kind t with FdTask _ r fd => FdTask mask r fd | k => k end).

Definition set_revents (mask : Z) (t : Task) : Task :=
  mkTask (t_callback t) (t_context t) (t_valid t)
    (match t_kind t with FdTask e _ fd => FdTask e mask fd | k => k end).

(** With [send_events] FALSE. *)
Definition silc_schedule_set_listen_fd (s : Schedule) (fd mask : Z) : Schedule * bool :=
  if negb (s_valid s) then (s, false)
  else
    match fd_queue s !! fd with
    | None => (s, true)
    | Some a =>
        if schedule_fd fd mask then (set_tasks s (alter (set_events mask) a (s_tasks s)), true)
        else (s, false)
    end.

Definition silc_schedule_get_fd_events (s : Schedule) (fd : Z) : Z :=
  if negb (s_valid s) then 0
  else
    match fd_queue s !! fd with
    | Some a =>
        match s_tasks s !! a with
        | Some (mkTask _ _ _ (FdTask events _ _)) => events
        | _ => 0
        end
    | None => 0
    end.

Definition silc_schedule_stop (s : Schedule) : Schedule := set_valid s false.

(** *** Callbacks *)

(** What a callback of the application does: calls of the scheduler, then the state
    [W] of the application it leaves. *)
Inductive Prog (W : Type) :=
  | Return (w : W)
  | TaskAdd (fd callback context seconds useconds : Z) (type : SilcTaskType) (k : option Z -> Prog W)
  | TaskDel (task : Z) (k : Prog W)
  | TaskDelAll (k : Prog W)
  | TaskDelByFd (fd : Z) (k : bool -> Prog W)
  | TaskDelByCallback (callback : Z) (k : bool -> Prog W)
  | TaskDelByContext (context : Z) (k : bool -> Prog W)
  | TaskDelByAll (fd callback context : Z) (k : bool -> Prog W)
  | SetListenFd (fd mask : Z) (k : bool -> Prog W)
  | GetFdEvents (fd : Z) (k : Z -> Prog W)
  | Stop (k : Prog W).

Context {W : Type}.

Fixpoint run_prog (s : Schedule) (p : Prog W) : outcome (Schedule * W) :=
  match p with
  | Return _ w => Ok (s, w)
  | TaskAdd _ fd cb ctx sec usec type k =>
      let* (s, r) := silc_schedule_task_add s fd cb ctx sec usec type in run_prog s (k r)
  | TaskDel _ a k => run_prog (silc_schedule_task_del s a) k
  | TaskDelAll _ k => let* s := silc_schedule_task_del_all s in run_prog s k
  | TaskDelByFd _ fd k => let '(s, r) := silc_schedule_task_del_by_fd s fd in run_prog s (k r)
  | TaskDelByCallback _ cb k =>
      let* (s, r) := silc_schedule_task_del_by_callback s cb in run_prog s (k r)
  | TaskDelByContext _ ctx k =>
      let* (s, r) := silc_schedule_task_del_by_context s ctx in run_prog s (k r)
  | TaskDelByAll _ fd cb ctx k =>
      let* (s, r) := silc_schedule_task_del_by_all s fd cb ctx in run_prog s (k r)
  | SetListenFd _ fd mask k => let '(s, r) := silc_schedule_set_listen_fd s fd mask in run_prog s (k r)
  | GetFdEvents _ fd k => run_prog s (k (silc_schedule_get_fd_events s fd))
  | Stop _ k => run_prog (silc_schedule_stop s) k
  end.

(** The application: the callback, the event, the descriptor and the context. *)
Variable app : Z -> Z -> Z -> Z -> W -> Prog W.

(** The callback that stands for [silc_schedule_timeout_gc]. *)
Definition gc_callback : Z := 0.

(** The [while] loop that frees tasks of the free list. *)
Fixpoint gc_loop (fuel : nat) (s : Schedule) (c : Z) : outcome Schedule :=
  let '(l, r) := silc_list_get (s_links s) (free_tasks s) in
  let s := set_free_tasks s (s_links s) l in
  match r, fuel with
  | None, _ => Ok s
  | Some a, fuel =>
      if 0 <? c then
        match fuel with
        | O => NoFuel
        | S fuel =>
            let* (h, l) := fueled (silc_list_del (s_links s) (free_tasks s) a) in
            gc_loop fuel (free_task (set_free_tasks s h l) a) (c - 1)
        end
      else Ok s
  end.

(** How many tasks are freed. *)
Definition gc_count (free queued : Z) : Z :=
  let c := free / 2 in
  let c := if queued <? c then free - queued else c in
  if free - c <? 10 then c - (10 - (free - c)) else c.

Definition silc_schedule_timeout_gc (s : Schedule) : outcome Schedule :=
  if negb (s_valid s) then Ok s
  else
    let again (s : Schedule) :=
      let* (s, _) := silc_schedule_task_add s 0 gc_callback 0 3600 0 SILC_TASK_TIMEOUT in Ok s in
    let free := silc_list_count (free_tasks s) in
    let queued := silc_list_count (timeout_queue s) in
    if free <=? 10 then again s
    else if free <? queued then again s
    else
      let s := set_free_tasks s (s_links s) (silc_list_start (free_tasks s)) in
      let* s := gc_loop (Z.to_nat free) s (gc_count free queued) in
      again (set_free_tasks s (s_links s) (silc_list_start (free_tasks s))).

(** [t->callback(..)] *)
Definition invoke (s : Schedule) (w : W) (callback event fd context : Z) : outcome (Schedule * W) :=
  if callback =? gc_callback then let* s := silc_schedule_timeout_gc s in Ok (s, w)
  else run_prog s (app callback event fd context w).

(** *** Dispatching *)

(** The [do] loop of [silc_schedule_dispatch_timeout]; [task] has been taken from
    the list. *)
Fixpoint dispatch_loop (fuel : nat) (s : Schedule) (w : W) (curtime : timeval) (dispatch_all : bool)
    (count : Z) (task : option Z) : outcome (Schedule * W) :=
  match task, fuel with
  | None, _ => Ok (s, w)
  | Some _, O => NoFuel
  | Some a, S fuel =>
      let next s w count :=
        let '(l, task) := silc_list_get (s_links s) (timeout_queue s) in
        dispatch_loop fuel (set_timeout_queue s (s_links s) l) w curtime dispatch_all count task in
      let* t := task_at s a in
      if negb (t_valid t) then
        let* s := silc_schedule_task_remove s a in next s w count
      else
        match t_kind t with
        | TimeoutTask timeout =>
            if (0 <? silc_compare_timeval timeout curtime) && negb dispatch_all then Ok (s, w)
            else
              let s := log_call (invalidate s a) (a, timeout) in
              let* (s, w) := invoke s w (t_callback t) SILC_TASK_EXPIRE 0 (t_context t) in
              let* s := silc_schedule_task_remove s a in
              if 40 <? count + 1 then Ok (s, w) else next s w (count + 1)
        | FdTask _ _ _ => Dangling   (* not reached: only timeouts are in the list *)
        end
  end.

Definition silc_schedule_dispatch_timeout (fuel : nat) (s : Schedule) (w : W) (dispatch_all : bool)
    : outcome (Schedule * W) :=
  let '(curtime, s) := gettimeofday s in
  let '(l, task) := silc_list_get (s_links s) (silc_list_start (timeout_queue s)) in
  dispatch_loop fuel (set_timeout_queue s (s_links s) l) w curtime dispatch_all 0 task.

(** The next timeout, from the first one that is kept. *)
Definition next_timeout (timeout curtime : timeval) : timeval :=
  let sec := tv_sec timeout - tv_sec curtime in
  let usec := tv_usec timeout - tv_usec curtime in
  let sec := if sec <? 0 then 0 else sec in
  if usec <? 0 then mkTime (if sec - 1 <? 0 then 0 else sec - 1) (usec + 1000000)
  else mkTime sec usec.

(** The [do] loop of [silc_schedule_select_timeout]; [fuel] is also that of the
    dispatch. *)
Fixpoint select_loop (fuel : nat) (s : Schedule) (w : W) (curtime : timeval) (dispatch : bool)
    (task : option Z) : outcome (Schedule * W) :=
  match task, fuel with
  | None, _ => Ok (s, w)
  | Some _, O => NoFuel
  | Some a, S fuel =>
      let next s w dispatch :=
        let '(l, task) := silc_list_get (s_links s) (timeout_queue s) in
        select_loop fuel (set_timeout_queue s (s_links s) l) w curtime dispatch task in
      let* t := task_at s a in
      if negb (t_valid t) then
        let* s := silc_schedule_task_remove s a in next s w dispatch
      else
        match t_kind t with
        | TimeoutTask timeout =>
            if (silc_compare_timeval timeout curtime <=? 0) && dispatch then
              let* (s, w) := silc_schedule_dispatch_timeout fuel s w false in
              if negb (s_valid s) then Ok (s, w)
              else next (set_timeout_queue s (s_links s) (silc_list_start (timeout_queue s))) w false
            else Ok (set_timeout s (next_timeout timeout curtime) true, w)
        | FdTask _ _ _ => Dangling   (* not reached *)
        end
  end.

Definition silc_schedule_select_timeout (fuel : nat) (s : Schedule) (w : W) : outcome (Schedule * W) :=
  let '(curtime, s) := gettimeofday s in
  let s := set_timeout s (s_timeout s) false in
  let '(l, task) := silc_list_get (s_links s) (silc_list_start (timeout_queue s)) in
  select_loop fuel (set_timeout_queue s (s_links s) l) w curtime true task.

(** The first loop of [silc_schedule_dispatch_fd]. *)
Fixpoint fd_loop (fuel : nat) (s : Schedule) (w : W) : outcome (Schedule * W) :=
  let '(l, r) := silc_list_get (s_links s) (fd_dispatch s) in
  let s := set_fd_dispatch s (s_links s) l in
  match r, fuel with
  | None, _ => Ok (s, w)
  | Some _, O => NoFuel
  | Some a, S fuel =>
      let revents (t : Task) := match t_kind t with FdTask _ r _ => r | TimeoutTask _ => 0 end in
      let fd (t : Task) := match t_kind t with FdTask _ _ f => f | TimeoutTask _ => 0 end in
      let* t := task_at s a in
      let* (s, w) :=
        if Z.testbit (revents t) 0
        then invoke s w (t_callback t) SILC_TASK_READ (fd t) (t_context t) else Ok (s, w) in
      let* t := task_at s a in
      let* (s, w) :=
        if t_valid t && Z.testbit (revents t) 1
        then invoke s w (t_callback t) SILC_TASK_WRITE (fd t) (t_context t) else Ok (s, w) in
      fd_loop fuel s w
  end.

(** The second one. *)
Fixpoint fd_remove_loop (fuel : nat) (s : Schedule) : outcome Schedule :=
  let '(l, r) := silc_list_get (s_links s) (fd_dispatch s) in
  let s := set_fd_dispatch s (s_links s) l in
  match r, fuel with
  | None, _ => Ok s
  | Some _, O => NoFuel
  | Some a, S fuel =>
      let* t := task_at s a in
      if negb (t_valid t) then let* s := silc_schedule_task_remove s a in fd_remove_loop fuel s
      else fd_remove_loop fuel s
  end.

Definition silc_schedule_dispatch_fd (s : Schedule) (w : W) : outcome (Schedule * W) :=
  let n := Z.to_nat (silc_list_count (fd_dispatch s)) in
  let start s := set_fd_dispatch s (s_links s) (silc_list_start (fd_dispatch s)) in
  let* (s, w) := fd_loop n (start s) w in
  let* s := fd_remove_loop n (start s) in
  Ok (s, w).

(** [schedule_ops.schedule]: the result of [poll], and the descriptors with events:
    whether they are to be read and written. *)
Variable wait : Schedule -> Z * list (Z * (bool * bool)).

(** The last loop of [silc_poll] ([unix/silcunixschedule.c]), which makes the list
    [fd_dispatch]. *)
Definition fill_dispatch (s : Schedule) (ready : list (Z * (bool * bool))) : outcome Schedule :=
  foldl (fun (o : outcome Schedule) (r : Z * (bool * bool)) =>
    let '(fd, (readable, writable)) := r in
    let* s := o in
    match fd_queue s !! fd with
    | None => Ok s
    | Some a =>
        let* t := task_at s a in
        let events := match t_kind t with FdTask events _ _ => events | TimeoutTask _ => 0 end in
        if negb (t_valid t) || (events =? 0) then Ok s
        else
          let revents := Z.lor (if readable then SILC_TASK_READ else 0)
                           (if writable then SILC_TASK_WRITE else 0) in
          let s := set_tasks s (alter (set_revents revents) a (s_tasks s)) in
          let '(h, l) := silc_list_add (s_links s) (fd_dispatch s) a in
          Ok (set_fd_dispatch s h l)
    end) (Ok (set_fd_dispatch s (s_links s) silc_list_init)) ready.

(** [silc_schedule_iterate]; a negative result other than -2, or
    an interrupted call, goes on. *)
Fixpoint silc_schedule_iterate (fuel : nat) (s : Schedule) (w : W) (timeout_usecs : Z)
    : outcome (Schedule * W * bool) :=
  match fuel with
  | O => NoFuel
  | S fuel =>
      let again s w :=
        if timeout_usecs =? -1 then silc_schedule_iterate fuel s w timeout_usecs else Ok (s, w, true) in
      if negb (s_valid s) then Ok (s, w, false)
      else
        let* (s, w) := silc_schedule_select_timeout fuel s w in
        if negb (s_valid s) then Ok (s, w, false)
        else
          let s := if 0 <=? timeout_usecs then set_timeout s (mkTime 0 timeout_usecs) true else s in
          let '(ret, ready) := wait s in
          if ret =? 0 then
            if negb (silc_list_count (timeout_queue s) =? 0) then
              let* (s, w) := silc_schedule_dispatch_timeout fuel s w false in again s w
            else again s w
          else if 0 <? ret then
            let* s := fill_dispatch s ready in
            let* (s, w) := silc_schedule_dispatch_fd s w in
            if has_timeout s && (tv_sec (s_timeout s) =? 0) && (tv_usec (s_timeout s) <? 50000) then
              let* (s, w) := silc_schedule_dispatch_timeout fuel s w false in again s w
            else again s w
          else if ret =? -2 then Ok (s, w, true)
          else again s w
  end.

(** *** Starting and ending *)

Definition silc_schedule_init (max_tasks : Z) : outcome Schedule :=
  let s := mkSchedule ∅ ∅ ∅ silc_list_init silc_list_init silc_list_init (mkTime 0 0) false true
             max_tasks 0 [] in
  let* (s, _) := silc_schedule_task_add s 0 gc_callback 0 3600 0 SILC_TASK_TIMEOUT in Ok s.

(** [silc_schedule_task_remove(schedule, SILC_ALL_TASKS)]: the timeout tasks. *)
Fixpoint remove_all_loop (fuel : nat) (s : Schedule) : outcome Schedule :=
  let '(l, r) := silc_list_get (s_links s) (timeout_queue s) in
  let s := set_timeout_queue s (s_links s) l in
  match r, fuel with
  | None, _ => Ok s
  | Some _, O => NoFuel
  | Some a, S fuel =>
      let* (h, l) := fueled (silc_list_del (s_links s) (timeout_queue s) a) in
      remove_all_loop fuel (free_task (set_timeout_queue s h l) a)
  end.

Definition remove_all (s : Schedule) : outcome Schedule :=
  let s := foldr (fun fd s => hash_del s fd) s (map_to_list (fd_queue s)).*1 in
  let n := Z.to_nat (silc_list_count (timeout_queue s)) in
  remove_all_loop n (set_timeout_queue s (s_links s) (silc_list_start (timeout_queue s))).

(** The free list is freed. *)
Fixpoint free_all (fuel : nat) (s : Schedule) : outcome Schedule :=
  let '(l, r) := silc_list_get (s_links s) (free_tasks s) in
  let s := set_free_tasks s (s_links s) l in
  match r, fuel with
  | None, _ => Ok s
  | Some _, O => NoFuel
  | Some a, S fuel => free_all fuel (free_task s a)
  end.

(** What is left of the heap, or FALSE while the scheduler is valid. *)
Definition silc_schedule_uninit (fuel : nat) (s : Schedule) (w : W) : outcome (option (Schedule * W)) :=
  if s_valid s then Ok None
  else
    let* (s, w) := silc_schedule_dispatch_timeout fuel s w true in
    let* s := silc_schedule_task_del_all s in
    let* s := remove_all s in
    let s := set_free_tasks s (s_links s) (silc_list_start (free_tasks s)) in
    let* s := free_all (Z.to_nat (silc_list_count (free_tasks s))) s in
    Ok (Some (s, w)).

End Scheduler.
