(* ===== verification/ScheduleThms.v ===== *)
(** * The scheduler keeps its timers (theorems about Schedule.v)

    The invariant: the queue of timeouts and the free list are disjoint lists in
    the one store of links, the queue is sorted by the timeouts, and every
    allocated task is in one of them or in the table of descriptors.  Every
    program of calls keeps it, and keeps the place of a dispatch that is under
    way; so a dispatch ends, in the order of the timeouts. *)

From Stdlib Require Import Sorted.
From stdpp Require Import gmap.
From S2P Require Import Prelude CTypes Outcome Lists Schedule.

#[local] Open Scope outcome_scope.
#[local] Abbreviation last := list.last.

(** ** Time *)

Definition usecs (t : timeval) : Z := tv_sec t * 1000000 + tv_usec t.

(** The times the comparison is made for. *)
Definition proper (t : timeval) : Prop := 0 <= tv_sec t < 2147483648 /\ 0 <= tv_usec t < 1000000.

Lemma compare_spec t1 t2 :
  proper t1 -> proper t2 ->
  (silc_compare_timeval t1 t2 < 0 <-> usecs t1 < usecs t2) /\
  (0 < silc_compare_timeval t1 t2 <-> usecs t2 < usecs t1).
Proof.
  intros [H1 H2] [H3 H4]. unfold silc_compare_timeval, usecs. rewrite !i32_id by lia.
  destruct (_ =? 0) eqn:E; lia.
Qed.

(** Beyond 2^31 seconds the order is lost. *)
Lemma compare_wraps : silc_compare_timeval (mkTime 0 0) (mkTime 2147483649 0) = 2147483647.
Proof. reflexivity. Qed.

(** The delays a caller may ask for. *)
Definition delay_ok (seconds useconds : Z) : Prop :=
  0 <= seconds /\ 0 <= useconds /\ seconds * 1000000 + useconds < 1073000000000000.

Lemma add_timeval_ok now seconds useconds :
  proper now -> tv_sec now < 1073741824 -> delay_ok seconds useconds ->
  proper (add_timeval now seconds useconds) /\
  usecs (add_timeval now seconds useconds) = usecs now + (seconds * 1000000 + useconds).
Proof.
  intros [Hs Hu] Hb (H1 & H2 & H3). unfold add_timeval, proper, usecs.
  destruct (0 <? seconds + useconds) eqn:E; [|lia].
  rewrite Z.quot_div_nonneg, Z.rem_mod_nonneg by lia.
  pose proof (Z.div_mod useconds 1000000 ltac:(lia)).
  pose proof (Z.mod_pos_bound useconds 1000000 ltac:(lia)).
  destruct (1000000 <=? _) eqn:E2; cbn [tv_sec tv_usec]; lia.
Qed.

(** ** The invariant *)

Definition timer (s : Schedule) (a : Z) : Prop :=
  exists t tv, s_tasks s !! a = Some t /\ t_kind t = TimeoutTask tv /\ proper tv.

Definition kind_of (s : Schedule) (a : Z) : option TaskKind := t_kind <$> s_tasks s !! a.

Definition kind_time (k : option TaskKind) : Z :=
  match k with Some (TimeoutTask tv) => usecs tv | _ => 0 end.

(** When a timer is due, and whether it still is to be called. *)
Definition due (s : Schedule) (a : Z) : Z := kind_time (kind_of s a).
Definition live (s : Schedule) (a : Z) : Prop := t_valid <$> s_tasks s !! a = Some true.

Record good (s : Schedule) (xs fs : list Z) : Prop := mkGood {
  g_queue : rep (s_links s) (timeout_queue s) xs;
  g_free : rep (s_links s) (free_tasks s) fs;
  g_single : prev_set (timeout_queue s) = false /\ prev_set (free_tasks s) = false;
  g_forward : end_set (timeout_queue s) = false /\ end_set (free_tasks s) = false;
  g_nodup : NoDup (xs ++ fs);
  g_timers : forall a, a ∈ xs ++ fs -> timer s a;
  g_sorted : StronglySorted (fun a b => due s a <= due s b) xs;
  g_fds : forall fd a, fd_queue s !! fd = Some a -> exists e r, kind_of s a = Some (FdTask e r fd);
  g_all : forall a t, s_tasks s !! a = Some t -> a ∈ xs ++ fs \/ exists fd, fd_queue s !! fd = Some a;
  g_size : Z.of_nat (size (s_tasks s)) < 1073741824
}.

Lemma timer_kind s a : timer s a <-> exists tv, kind_of s a = Some (TimeoutTask tv) /\ proper tv.
Proof.
  unfold timer, kind_of. split.
  - intros (t & tv & -> & E & H). exists tv. cbn. by rewrite E.
  - intros (tv & E & H). destruct (s_tasks s !! a) as [t|]; [|done].
    injection E as E. by exists t, tv.
Qed.

Lemma timer_ext s s' a : kind_of s' a = kind_of s a -> timer s a -> timer s' a.
Proof. rewrite !timer_kind. by intros ->. Qed.

Lemma due_ext s s' a : kind_of s' a = kind_of s a -> due s' a = due s a.
Proof. unfold due. by intros ->. Qed.

(** The lists are no longer than the heap. *)
Lemma lists_size s xs fs : good s xs fs -> zlen xs + zlen fs <= Z.of_nat (size (s_tasks s)).
Proof.
  intros G. rewrite <- zlen_app. unfold zlen. apply inj_le.
  rewrite <- (size_list_to_set (C := gset Z) (xs ++ fs)) by apply G.
  rewrite <- (size_dom (D := gset Z)). apply subseteq_size. intros a.
  rewrite elem_of_list_to_set. intros (t & tv & E & _)%(g_timers _ _ _ G).
  by apply elem_of_dom; eexists.
Qed.

(** A list sorted by a function that agrees with another on it. *)
Lemma sorted_ext (f g : Z -> Z) xs :
  (forall a, a ∈ xs -> g a = f a) ->
  StronglySorted (fun a b => f a <= f b) xs -> StronglySorted (fun a b => g a <= g b) xs.
Proof.
  intros E H. induction H as [|x xs H IH F]; [constructor|]. constructor.
  - apply IH. intros a Ha. apply E. by right.
  - apply list.Forall_forall. intros a Ha. rewrite list.Forall_forall in F.
    rewrite !E by (by left || by right). auto.
Qed.

Lemma sorted_app (R : Z -> Z -> Prop) l1 l2 :
  StronglySorted R (l1 ++ l2) <->
  StronglySorted R l1 /\ StronglySorted R l2 /\ (forall a b, a ∈ l1 -> b ∈ l2 -> R a b).
Proof.
  induction l1 as [|x l1 IH]; cbn.
  - split; [|by intros (_ & H & _)]. intros H. split; [constructor|]. split; [done|].
    intros a b Ha. by apply not_elem_of_nil in Ha.
  - split.
    + intros H. inversion_clear H as [|? ? H1 F]. apply IH in H1 as (H1 & H2 & H3).
      rewrite list.Forall_forall in F. split; [constructor; [done|]|].
      * apply list.Forall_forall. intros b Hb. apply F, elem_of_app. by left.
      * split; [done|]. intros a b [->|Ha]%elem_of_cons Hb; [|by apply H3].
        apply F, elem_of_app. by right.
    + intros (H1 & H2 & H3). inversion_clear H1 as [|? ? H1' F]. constructor.
      * apply IH. split; [done|]. split; [done|]. intros a b Ha Hb. apply H3; [by right|done].
      * apply list.Forall_forall. rewrite list.Forall_forall in F.
        intros b [Hb|Hb]%elem_of_app; [by apply F|]. apply H3; [by left|done].
Qed.

(** ** Changes that keep the lists *)

(** Fields that the invariant does not see. *)
Lemma good_same s s' xs fs :
  good s xs fs -> s_tasks s' = s_tasks s -> s_links s' = s_links s -> fd_queue s' = fd_queue s ->
  timeout_queue s' = timeout_queue s -> free_tasks s' = free_tasks s -> good s' xs fs.
Proof.
  intros [] E1 E2 E3 E4 E5. unfold timer, due, kind_of in *.
  split; unfold timer, due, kind_of; rewrite ?E1, ?E2, ?E3, ?E4, ?E5; done.
Qed.

(** The place of a traversal. *)
Lemma good_queue_cursor s l xs fs :
  good s xs fs -> rep (s_links s) l xs -> kept (timeout_queue s) l ->
  good (set_timeout_queue s (s_links s) l) xs fs.
Proof. intros [] R [K1 K2]. split; try done; cbn; rewrite ?K1, ?K2; done. Qed.

Lemma good_free_cursor s l xs fs :
  good s xs fs -> rep (s_links s) l fs -> kept (free_tasks s) l ->
  good (set_free_tasks s (s_links s) l) xs fs.
Proof. intros [] R [K1 K2]. split; try done; cbn; rewrite ?K1, ?K2; done. Qed.

(** Tasks whose kinds stay, but for the events of a descriptor. *)
Definition kind_like (k k' : option TaskKind) : Prop :=
  match k, k' with
  | Some (FdTask _ _ fd), Some (FdTask _ _ fd') => fd = fd'
  | _, _ => k = k'
  end.

Lemma kind_like_refl k : kind_like k k.
Proof. by destruct k as [[]|]. Qed.

Lemma good_tasks s m xs fs :
  good s xs fs -> (forall a, kind_like (kind_of s a) (t_kind <$> m !! a)) -> good (set_tasks s m) xs fs.
Proof.
  intros G H.
  assert (Ht : forall a, timer s a -> kind_of (set_tasks s m) a = kind_of s a).
  { intros a (tv & E & _)%timer_kind. specialize (H a). rewrite E in *.
    unfold kind_of. cbn. by destruct (t_kind <$> m !! a) as [[]|]. }
  assert (Hd : dom m = dom (s_tasks s)).
  { apply set_eq. intros a. rewrite !elem_of_dom. specialize (H a). unfold kind_of in H.
    destruct (s_tasks s !! a) as [t|], (m !! a) as [t'|]; try done; cbn in H.
    by destruct (t_kind t). }
  destruct G as [R1 R2 S1 S2 N T So F A Sz]. split; try done.
  - intros a Ha. eapply timer_ext; [by apply Ht, T|by apply T].
  - eapply sorted_ext; [|exact So]. intros a Ha. apply due_ext, Ht, T, elem_of_app. by left.
  - intros fd a E. destruct (F fd a E) as (e & r & Ek). specialize (H a). rewrite Ek in H.
    unfold kind_of. cbn. destruct (t_kind <$> m !! a) as [[|e' r' fd']|]; try done.
    exists e', r'. by rewrite H.
  - cbn. intros a t E. destruct (s_tasks s !! a) as [t'|] eqn:E'; [by eapply A|].
    apply not_elem_of_dom in E'. rewrite <- Hd, not_elem_of_dom, E in E'. done.
  - cbn. rewrite <- (size_dom (D := gset Z)), Hd, size_dom. done.
Qed.

Lemma kind_invalidate s a b : kind_of (invalidate s a) b = kind_of s b.
Proof.
  unfold kind_of, invalidate. cbn. destruct (decide (a = b)) as [->|]; [|by rewrite lookup_alter_ne].
  rewrite lookup_alter_eq. by destruct (s_tasks s !! b).
Qed.

Lemma good_invalidate s a xs fs : good s xs fs -> good (invalidate s a) xs fs.
Proof.
  intros G. apply good_tasks; [done|]. intros b.
  change (t_kind <$> alter invalid a (s_tasks s) !! b) with (kind_of (invalidate s a) b).
  rewrite kind_invalidate. apply kind_like_refl.
Qed.

Lemma live_invalidate s a b : live (invalidate s a) b <-> live s b /\ b <> a.
Proof.
  unfold live, invalidate. cbn. destruct (decide (a = b)) as [->|].
  - rewrite lookup_alter_eq. destruct (s_tasks s !! b); cbn; (split; [done|by intros []]).
  - rewrite lookup_alter_ne by done. split; [by intros|by intros []].
Qed.

(** ** Freeing a timer *)

Lemma good_forget s s' a xs fs xs' fs' :
  good s xs fs -> a :: xs' ++ fs' ≡ₚ xs ++ fs ->
  StronglySorted (fun b c => due s b <= due s c) xs' ->
  rep (s_links s') (timeout_queue s') xs' -> rep (s_links s') (free_tasks s') fs' ->
  prev_set (timeout_queue s') = false -> prev_set (free_tasks s') = false ->
  end_set (timeout_queue s') = false -> end_set (free_tasks s') = false ->
  s_tasks s' = delete a (s_tasks s) -> fd_queue s' = fd_queue s -> good s' xs' fs'.
Proof.
  intros [_ _ _ _ N T _ F A Sz] Hp So R1 R2 P1 P2 E1 E2 Et Ef.
  rewrite <- Hp in N. apply list.NoDup_cons in N as [Na N].
  assert (Hs : forall b, b <> a -> s_tasks s' !! b = s_tasks s !! b)
    by (intros b Hb; by rewrite Et, lookup_delete_ne).
  assert (Hk : forall b, b <> a -> kind_of s' b = kind_of s b)
    by (intros b Hb; unfold kind_of; by rewrite Hs).
  assert (Hin : forall b, b ∈ xs' ++ fs' -> b <> a) by (by intros b Hb ->).
  split; try done.
  - intros b Hb. eapply timer_ext; [by apply Hk, Hin|]. apply T. rewrite <- Hp. by right.
  - eapply sorted_ext; [|exact So]. intros b Hb. apply due_ext, Hk, Hin, elem_of_app. by left.
  - rewrite Ef. intros fd b Eb. destruct (F fd b Eb) as (e & r & Ek). exists e, r. rewrite Hk; [done|].
    intros ->. destruct (T a) as (t & tv & Eta & Ekt & _); [rewrite <- Hp; by left|].
    unfold kind_of in Ek. rewrite Eta in Ek. cbn in Ek. congruence.
  - rewrite Ef. intros b t Eb. assert (b <> a) by (intros ->; by rewrite Et, lookup_delete_eq in Eb).
    rewrite Hs in Eb by done. destruct (A b t Eb) as [Hb|]; [left|by right].
    rewrite <- Hp in Hb. by apply elem_of_cons in Hb as [?|?].
  - assert (size (s_tasks s') <= size (s_tasks s))%nat
      by (rewrite Et; apply map_subseteq_size, delete_subseteq).
    lia.
Qed.

(** ** Removing a timer *)

Lemma rep_disjoint_del s xs fs a :
  good s xs fs -> a ∈ xs ->
  exists s', remove_timeout s a = Ok s' /\ good s' (Lists.remove a xs) (fs ++ [a]) /\
    s_tasks s' = s_tasks s /\ fd_queue s' = fd_queue s /\ ticks s' = ticks s /\
    s_called s' = s_called s /\ s_valid s' = s_valid s /\ has_timeout s' = has_timeout s /\
    l_current (timeout_queue s') =
      (if bool_decide (l_current (timeout_queue s) = Some a) then after a xs
       else l_current (timeout_queue s)).
Proof.
  intros G Ha. pose proof (lists_size _ _ _ G) as Hz. destruct G as [R1 R2 [S1 S2] [E1 E2] N T So F A Sz].
  pose proof N as (N1 & N2 & N3)%list.NoDup_app.
  destruct (list_del_ok _ _ _ a R1) as (h1 & l1 & D & R1' & [K1 K2] & C).
  unfold remove_timeout. rewrite D. cbn [obind fueled set_timeout_queue s_links free_tasks].
  assert (R2' : rep h1 (free_tasks s) fs).
  { eapply rep_frame; [exact R2|done|]. intros x Hx. eapply del_frame; [exact R1|done|exact D|].
    intros Hx'. by apply (N2 x). }
  assert (Haf : a ∉ fs) by (intros H; by apply (N2 a)).
  assert (1 <= zlen xs).
  { destruct xs; [by apply not_elem_of_nil in Ha|]. rewrite zlen_cons. zlen_facts. lia. }
  pose proof (list_add_ok h1 (free_tasks s) fs a R2' Haf ltac:(zlen_facts; lia)) as Add.
  pose proof (fun x => add_frame h1 (free_tasks s) a x) as Fr.
  destruct (silc_list_add h1 (free_tasks s) a) as [h2 l2]. destruct Add as (R2'' & C2 & K3 & K4).
  eexists. split; [reflexivity|].
  assert (Hin : forall x, x ∈ Lists.remove a xs <-> x <> a /\ x ∈ xs)
    by (intros x; unfold Lists.remove; by rewrite list_elem_of_filter).
  assert (R1'' : rep h2 l1 (Lists.remove a xs)).
  { eapply rep_frame; [exact R1'|by rewrite K1|]. intros x [Hx1 Hx2]%Hin. apply Fr; [done|].
    rewrite (rep_tail _ _ _ R2'). intros E%last_Some_elem_of. by apply (N2 x). }
  assert (Hp : xs ≡ₚ a :: Lists.remove a xs).
  { apply list_elem_of_split in Ha as (l3 & l4 & ->). rewrite remove_spot by done.
    by rewrite Permutation_middle. }
  split.
  - split; cbn; try done.
    + by rewrite K1, K3.
    + by rewrite K2, K4.
    + rewrite Hp in N. cbn in N. by rewrite app_assoc, <- Permutation_cons_append.
    + intros x Hx. apply T. rewrite !elem_of_app in *. rewrite list_elem_of_singleton, Hin in Hx.
      destruct Hx as [[_ ?]|[?| ->]]; auto.
    + clear -So Ha N1. apply list_elem_of_split in Ha as (l3 & l4 & ->). rewrite remove_spot by done.
      apply sorted_app in So as (So1 & So2 & So3). apply sorted_app.
      inversion_clear So2. split; [done|]. split; [done|].
      intros x y Hx Hy. apply So3; [done|by right].
    + intros x t Ex. destruct (A x t Ex) as [Hx|Hx]; [left|by right].
      rewrite Hp in Hx. rewrite !elem_of_app, elem_of_cons in Hx. rewrite !elem_of_app, list_elem_of_singleton. tauto.
  - repeat split. cbn. rewrite C. apply if_decide_ext. split; [by intros []|done].
Qed.

(** ** Adding a timer *)

Lemma rep_ne_last (l1 l2 : list Z) a : a ∉ l1 ++ l2 -> last l1 <> Some a.
Proof. intros H E%last_Some_elem_of. apply H, elem_of_app. by left. Qed.

Lemma insert_at_last (l1 l2 : list Z) a : NoDup (l1 ++ l2) -> insert_at (last l1) a (l1 ++ l2) = l1 ++ a :: l2.
Proof.
  induction l1 as [|c l1 _] using rev_ind; [done|]. rewrite last_snoc, <- !app_assoc. cbn.
  intros Hd. induction l1 as [|x l1 IH]; cbn; [by rewrite Z.eqb_refl|].
  apply list.NoDup_cons in Hd as [Hx Hd]. destruct (Z.eqb_spec x c) as [->|].
  - destruct Hx. apply elem_of_app. right. left.
  - f_equal. by apply IH.
Qed.

(** The search: the timers up to the spot are due no later, the next one is. *)
Lemma find_spot_ok s timeout : proper timeout -> forall P N l fuel,
  rep (s_links s) l (N ++ P) -> end_set l = false -> l_current l = head P ->
  (forall a, a ∈ P -> timer s a) -> (length P <= fuel)%nat ->
  exists P1 P2, P = P1 ++ P2 /\
    find_spot fuel s l timeout (last N) = Ok (last (N ++ P1), bool_decide (P2 <> [])) /\
    (forall a, a ∈ P1 -> due s a <= usecs timeout) /\
    (forall a, head P2 = Some a -> usecs timeout < due s a).
Proof.
  intros Hp. induction P as [|b P IH]; intros N l fuel R He Hc HT Hf.
  { exists [], []. split; [done|]. rewrite app_nil_r. split; [|split; [|done]].
    - destruct fuel; cbn [find_spot]; unfold silc_list_get; by rewrite Hc.
    - intros a Ha. by apply not_elem_of_nil in Ha. }
  destruct fuel as [|fuel]; [cbn in Hf; lia|]. cbn [find_spot].
  pose proof (list_get_ok _ _ _ R ltac:(by rewrite He)) as G.
  destruct (silc_list_get (s_links s) l) as [l' r]. destruct G as (R' & [K1 K2] & -> & C).
  rewrite Hc in *. cbn [list.head] in *. cbv beta iota. cbn in C. rewrite He in C.
  assert (Hn : after b (N ++ b :: P) = head P) by (apply spot_after, (rep_nodup _ _ _ R)).
  cbn in C. rewrite Hn in C.
  destruct (HT b ltac:(by left)) as (t & tv & Et & Ek & Hpt).
  unfold task_at. rewrite Et. cbn [obind]. rewrite Ek.
  assert (Hdue : due s b = usecs tv) by (unfold due, kind_of; by rewrite Et; cbn; rewrite Ek).
  destruct (compare_spec timeout tv Hp Hpt) as [Hlt _].
  destruct (silc_compare_timeval timeout tv <? 0) eqn:E.
  - exists [], (b :: P). rewrite app_nil_r. split; [done|]. split; [by rewrite bool_decide_true|].
    split; [intros a Ha; by apply not_elem_of_nil in Ha|]. intros a [= <-]. lia.
  - replace (Some b) with (last (N ++ [b])) by by rewrite last_snoc.
    destruct (IH (N ++ [b]) l' fuel) as (P1 & P2 & -> & F & H1 & H2);
      [by rewrite <- app_assoc|by rewrite K2|done|intros a Ha; apply HT; by right|cbn in Hf; lia|].
    exists (b :: P1), P2. split; [done|]. rewrite F, <- app_assoc. split; [done|]. split; [|done].
    intros a [->|Ha]%elem_of_cons; [lia|auto].
Qed.

(** A task that is in no list is put into the queue. *)
Lemma link_timer s s1 xs fs fs1 a t tv :
  good s xs fs ->
  (fs ≡ₚ a :: fs1 \/ fs1 = fs /\ s_tasks s !! a = None) ->
  rep (s_links s1) (timeout_queue s) xs -> rep (s_links s1) (free_tasks s1) fs1 ->
  prev_set (free_tasks s1) = false -> end_set (free_tasks s1) = false ->
  t_kind t = TimeoutTask tv -> proper tv ->
  s_tasks s1 = <[a := t]> (s_tasks s) -> timeout_queue s1 = timeout_queue s ->
  fd_queue s1 = fd_queue s -> Z.of_nat (size (s_tasks s1)) < 1073741824 ->
  exists prev found l1 l2,
    find_spot (Z.to_nat (silc_list_count (silc_list_start (timeout_queue s1)))) s1
      (silc_list_start (timeout_queue s1)) tv None = Ok (prev, found) /\
    xs = l1 ++ l2 /\ (a ∉ xs) /\
    (forall b, b ∈ l1 -> due s b <= usecs tv) /\ (forall b, b ∈ l2 -> usecs tv < due s b) /\
    let '(h, l) := if found then silc_list_insert (s_links s1) (timeout_queue s1) prev a
                   else silc_list_add (s_links s1) (timeout_queue s1) a in
    good (set_timeout_queue s1 h l) (l1 ++ a :: l2) fs1 /\
    l_current l = l_current (timeout_queue s).
Proof.
  intros G Hfs R1 R2 P2 E2 Hk Hp Et Eq Ef Hsz.
  destruct G as [_ _ [S1 _] [E1 _] N T So F A Sz].
  pose proof N as (N1 & N2 & N3)%list.NoDup_app.
  assert (Hax : (a ∉ xs) /\ (a ∉ fs1)).
  { destruct Hfs as [Hfs|[-> Hn]].
    - rewrite Hfs in N. split.
      + intros H. apply (N2 a H). rewrite Hfs. by left.
      + rewrite Hfs in N3. by apply list.NoDup_cons in N3 as [? _].
    - assert (a ∉ xs ++ fs) by (intros (t' & tv' & E & _)%T; by rewrite Hn in E).
      by rewrite elem_of_app in H; split; intros Hx; apply H; [left|right]. }
  destruct Hax as [Hax Haf].
  assert (Hks : forall b, b <> a -> kind_of s1 b = kind_of s b)
    by (intros b Hb; unfold kind_of; by rewrite Et, lookup_insert_ne).
  assert (Hka : kind_of s1 a = Some (TimeoutTask tv))
    by (unfold kind_of; rewrite Et, lookup_insert_eq; cbn; by rewrite Hk).
  assert (Hin : forall b, b ∈ xs -> b <> a) by (intros b Hb ->; done).
  assert (Hxs : forall b, b ∈ xs -> timer s1 b).
  { intros b Hb. eapply timer_ext; [by apply Hks, Hin|]. apply T, elem_of_app. by left. }
  assert (Hsub : forall b, b ∈ fs1 -> b ∈ fs).
  { intros b Hb. destruct Hfs as [->|[-> _]]; [by right|done]. }
  rewrite Eq. pose proof (list_start_ok _ _ _ R1) as Rs.
  destruct (find_spot_ok s1 tv Hp xs [] (silc_list_start (timeout_queue s))
    (Z.to_nat (silc_list_count (silc_list_start (timeout_queue s))))) as (l1 & l2 & -> & Fs & H1 & H2);
    [done|done|apply (rep_head _ _ _ R1)|done| |].
  { unfold silc_list_count. rewrite (rep_count _ _ _ Rs). unfold zlen. lia. }
  cbn [app list.last] in Fs. exists (last l1), (bool_decide (l2 <> [])), l1, l2.
  split; [exact Fs|]. split; [done|]. split; [done|].
  assert (D1 : forall b, b ∈ l1 -> due s b <= usecs tv).
  { intros b Hb. rewrite <- (due_ext s s1) by by apply Hks, Hin, elem_of_app; left. auto. }
  assert (D2 : forall b, b ∈ l2 -> usecs tv < due s b).
  { apply sorted_app in So as (_ & So2 & _). intros b Hb. destruct l2 as [|c l2]; [by apply not_elem_of_nil in Hb|].
    specialize (H2 c eq_refl).
    rewrite (due_ext s s1) in H2 by (apply Hks, Hin, elem_of_app; right; by left).
    apply elem_of_cons in Hb as [->|Hb]; [done|]. inversion_clear So2 as [|? ? _ Fa].
    rewrite list.Forall_forall in Fa. specialize (Fa b Hb). lia. }
  split; [done|]. split; [done|].
  assert (Hlen : zlen (l1 ++ l2) < 1073741823).
  { unfold zlen. enough (S (length (l1 ++ l2)) <= size (s_tasks s1))%nat by lia.
    change (S (length (l1 ++ l2))) with (length (a :: l1 ++ l2)).
    rewrite <- (size_list_to_set (C := gset Z)) by by apply list.NoDup_cons.
    rewrite <- (size_dom (D := gset Z)). apply subseteq_size. intros b.
    rewrite elem_of_list_to_set, elem_of_cons, elem_of_dom, Et.
    intros [->|Hb]; [by rewrite lookup_insert_eq|]. rewrite lookup_insert_ne by (intros ->; done).
    destruct (T b) as (t' & ? & E' & _); [apply elem_of_app; by left|by rewrite E']. }
  assert (L : let '(h, l) := if bool_decide (l2 <> []) then silc_list_insert (s_links s1) (timeout_queue s) (last l1) a
                   else silc_list_add (s_links s1) (timeout_queue s) a in
    rep h l (l1 ++ a :: l2) /\ l_current l = l_current (timeout_queue s) /\ kept (timeout_queue s) l /\
    forall x, x ∈ fs1 -> next_of h x = next_of (s_links s1) x).
  { assert (Hne : forall x, x ∈ fs1 -> x <> a /\ x ∉ l1 ++ l2).
    { intros x Hx. split; [by intros ->|]. intros Hx'. by apply (N2 x Hx'), Hsub. }
    case_bool_decide as El.
    - pose proof (list_insert_ok _ _ _ (last l1) a R1 Hax Hlen) as I.
      pose proof (fun x => insert_frame (s_links s1) (timeout_queue s) (last l1) a x) as Fr.
      destruct (silc_list_insert _ _ _ _) as [h l].
      destruct I as (R' & C & K); [intros x Ex; apply elem_of_app; left; by apply last_Some_elem_of|].
      rewrite insert_at_last in R' by done. split; [done|]. split; [done|]. split; [done|].
      intros x Hx. apply Fr; [apply Hne, Hx|]. apply (rep_ne_last _ l2), Hne, Hx.
    - assert (l2 = []) as -> by (destruct l2; [done|by destruct El]).
      pose proof (list_add_ok _ _ _ a R1 Hax Hlen) as I.
      pose proof (fun x => add_frame (s_links s1) (timeout_queue s) a x) as Fr.
      destruct (silc_list_add _ _ _) as [h l]. destruct I as (R' & C & K).
      rewrite app_nil_r in *. split; [done|]. split; [done|]. split; [done|].
      intros x Hx. apply Fr; [apply Hne, Hx|]. rewrite (rep_tail _ _ _ R1).
      apply (rep_ne_last _ []). rewrite app_nil_r. apply Hne, Hx. }
  destruct (if bool_decide (l2 <> []) then _ else _) as [h l]. destruct L as (R' & C & [K1 K2] & Fr).
  split; [|done]. split; cbn; try done.
  - by eapply rep_frame.
  - by rewrite K1.
  - by rewrite K2.
  - rewrite <- app_assoc. cbn [app]. rewrite <- Permutation_middle, app_assoc. apply list.NoDup_cons.
    split; [by rewrite elem_of_app; intros [?|?]|].
    apply list.NoDup_app. split; [done|]. split; [intros x Hx Hx'; by apply (N2 x), Hsub|].
    destruct Hfs as [Hfs|[-> _]]; [|done]. rewrite Hfs in N3. by apply list.NoDup_cons in N3 as [_ ?].
  - intros x Hx. destruct (decide (x = a)) as [->|Hxa].
    { apply timer_kind. eexists. by split. }
    eapply (timer_ext s); [by apply Hks|]. apply T.
    rewrite !elem_of_app, elem_of_cons in Hx.
    rewrite !elem_of_app. destruct Hx as [[?|[?|?]]|?%Hsub]; tauto.
  - assert (Da : due s1 a = usecs tv) by (unfold due; by rewrite Hka).
    apply (sorted_ext (fun b => if b =? a then usecs tv else due s b)).
    { intros b Hb. change (due (set_timeout_queue s1 h l) b) with (due s1 b).
      destruct (Z.eqb_spec b a) as [->|]; [done|]. by apply due_ext, Hks. }
    assert (Hsame : forall b, b ∈ l1 ++ l2 -> (b =? a) = false) by (intros b Hb; by apply Z.eqb_neq, Hin).
    apply sorted_app in So as (So1 & So2 & So3). apply sorted_app.
    assert (Hsame1 : forall b, b ∈ l1 -> (b =? a) = false) by (intros; apply Hsame, elem_of_app; by left).
    assert (Hsame2 : forall b, b ∈ l2 -> (b =? a) = false) by (intros; apply Hsame, elem_of_app; by right).
    split; [eapply sorted_ext; [|exact So1]; intros b Hb; by rewrite Hsame1|].
    split.
    + constructor; [eapply sorted_ext; [|exact So2]; intros b Hb; by rewrite Hsame2|].
      apply list.Forall_forall. intros b Hb. rewrite Z.eqb_refl, Hsame2 by done.
      specialize (D2 b Hb). lia.
    + intros b c Hb Hc. rewrite (Hsame1 b Hb). apply elem_of_cons in Hc as [->|Hc].
      * rewrite Z.eqb_refl. auto.
      * rewrite Hsame2 by done. auto.
  - rewrite Ef. intros fd b Eb. destruct (F fd b Eb) as (e & r & E). exists e, r.
    change (kind_of s1 b = Some (FdTask e r fd)). rewrite Hks; [done|]. intros ->.
    destruct Hfs as [Hfs|[_ Hn]]; [|by unfold kind_of in E; rewrite Hn in E].
    destruct (T a) as (t' & tv' & E' & Ek' & _); [rewrite Hfs; set_solver|].
    unfold kind_of in E. rewrite E' in E. cbn in E. congruence.
  - rewrite Et, Ef. intros b t' Eb. destruct (decide (b = a)) as [->|Hb].
    { left. rewrite !elem_of_app, elem_of_cons. tauto. }
    rewrite lookup_insert_ne in Eb by done. destruct (A b t' Eb) as [Hx|Hx]; [left|by right].
    rewrite !elem_of_app, elem_of_cons in *. destruct Hx as [?|Hx]; [tauto|].
    destruct Hfs as [Hfs|[-> _]]; [|tauto]. rewrite Hfs in Hx. apply elem_of_cons in Hx as [?|?]; tauto.
Qed.

(** ** The place of a dispatch *)

(** A traversal of the queue is under way: of what it has passed nothing live is
    due before [T], and nothing that is to come is due before [K]. *)
Definition placed (T K : Z) (s : Schedule) (xs : list Z) : Prop :=
  exists N P, xs = N ++ P /\ l_current (timeout_queue s) = head P /\
    (forall a, a ∈ N -> live s a -> T <= due s a) /\ (forall a, a ∈ P -> K <= due s a).

Lemma elem_mid (b a : Z) k1 k2 : b ∈ k1 ++ a :: k2 -> b <> a -> b ∈ k1 ++ k2.
Proof. rewrite !elem_of_app, elem_of_cons. tauto. Qed.

Section Thms.
Variable clock : nat -> timeval.
Variable alloc : gmap Z Task -> option Z.
Variable schedule_fd : Z -> Z -> bool.
(** Time does not go back; it is before the year 2004 for the sums to be below 2^31
    seconds, the bound of the comparison. *)
Hypothesis clock_proper : forall n, proper (clock n) /\ tv_sec (clock n) < 1073741824.
Hypothesis clock_mono : forall n, usecs (clock n) <= usecs (clock (S n)).
(** Memory that is returned was free, and there is not enough for 2^30 tasks. *)
Hypothesis alloc_fresh : forall m a, alloc m = Some a -> m !! a = None /\ Z.of_nat (size m) < 1073741823.

Lemma clock_le n m : (n <= m)%nat -> usecs (clock n) <= usecs (clock m).
Proof. induction 1 as [|m H IH]; [lia|]. pose proof (clock_mono m). lia. Qed.

Definition now (s : Schedule) : Z := usecs (clock (ticks s)).

(** What any call leaves of the state: the timers there are stay with their times, a
    timer that is not live does not become so, a scheduler that was stopped stays
    so, and a traversal that is under way keeps its place. *)
Record evolves (s : Schedule) (xs : list Z) (s' : Schedule) (xs' : list Z) : Prop := mkEvolves {
  e_ticks : (ticks s <= ticks s')%nat;
  e_called : s_called s' = s_called s;
  e_select : has_timeout s' = has_timeout s;
  e_stopped : s_valid s = false -> s_valid s' = false;
  e_kept : forall a, a ∈ xs -> a ∈ xs' /\ kind_of s' a = kind_of s a /\ (live s' a -> live s a);
  e_place : forall T K, K <= T <= now s \/ s_valid s = false -> placed T K s xs -> placed T K s' xs'
}.

Lemma evolves_refl s xs : evolves s xs s xs.
Proof. by split. Qed.

Lemma evolves_trans s1 xs1 s2 xs2 s3 xs3 :
  evolves s1 xs1 s2 xs2 -> evolves s2 xs2 s3 xs3 -> evolves s1 xs1 s3 xs3.
Proof.
  intros [T1 C1 B1 V1 K1 P1] [T2 C2 B2 V2 K2 P2]. split; [lia|congruence|congruence|auto| |].
  - intros a Ha. destruct (K1 a Ha) as (H1 & H2 & H3), (K2 a) as (H4 & H5 & H6); [apply K1, Ha|].
    split; [done|]. split; [congruence|auto].
  - intros T K H HP. apply P2, P1; [|done..]. destruct H as [H|H]; [left|right; auto].
    pose proof (clock_le _ _ T1). unfold now in *. lia.
Qed.

(** A change of tasks other than the timers of the queue, or of their validity. *)
Lemma evolves_same s s' xs :
  (ticks s <= ticks s')%nat -> s_called s' = s_called s -> has_timeout s' = has_timeout s ->
  (s_valid s = false -> s_valid s' = false) ->
  l_current (timeout_queue s') = l_current (timeout_queue s) ->
  (forall a, a ∈ xs -> kind_of s' a = kind_of s a /\ (live s' a -> live s a)) ->
  evolves s xs s' xs.
Proof.
  intros H1 H2 Hs H3 H4 H5. split; try done; [intros a Ha; split; [done|auto]|].
  intros T K _ (N & P & -> & C & HN & HP). exists N, P. split; [done|]. split; [congruence|].
  assert (Hd : forall a, a ∈ N ++ P -> due s' a = due s a) by (intros a Ha; apply due_ext, H5, Ha).
  split; intros a Ha.
  - intros Hl. rewrite Hd by (apply elem_of_app; by left). apply HN; [done|].
    apply H5; [apply elem_of_app; by left|done].
  - rewrite Hd by (apply elem_of_app; by right). auto.
Qed.

(** A timer that is added is due at the current time or later. *)
Lemma evolves_insert s s' l1 l2 a :
  NoDup (l1 ++ l2) -> (a ∉ l1 ++ l2) ->
  (ticks s <= ticks s')%nat -> s_called s' = s_called s -> has_timeout s' = has_timeout s ->
  s_valid s' = s_valid s -> s_valid s = true -> l_current (timeout_queue s') = l_current (timeout_queue s) ->
  (forall b, b ∈ l1 ++ l2 -> s_tasks s' !! b = s_tasks s !! b) ->
  now s <= due s' a ->
  evolves s (l1 ++ l2) s' (l1 ++ a :: l2).
Proof.
  intros Nd Na H1 H2 Hs H3 Hv H4 H5 H6. split; try done; [by rewrite H3|intros b Hb; split|].
  { rewrite elem_of_app, elem_of_cons. rewrite elem_of_app in Hb. tauto. }
  { unfold kind_of, live. by rewrite H5. }
  intros T K [HT|HT]; [|by rewrite Hv in HT]. intros (N & P & E & C & HN & HP).
  assert (Hd : forall b, b ∈ l1 ++ l2 -> due s' b = due s b /\ (live s' b -> live s b))
    by (intros b Hb; unfold due, kind_of, live; by rewrite H5).
  assert (HN' : forall b, b ∈ N -> live s' b -> T <= due s' b).
  { intros b Hb. assert (Hb' : b ∈ l1 ++ l2) by (rewrite E; apply elem_of_app; by left).
    destruct (Hd b Hb') as [-> Hl]. intros Hl'. by apply HN, Hl. }
  assert (HP' : forall b, b ∈ P -> K <= due s' b).
  { intros b Hb. assert (Hb' : b ∈ l1 ++ l2) by (rewrite E; apply elem_of_app; by right).
    destruct (Hd b Hb') as [-> _]. auto. }
  apply app_eq_app in E as (k & [[-> ->]|[-> ->]]).
  - destruct k as [|c k].
    + rewrite app_nil_r in *. cbn in *. exists (N ++ [a]), l2. rewrite <- app_assoc. split; [done|].
      split; [congruence|]. split; [|done].
      intros b [Hb|Hb]%elem_of_app; [auto|]. apply list_elem_of_singleton in Hb as ->. lia.
    + exists N, (c :: k ++ a :: l2). rewrite <- app_assoc. cbn. split; [done|].
      split; [rewrite H4, C; done|]. split; [done|].
      intros b Hb. destruct (decide (b = a)) as [->|Hba]; [lia|]. by apply HP', (elem_mid b a (c :: k)).
  - exists (l1 ++ a :: k), P. rewrite <- app_assoc. cbn. split; [done|].
    split; [congruence|]. split; [|done].
    intros b Hb Hl. destruct (decide (b = a)) as [->|Hba]; [lia|]. apply HN'; [|done]. by apply (elem_mid b a).
Qed.

(** *** [silc_schedule_task_add] *)

Lemma free_get s xs fs :
  good s xs fs ->
  let s0 := set_free_tasks s (s_links s) (silc_list_start (free_tasks s)) in
  let '(fl, r) := silc_list_get (s_links s0) (free_tasks s0) in
  let s1 := set_free_tasks s0 (s_links s0) fl in
  good s1 xs fs /\ r = head fs.
Proof.
  intros G s0. pose proof (g_forward _ _ _ G) as [_ E2].
  pose proof (list_start_ok _ _ _ (g_free _ _ _ G)) as R.
  pose proof (list_get_ok _ _ _ R ltac:(done)) as Gt. subst s0. cbn [set_free_tasks s_links free_tasks].
  destruct (silc_list_get (s_links s) (silc_list_start (free_tasks s))) as [fl r].
  destruct Gt as (R' & [K1 K2] & -> & _). split.
  - eapply good_same; [apply (good_free_cursor s fl); [exact G|exact R'|]|reflexivity..].
    split; [exact K1|]. rewrite E2. exact K2.
  - apply (rep_head _ _ _ (g_free _ _ _ G)).
Qed.

Lemma add_timeout_ok s xs fs callback context seconds useconds :
  good s xs fs -> s_valid s = true -> delay_ok seconds useconds ->
  exists s' r xs' fs', add_timeout clock alloc s callback context seconds useconds = Ok (s', r) /\
    good s' xs' fs' /\ evolves s xs s' xs' /\ s_valid s' = true /\
    match r with
    | Some a =>
        exists l1 l2, xs = l1 ++ l2 /\ xs' = l1 ++ a :: l2 /\ live s' a /\
          due s' a = now s + (seconds * 1000000 + useconds) /\
          (forall b, b ∈ l1 -> due s b <= due s' a) /\ (forall b, b ∈ l2 -> due s' a < due s b)
    | None => xs' = xs /\ fs' = fs
    end.
Proof.
  intros G Hv Hd. unfold add_timeout. pose proof (free_get s xs fs G) as F. cbn zeta in F.
  destruct (silc_list_get _ _) as [fl r]. destruct F as [G1 ->].
  set (s1 := set_free_tasks (set_free_tasks s (s_links s) (silc_list_start (free_tasks s)))
               (s_links (set_free_tasks s (s_links s) (silc_list_start (free_tasks s)))) fl) in *.
  destruct (add_timeval_ok (clock (ticks s)) seconds useconds) as [Hp Hu];
    [apply clock_proper|apply clock_proper|done|].
  set (tv := add_timeval (clock (ticks s)) seconds useconds) in *.
  set (t := mkTask callback context true (TimeoutTask tv)).
  enough (Link : forall a s2 fs1,
    (fs ≡ₚ a :: fs1 \/ fs1 = fs /\ s_tasks s !! a = None) ->
    rep (s_links s2) (timeout_queue s) xs -> rep (s_links s2) (free_tasks s2) fs1 ->
    prev_set (free_tasks s2) = false -> end_set (free_tasks s2) = false ->
    s_tasks s2 = s_tasks s -> timeout_queue s2 = timeout_queue s -> fd_queue s2 = fd_queue s ->
    ticks s2 = ticks s -> s_called s2 = s_called s -> has_timeout s2 = has_timeout s ->
    s_valid s2 = s_valid s -> Z.of_nat (size (<[a := t]> (s_tasks s))) < 1073741824 ->
    exists s' r xs' fs',
      (let '(now, s) := gettimeofday clock s2 in
       let timeout := add_timeval now seconds useconds in
       let s := set_tasks s (<[a := mkTask callback context true (TimeoutTask timeout)]> (s_tasks s)) in
       let list := silc_list_start (timeout_queue s) in
       let* (prev, found) := find_spot (Z.to_nat (silc_list_count list)) s list timeout None in
       let '(h, l) :=
         if found then silc_list_insert (s_links s) (timeout_queue s) prev a
         else silc_list_add (s_links s) (timeout_queue s) a in
       Ok (set_timeout_queue s h l, Some a)) = Ok (s', r) /\
      good s' xs' fs' /\ evolves s xs s' xs' /\ s_valid s' = true /\
      match r with
      | Some a =>
          exists l1 l2, xs = l1 ++ l2 /\ xs' = l1 ++ a :: l2 /\ live s' a /\
            due s' a = now s + (seconds * 1000000 + useconds) /\
            (forall b, b ∈ l1 -> due s b <= due s' a) /\ (forall b, b ∈ l2 -> due s' a < due s b)
      | None => xs' = xs /\ fs' = fs
      end).
  { destruct fs as [|a fs1]; cbn [head list.head].
    - cbn [obind]. change (s_tasks s1) with (s_tasks s).
      destruct (alloc (s_tasks s)) as [a|] eqn:Ea.
      + destruct (alloc_fresh _ _ Ea) as [Hn Hsz].
        apply (Link a s1 []); try reflexivity; [by right|apply (g_queue _ _ _ G)|apply (g_free _ _ _ G1)|
          apply (g_single _ _ _ G1)|apply (g_forward _ _ _ G1)|].
        rewrite map_size_insert_None by done. lia.
      + exists s1, None, xs, []. split; [done|]. split; [done|]. split; [|done].
        by apply evolves_same.
    - destruct (list_del_ok _ _ _ a (g_free _ _ _ G1)) as (h & l & D & R' & [K1 K2] & _).
      pose proof (g_nodup _ _ _ G) as (_ & N2 & N3)%list.NoDup_app.
      rewrite D. cbn [obind fueled].
      rewrite (remove_spot a [] fs1 N3 : Lists.remove a (a :: fs1) = fs1) in R'.
      apply (Link a (set_free_tasks s1 h l) fs1); try reflexivity.
      + by left.
      + eapply rep_frame; [apply (g_queue _ _ _ G)|apply (g_single _ _ _ G)|].
        intros x Hx. eapply (del_frame _ _ (a :: fs1)); [apply (g_free _ _ _ G1)|apply (g_single _ _ _ G1)|exact D|].
        by apply N2.
      + exact R'.
      + cbn. rewrite K1. apply (g_single _ _ _ G1).
      + cbn. rewrite K2. apply (g_forward _ _ _ G1).
      + rewrite map_size_insert_Some; [apply (g_size _ _ _ G)|].
        destruct (g_timers _ _ _ G a) as (t' & ? & -> & _); [|by eexists].
        apply elem_of_app. right. by left. }
  clear fl s1 G1. intros a s2 fs1 Hfs R1 R2 P2 E2 Et Eq Ef Etk Ec Eh Ev Hsz.
  cbn [gettimeofday]. rewrite Etk. fold tv. fold t.
  set (s3 := set_tasks (tick s2) (<[a := t]> (s_tasks (tick s2)))).
  destruct (link_timer s s3 xs fs fs1 a t tv) as (prev & found & l1 & l2 & Fs & -> & Hax & D1 & D2 & L);
    try done; [by cbn; rewrite Et|by cbn; rewrite Et|].
  rewrite Fs. cbn [obind]. change (timeout_queue s3) with (timeout_queue s2).
  change (timeout_queue s3) with (timeout_queue s2) in L.
  destruct (if found then _ else _) as [h l] eqn:El. destruct L as [G' C].
  exists (set_timeout_queue s3 h l), (Some a), (l1 ++ a :: l2), fs1.
  split; [done|]. split; [done|].
  assert (Ha : s_tasks s3 !! a = Some t) by (cbn; rewrite Et; apply lookup_insert_eq).
  assert (Hda : due (set_timeout_queue s3 h l) a = usecs tv).
  { unfold due, kind_of. change (s_tasks (set_timeout_queue s3 h l)) with (s_tasks s3). by rewrite Ha. }
  split; [|split; [cbn; congruence|]].
  - apply evolves_insert; try done.
    + apply (list.NoDup_app (l1 ++ l2) fs), G.
    + cbn. lia.
    + intros b Hb. cbn. rewrite Et, lookup_insert_ne; [done|]. by intros ->.
    + rewrite Hda, Hu. unfold now. destruct Hd as (? & ? & ?). lia.
  - exists l1, l2. split; [done|]. split; [done|].
    split; [unfold live; change (s_tasks (set_timeout_queue s3 h l)) with (s_tasks s3); by rewrite Ha|].
    split; [rewrite Hda; exact Hu|]. rewrite Hda. split; [exact D1|exact D2].
Qed.

(** *** Tasks of descriptors *)

Lemma queue_not_fd s xs fs a e r fd :
  good s xs fs -> kind_of s a = Some (FdTask e r fd) -> a ∉ xs ++ fs.
Proof. intros G E (tv & E' & _)%(g_timers _ _ _ G)%timer_kind. congruence. Qed.

Lemma hash_del_ok s xs fs fd :
  good s xs fs -> good (hash_del s fd) xs fs /\ evolves s xs (hash_del s fd) xs /\
  fd_queue (hash_del s fd) !! fd = None.
Proof.
  intros G. unfold hash_del. destruct (fd_queue s !! fd) as [a|] eqn:E; [|split; [exact G|split; [apply evolves_refl|exact E]]].
  destruct (g_fds _ _ _ G fd a E) as (e & r & Ek). pose proof (queue_not_fd _ _ _ _ _ _ _ G Ek) as Hx.
  set (s' := set_fd_queue _ _).
  assert (Hs : forall b, b <> a -> s_tasks s' !! b = s_tasks s !! b)
    by (intros b Hb; by apply lookup_delete_ne).
  assert (Hk : forall b, b <> a -> kind_of s' b = kind_of s b)
    by (intros b Hb; unfold kind_of; by rewrite Hs).
  assert (Hl : forall b, b ∈ xs ++ fs -> b <> a) by (by intros b Hb ->).
  destruct G as [R1 R2 S1 S2 N T So F A Sz]. split; [|split].
  - split; try done.
    + intros b Hb. eapply timer_ext; [by apply Hk, Hl|auto].
    + eapply sorted_ext; [|exact So]. intros b Hb. apply due_ext, Hk, Hl, elem_of_app. by left.
    + intros fd' b Eb. cbn in Eb. destruct (decide (fd' = fd)) as [->|]; [by rewrite lookup_delete_eq in Eb|].
      rewrite lookup_delete_ne in Eb by done. destruct (F fd' b Eb) as (e' & r' & Eb'). exists e', r'.
      rewrite Hk; [done|]. intros ->. congruence.
    + intros b t Eb. assert (b <> a) by (intros ->; cbn in Eb; by rewrite lookup_delete_eq in Eb).
      rewrite Hs in Eb by done. destruct (A b t Eb) as [?|[fd' Ef]]; [by left|]. right. exists fd'.
      cbn. rewrite lookup_delete_ne; [done|]. intros ->. congruence.
    + cbn. rewrite map_size_delete_Some; [lia|].
      unfold kind_of in Ek. destruct (s_tasks s !! a); [by eexists|done].
  - apply evolves_same; try done. intros b Hb.
    assert (b <> a) by (apply Hl, elem_of_app; by left). split; [by apply Hk|].
    unfold live. by rewrite Hs.
  - cbn. apply lookup_delete_eq.
Qed.

Lemma fd_insert_ok s xs fs a fd callback context :
  good s xs fs -> s_tasks s !! a = None -> fd_queue s !! fd = None ->
  Z.of_nat (size (s_tasks s)) < 1073741823 ->
  let t := mkTask callback context true (FdTask SILC_TASK_READ 0 fd) in
  let s' := set_fd_queue (set_tasks s (<[a := t]> (s_tasks s))) (<[fd := a]> (fd_queue s)) in
  good s' xs fs /\ evolves s xs s' xs.
Proof.
  intros G Ea Ef Hsz t s'.
  assert (Hs : forall b, b <> a -> s_tasks s' !! b = s_tasks s !! b)
    by (intros b Hb; by apply lookup_insert_ne).
  assert (Hk : forall b, b <> a -> kind_of s' b = kind_of s b)
    by (intros b Hb; unfold kind_of; by rewrite Hs).
  assert (Hl : forall b, b ∈ xs ++ fs -> b <> a).
  { intros b Hb ->. destruct (g_timers _ _ _ G a Hb) as (? & ? & E & _). congruence. }
  destruct G as [R1 R2 S1 S2 N T So F A Sz]. split.
  - split; try done.
    + intros b Hb. eapply timer_ext; [by apply Hk, Hl|auto].
    + eapply sorted_ext; [|exact So]. intros b Hb. apply due_ext, Hk, Hl, elem_of_app. by left.
    + intros fd' b Eb. cbn in Eb. destruct (decide (fd' = fd)) as [->|].
      * rewrite lookup_insert_eq in Eb. injection Eb as <-. exists SILC_TASK_READ, 0.
        unfold kind_of. cbn. by rewrite lookup_insert_eq.
      * rewrite lookup_insert_ne in Eb by done. destruct (F fd' b Eb) as (e & r & E). exists e, r.
        rewrite Hk; [done|]. intros ->. unfold kind_of in E. by rewrite Ea in E.
    + intros b t' Eb. destruct (decide (b = a)) as [->|].
      * right. exists fd. cbn. apply lookup_insert_eq.
      * rewrite Hs in Eb by done. destruct (A b t' Eb) as [?|[fd' Ef']]; [by left|]. right. exists fd'.
        cbn. rewrite lookup_insert_ne; [done|]. intros ->. congruence.
    + cbn. rewrite map_size_insert_None by done. lia.
  - apply evolves_same; try done. intros b Hb.
    assert (b <> a) by (apply Hl, elem_of_app; by left). split; [by apply Hk|].
    unfold live. by rewrite Hs.
Qed.

Lemma add_fd_ok s xs fs fd callback context :
  good s xs fs ->
  exists s' r, add_fd alloc schedule_fd s fd callback context = Ok (s', r) /\
    good s' xs fs /\ evolves s xs s' xs.
Proof.
  intros G. unfold add_fd.
  assert (New : forall s1, good s1 xs fs -> evolves s xs s1 xs -> fd_queue s1 !! fd = None ->
    exists s' r,
      (if (0 <? max_tasks s1) && (max_tasks s1 <=? Z.of_nat (size (fd_queue s1))) then Ok (s1, None)
       else
         match alloc (s_tasks s1) with
         | None => Ok (s1, None)
         | Some a =>
             let s := set_tasks s1 (<[a := mkTask callback context true (FdTask SILC_TASK_READ 0 fd)]>
                                      (s_tasks s1)) in
             let s := set_fd_queue s (<[fd := a]> (fd_queue s)) in
             if schedule_fd fd SILC_TASK_READ then Ok (s, Some a) else Ok (hash_del s fd, None)
         end) = Ok (s', r) /\ good s' xs fs /\ evolves s xs s' xs).
  { intros s1 G1 E1 Ef. destruct (_ && _); [by exists s1, None|].
    destruct (alloc (s_tasks s1)) as [a|] eqn:Ea; [|by exists s1, None].
    destruct (alloc_fresh _ _ Ea) as [Hn Hsz].
    destruct (fd_insert_ok s1 xs fs a fd callback context G1 Hn Ef Hsz) as [G2 E2].
    cbv zeta. change (fd_queue (set_tasks s1 ?m)) with (fd_queue s1).
    destruct (schedule_fd fd SILC_TASK_READ).
    - do 2 eexists. split; [done|]. split; [exact G2|]. by eapply evolves_trans.
    - destruct (hash_del_ok _ xs fs fd G2) as (G3 & E3 & _).
      do 2 eexists. split; [done|]. split; [exact G3|]. eapply evolves_trans; [exact E1|].
      by eapply evolves_trans. }
  destruct (fd_queue s !! fd) as [a|] eqn:Ef.
  - destruct (g_fds _ _ _ G fd a Ef) as (e & r & Ek). unfold silc_schedule_task_remove, task_at.
    unfold kind_of in Ek. destruct (s_tasks s !! a) as [t|]; [|done]. injection Ek as Ek.
    cbn [obind]. destruct (t_valid t).
    + exists s, (Some a). split; [done|]. split; [done|]. apply evolves_refl.
    + rewrite Ek. cbn [obind]. destruct (hash_del_ok s xs fs fd G) as (G1 & E1 & D1). by apply New.
  - cbn [obind]. apply New; [done|apply evolves_refl|done].
Qed.

(** *** Invalidation *)

Lemma invalidate_evolves s xs a : evolves s xs (invalidate s a) xs.
Proof.
  apply evolves_same; try done. intros b _. split; [apply kind_invalidate|].
  intros H. by apply live_invalidate in H as [H _].
Qed.

Lemma task_walk_ok f xs fs : forall P N s l ret fuel,
  good s xs fs -> rep (s_links s) l xs -> xs = N ++ P -> end_set l = false -> l_current l = head P ->
  (length P <= fuel)%nat ->
  exists s' l' ret', walk fuel f s l ret = Ok (s', l', ret') /\
    good s' xs fs /\ evolves s xs s' xs /\ s_links s' = s_links s /\
    timeout_queue s' = timeout_queue s /\ rep (s_links s) l' xs /\ l_current l' = None /\ kept l l' /\
    ((forall t, f t = true) -> forall a, a ∈ P -> ~ live s' a).
Proof.
  induction P as [|b P IH]; intros N s l ret fuel G R Exs He Hc Hf.
  { exists s, l, ret. split; [destruct fuel; cbn [walk]; unfold silc_list_get; by rewrite Hc|].
    split; [exact G|]. split; [apply evolves_refl|]. do 2 (split; [done|]).
    split; [exact R|]. split; [exact Hc|]. split; [by split|]. intros _ a Ha. by apply not_elem_of_nil in Ha. }
  destruct fuel as [|fuel]; [cbn in Hf; lia|]. cbn [walk].
  pose proof (list_get_ok _ _ _ R ltac:(by rewrite He)) as Gt.
  destruct (silc_list_get (s_links s) l) as [l' r]. destruct Gt as (R' & [K1 K2] & -> & C).
  rewrite Hc in *. cbn [list.head] in *. cbv beta iota. cbn in C. rewrite He in C. cbn in C.
  assert (Hn : after b xs = head P) by (rewrite Exs; apply spot_after; rewrite <- Exs; apply (rep_nodup _ _ _ R)).
  rewrite Hn in C.
  assert (Hb : b ∈ xs) by (rewrite Exs, elem_of_app, elem_of_cons; tauto).
  destruct (g_timers _ _ _ G b) as (t & tv & Et & _); [apply elem_of_app; by left|].
  unfold task_at. rewrite Et. cbn [obind].
  assert (Step : forall s1 ret, good s1 xs fs -> evolves s xs s1 xs -> s_links s1 = s_links s ->
    timeout_queue s1 = timeout_queue s -> ((forall t, f t = true) -> ~ live s1 b) ->
    exists s' l'' ret', walk fuel f s1 l' ret = Ok (s', l'', ret') /\
      good s' xs fs /\ evolves s xs s' xs /\ s_links s' = s_links s /\
      timeout_queue s' = timeout_queue s /\ rep (s_links s) l'' xs /\ l_current l'' = None /\ kept l l'' /\
      ((forall t, f t = true) -> forall a, a ∈ b :: P -> ~ live s' a)).
  { intros s1 ret1 G1 E1 L1 Q1 V1.
    destruct (IH (N ++ [b]) s1 l' ret1 fuel) as (s' & l'' & ret' & W & G' & E' & L' & Q' & R'' & C' & [K3 K4] & V');
      [done|by rewrite L1|by rewrite <- app_assoc|by rewrite K2|done|cbn in Hf; lia|].
    exists s', l'', ret'. split; [done|]. split; [done|]. split; [by eapply evolves_trans|].
    split; [congruence|]. split; [congruence|]. split; [by rewrite <- L1|]. split; [done|].
    split; [split; congruence|]. intros Hall a [->|Ha]%elem_of_cons; [|by apply V'].
    intros Hl. apply (V1 Hall). by apply (e_kept _ _ _ _ E' b Hb). }
  destruct (f t) eqn:Eft.
  - apply Step; [by apply good_invalidate|apply invalidate_evolves|done|done|].
    intros _ [_ H]%live_invalidate. done.
  - apply Step; [done|apply evolves_refl|done|done|]. intros Hall. by rewrite Hall in Eft.
Qed.

(** Changes that leave the lists and the table as they are. *)
Definition still (s s' : Schedule) : Prop :=
  s_links s' = s_links s /\ timeout_queue s' = timeout_queue s /\ fd_queue s' = fd_queue s.

Lemma fd_walk_ok f s xs fs :
  good s xs fs ->
  exists s' ret, fd_walk f s = Ok (s', ret) /\ good s' xs fs /\ evolves s xs s' xs /\ still s s'.
Proof.
  intros G. unfold fd_walk.
  assert (H : forall a, a ∈ (map_to_list (fd_queue s)).*2 -> exists fd, fd_queue s !! fd = Some a).
  { intros a ([fd a'] & -> & Hin)%list_elem_of_fmap. exists fd. by apply elem_of_map_to_list. }
  induction (map_to_list (fd_queue s)).*2 as [|a l IH]; cbn [foldr].
  { exists s, false. split; [done|]. split; [done|]. split; [apply evolves_refl|done]. }
  destruct IH as (s' & ret & -> & G' & E' & St); [intros b Hb; apply H; by right|]. cbn [obind].
  destruct (H a ltac:(by left)) as [fd Efd].
  destruct (g_fds _ _ _ G' fd a) as (e & r & Ek); [by destruct St as (_ & _ & ->)|].
  unfold task_at. unfold kind_of in Ek. destruct (s_tasks s' !! a) as [t|]; [|done]. cbn [obind].
  destruct (f t).
  - do 2 eexists. split; [done|]. split; [by apply good_invalidate|].
    split; [eapply evolves_trans; [exact E'|apply invalidate_evolves]|exact St].
  - by exists s', ret.
Qed.

Lemma queue_walk_ok f s xs fs ret :
  good s xs fs ->
  let l := silc_list_start (timeout_queue s) in
  exists s' l' ret', walk (Z.to_nat (silc_list_count l)) f s l ret = Ok (s', l', ret') /\
    good s' xs fs /\ evolves s xs s' xs /\ s_links s' = s_links s /\
    timeout_queue s' = timeout_queue s /\ rep (s_links s) l' xs /\ l_current l' = None /\ kept l l' /\
    ((forall t, f t = true) -> forall a, a ∈ xs -> ~ live s' a).
Proof.
  intros G l. pose proof (list_start_ok _ _ _ (g_queue _ _ _ G)) as R.
  apply (task_walk_ok f xs fs xs []); try done; [apply (rep_head _ _ _ (g_queue _ _ _ G))|].
  unfold l, silc_list_count. rewrite (rep_count _ _ _ R). unfold zlen. lia.
Qed.

Lemma del_all_ok s xs fs :
  good s xs fs ->
  exists s', silc_schedule_task_del_all s = Ok s' /\ good s' xs fs /\ evolves s xs s' xs /\
    (forall a, a ∈ xs -> ~ live s' a) /\ fd_queue s' = fd_queue s.
Proof.
  intros G. unfold silc_schedule_task_del_all.
  destruct (fd_walk_ok (fun _ => true) s xs fs G) as (s1 & r1 & -> & G1 & E1 & St). cbn [obind].
  destruct (queue_walk_ok (fun _ => true) s1 xs fs false G1)
    as (s2 & l & r2 & W & G2 & E2 & L2 & Q2 & R2 & C2 & [K1 K2] & V2).
  rewrite W. cbn [obind]. eexists. split; [done|].
  assert (H : evolves s xs (set_timeout_queue s2 (s_links s2) l) xs /\
              fd_queue (set_timeout_queue s2 (s_links s2) l) = fd_queue s).
  { pose proof (evolves_trans _ _ _ _ _ _ E1 E2) as [T C Hs V Kp P]. split; [split; try done|].
    - intros T' K _ (N & P' & -> & _ & HN & HP). exists (N ++ P'), []. rewrite app_nil_r.
      split; [done|]. split; [exact C2|]. split; [|intros a Ha; by apply not_elem_of_nil in Ha].
      intros a Ha Hl. by destruct (V2 ltac:(done) a Ha).
    - cbn. destruct St as (_ & _ & St). rewrite <- St. clear -W.
      generalize dependent (silc_list_start (timeout_queue s1)).
      intros l0. generalize (Z.to_nat (silc_list_count l0)) false. intros n. revert s1 l0.
      induction n as [|n IH]; intros s1 l0 b; cbn [walk]; destruct (silc_list_get _ _) as [l1 [a|]];
        try done; try by intros [= <- _ _].
      destruct (task_at s1 a); try done. cbn [obind]. intros W. by rewrite (IH _ _ _ W). }
  destruct H as [H Hf]. split; [|split; [exact H|split; [|exact Hf]]].
  - apply good_queue_cursor; [done|by rewrite L2|]. rewrite Q2. split; [exact K1|].
    rewrite K2. symmetry. apply (g_forward _ _ _ G1).
  - intros a Ha. by apply V2.
Qed.

Lemma del_matching_ok f s xs fs :
  good s xs fs ->
  exists s' r, del_matching f s = Ok (s', r) /\ good s' xs fs /\ evolves s xs s' xs.
Proof.
  intros G. unfold del_matching.
  destruct (fd_walk_ok f s xs fs G) as (s1 & r1 & -> & G1 & E1 & _). cbn [obind].
  destruct (queue_walk_ok f s1 xs fs r1 G1) as (s2 & l & r2 & -> & G2 & E2 & _). cbn [obind].
  exists s2, r2. split; [done|]. split; [done|]. by eapply evolves_trans.
Qed.

Lemma del_by_fd_ok s xs fs fd :
  good s xs fs ->
  let '(s', r) := silc_schedule_task_del_by_fd s fd in good s' xs fs /\ evolves s xs s' xs.
Proof.
  intros G. unfold silc_schedule_task_del_by_fd. destruct (fd_queue s !! fd).
  - split; [by apply good_invalidate|apply invalidate_evolves].
  - split; [done|apply evolves_refl].
Qed.

Lemma del_by_all_ok s xs fs fd callback context :
  good s xs fs ->
  exists s' r, silc_schedule_task_del_by_all s fd callback context = Ok (s', r) /\
    good s' xs fs /\ evolves s xs s' xs.
Proof.
  intros G. unfold silc_schedule_task_del_by_all. destruct (negb _).
  - pose proof (del_by_fd_ok s xs fs fd G) as H. destruct (silc_schedule_task_del_by_fd s fd) as [s' r].
    by exists s', r.
  - destruct (queue_walk_ok (fun t => (t_callback t =? callback) && (t_context t =? context)) s xs fs false G)
      as (s2 & l & r2 & -> & G2 & E2 & _).
    cbn [obind]. by exists s2, true.
Qed.

Lemma set_listen_ok s xs fs fd mask :
  good s xs fs ->
  let '(s', r) := silc_schedule_set_listen_fd schedule_fd s fd mask in
  good s' xs fs /\ evolves s xs s' xs.
Proof.
  intros G. unfold silc_schedule_set_listen_fd.
  destruct (negb _); [by split; [|apply evolves_refl]|].
  destruct (fd_queue s !! fd) as [a|] eqn:Ef; [|by split; [|apply evolves_refl]].
  destruct (schedule_fd fd mask); [|by split; [|apply evolves_refl]].
  destruct (g_fds _ _ _ G fd a Ef) as (e & r & Ek).
  assert (Ho : forall b, b <> a -> alter (set_events mask) a (s_tasks s) !! b = s_tasks s !! b)
    by (intros b Hb; by apply lookup_alter_ne).
  split.
  - apply good_tasks; [done|]. intros b. destruct (decide (b = a)) as [->|Hb].
    + rewrite lookup_alter_eq, Ek. unfold kind_of in Ek. destruct (s_tasks s !! a) as [t|]; [|done].
      cbn. injection Ek as Ek. by rewrite Ek.
    + rewrite Ho by done. apply kind_like_refl.
  - apply evolves_same; try done. intros b Hb.
    assert (b <> a).
    { intros ->. apply (queue_not_fd _ _ _ _ _ _ _ G Ek), elem_of_app. by left. }
    unfold kind_of, live. cbn. by rewrite Ho.
Qed.

(** *** Callbacks *)

Lemma task_add_ok s xs fs fd callback context seconds useconds type :
  good s xs fs -> delay_ok seconds useconds ->
  exists s' r xs' fs',
    silc_schedule_task_add clock alloc schedule_fd s fd callback context seconds useconds type = Ok (s', r) /\
    good s' xs' fs' /\ evolves s xs s' xs'.
Proof.
  intros G Hd. unfold silc_schedule_task_add. destruct (s_valid s) eqn:Ev; cbn [negb].
  2:{ exists s, None, xs, fs. split; [done|]. split; [done|apply evolves_refl]. }
  destruct type.
  - destruct (add_fd_ok s xs fs fd callback context G) as (s' & r & -> & G' & E').
    by exists s', r, xs, fs.
  - destruct (add_timeout_ok s xs fs callback context seconds useconds G Ev Hd)
      as (s' & r & xs' & fs' & -> & G' & E' & _). by exists s', r, xs', fs'.
Qed.

(** Freeing the first task of the free list. *)
Lemma gc_loop_ok xs : forall fs s c fuel,
  good s xs fs -> l_current (free_tasks s) = head fs -> (length fs <= fuel)%nat ->
  exists s' fs', gc_loop fuel s c = Ok s' /\ good s' xs fs' /\ evolves s xs s' xs.
Proof.
  induction fs as [|a fs IH]; intros s c fuel G Hc Hf.
  { exists (set_free_tasks s (s_links s) (free_tasks s)), [].
    split; [destruct fuel; cbn [gc_loop]; unfold silc_list_get; by rewrite Hc|].
    split; [by eapply good_same|by apply evolves_same]. }
  pose proof (g_forward _ _ _ G) as [_ E2]. pose proof (g_single _ _ _ G) as [_ S2].
  pose proof (list_get_ok _ _ _ (g_free _ _ _ G) ltac:(by rewrite E2)) as Gt.
  destruct fuel as [|fuel]; [cbn in Hf; lia|]. cbn [gc_loop].
  destruct (silc_list_get (s_links s) (free_tasks s)) as [l r]. destruct Gt as (R & [K1 K2] & -> & C).
  rewrite Hc in *. cbn [list.head] in *. cbv beta iota.
  set (s1 := set_free_tasks s (s_links s) l).
  assert (G1 : good s1 xs (a :: fs)) by by apply good_free_cursor.
  destruct (0 <? c); [|by exists s1, (a :: fs); split; [|split; [|apply evolves_same]]].
  destruct (list_del_ok _ _ _ a (g_free _ _ _ G1)) as (h & l' & D & R' & [K3 K4] & C').
  rewrite D. cbn [obind fueled]. pose proof (g_nodup _ _ _ G) as (N1 & N2 & N3)%list.NoDup_app.
  rewrite (remove_spot a [] fs N3 : Lists.remove a (a :: fs) = fs) in R'.
  pose proof N3 as [Ha N4]%list.NoDup_cons.
  set (s2 := free_task (set_free_tasks s1 h l') a).
  assert (Hs : forall b, b <> a -> s_tasks s2 !! b = s_tasks s !! b) by (intros b Hb; by apply lookup_delete_ne).
  assert (Hk : forall b, b <> a -> kind_of s2 b = kind_of s b)
    by (intros b Hb; unfold kind_of; by rewrite Hs).
  assert (Hx : forall b, b ∈ xs -> b <> a) by (intros b Hb ->; apply (N2 a Hb); by left).
  assert (Hl : l_current l' = head fs).
  { rewrite C'. cbn in C. rewrite E2 in C. cbn in C. rewrite Z.eqb_refl in C.
    change (l_current (free_tasks s1)) with (l_current l). rewrite C. rewrite bool_decide_false; [done|].
    intros [E _]. apply Ha. by apply head_in. }
  assert (G2 : good s2 xs fs).
  { eapply (good_forget s s2 a xs (a :: fs)); try done.
    - by rewrite Permutation_middle.
    - apply (g_sorted _ _ _ G).
    - eapply rep_frame; [apply (g_queue _ _ _ G)|apply (g_single _ _ _ G)|]. intros b Hb.
      eapply (del_frame _ _ (a :: fs)); [exact R|by rewrite K1|exact D|]. by apply N2.
    - apply (g_single _ _ _ G).
    - cbn. rewrite K3. cbn. by rewrite K1.
    - apply (g_forward _ _ _ G).
    - cbn. rewrite K4. cbn. by rewrite K2. }
  destruct (IH s2 (c - 1) fuel) as (s' & fs' & E & G' & E'); [done|exact Hl|cbn in Hf; lia|].
  exists s', fs'. split; [exact E|]. split; [done|]. eapply evolves_trans; [|exact E'].
  apply evolves_same; try done. intros b Hb. split; [by apply Hk, Hx|].
  unfold live. by rewrite Hs by by apply Hx.
Qed.

Lemma gc_ok s xs fs :
  good s xs fs ->
  exists s' xs' fs', silc_schedule_timeout_gc clock alloc schedule_fd s = Ok s' /\
    good s' xs' fs' /\ evolves s xs s' xs'.
Proof.
  intros G. unfold silc_schedule_timeout_gc. destruct (negb (s_valid s)).
  { exists s, xs, fs. split; [done|]. split; [done|apply evolves_refl]. }
  assert (Again : forall s1 fs1, good s1 xs fs1 -> evolves s xs s1 xs ->
    exists s' xs' fs',
      (let* (s, _) := silc_schedule_task_add clock alloc schedule_fd s1 0 gc_callback 0 3600 0 SILC_TASK_TIMEOUT
       in Ok s) = Ok s' /\ good s' xs' fs' /\ evolves s xs s' xs').
  { intros s1 fs1 G1 E1.
    destruct (task_add_ok s1 xs fs1 0 gc_callback 0 3600 0 SILC_TASK_TIMEOUT G1) as (s' & r & xs' & fs' & -> & G' & E');
      [by unfold delay_ok|]. cbn [obind]. exists s', xs', fs'. split; [done|]. split; [done|].
    by eapply evolves_trans. }
  cbv zeta. destruct (_ <=? 10); [eapply Again; [exact G|apply evolves_refl]|].
  destruct (_ <? _); [eapply Again; [exact G|apply evolves_refl]|].
  set (s1 := set_free_tasks s (s_links s) (silc_list_start (free_tasks s))).
  assert (G1 : good s1 xs fs).
  { apply good_free_cursor; [done|by apply list_start_ok, G|]. split; [done|].
    symmetry. apply (g_forward _ _ _ G). }
  destruct (gc_loop_ok xs fs s1 (gc_count (silc_list_count (free_tasks s)) (silc_list_count (timeout_queue s)))
    (Z.to_nat (silc_list_count (free_tasks s))) G1) as (s2 & fs2 & -> & G2 & E2).
  { apply (rep_head _ _ _ (g_free _ _ _ G)). }
  { unfold silc_list_count. rewrite (rep_count _ _ _ (g_free _ _ _ G)). unfold zlen. lia. }
  cbn [obind]. apply (Again _ fs2).
  - apply good_free_cursor; [done|by apply list_start_ok, G2|]. split; [done|].
    symmetry. apply (g_forward _ _ _ G2).
  - eapply evolves_trans; [|eapply evolves_trans; [exact E2|]]; by apply evolves_same.
Qed.

Context {W : Type}.

(** Programs whose delays are within the bounds of the clock. *)
Inductive tame : Prog W -> Prop :=
  | tame_return w : tame (Return W w)
  | tame_add fd cb ctx sec usec type k :
      delay_ok sec usec -> (forall r, tame (k r)) -> tame (TaskAdd W fd cb ctx sec usec type k)
  | tame_del a k : tame k -> tame (TaskDel W a k)
  | tame_del_all k : tame k -> tame (TaskDelAll W k)
  | tame_del_fd fd k : (forall r, tame (k r)) -> tame (TaskDelByFd W fd k)
  | tame_del_callback cb k : (forall r, tame (k r)) -> tame (TaskDelByCallback W cb k)
  | tame_del_context ctx k : (forall r, tame (k r)) -> tame (TaskDelByContext W ctx k)
  | tame_del_by_all fd cb ctx k : (forall r, tame (k r)) -> tame (TaskDelByAll W fd cb ctx k)
  | tame_listen fd mask k : (forall r, tame (k r)) -> tame (SetListenFd W fd mask k)
  | tame_events fd k : (forall r, tame (k r)) -> tame (GetFdEvents W fd k)
  | tame_stop k : tame k -> tame (Stop W k).

Lemma run_prog_ok p : tame p -> forall s xs fs,
  good s xs fs ->
  exists s' w xs' fs', run_prog clock alloc schedule_fd s p = Ok (s', w) /\
    good s' xs' fs' /\ evolves s xs s' xs'.
Proof.
  assert (Go : forall s xs s1 xs1 (r : outcome (Schedule * W)),
    evolves s xs s1 xs1 ->
    (exists s' w xs' fs', r = Ok (s', w) /\ good s' xs' fs' /\ evolves s1 xs1 s' xs') ->
    exists s' w xs' fs', r = Ok (s', w) /\ good s' xs' fs' /\ evolves s xs s' xs').
  { intros s xs s1 xs1 r E (s' & w & xs' & fs' & H1 & H2 & H3). exists s', w, xs', fs'.
    split; [done|]. split; [done|]. by eapply evolves_trans. }
  induction 1 as [w|fd cb ctx sec usec type k Hd _ IH|a k _ IH|k _ IH|fd k _ IH|cb k _ IH|ctx k _ IH|
    fd cb ctx k _ IH|fd mask k _ IH|fd k _ IH|k _ IH]; intros s xs fs G; cbn [run_prog].
  - exists s, w, xs, fs. split; [done|]. split; [done|apply evolves_refl].
  - destruct (task_add_ok s xs fs fd cb ctx sec usec type G Hd) as (s1 & r & xs1 & fs1 & -> & G1 & E1).
    cbn [obind]. eapply Go; [exact E1|]. by eapply IH.
  - eapply Go; [apply invalidate_evolves|]. by eapply IH, good_invalidate.
  - destruct (del_all_ok s xs fs G) as (s1 & -> & G1 & E1 & _).
    cbn [obind]. eapply Go; [exact E1|]. by eapply IH.
  - pose proof (del_by_fd_ok s xs fs fd G) as H. destruct (silc_schedule_task_del_by_fd s fd) as [s1 r].
    destruct H as [G1 E1]. eapply Go; [exact E1|]. by eapply IH.
  - destruct (del_matching_ok (fun t => t_callback t =? cb) s xs fs G) as (s1 & r & H & G1 & E1).
    unfold silc_schedule_task_del_by_callback. rewrite H. cbn [obind].
    eapply Go; [exact E1|]. by eapply IH.
  - destruct (del_matching_ok (fun t => t_context t =? ctx) s xs fs G) as (s1 & r & H & G1 & E1).
    unfold silc_schedule_task_del_by_context. rewrite H. cbn [obind].
    eapply Go; [exact E1|]. by eapply IH.
  - destruct (del_by_all_ok s xs fs fd cb ctx G) as (s1 & r & -> & G1 & E1).
    cbn [obind]. eapply Go; [exact E1|]. by eapply IH.
  - pose proof (set_listen_ok s xs fs fd mask G) as H.
    destruct (silc_schedule_set_listen_fd schedule_fd s fd mask) as [s1 r].
    destruct H as [G1 E1]. eapply Go; [exact E1|]. by eapply IH.
  - by eapply IH.
  - eapply Go; [|by eapply IH, good_same]. by apply evolves_same.
Qed.

Variable app : Z -> Z -> Z -> Z -> W -> Prog W.
Hypothesis app_tame : forall cb ev fd ctx w, tame (app cb ev fd ctx w).

Lemma invoke_ok s w xs fs cb ev fd ctx :
  good s xs fs ->
  exists s' w' xs' fs', invoke clock alloc schedule_fd app s w cb ev fd ctx = Ok (s', w') /\
    good s' xs' fs' /\ evolves s xs s' xs'.
Proof.
  intros G. unfold invoke. destruct (cb =? gc_callback).
  - destruct (gc_ok s xs fs G) as (s' & xs' & fs' & -> & G' & E'). by exists s', w, xs', fs'.
  - eapply run_prog_ok; [apply app_tame|exact G].
Qed.

(** ** Dispatching *)

(** What a removal does to the place. *)
Lemma remove_placed T K s xs fs a :
  good s xs fs -> a ∈ xs -> placed T K s xs ->
  exists s', silc_schedule_task_remove s a = Ok s' /\ good s' (Lists.remove a xs) (fs ++ [a]) /\
    placed T K s' (Lists.remove a xs) /\
    s_tasks s' = s_tasks s /\ ticks s' = ticks s /\ s_called s' = s_called s /\ s_valid s' = s_valid s /\
    has_timeout s' = has_timeout s.
Proof.
  intros G Ha (N & P & Exs & C & HN & HP).
  destruct (rep_disjoint_del s xs fs a G Ha) as (s' & E & G' & Et & Ef & Etk & Ec & Ev & Eh & Cur).
  exists s'. destruct (g_timers _ _ _ G a) as (t & tv & Ea & Ek & _); [apply elem_of_app; by left|].
  unfold silc_schedule_task_remove, task_at. rewrite Ea. cbn [obind]. rewrite Ek.
  split; [done|]. split; [done|]. split; [|done].
  assert (Hd : forall b, due s' b = due s b /\ (live s' b <-> live s b))
    by (intros b; unfold due, kind_of, live; by rewrite Et).
  pose proof (rep_nodup _ _ _ (g_queue _ _ _ G)) as Nd.
  exists (Lists.remove a N), (Lists.remove a P). split; [rewrite Exs; apply list.filter_app|].
  assert (Sub : forall l b, b ∈ Lists.remove a l -> b ∈ l)
    by (intros l b; unfold Lists.remove; rewrite list_elem_of_filter; by intros []).
  split.
  - rewrite Cur, C. clear Cur. destruct P as [|b P]; [by rewrite bool_decide_false|]. cbn [list.head].
    case_bool_decide as Eb.
    + injection Eb as ->. rewrite Exs in Nd |- *.
      rewrite spot_after by done. unfold Lists.remove. rewrite list.filter_cons_False by auto.
      change (filter (fun x => x <> a) P) with (Lists.remove a P). rewrite remove_absent; [done|].
      apply spot_parts in Nd. tauto.
    + unfold Lists.remove. rewrite list.filter_cons_True by congruence. done.
  - split; intros b Hb.
    + intros Hl. destruct (Hd b) as [-> Hl']. apply HN; [by eapply Sub|by apply Hl'].
    + destruct (Hd b) as [-> _]. apply HP. by eapply Sub.
Qed.

(** Taking the next task. *)
Lemma next_ok s xs fs N P :
  good s xs fs -> xs = N ++ P -> l_current (timeout_queue s) = head P ->
  exists l, silc_list_get (s_links s) (timeout_queue s) = (l, head P) /\
    good (set_timeout_queue s (s_links s) l) xs fs /\ l_current l = head (tail P).
Proof.
  intros G E C. pose proof (g_forward _ _ _ G) as [E1 _].
  pose proof (list_get_ok _ _ _ (g_queue _ _ _ G) ltac:(by rewrite E1)) as Gt.
  destruct (silc_list_get _ _) as [l r]. destruct Gt as (R & K & -> & C'). exists l.
  split; [by rewrite C|]. split; [by apply good_queue_cursor|].
  rewrite C', C, E1. destruct P as [|b P]; [done|]. cbn. rewrite E. apply spot_after.
  rewrite <- E. apply (rep_nodup _ _ _ R).
Qed.

(** A task that is not live is removed and the next one taken. *)
Lemma skip_ok s xs fs N P a t :
  good s xs fs -> xs = N ++ a :: P -> l_current (timeout_queue s) = head P ->
  s_tasks s !! a = Some t -> t_valid t = false ->
  exists s3 l, silc_schedule_task_remove s a = Ok s3 /\
    silc_list_get (s_links s3) (timeout_queue s3) = (l, head P) /\
    let s4 := set_timeout_queue s3 (s_links s3) l in
    good s4 (N ++ P) (fs ++ [a]) /\ l_current (timeout_queue s4) = head (tail P) /\
    s_tasks s4 = s_tasks s /\ has_timeout s4 = has_timeout s /\ ticks s4 = ticks s /\
    s_called s4 = s_called s /\ s_valid s4 = s_valid s.
Proof.
  intros G Exs C Ea Ev.
  assert (Hax : a ∈ xs) by (rewrite Exs, elem_of_app, elem_of_cons; tauto).
  destruct (g_timers _ _ _ G a) as (t' & tv & Ea' & Ek & _); [apply elem_of_app; by left|].
  rewrite Ea in Ea'. injection Ea' as <-.
  pose proof (rep_nodup _ _ _ (g_queue _ _ _ G)) as Nd. rewrite Exs in Nd.
  destruct (rep_disjoint_del s xs fs a G Hax) as (s3 & Rm & G3 & Et & Ef & Etk & Ec & Evl & Eh & C3).
  rewrite Exs, remove_spot in G3 by done.
  rewrite bool_decide_false, C in C3.
  2:{ rewrite C. intros E. apply spot_parts in Nd as (_ & _ & _ & Na & _). apply Na.
      destruct P; [done|]. injection E as ->. left. }
  destruct (next_ok s3 _ _ N P G3 eq_refl C3) as (l3 & Get & G4 & C4).
  exists s3, l3. split; [unfold silc_schedule_task_remove, task_at; rewrite Ea; cbn [obind]; by rewrite Ek|].
  split; [done|]. cbv zeta. by do 4 (split; [done|]).
Qed.

(** The calls that are made are in the order of the timeouts; unless there are 41 of
    them, no timer that is still live is due before [T]. *)
Definition dispatched (count T K : Z) (all : bool) (cur : timeval) (s : Schedule) (r : Schedule * W) : Prop :=
  exists xs' fs' calls,
    good r.1 xs' fs' /\ s_called r.1 = s_called s ++ calls /\ zlen calls <= 41 - count /\
    StronglySorted (fun c d => usecs c.2 <= usecs d.2) calls /\
    (forall c, c ∈ calls -> K <= usecs c.2 /\ (all = true \/ usecs c.2 <= usecs cur)) /\
    (zlen calls < 41 - count -> forall b, b ∈ xs' -> live r.1 b -> T <= due r.1 b) /\
    (ticks s <= ticks r.1)%nat /\ (s_valid s = false -> s_valid r.1 = false) /\
    has_timeout r.1 = has_timeout s.

Definition time_ok (T K : Z) (all : bool) (cur : timeval) (s : Schedule) : Prop :=
  (all = false /\ T = usecs cur /\ T <= now s /\ K <= T) \/ (all = true /\ s_valid s = false).

Lemma time_ok_step T K all cur s s' :
  time_ok T K all cur s -> (ticks s <= ticks s')%nat -> (s_valid s = false -> s_valid s' = false) ->
  time_ok T K all cur s'.
Proof.
  intros [(H1 & H2 & H3 & H4)|[H1 H2]] Ht Hv; [left|right; auto].
  pose proof (clock_le _ _ Ht). unfold now in *. split; [done|]. split; [done|]. lia.
Qed.

Lemma dispatched_more count T K K' all cur s s1 c r :
  s_called s1 = s_called s ++ [c] -> (ticks s <= ticks s1)%nat -> (s_valid s = false -> s_valid s1 = false) ->
  has_timeout s1 = has_timeout s -> K <= usecs c.2 -> K' = usecs c.2 -> (all = true \/ usecs c.2 <= usecs cur) ->
  dispatched (count + 1) T K' all cur s1 r -> dispatched count T K all cur s r.
Proof.
  intros Ec Ht Hv Hs HK -> Hc (xs' & fs' & calls & G & C & L & S & B & R & T' & V & Hs').
  exists xs', fs', (c :: calls). split; [done|].
  split; [by rewrite C, Ec, <- app_assoc|]. rewrite zlen_cons. split; [lia|].
  split; [constructor; [done|]; apply list.Forall_forall; intros d Hd; by apply B|].
  split; [|split; [intros H; apply R; lia|split; [lia|split; [auto|congruence]]]].
  intros d [->|Hd]%elem_of_cons; [by split|]. destruct (B d Hd). split; [lia|done].
Qed.

Lemma dispatch_end s xs fs w count T K all cur :
  good s xs fs -> count <= 41 -> (count < 41 -> forall b, b ∈ xs -> live s b -> T <= due s b) ->
  dispatched count T K all cur s (s, w).
Proof.
  intros G Hc H. exists xs, fs, []. cbn. rewrite app_nil_r, zlen_nil.
  split; [done|]. split; [done|]. split; [lia|]. split; [constructor|].
  split; [intros c Hcc; by apply not_elem_of_nil in Hcc|]. split; [intros; apply H; [lia|done..]|done].
Qed.

Lemma timer_loop_ok T all cur : proper cur ->
  forall n m s w xs fs N P task count K,
  good s xs fs -> xs = N ++ P -> task = head P -> l_current (timeout_queue s) = head (tail P) ->
  (forall b, b ∈ N -> live s b -> T <= due s b) -> (forall b, b ∈ P -> K <= due s b) ->
  0 <= count -> count + Z.of_nat n = 41 -> (0 < n)%nat -> (length P <= m)%nat ->
  time_ok T K all cur s ->
  exists fuel r, dispatch_loop clock alloc schedule_fd app fuel s w cur all count task = Ok r /\
    dispatched count T K all cur s r.
Proof.
  intros Hcur. induction n as [|n IHn]; [lia|].
  induction m as [|m IHm]; intros s w xs fs N P task count K G Exs -> C HN HP Hc0 Hc Hn Hm Ht.
  { destruct P; [|cbn in Hm; lia]. exists O, (s, w). split; [done|].
    eapply dispatch_end; [exact G|lia|]. rewrite Exs, app_nil_r. auto. }
  destruct P as [|a P].
  { exists O, (s, w). split; [done|]. eapply dispatch_end; [exact G|lia|]. rewrite Exs, app_nil_r. auto. }
  cbn [list.head list.tail] in *. cbn in Hm.
  assert (Hax : a ∈ xs) by (rewrite Exs, elem_of_app, elem_of_cons; tauto).
  destruct (g_timers _ _ _ G a) as (t & tv & Ea & Ek & Hpt); [apply elem_of_app; by left|].
  assert (Hda : due s a = usecs tv) by (unfold due, kind_of; rewrite Ea; cbn; by rewrite Ek).
  assert (Hsort : forall b, b ∈ P -> due s a <= due s b).
  { pose proof (g_sorted _ _ _ G) as So. rewrite Exs in So. apply sorted_app in So as (_ & So & _).
    inversion_clear So as [|? ? _ F]. by rewrite list.Forall_forall in F. }
  assert (HKa : K <= usecs tv) by (rewrite <- Hda; apply HP; by left).
  destruct (t_valid t) eqn:Ev.
  - destruct (decide (0 < silc_compare_timeval tv cur /\ all = false)) as [[Hlate ->]|Hdue].
    + exists 1%nat, (s, w). cbn [dispatch_loop]. unfold task_at. rewrite Ea. cbn [obind].
      rewrite Ev. cbn [negb]. rewrite Ek, (proj2 (Z.ltb_lt _ _) Hlate). cbn [andb negb].
      split; [done|]. destruct Ht as [(_ & -> & _)|[? _]]; [|done].
      apply compare_spec in Hlate; [|done..].
      eapply dispatch_end; [exact G|lia|]. intros _ b Hb Hl.
      rewrite Exs, elem_of_app, elem_of_cons in Hb. destruct Hb as [Hb|[->|Hb]]; [by apply HN|lia|].
      specialize (Hsort b Hb). lia.
    + assert (Hexp : all = true \/ usecs tv <= usecs cur).
      { destruct all; [by left|right]. destruct (compare_spec tv cur Hpt Hcur) as [_ Hgt].
        destruct (decide (usecs cur < usecs tv)); [|lia]. destruct Hdue. split; [by apply Hgt|done]. }
      set (s1 := log_call (invalidate s a) (a, tv)).
      assert (G1 : good s1 xs fs) by (eapply good_same; [by apply (good_invalidate s a)|reflexivity..]).
      assert (Hd1 : forall b, due s1 b = due s b) by (intros b; apply due_ext, (kind_invalidate s a b)).
      assert (Hl1 : forall b, live s1 b -> live s b /\ b <> a) by (intros b; apply (live_invalidate s a b)).
      assert (Pl1 : placed T (usecs tv) s1 xs).
      { exists (N ++ [a]), P. rewrite <- app_assoc. split; [done|]. split; [done|]. split.
        - intros b [Hb|Hb]%elem_of_app Hl; rewrite Hd1; destruct (Hl1 b Hl) as [Hl2 Hne]; [by apply HN|].
          by apply list_elem_of_singleton in Hb.
        - intros b Hb. rewrite Hd1. specialize (Hsort b Hb). lia. }
      destruct (invoke_ok s1 w xs fs (t_callback t) SILC_TASK_EXPIRE 0 (t_context t) G1)
        as (s2 & w2 & xs2 & fs2 & Inv & G2 & E2).
      assert (Hpl : usecs tv <= T <= now s1 \/ s_valid s1 = false).
      { destruct Ht as [(-> & -> & Hnow & _)|[_ Hv]]; [left|by right].
        destruct Hexp as [?|?]; [done|]. unfold now in *. cbn. lia. }
      pose proof (e_place _ _ _ _ E2 T (usecs tv) Hpl Pl1) as Pl2.
      destruct (e_kept _ _ _ _ E2 a Hax) as (Ha2 & _ & _).
      destruct (remove_placed T (usecs tv) s2 xs2 fs2 a G2 Ha2 Pl2)
        as (s3 & Rm & G3 & (N3 & P3 & Exs3 & C3 & HN3 & HP3) & _ & Etk3 & Ecl3 & Ev3 & Eh3).
      destruct (next_ok s3 _ _ N3 P3 G3 Exs3 C3) as (l3 & Get & G4 & C4).
      set (s4 := set_timeout_queue s3 (s_links s3) l3) in *.
      pose proof (e_ticks _ _ _ _ E2) as Etk2. cbn in Etk2.
      assert (Ht4 : time_ok T (usecs tv) all cur s4).
      { eapply (time_ok_step T (usecs tv) all cur s); [|cbn; lia|].
        - destruct Ht as [(-> & -> & Hnow & _)|?]; [left|by right]. destruct Hexp; [done|]. auto.
        - intros Hv. change (s_valid s3 = false). rewrite Ev3. by apply (e_stopped _ _ _ _ E2). }
      assert (Hcalled : forall s', s_called s' = s_called s3 -> s_called s' = s_called s ++ [(a, tv)])
        by (intros s' ->; rewrite Ecl3, (e_called _ _ _ _ E2); done).
      assert (Hstop : s_valid s = false -> s_valid s3 = false)
        by (intros Hv; rewrite Ev3; by apply (e_stopped _ _ _ _ E2)).
      assert (Hsel : has_timeout s3 = has_timeout s) by (rewrite Eh3; apply (e_select _ _ _ _ E2)).
      assert (Loop : exists fuel r, (if 40 <? count + 1 then Ok (s3, w2)
          else dispatch_loop clock alloc schedule_fd app fuel s4 w2 cur all (count + 1) (head P3)) = Ok r /\
          dispatched count T K all cur s r).
      { destruct (40 <? count + 1) eqn:Emax.
        - exists O, (s3, w2). split; [done|].
          apply (dispatched_more count T K (usecs tv) all cur s s3 (a, tv)); try done;
            [by apply Hcalled|lia|]. eapply dispatch_end; [exact G3|lia|lia].
        - destruct (IHn (length P3) s4 w2 _ _ N3 P3 (head P3) (count + 1) (usecs tv) G4 Exs3 eq_refl C4 HN3 HP3)
            as (fuel & r & Er & D); try done; try lia.
          exists fuel, r. split; [done|].
          apply (dispatched_more count T K (usecs tv) all cur s s4 (a, tv)); try done;
            [by apply Hcalled|cbn; lia]. }
      destruct Loop as (fuel & r & Er & D). exists (S fuel), r. split; [|done].
      cbn [dispatch_loop]. unfold task_at. rewrite Ea. cbn [obind]. rewrite Ev. cbn [negb].
      rewrite Ek. replace ((0 <? silc_compare_timeval tv cur) && negb all) with false.
      2:{ destruct (0 <? _) eqn:El, all; try done. destruct Hdue. split; [lia|done]. }
      fold s1. rewrite Inv. cbn [obind]. rewrite Rm. cbn [obind]. rewrite Get. exact Er.
  - destruct (skip_ok s xs fs N P a t G Exs C Ea Ev)
      as (s3 & l3 & Rm & Get & G4 & C4 & Et & Eh & Etk & Ecl & Evl).
    set (s4 := set_timeout_queue s3 (s_links s3) l3) in *.
    assert (Hd4 : forall b, due s4 b = due s b /\ (live s4 b -> live s b))
      by (intros b; unfold due, kind_of, live; by rewrite Et).
    destruct (IHm s4 w _ _ N P (head P) count K G4 eq_refl eq_refl C4) as (fuel & r & Er & D); try done; try lia.
    { intros b Hb Hl. destruct (Hd4 b) as [-> Hl']. auto. }
    { intros b Hb. destruct (Hd4 b) as [-> _]. apply HP. by right. }
    { eapply (time_ok_step T K all cur s); [done|lia|congruence]. }
    exists (S fuel), r. split.
    + cbn [dispatch_loop]. unfold task_at at 1. rewrite Ea. cbn [obind]. rewrite Ev. cbn [negb].
      rewrite Rm. cbn [obind]. rewrite Get. exact Er.
    + destruct D as (xs' & fs' & calls & D1 & D2 & D3 & D4 & D5 & D6 & D7 & D8 & D9).
      exists xs', fs', calls. split; [done|]. split; [congruence|].
      do 4 (split; [done|]). split; [lia|]. split; [|congruence]. intros Hv. apply D8. congruence.
Qed.

(** *** More fuel changes nothing *)

Lemma obind_fuel {A B} (o : outcome A) (f g : A -> outcome B) :
  obind o f <> NoFuel -> (forall a, o = Ok a -> f a <> NoFuel -> g a = f a) -> obind o g = obind o f.
Proof. intros H E. destruct o as [a| | |]; [by apply E|done..]. Qed.

Lemma dispatch_loop_more cur all : forall fuel s w count task,
  dispatch_loop clock alloc schedule_fd app fuel s w cur all count task <> NoFuel ->
  dispatch_loop clock alloc schedule_fd app (S fuel) s w cur all count task =
  dispatch_loop clock alloc schedule_fd app fuel s w cur all count task.
Proof.
  induction fuel as [|fuel IH]; intros s w count task; [by destruct task|].
  assert (Next : forall s w count,
    (let '(l, task) := silc_list_get (s_links s) (timeout_queue s) in
     dispatch_loop clock alloc schedule_fd app fuel (set_timeout_queue s (s_links s) l) w cur all count task)
       <> NoFuel ->
    (let '(l, task) := silc_list_get (s_links s) (timeout_queue s) in
     dispatch_loop clock alloc schedule_fd app (S fuel) (set_timeout_queue s (s_links s) l) w cur all count task) =
    (let '(l, task) := silc_list_get (s_links s) (timeout_queue s) in
     dispatch_loop clock alloc schedule_fd app fuel (set_timeout_queue s (s_links s) l) w cur all count task)).
  { intros s0 w0 c0. destruct (silc_list_get _ _). apply IH. }
  destruct task as [a|]; [|done]. intros H.
  change (dispatch_loop clock alloc schedule_fd app (S (S fuel)) s w cur all count (Some a))
    with (let* t := task_at s a in
      if negb (t_valid t) then
        let* s := silc_schedule_task_remove s a in
        let '(l, task) := silc_list_get (s_links s) (timeout_queue s) in
        dispatch_loop clock alloc schedule_fd app (S fuel) (set_timeout_queue s (s_links s) l) w cur all count task
      else
        match t_kind t with
        | TimeoutTask timeout =>
            if (0 <? silc_compare_timeval timeout cur) && negb all then Ok (s, w)
            else
              let s := log_call (invalidate s a) (a, timeout) in
              let* (s, w) := invoke clock alloc schedule_fd app s w (t_callback t) SILC_TASK_EXPIRE 0 (t_context t) in
              let* s := silc_schedule_task_remove s a in
              if 40 <? count + 1 then Ok (s, w)
              else let '(l, task) := silc_list_get (s_links s) (timeout_queue s) in
                dispatch_loop clock alloc schedule_fd app (S fuel) (set_timeout_queue s (s_links s) l) w cur all
                  (count + 1) task
        | FdTask _ _ _ => Dangling
        end).
  cbn [dispatch_loop] in H |- *. apply obind_fuel; [exact H|]. intros t _ H1.
  destruct (negb (t_valid t)).
  - apply obind_fuel; [exact H1|]. intros s1 _. apply Next.
  - destruct (t_kind t); [|done]. destruct (_ && _); [done|].
    apply obind_fuel; [exact H1|]. intros [s1 w1] _ H2.
    apply obind_fuel; [exact H2|]. intros s2 _. destruct (40 <? count + 1); [done|]. apply Next.
Qed.

Lemma dispatch_loop_le cur all fuel fuel' s w count task :
  (fuel <= fuel')%nat ->
  dispatch_loop clock alloc schedule_fd app fuel s w cur all count task <> NoFuel ->
  dispatch_loop clock alloc schedule_fd app fuel' s w cur all count task =
  dispatch_loop clock alloc schedule_fd app fuel s w cur all count task.
Proof.
  induction 1 as [|fuel' Hle IH]; intros H; [done|].
  rewrite <- IH by done. apply dispatch_loop_more. by rewrite IH.
Qed.

Abbreviation dispatch_timeout := (silc_schedule_dispatch_timeout clock alloc schedule_fd app).

Lemma dispatch_le fuel fuel' s w all :
  (fuel <= fuel')%nat -> dispatch_timeout fuel s w all <> NoFuel ->
  dispatch_timeout fuel' s w all = dispatch_timeout fuel s w all.
Proof.
  intros Hle. unfold silc_schedule_dispatch_timeout. cbn [gettimeofday].
  destruct (silc_list_get _ _). by apply dispatch_loop_le.
Qed.

(** The start of a traversal of the queue. *)
Lemma start_get s xs fs :
  good s xs fs ->
  exists l, silc_list_get (s_links s) (silc_list_start (timeout_queue s)) = (l, head xs) /\
    good (set_timeout_queue s (s_links s) l) xs fs /\ l_current l = head (tail xs).
Proof.
  intros G. set (s0 := set_timeout_queue s (s_links s) (silc_list_start (timeout_queue s))).
  assert (G0 : good s0 xs fs).
  { apply good_queue_cursor; [done|by apply list_start_ok, G|]. split; [done|].
    symmetry. apply (g_forward _ _ _ G). }
  destruct (next_ok s0 xs fs [] xs G0 eq_refl) as (l & E & G1 & C).
  { apply (rep_head _ _ _ (g_queue _ _ _ G)). }
  exists l. split; [exact E|]. split; [|exact C]. by eapply good_same.
Qed.

Lemma due_nonneg s xs fs b : good s xs fs -> b ∈ xs -> 0 <= due s b.
Proof.
  intros G Hb. destruct (proj1 (timer_kind s b)) as (tv & E & [Hp1 Hp2]).
  { apply (g_timers _ _ _ G), elem_of_app. by left. }
  unfold due. rewrite E. cbn. unfold usecs. lia.
Qed.

Lemma dispatch_timeout_ok s w xs fs all T :
  good s xs fs -> 0 <= T ->
  (all = false /\ T = now s) \/ (all = true /\ s_valid s = false) ->
  exists fuel r, dispatch_timeout fuel s w all = Ok r /\ dispatched 0 T 0 all (clock (ticks s)) s r.
Proof.
  intros G HT Ht. unfold silc_schedule_dispatch_timeout. cbn [gettimeofday].
  destruct (start_get (tick s) xs fs) as (l & -> & G1 & C); [by eapply good_same|].
  set (s1 := set_timeout_queue (tick s) (s_links (tick s)) l) in *.
  destruct (timer_loop_ok T all (clock (ticks s)) ltac:(apply clock_proper) 41 (length xs) s1 w xs fs [] xs
    (head xs) 0 0 G1 eq_refl eq_refl C) as (fuel & r & E & D); try done.
  - intros b Hb. by apply not_elem_of_nil in Hb.
  - intros b Hb. by apply (due_nonneg s1 xs fs).
  - lia.
  - destruct Ht as [[-> ->]|?]; [left|by right]. split; [done|]. split; [done|]. split; [|done].
    unfold now, s1. cbn. pose proof (clock_mono (ticks s)). lia.
  - exists fuel, r. split; [done|]. destruct D as (xs' & fs' & calls & D1 & D2 & D3 & D4 & D5 & D6 & D7 & D8 & D9).
    exists xs', fs', calls. do 6 (split; [done|]). split; [cbn in D7; lia|by split].
Qed.

(** *** [silc_schedule_select_timeout] *)

(** The scheduler is to wake when the first live timer is due, as far as
    [next_timeout] says so; without one it is not to wake. *)
Definition selected (cur : timeval) (s : Schedule) (xs : list Z) : Prop :=
  if has_timeout s then
    exists a tv, a ∈ xs /\ live s a /\ kind_of s a = Some (TimeoutTask tv) /\
      (forall b, b ∈ xs -> live s b -> due s a <= due s b) /\ s_timeout s = next_timeout tv cur
  else forall b, b ∈ xs -> ~ live s b.

(** What has been passed is not live. *)
Lemma select_end s xs fs N (w : W) cur :
  good s xs fs -> xs = N -> has_timeout s = false -> (forall b, b ∈ N -> ~ live s b) ->
  exists xs' fs', good (s, w).1 xs' fs' /\ selected cur (s, w).1 xs'.
Proof. intros G -> Hh HN. exists N, fs. split; [done|]. unfold selected. cbn. by rewrite Hh. Qed.

Lemma select_first s xs fs N P a t tv (w : W) cur :
  good s xs fs -> xs = N ++ a :: P -> (forall b, b ∈ N -> ~ live s b) ->
  s_tasks s !! a = Some t -> t_valid t = true -> t_kind t = TimeoutTask tv ->
  exists xs' fs', good (set_timeout s (next_timeout tv cur) true, w).1 xs' fs' /\
    selected cur (set_timeout s (next_timeout tv cur) true, w).1 xs'.
Proof.
  intros G Exs HN Ea Ev Ek. exists xs, fs. cbn [fst]. split; [by eapply good_same|].
  unfold selected. cbn [has_timeout set_timeout]. exists a, tv.
  split; [rewrite Exs, elem_of_app, elem_of_cons; tauto|].
  split; [unfold live; cbn; rewrite Ea; cbn; by rewrite Ev|].
  split; [unfold kind_of; cbn; rewrite Ea; cbn; by rewrite Ek|]. split; [|done].
  pose proof (g_sorted _ _ _ G) as So. rewrite Exs in So. apply sorted_app in So as (_ & So & _).
  inversion_clear So as [|? ? _ F]. rewrite list.Forall_forall in F.
  intros b Hb Hl. rewrite Exs, elem_of_app, elem_of_cons in Hb.
  destruct Hb as [Hb|[->|Hb]]; [by destruct (HN b Hb)|done|by apply F].
Qed.

(** After the dispatch, or without one. *)
Lemma select_loop_late cur : forall P s w xs fs N,
  good s xs fs -> xs = N ++ P -> l_current (timeout_queue s) = head (tail P) ->
  (forall b, b ∈ N -> ~ live s b) -> has_timeout s = false ->
  exists fuel0, forall fuel, (fuel0 <= fuel)%nat ->
  exists r, select_loop clock alloc schedule_fd app fuel s w cur false (head P) = Ok r /\
    exists xs' fs', good r.1 xs' fs' /\ selected cur r.1 xs'.
Proof.
  induction P as [|a P IH]; intros s w xs fs N G Exs C HN Hh.
  { exists O. intros fuel _. exists (s, w). split; [by destruct fuel|].
    eapply select_end; [exact G|rewrite Exs; apply app_nil_r|done|done]. }
  cbn [list.head list.tail] in *.
  destruct (g_timers _ _ _ G a) as (t & tv & Ea & Ek & Hpt).
  { rewrite Exs, !elem_of_app, elem_of_cons. tauto. }
  destruct (t_valid t) eqn:Ev.
  - exists 1%nat. intros [|fuel] Hf; [lia|]. eexists. cbn [select_loop]. unfold task_at.
    rewrite Ea. cbn [obind]. rewrite Ev. cbn [negb]. rewrite Ek, andb_false_r. split; [done|].
    by eapply select_first.
  - destruct (skip_ok s xs fs N P a t G Exs C Ea Ev) as (s3 & l & Rm & Get & G4 & C4 & Et & Eh & _).
    destruct (IH _ w _ _ N G4 eq_refl C4) as (fuel0 & H).
    { intros b Hb Hl. apply (HN b Hb). unfold live in *. by rewrite Et in Hl. }
    { by rewrite Eh. }
    exists (S fuel0). intros [|fuel] Hf; [lia|]. destruct (H fuel ltac:(lia)) as (r & E & R).
    exists r. split; [|exact R]. cbn [select_loop]. unfold task_at at 1. rewrite Ea. cbn [obind].
    rewrite Ev. cbn [negb]. rewrite Rm. cbn [obind]. by rewrite Get.
Qed.

Lemma select_loop_ok cur : forall P s w xs fs N,
  good s xs fs -> xs = N ++ P -> l_current (timeout_queue s) = head (tail P) ->
  (forall b, b ∈ N -> ~ live s b) -> has_timeout s = false ->
  exists fuel0, forall fuel, (fuel0 <= fuel)%nat ->
  exists r, select_loop clock alloc schedule_fd app fuel s w cur true (head P) = Ok r /\
    exists xs' fs', good r.1 xs' fs' /\ (s_valid r.1 = true -> selected cur r.1 xs').
Proof.
  induction P as [|a P IH]; intros s w xs fs N G Exs C HN Hh.
  { exists O. intros fuel _. exists (s, w). split; [by destruct fuel|].
    destruct (select_end s xs fs N w cur) as (xs' & fs' & H1 & H2);
      [done|rewrite Exs; apply app_nil_r|done|done|]. by exists xs', fs'. }
  cbn [list.head list.tail] in *.
  destruct (g_timers _ _ _ G a) as (t & tv & Ea & Ek & Hpt).
  { rewrite Exs, !elem_of_app, elem_of_cons. tauto. }
  destruct (t_valid t) eqn:Ev.
  - destruct (silc_compare_timeval tv cur <=? 0) eqn:Ecmp.
    2:{ exists 1%nat. intros [|fuel] Hf; [lia|]. eexists. cbn [select_loop]. unfold task_at.
        rewrite Ea. cbn [obind]. rewrite Ev. cbn [negb]. rewrite Ek, Ecmp. split; [done|].
        destruct (select_first s xs fs N P a t tv w cur) as (xs' & fs' & H1 & H2); [done..|].
        by exists xs', fs'. }
    destruct (dispatch_timeout_ok s w xs fs false (now s) G) as (f1 & [s1 w1] & D & xs1 & fs1 & calls & G1 & _ & _ & _ & _ & _ & _ & _ & Hs1);
      [unfold now, usecs; destruct (clock_proper (ticks s)) as [[? ?] _]; lia|by left|].
    cbn [fst] in G1, Hs1. destruct (s_valid s1) eqn:Ev1.
    2:{ exists (S f1). intros [|fuel] Hf; [lia|]. exists (s1, w1). cbn [select_loop]. unfold task_at.
        rewrite Ea. cbn [obind]. rewrite Ev. cbn [negb]. rewrite Ek, Ecmp. cbn [andb].
        rewrite (dispatch_le f1), D by (lia || by rewrite D). cbn [obind]. rewrite Ev1. cbn [negb].
        split; [done|]. exists xs1, fs1. split; [done|]. cbn [fst]. congruence. }
    destruct (start_get s1 xs1 fs1 G1) as (l & Get & G2 & C2).
    destruct (select_loop_late cur xs1 _ w1 xs1 fs1 [] G2 eq_refl C2) as (f2 & Late).
    { intros b Hb. by apply not_elem_of_nil in Hb. }
    { change (has_timeout s1 = false). congruence. }
    exists (S (f1 + f2)). intros [|fuel] Hf; [lia|].
    destruct (Late fuel ltac:(lia)) as (r & E & xs' & fs' & H1 & H2). exists r.
    split; [|by exists xs', fs']. cbn [select_loop]. unfold task_at at 1.
    rewrite Ea. cbn [obind]. rewrite Ev. cbn [negb]. rewrite Ek, Ecmp. cbn [andb].
    rewrite (dispatch_le f1), D by (lia || by rewrite D). cbn [obind]. rewrite Ev1. cbn [negb].
    change (s_links (set_timeout_queue s1 (s_links s1) (silc_list_start (timeout_queue s1)))) with (s_links s1).
    change (timeout_queue (set_timeout_queue s1 (s_links s1) (silc_list_start (timeout_queue s1))))
      with (silc_list_start (timeout_queue s1)).
    rewrite Get. exact E.
  - destruct (skip_ok s xs fs N P a t G Exs C Ea Ev) as (s3 & l & Rm & Get & G4 & C4 & Et & Eh & _).
    destruct (IH _ w _ _ N G4 eq_refl C4) as (fuel0 & H).
    { intros b Hb Hl. apply (HN b Hb). unfold live in *. by rewrite Et in Hl. }
    { by rewrite Eh. }
    exists (S fuel0). intros [|fuel] Hf; [lia|]. destruct (H fuel ltac:(lia)) as (r & E & R).
    exists r. split; [|exact R]. cbn [select_loop]. unfold task_at at 1. rewrite Ea. cbn [obind].
    rewrite Ev. cbn [negb]. rewrite Rm. cbn [obind]. by rewrite Get.
Qed.

Lemma select_loop_more cur : forall fuel s w dispatch task,
  select_loop clock alloc schedule_fd app fuel s w cur dispatch task <> NoFuel ->
  select_loop clock alloc schedule_fd app (S fuel) s w cur dispatch task =
  select_loop clock alloc schedule_fd app fuel s w cur dispatch task.
Proof.
  induction fuel as [|fuel IH]; intros s w dispatch task; [by destruct task|].
  assert (Next : forall s w dispatch,
    (let '(l, task) := silc_list_get (s_links s) (timeout_queue s) in
     select_loop clock alloc schedule_fd app fuel (set_timeout_queue s (s_links s) l) w cur dispatch task)
       <> NoFuel ->
    (let '(l, task) := silc_list_get (s_links s) (timeout_queue s) in
     select_loop clock alloc schedule_fd app (S fuel) (set_timeout_queue s (s_links s) l) w cur dispatch task) =
    (let '(l, task) := silc_list_get (s_links s) (timeout_queue s) in
     select_loop clock alloc schedule_fd app fuel (set_timeout_queue s (s_links s) l) w cur dispatch task)).
  { intros s0 w0 d0. destruct (silc_list_get _ _). apply IH. }
  destruct task as [a|]; [|done]. intros H.
  change (select_loop clock alloc schedule_fd app (S (S fuel)) s w cur dispatch (Some a))
    with (let* t := task_at s a in
      if negb (t_valid t) then
        let* s := silc_schedule_task_remove s a in
        let '(l, task) := silc_list_get (s_links s) (timeout_queue s) in
        select_loop clock alloc schedule_fd app (S fuel) (set_timeout_queue s (s_links s) l) w cur dispatch task
      else
        match t_kind t with
        | TimeoutTask timeout =>
            if (silc_compare_timeval timeout cur <=? 0) && dispatch then
              let* (s, w) := dispatch_timeout (S fuel) s w false in
              if negb (s_valid s) then Ok (s, w)
              else
                let s := set_timeout_queue s (s_links s) (silc_list_start (timeout_queue s)) in
                let '(l, task) := silc_list_get (s_links s) (timeout_queue s) in
                select_loop clock alloc schedule_fd app (S fuel) (set_timeout_queue s (s_links s) l) w cur false task
            else Ok (set_timeout s (next_timeout timeout cur) true, w)
        | FdTask _ _ _ => Dangling
        end).
  cbn [select_loop] in H |- *. apply obind_fuel; [exact H|]. intros t _ H1.
  destruct (negb (t_valid t)).
  - apply obind_fuel; [exact H1|]. intros s1 _. apply Next.
  - destruct (t_kind t); [|done]. destruct (_ && _); [|done].
    rewrite (dispatch_le fuel (S fuel)); [|lia|by intros E; rewrite E in H1].
    apply obind_fuel; [exact H1|]. intros [s1 w1] _. destruct (negb (s_valid s1)); [done|]. apply Next.
Qed.

Abbreviation select_timeout := (silc_schedule_select_timeout clock alloc schedule_fd app).

Lemma select_le fuel fuel' s w :
  (fuel <= fuel')%nat -> select_timeout fuel s w <> NoFuel ->
  select_timeout fuel' s w = select_timeout fuel s w.
Proof.
  unfold silc_schedule_select_timeout. cbn [gettimeofday]. destruct (silc_list_get _ _) as [l task].
  induction 1 as [|fuel' Hle IH]; intros H; [done|].
  rewrite <- IH by done. apply select_loop_more. by rewrite IH.
Qed.

Lemma select_timeout_ok s w xs fs :
  good s xs fs ->
  exists fuel r xs' fs', select_timeout fuel s w = Ok r /\ good r.1 xs' fs' /\
    (s_valid r.1 = true -> selected (clock (ticks s)) r.1 xs').
Proof.
  intros G. unfold silc_schedule_select_timeout. cbn [gettimeofday].
  set (s1 := set_timeout (tick s) (s_timeout (tick s)) false).
  destruct (start_get s1 xs fs) as (l & Get & G1 & C); [by eapply good_same|].
  rewrite Get. destruct (select_loop_ok (clock (ticks s)) xs _ w xs fs [] G1 eq_refl C) as (fuel & H).
  { intros b Hb. by apply not_elem_of_nil in Hb. }
  { done. }
  destruct (H fuel ltac:(lia)) as (r & E & xs' & fs' & H1 & H2). by exists fuel, r, xs', fs'.
Qed.

(** What is left to wait, in microseconds. *)
Lemma next_timeout_spec tv cur :
  proper tv -> proper cur ->
  usecs (next_timeout tv cur) =
    if usecs cur <=? usecs tv then usecs tv - usecs cur
    else (tv_usec tv - tv_usec cur) mod 1000000.
Proof.
  intros [H1 H2] [H3 H4]. unfold next_timeout, usecs.
  assert (Em : (tv_usec tv - tv_usec cur) mod 1000000 =
               if tv_usec tv - tv_usec cur <? 0 then tv_usec tv - tv_usec cur + 1000000
               else tv_usec tv - tv_usec cur).
  { destruct (_ <? 0) eqn:E; [|apply Z.mod_small; lia].
    rewrite <- (Z.mod_add _ 1) by lia. apply Z.mod_small. lia. }
  rewrite Em. clear Em.
  destruct (tv_usec tv - tv_usec cur <? 0) eqn:E1, (tv_sec tv - tv_sec cur <? 0) eqn:E2;
    cbn [tv_sec tv_usec]; repeat (case_match; cbn [tv_sec tv_usec]); lia.
Qed.

(** ** Starting *)

Lemma empty_good n :
  good (mkSchedule ∅ ∅ ∅ silc_list_init silc_list_init silc_list_init (mkTime 0 0) false true n 0 []) [] [].
Proof.
  split; cbn [s_links timeout_queue free_tasks s_tasks fd_queue].
  1-2: apply list_init_ok.
  1-2: done.
  - constructor.
  - intros a Ha. by apply not_elem_of_nil in Ha.
  - constructor.
  - intros fd a E. by rewrite lookup_empty in E.
  - intros a t E. by rewrite lookup_empty in E.
  - by rewrite map_size_empty.
Qed.

Abbreviation init := (silc_schedule_init clock alloc schedule_fd).

Lemma init_ok n : exists s xs fs, init n = Ok s /\ good s xs fs.
Proof.
  unfold silc_schedule_init.
  destruct (task_add_ok _ [] [] 0 gc_callback 0 3600 0 SILC_TASK_TIMEOUT (empty_good n))
    as (s & r & xs & fs & -> & G & _); [by unfold delay_ok|].
  cbn [obind]. by exists s, xs, fs.
Qed.

(** The states between the calls of an application. *)
Inductive reaches : Schedule -> Prop :=
  | reach_init n s : init n = Ok s -> reaches s
  | reach_calls s p s' w : reaches s -> tame p -> run_prog clock alloc schedule_fd s p = Ok (s', w) -> reaches s'
  | reach_dispatch fuel s w s' w' : reaches s -> dispatch_timeout fuel s w false = Ok (s', w') -> reaches s'
  | reach_select fuel s w s' w' : reaches s -> select_timeout fuel s w = Ok (s', w') -> reaches s'.

Lemma dispatch_any s xs fs fuel w all :
  good s xs fs -> (all = true -> s_valid s = false) ->
  dispatch_timeout fuel s w all = NoFuel \/
  exists r T, dispatch_timeout fuel s w all = Ok r /\ dispatched 0 T 0 all (clock (ticks s)) s r.
Proof.
  intros G Hall.
  destruct (dispatch_timeout_ok s w xs fs all (now s) G) as (f & r & E & D).
  - unfold now, usecs. destruct (clock_proper (ticks s)) as [[? ?] _]. lia.
  - destruct all; [right; auto|by left].
  - destruct (dispatch_timeout fuel s w all) as [r'| | |] eqn:E'; [| |by left|]; right;
      exists r, (now s); (split; [|done]); rewrite <- E', <- E;
      rewrite <- (dispatch_le fuel (Nat.max fuel f)) by (lia || by rewrite E');
      by rewrite (dispatch_le f) by (lia || by rewrite E).
Qed.

Lemma select_any s xs fs fuel w :
  good s xs fs ->
  select_timeout fuel s w = NoFuel \/
  exists r xs' fs', select_timeout fuel s w = Ok r /\ good r.1 xs' fs' /\
    (s_valid r.1 = true -> selected (clock (ticks s)) r.1 xs').
Proof.
  intros G. destruct (select_timeout_ok s w xs fs G) as (f & r & xs' & fs' & E & H).
  destruct (select_timeout fuel s w) as [r'| | |] eqn:E'; [| |by left|]; right;
    exists r, xs', fs'; (split; [|done]); rewrite <- E', <- E;
    rewrite <- (select_le fuel (Nat.max fuel f)) by (lia || by rewrite E');
    by rewrite (select_le f) by (lia || by rewrite E).
Qed.

Lemma reaches_good s : reaches s -> exists xs fs, good s xs fs.
Proof.
  induction 1 as [n s E|s p s' w _ (xs & fs & G) Hp E|fuel s w s' w' _ (xs & fs & G) E|
    fuel s w s' w' _ (xs & fs & G) E].
  - destruct (init_ok n) as (s0 & xs & fs & E0 & G). exists xs, fs. congruence.
  - destruct (run_prog_ok p Hp s xs fs G) as (s1 & w1 & xs1 & fs1 & E1 & G1 & _).
    exists xs1, fs1. congruence.
  - destruct (dispatch_any s xs fs fuel w false G) as [E1|(r & T & E1 & xs1 & fs1 & calls & G1 & _)];
      [done|congruence|]. exists xs1, fs1. rewrite E in E1. by injection E1 as <-.
  - destruct (select_any s xs fs fuel w G) as [E1|(r & xs1 & fs1 & E1 & G1 & _)]; [congruence|].
    exists xs1, fs1. rewrite E in E1. by injection E1 as <-.
Qed.



(** The selection ends, and if the scheduler is still valid it is to wake when the first
    live timer of the queue is due: after exactly the time to it when that is not
    past, after less than a second when it is, and not at all without live timers. *)
Theorem select_wakes (s : Schedule) (w : W) :
  reaches s ->
  exists fuel s' w' xs' fs',
    select_timeout fuel s w = Ok (s', w') /\ good s' xs' fs' /\
    (s_valid s' = true ->
     if has_timeout s' then
       exists a, a ∈ xs' /\ live s' a /\ (forall b, b ∈ xs' -> live s' b -> due s' a <= due s' b) /\
         (now s <= due s' a -> usecs (s_timeout s') = due s' a - now s) /\
         (due s' a < now s -> 0 <= usecs (s_timeout s') < 1000000)
     else forall b, b ∈ xs' -> ~ live s' b).
Proof.
  intros R. destruct (reaches_good s R) as (xs & fs & G).
  destruct (select_timeout_ok s w xs fs G) as (fuel & [s' w'] & xs' & fs' & E & G' & H).
  exists fuel, s', w', xs', fs'. split; [done|]. split; [done|]. intros Hv. specialize (H Hv).
  unfold selected in H. cbn [fst] in *. destruct (has_timeout s'); [|exact H].
  destruct H as (a & tv & Ha & Hl & Hk & Hmin & Es). exists a. split; [done|]. split; [done|].
  split; [done|]. assert (Hd : due s' a = usecs tv) by (unfold due; by rewrite Hk).
  destruct (proj1 (timer_kind s' a)) as (tv' & Hk' & Hp).
  { apply (g_timers _ _ _ G'), elem_of_app. by left. }
  rewrite Hk in Hk'. injection Hk' as <-.
  rewrite Es, next_timeout_spec, Hd by (done || apply clock_proper). fold (now s).
  split; intros Hle; [by rewrite (proj2 (Z.leb_le _ _))|].
  rewrite (proj2 (Z.leb_gt _ _)) by done. apply Z.mod_pos_bound. lia.
Qed.

(** ** Ending *)

Lemma remove_all_loop_ok fs : forall xs s fuel,
  good s xs fs -> l_current (timeout_queue s) = head xs -> (length xs <= fuel)%nat ->
  exists s', remove_all_loop fuel s = Ok s' /\ good s' [] fs /\ fd_queue s' = fd_queue s /\
    s_called s' = s_called s.
Proof.
  induction xs as [|a xs IH]; intros s fuel G Hc Hf.
  { exists (set_timeout_queue s (s_links s) (timeout_queue s)).
    split; [destruct fuel; cbn [remove_all_loop]; unfold silc_list_get; by rewrite Hc|].
    split; [by eapply good_same|done]. }
  destruct fuel as [|fuel]; [cbn in Hf; lia|]. cbn [remove_all_loop].
  destruct (next_ok s _ fs [] (a :: xs) G eq_refl Hc) as (l & Get & G1 & C1). rewrite Get.
  cbn [list.head list.tail] in *. set (s1 := set_timeout_queue s (s_links s) l) in *.
  destruct (list_del_ok _ _ _ a (g_queue _ _ _ G1)) as (h & l' & D & R' & [K1 K2] & C').
  rewrite D. cbn [obind fueled].
  pose proof (rep_nodup _ _ _ (g_queue _ _ _ G1)) as Nx. pose proof Nx as [Na _]%list.NoDup_cons.
  rewrite (remove_spot a [] xs Nx : Lists.remove a (a :: xs) = xs) in R'.
  pose proof (g_nodup _ _ _ G1) as (_ & N2 & _)%list.NoDup_app.
  destruct (IH (free_task (set_timeout_queue s1 h l') a) fuel) as (s' & E & G' & F' & L');
    [| |cbn in Hf; lia|by exists s'].
  - eapply (good_forget s1 _ a (a :: xs) fs); try done.
    + pose proof (g_sorted _ _ _ G1) as So. by inversion_clear So.
    + eapply rep_frame; [apply (g_free _ _ _ G1)|apply (g_single _ _ _ G1)|]. intros b Hb.
      eapply (del_frame _ _ (a :: xs)); [apply (g_queue _ _ _ G1)|apply (g_single _ _ _ G1)|exact D|].
      intros Hb'. by apply (N2 b).
    + cbn. rewrite K1. apply (g_single _ _ _ G1).
    + apply (g_single _ _ _ G1).
    + cbn. rewrite K2. apply (g_forward _ _ _ G1).
    + apply (g_forward _ _ _ G1).
  - cbn. rewrite C'. change (l_current (timeout_queue s1)) with (l_current l). rewrite C1.
    rewrite bool_decide_false; [done|]. intros [E _]. apply Na. by apply head_in.
Qed.

Lemma hash_del_all_ok s xs fs :
  good s xs fs ->
  let s' := foldr (fun fd s => hash_del s fd) s (map_to_list (fd_queue s)).*1 in
  good s' xs fs /\ fd_queue s' = ∅ /\ s_called s' = s_called s /\
  s_links s' = s_links s /\ timeout_queue s' = timeout_queue s.
Proof.
  intros G s'.
  assert (H : forall l, let s' := foldr (fun fd s => hash_del s fd) s l in
    good s' xs fs /\ (forall fd, fd_queue s' !! fd = if bool_decide (fd ∈ l) then None else fd_queue s !! fd) /\
    s_called s' = s_called s /\ s_links s' = s_links s /\ timeout_queue s' = timeout_queue s).
  { induction l as [|fd l (G1 & F1 & C1 & L1 & Q1)]; cbn [foldr].
    { split; [done|]. split; [|done]. intros fd. by rewrite bool_decide_false by apply not_elem_of_nil. }
    set (s1 := foldr _ s l) in *. destruct (hash_del_ok s1 xs fs fd G1) as (G2 & E2 & D2).
    split; [done|].
    assert (Hf : fd_queue (hash_del s1 fd) = delete fd (fd_queue s1) /\
      s_links (hash_del s1 fd) = s_links s1 /\ timeout_queue (hash_del s1 fd) = timeout_queue s1).
    { unfold hash_del. destruct (fd_queue s1 !! fd) eqn:E; [done|]. by rewrite delete_id. }
    destruct Hf as (Hf & Hl & Hq).
    split; [|split; [rewrite (e_called _ _ _ _ E2); done|split; congruence]].
    intros fd'. rewrite Hf. destruct (decide (fd' = fd)) as [->|Hne].
    - rewrite lookup_delete_eq, bool_decide_true by (by left). done.
    - rewrite lookup_delete_ne, F1 by done. apply if_decide_ext.
      rewrite elem_of_cons. split; [by right|by intros [?|?]]. }
  destruct (H (map_to_list (fd_queue s)).*1) as (H1 & H2 & H3). split; [done|]. split; [|done].
  apply map_eq. intros fd. rewrite H2, lookup_empty. case_bool_decide as Hin; [done|].
  destruct (fd_queue s !! fd) as [a|] eqn:E; [|done]. destruct Hin.
  apply list_elem_of_fmap. exists (fd, a). split; [done|]. by apply elem_of_map_to_list.
Qed.

Lemma free_all_ok : forall fs0 fs s fuel,
  rep (s_links s) (free_tasks s) (fs0 ++ fs) -> end_set (free_tasks s) = false ->
  l_current (free_tasks s) = head fs -> (length fs <= fuel)%nat ->
  (forall a t, s_tasks s !! a = Some t -> a ∈ fs) ->
  exists s', free_all fuel s = Ok s' /\ s_tasks s' = ∅ /\ s_called s' = s_called s.
Proof.
  intros fs0 fs. revert fs0. induction fs as [|a fs IH]; intros fs0 s fuel R He Hc Hf Hall.
  { exists (set_free_tasks s (s_links s) (free_tasks s)).
    split; [destruct fuel; cbn [free_all]; unfold silc_list_get; by rewrite Hc|]. split; [|done].
    apply map_eq. intros a. rewrite lookup_empty. cbn. destruct (s_tasks s !! a) as [t|] eqn:E; [|done].
    apply Hall in E. by apply not_elem_of_nil in E. }
  destruct fuel as [|fuel]; [cbn in Hf; lia|]. cbn [free_all].
  pose proof (list_get_ok _ _ _ R ltac:(by rewrite He)) as Gt.
  destruct (silc_list_get (s_links s) (free_tasks s)) as [l r]. destruct Gt as (R' & [K1 K2] & -> & C).
  rewrite Hc in *. cbn [list.head] in *. cbv beta iota. rewrite He in C. cbn in C.
  rewrite spot_after in C by apply (rep_nodup _ _ _ R).
  destruct (IH (fs0 ++ [a]) (free_task (set_free_tasks s (s_links s) l) a) fuel) as (s' & E & T & L).
  - by rewrite <- app_assoc.
  - cbn. congruence.
  - done.
  - cbn in Hf. lia.
  - intros b t Eb. cbn in Eb. destruct (decide (b = a)) as [->|Hne]; [by rewrite lookup_delete_eq in Eb|].
    rewrite lookup_delete_ne in Eb by done. apply Hall in Eb. by apply elem_of_cons in Eb as [?|?].
  - by exists s'.
Qed.

(** Ending the scheduler refuses while it is valid; when it has been stopped it ends, and frees
    every task there is. *)
Theorem uninit_frees (s : Schedule) (w : W) :
  reaches s ->
  if s_valid s then forall fuel, silc_schedule_uninit clock alloc schedule_fd app fuel s w = Ok None
  else
    exists fuel s' w' calls,
      silc_schedule_uninit clock alloc schedule_fd app fuel s w = Ok (Some (s', w')) /\
      s_tasks s' = ∅ /\ s_called s' = s_called s ++ calls /\ zlen calls <= 41 /\
      StronglySorted (fun c d => usecs c.2 <= usecs d.2) calls.
Proof.
  intros R. destruct (reaches_good s R) as (xs & fs & G).
  unfold silc_schedule_uninit. destruct (s_valid s) eqn:Ev; [done|].
  destruct (dispatch_timeout_ok s w xs fs true 0 G ltac:(lia) ltac:(by right))
    as (fuel & [s1 w1] & E & xs1 & fs1 & calls & G1 & Ecl & Hlen & Hso & _).
  cbn [fst] in *. exists fuel. rewrite E. cbn [obind].
  destruct (del_all_ok s1 xs1 fs1 G1) as (s2 & -> & G2 & E2 & _ & _). cbn [obind].
  unfold remove_all. destruct (hash_del_all_ok s2 xs1 fs1 G2) as (G3 & F3 & C3 & L3 & Q3).
  set (s3 := foldr _ s2 _) in *.
  destruct (remove_all_loop_ok fs1 xs1 (set_timeout_queue s3 (s_links s3) (silc_list_start (timeout_queue s3)))
    (Z.to_nat (silc_list_count (timeout_queue s3)))) as (s4 & -> & G4 & F4 & C4).
  { apply good_queue_cursor; [done|by apply list_start_ok, G3|]. split; [done|].
    symmetry. apply (g_forward _ _ _ G3). }
  { apply (rep_head _ _ _ (g_queue _ _ _ G3)). }
  { unfold silc_list_count. rewrite (rep_count _ _ _ (g_queue _ _ _ G3)). unfold zlen. lia. }
  cbn [obind].
  destruct (free_all_ok [] fs1 (set_free_tasks s4 (s_links s4) (silc_list_start (free_tasks s4)))
    (Z.to_nat (silc_list_count (silc_list_start (free_tasks s4))))) as (s5 & E5 & T5 & C5).
  { by apply list_start_ok, G4. }
  { done. }
  { apply (rep_head _ _ _ (g_free _ _ _ G4)). }
  { unfold silc_list_count. cbn. rewrite (rep_count _ _ _ (g_free _ _ _ G4)). unfold zlen. lia. }
  { intros a t Ea. destruct (g_all _ _ _ G4 a t Ea) as [?|[fd Ef]]; [done|].
    rewrite F4 in Ef. cbn in Ef. rewrite F3 in Ef. by rewrite lookup_empty in Ef. }
  cbn [set_free_tasks free_tasks]. rewrite E5. cbn [obind].
  exists s5, w1, calls. split; [done|]. split; [done|]. split; [|done].
  rewrite C5. cbn. rewrite C4. cbn. rewrite C3. rewrite (e_called _ _ _ _ E2). exact Ecl.
Qed.
End Thms.

(** ** Concrete runs *)

(** A clock that is read every second, descriptors that can always be listened to,
    the first free address, and an application of two callbacks: the first adds the
    second, to be called at once. *)
Definition seconds_clock (n : nat) : timeval := mkTime (1000 + Z.min (Z.of_nat n) 1000000) 0.
Definition first_free (m : gmap Z Task) : option Z :=
  if (Z.of_nat (size m) <? 1073741823) then Some (fresh (dom m)) else None.
Definition any_fd (fd events : Z) : bool := true.
Definition two_callbacks (cb ev fd ctx : Z) (w : unit) : Prog unit :=
  if cb =? 1 then TaskAdd unit 0 2 0 0 0 SILC_TASK_TIMEOUT (fun _ => Return unit tt) else Return unit tt.

Lemma seconds_clock_proper n : proper (seconds_clock n) /\ tv_sec (seconds_clock n) < 1073741824.
Proof. unfold proper, seconds_clock. cbn. lia. Qed.

Lemma seconds_clock_mono n : usecs (seconds_clock n) <= usecs (seconds_clock (S n)).
Proof. unfold usecs, seconds_clock. cbn [tv_sec tv_usec]. lia. Qed.

Lemma first_free_fresh m a : first_free m = Some a -> m !! a = None /\ Z.of_nat (size m) < 1073741823.
Proof.
  unfold first_free. destruct (_ <? _) eqn:E; [|done]. intros [= <-]. split; [|lia].
  apply (not_elem_of_dom (D := gset Z)), is_fresh.
Qed.

Lemma two_callbacks_tame cb ev fd ctx w : tame (two_callbacks cb ev fd ctx w).
Proof.
  unfold two_callbacks. destruct (cb =? 1); repeat constructor; unfold delay_ok; lia.
Qed.

(** [n] timers of a callback, due after [sec] seconds. *)
Fixpoint add_timers (n : nat) (callback sec : Z) : Prog unit :=
  match n with
  | O => Return unit tt
  | S n => TaskAdd unit 0 callback 0 sec 0 SILC_TASK_TIMEOUT (fun _ => add_timers n callback sec)
  end.

Lemma add_timers_tame n cb sec : 0 <= sec < 1000000 -> tame (add_timers n cb sec).
Proof. intros H. induction n; cbn; constructor; [unfold delay_ok; lia|done]. Qed.

Definition the {A} (d : A) (o : outcome A) : A := match o with Ok a => a | _ => d end.

(** A new scheduler, and one with a timer of each callback. *)
Definition no_schedule : Schedule :=
  mkSchedule ∅ ∅ ∅ silc_list_init silc_list_init silc_list_init (mkTime 0 0) false false 0 0 [].
Definition fresh_schedule : Schedule := the no_schedule (silc_schedule_init seconds_clock first_free any_fd 0).
Definition two_timers : Prog unit :=
  TaskAdd unit 0 1 0 0 0 SILC_TASK_TIMEOUT (fun _ => add_timers 1 2 2).
Definition busy_schedule : Schedule :=
  fst (the (no_schedule, tt) (run_prog seconds_clock first_free any_fd fresh_schedule two_timers)).

Lemma fresh_reaches : reaches seconds_clock first_free any_fd two_callbacks fresh_schedule.
Proof. apply (reach_init _ _ _ _ 0). vm_compute. reflexivity. Qed.

Lemma busy_reaches : reaches seconds_clock first_free any_fd two_callbacks busy_schedule.
Proof.
  apply (reach_calls _ _ _ _ fresh_schedule two_timers _ tt); [apply fresh_reaches| |].
  - constructor; [unfold delay_ok; lia|]. intros _. apply add_timers_tame. lia.
  - vm_compute. reflexivity.
Qed.



Lemma select_wakes_witness :
  exists fuel s' w' xs' fs',
    silc_schedule_select_timeout seconds_clock first_free any_fd two_callbacks fuel busy_schedule tt =
      Ok (s', w') /\ good s' xs' fs' /\
    (s_valid s' = true ->
     if has_timeout s' then
       exists a, a ∈ xs' /\ live s' a /\ (forall b, b ∈ xs' -> live s' b -> due s' a <= due s' b) /\
         (now seconds_clock busy_schedule <= due s' a ->
            usecs (s_timeout s') = due s' a - now seconds_clock busy_schedule) /\
         (due s' a < now seconds_clock busy_schedule -> 0 <= usecs (s_timeout s') < 1000000)
     else forall b, b ∈ xs' -> ~ live s' b).
Proof.
  exact (select_wakes seconds_clock first_free any_fd seconds_clock_proper
    seconds_clock_mono first_free_fresh two_callbacks two_callbacks_tame busy_schedule tt busy_reaches).
Defined.

Lemma uninit_frees_witness :
  exists fuel s' w' calls,
    silc_schedule_uninit seconds_clock first_free any_fd two_callbacks fuel
      (silc_schedule_stop busy_schedule) tt = Ok (Some (s', w')) /\
    s_tasks s' = ∅ /\ s_called s' = s_called busy_schedule ++ calls /\ zlen calls <= 41 /\
    StronglySorted (fun c d => usecs c.2 <= usecs d.2) calls.
Proof.
  apply (uninit_frees seconds_clock first_free any_fd seconds_clock_proper
    seconds_clock_mono first_free_fresh two_callbacks two_callbacks_tame (silc_schedule_stop busy_schedule) tt).
  eapply (reach_calls _ _ _ _ busy_schedule (Stop unit (Return unit tt)) _ tt); [exact busy_reaches| |done].
  repeat constructor.
Defined.

(** The run: both timers are called, and the scheduler is to wake for the one that the
    first has added. *)
Lemma busy_run :
  let s := fst (the (no_schedule, tt)
    (silc_schedule_select_timeout seconds_clock first_free any_fd two_callbacks 100 busy_schedule tt)) in
  (has_timeout s, s_timeout s, zlen (s_called s)) = (true, mkTime 2 0, 2).
Proof. vm_compute. reflexivity. Qed.

(** ** What goes wrong *)

(** A clock that shows 1000.5 seconds for fifty readings, and then 1005.1. *)
Definition late_clock (n : nat) : timeval :=
  if (n <? 50)%nat then mkTime 1000 500000 else mkTime 1005 100000.

(** A scheduler with 49 timers that are due. *)
Definition late_schedule : Schedule :=
  fst (the (no_schedule, tt) (run_prog late_clock first_free any_fd
    (the no_schedule (silc_schedule_init late_clock first_free any_fd 0)) (add_timers 49 2 0))).

(** Of the timers that are due 41 are called; for the others, 4.6 seconds late, the
    scheduler is to wait 0.4 seconds more. *)
Lemma late_timers_wait :
  let s := fst (the (no_schedule, tt)
    (silc_schedule_select_timeout late_clock first_free any_fd two_callbacks 100 late_schedule tt)) in
  (zlen (s_called s), silc_list_count (timeout_queue s), has_timeout s, s_timeout s) =
  (41, 9, true, mkTime 0 400000).
Proof. vm_compute. reflexivity. Qed.

(** When the scheduler ends eight of the timers are freed without being called,
    although all timeouts are to be dispatched before. *)
Lemma uninit_drops_timers :
  match silc_schedule_uninit late_clock first_free any_fd two_callbacks 100
          (silc_schedule_stop late_schedule) tt with
  | Ok (Some (s, _)) => zlen (s_called s) = 41 /\ s_tasks s = ∅
  | _ => False
  end.
Proof. vm_compute. by split. Qed.

(** A callback that takes its descriptor out and registers it again, as one does
    that closes a connection and accepts another. *)
Definition reconnect (cb ev fd ctx : Z) (w : unit) : Prog unit :=
  TaskDelByFd unit fd (fun _ => TaskAdd unit fd 1 0 0 0 SILC_TASK_FD (fun _ => Return unit tt)).

Definition listening : Schedule :=
  fst (the (no_schedule, tt) (run_prog seconds_clock first_free any_fd fresh_schedule
    (TaskAdd unit 5 1 0 0 0 SILC_TASK_FD (fun _ => Return unit tt)))).

(** An allocator that does not give out the address 1 again. *)
Definition elsewhere (m : gmap Z Task) : option Z := Some (fresh (dom m ∪ {[1]})).

(** Adding the descriptor frees the task that is being dispatched. *)
Lemma fd_use_after_free :
  obind (fill_dispatch listening [(5, (true, false))]) (fun s =>
    silc_schedule_dispatch_fd seconds_clock elsewhere any_fd reconnect s tt) = Dangling.
Proof. vm_compute. reflexivity. Qed.

(** [silc_schedule_task_del_by_all] returns TRUE without a task to delete. *)
Lemma del_by_all_always_true :
  match silc_schedule_task_del_by_all fresh_schedule 0 7 7 with Ok (_, r) => r = true | _ => False end.
Proof. vm_compute. reflexivity. Qed.
