(* ===== verification/Membership.v ===== *)
(** * Channel membership in the server ([apps/silcd])

    The entries of clients and channels and the objects that join them
    ([idlist.h], [idlist.c]); how clients come to and leave channels: the JOIN
    command ([command.c]), the JOIN notify ([packet_receive.c]), the user and
    channel lists received from other servers, and the removal of a client from
    one channel, from all of them, or with the server it is on ([server.c],
    [server_util.c]).

    Clients, channels and the objects that join a client to a channel are
    addresses in three heaps.  [client->channels] and [channel->user_list] are
    the maps their hash tables implement (HashTable.v); adding a key twice to such
    a table is [Outside] the model.  The ID caches of [local_list] and
    [global_list] are lists of addresses in the order in which they are searched
    (IDCache.v).  The order in which a table is traversed, the allocator and the
    check of channel names are parameters.  Allocation succeeds, as the code
    assumes.  Packets that are sent, channel keys, invite lists and watcher lists
    are left out: they do not touch what is modelled. *)

From stdpp Require Import gmap.
From S2P Require Import Prelude CTypes Outcome.

#[local] Open Scope outcome_scope.

(** ** Data *)

(** [SILC_SERVER], [SILC_ROUTER], [SILC_BACKUP_ROUTER]. *)
Inductive ServerType := SILC_SERVER | SILC_ROUTER | SILC_BACKUP_ROUTER.
#[export] Instance ServerType_eq_dec : EqDecision ServerType.
Proof. solve_decision. Defined.

Definition SILC_IDLIST_STATUS_REGISTERED : Z := 0x01.
Definition SILC_IDLIST_STATUS_LOCAL : Z := 0x20.
Definition SILC_CHANNEL_MODE_FOUNDER_AUTH : Z := 0x0200.
Definition SILC_CHANNEL_UMODE_CHANFO : Z := 1.
Definition SILC_CHANNEL_UMODE_CHANOP : Z := 2.

(** [struct SilcClientEntryStruct]: the status, the ID (its IP and the whole), the
    server the client is behind, and the channels it is on. *)
Record SilcClientEntry := mkClient {
  cl_status : Z;
  cl_id : Z;
  cl_ip : list Z;
  cl_router : option Z;
  cl_channels : gmap Z Z
}.

(** [SilcChannelClientEntryStruct]. *)
Record SilcChannelClientEntry := mkChl { chl_client : Z; chl_mode : Z; chl_channel : Z }.

(** [struct SilcChannelEntryStruct]. *)
Record SilcChannelEntry := mkChannel {
  ch_id : Z;
  ch_mode : Z;
  ch_users : gmap Z Z;
  user_count : Z;
  global_users : bool;
  disabled : bool
}.

(** The statistics that count clients, channels and memberships. *)
Record SilcServerStatistics := mkStat {
  my_channels : Z;
  my_chanclients : Z;
  cell_clients : Z;
  cell_channels : Z;
  cell_chanclients : Z;
  stat_clients : Z;
  stat_channels : Z;
  stat_chanclients : Z
}.

Inductive SilcIDList := local_list | global_list.

(** The server and the heap: the allocated clients, channels and joining objects,
    the ID caches of the two lists, and the statistics. *)
Record SilcServer := mkServer {
  server_type : ServerType;
  clients : gmap Z SilcClientEntry;
  channels : gmap Z SilcChannelEntry;
  chls : gmap Z SilcChannelClientEntry;
  id_clients : SilcIDList -> list Z;
  id_channels : SilcIDList -> list Z;
  stat : SilcServerStatistics
}.

Definition set_clients s m := mkServer (server_type s) m (channels s) (chls s) (id_clients s) (id_channels s) (stat s).
Definition set_channels s m := mkServer (server_type s) (clients s) m (chls s) (id_clients s) (id_channels s) (stat s).
Definition set_chls s m := mkServer (server_type s) (clients s) (channels s) m (id_clients s) (id_channels s) (stat s).
Definition set_stat s f :=
  mkServer (server_type s) (clients s) (channels s) (chls s) (id_clients s) (id_channels s) (f (stat s)).

(** One of the two lists replaced. *)
Definition put_list (f : SilcIDList -> list Z) (L : SilcIDList) (l : list Z) : SilcIDList -> list Z :=
  match L with
  | local_list => fun K => match K with local_list => l | global_list => f global_list end
  | global_list => fun K => match K with local_list => f local_list | global_list => l end
  end.
Definition set_id_clients s L l :=
  mkServer (server_type s) (clients s) (channels s) (chls s) (put_list (id_clients s) L l) (id_channels s) (stat s).
Definition set_id_channels s L l :=
  mkServer (server_type s) (clients s) (channels s) (chls s) (id_clients s) (put_list (id_channels s) L l) (stat s).

(** Fields written through a pointer. *)
Definition on_client s c (f : SilcClientEntry -> SilcClientEntry) : outcome SilcServer :=
  let* cl := alive (clients s !! c) in Ok (set_clients s (<[c := f cl]> (clients s))).
Definition on_channel s ch (f : SilcChannelEntry -> SilcChannelEntry) : outcome SilcServer :=
  let* e := alive (channels s !! ch) in Ok (set_channels s (<[ch := f e]> (channels s))).
Definition on_chl s a (f : SilcChannelClientEntry -> SilcChannelClientEntry) : outcome SilcServer :=
  let* x := alive (chls s !! a) in Ok (set_chls s (<[a := f x]> (chls s))).

Definition with_channels m (cl : SilcClientEntry) := mkClient (cl_status cl) (cl_id cl) (cl_ip cl) (cl_router cl) m.
Definition with_users m (e : SilcChannelEntry) :=
  mkChannel (ch_id e) (ch_mode e) m (user_count e) (global_users e) (disabled e).
Definition count_users (d : Z) (e : SilcChannelEntry) :=
  mkChannel (ch_id e) (ch_mode e) (ch_users e) (u32 (user_count e + d)) (global_users e) (disabled e).
Definition set_global_users b (e : SilcChannelEntry) :=
  mkChannel (ch_id e) (ch_mode e) (ch_users e) (user_count e) b (disabled e).
Definition set_disabled b (e : SilcChannelEntry) :=
  mkChannel (ch_id e) (ch_mode e) (ch_users e) (user_count e) (global_users e) b.
Definition set_ch_mode m (e : SilcChannelEntry) :=
  mkChannel (ch_id e) m (ch_users e) (user_count e) (global_users e) (disabled e).
Definition set_chl_mode m (x : SilcChannelClientEntry) := mkChl (chl_client x) m (chl_channel x).

(** [silc_hash_table_add] of a key that is not in the table, and the two tables a
    membership is in. *)
Definition hash_add (k v : Z) (m : gmap Z Z) : outcome (gmap Z Z) :=
  match m !! k with None => Ok (<[k := v]> m) | Some _ => Outside end.

Definition add_user s ch c a : outcome SilcServer :=
  let* e := alive (channels s !! ch) in
  let* m := hash_add c a (ch_users e) in
  on_channel s ch (with_users m).
Definition add_channel s c ch a : outcome SilcServer :=
  let* cl := alive (clients s !! c) in
  let* m := hash_add ch a (cl_channels cl) in
  on_client s c (with_channels m).
Definition del_user s ch c : outcome SilcServer :=
  on_channel s ch (fun e => with_users (delete c (ch_users e)) e).
Definition del_channel s c ch : outcome SilcServer :=
  on_client s c (fun cl => with_channels (delete ch (cl_channels cl)) cl).

(** [silc_free(chl)]: freeing what is not allocated is an error, too. *)
Definition free_chl s a : outcome SilcServer :=
  let* _ := alive (chls s !! a) in Ok (set_chls s (delete a (chls s))).

(** [client->data.status |= bits]. *)
Definition add_status (bits : Z) (cl : SilcClientEntry) : SilcClientEntry :=
  mkClient (Z.lor (cl_status cl) bits) (cl_id cl) (cl_ip cl) (cl_router cl) (cl_channels cl).

(** [SILC_IS_LOCAL] and the registration of a client. *)
Definition SILC_IS_LOCAL (cl : SilcClientEntry) : bool :=
  negb (Z.land (cl_status cl) SILC_IDLIST_STATUS_LOCAL =? 0).
Definition is_registered (cl : SilcClientEntry) : bool :=
  negb (Z.land (cl_status cl) SILC_IDLIST_STATUS_REGISTERED =? 0).
Definition founder_auth (e : SilcChannelEntry) : bool :=
  negb (Z.land (ch_mode e) SILC_CHANNEL_MODE_FOUNDER_AUTH =? 0).

(** [server->server_type == SILC_SERVER] and [== SILC_ROUTER]. *)
Definition is_server s : bool := bool_decide (server_type s = SILC_SERVER).
Definition is_router s : bool := bool_decide (server_type s = SILC_ROUTER).

Definition bump_my_chanclients d st := mkStat (my_channels st) (u32 (my_chanclients st + d)) (cell_clients st)
  (cell_channels st) (cell_chanclients st) (stat_clients st) (stat_channels st) (stat_chanclients st).
Definition bump_cell_chanclients d st := mkStat (my_channels st) (my_chanclients st) (cell_clients st)
  (cell_channels st) (u32 (cell_chanclients st + d)) (stat_clients st) (stat_channels st) (stat_chanclients st).
Definition bump_chanclients d st := mkStat (my_channels st) (my_chanclients st) (cell_clients st)
  (cell_channels st) (cell_chanclients st) (stat_clients st) (stat_channels st) (u32 (stat_chanclients st + d)).
Definition bump_my_channels d st := mkStat (u32 (my_channels st + d)) (my_chanclients st) (cell_clients st)
  (cell_channels st) (cell_chanclients st) (stat_clients st) (stat_channels st) (stat_chanclients st).
Definition bump_cell_channels d st := mkStat (my_channels st) (my_chanclients st) (cell_clients st)
  (u32 (cell_channels st + d)) (cell_chanclients st) (stat_clients st) (stat_channels st) (stat_chanclients st).
Definition bump_channels d st := mkStat (my_channels st) (my_chanclients st) (cell_clients st)
  (cell_channels st) (cell_chanclients st) (stat_clients st) (u32 (stat_channels st + d)) (stat_chanclients st).
Definition bump_clients d st := mkStat (my_channels st) (my_chanclients st) (cell_clients st)
  (cell_channels st) (cell_chanclients st) (u32 (stat_clients st + d)) (stat_channels st) (stat_chanclients st).
Definition bump_cell_clients d st := mkStat (my_channels st) (my_chanclients st) (u32 (cell_clients st + d))
  (cell_channels st) (cell_chanclients st) (stat_clients st) (stat_channels st) (stat_chanclients st).

(** [silc_server_client_on_channel]. *)
Definition silc_server_client_on_channel s c ch : outcome (option Z) :=
  let* cl := alive (clients s !! c) in Ok (cl_channels cl !! ch).

Section Server.

(** The traversal of a hash table; the address of a new object, given those in use;
    whether [silc_channel_name_check] accepts a name. *)
Variable order : gmap Z Z -> list (Z * Z).
Variable malloc : gset Z -> Z.
Variable channel_name_check : list Z -> bool.

(** The first user of a traversal that satisfies a test. *)
Fixpoint any_user s (p : SilcClientEntry -> bool) (l : list (Z * Z)) : outcome bool :=
  match l with
  | [] => Ok false
  | (_, a) :: l' =>
      let* x := alive (chls s !! a) in
      let* cl := alive (clients s !! chl_client x) in
      if p cl then Ok true else any_user s p l'
  end.

Definition silc_server_channel_has_global s ch : outcome bool :=
  let* e := alive (channels s !! ch) in
  any_user s (fun cl => bool_decide (is_Some (cl_router cl))) (order (ch_users e)).

Definition silc_server_channel_has_local s ch : outcome bool :=
  let* e := alive (channels s !! ch) in any_user s SILC_IS_LOCAL (order (ch_users e)).

(** ** ID lists *)

(** [silc_idlist_find_client_by_id]. *)
Fixpoint find_client s (l : list Z) (id : Z) : outcome (option Z) :=
  match l with
  | [] => Ok None
  | c :: l' =>
      let* cl := alive (clients s !! c) in
      if cl_id cl =? id then Ok (Some c) else find_client s l' id
  end.

Definition silc_idlist_find_client_by_id s L id (registered : bool) : outcome (option Z) :=
  let* r := find_client s (id_clients s L) id in
  match r with
  | None => Ok None
  | Some c =>
      let* cl := alive (clients s !! c) in
      Ok (if registered && negb (is_registered cl) then None else Some c)
  end.

(** [silc_idlist_find_channel_by_id]. *)
Fixpoint find_channel s (l : list Z) (id : Z) : outcome (option Z) :=
  match l with
  | [] => Ok None
  | ch :: l' =>
      let* e := alive (channels s !! ch) in
      if ch_id e =? id then Ok (Some ch) else find_channel s l' id
  end.

Definition silc_idlist_find_channel_by_id s L id : outcome (option Z) :=
  find_channel s (id_channels s L) id.

(** [silc_idlist_add_client], without a nickname and a username. *)
Definition silc_idlist_add_client s L id ip (router : option Z) : SilcServer * Z :=
  let c := malloc (dom (clients s)) in
  (set_id_clients (set_clients s (<[c := mkClient 0 id ip router ∅]> (clients s))) L (id_clients s L ++ [c]), c).

(** [silc_idlist_del_client], with the assertion of the destructor. *)
Definition silc_idlist_del_client s L c : outcome (bool * SilcServer) :=
  if negb (bool_decide (c ∈ id_clients s L)) then Ok (false, s)
  else
    let* cl := alive (clients s !! c) in
    if bool_decide (size (cl_channels cl) = 0%nat) then
      Ok (true, set_clients (set_id_clients s L (filter (.≠ c) (id_clients s L))) (delete c (clients s)))
    else Outside.

(** [silc_idlist_add_channel]. *)
Definition silc_idlist_add_channel s L (name : list Z) (mode id : Z) : option (SilcServer * Z) :=
  if negb (channel_name_check name) then None
  else
    let ch := malloc (dom (channels s)) in
    Some (set_id_channels (set_channels s (<[ch := mkChannel id mode ∅ 0 false false]> (channels s))) L
            (id_channels s L ++ [ch]), ch).

(** [silc_idlist_del_channel_foreach], called for each user in turn. *)
Definition silc_idlist_del_channel_foreach s a : outcome SilcServer :=
  let* x := alive (chls s !! a) in
  let* s := del_channel s (chl_client x) (chl_channel x) in
  free_chl s a.

Fixpoint foreach_users s (l : list (Z * Z)) : outcome SilcServer :=
  match l with
  | [] => Ok s
  | (_, a) :: l' => let* s := silc_idlist_del_channel_foreach s a in foreach_users s l'
  end.

Definition silc_idlist_del_channel s L ch : outcome (bool * SilcServer) :=
  if negb (bool_decide (ch ∈ id_channels s L)) then Ok (false, s)
  else
    let s := set_id_channels s L (filter (.≠ ch) (id_channels s L)) in
    let* e := alive (channels s !! ch) in
    let* s := foreach_users s (order (ch_users e)) in
    Ok (true, set_channels s (delete ch (channels s))).

(** ** Removing a channel *)

(** The users of a permanent channel. *)
Fixpoint empty_channel s ch (l : list (Z * Z)) : outcome SilcServer :=
  match l with
  | [] => Ok s
  | (_, a) :: l' =>
      let* x := alive (chls s !! a) in
      let* s := del_channel s (chl_client x) ch in
      let* s := del_user s ch (chl_client x) in
      let* s := on_channel s ch (count_users (-1)) in
      let* cl := alive (clients s !! chl_client x) in
      let s := if SILC_IS_LOCAL cl then set_stat s (bump_my_chanclients (-1)) else s in
      let s := if is_router s
               then set_stat (set_stat s (bump_cell_chanclients (-1))) (bump_chanclients (-1)) else s in
      let* s := free_chl s a in
      empty_channel s ch l'
  end.

Definition silc_server_channel_delete s ch : outcome (bool * SilcServer) :=
  let* e := alive (channels s !! ch) in
  if negb (founder_auth e) then
    let s := if is_router s then set_stat s (bump_chanclients (- user_count e)) else s in
    let* s := on_channel s ch (set_disabled true) in
    let* p := silc_idlist_del_channel s local_list ch in
    match p with
    | (true, s) =>
        let s := set_stat s (bump_my_channels (-1)) in
        Ok (false, if is_router s
                   then set_stat (set_stat s (bump_channels (-1))) (bump_cell_channels (-1)) else s)
    | (false, s) =>
        let* q := silc_idlist_del_channel s global_list ch in
        match q with
        | (true, s) => Ok (false, if is_router s then set_stat s (bump_channels (-1)) else s)
        | (false, s) => Ok (false, s)
        end
    end
  else
    let* s := on_channel s ch (set_disabled true) in
    let* e := alive (channels s !! ch) in
    let* s := empty_channel s ch (order (ch_users e)) in
    Ok (true, s).

(** ** Leaving *)

(** The client is taken out of the two tables, and the channel marked local when
    its last global user leaves ([is_local_server] is the test on the server's type,
    which differs between the callers); the joining object is freed. *)
Definition unlink_member s c ch a (is_local_server : bool) : outcome SilcServer :=
  let* s := del_channel s c ch in
  let* s := del_user s ch c in
  let* s := on_channel s ch (count_users (-1)) in
  let* e := alive (channels s !! ch) in
  let* x := alive (chls s !! a) in
  let* cl := alive (clients s !! chl_client x) in
  let* s := if is_local_server && global_users e && bool_decide (is_Some (cl_router cl)) then
              let* g := silc_server_channel_has_global s ch in
              if g then Ok s else on_channel s ch (set_global_users false)
            else Ok s in
  free_chl s a.

(** The statistics of a membership that ends. *)
Definition leave_stats s c : outcome SilcServer :=
  let* cl := alive (clients s !! c) in
  let s := if SILC_IS_LOCAL cl then set_stat s (bump_my_chanclients (-1)) else s in
  Ok (if is_router s then set_stat (set_stat s (bump_cell_chanclients (-1))) (bump_chanclients (-1)) else s).

Definition silc_server_remove_from_one_channel s ch c : outcome (bool * SilcServer) :=
  let* f := silc_server_client_on_channel s c ch in
  match f with
  | None => Ok (true, s)
  | Some a =>
      let* e := alive (channels s !! ch) in
      if negb (is_server s) && bool_decide (size (ch_users e) < 2)%nat then
        let* p := silc_server_channel_delete s ch in Ok (false, snd p)
      else
        let* s := unlink_member s c ch a (is_server s) in
        let* s := leave_stats s c in
        let* l := (if is_server s then silc_server_channel_has_local s ch else Ok true) in
        if negb l then let* p := silc_server_channel_delete s ch in Ok (false, snd p)
        else Ok (true, s)
  end.

(** [silc_server_remove_from_channels]: the channels of the client, in the order of
    the traversal. *)
Fixpoint remove_from_channels_loop s c (l : list (Z * Z)) : outcome SilcServer :=
  match l with
  | [] => Ok s
  | (_, a) :: l' =>
      let* x := alive (chls s !! a) in
      let ch := chl_channel x in
      let* e := alive (channels s !! ch) in
      if negb (is_server s) && bool_decide (size (ch_users e) < 2)%nat then
        let* p := silc_server_channel_delete s ch in remove_from_channels_loop (snd p) c l'
      else
        let* s := unlink_member s c ch a (is_server s) in
        let* s := leave_stats s c in
        let* b := (if is_server s then silc_server_channel_has_local s ch else Ok true) in
        if negb b then
          let* p := silc_server_channel_delete s ch in remove_from_channels_loop (snd p) c l'
        else remove_from_channels_loop s c l'
  end.

Definition silc_server_remove_from_channels s c : outcome SilcServer :=
  let* cl := alive (clients s !! c) in
  remove_from_channels_loop s c (order (cl_channels cl)).

(** ** Removing the clients of a server *)

(** The two tables [silc_server_remove_clients_by_server] keeps: the clients that are
    told of the signoff, and the channels whose keys are generated anew. *)
Record Tables := mkTables { to_notify : gset Z; to_rekey : gset Z }.

(** The users of a channel that are not behind the server. *)
Fixpoint notify_users s entry (t : Tables) (l : list (Z * Z)) : outcome Tables :=
  match l with
  | [] => Ok t
  | (_, a) :: l' =>
      let* x := alive (chls s !! a) in
      let* cl := alive (clients s !! chl_client x) in
      notify_users s entry
        (if negb (bool_decide (cl_router cl = Some entry))
         then mkTables ({[chl_client x]} ∪ to_notify t) (to_rekey t) else t) l'
  end.

Fixpoint remove_clients_channels_loop s entry c (t : Tables) (l : list (Z * Z)) : outcome (SilcServer * Tables) :=
  match l with
  | [] => Ok (s, t)
  | (_, a) :: l' =>
      let* x := alive (chls s !! a) in
      let ch := chl_channel x in
      let* e := alive (channels s !! ch) in
      if negb (is_server s) && bool_decide (size (ch_users e) < 2)%nat then
        let t := mkTables (to_notify t) (to_rekey t ∖ {[ch]}) in
        let* p := silc_server_channel_delete s ch in remove_clients_channels_loop (snd p) entry c t l'
      else
        let* s := unlink_member s c ch a (negb (is_router s)) in
        let* s := leave_stats s c in
        let* b := (if is_server s then silc_server_channel_has_local s ch else Ok true) in
        if negb b then
          let t := mkTables (to_notify t) (to_rekey t ∖ {[ch]}) in
          let* p := silc_server_channel_delete s ch in remove_clients_channels_loop (snd p) entry c t l'
        else
          let* e := alive (channels s !! ch) in
          let* t := notify_users s entry t (order (ch_users e)) in
          remove_clients_channels_loop s entry c (mkTables (to_notify t) ({[ch]} ∪ to_rekey t)) l'
  end.

(** [silc_server_remove_clients_channels], with its [SILC_VERIFY]. *)
Definition silc_server_remove_clients_channels s entry c (t : Tables) : outcome (SilcServer * Tables) :=
  let t := mkTables (to_notify t ∖ {[c]}) (to_rekey t) in
  let* cl := alive (clients s !! c) in
  let* p := remove_clients_channels_loop s entry c t (order (cl_channels cl)) in
  match p with (s, t) =>
    let* cl := alive (clients s !! c) in
    if bool_decide (size (cl_channels cl) = 0%nat) then Ok (s, t) else Outside
  end.

(** The entry of a client that has left stays for a while, not registered. *)
Definition unregister (cl : SilcClientEntry) : SilcClientEntry :=
  mkClient (Z.ldiff (cl_status cl) SILC_IDLIST_STATUS_REGISTERED) (cl_id cl) (cl_ip cl) None (cl_channels cl).

(** [stat.clients--], and [stat.cell_clients--] unless it is zero. *)
Definition count_client_out s : SilcServer :=
  let s := set_stat s (bump_clients (-1)) in
  if cell_clients (stat s) =? 0 then s else set_stat s (bump_cell_clients (-1)).

(** The loop of [silc_server_remove_clients_by_server] over one of the lists: the
    clients that are not registered, not behind [router] or, when [router] relays
    them, whose IP is not that of [entry], stay.  Without a signoff the entry of
    the client stays for a while, not registered. *)
Fixpoint remove_clients_by_server_loop s L router entry (entry_ip : list Z) (server_signoff : bool) (t : Tables)
    (l : list Z) : outcome (SilcServer * Tables) :=
  match l with
  | [] => Ok (s, t)
  | c :: l' =>
      let* cl := alive (clients s !! c) in
      if negb (is_registered cl) || negb (bool_decide (cl_router cl = Some router)) ||
         (negb (router =? entry) && negb (bool_decide (cl_ip cl = take (length (cl_ip cl)) entry_ip)))
      then remove_clients_by_server_loop s L router entry entry_ip server_signoff t l'
      else
        let s := count_client_out s in
        let* p := silc_server_remove_clients_channels s entry c t in
        match p with (s, t) =>
          let* s :=
            (if server_signoff then
               let* q := silc_idlist_del_client s L c in Ok (snd q)
             else
               on_client s c unregister) in
          remove_clients_by_server_loop s L router entry entry_ip server_signoff t l'
        end
  end.

(** [silc_server_remove_clients_by_server] up to the SERVER_SIGNOFF notify: [entry] is
    registered. *)
Definition silc_server_remove_clients_by_server s router entry entry_ip server_signoff
    : outcome (SilcServer * Tables) :=
  let router := match router with Some r => r | None => entry end in
  let* p := remove_clients_by_server_loop s local_list router entry entry_ip server_signoff
              (mkTables ∅ ∅) (id_clients s local_list) in
  match p with (s, t) =>
    remove_clients_by_server_loop s global_list router entry entry_ip server_signoff t (id_clients s global_list)
  end.

(** ** A client is gone *)

(** [silc_server_free_client_data]: the client leaves its channels and is deleted when the
    server shuts down; else its entry stays, not registered. *)
Definition silc_server_free_client_data s c (server_shutdown : bool) : outcome SilcServer :=
  let* s := silc_server_remove_from_channels s c in
  let s := count_client_out s in
  if negb server_shutdown then on_client s c unregister
  else let* p := silc_idlist_del_client s local_list c in Ok (snd p).

(** A client that resumes a detached session: its new entry is deleted. *)
Definition resume_client_delete s c : outcome SilcServer :=
  let s := count_client_out s in
  let* s := silc_server_remove_from_channels s c in
  let* p := silc_idlist_del_client s local_list c in
  if fst p then Ok (snd p) else let* p := silc_idlist_del_client (snd p) global_list c in Ok (snd p).

(** ** Joining *)

(** A joining object is allocated and entered in both tables. *)
Definition link_member s c ch mode : outcome SilcServer :=
  let a := malloc (dom (chls s)) in
  let s := set_chls s (<[a := mkChl c mode ch]> (chls s)) in
  let* s := add_user s ch c a in
  let* s := add_channel s c ch a in
  on_channel s ch (count_users 1).

(** The end of the JOIN command: [key_ok] is the result of
    [silc_server_create_channel_key], or TRUE when no key is made.  Returns whether
    the client joined. *)
Definition silc_server_command_join_channel s c ch umode (key_ok : bool) : outcome (bool * SilcServer) :=
  let* f := silc_server_client_on_channel s c ch in
  match f with
  | Some _ => Ok (false, s)
  | None =>
      if negb key_ok then Ok (false, s)
      else
        let* s := link_member s c ch umode in
        let* s := on_channel s ch (set_disabled false) in
        let s := set_stat s (bump_my_chanclients 1) in
        Ok (true, if is_router s
                  then set_stat (set_stat s (bump_cell_chanclients 1)) (bump_chanclients 1) else s)
  end.

(** The JOIN notify, once the client is known; [from_router] tells whether the packet
    came from a router. *)
Definition notify_join s c ch (from_router : bool) : outcome SilcServer :=
  let* cl := alive (clients s !! c) in
  if negb (is_registered cl) then Ok s
  else
    let* f := silc_server_client_on_channel s c ch in
    match f with
    | Some _ => Ok s
    | None =>
        let* s := (if negb (is_router s) && from_router then on_channel s ch (set_global_users true) else Ok s) in
        let* e := alive (channels s !! ch) in
        let mode := if (negb (is_router s) || from_router) && negb (founder_auth e) &&
                       bool_decide (size (ch_users e) = 0%nat)
                    then Z.lor SILC_CHANNEL_UMODE_CHANOP SILC_CHANNEL_UMODE_CHANFO else 0 in
        let* s := link_member s c ch mode in
        let* s := on_channel s ch (set_disabled false) in
        Ok (if is_router s then
              let s := if from_router then s else set_stat s (bump_cell_chanclients 1) in
              set_stat s (bump_chanclients 1)
            else s)
    end.

(** ** Lists received from other servers *)

(** The client is on the channel already, and gets the mode, or joins it. *)
Definition save_mode s c ch mode : outcome SilcServer :=
  let* f := silc_server_client_on_channel s c ch in
  match f with
  | None => link_member s c ch mode
  | Some a => on_chl s a (set_chl_mode mode)
  end.

(** [silc_server_save_users_on_channel]: the ID and the IP in it, and the mode, of each
    user; [noadd] is a client that is passed over, [conn] the server of the
    connection.  The list ends at an ID that does not parse (the source then looks
    at the same ID until [user_count] is used up). *)
Fixpoint silc_server_save_users_on_channel s conn ch (noadd : option Z) (l : list (Z * list Z * Z))
    : outcome SilcServer :=
  match l with
  | [] => Ok s
  | (id, ip, mode) :: l' =>
      if bool_decide (noadd = Some id) then silc_server_save_users_on_channel s conn ch noadd l'
      else
        let* f := silc_idlist_find_client_by_id s local_list id (negb (is_server s)) in
        let* f := (match f with
                   | Some c => Ok (Some c)
                   | None => silc_idlist_find_client_by_id s global_list id (negb (is_server s))
                   end) in
        match f with
        | None =>
            if negb (is_server s) then silc_server_save_users_on_channel s conn ch noadd l'
            else
              let (s, c) := silc_idlist_add_client s global_list id ip conn in
              let* s := on_client s c (add_status SILC_IDLIST_STATUS_REGISTERED) in
              let s := set_stat s (bump_clients 1) in
              let* s := save_mode s c ch mode in
              silc_server_save_users_on_channel s conn ch noadd l'
        | Some c =>
            let* cl := alive (clients s !! c) in
            if negb (is_registered cl) then silc_server_save_users_on_channel s conn ch noadd l'
            else
              let* s := save_mode s c ch mode in
              silc_server_save_users_on_channel s conn ch noadd l'
        end
  end.

(** A channel payload of the list [silc_server_save_user_channels] gets: the Channel ID,
    if it parses, the name and the mode. *)
Record ChannelPayload := mkChPayload { pl_id : option Z; pl_name : list Z; pl_mode : Z }.

(** The loop over the payloads, with the index [i] into the modes and the channels
    seen so far. *)
Fixpoint save_channels_loop s c (chumodes : list Z) (i : nat) (ht : gset Z) (l : list ChannelPayload)
    : outcome (SilcServer * gset Z) :=
  match l with
  | [] => Ok (s, ht)
  | entry :: l' =>
      match pl_id entry with
      | None => save_channels_loop s c chumodes i ht l'
      | Some id =>
          let* f := silc_idlist_find_channel_by_id s local_list id in
          let* f := (match f with
                     | Some ch => Ok (Some ch)
                     | None => silc_idlist_find_channel_by_id s global_list id
                     end) in
          match (match f with
                 | Some ch => Some (s, ch)
                 | None => if negb (is_server s) then None
                           else silc_idlist_add_channel s global_list (pl_name entry) 0 id
                 end) with
          | None => save_channels_loop s c chumodes (S i) ht l'
          | Some (s, ch) =>
              let* s := on_channel s ch (set_ch_mode (pl_mode entry)) in
              let* mode := alive (chumodes !! i) in
              let* s := save_mode s c ch mode in
              save_channels_loop s c chumodes (S i) ({[ch]} ∪ ht) l'
          end
      end
  end.

(** The client leaves the channels that the list does not name. *)
Fixpoint leave_unlisted s (ht : gset Z) (l : list (Z * Z)) : outcome SilcServer :=
  match l with
  | [] => Ok s
  | (_, a) :: l' =>
      let* x := alive (chls s !! a) in
      if bool_decide (chl_channel x ∈ ht) then leave_unlisted s ht l'
      else
        let* s := del_user s (chl_channel x) (chl_client x) in
        let* s := del_channel s (chl_client x) (chl_channel x) in
        let* s := free_chl s a in
        leave_unlisted s ht l'
  end.

(** [silc_server_save_user_channels]: [lists] are the payloads and modes, when both are
    present and parse; there are as many modes as payloads. *)
Definition silc_server_save_user_channels s c (lists : option (list ChannelPayload * list Z)) : outcome SilcServer :=
  let* cl := alive (clients s !! c) in
  let* p := (match lists with
             | Some (l, chumodes) =>
                 if is_registered cl then save_channels_loop s c chumodes 0 ∅ l else Ok (s, ∅)
             | None => Ok (s, ∅)
             end) in
  match p with (s, ht) =>
    let* cl := alive (clients s !! c) in
    leave_unlisted s ht (order (cl_channels cl))
  end.

(** [silc_server_create_new_channel]: [id] is the result of [silc_id_create_channel_id],
    [key_ok] that of [silc_server_create_channel_key]. *)
Definition silc_server_create_new_channel s name (id : option Z) (key_ok : bool)
    : outcome (option Z * SilcServer) :=
  match id with
  | None => Ok (None, s)
  | Some id =>
      match silc_idlist_add_channel s local_list name 0 id with
      | None => Ok (None, s)
      | Some (s, ch) =>
          if negb key_ok then
            let* p := silc_idlist_del_channel s local_list ch in Ok (None, snd p)
          else
            let s := set_stat s (bump_my_channels 1) in
            Ok (Some ch, if is_router s
                         then set_stat (set_stat s (bump_channels 1)) (bump_cell_channels 1) else s)
      end
  end.

End Server.
