(* ===== verification/MembershipLeave.v ===== *)
(** * Channel membership: the invariant and leaving

    The objects that join clients to channels determine both sides of the
    membership ([WF]): what is in a client's table is in the channel's, through the
    same object, and every entry of the ID caches is allocated and the reverse.
    Leaving operations are described by what they drop ([Effect]). *)

From stdpp Require Import gmap.
From S2P Require Import Prelude CTypes Outcome Membership.

#[local] Open Scope outcome_scope.

(** ** Both sides of a membership *)

(** The joining object in the table of the client, in that of the channel, and on the
    heap. *)
Definition cj s c ch : option Z := clients s !! c ≫= fun cl => cl_channels cl !! ch.
Definition uj s ch c : option Z := channels s !! ch ≫= fun e => ch_users e !! c.
Definition joins s a c ch : Prop := exists m, chls s !! a = Some (mkChl c m ch).

Definition listed {A} (f : SilcIDList -> list Z) (m : gmap Z A) : Prop :=
  NoDup (f local_list ++ f global_list) /\
  forall k, k ∈ f local_list ++ f global_list <-> is_Some (m !! k).

Record WF s : Prop := {
  wf_cj : forall c ch a, cj s c ch = Some a <-> joins s a c ch;
  wf_uj : forall c ch a, uj s ch c = Some a <-> joins s a c ch;
  wf_clients : listed (id_clients s) (clients s);
  wf_channels : listed (id_channels s) (channels s)
}.

(** A client that is on a channel. *)
Definition joined s c ch : Prop := is_Some (cj s c ch).

(** What does not change in an entry when memberships change. *)
Definition cattr s c : option (Z * Z * list Z * option Z) :=
  (fun cl => (cl_status cl, cl_id cl, cl_ip cl, cl_router cl)) <$> clients s !! c.
Definition chattr s ch : option (Z * Z) := (fun e => (ch_id e, ch_mode e)) <$> channels s !! ch.

(** The count of users of a channel. *)
Definition counted (e : SilcChannelEntry) : Prop := user_count e = u32 (Z.of_nat (size (ch_users e))).
Definition keeps_count s s' : Prop :=
  forall ch e', channels s' !! ch = Some e' ->
    exists e, channels s !! ch = Some e /\ (counted e -> counted e').

Lemma u32_plus x d : u32 (u32 x + d) = u32 (x + d).
Proof. unfold u32. apply Z.add_mod_idemp_l. lia. Qed.

(** An operation that ends memberships: those of [P], all those of the channels of [D],
    which are removed, and all those of the clients of [E], which are removed. *)
Record Drop s s' (P : Z -> Z -> bool) (D E : Z -> bool) : Prop := {
  ef_type : server_type s' = server_type s;
  ef_cattr : forall c, cattr s' c = if E c then None else cattr s c;
  ef_chattr : forall ch, chattr s' ch = if D ch then None else chattr s ch;
  ef_cj : forall c ch, cj s' c ch = if P c ch then None else cj s c ch;
  ef_uj : forall c ch, uj s' ch c = if P c ch then None else uj s ch c;
  ef_chls : forall a, chls s' !! a =
      x ← chls s !! a; if P (chl_client x) (chl_channel x) then None else Some x;
  ef_clients : forall L, id_clients s' L = filter (fun c => E c = false) (id_clients s L);
  ef_channels : forall L, id_channels s' L = filter (fun ch => D ch = false) (id_channels s L)
}.

(** The counts of users follow. *)
Record Effect s s' (P : Z -> Z -> bool) (D E : Z -> bool) : Prop := {
  ef_drop :> Drop s s' P D E;
  ef_count : keeps_count s s'
}.

Definition none1 : Z -> bool := fun _ => false.
Definition one (x : Z) : Z -> bool := fun y => bool_decide (y = x).
Definition pair_at (c ch : Z) : Z -> Z -> bool := fun c' ch' => bool_decide (c' = c /\ ch' = ch).
Definition none2 : Z -> Z -> bool := fun _ _ => false.
Definition users_of (ch : Z) : Z -> Z -> bool := fun _ ch' => bool_decide (ch' = ch).
Definition or1 (D E : Z -> bool) : Z -> bool := fun x => D x || E x.
Definition or2 (P Q : Z -> Z -> bool) : Z -> Z -> bool := fun c ch => P c ch || Q c ch.

Lemma cattr_some s c : is_Some (cattr s c) <-> is_Some (clients s !! c).
Proof. unfold cattr. now rewrite fmap_is_Some. Qed.

Lemma chattr_some s ch : is_Some (chattr s ch) <-> is_Some (channels s !! ch).
Proof. unfold chattr. now rewrite fmap_is_Some. Qed.

Lemma filter_keep (D : Z -> bool) (l : list Z) :
  (forall x, x ∈ l -> D x = false) -> filter (fun x => D x = false) l = l.
Proof.
  induction l as [|x l IH]; intros H; [reflexivity|].
  rewrite list.filter_cons_True by (apply H; set_solver). f_equal. apply IH. set_solver.
Qed.

Lemma filter_none1 (l : list Z) : filter (fun c => none1 c = false) l = l.
Proof. now apply filter_keep. Qed.

Lemma filter_or1 D E (l : list Z) :
  filter (fun x => E x = false) (filter (fun x => D x = false) l) = filter (fun x => or1 D E x = false) l.
Proof.
  rewrite list.list_filter_filter. apply list.list_filter_iff. intros x. unfold or1.
  destruct (D x), (E x); simpl; naive_solver.
Qed.

Lemma Drop_trans s s1 s2 P Q D D' E E' :
  Drop s s1 P D E -> Drop s1 s2 Q D' E' -> Drop s s2 (or2 P Q) (or1 D D') (or1 E E').
Proof.
  intros H K. split; unfold or2, or1.
  - now rewrite (ef_type _ _ _ _ _ K), (ef_type _ _ _ _ _ H).
  - intros c. rewrite (ef_cattr _ _ _ _ _ K), (ef_cattr _ _ _ _ _ H). now destruct (E c), (E' c).
  - intros c. rewrite (ef_chattr _ _ _ _ _ K), (ef_chattr _ _ _ _ _ H). now destruct (D c), (D' c).
  - intros c ch. rewrite (ef_cj _ _ _ _ _ K), (ef_cj _ _ _ _ _ H). now destruct (P c ch), (Q c ch).
  - intros c ch. rewrite (ef_uj _ _ _ _ _ K), (ef_uj _ _ _ _ _ H). now destruct (P c ch), (Q c ch).
  - intros a. rewrite (ef_chls _ _ _ _ _ K), (ef_chls _ _ _ _ _ H).
    destruct (chls s !! a) as [x|]; simpl; [|reflexivity].
    destruct (P _ _) eqn:EP; simpl; [reflexivity|]. reflexivity.
  - intros L. rewrite (ef_clients _ _ _ _ _ K), (ef_clients _ _ _ _ _ H). apply filter_or1.
  - intros L. rewrite (ef_channels _ _ _ _ _ K), (ef_channels _ _ _ _ _ H). apply filter_or1.
Qed.

Lemma Effect_trans s s1 s2 P Q D D' E E' :
  Effect s s1 P D E -> Effect s1 s2 Q D' E' -> Effect s s2 (or2 P Q) (or1 D D') (or1 E E').
Proof.
  intros H K. split; [eapply Drop_trans; [apply H|apply K]|]. intros ch e' He'.
  destruct (ef_count _ _ _ _ _ K ch e' He') as (e1 & He1 & C1).
  destruct (ef_count _ _ _ _ _ H ch e1 He1) as (e & He & C). exists e. tauto.
Qed.

Lemma listed_filter {A B} (f g : SilcIDList -> list Z) (m : gmap Z A) (m' : gmap Z B) D :
  listed f m -> (forall L, g L = filter (fun k => D k = false) (f L)) ->
  (forall k, is_Some (m' !! k) <-> D k = false /\ is_Some (m !! k)) -> listed g m'.
Proof.
  intros [N H] G M. split; rewrite !G, <- list.filter_app.
  - now apply list.NoDup_filter.
  - intros k. rewrite list.list_elem_of_filter, M, H. tauto.
Qed.

Lemma Drop_WF s s' P D E : WF s -> Drop s s' P D E -> WF s'.
Proof.
  intros W H.
  assert (J : forall a c ch, joins s' a c ch <-> P c ch = false /\ joins s a c ch).
  { intros a c ch. unfold joins. rewrite (ef_chls _ _ _ _ _ H). destruct (chls s !! a) as [[c' m' ch']|]; simpl.
    - destruct (P c' ch') eqn:EP; naive_solver congruence.
    - naive_solver. }
  split.
  - intros c ch a. rewrite J, (ef_cj _ _ _ _ _ H), <- (wf_cj _ W). destruct (P c ch); naive_solver.
  - intros c ch a. rewrite J, (ef_uj _ _ _ _ _ H), <- (wf_uj _ W). destruct (P c ch); naive_solver.
  - apply (listed_filter _ _ _ _ E (wf_clients _ W)); [apply (ef_clients _ _ _ _ _ H)|].
    intros k. rewrite <- !cattr_some, (ef_cattr _ _ _ _ _ H). destruct (E k); split; naive_solver.
  - apply (listed_filter _ _ _ _ D (wf_channels _ W)); [apply (ef_channels _ _ _ _ _ H)|].
    intros k. rewrite <- !chattr_some, (ef_chattr _ _ _ _ _ H). destruct (D k); split; naive_solver.
Qed.

Lemma Effect_WF s s' P D E : WF s -> Effect s s' P D E -> WF s'.
Proof. intros W H. exact (Drop_WF _ _ _ _ _ W H). Qed.

(** What an operation drops matters only for the memberships there are. *)
Lemma Drop_ext s s' P P' D D' E :
  Drop s s' P D E -> (forall c ch, cj s c ch = uj s ch c) ->
  (forall a x, chls s !! a = Some x -> is_Some (cj s (chl_client x) (chl_channel x))) ->
  (forall c ch, is_Some (cj s c ch) -> P c ch = P' c ch) -> (forall ch, D ch = D' ch) -> Drop s s' P' D' E.
Proof.
  intros H S J EP ED. split; try apply H.
  - intros ch. rewrite (ef_chattr _ _ _ _ _ H). now rewrite ED.
  - intros c ch. rewrite (ef_cj _ _ _ _ _ H). destruct (cj s c ch) eqn:C; [|now destruct (P c ch), (P' c ch)].
    now rewrite EP by (rewrite C; eauto).
  - intros c ch. rewrite (ef_uj _ _ _ _ _ H), <- S. destruct (cj s c ch) eqn:C; [|now destruct (P c ch), (P' c ch)].
    now rewrite EP by (rewrite C; eauto).
  - intros a. rewrite (ef_chls _ _ _ _ _ H). destruct (chls s !! a) as [x|] eqn:Hx; simpl; [|reflexivity].
    now rewrite EP by eauto.
  - intros L. rewrite (ef_channels _ _ _ _ _ H). apply list.list_filter_iff. intros ch. now rewrite ED.
Qed.

Lemma Effect_ext s s' P P' D D' E :
  Effect s s' P D E -> (forall c ch, cj s c ch = uj s ch c) ->
  (forall a x, chls s !! a = Some x -> is_Some (cj s (chl_client x) (chl_channel x))) ->
  (forall c ch, is_Some (cj s c ch) -> P c ch = P' c ch) -> (forall ch, D ch = D' ch) -> Effect s s' P' D' E.
Proof. intros H S J EP ED. split; [eapply Drop_ext; eauto; apply H|apply H]. Qed.

Lemma Effect_stat s s' P D E f : Effect s s' P D E -> Effect s (set_stat s' f) P D E.
Proof. intros H. split; [split|]; apply H. Qed.

Lemma Effect_refl s : Effect s s none2 none1 none1.
Proof.
  split; [split|]; try reflexivity; try (intros; symmetry; apply filter_none1); [|unfold keeps_count; eauto].
  intros a. now destruct (chls s !! a).
Qed.

(** A field of a channel that the memberships do not depend on. *)
Lemma Effect_channel s ch e f :
  channels s !! ch = Some e -> ch_id (f e) = ch_id e -> ch_mode (f e) = ch_mode e ->
  ch_users (f e) = ch_users e -> user_count (f e) = user_count e ->
  Effect s (set_channels s (<[ch := f e]> (channels s))) none2 none1 none1.
Proof.
  intros He Ei Em Eu Ec. split; [split|]; try reflexivity; try (intros; symmetry; apply filter_none1); simpl.
  - intros k. unfold chattr. simpl. destruct (decide (k = ch)) as [->|N].
    + rewrite lookup_insert_eq, He. simpl. now rewrite Ei, Em.
    + now rewrite lookup_insert_ne by congruence.
  - intros c k. unfold uj. simpl. destruct (decide (k = ch)) as [->|N].
    + rewrite lookup_insert_eq, He. simpl. now rewrite Eu.
    + now rewrite lookup_insert_ne by congruence.
  - intros a. now destruct (chls s !! a).
  - intros k k' Hk. simpl in Hk. destruct (decide (k = ch)) as [->|N].
    + rewrite lookup_insert_eq in Hk. injection Hk as <-. exists e. unfold counted. now rewrite Ec, Eu.
    + rewrite lookup_insert_ne in Hk by congruence. eauto.
Qed.

(** ** Reading through the pointers *)

Lemma cj_some s c ch a :
  cj s c ch = Some a <-> exists cl, clients s !! c = Some cl /\ cl_channels cl !! ch = Some a.
Proof. unfold cj. rewrite bind_Some. reflexivity. Qed.

Lemma uj_some s c ch a :
  uj s ch c = Some a <-> exists e, channels s !! ch = Some e /\ ch_users e !! c = Some a.
Proof. unfold uj. rewrite bind_Some. reflexivity. Qed.

Lemma WF_sides s c ch : WF s -> cj s c ch = uj s ch c.
Proof.
  intros W. apply option_eq. intros a. now rewrite (wf_cj _ W), (wf_uj _ W).
Qed.

Lemma WF_chl s a x : WF s -> chls s !! a = Some x -> cj s (chl_client x) (chl_channel x) = Some a.
Proof. intros W H. apply (wf_cj _ W). destruct x as [c m ch]. exists m. exact H. Qed.

Lemma Drop_drop s s' P P' D D' E : WF s ->
  Drop s s' P D E -> (forall c ch, joined s c ch -> P c ch = P' c ch) -> (forall ch, D ch = D' ch) ->
  Drop s s' P' D' E.
Proof.
  intros W H EP ED. eapply Drop_ext; eauto using WF_sides.
  intros a x Hx. rewrite (WF_chl _ _ _ W Hx). eauto.
Qed.

Lemma Effect_drop s s' P P' D D' E : WF s ->
  Effect s s' P D E -> (forall c ch, joined s c ch -> P c ch = P' c ch) -> (forall ch, D ch = D' ch) ->
  Effect s s' P' D' E.
Proof. intros W H EP ED. split; [eapply Drop_drop; eauto; apply H|apply H]. Qed.

(** A membership, with everything it points to. *)
Lemma WF_member s c ch a : WF s -> cj s c ch = Some a ->
  exists cl e m, clients s !! c = Some cl /\ cl_channels cl !! ch = Some a /\
    channels s !! ch = Some e /\ ch_users e !! c = Some a /\ chls s !! a = Some (mkChl c m ch).
Proof.
  intros W H. pose proof H as U. rewrite (WF_sides _ _ _ W) in U.
  pose proof H as J. rewrite (wf_cj _ W) in J. destruct J as [m J].
  rewrite cj_some in H. rewrite uj_some in U. naive_solver.
Qed.

Lemma WF_user s ch e c a : WF s -> channels s !! ch = Some e -> ch_users e !! c = Some a -> cj s c ch = Some a.
Proof. intros W H1 H2. rewrite (WF_sides _ _ _ W), uj_some. eauto. Qed.

Lemma WF_joined s ch e c : WF s -> channels s !! ch = Some e -> joined s c ch <-> is_Some (ch_users e !! c).
Proof.
  intros W H. unfold joined. rewrite (WF_sides _ _ _ W). unfold uj. now rewrite H.
Qed.

(** Whether a client is local, and a channel permanent. *)
Definition local_client s c : bool := match clients s !! c with Some cl => SILC_IS_LOCAL cl | None => false end.
Definition permanent s ch : bool := match channels s !! ch with Some e => founder_auth e | None => false end.

(** What the removal of [c] from [ch] means for the channel: it dies when nobody is left
    on it or, on a normal server, nobody local. *)
Definition dies s c ch : bool :=
  match channels s !! ch with
  | Some e => forallb (fun p => (p.1 =? c) || (is_server s && negb (local_client s p.1))) (map_to_list (ch_users e))
  | None => false
  end.

Lemma dies_iff s c ch : WF s -> is_Some (channels s !! ch) ->
  dies s c ch = true <->
  forall c', joined s c' ch -> c' <> c -> server_type s = SILC_SERVER /\ local_client s c' = false.
Proof.
  intros W [e He]. unfold dies. rewrite He, forallb_forall. split.
  - intros H c' J N. rewrite (WF_joined _ _ _ _ W He) in J. destruct J as [a J].
    specialize (H (c', a)). rewrite <- list_elem_of_In, elem_of_map_to_list in H. specialize (H J).
    simpl in H. rewrite orb_true_iff, andb_true_iff, negb_true_iff, Z.eqb_eq in H.
    unfold is_server in H. rewrite bool_decide_eq_true in H. tauto.
  - intros H [c' a] Hin. rewrite <- list_elem_of_In, elem_of_map_to_list in Hin. simpl.
    rewrite orb_true_iff, andb_true_iff, negb_true_iff, Z.eqb_eq. unfold is_server. rewrite bool_decide_eq_true.
    destruct (decide (c' = c)); [now left|right]. apply H; [|assumption].
    apply (WF_joined _ _ _ _ W He). eauto.
Qed.

Lemma size_small (m : gmap Z Z) c a : m !! c = Some a -> (size m < 2)%nat <-> forall k, is_Some (m !! k) -> k = c.
Proof.
  intros H. assert (Hs : size m = S (size (delete c m))).
  { rewrite map_size_delete, H. assert (size m <> 0%nat) by (intros Z0; apply map_size_empty_inv in Z0; rewrite Z0 in H; naive_solver). lia. }
  rewrite Hs. transitivity (delete c m = ∅); [|split].
  - rewrite <- map_size_empty_iff. lia.
  - intros E k [b Hk]. destruct (decide (k = c)); [assumption|].
    assert (D : delete c m !! k = Some b) by now rewrite lookup_delete_ne.
    rewrite E in D. naive_solver.
  - intros U. apply map_empty. intros k. destruct (delete c m !! k) as [b|] eqn:Hk; [|reflexivity].
    apply lookup_delete_Some in Hk. destruct Hk as [N Hk]. exfalso. apply N. symmetry. apply U. eauto.
Qed.

(** The memberships and the channels that end when [c] leaves [ch]. *)
Definition leaves s c ch : Z -> Z -> bool :=
  fun c' ch' => bool_decide (ch' = ch) && (bool_decide (c' = c) || dies s c ch).
Definition dead s c ch : Z -> bool := fun ch' => bool_decide (ch' = ch) && (dies s c ch && negb (permanent s ch)).

Section Membership.

Variable order : gmap Z Z -> list (Z * Z).
Hypothesis order_perm : forall m, order m ≡ₚ map_to_list m.

Lemma elem_of_order m k a : (k, a) ∈ order m <-> m !! k = Some a.
Proof. now rewrite order_perm, elem_of_map_to_list. Qed.

(** ** The traversals that look for a user *)

(** The users of a list that satisfy a test. *)
Definition some_user s (p : SilcClientEntry -> bool) (l : list (Z * Z)) : Prop :=
  exists k a x cl, (k, a) ∈ l /\ chls s !! a = Some x /\ clients s !! chl_client x = Some cl /\ p cl = true.

Lemma any_user_ok s p l :
  (forall k a, (k, a) ∈ l -> exists x cl, chls s !! a = Some x /\ clients s !! chl_client x = Some cl) ->
  exists b, any_user s p l = Ok b /\ (b = true <-> some_user s p l).
Proof.
  induction l as [|[k a] l IH]; intros H; simpl.
  - exists false. split; [reflexivity|]. split; [discriminate|]. unfold some_user. set_solver.
  - destruct (H k a) as (x & cl & Hx & Hc); [set_solver|]. rewrite Hx. simpl. rewrite Hc. simpl.
    destruct (p cl) eqn:E.
    + exists true. split; [reflexivity|]. split; [|reflexivity]. intros _. exists k, a, x, cl. set_solver.
    + destruct IH as (b & Hb & Hs); [intros; apply (H k0); set_solver|]. exists b. split; [assumption|].
      rewrite Hs. unfold some_user. split; intros (k' & a' & x' & cl' & Hin & ?).
      * exists k', a', x', cl'. set_solver.
      * rewrite elem_of_cons in Hin. destruct Hin as [[= -> ->]|Hin]; [naive_solver congruence|].
        exists k', a', x', cl'. tauto.
Qed.

(** A user of a channel that satisfies a test, as the memberships tell it. *)
Definition member_with s (p : SilcClientEntry -> bool) ch : Prop :=
  exists c cl, joined s c ch /\ clients s !! c = Some cl /\ p cl = true.

Lemma channel_has_ok s p ch e : WF s -> channels s !! ch = Some e ->
  exists b, any_user s p (order (ch_users e)) = Ok b /\ (b = true <-> member_with s p ch).
Proof.
  intros W He.
  destruct (any_user_ok s p (order (ch_users e))) as (b & Hb & Hs).
  - intros k a Hin. apply elem_of_order in Hin.
    destruct (WF_member _ _ _ _ W (WF_user _ _ _ _ _ W He Hin)) as (cl & e' & m & ? & ? & ? & ? & ?). eauto.
  - exists b. split; [assumption|]. rewrite Hs. split.
    + intros (k & a & x & cl & Hin & Hx & Hc & Hp). apply elem_of_order in Hin.
      pose proof (WF_user _ _ _ _ _ W He Hin) as J.
      destruct (WF_member _ _ _ _ W J) as (cl' & e' & m & ? & ? & ? & ? & ?).
      exists k, cl. unfold joined. rewrite J. simplify_eq/=. eauto.
    + intros (c & cl & J & Hc & Hp). rewrite (WF_joined _ _ _ _ W He) in J. destruct J as [a J].
      destruct (WF_member _ _ _ _ W (WF_user _ _ _ _ _ W He J)) as (cl' & e' & m & ? & ? & ? & ? & ?).
      exists c, a, (mkChl c m ch), cl. rewrite elem_of_order. simpl. naive_solver.
Qed.

(** ** One membership ends *)

(** A state in which the client and the channel no longer name each other. *)
Lemma unlinked_drop s s' c ch a cl e e' m :
  channels s' = <[ch := e']> (channels s) ->
  clients s !! c = Some cl -> channels s !! ch = Some e -> chls s !! a = Some (mkChl c m ch) ->
  (forall b x, chls s !! b = Some x -> chl_client x = c -> chl_channel x = ch -> b = a) ->
  cl_channels cl !! ch = Some a -> ch_users e !! c = Some a ->
  ch_users e' = delete c (ch_users e) -> ch_id e' = ch_id e -> ch_mode e' = ch_mode e ->
  server_type s' = server_type s ->
  clients s' = <[c := with_channels (delete ch (cl_channels cl)) cl]> (clients s) ->
  chls s' = delete a (chls s) ->
  id_clients s' = id_clients s -> id_channels s' = id_channels s ->
  Drop s s' (pair_at c ch) none1 none1.
Proof.
  intros Ech Hcl He Hx Huniq Hcj Huj Eu Ei Em Et Ec El EI EJ. unfold pair_at, none1. split.
  - assumption.
  - intros k. unfold cattr. rewrite Ec. destruct (decide (k = c)) as [->|N].
    + now rewrite lookup_insert_eq, Hcl.
    + now rewrite lookup_insert_ne by congruence.
  - intros k. unfold chattr. rewrite Ech. destruct (decide (k = ch)) as [->|N].
    + rewrite lookup_insert_eq, He. simpl. now rewrite Ei, Em.
    + now rewrite lookup_insert_ne by congruence.
  - intros k k'. unfold cj. rewrite Ec. destruct (decide (k = c)) as [->|N].
    + rewrite lookup_insert_eq, Hcl. simpl. case_bool_decide as B.
      * destruct B as [_ ->]. apply lookup_delete_eq.
      * rewrite lookup_delete_ne; [reflexivity|naive_solver].
    + rewrite lookup_insert_ne by congruence. rewrite bool_decide_eq_false_2; [reflexivity|naive_solver].
  - intros k k'. unfold uj. rewrite Ech. destruct (decide (k' = ch)) as [->|N].
    + rewrite lookup_insert_eq, He. simpl. rewrite Eu. case_bool_decide as B.
      * destruct B as [-> _]. apply lookup_delete_eq.
      * rewrite lookup_delete_ne; [reflexivity|naive_solver].
    + rewrite lookup_insert_ne by congruence. rewrite bool_decide_eq_false_2; [reflexivity|naive_solver].
  - intros b. rewrite El. destruct (decide (b = a)) as [->|N].
    + rewrite lookup_delete_eq, Hx. simpl. now rewrite bool_decide_eq_true_2.
    + rewrite lookup_delete_ne by congruence. destruct (chls s !! b) as [x|] eqn:Hb; simpl; [|reflexivity].
      rewrite bool_decide_eq_false_2; [reflexivity|]. naive_solver.
  - intros L. now rewrite EI, filter_none1.
  - intros L. now rewrite EJ, filter_none1.
Qed.

Lemma unlinked_effect s s' c ch a cl e e' m :
  channels s' = <[ch := e']> (channels s) ->
  clients s !! c = Some cl -> channels s !! ch = Some e -> chls s !! a = Some (mkChl c m ch) ->
  (forall b x, chls s !! b = Some x -> chl_client x = c -> chl_channel x = ch -> b = a) ->
  cl_channels cl !! ch = Some a -> ch_users e !! c = Some a ->
  ch_users e' = delete c (ch_users e) -> ch_id e' = ch_id e -> ch_mode e' = ch_mode e ->
  user_count e' = u32 (user_count e + -1) ->
  server_type s' = server_type s ->
  clients s' = <[c := with_channels (delete ch (cl_channels cl)) cl]> (clients s) ->
  chls s' = delete a (chls s) ->
  id_clients s' = id_clients s -> id_channels s' = id_channels s ->
  Effect s s' (pair_at c ch) none1 none1.
Proof.
  intros Ech Hcl He Hx Huniq Hcj Huj Eu Ei Em En Et Ec El EI EJ.
  split; [eapply (unlinked_drop s s' c ch a cl e e' m); eassumption|].
  intros k k' Hk. rewrite Ech in Hk. destruct (decide (k = ch)) as [->|N].
  - rewrite lookup_insert_eq in Hk. injection Hk as <-. exists e. split; [assumption|].
    unfold counted. intros C. rewrite En, C, Eu, u32_plus, map_size_delete, Huj.
    assert (size (ch_users e) <> 0%nat) by (intros Z0; apply map_size_empty_inv in Z0; rewrite Z0 in Huj; naive_solver).
    f_equal. lia.
  - rewrite lookup_insert_ne in Hk by congruence. eauto.
Qed.

Lemma WF_chl_unique s c ch a b x : WF s -> cj s c ch = Some a ->
  chls s !! b = Some x -> chl_client x = c -> chl_channel x = ch -> b = a.
Proof.
  intros W H Hx E1 E2. destruct x as [c' m ch']. simpl in *. subst.
  assert (J : cj s c ch = Some b) by (apply (wf_cj _ W); exists m; assumption). congruence.
Qed.

(** The end of [unlink_member]: the object is freed. *)
#[local] Ltac finish := match goal with
  | Hx : chls ?s !! ?a = Some (mkChl ?c ?m ?ch), Hcl : clients ?s !! ?c = Some ?cl, He : channels ?s !! ?ch = Some ?e
    |- _ => rewrite ?Hx; simpl; rewrite ?Hx; simpl; eexists; split; [reflexivity|];
            eapply (unlinked_effect s _ c ch a cl e _ m); first [reflexivity | eassumption]
  end.

(** The tests on the server's type that the callers of [unlink_member] make. *)
Lemma unlink_member_ok s c ch a b : WF s -> cj s c ch = Some a ->
  exists s', unlink_member order s c ch a b = Ok s' /\ Effect s s' (pair_at c ch) none1 none1.
Proof.
  intros W H. destruct (WF_member _ _ _ _ W H) as (cl & e & m & Hcl & Hj & He & Hu & Hx).
  pose proof (fun b x => WF_chl_unique s c ch a b x W H) as U.
  unfold unlink_member, del_channel, del_user, on_client, on_channel, free_chl. rewrite Hcl. simpl. rewrite He. simpl.
  rewrite lookup_insert_eq. simpl. rewrite lookup_insert_eq. simpl. rewrite Hx. simpl.
  rewrite lookup_insert_eq. simpl. rewrite !insert_insert_eq.
  destruct (_ && _ && _); simpl; [|finish].
  unfold silc_server_channel_has_global. simpl. rewrite lookup_insert_eq. simpl.
  match goal with |- context [any_user ?t ?p ?l] => destruct (any_user_ok t p l) as (g & Hg & _) end.
  - intros k b' Hin. apply elem_of_order in Hin. rewrite lookup_delete_Some in Hin. destruct Hin as [N Hin].
    destruct (WF_member _ _ _ _ W (WF_user _ _ _ _ _ W He Hin)) as (cl' & e' & m' & ? & ? & ? & ? & Hx').
    simpl. rewrite Hx'. eexists _, cl'. split; [reflexivity|]. simpl. now rewrite lookup_insert_ne.
  - rewrite Hg. simpl. destruct g; simpl; [finish|].
    finish.
Qed.

(** ** A channel is removed *)

(** The users of the channel leave it on their side only: its table is freed whole. *)
Lemma foreach_users_ok ch l : forall s,
  NoDup l.*1 ->
  (forall k a, (k, a) ∈ l -> (exists m, chls s !! a = Some (mkChl k m ch)) /\ is_Some (clients s !! k)) ->
  exists s', foreach_users s l = Ok s' /\ server_type s' = server_type s /\ channels s' = channels s /\
    id_clients s' = id_clients s /\ id_channels s' = id_channels s /\
    (forall c, cattr s' c = cattr s c) /\
    (forall c ch', cj s' c ch' = if bool_decide (ch' = ch /\ c ∈ l.*1) then None else cj s c ch') /\
    (forall b, chls s' !! b = if bool_decide (b ∈ l.*2) then None else chls s !! b).
Proof.
  induction l as [|[k a] l IH]; intros s N H.
  - exists s. do 6 (split; [reflexivity|]). split.
    + intros c ch'. rewrite bool_decide_eq_false_2; set_solver.
    + intros b. rewrite bool_decide_eq_false_2; set_solver.
  - destruct (H k a) as [[m Hx] [cl Hc]]; [set_solver|]. simpl.
    unfold silc_idlist_del_channel_foreach, del_channel, on_client, free_chl. rewrite Hx. simpl. rewrite Hc. simpl.
    rewrite Hx. simpl. rewrite fmap_cons, list.NoDup_cons in N. destruct N as [Nk N].
    match goal with |- context [foreach_users ?t l] => destruct (IH t) as (s' & -> & Et & Ech & EI & EJ & Ea & Ej & Ex) end.
    + assumption.
    + intros k' a' Hin. simpl. destruct (H k' a') as [[m' Hx'] Hc']; [set_solver|]. split.
      * exists m'. rewrite lookup_delete_ne; [assumption|]. intros ->. rewrite Hx' in Hx. injection Hx as -> ->.
        apply Nk. apply list_elem_of_fmap. exists (k, a'). split; [reflexivity|assumption].
      * destruct (decide (k' = k)) as [->|]; [rewrite lookup_insert_eq; eauto | now rewrite lookup_insert_ne].
    + exists s'. do 5 (split; [first [reflexivity|assumption]|]). split; [|split].
      * intros c. rewrite Ea. unfold cattr. simpl. destruct (decide (c = k)) as [->|].
        -- now rewrite lookup_insert_eq, Hc.
        -- now rewrite lookup_insert_ne.
      * intros c ch'. rewrite Ej. unfold cj. simpl. destruct (decide (c = k)) as [->|].
        -- rewrite lookup_insert_eq, Hc. simpl. rewrite bool_decide_eq_false_2 by tauto.
           destruct (decide (ch' = ch)) as [->|].
           ++ rewrite bool_decide_eq_true_2 by set_solver. apply lookup_delete_eq.
           ++ rewrite bool_decide_eq_false_2 by set_solver. now rewrite lookup_delete_ne.
        -- rewrite lookup_insert_ne by congruence. rewrite (bool_decide_ext (ch' = ch /\ c ∈ l.*1) (ch' = ch /\ c ∈ k :: l.*1)); set_solver.
      * intros b. rewrite Ex. simpl. destruct (decide (b = a)) as [->|].
        -- rewrite lookup_delete_eq. rewrite (bool_decide_eq_true_2 (a ∈ a :: _)) by set_solver. now destruct (bool_decide _).
        -- rewrite lookup_delete_ne by congruence.
           rewrite (bool_decide_ext (b ∈ l.*2) (b ∈ a :: l.*2)); set_solver.
Qed.

Lemma NoDup_order m : NoDup (order m).*1.
Proof. rewrite order_perm. apply NoDup_fst_map_to_list. Qed.

Lemma elem_of_order_keys m k : k ∈ (order m).*1 <-> is_Some (m !! k).
Proof.
  rewrite list_elem_of_fmap. split.
  - intros ([k' a] & -> & H). apply elem_of_order in H. eauto.
  - intros [a H]. exists (k, a). now rewrite elem_of_order.
Qed.

Lemma listed_other (f : SilcIDList -> list Z) {A} (m : gmap Z A) L L' k :
  listed f m -> k ∈ f L -> k ∈ f L' -> L = L'.
Proof.
  intros [N _] H H'. apply list.NoDup_app in N. destruct N as (_ & N & _).
  destruct L, L'; try reflexivity; exfalso; eapply N; eassumption.
Qed.

Lemma listed_in (f : SilcIDList -> list Z) {A} (m : gmap Z A) k :
  listed f m -> is_Some (m !! k) -> k ∈ f local_list \/ k ∈ f global_list.
Proof. intros [_ H] S. apply H in S. now apply elem_of_app in S. Qed.

(** Taking an entry out of its list. *)
Lemma put_list_filter (f : SilcIDList -> list Z) {A} (m : gmap Z A) L k K :
  listed f m -> k ∈ f L -> put_list f L (filter (.≠ k) (f L)) K = filter (fun x => one k x = false) (f K).
Proof.
  intros W H.
  assert (F : filter (.≠ k) (f L) = filter (fun x => one k x = false) (f L)).
  { apply list.list_filter_iff. intros x. unfold one. rewrite bool_decide_eq_false. reflexivity. }
  assert (O : L <> K -> f K = filter (fun x => one k x = false) (f K)).
  { intros N. symmetry. apply (filter_keep (one k)). intros x Hx. unfold one. apply bool_decide_eq_false. intros ->.
    apply N. eapply listed_other; eassumption. }
  destruct L, K; simpl; first [exact F | apply O; discriminate].
Qed.

Lemma silc_idlist_del_channel_ok s L ch : WF s -> ch ∈ id_channels s L ->
  exists s', silc_idlist_del_channel order s L ch = Ok (true, s') /\ Effect s s' (users_of ch) (one ch) none1.
Proof.
  intros W HL. unfold silc_idlist_del_channel. rewrite bool_decide_eq_true_2 by assumption. cbn [negb].
  assert (S : is_Some (channels s !! ch)).
  { apply (wf_channels _ W). rewrite elem_of_app. destruct L; tauto. }
  destruct S as [e He]. simpl. rewrite He. simpl.
  match goal with |- context [foreach_users ?t (order ?m)] =>
    destruct (foreach_users_ok ch (order m) t) as (s' & -> & Et & Ech & EI & EJ & Ea & Ej & Ex) end.
  - apply NoDup_order.
  - intros k a Hin. apply elem_of_order in Hin.
    destruct (WF_member _ _ _ _ W (WF_user _ _ _ _ _ W He Hin)) as (cl' & e' & m' & ? & ? & ? & ? & Hx'). eauto.
  - eexists. split; [reflexivity|]. simpl in *. unfold users_of, one, none1. split; [split|]; simpl.
    + assumption.
    + intros c. apply Ea.
    + intros k. unfold chattr. simpl. rewrite Ech. case_bool_decide as B; [subst; now rewrite lookup_delete_eq|].
      now rewrite lookup_delete_ne by congruence.
    + intros c k. change (cj s' c k = if bool_decide (k = ch) then None else cj s c k). rewrite Ej. unfold cj at 1. simpl.
      fold (cj s c k). destruct (decide (k = ch)) as [->|N].
      * rewrite (bool_decide_eq_true_2 (ch = ch)) by reflexivity. case_bool_decide as B; [reflexivity|].
        rewrite elem_of_order_keys, <- (WF_joined _ _ _ _ W He) in B. unfold joined in B.
        destruct (cj s c ch); [exfalso; eauto|reflexivity].
      * rewrite !bool_decide_eq_false_2 by tauto. reflexivity.
    + intros c k. unfold uj. simpl. rewrite Ech. case_bool_decide as B; [subst; now rewrite lookup_delete_eq|].
      now rewrite lookup_delete_ne by congruence.
    + intros a. rewrite Ex. destruct (chls s !! a) as [[c m k]|] eqn:Hx; [|now destruct (bool_decide _)]. simpl.
      rewrite (bool_decide_ext (a ∈ (order (ch_users e)).*2) (k = ch)); [reflexivity|]. rewrite list_elem_of_fmap. split.
      * intros ([k' a'] & -> & Hin). simpl in Hx. apply elem_of_order in Hin.
        destruct (WF_member _ _ _ _ W (WF_user _ _ _ _ _ W He Hin)) as (? & ? & ? & ? & ? & ? & ? & ?). simpl in *. naive_solver.
      * intros ->. pose proof (WF_chl _ _ _ W Hx) as J. simpl in J. exists (c, a). split; [reflexivity|].
        apply elem_of_order. destruct (WF_member _ _ _ _ W J) as (? & ? & ? & ? & ? & ? & ? & ?). naive_solver.
    + intros K. rewrite EI. symmetry. apply filter_none1.
    + intros K. rewrite EJ. exact (put_list_filter _ _ _ _ _ (wf_channels _ W) HL).
    + intros k k' Hk. simpl in Hk. rewrite Ech in Hk. rewrite lookup_delete_Some in Hk. naive_solver.
Qed.

(** A client is taken off a channel that stays, and its object freed. *)
Lemma empty_step s ch c a : WF s -> cj s c ch = Some a ->
  exists s1 m, chls s !! a = Some (mkChl c m ch) /\
    (forall l, empty_channel s ch ((c, a) :: l) = empty_channel s1 ch l) /\
    Effect s s1 (pair_at c ch) none1 none1.
Proof.
  intros W H. destruct (WF_member _ _ _ _ W H) as (cl & e & m & Hcl & Hj & He & Hu & Hx).
  pose proof (fun b x => WF_chl_unique s c ch a b x W H) as U.
  set (e' := count_users (-1) (with_users (delete c (ch_users e)) e)).
  set (s1 := mkServer (server_type s) (<[c := with_channels (delete ch (cl_channels cl)) cl]> (clients s))
               (<[ch := e']> (channels s)) (delete a (chls s)) (id_clients s) (id_channels s) (stat s)).
  assert (F : Effect s s1 (pair_at c ch) none1 none1).
  { eapply (unlinked_effect s s1 c ch a cl e e' m); first [reflexivity | eassumption]. }
  exists (set_stat s1 (fun st =>
      let st := if SILC_IS_LOCAL cl then bump_my_chanclients (-1) st else st in
      if is_router s then bump_chanclients (-1) (bump_cell_chanclients (-1) st) else st)), m.
  split; [assumption|]. split; [|now apply Effect_stat].
  intros l. simpl. unfold del_channel, del_user, on_client, on_channel, free_chl. rewrite Hx. simpl. rewrite Hcl. simpl.
  rewrite He. simpl. rewrite lookup_insert_eq. simpl. rewrite lookup_insert_eq. simpl. rewrite insert_insert_eq.
  unfold SILC_IS_LOCAL, is_router. simpl.
  destruct (negb (Z.land (cl_status cl) SILC_IDLIST_STATUS_LOCAL =? 0)); simpl;
    destruct (bool_decide (server_type s = SILC_ROUTER)); simpl; rewrite Hx; reflexivity.
Qed.

Lemma empty_channel_ok ch l : forall s, WF s -> NoDup l.*1 -> (forall k a, (k, a) ∈ l -> cj s k ch = Some a) ->
  exists s', empty_channel s ch l = Ok s' /\
    Effect s s' (fun c ch' => bool_decide (ch' = ch /\ c ∈ l.*1)) none1 none1.
Proof.
  induction l as [|[c a] l IH]; intros s W N H.
  - exists s. split; [reflexivity|]. eapply Effect_drop; [assumption|apply Effect_refl| |reflexivity].
    intros c ch' _. unfold none2. rewrite bool_decide_eq_false_2; set_solver.
  - destruct (empty_step s ch c a W) as (s1 & m & Hx & -> & F); [apply H; set_solver|].
    rewrite fmap_cons, list.NoDup_cons in N. destruct N as [Nc N].
    destruct (IH s1) as (s' & -> & G); [eapply Effect_WF; eassumption|assumption| |].
    + intros k b Hin. rewrite (ef_cj _ _ _ _ _ F). unfold pair_at. rewrite bool_decide_eq_false_2; [apply H; set_solver|].
      intros [-> _]. apply Nc. apply list_elem_of_fmap. exists (c, b). tauto.
    + exists s'. split; [reflexivity|].
      eapply Effect_drop; [assumption|exact (Effect_trans _ _ _ _ _ _ _ _ _ F G)| |reflexivity].
      intros k ch' _. unfold or2, pair_at. rewrite <- bool_decide_or. apply bool_decide_ext. set_solver.
Qed.

Lemma Effect_trans' s s1 s2 P D : WF s ->
  Effect s s1 none2 none1 none1 -> Effect s1 s2 P D none1 -> Effect s s2 P D none1.
Proof. intros W F G. exact (Effect_trans _ _ _ _ _ _ _ _ _ F G). Qed.

Lemma Effect_then s s1 s2 P D : WF s ->
  Effect s s1 P D none1 -> Effect s1 s2 none2 none1 none1 -> Effect s s2 P D none1.
Proof.
  intros W F G. eapply Effect_drop; [assumption|exact (Effect_trans _ _ _ _ _ _ _ _ _ F G)| |].
  - intros. apply orb_false_r.
  - intros. apply orb_false_r.
Qed.

(** [silc_server_channel_delete]: the users leave, and so does the channel unless it is
    permanent. *)
Lemma channel_delete_ok s ch e : WF s -> channels s !! ch = Some e ->
  exists s', silc_server_channel_delete order s ch = Ok (founder_auth e, s') /\
    Effect s s' (users_of ch) (if founder_auth e then none1 else one ch) none1.
Proof.
  intros W He. unfold silc_server_channel_delete. rewrite He. simpl. destruct (founder_auth e) eqn:FA; simpl.
  - unfold on_channel at 1. rewrite He. simpl. rewrite lookup_insert_eq. simpl.
    pose proof (Effect_channel s ch e (set_disabled true) He eq_refl eq_refl eq_refl eq_refl) as F.
    set (s1 := set_channels s (<[ch := set_disabled true e]> (channels s))) in *.
    destruct (empty_channel_ok ch (order (ch_users e)) s1) as (s' & -> & G).
    + eapply Effect_WF; eassumption.
    + apply NoDup_order.
    + intros k a Hin. rewrite (ef_cj _ _ _ _ _ F). apply elem_of_order in Hin. exact (WF_user _ _ _ _ _ W He Hin).
    + exists s'. split; [reflexivity|]. eapply Effect_drop; [assumption|exact (Effect_trans' _ _ _ _ _ W F G)| |reflexivity].
      intros c ch' J. unfold users_of. apply bool_decide_ext. split; [tauto|]. intros ->. split; [reflexivity|].
      apply elem_of_order_keys. now apply (WF_joined _ _ _ _ W He).
  - set (s0 := if is_router s then _ else s).
    assert (F0 : Effect s s0 none2 none1 none1) by (subst s0; destruct (is_router s); [apply Effect_stat|]; apply Effect_refl).
    assert (He0 : channels s0 !! ch = Some e) by (subst s0; destruct (is_router s); exact He).
    clearbody s0.
    unfold on_channel. rewrite He0. simpl.
    pose proof (Effect_channel s0 ch e (set_disabled true) He0 eq_refl eq_refl eq_refl eq_refl) as F1.
    set (s1 := set_channels s0 _) in *. pose proof (Effect_trans' _ _ _ _ _ W F0 F1) as F.
    assert (W1 : WF s1) by (eapply Effect_WF; eassumption).
    destruct (decide (ch ∈ id_channels s1 local_list)) as [Hl|Hl].
    + destruct (silc_idlist_del_channel_ok s1 local_list ch W1 Hl) as (s' & -> & G). simpl.
      pose proof (Effect_trans' _ _ _ _ _ W F G) as T.
      destruct (is_router _); eexists; (split; [reflexivity|]); repeat apply Effect_stat; exact T.
    + unfold silc_idlist_del_channel at 1. rewrite bool_decide_eq_false_2 by assumption. simpl.
      assert (Hg : ch ∈ id_channels s1 global_list).
      { destruct (listed_in _ _ ch (wf_channels _ W1)) as [|]; [|contradiction|assumption].
        subst s1. simpl. rewrite lookup_insert_eq. eauto. }
      destruct (silc_idlist_del_channel_ok s1 global_list ch W1 Hg) as (s' & -> & G). simpl.
      pose proof (Effect_trans' _ _ _ _ _ W F G) as T.
      destruct (is_router _); eexists; (split; [reflexivity|]); repeat apply Effect_stat; exact T.
Qed.

(** ** A client leaves a channel *)

(** The steps the three functions that remove a client from its channels share. *)
Definition leave s c ch a (b : bool) : outcome (bool * SilcServer) :=
  let* e := alive (channels s !! ch) in
  if negb (is_server s) && bool_decide (size (ch_users e) < 2)%nat then
    let* p := silc_server_channel_delete order s ch in Ok (false, snd p)
  else
    let* s := unlink_member order s c ch a b in
    let* s := leave_stats s c in
    let* l := (if is_server s then silc_server_channel_has_local order s ch else Ok true) in
    if negb l then let* p := silc_server_channel_delete order s ch in Ok (false, snd p)
    else Ok (true, s).

Lemma leave_stats_ok s c : is_Some (clients s !! c) -> exists f, leave_stats s c = Ok (set_stat s f).
Proof.
  intros [cl H]. unfold leave_stats. rewrite H. simpl.
  exists (fun st => let st := if SILC_IS_LOCAL cl then bump_my_chanclients (-1) st else st in
    if is_router s then bump_chanclients (-1) (bump_cell_chanclients (-1) st) else st).
  destruct s. simpl. now destruct (SILC_IS_LOCAL cl), (is_router _).
Qed.

(** The channel is deleted after the client has left it, or with the client on it. *)
Lemma delete_left s s1 c ch P a : WF s -> cj s c ch = Some a -> dies s c ch = true ->
  Effect s s1 P none1 none1 -> (forall c' ch', joined s c' ch' -> P c' ch' = true -> ch' = ch) ->
  exists s', (let* p := silc_server_channel_delete order s1 ch in Ok (false, snd p)) = Ok (false, s') /\
    Effect s s' (leaves s c ch) (dead s c ch) none1.
Proof.
  intros W H Hd F HP. destruct (WF_member _ _ _ _ W H) as (cl & e & m & Hcl & Hj & He & Hu & Hx).
  assert (W1 : WF s1) by (eapply Effect_WF; eassumption).
  assert (A : chattr s1 ch = chattr s ch) by apply (ef_chattr _ _ _ _ _ F).
  destruct (channels s1 !! ch) as [e1|] eqn:He1.
  2:{ unfold chattr in A. rewrite He1, He in A. discriminate. }
  assert (FA : founder_auth e1 = permanent s ch).
  { unfold permanent. rewrite He. unfold chattr in A. rewrite He1, He in A. simpl in A. injection A as _ A.
    unfold founder_auth. now rewrite A. }
  destruct (channel_delete_ok s1 ch e1 W1 He1) as (s' & -> & G). rewrite FA in G. simpl.
  exists s'. split; [reflexivity|].
  eapply Effect_drop; [assumption|exact (Effect_trans _ _ _ _ _ _ _ _ _ F G)| |].
  - intros c' ch' J. unfold or2, leaves, users_of. rewrite Hd, orb_true_r, andb_true_r.
    case_bool_decide; [apply orb_true_r|]. rewrite orb_false_r. destruct (P c' ch') eqn:EP; [|reflexivity].
    exfalso. eauto.
  - intros ch'. unfold or1, dead, none1, one. rewrite Hd. simpl. destruct (permanent s ch); simpl; [now rewrite andb_false_r|].
    now rewrite andb_true_r.
Qed.

(** Somebody local is left on the channel. *)
Lemma member_with_other s s2 c ch : is_server s = true -> Effect s s2 (pair_at c ch) none1 none1 ->
  (forall c', joined s c' ch -> c' <> c -> server_type s = SILC_SERVER /\ local_client s c' = false) <->
  ~ member_with s2 SILC_IS_LOCAL ch.
Proof.
  intros ES F.
  assert (Hj : forall k, joined s2 k ch <-> joined s k ch /\ k <> c).
  { intros k. unfold joined. rewrite (ef_cj _ _ _ _ _ F). unfold pair_at. case_bool_decide; split; [|naive_solver..].
    intros [? [=]]. }
  assert (Hc : forall k, local_client s2 k = local_client s k).
  { intros k. pose proof (ef_cattr _ _ _ _ _ F k) as A. unfold cattr, none1 in A. unfold local_client, SILC_IS_LOCAL.
    destruct (clients s2 !! k), (clients s !! k); simpl in A; try discriminate; [|reflexivity].
    now injection A as -> _ _ _. }
  unfold is_server in ES. apply bool_decide_eq_true in ES. unfold member_with. split.
  - intros H (k & cl & J & Hk & Hl). apply Hj in J. destruct J as [J N]. destruct (H k J N) as [_ E].
    rewrite <- Hc in E. unfold local_client in E. rewrite Hk in E. congruence.
  - intros H k J N. split; [assumption|]. apply not_true_iff_false. rewrite <- Hc. unfold local_client.
    destruct (clients s2 !! k) as [cl|] eqn:Hk; [|discriminate]. intros Hl. apply H. exists k, cl. rewrite Hj. tauto.
Qed.

Lemma leave_ok s c ch a b : WF s -> cj s c ch = Some a ->
  exists s', leave s c ch a b = Ok (negb (dies s c ch), s') /\ Effect s s' (leaves s c ch) (dead s c ch) none1.
Proof.
  intros W H. destruct (WF_member _ _ _ _ W H) as (cl & e & m & Hcl & Hj & He & Hu & Hx).
  pose proof (dies_iff s c ch W (mk_is_Some _ _ He)) as DI.
  pose proof (size_small _ _ _ Hu) as SZ.
  assert (JU : forall k, joined s k ch <-> is_Some (ch_users e !! k)) by (intros; now apply WF_joined).
  unfold leave. rewrite He. simpl. destruct (negb (is_server s) && _) eqn:E1.
  - apply andb_true_iff in E1. destruct E1 as [_ E1]. apply bool_decide_eq_true in E1.
    assert (Hd : dies s c ch = true).
    { apply DI. intros c' J N. exfalso. apply N. eapply SZ; [assumption|]. now apply JU. }
    rewrite Hd. eapply delete_left; [assumption|eassumption|assumption|apply Effect_refl|discriminate].
  - destruct (unlink_member_ok s c ch a b W H) as (s1 & -> & F). simpl.
    assert (Hc1 : is_Some (clients s1 !! c)).
    { apply cattr_some. rewrite (ef_cattr _ _ _ _ _ F). apply cattr_some. eauto. }
    destruct (leave_stats_ok s1 c Hc1) as [f ->]. simpl.
    pose proof (Effect_stat _ _ _ _ _ f F) as F2. set (s2 := set_stat s1 f) in *.
    assert (W2 : WF s2) by (eapply Effect_WF; eassumption).
    assert (T : is_server s2 = is_server s) by (unfold is_server; now rewrite (ef_type _ _ _ _ _ F2)).
    assert (stays : dies s c ch = false -> Effect s s2 (leaves s c ch) (dead s c ch) none1).
    { intros Hd. eapply Effect_drop; [assumption|exact F2| |].
      - intros c' ch' _. unfold leaves, pair_at. rewrite Hd, orb_false_r, <- bool_decide_and.
        apply bool_decide_ext. tauto.
      - intros ch'. unfold dead. rewrite Hd. symmetry. apply andb_false_r. }
    rewrite T. destruct (is_server s) eqn:ES.
    + destruct (channels s2 !! ch) as [e2|] eqn:He2.
      2:{ exfalso. pose proof (ef_chattr _ _ _ _ _ F2 ch) as A. unfold chattr, none1 in A. rewrite He2, He in A. discriminate. }
      destruct (channel_has_ok s2 SILC_IS_LOCAL ch e2 W2 He2) as (l & Hl & Hs).
      unfold silc_server_channel_has_local. rewrite He2. simpl. rewrite Hl. simpl.
      assert (Hd : dies s c ch = negb l).
      { apply eq_bool_prop_intro. rewrite !Is_true_true, DI, negb_true_iff, <- not_true_iff_false, Hs.
        apply member_with_other; assumption. }
      rewrite Hd. destruct l; simpl; [exists s2; split; [reflexivity|]; now apply stays|].
      eapply delete_left; [assumption|eassumption|assumption|exact F2|].
      intros c' ch' _ HP. unfold pair_at in HP. apply bool_decide_eq_true in HP. tauto.
    + simpl. simpl in E1. apply bool_decide_eq_false in E1.
      assert (Hd : dies s c ch = false).
      { apply not_true_iff_false. rewrite DI. intros D. apply E1, SZ. intros k Hk.
        destruct (decide (k = c)) as [|N]; [assumption|exfalso].
        destruct (D k) as [Ty _]; [now apply JU|assumption|]. unfold is_server in ES.
        rewrite Ty in ES. discriminate. }
      rewrite Hd. exists s2. split; [reflexivity|]. now apply stays.
Qed.

(** ** A client leaves all its channels *)

Lemma Effect_local s s' P D c : Effect s s' P D none1 -> local_client s' c = local_client s c.
Proof.
  intros F. pose proof (ef_cattr _ _ _ _ _ F c) as A. unfold cattr, none1 in A. unfold local_client, SILC_IS_LOCAL.
  destruct (clients s' !! c), (clients s !! c); simpl in A; try discriminate; [|reflexivity].
  now injection A as -> _ _ _.
Qed.

Lemma Effect_permanent s s' P D ch : Effect s s' P D none1 -> D ch = false -> permanent s' ch = permanent s ch.
Proof.
  intros F ED. pose proof (ef_chattr _ _ _ _ _ F ch) as A. rewrite ED in A. unfold chattr in A. unfold permanent, founder_auth.
  destruct (channels s' !! ch), (channels s !! ch); simpl in A; try discriminate; [|reflexivity].
  now injection A as _ ->.
Qed.

Lemma Effect_dies s s' P D c ch : WF s -> is_Some (channels s !! ch) -> Effect s s' P D none1 -> D ch = false ->
  (forall c', joined s c' ch -> P c' ch = false) -> dies s' c ch = dies s c ch.
Proof.
  intros W Hch F ED EP. apply eq_bool_prop_intro. rewrite !Is_true_true.
  assert (Hch' : is_Some (channels s' !! ch)).
  { apply chattr_some. rewrite (ef_chattr _ _ _ _ _ F), ED. now apply chattr_some. }
  rewrite !dies_iff; [|assumption..|eapply Effect_WF; eassumption|assumption].
  assert (Hj : forall k, joined s' k ch <-> joined s k ch).
  { intros k. unfold joined. rewrite (ef_cj _ _ _ _ _ F). specialize (EP k). unfold joined in EP.
    destruct (P k ch); [|reflexivity]. split; [intros [? [=]]|]. intros J. specialize (EP J). discriminate. }
  setoid_rewrite Hj. setoid_rewrite (Effect_local _ _ _ _ _ F). now rewrite (ef_type _ _ _ _ _ F).
Qed.

(** What ends when [c] leaves the channels of a list. *)
Definition leaves_all s c (l : list Z) : Z -> Z -> bool :=
  fun c' ch' => bool_decide (ch' ∈ l) && (bool_decide (c' = c) || dies s c ch').
Definition dead_all s c (l : list Z) : Z -> bool :=
  fun ch' => bool_decide (ch' ∈ l) && (dies s c ch' && negb (permanent s ch')).

Lemma leave_then s s1 s2 c ch l : WF s -> ch ∉ l -> (forall ch', ch' ∈ l -> is_Some (channels s !! ch')) ->
  Effect s s1 (leaves s c ch) (dead s c ch) none1 -> Effect s1 s2 (leaves_all s1 c l) (dead_all s1 c l) none1 ->
  Effect s s2 (leaves_all s c (ch :: l)) (dead_all s c (ch :: l)) none1.
Proof.
  intros W N A F G.
  assert (X : forall ch', ch' ∈ l -> dies s1 c ch' = dies s c ch' /\ permanent s1 ch' = permanent s ch').
  { intros ch' H. assert (ch' <> ch) by congruence. assert (D : dead s c ch ch' = false).
    { unfold dead. now rewrite bool_decide_eq_false_2. }
    split; [eapply Effect_dies; eauto | eapply Effect_permanent; eauto].
    intros c' _. unfold leaves. now rewrite bool_decide_eq_false_2. }
  eapply Effect_drop; [assumption|exact (Effect_trans _ _ _ _ _ _ _ _ _ F G)| |].
  - intros c' ch' _. unfold or2, leaves, leaves_all. destruct (decide (ch' ∈ l)) as [H|H].
    + destruct (X ch' H) as [-> _]. rewrite (bool_decide_eq_false_2 (ch' = ch)) by congruence.
      rewrite (bool_decide_eq_true_2 (ch' ∈ l)), (bool_decide_eq_true_2 (ch' ∈ ch :: l)) by set_solver. reflexivity.
    + rewrite (bool_decide_eq_false_2 (ch' ∈ l)) by assumption. rewrite andb_false_l, orb_false_r.
      rewrite (bool_decide_ext (ch' ∈ ch :: l) (ch' = ch)) by set_solver.
      destruct (decide (ch' = ch)) as [->|]; [reflexivity|]. now rewrite bool_decide_eq_false_2.
  - intros ch'. unfold or1, dead, dead_all. destruct (decide (ch' ∈ l)) as [H|H].
    + destruct (X ch' H) as [-> ->]. rewrite (bool_decide_eq_false_2 (ch' = ch)) by congruence.
      rewrite (bool_decide_eq_true_2 (ch' ∈ l)), (bool_decide_eq_true_2 (ch' ∈ ch :: l)) by set_solver. reflexivity.
    + rewrite (bool_decide_eq_false_2 (ch' ∈ l)) by assumption. rewrite andb_false_l, orb_false_r.
      rewrite (bool_decide_ext (ch' ∈ ch :: l) (ch' = ch)) by set_solver.
      destruct (decide (ch' = ch)) as [->|]; [reflexivity|]. now rewrite bool_decide_eq_false_2.
Qed.

Lemma leaves_nothing s c : WF s -> Effect s s (leaves_all s c []) (dead_all s c []) none1.
Proof.
  intros W. eapply Effect_drop; [assumption|apply Effect_refl| |].
  - intros. unfold leaves_all. rewrite bool_decide_eq_false_2 by set_solver. reflexivity.
  - intros. unfold dead_all. rewrite bool_decide_eq_false_2 by set_solver. reflexivity.
Qed.

(** The loop visits channels that the client is still on. *)
Lemma still_on s s1 c ch l : NoDup (ch :: l.*1) -> Effect s s1 (leaves s c ch) (dead s c ch) none1 ->
  (forall k a, (k, a) ∈ l -> cj s c k = Some a) -> forall k a, (k, a) ∈ l -> cj s1 c k = Some a.
Proof.
  intros N F H k a Hin. rewrite (ef_cj _ _ _ _ _ F). unfold leaves. apply list.NoDup_cons in N. destruct N as [N _].
  rewrite bool_decide_eq_false_2; [now apply H|]. intros ->. apply N. apply list_elem_of_fmap. now exists (ch, a).
Qed.

Lemma joined_alive s c ch : WF s -> joined s c ch -> is_Some (channels s !! ch).
Proof.
  intros W [a J]. destruct (WF_member _ _ _ _ W J) as (? & ? & ? & ? & ? & ? & ?). eauto.
Qed.

Lemma remove_loop_step s c k a l x : chls s !! a = Some x ->
  remove_from_channels_loop order s c ((k, a) :: l) =
  (let* p := leave s c (chl_channel x) a (is_server s) in remove_from_channels_loop order (snd p) c l).
Proof.
  intros Hx. simpl. rewrite Hx. simpl. unfold leave. destruct (alive (channels s !! chl_channel x)); simpl; try reflexivity.
  destruct (_ && _); [now destruct (silc_server_channel_delete _ _ _)|].
  destruct (unlink_member _ _ _ _ _ _) as [s1| | |]; simpl; try reflexivity.
  destruct (leave_stats _ _) as [s2| | |]; simpl; try reflexivity.
  destruct (if is_server s2 then _ else _) as [[] | | |]; simpl; try reflexivity.
  now destruct (silc_server_channel_delete _ _ _).
Qed.

Lemma remove_loop_ok c l : forall s, WF s -> NoDup l.*1 -> (forall k a, (k, a) ∈ l -> cj s c k = Some a) ->
  exists s', remove_from_channels_loop order s c l = Ok s' /\
    Effect s s' (leaves_all s c l.*1) (dead_all s c l.*1) none1.
Proof.
  induction l as [|[ch a] l IH]; intros s W N H.
  - exists s. split; [reflexivity|]. now apply leaves_nothing.
  - assert (J : cj s c ch = Some a) by (apply H; set_solver).
    destruct (WF_member _ _ _ _ W J) as (cl & e & m & Hcl & Hj & He & Hu & Hx).
    rewrite (remove_loop_step _ _ _ _ _ _ Hx). simpl.
    destruct (leave_ok s c ch a (is_server s) W J) as (s1 & -> & F). simpl.
    rewrite fmap_cons in N. destruct (IH s1) as (s' & -> & G).
    + eapply Effect_WF; eassumption.
    + apply list.NoDup_cons in N. tauto.
    + eapply still_on; [exact N|eassumption|]. intros. apply H. set_solver.
    + exists s'. split; [reflexivity|]. eapply leave_then; try eassumption.
      * apply list.NoDup_cons in N. tauto.
      * intros ch' Hin. apply list_elem_of_fmap in Hin. destruct Hin as ([k b] & -> & Hin).
        eapply joined_alive; [eassumption|]. exists b. apply H. set_solver.
Qed.

(** ** The clients of a server leave *)

Lemma remove_clients_loop_step s entry c t k a l x : chls s !! a = Some x ->
  remove_clients_channels_loop order s entry c t ((k, a) :: l) =
  (let ch := chl_channel x in
   let* p := leave s c ch a (negb (is_router s)) in
   if p.1 then
     let* e := alive (channels p.2 !! ch) in
     let* t := notify_users p.2 entry t (order (ch_users e)) in
     remove_clients_channels_loop order p.2 entry c (mkTables (to_notify t) ({[ch]} ∪ to_rekey t)) l
   else remove_clients_channels_loop order p.2 entry c (mkTables (to_notify t) (to_rekey t ∖ {[ch]})) l).
Proof.
  intros Hx. simpl. rewrite Hx. simpl. unfold leave. destruct (alive (channels s !! chl_channel x)); simpl; try reflexivity.
  destruct (_ && _); [now destruct (silc_server_channel_delete _ _ _)|].
  destruct (unlink_member _ _ _ _ _ _) as [s1| | |]; simpl; try reflexivity.
  destruct (leave_stats _ _) as [s2| | |]; simpl; try reflexivity.
  destruct (if is_server s2 then _ else _) as [[] | | |]; simpl; try reflexivity.
  now destruct (silc_server_channel_delete _ _ _).
Qed.

(** The clients that are told are users of the channel that are not behind the server. *)
Lemma notify_users_ok s entry l : forall t,
  (forall k a, (k, a) ∈ l -> exists x cl, chls s !! a = Some x /\ chl_client x = k /\ clients s !! k = Some cl) ->
  exists t', notify_users s entry t l = Ok t' /\ to_rekey t' = to_rekey t /\
    forall c, c ∈ to_notify t' <-> c ∈ to_notify t \/
      (c ∈ l.*1 /\ exists cl, clients s !! c = Some cl /\ cl_router cl <> Some entry).
Proof.
  induction l as [|[k a] l IH]; intros t H.
  - exists t. split; [reflexivity|]. split; [reflexivity|]. set_solver.
  - destruct (H k a) as (x & cl & Hx & Hk & Hc); [set_solver|]. simpl. rewrite Hx. simpl. rewrite Hk, Hc. simpl.
    match goal with |- context [notify_users s entry ?t1 l] => destruct (IH t1) as (t' & -> & E1 & E2) end.
    + intros. apply H. set_solver.
    + exists t'. split; [reflexivity|]. split; [rewrite E1; now case_bool_decide|].
      intros c. rewrite E2. case_bool_decide as B; simpl; [|rewrite elem_of_union, elem_of_singleton]; rewrite elem_of_cons.
      * naive_solver.
      * split; [intros [[->|?]|?]|]; [right; eauto 6|tauto|tauto|]. intros [?|[[->|?] ?]]; tauto.
Qed.

(** The two tables of [silc_server_remove_clients_by_server] name clients and channels
    that exist; the channels have users left. *)
Record Tables_ok s (entry : Z) (t : Tables) : Prop := {
  tb_clients : forall c, c ∈ to_notify t -> exists cl, clients s !! c = Some cl /\ cl_router cl <> Some entry;
  tb_channels : forall ch, ch ∈ to_rekey t -> is_Some (channels s !! ch) /\ exists c, joined s c ch
}.

(** A channel from which [c] is gone and that still has users. *)
Lemma leave_others s s' c ch : WF s -> joined s c ch -> dies s c ch = false ->
  Effect s s' (leaves s c ch) (dead s c ch) none1 -> exists c', joined s' c' ch.
Proof.
  intros W J Hd F. pose proof (joined_alive _ _ _ W J) as A.
  assert (X : exists c' a, cj s c' ch = Some a /\ c' <> c).
  { destruct A as [e He]. unfold dies in Hd. rewrite He in Hd. apply not_true_iff_false in Hd.
    rewrite forallb_forall in Hd. setoid_rewrite <- list_elem_of_In in Hd.
    destruct (decide (Exists (fun p => p.1 <> c) (map_to_list (ch_users e)))) as [E|E].
    - apply list.Exists_exists in E. destruct E as ([c' a] & Hin & N). apply elem_of_map_to_list in Hin.
      exists c', a. split; [exact (WF_user _ _ _ _ _ W He Hin)|exact N].
    - exfalso. apply Hd. intros [c' a] Hin. simpl. destruct (c' =? c) eqn:Q; [reflexivity|].
      exfalso. apply E. apply list.Exists_exists. exists (c', a). split; [assumption|]. simpl. lia. }
  destruct X as (c' & a & X & N). exists c'. unfold joined. rewrite (ef_cj _ _ _ _ _ F). unfold leaves.
  rewrite Hd, (bool_decide_eq_true_2 (ch = ch)), (bool_decide_eq_false_2 (c' = c)) by tauto. simpl. rewrite X. eauto.
Qed.

(** Entries that the tables name survive an operation that ends memberships elsewhere. *)
Lemma Effect_router s s' P D entry c : Effect s s' P D none1 ->
  (exists cl, clients s !! c = Some cl /\ cl_router cl <> Some entry) ->
  exists cl, clients s' !! c = Some cl /\ cl_router cl <> Some entry.
Proof.
  intros F (cl & Hc & N). pose proof (ef_cattr _ _ _ _ _ F c) as A. unfold cattr, none1 in A. rewrite Hc in A.
  destruct (clients s' !! c) as [cl'|]; [|discriminate]. injection A as _ _ _ A. exists cl'. now rewrite A.
Qed.

Lemma tables_left s s1 entry c ch t : Effect s s1 (leaves s c ch) (dead s c ch) none1 -> Tables_ok s entry t ->
  Tables_ok s1 entry (mkTables (to_notify t) (to_rekey t ∖ {[ch]})).
Proof.
  intros F [T1 T2]. split; simpl.
  - intros k Hk. eapply Effect_router; eauto.
  - intros ch' H. apply elem_of_difference in H. destruct H as [H N]. rewrite elem_of_singleton in N.
    destruct (T2 ch' H) as [A [c' J]]. split.
    + apply chattr_some. rewrite (ef_chattr _ _ _ _ _ F). unfold dead. rewrite bool_decide_eq_false_2 by assumption.
      now apply chattr_some.
    + exists c'. unfold joined. rewrite (ef_cj _ _ _ _ _ F). unfold leaves. now rewrite bool_decide_eq_false_2.
Qed.

(** The channel stays: its users are told, and its key is generated anew. *)
Lemma tables_stay s s1 entry c ch t a : WF s -> cj s c ch = Some a -> dies s c ch = false ->
  Effect s s1 (leaves s c ch) (dead s c ch) none1 -> Tables_ok s entry t -> c ∉ to_notify t ->
  exists e t', channels s1 !! ch = Some e /\ notify_users s1 entry t (order (ch_users e)) = Ok t' /\
    Tables_ok s1 entry (mkTables (to_notify t') ({[ch]} ∪ to_rekey t')) /\ c ∉ to_notify t'.
Proof.
  intros W J Hd F T Hc. assert (W1 : WF s1) by (eapply Effect_WF; eassumption).
  destruct (leave_others s s1 c ch W (mk_is_Some _ _ J) Hd F) as [c' J'].
  destruct (joined_alive _ _ _ W1 J') as [e He].
  destruct (notify_users_ok s1 entry (order (ch_users e)) t) as (t' & E & ER & EN).
  - intros k b Hin. apply elem_of_order in Hin.
    destruct (WF_member _ _ _ _ W1 (WF_user _ _ _ _ _ W1 He Hin)) as (cl' & e' & m' & ? & ? & ? & ? & Hx'). eauto.
  - exists e, t'. split; [assumption|]. split; [assumption|].
    assert (N : c ∉ to_notify t').
    { rewrite EN. intros [X|[X _]]; [contradiction|]. apply elem_of_order_keys, (WF_joined _ _ _ _ W1 He) in X.
      unfold joined in X. rewrite (ef_cj _ _ _ _ _ F) in X. unfold leaves in X.
      rewrite !bool_decide_eq_true_2 in X by reflexivity. simpl in X. destruct X as [? [=]]. }
    split; [|assumption]. destruct (tables_left _ _ _ _ _ _ F T) as [T1 T2]. split; simpl in *.
    + intros k Hk. apply EN in Hk. destruct Hk as [Hk|[_ Hk]]; auto.
    + intros ch' H. rewrite ER in H. destruct (decide (ch' = ch)) as [->|]; [eauto|]. apply T2. set_solver.
Qed.

Lemma remove_clients_loop_ok entry c l : forall s t, WF s -> NoDup l.*1 ->
  (forall k a, (k, a) ∈ l -> cj s c k = Some a) -> Tables_ok s entry t -> c ∉ to_notify t ->
  exists s' t', remove_clients_channels_loop order s entry c t l = Ok (s', t') /\
    Effect s s' (leaves_all s c l.*1) (dead_all s c l.*1) none1 /\ Tables_ok s' entry t' /\ c ∉ to_notify t'.
Proof.
  induction l as [|[ch a] l IH]; intros s t W N H T Hc.
  - exists s, t. split; [reflexivity|]. split; [now apply leaves_nothing|]. tauto.
  - assert (J : cj s c ch = Some a) by (apply H; set_solver).
    destruct (WF_member _ _ _ _ W J) as (cl & e & m & Hcl & Hj & He & Hu & Hx).
    rewrite (remove_clients_loop_step _ _ _ _ _ _ _ _ Hx). simpl.
    destruct (leave_ok s c ch a (negb (is_router s)) W J) as (s1 & -> & F). simpl.
    rewrite fmap_cons in N. simpl in N.
    assert (W1 : WF s1) by (eapply Effect_WF; eassumption).
    assert (N' : NoDup l.*1) by (apply list.NoDup_cons in N; tauto).
    assert (H' : forall k b, (k, b) ∈ l -> cj s1 c k = Some b).
    { eapply still_on; [exact N|eassumption|]. intros. apply H. set_solver. }
    assert (fin : forall s', Effect s1 s' (leaves_all s1 c l.*1) (dead_all s1 c l.*1) none1 ->
      Effect s s' (leaves_all s c (ch :: l.*1)) (dead_all s c (ch :: l.*1)) none1).
    { intros s' G. eapply leave_then; try eassumption; [apply list.NoDup_cons in N; tauto|].
      intros ch' Hin. apply list_elem_of_fmap in Hin. destruct Hin as ([k b] & -> & Hin).
      eapply joined_alive; [eassumption|]. exists b. apply H. set_solver. }
    destruct (dies s c ch) eqn:Hd; simpl.
    + destruct (IH s1 (mkTables (to_notify t) (to_rekey t ∖ {[ch]}))) as (s' & t' & -> & G & T' & Hc'); eauto.
      { eapply tables_left; eassumption. }
      exists s', t'. split; [reflexivity|]. split; [now apply fin|]. tauto.
    + destruct (tables_stay s s1 entry c ch t a W J Hd F T Hc) as (e1 & t1 & He1 & E1 & T1 & Hc1).
      rewrite He1. simpl. rewrite E1. simpl.
      destruct (IH s1 (mkTables (to_notify t1) ({[ch]} ∪ to_rekey t1))) as (s' & t' & -> & G & T' & Hc'); eauto.
      exists s', t'. split; [reflexivity|]. split; [now apply fin|]. tauto.
Qed.

(** [silc_server_remove_clients_channels]: its [SILC_VERIFY] holds. *)
Lemma remove_clients_channels_ok s entry c cl t : WF s -> clients s !! c = Some cl -> Tables_ok s entry t ->
  exists s' t', silc_server_remove_clients_channels order s entry c t = Ok (s', t') /\
    Effect s s' (leaves_all s c (order (cl_channels cl)).*1) (dead_all s c (order (cl_channels cl)).*1) none1 /\
    (forall ch, cj s' c ch = None) /\ Tables_ok s' entry t' /\ c ∉ to_notify t'.
Proof.
  intros W Hc T. unfold silc_server_remove_clients_channels. rewrite Hc. simpl.
  destruct (remove_clients_loop_ok entry c (order (cl_channels cl)) s
    (mkTables (to_notify t ∖ {[c]}) (to_rekey t))) as (s' & t' & -> & F & T' & N); simpl.
  - assumption.
  - apply NoDup_order.
  - intros ch a Hin. apply elem_of_order in Hin. apply cj_some. eauto.
  - destruct T as [T1 T2]. split; simpl; [|assumption]. set_solver.
  - set_solver.
  - assert (E : forall ch, cj s' c ch = None).
    { intros ch. rewrite (ef_cj _ _ _ _ _ F). unfold leaves_all. destruct (cj s c ch) as [a|] eqn:J; [|now destruct (_ && _)].
      assert (X : ch ∈ (order (cl_channels cl)).*1).
      { apply elem_of_order_keys. apply cj_some in J. destruct J as (cl' & Hc' & J). simplify_eq. eauto. }
      rewrite !bool_decide_eq_true_2 by tauto. reflexivity. }
    destruct (clients s' !! c) as [cl'|] eqn:Hc'.
    2:{ exfalso. pose proof (ef_cattr _ _ _ _ _ F c) as A. unfold cattr, none1 in A. rewrite Hc, Hc' in A. discriminate. }
    simpl. rewrite bool_decide_eq_true_2; [exists s', t'; tauto|].
    apply map_size_empty_iff, map_empty. intros ch. specialize (E ch). unfold cj in E. now rewrite Hc' in E.
Qed.

(** A client without channels is deleted; the assertion of its destructor holds. *)
Lemma silc_idlist_del_client_ok s L c : WF s -> c ∈ id_clients s L -> (forall ch, cj s c ch = None) ->
  exists s', silc_idlist_del_client s L c = Ok (true, s') /\ Effect s s' none2 none1 (one c) /\ channels s' = channels s.
Proof.
  intros W HL N. unfold silc_idlist_del_client. rewrite bool_decide_eq_true_2 by assumption. cbn [negb].
  assert (S : is_Some (clients s !! c)).
  { apply (wf_clients _ W). rewrite elem_of_app. destruct L; tauto. }
  destruct S as [cl Hc]. rewrite Hc. simpl. rewrite bool_decide_eq_true_2.
  2:{ apply map_size_empty_iff, map_empty. intros ch. specialize (N ch). unfold cj in N. now rewrite Hc in N. }
  eexists. split; [reflexivity|]. split; [|reflexivity]. unfold none2, none1. split; [split|]; simpl.
  - reflexivity.
  - intros k. unfold cattr, one. simpl. case_bool_decide as B; [subst; now rewrite lookup_delete_eq|].
    now rewrite lookup_delete_ne by congruence.
  - reflexivity.
  - intros k ch. unfold cj at 1. simpl. destruct (decide (k = c)) as [->|].
    + rewrite lookup_delete_eq. simpl. now rewrite N.
    + now rewrite lookup_delete_ne by congruence.
  - reflexivity.
  - intros a. now destruct (chls s !! a).
  - intros K. exact (put_list_filter _ _ _ _ _ (wf_clients _ W) HL).
  - intros K. symmetry. now apply filter_keep.
  - unfold keeps_count. eauto.
Qed.

(** Changing what the memberships do not depend on. *)
Lemma WF_client s c cl cl' : WF s -> clients s !! c = Some cl -> cl_channels cl' = cl_channels cl ->
  WF (set_clients s (<[c := cl']> (clients s))) /\
  (forall k ch, cj (set_clients s (<[c := cl']> (clients s))) k ch = cj s k ch).
Proof.
  intros W Hc E.
  assert (J : forall k ch, cj (set_clients s (<[c := cl']> (clients s))) k ch = cj s k ch).
  { intros k ch. unfold cj. simpl. destruct (decide (k = c)) as [->|].
    - rewrite lookup_insert_eq, Hc. simpl. now rewrite E.
    - now rewrite lookup_insert_ne by congruence. }
  split; [|assumption]. split.
  - intros k ch a. rewrite J. apply (wf_cj _ W).
  - apply (wf_uj _ W).
  - simpl. destruct (wf_clients _ W) as [N H]. split; [assumption|]. intros k. rewrite H.
    rewrite <- !elem_of_dom, dom_insert_lookup by eauto. reflexivity.
  - apply (wf_channels _ W).
Qed.

(** A client of the server that signs off: it is registered, behind [router] and, when
    [router] relays it, has the IP of [entry]. *)
Definition signs_off (router entry : Z) (ip : list Z) (cl : SilcClientEntry) : bool :=
  is_registered cl && bool_decide (cl_router cl = Some router) &&
  ((router =? entry) || bool_decide (cl_ip cl = take (length (cl_ip cl)) ip)).

Lemma signs_off_guard router entry ip cl : negb (signs_off router entry ip cl) =
  negb (is_registered cl) || negb (bool_decide (cl_router cl = Some router)) ||
  (negb (router =? entry) && negb (bool_decide (cl_ip cl = take (length (cl_ip cl)) ip))).
Proof. unfold signs_off. now rewrite !negb_andb, negb_orb. Qed.

Definition signing_off s router entry ip c : Prop :=
  exists cl, clients s !! c = Some cl /\ signs_off router entry ip cl = true.

(** What the removal of the clients [l] of a server leaves. *)
Record Signoff s s' router entry ip (l : list Z) : Prop := {
  so_others : forall c, ~ (c ∈ l /\ signing_off s router entry ip c) -> cattr s' c = cattr s c;
  so_gone : forall c, c ∈ l -> ~ signing_off s' router entry ip c;
  so_old : forall c, is_Some (clients s' !! c) -> is_Some (clients s !! c);
  so_left : forall c ch, joined s' c ch -> joined s c ch /\ ~ (c ∈ l /\ signing_off s router entry ip c);
  so_channels : forall ch, is_Some (channels s' !! ch) ->
    is_Some (channels s !! ch) /\ permanent s' ch = permanent s ch;
  so_stay : forall c ch, joined s c ch -> ~ (c ∈ l /\ signing_off s router entry ip c) ->
    is_Some (channels s' !! ch) -> permanent s ch = false -> joined s' c ch;
  so_type : server_type s' = server_type s;
  so_count : keeps_count s s'
}.

Lemma signing_off_cattr s s' router entry ip c : cattr s' c = cattr s c ->
  signing_off s' router entry ip c <-> signing_off s router entry ip c.
Proof.
  intros A. unfold signing_off, signs_off, is_registered. unfold cattr in A.
  destruct (clients s' !! c) as [cl'|], (clients s !! c) as [cl|]; simpl in A; try discriminate; [|naive_solver].
  injection A as E1 E2 E3 E4. split; intros (x & [= <-] & H); eexists; (split; [reflexivity|]);
    [rewrite <- E1, <- E3, <- E4|rewrite E1, E3, E4]; exact H.
Qed.

Lemma Signoff_refl s router entry ip c : ~ signing_off s router entry ip c -> Signoff s s router entry ip [c].
Proof. intros N. split; try tauto; try set_solver. unfold keeps_count. eauto. Qed.

Lemma Signoff_app s s1 s2 router entry ip l1 l2 : (forall k, k ∈ l2 -> k ∉ l1) ->
  Signoff s s1 router entry ip l1 -> Signoff s1 s2 router entry ip l2 -> Signoff s s2 router entry ip (l1 ++ l2).
Proof.
  intros N F G.
  assert (K : forall k, k ∉ l1 -> cattr s1 k = cattr s k) by (intros; apply (so_others _ _ _ _ _ _ F); tauto).
  assert (O : forall k, k ∈ l2 -> signing_off s1 router entry ip k <-> signing_off s router entry ip k).
  { intros k Hk. apply signing_off_cattr, K. auto. }
  split.
  - intros k H. rewrite elem_of_app in H. rewrite (so_others _ _ _ _ _ _ G), (so_others _ _ _ _ _ _ F); [reflexivity|tauto|].
    intros [H1 H2]. apply O in H2; [|assumption]. tauto.
  - intros k H. apply elem_of_app in H. destruct (decide (k ∈ l2)) as [H2|H2]; [now apply (so_gone _ _ _ _ _ _ G)|].
    rewrite (signing_off_cattr s1 s2); [apply (so_gone _ _ _ _ _ _ F); tauto|]. apply (so_others _ _ _ _ _ _ G). tauto.
  - intros k H. now apply (so_old _ _ _ _ _ _ F), (so_old _ _ _ _ _ _ G).
  - intros k ch H. apply (so_left _ _ _ _ _ _ G) in H. destruct H as [H H1].
    apply (so_left _ _ _ _ _ _ F) in H. destruct H as [H H2]. split; [assumption|]. rewrite elem_of_app.
    intros [[X|X] Y]; [tauto|]. apply H1. split; [assumption|]. now apply O.
  - intros ch H. destruct (so_channels _ _ _ _ _ _ G ch H) as [H1 ->]. now apply (so_channels _ _ _ _ _ _ F).
  - intros k ch J H A P. rewrite elem_of_app in H. destruct (so_channels _ _ _ _ _ _ G ch A) as [A1 _].
    apply (so_stay _ _ _ _ _ _ G); [| |assumption|].
    + apply (so_stay _ _ _ _ _ _ F); try assumption. tauto.
    + intros [X Y]. apply O in Y; [|assumption]. tauto.
    + destruct (so_channels _ _ _ _ _ _ F ch A1) as [_ ->]. assumption.
  - now rewrite (so_type _ _ _ _ _ _ G), (so_type _ _ _ _ _ _ F).
  - intros ch e' He'. destruct (so_count _ _ _ _ _ _ G ch e' He') as (e1 & He1 & C1).
    destruct (so_count _ _ _ _ _ _ F ch e1 He1) as (e & He & C). exists e. tauto.
Qed.

(** What one client that is gone, or no longer registered, leaves. *)
Lemma Signoff_one s s1 s' router entry ip c l :
  WF s -> Effect s s1 (leaves_all s c l) (dead_all s c l) none1 -> signing_off s router entry ip c ->
  (forall ch, cj s1 c ch = None) ->
  (forall k, k <> c -> cattr s' k = cattr s1 k) -> (is_Some (clients s' !! c) -> is_Some (clients s !! c)) ->
  ~ signing_off s' router entry ip c -> (forall k ch, cj s' k ch = cj s1 k ch) -> channels s' = channels s1 ->
  server_type s' = server_type s1 -> Signoff s s' router entry ip [c].
Proof.
  intros W F O N K Old Gone J E Ty.
  assert (P : forall ch, is_Some (channels s' !! ch) -> dead_all s c l ch = false).
  { intros ch H. rewrite E in H. apply chattr_some in H. rewrite (ef_chattr _ _ _ _ _ F) in H.
    destruct (dead_all s c l ch); [|reflexivity]. destruct H as [? [=]]. }
  split.
  - intros k H. assert (k <> c) by set_solver. rewrite K by assumption. apply (ef_cattr _ _ _ _ _ F).
  - intros k H. apply list_elem_of_singleton in H. now subst.
  - intros k H. destruct (decide (k = c)) as [->|X]; [now apply Old|].
    apply cattr_some in H. rewrite K, (ef_cattr _ _ _ _ _ F) in H by assumption. now apply cattr_some.
  - intros k ch H. unfold joined in H. rewrite J in H. split.
    + unfold joined. rewrite (ef_cj _ _ _ _ _ F) in H. destruct (leaves_all _ _ _ _ _); [destruct H as [? [=]]|assumption].
    + intros [X _]. apply list_elem_of_singleton in X. subst. rewrite N in H. destruct H as [? [=]].
  - intros ch H. split.
    + specialize (P ch H). rewrite E in H. apply chattr_some in H. rewrite (ef_chattr _ _ _ _ _ F), P in H. now apply chattr_some.
    + unfold permanent at 1. rewrite E. exact (Effect_permanent _ _ _ _ _ F (P ch H)).
  - intros k ch H X A Pm. unfold joined. rewrite J, (ef_cj _ _ _ _ _ F). specialize (P ch A). unfold dead_all in P. rewrite Pm in P.
    unfold leaves_all. assert (k <> c) by set_solver. rewrite (bool_decide_eq_false_2 (k = c)) by assumption. simpl.
    rewrite andb_true_r in P. now rewrite P.
  - now rewrite Ty, (ef_type _ _ _ _ _ F).
  - intros ch e' He'. rewrite E in He'. exact (ef_count _ _ _ _ _ F ch e' He').
Qed.

Lemma count_client_out_ok s : exists f, count_client_out s = set_stat s f.
Proof.
  unfold count_client_out. destruct (_ =? 0); [eauto|].
  exists (fun st => bump_cell_clients (-1) (bump_clients (-1) st)). reflexivity.
Qed.

(** One client of the server signs off: it is deleted, or stays for a while without being
    registered. *)
Lemma signoff_step s L router entry ip signoff t c cl l :
  WF s -> Tables_ok s entry t -> c ∈ id_clients s L -> clients s !! c = Some cl -> signs_off router entry ip cl = true ->
  exists s' t', WF s' /\ Tables_ok s' entry t' /\ Signoff s s' router entry ip [c] /\
    (forall k, k ∈ id_clients s L -> k <> c -> k ∈ id_clients s' L) /\
    (forall K, K <> L -> id_clients s' K = id_clients s K) /\
    remove_clients_by_server_loop order s L router entry ip signoff t (c :: l) =
    remove_clients_by_server_loop order s' L router entry ip signoff t' l.
Proof.
  intros W T HL Hc HO. cbn [remove_clients_by_server_loop]. rewrite Hc. cbn [alive obind].
  assert (HO' : negb (is_registered cl) || negb (bool_decide (cl_router cl = Some router)) ||
         (negb (router =? entry) && negb (bool_decide (cl_ip cl = take (length (cl_ip cl)) ip))) = false).
  { now rewrite <- signs_off_guard, HO. }
  rewrite HO'.
  destruct (count_client_out_ok s) as [f ->].
  assert (F0 : Effect s (set_stat s f) none2 none1 none1) by apply Effect_stat, Effect_refl.
  assert (W0 : WF (set_stat s f)) by (eapply Effect_WF; eassumption).
  destruct (remove_clients_channels_ok (set_stat s f) entry c cl t W0 Hc) as (s1 & t' & -> & F & N & T' & Nt).
  { destruct T. now split. }
  simpl. change (leaves_all (set_stat s f)) with (leaves_all s) in F. change (dead_all (set_stat s f)) with (dead_all s) in F.
  apply (Effect_trans' _ _ _ _ _ W F0) in F.
  pose proof (Effect_WF _ _ _ _ _ W F) as W1.
  assert (Off : signing_off s router entry ip c) by (exists cl; tauto).
  assert (L1 : forall K, id_clients s1 K = id_clients s K).
  { intros K. now rewrite (ef_clients _ _ _ _ _ F), filter_none1. }
  destruct signoff.
  - destruct (silc_idlist_del_client_ok s1 L c W1 ltac:(now rewrite L1) N) as (s2 & -> & G & EC). simpl.
    assert (Gone : clients s2 !! c = None).
    { pose proof (ef_cattr _ _ _ _ _ G c) as A. unfold one in A. rewrite bool_decide_eq_true_2 in A by reflexivity.
      unfold cattr in A. now destruct (clients s2 !! c). }
    exists s2, t'. split; [exact (Effect_WF _ _ _ _ _ W1 G)|]. split.
    { destruct T' as [T1 T2]. split.
      - intros k Hk. destruct (T1 k Hk) as (cl' & Hk' & R). pose proof (ef_cattr _ _ _ _ _ G k) as A. unfold one in A.
        rewrite bool_decide_eq_false_2 in A by congruence. unfold cattr in A. rewrite Hk' in A.
        destruct (clients s2 !! k) as [cl2|]; [|discriminate]. injection A as _ _ _ A. exists cl2. now rewrite A.
      - intros ch Hch. destruct (T2 ch Hch) as [A [k J]]. split.
        + apply chattr_some. rewrite (ef_chattr _ _ _ _ _ G). now apply chattr_some.
        + exists k. unfold joined. now rewrite (ef_cj _ _ _ _ _ G). }
    split; [|split; [|split; [|reflexivity]]].
    + eapply Signoff_one with (s1 := s1); try eassumption.
      * intros k X. rewrite (ef_cattr _ _ _ _ _ G). unfold one. now rewrite bool_decide_eq_false_2.
      * rewrite Gone. intros [? [=]].
      * intros (x & X & _). rewrite Gone in X. discriminate.
      * apply (ef_cj _ _ _ _ _ G).
      * apply (ef_type _ _ _ _ _ G).
    + intros k Hk X. rewrite (ef_clients _ _ _ _ _ G). apply list_elem_of_filter. unfold one.
      rewrite bool_decide_eq_false_2, L1 by assumption. auto.
    + intros K X. rewrite (ef_clients _ _ _ _ _ G), (ef_clients _ _ _ _ _ F), filter_none1. apply filter_keep.
      intros k Hk. unfold one. apply bool_decide_eq_false. intros ->. apply X. symmetry.
      eapply listed_other; [apply (wf_clients _ W)| |]; eassumption.
  - unfold on_client. destruct (clients s1 !! c) as [cl1|] eqn:Hc1.
    2:{ exfalso. pose proof (ef_cattr _ _ _ _ _ F c) as A. unfold cattr, none1 in A. rewrite Hc, Hc1 in A. discriminate. }
    simpl. match goal with |- context [set_clients s1 (<[c := ?x]> _)] => set (cl2 := x) end.
    destruct (WF_client s1 c cl1 cl2 W1 Hc1 eq_refl) as [W2 J2].
    eexists _, t'. split; [exact W2|]. split.
    { destruct T' as [T1 T2]. split; simpl.
      - intros k Hk. destruct (decide (k = c)) as [->|X]; [contradiction|]. rewrite lookup_insert_ne by congruence. auto.
      - intros ch Hch. destruct (T2 ch Hch) as [A [k J]]. split; [assumption|]. exists k. unfold joined. now rewrite J2. }
    split; [|split; [|split; [|reflexivity]]].
    + eapply Signoff_one with (s1 := s1); try eassumption; try reflexivity.
      * intros k X. unfold cattr. simpl. now rewrite lookup_insert_ne.
      * intros _. eauto.
      * intros (x & X & Y). simpl in X. rewrite lookup_insert_eq in X. injection X as <-.
        unfold signs_off in Y. cbn in Y. rewrite bool_decide_eq_false_2 in Y by discriminate. rewrite andb_false_r in Y. discriminate.
    + intros k Hk _. simpl. now rewrite L1.
    + intros K _. apply L1.
Qed.

(** The loop over one of the lists. *)
Lemma signoff_loop L router entry ip signoff l : forall s t,
  WF s -> Tables_ok s entry t -> NoDup l -> (forall k, k ∈ l -> k ∈ id_clients s L) ->
  exists s' t', remove_clients_by_server_loop order s L router entry ip signoff t l = Ok (s', t') /\
    WF s' /\ Tables_ok s' entry t' /\ Signoff s s' router entry ip l /\
    (forall K, K <> L -> id_clients s' K = id_clients s K).
Proof.
  induction l as [|c l IH]; intros s t W T N H.
  - exists s, t. split; [reflexivity|]. split; [assumption|]. split; [assumption|]. split; [|tauto].
    split; try tauto; try set_solver. unfold keeps_count. eauto.
  - apply list.NoDup_cons in N. destruct N as [Nc N].
    assert (S : is_Some (clients s !! c)).
    { apply (wf_clients _ W). rewrite elem_of_app. destruct L; [left|right]; apply H; set_solver. }
    destruct S as [cl Hc]. destruct (signs_off router entry ip cl) eqn:HO.
    + destruct (signoff_step s L router entry ip signoff t c cl l W T) as (s1 & t1 & W1 & T1 & F & L1 & K1 & ->); try assumption.
      { apply H. set_solver. }
      destruct (IH s1 t1) as (s' & t' & -> & W' & T' & G & K'); try assumption.
      { intros k Hk. apply L1; [apply H; set_solver|congruence]. }
      exists s', t'. split; [reflexivity|]. split; [assumption|]. split; [assumption|].
      split.
      * apply (Signoff_app s s1 s' _ _ _ [c] l); try assumption. set_solver.
      * intros K X. now rewrite K', K1.
    + assert (E : remove_clients_by_server_loop order s L router entry ip signoff t (c :: l) =
                  remove_clients_by_server_loop order s L router entry ip signoff t l).
      { cbn [remove_clients_by_server_loop]. rewrite Hc. cbn [alive obind]. 
        now rewrite <- signs_off_guard, HO. }
      rewrite E. destruct (IH s t) as (s' & t' & -> & W' & T' & G & K'); try assumption.
      { intros. apply H. set_solver. }
      exists s', t'. split; [reflexivity|]. split; [assumption|]. split; [assumption|]. split; [|assumption].
      apply (Signoff_app s s s' _ _ _ [c] l); [set_solver|apply Signoff_refl|exact G].
      intros (x & X & Y). congruence.
Qed.
End Membership.
