(* ===== verification/MembershipJoin.v ===== *)
(** * Channel membership: joining

    Joining a channel, and the lists of users and channels received from other
    servers, described by what they add ([Grown]). *)

From stdpp Require Import gmap.
From S2P Require Import Prelude CTypes Outcome Membership MembershipLeave.

#[local] Open Scope outcome_scope.

Definition all_counted s : Prop := forall ch e, channels s !! ch = Some e -> counted e.

Lemma keeps_count_all s s' : keeps_count s s' -> all_counted s -> all_counted s'.
Proof. intros K A ch e' H. destruct (K ch e' H) as (e & He & C). apply C. now apply (A ch). Qed.

(** Entries are kept, the memberships of [Q] are added. *)
Record Grown s s' (Q : Z -> Z -> Prop) : Prop := {
  gr_type : server_type s' = server_type s;
  gr_clients : forall c r, cattr s c = Some r -> cattr s' c = Some r;
  gr_channels : forall ch e, channels s !! ch = Some e -> exists e', channels s' !! ch = Some e' /\ ch_id e' = ch_id e;
  gr_joined : forall c ch, joined s' c ch <-> joined s c ch \/ Q c ch;
  gr_kept : forall c ch a, cj s c ch = Some a -> cj s' c ch = Some a;
  gr_count : all_counted s -> all_counted s'
}.

Lemma Grown_refl s : Grown s s (fun _ _ => False).
Proof. split; eauto; tauto. Qed.

Lemma Grown_trans s s1 s2 Q R : Grown s s1 Q -> Grown s1 s2 R -> Grown s s2 (fun c ch => Q c ch \/ R c ch).
Proof.
  intros F G. split.
  - now rewrite (gr_type _ _ _ G), (gr_type _ _ _ F).
  - intros c r H. now apply (gr_clients _ _ _ G), (gr_clients _ _ _ F).
  - intros ch e H. destruct (gr_channels _ _ _ F ch e H) as (e1 & H1 & E1).
    destruct (gr_channels _ _ _ G ch e1 H1) as (e2 & H2 & E2). exists e2. split; [assumption|congruence].
  - intros c ch. rewrite (gr_joined _ _ _ G), (gr_joined _ _ _ F). tauto.
  - intros c ch a H. now apply (gr_kept _ _ _ G), (gr_kept _ _ _ F).
  - intros H. now apply (gr_count _ _ _ G), (gr_count _ _ _ F).
Qed.

Lemma Grown_ext s s' Q R : (forall c ch, ~ joined s c ch -> Q c ch <-> R c ch) -> Grown s s' Q -> Grown s s' R.
Proof.
  intros E H. split; try apply H. intros c ch. rewrite (gr_joined _ _ _ H).
  destruct (decide (is_Some (cj s c ch))) as [J|J]; [tauto|]. now rewrite E.
Qed.

Lemma Grown_stat s s' Q f : Grown s s' Q -> Grown s (set_stat s' f) Q.
Proof. intros H. split; apply H. Qed.

Lemma Grown_client s s' Q c cl : Grown s s' Q -> clients s !! c = Some cl ->
  exists cl', clients s' !! c = Some cl' /\ cl_status cl' = cl_status cl /\ cl_id cl' = cl_id cl.
Proof.
  intros G H. assert (A : cattr s c = Some (cl_status cl, cl_id cl, cl_ip cl, cl_router cl)) by (unfold cattr; now rewrite H).
  apply (gr_clients _ _ _ G) in A. unfold cattr in A. destruct (clients s' !! c) as [cl'|]; [|discriminate].
  injection A as <- <- _ _. eauto.
Qed.

Lemma WF_stat s f : WF s -> WF (set_stat s f).
Proof. intros W. split; apply W. Qed.

(** A field of a channel that is written. *)
Lemma Grown_channel s ch e f :
  channels s !! ch = Some e -> ch_id (f e) = ch_id e -> ch_users (f e) = ch_users e -> user_count (f e) = user_count e ->
  Grown s (set_channels s (<[ch := f e]> (channels s))) (fun _ _ => False).
Proof.
  intros He Ei Eu Ec. split; try tauto; try reflexivity; simpl.
  - intros k x Hk. destruct (decide (k = ch)) as [->|N].
    + rewrite lookup_insert_eq. simplify_eq. eauto.
    + rewrite lookup_insert_ne by congruence. eauto.
  - intros A k x Hk. simpl in Hk. destruct (decide (k = ch)) as [->|N].
    + rewrite lookup_insert_eq in Hk. injection Hk as <-. unfold counted. rewrite Ec, Eu. now apply (A ch).
    + rewrite lookup_insert_ne in Hk by congruence. now apply (A k).
Qed.

Lemma WF_channel s ch e f : WF s -> channels s !! ch = Some e -> ch_users (f e) = ch_users e ->
  WF (set_channels s (<[ch := f e]> (channels s))).
Proof.
  intros W He Eu. split; try apply W.
  - intros c k a. transitivity (uj s k c = Some a); [|apply (wf_uj _ W)]. unfold uj. simpl. destruct (decide (k = ch)) as [->|N].
    + rewrite lookup_insert_eq, He. simpl. now rewrite Eu.
    + now rewrite lookup_insert_ne by congruence.
  - simpl. destruct (wf_channels _ W) as [N H]. split; [assumption|]. intros k. rewrite H.
    rewrite <- !elem_of_dom, dom_insert_lookup by eauto. reflexivity.
Qed.

Section Joining.

Variable order : gmap Z Z -> list (Z * Z).
Hypothesis order_perm : forall m, order m ≡ₚ map_to_list m.
Variable malloc : gset Z -> Z.
Hypothesis malloc_fresh : forall X, malloc X ∉ X.
Variable channel_name_check : list Z -> bool.

Lemma fresh_lookup {A} (m : gmap Z A) : m !! malloc (dom m) = None.
Proof. apply not_elem_of_dom, malloc_fresh. Qed.

(** ** A new membership *)

Lemma link_member_ok s c cl ch e mode : WF s -> clients s !! c = Some cl -> channels s !! ch = Some e -> cj s c ch = None ->
  exists s', link_member malloc s c ch mode = Ok s' /\ WF s' /\ Grown s s' (fun c' ch' => c' = c /\ ch' = ch).
Proof.
  intros W Hc He N. set (a := malloc (dom (chls s))).
  assert (Ha : chls s !! a = None) by apply fresh_lookup.
  assert (Nc : cl_channels cl !! ch = None) by (unfold cj in N; now rewrite Hc in N).
  assert (Nu : ch_users e !! c = None) by (rewrite (WF_sides _ _ _ W) in N; unfold uj in N; now rewrite He in N).
  unfold link_member, add_user, add_channel, on_channel, on_client, hash_add. fold a. simpl. rewrite He. simpl. rewrite Nu. simpl.
  rewrite ?He. simpl. rewrite Hc. simpl. rewrite Nc. simpl. rewrite ?Hc. simpl. rewrite lookup_insert_eq. simpl.
  rewrite insert_insert_eq. eexists. split; [reflexivity|].
  match goal with |- WF ?s' /\ _ => set (t := s') end.
  assert (CJ : forall c' ch', cj t c' ch' = if bool_decide (c' = c /\ ch' = ch) then Some a else cj s c' ch').
  { intros c' ch'. unfold cj. simpl. destruct (decide (c' = c)) as [->|X].
    - rewrite lookup_insert_eq, Hc. simpl. destruct (decide (ch' = ch)) as [->|Y].
      + rewrite bool_decide_eq_true_2 by tauto. apply lookup_insert_eq.
      + rewrite bool_decide_eq_false_2 by tauto. now apply lookup_insert_ne.
    - rewrite lookup_insert_ne by congruence. now rewrite bool_decide_eq_false_2 by tauto. }
  assert (UJ : forall c' ch', uj t ch' c' = if bool_decide (c' = c /\ ch' = ch) then Some a else uj s ch' c').
  { intros c' ch'. unfold uj. simpl. destruct (decide (ch' = ch)) as [->|X].
    - rewrite lookup_insert_eq, He. simpl. destruct (decide (c' = c)) as [->|Y].
      + rewrite bool_decide_eq_true_2 by tauto. apply lookup_insert_eq.
      + rewrite bool_decide_eq_false_2 by tauto. now apply lookup_insert_ne.
    - rewrite lookup_insert_ne by congruence. now rewrite bool_decide_eq_false_2 by tauto. }
  assert (J : forall b c' ch', joins t b c' ch' <-> (b = a /\ c' = c /\ ch' = ch) \/ joins s b c' ch').
  { intros b c' ch'. unfold joins. simpl. destruct (decide (b = a)) as [->|X].
    - rewrite lookup_insert_eq, Ha. split; [intros [m [= <- _ <-]]; tauto|]. intros [[_ [-> ->]]|[m [=]]]. eauto.
    - rewrite lookup_insert_ne by congruence. tauto. }
  assert (Na : forall c' ch', ~ joins s a c' ch') by (intros c' ch' [m X]; congruence).
  split; split; simpl.
  - intros c' ch' b. rewrite CJ, J. destruct (decide (c' = c /\ ch' = ch)) as [B|B].
    + rewrite bool_decide_eq_true_2 by assumption. destruct B as [-> ->]. rewrite <- (wf_cj _ W), N. naive_solver.
    + rewrite bool_decide_eq_false_2 by assumption. rewrite (wf_cj _ W). tauto.
  - intros c' ch' b. rewrite UJ, J. destruct (decide (c' = c /\ ch' = ch)) as [B|B].
    + rewrite bool_decide_eq_true_2 by assumption. destruct B as [-> ->]. rewrite <- (wf_cj _ W), N. naive_solver.
    + rewrite bool_decide_eq_false_2 by assumption. rewrite (wf_uj _ W). tauto.
  - destruct (wf_clients _ W) as [D H]. split; [assumption|]. intros k. rewrite H.
    rewrite <- !elem_of_dom, dom_insert_lookup by eauto. reflexivity.
  - destruct (wf_channels _ W) as [D H]. split; [assumption|]. intros k. rewrite H.
    rewrite <- !elem_of_dom, dom_insert_lookup by eauto. reflexivity.
  - reflexivity.
  - intros k r. unfold cattr. simpl. destruct (decide (k = c)) as [->|X].
    + now rewrite lookup_insert_eq, Hc.
    + now rewrite lookup_insert_ne by congruence.
  - intros k x Hk. destruct (decide (k = ch)) as [->|X].
    + rewrite lookup_insert_eq. simplify_eq. eauto.
    + rewrite lookup_insert_ne by congruence. eauto.
  - intros c' ch'. unfold joined. rewrite CJ. case_bool_decide as B; [|tauto]. split; eauto.
  - intros c' ch' b H. rewrite CJ. case_bool_decide as B; [|assumption]. destruct B as [-> ->]. congruence.
  - intros A k x Hk. simpl in Hk. destruct (decide (k = ch)) as [->|X].
    + rewrite lookup_insert_eq in Hk. injection Hk as <-. unfold counted. simpl. rewrite (A ch e He).
      rewrite map_size_insert, Nu, u32_plus. f_equal. lia.
    + rewrite lookup_insert_ne in Hk by congruence. now apply (A k).
Qed.

(** A list received from another server: the client joins, or its mode changes. *)
Lemma save_mode_ok s c cl ch e mode : WF s -> clients s !! c = Some cl -> channels s !! ch = Some e ->
  exists s', save_mode malloc s c ch mode = Ok s' /\ WF s' /\ Grown s s' (fun c' ch' => c' = c /\ ch' = ch).
Proof.
  intros W Hc He. unfold save_mode, silc_server_client_on_channel. rewrite Hc. simpl.
  destruct (cl_channels cl !! ch) as [a|] eqn:E.
  2:{ apply (link_member_ok s c cl ch e mode W Hc He). unfold cj. now rewrite Hc. }
  assert (J : cj s c ch = Some a) by (apply cj_some; eauto).
  destruct (WF_member _ _ _ _ W J) as (cl' & e' & m & ? & ? & ? & ? & Hx).
  unfold on_chl. rewrite Hx. simpl. eexists. split; [reflexivity|].
  assert (JS : forall b c' ch', joins (set_chls s (<[a := mkChl c mode ch]> (chls s))) b c' ch' <-> joins s b c' ch').
  { intros b c' ch'. unfold joins. simpl. destruct (decide (b = a)) as [->|X].
    - rewrite lookup_insert_eq, Hx. split; intros [? [= <- _ <-]]; eauto.
    - now rewrite lookup_insert_ne by congruence. }
  split.
  - split; try apply W; intros; unfold set_chl_mode; simpl; rewrite JS; apply W.
  - eapply Grown_ext; [|split; try apply (Grown_refl s)]. intros c' ch' X. split; [tauto|].
    intros [-> ->]. exfalso. apply X. unfold joined. rewrite J. eauto.
Qed.

(** ** Lookups and new entries *)

Lemma find_client_ok s id l : (forall c, c ∈ l -> is_Some (clients s !! c)) ->
  exists r, find_client s l id = Ok r /\
    forall c, r = Some c -> c ∈ l /\ exists cl, clients s !! c = Some cl /\ cl_id cl = id.
Proof.
  induction l as [|c l IH]; intros H; simpl; [exists None; split; [reflexivity|discriminate]|].
  destruct (H c) as [cl Hc]; [set_solver|]. rewrite Hc. simpl. destruct (cl_id cl =? id) eqn:E.
  - exists (Some c). split; [reflexivity|]. intros ? [= <-]. split; [set_solver|]. exists cl. split; [assumption|lia].
  - destruct IH as (r & -> & Hr); [set_solver|]. exists r. split; [reflexivity|]. intros k Hk.
    destruct (Hr k Hk). split; [set_solver|assumption].
Qed.

Lemma listed_alive {A} (f : SilcIDList -> list Z) (m : gmap Z A) L k : listed f m -> k ∈ f L -> is_Some (m !! k).
Proof. intros [_ H] Hk. apply H, elem_of_app. destruct L; tauto. Qed.

Lemma find_client_by_id_ok s L id r : WF s ->
  exists o, silc_idlist_find_client_by_id s L id r = Ok o /\
    forall c, o = Some c -> exists cl, clients s !! c = Some cl /\ cl_id cl = id.
Proof.
  intros W. unfold silc_idlist_find_client_by_id.
  destruct (find_client_ok s id (id_clients s L)) as (o & -> & Ho).
  - intros c Hc. exact (listed_alive _ _ _ _ (wf_clients _ W) Hc).
  - simpl. destruct o as [c|]; [|exists None; split; [reflexivity|discriminate]].
    destruct (Ho c eq_refl) as (_ & cl & Hc & E). rewrite Hc. simpl. eexists. split; [reflexivity|].
    destruct (r && _); [discriminate|]. intros ? [= <-]. eauto.
Qed.

(** The result of [silc_idlist_find_channel_by_id] is the channel with the ID. *)
Lemma find_channel_ok s id l : (forall ch, ch ∈ l -> is_Some (channels s !! ch)) ->
  exists r, find_channel s l id = Ok r /\
    match r with
    | Some ch => ch ∈ l /\ exists e, channels s !! ch = Some e /\ ch_id e = id
    | None => forall ch e, ch ∈ l -> channels s !! ch = Some e -> ch_id e <> id
    end.
Proof.
  induction l as [|ch l IH]; intros H; simpl; [exists None; split; [reflexivity|set_solver]|].
  destruct (H ch) as [e He]; [set_solver|]. rewrite He. simpl. destruct (ch_id e =? id) eqn:E.
  - exists (Some ch). split; [reflexivity|]. split; [set_solver|]. exists e. split; [assumption|lia].
  - destruct IH as (r & -> & Hr); [set_solver|]. exists r. split; [reflexivity|]. destruct r as [k|].
    + destruct Hr. split; [set_solver|assumption].
    + intros k x Hk Hx. apply elem_of_cons in Hk. destruct Hk as [->|Hk]; [|now apply (Hr k)].
      simplify_eq. lia.
Qed.

Lemma listed_append {A} (f : SilcIDList -> list Z) (m : gmap Z A) L k x :
  listed f m -> m !! k = None -> listed (put_list f L (f L ++ [k])) (<[k := x]> m).
Proof.
  intros [N H] Hk.
  assert (X : k ∉ f local_list ++ f global_list) by (rewrite H, Hk; intros [? [=]]).
  rewrite elem_of_app in X. rewrite list.NoDup_app in N. destruct N as (N1 & N2 & N3). split.
  - destruct L; simpl; rewrite !list.NoDup_app; [repeat split|repeat split]; try assumption; try apply NoDup_singleton; set_solver.
  - intros y. rewrite lookup_insert_is_Some. specialize (H y). rewrite elem_of_app in *.
    destruct (decide (k = y)) as [->|Y].
    + split; [tauto|]. intros _. destruct L; simpl; set_solver.
    + rewrite <- H. destruct L; simpl; rewrite elem_of_app, list_elem_of_singleton; naive_solver.
Qed.

Lemma add_client_ok s L id ip router : WF s ->
  exists s' c, silc_idlist_add_client malloc s L id ip router = (s', c) /\ WF s' /\
    clients s' !! c = Some (mkClient 0 id ip router ∅) /\ channels s' = channels s /\ clients s !! c = None /\
    Grown s s' (fun _ _ => False).
Proof.
  intros W. unfold silc_idlist_add_client. set (c := malloc (dom (clients s))).
  assert (Hc : clients s !! c = None) by apply fresh_lookup.
  eexists _, c. split; [reflexivity|].
  match goal with |- WF ?s' /\ _ => set (t := s') end.
  assert (CJ : forall c' ch', cj t c' ch' = cj s c' ch').
  { intros c' ch'. unfold cj. simpl. destruct (decide (c' = c)) as [->|X].
    - now rewrite lookup_insert_eq, Hc.
    - now rewrite lookup_insert_ne by congruence. }
  split; [|split; [|split; [reflexivity|split; [assumption|]]]].
  - split; try apply W.
    + intros c' ch' a. rewrite CJ. apply W.
    + exact (listed_append _ _ _ _ _ (wf_clients _ W) Hc).
  - simpl. apply lookup_insert_eq.
  - split; simpl; try tauto; try reflexivity; eauto.
    + intros k r. unfold cattr. simpl. destruct (decide (k = c)) as [->|X]; [now rewrite Hc|].
      now rewrite lookup_insert_ne by congruence.
    + intros k ch. unfold joined. rewrite CJ. tauto.
    + intros k ch a. now rewrite CJ.
Qed.

Lemma add_channel_ok s L name mode id s' ch : WF s ->
  silc_idlist_add_channel malloc channel_name_check s L name mode id = Some (s', ch) ->
  WF s' /\ channels s' !! ch = Some (mkChannel id mode ∅ 0 false false) /\ clients s' = clients s /\
  channels s !! ch = None /\ id_channels s' L = id_channels s L ++ [ch] /\ server_type s' = server_type s /\
  Grown s s' (fun _ _ => False).
Proof.
  intros W. unfold silc_idlist_add_channel. destruct (channel_name_check name); simpl; [|discriminate].
  intros [= <- <-]. set (ch := malloc (dom (channels s))).
  assert (Hc : channels s !! ch = None) by apply fresh_lookup.
  match goal with |- WF ?s' /\ _ => set (t := s') end.
  assert (UJ : forall c' ch', uj t ch' c' = uj s ch' c').
  { intros c' ch'. unfold uj. simpl. destruct (decide (ch' = ch)) as [->|X].
    - now rewrite lookup_insert_eq, Hc.
    - now rewrite lookup_insert_ne by congruence. }
  split; [|split; [|split; [reflexivity|split; [assumption|split; [|split; [reflexivity|]]]]]].
  - split; try apply W.
    + intros c' ch' a. rewrite UJ. apply W.
    + exact (listed_append _ _ _ _ _ (wf_channels _ W) Hc).
  - simpl. apply lookup_insert_eq.
  - simpl. now destruct L.
  - split; simpl; try tauto; try reflexivity; eauto.
    + intros k e Hk. rewrite lookup_insert_ne by congruence. eauto.
    + intros A k e Hk. simpl in Hk. destruct (decide (k = ch)) as [->|X].
      * rewrite lookup_insert_eq in Hk. injection Hk as <-. reflexivity.
      * rewrite lookup_insert_ne in Hk by congruence. now apply (A k).
Qed.

(** ** The users of a channel, from another server *)

Lemma find_either s id r : WF s ->
  exists o, (let* f := silc_idlist_find_client_by_id s local_list id r in
             match f with
             | Some c => Ok (Some c)
             | None => silc_idlist_find_client_by_id s global_list id r
             end) = Ok o /\
    forall c, o = Some c -> exists cl, clients s !! c = Some cl /\ cl_id cl = id.
Proof.
  intros W. destruct (find_client_by_id_ok s local_list id r W) as (o & -> & Ho). simpl.
  destruct o as [c|]; [exists (Some c); split; [reflexivity|apply Ho]|].
  now apply find_client_by_id_ok.
Qed.

Lemma save_users_ok conn ch noadd l : forall s, WF s -> is_Some (channels s !! ch) ->
  exists s' Q, silc_server_save_users_on_channel malloc s conn ch noadd l = Ok s' /\ WF s' /\
    Grown s s' Q /\ forall c' ch', Q c' ch' -> ch' = ch.
Proof.
  induction l as [|[[id ip] mode] l IH]; intros s W [e He].
  { exists s, (fun _ _ => False). split; [reflexivity|]. split; [assumption|]. split; [apply Grown_refl|tauto]. }
  cbn [silc_server_save_users_on_channel]. case_bool_decide; [apply IH; eauto|].
  destruct (find_either s id (negb (is_server s)) W) as (o & E & Ho).
  assert (then_rest : forall s1 Q1, WF s1 -> Grown s s1 Q1 -> (forall c' ch', Q1 c' ch' -> ch' = ch) ->
    exists s' Q, silc_server_save_users_on_channel malloc s1 conn ch noadd l = Ok s' /\ WF s' /\
      Grown s s' Q /\ forall c' ch', Q c' ch' -> ch' = ch).
  { intros s1 Q1 W1 G1 H1. destruct (gr_channels _ _ _ G1 ch e He) as (e1 & He1 & _).
    destruct (IH s1 W1) as (s' & Q & -> & W' & G & HQ); [eauto|].
    eexists s', _. split; [reflexivity|]. split; [assumption|]. split; [eapply Grown_trans; eassumption|].
    intros c' ch' [?|?]; eauto. }
  assert (stays : exists s' Q, silc_server_save_users_on_channel malloc s conn ch noadd l = Ok s' /\ WF s' /\
      Grown s s' Q /\ forall c' ch', Q c' ch' -> ch' = ch).
  { apply (then_rest s (fun _ _ => False)); [assumption|apply Grown_refl|tauto]. }
  destruct (find_client_by_id_ok s local_list id (negb (is_server s)) W) as (o1 & E1 & Ho1). rewrite E1 in *. cbn [obind] in *.
  rewrite E. cbn [obind]. destruct o as [c|].
  - destruct (Ho c eq_refl) as (cl & Hc & _). rewrite Hc. cbn [alive obind]. destruct (negb (is_registered cl)); [exact stays|].
    destruct (save_mode_ok s c cl ch e mode W Hc He) as (s1 & -> & W1 & G1). simpl.
    eapply then_rest; [assumption|exact G1|simpl; intuition congruence].
  - destruct (negb (is_server s)); [exact stays|].
    destruct (add_client_ok s global_list id ip conn W) as (s1 & c & -> & W1 & Hc & ECh & Nc & G1).
    unfold on_client. rewrite Hc. simpl.
    match goal with |- context [set_clients s1 (<[c := ?x]> _)] => set (cl2 := x) end.
    destruct (WF_client s1 c _ cl2 W1 Hc eq_refl) as [W2 J2].
    match goal with |- context [set_stat ?x (bump_clients 1)] => set (s2 := x) in * end.
    assert (G2 : Grown s s2 (fun _ _ => False)).
    { split.
      - apply (gr_type _ _ _ G1).
      - intros k r Hk. unfold cattr. simpl. rewrite lookup_insert_ne; [now apply (gr_clients _ _ _ G1)|].
        intros ->. unfold cattr in Hk. rewrite Nc in Hk. discriminate.
      - apply (gr_channels _ _ _ G1).
      - intros k k'. unfold joined. rewrite J2. apply (gr_joined _ _ _ G1).
      - intros k k' a. rewrite J2. apply (gr_kept _ _ _ G1).
      - apply (gr_count _ _ _ G1). }
    destruct (save_mode_ok (set_stat s2 (bump_clients 1)) c cl2 ch e mode) as (s3 & -> & W3 & G3).
    + now apply WF_stat.
    + simpl. apply lookup_insert_eq.
    + simpl. now rewrite ECh.
    + simpl. eapply then_rest; [assumption|eapply Grown_trans; [apply (Grown_stat _ _ _ (bump_clients 1) G2)|exact G3]|simpl; intuition congruence].
Qed.

(** ** The channels of a user, from another server *)

Lemma find_channel_either s id : WF s ->
  exists o, (let* f := silc_idlist_find_channel_by_id s local_list id in
             match f with
             | Some ch => Ok (Some ch)
             | None => silc_idlist_find_channel_by_id s global_list id
             end) = Ok o /\
    match o with
    | Some ch => exists e, channels s !! ch = Some e /\ ch_id e = id
    | None => forall ch e, channels s !! ch = Some e -> ch_id e <> id
    end.
Proof.
  intros W. unfold silc_idlist_find_channel_by_id.
  destruct (find_channel_ok s id (id_channels s local_list)) as (o & -> & Ho).
  { intros k Hk. exact (listed_alive _ _ _ _ (wf_channels _ W) Hk). }
  simpl. destruct o as [ch|]; [exists (Some ch); split; [reflexivity|apply Ho]|].
  destruct (find_channel_ok s id (id_channels s global_list)) as (o & -> & Ho').
  { intros k Hk. exact (listed_alive _ _ _ _ (wf_channels _ W) Hk). }
  exists o. split; [reflexivity|]. destruct o as [ch|]; [apply Ho'|].
  intros k e Hk. destruct (listed_in _ _ k (wf_channels _ W)); eauto.
Qed.

(** What the loop over the channel payloads does: the client is on the channels of the
    set, which have IDs of the list; every known channel of the list is among them. *)
Record Saved s s' c (l : list ChannelPayload) (ht ht' : gset Z) : Prop := {
  sv_wf : WF s';
  sv_grown : Grown s s' (fun c' ch' => c' = c /\ ch' ∈ ht');
  sv_sub : ht ⊆ ht';
  sv_named : forall ch, ch ∈ ht' -> ch ∈ ht \/
    exists e entry, channels s' !! ch = Some e /\ entry ∈ l /\ pl_id entry = Some (ch_id e);
  sv_found : forall entry id ch e, entry ∈ l -> pl_id entry = Some id -> channels s !! ch = Some e -> ch_id e = id ->
    exists ch' e', ch' ∈ ht' /\ channels s' !! ch' = Some e' /\ ch_id e' = id
}.

Lemma Saved_nil s c ht : WF s -> (forall ch, ch ∈ ht -> joined s c ch) -> Saved s s c [] ht ht.
Proof.
  intros W H. split; eauto; try set_solver. eapply Grown_ext; [|apply Grown_refl]. simpl.
  intros c' ch' N. split; [tauto|]. intros [-> Hin]. exact (N (H _ Hin)).
Qed.

(** A payload that is passed over: it does not parse, or the channel is not known. *)
Lemma Saved_skip s s' c entry l ht ht' :
  (forall id ch e, pl_id entry = Some id -> channels s !! ch = Some e -> ch_id e <> id) ->
  Saved s s' c l ht ht' -> Saved s s' c (entry :: l) ht ht'.
Proof.
  intros H S. split; try apply S.
  - intros ch Hch. destruct (sv_named _ _ _ _ _ _ S ch Hch) as [|(e & x & ? & ? & ?)]; [tauto|].
    right. exists e, x. set_solver.
  - intros x id ch e Hx Hid He E. apply elem_of_cons in Hx. destruct Hx as [->|Hx]; [|now apply (sv_found _ _ _ _ _ _ S x id ch e)].
    exfalso. exact (H id ch e Hid He E).
Qed.

Lemma Saved_cons s s1 s' c ch e1 entry l ht ht' :
  (forall k, k ∈ ht -> joined s c k) -> joined s1 c ch ->
  Grown s s1 (fun c' ch' => c' = c /\ ch' = ch) -> channels s1 !! ch = Some e1 -> pl_id entry = Some (ch_id e1) ->
  Saved s1 s' c l ({[ch]} ∪ ht) ht' -> Saved s s' c (entry :: l) ht ht'.
Proof.
  intros Hht J G1 He1 Hid S.
  assert (In : ch ∈ ht') by (apply (sv_sub _ _ _ _ _ _ S); set_solver).
  destruct (gr_channels _ _ _ (sv_grown _ _ _ _ _ _ S) ch e1 He1) as (e' & He' & Ee').
  split.
  - apply S.
  - eapply Grown_ext; [|exact (Grown_trans _ _ _ _ _ G1 (sv_grown _ _ _ _ _ _ S))]. simpl. intros. intuition congruence.
  - intros k Hk. apply (sv_sub _ _ _ _ _ _ S). set_solver.
  - intros k Hk. destruct (sv_named _ _ _ _ _ _ S k Hk) as [H|(e & x & ? & ? & ?)].
    + apply elem_of_union in H. destruct H as [H|H]; [|tauto]. apply elem_of_singleton in H. subst.
      right. exists e', entry. rewrite Ee'. set_solver.
    + right. exists e, x. set_solver.
  - intros x id k e Hx Hxid He E. apply elem_of_cons in Hx. destruct Hx as [->|Hx].
    + exists ch, e'. split; [assumption|]. split; [assumption|]. congruence.
    + destruct (gr_channels _ _ _ G1 k e He) as (e2 & He2 & E2).
      apply (sv_found _ _ _ _ _ _ S x id k e2); congruence.
Qed.

(** The loop on the channel that was found or made: the rest of the list follows. *)
Lemma save_channels_known s c cl ch e mode mode' :
  WF s -> clients s !! c = Some cl -> channels s !! ch = Some e ->
  exists s0 s1 e1, on_channel s ch (set_ch_mode mode') = Ok s0 /\ save_mode malloc s0 c ch mode = Ok s1 /\
    WF s1 /\ Grown s s1 (fun c' ch' => c' = c /\ ch' = ch) /\ joined s1 c ch /\
    channels s1 !! ch = Some e1 /\ ch_id e1 = ch_id e.
Proof.
  intros W Hc He. unfold on_channel. rewrite He. simpl.
  pose proof (WF_channel s ch e (set_ch_mode mode') W He eq_refl) as W1.
  pose proof (Grown_channel s ch e (set_ch_mode mode') He eq_refl eq_refl eq_refl) as G1.
  set (s1 := set_channels s _) in *. exists s1.
  assert (He1 : channels s1 !! ch = Some (set_ch_mode mode' e)) by (subst s1; simpl; apply lookup_insert_eq).
  destruct (save_mode_ok s1 c cl ch _ mode W1 Hc He1) as (s2 & E2 & W2 & G2).
  destruct (gr_channels _ _ _ G2 ch _ He1) as (e2 & He2 & Ee).
  exists s2, e2. split; [reflexivity|]. split; [assumption|]. split; [assumption|]. split.
  { eapply Grown_ext; [|exact (Grown_trans _ _ _ _ _ G1 G2)]. simpl. intros. tauto. }
  split; [apply (gr_joined _ _ _ G2); tauto|]. split; [assumption|]. now rewrite Ee.
Qed.

Lemma save_channels_ok c chumodes l : forall s cl i ht,
  WF s -> clients s !! c = Some cl -> (i + length l <= length chumodes)%nat -> (forall ch, ch ∈ ht -> joined s c ch) ->
  exists s' ht', save_channels_loop malloc channel_name_check s c chumodes i ht l = Ok (s', ht') /\
    Saved s s' c l ht ht'.
Proof.
  induction l as [|entry l IH]; intros s cl i ht W Hc Hi Hht.
  { exists s, ht. split; [reflexivity|]. now apply Saved_nil. }
  cbn [save_channels_loop]. simpl in Hi. destruct (pl_id entry) as [id|] eqn:Hid.
  2:{ destruct (IH s cl i ht W Hc) as (s' & ht' & -> & S); [lia|assumption|].
      exists s', ht'. split; [reflexivity|]. apply Saved_skip; [congruence|assumption]. }
  assert (Hm : is_Some (chumodes !! i)) by (apply lookup_lt_is_Some; lia). destruct Hm as [mode Hm].
  assert (go : forall s0 ch e cl0, WF s0 -> Grown s s0 (fun _ _ => False) -> clients s0 !! c = Some cl0 ->
    channels s0 !! ch = Some e -> ch_id e = id ->
    exists s' ht', (let* s := on_channel s0 ch (set_ch_mode (pl_mode entry)) in
       let* mode := alive (chumodes !! i) in
       let* s := save_mode malloc s c ch mode in
       save_channels_loop malloc channel_name_check s c chumodes (S i) ({[ch]} ∪ ht) l) = Ok (s', ht') /\
      Saved s s' c (entry :: l) ht ht').
  { intros s0 ch e cl0 W0 G0 Hc0 He0 Eid.
    destruct (save_channels_known s0 c cl0 ch e mode (pl_mode entry) W0 Hc0 He0) as (sa & sb & e1 & -> & Eb & W1 & G1 & J1 & He1 & Ee).
    cbn [obind]. rewrite Hm. cbn [alive obind]. rewrite Eb. cbn [obind].
    pose proof (Grown_trans _ _ _ _ _ G0 G1) as G.
    destruct (Grown_client _ _ _ _ _ G Hc) as (cl1 & Hc1 & _).
    destruct (IH sb cl1 (S i) ({[ch]} ∪ ht) W1 Hc1) as (s' & ht' & -> & S).
    - lia.
    - intros k Hk. apply elem_of_union in Hk. destruct Hk as [Hk|Hk].
      + apply elem_of_singleton in Hk. now subst.
      + apply (gr_joined _ _ _ G). left. auto.
    - exists s', ht'. split; [reflexivity|]. eapply (Saved_cons s sb s' c ch e1); try eassumption.
      + eapply Grown_ext; [|exact G]. simpl. tauto.
      + congruence. }
  destruct (find_channel_either s id W) as (o & E & Ho).
  destruct (find_channel_ok s id (id_channels s local_list)) as (o1 & E1 & _).
  { intros k Hk. exact (listed_alive _ _ _ _ (wf_channels _ W) Hk). }
  unfold silc_idlist_find_channel_by_id at 1 in E. unfold silc_idlist_find_channel_by_id at 1. rewrite E1 in *.
  cbn [obind] in *. rewrite E. cbn [obind]. destruct o as [ch|].
  - destruct Ho as (e & He & Eid). eapply go; eauto using Grown_refl.
  - destruct (negb (is_server s)).
    + destruct (IH s cl (S i) ht W Hc) as (s' & ht' & -> & S); [lia|assumption|].
      exists s', ht'. split; [reflexivity|]. apply Saved_skip; [|assumption]. intros x k e X. rewrite Hid in X. injection X as <-. apply Ho.
    + destruct (silc_idlist_add_channel malloc channel_name_check s global_list (pl_name entry) 0 id) as [[s0 ch]|] eqn:Ea.
      * destruct (add_channel_ok _ _ _ _ _ _ _ W Ea) as (W0 & He0 & Ec0 & _ & _ & _ & G0).
        eapply (go s0 ch _ cl); eauto. now rewrite Ec0.
      * destruct (IH s cl (S i) ht W Hc) as (s' & ht' & -> & S); [lia|assumption|].
        exists s', ht'. split; [reflexivity|]. apply Saved_skip; [|assumption]. intros x k e X. rewrite Hid in X. injection X as <-. apply Ho.
Qed.

(** ** The channels that are not named are left *)

Lemma unlisted_step s c ch a ht : WF s -> cj s c ch = Some a -> ch ∉ ht ->
  exists s1, (forall l, leave_unlisted s ht ((ch, a) :: l) = leave_unlisted s1 ht l) /\
    Drop s s1 (pair_at c ch) none1 none1.
Proof.
  intros W H N. destruct (WF_member _ _ _ _ W H) as (cl & e & m & Hcl & Hj & He & Hu & Hx).
  pose proof (fun b x => WF_chl_unique s c ch a b x W H) as U.
  set (s1 := mkServer (server_type s) (<[c := with_channels (delete ch (cl_channels cl)) cl]> (clients s))
               (<[ch := with_users (delete c (ch_users e)) e]> (channels s)) (delete a (chls s))
               (id_clients s) (id_channels s) (stat s)).
  exists s1. split.
  - intros l. simpl. rewrite Hx. simpl. rewrite bool_decide_eq_false_2 by assumption.
    unfold del_channel, del_user, on_client, on_channel, free_chl. rewrite He. simpl. rewrite Hcl. simpl. rewrite Hx. reflexivity.
  - eapply (unlinked_drop s s1 c ch a cl e _ m); first [reflexivity | eassumption].
Qed.

Lemma leave_unlisted_ok c ht l : forall s, WF s -> NoDup l.*1 -> (forall ch a, (ch, a) ∈ l -> cj s c ch = Some a) ->
  exists s', leave_unlisted s ht l = Ok s' /\
    Drop s s' (fun c' ch' => bool_decide (c' = c /\ ch' ∈ l.*1 /\ ch' ∉ ht)) none1 none1.
Proof.
  induction l as [|[ch a] l IH]; intros s W N H.
  - exists s. split; [reflexivity|]. eapply Drop_drop; [assumption|apply Effect_refl| |reflexivity].
    intros. rewrite bool_decide_eq_false_2; set_solver.
  - assert (J : cj s c ch = Some a) by (apply H; set_solver).
    rewrite fmap_cons in *. apply list.NoDup_cons in N. destruct N as [Nc N]. simpl in Nc.
    destruct (decide (ch ∈ ht)) as [X|X].
    + destruct (WF_member _ _ _ _ W J) as (cl & e & m & ? & ? & ? & ? & Hx). simpl. rewrite Hx. simpl.
      rewrite bool_decide_eq_true_2 by assumption.
      destruct (IH s W N) as (s' & -> & D); [intros; apply H; set_solver|].
      exists s'. split; [reflexivity|]. eapply Drop_drop; [assumption|exact D| |reflexivity].
      intros. apply bool_decide_ext. set_solver.
    + destruct (unlisted_step s c ch a ht W J X) as (s1 & -> & D1).
      destruct (IH s1) as (s' & -> & D); [exact (Drop_WF _ _ _ _ _ W D1)|assumption| |].
      * intros k b Hin. rewrite (ef_cj _ _ _ _ _ D1). unfold pair_at. rewrite bool_decide_eq_false_2; [apply H; set_solver|].
        intros [_ ->]. apply Nc, list_elem_of_fmap. exists (ch, b). tauto.
      * exists s'. split; [reflexivity|].
        eapply Drop_drop; [assumption|exact (Drop_trans _ _ _ _ _ _ _ _ _ D1 D)| |reflexivity].
        intros k ch' _. unfold or2, pair_at. rewrite <- bool_decide_or. apply bool_decide_ext. set_solver.
Qed.

(** The end of [silc_server_save_user_channels]: the client stays on the channels of the
    table. *)
Lemma leave_rest_ok s c cl ht : WF s -> clients s !! c = Some cl ->
  exists s', leave_unlisted s ht (order (cl_channels cl)) = Ok s' /\ WF s' /\
    (forall c' ch, joined s' c' ch <-> joined s c' ch /\ (c' = c -> ch ∈ ht)) /\
    (forall ch, chattr s' ch = chattr s ch) /\ (forall c', cattr s' c' = cattr s c') /\
    server_type s' = server_type s.
Proof.
  intros W Hc. destruct (leave_unlisted_ok c ht (order (cl_channels cl)) s W) as (s' & -> & D).
  - now apply NoDup_order.
  - intros ch a Hin. apply (elem_of_order order order_perm) in Hin. apply cj_some. eauto.
  - exists s'. split; [reflexivity|]. split; [exact (Drop_WF _ _ _ _ _ W D)|].
    split; [|split; [apply (ef_chattr _ _ _ _ _ D)|split; [apply (ef_cattr _ _ _ _ _ D)|apply D]]].
    intros c' ch. unfold joined. rewrite (ef_cj _ _ _ _ _ D).
    case_bool_decide as B.
    + split; [intros [? [=]]|]. destruct B as (-> & _ & X). tauto.
    + split; [|tauto]. intros J. split; [assumption|]. intros ->. destruct (decide (ch ∈ ht)); [assumption|].
      exfalso. apply B. split; [reflexivity|]. split; [|assumption]. apply (elem_of_order_keys order order_perm).
      destruct J as [a J]. apply cj_some in J. destruct J as (x & Hx & J). simplify_eq. eauto.
Qed.

Lemma save_user_channels_ok s c cl l modes : WF s -> clients s !! c = Some cl -> (length l <= length modes)%nat ->
  exists s' ht, silc_server_save_user_channels order malloc channel_name_check s c (Some (l, modes)) = Ok s' /\ WF s' /\
    (is_registered cl = false -> ht = ∅) /\
    (is_registered cl = true -> exists s1, Saved s s1 c l ∅ ht /\ (forall ch, chattr s' ch = chattr s1 ch)) /\
    (forall ch, joined s' c ch <-> ch ∈ ht) /\
    (forall c' ch, c' <> c -> joined s' c' ch <-> joined s c' ch).
Proof.
  intros W Hc Hl. unfold silc_server_save_user_channels. rewrite Hc. cbn [alive obind].
  destruct (is_registered cl).
  - destruct (save_channels_ok c modes l s cl 0%nat ∅ W Hc) as (s1 & ht & -> & S); [simpl; lia|set_solver|].
    cbn [obind]. destruct (Grown_client _ _ _ _ _ (sv_grown _ _ _ _ _ _ S) Hc) as (cl1 & Hc1 & _).
    rewrite Hc1. cbn [alive obind].
    destruct (leave_rest_ok s1 c cl1 ht (sv_wf _ _ _ _ _ _ S) Hc1) as (s' & -> & W' & J & A & _).
    exists s', ht. split; [reflexivity|]. split; [assumption|]. split; [discriminate|]. split; [eauto|]. split.
    + intros ch. rewrite J, (gr_joined _ _ _ (sv_grown _ _ _ _ _ _ S)). simpl. tauto.
    + intros c' ch N. rewrite J, (gr_joined _ _ _ (sv_grown _ _ _ _ _ _ S)). simpl. tauto.
  - cbn [obind]. rewrite Hc. cbn [alive obind].
    destruct (leave_rest_ok s c cl ∅ W Hc) as (s' & -> & W' & J & A & _).
    exists s', ∅. split; [reflexivity|]. split; [assumption|]. split; [reflexivity|]. split; [discriminate|]. split.
    + intros ch. rewrite J. set_solver.
    + intros c' ch N. rewrite J. tauto.
Qed.

Lemma save_user_channels_none s c cl : WF s -> clients s !! c = Some cl ->
  exists s', silc_server_save_user_channels order malloc channel_name_check s c None = Ok s' /\ WF s' /\
    (forall ch, ~ joined s' c ch).
Proof.
  intros W Hc. unfold silc_server_save_user_channels. rewrite Hc. cbn [alive obind]. rewrite Hc. cbn [alive obind].
  destruct (leave_rest_ok s c cl ∅ W Hc) as (s' & -> & W' & J & _).
  exists s'. split; [reflexivity|]. split; [assumption|]. intros ch. rewrite J. set_solver.
Qed.

(** ** The JOIN command and the JOIN notify *)

Lemma join_ok s c cl ch e mode : WF s -> clients s !! c = Some cl -> channels s !! ch = Some e ->
  cl_channels cl !! ch = None ->
  exists s1 s2, link_member malloc s c ch mode = Ok s1 /\ on_channel s1 ch (set_disabled false) = Ok s2 /\
    server_type s1 = server_type s /\
    WF s2 /\ Grown s s2 (fun c' ch' => c' = c /\ ch' = ch).
Proof.
  intros W Hc He N. destruct (link_member_ok s c cl ch e mode W Hc He) as (s1 & E1 & W1 & G1).
  { unfold cj. now rewrite Hc. }
  destruct (gr_channels _ _ _ G1 ch e He) as (e1 & He1 & _). eexists s1, _. split; [assumption|].
  unfold on_channel. rewrite He1. simpl. split; [reflexivity|]. split; [apply (gr_type _ _ _ G1)|]. split.
  - apply (WF_channel s1 ch e1 (set_disabled false)); auto.
  - eapply Grown_ext; [|exact (Grown_trans _ _ _ _ _ G1 (Grown_channel s1 ch e1 (set_disabled false) He1 eq_refl eq_refl eq_refl))].
    simpl. tauto.
Qed.

Lemma command_join_ok s c cl ch e umode key : WF s -> clients s !! c = Some cl -> channels s !! ch = Some e ->
  exists b s', silc_server_command_join_channel malloc s c ch umode key = Ok (b, s') /\ WF s' /\
    Grown s s' (fun c' ch' => c' = c /\ ch' = ch /\ b = true) /\
    (b = true <-> key = true /\ ~ joined s c ch).
Proof.
  intros W Hc He. unfold silc_server_command_join_channel, silc_server_client_on_channel. rewrite Hc. cbn [alive obind].
  assert (J : joined s c ch <-> is_Some (cl_channels cl !! ch)) by (unfold joined, cj; now rewrite Hc).
  destruct (cl_channels cl !! ch) as [a|] eqn:E; [|destruct key; cbn [negb]].
  - exists false, s. split; [reflexivity|]. split; [assumption|]. split.
    + eapply Grown_ext; [|apply Grown_refl]. simpl. intuition congruence.
    + rewrite J. split; [discriminate|]. intros [_ X]. exfalso. eauto.
  - destruct (join_ok s c cl ch e umode W Hc He E) as (s1 & s2 & -> & E2 & Ty & W2 & G2).
    cbn [obind]. rewrite E2. cbn [obind].
    eexists true, _. split; [reflexivity|].
    assert (R : is_router (set_stat s2 (bump_my_chanclients 1)) = is_router s).
    { unfold is_router. simpl. unfold on_channel in E2. destruct (channels s1 !! ch); [|discriminate]. injection E2 as <-. simpl. now rewrite Ty. }
    rewrite R. split; [destruct (is_router s); repeat apply WF_stat; exact W2|]. split.
    + eapply Grown_ext; [|destruct (is_router s); repeat apply Grown_stat; exact G2]. simpl. tauto.
    + rewrite J. split; [|tauto]. split; [reflexivity|]. intros [? [=]].
  - exists false, s. split; [reflexivity|]. split; [assumption|]. split.
    + eapply Grown_ext; [|apply Grown_refl]. simpl. intuition congruence.
    + intuition discriminate.
Qed.

Lemma notify_join_ok s c cl ch e from_router : WF s -> clients s !! c = Some cl -> channels s !! ch = Some e ->
  exists s', notify_join malloc s c ch from_router = Ok s' /\ WF s' /\
    Grown s s' (fun c' ch' => c' = c /\ ch' = ch /\ is_registered cl = true).
Proof.
  intros W Hc He. unfold notify_join, silc_server_client_on_channel. rewrite Hc. cbn [alive obind].
  destruct (is_registered cl); cbn [negb].
  2:{ exists s. split; [reflexivity|]. split; [assumption|]. eapply Grown_ext; [|apply Grown_refl]. simpl. intuition congruence. }
  destruct (cl_channels cl !! ch) as [a|] eqn:E.
  { exists s. split; [reflexivity|]. split; [assumption|]. eapply Grown_ext; [|apply Grown_refl]. simpl.
    intros c' ch' N. split; [tauto|]. intros (-> & -> & _). apply N. exists a. apply cj_some. eauto. }
  set (glob := negb (is_router s) && from_router).
  assert (S0 : exists s0 e0, (if glob then on_channel s ch (set_global_users true) else Ok s) = Ok s0 /\ WF s0 /\
    Grown s s0 (fun _ _ => False) /\ channels s0 !! ch = Some e0 /\ clients s0 !! c = Some cl /\ server_type s0 = server_type s).
  { destruct glob.
    - unfold on_channel. rewrite He. simpl. eexists _, (set_global_users true e). split; [reflexivity|].
      split; [now apply WF_channel|]. split; [now apply Grown_channel|]. simpl. rewrite lookup_insert_eq. tauto.
    - exists s, e. split; [reflexivity|]. split; [assumption|]. split; [apply Grown_refl|]. tauto. }
  destruct S0 as (s0 & e0 & -> & W0 & G0 & He0 & Hc0 & Ty0). cbn [obind]. rewrite He0. cbn [alive obind].
  match goal with |- context [link_member malloc s0 c ch ?m] => set (mode := m) end.
  destruct (join_ok s0 c cl ch e0 mode W0 Hc0 He0 E) as (s1 & s2 & -> & E2 & Ty & W2 & G2).
  cbn [obind]. rewrite E2. cbn [obind]. eexists. split; [reflexivity|].
  assert (R : is_router s2 = is_router s).
  { unfold is_router. unfold on_channel in E2. destruct (channels s1 !! ch); [|discriminate]. injection E2 as <-. simpl.
    now rewrite Ty, Ty0. }
  rewrite R. pose proof (Grown_trans _ _ _ _ _ G0 G2) as G.
  destruct (is_router s); simpl; [destruct from_router|]; (split; [repeat apply WF_stat; exact W2|]);
    (eapply Grown_ext; [|repeat apply Grown_stat; exact G]); simpl; tauto.
Qed.

(** ** New channels *)

Lemma create_channel_ok s name id key : WF s ->
  exists o s', silc_server_create_new_channel order malloc channel_name_check s name id key = Ok (o, s') /\ WF s' /\
    Grown s s' (fun _ _ => False) /\
    match o with
    | None => forall ch, is_Some (channels s' !! ch) -> is_Some (channels s !! ch)
    | Some ch => key = true /\ channels s !! ch = None /\ exists e, channels s' !! ch = Some e /\ id = Some (ch_id e) /\ ch_users e = ∅
    end.
Proof.
  intros W. unfold silc_server_create_new_channel. destruct id as [id|].
  2:{ exists None, s. split; [reflexivity|]. split; [assumption|]. split; [apply Grown_refl|tauto]. }
  destruct (silc_idlist_add_channel malloc channel_name_check s local_list name 0 id) as [[s1 ch]|] eqn:E.
  2:{ exists None, s. split; [reflexivity|]. split; [assumption|]. split; [apply Grown_refl|tauto]. }
  destruct (add_channel_ok _ _ _ _ _ _ _ W E) as (W1 & He1 & Ec & Nch & EI & _ & G1).
  destruct key; cbn [negb].
  - eexists (Some ch), _. split; [reflexivity|]. split; [destruct (is_router _); repeat apply WF_stat; exact W1|]. split.
    + destruct (is_router _); repeat apply Grown_stat; exact G1.
    + split; [reflexivity|]. split; [assumption|]. eexists. split; [destruct (is_router _); exact He1|]. split; reflexivity.
  - destruct (silc_idlist_del_channel_ok order order_perm s1 local_list ch W1) as (s2 & -> & F).
    { rewrite EI. set_solver. }
    cbn [obind]. exists None, s2. split; [reflexivity|].
    split; [exact (Effect_WF _ _ _ _ _ W1 F)|].
    assert (NJ : forall c, ~ joined s1 c ch).
    { intros c J. rewrite (WF_joined _ _ _ _ W1 He1) in J. simpl in J. rewrite lookup_empty in J. destruct J as [? [=]]. }
    assert (Same : forall c k, cj s2 c k = cj s1 c k).
    { intros c k. rewrite (ef_cj _ _ _ _ _ F). unfold users_of. case_bool_decide; [subst|reflexivity].
      destruct (cj s1 c ch) eqn:J; [|reflexivity]. exfalso. apply (NJ c). unfold joined. rewrite J. eauto. }
    split.
    + split.
      * now rewrite (ef_type _ _ _ _ _ F), (gr_type _ _ _ G1).
      * intros c r Hr. rewrite (ef_cattr _ _ _ _ _ F). now apply (gr_clients _ _ _ G1).
      * intros k e He. destruct (gr_channels _ _ _ G1 k e He) as (e' & He' & Ei).
        pose proof (ef_chattr _ _ _ _ _ F k) as A. unfold one in A. rewrite bool_decide_eq_false_2 in A by congruence.
        unfold chattr in A. rewrite He' in A. destruct (channels s2 !! k) as [e2|]; [|discriminate]. injection A as A _.
        exists e2. split; [reflexivity|congruence].
      * intros c k. unfold joined. rewrite Same. apply (gr_joined _ _ _ G1).
      * intros c k a. rewrite Same. apply (gr_kept _ _ _ G1).
      * intros A. exact (keeps_count_all _ _ (ef_count _ _ _ _ _ F) (gr_count _ _ _ G1 A)).
    + intros k Hk. apply chattr_some in Hk. rewrite (ef_chattr _ _ _ _ _ F) in Hk. unfold one in Hk.
      case_bool_decide as B; [destruct Hk as [? [=]]|]. apply chattr_some in Hk.
      unfold silc_idlist_add_channel in E. destruct (channel_name_check name); [|discriminate]. injection E as <- Ech.
      simpl in Hk. rewrite Ech in Hk. now rewrite lookup_insert_ne in Hk by congruence.
Qed.

End Joining.
