(* ===== verification/MembershipThms.v ===== *)
(** * Channel membership: the theorems

    Every state the operations of the server reach keeps both sides of the
    memberships in step, and no operation touches what was freed; what leaving one
    channel, leaving all of them, the signoff of a server and a received list of
    channels do to the memberships; where the user count of a channel is right, and
    where it is not. *)

From stdpp Require Import gmap.
From S2P Require Import Prelude CTypes Outcome Membership MembershipLeave MembershipJoin.

#[local] Open Scope outcome_scope.

(** The operations, with their arguments; pointers are of entries that exist. *)
Inductive op :=
| AddClient (L : SilcIDList) (id : Z) (ip : list Z) (router : option Z)
| SetStatus (c bits : Z)
| CreateChannel (name : list Z) (id : option Z) (key : bool)
| JoinCommand (c ch umode : Z) (key : bool)
| JoinNotify (c ch : Z) (from_router : bool)
| SaveUsers (conn : option Z) (ch : Z) (noadd : option Z) (l : list (Z * list Z * Z))
| SaveUserChannels (c : Z) (lists : option (list ChannelPayload * list Z))
| RemoveOne (ch c : Z)
| RemoveAll (c : Z)
| DeleteChannel (ch : Z)
| FreeClient (c : Z) (server_shutdown : bool)
| ResumeDelete (c : Z)
| ServerSignoff (router : option Z) (entry : Z) (ip : list Z) (signoff : bool).

Definition valid s (o : op) : Prop :=
  match o with
  | AddClient _ _ _ _ | CreateChannel _ _ _ | ServerSignoff _ _ _ _ => True
  | JoinCommand c ch _ _ | JoinNotify c ch _ | RemoveOne ch c => is_Some (clients s !! c) /\ is_Some (channels s !! ch)
  | SaveUsers _ ch _ _ | DeleteChannel ch => is_Some (channels s !! ch)
  | SaveUserChannels c lists =>
      is_Some (clients s !! c) /\ (forall l modes, lists = Some (l, modes) -> length l = length modes)
  | SetStatus c _ | RemoveAll c | FreeClient c _ | ResumeDelete c => is_Some (clients s !! c)
  end.

(** The server at its start. *)
Definition empty_server (t : ServerType) (st : SilcServerStatistics) : SilcServer :=
  mkServer t ∅ ∅ ∅ (fun _ => []) (fun _ => []) st.

Lemma WF_empty t st : WF (empty_server t st).
Proof.
  split.
  - intros c ch a. unfold cj, joins. simpl. rewrite lookup_empty. split; [intros [=]|intros [m [=]]].
  - intros c ch a. unfold uj, joins. simpl. rewrite lookup_empty. split; [intros [=]|intros [m [=]]].
  - split; simpl; [constructor|]. intros k. rewrite lookup_empty, elem_of_nil. split; [tauto|intros [? [=]]].
  - split; simpl; [constructor|]. intros k. rewrite lookup_empty, elem_of_nil. split; [tauto|intros [? [=]]].
Qed.

Section Theorems.

Variable order : gmap Z Z -> list (Z * Z).
Hypothesis order_perm : forall m, order m ≡ₚ map_to_list m.

(** ** Each operation *)

Lemma remove_one_ok s ch c cl : WF s -> clients s !! c = Some cl ->
  exists b s', silc_server_remove_from_one_channel order s ch c = Ok (b, s') /\
    (joined s c ch /\ b = negb (dies s c ch) /\ Effect s s' (leaves s c ch) (dead s c ch) none1 \/
     ~ joined s c ch /\ b = true /\ s' = s).
Proof.
  intros W Hc. unfold silc_server_remove_from_one_channel, silc_server_client_on_channel. rewrite Hc. cbn [alive obind].
  destruct (cl_channels cl !! ch) as [a|] eqn:E.
  - assert (J : cj s c ch = Some a) by (apply cj_some; eauto).
    destruct (leave_ok order order_perm s c ch a (is_server s) W J) as (s' & El & F). unfold leave in El.
    exists (negb (dies s c ch)), s'. split; [exact El|]. left. unfold joined. rewrite J. eauto.
  - exists true, s. split; [reflexivity|]. right. unfold joined, cj. rewrite Hc. simpl. rewrite E.
    split; [intros [? [=]]|tauto].
Qed.

Lemma remove_all_ok s c cl : WF s -> clients s !! c = Some cl ->
  exists s', silc_server_remove_from_channels order s c = Ok s' /\
    Effect s s' (leaves_all s c (order (cl_channels cl)).*1) (dead_all s c (order (cl_channels cl)).*1) none1.
Proof.
  intros W Hc. unfold silc_server_remove_from_channels. rewrite Hc. cbn [alive obind].
  apply remove_loop_ok; try assumption.
  - now apply NoDup_order.
  - intros ch a Hin. apply (elem_of_order order order_perm) in Hin. apply cj_some. eauto.
Qed.

Lemma joined_order s c cl ch : clients s !! c = Some cl -> ch ∈ (order (cl_channels cl)).*1 <-> joined s c ch.
Proof.
  intros Hc. rewrite (elem_of_order_keys order order_perm). unfold joined, cj. now rewrite Hc.
Qed.

Lemma removed_all s s' c cl : clients s !! c = Some cl ->
  Effect s s' (leaves_all s c (order (cl_channels cl)).*1) (dead_all s c (order (cl_channels cl)).*1) none1 ->
  (forall ch, cj s' c ch = None) /\ exists cl', clients s' !! c = Some cl' /\ cl_status cl' = cl_status cl.
Proof.
  intros Hc F. split.
  - intros ch. rewrite (ef_cj _ _ _ _ _ F). unfold leaves_all. destruct (cj s c ch) as [a|] eqn:J; [|now destruct (_ && _)].
    rewrite bool_decide_eq_true_2 by (apply (joined_order _ _ _ _ Hc); unfold joined; rewrite J; eauto).
    now rewrite bool_decide_eq_true_2.
  - pose proof (ef_cattr _ _ _ _ _ F c) as A. unfold cattr, none1 in A. rewrite Hc in A.
    destruct (clients s' !! c) as [cl'|]; [|discriminate]. injection A as A _ _ _. eauto.
Qed.

Lemma del_other_list s L c : c ∉ id_clients s L -> silc_idlist_del_client s L c = Ok (false, s).
Proof. intros N. unfold silc_idlist_del_client. now rewrite bool_decide_eq_false_2. Qed.

(** A client without channels is in one of the lists, and deleted from it. *)
Lemma delete_somewhere s c cl : WF s -> clients s !! c = Some cl -> (forall ch, cj s c ch = None) ->
  exists s', (let* p := silc_idlist_del_client s local_list c in
              if fst p then Ok (snd p) else let* p := silc_idlist_del_client (snd p) global_list c in Ok (snd p)) = Ok s' /\
    Effect s s' none2 none1 (one c).
Proof.
  intros W Hc N. destruct (decide (c ∈ id_clients s local_list)) as [H|H].
  - destruct (silc_idlist_del_client_ok s local_list c W H N) as (s' & -> & F & _). simpl. eauto.
  - rewrite (del_other_list _ _ _ H). simpl.
    destruct (listed_in _ _ c (wf_clients _ W)) as [|G]; [eauto|contradiction|].
    destruct (silc_idlist_del_client_ok s global_list c W G N) as (s' & -> & F & _). simpl. eauto.
Qed.

Lemma free_client_ok s c cl b : WF s -> clients s !! c = Some cl ->
  exists s', silc_server_free_client_data order s c b = Ok s' /\ WF s' /\ (all_counted s -> all_counted s').
Proof.
  intros W Hc. unfold silc_server_free_client_data. destruct (remove_all_ok s c cl W Hc) as (s1 & -> & F). simpl.
  destruct (removed_all _ _ _ _ Hc F) as [N (cl1 & Hc1 & _)].
  destruct (count_client_out_ok s1) as [f ->]. pose proof (Effect_WF _ _ _ _ _ W F) as W1.
  pose proof (keeps_count_all _ _ (ef_count _ _ _ _ _ F)) as K. destruct b; simpl.
  - destruct (decide (c ∈ id_clients s1 local_list)) as [H|H].
    + destruct (silc_idlist_del_client_ok (set_stat s1 f) local_list c) as (s' & -> & G & _); [now apply WF_stat|exact H|exact N|].
      simpl. exists s'. split; [reflexivity|]. split; [exact (Effect_WF _ _ _ _ _ (WF_stat _ f W1) G)|].
      intros A. exact (keeps_count_all _ _ (ef_count _ _ _ _ _ G) (K A)).
    + rewrite (del_other_list (set_stat s1 f)) by exact H. simpl. eexists. split; [reflexivity|]. split; [now apply WF_stat|exact K].
  - unfold on_client. simpl. rewrite Hc1. simpl. eexists. split; [reflexivity|].
    split; [|exact K]. now apply (WF_client (set_stat s1 f) c cl1 (unregister cl1) (WF_stat _ f W1) Hc1).
Qed.

Lemma resume_delete_ok s c cl : WF s -> clients s !! c = Some cl ->
  exists s', resume_client_delete order s c = Ok s' /\ WF s' /\ (all_counted s -> all_counted s').
Proof.
  intros W Hc. unfold resume_client_delete. destruct (count_client_out_ok s) as [f ->].
  destruct (remove_all_ok (set_stat s f) c cl (WF_stat _ f W) Hc) as (s1 & -> & F). simpl.
  destruct (removed_all (set_stat s f) _ _ _ Hc F) as [N (cl1 & Hc1 & _)].
  pose proof (Effect_WF _ _ _ _ _ (WF_stat _ f W) F) as W1.
  destruct (delete_somewhere s1 c cl1 W1 Hc1 N) as (s' & -> & G). exists s'. split; [reflexivity|].
  split; [exact (Effect_WF _ _ _ _ _ W1 G)|]. intros A.
  exact (keeps_count_all _ _ (ef_count _ _ _ _ _ G) (keeps_count_all _ _ (ef_count _ _ _ _ _ F) A)).
Qed.

Lemma server_signoff_ok s router entry ip b : WF s ->
  let r := match router with Some r => r | None => entry end in
  exists s' t, silc_server_remove_clients_by_server order s router entry ip b = Ok (s', t) /\
    WF s' /\ Tables_ok s' entry t /\
    Signoff s s' r entry ip (id_clients s local_list ++ id_clients s global_list).
Proof.
  intros W r. unfold silc_server_remove_clients_by_server. fold r.
  pose proof (wf_clients _ W) as [N _]. apply list.NoDup_app in N. destruct N as (N1 & N2 & N3).
  destruct (signoff_loop order order_perm local_list r entry ip b (id_clients s local_list) s (mkTables ∅ ∅) W)
    as (s1 & t1 & -> & W1 & T1 & F & K); [split; simpl; set_solver|assumption|tauto|]. cbn [obind].
  assert (E : id_clients s1 global_list = id_clients s global_list) by now apply K.
  destruct (signoff_loop order order_perm global_list r entry ip b (id_clients s1 global_list) s1 t1 W1 T1)
    as (s2 & t2 & -> & W2 & T2 & G & _); [now rewrite E|tauto|].
  exists s2, t2. split; [reflexivity|]. split; [assumption|]. split; [assumption|].
  rewrite E in G. apply (Signoff_app s s1 s2); try assumption. intros k H1 H2. exact (N2 k H2 H1).
Qed.

(** C14: [silc_server_remove_from_one_channel] on a client that is on the channel ends its
    membership and, when nobody is left on the channel or, on a normal server, nobody
    local, those of all its users; it returns FALSE exactly then.  The channel is then
    removed unless it is permanent; nothing else changes. *)
Theorem remove_from_one_channel_spec s ch c (W : WF s) (J : joined s c ch) :
  exists b s', silc_server_remove_from_one_channel order s ch c = Ok (b, s') /\ WF s' /\
    (b = false <-> forall c', joined s c' ch -> c' <> c -> server_type s = SILC_SERVER /\ local_client s c' = false) /\
    (forall c' ch', joined s' c' ch' <-> joined s c' ch' /\ ~ (ch' = ch /\ (c' = c \/ b = false))) /\
    (forall ch', is_Some (channels s' !! ch') <->
       is_Some (channels s !! ch') /\ ~ (ch' = ch /\ b = false /\ permanent s ch = false)) /\
    (forall c', cattr s' c' = cattr s c').
Proof.
  destruct (clients s !! c) as [cl|] eqn:Hc.
  2:{ destruct J as [a J]. unfold cj in J. rewrite Hc in J. discriminate. }
  destruct (remove_one_ok s ch c cl W Hc) as (b & s' & E & [(_ & -> & F)|(N & _)]); [|contradiction].
  exists (negb (dies s c ch)), s'. split; [assumption|]. split; [exact (Effect_WF _ _ _ _ _ W F)|].
  split; [rewrite negb_false_iff; apply dies_iff; [assumption|exact (joined_alive _ _ _ W J)]|].
  setoid_rewrite negb_false_iff. split; [|split; [|apply (ef_cattr _ _ _ _ _ F)]].
  - intros c' ch'. unfold joined at 1. rewrite (ef_cj _ _ _ _ _ F). unfold leaves.
    destruct (decide (ch' = ch)) as [->|]; [|rewrite bool_decide_eq_false_2 by assumption; unfold joined; simpl; tauto].
    rewrite bool_decide_eq_true_2 by reflexivity. simpl. unfold joined.
    destruct (bool_decide (c' = c)) eqn:B; simpl; [apply bool_decide_eq_true in B|apply bool_decide_eq_false in B].
    + split; [intros [? [=]]|tauto].
    + destruct (dies s c ch); [split; [intros [? [=]]|tauto]|]. naive_solver.
  - intros ch'. rewrite <- !chattr_some, (ef_chattr _ _ _ _ _ F). unfold dead.
    destruct (decide (ch' = ch)) as [->|]; [|rewrite bool_decide_eq_false_2 by assumption; simpl; tauto].
    rewrite bool_decide_eq_true_2 by reflexivity. simpl.
    destruct (dies s c ch), (permanent s ch); simpl; split; try tauto; try (intros [? [=]]); naive_solver.
Qed.

(** [silc_server_remove_from_channels] takes the client off every channel it is on.
    The channels on which nobody is left, or on a normal server nobody local, lose all
    their users, and are removed unless they are permanent; all other memberships,
    channels and clients stay. *)
Theorem remove_from_channels_spec s c (W : WF s) (A : is_Some (clients s !! c)) :
  exists s', silc_server_remove_from_channels order s c = Ok s' /\ WF s' /\
    (forall c' ch, joined s' c' ch <-> joined s c' ch /\ c' <> c /\ ~ (joined s c ch /\ dies s c ch = true)) /\
    (forall ch, is_Some (channels s' !! ch) <->
       is_Some (channels s !! ch) /\ ~ (joined s c ch /\ dies s c ch = true /\ permanent s ch = false)) /\
    (forall c', cattr s' c' = cattr s c').
Proof.
  destruct A as [cl Hc]. destruct (remove_all_ok s c cl W Hc) as (s' & E & F). exists s'. split; [assumption|].
  split; [exact (Effect_WF _ _ _ _ _ W F)|]. split; [|split; [|apply (ef_cattr _ _ _ _ _ F)]].
  - intros c' ch. unfold joined at 1. rewrite (ef_cj _ _ _ _ _ F). unfold leaves_all.
    rewrite (bool_decide_ext _ _ (joined_order s c cl ch Hc)).
    destruct (decide (joined s c ch)) as [J|J].
    + rewrite (bool_decide_eq_true_2 (joined s c ch)) by assumption. simpl.
      destruct (decide (c' = c)) as [->|N]; [rewrite bool_decide_eq_true_2 by reflexivity|rewrite bool_decide_eq_false_2 by assumption]; simpl.
      * split; [intros [? [=]]|tauto].
      * fold (cj s c' ch). unfold joined. destruct (dies s c ch); [split; [intros [? [=]]|tauto]|]. naive_solver.
    + rewrite (bool_decide_eq_false_2 (joined s c ch)) by assumption. simpl. unfold joined. split; [|tauto].
      intros H. split; [assumption|]. split; [|unfold joined in J; tauto]. intros ->. exact (J H).
  - intros ch. rewrite <- !chattr_some, (ef_chattr _ _ _ _ _ F). unfold dead_all.
    rewrite (bool_decide_ext _ _ (joined_order s c cl ch Hc)).
    destruct (decide (joined s c ch)) as [J|J].
    + rewrite (bool_decide_eq_true_2 (joined s c ch)) by assumption. simpl.
      destruct (dies s c ch), (permanent s ch); simpl; split; try tauto; try (intros [? [=]]); naive_solver.
    + rewrite (bool_decide_eq_false_2 (joined s c ch)) by assumption. simpl. tauto.
Qed.


(** ** All operations together *)

Variable malloc : gset Z -> Z.
Hypothesis malloc_fresh : forall X, malloc X ∉ X.
Variable channel_name_check : list Z -> bool.

Definition run (o : op) s : outcome SilcServer :=
  match o with
  | AddClient L id ip router => Ok (fst (silc_idlist_add_client malloc s L id ip router))
  | SetStatus c bits => on_client s c (add_status bits)
  | CreateChannel name id key =>
      let* p := silc_server_create_new_channel order malloc channel_name_check s name id key in Ok (snd p)
  | JoinCommand c ch umode key => let* p := silc_server_command_join_channel malloc s c ch umode key in Ok (snd p)
  | JoinNotify c ch b => notify_join malloc s c ch b
  | SaveUsers conn ch noadd l => silc_server_save_users_on_channel malloc s conn ch noadd l
  | SaveUserChannels c lists => silc_server_save_user_channels order malloc channel_name_check s c lists
  | RemoveOne ch c => let* p := silc_server_remove_from_one_channel order s ch c in Ok (snd p)
  | RemoveAll c => silc_server_remove_from_channels order s c
  | DeleteChannel ch => let* p := silc_server_channel_delete order s ch in Ok (snd p)
  | FreeClient c b => silc_server_free_client_data order s c b
  | ResumeDelete c => resume_client_delete order s c
  | ServerSignoff router entry ip b =>
      let* p := silc_server_remove_clients_by_server order s router entry ip b in Ok (fst p)
  end.

Definition is_save_channels (o : op) : bool := match o with SaveUserChannels _ _ => true | _ => false end.

(** Every operation on valid pointers has a result, keeps the invariant and, but for
    [SaveUserChannels], the user counts. *)
Lemma op_run_ok o s : WF s -> valid s o ->
  exists s', run o s = Ok s' /\ WF s' /\ (is_save_channels o = false -> all_counted s -> all_counted s').
Proof.
  intros W V. destruct o; cbn [valid] in V; cbn [run].
  - destruct (add_client_ok order order_perm malloc malloc_fresh channel_name_check s L id ip router W) as (s' & c & -> & W' & _ & _ & _ & G).
    simpl. exists s'. pose proof (gr_count _ _ _ G). tauto.
  - destruct V as [cl Hc]. unfold on_client. rewrite Hc. simpl. eexists. split; [reflexivity|].
    destruct (WF_client s c cl (add_status bits cl) W Hc eq_refl) as [W' _]. split; [assumption|]. intros _ A. exact A.
  - destruct (create_channel_ok order order_perm malloc malloc_fresh channel_name_check s name id key W)
      as (o & s' & -> & W' & G & _). simpl. exists s'. pose proof (gr_count _ _ _ G). tauto.
  - destruct V as [[cl Hc] [e He]].
    destruct (command_join_ok malloc malloc_fresh s c cl ch e umode key W Hc He) as (b & s' & -> & W' & G & _).
    simpl. exists s'. pose proof (gr_count _ _ _ G). tauto.
  - destruct V as [[cl Hc] [e He]].
    destruct (notify_join_ok malloc malloc_fresh s c cl ch e from_router W Hc He) as (s' & -> & W' & G).
    exists s'. pose proof (gr_count _ _ _ G). tauto.
  - destruct (save_users_ok order order_perm malloc malloc_fresh channel_name_check conn ch noadd l s W V) as (s' & Q & -> & W' & G & _).
    exists s'. pose proof (gr_count _ _ _ G). tauto.
  - destruct V as [[cl Hc] V]. destruct lists as [[l modes]|].
    + destruct (save_user_channels_ok order order_perm malloc malloc_fresh channel_name_check s c cl l modes W Hc)
        as (s' & ht & -> & W' & _); [rewrite (V l modes eq_refl); lia|].
      exists s'. split; [reflexivity|]. split; [assumption|discriminate].
    + destruct (save_user_channels_none order order_perm malloc malloc_fresh channel_name_check s c cl W Hc) as (s' & -> & W' & _).
      exists s'. split; [reflexivity|]. split; [assumption|discriminate].
  - destruct V as [[cl Hc] _]. destruct (remove_one_ok s ch c cl W Hc) as (b & s' & -> & [(_ & _ & F)|(_ & _ & ->)]); simpl.
    + exists s'. split; [reflexivity|]. split; [exact (Effect_WF _ _ _ _ _ W F)|]. intros _. exact (keeps_count_all _ _ (ef_count _ _ _ _ _ F)).
    + exists s. tauto.
  - destruct V as [cl Hc]. destruct (remove_all_ok s c cl W Hc) as (s' & -> & F).
    exists s'. split; [reflexivity|]. split; [exact (Effect_WF _ _ _ _ _ W F)|]. intros _. exact (keeps_count_all _ _ (ef_count _ _ _ _ _ F)).
  - destruct V as [e He]. destruct (channel_delete_ok order order_perm s ch e W He) as (s' & -> & F). simpl.
    exists s'. split; [reflexivity|]. split; [exact (Effect_WF _ _ _ _ _ W F)|]. intros _. exact (keeps_count_all _ _ (ef_count _ _ _ _ _ F)).
  - destruct V as [cl Hc]. destruct (free_client_ok s c cl server_shutdown W Hc) as (s' & -> & W' & K). exists s'. tauto.
  - destruct V as [cl Hc]. destruct (resume_delete_ok s c cl W Hc) as (s' & -> & W' & K). exists s'. tauto.
  - destruct (server_signoff_ok s router entry ip signoff W) as (s' & t & -> & W' & _ & F). simpl.
    exists s'. split; [reflexivity|]. split; [assumption|]. intros _. exact (keeps_count_all _ _ (so_count _ _ _ _ _ _ F)).
Qed.

(** The states that are reached by operations of a kind, on pointers of entries. *)
Inductive reachable (allowed : op -> bool) : SilcServer -> Prop :=
| reach_start t st : reachable allowed (empty_server t st)
| reach_step s o s' : reachable allowed s -> allowed o = true -> valid s o -> run o s = Ok s' -> reachable allowed s'.

Lemma reachable_WF allowed s : reachable allowed s -> WF s.
Proof.
  induction 1 as [|s o s' _ IH _ V R]; [apply WF_empty|].
  destruct (op_run_ok o s IH V) as (s1 & E & W & _). rewrite R in E. now injection E as ->.
Qed.

(** C10: in every state the server reaches by accepting and registering clients, creating and deleting
    channels, joins, received user and channel lists, clients that leave and servers that
    sign off, the channels a client lists and the users a channel lists are the same
    memberships, joined by the same live objects, the ID lists hold exactly the entries
    that are allocated, and every further operation succeeds: it uses nothing that was
    freed, adds no user twice and frees no client that is still on a channel. *)
Theorem membership_invariant s (R : reachable (fun _ => true) s) :
  WF s /\ forall o, valid s o -> exists s', run o s = Ok s' /\ WF s'.
Proof.
  pose proof (reachable_WF _ _ R) as W. split; [assumption|].
  intros o V. destruct (op_run_ok o s W V) as (s' & E & W' & _). eauto.
Qed.

(** C16: as long as no list of a user's channels is received
    ([silc_server_save_user_channels]), the [user_count] of every channel is the number of
    its users, modulo 2^32. *)
Theorem user_count_right s ch e (R : reachable (fun o => negb (is_save_channels o)) s) (He : channels s !! ch = Some e) :
  user_count e = Z.of_nat (size (ch_users e)) mod 2 ^ 32.
Proof.
  revert ch e He. change (all_counted s).
  induction R as [|s o s' R IH A V E].
  - intros ch e He. simpl in He. rewrite lookup_empty in He. discriminate.
  - destruct (op_run_ok o s (reachable_WF _ _ R) V) as (s1 & E1 & _ & K). rewrite E in E1. injection E1 as ->.
    apply K; [now apply negb_true_iff|assumption].
Qed.

(** C15: [silc_server_save_user_channels] on a registered client with a list that parses:
    afterwards every channel the client is on has an ID of the list, every channel of the
    list that the server knew has the client on it, and nobody else has joined or left a
    channel. *)
Theorem save_user_channels_spec s c cl l modes (W : WF s) (Hc : clients s !! c = Some cl)
    (Reg : is_registered cl = true) (Len : length l = length modes) :
  exists s', silc_server_save_user_channels order malloc channel_name_check s c (Some (l, modes)) = Ok s' /\ WF s' /\
    (forall ch, joined s' c ch -> exists entry e, entry ∈ l /\ channels s' !! ch = Some e /\ pl_id entry = Some (ch_id e)) /\
    (forall entry id ch e, entry ∈ l -> pl_id entry = Some id -> channels s !! ch = Some e -> ch_id e = id ->
       exists ch' e', joined s' c ch' /\ channels s' !! ch' = Some e' /\ ch_id e' = id) /\
    (forall c' ch, c' <> c -> joined s' c' ch <-> joined s c' ch).
Proof.
  destruct (save_user_channels_ok order order_perm malloc malloc_fresh channel_name_check s c cl l modes W Hc)
    as (s' & ht & E & W' & _ & S & J & O); [lia|].
  destruct (S Reg) as (s1 & Sv & A). exists s'. split; [assumption|]. split; [assumption|].
  assert (X : forall ch e, channels s1 !! ch = Some e -> exists e', channels s' !! ch = Some e' /\ ch_id e' = ch_id e).
  { intros ch e He. specialize (A ch). unfold chattr in A. rewrite He in A.
    destruct (channels s' !! ch) as [e'|]; [|discriminate]. injection A as A _. eauto. }
  split; [|split; [|assumption]].
  - intros ch H. apply J in H. destruct (sv_named _ _ _ _ _ _ Sv ch H) as [N|(e & entry & He & Hin & Hid)]; [set_solver|].
    destruct (X ch e He) as (e' & He' & Ei). exists entry, e'. rewrite Ei. tauto.
  - intros entry id ch e Hin Hid He Ei. destruct (sv_found _ _ _ _ _ _ Sv entry id ch e Hin Hid He Ei) as (ch' & e1 & H & He1 & E1).
    destruct (X ch' e1 He1) as (e' & He' & Ee). exists ch', e'. rewrite J. split; [assumption|]. split; [assumption|congruence].
Qed.

End Theorems.

(** ** A server at work *)

Definition next_address (X : gset Z) : Z := 1 + fold_right Z.max 0 (elements X).

Lemma next_address_fresh X : next_address X ∉ X.
Proof.
  intros H. apply elem_of_elements in H. unfold next_address in H.
  assert (B : forall l x, x ∈ l -> x <= fold_right Z.max 0 l).
  { induction l as [|y l IH]; intros x Hx; [set_solver|]. simpl. apply elem_of_cons in Hx.
    destruct Hx as [->|Hx]; [lia|]. specialize (IH x Hx). lia. }
  apply B in H. lia.
Qed.

Definition any_name (_ : list Z) : bool := true.
Abbreviation demo_run := (run map_to_list next_address any_name).
Definition no_stat : SilcServerStatistics := mkStat 0 0 0 0 0 0 0 0.

(** A router with two clients of which the first is behind server 70, and a channel that
    both have joined. *)
Definition demo_ops : list op :=
  [AddClient global_list 11 [10; 0; 0; 1] (Some 70); SetStatus 1 SILC_IDLIST_STATUS_REGISTERED;
   AddClient local_list 12 [10; 0; 0; 2] None;
   CreateChannel [104; 105] (Some 21) true; JoinCommand 1 1 3 true; JoinCommand 2 1 0 true].

Definition run_all (ops : list op) s : SilcServer :=
  fold_left (fun s o => match demo_run o s with Ok s' => s' | _ => s end) ops s.

Definition demo : SilcServer := run_all demo_ops (empty_server SILC_ROUTER no_stat).

(** The operations are valid where they are run, and have results. *)
Definition validb s (o : op) : bool :=
  match o with
  | AddClient _ _ _ _ | CreateChannel _ _ _ | ServerSignoff _ _ _ _ => true
  | JoinCommand c ch _ _ | JoinNotify c ch _ | RemoveOne ch c =>
      bool_decide (is_Some (clients s !! c)) && bool_decide (is_Some (channels s !! ch))
  | SaveUsers _ ch _ _ | DeleteChannel ch => bool_decide (is_Some (channels s !! ch))
  | SaveUserChannels c lists =>
      bool_decide (is_Some (clients s !! c)) &&
      match lists with Some (l, modes) => bool_decide (length l = length modes) | None => true end
  | SetStatus c _ | RemoveAll c | FreeClient c _ | ResumeDelete c => bool_decide (is_Some (clients s !! c))
  end.

Lemma validb_ok s o : validb s o = true -> valid s o.
Proof.
  destruct o; simpl; rewrite ?andb_true_iff, ?bool_decide_eq_true; try tauto.
  destruct lists as [[l' modes']|]; rewrite ?bool_decide_eq_true; naive_solver.
Qed.

Fixpoint all_valid (ops : list op) s : bool :=
  match ops with
  | [] => true
  | o :: ops' => validb s o && match demo_run o s with Ok s' => all_valid ops' s' | _ => false end
  end.

Lemma run_all_reachable (p : op -> bool) ops : forall s,
  reachable map_to_list next_address any_name p s -> forallb p ops = true -> all_valid ops s = true ->
  reachable map_to_list next_address any_name p (run_all ops s).
Proof.
  induction ops as [|o ops IH]; intros s R P V; [exact R|]. simpl in P, V. apply andb_true_iff in P, V.
  destruct P as [P1 P2], V as [V1 V2]. unfold run_all. cbn [fold_left]. destruct (demo_run o s) as [s'| | |] eqn:E; try discriminate.
  apply IH; try assumption. eapply reach_step; try eassumption. now apply validb_ok.
Qed.

Lemma demo_reachable : reachable map_to_list next_address any_name (fun o => negb (is_save_channels o)) demo.
Proof. apply run_all_reachable; [apply reach_start|reflexivity|vm_compute; reflexivity]. Qed.

Lemma demo_WF : WF demo.
Proof.
  exact (reachable_WF map_to_list (fun m => reflexivity _) next_address next_address_fresh any_name _ _ demo_reachable).
Qed.

Definition demo_channel : SilcChannelEntry := mkChannel 21 0 {[1 := 1; 2 := 2]} 2 false false.

Lemma membership_invariant_witness : exists s',
  run map_to_list next_address any_name (RemoveOne 1 2) demo = Ok s' /\ WF s'.
Proof.
  apply (membership_invariant map_to_list (fun m => reflexivity _) next_address next_address_fresh any_name demo).
  - apply run_all_reachable; [apply reach_start|reflexivity|vm_compute; reflexivity].
  - apply validb_ok. vm_compute. reflexivity.
Defined.

Lemma user_count_right_witness : exists e, channels demo !! 1 = Some e /\
  user_count e = Z.of_nat (size (ch_users e)) mod 2 ^ 32 /\ size (ch_users e) = 2%nat.
Proof.
  exists demo_channel. split; [vm_compute; reflexivity|]. split; [|reflexivity].
  apply (user_count_right map_to_list (fun m => reflexivity _) next_address next_address_fresh any_name demo 1).
  - exact demo_reachable.
  - vm_compute. reflexivity.
Defined.

(** The first client leaves the channel, which stays, since the server is a router. *)
Lemma remove_from_one_channel_spec_witness : exists b s',
  silc_server_remove_from_one_channel map_to_list demo 1 1 = Ok (b, s') /\ WF s' /\ b = true /\ joined s' 2 1 /\ ~ joined s' 1 1.
Proof.
  assert (J : joined demo 1 1) by (exists 1; vm_compute; reflexivity).
  assert (J2 : joined demo 2 1) by (exists 2; vm_compute; reflexivity).
  destruct (remove_from_one_channel_spec map_to_list (fun m => reflexivity _) demo 1 1 demo_WF J) as (b & s' & E & W & B & M & _).
  exists b, s'. split; [assumption|]. split; [assumption|].
  assert (T : b <> false).
  { intros F. destruct (proj1 B F 2 J2 ltac:(lia)) as [X _]. discriminate X. }
  split; [destruct b; congruence|]. rewrite !M. split; [|tauto]. split; [assumption|]. intros [_ [X|X]]; [lia|contradiction].
Defined.

Lemma remove_from_channels_spec_witness : exists s',
  silc_server_remove_from_channels map_to_list demo 2 = Ok s' /\ WF s' /\ joined s' 1 1 /\ ~ joined s' 2 1.
Proof.
  assert (J : joined demo 1 1) by (exists 1; vm_compute; reflexivity).
  destruct (remove_from_channels_spec map_to_list (fun m => reflexivity _) demo 2 demo_WF) as (s' & E & W & M & _).
  { vm_compute. eauto. }
  exists s'. split; [assumption|]. split; [assumption|]. rewrite !M. split; [|tauto].
  split; [assumption|]. split; [lia|]. intros [_ X]. vm_compute in X. discriminate.
Defined.


(** The list names the channel and one the server does not know; the client leaves
    nothing, and its mode changes. *)
Lemma save_user_channels_spec_witness : exists s',
  silc_server_save_user_channels map_to_list next_address any_name demo 1
    (Some ([mkChPayload (Some 99) [120] 0; mkChPayload (Some 21) [104; 105] 0], [1; 2])) = Ok s' /\ WF s' /\
  exists ch' e', joined s' 1 ch' /\ channels s' !! ch' = Some e' /\ ch_id e' = 21.
Proof.
  assert (Hc : clients demo !! 1 = Some (mkClient 1 11 [10; 0; 0; 1] (Some 70) {[1 := 1]})) by (vm_compute; reflexivity).
  assert (Reg : is_registered (mkClient 1 11 [10; 0; 0; 1] (Some 70) {[1 := 1]}) = true) by reflexivity.
  destruct (save_user_channels_spec map_to_list (fun m => reflexivity _) next_address next_address_fresh any_name
    demo 1 _ [mkChPayload (Some 99) [120] 0; mkChPayload (Some 21) [104; 105] 0] [1; 2] demo_WF Hc Reg eq_refl)
    as (s' & E & W & _ & F & _).
  exists s'. split; [assumption|]. split; [assumption|].
  apply (F (mkChPayload (Some 21) [104; 105] 0) 21 1 demo_channel); [apply elem_of_cons; right; constructor|reflexivity|vm_compute; reflexivity|reflexivity].
Defined.

(** ** What the operations get wrong *)

(** A client that a received list takes off a channel is still in its [user_count]. *)
Lemma user_count_stale : exists e,
  channels (run_all [SaveUserChannels 1 None] demo) !! 1 = Some e /\ user_count e = 2 /\ size (ch_users e) = 1%nat.
Proof. eexists. split; [vm_compute; reflexivity|split; vm_compute; reflexivity]. Qed.

(** A local client joins a channel of a router and leaves it: the channel goes with it, and
    the membership stays in [my_chanclients] and [cell_chanclients]. *)
Lemma last_leave_not_counted :
  let s := run_all [AddClient local_list 12 [10; 0; 0; 2] None;
                    SetStatus 1 (Z.lor SILC_IDLIST_STATUS_REGISTERED SILC_IDLIST_STATUS_LOCAL);
                    CreateChannel [104; 105] (Some 21) true; JoinCommand 1 1 3 true; RemoveOne 1 1]
             (empty_server SILC_ROUTER no_stat) in
  channels s = ∅ /\ chls s = ∅ /\ stat s = mkStat 0 1 0 0 1 0 0 0.
Proof. vm_compute. repeat split. Qed.

(** The last client leaves a permanent channel: the function returns FALSE, and the channel
    remains. *)
Lemma permanent_returns_false :
  let s := set_channels demo (alter (set_ch_mode SILC_CHANNEL_MODE_FOUNDER_AUTH) 1 (channels demo)) in
  match silc_server_remove_from_one_channel map_to_list (run_all [RemoveOne 1 1] s) 1 2 with
  | Ok (b, s') => b = false /\ channels s' !! 1 = Some (mkChannel 21 SILC_CHANNEL_MODE_FOUNDER_AUTH ∅ 0 false true)
  | _ => False
  end.
Proof. vm_compute. split; reflexivity. Qed.

(** A payload whose Channel ID does not parse does not consume a mode: the modes of the
    payloads that follow are those of their predecessors. *)
Lemma modes_misaligned : exists x,
  chls (run_all [SaveUserChannels 1 (Some ([mkChPayload None [] 0; mkChPayload (Some 21) [104; 105] 0], [1; 2]))] demo) !! 1
    = Some x /\ chl_mode x = 1.
Proof. eexists. split; [vm_compute; reflexivity|reflexivity]. Qed.
