(* ===== verification/Aes.v ===== *)
(** * The AES block functions ([lib/silccrypt/aes.c], [rijndael_internal.h])

    The key schedules, encryption and decryption on words and tables, in the
    variant of a little endian machine with C code ([SILC_AES_ASM] not defined).
    A context is its array [ks] of 60 words and the number of bytes of the round
    keys ([inf.b[0]]); the index [v(n,i)] at which the decryption schedule stores
    word [i] reverses the rounds ([AES_REV_DKS]). *)

From stdpp Require Import list.
From S2P Require Import Prelude CTypes.

(** ** Words and their bytes *)

Definition KS_LENGTH : Z := 60.
Definition WPOLY : Z := 0x11b.
Definition RC_LENGTH : Z := 10.

Definition bval (x n : Z) : Z := u8 (Z.shiftr x (8 * n)).

Definition bytes2word (b0 b1 b2 b3 : Z) : Z :=
  Z.lor (Z.lor (Z.lor (u32 (Z.shiftl b3 24)) (u32 (Z.shiftl b2 16))) (u32 (Z.shiftl b1 8))) b0.

Definition word_in (x : list Z) (c : Z) : Z :=
  bytes2word (znth x (4 * c)) (znth x (4 * c + 1)) (znth x (4 * c + 2)) (znth x (4 * c + 3)).

(** The bytes that are stored at [x + 4*c]. *)
Definition word_out (v : Z) : list Z := [bval v 0; bval v 1; bval v 2; bval v 3].

(** ** The tables *)

Definition f2 (x : Z) : Z := Z.lxor (Z.shiftl x 1) (Z.land (Z.shiftr x 7) 1 * WPOLY).
Definition f4 (x : Z) : Z :=
  Z.lxor (Z.lxor (Z.shiftl x 2) (Z.land (Z.shiftr x 6) 1 * WPOLY)) (Z.land (Z.shiftr x 6) 2 * WPOLY).
Definition f8 (x : Z) : Z :=
  Z.lxor (Z.lxor (Z.lxor (Z.shiftl x 3) (Z.land (Z.shiftr x 5) 1 * WPOLY))
                 (Z.land (Z.shiftr x 5) 2 * WPOLY)) (Z.land (Z.shiftr x 5) 4 * WPOLY).
Definition f3 (x : Z) : Z := Z.lxor (f2 x) x.
Definition f9 (x : Z) : Z := Z.lxor (f8 x) x.
Definition fb (x : Z) : Z := Z.lxor (Z.lxor (f8 x) (f2 x)) x.
Definition fd (x : Z) : Z := Z.lxor (Z.lxor (f8 x) (f4 x)) x.
Definition fe (x : Z) : Z := Z.lxor (Z.lxor (f8 x) (f4 x)) (f2 x).

Definition w0 (p : Z) : Z := bytes2word p 0 0 0.
Definition w1 (p : Z) : Z := bytes2word 0 p 0 0.
Definition w2 (p : Z) : Z := bytes2word 0 0 p 0.
Definition w3 (p : Z) : Z := bytes2word 0 0 0 p.

Definition u0 (p : Z) : Z := bytes2word (f2 p) p p (f3 p).
Definition u1 (p : Z) : Z := bytes2word (f3 p) (f2 p) p p.
Definition u2 (p : Z) : Z := bytes2word p (f3 p) (f2 p) p.
Definition u3 (p : Z) : Z := bytes2word p p (f3 p) (f2 p).

Definition v0 (p : Z) : Z := bytes2word (fe p) (f9 p) (fd p) (fb p).
Definition v1 (p : Z) : Z := bytes2word (fb p) (fe p) (f9 p) (fd p).
Definition v2 (p : Z) : Z := bytes2word (fd p) (fb p) (fe p) (f9 p).
Definition v3 (p : Z) : Z := bytes2word (f9 p) (fd p) (fb p) (fe p).

Definition sb_bytes : list Z := [
  0x63; 0x7c; 0x77; 0x7b; 0xf2; 0x6b; 0x6f; 0xc5; 0x30; 0x01; 0x67; 0x2b; 0xfe; 0xd7; 0xab; 0x76;
  0xca; 0x82; 0xc9; 0x7d; 0xfa; 0x59; 0x47; 0xf0; 0xad; 0xd4; 0xa2; 0xaf; 0x9c; 0xa4; 0x72; 0xc0;
  0xb7; 0xfd; 0x93; 0x26; 0x36; 0x3f; 0xf7; 0xcc; 0x34; 0xa5; 0xe5; 0xf1; 0x71; 0xd8; 0x31; 0x15;
  0x04; 0xc7; 0x23; 0xc3; 0x18; 0x96; 0x05; 0x9a; 0x07; 0x12; 0x80; 0xe2; 0xeb; 0x27; 0xb2; 0x75;
  0x09; 0x83; 0x2c; 0x1a; 0x1b; 0x6e; 0x5a; 0xa0; 0x52; 0x3b; 0xd6; 0xb3; 0x29; 0xe3; 0x2f; 0x84;
  0x53; 0xd1; 0x00; 0xed; 0x20; 0xfc; 0xb1; 0x5b; 0x6a; 0xcb; 0xbe; 0x39; 0x4a; 0x4c; 0x58; 0xcf;
  0xd0; 0xef; 0xaa; 0xfb; 0x43; 0x4d; 0x33; 0x85; 0x45; 0xf9; 0x02; 0x7f; 0x50; 0x3c; 0x9f; 0xa8;
  0x51; 0xa3; 0x40; 0x8f; 0x92; 0x9d; 0x38; 0xf5; 0xbc; 0xb6; 0xda; 0x21; 0x10; 0xff; 0xf3; 0xd2;
  0xcd; 0x0c; 0x13; 0xec; 0x5f; 0x97; 0x44; 0x17; 0xc4; 0xa7; 0x7e; 0x3d; 0x64; 0x5d; 0x19; 0x73;
  0x60; 0x81; 0x4f; 0xdc; 0x22; 0x2a; 0x90; 0x88; 0x46; 0xee; 0xb8; 0x14; 0xde; 0x5e; 0x0b; 0xdb;
  0xe0; 0x32; 0x3a; 0x0a; 0x49; 0x06; 0x24; 0x5c; 0xc2; 0xd3; 0xac; 0x62; 0x91; 0x95; 0xe4; 0x79;
  0xe7; 0xc8; 0x37; 0x6d; 0x8d; 0xd5; 0x4e; 0xa9; 0x6c; 0x56; 0xf4; 0xea; 0x65; 0x7a; 0xae; 0x08;
  0xba; 0x78; 0x25; 0x2e; 0x1c; 0xa6; 0xb4; 0xc6; 0xe8; 0xdd; 0x74; 0x1f; 0x4b; 0xbd; 0x8b; 0x8a;
  0x70; 0x3e; 0xb5; 0x66; 0x48; 0x03; 0xf6; 0x0e; 0x61; 0x35; 0x57; 0xb9; 0x86; 0xc1; 0x1d; 0x9e;
  0xe1; 0xf8; 0x98; 0x11; 0x69; 0xd9; 0x8e; 0x94; 0x9b; 0x1e; 0x87; 0xe9; 0xce; 0x55; 0x28; 0xdf;
  0x8c; 0xa1; 0x89; 0x0d; 0xbf; 0xe6; 0x42; 0x68; 0x41; 0x99; 0x2d; 0x0f; 0xb0; 0x54; 0xbb; 0x16].

Definition isb_bytes : list Z := [
  0x52; 0x09; 0x6a; 0xd5; 0x30; 0x36; 0xa5; 0x38; 0xbf; 0x40; 0xa3; 0x9e; 0x81; 0xf3; 0xd7; 0xfb;
  0x7c; 0xe3; 0x39; 0x82; 0x9b; 0x2f; 0xff; 0x87; 0x34; 0x8e; 0x43; 0x44; 0xc4; 0xde; 0xe9; 0xcb;
  0x54; 0x7b; 0x94; 0x32; 0xa6; 0xc2; 0x23; 0x3d; 0xee; 0x4c; 0x95; 0x0b; 0x42; 0xfa; 0xc3; 0x4e;
  0x08; 0x2e; 0xa1; 0x66; 0x28; 0xd9; 0x24; 0xb2; 0x76; 0x5b; 0xa2; 0x49; 0x6d; 0x8b; 0xd1; 0x25;
  0x72; 0xf8; 0xf6; 0x64; 0x86; 0x68; 0x98; 0x16; 0xd4; 0xa4; 0x5c; 0xcc; 0x5d; 0x65; 0xb6; 0x92;
  0x6c; 0x70; 0x48; 0x50; 0xfd; 0xed; 0xb9; 0xda; 0x5e; 0x15; 0x46; 0x57; 0xa7; 0x8d; 0x9d; 0x84;
  0x90; 0xd8; 0xab; 0x00; 0x8c; 0xbc; 0xd3; 0x0a; 0xf7; 0xe4; 0x58; 0x05; 0xb8; 0xb3; 0x45; 0x06;
  0xd0; 0x2c; 0x1e; 0x8f; 0xca; 0x3f; 0x0f; 0x02; 0xc1; 0xaf; 0xbd; 0x03; 0x01; 0x13; 0x8a; 0x6b;
  0x3a; 0x91; 0x11; 0x41; 0x4f; 0x67; 0xdc; 0xea; 0x97; 0xf2; 0xcf; 0xce; 0xf0; 0xb4; 0xe6; 0x73;
  0x96; 0xac; 0x74; 0x22; 0xe7; 0xad; 0x35; 0x85; 0xe2; 0xf9; 0x37; 0xe8; 0x1c; 0x75; 0xdf; 0x6e;
  0x47; 0xf1; 0x1a; 0x71; 0x1d; 0x29; 0xc5; 0x89; 0x6f; 0xb7; 0x62; 0x0e; 0xaa; 0x18; 0xbe; 0x1b;
  0xfc; 0x56; 0x3e; 0x4b; 0xc6; 0xd2; 0x79; 0x20; 0x9a; 0xdb; 0xc0; 0xfe; 0x78; 0xcd; 0x5a; 0xf4;
  0x1f; 0xdd; 0xa8; 0x33; 0x88; 0x07; 0xc7; 0x31; 0xb1; 0x12; 0x10; 0x59; 0x27; 0x80; 0xec; 0x5f;
  0x60; 0x51; 0x7f; 0xa9; 0x19; 0xb5; 0x4a; 0x0d; 0x2d; 0xe5; 0x7a; 0x9f; 0x93; 0xc9; 0x9c; 0xef;
  0xa0; 0xe0; 0x3b; 0x4d; 0xae; 0x2a; 0xf5; 0xb0; 0xc8; 0xeb; 0xbb; 0x3c; 0x83; 0x53; 0x99; 0x61;
  0x17; 0x2b; 0x04; 0x7e; 0xba; 0x77; 0xd6; 0x26; 0xe1; 0x69; 0x14; 0x63; 0x55; 0x21; 0x0c; 0x7d].

Definition sb_data (w : Z -> Z) : list Z := w <$> sb_bytes.
Definition isb_data (w : Z -> Z) : list Z := w <$> isb_bytes.
Definition mm_data (w : Z -> Z) : list Z := (fun n => w (Z.of_nat n)) <$> seq 0 256.
Definition rc_data (w : Z -> Z) : list Z :=
  w <$> [0x01; 0x02; 0x04; 0x08; 0x10; 0x20; 0x40; 0x80; 0x1b; 0x36].

(** [d_4(t, n, b, e, f, g, h)]: a table of four rows. *)
Record table := mkTable { row0 : list Z; row1 : list Z; row2 : list Z; row3 : list Z }.

Definition t_rc : list Z := rc_data w0.
Definition t_fn : table := mkTable (sb_data u0) (sb_data u1) (sb_data u2) (sb_data u3).
Definition t_fl : table := mkTable (sb_data w0) (sb_data w1) (sb_data w2) (sb_data w3).
Definition t_in : table := mkTable (isb_data v0) (isb_data v1) (isb_data v2) (isb_data v3).
Definition t_il : table := mkTable (isb_data w0) (isb_data w1) (isb_data w2) (isb_data w3).
Definition t_im : table := mkTable (mm_data v0) (mm_data v1) (mm_data v2) (mm_data v3).

(** [four_tables(x, tab, vf, rf, c)]: [vf r c] is the word and [rf r c] its byte
    that is looked up in row [r]. *)
Definition four_tables (tab : table) (vf rf : Z -> Z -> Z) (c : Z) : Z :=
  Z.lxor (Z.lxor (Z.lxor
    (znth (row0 tab) (bval (vf 0 c) (rf 0 c)))
    (znth (row1 tab) (bval (vf 1 c) (rf 1 c))))
    (znth (row2 tab) (bval (vf 2 c) (rf 2 c))))
    (znth (row3 tab) (bval (vf 3 c) (rf 3 c))).

Definition vf1 (x r c : Z) : Z := x.
Definition rf1 (r c : Z) : Z := r.
Definition rf2 (r c : Z) : Z := Z.land (8 + r - c) 3.

Definition inv_mcol (x : Z) : Z := four_tables t_im (vf1 x) rf1 0.
Definition ls_box (x c : Z) : Z := four_tables t_fl (vf1 x) rf2 c.
Definition ff (x : Z) : Z := inv_mcol x.

(** ** Contexts *)

(** [ks] and [inf.b[0]] of [aes_encrypt_ctx] and [aes_decrypt_ctx]; [inf.b[2]] and
    [pad] are [CtrContext] (Cipher.v). *)
Record aes_ctx := mkAes { ks : list Z; inf_b0 : Z }.

(** [ks[i]], and the array with [x] stored there. *)
Definition kget (k : list Z) (i : Z) : Z := znth k i.
Definition kput (k : list Z) (i x : Z) : list Z := <[Z.to_nat i := x]> k.

(** The words [xs] stored one after the other from place [i] on, places being
    given by [v]. *)
Fixpoint kputs (v : Z -> Z) (k : list Z) (i : Z) (xs : list Z) : list Z :=
  match xs with
  | [] => k
  | x :: xs => kputs v (kput k (v i) x) (i + 1) xs
  end.

(** The place of an encryption schedule, and that of a decryption schedule. *)
Definition vid (i : Z) : Z := i.
Definition v (n i : Z) : Z := n - i + 2 * Z.land i 3.

Declare Scope word_scope.
Delimit Scope word_scope with word.
Notation "a ^^ b" := (Z.lxor a b) (at level 50, left associativity) : word_scope.
#[local] Open Scope word_scope.

(** ** Key schedules for encryption *)

(** Each macro, given the schedule and the words [ss], leaves both. *)
Definition words4 : Type := Z * Z * Z * Z.
Definition words6 : Type := Z * Z * Z * Z * Z * Z.
Definition words8 : Type := Z * Z * Z * Z * Z * Z * Z * Z.

Definition rc (i : Z) : Z := znth t_rc i.

Definition ke4 (i : Z) (st : list Z * words4) : list Z * words4 :=
  let '(k, (s0, s1, s2, s3)) := st in
  let s0 := s0 ^^ (ls_box s3 3 ^^ rc i) in
  let s1 := s1 ^^ s0 in
  let s2 := s2 ^^ s1 in
  let s3 := s3 ^^ s2 in
  (kputs vid k (4 * i + 4) [s0; s1; s2; s3], (s0, s1, s2, s3)).

Definition aes_encrypt_key128 (key : list Z) (cx : aes_ctx) : aes_ctx :=
  let ss := (word_in key 0, word_in key 1, word_in key 2, word_in key 3) in
  let k := kputs vid (ks cx) 0 [word_in key 0; word_in key 1; word_in key 2; word_in key 3] in
  let st := foldl (fun st i => ke4 i st) (k, ss) [0; 1; 2; 3; 4; 5; 6; 7; 8; 9] in
  mkAes st.1 (10 * 16).

Definition kef6 (i : Z) (st : list Z * words6) : list Z * words6 :=
  let '(k, (s0, s1, s2, s3, s4, s5)) := st in
  let s0 := s0 ^^ (ls_box s5 3 ^^ rc i) in
  let s1 := s1 ^^ s0 in
  let s2 := s2 ^^ s1 in
  let s3 := s3 ^^ s2 in
  (kputs vid k (6 * i + 6) [s0; s1; s2; s3], (s0, s1, s2, s3, s4, s5)).

Definition ke6 (i : Z) (st : list Z * words6) : list Z * words6 :=
  let '(k, (s0, s1, s2, s3, s4, s5)) := kef6 i st in
  let s4 := s4 ^^ s3 in
  let s5 := s5 ^^ s4 in
  (kputs vid k (6 * i + 10) [s4; s5], (s0, s1, s2, s3, s4, s5)).

Definition aes_encrypt_key192 (key : list Z) (cx : aes_ctx) : aes_ctx :=
  let ss := (word_in key 0, word_in key 1, word_in key 2, word_in key 3, word_in key 4, word_in key 5) in
  let k := kputs vid (ks cx) 0 [word_in key 0; word_in key 1; word_in key 2; word_in key 3;
             word_in key 4; word_in key 5] in
  let st := foldl (fun st i => ke6 i st) (k, ss) [0; 1; 2; 3; 4; 5; 6] in
  mkAes (kef6 7 st).1 (12 * 16).

Definition kef8 (i : Z) (st : list Z * words8) : list Z * words8 :=
  let '(k, (s0, s1, s2, s3, s4, s5, s6, s7)) := st in
  let s0 := s0 ^^ (ls_box s7 3 ^^ rc i) in
  let s1 := s1 ^^ s0 in
  let s2 := s2 ^^ s1 in
  let s3 := s3 ^^ s2 in
  (kputs vid k (8 * i + 8) [s0; s1; s2; s3], (s0, s1, s2, s3, s4, s5, s6, s7)).

Definition ke8 (i : Z) (st : list Z * words8) : list Z * words8 :=
  let '(k, (s0, s1, s2, s3, s4, s5, s6, s7)) := kef8 i st in
  let s4 := s4 ^^ ls_box s3 0 in
  let s5 := s5 ^^ s4 in
  let s6 := s6 ^^ s5 in
  let s7 := s7 ^^ s6 in
  (kputs vid k (8 * i + 12) [s4; s5; s6; s7], (s0, s1, s2, s3, s4, s5, s6, s7)).

Definition aes_encrypt_key256 (key : list Z) (cx : aes_ctx) : aes_ctx :=
  let ss := (word_in key 0, word_in key 1, word_in key 2, word_in key 3,
             word_in key 4, word_in key 5, word_in key 6, word_in key 7) in
  let k := kputs vid (ks cx) 0 [word_in key 0; word_in key 1; word_in key 2; word_in key 3;
             word_in key 4; word_in key 5; word_in key 6; word_in key 7] in
  let st := foldl (fun st i => ke8 i st) (k, ss) [0; 1; 2; 3; 4; 5] in
  mkAes (kef8 6 st).1 (14 * 16).

(** A length that is none of these leaves the context as it is. *)
Definition aes_encrypt_key (key : list Z) (key_len : Z) (cx : aes_ctx) : aes_ctx :=
  if (key_len =? 16) || (key_len =? 128) then aes_encrypt_key128 key cx
  else if (key_len =? 24) || (key_len =? 192) then aes_encrypt_key192 key cx
  else if (key_len =? 32) || (key_len =? 256) then aes_encrypt_key256 key cx
  else cx.

(** ** Key schedules for decryption *)

(** [s ^= k[v(n,j)]; k[v(n,j+m)] = g(s)]: the schedule and [s]. *)
Definition chain (g : Z -> Z) (n m j : Z) (st : list Z * Z) : list Z * Z :=
  let '(k, s) := st in
  let s := s ^^ kget k (v n j) in
  (kput k (v n (j + m)) (g s), s).

(** [kdf4], [kd4] and [kdl4] keep the words [ss] in a list, indexed by [i % 4]. *)
Definition kdf4 (i : Z) (st : list Z * list Z) : list Z * list Z :=
  let '(k, ss) := st in
  let ss := [znth ss 0 ^^ znth ss 2 ^^ znth ss 1 ^^ znth ss 3; znth ss 1 ^^ znth ss 3;
             znth ss 2 ^^ znth ss 3; znth ss 3] in
  let s4 := ls_box (znth ss ((i + 3) mod 4)) 3 ^^ rc i in
  let ss := kput ss (i mod 4) (znth ss (i mod 4) ^^ s4) in
  let c := foldl (fun st j => chain ff 40 4 (4 * i + j) st) (k, s4) [0; 1; 2; 3] in
  (c.1, ss).

Definition kd4 (i : Z) (st : list Z * list Z) : list Z * list Z :=
  let '(k, ss) := st in
  let s4 := ls_box (znth ss ((i + 3) mod 4)) 3 ^^ rc i in
  let ss := kput ss (i mod 4) (znth ss (i mod 4) ^^ s4) in
  let c := foldl (fun st j => chain (fun s => s) 40 4 (4 * i + j) st) (k, ff s4) [0; 1; 2; 3] in
  (c.1, ss).

Definition kdl4 (i : Z) (st : list Z * list Z) : list Z :=
  let '(k, ss) := st in
  let s4 := ls_box (znth ss ((i + 3) mod 4)) 3 ^^ rc i in
  let ss := kput ss (i mod 4) (znth ss (i mod 4) ^^ s4) in
  let s0 := znth ss 0 ^^ znth ss 1 in
  kputs (v 40) k (4 * i + 4)
    [s0 ^^ znth ss 2 ^^ znth ss 3; znth ss 1 ^^ znth ss 3; s0; znth ss 1].

Definition aes_decrypt_key128 (key : list Z) (cx : aes_ctx) : aes_ctx :=
  let ss := [word_in key 0; word_in key 1; word_in key 2; word_in key 3] in
  let k := kputs (v 40) (ks cx) 0 ss in
  let st := foldl (fun st i => kd4 i st) (kdf4 0 (k, ss)) [1; 2; 3; 4; 5; 6; 7; 8] in
  mkAes (kdl4 9 st) (10 * 16).

Definition kdf6 (i : Z) (st : list Z * words6) : list Z * words6 :=
  let '(k, (s0, s1, s2, s3, s4, s5)) := st in
  let s0 := s0 ^^ (ls_box s5 3 ^^ rc i) in
  let s1 := s1 ^^ s0 in
  let s2 := s2 ^^ s1 in
  let s3 := s3 ^^ s2 in
  let s4 := s4 ^^ s3 in
  let s5 := s5 ^^ s4 in
  (kputs (v 48) k (6 * i + 6) [ff s0; ff s1; ff s2; ff s3; ff s4; ff s5], (s0, s1, s2, s3, s4, s5)).

Definition kd6 (i : Z) (st : list Z * words6) : list Z * words6 :=
  let '(k, (s0, s1, s2, s3, s4, s5)) := st in
  let s6 := ls_box s5 3 ^^ rc i in
  let s0 := s0 ^^ s6 in
  let s1 := s1 ^^ s0 in
  let s2 := s2 ^^ s1 in
  let s3 := s3 ^^ s2 in
  let s4 := s4 ^^ s3 in
  let s5 := s5 ^^ s4 in
  let c := foldl (fun st j => chain (fun s => s) 48 6 (6 * i + j) st) (k, ff s6) [0; 1; 2; 3; 4; 5] in
  (c.1, (s0, s1, s2, s3, s4, s5)).

Definition kdl6 (i : Z) (st : list Z * words6) : list Z :=
  let '(k, (s0, s1, s2, s3, s4, s5)) := st in
  let s0 := s0 ^^ (ls_box s5 3 ^^ rc i) in
  let s1 := s1 ^^ s0 in
  let s2 := s2 ^^ s1 in
  let s3 := s3 ^^ s2 in
  kputs (v 48) k (6 * i + 6) [s0; s1; s2; s3].

Definition aes_decrypt_key192 (key : list Z) (cx : aes_ctx) : aes_ctx :=
  let ss := (word_in key 0, word_in key 1, word_in key 2, word_in key 3, word_in key 4, word_in key 5) in
  let k := kputs (v 48) (ks cx) 0 [word_in key 0; word_in key 1; word_in key 2; word_in key 3;
             ff (word_in key 4); ff (word_in key 5)] in
  let st := foldl (fun st i => kd6 i st) (kdf6 0 (k, ss)) [1; 2; 3; 4; 5; 6] in
  mkAes (kdl6 7 st) (12 * 16).

Definition kdf8 (i : Z) (st : list Z * words8) : list Z * words8 :=
  let '(k, (s0, s1, s2, s3, s4, s5, s6, s7)) := st in
  let s0 := s0 ^^ (ls_box s7 3 ^^ rc i) in
  let s1 := s1 ^^ s0 in
  let s2 := s2 ^^ s1 in
  let s3 := s3 ^^ s2 in
  let s4 := s4 ^^ ls_box s3 0 in
  let s5 := s5 ^^ s4 in
  let s6 := s6 ^^ s5 in
  let s7 := s7 ^^ s6 in
  (kputs (v 56) k (8 * i + 8) [ff s0; ff s1; ff s2; ff s3; ff s4; ff s5; ff s6; ff s7],
   (s0, s1, s2, s3, s4, s5, s6, s7)).

Definition kd8 (i : Z) (st : list Z * words8) : list Z * words8 :=
  let '(k, (s0, s1, s2, s3, s4, s5, s6, s7)) := st in
  let s8 := ls_box s7 3 ^^ rc i in
  let s0 := s0 ^^ s8 in
  let s1 := s1 ^^ s0 in
  let s2 := s2 ^^ s1 in
  let s3 := s3 ^^ s2 in
  let c := foldl (fun st j => chain (fun s => s) 56 8 (8 * i + j) st) (k, ff s8) [0; 1; 2; 3] in
  let s8 := ls_box s3 0 in
  let s4 := s4 ^^ s8 in
  let s5 := s5 ^^ s4 in
  let s6 := s6 ^^ s5 in
  let s7 := s7 ^^ s6 in
  let c := foldl (fun st j => chain (fun s => s) 56 8 (8 * i + j) st) (c.1, ff s8) [4; 5; 6; 7] in
  (c.1, (s0, s1, s2, s3, s4, s5, s6, s7)).

Definition kdl8 (i : Z) (st : list Z * words8) : list Z :=
  let '(k, (s0, s1, s2, s3, s4, s5, s6, s7)) := st in
  let s0 := s0 ^^ (ls_box s7 3 ^^ rc i) in
  let s1 := s1 ^^ s0 in
  let s2 := s2 ^^ s1 in
  let s3 := s3 ^^ s2 in
  kputs (v 56) k (8 * i + 8) [s0; s1; s2; s3].

Definition aes_decrypt_key256 (key : list Z) (cx : aes_ctx) : aes_ctx :=
  let ss := (word_in key 0, word_in key 1, word_in key 2, word_in key 3,
             word_in key 4, word_in key 5, word_in key 6, word_in key 7) in
  let k := kputs (v 56) (ks cx) 0 [word_in key 0; word_in key 1; word_in key 2; word_in key 3;
             ff (word_in key 4); ff (word_in key 5); ff (word_in key 6); ff (word_in key 7)] in
  let st := foldl (fun st i => kd8 i st) (kdf8 0 (k, ss)) [1; 2; 3; 4; 5] in
  mkAes (kdl8 6 st) (14 * 16).

Definition aes_decrypt_key (key : list Z) (key_len : Z) (cx : aes_ctx) : aes_ctx :=
  if (key_len =? 16) || (key_len =? 128) then aes_decrypt_key128 key cx
  else if (key_len =? 24) || (key_len =? 192) then aes_decrypt_key192 key cx
  else if (key_len =? 32) || (key_len =? 256) then aes_decrypt_key256 key cx
  else cx.

(** ** Blocks *)

(** [s(x,c)] *)
Definition s4 (x : words4) (c : Z) : Z :=
  let '(x0, x1, x2, x3) := x in
  if c =? 0 then x0 else if c =? 1 then x1 else if c =? 2 then x2 else x3.

(** [state_in(y,x,k)] with [k] at word [kp] of the schedule. *)
Definition state_in (x : list Z) (k : list Z) (kp : Z) : words4 :=
  (word_in x 0 ^^ kget k kp, word_in x 1 ^^ kget k (kp + 1),
   word_in x 2 ^^ kget k (kp + 2), word_in x 3 ^^ kget k (kp + 3)).

Definition state_out (x : words4) : list Z :=
  word_out (s4 x 0) ++ word_out (s4 x 1) ++ word_out (s4 x 2) ++ word_out (s4 x 3).

(** [round(rm,y,x,k)]: what it leaves in [y]. *)
Definition round (rm : words4 -> list Z -> Z -> Z -> Z) (x : words4) (k : list Z) (kp : Z) : words4 :=
  (rm x k kp 0, rm x k kp 1, rm x k kp 2, rm x k kp 3).

Definition fwd_var (x : words4) (r c : Z) : Z :=
  if r =? 0 then if c =? 0 then s4 x 0 else if c =? 1 then s4 x 1 else if c =? 2 then s4 x 2 else s4 x 3
  else if r =? 1 then if c =? 0 then s4 x 1 else if c =? 1 then s4 x 2 else if c =? 2 then s4 x 3 else s4 x 0
  else if r =? 2 then if c =? 0 then s4 x 2 else if c =? 1 then s4 x 3 else if c =? 2 then s4 x 0 else s4 x 1
  else if c =? 0 then s4 x 3 else if c =? 1 then s4 x 0 else if c =? 2 then s4 x 1 else s4 x 2.

Definition fwd_rnd (x : words4) (k : list Z) (kp c : Z) : Z :=
  kget k (kp + c) ^^ four_tables t_fn (fwd_var x) rf1 c.
Definition fwd_lrnd (x : words4) (k : list Z) (kp c : Z) : Z :=
  kget k (kp + c) ^^ four_tables t_fl (fwd_var x) rf1 c.

(** Rounds with the keys at [kp + n * N_COLS] for the [n] of a list. *)
Definition N_COLS : Z := 4.
Definition rounds rm (k : list Z) (kp : Z) (b : words4) (ns : list Z) : words4 :=
  foldl (fun b n => round rm b k (kp + n * N_COLS)) b ns.

(** The [switch] falls through from the longer keys to the shorter. *)
Definition aes_encrypt (inp : list Z) (cx : aes_ctx) : list Z :=
  let k := ks cx in
  let b0 := state_in inp k 0 in
  let '(b0, kp) :=
    if inf_b0 cx =? 14 * 16 then (rounds fwd_rnd k 0 b0 [1; 2], 2 * N_COLS) else (b0, 0) in
  let '(b0, kp) :=
    if (inf_b0 cx =? 14 * 16) || (inf_b0 cx =? 12 * 16)
    then (rounds fwd_rnd k kp b0 [1; 2], kp + 2 * N_COLS) else (b0, kp) in
  let b0 :=
    if (inf_b0 cx =? 14 * 16) || (inf_b0 cx =? 12 * 16) || (inf_b0 cx =? 10 * 16)
    then rounds fwd_lrnd k kp (rounds fwd_rnd k kp b0 [1; 2; 3; 4; 5; 6; 7; 8; 9]) [10] else b0 in
  state_out b0.

Definition inv_var (x : words4) (r c : Z) : Z :=
  if r =? 0 then if c =? 0 then s4 x 0 else if c =? 1 then s4 x 1 else if c =? 2 then s4 x 2 else s4 x 3
  else if r =? 1 then if c =? 0 then s4 x 3 else if c =? 1 then s4 x 0 else if c =? 2 then s4 x 1 else s4 x 2
  else if r =? 2 then if c =? 0 then s4 x 2 else if c =? 1 then s4 x 3 else if c =? 2 then s4 x 0 else s4 x 1
  else if c =? 0 then s4 x 1 else if c =? 1 then s4 x 2 else if c =? 2 then s4 x 3 else s4 x 0.

Definition inv_rnd (x : words4) (k : list Z) (kp c : Z) : Z :=
  kget k (kp + c) ^^ four_tables t_in (inv_var x) rf1 c.
Definition inv_lrnd (x : words4) (k : list Z) (kp c : Z) : Z :=
  kget k (kp + c) ^^ four_tables t_il (inv_var x) rf1 c.

(** The keys are counted from the end: [rnd_key(n)] is at [kp + n * N_COLS]. *)
Definition aes_decrypt (inp : list Z) (cx : aes_ctx) : list Z :=
  let k := ks cx in
  let b0 := state_in inp k 0 in
  let kp := Z.shiftr (inf_b0 cx) 2 in
  let b0 := if inf_b0 cx =? 14 * 16 then rounds inv_rnd k kp b0 [-13; -12] else b0 in
  let b0 :=
    if (inf_b0 cx =? 14 * 16) || (inf_b0 cx =? 12 * 16)
    then rounds inv_rnd k kp b0 [-11; -10] else b0 in
  let b0 :=
    if (inf_b0 cx =? 14 * 16) || (inf_b0 cx =? 12 * 16) || (inf_b0 cx =? 10 * 16)
    then rounds inv_lrnd k kp (rounds inv_rnd k kp b0 [-9; -8; -7; -6; -5; -4; -3; -2; -1]) [0] else b0 in
  state_out b0.

(** ** The keys of the cipher modes *)

(** [silc_aes_cbc_set_key]: the context is one of both kinds. *)
Definition silc_aes_cbc_set_key (cx : aes_ctx) (key : list Z) (keylen : Z) (encryption : bool) : aes_ctx :=
  if encryption then aes_encrypt_key key keylen cx else aes_decrypt_key key keylen cx.

(** [silc_aes_ctr_set_key]: the context is cleared before. *)
Definition silc_aes_ctr_set_key (key : list Z) (keylen : Z) : aes_ctx :=
  aes_encrypt_key key keylen (mkAes (zeros KS_LENGTH) 0).
