(* ===== verification/AesThms.v ===== *)
(** * AES is FIPS 197, and decryption inverts encryption (theorems about Aes.v)

    The standard: the field of 256 elements, the S-box as inverse and affine map,
    the transformations of the state, the key expansion and the cipher.  The words
    and tables of the implementation compute its rounds, and from the right round
    keys the cipher; decryption inverts it with the round keys after InvMixColumns
    in reverse order, which the schedules provide (AesKeys.v). *)

From Stdlib Require Import Btauto.
From stdpp Require Import list.
From S2P Require Import Prelude CTypes Aes.

#[local] Open Scope word_scope.

(** ** The standard *)

Section FIPS197.
Definition xtime (b : Z) : Z := if b <? 128 then 2 * b else (2 * b) ^^ 0x11b.

(** The product in the field. *)
Fixpoint gmul_bits (n : nat) (a b : Z) : Z :=
  match n with
  | O => 0
  | S n => (if Z.odd a then b else 0) ^^ gmul_bits n (a / 2) (xtime b)
  end.
Definition gmul (a b : Z) : Z := gmul_bits 8 a b.

(** The 254th power is the inverse, with 0 for 0. *)
Definition ginv (b : Z) : Z :=
  let b2 := gmul b b in let b4 := gmul b2 b2 in let b8 := gmul b4 b4 in
  let b16 := gmul b8 b8 in let b32 := gmul b16 b16 in let b64 := gmul b32 b32 in
  let b128 := gmul b64 b64 in
  gmul b2 (gmul b4 (gmul b8 (gmul b16 (gmul b32 (gmul b64 b128))))).

Definition rotl8 (b n : Z) : Z := (b * 2 ^ n) mod 256 + b / 2 ^ (8 - n).

Definition sbox (b : Z) : Z :=
  let i := ginv b in i ^^ rotl8 i 1 ^^ rotl8 i 2 ^^ rotl8 i 3 ^^ rotl8 i 4 ^^ 0x63.

(** The state is four columns of four bytes. *)
Definition col : Type := Z * Z * Z * Z.
Definition state : Type := col * col * col * col.

Definition col_map (f : Z -> Z) (c : col) : col :=
  let '(b0, b1, b2, b3) := c in (f b0, f b1, f b2, f b3).
Definition col_xor (c d : col) : col :=
  let '(b0, b1, b2, b3) := c in let '(d0, d1, d2, d3) := d in
  (b0 ^^ d0, b1 ^^ d1, b2 ^^ d2, b3 ^^ d3).
Definition MixColumn (c : col) : col :=
  let '(b0, b1, b2, b3) := c in
  (gmul 2 b0 ^^ gmul 3 b1 ^^ b2 ^^ b3, b0 ^^ gmul 2 b1 ^^ gmul 3 b2 ^^ b3,
   b0 ^^ b1 ^^ gmul 2 b2 ^^ gmul 3 b3, gmul 3 b0 ^^ b1 ^^ b2 ^^ gmul 2 b3).

Definition state_map (f : col -> col) (s : state) : state :=
  let '(c0, c1, c2, c3) := s in (f c0, f c1, f c2, f c3).
Definition AddRoundKey (s k : state) : state :=
  let '(c0, c1, c2, c3) := s in let '(k0, k1, k2, k3) := k in
  (col_xor c0 k0, col_xor c1 k1, col_xor c2 k2, col_xor c3 k3).
Definition SubBytes (s : state) : state := state_map (col_map sbox) s.
Definition ShiftRows (s : state) : state :=
  let '((a0, a1, a2, a3), (b0, b1, b2, b3), (c0, c1, c2, c3), (d0, d1, d2, d3)) := s in
  ((a0, b1, c2, d3), (b0, c1, d2, a3), (c0, d1, a2, b3), (d0, a1, b2, c3)).
Definition MixColumns (s : state) : state := state_map MixColumn s.

(** The key expansion: [w] is what there is of it. *)
Definition SubWord (c : col) : col := col_map sbox c.
Definition RotWord (c : col) : col := let '(b0, b1, b2, b3) := c in (b1, b2, b3, b0).
Fixpoint xpow (n : nat) : Z := match n with O => 1 | S n => xtime (xpow n) end.
Definition Rcon (i : nat) : col := (xpow (i - 1), 0, 0, 0).

Definition no_col : col := (0, 0, 0, 0).
(** What word [i] adds, [temp] being the word before. *)
Definition temp_word (Nk i : nat) (temp : col) : col :=
  if (i mod Nk =? 0)%nat then col_xor (SubWord (RotWord temp)) (Rcon (i / Nk))
  else if (6 <? Nk)%nat && (i mod Nk =? 4)%nat then SubWord temp
  else temp.
Definition next_word (Nk : nat) (w : list col) : col :=
  let i := length w in
  col_xor (nth (i - Nk) w no_col) (temp_word Nk i (nth (i - 1) w no_col)).

Fixpoint KeyExpansion (Nk n : nat) (key : list col) : list col :=
  match n with
  | O => key
  | S n => let w := KeyExpansion Nk n key in w ++ [next_word Nk w]
  end.

(** The columns of a list of bytes. *)
Fixpoint columns (n : nat) (l : list Z) : list col :=
  match n with
  | O => []
  | S n => (znth l 0, znth l 1, znth l 2, znth l 3) :: columns n (zdrop 4 l)
  end.

Definition to_state (w : list col) (i : nat) : state :=
  (nth i w no_col, nth (i + 1) w no_col, nth (i + 2) w no_col, nth (i + 3) w no_col).
Definition col_bytes (c : col) : list Z := let '(b0, b1, b2, b3) := c in [b0; b1; b2; b3].
Definition of_state (s : state) : list Z :=
  let '(c0, c1, c2, c3) := s in col_bytes c0 ++ col_bytes c1 ++ col_bytes c2 ++ col_bytes c3.

(** [Nk] words of key make [Nk + 6] rounds. *)
Definition round_key (Nk : nat) (key : list Z) (n : nat) : state :=
  to_state (KeyExpansion Nk (4 * (Nk + 7) - Nk) (columns Nk key)) (4 * n).

Definition full_round (s k : state) : state := AddRoundKey (MixColumns (ShiftRows (SubBytes s))) k.
Definition last_round (s k : state) : state := AddRoundKey (ShiftRows (SubBytes s)) k.

Definition AES (Nk : nat) (key inp : list Z) : list Z :=
  let s := AddRoundKey (to_state (columns 4 inp) 0) (round_key Nk key 0) in
  let s := foldl (fun s n => full_round s (round_key Nk key n)) s (seq 1 (Nk + 5)) in
  of_state (last_round s (round_key Nk key (Nk + 6))).
End FIPS197.

(** ** Words and columns *)

Definition W (c : col) : Z := let '(b0, b1, b2, b3) := c in bytes2word b0 b1 b2 b3.

Definition is_byte (b : Z) : Prop := 0 <= b < 256.
Definition col_ok (c : col) : Prop :=
  let '(b0, b1, b2, b3) := c in is_byte b0 /\ is_byte b1 /\ is_byte b2 /\ is_byte b3.

Lemma lxor_bound k a b : 0 <= k -> 0 <= a < 2 ^ k -> 0 <= b < 2 ^ k -> 0 <= a ^^ b < 2 ^ k.
Proof.
  intros Hk Ha Hb.
  assert (E : Z.land (a ^^ b) (Z.ones k) = a ^^ b).
  { rewrite <- (Z.mod_small a (2 ^ k)), <- (Z.mod_small b (2 ^ k)) by done.
    rewrite <- !Z.land_ones by done. apply Z.bits_inj'. intros n _.
    rewrite !Z.land_spec, !Z.lxor_spec, !Z.land_spec. btauto. }
  rewrite <- E, Z.land_ones by done. apply Z.mod_pos_bound. lia.
Qed.

Lemma byte_lxor a b : is_byte a -> is_byte b -> is_byte (a ^^ b).
Proof. apply (lxor_bound 8). lia. Qed.

Lemma lxor_pos k a b c d :
  0 <= k -> 0 <= b < 2 ^ k -> 0 <= d < 2 ^ k ->
  (a * 2 ^ k + b) ^^ (c * 2 ^ k + d) = (a ^^ c) * 2 ^ k + (b ^^ d).
Proof.
  intros Hk Hb Hd. pose proof (lxor_bound k b d Hk Hb Hd) as Hx.
  rewrite <- !lor_shiftl_add by done. apply Z.bits_inj'. intros n Hn.
  rewrite Z.lxor_spec, !Z.lor_spec, Z.lxor_spec.
  destruct (decide (n < k)).
  - rewrite !Z.shiftl_spec_low by lia. by destruct (Z.testbit b n), (Z.testbit d n).
  - rewrite !Z.shiftl_spec, Z.lxor_spec by lia.
    assert (E : forall x, 0 <= x < 2 ^ k -> Z.testbit x n = false).
    { intros x Hx'. rewrite <- (Z.mod_small x (2 ^ k)) by done. apply Z.mod_pow2_bits_high. lia. }
    by rewrite (E b), (E d), !orb_false_r by done.
Qed.

Lemma b2w_pos b0 b1 b2 b3 :
  is_byte b0 -> is_byte b1 -> is_byte b2 -> is_byte b3 ->
  bytes2word b0 b1 b2 b3 = ((b3 * 2 ^ 8 + b2) * 2 ^ 8 + b1) * 2 ^ 8 + b0.
Proof.
  unfold is_byte, bytes2word. intros.
  rewrite (u32_id (Z.shiftl b3 24)), (u32_id (Z.shiftl b2 16)), (u32_id (Z.shiftl b1 8))
    by (rewrite Z.shiftl_mul_pow2 by lia; lia).
  rewrite <- !Z.lor_assoc. rewrite (lor_shiftl_add b1 b0 8) by lia.
  rewrite (lor_shiftl_add b2 _ 16) by lia. rewrite (lor_shiftl_add b3 _ 24) by lia. lia.
Qed.

Lemma W_pos c :
  col_ok c -> W c = let '(b0, b1, b2, b3) := c in ((b3 * 2 ^ 8 + b2) * 2 ^ 8 + b1) * 2 ^ 8 + b0.
Proof. destruct c as [[[b0 b1] b2] b3]. intros (? & ? & ? & ?). by apply b2w_pos. Qed.

Lemma col_xor_ok c d : col_ok c -> col_ok d -> col_ok (col_xor c d).
Proof.
  destruct c as [[[c0 c1] c2] c3], d as [[[d0 d1] d2] d3].
  intros (? & ? & ? & ?) (? & ? & ? & ?). cbn [col_xor col_ok]. auto 6 using byte_lxor.
Qed.

Lemma W_xor c d : col_ok c -> col_ok d -> W c ^^ W d = W (col_xor c d).
Proof.
  intros Hc Hd. rewrite !W_pos by (try apply col_xor_ok; done).
  destruct c as [[[c0 c1] c2] c3], d as [[[d0 d1] d2] d3].
  destruct Hc as (? & ? & ? & ?), Hd as (? & ? & ? & ?). cbn [col_xor].
  by rewrite !lxor_pos by (done || lia).
Qed.

Lemma bval_W b0 b1 b2 b3 :
  col_ok (b0, b1, b2, b3) ->
  bval (W (b0, b1, b2, b3)) 0 = b0 /\ bval (W (b0, b1, b2, b3)) 1 = b1 /\
  bval (W (b0, b1, b2, b3)) 2 = b2 /\ bval (W (b0, b1, b2, b3)) 3 = b3.
Proof.
  intros H. rewrite W_pos by done. destruct H as (? & ? & ? & ?). unfold is_byte, bval, u8 in *.
  rewrite !Z.shiftr_div_pow2 by lia. change (2 ^ (8 * 0)) with 1. change (2 ^ (8 * 1)) with 256.
  change (2 ^ (8 * 2)) with 65536. change (2 ^ (8 * 3)) with 16777216. change (2 ^ 8) with 256.
  repeat split; Z.div_mod_to_equations; lia.
Qed.

(** A property of all bytes is computed. *)
Lemma byte_check (P : Z -> bool) b :
  forallb (fun n => P (Z.of_nat n)) (seq 0 256) = true -> is_byte b -> P b = true.
Proof.
  intros H Hb. rewrite forallb_forall in H. specialize (H (Z.to_nat b)).
  unfold is_byte in Hb. rewrite Z2Nat.id in H by lia. apply H, in_seq. lia.
Qed.

Lemma byte_eq (f g : Z -> Z) b :
  forallb (fun n => f (Z.of_nat n) =? g (Z.of_nat n)) (seq 0 256) = true -> is_byte b -> f b = g b.
Proof. intros H Hb. apply Z.eqb_eq. exact (byte_check (fun b => f b =? g b) b H Hb). Qed.

Lemma byte_in (f : Z -> Z) b :
  forallb (fun n => (0 <=? f (Z.of_nat n)) && (f (Z.of_nat n) <? 256)) (seq 0 256) = true ->
  is_byte b -> is_byte (f b).
Proof.
  intros H Hb. apply (byte_check (fun b => (0 <=? f b) && (f b <? 256)) b) in H; [|done].
  unfold is_byte. lia.
Qed.

(** ** The tables *)

Lemma sb_table b : is_byte b -> znth sb_bytes b = sbox b.
Proof. apply byte_eq. vm_compute. reflexivity. Qed.
Lemma isb_table b : is_byte b -> znth isb_bytes (sbox b) = b.
Proof. apply (byte_eq (fun b => znth isb_bytes (sbox b)) (fun b => b)). vm_compute. reflexivity. Qed.
Lemma isb_byte b : is_byte b -> is_byte (znth isb_bytes b).
Proof. apply byte_in. vm_compute. reflexivity. Qed.
Lemma sbox_byte b : is_byte b -> is_byte (sbox b).
Proof. apply byte_in. vm_compute. reflexivity. Qed.
Lemma f2_byte b : is_byte b -> is_byte (f2 b).
Proof. apply byte_in. vm_compute. reflexivity. Qed.
Lemma f2_gmul b : is_byte b -> gmul 2 b = f2 b.
Proof. apply byte_eq. vm_compute. reflexivity. Qed.
Lemma f3_gmul b : is_byte b -> gmul 3 b = f2 b ^^ b.
Proof. apply (byte_eq _ (fun b => f2 b ^^ b)). vm_compute. reflexivity. Qed.
Lemma f4_f2 b : is_byte b -> f4 b = f2 (f2 b).
Proof. apply (byte_eq _ (fun b => f2 (f2 b))). vm_compute. reflexivity. Qed.
Lemma f8_f2 b : is_byte b -> f8 b = f2 (f2 (f2 b)).
Proof. apply (byte_eq _ (fun b => f2 (f2 (f2 b)))). vm_compute. reflexivity. Qed.

Lemma f2_xor a b : f2 (a ^^ b) = f2 a ^^ f2 b.
Proof.
  assert (E : forall x, f2 x = Z.shiftl x 1 ^^ (Z.b2z (Z.testbit x 7) * WPOLY)).
  { intros x. unfold f2. rewrite (Z.land_ones _ 1 ltac:(lia) : Z.land _ 1 = _).
    by rewrite Z.testbit_spec', Z.shiftr_div_pow2 by lia. }
  rewrite !E, Z.lxor_spec, Z.shiftl_lxor.
  destruct (Z.testbit a 7), (Z.testbit b 7); cbn [xorb Z.b2z]; apply Z.bits_inj'; intros n _;
    rewrite !Z.lxor_spec, ?Z.bits_0; btauto.
Qed.

(** ** Columns through the tables *)

(** Equations between sums in the field. *)
Ltac xors := apply Z.bits_inj'; intros ? _; rewrite ?Z.lxor_spec, ?Z.bits_0; btauto.

Create HintDb aes.
#[local] Hint Resolve byte_lxor sbox_byte isb_byte f2_byte : aes.

Lemma f4_byte b : is_byte b -> is_byte (f4 b).
Proof. intros. rewrite f4_f2 by done. auto with aes. Qed.
Lemma f8_byte b : is_byte b -> is_byte (f8 b).
Proof. intros. rewrite f8_f2 by done. auto with aes. Qed.
#[local] Hint Resolve f4_byte f8_byte : aes.

Lemma f4_xor a b : is_byte a -> is_byte b -> f4 (a ^^ b) = f4 a ^^ f4 b.
Proof. intros. by rewrite !f4_f2, !f2_xor by auto with aes. Qed.
Lemma f8_xor a b : is_byte a -> is_byte b -> f8 (a ^^ b) = f8 a ^^ f8 b.
Proof. intros. by rewrite !f8_f2, !f2_xor by auto with aes. Qed.

(** InvMixColumns on a column. *)
Definition imix (c : col) : col :=
  let '(b0, b1, b2, b3) := c in
  (fe b0 ^^ fb b1 ^^ fd b2 ^^ f9 b3, f9 b0 ^^ fe b1 ^^ fb b2 ^^ fd b3,
   fd b0 ^^ f9 b1 ^^ fe b2 ^^ fb b3, fb b0 ^^ fd b1 ^^ f9 b2 ^^ fe b3).

Lemma imix_ok c : col_ok c -> col_ok (imix c).
Proof.
  destruct c as [[[b0 b1] b2] b3]. intros (? & ? & ? & ?).
  unfold imix, col_ok, fe, fb, fd, f9. auto 15 with aes.
Qed.

Lemma imix_xor c d : col_ok c -> col_ok d -> imix (col_xor c d) = col_xor (imix c) (imix d).
Proof.
  destruct c as [[[c0 c1] c2] c3], d as [[[d0 d1] d2] d3]. intros (? & ? & ? & ?) (? & ? & ? & ?).
  unfold imix, col_xor, fe, fb, fd, f9. rewrite !f8_xor, !f4_xor, !f2_xor by done.
  repeat apply (f_equal2 pair); xors.
Qed.

Lemma mix_f c :
  col_ok c ->
  MixColumn c =
  let '(b0, b1, b2, b3) := c in
  (f2 b0 ^^ (f2 b1 ^^ b1) ^^ b2 ^^ b3, b0 ^^ f2 b1 ^^ (f2 b2 ^^ b2) ^^ b3,
   b0 ^^ b1 ^^ f2 b2 ^^ (f2 b3 ^^ b3), (f2 b0 ^^ b0) ^^ b1 ^^ b2 ^^ f2 b3).
Proof.
  destruct c as [[[b0 b1] b2] b3]. intros (? & ? & ? & ?). unfold MixColumn.
  by rewrite !f2_gmul, !f3_gmul by done.
Qed.

Lemma mix_ok c : col_ok c -> col_ok (MixColumn c).
Proof.
  intros H. rewrite mix_f by done. destruct c as [[[b0 b1] b2] b3]. destruct H as (? & ? & ? & ?).
  unfold col_ok. auto 10 with aes.
Qed.

Lemma imix_mix c : col_ok c -> imix (MixColumn c) = c.
Proof.
  intros H. pose proof (mix_ok c H) as Hm. rewrite mix_f in * by done.
  destruct c as [[[b0 b1] b2] b3]. destruct H as (? & ? & ? & ?), Hm as (? & ? & ? & ?).
  unfold imix, fe, fb, fd, f9. rewrite !f8_f2, !f4_f2 by done. rewrite !f2_xor.
  repeat apply (f_equal2 pair); xors.
Qed.

Lemma znth_fmap (w : Z -> Z) l b : 0 <= b < zlen l -> znth (w <$> l) b = w (znth l b).
Proof.
  intros Hb. unfold znth, zlen in *. rewrite (nth_indep _ 0 (w 0)) by (rewrite length_map; lia).
  apply map_nth.
Qed.

Lemma sb_entry w b : is_byte b -> znth (sb_data w) b = w (sbox b).
Proof. intros. unfold sb_data. rewrite znth_fmap, sb_table; done. Qed.
Lemma isb_entry w b : is_byte b -> znth (isb_data w) b = w (znth isb_bytes b).
Proof. intros. unfold isb_data. by rewrite znth_fmap. Qed.
Lemma mm_entry w b : is_byte b -> znth (mm_data w) b = w b.
Proof.
  intros Hb. unfold is_byte in Hb. unfold mm_data, znth.
  rewrite (nth_indep _ 0 (w (Z.of_nat 0))) by (rewrite length_map, length_seq; lia).
  rewrite (map_nth (fun n => w (Z.of_nat n))), seq_nth by lia. f_equal. lia.
Qed.

(** Four entries. *)
Definition entries (tab : table) (b0 b1 b2 b3 : Z) : Z :=
  znth (row0 tab) b0 ^^ znth (row1 tab) b1 ^^ znth (row2 tab) b2 ^^ znth (row3 tab) b3.

Lemma W_xor4 a b c d :
  col_ok a -> col_ok b -> col_ok c -> col_ok d ->
  W a ^^ W b ^^ W c ^^ W d = W (col_xor (col_xor (col_xor a b) c) d).
Proof. intros. by rewrite !W_xor by auto using col_xor_ok. Qed.

Ltac columns :=
  repeat match goal with H : col_ok (_, _, _, _) |- _ => destruct H as (? & ? & ? & ?) end.

Lemma w_entries b0 b1 b2 b3 :
  col_ok (b0, b1, b2, b3) -> w0 b0 ^^ w1 b1 ^^ w2 b2 ^^ w3 b3 = W (b0, b1, b2, b3).
Proof.
  intros. columns. assert (is_byte 0) by (unfold is_byte; lia).
  change (W (b0, 0, 0, 0) ^^ W (0, b1, 0, 0) ^^ W (0, 0, b2, 0) ^^ W (0, 0, 0, b3) = W (b0, b1, b2, b3)).
  rewrite W_xor4 by (unfold col_ok; auto). cbn [col_xor].
  f_equal. repeat apply (f_equal2 pair); xors.
Qed.

Lemma u_entries b0 b1 b2 b3 :
  col_ok (b0, b1, b2, b3) -> u0 b0 ^^ u1 b1 ^^ u2 b2 ^^ u3 b3 = W (MixColumn (b0, b1, b2, b3)).
Proof.
  intros H. rewrite (mix_f _ H). columns.
  change (W (f2 b0, b0, b0, f3 b0) ^^ W (f3 b1, f2 b1, b1, b1) ^^ W (b2, f3 b2, f2 b2, b2) ^^
          W (b3, b3, f3 b3, f2 b3) = W (f2 b0 ^^ (f2 b1 ^^ b1) ^^ b2 ^^ b3, b0 ^^ f2 b1 ^^ (f2 b2 ^^ b2) ^^ b3,
   b0 ^^ b1 ^^ f2 b2 ^^ (f2 b3 ^^ b3), (f2 b0 ^^ b0) ^^ b1 ^^ b2 ^^ f2 b3)).
  rewrite W_xor4 by (unfold col_ok, f3; auto 10 with aes). cbn [col_xor]. reflexivity.
Qed.

Lemma v_entries b0 b1 b2 b3 :
  col_ok (b0, b1, b2, b3) -> v0 b0 ^^ v1 b1 ^^ v2 b2 ^^ v3 b3 = W (imix (b0, b1, b2, b3)).
Proof.
  intros. columns.
  change (W (fe b0, f9 b0, fd b0, fb b0) ^^ W (fb b1, fe b1, f9 b1, fd b1) ^^
          W (fd b2, fb b2, fe b2, f9 b2) ^^ W (f9 b3, fd b3, fb b3, fe b3) = W (imix (b0, b1, b2, b3))).
  rewrite W_xor4 by (unfold col_ok, fe, fb, fd, f9; auto 10 with aes). done.
Qed.

Definition isub (c : col) : col := col_map (znth isb_bytes) c.

Lemma col_map_ok f c : (forall b, is_byte b -> is_byte (f b)) -> col_ok c -> col_ok (col_map f c).
Proof. destruct c as [[[b0 b1] b2] b3]. intros Hf (? & ? & ? & ?). cbn. auto. Qed.

Lemma fn_entries b0 b1 b2 b3 :
  col_ok (b0, b1, b2, b3) -> entries t_fn b0 b1 b2 b3 = W (MixColumn (SubWord (b0, b1, b2, b3))).
Proof.
  intros H. pose proof (col_map_ok sbox _ sbox_byte H). columns. unfold entries. cbn [t_fn row0 row1 row2 row3].
  rewrite !sb_entry by done. by apply u_entries.
Qed.

Lemma fl_entries b0 b1 b2 b3 :
  col_ok (b0, b1, b2, b3) -> entries t_fl b0 b1 b2 b3 = W (SubWord (b0, b1, b2, b3)).
Proof.
  intros H. pose proof (col_map_ok sbox _ sbox_byte H). columns. unfold entries. cbn [t_fl row0 row1 row2 row3].
  rewrite !sb_entry by done. by apply w_entries.
Qed.

Lemma in_entries b0 b1 b2 b3 :
  col_ok (b0, b1, b2, b3) -> entries t_in b0 b1 b2 b3 = W (imix (isub (b0, b1, b2, b3))).
Proof.
  intros H. pose proof (col_map_ok _ _ isb_byte H). columns. unfold entries. cbn [t_in row0 row1 row2 row3].
  rewrite !isb_entry by done. by apply v_entries.
Qed.

Lemma il_entries b0 b1 b2 b3 :
  col_ok (b0, b1, b2, b3) -> entries t_il b0 b1 b2 b3 = W (isub (b0, b1, b2, b3)).
Proof.
  intros H. pose proof (col_map_ok _ _ isb_byte H). columns. unfold entries. cbn [t_il row0 row1 row2 row3].
  rewrite !isb_entry by done. by apply w_entries.
Qed.

Lemma im_entries b0 b1 b2 b3 :
  col_ok (b0, b1, b2, b3) -> entries t_im b0 b1 b2 b3 = W (imix (b0, b1, b2, b3)).
Proof.
  intros H. columns. unfold entries. cbn [t_im row0 row1 row2 row3].
  rewrite !mm_entry by done. by apply v_entries.
Qed.

(** ** Rounds *)

Definition wstate (s : state) : words4 := let '(c0, c1, c2, c3) := s in (W c0, W c1, W c2, W c3).
Definition st_ok (s : state) : Prop :=
  let '(c0, c1, c2, c3) := s in col_ok c0 /\ col_ok c1 /\ col_ok c2 /\ col_ok c3.

(** The words of [k] from [kp] on are a round key. *)
Definition has_key (k : list Z) (kp : Z) (rk : state) : Prop :=
  let '(k0, k1, k2, k3) := rk in
  kget k kp = W k0 /\ kget k (kp + 1) = W k1 /\ kget k (kp + 2) = W k2 /\ kget k (kp + 3) = W k3.

Definition InvShiftRows (s : state) : state :=
  let '((a0, a1, a2, a3), (b0, b1, b2, b3), (c0, c1, c2, c3), (d0, d1, d2, d3)) := s in
  ((a0, d1, c2, b3), (b0, a1, d2, c3), (c0, b1, a2, d3), (d0, c1, b2, a3)).

(** The rounds of the equivalent inverse cipher; [k] is already transformed. *)
Definition inv_round (s k : state) : state :=
  AddRoundKey (state_map imix (state_map isub (InvShiftRows s))) k.
Definition inv_last_round (s k : state) : state := AddRoundKey (state_map isub (InvShiftRows s)) k.

Lemma state_map_ok f s : (forall c, col_ok c -> col_ok (f c)) -> st_ok s -> st_ok (state_map f s).
Proof. destruct s as [[[c0 c1] c2] c3]. intros Hf (? & ? & ? & ?). cbn. auto. Qed.
Lemma add_key_ok s k : st_ok s -> st_ok k -> st_ok (AddRoundKey s k).
Proof.
  destruct s as [[[c0 c1] c2] c3], k as [[[k0 k1] k2] k3]. intros (? & ? & ? & ?) (? & ? & ? & ?).
  cbn [AddRoundKey st_ok]. auto 6 using col_xor_ok.
Qed.

Ltac split_state s :=
  destruct s as [[[[[[? ?] ?] ?] [[[? ?] ?] ?]] [[[? ?] ?] ?]] [[[? ?] ?] ?]].

Lemma shift_ok s : st_ok s -> st_ok (ShiftRows s).
Proof. split_state s. intros (? & ? & ? & ?). columns. cbn. auto 20. Qed.
Lemma inv_shift_ok s : st_ok s -> st_ok (InvShiftRows s).
Proof. split_state s. intros (? & ? & ? & ?). columns. cbn. auto 20. Qed.
Lemma sub_ok s : st_ok s -> st_ok (SubBytes s).
Proof. apply state_map_ok. intros. apply col_map_ok; auto using sbox_byte. Qed.
Lemma subword_ok c : col_ok c -> col_ok (SubWord c).
Proof. apply col_map_ok, sbox_byte. Qed.
Lemma isub_ok c : col_ok c -> col_ok (isub c).
Proof. apply col_map_ok, isb_byte. Qed.

Lemma four_entries tab vf rf c b0 b1 b2 b3 :
  bval (vf 0 c) (rf 0 c) = b0 -> bval (vf 1 c) (rf 1 c) = b1 ->
  bval (vf 2 c) (rf 2 c) = b2 -> bval (vf 3 c) (rf 3 c) = b3 ->
  four_tables tab vf rf c = entries tab b0 b1 b2 b3.
Proof. by intros <- <- <- <-. Qed.

(** A round, a column at a time, with the lemma on the entries of its table. *)
Ltac round_columns s rk lem :=
  split_state s; destruct rk as [[[? ?] ?] ?];
  intros (? & ? & ? & ?) (? & ? & ? & ?) (K0 & K1 & K2 & K3);
  repeat match goal with
  | H : col_ok (?a, ?b, ?c, ?d) |- _ =>
      destruct (bval_W a b c d H) as (? & ? & ? & ?); destruct H as (? & ? & ? & ?)
  end;
  unfold round; cbn [wstate]; repeat apply (f_equal2 pair); cbv beta delta [fwd_rnd fwd_lrnd inv_rnd inv_lrnd];
  rewrite ?Z.add_0_r, ?K0, ?K1, ?K2, ?K3;
  (erewrite four_entries by (cbn [Z.eqb Pos.eqb fwd_var inv_var rf1 s4]; eassumption));
  rewrite lem by (unfold col_ok; auto); rewrite Z.lxor_comm;
  rewrite W_xor by (repeat first [apply mix_ok | apply imix_ok | apply isub_ok | apply subword_ok];
                    unfold col_ok; auto);
  reflexivity.

Lemma fwd_round_ok s rk k kp :
  st_ok s -> st_ok rk -> has_key k kp rk -> round fwd_rnd (wstate s) k kp = wstate (full_round s rk).
Proof. round_columns s rk fn_entries. Qed.
Lemma fwd_last_ok s rk k kp :
  st_ok s -> st_ok rk -> has_key k kp rk -> round fwd_lrnd (wstate s) k kp = wstate (last_round s rk).
Proof. round_columns s rk fl_entries. Qed.
Lemma inv_round_ok s rk k kp :
  st_ok s -> st_ok rk -> has_key k kp rk -> round inv_rnd (wstate s) k kp = wstate (inv_round s rk).
Proof. round_columns s rk in_entries. Qed.
Lemma inv_last_ok s rk k kp :
  st_ok s -> st_ok rk -> has_key k kp rk -> round inv_lrnd (wstate s) k kp = wstate (inv_last_round s rk).
Proof. round_columns s rk il_entries. Qed.

(** ** The equivalent inverse cipher *)

Lemma isub_sub c : col_ok c -> isub (SubWord c) = c.
Proof.
  destruct c as [[[b0 b1] b2] b3]. intros (? & ? & ? & ?). cbn. by rewrite !isb_table.
Qed.

Lemma add_key_twice s k : AddRoundKey (AddRoundKey s k) k = s.
Proof.
  split_state s. split_state k. cbn. by rewrite !Z.lxor_assoc, !Z.lxor_nilpotent, !Z.lxor_0_r.
Qed.

Lemma state_map_id f s : (forall c, col_ok c -> f c = c) -> st_ok s -> state_map f s = s.
Proof. destruct s as [[[c0 c1] c2] c3]. intros Hf (? & ? & ? & ?). cbn. by rewrite !Hf. Qed.

Lemma state_map_map f g s : state_map f (state_map g s) = state_map (fun c => f (g c)) s.
Proof. by destruct s as [[[c0 c1] c2] c3]. Qed.

Lemma inv_shift_sub s : st_ok s -> state_map isub (InvShiftRows (ShiftRows (SubBytes s))) = s.
Proof.
  intros H. transitivity (state_map isub (SubBytes s)); [by split_state s|].
  unfold SubBytes. rewrite state_map_map. by apply state_map_id; [apply isub_sub|].
Qed.

Lemma imix_add s k :
  st_ok s -> st_ok k ->
  AddRoundKey (state_map imix s) (state_map imix k) = state_map imix (AddRoundKey s k).
Proof.
  destruct s as [[[c0 c1] c2] c3], k as [[[k0 k1] k2] k3]. intros (? & ? & ? & ?) (? & ? & ? & ?).
  cbn [state_map AddRoundKey]. by rewrite !imix_xor.
Qed.

Lemma full_round_ok s k : st_ok s -> st_ok k -> st_ok (full_round s k).
Proof.
  intros. unfold full_round. apply add_key_ok; [|done].
  apply state_map_ok; [apply mix_ok|]. by apply shift_ok, sub_ok.
Qed.

Lemma inv_round_full s k :
  st_ok s -> st_ok k ->
  inv_round (ShiftRows (SubBytes (full_round s k))) (state_map imix k) = ShiftRows (SubBytes s).
Proof.
  intros Hs Hk. unfold inv_round. rewrite inv_shift_sub by by apply full_round_ok.
  rewrite imix_add by (try apply full_round_ok; done).
  unfold full_round. rewrite add_key_twice. unfold MixColumns. rewrite state_map_map.
  apply state_map_id; [apply imix_mix|]. by apply shift_ok, sub_ok.
Qed.

Lemma rounds_ok s keys : st_ok s -> Forall st_ok keys -> st_ok (foldl full_round s keys).
Proof.
  intros Hs Hk. revert s Hs. induction Hk as [|k keys Hk _ IH]; intros s Hs; [done|].
  apply IH. by apply full_round_ok.
Qed.

Lemma inv_rounds s keys :
  st_ok s -> Forall st_ok keys ->
  foldl inv_round (ShiftRows (SubBytes (foldl full_round s keys))) (state_map imix <$> reverse keys) =
  ShiftRows (SubBytes s).
Proof.
  intros Hs. induction keys as [|k keys IH] using rev_ind; [done|].
  rewrite Forall_app. intros [Hks Hk]. apply list.Forall_cons in Hk as [Hk _].
  rewrite foldl_app, reverse_snoc. cbn [fmap list_fmap foldl].
  rewrite inv_round_full by (try apply rounds_ok; done). by apply IH.
Qed.

(** ** Blocks *)

Lemma state_words inp :
  zlen inp = 16 ->
  exists s, to_state (columns 4 inp) 0 = s /\ of_state s = inp /\
    (word_in inp 0, word_in inp 1, word_in inp 2, word_in inp 3) = wstate s /\ (bytes_ok inp -> st_ok s).
Proof.
  intros H. do 16 (destruct inp as [|? inp]; [by cbv in H|]).
  destruct inp; [|rewrite !zlen_cons in H; pose proof (zlen_nonneg inp); lia].
  match goal with |- context [of_state _ = [?a0; ?a1; ?a2; ?a3; ?b0; ?b1; ?b2; ?b3; ?c0; ?c1; ?c2; ?c3;
                                             ?d0; ?d1; ?d2; ?d3]] =>
    exists ((a0, a1, a2, a3), (b0, b1, b2, b3), (c0, c1, c2, c3), (d0, d1, d2, d3)) end.
  split; [reflexivity|]. split; [reflexivity|]. split; [reflexivity|].
  unfold bytes_ok. rewrite !list.Forall_cons. intros H'. unfold is_byte. cbn beta in *.
  cbn [st_ok col_ok]. unfold is_byte. tauto.
Qed.

Lemma state_in_ok inp k rk s :
  to_state (columns 4 inp) 0 = s ->
  (word_in inp 0, word_in inp 1, word_in inp 2, word_in inp 3) = wstate s ->
  st_ok s -> st_ok rk -> has_key k 0 rk -> state_in inp k 0 = wstate (AddRoundKey s rk).
Proof.
  destruct s as [[[c0 c1] c2] c3], rk as [[[k0 k1] k2] k3]. unfold state_in. cbn [wstate].
  intros _ [= -> -> -> ->] (? & ? & ? & ?) (? & ? & ? & ?) (E0 & E1 & E2 & E3).
  cbn [Z.add] in *. rewrite E0, E1, E2, E3, !W_xor by done. done.
Qed.

Lemma word_out_W c : col_ok c -> word_out (W c) = col_bytes c.
Proof.
  destruct c as [[[b0 b1] b2] b3]. intros H. destruct (bval_W _ _ _ _ H) as (E0 & E1 & E2 & E3).
  unfold word_out. by rewrite E0, E1, E2, E3.
Qed.

Lemma state_out_ok s : st_ok s -> state_out (wstate s) = of_state s.
Proof.
  destruct s as [[[c0 c1] c2] c3]. intros (? & ? & ? & ?). unfold state_out.
  cbn [s4 wstate Z.eqb Pos.eqb]. by rewrite !word_out_W.
Qed.

Lemma of_state_block s : st_ok s -> zlen (of_state s) = 16 /\ bytes_ok (of_state s).
Proof.
  split_state s. intros (? & ? & ? & ?). columns. split; [done|].
  unfold bytes_ok. cbn. by repeat (constructor; [done|]).
Qed.

Lemma to_of_state s : to_state (columns 4 (of_state s)) 0 = s.
Proof. by split_state s. Qed.

Definition keys_at (k : list Z) (kp : Z) (ns : list Z) (rks : list state) : Prop :=
  Forall2 (fun n rk => has_key k (kp + n * N_COLS) rk /\ st_ok rk) ns rks.

Lemma keys_ok k kp ns rks : keys_at k kp ns rks -> Forall st_ok rks.
Proof. induction 1 as [|n rk ns rks [_ H] _ IH]; constructor; done. Qed.

Lemma fwd_rounds_ok k kp ns rks s :
  keys_at k kp ns rks -> st_ok s -> rounds fwd_rnd k kp (wstate s) ns = wstate (foldl full_round s rks).
Proof.
  intros H. revert s. unfold rounds. induction H as [|n rk ns rks [Hk Ho] _ IH]; intros s Hs; [done|].
  cbn [foldl]. rewrite (fwd_round_ok s rk) by done. apply IH. by apply full_round_ok.
Qed.

Lemma inv_round_st s k : st_ok s -> st_ok k -> st_ok (inv_round s k).
Proof.
  intros. apply add_key_ok; [|done]. apply state_map_ok; [apply imix_ok|].
  apply state_map_ok; [apply isub_ok|]. by apply inv_shift_ok.
Qed.

Lemma inv_rounds_ok k kp ns rks s :
  keys_at k kp ns rks -> st_ok s ->
  rounds inv_rnd k kp (wstate s) ns = wstate (foldl inv_round s rks) /\ st_ok (foldl inv_round s rks).
Proof.
  intros H. revert s. unfold rounds. induction H as [|n rk ns rks [Hk Ho] _ IH]; intros s Hs; [done|].
  cbn [foldl]. rewrite (inv_round_ok s rk) by done. apply IH. by apply inv_round_st.
Qed.

(** A context with the round keys [rks] of [Nr] rounds. *)
Definition has_keys (cx : aes_ctx) (Nr : nat) (rks : nat -> state) : Prop :=
  inf_b0 cx = 16 * Z.of_nat Nr /\
  forall n, (n <= Nr)%nat -> has_key (ks cx) (4 * Z.of_nat n) (rks n) /\ st_ok (rks n).

Lemma keys_range cx Nr rks kp a b len :
  has_keys cx Nr rks -> (a + len <= S Nr)%nat -> kp + 4 * b = 4 * Z.of_nat a ->
  keys_at (ks cx) kp ((fun i => b + Z.of_nat i) <$> seq 0 len) (rks <$> seq a len).
Proof.
  intros [_ H] Hl E. revert a b Hl E. induction len as [|len IH]; intros a b Hl E; [constructor|].
  cbn [seq fmap list_fmap]. constructor.
  - replace (kp + (b + Z.of_nat 0) * N_COLS) with (4 * Z.of_nat a) by (unfold N_COLS; lia). apply H. lia.
  - rewrite <- (fmap_S_seq 0 len), <- list_fmap_compose.
    erewrite list_fmap_ext; [apply (IH (S a) (b + 1)); lia|]. intros i x _. cbn. lia.
Qed.

(** The number of rounds of the three key lengths. *)
Definition aes_rounds (Nr : nat) : Prop := Nr = 10%nat \/ Nr = 12%nat \/ Nr = 14%nat.

(** The [switch] for [n] rounds. *)
Ltac set_rounds n b14 b12 b10 :=
  change (16 * Z.of_nat n =? 14 * 16) with b14; change (16 * Z.of_nat n =? 12 * 16) with b12;
  change (16 * Z.of_nat n =? 10 * 16) with b10; cbn [orb].

Lemma encrypt_rounds cx Nr rks inp :
  has_keys cx Nr rks -> aes_rounds Nr -> zlen inp = 16 -> bytes_ok inp ->
  aes_encrypt inp cx =
  of_state (last_round (foldl full_round (AddRoundKey (to_state (columns 4 inp) 0) (rks 0%nat))
                              (rks <$> seq 1 (Nr - 1))) (rks Nr)).
Proof.
  intros K HN Hl Hb. destruct (state_words inp Hl) as (s & Es & _ & Ew & Hs). specialize (Hs Hb).
  rewrite Es. unfold aes_encrypt.
  destruct (proj2 K 0%nat ltac:(lia)) as [K0 O0].
  rewrite (state_in_ok inp (ks cx) (rks 0%nat) s) by done.
  assert (S0 : st_ok (AddRoundKey s (rks 0%nat))) by by apply add_key_ok.
  assert (R : forall kp a b len ns s, (a + len <= S Nr)%nat -> kp + 4 * b = 4 * Z.of_nat a ->
    (fun i => b + Z.of_nat i) <$> seq 0 len = ns -> st_ok s ->
    rounds fwd_rnd (ks cx) kp (wstate s) ns = wstate (foldl full_round s (rks <$> seq a len)) /\ st_ok (foldl full_round s (rks <$> seq a len))).
  { intros kp a b len ns s' H1 H2 <- H3. pose proof (keys_range cx Nr rks kp a b len K H1 H2) as Kr.
    split; [by apply fwd_rounds_ok|]. apply rounds_ok; [done|]. by apply keys_ok in Kr. }
  assert (L : forall kp s, kp + 40 = 4 * Z.of_nat Nr -> st_ok s ->
    state_out (rounds fwd_lrnd (ks cx) kp (wstate s) [10]) = of_state (last_round s (rks Nr))).
  { intros kp s' E H. unfold rounds. cbn [foldl].
    replace (kp + 10 * N_COLS) with (4 * Z.of_nat Nr) by (unfold N_COLS; lia).
    destruct (proj2 K Nr ltac:(lia)) as [KN ON]. rewrite (fwd_last_ok _ (rks Nr)) by done.
    apply state_out_ok. unfold last_round. apply add_key_ok; [|done]. by apply shift_ok, sub_ok. }
  rewrite (proj1 K). set (s0 := AddRoundKey s _) in *. clearbody s0.
  destruct HN as [->|[-> | ->]].
  - set_rounds 10%nat false false true.
    destruct (R 0 1%nat 1 9%nat [1; 2; 3; 4; 5; 6; 7; 8; 9] s0 ltac:(lia) ltac:(lia) eq_refl S0) as [-> H1]. by apply L.
  - set_rounds 12%nat false true false. change (seq 1 (12 - 1)) with (seq 1 2 ++ seq 3 9).
    rewrite fmap_app, foldl_app.
    destruct (R 0 1%nat 1 2%nat [1; 2] s0 ltac:(lia) ltac:(lia) eq_refl S0) as [-> H1].
    destruct (R (0 + 2 * N_COLS) 3%nat 1 9%nat [1; 2; 3; 4; 5; 6; 7; 8; 9] _ ltac:(lia) ltac:(unfold N_COLS; lia) eq_refl H1) as [-> H2].
    by apply L.
  - set_rounds 14%nat true false false. change (seq 1 (14 - 1)) with (seq 1 2 ++ seq 3 2 ++ seq 5 9).
    rewrite !fmap_app, !foldl_app.
    destruct (R 0 1%nat 1 2%nat [1; 2] s0 ltac:(lia) ltac:(lia) eq_refl S0) as [-> H1].
    destruct (R (2 * N_COLS) 3%nat 1 2%nat [1; 2] _ ltac:(lia) ltac:(unfold N_COLS; lia) eq_refl H1) as [-> H2].
    destruct (R (2 * N_COLS + 2 * N_COLS) 5%nat 1 9%nat [1; 2; 3; 4; 5; 6; 7; 8; 9] _ ltac:(lia) ltac:(unfold N_COLS; lia) eq_refl H2)
      as [-> H3].
    by apply L.
Qed.

Lemma decrypt_rounds cx Nr dks inp :
  has_keys cx Nr dks -> aes_rounds Nr -> zlen inp = 16 -> bytes_ok inp ->
  aes_decrypt inp cx =
  of_state (inv_last_round (foldl inv_round (AddRoundKey (to_state (columns 4 inp) 0) (dks 0%nat))
                                  (dks <$> seq 1 (Nr - 1))) (dks Nr)).
Proof.
  intros K HN Hl Hb. destruct (state_words inp Hl) as (s & Es & _ & Ew & Hs). specialize (Hs Hb).
  rewrite Es. unfold aes_decrypt.
  destruct (proj2 K 0%nat ltac:(lia)) as [K0 O0].
  rewrite (state_in_ok inp (ks cx) (dks 0%nat) s) by done.
  assert (S0 : st_ok (AddRoundKey s (dks 0%nat))) by by apply add_key_ok.
  assert (R : forall kp a b len ns s, (a + len <= S Nr)%nat -> kp + 4 * b = 4 * Z.of_nat a ->
    (fun i => b + Z.of_nat i) <$> seq 0 len = ns -> st_ok s ->
    rounds inv_rnd (ks cx) kp (wstate s) ns =
    wstate (foldl inv_round s (dks <$> seq a len)) /\ st_ok (foldl inv_round s (dks <$> seq a len))).
  { intros kp a b len ns s' H1 H2 <- H3. apply inv_rounds_ok; [|done].
    by apply (keys_range cx Nr dks kp a b len K H1 H2). }
  assert (Hkp : Z.shiftr (inf_b0 cx) 2 = 4 * Z.of_nat Nr).
  { rewrite (proj1 K), Z.shiftr_div_pow2 by lia. change (2 ^ 2) with 4.
    replace (16 * Z.of_nat Nr) with (4 * Z.of_nat Nr * 4) by lia. by apply Z.div_mul. }
  assert (L : forall s, st_ok s ->
    state_out (rounds inv_lrnd (ks cx) (4 * Z.of_nat Nr) (wstate s) [0]) = of_state (inv_last_round s (dks Nr))).
  { intros s' H. unfold rounds. cbn [foldl].
    replace (4 * Z.of_nat Nr + 0 * N_COLS) with (4 * Z.of_nat Nr) by lia.
    destruct (proj2 K Nr ltac:(lia)) as [KN ON]. rewrite (inv_last_ok _ (dks Nr)) by done.
    apply state_out_ok. unfold inv_last_round. apply add_key_ok; [|done].
    apply state_map_ok; [apply isub_ok|]. by apply inv_shift_ok. }
  rewrite Hkp, (proj1 K). set (s0 := AddRoundKey s _) in *. clearbody s0.
  destruct HN as [->|[-> | ->]].
  - set_rounds 10%nat false false true.
    destruct (R (4 * Z.of_nat 10) 1%nat (-9) 9%nat [-9; -8; -7; -6; -5; -4; -3; -2; -1]
      s0 ltac:(lia) ltac:(lia) eq_refl S0) as [-> H1]. by apply L.
  - set_rounds 12%nat false true false. change (seq 1 (12 - 1)) with (seq 1 2 ++ seq 3 9).
    rewrite fmap_app, foldl_app.
    destruct (R (4 * Z.of_nat 12) 1%nat (-11) 2%nat [-11; -10] s0 ltac:(lia) ltac:(lia) eq_refl S0) as [-> H1].
    destruct (R (4 * Z.of_nat 12) 3%nat (-9) 9%nat [-9; -8; -7; -6; -5; -4; -3; -2; -1]
      _ ltac:(lia) ltac:(lia) eq_refl H1) as [-> H2]. by apply L.
  - set_rounds 14%nat true false false. change (seq 1 (14 - 1)) with (seq 1 2 ++ seq 3 2 ++ seq 5 9).
    rewrite !fmap_app, !foldl_app.
    destruct (R (4 * Z.of_nat 14) 1%nat (-13) 2%nat [-13; -12] s0 ltac:(lia) ltac:(lia) eq_refl S0) as [-> H1].
    destruct (R (4 * Z.of_nat 14) 3%nat (-11) 2%nat [-11; -10] _ ltac:(lia) ltac:(lia) eq_refl H1) as [-> H2].
    destruct (R (4 * Z.of_nat 14) 5%nat (-9) 9%nat [-9; -8; -7; -6; -5; -4; -3; -2; -1]
      _ ltac:(lia) ltac:(lia) eq_refl H2) as [-> H3]. by apply L.
Qed.

(** The decryption keys of the round keys [rks]. *)
Definition inverse_keys (Nr : nat) (rks : nat -> state) (n : nat) : state :=
  if (n =? 0)%nat || (n =? Nr)%nat then rks (Nr - n)%nat else state_map imix (rks (Nr - n)%nat).

Lemma inverse_keys_seq Nr rks :
  (1 <= Nr)%nat -> inverse_keys Nr rks <$> seq 1 (Nr - 1) = state_map imix <$> reverse (rks <$> seq 1 (Nr - 1)).
Proof.
  intros HN. apply list_eq. intros i. rewrite !list_lookup_fmap.
  destruct (decide (i < Nr - 1)%nat) as [Hi|Hi].
  - rewrite lookup_seq_lt by done. rewrite reverse_lookup by (rewrite length_fmap, length_seq; lia).
    rewrite length_fmap, length_seq, list_lookup_fmap, lookup_seq_lt by lia. cbn [fmap option_fmap option_map].
    unfold inverse_keys. destruct (1 + i =? 0)%nat eqn:E1; [apply Nat.eqb_eq in E1; lia|].
    destruct (1 + i =? Nr)%nat eqn:E2; [apply Nat.eqb_eq in E2; lia|]. cbn [orb].
    by replace (1 + (Nr - 1 - S i))%nat with (Nr - (1 + i))%nat by lia.
  - rewrite lookup_seq_ge by lia. cbn. rewrite lookup_ge_None_2; [done|].
    rewrite length_reverse, length_fmap, length_seq. lia.
Qed.

(** Decryption with the inverse keys undoes encryption. *)
Lemma decrypt_encrypt ecx dcx Nr rks inp :
  has_keys ecx Nr rks -> has_keys dcx Nr (inverse_keys Nr rks) -> aes_rounds Nr ->
  zlen inp = 16 -> bytes_ok inp -> aes_decrypt (aes_encrypt inp ecx) dcx = inp.
Proof.
  intros Ke Kd HN Hl Hb. assert (1 <= Nr)%nat by (destruct HN as [->|[-> | ->]]; lia).
  assert (Hk : forall n, (n <= Nr)%nat -> st_ok (rks n)) by (intros; by apply (proj2 Ke)).
  rewrite (encrypt_rounds _ _ _ _ Ke HN Hl Hb).
  destruct (state_words inp Hl) as (s & Es & Eo & _ & Hs). specialize (Hs Hb). rewrite Es.
  assert (Hks : Forall st_ok (rks <$> seq 1 (Nr - 1))).
  { apply list.Forall_forall. intros k Hin. apply list_elem_of_fmap in Hin as (n & -> & Hn).
    apply elem_of_seq in Hn. apply Hk. lia. }
  assert (H0 : st_ok (AddRoundKey s (rks 0%nat))) by (apply add_key_ok; auto with lia).
  set (t := foldl full_round _ _). assert (Ht : st_ok t) by by apply rounds_ok.
  assert (Hlast : st_ok (last_round t (rks Nr))).
  { apply add_key_ok; [by apply shift_ok, sub_ok|]. by apply Hk. }
  destruct (of_state_block _ Hlast) as [Hl2 Hb2].
  rewrite (decrypt_rounds _ _ _ _ Kd HN Hl2 Hb2), to_of_state.
  unfold last_round. replace (inverse_keys Nr rks 0) with (rks Nr) by (cbn; by rewrite Nat.sub_0_r).
  rewrite add_key_twice, inverse_keys_seq by done. unfold t. rewrite inv_rounds by done.
  unfold inv_last_round. rewrite inv_shift_sub by done.
  unfold inverse_keys. rewrite Nat.eqb_refl, orb_true_r, Nat.sub_diag.
  by rewrite add_key_twice.
Qed.
