(* ===== verification/AesKeys.v ===== *)
(** * The key schedules of AES (theorems about Aes.v)

    The words that the schedules store are those of the key expansion of FIPS 197,
    for decryption in reverse order with the middle rounds transformed; with
    AesThms.v, encryption is that of the standard and decryption its inverse. *)

From Stdlib Require Import Btauto.
From stdpp Require Import list.
From S2P Require Import Prelude CTypes Aes AesThms.
From S2P Require Cipher.

#[local] Open Scope word_scope.

(** ** Key schedules *)

(** Words of bytes. *)
Definition is_word (x : Z) : Prop := exists c, col_ok c /\ x = W c.

Lemma is_word_xor x y : is_word x -> is_word y -> is_word (x ^^ y).
Proof.
  intros (c & Hc & ->) (d & Hd & ->). exists (col_xor c d). split; [by apply col_xor_ok|by apply W_xor].
Qed.

Lemma ff_W c : col_ok c -> ff (W c) = W (imix c).
Proof.
  intros H. destruct c as [[[b0 b1] b2] b3]. rewrite <- im_entries by done. unfold ff, inv_mcol.
  destruct (bval_W _ _ _ _ H) as (? & ? & ? & ?). by apply four_entries.
Qed.

Lemma ls_box_3 c : col_ok c -> ls_box (W c) 3 = W (SubWord (RotWord c)).
Proof.
  intros H. destruct c as [[[b0 b1] b2] b3]. unfold ls_box.
  destruct (bval_W _ _ _ _ H) as (? & ? & ? & ?). columns.
  erewrite four_entries by (unfold vf1; cbn; eassumption). by apply fl_entries.
Qed.

Lemma ls_box_0 c : col_ok c -> ls_box (W c) 0 = W (SubWord c).
Proof.
  intros H. destruct c as [[[b0 b1] b2] b3]. unfold ls_box.
  destruct (bval_W _ _ _ _ H) as (? & ? & ? & ?). rewrite <- fl_entries by done.
  by apply four_entries.
Qed.

Lemma rot_ok c : col_ok c -> col_ok (RotWord c).
Proof. destruct c as [[[b0 b1] b2] b3]. intros (? & ? & ? & ?). done. Qed.

Lemma ff_xor x y : is_word x -> is_word y -> ff (x ^^ y) = ff x ^^ ff y.
Proof.
  intros (c & Hc & ->) (d & Hd & ->).
  rewrite W_xor, !ff_W, imix_xor, W_xor by auto using col_xor_ok, imix_ok. done.
Qed.

Lemma ls_box_word x i : i = 3 \/ i = 0 -> is_word x -> is_word (ls_box x i).
Proof.
  intros [-> | ->] (c & Hc & ->); [exists (SubWord (RotWord c))|exists (SubWord c)]; split;
    auto using subword_ok, rot_ok, ls_box_3, ls_box_0.
Qed.

Lemma rcon_ok i : (1 <= i <= 10)%nat -> col_ok (Rcon i) /\ rc (Z.of_nat i - 1) = W (Rcon i).
Proof.
  intros Hi. assert (H : forallb (fun i => (0 <=? xpow (i - 1)) && (xpow (i - 1) <? 256) &&
    (rc (Z.of_nat i - 1) =? W (Rcon i))) (seq 1 10) = true) by (vm_compute; reflexivity).
  rewrite forallb_forall in H. specialize (H i ltac:(apply in_seq; lia)).
  rewrite !andb_true_iff in H. destruct H as [[H1 H2] H3].
  split; [|lia]. unfold Rcon, col_ok, is_byte. lia.
Qed.

(** *** Arrays that are filled *)

(** The places [pl j] of the words [j] below [N]. *)
Definition place_ok (pl : Z -> Z) (N : Z) : Prop :=
  forall i j, 0 <= i < N -> 0 <= j < N -> 0 <= pl i < 60 /\ (pl i = pl j -> i = j).

Lemma vid_ok N : N <= 60 -> place_ok vid N.
Proof. intros HN i j Hi Hj. unfold vid. lia. Qed.

Lemma v_ok m : m <= 14 -> place_ok (v (4 * m)) (4 * m + 4).
Proof.
  intros Hm i j Hi Hj. unfold v.
  rewrite (Z.land_ones _ 2 ltac:(lia) : Z.land i 3 = _), (Z.land_ones _ 2 ltac:(lia) : Z.land j 3 = _).
  change (2 ^ 2) with 4. Z.div_mod_to_equations. lia.
Qed.

(** The words below [n] are stored. *)
Definition agree (pl : Z -> Z) (k : list Z) (d : Z -> Z) (n : Z) : Prop :=
  zlen k = 60 /\ forall j, 0 <= j < n -> kget k (pl j) = d j.

Lemma agree_put pl N k d n x :
  place_ok pl N -> 0 <= n < N -> agree pl k d n -> x = d n -> agree pl (kput k (pl n) x) d (n + 1).
Proof.
  intros Hp Hn [Hl H] ->. unfold agree, kput, kget, znth, zlen in *. rewrite length_insert. split; [done|].
  intros j Hj. destruct (Hp n n Hn Hn) as [Hr _]. destruct (Hp j j ltac:(lia) ltac:(lia)) as [Hr2 _].
  destruct (decide (j = n)) as [->|Hne].
  - rewrite nth_lookup, list_lookup_insert_eq by lia. done.
  - rewrite nth_lookup, list_lookup_insert_ne, <- nth_lookup; [apply H; lia|].
    intros E. apply Hne. apply Hp; lia.
Qed.

Lemma agree_eq pl k d n m : n = m -> agree pl k d n -> agree pl k d m.
Proof. by intros ->. Qed.

Lemma agree_puts pl N xs : forall k d n,
  place_ok pl N -> 0 <= n -> n + zlen xs <= N -> agree pl k d n ->
  (forall m x, xs !! m = Some x -> x = d (n + Z.of_nat m)) -> agree pl (kputs pl k n xs) d (n + zlen xs).
Proof.
  induction xs as [|x xs IH]; intros k d n Hp Hn HN H Hx.
  - cbn. apply (agree_eq _ _ _ n); [rewrite zlen_nil; lia|done].
  - rewrite zlen_cons in *. pose proof (zlen_nonneg xs). cbn [kputs].
    apply (agree_eq _ _ _ (n + 1 + zlen xs)); [lia|]. apply IH; [done|lia|lia| |].
    + apply (agree_put _ N); [done|lia|done|]. rewrite (Hx 0%nat x eq_refl). f_equal. lia.
    + intros m y Hy. rewrite (Hx (S m) y Hy). f_equal. lia.
Qed.

(** [chain] over the places from [b + a] on; [s] runs through the values [S]. *)
Fixpoint consec (a : Z) (js : list Z) : Prop :=
  match js with [] => True | j :: js => j = a /\ consec (a + 1) js end.

Lemma chain_fold g n m b N d S js : forall a k s,
  place_ok (v n) N -> 0 <= b + a -> 0 < m -> b + a + zlen js + m <= N -> consec a js ->
  agree (v n) k d (b + a + m) -> s = S a ->
  (forall j, a <= j < a + zlen js -> S j ^^ d (b + j) = S (j + 1) /\ g (S (j + 1)) = d (b + j + m)) ->
  agree (v n) (foldl (fun st j => chain g n m (b + j) st) (k, s) js).1 d (b + a + zlen js + m).
Proof.
  induction js as [|j js IH]; intros a k s Hp Ha Hm HN Hc H -> HS.
  - by rewrite zlen_nil, !Z.add_0_r.
  - destruct Hc as [-> Hc]. rewrite zlen_cons in *. pose proof (zlen_nonneg js).
    cbn [foldl]. unfold chain at 2. destruct (HS a ltac:(lia)) as [E1 E2].
    rewrite (proj2 H (b + a)) by lia. rewrite E1, E2.
    apply (agree_eq _ _ _ (b + (a + 1) + zlen js + m)); [lia|]. apply IH; try done; try lia.
    + apply (agree_eq _ _ _ (b + a + m + 1)); [lia|]. apply (agree_put _ N); try done; lia.
    + intros j Hj. apply HS. lia.
Qed.

(** *** The words of the expansion *)

Lemma expansion_length Nk n key : length (KeyExpansion Nk n key) = (length key + n)%nat.
Proof. induction n as [|n IH]; [cbn; lia|]. cbn. rewrite length_app, IH. cbn. lia. Qed.

Lemma expansion_prefix Nk n m key j :
  (j < length key + n)%nat -> nth j (KeyExpansion Nk (n + m) key) no_col = nth j (KeyExpansion Nk n key) no_col.
Proof.
  intros Hj. induction m as [|m IH]; [by rewrite Nat.add_0_r|].
  rewrite Nat.add_succ_r. cbn. rewrite app_nth1 by (rewrite expansion_length; lia). done.
Qed.

Lemma expansion_next Nk n key i :
  length key = Nk -> (1 <= Nk <= i)%nat -> (i < Nk + n)%nat ->
  let w := KeyExpansion Nk n key in
  nth i w no_col = col_xor (nth (i - Nk) w no_col) (temp_word Nk i (nth (i - 1) w no_col)).
Proof.
  intros Hk Hi Hn w. unfold w.
  replace n with (S (i - Nk) + (n - S (i - Nk)))%nat by lia. set (m := (n - _)%nat).
  rewrite expansion_prefix by lia.
  assert (E : forall j, (j < i)%nat -> nth j (KeyExpansion Nk (S (i - Nk) + m) key) no_col =
                              nth j (KeyExpansion Nk (i - Nk) key) no_col).
  { intros j Hj. replace (S (i - Nk) + m)%nat with (i - Nk + S m)%nat by lia. apply expansion_prefix. lia. }
  rewrite !E by lia. cbn. rewrite app_nth2 by (rewrite expansion_length; lia).
  rewrite expansion_length. replace (i - (length key + (i - Nk)))%nat with 0%nat by lia. cbn [nth].
  unfold next_word. rewrite expansion_length. by replace (length key + (i - Nk))%nat with i by lia.
Qed.

Lemma temp_ok Nk i c : (1 <= i / Nk <= 10)%nat -> col_ok c -> col_ok (temp_word Nk i c).
Proof.
  intros Hi Hc. unfold temp_word. destruct (_ =? 0)%nat.
  - apply col_xor_ok; [by apply subword_ok, rot_ok|]. by apply rcon_ok.
  - destruct (_ && _); [by apply subword_ok|done].
Qed.

(** Enough for [Nk + 6] rounds. *)
Definition key_words (Nk : nat) (key : list Z) : list col :=
  KeyExpansion Nk (4 * (Nk + 7) - Nk) (columns Nk key).

Lemma columns_length n l : length (columns n l) = n.
Proof. revert l. induction n as [|n IH]; intros l; cbn; [done|by rewrite IH]. Qed.

Lemma columns_nth n : forall l j,
  (j < n)%nat -> nth j (columns n l) no_col =
  (znth l (4 * Z.of_nat j), znth l (4 * Z.of_nat j + 1), znth l (4 * Z.of_nat j + 2), znth l (4 * Z.of_nat j + 3)).
Proof.
  induction n as [|n IH]; intros l j Hj; [lia|]. destruct j as [|j]; [done|].
  cbn [columns nth]. rewrite IH by lia. rewrite !znth_zdrop by lia.
  repeat apply (f_equal2 pair); f_equal; lia.
Qed.

Lemma znth_is_byte l j : bytes_ok l -> is_byte (znth l j).
Proof.
  intros H. unfold znth. destruct (nth_in_or_default (Z.to_nat j) l 0) as [Hin| ->]; [|unfold is_byte; lia].
  unfold bytes_ok in H. rewrite list.Forall_forall in H. apply H. by apply list_elem_of_In.
Qed.

(** The key lengths. *)
Definition key_len_ok (Nk : nat) : Prop := Nk = 4%nat \/ Nk = 6%nat \/ Nk = 8%nat.

Section Words.
Context (Nk : nat) (key : list Z) (HNk : key_len_ok Nk) (Hb : bytes_ok key).

Definition wd (j : Z) : col := nth (Z.to_nat j) (key_words Nk key) no_col.
Definition f (j : Z) : Z := W (wd j).
Let N : Z := 4 * (Z.of_nat Nk + 7).

Lemma wd_first j : 0 <= j < Z.of_nat Nk ->
  wd j = (znth key (4 * j), znth key (4 * j + 1), znth key (4 * j + 2), znth key (4 * j + 3)).
Proof.
  intros Hj. unfold wd, key_words. replace (4 * (Nk + 7) - Nk)%nat with (0 + (4 * (Nk + 7) - Nk))%nat by lia.
  rewrite expansion_prefix by (rewrite columns_length; lia). cbn [KeyExpansion].
  rewrite columns_nth by lia. by rewrite Z2Nat.id by lia.
Qed.

Lemma wd_next j : Z.of_nat Nk <= j < N ->
  wd j = col_xor (wd (j - Z.of_nat Nk)) (temp_word Nk (Z.to_nat j) (wd (j - 1))).
Proof.
  intros Hj. unfold wd, key_words.
  rewrite (expansion_next Nk _ (columns Nk key) (Z.to_nat j)) at 1
    by (rewrite ?columns_length; unfold N in *; destruct HNk as [->|[-> | ->]]; lia).
  by replace (Z.to_nat (j - Z.of_nat Nk)) with (Z.to_nat j - Nk)%nat by lia;
    replace (Z.to_nat (j - 1)) with (Z.to_nat j - 1)%nat by lia.
Qed.

Lemma wd_ok j : 0 <= j < N -> col_ok (wd j).
Proof.
  intros Hj. rewrite <- (Z2Nat.id j) in * by lia. set (n := Z.to_nat j) in *. clearbody n.
  revert Hj. induction n as [n IH] using lt_wf_ind. intros Hj.
  destruct (decide (Z.of_nat n < Z.of_nat Nk)) as [Hlt|Hge].
  - rewrite wd_first by lia. by repeat split; apply znth_is_byte.
  - assert (1 <= Nk)%nat by (destruct HNk as [->|[-> | ->]]; lia).
    rewrite wd_next by lia. apply col_xor_ok.
    + replace (Z.of_nat n - Z.of_nat Nk) with (Z.of_nat (n - Nk)) by lia. apply IH; lia.
    + rewrite Nat2Z.id. apply temp_ok.
      * unfold N in Hj. destruct HNk as [->|[-> | ->]]; split;
          first [apply Nat.div_le_lower_bound; lia | apply Nat.lt_succ_r, Nat.Div0.div_lt_upper_bound; lia].
      * replace (Z.of_nat n - 1) with (Z.of_nat (n - 1)) by lia. apply IH; lia.
Qed.

Lemma f_word j : 0 <= j < N -> is_word (f j).
Proof. intros Hj. exists (wd j). split; [by apply wd_ok|done]. Qed.

(** The recurrences on words. *)
Lemma f_key j : 0 <= j < Z.of_nat Nk -> f j = word_in key j.
Proof. intros Hj. unfold f. by rewrite wd_first. Qed.

Lemma f_rot q :
  0 <= q -> Z.of_nat Nk * (q + 1) < N ->
  f (Z.of_nat Nk * (q + 1)) =
  f (Z.of_nat Nk * q) ^^ (ls_box (f (Z.of_nat Nk * (q + 1) - 1)) 3 ^^ rc q) /\ is_word (rc q).
Proof.
  intros Hq HN.
  assert (Hn : (1 <= Nk)%nat) by (destruct HNk as [->|[-> | ->]]; lia).
  assert (Hd : (Z.to_nat (Z.of_nat Nk * (q + 1)) / Nk)%nat = Z.to_nat (q + 1)).
  { rewrite Z2Nat.inj_mul, Nat2Z.id, Nat.mul_comm by lia. apply Nat.div_mul. lia. }
  assert (Hm : (Z.to_nat (Z.of_nat Nk * (q + 1)) mod Nk)%nat = 0%nat).
  { rewrite Z2Nat.inj_mul, Nat2Z.id, Nat.mul_comm by lia. apply Nat.Div0.mod_mul. }
  assert (Hq9 : 0 <= q <= 9) by (unfold N in HN; destruct HNk as [->|[-> | ->]]; lia).
  destruct (rcon_ok (Z.to_nat (q + 1)) ltac:(lia)) as [Hr Er].
  replace (Z.of_nat (Z.to_nat (q + 1)) - 1) with q in Er by lia.
  assert (Ht : col_ok (wd (Z.of_nat Nk * (q + 1) - 1))) by (apply wd_ok; lia).
  split; [|by exists (Rcon (Z.to_nat (q + 1)))].
  unfold f. rewrite wd_next by lia. unfold temp_word. rewrite Hd, Hm. cbn [Nat.eqb].
  rewrite Er, ls_box_3 by done.
  replace (Z.of_nat Nk * (q + 1) - Z.of_nat Nk) with (Z.of_nat Nk * q) by lia.
  rewrite <- !W_xor; [done| | | |]; repeat first [apply col_xor_ok | apply subword_ok, rot_ok | apply wd_ok]; try done; lia.
Qed.

Lemma f_plain j :
  Z.of_nat Nk <= j < N -> j mod Z.of_nat Nk <> 0 -> (Nk = 8%nat -> j mod 8 <> 4) ->
  f j = f (j - Z.of_nat Nk) ^^ f (j - 1).
Proof.
  intros Hj H1 H2. assert (1 <= Nk)%nat by (destruct HNk as [->|[-> | ->]]; lia).
  unfold f. rewrite W_xor by (apply wd_ok; lia). rewrite wd_next by lia. do 2 f_equal. unfold temp_word.
  destruct (_ =? 0)%nat eqn:E.
  { apply Nat.eqb_eq in E. exfalso. apply H1. rewrite <- (Z2Nat.id j) by lia. rewrite <- Nat2Z.inj_mod. lia. }
  destruct HNk as [->|[-> | ->]]; [done|done|]. cbn [Nat.ltb Nat.leb andb].
  destruct (_ =? 4)%nat eqn:E2; [|done]. apply Nat.eqb_eq in E2. exfalso. apply H2; [done|].
  rewrite <- (Z2Nat.id j) by lia. change 8 with (Z.of_nat 8). rewrite <- Nat2Z.inj_mod. lia.
Qed.

Lemma f_sub j :
  Nk = 8%nat -> 8 <= j < N -> j mod 8 = 4 -> f j = f (j - 8) ^^ ls_box (f (j - 1)) 0.
Proof.
  intros E8 Hj Hm. unfold f. rewrite wd_next by lia. rewrite ls_box_0 by (apply wd_ok; lia).
  assert (Em : (Z.to_nat j mod 8)%nat = 4%nat).
  { apply Nat2Z.inj. rewrite Nat2Z.inj_mod, Z2Nat.id by lia. done. }
  unfold temp_word. rewrite E8, Em. cbn [Nat.ltb Nat.leb andb Nat.eqb].
  rewrite <- W_xor by (try apply subword_ok; apply wd_ok; lia). done.
Qed.
End Words.
#[local] Opaque f wd key_words ff.

(** *** Filling in steps *)

Lemma steps {A} (step : Z -> A -> A) (P : Z -> A -> Prop) js : forall a st,
  consec a js -> P a st -> (forall i st, a <= i < a + zlen js -> P i st -> P (i + 1) (step i st)) ->
  P (a + zlen js) (foldl (fun st i => step i st) st js).
Proof.
  induction js as [|j js IH]; intros a st Hc H Hs.
  - by rewrite zlen_nil, Z.add_0_r.
  - destruct Hc as [-> Hc]. rewrite zlen_cons in *. pose proof (zlen_nonneg js).
    replace (a + (1 + zlen js)) with (a + 1 + zlen js) by lia. cbn [foldl]. apply IH; [done| |].
    + apply Hs; [lia|done].
    + intros i st' Hi. apply Hs. lia.
Qed.

(** An array with the words [xs] put where they belong. *)
Ltac puts N :=
  eapply agree_eq; [|eapply (agree_puts _ N); [| | |eassumption|];
    [first [apply vid_ok; lia | apply (v_ok 10); lia | apply (v_ok 12); lia | apply (v_ok 14); lia]
    |lia|zl; lia|]];
  [zl; lia|
   intros m x Hm; repeat (destruct m as [|m]; [injection Hm as <-; cbn [Z.of_nat Pos.of_succ_nat Pos.succ];
                          f_equal; lia|cbn [lookup list_lookup] in Hm]); done].

Lemma len4 : key_len_ok 4. Proof. by left. Qed.
Lemma len6 : key_len_ok 6. Proof. by right; left. Qed.
Lemma len8 : key_len_ok 8. Proof. by right; right. Qed.

(** [f j = f a ^^ f b], an equation of the recurrence. *)
Ltac plain len Hb :=
  erewrite (f_plain _ _ len Hb) by (cbn [Z.of_nat Pos.of_succ_nat Pos.succ Pos.add Nat.add]; warith);
  f_equal; f_equal; lia.

(** The word [ls_box] and [rc] make. *)
Definition rot (x i : Z) : Z := ls_box x 3 ^^ rc i.

Lemma rot_eq x i : ls_box x 3 ^^ rc i = rot x i.
Proof. done. Qed.

(** What the decryption schedules hold: the words of the middle rounds transformed. *)
Definition dec (N : Z) (F : Z -> Z) (j : Z) : Z := if (j <? 4) || (N <=? j) then F j else ff (F j).

Lemma dec_mid N F j : 4 <= j < N -> dec N F j = ff (F j).
Proof. intros Hj. unfold dec. destruct (j <? 4) eqn:E1, (N <=? j) eqn:E2; cbn [orb]; lia || done. Qed.
Lemma dec_end N F j : 0 <= j < 4 \/ N <= j -> dec N F j = F j.
Proof. intros Hj. unfold dec. destruct (j <? 4) eqn:E1, (N <=? j) eqn:E2; cbn [orb]; lia || done. Qed.

(** The words a step stores, one by one. *)
Ltac chain_steps e n :=
  let j := fresh "j" in let Hj := fresh "Hj" in
  intros j Hj; change e with n in Hj;
  assert (j = 0 \/ j = 1 \/ j = 2 \/ j = 3 \/ j = 4 \/ j = 5 \/ j = 6 \/ j = 7) as Hc by lia;
  destruct Hc as [-> | [-> | [-> | [-> | [-> | [-> | [-> | ->]]]]]]]; try (exfalso; lia);
  cbn [Z.eqb Pos.eqb Z.add Pos.add Pos.succ]; rewrite ?Z.add_0_r, <- ?Z.add_assoc; cbn [Z.add Pos.add Pos.succ].

(** The words of a key of 128 bits. *)
Record words128 (F : Z -> Z) : Prop := {
  word4 j : 0 <= j < 44 -> is_word (F j);
  next4 i : 0 <= i < 10 ->
    F (4 * i) ^^ rot (F (4 * i + 3)) i = F (4 * i + 4) /\ F (4 * i + 1) ^^ F (4 * i + 4) = F (4 * i + 5) /\
    F (4 * i + 2) ^^ F (4 * i + 5) = F (4 * i + 6) /\ F (4 * i + 3) ^^ F (4 * i + 6) = F (4 * i + 7) /\
    is_word (rot (F (4 * i + 3)) i)
}.

Lemma f_words128 key : bytes_ok key -> words128 (f 4 key).
Proof.
  intros Hb. assert (Hw : forall j, 0 <= j < 44 -> is_word (f 4 key j)).
  { intros j Hj. apply (f_word 4 key len4 Hb). cbn. lia. }
  split; [done|]. intros i Hi. destruct (f_rot 4 key len4 Hb i) as [E Hr]; [lia|cbn; lia|].
  split; [|split; [|split; [|split]]].
  - unfold rot. replace (4 * i + 4) with (Z.of_nat 4 * (i + 1)) by lia. rewrite E.
    do 3 f_equal. f_equal. lia.
  - symmetry. plain len4 Hb.
  - symmetry. plain len4 Hb.
  - symmetry. plain len4 Hb.
  - apply is_word_xor; [|done]. apply ls_box_word; [by left|]. apply Hw. lia.
Qed.

Section Key128.
Context (F : Z -> Z) (HF : words128 F).

Definition ke4_at (i : Z) (st : list Z * words4) : Prop :=
  exists k, st = (k, (F (4 * i), F (4 * i + 1), F (4 * i + 2), F (4 * i + 3))) /\ agree vid k F (4 * i + 4).

Lemma ke4_ok i st : 0 <= i < 10 -> ke4_at i st -> ke4_at (i + 1) (ke4 i st).
Proof.
  intros Hi (k & -> & H). destruct (next4 F HF i Hi) as (E0 & E1 & E2 & E3 & _). unfold rot in E0.
  unfold ke4. rewrite E0, E1, E2, E3. eexists. split.
  - replace (4 * (i + 1)) with (4 * i + 4) by lia. rewrite <- !Z.add_assoc. reflexivity.
  - puts 60.
Qed.

(** The words of [key] are the first ones. *)
Definition key4 (key : list Z) : Prop := forall j, 0 <= j < 4 -> word_in key j = F j.

Lemma encrypt_key128 key cx :
  key4 key -> zlen (ks cx) = 60 -> agree vid (ks (aes_encrypt_key128 key cx)) F 44.
Proof.
  intros Hk Hl. unfold aes_encrypt_key128. rewrite !Hk by lia.
  assert (H : ke4_at 0 (kputs vid (ks cx) 0 [F 0; F 1; F 2; F 3], (F 0, F 1, F 2, F 3))).
  { eexists. split; [reflexivity|]. assert (agree vid (ks cx) F 0) by (split; [done|lia]). puts 60. }
  apply (steps ke4 ke4_at [0; 1; 2; 3; 4; 5; 6; 7; 8; 9]) in H as (k & E & A);
    [|done|intros i st Hi; apply ke4_ok; zl; lia].
  rewrite E. exact A.
Qed.

#[local] Abbreviation D := (dec 40 F).

(** The list [ss] before step [i]: the last word at [(i + 3) % 4], and sums of words
    at the other places. *)
Definition ss4_at (i : Z) (ss : list Z) : Prop :=
  zlen ss = 4 /\ znth ss ((i + 3) mod 4) = F (4 * i + 3) /\
  znth ss (i mod 4) = F (4 * i) ^^ F (4 * i + 1) ^^ F (4 * i + 2) ^^ F (4 * i + 3) /\
  znth ss ((i + 1) mod 4) = F (4 * i + 1) ^^ F (4 * i + 3) /\
  znth ss ((i + 2) mod 4) = F (4 * i + 2) ^^ F (4 * i + 3).

Lemma kput_len k i x : zlen (kput k i x) = zlen k.
Proof. unfold kput, zlen. by rewrite length_insert. Qed.
Lemma kput_eq k i x : 0 <= i < zlen k -> znth (kput k i x) i = x.
Proof. intros Hi. unfold kput, znth, zlen in *. by rewrite nth_lookup, list_lookup_insert_eq by lia. Qed.
Lemma kput_ne k i j x : 0 <= i -> 0 <= j -> i <> j -> znth (kput k i x) j = znth k j.
Proof.
  intros Hi Hj Hne. unfold kput, znth. rewrite !nth_lookup, list_lookup_insert_ne by lia. done.
Qed.

(** The words of step [i] through those of the step before. *)
Lemma next4_sums i :
  0 <= i < 10 ->
  let a0 := F (4 * i) in let a1 := F (4 * i + 1) in let a2 := F (4 * i + 2) in let a3 := F (4 * i + 3) in
  let t := rot a3 i in
  F (4 * i + 4) = a0 ^^ t /\ F (4 * i + 5) = a1 ^^ (a0 ^^ t) /\
  F (4 * i + 6) = a2 ^^ (a1 ^^ (a0 ^^ t)) /\ F (4 * i + 7) = a3 ^^ (a2 ^^ (a1 ^^ (a0 ^^ t))).
Proof.
  intros Hi a0 a1 a2 a3 t. destruct (next4 F HF i Hi) as (E0 & E1 & E2 & E3 & _).
  rewrite <- E3, <- E2, <- E1, <- E0. done.
Qed.

Lemma ss4_step i ss :
  0 <= i < 10 -> ss4_at i ss ->
  ss4_at (i + 1) (kput ss (i mod 4) (znth ss (i mod 4) ^^ rot (znth ss ((i + 3) mod 4)) i)).
Proof.
  intros Hi (Hl & H3 & H0 & H1 & H2). destruct (next4_sums i Hi) as (E4 & E5 & E6 & E7).
  unfold ss4_at. rewrite kput_len. split; [done|].
  replace ((i + 1 + 3) mod 4) with (i mod 4) by warith.
  replace ((i + 1 + 1) mod 4) with ((i + 2) mod 4) by warith.
  replace ((i + 1 + 2) mod 4) with ((i + 3) mod 4) by warith.
  replace (4 * (i + 1) + 3) with (4 * i + 7) by lia. replace (4 * (i + 1) + 2) with (4 * i + 6) by lia.
  replace (4 * (i + 1) + 1) with (4 * i + 5) by lia. replace (4 * (i + 1)) with (4 * i + 4) by lia.
  rewrite kput_eq by (rewrite Hl; warith). rewrite !kput_ne by warith.
  rewrite H0, H1, H2, H3, E4, E5, E6, E7. repeat split; xors.
Qed.

(** The array and the list before step [i]. *)
Definition kd4_at (i : Z) (st : list Z * list Z) : Prop :=
  exists k ss, st = (k, ss) /\ agree (v 40) k D (4 * i + 4) /\ ss4_at i ss.

Lemma kdf4_ok k : agree (v 40) k D 4 -> kd4_at 1 (kdf4 0 (k, [F 0; F 1; F 2; F 3])).
Proof.
  intros H. unfold kdf4. eexists _, _. split; [reflexivity|].
  change (znth [F 0; F 1; F 2; F 3] 0) with (F 0). change (znth [F 0; F 1; F 2; F 3] 1) with (F 1).
  change (znth [F 0; F 1; F 2; F 3] 2) with (F 2). change (znth [F 0; F 1; F 2; F 3] 3) with (F 3).
  set (ss := [_; _; _; F 3]).
  assert (H0 : ss4_at 0 ss) by
    (split; [done|]; split; [done|]; split;
     [change (F 0 ^^ F 2 ^^ F 1 ^^ F 3 = F 0 ^^ F 1 ^^ F 2 ^^ F 3); xors|by split]).
  destruct (next4 F HF 0 ltac:(lia)) as (E0 & E1 & E2 & E3 & _).
  pose proof (ss4_step 0 ss ltac:(lia) H0) as H1.
  assert (E : znth ss ((0 + 3) mod 4) = F 3) by reflexivity. clearbody ss. rewrite E in *.
  rewrite rot_eq. split; [|exact H1].
  apply (chain_fold ff 40 4 (4 * 0) 44 D (fun j => if j =? 0 then rot (F 3) 0 else F (3 + j)) [0; 1; 2; 3] 0);
    try done; [apply (v_ok 10); lia|].
  chain_steps (0 + zlen [0; 1; 2; 3]) 4; rewrite (dec_end 40), (dec_mid 40) by lia; rewrite Z.lxor_comm; auto.
Qed.

Lemma kd4_ok i st : 1 <= i < 9 -> kd4_at i st -> kd4_at (i + 1) (kd4 i st).
Proof.
  intros Hi (k & ss & -> & H & Hs). unfold kd4. eexists _, _. split; [reflexivity|].
  rewrite rot_eq.
  split; [|exact (ss4_step i ss ltac:(lia) Hs)].
  destruct (next4 F HF i ltac:(lia)) as (E0 & E1 & E2 & E3 & Ht).
  apply (agree_eq _ _ _ (4 * i + 0 + zlen [0; 1; 2; 3] + 4)); [zl; lia|].
  apply (chain_fold (fun s => s) 40 4 (4 * i) 44 D
    (fun j => if j =? 0 then ff (rot (F (4 * i + 3)) i) else D (4 * i + (3 + j)))); try done; try (zl; lia).
  - apply (v_ok 10). lia.
  - by rewrite Z.add_0_r.
  - cbn. by rewrite (proj1 (proj2 Hs)).
  - chain_steps (0 + zlen [0; 1; 2; 3]) 4; rewrite !(dec_mid 40) by lia; (split; [|done]); rewrite <- ff_xor by (done || apply (word4 F HF); lia);
      f_equal; rewrite Z.lxor_comm; auto.
Qed.

Lemma kdl4_ok st : kd4_at 9 st -> agree (v 40) (kdl4 9 st) D 44.
Proof.
  intros (k & ss & -> & H & Hs). unfold kdl4. rewrite rot_eq.
  destruct (next4_sums 9 ltac:(lia)) as (E4 & E5 & E6 & E7).
  pose proof Hs as (Hl & H3 & H0 & H1 & H2).
  change ((9 + 3) mod 4) with 0 in *. change (9 mod 4) with 1 in *.
  change ((9 + 1) mod 4) with 2 in *. change ((9 + 2) mod 4) with 3 in *.
  rewrite !kput_eq by lia. rewrite !kput_ne by lia. rewrite H0, H1, H2, H3.
  assert (place_ok (v 40) 44) by (apply (v_ok 10); lia).
  match goal with |- agree _ (kputs _ _ _ ?xs) _ _ =>
    apply (agree_eq _ _ _ (4 * 9 + 4 + zlen xs)); [done|]; apply (agree_puts (v 40) 44 xs) end; try done.
  intros m x Hm. destruct m as [|[|[|[|m]]]]; [..|done]; injection Hm as <-; rewrite (dec_end 40) by lia.
  - change (4 * 9 + 4 + Z.of_nat 0) with (4 * 9 + 4). rewrite E4. xors.
  - change (4 * 9 + 4 + Z.of_nat 1) with (4 * 9 + 5). rewrite E5. xors.
  - change (4 * 9 + 4 + Z.of_nat 2) with (4 * 9 + 6). rewrite E6. xors.
  - change (4 * 9 + 4 + Z.of_nat 3) with (4 * 9 + 7). rewrite E7. xors.
Qed.

Lemma decrypt_key128 key cx :
  key4 key -> zlen (ks cx) = 60 -> agree (v 40) (ks (aes_decrypt_key128 key cx)) D 44.
Proof.
  intros Hk Hl. unfold aes_decrypt_key128. rewrite !Hk by lia.
  assert (H : kd4_at 1 (kdf4 0 (kputs (v 40) (ks cx) 0 [F 0; F 1; F 2; F 3], [F 0; F 1; F 2; F 3]))).
  { apply kdf4_ok. assert (agree (v 40) (ks cx) D 0) by (split; [done|lia]).
    assert (place_ok (v 40) 44) by (apply (v_ok 10); lia).
    apply (agree_eq _ _ _ (0 + zlen [F 0; F 1; F 2; F 3])); [done|].
    apply (agree_puts (v 40) 44); try done.
    intros m x Hm. destruct m as [|[|[|[|m]]]]; [..|done]; injection Hm as <-; by rewrite (dec_end 40) by lia. }
  apply (steps kd4 kd4_at [1; 2; 3; 4; 5; 6; 7; 8]) in H; [|done|intros i st Hi; apply kd4_ok; zl; lia].
  apply kdl4_ok. exact H.
Qed.
End Key128.

(** The words of a key of 192 bits. *)
Record words192 (F : Z -> Z) : Prop := {
  word6 j : 0 <= j < 52 -> is_word (F j);
  next6 i : 0 <= i < 8 ->
    F (6 * i) ^^ rot (F (6 * i + 5)) i = F (6 * i + 6) /\ F (6 * i + 1) ^^ F (6 * i + 6) = F (6 * i + 7) /\
    F (6 * i + 2) ^^ F (6 * i + 7) = F (6 * i + 8) /\ F (6 * i + 3) ^^ F (6 * i + 8) = F (6 * i + 9) /\
    is_word (rot (F (6 * i + 5)) i);
  more6 i : 0 <= i < 7 ->
    F (6 * i + 4) ^^ F (6 * i + 9) = F (6 * i + 10) /\ F (6 * i + 5) ^^ F (6 * i + 10) = F (6 * i + 11)
}.

Lemma f_words192 key : bytes_ok key -> words192 (f 6 key).
Proof.
  intros Hb. assert (Hw : forall j, 0 <= j < 52 -> is_word (f 6 key j)).
  { intros j Hj. apply (f_word 6 key len6 Hb). cbn. lia. }
  split; [done| |]; intros i Hi.
  - destruct (f_rot 6 key len6 Hb i) as [E Hr]; [lia|cbn; lia|].
    split; [|split; [|split; [|split]]].
    + unfold rot. replace (6 * i + 6) with (Z.of_nat 6 * (i + 1)) by lia. rewrite E.
      do 3 f_equal. f_equal. lia.
    + symmetry. plain len6 Hb.
    + symmetry. plain len6 Hb.
    + symmetry. plain len6 Hb.
    + apply is_word_xor; [|done]. apply ls_box_word; [by left|]. apply Hw. lia.
  - split; symmetry; plain len6 Hb.
Qed.

Section Key192.
Context (F : Z -> Z) (HF : words192 F).
#[local] Abbreviation D := (dec 48 F).

Definition ss6 (i : Z) : words6 :=
  (F (6 * i), F (6 * i + 1), F (6 * i + 2), F (6 * i + 3), F (6 * i + 4), F (6 * i + 5)).

Lemma ss6_next i :
  ss6 (i + 1) = (F (6 * i + 6), F (6 * i + 7), F (6 * i + 8), F (6 * i + 9), F (6 * i + 10), F (6 * i + 11)).
Proof. unfold ss6. repeat apply (f_equal2 pair); f_equal; lia. Qed.

Definition key6 (key : list Z) : Prop := forall j, 0 <= j < 6 -> word_in key j = F j.

Definition ke6_at (i : Z) (st : list Z * words6) : Prop :=
  exists k, st = (k, ss6 i) /\ agree vid k F (6 * i + 6).

Lemma kef6_ok i st :
  0 <= i < 8 -> ke6_at i st ->
  exists k, kef6 i st = (k, (F (6 * i + 6), F (6 * i + 7), F (6 * i + 8), F (6 * i + 9),
                            F (6 * i + 4), F (6 * i + 5))) /\ agree vid k F (6 * i + 10).
Proof.
  intros Hi (k & -> & H). destruct (next6 F HF i Hi) as (E0 & E1 & E2 & E3 & _). unfold rot in E0.
  unfold kef6, ss6. rewrite E0, E1, E2, E3. eexists. split; [reflexivity|]. puts 60.
Qed.

Lemma ke6_ok i st : 0 <= i < 7 -> ke6_at i st -> ke6_at (i + 1) (ke6 i st).
Proof.
  intros Hi H. destruct (kef6_ok i st ltac:(lia) H) as (k & E & A).
  destruct (more6 F HF i Hi) as (E4 & E5). unfold ke6. rewrite E, E4, E5.
  eexists. rewrite ss6_next. split; [reflexivity|]. puts 60.
Qed.

Lemma encrypt_key192 key cx :
  key6 key -> zlen (ks cx) = 60 -> agree vid (ks (aes_encrypt_key192 key cx)) F 52.
Proof.
  intros Hk Hl. unfold aes_encrypt_key192. rewrite !Hk by lia.
  assert (H : ke6_at 0 (kputs vid (ks cx) 0 [F 0; F 1; F 2; F 3; F 4; F 5], (F 0, F 1, F 2, F 3, F 4, F 5))).
  { eexists. split; [reflexivity|]. assert (agree vid (ks cx) F 0) by (split; [done|lia]). puts 60. }
  apply (steps ke6 ke6_at [0; 1; 2; 3; 4; 5; 6]) in H; [|done|intros i st Hi; apply ke6_ok; zl; lia].
  destruct (kef6_ok 7 _ ltac:(lia) H) as (k & E & A). cbn [ks]. rewrite E. exact A.
Qed.

Definition kd6_at (i : Z) (st : list Z * words6) : Prop :=
  exists k, st = (k, ss6 i) /\ agree (v 48) k D (6 * i + 6).

Lemma place6 : place_ok (v 48) 52.
Proof. apply (v_ok 12). lia. Qed.

Lemma kdf6_ok k : agree (v 48) k D 6 -> kd6_at 1 (kdf6 0 (k, (F 0, F 1, F 2, F 3, F 4, F 5))).
Proof.
  intros H. destruct (next6 F HF 0 ltac:(lia)) as (E0 & E1 & E2 & E3 & _).
  destruct (more6 F HF 0 ltac:(lia)) as (E4 & E5). unfold rot in E0. change (6 * 0) with 0 in *. rewrite !Z.add_0_l in *.
  unfold kdf6. rewrite E0, E1, E2, E3, E4, E5. eexists. split; [reflexivity|].
  match goal with |- agree _ (kputs _ _ _ ?xs) _ _ =>
    apply (agree_eq _ _ _ (6 + zlen xs)); [done|]; apply (agree_puts (v 48) 52 xs) end; try done.
  - apply place6.
  - intros m x Hm. destruct m as [|[|[|[|[|[|m]]]]]]; [..|done]; injection Hm as <-;
      by rewrite (dec_mid 48) by lia.
Qed.

Lemma kd6_ok i st : 1 <= i < 7 -> kd6_at i st -> kd6_at (i + 1) (kd6 i st).
Proof.
  intros Hi (k & -> & H). destruct (next6 F HF i ltac:(lia)) as (E0 & E1 & E2 & E3 & Ht).
  destruct (more6 F HF i ltac:(lia)) as (E4 & E5).
  unfold kd6, ss6. rewrite rot_eq. rewrite E0, E1, E2, E3, E4, E5.
  eexists. rewrite ss6_next. split; [reflexivity|].
  apply (agree_eq _ _ _ (6 * i + 0 + zlen [0; 1; 2; 3; 4; 5] + 6)); [zl; lia|].
  apply (chain_fold (fun s => s) 48 6 (6 * i) 52 D
    (fun j => if j =? 0 then ff (rot (F (6 * i + 5)) i) else D (6 * i + (5 + j)))); try done; try (zl; lia).
  - apply place6.
  - by rewrite Z.add_0_r.
  - chain_steps (0 + zlen [0; 1; 2; 3; 4; 5]) 6; rewrite !(dec_mid 48) by lia; (split; [|done]);
      rewrite <- ff_xor by (done || apply (word6 F HF); lia); f_equal; rewrite Z.lxor_comm; auto.
Qed.

Lemma kdl6_ok st : kd6_at 7 st -> agree (v 48) (kdl6 7 st) D 52.
Proof.
  intros (k & -> & H). destruct (next6 F HF 7 ltac:(lia)) as (E0 & E1 & E2 & E3 & _). unfold rot in E0.
  unfold kdl6, ss6. rewrite E0, E1, E2, E3.
  match goal with |- agree _ (kputs _ _ _ ?xs) _ _ =>
    apply (agree_eq _ _ _ (6 * 7 + 6 + zlen xs)); [done|]; apply (agree_puts (v 48) 52 xs) end; try done.
  - apply place6.
  - intros m x Hm. destruct m as [|[|[|[|m]]]]; [..|done]; injection Hm as <-;
      by rewrite (dec_end 48) by lia.
Qed.

Lemma decrypt_key192 key cx :
  key6 key -> zlen (ks cx) = 60 -> agree (v 48) (ks (aes_decrypt_key192 key cx)) D 52.
Proof.
  intros Hk Hl. unfold aes_decrypt_key192. rewrite !Hk by lia.
  set (k := kputs _ _ _ _).
  assert (H : kd6_at 1 (kdf6 0 (k, (F 0, F 1, F 2, F 3, F 4, F 5)))).
  { apply kdf6_ok. assert (agree (v 48) (ks cx) D 0) by (split; [done|lia]).
    apply (agree_eq _ _ _ (0 + zlen [F 0; F 1; F 2; F 3; ff (F 4); ff (F 5)])); [done|].
    apply (agree_puts (v 48) 52); try done; [apply place6|].
    intros m x Hm. destruct m as [|[|[|[|[|[|m]]]]]]; [..|done]; injection Hm as <-;
      by rewrite ?(dec_end 48), ?(dec_mid 48) by lia. }
  apply (steps kd6 kd6_at [1; 2; 3; 4; 5; 6]) in H; [|done|intros i st Hi; apply kd6_ok; zl; lia].
  apply kdl6_ok. exact H.
Qed.
End Key192.

(** The words of a key of 256 bits. *)
Record words256 (F : Z -> Z) : Prop := {
  word8 j : 0 <= j < 60 -> is_word (F j);
  next8 i : 0 <= i < 7 ->
    F (8 * i) ^^ rot (F (8 * i + 7)) i = F (8 * i + 8) /\ F (8 * i + 1) ^^ F (8 * i + 8) = F (8 * i + 9) /\
    F (8 * i + 2) ^^ F (8 * i + 9) = F (8 * i + 10) /\ F (8 * i + 3) ^^ F (8 * i + 10) = F (8 * i + 11) /\
    is_word (rot (F (8 * i + 7)) i);
  more8 i : 0 <= i < 6 ->
    F (8 * i + 4) ^^ ls_box (F (8 * i + 11)) 0 = F (8 * i + 12) /\
    F (8 * i + 5) ^^ F (8 * i + 12) = F (8 * i + 13) /\
    F (8 * i + 6) ^^ F (8 * i + 13) = F (8 * i + 14) /\ F (8 * i + 7) ^^ F (8 * i + 14) = F (8 * i + 15) /\
    is_word (ls_box (F (8 * i + 11)) 0)
}.

Lemma f_words256 key : bytes_ok key -> words256 (f 8 key).
Proof.
  intros Hb. assert (Hw : forall j, 0 <= j < 60 -> is_word (f 8 key j)).
  { intros j Hj. apply (f_word 8 key len8 Hb). cbn. lia. }
  split; [done| |]; intros i Hi.
  - destruct (f_rot 8 key len8 Hb i) as [E Hr]; [lia|cbn; lia|].
    split; [|split; [|split; [|split]]].
    + unfold rot. replace (8 * i + 8) with (Z.of_nat 8 * (i + 1)) by lia. rewrite E.
      do 3 f_equal. f_equal. lia.
    + symmetry. plain len8 Hb.
    + symmetry. plain len8 Hb.
    + symmetry. plain len8 Hb.
    + apply is_word_xor; [|done]. apply ls_box_word; [by left|]. apply Hw. lia.
  - split; [|split; [|split; [|split]]].
    + symmetry. rewrite (f_sub 8 key len8 Hb (8 * i + 12)) by (try done; cbn; warith).
      f_equal; [f_equal; lia|]. do 2 f_equal. lia.
    + symmetry. plain len8 Hb.
    + symmetry. plain len8 Hb.
    + symmetry. plain len8 Hb.
    + apply ls_box_word; [by right|]. apply Hw. lia.
Qed.

Section Key256.
Context (F : Z -> Z) (HF : words256 F).
#[local] Abbreviation D := (dec 56 F).

Definition ss8 (i : Z) : words8 :=
  (F (8 * i), F (8 * i + 1), F (8 * i + 2), F (8 * i + 3),
   F (8 * i + 4), F (8 * i + 5), F (8 * i + 6), F (8 * i + 7)).

Lemma ss8_next i :
  ss8 (i + 1) = (F (8 * i + 8), F (8 * i + 9), F (8 * i + 10), F (8 * i + 11),
                 F (8 * i + 12), F (8 * i + 13), F (8 * i + 14), F (8 * i + 15)).
Proof. unfold ss8. repeat apply (f_equal2 pair); f_equal; lia. Qed.

Definition key8 (key : list Z) : Prop := forall j, 0 <= j < 8 -> word_in key j = F j.

Definition ke8_at (i : Z) (st : list Z * words8) : Prop :=
  exists k, st = (k, ss8 i) /\ agree vid k F (8 * i + 8).

Lemma kef8_ok i st :
  0 <= i < 7 -> ke8_at i st ->
  exists k, kef8 i st = (k, (F (8 * i + 8), F (8 * i + 9), F (8 * i + 10), F (8 * i + 11),
                            F (8 * i + 4), F (8 * i + 5), F (8 * i + 6), F (8 * i + 7))) /\
    agree vid k F (8 * i + 12).
Proof.
  intros Hi (k & -> & H). destruct (next8 F HF i Hi) as (E0 & E1 & E2 & E3 & _). unfold rot in E0.
  unfold kef8, ss8. rewrite E0, E1, E2, E3. eexists. split; [reflexivity|]. puts 60.
Qed.

Lemma ke8_ok i st : 0 <= i < 6 -> ke8_at i st -> ke8_at (i + 1) (ke8 i st).
Proof.
  intros Hi H. destruct (kef8_ok i st ltac:(lia) H) as (k & E & A).
  destruct (more8 F HF i Hi) as (E4 & E5 & E6 & E7 & _). unfold ke8. rewrite E, E4, E5, E6, E7.
  eexists. rewrite ss8_next. split; [reflexivity|]. puts 60.
Qed.

Lemma encrypt_key256 key cx :
  key8 key -> zlen (ks cx) = 60 -> agree vid (ks (aes_encrypt_key256 key cx)) F 60.
Proof.
  intros Hk Hl. unfold aes_encrypt_key256. rewrite !Hk by lia.
  assert (H : ke8_at 0 (kputs vid (ks cx) 0 [F 0; F 1; F 2; F 3; F 4; F 5; F 6; F 7],
                        (F 0, F 1, F 2, F 3, F 4, F 5, F 6, F 7))).
  { eexists. split; [reflexivity|]. assert (agree vid (ks cx) F 0) by (split; [done|lia]). puts 60. }
  apply (steps ke8 ke8_at [0; 1; 2; 3; 4; 5]) in H; [|done|intros i st Hi; apply ke8_ok; zl; lia].
  destruct (kef8_ok 6 _ ltac:(lia) H) as (k & E & A). cbn [ks]. rewrite E. exact A.
Qed.

Definition kd8_at (i : Z) (st : list Z * words8) : Prop :=
  exists k, st = (k, ss8 i) /\ agree (v 56) k D (8 * i + 8).

Lemma place8 : place_ok (v 56) 60.
Proof. apply (v_ok 14). lia. Qed.

Lemma kdf8_ok k : agree (v 56) k D 8 -> kd8_at 1 (kdf8 0 (k, (F 0, F 1, F 2, F 3, F 4, F 5, F 6, F 7))).
Proof.
  intros H. destruct (next8 F HF 0 ltac:(lia)) as (E0 & E1 & E2 & E3 & _).
  destruct (more8 F HF 0 ltac:(lia)) as (E4 & E5 & E6 & E7 & _). unfold rot in E0.
  change (8 * 0) with 0 in *. rewrite !Z.add_0_l in *.
  unfold kdf8. rewrite E0, E1, E2, E3, E4, E5, E6, E7. eexists. split; [reflexivity|].
  match goal with |- agree _ (kputs _ _ _ ?xs) _ _ =>
    apply (agree_eq _ _ _ (8 + zlen xs)); [done|]; apply (agree_puts (v 56) 60 xs) end; try done.
  - apply place8.
  - intros m x Hm. destruct m as [|[|[|[|[|[|[|[|m]]]]]]]]; [..|done]; injection Hm as <-;
      by rewrite (dec_mid 56) by lia.
Qed.

Lemma kd8_ok i st : 1 <= i < 6 -> kd8_at i st -> kd8_at (i + 1) (kd8 i st).
Proof.
  intros Hi (k & -> & H). destruct (next8 F HF i ltac:(lia)) as (E0 & E1 & E2 & E3 & Ht).
  destruct (more8 F HF i ltac:(lia)) as (E4 & E5 & E6 & E7 & Ht2).
  unfold kd8, ss8. rewrite rot_eq. rewrite E0, E1, E2, E3, E4, E5, E6, E7.
  eexists. rewrite ss8_next. split; [reflexivity|].
  apply (agree_eq _ _ _ (8 * i + 4 + zlen [4; 5; 6; 7] + 8)); [zl; lia|].
  apply (chain_fold (fun s => s) 56 8 (8 * i) 60 D
    (fun j => if j =? 4 then ff (ls_box (F (8 * i + 11)) 0) else D (8 * i + (7 + j)))); try done; try (zl; lia).
  - apply place8.
  - apply (agree_eq _ _ _ (8 * i + 0 + zlen [0; 1; 2; 3] + 8)); [zl; lia|].
    apply (chain_fold (fun s => s) 56 8 (8 * i) 60 D
      (fun j => if j =? 0 then ff (rot (F (8 * i + 7)) i) else D (8 * i + (7 + j)))); try done; try (zl; lia).
    + apply place8.
    + by rewrite Z.add_0_r.
    + chain_steps (0 + zlen [0; 1; 2; 3]) 4; rewrite !(dec_mid 56) by lia; (split; [|done]);
        rewrite <- ff_xor by (done || apply (word8 F HF); lia); f_equal; rewrite Z.lxor_comm; auto.
  - chain_steps (4 + zlen [4; 5; 6; 7]) 8; rewrite !(dec_mid 56) by lia; (split; [|done]);
      rewrite <- ff_xor by (done || apply (word8 F HF); lia); f_equal; rewrite Z.lxor_comm; auto.
Qed.

Lemma kdl8_ok st : kd8_at 6 st -> agree (v 56) (kdl8 6 st) D 60.
Proof.
  intros (k & -> & H). destruct (next8 F HF 6 ltac:(lia)) as (E0 & E1 & E2 & E3 & _). unfold rot in E0.
  unfold kdl8, ss8. rewrite E0, E1, E2, E3.
  match goal with |- agree _ (kputs _ _ _ ?xs) _ _ =>
    apply (agree_eq _ _ _ (8 * 6 + 8 + zlen xs)); [done|]; apply (agree_puts (v 56) 60 xs) end; try done.
  - apply place8.
  - intros m x Hm. destruct m as [|[|[|[|m]]]]; [..|done]; injection Hm as <-;
      by rewrite (dec_end 56) by lia.
Qed.

Lemma decrypt_key256 key cx :
  key8 key -> zlen (ks cx) = 60 -> agree (v 56) (ks (aes_decrypt_key256 key cx)) D 60.
Proof.
  intros Hk Hl. unfold aes_decrypt_key256. rewrite !Hk by lia.
  set (k := kputs _ _ _ _).
  assert (H : kd8_at 1 (kdf8 0 (k, (F 0, F 1, F 2, F 3, F 4, F 5, F 6, F 7)))).
  { apply kdf8_ok. assert (agree (v 56) (ks cx) D 0) by (split; [done|lia]).
    apply (agree_eq _ _ _ (0 + zlen [F 0; F 1; F 2; F 3; ff (F 4); ff (F 5); ff (F 6); ff (F 7)])); [done|].
    apply (agree_puts (v 56) 60); try done; [apply place8|].
    intros m x Hm. destruct m as [|[|[|[|[|[|[|[|m]]]]]]]]; [..|done]; injection Hm as <-;
      by rewrite ?(dec_end 56), ?(dec_mid 56) by lia. }
  apply (steps kd8 kd8_at [1; 2; 3; 4; 5]) in H; [|done|intros i st Hi; apply kd8_ok; zl; lia].
  apply kdl8_ok. exact H.
Qed.
End Key256.

(** ** The cipher *)

#[local] Transparent f wd key_words.

(** The lengths for a key of [Nk] words: in bytes or in bits. *)
Definition len_for (Nk : nat) (key_len : Z) : Prop :=
  key_len = 4 * Z.of_nat Nk \/ key_len = 32 * Z.of_nat Nk.

Lemma round_key_words Nk key n :
  key_len_ok Nk ->
  round_key Nk key n =
  (wd Nk key (4 * Z.of_nat n), wd Nk key (4 * Z.of_nat n + 1), wd Nk key (4 * Z.of_nat n + 2),
   wd Nk key (4 * Z.of_nat n + 3)).
Proof.
  intros _. unfold round_key, to_state, wd, key_words.
  repeat apply (f_equal2 pair); f_equal; lia.
Qed.

Lemma round_key_ok Nk key n : key_len_ok Nk -> bytes_ok key -> (n <= Nk + 6)%nat -> st_ok (round_key Nk key n).
Proof.
  intros HN Hb Hn. rewrite round_key_words by done. repeat split; apply wd_ok; try done; lia.
Qed.

(** Both kinds of context, for each key length. *)
Lemma encrypt_keys Nk key key_len cx :
  key_len_ok Nk -> len_for Nk key_len -> bytes_ok key -> zlen (ks cx) = 60 ->
  has_keys (aes_encrypt_key key key_len cx) (Nk + 6) (round_key Nk key).
Proof.
  intros HN Hlen Hb Hl.
  assert (A : inf_b0 (aes_encrypt_key key key_len cx) = 16 * Z.of_nat (Nk + 6) /\
    agree vid (ks (aes_encrypt_key key key_len cx)) (f Nk key) (4 * (Z.of_nat Nk + 7))).
  { destruct HN as [->|[-> | ->]]; destruct Hlen as [-> | ->]; (split; [done|]).
    1, 2: apply (encrypt_key128 _ (f_words128 key Hb)); [|done]; intros j Hj; by rewrite f_key.
    1, 2: apply (encrypt_key192 _ (f_words192 key Hb)); [|done]; intros j Hj; by rewrite f_key.
    1, 2: apply (encrypt_key256 _ (f_words256 key Hb)); [|done]; intros j Hj; by rewrite f_key. }
  destruct A as [A1 A2]. split; [done|]. intros n Hn. split; [|by apply round_key_ok].
  rewrite round_key_words by done.
  split; [|split; [|split]].
  - apply (proj2 A2 (4 * Z.of_nat n)). lia.
  - apply (proj2 A2 (4 * Z.of_nat n + 1)). lia.
  - apply (proj2 A2 (4 * Z.of_nat n + 2)). lia.
  - apply (proj2 A2 (4 * Z.of_nat n + 3)). lia.
Qed.

Lemma decrypt_keys Nk key key_len cx :
  key_len_ok Nk -> len_for Nk key_len -> bytes_ok key -> zlen (ks cx) = 60 ->
  has_keys (aes_decrypt_key key key_len cx) (Nk + 6) (inverse_keys (Nk + 6) (round_key Nk key)).
Proof.
  intros HN Hlen Hb Hl. set (N := 4 * (Z.of_nat Nk + 6)).
  assert (A : inf_b0 (aes_decrypt_key key key_len cx) = 16 * Z.of_nat (Nk + 6) /\
    agree (v N) (ks (aes_decrypt_key key key_len cx)) (dec N (f Nk key)) (N + 4)).
  { destruct HN as [->|[-> | ->]]; destruct Hlen as [-> | ->]; (split; [done|]).
    1, 2: apply (decrypt_key128 _ (f_words128 key Hb)); [|done]; intros j Hj; by rewrite f_key.
    1, 2: apply (decrypt_key192 _ (f_words192 key Hb)); [|done]; intros j Hj; by rewrite f_key.
    1, 2: apply (decrypt_key256 _ (f_words256 key Hb)); [|done]; intros j Hj; by rewrite f_key. }
  destruct A as [A1 A2]. split; [done|]. intros n Hn.
  assert (Hok : forall m, (m <= Nk + 6)%nat -> st_ok (round_key Nk key m)) by (intros; by apply round_key_ok).
  split; [|unfold inverse_keys; destruct (_ || _); [|apply state_map_ok; [apply imix_ok|]]; apply Hok; lia].
  set (m := (Nk + 6 - n)%nat).
  assert (Hv : forall r, 0 <= r < 4 -> v N (4 * Z.of_nat m + r) = 4 * Z.of_nat n + r).
  { intros r Hr. unfold v. rewrite (Z.land_ones _ 2 ltac:(lia) : Z.land _ 3 = _). change (2 ^ 2) with 4.
    unfold N, m. Z.div_mod_to_equations. lia. }
  assert (Hg : forall r, 0 <= r < 4 ->
    kget (ks (aes_decrypt_key key key_len cx)) (4 * Z.of_nat n + r) = dec N (f Nk key) (4 * Z.of_nat m + r)).
  { intros r Hr. rewrite <- Hv by done. apply (proj2 A2). unfold N, m. lia. }
  pose proof (Hg 0 ltac:(lia)) as G0. rewrite !Z.add_0_r in G0.
  pose proof (Hg 1 ltac:(lia)) as G1. pose proof (Hg 2 ltac:(lia)) as G2. pose proof (Hg 3 ltac:(lia)) as G3.
  unfold inverse_keys. fold m. pose proof (Hok m ltac:(lia)) as Hm.
  rewrite (round_key_words Nk key m HN) in *. destruct Hm as (? & ? & ? & ?).
  destruct (decide (n = 0 \/ n = Nk + 6)%nat) as [Hend|Hmid].
  - assert (E : ((n =? 0) || (n =? Nk + 6))%nat = true) by (rewrite orb_true_iff, !Nat.eqb_eq; tauto).
    rewrite E. unfold has_key. rewrite G0, G1, G2, G3. rewrite !dec_end by (unfold N, m; lia). done.
  - assert (E : ((n =? 0) || (n =? Nk + 6))%nat = false) by (rewrite orb_false_iff, !Nat.eqb_neq; lia).
    rewrite E. unfold has_key. cbn [state_map]. rewrite G0, G1, G2, G3.
    rewrite !dec_mid by (unfold N, m; lia). unfold f. by rewrite !ff_W by done.
Qed.

Lemma rounds_for Nk : key_len_ok Nk -> aes_rounds (Nk + 6).
Proof. unfold key_len_ok, aes_rounds. lia. Qed.

(** C23: For keys of 128, 192 and 256 bits the key schedule and the encryption of a block, by
    words and tables, compute the cipher of FIPS 197, whatever was in the context. *)
Theorem aes_fips197 (Nk : nat) (key inp : list Z) (key_len : Z) (cx : aes_ctx) :
  key_len_ok Nk -> len_for Nk key_len -> zlen key = 4 * Z.of_nat Nk -> bytes_ok key ->
  zlen (ks cx) = KS_LENGTH -> zlen inp = 16 -> bytes_ok inp ->
  aes_encrypt inp (aes_encrypt_key key key_len cx) = AES Nk key inp.
Proof.
  intros HN Hlen _ Hb Hl Hi Hbi.
  rewrite (encrypt_rounds _ _ _ _ (encrypt_keys Nk key key_len cx HN Hlen Hb Hl) (rounds_for Nk HN) Hi Hbi).
  unfold AES. replace (Nk + 6 - 1)%nat with (Nk + 5)%nat by lia. f_equal. f_equal. apply foldl_fmap.
Qed.

(** The block functions under a key, as the modes use them. *)
Definition aes_cipher (key : list Z) (key_len : Z) (ecx dcx : aes_ctx) : Cipher.BlockCipher := {|
  Cipher.aes_encrypt inp := aes_encrypt inp (silc_aes_cbc_set_key ecx key key_len true);
  Cipher.aes_decrypt inp := aes_decrypt inp (silc_aes_cbc_set_key dcx key key_len false)
|}.

(** C24: Under a key of one of the three lengths the block functions are what the modes need:
    encryption takes blocks to blocks and decryption gives them back, although its
    schedule is computed by other steps and stored in reverse order. *)
Theorem aes_block_cipher (Nk : nat) (key : list Z) (key_len : Z) (ecx dcx : aes_ctx) :
  key_len_ok Nk -> len_for Nk key_len -> zlen key = 4 * Z.of_nat Nk -> bytes_ok key ->
  zlen (ks ecx) = KS_LENGTH -> zlen (ks dcx) = KS_LENGTH ->
  @Cipher.BlockCipherOk (aes_cipher key key_len ecx dcx).
Proof.
  intros HN Hlen _ Hb He Hd.
  pose proof (encrypt_keys Nk key key_len ecx HN Hlen Hb He) as Ke.
  pose proof (decrypt_keys Nk key key_len dcx HN Hlen Hb Hd) as Kd.
  pose proof (rounds_for Nk HN) as HR.
  split; intros x [Hx Hbx]; cbn [Cipher.aes_encrypt Cipher.aes_decrypt aes_cipher].
  - unfold silc_aes_cbc_set_key. rewrite (encrypt_rounds _ _ _ _ Ke HR Hx Hbx).
    destruct (state_words x Hx) as (s & -> & _ & _ & Hs). apply of_state_block.
    assert (Hk : forall n, (n <= Nk + 6)%nat -> st_ok (round_key Nk key n)) by (intros; by apply Ke).
    apply add_key_ok; [|by apply Hk]. apply shift_ok, sub_ok, rounds_ok.
    + apply add_key_ok; [auto|apply Hk; lia].
    + apply list.Forall_forall. intros k Hin. apply list_elem_of_fmap in Hin as (n & -> & Hn).
      apply elem_of_seq in Hn. apply Hk. lia.
  - unfold silc_aes_cbc_set_key. by apply (decrypt_encrypt _ _ (Nk + 6) (round_key Nk key)).
Qed.

(** ** Other key lengths *)

(** With a length that is none of the six the key is not set, and the caller is not
    told: in counter mode the context is cleared and the key stream is the counter
    itself. *)
Lemma ctr_bad_length (key inp : list Z) (keylen : Z) :
  keylen ∉ [16; 24; 32; 128; 192; 256] -> zlen inp = 16 -> bytes_ok inp ->
  aes_encrypt inp (silc_aes_ctr_set_key key keylen) = inp.
Proof.
  intros Hk Hl Hb. unfold silc_aes_ctr_set_key, aes_encrypt_key.
  rewrite !not_elem_of_cons in Hk. destruct Hk as (H1 & H2 & H3 & H4 & H5 & H6 & _).
  destruct (keylen =? 16) eqn:E1; [lia|]. destruct (keylen =? 24) eqn:E2; [lia|].
  destruct (keylen =? 32) eqn:E3; [lia|]. destruct (keylen =? 128) eqn:E4; [lia|].
  destruct (keylen =? 192) eqn:E5; [lia|]. destruct (keylen =? 256) eqn:E6; [lia|].
  cbn [orb]. destruct (state_words inp Hl) as (s & Es & Eo & Ew & Hs). specialize (Hs Hb).
  change (state_out (state_in inp (zeros KS_LENGTH) 0) = inp).
  rewrite (state_in_ok inp _ (no_col, no_col, no_col, no_col) s Es Ew Hs) by (repeat split; unfold is_byte; lia).
  replace (AddRoundKey s _) with s; [by rewrite state_out_ok|].
  split_state s. cbn. by rewrite !Z.lxor_0_r.
Qed.

(** ** The examples of the standard *)

Definition counting (a n : nat) : list Z := (fun i => Z.of_nat (a * i)) <$> seq 0 n.
Definition blank : aes_ctx := mkAes (zeros KS_LENGTH) 0.

Lemma counting_bytes a n : (a * (n - 1) <= 255)%nat -> bytes_ok (counting a n).
Proof.
  intros H. apply list.Forall_forall. intros b Hb. apply list_elem_of_fmap in Hb as (i & -> & Hi).
  apply elem_of_seq in Hi. nia.
Qed.

Lemma aes_fips197_witness :
  aes_encrypt (counting 17 16) (aes_encrypt_key (counting 1 16) 128 blank) = AES 4 (counting 1 16) (counting 17 16) /\
  aes_encrypt (counting 15 16) (aes_encrypt_key (counting 1 32) 256 blank) = AES 8 (counting 1 32) (counting 15 16).
Proof.
  split.
  - apply (aes_fips197 4 (counting 1 16) (counting 17 16) 128 blank); try done; [by left|by right| |].
    + apply counting_bytes. lia.
    + apply counting_bytes. lia.
  - apply (aes_fips197 8 (counting 1 32) (counting 15 16) 256 blank); try done; [by right; right|by right| |].
    + apply counting_bytes. lia.
    + apply counting_bytes. lia.
Defined.

(** Appendix C of FIPS 197: the ciphertext, for 128 and for 256 bits. *)
Lemma fips197_vectors :
  AES 4 (counting 1 16) (counting 17 16) =
    [0x69; 0xc4; 0xe0; 0xd8; 0x6a; 0x7b; 0x04; 0x30; 0xd8; 0xcd; 0xb7; 0x80; 0x70; 0xb4; 0xc5; 0x5a] /\
  AES 8 (counting 1 32) (counting 17 16) =
    [0x8e; 0xa2; 0xb7; 0xca; 0x51; 0x67; 0x45; 0xbf; 0xea; 0xfc; 0x49; 0x90; 0x4b; 0x49; 0x60; 0x89].
Proof. by split; vm_compute. Qed.

Lemma aes_block_cipher_witness :
  @Cipher.BlockCipherOk (aes_cipher (counting 1 24) 192 blank blank) /\
  @Cipher.BlockCipherOk (aes_cipher (counting 1 16) 16 blank blank).
Proof.
  split.
  - apply (aes_block_cipher 6 (counting 1 24) 192 blank blank); try done; [by right; left|by right|].
    apply counting_bytes. lia.
  - apply (aes_block_cipher 4 (counting 1 16) 16 blank blank); try done; [by left|by left|].
    apply counting_bytes. lia.
Defined.
