(* ===== verification/Mp.v ===== *)
(** * Multi-precision integers as bytes ([lib/silcmath/mpbin.c], [mp_tma.c])

    A [SilcMPInt] is an integer.  The arithmetic itself is the bundled
    libtommath ([tma.c]), reached through the wrappers of [mp_tma.c]; the
    wrappers the program uses are the operations of [Z] they stand for, on the
    non-negative integers the program keeps.  The conversions to and from bytes
    are the loops of [mpbin.c]. *)

From Stdlib Require Import Zpow_facts.
From S2P Require Import Prelude CTypes Memory.

(** ** Wrappers *)

(** [silc_mp_sizeinbase(mp, 2)]: [tma_mp_radix_size] counts the NUL too, and
    gives 2 for zero. *)
Definition silc_mp_sizeinbase_2 (mp : Z) : Z := if mp =? 0 then 1 else Z.log2 mp + 1.
Definition silc_mp_get_ui (mp : Z) : Z := u32 mp.
Definition silc_mp_div_2exp (mp1 exp : Z) : Z := Z.shiftr mp1 exp.
Definition silc_mp_mul_2exp (mp1 exp : Z) : Z := Z.shiftl mp1 exp.
Definition silc_mp_add_ui (mp1 ui : Z) : Z := mp1 + ui.
Definition silc_mp_mod_2exp (mp1 ui : Z) : Z := mp1 mod 2 ^ ui.
Definition silc_mp_pow_mod (mp1 exp m : Z) : Z := Zpow_mod mp1 exp m.

(** ** Bytes *)

(** [for (i = size; i > 0; i--)]. *)
Fixpoint mp2bin_loop (i : nat) (tmp : Z) (dst : list Z) : list Z :=
  match i with
  | O => dst
  | S i =>
      mp2bin_loop i (silc_mp_div_2exp tmp 8)
        (<[i := u8 (Z.land (silc_mp_get_ui tmp) 255)]> dst)
  end.

Definition silc_mp_mp2bin_noalloc (val : Z) (dst : list Z) (dst_len : Z) : list Z :=
  mp2bin_loop (Z.to_nat dst_len) val dst.

(** The bytes and their number, or NULL. *)
Definition silc_mp_mp2bin (val len : Z) : option (list Z * Z) :=
  let size := if negb (len =? 0) then len else (silc_mp_sizeinbase_2 val + 7) / 8 in
  match silc_calloc size 1 with
  | None => None
  | Some ret => Some (silc_mp_mp2bin_noalloc val ret size, size)
  end.

Definition bin2mp_round (ret b : Z) : Z := silc_mp_add_ui (silc_mp_mul_2exp ret 8) b.

Definition silc_mp_bin2mp (data : list Z) (len : Z) : Z :=
  foldl bin2mp_round 0 (ztake len data).

(** ** The big-endian numeral of a given length *)

Fixpoint be (n : nat) (v : Z) : list Z :=
  match n with O => [] | S n => be n (v / 256) ++ [v mod 256] end.

Lemma be_length n : forall v, length (be n v) = n.
Proof. induction n as [|n IH]; intros v; [done|]. cbn. rewrite length_app, IH. cbn. lia. Qed.

Lemma be_bytes n : forall v, bytes_ok (be n v).
Proof.
  unfold bytes_ok. induction n as [|n IH]; intros v; [constructor|]. cbn.
  apply Forall_app_2; [done|]. repeat constructor; apply Z.mod_pos_bound; lia.
Qed.

Lemma low_byte v : u8 (Z.land (silc_mp_get_ui v) 255) = v mod 256.
Proof.
  change 255 with (Z.ones 8). rewrite Z.land_ones by lia. unfold silc_mp_get_ui, u8, u32.
  change (2 ^ 8) with 256. rewrite Z.mod_mod by lia. change 4294967296 with (256 * 16777216).
  rewrite Z.rem_mul_r by lia. rewrite Z.mul_comm, Z.mod_add, Z.mod_mod by lia. done.
Qed.

Lemma mp2bin_loop_ok n : forall v dst,
  (n <= length dst)%nat -> mp2bin_loop n v dst = be n v ++ drop n dst.
Proof.
  induction n as [|n IH]; intros v dst Hn; [done|]. cbn [mp2bin_loop be].
  rewrite IH by (rewrite length_insert; lia). unfold silc_mp_div_2exp.
  rewrite Z.shiftr_div_pow2, low_byte by lia. change (2 ^ 8) with 256.
  rewrite <- app_assoc. f_equal. rewrite drop_insert_ge, Nat.sub_diag by lia.
  destruct (lookup_lt_is_Some_2 dst n ltac:(lia)) as [x Hx].
  by rewrite (drop_S dst x n Hx).
Qed.

Lemma bin2mp_round_eq ret b : bin2mp_round ret b = ret * 256 + b.
Proof.
  unfold bin2mp_round, silc_mp_add_ui, silc_mp_mul_2exp. by rewrite Z.shiftl_mul_pow2 by lia.
Qed.

Lemma foldl_bin2mp l : forall a,
  foldl bin2mp_round a l = a * 256 ^ zlen l + foldl bin2mp_round 0 l.
Proof.
  induction l as [|b l IH]; intros a; cbn [foldl]; [rewrite zlen_nil; lia|].
  rewrite IH, (IH (bin2mp_round 0 b)), !bin2mp_round_eq, zlen_cons. zlen_facts.
  rewrite Z.pow_add_r by lia. change (256 ^ 1) with 256. ring.
Qed.

Lemma foldl_be n : forall v, foldl bin2mp_round 0 (be n v) = v mod 256 ^ Z.of_nat n.
Proof.
  induction n as [|n IH]; intros v; [cbn; by rewrite Z.mod_1_r|].
  cbn [be]. rewrite foldl_app. cbn [foldl]. rewrite bin2mp_round_eq, IH. replace (Z.of_nat (S n)) with (1 + Z.of_nat n) by lia.
  rewrite Z.pow_add_r by lia. change (256 ^ 1) with 256. rewrite Z.rem_mul_r by lia. ring.
Qed.

Lemma be_bin2mp l : bytes_ok l -> be (length l) (foldl bin2mp_round 0 l) = l.
Proof.
  unfold bytes_ok. induction l as [|b l IH] using rev_ind; [done|]. intros H.
  apply Forall_app in H as [Hl Hb]. apply list.Forall_cons in Hb as [Hb _].
  rewrite length_app, Nat.add_1_r, foldl_app. cbn [be foldl].
  rewrite bin2mp_round_eq. rewrite Z.div_add_l, Z.div_small, Z.add_0_r by lia. rewrite IH by done. f_equal. f_equal.
  rewrite Z.add_comm, Z.mod_add, Z.mod_small by lia. done.
Qed.

Lemma bin2mp_nonneg l : bytes_ok l -> 0 <= foldl bin2mp_round 0 l < 256 ^ zlen l.
Proof.
  intros H. pose proof (foldl_be (length l) (foldl bin2mp_round 0 l)) as E.
  rewrite be_bin2mp in E by done. rewrite E. apply Z.mod_pos_bound.
  apply Z.pow_pos_nonneg; [done|apply zlen_nonneg].
Qed.

(** The number of bytes the automatic size gives. *)
Definition mp_size (v : Z) : Z := (silc_mp_sizeinbase_2 v + 7) / 8.

Lemma mp_size_pos v : 1 <= mp_size v.
Proof.
  unfold mp_size, silc_mp_sizeinbase_2. apply Z.div_le_lower_bound; [lia|].
  case_match; [lia|]. pose proof (Z.log2_nonneg v). lia.
Qed.

Lemma mp_size_fits v : 0 <= v -> v < 256 ^ mp_size v.
Proof.
  intros Hv. pose proof (mp_size_pos v). change 256 with (2 ^ 8).
  rewrite <- Z.pow_mul_r by lia. unfold mp_size, silc_mp_sizeinbase_2 in *.
  destruct (Z.eqb_spec v 0) as [->|E]; [apply Z.pow_pos_nonneg; lia|].
  pose proof (Z.log2_spec v ltac:(lia)) as [_ Hu].
  eapply Z.lt_le_trans; [exact Hu|]. apply Z.pow_le_mono_r; [lia|].
  pose proof (Z.log2_nonneg v). pose proof (Z.div_mod (Z.log2 v + 1 + 7) 8 ltac:(lia)).
  pose proof (Z.mod_pos_bound (Z.log2 v + 1 + 7) 8 ltac:(lia)). lia.
Qed.

Lemma mp_size_le v n : 0 <= v < 2 ^ (8 * n) -> 0 < n -> mp_size v <= n.
Proof.
  intros Hv Hn. unfold mp_size, silc_mp_sizeinbase_2.
  apply Z.lt_succ_r, Z.div_lt_upper_bound; [lia|]. destruct (Z.eqb_spec v 0) as [->|E]; [lia|].
  pose proof (proj1 (Z.log2_lt_pow2 v (8 * n) ltac:(lia)) ltac:(lia)). lia.
Qed.

Lemma mp_size_ge v n : 2 ^ (8 * n - 8) <= v -> 0 < n -> n <= mp_size v.
Proof.
  intros Hv Hn. unfold mp_size, silc_mp_sizeinbase_2. apply Z.div_le_lower_bound; [lia|].
  pose proof (Z.pow_pos_nonneg 2 (8 * n - 8) ltac:(lia) ltac:(lia)).
  destruct (Z.eqb_spec v 0) as [->|E]; [lia|].
  apply (proj1 (Z.log2_le_pow2 v (8 * n - 8) ltac:(lia))) in Hv. lia.
Qed.

Lemma mp2bin_ok v len :
  let size := if negb (len =? 0) then len else mp_size v in
  0 < size < SILC_MAX_ALLOC ->
  silc_mp_mp2bin v len = Some (be (Z.to_nat size) v, size).
Proof.
  intros size Hs. unfold silc_mp_mp2bin. fold (mp_size v). fold size.
  rewrite silc_calloc_ok by lia. unfold silc_mp_mp2bin_noalloc.
  rewrite Z.mul_1_l. rewrite mp2bin_loop_ok.
  - rewrite drop_ge, app_nil_r; [done|]. unfold zeros. rewrite length_replicate. lia.
  - unfold zeros. rewrite length_replicate. lia.
Qed.

Lemma mp2bin_at v len :
  0 < len < SILC_MAX_ALLOC -> silc_mp_mp2bin v len = Some (be (Z.to_nat len) v, len).
Proof.
  intros H. pose proof (mp2bin_ok v len) as E. rewrite (proj2 (Z.eqb_neq len 0)) in E by lia.
  by apply E.
Qed.

Definition mp_bytes (v : Z) : list Z := be (Z.to_nat (mp_size v)) v.

Lemma mp_bytes_len v : zlen (mp_bytes v) = mp_size v.
Proof. unfold mp_bytes, zlen. rewrite be_length. pose proof (mp_size_pos v). lia. Qed.

Lemma mp2bin_auto v :
  mp_size v < SILC_MAX_ALLOC -> silc_mp_mp2bin v 0 = Some (mp_bytes v, mp_size v).
Proof.
  intros H. pose proof (mp_size_pos v). unfold mp_bytes. rewrite (mp2bin_ok v 0); [done|].
  cbn. lia.
Qed.

Lemma bin2mp_mp_bytes v rest :
  0 <= v -> silc_mp_bin2mp (mp_bytes v ++ rest) (mp_size v) = v.
Proof.
  intros Hv. unfold silc_mp_bin2mp. rewrite ztake_app_exact by (by rewrite mp_bytes_len).
  unfold mp_bytes. rewrite foldl_be. pose proof (mp_size_pos v).
  rewrite Z2Nat.id by lia. apply Z.mod_small. split; [done|]. by apply mp_size_fits.
Qed.

(** ** Properties *)

(** Integers and byte strings: an integer written at any sufficient length is
    read back, at a shorter length it is reduced, and bytes read and written at
    their length are the same. *)
Theorem mp_bin_roundtrip (v len : Z) (l : list Z) :
  0 <= v -> 0 < len < SILC_MAX_ALLOC -> mp_size v < SILC_MAX_ALLOC ->
  bytes_ok l -> 0 < zlen l < SILC_MAX_ALLOC ->
  (exists b, silc_mp_mp2bin v len = Some (b, len) /\ zlen b = len /\
             silc_mp_bin2mp b len = v mod 256 ^ len) /\
  (exists b n, silc_mp_mp2bin v 0 = Some (b, n) /\ zlen b = n /\ silc_mp_bin2mp b n = v) /\
  silc_mp_mp2bin (silc_mp_bin2mp l (zlen l)) (zlen l) = Some (l, zlen l).
Proof.
  intros Hv Hlen Hs Hl Hll. split; [|split].
  - exists (be (Z.to_nat len) v). rewrite (mp2bin_at v len) by done.
    split; [done|]. assert (E : zlen (be (Z.to_nat len) v) = len)
      by (unfold zlen; rewrite be_length; lia).
    split; [done|]. unfold silc_mp_bin2mp. rewrite ztake_ge by lia.
    by rewrite foldl_be, Z2Nat.id by lia.
  - exists (mp_bytes v), (mp_size v). rewrite mp2bin_auto, mp_bytes_len by done.
    split; [done|]. split; [done|]. rewrite <- (app_nil_r (mp_bytes v)).
    by apply bin2mp_mp_bytes.
  - unfold silc_mp_bin2mp. rewrite ztake_ge, mp2bin_at by done. do 2 f_equal. unfold zlen. rewrite Nat2Z.id. by apply be_bin2mp.
Qed.

Lemma mp_bin_roundtrip_witness :
  (exists b, silc_mp_mp2bin 66051 2 = Some (b, 2) /\ zlen b = 2 /\
             silc_mp_bin2mp b 2 = 66051 mod 256 ^ 2) /\
  (exists b n, silc_mp_mp2bin 66051 0 = Some (b, n) /\ zlen b = n /\
               silc_mp_bin2mp b n = 66051) /\
  silc_mp_mp2bin (silc_mp_bin2mp [0; 7; 255] 3) 3 = Some ([0; 7; 255], 3).
Proof.
  apply (mp_bin_roundtrip 66051 2 [0; 7; 255]);
    first [by vm_compute | by repeat constructor | split; by vm_compute].
Defined.

(** A secret both sides of a Diffie-Hellman exchange compute. *)
Lemma pow_mod_pow g x y p :
  0 <= x -> 0 <= y -> 0 < p ->
  silc_mp_pow_mod (silc_mp_pow_mod g x p) y p = g ^ (x * y) mod p.
Proof.
  intros Hx Hy Hp. unfold silc_mp_pow_mod. rewrite !Zpow_mod_correct by lia.
  by rewrite <- Zpower_mod, <- Z.pow_mul_r by done.
Qed.

Lemma pow_mod_comm g x y p :
  0 <= x -> 0 <= y -> 0 < p ->
  silc_mp_pow_mod (silc_mp_pow_mod g x p) y p = silc_mp_pow_mod (silc_mp_pow_mod g y p) x p.
Proof. intros. rewrite !pow_mod_pow by done. by rewrite Z.mul_comm. Qed.

Lemma pow_mod_range g x p : 0 < p -> 0 <= silc_mp_pow_mod g x p < p.
Proof. intros Hp. unfold silc_mp_pow_mod. rewrite Zpow_mod_correct by lia. by apply Z.mod_pos_bound. Qed.
