(* ===== verification/SkePayload.v ===== *)
(** * Key exchange payloads ([lib/silcske/payload.c])

    The Key Exchange Start Payload, which proposes or selects the security
    properties, and the Key Exchange Payload, which carries a public key, a
    Diffie-Hellman value and a signature. *)

From S2P Require Import Prelude CTypes Memory Buffer BuffFmt Fields Mp.
Import Format Unformat RoundTrip Encoding.

(** ** Status ([SilcSKEStatus]) *)

Definition SILC_SKE_STATUS_OK : Z := 0.
Definition SILC_SKE_STATUS_ERROR : Z := 1.
Definition SILC_SKE_STATUS_BAD_PAYLOAD : Z := 2.
Definition SILC_SKE_STATUS_UNKNOWN_GROUP : Z := 3.
Definition SILC_SKE_STATUS_UNKNOWN_CIPHER : Z := 4.
Definition SILC_SKE_STATUS_UNKNOWN_PKCS : Z := 5.
Definition SILC_SKE_STATUS_UNKNOWN_HASH_FUNCTION : Z := 6.
Definition SILC_SKE_STATUS_UNKNOWN_HMAC : Z := 7.
Definition SILC_SKE_STATUS_UNSUPPORTED_PUBLIC_KEY : Z := 8.
Definition SILC_SKE_STATUS_INCORRECT_SIGNATURE : Z := 9.
Definition SILC_SKE_STATUS_BAD_VERSION : Z := 10.
Definition SILC_SKE_STATUS_INVALID_COOKIE : Z := 11.
Definition SILC_SKE_STATUS_PUBLIC_KEY_NOT_PROVIDED : Z := 12.
Definition SILC_SKE_STATUS_BAD_RESERVED_FIELD : Z := 13.
Definition SILC_SKE_STATUS_BAD_PAYLOAD_LENGTH : Z := 14.
Definition SILC_SKE_STATUS_SIGNATURE_ERROR : Z := 15.
Definition SILC_SKE_STATUS_OUT_OF_MEMORY : Z := 16.
Definition SILC_SKE_STATUS_TIMEOUT : Z := 17.

(** What a function stores and returns: a value with status OK, or an error
    status. *)
Inductive ske_result (A : Type) := SkeOk (a : A) | SkeErr (status : Z).
Arguments SkeOk {A} a.
Arguments SkeErr {A} status.

(** Flags ([SilcSKESecurityPropertyFlag]). *)
Definition SILC_SKE_SP_FLAG_IV_INCLUDED : Z := 1.
Definition SILC_SKE_SP_FLAG_PFS : Z := 2.
Definition SILC_SKE_SP_FLAG_MUTUAL : Z := 4.

Definition has_flag (flags flag : Z) : bool := negb (Z.land flags flag =? 0).

(** ** Start Payload *)

(** [#define SILC_SKE_COOKIE_LEN 16]. *)
Definition SILC_SKE_COOKIE_LEN : Z := 16.

(** [struct SilcSKEStartPayloadStruct]. *)
Record SilcSKEStartPayload := mkStart {
  sp_flags : Z;
  sp_len : Z;
  cookie : option (list Z);
  cookie_len : Z;
  version : option (list Z);
  version_len : Z;
  ke_grp_list : option (list Z);
  ke_grp_len : Z;
  pkcs_alg_list : option (list Z);
  pkcs_alg_len : Z;
  enc_alg_list : option (list Z);
  enc_alg_len : Z;
  hash_alg_list : option (list Z);
  hash_alg_len : Z;
  hmac_alg_list : option (list Z);
  hmac_alg_len : Z;
  comp_alg_list : option (list Z);
  comp_alg_len : Z
}.

Definition silc_ske_payload_start_encode (payload : option SilcSKEStartPayload)
    : ske_result SilcBuffer :=
  match payload with
  | None => SkeErr SILC_SKE_STATUS_ERROR
  | Some p =>
      match silc_buffer_alloc_size (sp_len p) with
      | None => SkeErr SILC_SKE_STATUS_OUT_OF_MEMORY
      | Some buf =>
          let '(buf, ret) :=
            silc_buffer_format buf
              [PARAM_UI8_CHAR 0; PARAM_UI8_CHAR (sp_flags p); PARAM_UI16_SHORT (sp_len p);
               PARAM_NSTRING (cookie p) (cookie_len p);
               PARAM_UI16_SHORT (version_len p); PARAM_NSTRING (version p) (version_len p);
               PARAM_UI16_SHORT (ke_grp_len p); PARAM_NSTRING (ke_grp_list p) (ke_grp_len p);
               PARAM_UI16_SHORT (pkcs_alg_len p);
               PARAM_NSTRING (pkcs_alg_list p) (pkcs_alg_len p);
               PARAM_UI16_SHORT (enc_alg_len p); PARAM_NSTRING (enc_alg_list p) (enc_alg_len p);
               PARAM_UI16_SHORT (hash_alg_len p);
               PARAM_NSTRING (hash_alg_list p) (hash_alg_len p);
               PARAM_UI16_SHORT (hmac_alg_len p);
               PARAM_NSTRING (hmac_alg_list p) (hmac_alg_len p);
               PARAM_UI16_SHORT (comp_alg_len p);
               PARAM_NSTRING (comp_alg_list p) (comp_alg_len p)] in
          if ret =? -1 then SkeErr SILC_SKE_STATUS_ERROR else SkeOk buf
      end
  end.

(** The test for the mandatory fields. *)
Definition start_missing (p : SilcSKEStartPayload) : bool :=
  bool_decide (cookie p = None) || (version_len p =? 0) ||
  (ke_grp_len p =? 0) || (pkcs_alg_len p =? 0) ||
  (enc_alg_len p =? 0) || (hash_alg_len p =? 0) || (hmac_alg_len p =? 0).

(** On an error the status is also stored in [ske->status]; every caller does
    that itself with the status returned. *)
Definition silc_ske_payload_start_decode (buffer : SilcBuffer)
    : ske_result SilcSKEStartPayload :=
  let '(buffer, ret, o) :=
    silc_buffer_unformat buffer
      [U_UI8_CHAR; U_UI8_CHAR; U_UI16_SHORT; U_DATA_ALLOC SILC_SKE_COOKIE_LEN;
       U_NSTRING_ALLOC UI16; U_NSTRING_ALLOC UI16; U_NSTRING_ALLOC UI16;
       U_NSTRING_ALLOC UI16; U_NSTRING_ALLOC UI16; U_NSTRING_ALLOC UI16;
       U_NSTRING_ALLOC UI16] in
  if ret =? -1 then SkeErr SILC_SKE_STATUS_BAD_PAYLOAD
  else match o with
  | [VInt tmp; VInt flags; VInt len; VPtr cookie; VStr version vl; VStr grp gl;
     VStr pkcs pl; VStr enc el; VStr hash hl; VStr hmac ml; VStr comp cl] =>
      let payload := mkStart flags len cookie SILC_SKE_COOKIE_LEN version vl grp gl pkcs pl
                       enc el hash hl hmac ml comp cl in
      if negb (tmp =? 0) then SkeErr SILC_SKE_STATUS_BAD_RESERVED_FIELD
      else if negb (len =? silc_buffer_len buffer)
      then SkeErr SILC_SKE_STATUS_BAD_PAYLOAD_LENGTH
      else if start_missing payload then SkeErr SILC_SKE_STATUS_BAD_PAYLOAD
      else SkeOk payload
  | _ => SkeErr SILC_SKE_STATUS_BAD_PAYLOAD
  end.

(** ** Key Exchange Payload *)

(** [struct SilcSKEKEPayloadStruct]. *)
Record SilcSKEKEPayload := mkKE {
  pk_len : Z;
  pk_data : option (list Z);
  pk_type : Z;
  ke_x : Z;
  sign_len : Z;
  sign_data : option (list Z)
}.

Definition SILC_SKE_PK_TYPE_SILC : Z := 1.
Definition SILC_SKE_PK_TYPE_SPKI : Z := 5.

(** [ske->start_payload && ske->start_payload->flags & SILC_SKE_SP_FLAG_MUTUAL];
    [sp] is [ske->start_payload]. *)
Definition mutual (sp : option SilcSKEStartPayload) : bool :=
  match sp with Some p => has_flag (sp_flags p) SILC_SKE_SP_FLAG_MUTUAL | None => false end.

(** When [x_str] cannot be allocated the C code goes on with an uninitialised
    length; it is at most 2^27 bytes long for the integers of [tma.c]. *)
Definition silc_ske_payload_ke_encode (sp : option SilcSKEStartPayload)
    (payload : option SilcSKEKEPayload) : ske_result SilcBuffer :=
  match payload with
  | None => SkeErr SILC_SKE_STATUS_ERROR
  | Some p =>
      if mutual sp && bool_decide (sign_data p = None) then SkeErr SILC_SKE_STATUS_ERROR
      else
        match silc_mp_mp2bin (ke_x p) 0 with
        | None => SkeErr SILC_SKE_STATUS_OUT_OF_MEMORY
        | Some (x_str, x_len) =>
            match silc_buffer_alloc_size (u32 (4 + pk_len p + 2 + x_len + 2 + sign_len p)) with
            | None => SkeErr SILC_SKE_STATUS_OUT_OF_MEMORY
            | Some buf =>
                let '(buf, ret) :=
                  silc_buffer_format buf
                    [PARAM_UI16_SHORT (pk_len p); PARAM_UI16_SHORT (pk_type p);
                     PARAM_NSTRING (pk_data p) (pk_len p);
                     PARAM_UI16_SHORT x_len; PARAM_NSTRING (Some x_str) x_len;
                     PARAM_UI16_SHORT (sign_len p);
                     PARAM_NSTRING (sign_data p) (sign_len p)] in
                if ret =? -1 then SkeErr SILC_SKE_STATUS_ERROR else SkeOk buf
            end
        end
  end.

(** The buffer is left with its head pulled over the first four bytes. *)
Definition silc_ske_payload_ke_decode (sp : option SilcSKEStartPayload) (buffer : SilcBuffer)
    : ske_result SilcSKEKEPayload :=
  let len2 := silc_buffer_len buffer in
  let '(buffer, ret, o) := silc_buffer_unformat buffer [U_UI16_SHORT; U_UI16_SHORT] in
  if ret =? -1 then SkeErr SILC_SKE_STATUS_BAD_PAYLOAD
  else match o with
  | [VInt pk_len; VInt pk_type] =>
      if bool_decide (is_Some sp) &&
         (((pk_type <? SILC_SKE_PK_TYPE_SILC) || (SILC_SKE_PK_TYPE_SPKI <? pk_type)) ||
          (pk_len =? 0))
      then SkeErr SILC_SKE_STATUS_BAD_PAYLOAD
      else
        let buffer := (silc_buffer_pull buffer 4).1 in
        let '(buffer, ret, o) :=
          silc_buffer_unformat buffer
            [U_DATA_ALLOC pk_len; U_NSTRING_ALLOC UI16; U_NSTRING_ALLOC UI16] in
        if ret =? -1 then SkeErr SILC_SKE_STATUS_BAD_PAYLOAD
        else match o with
        | [VPtr pk_data; VStr x x_len; VStr sign_data sign_len] =>
            let tot_len := u32 (pk_len + 4 + (x_len + 2) + (sign_len + 2)) in
            if x_len <? 16 then SkeErr SILC_SKE_STATUS_BAD_PAYLOAD
            else if mutual sp && ((sign_len <? 3) || bool_decide (sign_data = None))
            then SkeErr SILC_SKE_STATUS_BAD_PAYLOAD
            else if negb (tot_len =? len2) then SkeErr SILC_SKE_STATUS_BAD_PAYLOAD_LENGTH
            else SkeOk (mkKE pk_len pk_data pk_type
                          (silc_mp_bin2mp (default [] x) x_len) sign_len sign_data)
        | _ => SkeErr SILC_SKE_STATUS_BAD_PAYLOAD
        end
  | _ => SkeErr SILC_SKE_STATUS_BAD_PAYLOAD
  end.

(** ** Reference form *)

(** What a Start Payload says: flags, cookie, version and the six lists. *)
Record start := mkS {
  s_flags : Z;
  s_cookie : list Z;
  s_version : list Z;
  s_grp : list Z;
  s_pkcs : list Z;
  s_enc : list Z;
  s_hash : list Z;
  s_hmac : list Z;
  s_comp : list Z
}.

Definition start_fields : list field :=
  [F8; F8; F16; FD 16; FS16; FS16; FS16; FS16; FS16; FS16; FS16].

(** The fields of a payload whose reserved byte is [r] and that says it is
    [len] bytes long. *)
Definition start_vals (r len : Z) (s : start) : list fval :=
  [FInt r; FInt (s_flags s); FInt len; FStr (s_cookie s); FStr (s_version s); FStr (s_grp s);
   FStr (s_pkcs s); FStr (s_enc s); FStr (s_hash s); FStr (s_hmac s); FStr (s_comp s)].

Definition enc_start (r len : Z) (s : start) : list Z :=
  enc_fields start_fields (start_vals r len s).

Definition start_fits (r len : Z) (s : start) : Prop :=
  Forall2 fval_ok start_fields (start_vals r len s).

Definition start_size (s : start) : Z :=
  34 + zlen (s_version s) + zlen (s_grp s) + zlen (s_pkcs s) + zlen (s_enc s) +
  zlen (s_hash s) + zlen (s_hmac s) + zlen (s_comp s).

(** The mandatory fields are there. *)
Definition complete (s : start) : bool :=
  negb ((zlen (s_version s) =? 0) || (zlen (s_grp s) =? 0) || (zlen (s_pkcs s) =? 0) ||
        (zlen (s_enc s) =? 0) || (zlen (s_hash s) =? 0) || (zlen (s_hmac s) =? 0)).

Definition start_ok (s : start) : Prop :=
  0 <= s_flags s < 256 /\ zlen (s_cookie s) = 16 /\ start_size s < 65536 /\
  complete s = true.

Definition start_bytes (s : start) : Prop :=
  Forall bytes_ok [s_cookie s; s_version s; s_grp s; s_pkcs s; s_enc s; s_hash s; s_hmac s;
                   s_comp s].

(** The structure the decoder makes. *)
Definition start_of (len : Z) (s : start) : SilcSKEStartPayload :=
  mkStart (s_flags s) len (block (s_cookie s)) 16
    (block (s_version s)) (zlen (s_version s)) (block (s_grp s)) (zlen (s_grp s))
    (block (s_pkcs s)) (zlen (s_pkcs s)) (block (s_enc s)) (zlen (s_enc s))
    (block (s_hash s)) (zlen (s_hash s)) (block (s_hmac s)) (zlen (s_hmac s))
    (block (s_comp s)) (zlen (s_comp s)).

Definition dec_start (d : list Z) : option (Z * Z * start * list Z) :=
  match dec_fields start_fields d with
  | Some ([FInt r; FInt f; FInt len; FStr co; FStr v; FStr g; FStr p; FStr e; FStr h;
           FStr m; FStr c], rest) => Some (r, len, mkS f co v g p e h m c, rest)
  | _ => None
  end.

(** The result the data calls for. *)
Definition start_result (d : list Z) : ske_result SilcSKEStartPayload :=
  match dec_start d with
  | Some (r, len, s, _) =>
      if negb (r =? 0) then SkeErr SILC_SKE_STATUS_BAD_RESERVED_FIELD
      else if negb (len =? zlen d) then SkeErr SILC_SKE_STATUS_BAD_PAYLOAD_LENGTH
      else if negb (complete s) then SkeErr SILC_SKE_STATUS_BAD_PAYLOAD
      else SkeOk (start_of len s)
  | None => SkeErr SILC_SKE_STATUS_BAD_PAYLOAD
  end.

Lemma start_fields_ok : Forall field_ok start_fields.
Proof. by repeat constructor. Qed.

Lemma zlen_enc_start r len s :
  zlen (s_cookie s) = 16 -> zlen (enc_start r len s) = start_size s.
Proof. intros H. unfold enc_start, enc_fields, start_size. cbn. zl. Qed.

Lemma dec_start_spec d r len s rest :
  bytes_ok d ->
  dec_start d = Some (r, len, s, rest) <->
  d = enc_start r len s ++ rest /\ start_fits r len s.
Proof.
  intros Hd. unfold dec_start. split.
  - destruct (dec_fields start_fields d) as [[vs rest']|] eqn:E; [|done].
    apply enc_dec_fields in E as (-> & Hv & _); [|apply start_fields_ok|done].
    pose proof Hv as Hv'. unfold start_fields in Hv. fvals. intros. by simplify_eq.
  - intros [-> Hf]. unfold enc_start. rewrite dec_enc_fields by done. by destruct s.
Qed.

Lemma block_none x : 0 < zlen x -> bool_decide (block x = None) = false.
Proof.
  intros H. apply bool_decide_eq_false_2. unfold block. case_decide; [by subst|done].
Qed.

Lemma start_decode_ok h d :
  zlen h + zlen d < 2147483648 -> bytes_ok d ->
  silc_ske_payload_start_decode (of_areas h d []) = start_result d.
Proof.
  intros Hs Hd. unfold silc_ske_payload_start_decode, start_result, dec_start.
  pose proof (unformat_fields h d start_fields Hs start_fields_ok) as H.
  change (uf_of <$> start_fields) with
    [U_UI8_CHAR; U_UI8_CHAR; U_UI16_SHORT; U_DATA_ALLOC SILC_SKE_COOKIE_LEN;
     U_NSTRING_ALLOC UI16; U_NSTRING_ALLOC UI16; U_NSTRING_ALLOC UI16;
     U_NSTRING_ALLOC UI16; U_NSTRING_ALLOC UI16; U_NSTRING_ALLOC UI16;
     U_NSTRING_ALLOC UI16] in H.
  destruct (dec_fields start_fields d) as [[vs rest]|] eqn:E; cycle 1.
  { destruct H as [o ->]. done. }
  pose proof (dec_fields_vals _ _ _ _ start_fields_ok Hd E) as (El & Hv & Hr).
  destruct H as [-> ->]. unfold start_fields in Hv. fvals.
  cbn [start_fields uvals_of zip_with uval_of]. rewrite of_areas_len by zl.
  destruct (negb (x =? 0)); [done|]. destruct (negb (x1 =? zlen d)); [done|].
  unfold start_missing, complete. cbn [cookie version_len ke_grp_len pkcs_alg_len
    enc_alg_len hash_alg_len hmac_alg_len s_version s_grp s_pkcs s_enc s_hash s_hmac].
  rewrite negb_involutive, block_none, orb_false_l by lia. by case_match.
Qed.

(** Data of this side: the bytes may be followed by others, and no bytes may be
    NULL. *)
Definition data_of (x : list Z) (n : Z) (p : option (list Z)) : Prop :=
  n = zlen x /\ ((exists t, p = Some (x ++ t)) \/ (p = None /\ x = [])).

Lemma data_arg_of x n p : data_of x n p -> data_arg (PARAM_NSTRING p n).
Proof. intros [-> [[t ->]|[-> ->]]]; cbn; [|done]. rewrite zlen_app. zlen_facts. lia. Qed.

Lemma enc_arg_of x n p : data_of x n p -> enc_arg (PARAM_NSTRING p n) = x.
Proof. intros [-> [[t ->]|[-> ->]]]; cbn; [|done]. by rewrite ztake_app_exact. Qed.

(** A payload made by this side. *)
Definition payload_of (s : start) (p : SilcSKEStartPayload) : Prop :=
  sp_flags p = s_flags s /\ sp_len p = start_size s /\
  data_of (s_cookie s) (cookie_len p) (cookie p) /\
  data_of (s_version s) (version_len p) (version p) /\
  data_of (s_grp s) (ke_grp_len p) (ke_grp_list p) /\
  data_of (s_pkcs s) (pkcs_alg_len p) (pkcs_alg_list p) /\
  data_of (s_enc s) (enc_alg_len p) (enc_alg_list p) /\
  data_of (s_hash s) (hash_alg_len p) (hash_alg_list p) /\
  data_of (s_hmac s) (hmac_alg_len p) (hmac_alg_list p) /\
  data_of (s_comp s) (comp_alg_len p) (comp_alg_list p).

Lemma start_ok_fits s : start_ok s -> start_fits 0 (start_size s) s.
Proof.
  intros (Hf & Hc & Hs & _). unfold start_size in *. zlen_facts.
  repeat constructor; cbn; lia.
Qed.

Lemma start_encode_ok s p :
  start_ok s -> payload_of s p ->
  silc_ske_payload_start_encode (Some p) = SkeOk (whole (enc_start 0 (start_size s) s)).
Proof.
  intros Hok (Ef & El & D1 & D2 & D3 & D4 & D5 & D6 & D7 & D8).
  pose proof Hok as (Hf & Hc & Hs & _).
  unfold silc_ske_payload_start_encode. rewrite Ef, El.
  pose proof Hs as Hs'. unfold start_size in Hs'. zlen_facts.
  assert (0 < start_size s) by (unfold start_size; lia).
  rewrite alloc_size_areas by (unfold SILC_MAX_ALLOC; lia).
  fold (whole (zeros (start_size s))).
  assert (Ee : enc_args
    [PARAM_UI8_CHAR 0; PARAM_UI8_CHAR (s_flags s); PARAM_UI16_SHORT (start_size s);
     PARAM_NSTRING (cookie p) (cookie_len p);
     PARAM_UI16_SHORT (version_len p); PARAM_NSTRING (version p) (version_len p);
     PARAM_UI16_SHORT (ke_grp_len p); PARAM_NSTRING (ke_grp_list p) (ke_grp_len p);
     PARAM_UI16_SHORT (pkcs_alg_len p); PARAM_NSTRING (pkcs_alg_list p) (pkcs_alg_len p);
     PARAM_UI16_SHORT (enc_alg_len p); PARAM_NSTRING (enc_alg_list p) (enc_alg_len p);
     PARAM_UI16_SHORT (hash_alg_len p); PARAM_NSTRING (hash_alg_list p) (hash_alg_len p);
     PARAM_UI16_SHORT (hmac_alg_len p); PARAM_NSTRING (hmac_alg_list p) (hmac_alg_len p);
     PARAM_UI16_SHORT (comp_alg_len p); PARAM_NSTRING (comp_alg_list p) (comp_alg_len p)]
    = enc_start 0 (start_size s) s).
  { unfold enc_args. cbn [fmap list_fmap concat].
    rewrite (enc_arg_of _ _ _ D1), (enc_arg_of _ _ _ D2), (enc_arg_of _ _ _ D3),
      (enc_arg_of _ _ _ D4), (enc_arg_of _ _ _ D5), (enc_arg_of _ _ _ D6),
      (enc_arg_of _ _ _ D7), (enc_arg_of _ _ _ D8).
    rewrite (proj1 D2), (proj1 D3), (proj1 D4), (proj1 D5), (proj1 D6), (proj1 D7), (proj1 D8).
    unfold enc_start, enc_fields. cbn [enc_arg start_fields start_vals
      zip_with enc_field concat app]. by rewrite <- ?app_assoc. }
  rewrite format_whole.
  - rewrite Ee, (proj2 (Z.eqb_neq _ _)) by lia. done.
  - pose proof (data_arg_of _ _ _ D1). pose proof (data_arg_of _ _ _ D2).
    pose proof (data_arg_of _ _ _ D3). pose proof (data_arg_of _ _ _ D4).
    pose proof (data_arg_of _ _ _ D5). pose proof (data_arg_of _ _ _ D6).
    pose proof (data_arg_of _ _ _ D7). pose proof (data_arg_of _ _ _ D8).
    repeat (apply list.Forall_cons; split; [done|]). done.
  - rewrite Ee. by apply zlen_enc_start.
  - unfold SILC_MAX_ALLOC. lia.
Qed.

(** What a Key Exchange Payload says: the type and data of the public key, the
    bytes of the Diffie-Hellman value and the signature. *)
Record ke := mkK { k_type : Z; k_pk : list Z; k_x : list Z; k_sign : list Z }.

Definition ke_head : list field := [F16; F16].
Definition ke_tail (n : Z) : list field := [FD n; FS16; FS16].

Definition enc_ke (k : ke) : list Z :=
  enc_fields ke_head [FInt (zlen (k_pk k)); FInt (k_type k)] ++
  enc_fields (ke_tail (zlen (k_pk k))) [FStr (k_pk k); FStr (k_x k); FStr (k_sign k)].

Definition ke_fits (k : ke) : Prop :=
  zlen (k_pk k) < 65536 /\ 0 <= k_type k < 65536 /\ zlen (k_x k) < 65536 /\
  zlen (k_sign k) < 65536.

Definition dec_ke (d : list Z) : option (ke * list Z) :=
  match dec_fields ke_head d with
  | Some ([FInt n; FInt t], d) =>
      match dec_fields (ke_tail n) d with
      | Some ([FStr pk; FStr x; FStr sg], rest) => Some (mkK t pk x sg, rest)
      | _ => None
      end
  | _ => None
  end.

(** What the decoder asks of the contents; [sp] is [ske->start_payload]. *)
Definition ke_acceptable (sp : option SilcSKEStartPayload) (k : ke) : bool :=
  (negb (bool_decide (is_Some sp)) ||
   ((1 <=? k_type k) && (k_type k <=? 5) && (1 <=? zlen (k_pk k)))) &&
  (16 <=? zlen (k_x k)) && (negb (mutual sp) || (3 <=? zlen (k_sign k))).

Definition ke_of (k : ke) : SilcSKEKEPayload :=
  mkKE (zlen (k_pk k)) (block (k_pk k)) (k_type k) (foldl bin2mp_round 0 (k_x k))
    (zlen (k_sign k)) (block (k_sign k)).

(** The result the data calls for. *)
Definition ke_result (sp : option SilcSKEStartPayload) (d : list Z)
    : ske_result SilcSKEKEPayload :=
  match dec_ke d with
  | Some (k, rest) =>
      if ke_acceptable sp k then
        if zlen rest =? 0 then SkeOk (ke_of k) else SkeErr SILC_SKE_STATUS_BAD_PAYLOAD_LENGTH
      else SkeErr SILC_SKE_STATUS_BAD_PAYLOAD
  | None => SkeErr SILC_SKE_STATUS_BAD_PAYLOAD
  end.

Lemma ke_head_ok : Forall field_ok ke_head.
Proof. by repeat constructor. Qed.

Lemma ke_tail_ok n : 0 <= n < 65536 -> Forall field_ok (ke_tail n).
Proof. intros H. repeat constructor; cbn; lia. Qed.

Lemma ke_tail_fits k :
  ke_fits k ->
  Forall2 fval_ok (ke_tail (zlen (k_pk k))) [FStr (k_pk k); FStr (k_x k); FStr (k_sign k)].
Proof. intros (?&?&?&?). repeat constructor; cbn; zlen_facts; lia. Qed.

Lemma zlen_enc_ke k :
  zlen (enc_ke k) = 8 + zlen (k_pk k) + zlen (k_x k) + zlen (k_sign k).
Proof. unfold enc_ke, enc_fields. cbn. zl. Qed.

Lemma dec_ke_spec d k rest :
  bytes_ok d -> dec_ke d = Some (k, rest) <-> d = enc_ke k ++ rest /\ ke_fits k.
Proof.
  intros Hd. unfold dec_ke. split.
  - destruct (dec_fields ke_head d) as [[vs d']|] eqn:E; [|done].
    apply enc_dec_fields in E as (-> & Hv & Hd'); [|apply ke_head_ok|done].
    unfold ke_head in Hv. fvals. destruct (dec_fields (ke_tail x) d') as [[vs r]|] eqn:E; [|done].
    apply enc_dec_fields in E as (-> & Hw & Hr); [|by apply ke_tail_ok|done].
    unfold ke_tail in Hw. fvals. intros. simplify_eq.
    match goal with H : zlen _ = _ /\ _ |- _ => destruct H as [<- _] end.
    split; [|unfold ke_fits; cbn; lia]. unfold enc_ke. cbn [k_pk k_type k_x k_sign].
    by rewrite <- app_assoc.
  - intros [-> Hf]. pose proof Hf as (?&?&?&?). unfold enc_ke. rewrite <- app_assoc.
    rewrite dec_enc_fields by (repeat constructor; cbn; zlen_facts; lia).
    rewrite dec_enc_fields by (by apply ke_tail_fits). by destruct k.
Qed.

Lemma block_take x n : n <= zlen x -> ztake n (default [] (block x)) = ztake n x.
Proof.
  intros H. unfold block. case_decide; [by subst|]. cbn. by rewrite ztake_app_l.
Qed.

Lemma block_none_len x : bool_decide (block x = None) = (zlen x =? 0).
Proof.
  unfold block. case_decide; [by subst|].
  destruct (Z.eqb_spec (zlen x) 0) as [E|E]; [by apply zlen_zero_nil in E|done].
Qed.

Lemma ke_decode_ok sp h d :
  zlen h + zlen d < 2147483648 -> bytes_ok d ->
  silc_ske_payload_ke_decode sp (of_areas h d []) = ke_result sp d.
Proof.
  intros Hs Hd. unfold silc_ske_payload_ke_decode, ke_result, dec_ke.
  rewrite of_areas_len by zl.
  pose proof (unformat_fields h d ke_head Hs ke_head_ok) as H.
  change (uf_of <$> ke_head) with [U_UI16_SHORT; U_UI16_SHORT] in H.
  destruct (dec_fields ke_head d) as [[vs d']|] eqn:E; cycle 1.
  { destruct H as [o ->]. done. }
  destruct H as [-> ->]. apply enc_dec_fields in E as (-> & Hv & Hd'); [|apply ke_head_ok|done].
  unfold ke_head in Hv. fvals. cbn [ke_head uvals_of zip_with uval_of].
  set (e := enc_fields ke_head [FInt x; FInt x0]) in *.
  assert (He : zlen e = 4) by (unfold e, enc_fields; cbn; zl). rewrite zlen_app in *.
  rewrite <- He, pull_areas by zl. cbn [fst].
  pose proof (unformat_fields (h ++ e) d' (ke_tail x) ltac:(zl) ltac:(by apply ke_tail_ok)) as H.
  change (uf_of <$> ke_tail x) with [U_DATA_ALLOC x; U_NSTRING_ALLOC UI16; U_NSTRING_ALLOC UI16] in H.
  destruct (dec_fields (ke_tail x) d') as [[vs r]|] eqn:E; cycle 1.
  { destruct H as [o ->]. by case_match. }
  destruct H as [-> ->]. apply enc_dec_fields in E as (-> & Hw & Hr); [|by apply ke_tail_ok|done].
  unfold ke_tail in Hw. fvals. cbn [ke_tail uvals_of zip_with uval_of].
  match goal with H : zlen _ = _ /\ _ |- _ => destruct H as [<- _] end.
  set (k := mkK x0 x1 x2 x3).
  assert (El : zlen (enc_fields (ke_tail (zlen x1)) [FStr x1; FStr x2; FStr x3]) =
               zlen x1 + (2 + zlen x2) + (2 + zlen x3)) by (unfold enc_fields; cbn; zl).
  rewrite zlen_app, El, He. zlen_facts. rewrite u32_id by lia.
  set (c1 := bool_decide (is_Some sp) && _). set (c3 := mutual sp && _).
  assert (Ea : ke_acceptable sp k = negb c1 && negb (zlen x2 <? 16) && negb c3).
  { unfold c1, c3, ke_acceptable, SILC_SKE_PK_TYPE_SILC, SILC_SKE_PK_TYPE_SPKI.
    rewrite block_none_len. cbn [k_type k_pk k_x k_sign].
    destruct (bool_decide (is_Some sp)), (mutual sp); cbn; lia. }
  rewrite Ea. destruct c1, (zlen x2 <? 16), c3; cbn [negb andb]; try done.
  replace (silc_mp_bin2mp (default [] (block x2)) (zlen x2)) with (foldl bin2mp_round 0 x2)
    by (unfold silc_mp_bin2mp; rewrite block_take, ztake_ge by lia; done).
  destruct (Z.eqb_spec (zlen r) 0) as [Er|Er].
  - rewrite (proj2 (Z.eqb_eq _ _)) by lia. done.
  - rewrite (proj2 (Z.eqb_neq _ _)) by lia. done.
Qed.

(** A payload made by this side; a missing signature is a NULL of length 0. *)
Definition ke_payload_of (k : ke) (v : Z) (p : SilcSKEKEPayload) : Prop :=
  k_x k = mp_bytes v /\ ke_x p = v /\ pk_type p = k_type k /\
  data_of (k_pk k) (pk_len p) (pk_data p) /\ data_of (k_sign k) (sign_len p) (sign_data p).

Lemma ke_encode_ok sp k v p :
  ke_fits k -> ke_payload_of k v p -> (mutual sp = true -> sign_data p <> None) ->
  silc_ske_payload_ke_encode sp (Some p) = SkeOk (whole (enc_ke k)).
Proof.
  intros (F1 & F2 & F3 & F4) (Hx & Hv & Ht & Hp & Hg) Hm. unfold silc_ske_payload_ke_encode.
  replace (mutual sp && bool_decide (sign_data p = None)) with false; cycle 1.
  { destruct (mutual sp); [|done]. symmetry. apply bool_decide_eq_false_2. by apply Hm. }
  pose proof (mp_bytes_len v) as Hl. rewrite <- Hx in Hl. rewrite Hv.
  rewrite mp2bin_auto by (unfold SILC_MAX_ALLOC; lia). rewrite <- Hx, <- Hl.
  pose proof (zlen_enc_ke k) as El. destruct Hp as [En Hp], Hg as [Es Hg].
  rewrite En, Es. zlen_facts. rewrite u32_id by lia.
  rewrite alloc_size_areas by (unfold SILC_MAX_ALLOC; lia).
  fold (whole (zeros (4 + zlen (k_pk k) + 2 + zlen (k_x k) + 2 + zlen (k_sign k)))).
  pose proof (conj (eq_refl (zlen (k_pk k))) Hp : data_of _ _ _) as Dp.
  pose proof (conj (eq_refl (zlen (k_sign k))) Hg : data_of _ _ _) as Dg.
  rewrite format_whole.
  - rewrite (proj2 (Z.eqb_neq _ _)) by lia. do 2 f_equal. unfold enc_args.
    cbn [fmap list_fmap concat]. rewrite (enc_arg_of _ _ _ Dp), (enc_arg_of _ _ _ Dg).
    unfold enc_ke, enc_fields. cbn [enc_arg ke_head ke_tail zip_with enc_field concat app].
    by rewrite ztake_ge, Ht, !app_nil_r, <- ?app_assoc by done.
  - apply list.Forall_cons. split; [done|]. apply list.Forall_cons. split; [done|].
    apply list.Forall_cons. split; [by eapply data_arg_of|].
    apply list.Forall_cons. split; [done|]. apply list.Forall_cons. split; [cbn; lia|].
    apply list.Forall_cons. split; [done|]. apply list.Forall_cons.
    split; [by eapply data_arg_of|done].
  - unfold enc_args. cbn [fmap list_fmap concat].
    rewrite (enc_arg_of _ _ _ Dp), (enc_arg_of _ _ _ Dg). cbn [enc_arg].
    rewrite ztake_ge by done. zl.
  - unfold SILC_MAX_ALLOC. lia.
Qed.

Lemma ke_bytes_ok k : bytes_ok (k_pk k) -> bytes_ok (k_x k) -> bytes_ok (k_sign k) ->
  bytes_ok (enc_ke k).
Proof.
  intros. unfold enc_ke, bytes_ok. apply Forall_app_2; apply enc_fields_bytes;
    by repeat constructor.
Qed.

Lemma ke_decode_encoded sp k v :
  0 <= v -> k_x k = mp_bytes v -> bytes_ok (k_pk k) -> bytes_ok (k_sign k) -> ke_fits k ->
  silc_ske_payload_ke_decode sp (whole (enc_ke k)) =
  if ke_acceptable sp k
  then SkeOk (mkKE (zlen (k_pk k)) (block (k_pk k)) (k_type k) v (zlen (k_sign k))
                (block (k_sign k)))
  else SkeErr SILC_SKE_STATUS_BAD_PAYLOAD.
Proof.
  intros Hv Hx Bp Bs Hf. pose proof Hf as (F1 & F2 & F3 & F4).
  assert (Bk : bytes_ok (enc_ke k)).
  { apply ke_bytes_ok; [done| |done]. rewrite Hx. apply be_bytes. }
  unfold whole. rewrite ke_decode_ok by (rewrite ?zlen_enc_ke; zl || done). unfold ke_result.
  rewrite (proj2 (dec_ke_spec (enc_ke k) k [] Bk)) by (by rewrite app_nil_r).
  case_match; [|done]. cbn. unfold ke_of. f_equal. f_equal.
  pose proof (bin2mp_mp_bytes v [] Hv) as E. unfold silc_mp_bin2mp in E.
  rewrite app_nil_r, ztake_ge in E by (by rewrite mp_bytes_len). by rewrite Hx.
Qed.

Lemma start_bytes_ok r len s : start_bytes s -> bytes_ok (enc_start r len s).
Proof.
  unfold start_bytes. rewrite !list.Forall_cons. intros (?&?&?&?&?&?&?&?&_).
  apply enc_fields_bytes. by repeat constructor.
Qed.

Lemma start_result_ok s rest :
  start_ok s -> start_bytes s -> bytes_ok rest -> start_size s + zlen rest < 65536 ->
  start_result (enc_start 0 (start_size s + zlen rest) s ++ rest) =
  SkeOk (start_of (start_size s + zlen rest) s).
Proof.
  intros Hok Hb Hr Hl. set (d := _ ++ rest). set (len := start_size s + zlen rest) in *.
  assert (Hf : start_fits 0 len s).
  { pose proof (start_ok_fits s Hok) as Hf. unfold start_fits, start_vals in *.
    unfold start_fields in *. repeat (apply Forall2_cons_1 in Hf as [? Hf]).
    assert (0 <= len) by (unfold len, start_size; zl).
    repeat (constructor; [first [assumption|cbn; lia]|]). constructor. }
  assert (Hd : bytes_ok d) by (apply Forall_app_2; [by apply start_bytes_ok|done]).
  unfold start_result. rewrite (proj2 (dec_start_spec d 0 len s rest Hd)) by done.
  destruct Hok as (_ & Hc & _ & Hm). cbn [Z.eqb negb].
  assert (El : len = zlen d) by (unfold d, len; rewrite zlen_app, zlen_enc_start by done; lia).
  rewrite (proj2 (Z.eqb_eq _ _) El), Hm. done.
Qed.

Lemma decode_encoded s :
  start_ok s -> start_bytes s ->
  silc_ske_payload_start_decode (whole (enc_start 0 (start_size s) s)) =
  SkeOk (start_of (start_size s) s).
Proof.
  intros Hok Hb. pose proof Hok as (_ & Hc & Hs & _).
  pose proof (start_result_ok s [] Hok Hb ltac:(constructor)) as E.
  rewrite zlen_nil, Z.add_0_r, app_nil_r in E. unfold whole. rewrite start_decode_ok.
  - by apply E.
  - rewrite zlen_enc_start by done. zl.
  - by apply start_bytes_ok.
Qed.

(** [d] starts with the payload [s] whose reserved byte is [x] and that says
    it is [len] bytes long. *)
Definition says (d : list Z) (x len : Z) (s : start) : Prop :=
  start_fits x len s /\ exists rest, d = enc_start x len s ++ rest.

Lemma dec_start_says d :
  bytes_ok d ->
  match dec_start d with
  | Some (x, len, s, _) =>
      says d x len s /\
      forall x' len' s', says d x' len' s' -> x' = x /\ len' = len /\ s' = s
  | None => forall x len s, ~ says d x len s
  end.
Proof.
  intros Hd. pose proof (dec_start_spec d) as D.
  destruct (dec_start d) as [[[[x len] s] rest]|].
  - pose proof (proj1 (D x len s rest Hd) eq_refl) as [E Hf].
    split; [split; [done|by exists rest]|]. intros x' len' s' [Hf' [rest' E']].
    pose proof (proj2 (D x' len' s' rest' Hd) (conj E' Hf')) as Eq. by simplify_eq.
  - intros x len s [Hf [rest E]]. by pose proof (proj2 (D x len s rest Hd) (conj E Hf)).
Qed.

(** [d] starts with the payload [k], or is that payload. *)
Definition ke_says (d : list Z) (k : ke) : Prop :=
  ke_fits k /\ exists rest, d = enc_ke k ++ rest.
Definition ke_is (d : list Z) (k : ke) : Prop := ke_fits k /\ d = enc_ke k.

Lemma dec_ke_says d :
  bytes_ok d ->
  match dec_ke d with
  | Some (k, rest) =>
      ke_says d k /\ (ke_is d k <-> zlen rest = 0) /\ (forall k', ke_says d k' -> k' = k) /\
      (forall k', ke_is d k' -> ke_says d k')
  | None => (forall k, ~ ke_says d k) /\ (forall k, ~ ke_is d k)
  end.
Proof.
  intros Hd. pose proof (dec_ke_spec d) as D.
  assert (I : forall k, ke_is d k -> ke_says d k).
  { intros k [Hf E]. split; [done|]. exists []. by rewrite app_nil_r. }
  destruct (dec_ke d) as [[k rest]|].
  - pose proof (proj1 (D k rest Hd) eq_refl) as [E Hf].
    split; [split; [done|by exists rest]|]. split; [split|split; [|done]].
    + intros [_ E']. rewrite E' in E. apply (f_equal zlen) in E. rewrite zlen_app in E. lia.
    + intros Er. apply zlen_zero_nil in Er as ->. split; [done|]. by rewrite app_nil_r in E.
    + intros k' [Hf' [rest' E']].
      pose proof (proj2 (D k' rest' Hd) (conj E' Hf')) as Eq. by simplify_eq.
  - assert (N : forall k, ~ ke_says d k).
    { intros k [Hf [rest E]]. by pose proof (proj2 (D k rest Hd) (conj E Hf)). }
    split; [done|]. intros k Hk. by apply (N k), I.
Qed.

(** Both directions of a description of a known result: the result names the
    case, and in every other case the payload is not the one it is. *)
Ltac cases U V :=
  split;
  [let EQ := fresh in intros EQ; first [discriminate EQ|injection EQ as <-; eauto 9]
  |intros ?;
   repeat match goal with
   | H : exists _, _ |- _ => destruct H
   | H : _ /\ _ |- _ => destruct H
   | H : _ \/ _ |- _ => destruct H
   end;
   try match goal with
   | N : forall _ _ _, ~ says _ _ _ _, P : says _ _ _ _ |- _ => by destruct (N _ _ _ P)
   | N : forall _, ~ ke_says _ _, P : ke_says _ _ |- _ => by destruct (N _ P)
   end;
   repeat match goal with
   | P : says _ _ _ _ |- _ => apply U in P as (? & ? & ?)
   | P : ke_says _ ?k |- _ => pose proof (U k P); subst k
   | P : ke_is _ ?k |- _ => pose proof (V k P); subst k
   end; subst; congruence].

(** ** Properties *)

(** C9: decoding a Start Payload: it succeeds exactly on payloads whose reserved
    byte is zero, which say their true length and have every mandatory field,
    with these fields as the result (bytes after the last field are accepted
    when the length counts them); a payload that cannot be cut into fields, or
    misses one, is BAD_PAYLOAD, a nonzero reserved byte BAD_RESERVED_FIELD and
    otherwise a wrong length BAD_PAYLOAD_LENGTH; and there is no other error. *)
Theorem start_decode_errors (d : list Z) :
  bytes_ok d -> zlen d < 2147483648 ->
  let r := silc_ske_payload_start_decode (silc_buffer_set d (zlen d)) in
  (forall p, r = SkeOk p <->
     exists s, says d 0 (zlen d) s /\ complete s = true /\ p = start_of (zlen d) s) /\
  (forall e, r = SkeErr e <->
     (e = SILC_SKE_STATUS_BAD_RESERVED_FIELD /\ exists x len s, x <> 0 /\ says d x len s) \/
     (e = SILC_SKE_STATUS_BAD_PAYLOAD_LENGTH /\
        exists len s, len <> zlen d /\ says d 0 len s) \/
     (e = SILC_SKE_STATUS_BAD_PAYLOAD /\
        ((forall x len s, ~ says d x len s) \/
         exists s, says d 0 (zlen d) s /\ complete s = false))).
Proof.
  intros Hd Hs. cbn zeta. rewrite set_areas, start_decode_ok by zl || done.
  pose proof (dec_start_says d Hd) as D. unfold start_result.
  destruct (dec_start d) as [[[[x len] s] rest]|]; [destruct D as [P U]|].
  - destruct (Z.eqb_spec x 0) as [->|]; cbn [negb]; [|split; intros; cases U U].
    destruct (Z.eqb_spec len (zlen d)) as [->|]; cbn [negb]; [|split; intros; cases U U].
    destruct (complete s) eqn:Ec; cbn [negb]; split; intros; cases U U.
  - split; intros; cases D D.
Qed.

(** A complete start payload, for the examples. *)
Definition ex_start : start :=
  mkS 4 (replicate 16 7) [83] [103; 49] [114] [97] [115] [109] [110].

Lemma start_decode_errors_witness :
  let d := enc_start 0 43 ex_start ++ [0] in
  let r := silc_ske_payload_start_decode (silc_buffer_set d (zlen d)) in
  r = SkeOk (start_of 43 ex_start) /\
  (forall p, r = SkeOk p <->
     exists s, says d 0 (zlen d) s /\ complete s = true /\ p = start_of (zlen d) s) /\
  (forall e, r = SkeErr e <->
     (e = SILC_SKE_STATUS_BAD_RESERVED_FIELD /\ exists x len s, x <> 0 /\ says d x len s) \/
     (e = SILC_SKE_STATUS_BAD_PAYLOAD_LENGTH /\
        exists len s, len <> zlen d /\ says d 0 len s) \/
     (e = SILC_SKE_STATUS_BAD_PAYLOAD /\
        ((forall x len s, ~ says d x len s) \/
         exists s, says d 0 (zlen d) s /\ complete s = false))).
Proof.
  cbn zeta. split; [vm_compute; reflexivity|].
  apply (start_decode_errors (enc_start 0 43 ex_start ++ [0])); [|done].
  apply (bool_decide_unpack _). vm_compute. exact I.
Defined.

(** C40: decoding a Key Exchange Payload: it succeeds exactly on a payload with
    nothing after its signature that has, when the properties are negotiated, a
    public key of a known type, that has a Diffie-Hellman value of at least 16
    bytes and, under mutual authentication, a signature of at least 3; the
    integer is that value; bytes after an acceptable payload are
    BAD_PAYLOAD_LENGTH, and everything else is BAD_PAYLOAD. *)
Theorem ke_decode_errors (sp : option SilcSKEStartPayload) (d : list Z) :
  bytes_ok d -> zlen d < 2147483648 ->
  let r := silc_ske_payload_ke_decode sp (silc_buffer_set d (zlen d)) in
  (forall p, r = SkeOk p <-> exists k, ke_is d k /\ ke_acceptable sp k = true /\ p = ke_of k) /\
  (forall e, r = SkeErr e <->
     (e = SILC_SKE_STATUS_BAD_PAYLOAD_LENGTH /\
        exists k, ke_says d k /\ ke_acceptable sp k = true /\ ~ ke_is d k) \/
     (e = SILC_SKE_STATUS_BAD_PAYLOAD /\
        ((forall k, ~ ke_says d k) \/
         exists k, ke_says d k /\ ke_acceptable sp k = false))).
Proof.
  intros Hd Hs. cbn zeta. rewrite set_areas, ke_decode_ok by zl || done.
  pose proof (dec_ke_says d Hd) as D. unfold ke_result.
  destruct (dec_ke d) as [[k rest]|]; [destruct D as (P & Q & U & I)|destruct D as [D I]].
  - assert (V : forall k', ke_is d k' -> k' = k) by (intros k' ?; by apply U, I). clear I.
    destruct (ke_acceptable sp k) eqn:Ea; [destruct (Z.eqb_spec (zlen rest) 0) as [E|E]|].
    + apply Q in E. split; intros; cases U V.
    + assert (N : ~ ke_is d k) by (by intros ?%Q). clear Q. split; intros; cases U V.
    + clear Q. split; intros; cases U V.
  - split; [intros p; split; [done|intros (k & K & _); by destruct (I k K)]|].
    intros e. split; [intros [= <-]; eauto|].
    intros [(-> & k & K & _)|[-> _]]; [by destruct (D k K)|done].
Qed.

Lemma ke_decode_errors_witness :
  let d := enc_ke (mkK 1 [5; 6] (replicate 16 9) [1; 2; 3]) ++ [0] in
  let r := silc_ske_payload_ke_decode None (silc_buffer_set d (zlen d)) in
  r = SkeErr SILC_SKE_STATUS_BAD_PAYLOAD_LENGTH /\
  (forall p, r = SkeOk p <->
     exists k, ke_is d k /\ ke_acceptable None k = true /\ p = ke_of k) /\
  (forall e, r = SkeErr e <->
     (e = SILC_SKE_STATUS_BAD_PAYLOAD_LENGTH /\
        exists k, ke_says d k /\ ke_acceptable None k = true /\ ~ ke_is d k) \/
     (e = SILC_SKE_STATUS_BAD_PAYLOAD /\
        ((forall k, ~ ke_says d k) \/
         exists k, ke_says d k /\ ke_acceptable None k = false))).
Proof.
  cbn zeta. split; [vm_compute; reflexivity|].
  apply (ke_decode_errors None (enc_ke (mkK 1 [5; 6] (replicate 16 9) [1; 2; 3]) ++ [0]));
    [|done].
  apply (bool_decide_unpack _). vm_compute. exact I.
Defined.

(** C39: key exchange payloads round trip: what one side encodes the other
    decodes, with the lists, the public key, the signature and the integer it
    was given; an integer of fewer than 16 bytes is refused. *)
Theorem ske_payload_roundtrip (sp : option SilcSKEStartPayload) (s : start)
    (p : SilcSKEStartPayload) (k : ke) (v : Z) (q : SilcSKEKEPayload) :
  start_ok s -> start_bytes s -> payload_of s p ->
  0 <= v -> bytes_ok (k_pk k) -> bytes_ok (k_sign k) -> ke_fits k -> ke_payload_of k v q ->
  (mutual sp = true -> sign_data q <> None) ->
  (exists b, silc_ske_payload_start_encode (Some p) = SkeOk b /\
     silc_ske_payload_start_decode b = SkeOk (start_of (start_size s) s)) /\
  (exists b, silc_ske_payload_ke_encode sp (Some q) = SkeOk b /\
     silc_ske_payload_ke_decode sp b =
       if ke_acceptable sp k
       then SkeOk (mkKE (zlen (k_pk k)) (block (k_pk k)) (k_type k) v (zlen (k_sign k))
                     (block (k_sign k)))
       else SkeErr SILC_SKE_STATUS_BAD_PAYLOAD).
Proof.
  intros Hok Hb Hp Hv Bp Bs Hf Hk Hm. split.
  - eexists. split; [by apply start_encode_ok|by apply decode_encoded].
  - pose proof Hk as (Hx & _). eexists. split; [by eapply ke_encode_ok|].
    by apply ke_decode_encoded.
Qed.

(** The payloads of the examples: strings end with a NUL. *)
Definition ex_payload : SilcSKEStartPayload := start_of 42 ex_start.
Definition ex_ke : ke := mkK 1 [5; 6] (mp_bytes (2 ^ 127)) [1; 2; 3].

Lemma ske_payload_roundtrip_witness :
  (exists b, silc_ske_payload_start_encode (Some ex_payload) = SkeOk b /\
     silc_ske_payload_start_decode b = SkeOk ex_payload) /\
  (exists b,
     silc_ske_payload_ke_encode (Some ex_payload)
       (Some (mkKE 2 (Some [5; 6]) 1 (2 ^ 127) 3 (Some [1; 2; 3]))) = SkeOk b /\
     silc_ske_payload_ke_decode (Some ex_payload) b =
       SkeOk (mkKE 2 (Some [5; 6; 0]) 1 (2 ^ 127) 3 (Some [1; 2; 3; 0]))).
Proof.
  apply (ske_payload_roundtrip (Some ex_payload) ex_start ex_payload ex_ke (2 ^ 127)
           (mkKE 2 (Some [5; 6]) 1 (2 ^ 127) 3 (Some [1; 2; 3]))).
  - repeat split; vm_compute; congruence.
  - apply (bool_decide_unpack _). vm_compute. exact I.
  - repeat split; left; by exists [0].
  - done.
  - by repeat constructor.
  - by repeat constructor.
  - repeat split; vm_compute; congruence.
  - repeat split; left; by exists [].
  - done.
Defined.

(** A trailing byte is accepted when the payload's length counts it, although
    the check on the length is meant to find what follows the payload. *)
Lemma start_garbage_accepted :
  silc_ske_payload_start_decode (whole (enc_start 0 43 ex_start ++ [0])) =
  SkeOk (start_of 43 ex_start).
Proof. vm_compute. reflexivity. Qed.
