(* ===== verification/Registry.v ===== *)
(** * Registered algorithms ([silccipher.c], [silchash.c], [silchmac.c], [silcpkcs.c])

    Each kind of algorithm has a list of registered objects, found by name, and
    the comma separated string of their names, from which the key exchange makes
    its proposal.  The four libraries repeat the same code over their own object
    type; it is written once here, in the Section [List], and each function of
    the libraries is an instance.

    A list is NULL until something is registered and again when nothing is left.
    Its elements are the objects with the addresses they are allocated at. *)

From Stdlib Require Import Ascii String.
From S2P Require Import Prelude CTypes Memory Hmac Md5 MerkleDamgard Sha1 Sha256 StrUtil.
Local Open Scope Z_scope.

(** The characters of a literal, without the NUL. *)
Fixpoint chars (s : string) : list Z :=
  match s with
  | EmptyString => []
  | String a s => Z.of_N (N_of_ascii a) :: chars s
  end.

(** [strcmp(a, b) == 0]. *)
Definition streq (a b : list Z) : bool := bool_decide (c_string a = c_string b).

Section List.
Context {A : Type} (name : A -> list Z).
Implicit Types (l : list (nat * A)).

(** The object types: [None] for NULL. *)
Abbreviation registry := (option (list (nat * A))).

Definition elements (r : registry) : list (nat * A) := default [] r.

(** The first object with this name, as [silc_dlist_get] meets them. *)
Fixpoint find_name l (n : list Z) : option A :=
  match l with
  | [] => None
  | (_, e) :: l => if streq (name e) n then Some e else find_name l n
  end.

(** [new] is the address of the new object, which holds copies of the fields;
    an empty list is created first. *)
Definition register (exists_already : A -> bool) (new : nat) (obj : A) (r : registry)
    : registry * bool :=
  if existsb (fun e => exists_already e.2) (elements r) then (r, false)
  else (Some (elements r ++ [(new, obj)]), true).

(** [SILC_ALL_X] or a pointer to an object. *)
Inductive which := All | Ptr (p : nat).

Definition is_which (w : which) (p : nat) : bool :=
  match w with All => true | Ptr q => bool_decide (p = q) end.

(** The loop of [unregister]; [pre] has been passed.  The list left, and where
    the list's cursor is then. *)
Fixpoint unregister_loop (w : which) (pre l : list (nat * A))
    : option (list (nat * A) * list (nat * A)) :=
  match l with
  | [] => None
  | e :: l =>
      if is_which w e.1 then Some (pre ++ l, l) else unregister_loop w (pre ++ [e]) l
  end.

Definition or_null l : registry := match l with [] => None | _ => Some l end.

Definition unregister (w : which) (r : registry) : registry * bool :=
  match r with
  | None => (None, false)
  | Some l =>
      match unregister_loop w [] l with
      | Some (l', _) => (or_null l', true)
      | None => (Some l, false)
      end
  end.

(** [while ((entry = silc_dlist_get(list)) != SILC_LIST_END)]; unregistering
    goes through the list from its start again, which leaves the cursor behind
    the object removed.  [cur] is what is behind the cursor. *)
Fixpoint unregister_all_loop (fuel : nat) l (cur : list (nat * A)) : option registry :=
  match fuel with
  | O => None
  | S fuel =>
      match cur with
      | [] => Some (Some l)
      | e :: _ =>
          match unregister_loop (Ptr e.1) [] l with
          | Some ([], _) => Some None
          | Some (l', cur') => unregister_all_loop fuel l' cur'
          | None => Some (Some l)
          end
      end
  end.

Definition unregister_all (r : registry) : option (registry * bool) :=
  match r with
  | None => Some (None, false)
  | Some l =>
      match unregister_all_loop (S (length l)) l l with
      | Some r => Some (r, true)
      | None => None
      end
  end.

Definition is_supported (r : registry) (n : list Z) : bool :=
  bool_decide (is_Some (find_name (elements r) n)).

(** [len += strlen(name); list = realloc(list, len + 1); memcpy(...); len++]
    for each object.  [None] when the reallocation fails. *)
Fixpoint supported_loop l (list : list Z) (len : Z) : option (Datatypes.list Z * Z) :=
  match l with
  | [] => Some (list, len)
  | (_, e) :: l =>
      let n := c_string (name e) in
      let len := len + zlen n in
      match silc_realloc list (len + 1) with
      | None => None
      | Some list =>
          let list := splice (len - zlen n) n list in
          let list := splice len [44] list in
          supported_loop l list (len + 1)
      end
  end.

(** [list[len - 1] = 0]: [None] when this writes before the block, there being
    no object. *)
Definition get_supported (r : registry) : option (Datatypes.list Z) :=
  match supported_loop (elements r) [] 0 with
  | Some (list, len) => if len =? 0 then None else Some (splice (len - 1) [0] list)
  | None => None
  end.

(** ** What these do *)

Lemma find_name_some l n e :
  find_name l n = Some e -> e ∈ (snd <$> l) /\ c_string (name e) = c_string n.
Proof.
  induction l as [|[p x] l IH]; [done|]. cbn. unfold streq. case_bool_decide as C.
  - intros [= <-]. split; [by left|done].
  - intros E. destruct (IH E). split; [by right|done].
Qed.

Lemma find_name_none l n :
  find_name l n = None -> forall e, e ∈ (snd <$> l) -> c_string (name e) <> c_string n.
Proof.
  induction l as [|[p x] l IH]; cbn; unfold streq; intros E e He.
  - by apply not_elem_of_nil in He.
  - case_bool_decide; [done|]. apply elem_of_cons in He as [->|He]; [done|]. by apply IH.
Qed.

(** A registered object is found under its name, and under no other than its
    own when names differ. *)
Lemma is_supported_iff r n :
  is_supported r n = true <->
  exists e, e ∈ (snd <$> elements r) /\ c_string (name e) = c_string n.
Proof.
  unfold is_supported. rewrite bool_decide_eq_true. split.
  - intros [e E]. apply find_name_some in E. eauto.
  - intros (e & He & E). destruct (find_name (elements r) n) eqn:F; [by eexists|].
    by destruct (find_name_none _ _ F e He).
Qed.

Lemma unregister_loop_some w pre l :
  (exists p x q, l = p ++ x :: q /\ is_which w x.1 = true /\
     Forall (fun e => is_which w e.1 = false) p /\
     unregister_loop w pre l = Some (pre ++ p ++ q, q)) \/
  (Forall (fun e => is_which w e.1 = false) l /\ unregister_loop w pre l = None).
Proof.
  revert pre. induction l as [|e l IH]; intros pre; [by right|]. cbn [unregister_loop].
  destruct (is_which w e.1) eqn:W.
  - left. exists [], e, l. by repeat constructor.
  - destruct (IH (pre ++ [e])) as [(p & x & q & -> & Hx & Hp & ->)|[Hl ->]].
    + left. exists (e :: p), x, q. split; [done|]. split; [done|]. split; [by constructor|].
      by rewrite <- app_assoc.
    + right. split; [by constructor|done].
Qed.

(** All objects are unregistered, and the fuel is enough. *)
Lemma unregister_all_loop_ok l : forall fuel,
  (length l < fuel)%nat -> l <> [] -> unregister_all_loop fuel l l = Some None.
Proof.
  induction l as [|e l IH]; intros [|fuel] Hf Hl; cbn in Hf; try lia; [done|].
  cbn [unregister_all_loop unregister_loop is_which]. rewrite bool_decide_eq_true_2 by done.
  destruct l as [|e' l]; [done|]. by apply IH; [lia|].
Qed.

Lemma unregister_all_ok r :
  r <> Some [] ->
  unregister_all r = Some (None, match r with None => false | Some _ => true end).
Proof.
  destruct r as [l|]; [|done]. intros H. unfold unregister_all.
  rewrite unregister_all_loop_ok; [done|lia|by intros ->].
Qed.

Definition names l : list (list Z) := (fun e => c_string (name e.2)) <$> l.

(** Room for the names with a separator each. *)
Definition names_size l : Z :=
  Z.of_nat (sum_list_with (fun n => (length n + 1)%nat) (names l)).

Lemma supported_loop_ok l : forall list len,
  zlen (A := Z) list = len -> len + names_size l < SILC_MAX_ALLOC ->
  supported_loop l list len =
  let r := list ++ concat ((fun n => n ++ [44]) <$> names l) in Some (r, zlen r).
Proof.
  induction l as [|[p e] l IH]; intros list len Hl Hs.
  - cbn. by rewrite app_nil_r, Hl.
  - unfold names_size in *. cbn [supported_loop names fmap list_fmap concat sum_list_with snd] in *.
    set (n := c_string (name e)) in *. fold (names l) in *. zlen_facts.
    rewrite !Nat2Z.inj_add in Hs. fold (zlen n) in Hs.
    rewrite silc_realloc_ok by lia.
    replace (splice (len + zlen n - zlen n) n _) with (list ++ n ++ [0]).
    2:{ replace (len + zlen n - zlen n) with len by lia.
        replace (len + zlen n + 1 - zlen list) with (zlen n + 1) by lia.
        unfold splice. rewrite ztake_app_exact by lia. f_equal. f_equal.
        rewrite zdrop_app_r by lia. rewrite zeros_app, zdrop_app_exact by (rewrite ?zlen_zeros; lia).
        done. }
    replace (splice (len + zlen n) [44] (list ++ n ++ [0])) with ((list ++ n) ++ [44]).
    2:{ unfold splice. rewrite (app_assoc list n [0]), ztake_app_exact by (rewrite zlen_app; lia).
        rewrite zdrop_ge by (rewrite !zlen_app, !zlen_cons, !zlen_nil; lia).
        by rewrite app_nil_r. }
    rewrite IH.
    + cbn zeta. rewrite <- !app_assoc. done.
    + rewrite !zlen_app, zlen_cons, zlen_nil. lia.
    + lia.
Qed.

Lemma join_snoc ns :
  ns <> [] -> concat ((fun n => n ++ [44]) <$> ns) = join 44 ns ++ [44].
Proof.
  induction ns as [|n ns IH]; [done|]. intros _. cbn [fmap list_fmap concat].
  destruct ns as [|m ns]; [cbn; by rewrite app_nil_r|]. rewrite IH by done.
  cbn [join]. by rewrite <- !app_assoc.
Qed.

(** The list of names, separated by commas. *)
Lemma get_supported_ok l :
  l <> [] -> names_size l < SILC_MAX_ALLOC ->
  get_supported (Some l) = Some (join 44 (names l) ++ [0]).
Proof.
  intros Hl Hs. unfold get_supported. cbn [elements default].
  rewrite supported_loop_ok by done. cbn zeta. rewrite app_nil_l, join_snoc.
  - rewrite zlen_app, zlen_cons, zlen_nil. zlen_facts.
    rewrite (proj2 (Z.eqb_neq _ _)) by lia. f_equal. unfold splice.
    replace (zlen (join 44 (names l)) + (1 + 0) - 1) with (zlen (join 44 (names l))) by lia.
    rewrite ztake_app_exact, zdrop_ge by (rewrite ?zlen_app, ?zlen_cons, ?zlen_nil; lia).
    by rewrite app_nil_r.
  - by destruct l.
Qed.

(** With no object registered the terminator is written before the block. *)
Lemma get_supported_empty : get_supported None = None.
Proof. reflexivity. Qed.
End List.

(** [SILC_ALL_X] takes one object away, not all of them. *)
Lemma unregister_all_takes_one {A} (e1 e2 : nat * A) :
  unregister All (Some [e1; e2]) = (Some [e2], true).
Proof. reflexivity. Qed.

(** ** Hash functions *)

(** [SilcHashObject]: the functions and their context type come as one
    [HashOps], which also has the two lengths. *)
Record SilcHashObject := mkHashObject {
  ho_name : list Z;
  ho_oid : list Z;
  ho_context : Type;
  ho_ops : HashOps ho_context;
  ho_zero : ho_context          (* a context that is all zero, as [calloc] makes it *)
}.
#[export] Existing Instance ho_ops.

(** [struct SilcHashStruct]. *)
Record SilcHash := mkHash { h_object : SilcHashObject; h_context : ho_context h_object }.

Definition sha256_object : SilcHashObject :=
  mkHashObject (chars "sha256") (chars "2.16.840.1.101.3.4.2.1") sha256_state _
    (mkSha256 0 (zeros 8) 0 (zeros 64)).
Definition sha1_object : SilcHashObject :=
  mkHashObject (chars "sha1") (chars "1.3.14.3.2.26") SHA1_CTX _
    (mkSha1 (zeros 5) 0 0 (zeros 64)).
Definition md5_object : SilcHashObject :=
  mkHashObject (chars "md5") (chars "1.2.840.113549.2.5") MD5Context _
    (mkMd5 (zeros 4) 0 0 (zeros 64)).

Definition silc_default_hash : list SilcHashObject := [sha256_object; sha1_object; md5_object].

Abbreviation hash_list := (option (list (nat * SilcHashObject))).

(** [new] is the address the object is allocated at. *)
Definition silc_hash_register (new : nat) (hash : SilcHashObject) (l : hash_list)
    : hash_list * bool :=
  register (fun e => streq (ho_name e) (ho_name hash)) new hash l.
Definition silc_hash_unregister (hash : which) (l : hash_list) : hash_list * bool :=
  unregister hash l.
Definition silc_hash_unregister_all (l : hash_list) : option (hash_list * bool) :=
  unregister_all l.

(** [for (i = 0; silc_default_X[i].name; i++) silc_X_register(...)]; object [i]
    is allocated at [new + i]. *)
Fixpoint register_each {A L} (reg : nat -> A -> L -> L * bool) (new : nat) (objs : list A)
    (l : L) : L :=
  match objs with
  | [] => l
  | o :: objs => register_each reg (S new) objs (reg new o l).1
  end.

Definition silc_hash_register_default (new : nat) (l : hash_list) : hash_list * bool :=
  (register_each silc_hash_register new silc_default_hash l, true).

Definition silc_hash_alloc (l : hash_list) (name : list Z) : option SilcHash :=
  match find_name ho_name (elements l) name with
  | Some entry => Some (mkHash entry (ho_zero entry))
  | None => None
  end.

Definition silc_hash_alloc_by_oid (l : hash_list) (oid : list Z) : option SilcHash :=
  match find_name ho_oid (elements l) oid with
  | Some entry => Some (mkHash entry (ho_zero entry))
  | None => None
  end.

Definition silc_hash_is_supported (l : hash_list) (name : list Z) : bool :=
  is_supported ho_name l name.
Definition silc_hash_get_supported (l : hash_list) : option (list Z) :=
  get_supported ho_name l.
Definition silc_hash_get_name (hash : SilcHash) : list Z := ho_name (h_object hash).
Definition silc_hash_get_oid (hash : SilcHash) : list Z := ho_oid (h_object hash).

(** [silc_hash_len(hash)] and the digest [silc_hash_make(hash, data, len, _)]
    writes.  The context the hash is left with does not matter: it begins with
    [init]. *)
Definition digest_len_of (hash : SilcHash) : Z := silc_hash_len (h_context hash).
Definition digest_of (hash : SilcHash) (data : list Z) : list Z :=
  (silc_hash_make (h_context hash) data (zlen data)).2.

(** ** Ciphers *)

Definition SILC_CIPHER_MODE_CBC : Z := 2.
Definition SILC_CIPHER_MODE_CTR : Z := 3.

(** [SilcCipherObject], without its functions. *)
Record SilcCipherObject := mkCipherObject {
  co_name : list Z;
  co_key_len : Z;
  co_block_len : Z;
  co_iv_len : Z;
  co_mode : Z
}.

(** [struct SilcCipherStruct]: the context is what the object's [set_key] and
    [set_iv] functions were last given (the key, its length in bits and whether
    it is for encryption). *)
Record SilcCipher := mkCipherStruct {
  sc_object : SilcCipherObject;
  sc_key : option (list Z * Z * bool);
  sc_iv : list Z
}.

Definition cipher_object (name : string) (keylen mode : Z) : SilcCipherObject :=
  mkCipherObject (chars name) keylen 16 16 mode.

(** Without [SILC_DEBUG]. *)
Definition silc_default_ciphers : list SilcCipherObject :=
  [cipher_object "aes-256-ctr" 256 SILC_CIPHER_MODE_CTR;
   cipher_object "aes-192-ctr" 192 SILC_CIPHER_MODE_CTR;
   cipher_object "aes-128-ctr" 128 SILC_CIPHER_MODE_CTR;
   cipher_object "aes-256-cbc" 256 SILC_CIPHER_MODE_CBC;
   cipher_object "aes-192-cbc" 192 SILC_CIPHER_MODE_CBC;
   cipher_object "aes-128-cbc" 128 SILC_CIPHER_MODE_CBC;
   cipher_object "twofish-256-cbc" 256 SILC_CIPHER_MODE_CBC;
   cipher_object "twofish-192-cbc" 192 SILC_CIPHER_MODE_CBC;
   cipher_object "twofish-128-cbc" 128 SILC_CIPHER_MODE_CBC].

Abbreviation cipher_list := (option (list (nat * SilcCipherObject))).

Definition silc_cipher_register (new : nat) (cipher : SilcCipherObject) (l : cipher_list)
    : cipher_list * bool :=
  register (fun e => streq (co_name e) (co_name cipher)) new cipher l.
Definition silc_cipher_unregister (cipher : which) (l : cipher_list) : cipher_list * bool :=
  unregister cipher l.
Definition silc_cipher_unregister_all (l : cipher_list) : option (cipher_list * bool) :=
  unregister_all l.
Definition silc_cipher_register_default (new : nat) (l : cipher_list) : cipher_list * bool :=
  (register_each silc_cipher_register new silc_default_ciphers l, true).

(** The structure is all zero but for its object. *)
Definition silc_cipher_alloc (l : cipher_list) (name : list Z) : option SilcCipher :=
  match find_name co_name (elements l) name with
  | Some entry => Some (mkCipherStruct entry None (zeros 16))
  | None => None
  end.

Definition silc_cipher_is_supported (l : cipher_list) (name : list Z) : bool :=
  is_supported co_name l name.
Definition silc_cipher_get_supported (l : cipher_list) : option (list Z) :=
  get_supported co_name l.
Definition silc_cipher_set_key (cipher : SilcCipher) (key : list Z) (keylen : Z)
    (encryption : bool) : SilcCipher :=
  mkCipherStruct (sc_object cipher) (Some (ztake (keylen / 8) key, keylen, encryption))
    (sc_iv cipher).
Definition silc_cipher_set_iv (cipher : SilcCipher) (iv : list Z) : SilcCipher :=
  mkCipherStruct (sc_object cipher) (sc_key cipher)
    (splice 0 (ztake (co_iv_len (sc_object cipher)) iv) (sc_iv cipher)).
Definition silc_cipher_get_key_len (cipher : SilcCipher) : Z := co_key_len (sc_object cipher).
Definition silc_cipher_get_block_len (cipher : SilcCipher) : Z :=
  co_block_len (sc_object cipher).
Definition silc_cipher_get_iv_len (cipher : SilcCipher) : Z := co_iv_len (sc_object cipher).
Definition silc_cipher_get_name (cipher : SilcCipher) : list Z := co_name (sc_object cipher).
Definition silc_cipher_get_mode (cipher : SilcCipher) : Z := co_mode (sc_object cipher).

(** ** HMACs *)

Record SilcHmacObject := mkHmacObject { mo_name : list Z; mo_len : Z }.

(** [struct SilcHmacStruct]: the object, and the rest as in [Hmac.v] over the
    context of its hash. *)
Record SilcHmac := mkHmacStruct {
  sm_object : SilcHmacObject;
  sm_hash : SilcHashObject;
  sm_state : Hmac.SilcHmac (ho_context sm_hash)
}.

Definition silc_default_hmacs : list SilcHmacObject :=
  [mkHmacObject (chars "hmac-sha256-96") 12; mkHmacObject (chars "hmac-sha1-96") 12;
   mkHmacObject (chars "hmac-md5-96") 12; mkHmacObject (chars "hmac-sha256") 32;
   mkHmacObject (chars "hmac-sha1") 20; mkHmacObject (chars "hmac-md5") 16].

Abbreviation hmac_list := (option (list (nat * SilcHmacObject))).

Definition silc_hmac_register (new : nat) (hmac : SilcHmacObject) (l : hmac_list)
    : hmac_list * bool :=
  register (fun e => streq (mo_name e) (mo_name hmac)) new hmac l.
Definition silc_hmac_unregister (hmac : which) (l : hmac_list) : hmac_list * bool :=
  unregister hmac l.
Definition silc_hmac_unregister_all (l : hmac_list) : option (hmac_list * bool) :=
  unregister_all l.
Definition silc_hmac_register_default (new : nat) (l : hmac_list) : hmac_list * bool :=
  (register_each silc_hmac_register new silc_default_hmacs l, true).

(** [strchr(s, c) + 1] for a string that has the character. *)
Fixpoint after (c : Z) (s : list Z) : option (list Z) :=
  match s with
  | [] => None
  | x :: s => if x =? c then Some s else after c s
  end.

(** The name of the hash function in the name of an HMAC: from the first dash
    to the next. *)
Definition hmac_hash_name (name : list Z) : list Z :=
  let hname := c_string name in
  let hname := default hname (after 45 hname) in
  ztake (StrUtil.strcspn hname [45]) hname.

(** [hash] is NULL or the hash to use.  A failure leaves [*new_hmac] NULL (and
    a hash that was allocated here is lost). *)
Definition silc_hmac_alloc (hl : hash_list) (l : hmac_list) (name : list Z)
    (hash : option SilcHash) : option SilcHmac :=
  let hash :=
    match hash with
    | Some hash => Some hash
    | None => silc_hash_alloc hl (hmac_hash_name name)
    end in
  match hash with
  | None => None
  | Some hash =>
      match find_name mo_name (elements l) name with
      | Some entry =>
          Some (mkHmacStruct entry (h_object hash)
                  (Hmac.mkHmac (mo_len entry) (h_context hash) (zeros 64) (zeros 64) None 0))
      | None => None
      end
  end.

Definition silc_hmac_get_name (hmac : SilcHmac) : list Z := mo_name (sm_object hmac).

(** [name] may be NULL. *)
Definition silc_hmac_is_supported (l : hmac_list) (name : option (list Z)) : bool :=
  match name with
  | None => false
  | Some name => is_supported mo_name l name
  end.
Definition silc_hmac_get_supported (l : hmac_list) : option (list Z) :=
  get_supported mo_name l.

(** ** PKCS algorithms *)

(** [SilcPKCSAlgorithm], without its functions. *)
Record SilcPKCSAlgorithm := mkPkcsAlg {
  pa_name : list Z;
  pa_scheme : option (list Z);
  pa_hash : list Z
}.

Abbreviation alg_list := (option (list (nat * SilcPKCSAlgorithm))).

Definition silc_default_pkcs_alg : list SilcPKCSAlgorithm :=
  [mkPkcsAlg (chars "rsa") (Some (chars "pkcs1-no-oid")) (chars "sha1,md5");
   mkPkcsAlg (chars "rsa") (Some (chars "pkcs1")) (chars "sha1,md5")].

Definition silc_pkcs_algorithm_register (new : nat) (pkcs : SilcPKCSAlgorithm)
    (l : alg_list) : alg_list * bool :=
  register (fun e => streq (pa_name e) (pa_name pkcs) &&
      match pa_scheme e, pa_scheme pkcs with
      | Some a, Some b => streq a b
      | _, _ => false
      end) new pkcs l.
Definition silc_pkcs_algorithm_unregister (pkcs : which) (l : alg_list)
    : alg_list * bool :=
  unregister pkcs l.

(** [scheme] may be NULL. *)
Fixpoint silc_pkcs_find_algorithm (l : list (nat * SilcPKCSAlgorithm)) (algorithm : list Z)
    (scheme : option (list Z)) : option SilcPKCSAlgorithm :=
  match l with
  | [] => None
  | (_, e) :: l =>
      if streq (pa_name e) algorithm &&
         match scheme, pa_scheme e with
         | Some s, Some t => streq t s
         | _, _ => true
         end
      then Some e else silc_pkcs_find_algorithm l algorithm scheme
  end.

Definition silc_pkcs_get_supported (l : alg_list) : option (list Z) :=
  get_supported pa_name l.

Lemma find_algorithm_name l n :
  silc_pkcs_find_algorithm l n None = find_name pa_name l n.
Proof.
  induction l as [|[p e] l IH]; [done|]. cbn [silc_pkcs_find_algorithm find_name].
  rewrite andb_true_r, IH. done.
Qed.

(** ** The algorithms of the server *)

(** What [silc_server_init] registers when the configuration names nothing. *)
Definition default_hashes : hash_list := (silc_hash_register_default 0 None).1.
Definition default_ciphers : cipher_list := (silc_cipher_register_default 0 None).1.
Definition default_hmacs : hmac_list := (silc_hmac_register_default 0 None).1.
Definition default_pkcs_algs : alg_list :=
  register_each silc_pkcs_algorithm_register 0 silc_default_pkcs_alg None.

(** Every default HMAC can be allocated: its hash function is there. *)
Lemma default_hmacs_alloc :
  forallb (fun o => match silc_hmac_alloc default_hashes default_hmacs (mo_name o) None with
                    | Some h => bool_decide (mo_len (sm_object h) = mo_len o)
                    | None => false
                    end) silc_default_hmacs = true.
Proof. vm_compute. reflexivity. Qed.

Lemma default_hash_supported :
  silc_hash_get_supported default_hashes = Some (chars "sha256,sha1,md5" ++ [0]).
Proof. vm_compute. reflexivity. Qed.
