(* ===== verification/SkeNegotiate.v ===== *)
(** * Negotiating the security properties ([lib/silcske/groups.c], [silcske.c])

    The initiator proposes lists of algorithms; the responder selects one of
    each and the initiator takes the selection into use. *)

From Stdlib Require Import Ascii String.
From S2P Require Import Prelude CTypes Memory Buffer BuffFmt StrUtil Registry Mp SkePayload.
Import Unformat RoundTrip Encoding.
Local Open Scope Z_scope.

(** ** Diffie-Hellman groups ([groups.c]) *)

(** [SilcSKEDiffieHellmanGroup]; the numbers of the table, strings of
    hexadecimal digits there, are read already. *)
Record SilcSKEDiffieHellmanGroup := mkGroup {
  g_number : Z;
  g_name : list Z;
  g_group : Z;
  g_group_order : Z;
  g_generator : Z
}.

Definition silc_ske_groups : list SilcSKEDiffieHellmanGroup :=
  [mkGroup 1 (chars "diffie-hellman-group1")
     0xFFFFFFFFFFFFFFFFC90FDAA22168C234C4C6628B80DC1CD129024E088A67CC74020BBEA63B139B22514A08798E3404DDEF9519B3CD3A431B302B0A6DF25F14374FE1356D6D51C245E485B576625E7EC6F44C42E9A637ED6B0BFF5CB6F406B7EDEE386BFB5A899FA5AE9F24117C4B1FE649286651ECE65381FFFFFFFFFFFFFFFF
     0x7FFFFFFFFFFFFFFFE487ED5110B4611A62633145C06E0E68948127044533E63A0105DF531D89CD9128A5043CC71A026EF7CA8CD9E69D218D98158536F92F8A1BA7F09AB6B6A8E122F242DABB312F3F637A262174D31BF6B585FFAE5B7A035BF6F71C35FDAD44CFD2D74F9208BE258FF324943328F67329C0FFFFFFFFFFFFFFFF
     0x2;
   mkGroup 2 (chars "diffie-hellman-group2")
     0xFFFFFFFFFFFFFFFFC90FDAA22168C234C4C6628B80DC1CD129024E088A67CC74020BBEA63B139B22514A08798E3404DDEF9519B3CD3A431B302B0A6DF25F14374FE1356D6D51C245E485B576625E7EC6F44C42E9A637ED6B0BFF5CB6F406B7EDEE386BFB5A899FA5AE9F24117C4B1FE649286651ECE45B3DC2007CB8A163BF0598DA48361C55D39A69163FA8FD24CF5F83655D23DCA3AD961C62F356208552BB9ED529077096966D670C354E4ABC9804F1746C08CA237327FFFFFFFFFFFFFFFF
     0x7FFFFFFFFFFFFFFFE487ED5110B4611A62633145C06E0E68948127044533E63A0105DF531D89CD9128A5043CC71A026EF7CA8CD9E69D218D98158536F92F8A1BA7F09AB6B6A8E122F242DABB312F3F637A262174D31BF6B585FFAE5B7A035BF6F71C35FDAD44CFD2D74F9208BE258FF324943328F6722D9EE1003E5C50B1DF82CC6D241B0E2AE9CD348B1FD47E9267AFC1B2AE91EE51D6CB0E3179AB1042A95DCF6A9483B84B4B36B3861AA7255E4C0278BA36046511B993FFFFFFFFFFFFFFFF
     0x2].

Fixpoint group_find (p : SilcSKEDiffieHellmanGroup -> bool)
    (l : list SilcSKEDiffieHellmanGroup) : ske_result SilcSKEDiffieHellmanGroup :=
  match l with
  | [] => SkeErr SILC_SKE_STATUS_UNKNOWN_GROUP
  | g :: l => if p g then SkeOk g else group_find p l
  end.

Definition silc_ske_group_get_by_number (number : Z) : ske_result SilcSKEDiffieHellmanGroup :=
  group_find (fun g => g_number g =? number) silc_ske_groups.
Definition silc_ske_group_get_by_name (name : list Z) : ske_result SilcSKEDiffieHellmanGroup :=
  group_find (fun g => streq (g_name g) name) silc_ske_groups.
Definition silc_ske_get_supported_groups : option (list Z) :=
  get_supported g_name (Some (zip (seq 0 2) silc_ske_groups)).
Definition silc_ske_group_get_number (group : SilcSKEDiffieHellmanGroup) : Z := g_number group.
Definition silc_ske_group_get_name (group : SilcSKEDiffieHellmanGroup) : list Z := g_name group.

(** Each modulus is twice the order plus one, and the order has one bit less. *)
Lemma groups_shape :
  Forall (fun g => g_group g = 2 * g_group_order g + 1 /\
                   Z.log2 (g_group g) = Z.log2 (g_group_order g) + 1) silc_ske_groups.
Proof. repeat constructor. Qed.

Lemma group_name_found name g :
  silc_ske_group_get_by_name name = SkeOk g ->
  g ∈ silc_ske_groups /\ c_string name = g_name g.
Proof.
  unfold silc_ske_group_get_by_name, silc_ske_groups. cbn [group_find]. unfold streq.
  case_bool_decide as C; [intros [= <-]; split; [by left|by rewrite <- C]|].
  case_bool_decide as C'; [intros [= <-]; split; [by right; left|by rewrite <- C']|done].
Qed.

(** ** Version strings ([silc_parse_version_string]) *)

(** [strchr(s, c)], from the character on; [s] has no NUL. *)
Fixpoint strchr (c : Z) (s : list Z) : option (list Z) :=
  match s with
  | [] => None
  | x :: s' => if x =? c then Some s else strchr c s'
  end.

Fixpoint strstr (s pat : list Z) : bool :=
  bool_decide (pat `prefix_of` s) ||
  match s with [] => false | _ :: s => strstr s pat end.

(** With NULL for every result, as the key exchange calls it: the numbers read
    on the way do not matter. *)
Definition silc_parse_version_string (version : list Z) : bool :=
  let s := c_string version in
  if negb (strstr s (chars "SILC-")) then false
  else
    let cp := zdrop 5 s in
    if zlen cp =? 0 then false
    else match strchr 46 cp with
    | None => false
    | Some cp =>
        let cp := zdrop 1 cp in
        if zlen cp =? 0 then false
        else match strchr 45 cp with
        | None => false
        | Some cp => negb (zlen (zdrop 1 cp) =? 0)
        end
    end.

(** [silc_ske_check_version]; the arguments are [ske->remote_version] and
    [ske->version]. *)
Definition silc_ske_check_version (remote_version version : option (list Z)) : Z :=
  match remote_version, version with
  | Some remote_version, Some _ =>
      if silc_parse_version_string remote_version then SILC_SKE_STATUS_OK
      else SILC_SKE_STATUS_BAD_VERSION
  | _, _ => SILC_SKE_STATUS_BAD_VERSION
  end.

(** The prefix is searched for anywhere, but what follows is read at offset 5. *)
Lemma version_prefix_anywhere :
  silc_parse_version_string (chars "1.1-22.SILC-x") = true.
Proof. reflexivity. Qed.

(** ** What is registered in the process *)

Record algorithms := mkAlgorithms {
  al_hashes : hash_list;
  al_ciphers : cipher_list;
  al_hmacs : hmac_list;
  al_pkcs : alg_list
}.

(** [SilcSKESecurityProperties]; the public key is kept by the exchange. *)
Record SilcSKESecurityProperties := mkProp {
  pr_flags : Z;
  pr_group : SilcSKEDiffieHellmanGroup;
  pr_cipher : SilcCipher;
  pr_hash : SilcHash;
  pr_hmac : SilcHmac;
  pr_remote_port : Z
}.

(** ** Selecting an algorithm from a list *)

(** The [while(cp)] loop, on the string [cp]: the item selected, with its length
    and its NUL.  The inner [None] is a list without a supported item. *)
Fixpoint select_loop (fuel : nat) (supported : list Z -> bool) (cp : list Z)
    : option (option (Z * list Z)) :=
  match fuel with
  | O => None
  | S fuel =>
      let len := strcspn cp [44] in
      match silc_calloc (len + 1) 1 with
      | None => None
      | Some item =>
          let item := splice 0 (ztake len cp) item in
          if supported item then Some (Some (len, item))
          else
            let cp := zdrop len cp in
            if zlen cp =? 0 then Some None
            else select_loop fuel supported (zdrop 1 cp)
      end
  end.

(** [strdup]. *)
Definition strdup (s : list Z) : option (list Z) := Some (c_string s ++ [0]).

(** One list of a proposal: with a comma, the first supported item; otherwise
    the string itself, with the length the proposal gave it.  [err] when no
    item is supported. *)
Definition select_list (supported : list Z -> bool) (err : Z) (list : option (list Z)) (len : Z)
    : ske_result (Z * option (Datatypes.list Z)) :=
  match list with
  | Some list =>
      let cp := c_string list in
      if bool_decide (44 ∈ cp) then
        match select_loop (S (length cp)) supported cp with
        | None => SkeErr SILC_SKE_STATUS_OUT_OF_MEMORY
        | Some (Some (len, item)) => SkeOk (len, Some item)
        | Some None => SkeErr err
        end
      else SkeOk (len, strdup list)
  | None => SkeErr err                        (* strdup(NULL): excluded by its length *)
  end.

(** The compression algorithms: nothing is taken from a list of one. *)
Definition select_comp (list : option (list Z)) : Z * option (Datatypes.list Z) :=
  match list with
  | Some list =>
      let cp := c_string list in
      if bool_decide (44 ∈ cp) then
        match select_loop (S (length cp)) (fun item => streq item (chars "none")) cp with
        | Some (Some (len, item)) => (len, Some item)
        | _ => (0, None)
        end
      else (0, None)
  | None => (0, None)
  end.

Definition group_known (name : list Z) : bool :=
  match silc_ske_group_get_by_name name with SkeOk _ => true | SkeErr _ => false end.

Definition sbind {A B} (r : ske_result A) (k : A -> ske_result B) : ske_result B :=
  match r with SkeOk a => k a | SkeErr e => SkeErr e end.

Definition or_err {A} (o : option A) (e : Z) : ske_result A :=
  match o with Some a => SkeOk a | None => SkeErr e end.

Definition start_len (version_len gl pl el hl ml cl : Z) : Z :=
  u16 (1 + 1 + 2 + SILC_SKE_COOKIE_LEN + 2 + version_len + 2 + gl + 2 + pl + 2 + el + 2 + hl +
       2 + ml + 2 + cl).

(** The responder's selection.  [version] is [ske->version], [session_port] is
    [ske->session_port].  The results are [*prop], the payload saved in
    [ske->start_payload] and [ske->remote_version].  The checks of the lengths
    of the lists at the top repeat those of the decoder. *)
Definition silc_ske_select_security_properties (al : algorithms) (version : list Z)
    (session_port : Z) (rp : SilcSKEStartPayload)
    : ske_result (SilcSKESecurityProperties * SilcSKEStartPayload * option (list Z)) :=
  if (ke_grp_len rp =? 0) || (pkcs_alg_len rp =? 0) || (enc_alg_len rp =? 0) ||
     (hash_alg_len rp =? 0) || (hmac_alg_len rp =? 0)
  then SkeErr SILC_SKE_STATUS_BAD_PAYLOAD
  else
    let remote_version := silc_memdup (default [] (SkePayload.version rp)) (version_len rp) in
    let status := silc_ske_check_version remote_version (Some version) in
    if negb (status =? SILC_SKE_STATUS_OK) then SkeErr status
    else
      let ck := ztake SILC_SKE_COOKIE_LEN (default [] (cookie rp)) in
      let port := has_flag (sp_flags rp) SILC_SKE_SP_FLAG_IV_INCLUDED &&
                  negb (session_port =? 0) in
      let remote_port := if port then SILC_GET16_MSB ck else 0 in
      let ck := if port then splice 0 (SILC_PUT16_MSB session_port) ck else ck in
      let vl := u16 (CTypes.strlen version) in
      sbind (select_list group_known SILC_SKE_STATUS_UNKNOWN_GROUP (ke_grp_list rp)
               (ke_grp_len rp)) (fun '(gl, grp) =>
      sbind (silc_ske_group_get_by_name (default [] grp)) (fun group =>
      sbind (select_list (fun i => bool_decide (is_Some
               (silc_pkcs_find_algorithm (elements (al_pkcs al)) i None)))
               SILC_SKE_STATUS_UNKNOWN_PKCS (pkcs_alg_list rp) (pkcs_alg_len rp))
            (fun '(pl, pkcs) =>
      sbind (select_list (silc_cipher_is_supported (al_ciphers al))
               SILC_SKE_STATUS_UNKNOWN_CIPHER (enc_alg_list rp) (enc_alg_len rp))
            (fun '(el, enc) =>
      sbind (or_err (silc_cipher_alloc (al_ciphers al) (default [] enc))
               SILC_SKE_STATUS_UNKNOWN_CIPHER) (fun cipher =>
      sbind (select_list (silc_hash_is_supported (al_hashes al))
               SILC_SKE_STATUS_UNKNOWN_HASH_FUNCTION (hash_alg_list rp) (hash_alg_len rp))
            (fun '(hl, hash) =>
      sbind (or_err (silc_hash_alloc (al_hashes al) (default [] hash))
               SILC_SKE_STATUS_UNKNOWN_HASH_FUNCTION) (fun hash_object =>
      sbind (select_list (fun i => silc_hmac_is_supported (al_hmacs al) (Some i))
               SILC_SKE_STATUS_UNKNOWN_HMAC (hmac_alg_list rp) (hmac_alg_len rp))
            (fun '(ml, hmac) =>
      sbind (or_err (silc_hmac_alloc (al_hashes al) (al_hmacs al) (default [] hmac) None)
               SILC_SKE_STATUS_UNKNOWN_HMAC) (fun hmac_object =>
      let '(cl, comp) := select_comp (comp_alg_list rp) in
      SkeOk (mkProp (sp_flags rp) group cipher hash_object hmac_object remote_port,
             mkStart (sp_flags rp) (start_len vl gl pl el hl ml cl) (Some ck)
               SILC_SKE_COOKIE_LEN (strdup version) vl grp gl pkcs pl enc el hash hl
               hmac ml comp cl,
             remote_version)))))))))).

(** ** The initiator's proposal *)

(** [rnd] is what [silc_rng_get_byte_fast] gives for the cookie. *)
Definition silc_ske_assemble_security_properties (al : algorithms) (rnd : list Z)
    (session_port flags : Z) (version : list Z) : option SilcSKEStartPayload :=
  let ck := ztake SILC_SKE_COOKIE_LEN rnd in
  let ck := if has_flag flags SILC_SKE_SP_FLAG_IV_INCLUDED && negb (session_port =? 0)
            then splice 0 (SILC_PUT16_MSB session_port) ck else ck in
  match silc_ske_get_supported_groups, silc_pkcs_get_supported (al_pkcs al),
        silc_cipher_get_supported (al_ciphers al), silc_hash_get_supported (al_hashes al),
        silc_hmac_get_supported (al_hmacs al) with
  | Some grp, Some pkcs, Some enc, Some hash, Some hmac =>
      let comp := chars "none" ++ [0] in
      Some (mkStart (u8 flags)
        (start_len (u16 (CTypes.strlen version)) (u16 (CTypes.strlen grp)) (u16 (CTypes.strlen pkcs))
           (u16 (CTypes.strlen enc)) (u16 (CTypes.strlen hash)) (u16 (CTypes.strlen hmac)) (u16 (CTypes.strlen comp)))
        (Some ck) SILC_SKE_COOKIE_LEN
        (strdup version) (u16 (CTypes.strlen version)) (Some grp) (u16 (CTypes.strlen grp))
        (Some pkcs) (u16 (CTypes.strlen pkcs)) (Some enc) (u16 (CTypes.strlen enc))
        (Some hash) (u16 (CTypes.strlen hash)) (Some hmac) (u16 (CTypes.strlen hmac))
        (Some comp) (u16 (CTypes.strlen comp)))
  | _, _, _, _, _ => None
  end.

(** ** The initiator takes the selection ([silc_ske_st_initiator_phase1]) *)

Definition take_selection (al : algorithms) (remote_port : Z) (p : SilcSKEStartPayload)
    : ske_result SilcSKESecurityProperties :=
  sbind (silc_ske_group_get_by_name (default [] (ke_grp_list p))) (fun group =>
  sbind (or_err (silc_pkcs_find_algorithm (elements (al_pkcs al))
                   (default [] (pkcs_alg_list p)) None) SILC_SKE_STATUS_UNKNOWN_PKCS) (fun _ =>
  sbind (or_err (silc_cipher_alloc (al_ciphers al) (default [] (enc_alg_list p)))
           SILC_SKE_STATUS_UNKNOWN_CIPHER) (fun cipher =>
  sbind (or_err (silc_hash_alloc (al_hashes al) (default [] (hash_alg_list p)))
           SILC_SKE_STATUS_UNKNOWN_HASH_FUNCTION) (fun hash =>
  sbind (or_err (silc_hmac_alloc (al_hashes al) (al_hmacs al)
                   (default [] (hmac_alg_list p)) None) SILC_SKE_STATUS_UNKNOWN_HMAC)
        (fun hmac => SkeOk (mkProp (sp_flags p) group cipher hash hmac remote_port)))))).

(** ** What the selection is *)

(** The items of a comma separated list. *)
Fixpoint split_on (c : Z) (s : list Z) : list (list Z) :=
  match s with
  | [] => [[]]
  | x :: s =>
      if x =? c then [] :: split_on c s
      else match split_on c s with
           | [] => [[x]]
           | p :: ps => (x :: p) :: ps
           end
  end.

Definition no_nul (s : list Z) : Prop := Forall (fun c => c <> 0) s.

(** The item selected from [s]: the first that [ok] accepts, or all of a list
    without a comma. *)
Definition chosen (ok : list Z -> bool) (s : list Z) : option (list Z) :=
  if bool_decide (44 ∈ s) then List.find ok (split_on 44 s) else Some s.

Lemma split_on_cons c s :
  split_on c s =
  let n := strcspn s [c] in
  ztake n s :: match zdrop n s with [] => [] | _ :: t => split_on c t end.
Proof.
  cbn zeta. induction s as [|x s IH]; [done|]. cbn [split_on strcspn].
  destruct (Z.eqb_spec x c) as [->|E].
  - rewrite bool_decide_eq_true_2 by (by left). done.
  - rewrite bool_decide_eq_false_2 by (by rewrite list_elem_of_singleton).
    rewrite IH. pose proof (strcspn_spec s c) as (H & _ & _). set (k := strcspn s [c]) in *.
    unfold ztake, zdrop. replace (Z.to_nat (1 + k)) with (S (Z.to_nat k)) by lia. done.
Qed.

Lemma split_on_single c s : c ∉ s -> split_on c s = [s].
Proof.
  induction s as [|x s IH]; [done|]. rewrite not_elem_of_cons. intros [Hx Hs]. cbn.
  rewrite (proj2 (Z.eqb_neq x c)), IH by done. done.
Qed.

Lemma split_on_join c l :
  l <> [] -> Forall (fun x => c ∉ x) l -> split_on c (join c l) = l.
Proof.
  induction l as [|x l IH]; [done|]. intros _ H. apply list.Forall_cons in H as [Hx Hl].
  destruct l as [|y l]; [cbn; by apply split_on_single|].
  change (join c (x :: y :: l)) with (x ++ c :: join c (y :: l)).
  assert (E : forall t, split_on c (x ++ c :: t) = x :: split_on c t).
  { clear -Hx. intros t. induction x as [|a x IH]; cbn [app split_on]; [by rewrite Z.eqb_refl|].
    rewrite not_elem_of_cons in Hx. destruct Hx as [Ha Hx].
    rewrite (proj2 (Z.eqb_neq a c)), IH by done. done. }
  rewrite E, IH by done. done.
Qed.

Lemma chosen_in ok s x : chosen ok s = Some x -> x ∈ split_on 44 s.
Proof.
  unfold chosen. case_bool_decide as C.
  - intros [H _]%List.find_some. by apply list_elem_of_In.
  - intros [= <-]. rewrite split_on_single by done. by left.
Qed.

Lemma chosen_ok ok s x : chosen ok s = Some x -> 44 ∈ s -> ok x = true.
Proof.
  intros H C. unfold chosen in H. rewrite bool_decide_eq_true_2 in H by done.
  by apply List.find_some in H as [_ H].
Qed.

Lemma strcspn_cons_zero x t : bool_decide (44 ∈ x) = false -> strcspn (x ++ 44 :: t) [44] = zlen x.
Proof.
  intros H%bool_decide_eq_false. induction x as [|a x IH]; cbn [app strcspn].
  - by rewrite bool_decide_eq_true_2 by (by left).
  - rewrite not_elem_of_cons in H. destruct H as [Ha Hx]. rewrite IH by done.
    rewrite bool_decide_eq_false_2 by (rewrite list_elem_of_singleton; congruence).
    by rewrite zlen_cons.
Qed.

Lemma calloc_item len cp :
  0 <= len <= zlen cp -> len + 1 < SILC_MAX_ALLOC ->
  exists item, silc_calloc (len + 1) 1 = Some item /\
    splice 0 (ztake len cp) item = ztake len cp ++ [0].
Proof.
  intros H Hs. exists (zeros (len + 1)). rewrite silc_calloc_ok, Z.mul_1_l by lia.
  split; [done|]. rewrite zeros_app by lia. unfold splice.
  rewrite ztake_0, app_nil_l by lia. f_equal.
  rewrite zdrop_app_exact; [done|]. rewrite zlen_take, zlen_zeros by lia. lia.
Qed.

Lemma choose_loop_ok ok fuel : forall cp,
  (length cp < fuel)%nat -> zlen cp + 1 < SILC_MAX_ALLOC ->
  select_loop fuel ok cp =
  Some ((fun x => (zlen x, x ++ [0])) <$>
        List.find (fun x => ok (x ++ [0])) (split_on 44 cp)).
Proof.
  induction fuel as [|fuel IH]; intros cp Hf Hs; [lia|]. cbn [select_loop].
  rewrite split_on_cons. cbn zeta. pose proof (strcspn_spec cp 44) as (H & _ & _).
  set (n := strcspn cp [44]) in *. cbn [List.find].
  destruct (calloc_item n cp H ltac:(lia)) as (item & -> & ->).
  destruct (ok (ztake n cp ++ [0])); [cbn; by rewrite zlen_take by lia|].
  destruct (zdrop n cp) as [|c t] eqn:E; [by cbn|].
  rewrite zlen_cons. zlen_facts. rewrite (proj2 (Z.eqb_neq _ _)) by lia.
  assert (L : zlen cp = n + 1 + zlen t).
  { rewrite <- (ztake_drop n cp) at 1. rewrite E, zlen_app, zlen_cons, zlen_take by lia. lia. }
  change (zdrop 1 (c :: t)) with t. apply IH; unfold zlen in *; lia.
Qed.

Lemma block_c_string s : no_nul s -> s <> [] -> c_string (default [] (block s)) = s.
Proof. intros H Hs. unfold block. rewrite decide_False by done. by apply c_string_app. Qed.

Lemma select_list_ok ok err s :
  no_nul s -> 0 < zlen s -> zlen s < 65536 ->
  select_list ok err (block s) (zlen s) =
  match chosen (fun x => ok (x ++ [0])) s with
  | Some x => SkeOk (zlen x, Some (x ++ [0]))
  | None => SkeErr err
  end.
Proof.
  intros Hn Hp Hs. assert (s <> []) by (by intros ->).
  unfold select_list, block. rewrite decide_False by done. unfold strdup, chosen.
  rewrite c_string_app by done. case_bool_decide; [|done].
  rewrite choose_loop_ok by (unfold SILC_MAX_ALLOC; lia). by destruct (List.find _ _).
Qed.

Definition none_item (x : list Z) : bool := streq (x ++ [0]) (chars "none").

(** The compression selected: nothing unless it comes from a list. *)
Definition comp_chosen (s : list Z) : list Z :=
  if bool_decide (44 ∈ s) then default [] (List.find none_item (split_on 44 s)) else [].

Lemma select_comp_ok s :
  no_nul s -> zlen s < 65536 ->
  exists p, select_comp (block s) = (zlen (comp_chosen s), p) /\
    data_of (comp_chosen s) (zlen (comp_chosen s)) p.
Proof.
  intros Hn Hs. unfold comp_chosen, select_comp.
  destruct (decide (s = [])) as [->|Hne].
  { exists None. split; [done|]. split; [done|]. by right. }
  unfold block. rewrite decide_False by done. rewrite c_string_app by done.
  case_bool_decide; [|exists None; split; [done|]; split; [done|]; by right].
  rewrite choose_loop_ok by (unfold SILC_MAX_ALLOC; lia). unfold none_item.
  destruct (List.find _ _) as [x|]; cbn.
  - eexists. split; [done|]. split; [done|]. left. by eexists.
  - eexists. split; [done|]. split; [done|]. by right.
Qed.

(** A name with a NUL inside: what is copied ends at the NUL, but the length of
    the proposal is kept. *)
Lemma select_list_nul ok err s t :
  no_nul s -> 44 ∉ s -> s <> [] ->
  select_list ok err (block (s ++ 0 :: t)) (zlen (s ++ 0 :: t)) =
  SkeOk (zlen s + 1 + zlen t, Some (s ++ [0])).
Proof.
  intros Hn Hc Hs. unfold select_list, block. rewrite decide_False by (by destruct s).
  rewrite <- app_assoc. cbn [app]. unfold strdup. rewrite c_string_app by done.
  rewrite bool_decide_eq_false_2 by done. do 2 f_equal. zl.
Qed.

(** ** The responder's selection, by names *)

Definition session_cookie (session_port flags : Z) (ck : list Z) : list Z :=
  if has_flag flags SILC_SKE_SP_FLAG_IV_INCLUDED && negb (session_port =? 0)
  then splice 0 (SILC_PUT16_MSB session_port) ck else ck.

Definition session_remote_port (session_port flags : Z) (ck : list Z) : Z :=
  if has_flag flags SILC_SKE_SP_FLAG_IV_INCLUDED && negb (session_port =? 0)
  then SILC_GET16_MSB ck else 0.

Definition pkcs_known (al : algorithms) (n : list Z) : bool :=
  bool_decide (is_Some (silc_pkcs_find_algorithm (elements (al_pkcs al)) n None)).

(** The properties selected and what the reply says. *)
Definition selection (al : algorithms) (version : list Z) (session_port : Z) (s : start)
    : ske_result (SilcSKESecurityProperties * start) :=
  let pick ok err s := or_err (chosen (fun x => ok (x ++ [0])) s) err in
  if silc_parse_version_string (s_version s ++ [0]) then
    sbind (pick group_known SILC_SKE_STATUS_UNKNOWN_GROUP (s_grp s)) (fun grp =>
    sbind (silc_ske_group_get_by_name (grp ++ [0])) (fun group =>
    sbind (pick (pkcs_known al) SILC_SKE_STATUS_UNKNOWN_PKCS (s_pkcs s)) (fun pkcs =>
    sbind (pick (silc_cipher_is_supported (al_ciphers al)) SILC_SKE_STATUS_UNKNOWN_CIPHER
             (s_enc s)) (fun enc =>
    sbind (or_err (silc_cipher_alloc (al_ciphers al) (enc ++ [0]))
             SILC_SKE_STATUS_UNKNOWN_CIPHER) (fun cipher =>
    sbind (pick (silc_hash_is_supported (al_hashes al)) SILC_SKE_STATUS_UNKNOWN_HASH_FUNCTION
             (s_hash s)) (fun hash =>
    sbind (or_err (silc_hash_alloc (al_hashes al) (hash ++ [0]))
             SILC_SKE_STATUS_UNKNOWN_HASH_FUNCTION) (fun hash_object =>
    sbind (pick (fun i => silc_hmac_is_supported (al_hmacs al) (Some i))
             SILC_SKE_STATUS_UNKNOWN_HMAC (s_hmac s)) (fun hmac =>
    sbind (or_err (silc_hmac_alloc (al_hashes al) (al_hmacs al) (hmac ++ [0]) None)
             SILC_SKE_STATUS_UNKNOWN_HMAC) (fun hmac_object =>
    SkeOk (mkProp (s_flags s) group cipher hash_object hmac_object
             (session_remote_port session_port (s_flags s) (s_cookie s)),
           mkS (s_flags s) (session_cookie session_port (s_flags s) (s_cookie s))
             (c_string version) grp pkcs enc hash hmac (comp_chosen (s_comp s))))))))))))
  else SkeErr SILC_SKE_STATUS_BAD_VERSION.

(** No list has a NUL inside. *)
Definition clean (s : start) : Prop :=
  Forall no_nul [s_grp s; s_pkcs s; s_enc s; s_hash s; s_hmac s; s_comp s].

Lemma split_on_len c s x : x ∈ split_on c s -> zlen x <= zlen s.
Proof.
  revert x. induction s as [|a s IH]; intros x; cbn [split_on].
  - intros ->%list_elem_of_singleton. done.
  - rewrite zlen_cons. case_match.
    + intros [->|Hx]%elem_of_cons; [rewrite zlen_nil; zlen_facts; lia|].
      specialize (IH x Hx). lia.
    + destruct (split_on c s) as [|p ps].
      * intros ->%list_elem_of_singleton. rewrite zlen_cons, zlen_nil. zlen_facts. lia.
      * intros [->|Hx]%elem_of_cons.
        -- specialize (IH p ltac:(by left)). rewrite zlen_cons. lia.
        -- specialize (IH x ltac:(by right)). lia.
Qed.

Lemma chosen_len ok s x : chosen ok s = Some x -> zlen x <= zlen s.
Proof. intros H%chosen_in. by eapply split_on_len. Qed.

Lemma comp_chosen_len s : zlen (comp_chosen s) <= zlen s.
Proof.
  unfold comp_chosen. zlen_facts. case_bool_decide; [|rewrite zlen_nil; lia].
  destruct (List.find _ _) as [x|] eqn:E; cbn; [|rewrite zlen_nil; lia].
  apply List.find_some in E as [E _]. apply list_elem_of_In in E. by eapply split_on_len.
Qed.

Lemma data_of_block_item x : data_of x (zlen x) (Some (x ++ [0])).
Proof. split; [done|]. left. by exists [0]. Qed.

Lemma complete_lens s :
  complete s = true ->
  0 < zlen (s_version s) /\ 0 < zlen (s_grp s) /\ 0 < zlen (s_pkcs s) /\
  0 < zlen (s_enc s) /\ 0 < zlen (s_hash s) /\ 0 < zlen (s_hmac s).
Proof. unfold complete. zlen_facts. lia. Qed.

Lemma memdup_block s : zlen s < 65536 -> 0 < zlen s ->
  silc_memdup (default [] (block s)) (zlen s) = Some (s ++ [0]).
Proof.
  intros H Hp. zlen_facts. unfold block. rewrite decide_False by (by intros ->). cbn.
  rewrite silc_memdup_ok by (unfold SILC_MAX_ALLOC; rewrite ?zlen_app; zlen_facts; lia).
  by rewrite ztake_app_exact.
Qed.

Lemma ztake_block s n : zlen s = n -> 0 < n -> ztake n (default [] (block s)) = s.
Proof.
  intros <- Hp. unfold block. rewrite decide_False by (by intros ->). cbn.
  by rewrite ztake_app_exact.
Qed.

Lemma select_ok al version session_port len s :
  start_ok s -> clean s -> start_size s + CTypes.strlen version < 65536 ->
  match silc_ske_select_security_properties al version session_port (start_of len s) with
  | SkeOk (prop, p, rv) =>
      rv = Some (s_version s ++ [0]) /\
      exists s', selection al version session_port s = SkeOk (prop, s') /\ payload_of s' p
  | SkeErr e => selection al version session_port s = SkeErr e
  end.
Proof.
  intros (Hf & Hc & Hsz & Hm) Hcl Hv. pose proof (complete_lens s Hm) as (L1&L2&L3&L4&L5&L6).
  unfold clean in Hcl. rewrite !list.Forall_cons in Hcl. destruct Hcl as (N1&N2&N3&N4&N5&N6&_).
  unfold start_size in *. unfold CTypes.strlen in *. zlen_facts.
  unfold silc_ske_select_security_properties, selection, start_of, pkcs_known.
  cbn [ke_grp_len ke_grp_list pkcs_alg_len pkcs_alg_list enc_alg_len enc_alg_list hash_alg_len
    hash_alg_list hmac_alg_len hmac_alg_list comp_alg_len comp_alg_list SkePayload.version
    version_len cookie sp_flags].
  rewrite !(proj2 (Z.eqb_neq _ 0)) by lia. cbn [orb].
  rewrite memdup_block by lia. unfold silc_ske_check_version.
  destruct (silc_parse_version_string (s_version s ++ [0])); [|done].
  cbn [negb Z.eqb SILC_SKE_STATUS_OK]. change (negb (0 =? 0)) with false. cbn [negb].
  rewrite !select_list_ok by (done || lia).
  destruct (chosen _ (s_grp s)) as [grp|] eqn:E1; [|done]. cbn [or_err sbind default from_option id].
  destruct (silc_ske_group_get_by_name (grp ++ [0])) as [group|]; [|done]. cbn [sbind].
  destruct (chosen _ (s_pkcs s)) as [pkcs|] eqn:E2; [|done]. cbn [or_err sbind default from_option id].
  destruct (chosen _ (s_enc s)) as [enc|] eqn:E3; [|done]. cbn [or_err sbind default from_option id].
  destruct (silc_cipher_alloc _ _) as [cipher|]; [|done]. cbn [or_err sbind].
  destruct (chosen _ (s_hash s)) as [hash|] eqn:E4; [|done]. cbn [or_err sbind default from_option id].
  destruct (silc_hash_alloc _ _) as [hash_object|]; [|done]. cbn [or_err sbind].
  destruct (chosen _ (s_hmac s)) as [hmac|] eqn:E5; [|done]. cbn [or_err sbind default from_option id].
  destruct (silc_hmac_alloc _ _ _ _) as [hmac_object|]; [|done]. cbn [or_err sbind].
  destruct (select_comp_ok (s_comp s) N6 ltac:(lia)) as (comp & -> & Dc).
  rewrite ztake_block by done. split; [done|].
  apply chosen_len in E1, E2, E3, E4, E5. pose proof (comp_chosen_len (s_comp s)).
  eexists. split; [reflexivity|]. unfold payload_of.
  cbn [s_flags s_cookie s_version s_grp s_pkcs s_enc s_hash s_hmac s_comp sp_flags sp_len
    cookie cookie_len SkePayload.version version_len ke_grp_list ke_grp_len pkcs_alg_list
    pkcs_alg_len enc_alg_list enc_alg_len hash_alg_list hash_alg_len hmac_alg_list
    hmac_alg_len comp_alg_list comp_alg_len].
  change (CTypes.strlen version) with (zlen (c_string version)).
  zlen_facts. rewrite (u16_id (zlen (c_string version))) by lia.
  split; [done|]. split.
  { unfold start_len, start_size, SILC_SKE_COOKIE_LEN.
    cbn [s_version s_grp s_pkcs s_enc s_hash s_hmac s_comp]. rewrite u16_id by lia. lia. }
  split.
  { split; [|left; exists []; unfold session_cookie; by rewrite app_nil_r].
    unfold session_cookie, SILC_SKE_COOKIE_LEN. case_match; [|done].
    rewrite zlen_splice by (cbn; zl). done. }
  do 6 (split; [apply data_of_block_item|]). done.
Qed.

(** ** Agreement *)

(** The names a registry offers, and the two sides' common ones. *)
Definition offers {A} (name : A -> list Z) (r : option (list (nat * A))) : list (list Z) :=
  names name (elements r).

Definition in_common {A} (name : A -> list Z) (r1 r2 : option (list (nat * A))) : Prop :=
  exists n, n ∈ offers name r1 /\ n ∈ offers name r2.

(** Something is registered, under names without commas that fit a payload. *)
Definition usable {A} (name : A -> list Z) (r : option (list (nat * A))) : Prop :=
  r <> None /\ offers name r <> [] /\ names_size name (elements r) < 8192 /\
  Forall (fun n => (44 ∉ n) /\ n <> [] /\ bytes_ok n) (offers name r).

(** The hash function of every HMAC is registered too. *)
Definition hmacs_complete (al : algorithms) : Prop :=
  forall n, n ∈ offers mo_name (al_hmacs al) ->
    is_Some (silc_hmac_alloc (al_hashes al) (al_hmacs al) (n ++ [0]) None).

Definition al_ok (al : algorithms) : Prop :=
  usable ho_name (al_hashes al) /\ usable co_name (al_ciphers al) /\
  usable mo_name (al_hmacs al) /\ usable pa_name (al_pkcs al) /\ hmacs_complete al.

Definition version_ok (version : list Z) : Prop :=
  silc_parse_version_string version = true /\ bytes_ok (c_string version) /\
  zlen (c_string version) < 8192.

Lemma c_string_idem s : c_string (c_string s) = c_string s.
Proof.
  induction s as [|x s IH]; [done|]. cbn [c_string]. destruct (x =? 0) eqn:E; [done|].
  cbn [c_string]. by rewrite E, IH.
Qed.

Lemma c_string_no_nul_id s : no_nul s -> c_string s = s.
Proof.
  induction 1 as [|x s Hx Hs IH]; [done|]. cbn. by rewrite (proj2 (Z.eqb_neq x 0)), IH.
Qed.

Lemma c_string_end s : no_nul s -> c_string (s ++ [0]) = s.
Proof. apply c_string_app. Qed.

Lemma offers_no_nul {A} (name : A -> list Z) r n : n ∈ offers name r -> no_nul n.
Proof. intros ([p e] & -> & _)%list_elem_of_fmap. apply c_string_nonzero. Qed.

Lemma find_name_offer {A} (name : A -> list Z) r n :
  no_nul n ->
  match find_name name (elements r) (n ++ [0]) with
  | Some e => n ∈ offers name r /\ c_string (name e) = n
  | None => n ∉ offers name r
  end.
Proof.
  intros Hn. destruct (find_name _ _ _) as [e|] eqn:E.
  - apply find_name_some in E as [He E]. rewrite c_string_end in E by done. split; [|done].
    apply list_elem_of_fmap in He as ([p x] & -> & Hx). cbn in *.
    apply list_elem_of_fmap. by exists (p, x).
  - intros ([p x] & -> & Hx)%list_elem_of_fmap. cbn in *.
    apply (find_name_none _ _ _ E x); [|by rewrite c_string_end].
    apply list_elem_of_fmap. by exists (p, x).
Qed.

Lemma is_supported_offer {A} (name : A -> list Z) r n :
  no_nul n -> is_supported name r (n ++ [0]) = bool_decide (n ∈ offers name r).
Proof.
  intros Hn. unfold is_supported. pose proof (find_name_offer name r n Hn) as H.
  apply bool_decide_ext. destruct (find_name _ _ _); [naive_solver|].
  split; [by intros [??]|done].
Qed.

(** What is chosen from a list of names, for a test that is membership of [ns']. *)
Lemma chosen_common ok (ns ns' : list (list Z)) :
  ns <> [] -> Forall (fun n => 44 ∉ n) ns -> (forall n, n ∈ ns -> ok n = bool_decide (n ∈ ns')) ->
  match chosen ok (join 44 ns) with
  | Some x => x ∈ ns /\ (x ∉ ns' -> forall n, n ∈ ns -> n ∉ ns')
  | None => forall n, n ∈ ns -> n ∉ ns'
  end.
Proof.
  intros Hne Hc Hok. unfold chosen. rewrite split_on_join by done. case_bool_decide as C.
  - destruct (List.find ok ns) as [x|] eqn:E.
    + apply List.find_some in E as [Hx E]. apply list_elem_of_In in Hx. split; [done|].
      intros Hx'. rewrite Hok, bool_decide_eq_true in E by done. done.
    + intros n Hn. pose proof (List.find_none _ _ E n (proj1 (list_elem_of_In _ _) Hn)) as F.
      by rewrite Hok, bool_decide_eq_false in F by done.
  - assert (E : ns = [join 44 ns]).
    { rewrite <- (split_on_join 44 ns) at 1 by done. by apply split_on_single. }
    split; [rewrite E at 2; by left|]. intros Hx n Hn. rewrite E in Hn.
    by apply list_elem_of_singleton in Hn as ->.
Qed.

Lemma join_size {A} (name : A -> list Z) r :
  offers name r <> [] -> zlen (join 44 (offers name r)) < names_size name (elements r).
Proof.
  intros H. pose proof (f_equal zlen (join_snoc _ H)) as E.
  rewrite zlen_app, zlen_cons, zlen_nil in E. unfold names_size. fold (offers name r).
  assert (S : forall ns : list (list Z),
    zlen (concat ((fun n => n ++ [44]) <$> ns)) =
    Z.of_nat (sum_list_with (fun n => (length n + 1)%nat) ns)).
  { clear. induction ns as [|n ns IH]; [done|]. cbn [fmap list_fmap concat sum_list_with].
    rewrite !zlen_app, IH. unfold zlen. cbn. lia. }
  rewrite S in E. lia.
Qed.

Lemma join_forall (P : Z -> Prop) (ns : list (list Z)) :
  P 44 -> Forall (Forall P) ns -> Forall P (join 44 ns).
Proof.
  intros Hc. induction 1 as [|n ns Hn Hns IH]; [constructor|].
  destruct ns as [|m ns]; [done|].
  change (join 44 (n :: m :: ns)) with (n ++ 44 :: join 44 (m :: ns)).
  apply Forall_app_2; [done|]. by constructor.
Qed.

Lemma join_positive (ns : list (list Z)) : ns <> [] -> Forall (fun n => n <> []) ns -> 0 < zlen (join 44 ns).
Proof.
  intros Hne H. destruct ns as [|n ns]; [done|]. apply list.Forall_cons in H as [Hn _].
  destruct n as [|c n]; [done|].
  destruct ns; cbn [join app]; rewrite zlen_cons; zlen_facts; lia.
Qed.

(** A usable registry gives a list a payload can carry. *)
Lemma usable_list {A} (name : A -> list Z) r :
  usable name r ->
  get_supported name r = Some (join 44 (offers name r) ++ [0]) /\
  no_nul (join 44 (offers name r)) /\ bytes_ok (join 44 (offers name r)) /\
  0 < zlen (join 44 (offers name r)) < 8192 /\ Forall (fun n => 44 ∉ n) (offers name r).
Proof.
  intros (Hr & Hne & Hs & Hn). pose proof (join_size name r Hne).
  destruct r as [l|]; [|done]. split.
  { apply get_supported_ok; [by destruct l|]. unfold SILC_MAX_ALLOC. lia. }
  split; [|split; [|split]].
  - apply join_forall; [done|]. apply list.Forall_forall. intros n. apply offers_no_nul.
  - apply join_forall; [done|]. eapply list.Forall_impl; [exact Hn|]. by intros n (_ & _ & ?).
  - split; [|lia]. apply join_positive; [done|].
    eapply list.Forall_impl; [exact Hn|]. by intros n (_ & ? & _).
  - eapply list.Forall_impl; [exact Hn|]. by intros n (? & _).
Qed.

(** What the initiator proposes. *)
Definition group_names : list (list Z) := g_name <$> silc_ske_groups.

Definition proposal (al : algorithms) (rnd : list Z) (session_port flags : Z)
    (version : list Z) : start :=
  mkS (u8 flags) (session_cookie session_port flags (ztake SILC_SKE_COOKIE_LEN rnd))
    (c_string version) (join 44 group_names)
    (join 44 (offers pa_name (al_pkcs al))) (join 44 (offers co_name (al_ciphers al)))
    (join 44 (offers ho_name (al_hashes al))) (join 44 (offers mo_name (al_hmacs al)))
    (chars "none").

(** The flags the responder works with: it may force some and clear others. *)
Definition with_flags (flags : Z) (s : start) : start :=
  mkS flags (s_cookie s) (s_version s) (s_grp s) (s_pkcs s) (s_enc s) (s_hash s) (s_hmac s)
    (s_comp s).

Lemma version_positive version : version_ok version -> 0 < zlen (c_string version).
Proof.
  intros (H & _ & _). unfold silc_parse_version_string in H.
  destruct (c_string version); [done|]. rewrite zlen_cons. zlen_facts. lia.
Qed.

Lemma session_cookie_len session_port flags ck :
  zlen ck = 16 -> zlen (session_cookie session_port flags ck) = 16.
Proof.
  intros H. unfold session_cookie. case_match; [|done].
  rewrite zlen_splice by (cbn; zl). done.
Qed.

Lemma session_cookie_bytes session_port flags ck :
  bytes_ok ck -> bytes_ok (session_cookie session_port flags ck).
Proof.
  intros H. unfold session_cookie, bytes_ok. case_match; [|done]. unfold splice.
  apply Forall_app_2; [by apply Forall_take|].
  apply Forall_app_2; [apply put16_bytes|by apply Forall_drop].
Qed.

Lemma chars_none : zlen (chars "none") = 4 /\ bytes_ok (chars "none") /\ no_nul (chars "none").
Proof. split; [done|]. split; by repeat constructor. Qed.

Lemma group_list :
  silc_ske_get_supported_groups = Some (join 44 group_names ++ [0]) /\
  zlen (join 44 group_names) = 43 /\ bytes_ok (join 44 group_names) /\
  no_nul (join 44 group_names).
Proof.
  split; [reflexivity|]. split; [reflexivity|].
  split; apply (bool_decide_unpack _); vm_compute; exact I.
Qed.

Lemma strlen_end s : no_nul s -> CTypes.strlen (s ++ [0]) = zlen s.
Proof. intros H. unfold CTypes.strlen. by rewrite c_string_end. Qed.

Lemma assemble_ok al rnd session_port flags version :
  al_ok al -> version_ok version -> 16 <= zlen rnd -> bytes_ok rnd ->
  let s := proposal al rnd session_port flags version in
  start_ok s /\ start_bytes s /\ clean s /\ start_size s < 45000 /\
  exists p, silc_ske_assemble_security_properties al rnd session_port flags version = Some p /\
            payload_of s p.
Proof.
  intros (Uh & Uc & Um & Up & _) Hv Hr Hb. pose proof (version_positive version Hv) as Hvp.
  destruct Hv as (_ & Hvb & Hvl).
  apply usable_list in Uh as (Gh & Nh & Bh & Lh & _), Uc as (Gc & Nc & Bc & Lc & _),
    Um as (Gm & Nm & Bm & Lm & _), Up as (Gp & Np & Bp & Lp & _).
  destruct group_list as (Gg & Lg & Bg & Ng). destruct chars_none as (Ln & Bn & Nn).
  assert (Hc : zlen (ztake SILC_SKE_COOKIE_LEN rnd) = 16)
    by (unfold SILC_SKE_COOKIE_LEN; rewrite zlen_take; lia).
  assert (Hcb : bytes_ok (ztake SILC_SKE_COOKIE_LEN rnd)) by (by apply Forall_take).
  cbn zeta. set (s := proposal _ _ _ _ _).
  assert (Hsz : start_size s < 45000 /\ start_size s = 34 + zlen (c_string version) +
     zlen (join 44 group_names) + zlen (s_pkcs s) + zlen (s_enc s) + zlen (s_hash s) +
     zlen (s_hmac s) + zlen (chars "none")).
  { unfold start_size, s, proposal. cbn [s_version s_grp s_pkcs s_enc s_hash s_hmac s_comp]. lia. }
  destruct Hsz as [Hsz Esz]. split; [|split; [|split; [|split]]].
  - split; [apply u8_range|]. split; [by apply session_cookie_len|]. split; [lia|].
    unfold complete, s, proposal. cbn [s_version s_grp s_pkcs s_enc s_hash s_hmac]. lia.
  - repeat (apply list.Forall_cons; split; [done || by apply session_cookie_bytes|]). done.
  - repeat (apply list.Forall_cons; split; [done|]). done.
  - done.
  - unfold silc_ske_assemble_security_properties, silc_pkcs_get_supported,
      silc_cipher_get_supported, silc_hash_get_supported, silc_hmac_get_supported.
    rewrite Gg, Gp, Gc, Gh, Gm. eexists. split; [reflexivity|].
    rewrite !strlen_end by done. unfold CTypes.strlen. rewrite !u16_id by lia.
    unfold payload_of. cbn [sp_flags sp_len cookie cookie_len SkePayload.version version_len
      ke_grp_list ke_grp_len pkcs_alg_list pkcs_alg_len enc_alg_list enc_alg_len hash_alg_list
      hash_alg_len hmac_alg_list hmac_alg_len comp_alg_list comp_alg_len].
    split; [done|]. split.
    { unfold start_len, SILC_SKE_COOKIE_LEN. rewrite Esz. unfold s, proposal.
      cbn [s_pkcs s_enc s_hash s_hmac]. rewrite u16_id by lia. lia. }
    split.
    { split; [symmetry; by apply session_cookie_len|]. left. exists []. by rewrite app_nil_r. }
    do 7 (split; [apply data_of_block_item|]). apply data_of_block_item.
Qed.

Lemma usable_item {A} (name : A -> list Z) r n :
  usable name r -> n ∈ offers name r -> 0 < zlen n < 8192 /\ bytes_ok n.
Proof.
  intros U I. pose proof U as (_ & Hne & Hs & Hn).
  apply list.Forall_forall with (x := n) in Hn as (_ & Hn0 & Hb); [|done].
  split; [|done]. split; [destruct n; [done|rewrite zlen_cons; zlen_facts; lia]|].
  eapply Z.le_lt_trans; [|exact Hs]. unfold names_size. fold (offers name r).
  clear -I. induction (offers name r) as [|m l IH]; [by apply not_elem_of_nil in I|].
  cbn [sum_list_with]. apply elem_of_cons in I as [->|I]; [unfold zlen; lia|].
  specialize (IH I). lia.
Qed.

(** The two sides have the same properties, up to the objects they use. *)
Definition same_prop (p q : SilcSKESecurityProperties) : Prop :=
  pr_flags p = pr_flags q /\ pr_group p = pr_group q /\
  c_string (silc_cipher_get_name (pr_cipher p)) = c_string (silc_cipher_get_name (pr_cipher q)) /\
  c_string (silc_hash_get_name (pr_hash p)) = c_string (silc_hash_get_name (pr_hash q)) /\
  c_string (silc_hmac_get_name (pr_hmac p)) = c_string (silc_hmac_get_name (pr_hmac q)).

Lemma cipher_alloc_offer r n :
  no_nul n ->
  match silc_cipher_alloc r (n ++ [0]) with
  | Some c => n ∈ offers co_name r /\ c_string (silc_cipher_get_name c) = n
  | None => n ∉ offers co_name r
  end.
Proof.
  intros Hn. unfold silc_cipher_alloc. pose proof (find_name_offer co_name r n Hn) as H.
  by destruct (find_name _ _ _).
Qed.

Lemma hash_alloc_offer r n :
  no_nul n ->
  match silc_hash_alloc r (n ++ [0]) with
  | Some h => n ∈ offers ho_name r /\ c_string (silc_hash_get_name h) = n
  | None => n ∉ offers ho_name r
  end.
Proof.
  intros Hn. unfold silc_hash_alloc. pose proof (find_name_offer ho_name r n Hn) as H.
  by destruct (find_name _ _ _).
Qed.

Lemma hmac_alloc_offer al n :
  no_nul n -> hmacs_complete al ->
  match silc_hmac_alloc (al_hashes al) (al_hmacs al) (n ++ [0]) None with
  | Some h => n ∈ offers mo_name (al_hmacs al) /\ c_string (silc_hmac_get_name h) = n
  | None => n ∉ offers mo_name (al_hmacs al)
  end.
Proof.
  intros Hn Hc. pose proof (find_name_offer mo_name (al_hmacs al) n Hn) as H.
  pose proof (Hc n) as Hs. unfold silc_hmac_alloc in *.
  destruct (silc_hash_alloc _ _) as [h|]; [by destruct (find_name _ _ _)|].
  intros Hin. by destruct (Hs Hin).
Qed.

Lemma pkcs_known_offer al n :
  no_nul n -> pkcs_known al (n ++ [0]) = bool_decide (n ∈ offers pa_name (al_pkcs al)).
Proof.
  intros Hn. unfold pkcs_known. rewrite find_algorithm_name. apply bool_decide_ext.
  pose proof (find_name_offer pa_name (al_pkcs al) n Hn) as H.
  destruct (find_name _ _ _); [naive_solver|]. split; [by intros [??]|done].
Qed.

Lemma group_pick ok :
  (forall n, ok n = group_known (n ++ [0])) ->
  exists g, chosen ok (join 44 group_names) = Some (g_name g) /\ 0 < zlen (g_name g) < 100 /\ bytes_ok (g_name g) /\
    default [] (block (g_name g)) = g_name g ++ [0] /\
    silc_ske_group_get_by_name (g_name g ++ [0]) = SkeOk g.
Proof.
  intros Hok. exists (List.nth 0 silc_ske_groups (mkGroup 0 [] 0 0 0)).
  split; [|split; [done|split; [apply (bool_decide_unpack _); vm_compute; exact I|by split]]].
  unfold chosen. rewrite bool_decide_eq_true_2 by by_compute.
  rewrite split_on_join by (done || by_compute). cbn [group_names silc_ske_groups fmap list_fmap].
  cbn [List.find]. rewrite Hok. reflexivity.
Qed.

(** What is chosen from a usable list, when the test is what the other side
    offers. *)
Lemma pick_ok {A} (name : A -> list Z) ri rr ok :
  usable name ri ->
  (forall n, no_nul n -> ok (n ++ [0]) = bool_decide (n ∈ offers name rr)) ->
  match chosen (fun x => ok (x ++ [0])) (join 44 (offers name ri)) with
  | Some x => x ∈ offers name ri /\ no_nul x /\ default [] (block x) = x ++ [0] /\
              (x ∉ offers name rr -> ~ in_common name ri rr)
  | None => ~ in_common name ri rr
  end.
Proof.
  intros U Hok. pose proof U as (_ & Hne & _ & Hn). apply usable_list in U as (_&_&_&_&F).
  pose proof (chosen_common (fun x => ok (x ++ [0])) _ (offers name rr) Hne F
    ltac:(intros n I; by apply Hok, (offers_no_nul _ _ _ I))) as C.
  destruct (chosen _ _) as [x|].
  - destruct C as [I C]. split; [done|]. split; [by eapply offers_no_nul|]. split.
    + unfold block. rewrite decide_False; [done|].
      apply list.Forall_forall with (x := x) in Hn; [by destruct Hn as (_ & ? & _)|done].
    + intros Hx (n & H1 & H2). by apply (C Hx n).
  - intros (n & H1 & H2). by apply (C n).
Qed.

Lemma comp_chosen_none s : 44 ∉ s -> comp_chosen s = [].
Proof. intros H. unfold comp_chosen. by rewrite bool_decide_eq_false_2. Qed.

(** A selection made from the proposal is one that the initiator can take; it is
    refused only when a list has nothing in common with what the responder
    has. *)
Lemma selection_agrees ali alr rnd spi flags vi vr spr flags' len port :
  al_ok ali -> al_ok alr -> version_ok vi -> version_ok vr -> 16 <= zlen rnd ->
  bytes_ok rnd -> 0 <= flags' < 256 ->
  match selection alr vr spr (with_flags flags' (proposal ali rnd spi flags vi)) with
  | SkeOk (prop, s') => exists prop',
      take_selection ali port (start_of len s') = SkeOk prop' /\ same_prop prop prop' /\
      s_flags s' = flags' /\
      s_cookie s' = session_cookie spr flags' (session_cookie spi flags (ztake 16 rnd)) /\
      start_ok s' /\ start_bytes s'
  | SkeErr e =>
      (e = SILC_SKE_STATUS_UNKNOWN_PKCS /\ ~ in_common pa_name (al_pkcs ali) (al_pkcs alr)) \/
      (e = SILC_SKE_STATUS_UNKNOWN_CIPHER /\
         ~ in_common co_name (al_ciphers ali) (al_ciphers alr)) \/
      (e = SILC_SKE_STATUS_UNKNOWN_HASH_FUNCTION /\
         ~ in_common ho_name (al_hashes ali) (al_hashes alr)) \/
      (e = SILC_SKE_STATUS_UNKNOWN_HMAC /\ ~ in_common mo_name (al_hmacs ali) (al_hmacs alr))
  end.
Proof.
  intros Hi Hr Hv Hvr Hn Hb Hf. pose proof Hi as (Uh & Uc & Um & Up & Hci).
  pose proof Hr as (_ & _ & _ & _ & Hcr). pose proof (version_positive vr Hvr).
  unfold selection, with_flags, proposal.
  cbn [s_flags s_cookie s_version s_grp s_pkcs s_enc s_hash s_hmac s_comp].
  assert (Vp : silc_parse_version_string (c_string vi ++ [0]) = true).
  { destruct Hv as (Hv & _). unfold silc_parse_version_string in *.
    by rewrite c_string_end by apply c_string_nonzero. }
  rewrite Vp. edestruct (group_pick (fun x => group_known (x ++ [0]))) as (g & -> & Lg & Yg & Bg & Eg);
    [done|]. cbn [or_err sbind]. rewrite Eg. cbn [sbind].
  pose proof (pick_ok pa_name _ (al_pkcs alr) (pkcs_known alr) Up (pkcs_known_offer alr)) as Cp.
  destruct (chosen _ (join 44 (offers pa_name _))) as [pkcs|]; cbn [or_err sbind]; [|by left].
  destruct Cp as (Ip & Np & Bp & _).
  pose proof (pick_ok co_name _ (al_ciphers alr) _ Uc (is_supported_offer _ _)) as Cc.
  fold (silc_cipher_is_supported (al_ciphers alr)) in Cc.
  destruct (chosen _ (join 44 (offers co_name _))) as [enc|]; cbn [or_err sbind]; [|by right; left].
  destruct Cc as (Ic & Nc & Bc & Cc). pose proof (cipher_alloc_offer (al_ciphers alr) enc Nc) as Ac.
  destruct (silc_cipher_alloc (al_ciphers alr) _) as [cr|]; cbn [or_err sbind];
    [|right; left; split; [done|by apply Cc]].
  pose proof (pick_ok ho_name _ (al_hashes alr) _ Uh (is_supported_offer _ _)) as Ch.
  fold (silc_hash_is_supported (al_hashes alr)) in Ch.
  destruct (chosen _ (join 44 (offers ho_name _))) as [hash|]; cbn [or_err sbind];
    [|by right; right; left].
  destruct Ch as (Ih & Nh & Bh & Ch). pose proof (hash_alloc_offer (al_hashes alr) hash Nh) as Ah.
  destruct (silc_hash_alloc (al_hashes alr) _) as [hr|]; cbn [or_err sbind];
    [|right; right; left; split; [done|by apply Ch]].
  pose proof (pick_ok mo_name _ (al_hmacs alr) (fun i => silc_hmac_is_supported (al_hmacs alr) (Some i))
    Um (is_supported_offer _ _)) as Cm.
  destruct (chosen _ (join 44 (offers mo_name _))) as [hmac|]; cbn [or_err sbind];
    [|by right; right; right].
  destruct Cm as (Im & Nm & Bm & Cm). pose proof (hmac_alloc_offer alr hmac Nm Hcr) as Am.
  destruct (silc_hmac_alloc (al_hashes alr) _ _ _) as [mr|]; cbn [or_err sbind];
    [|right; right; right; split; [done|by apply Cm]].
  unfold take_selection, start_of.
  cbn [s_flags s_cookie s_version s_grp s_pkcs s_enc s_hash s_hmac s_comp sp_flags ke_grp_list
    pkcs_alg_list enc_alg_list hash_alg_list hmac_alg_list].
  rewrite Bg, Eg, Bp, Bc, Bh, Bm. cbn [sbind]. rewrite find_algorithm_name.
  pose proof (find_name_offer pa_name (al_pkcs ali) pkcs Np) as Fp.
  destruct (find_name pa_name _ _) as [ep|]; [cbn [or_err sbind]|done].
  pose proof (cipher_alloc_offer (al_ciphers ali) enc Nc) as Fc.
  destruct (silc_cipher_alloc (al_ciphers ali) _) as [ci|]; [cbn [or_err sbind]|done].
  pose proof (hash_alloc_offer (al_hashes ali) hash Nh) as Fh.
  destruct (silc_hash_alloc (al_hashes ali) _) as [hi|]; [cbn [or_err sbind]|done].
  pose proof (hmac_alloc_offer ali hmac Nm Hci) as Fm.
  destruct (silc_hmac_alloc (al_hashes ali) _ _ _) as [mi|]; [cbn [or_err sbind]|done].
  eexists. split; [reflexivity|]. unfold same_prop.
  cbn [pr_flags pr_group pr_cipher pr_hash pr_hmac].
  destruct Ac as [_ ->], Ah as [_ ->], Am as [_ ->], Fc as [_ ->], Fh as [_ ->], Fm as [_ ->].
  split; [done|]. split; [done|]. split; [done|].
  rewrite (comp_chosen_none (chars "none")) by by_compute. destruct Hvr as (_ & Hvb & Hvl).
  pose proof (usable_item _ _ _ Up Ip) as [Lp Yp]. pose proof (usable_item _ _ _ Uc Ic) as [Lc Yc].
  pose proof (usable_item _ _ _ Uh Ih) as [Lh Yh]. pose proof (usable_item _ _ _ Um Im) as [Lm Ym].
  split; [split; [done|]; split; [do 2 apply session_cookie_len; apply zlen_take; lia|]|].
  - unfold start_size, complete. cbn [s_version s_grp s_pkcs s_enc s_hash s_hmac s_comp].
    rewrite zlen_nil. lia.
  - unfold start_bytes. cbn [s_cookie s_version s_grp s_pkcs s_enc s_hash s_hmac s_comp].
    assert (bytes_ok (session_cookie spr flags' (session_cookie spi flags (ztake 16 rnd))))
      by (do 2 apply session_cookie_bytes; by apply Forall_take).
    repeat (apply list.Forall_cons; split; [done|]). by repeat constructor.
Qed.

(** The server's default algorithms. *)
Definition default_algorithms : algorithms :=
  mkAlgorithms default_hashes default_ciphers default_hmacs default_pkcs_algs.

Lemma default_usable : al_ok default_algorithms.
Proof.
  split; [|split; [|split; [|split]]];
    try (split; [done|]; split; [done|]; split; [done|]; by_compute).
  assert (F : Forall (fun n => is_Some (silc_hmac_alloc default_hashes default_hmacs
    (n ++ [0]) None)) (offers mo_name default_hmacs)) by (repeat constructor; by eexists).
  intros n Hn. by apply (proj1 (list.Forall_forall _ _) F).
Qed.

(** ** Properties *)

(** the first supported item is selected: from a list with a comma the
    responder takes the first item it supports, with its length, and gives the
    error when it supports none; a list of one name is taken as it is. *)
Theorem select_first_supported (ok : list Z -> bool) (err : Z) (items : list (list Z)) :
  items <> [] -> Forall (fun x => (44 ∉ x) /\ no_nul x) items ->
  0 < zlen (join 44 items) < 65536 ->
  select_list ok err (block (join 44 items)) (zlen (join 44 items)) =
  match items with
  | [x] => SkeOk (zlen x, Some (x ++ [0]))
  | _ =>
      match List.find (fun x => ok (x ++ [0])) items with
      | Some x => SkeOk (zlen x, Some (x ++ [0]))
      | None => SkeErr err
      end
  end.
Proof.
  intros Hne H Hs. rewrite select_list_ok; [|apply join_forall; [done|]|lia..].
  2:{ eapply list.Forall_impl; [exact H|]. by intros x [_ ?]. }
  assert (Hc : Forall (fun x => 44 ∉ x) items)
    by (eapply list.Forall_impl; [exact H|]; by intros x [? _]).
  destruct items as [|x [|y l]]; [done| |].
  - cbn [join]. apply list.Forall_cons in Hc as [Hc _]. unfold chosen.
    by rewrite bool_decide_eq_false_2.
  - unfold chosen. rewrite bool_decide_eq_true_2.
    + by rewrite split_on_join.
    + change (join 44 (x :: y :: l)) with (x ++ 44 :: join 44 (y :: l)).
      apply elem_of_app. right. by left.
Qed.

Lemma select_first_supported_witness :
  select_list (silc_hash_is_supported default_hashes) 6
    (block (join 44 [chars "whirlpool"; chars "sha1"; chars "md5"])) 18 =
  SkeOk (4, Some (chars "sha1" ++ [0])).
Proof.
  apply (select_first_supported (silc_hash_is_supported default_hashes) 6
           [chars "whirlpool"; chars "sha1"; chars "md5"]).
  - done.
  - by_compute.
  - split; done.
Defined.

(** C8: two sides with any registered algorithms negotiate: the initiator's
    proposal is encoded and decoded, and the responder either refuses it with
    the status of a kind of algorithm that the two have none of in common, or
    selects properties whose reply the initiator decodes and takes into use
    with the same group, cipher, hash function, HMAC and flags; the cookie
    comes back, with the responder's port over its start when it is to carry
    one. *)
Theorem negotiation_agrees (ali alr : algorithms) (rnd vi vr : list Z)
    (spi spr flags flags' port : Z) :
  al_ok ali -> al_ok alr -> version_ok vi -> version_ok vr -> 16 <= zlen rnd ->
  bytes_ok rnd -> 0 <= flags' < 256 ->
  let s := proposal ali rnd spi flags vi in
  exists p b,
    silc_ske_assemble_security_properties ali rnd spi flags vi = Some p /\
    silc_ske_payload_start_encode (Some p) = SkeOk b /\
    silc_ske_payload_start_decode b = SkeOk (start_of (start_size s) s) /\
    match silc_ske_select_security_properties alr vr spr
            (start_of (start_size s) (with_flags flags' s)) with
    | SkeOk (prop, reply, _) => exists b' sel prop',
        silc_ske_payload_start_encode (Some reply) = SkeOk b' /\
        silc_ske_payload_start_decode b' = SkeOk sel /\
        take_selection ali port sel = SkeOk prop' /\ same_prop prop prop' /\
        sp_flags sel = flags' /\
        cookie sel = block (session_cookie spr flags' (session_cookie spi flags (ztake 16 rnd)))
    | SkeErr e =>
        (e = SILC_SKE_STATUS_UNKNOWN_PKCS /\
           ~ in_common pa_name (al_pkcs ali) (al_pkcs alr)) \/
        (e = SILC_SKE_STATUS_UNKNOWN_CIPHER /\
           ~ in_common co_name (al_ciphers ali) (al_ciphers alr)) \/
        (e = SILC_SKE_STATUS_UNKNOWN_HASH_FUNCTION /\
           ~ in_common ho_name (al_hashes ali) (al_hashes alr)) \/
        (e = SILC_SKE_STATUS_UNKNOWN_HMAC /\
           ~ in_common mo_name (al_hmacs ali) (al_hmacs alr))
    end.
Proof.
  intros Hi Hr Hvi Hvr Hn Hb Hf. cbn zeta.
  pose proof (assemble_ok ali rnd spi flags vi Hi Hvi Hn Hb) as (Hs & Hsb & Hcl & Hsz & p & Ep & Hp).
  set (s := proposal ali rnd spi flags vi) in *.
  exists p, (whole (enc_start 0 (start_size s) s)). split; [done|].
  split; [by apply start_encode_ok|]. split; [by apply decode_encoded|].
  pose proof Hs as (Hs1 & Hs2 & Hs3 & Hs4).
  pose proof Hvr as (_ & Hvb & Hvl).
  assert (Hz : start_size (with_flags flags' s) + CTypes.strlen vr < 65536)
    by (unfold CTypes.strlen; change (start_size (with_flags flags' s)) with (start_size s); lia).
  pose proof (select_ok alr vr spr (start_size s) (with_flags flags' s)
    (conj Hf (conj Hs2 (conj Hs3 Hs4))) Hcl Hz) as S.
  pose proof (fun len => selection_agrees ali alr rnd spi flags vi vr spr flags' len port
    Hi Hr Hvi Hvr Hn Hb Hf) as A. fold s in A.
  destruct (silc_ske_select_security_properties _ _ _ _) as [[[prop reply] rv]|e]; cycle 1.
  { specialize (A 0). by rewrite S in A. }
  destruct S as (_ & s' & E & Hp'). specialize (A (start_size s')). rewrite E in A.
  destruct A as (prop' & At & Asame & Af & Ac & Aok & Ab).
  exists (whole (enc_start 0 (start_size s') s')), (start_of (start_size s') s'), prop'.
  split; [by apply start_encode_ok|]. split; [by apply decode_encoded|]. split; [done|].
  split; [done|]. split; [done|]. cbn [start_of cookie]. by rewrite Ac.
Qed.

Definition ex_version : list Z := chars "SILC-1.2-1.1" ++ [0].

Lemma negotiation_agrees_witness :
  let s := proposal default_algorithms (replicate 16 9) 0 6 ex_version in
  exists p b,
    silc_ske_assemble_security_properties default_algorithms (replicate 16 9) 0 6 ex_version =
      Some p /\
    silc_ske_payload_start_encode (Some p) = SkeOk b /\
    silc_ske_payload_start_decode b = SkeOk (start_of (start_size s) s) /\
    match silc_ske_select_security_properties default_algorithms ex_version 0
            (start_of (start_size s) (with_flags 6 s)) with
    | SkeOk (prop, reply, _) => exists b' sel prop',
        silc_ske_payload_start_encode (Some reply) = SkeOk b' /\
        silc_ske_payload_start_decode b' = SkeOk sel /\
        take_selection default_algorithms 0 sel = SkeOk prop' /\ same_prop prop prop' /\
        sp_flags sel = 6 /\
        cookie sel = block (session_cookie 0 6 (session_cookie 0 6 (ztake 16 (replicate 16 9))))
    | SkeErr e =>
        (e = SILC_SKE_STATUS_UNKNOWN_PKCS /\
           ~ in_common pa_name default_pkcs_algs default_pkcs_algs) \/
        (e = SILC_SKE_STATUS_UNKNOWN_CIPHER /\
           ~ in_common co_name default_ciphers default_ciphers) \/
        (e = SILC_SKE_STATUS_UNKNOWN_HASH_FUNCTION /\
           ~ in_common ho_name default_hashes default_hashes) \/
        (e = SILC_SKE_STATUS_UNKNOWN_HMAC /\
           ~ in_common mo_name default_hmacs default_hmacs)
    end.
Proof.
  apply (negotiation_agrees default_algorithms default_algorithms (replicate 16 9) ex_version
           ex_version 0 0 6 6 0); try apply default_usable; try (split; [done|split; by_compute]);
    by_compute.
Defined.

(** A name with a NUL inside passes, as a C string, for the name before it, and
    the reply keeps the length of the whole: encoding it reads that many bytes
    from a copy that ends at the NUL. *)
Definition ex_nul_proposal : start :=
  mkS 0 (replicate 16 9) (chars "SILC-1.2-1.1") (chars "diffie-hellman-group1" ++ 0 :: replicate 100 65)
    (chars "rsa") (chars "aes-256-cbc") (chars "sha1") (chars "hmac-sha1-96") (chars "none").

Lemma reply_reads_past_name :
  match silc_ske_select_security_properties default_algorithms ex_version 0
          (start_of (start_size ex_nul_proposal) ex_nul_proposal) with
  | SkeOk (_, reply, _) =>
      ke_grp_list reply = Some (chars "diffie-hellman-group1" ++ [0]) /\
      ke_grp_len reply = 122 /\
      bool_decide (zlen (default [] (ke_grp_list reply)) < ke_grp_len reply) = true
  | SkeErr _ => False
  end.
Proof. vm_compute. repeat split. Qed.
