(* ===== verification/SkeKeys.v ===== *)
(** * Keys of the key exchange ([lib/silcske/silcske.c])

    The random exponent, the hash over what the two sides exchanged, the key
    material derived from it and the shared secret, and the ciphers and HMACs
    that are set up with it. *)

From S2P Require Import Prelude CTypes Memory Buffer BuffFmt Hmac Mp SkePayload Registry SkeNegotiate.
Import Format Unformat RoundTrip Encoding.

(** ** The exponent *)

(** [string] is what [silc_rng_get_rn_data] returns for [l] bytes. *)
Definition silc_ske_create_rnd (string : list Z) (n len : Z) : ske_result Z :=
  if len =? 0 then SkeErr SILC_SKE_STATUS_ERROR
  else
    let l := (len - 1) / 8 in
    let rnd := silc_mp_mod_2exp (silc_mp_bin2mp string l) len in
    if (rnd <? 1) || (n <=? rnd) then SkeErr SILC_SKE_STATUS_ERROR else SkeOk rnd.

(** ** The hash *)

(** [silc_ske_make_hash]; [copy] is [ske->start_payload_copy] and [KEY] the
    shared secret.  The result is [return_hash], whose length is that of the
    hash function. *)
Definition silc_ske_make_hash (hash : SilcHash) (copy : option SilcBuffer)
    (ke1 ke2 : SilcSKEKEPayload) (KEY : Z) (initiator : bool) : ske_result (list Z) :=
  let s_data := silc_buffer_data <$> copy in
  let s_len := match copy with Some b => silc_buffer_len b | None => 0 end in
  match silc_mp_mp2bin (ke_x ke1) 0, silc_mp_mp2bin (ke_x ke2) 0, silc_mp_mp2bin KEY 0 with
  | Some (e, e_len), Some (f, f_len), Some (K, K_len) =>
      let buf :=
        if initiator then silc_buffer_alloc_size (u32 (s_len + pk_len ke1 + e_len))
        else silc_buffer_alloc_size
               (u32 (s_len + pk_len ke2 + pk_len ke1 + e_len + f_len + K_len)) in
      match buf with
      | None => SkeErr SILC_SKE_STATUS_OUT_OF_MEMORY
      | Some buf =>
          let '(buf, ret) :=
            silc_buffer_format buf
              (if initiator then
                 [PARAM_NSTRING s_data s_len; PARAM_NSTRING (pk_data ke1) (pk_len ke1);
                  PARAM_NSTRING (Some e) e_len]
               else if bool_decide (pk_data ke1 = None) then
                 [PARAM_NSTRING s_data s_len; PARAM_NSTRING (pk_data ke2) (pk_len ke2);
                  PARAM_NSTRING (Some e) e_len; PARAM_NSTRING (Some f) f_len;
                  PARAM_NSTRING (Some K) K_len]
               else
                 [PARAM_NSTRING s_data s_len; PARAM_NSTRING (pk_data ke2) (pk_len ke2);
                  PARAM_NSTRING (pk_data ke1) (pk_len ke1);
                  PARAM_NSTRING (Some e) e_len; PARAM_NSTRING (Some f) f_len;
                  PARAM_NSTRING (Some K) K_len]) in
          if ret =? -1 then SkeErr SILC_SKE_STATUS_ERROR
          else SkeOk (digest_of hash (ztake (silc_buffer_len buf) (silc_buffer_data buf)))
      end
  | _, _, _ => SkeErr SILC_SKE_STATUS_OUT_OF_MEMORY
  end.

(** ** Key material *)

(** [SilcSKEKeyMaterial]. *)
Record SilcSKEKeyMaterial := mkKeymat {
  send_iv : list Z;
  receive_iv : list Z;
  iv_len : Z;
  send_enc_key : list Z;
  receive_enc_key : list Z;
  enc_key_len : Z;
  send_hmac_key : list Z;
  receive_hmac_key : list Z;
  hmac_key_len : Z
}.

(** [silc_hash_make(hash, buf->data, silc_buffer_len(buf), hashd)], into an array
    of [SILC_HASH_MAXLEN] zero bytes. *)
Definition hash_into (hash : SilcHash) (buf : SilcBuffer) : list Z :=
  splice 0 (digest_of hash (ztake (silc_buffer_len buf) (silc_buffer_data buf)))
    (zeros SILC_HASH_MAXLEN).

(** [dst = silc_calloc(n, 1); memcpy(dst, src, n)]; nothing for a NULL. *)
Definition calloc_copy (n : Z) (src : list Z) : list Z :=
  match silc_calloc n 1 with
  | None => []
  | Some dst => splice 0 (ztake n src) dst
  end.

(** [buf->data[0] = i]. *)
Definition poke0 (buf : SilcBuffer) (i : Z) : SilcBuffer :=
  set_mem buf (splice (b_data buf) [i] (b_mem buf)).

(** One encryption key.  The code is there twice, for the [send_enc_key] and the
    [receive_enc_key]; [buf] has its first byte set. *)
Definition take_enc_key (hash : SilcHash) (buf : SilcBuffer) (data : list Z)
    (data_len hash_len n : Z) : option (list Z) :=
  if hash_len <? n then
    if 3 * hash_len <? n then None
    else
      let k1 := hash_into hash buf in
      match silc_buffer_alloc_size (u32 (data_len + hash_len)) with
      | None => None
      | Some dist =>
          let dist := (silc_buffer_format dist [PARAM_NSTRING (Some data) data_len;
                                                PARAM_NSTRING (Some k1) hash_len]).1 in
          let k2 := hash_into hash dist in
          match silc_buffer_realloc (Some dist) (u32 (data_len + hash_len + hash_len)) with
          | None => None
          | Some dist =>
              let dist := (silc_buffer_pull_tail dist hash_len).1 in
              let dist := (silc_buffer_pull dist (u32 (data_len + hash_len))).1 in
              let dist := (silc_buffer_format dist [PARAM_NSTRING (Some k2) hash_len]).1 in
              let dist := (silc_buffer_push dist (u32 (data_len + hash_len))).1 in
              let k3 := hash_into hash dist in
              let dtmp := ztake hash_len k1 ++ ztake hash_len k2 ++ ztake hash_len k3 in
              Some (calloc_copy n dtmp)
          end
      end
  else Some (calloc_copy n (hash_into hash buf)).

(** The lengths requested are at most [SILC_HASH_MAXLEN], which is what the
    copies read from.  The HMAC key length is taken for that of the hash. *)
Definition silc_ske_process_key_material_data (data : list Z)
    (data_len req_iv_len req_enc_key_len req_hmac_key_len : Z) (hash : SilcHash)
    : option SilcSKEKeyMaterial :=
  let hash_len := req_hmac_key_len in
  let n := req_enc_key_len / 8 in
  if (req_iv_len =? 0) || (req_enc_key_len =? 0) || (req_hmac_key_len =? 0) then None
  else
    match silc_buffer_alloc_size (u32 (1 + data_len)) with
    | None => None
    | Some buf =>
        let buf := (silc_buffer_format buf [PARAM_UI8_CHAR 0;
                                            PARAM_NSTRING (Some data) data_len]).1 in
        let send_iv := calloc_copy req_iv_len (hash_into hash (poke0 buf 0)) in
        let receive_iv := calloc_copy req_iv_len (hash_into hash (poke0 buf 1)) in
        match take_enc_key hash (poke0 buf 2) data data_len hash_len n,
              take_enc_key hash (poke0 buf 3) data data_len hash_len n with
        | Some send_enc_key, Some receive_enc_key =>
            let send_hmac_key := calloc_copy req_hmac_key_len (hash_into hash (poke0 buf 4)) in
            let receive_hmac_key :=
              calloc_copy req_hmac_key_len (hash_into hash (poke0 buf 5)) in
            Some (mkKeymat send_iv receive_iv req_iv_len send_enc_key receive_enc_key
                    req_enc_key_len send_hmac_key receive_hmac_key req_hmac_key_len)
        | _, _ => None
        end
    end.

(** [SilcSKERekeyMaterial]. *)
Record SilcSKERekeyMaterial := mkRekey {
  rk_ske_group : Z;
  rk_pfs : bool;
  rk_hash : option (list Z);
  rk_send_enc_key : option (list Z);
  rk_enc_key_len : Z
}.

(** [prop] is [ske->prop], NULL when keys are made again without it. *)
Definition silc_ske_make_rekey_material (prop : option SilcSKESecurityProperties)
    (keymat : SilcSKEKeyMaterial) : option SilcSKERekeyMaterial :=
  let '(group, pfs, hash, ok) :=
    match prop with
    | None => (0, false, None, true)
    | Some prop =>
        let name := silc_hash_get_name (pr_hash prop) in
        let hash := silc_memdup name (CTypes.strlen name) in
        (silc_ske_group_get_number (pr_group prop),
         has_flag (pr_flags prop) SILC_SKE_SP_FLAG_PFS, hash, bool_decide (is_Some hash))
    end in
  if negb ok then None
  else if pfs then Some (mkRekey group pfs hash None 0)
  else match silc_memdup (send_enc_key keymat) (enc_key_len keymat / 8) with
       | None => None
       | Some k => Some (mkRekey group pfs hash (Some k) (enc_key_len keymat))
       end.

(** [ske_hash] is [ske->hash] with [ske->hash_len] bytes.  When [rekey] asks for
    it the rekey material is made too; without key material that uses a NULL
    pointer, which the model gives as NULL. *)
Definition silc_ske_process_key_material (prop : SilcSKESecurityProperties) (KEY : Z)
    (ske_hash : list Z) (req_iv_len req_enc_key_len req_hmac_key_len : Z) (rekey : bool)
    : option (SilcSKEKeyMaterial * option SilcSKERekeyMaterial) :=
  match silc_mp_mp2bin KEY 0 with
  | None => None
  | Some (tmpbuf, klen) =>
      match silc_buffer_alloc_size (u32 (klen + zlen ske_hash)) with
      | None => None
      | Some buf =>
          let buf := (silc_buffer_format buf [PARAM_NSTRING (Some tmpbuf) klen;
                        PARAM_NSTRING (Some ske_hash) (zlen ske_hash)]).1 in
          match silc_ske_process_key_material_data (silc_buffer_data buf)
                  (silc_buffer_len buf) req_iv_len req_enc_key_len req_hmac_key_len
                  (pr_hash prop) with
          | None => None
          | Some key =>
              if rekey then
                match silc_ske_make_rekey_material (Some prop) key with
                | None => None
                | Some rk => Some (key, Some rk)
                end
              else Some (key, None)
          end
      end
  end.

(** ** Taking keys into use *)

(** What [silc_ske_set_keys] gives back, NULL for what was not asked for. *)
Record ske_keys := mkKeys {
  ret_send_key : option SilcCipher;
  ret_receive_key : option SilcCipher;
  ret_hmac_send : option SilcHmac;
  ret_hmac_receive : option SilcHmac;
  ret_hash : option SilcHash
}.

(** The IV of a cipher from [key_iv]; [iv] is the array of the function, which
    the two ciphers share. *)
Definition set_cipher_iv (rekeying iv_included : bool) (ske_hash : list Z) (hash : SilcHash)
    (key_iv iv : list Z) (cipher : SilcCipher) : SilcCipher * list Z :=
  if silc_cipher_get_mode cipher =? SILC_CIPHER_MODE_CTR then
    let iv :=
      if negb rekeying then
        let iv := splice 0 (ztake 4 ske_hash) iv in
        if negb iv_included then splice 4 (ztake 8 key_iv) iv else iv
      else
        let iv := splice 0 (digest_of hash (ztake 8 key_iv)) iv in
        if negb iv_included then splice 4 (ztake 8 key_iv) iv else splice 4 (zeros 12) iv in
    (silc_cipher_set_iv cipher iv, iv)
  else (silc_cipher_set_iv cipher key_iv, iv).

(** The keys of one direction. *)
Definition set_cipher (rekeying iv_included : bool) (ske_hash : list Z) (hash : SilcHash)
    (key : list Z) (keylen : Z) (encryption : bool) (key_iv iv : list Z)
    (cipher : option SilcCipher) : option SilcCipher * list Z :=
  match cipher with
  | None => (None, iv)
  | Some c =>
      let c := silc_cipher_set_key c key keylen encryption in
      let '(c, iv) := set_cipher_iv rekeying iv_included ske_hash hash key_iv iv c in
      (Some c, iv)
  end.

Definition set_hmac_key (key : list Z) (n : Z) (hmac : SilcHmac) : SilcHmac :=
  mkHmacStruct (sm_object hmac) (sm_hash hmac) (silc_hmac_set_key (sm_state hmac) key n).

(** [if (ret_x) { if (!alloc(ret_x)) return FALSE; }]: the outer [None] is the
    failure, and [want] says whether the caller passes a pointer. *)
Definition wanted {A} (want : bool) (alloc : option A) : option (option A) :=
  if want then match alloc with Some a => Some (Some a) | None => None end else Some None.

(** Which results the caller asks for: the two ciphers, the two HMACs and the
    hash function. *)
Record wants := mkWants {
  want_send : bool; want_receive : bool; want_hmac_send : bool; want_hmac_receive : bool;
  want_hash : bool
}.

Definition silc_ske_set_keys (al : algorithms) (responder rekeying : bool)
    (ske_hash : list Z) (keymat : SilcSKEKeyMaterial) (prop : SilcSKESecurityProperties)
    (w : wants) : option ske_keys :=
  let iv_included := has_flag (pr_flags prop) SILC_SKE_SP_FLAG_IV_INCLUDED in
  let cname := silc_cipher_get_name (pr_cipher prop) in
  let mname := silc_hmac_get_name (pr_hmac prop) in
  match wanted (want_send w) (silc_cipher_alloc (al_ciphers al) cname),
        wanted (want_receive w) (silc_cipher_alloc (al_ciphers al) cname),
        wanted (want_hmac_send w) (silc_hmac_alloc (al_hashes al) (al_hmacs al) mname None),
        wanted (want_hmac_receive w) (silc_hmac_alloc (al_hashes al) (al_hmacs al) mname None),
        wanted (want_hash w)
          (silc_hash_alloc (al_hashes al) (silc_hash_get_name (pr_hash prop))) with
  | Some send, Some receive, Some hmac_send, Some hmac_receive, Some hash =>
      let iv := zeros SILC_HASH_MAXLEN in
      let set := set_cipher rekeying iv_included ske_hash (pr_hash prop) in
      let kl := enc_key_len keymat in
      let ml := hmac_key_len keymat in
      if responder then
        let '(send, iv) :=
          set (receive_enc_key keymat) kl true (receive_iv keymat) iv send in
        let '(receive, iv) :=
          set (send_enc_key keymat) kl false (send_iv keymat) iv receive in
        Some (mkKeys send receive (set_hmac_key (receive_hmac_key keymat) ml <$> hmac_send)
                (set_hmac_key (send_hmac_key keymat) ml <$> hmac_receive) hash)
      else
        let '(send, iv) := set (send_enc_key keymat) kl true (send_iv keymat) iv send in
        let '(receive, iv) :=
          set (receive_enc_key keymat) kl false (receive_iv keymat) iv receive in
        Some (mkKeys send receive (set_hmac_key (send_hmac_key keymat) ml <$> hmac_send)
                (set_hmac_key (receive_hmac_key keymat) ml <$> hmac_receive) hash)
  | _, _, _, _, _ => None
  end.

(** ** What the derivation is *)

(** The hash function of the object keeps the laws of its class. *)
Class lawful (hash : SilcHash) := lawful_laws :: HashLaws (ho_context (h_object hash)).

Section Derivation.
Context (hash : SilcHash) `{!lawful hash}.
Abbreviation h := (digest_of hash).
Abbreviation hl := (digest_len_of hash).

Lemma digest_range : 0 < hl <= 64.
Proof. unfold digest_len_of, silc_hash_len. pose proof (hash_lens (H := ho_context (h_object hash))). lia. Qed.

Lemma digest_of_len x : hashable x -> zlen (h x) = hl.
Proof.
  intros Hx. unfold digest_of, silc_hash_make, silc_hash_init, silc_hash_update, silc_hash_final.
  rewrite ztake_ge by done.
  pose proof (hash_spec (h_context hash) [x] ltac:(by repeat constructor)) as E.
  cbn [foldl concat] in E. rewrite E. apply digest_len.
Qed.

(** An encryption key of [n] bytes from the derivation's data [x] and its round
    byte. *)
Definition key_bytes (i : Z) (x : list Z) (n : Z) : list Z :=
  if n <=? hl then ztake n (h (i :: x))
  else
    let k1 := h (i :: x) in
    let k2 := h (x ++ k1) in
    let k3 := h (x ++ k1 ++ k2) in
    ztake n (k1 ++ k2 ++ k3).

(** What the specification derives; [n] is the length of the encryption key in
    bytes. *)
Definition keymat_spec (x : list Z) (ivl n : Z) : SilcSKEKeyMaterial :=
  mkKeymat (ztake ivl (h (0 :: x) ++ zeros 64)) (ztake ivl (h (1 :: x) ++ zeros 64)) ivl
    (key_bytes 2 x (n / 8)) (key_bytes 3 x (n / 8)) n (h (4 :: x)) (h (5 :: x)) hl.

Lemma ztake_take_app n k (a b c : list Z) :
  zlen a = k -> n <= k -> ztake n (a ++ b) = ztake n (a ++ c).
Proof. intros <- H. by rewrite !ztake_app_l. Qed.

Lemma hash_into_whole x :
  hashable x -> hash_into hash (whole x) = h x ++ zeros (64 - hl).
Proof.
  intros Hx. pose proof digest_range. pose proof (digest_of_len x Hx) as E.
  unfold hash_into, SILC_HASH_MAXLEN. unfold hashable in Hx. zlen_facts.
  rewrite whole_data, whole_len, (ztake_ge _ x) by lia. unfold splice.
  rewrite ztake_0 by lia. cbn [app]. f_equal. rewrite E.
  replace 64 with (hl + (64 - hl)) at 1 by lia. rewrite zeros_app by lia.
  rewrite zdrop_app_exact by (rewrite zlen_zeros; lia). done.
Qed.

Lemma calloc_copy_ok n src :
  0 <= n <= zlen src -> n < SILC_MAX_ALLOC -> calloc_copy n src = ztake n src.
Proof.
  intros H Hn. unfold calloc_copy. destruct (Z.eqb_spec n 0) as [->|E].
  - by rewrite ztake_0.
  - rewrite silc_calloc_ok, Z.mul_1_l by lia. apply splice_all.
    rewrite zlen_take, zlen_zeros; lia.
Qed.

Lemma whole_hash_take x n :
  hashable x -> 0 <= n <= hl -> ztake n (hash_into hash (whole x)) = ztake n (h x).
Proof.
  intros Hx Hn. rewrite hash_into_whole by done. apply ztake_app_l. rewrite digest_of_len; [lia|done].
Qed.

Lemma format_two n (x y : list Z) xl yl :
  0 <= xl <= zlen x -> 0 <= yl <= zlen y -> n = xl + yl -> n < SILC_MAX_ALLOC ->
  (silc_buffer_format (whole (zeros n)) [PARAM_NSTRING (Some x) xl; PARAM_NSTRING (Some y) yl]).1
  = whole (ztake xl x ++ ztake yl y).
Proof.
  intros Hx Hy -> Hs. rewrite format_whole.
  - unfold enc_args. cbn [fmap list_fmap enc_arg concat fst]. by rewrite app_nil_r.
  - repeat (apply list.Forall_cons; split; [done|]). done.
  - unfold enc_args. cbn [fmap list_fmap enc_arg concat].
    rewrite app_nil_r, zlen_app, !zlen_take by lia. done.
  - done.
Qed.

Lemma hashable_small x : zlen x < 4294967232 -> hashable x.
Proof. unfold hashable. lia. Qed.

(** The data may go on after what is used of it. *)
Lemma prefix_len (x data : list Z) : ztake (zlen x) data = x -> zlen x <= zlen data.
Proof.
  intros E. rewrite <- E at 1. unfold ztake, zlen. rewrite length_take. lia.
Qed.

(** The key, over data that is small enough. *)
Lemma take_enc_key_ok i x data n :
  ztake (zlen x) data = x -> zlen x < 1000000000 -> 0 <= n <= 3 * hl ->
  take_enc_key hash (whole (i :: x)) data (zlen x) hl n = Some (key_bytes i x n).
Proof.
  intros Hdx Hx Hn. pose proof digest_range. pose proof (prefix_len _ _ Hdx) as Hp. zlen_facts.
  assert (Hh1 : hashable (i :: x)) by (apply hashable_small; rewrite zlen_cons; lia).
  unfold take_enc_key, key_bytes. destruct (Z.ltb_spec hl n) as [L|L].
  2:{ rewrite (proj2 (Z.leb_le _ _)) by lia. rewrite calloc_copy_ok.
      - by rewrite whole_hash_take by (done || lia).
      - rewrite hash_into_whole, zlen_app, digest_of_len, zlen_zeros by (done || lia). lia.
      - unfold SILC_MAX_ALLOC. lia. }
  rewrite (proj2 (Z.leb_gt _ _)) by lia. rewrite (proj2 (Z.ltb_ge _ _)) by lia.
  pose proof (digest_of_len _ Hh1) as E1. set (k1 := h (i :: x)) in *.
  assert (Hh2 : hashable (x ++ k1)) by (apply hashable_small; rewrite zlen_app; lia).
  pose proof (digest_of_len _ Hh2) as E2. set (k2 := h (x ++ k1)) in *.
  assert (Hh3 : hashable (x ++ k1 ++ k2)) by (apply hashable_small; rewrite !zlen_app; lia).
  pose proof (digest_of_len _ Hh3) as E3. set (k3 := h (x ++ k1 ++ k2)) in *.
  rewrite !u32_id by lia. rewrite alloc_size_areas by (unfold SILC_MAX_ALLOC; lia).
  fold (whole (zeros (zlen x + hl))). rewrite hash_into_whole by done. fold k1.
  rewrite (format_two (zlen x + hl)) by (rewrite ?zlen_app, ?E1; unfold SILC_MAX_ALLOC; zlen_facts; lia).
  rewrite Hdx, (ztake_app_exact hl k1) by lia.
  rewrite hash_into_whole by done. fold k2. unfold whole at 1.
  rewrite realloc_areas by (rewrite ?zlen_app, ?zlen_nil; unfold SILC_MAX_ALLOC; lia).
  rewrite zlen_app, zlen_nil. cbn [app].
  replace (zlen x + hl + hl - (0 + (zlen x + zlen k1) + 0)) with hl by lia.
  rewrite <- (app_nil_r (zeros hl)).
  assert (Ez : zlen (zeros hl) = hl) by (rewrite zlen_zeros; lia).
  pose proof (pull_tail_areas [] (x ++ k1) (zeros hl) []
    ltac:(rewrite !zlen_app, !zlen_nil, Ez; lia)) as Ept.
  rewrite Ez in Ept. rewrite Ept. cbn [fst]. clear Ept.
  replace (zlen x + hl) with (zlen (x ++ k1)) by (rewrite zlen_app; lia).
  rewrite pull_areas by (rewrite ?zlen_nil, ?zlen_app, ?zlen_zeros; lia). cbn [fst app].
  rewrite format_areas; cycle 1.
  { repeat constructor; cbn; rewrite ?zlen_app, ?E2, ?zlen_zeros; lia. }
  { unfold enc_args. cbn [fmap list_fmap enc_arg concat].
    rewrite app_nil_r, (ztake_app_exact hl k2) by lia. unfold fits, SILC_MAX_ALLOC.
    rewrite zlen_app, zlen_zeros, zlen_nil; lia. }
  unfold enc_args. cbn [fmap list_fmap enc_arg concat fst].
  rewrite !app_nil_r, (ztake_app_exact hl k2) by lia.
  rewrite (zdrop_ge _ (zeros hl)), (zdrop_ge _ []), app_nil_r
    by (rewrite ?zlen_zeros, ?zlen_nil; lia).
  rewrite <- (app_nil_l (x ++ k1)). rewrite push_areas by (rewrite ?zlen_nil, ?zlen_app; lia).
  cbn [fst app]. rewrite <- app_assoc. fold (whole (x ++ k1 ++ k2)).
  rewrite hash_into_whole by done. fold k3.
  rewrite !ztake_app_exact by lia. f_equal. apply calloc_copy_ok.
  - rewrite !zlen_app. lia.
  - unfold SILC_MAX_ALLOC. lia.
Qed.

Lemma poke0_whole i j x : poke0 (whole (j :: x)) i = whole (i :: x).
Proof.
  unfold poke0, whole, of_areas, set_mem. cbn [b_data b_mem b_tail app].
  rewrite !app_nil_r. rewrite zlen_nil. unfold splice. rewrite ztake_0 by lia. cbn [app].
  change (zdrop (0 + zlen [i]) (j :: x)) with x. by rewrite !zlen_cons.
Qed.

(** The key material is the one specified. *)
Lemma key_material_data_ok x data ivl n :
  ztake (zlen x) data = x -> zlen x < 1000000000 -> 0 < ivl <= 64 -> 0 < n -> n / 8 <= 3 * hl ->
  silc_ske_process_key_material_data data (zlen x) ivl n hl hash = Some (keymat_spec x ivl n).
Proof.
  intros Hdx Hx Hi Hn H3. pose proof digest_range. pose proof (prefix_len _ _ Hdx) as Hp. zlen_facts.
  assert (Hh : forall i, hashable (i :: x))
    by (intros i; apply hashable_small; rewrite zlen_cons; lia).
  assert (Hd : 0 <= n / 8) by (apply Z.div_pos; lia).
  unfold silc_ske_process_key_material_data.
  rewrite !(proj2 (Z.eqb_neq _ 0)) by lia. cbn [orb].
  rewrite u32_id, alloc_size_areas by (unfold SILC_MAX_ALLOC; lia).
  fold (whole (zeros (1 + zlen x))). rewrite format_whole; cycle 1.
  { repeat (apply list.Forall_cons; split; [done || (cbn; lia)|]). done. }
  { unfold enc_args. cbn [fmap list_fmap enc_arg concat].
    rewrite app_nil_r, Hdx. cbn [app]. apply zlen_cons. }
  { unfold SILC_MAX_ALLOC. lia. }
  unfold enc_args. cbn [fmap list_fmap enc_arg concat fst app].
  rewrite app_nil_r, Hdx. change (u8 0) with 0. rewrite !poke0_whole.
  rewrite !take_enc_key_ok by (done || lia). unfold keymat_spec.
  assert (C : forall i k, 0 <= k <= 64 ->
    calloc_copy k (hash_into hash (whole (i :: x))) = ztake k (h (i :: x) ++ zeros 64)).
  { intros i k Hk. rewrite hash_into_whole by done.
    rewrite calloc_copy_ok; [|rewrite zlen_app, digest_of_len, zlen_zeros by (done || lia); lia
                            |unfold SILC_MAX_ALLOC; lia].
    replace 64 with ((64 - hl) + hl) at 2 by lia. rewrite zeros_app, app_assoc by lia.
    rewrite (ztake_app_l k (_ ++ _));
      [done|rewrite zlen_app, digest_of_len, zlen_zeros by (done || lia); lia]. }
  rewrite !C by lia.
  rewrite !(ztake_app_l hl (h _)), !(ztake_ge hl) by (rewrite digest_of_len by done; lia). done.
Qed.
End Derivation.

(** ** What is hashed *)

(** HASH is over the initiator's Start Payload, the responder's and the
    initiator's public keys, the two Diffie-Hellman values and the shared
    secret; HASH_i over the first of each. *)
Definition hash_input (initiator : bool) (start pk1 pk2 : list Z) (e f K : Z) : list Z :=
  if initiator then start ++ pk1 ++ mp_bytes e
  else start ++ pk2 ++ pk1 ++ mp_bytes e ++ mp_bytes f ++ mp_bytes K.

Lemma make_hash_ok hash start ke1 ke2 K initiator pk1 pk2 :
  data_of pk1 (pk_len ke1) (pk_data ke1) -> data_of pk2 (pk_len ke2) (pk_data ke2) ->
  zlen start < 65536 -> zlen pk1 < 65536 -> zlen pk2 < 65536 ->
  mp_size (ke_x ke1) < 65536 -> mp_size (ke_x ke2) < 65536 -> mp_size K < 65536 ->
  silc_ske_make_hash hash (Some (whole start)) ke1 ke2 K initiator =
  SkeOk (digest_of hash (hash_input initiator start pk1 pk2 (ke_x ke1) (ke_x ke2) K)).
Proof.
  intros D1 D2 Hs H1 H2 He Hf HK. unfold silc_ske_make_hash. cbn [fmap option_fmap option_map].
  pose proof (mp_size_pos (ke_x ke1)). pose proof (mp_size_pos (ke_x ke2)).
  pose proof (mp_size_pos K). zlen_facts. rewrite whole_data, whole_len by lia.
  rewrite !mp2bin_auto by (unfold SILC_MAX_ALLOC; lia).
  rewrite (proj1 D1), (proj1 D2), !u32_id by lia.
  pose proof (mp_bytes_len (ke_x ke1)) as Le. pose proof (mp_bytes_len (ke_x ke2)) as Lf.
  pose proof (mp_bytes_len K) as LK.
  rewrite (proj1 D1) in D1. rewrite (proj1 D2) in D2.
  assert (Ds : data_arg (PARAM_NSTRING (Some start) (zlen start))) by (cbn; lia).
  pose proof (data_arg_of _ _ _ D1). pose proof (data_arg_of _ _ _ D2).
  assert (F : forall n args bytes, Forall data_arg args -> enc_args args = bytes ->
     zlen bytes = n -> n < SILC_MAX_ALLOC ->
     silc_buffer_format (whole (zeros n)) args = (whole bytes, n)).
  { intros n args bytes Ha Eb El Hn. subst. rewrite format_whole by done. done. }
  assert (Dm : forall v, data_arg (PARAM_NSTRING (Some (mp_bytes v)) (mp_size v)))
    by (intros v; cbn; rewrite mp_bytes_len; pose proof (mp_size_pos v); lia).
  set (x := hash_input _ _ _ _ _ _ _).
  assert (X : forall n args, Forall data_arg args -> enc_args args = x ->
     zlen x = n -> n < SILC_MAX_ALLOC ->
     (let '(buf, ret) := silc_buffer_format (whole (zeros n)) args in
      if ret =? -1 then SkeErr SILC_SKE_STATUS_ERROR
      else SkeOk (digest_of hash (ztake (silc_buffer_len buf) (silc_buffer_data buf)))) =
     SkeOk (digest_of hash x)).
  { intros n args Ha Eb En Hn. zlen_facts. rewrite (F n args x) by done.
    rewrite (proj2 (Z.eqb_neq _ _)) by lia. unfold SILC_MAX_ALLOC in Hn.
    by rewrite whole_len, whole_data, ztake_ge by lia. }
  destruct initiator.
  - rewrite alloc_size_areas by (unfold SILC_MAX_ALLOC; lia).
    fold (whole (zeros (zlen start + zlen pk1 + mp_size (ke_x ke1)))). apply X.
    + repeat (apply list.Forall_cons; split; [done|]). done.
    + unfold enc_args. cbn [fmap list_fmap concat]. rewrite (enc_arg_of _ _ _ D1).
      cbn [enc_arg]. by rewrite !ztake_ge, app_nil_r by lia.
    + unfold x, hash_input. rewrite !zlen_app. lia.
    + unfold SILC_MAX_ALLOC. lia.
  - rewrite alloc_size_areas by (unfold SILC_MAX_ALLOC; lia).
    match goal with |- context [of_areas [] (zeros ?n) []] => fold (whole (zeros n)) end.
    assert (zlen x = zlen start + zlen pk2 + zlen pk1 + mp_size (ke_x ke1) +
                     mp_size (ke_x ke2) + mp_size K)
      by (unfold x, hash_input; rewrite !zlen_app; lia).
    destruct (bool_decide (pk_data ke1 = None)) eqn:En.
    + apply bool_decide_eq_true_1 in En. destruct D1 as [_ [[t E]|[_ E]]]; [congruence|].
      apply X; [repeat (apply list.Forall_cons; split; [done|]); done| |lia
               |unfold SILC_MAX_ALLOC; lia].
      unfold enc_args. cbn [fmap list_fmap concat]. rewrite (enc_arg_of _ _ _ D2).
      cbn [enc_arg]. rewrite !ztake_ge, app_nil_r by lia. unfold x, hash_input. by rewrite E.
    + apply X; [repeat (apply list.Forall_cons; split; [done|]); done| |lia
               |unfold SILC_MAX_ALLOC; lia].
      unfold enc_args. cbn [fmap list_fmap concat].
      rewrite (enc_arg_of _ _ _ D1), (enc_arg_of _ _ _ D2).
      cbn [enc_arg]. by rewrite !ztake_ge, app_nil_r by lia.
Qed.

(** The key material of the exchange, and that for a later rekey. *)
Lemma key_material_ok (prop : SilcSKESecurityProperties) `{!lawful (pr_hash prop)}
    (KEY : Z) (ske_hash : list Z) (ivl n : Z) (rekey : bool) :
  mp_size KEY < 1000000 -> zlen ske_hash < 1000000 -> 0 < ivl <= 64 -> 0 < n ->
  n / 8 <= 3 * digest_len_of (pr_hash prop) ->
  let km := keymat_spec (pr_hash prop) (mp_bytes KEY ++ ske_hash) ivl n in
  silc_ske_process_key_material prop KEY ske_hash ivl n (digest_len_of (pr_hash prop)) rekey =
  if rekey then
    match silc_ske_make_rekey_material (Some prop) km with
    | None => None
    | Some rk => Some (km, Some rk)
    end
  else Some (km, None).
Proof.
  intros HK Hs Hi Hn H3. cbn zeta. pose proof (mp_size_pos KEY). pose proof (mp_bytes_len KEY).
  pose proof (digest_range (pr_hash prop)). zlen_facts.
  unfold silc_ske_process_key_material.
  rewrite mp2bin_auto by (unfold SILC_MAX_ALLOC; lia).
  rewrite u32_id, alloc_size_areas by (unfold SILC_MAX_ALLOC; lia).
  fold (whole (zeros (mp_size KEY + zlen ske_hash))).
  rewrite (format_two (mp_size KEY + zlen ske_hash)) by (unfold SILC_MAX_ALLOC; lia).
  rewrite !ztake_ge by lia. set (x := mp_bytes KEY ++ ske_hash).
  assert (Lx : zlen x < 2000000) by (unfold x; rewrite zlen_app; lia).
  rewrite whole_data, whole_len by lia. by rewrite key_material_data_ok by (done || lia || by apply ztake_ge).
Qed.

Lemma key_bytes_len hash `{!lawful hash} i x n :
  zlen x < 2000000 -> 0 <= n <= 3 * digest_len_of hash -> zlen (key_bytes hash i x n) = n.
Proof.
  intros Lx H. pose proof (digest_range hash).
  assert (D : zlen (digest_of hash (i :: x)) = digest_len_of hash)
    by (apply (digest_of_len _), hashable_small; rewrite zlen_cons; lia).
  unfold key_bytes. case_match eqn:E; [apply zlen_take; rewrite D; lia|].
  apply zlen_take. rewrite !zlen_app, D. set (k1 := digest_of hash (i :: x)) in *.
  assert (K2 : zlen (digest_of hash (x ++ k1)) = digest_len_of hash).
  { apply (digest_of_len _), hashable_small. rewrite zlen_app, D. lia. }
  set (k2 := digest_of hash (x ++ k1)) in *. rewrite K2.
  rewrite (digest_of_len _) by (apply hashable_small; rewrite !zlen_app, K2, D; lia). lia.
Qed.

Lemma rekey_material_ok (prop : SilcSKESecurityProperties) `{!lawful (pr_hash prop)} x ivl n :
  zlen x < 2000000 -> 0 < n -> n / 8 <= 3 * digest_len_of (pr_hash prop) ->
  CTypes.strlen (silc_hash_get_name (pr_hash prop)) < 8192 ->
  is_Some (silc_ske_make_rekey_material (Some prop) (keymat_spec (pr_hash prop) x ivl n)).
Proof.
  intros Hx Hn H3 Hs. pose proof (digest_range (pr_hash prop)).
  assert (0 <= n / 8) by (apply Z.div_pos; lia).
  unfold silc_ske_make_rekey_material, CTypes.strlen in *.
  pose proof (StrUtil.c_string_len (silc_hash_get_name (pr_hash prop))). zlen_facts.
  rewrite silc_memdup_ok by (unfold SILC_MAX_ALLOC; lia).
  rewrite bool_decide_eq_true_2 by done. cbn [negb]. case_match; [done|].
  unfold keymat_spec. cbn [send_enc_key enc_key_len].
  rewrite silc_memdup_ok; [done|rewrite key_bytes_len by (done || lia); lia
                          |unfold SILC_MAX_ALLOC; lia].
Qed.

(** ** The two sides' ciphers *)

(** The first 16 bytes of the IV array in counter mode: the truncated hash, then
    the key material's IV and a zero counter, or only zeros when the IV comes
    with each packet.  In a rekey the hash is that of the IV, and its bytes are
    where the counter starts. *)
Definition ctr_iv (rekeying iv_included : bool) (ske_hash d key_iv : list Z) : list Z :=
  if rekeying then
    if iv_included then ztake 4 d ++ zeros 12
    else ztake 4 d ++ ztake 8 key_iv ++ ztake 4 (zdrop 12 d)
  else
    if iv_included then ztake 4 ske_hash ++ zeros 12
    else ztake 4 ske_hash ++ ztake 8 key_iv ++ zeros 4.

(** The array between the two ciphers. *)
Definition iv_good (rekeying iv_included : bool) (iv : list Z) : Prop :=
  if rekeying then zlen iv = 64
  else if iv_included then exists a, iv = a ++ zeros 60 /\ zlen a = 4
  else exists a, iv = a ++ zeros 52 /\ zlen a = 12.

Lemma splice0 (a iv : list Z) : splice 0 a iv = a ++ zdrop (zlen a) iv.
Proof. unfold splice. rewrite ztake_0 by lia. done. Qed.

Lemma splice_app (n : Z) (a b iv : list Z) :
  zlen a = n -> splice n b (a ++ iv) = a ++ b ++ zdrop (zlen b) iv.
Proof.
  intros <-. unfold splice. rewrite ztake_app_exact by done. zlen_facts.
  rewrite zdrop_app_r by lia. do 3 f_equal. lia.
Qed.

Lemma zeros_good rekeying iv_included : iv_good rekeying iv_included (zeros SILC_HASH_MAXLEN).
Proof.
  unfold iv_good, SILC_HASH_MAXLEN. destruct rekeying; [done|].
  destruct iv_included; [by exists (zeros 4)|by exists (zeros 12)].
Qed.

Lemma set_cipher_iv_ctr rekeying iv_included ske_hash hash key_iv iv c :
  silc_cipher_get_mode c = SILC_CIPHER_MODE_CTR -> iv_good rekeying iv_included iv ->
  (rekeying = false -> 4 <= zlen ske_hash) -> 8 <= zlen key_iv -> 16 <= zlen (digest_of hash (ztake 8 key_iv)) <= 64 ->
  let r := set_cipher_iv rekeying iv_included ske_hash hash key_iv iv c in
  r.1 = silc_cipher_set_iv c r.2 /\
  ztake 16 r.2 = ctr_iv rekeying iv_included ske_hash (digest_of hash (ztake 8 key_iv)) key_iv /\
  iv_good rekeying iv_included r.2.
Proof.
  intros Hm Hg Hh Hk Hd. unfold set_cipher_iv. rewrite Hm, Z.eqb_refl. cbn zeta. cbn [fst snd].
  split; [done|]. set (d := digest_of hash (ztake 8 key_iv)) in *.
  assert (T8 : zlen (ztake 8 key_iv) = 8) by (apply zlen_take; lia).
  unfold iv_good, ctr_iv in *. rewrite !splice0. destruct rekeying; cbn [negb].
  - assert (Ed : d ++ zdrop (zlen d) iv = ztake 4 d ++ zdrop 4 d ++ zdrop (zlen d) iv)
      by (by rewrite app_assoc, ztake_drop).
    assert (D4 : zlen (ztake 4 d) = 4) by (apply zlen_take; lia).
    assert (Dr : zlen (zdrop 4 d) = zlen d - 4) by (apply zlen_drop; lia).
    assert (Ev : zlen (zdrop (zlen d) iv) = 64 - zlen d) by (rewrite zlen_drop; lia).
    rewrite Ed. destruct iv_included; cbn [negb];
      rewrite splice_app by done; rewrite ?T8; change (zlen (zeros 12)) with 12;
      rewrite zdrop_app_l by lia; rewrite zdrop_zdrop by lia;
      change (4 + 12) with 16; change (4 + 8) with 12.
    + split.
      * rewrite app_assoc. apply ztake_app_exact. rewrite zlen_app, D4. done.
      * rewrite !zlen_app, D4, Ev, zlen_drop by lia. change (zlen (zeros 12)) with 12. lia.
    + split.
      * rewrite app_assoc. rewrite ztake_app_r by (rewrite zlen_app; lia).
        rewrite zlen_app, D4, T8. change (16 - (4 + 8)) with 4.
        rewrite ztake_app_l by (rewrite zlen_drop; lia). by rewrite <- app_assoc.
      * rewrite !zlen_app, D4, T8, Ev, zlen_drop by lia. lia.
  - specialize (Hh eq_refl).
    assert (T4 : zlen (ztake 4 ske_hash) = 4) by (apply zlen_take; lia).
    rewrite T4. destruct iv_included; cbn [negb]; destruct Hg as (a & -> & Ha).
    + rewrite zdrop_app_exact by done. split; [|by exists (ztake 4 ske_hash)].
      rewrite ztake_app_r, T4 by lia. done.
    + rewrite splice_app by done. rewrite T8, zdrop_zdrop by lia. change (4 + 8) with 12.
      rewrite zdrop_app_exact by done. split.
      * rewrite app_assoc, ztake_app_r, zlen_app, T4, T8 by (rewrite zlen_app; lia).
        by rewrite <- app_assoc.
      * exists (ztake 4 ske_hash ++ ztake 8 key_iv). rewrite <- app_assoc, zlen_app, T4, T8. done.
Qed.

Lemma set_cipher_iv_other rekeying iv_included ske_hash hash key_iv iv c :
  silc_cipher_get_mode c <> SILC_CIPHER_MODE_CTR ->
  set_cipher_iv rekeying iv_included ske_hash hash key_iv iv c = (silc_cipher_set_iv c key_iv, iv).
Proof. intros H. unfold set_cipher_iv. by rewrite (proj2 (Z.eqb_neq _ _)). Qed.

(** One side's sending cipher and the other's receiving one. *)
Definition paired (a b : option SilcCipher) : Prop :=
  exists a' b' k n, a = Some a' /\ b = Some b' /\ sc_object a' = sc_object b' /\
    sc_key a' = Some (k, n, true) /\ sc_key b' = Some (k, n, false) /\ sc_iv a' = sc_iv b'.

(** The cipher of a direction, by what it is given. *)
Definition cipher_of (obj : SilcCipherObject) (rekeying iv_included : bool)
    (ske_hash : list Z) (hash : SilcHash) (key : list Z) (kl : Z) (enc : bool)
    (key_iv : list Z) : SilcCipher :=
  mkCipherStruct obj (Some (ztake (kl / 8) key, kl, enc))
    (splice 0 (ztake (co_iv_len obj)
       (if co_mode obj =? SILC_CIPHER_MODE_CTR
        then ctr_iv rekeying iv_included ske_hash (digest_of hash (ztake 8 key_iv)) key_iv
        else key_iv)) (zeros 16)).

Lemma set_cipher_ok rekeying iv_included ske_hash hash key kl enc key_iv iv obj :
  co_iv_len obj <= 16 -> iv_good rekeying iv_included iv ->
  (rekeying = false -> 4 <= zlen ske_hash) -> 8 <= zlen key_iv -> 16 <= zlen (digest_of hash (ztake 8 key_iv)) <= 64 ->
  exists iv',
    set_cipher rekeying iv_included ske_hash hash key kl enc key_iv iv
      (Some (mkCipherStruct obj None (zeros 16))) =
    (Some (cipher_of obj rekeying iv_included ske_hash hash key kl enc key_iv), iv') /\
    iv_good rekeying iv_included iv'.
Proof.
  intros Ho Hg Hh Hk Hd. unfold set_cipher, cipher_of.
  set (c := silc_cipher_set_key _ _ _ _).
  destruct (Z.eqb_spec (co_mode obj) SILC_CIPHER_MODE_CTR) as [E|E].
  - pose proof (set_cipher_iv_ctr rekeying iv_included ske_hash hash key_iv iv c E Hg Hh Hk Hd)
      as (E1 & E2 & E3).
    destruct (set_cipher_iv _ _ _ _ _ _ _) as [c' iv']. cbn [fst snd] in *. subst c'.
    exists iv'. split; [|done]. unfold silc_cipher_set_iv, c, silc_cipher_set_key.
    cbn [sc_object sc_key sc_iv]. rewrite <- E2, ztake_ztake by done. done.
  - rewrite set_cipher_iv_other by done. exists iv. split; [|done]. done.
Qed.

Definition all_wanted : wants := mkWants true true true true true.

(** What the side that is the initiator, or not, sends and receives with. *)
Lemma set_keys_ok al responder rekeying ske_hash km prop obj :
  (rekeying = false -> 4 <= zlen ske_hash) -> 8 <= zlen (send_iv km) -> 8 <= zlen (receive_iv km) ->
  (forall x, zlen x = 8 -> 16 <= zlen (digest_of (pr_hash prop) x) <= 64) ->
  find_name co_name (elements (al_ciphers al)) (silc_cipher_get_name (pr_cipher prop)) = Some obj ->
  co_iv_len obj <= 16 ->
  let inc := has_flag (pr_flags prop) SILC_SKE_SP_FLAG_IV_INCLUDED in
  let mk enc key key_iv :=
    Some (cipher_of obj rekeying inc ske_hash (pr_hash prop) key (enc_key_len km) enc key_iv) in
  match silc_hmac_alloc (al_hashes al) (al_hmacs al) (silc_hmac_get_name (pr_hmac prop)) None,
        silc_hash_alloc (al_hashes al) (silc_hash_get_name (pr_hash prop)) with
  | Some m, Some h =>
      silc_ske_set_keys al responder rekeying ske_hash km prop all_wanted =
      Some (if responder then
              mkKeys (mk true (receive_enc_key km) (receive_iv km))
                (mk false (send_enc_key km) (send_iv km))
                (Some (set_hmac_key (receive_hmac_key km) (hmac_key_len km) m))
                (Some (set_hmac_key (send_hmac_key km) (hmac_key_len km) m)) (Some h)
            else
              mkKeys (mk true (send_enc_key km) (send_iv km))
                (mk false (receive_enc_key km) (receive_iv km))
                (Some (set_hmac_key (send_hmac_key km) (hmac_key_len km) m))
                (Some (set_hmac_key (receive_hmac_key km) (hmac_key_len km) m)) (Some h))
  | _, _ => silc_ske_set_keys al responder rekeying ske_hash km prop all_wanted = None
  end.
Proof.
  intros Hh Hs Hr Hd Hf Ho. cbn zeta.
  unfold silc_ske_set_keys, silc_cipher_alloc. rewrite Hf.
  cbn [all_wanted want_send want_receive want_hmac_send want_hmac_receive want_hash wanted].
  destruct (silc_hmac_alloc _ _ _ _) as [m|]; [|done].
  destruct (silc_hash_alloc _ _) as [h|]; [|done]. cbn [wanted].
  set (inc := has_flag _ _).
  assert (D : forall k, 8 <= zlen k -> 16 <= zlen (digest_of (pr_hash prop) (ztake 8 k)) <= 64)
    by (intros k Hk; apply Hd, zlen_take; lia).
  destruct responder.
  - destruct (set_cipher_ok rekeying inc ske_hash (pr_hash prop) (receive_enc_key km)
      (enc_key_len km) true (receive_iv km) _ obj Ho (zeros_good _ _) Hh Hr (D _ Hr))
      as (iv & -> & Hg).
    destruct (set_cipher_ok rekeying inc ske_hash (pr_hash prop) (send_enc_key km)
      (enc_key_len km) false (send_iv km) iv obj Ho Hg Hh Hs (D _ Hs)) as (iv' & -> & _). done.
  - destruct (set_cipher_ok rekeying inc ske_hash (pr_hash prop) (send_enc_key km)
      (enc_key_len km) true (send_iv km) _ obj Ho (zeros_good _ _) Hh Hs (D _ Hs))
      as (iv & -> & Hg).
    destruct (set_cipher_ok rekeying inc ske_hash (pr_hash prop) (receive_enc_key km)
      (enc_key_len km) false (receive_iv km) iv obj Ho Hg Hh Hr (D _ Hr)) as (iv' & -> & _). done.
Qed.

Lemma find_name_cong {A} (name : A -> list Z) l n m :
  c_string n = c_string m -> find_name name l n = find_name name l m.
Proof.
  intros E. induction l as [|[p e] l IH]; [done|]. cbn. unfold streq. by rewrite E, IH.
Qed.

Lemma hmac_alloc_cong hl l n m :
  c_string n = c_string m -> silc_hmac_alloc hl l n None = silc_hmac_alloc hl l m None.
Proof.
  intros E. unfold silc_hmac_alloc, hmac_hash_name. rewrite E.
  by rewrite (find_name_cong mo_name _ n m E).
Qed.

Lemma hash_alloc_cong l n m :
  c_string n = c_string m -> silc_hash_alloc l n = silc_hash_alloc l m.
Proof. intros E. unfold silc_hash_alloc. by rewrite (find_name_cong ho_name _ n m E). Qed.

Lemma cipher_of_cong obj rekeying inc ske_hash hash hash' key kl enc key_iv :
  (forall x, digest_of hash x = digest_of hash' x) ->
  cipher_of obj rekeying inc ske_hash hash key kl enc key_iv =
  cipher_of obj rekeying inc ske_hash hash' key kl enc key_iv.
Proof. intros E. unfold cipher_of. by rewrite E. Qed.

Lemma cipher_of_paired obj rekeying inc ske_hash hash key kl key_iv :
  paired (Some (cipher_of obj rekeying inc ske_hash hash key kl true key_iv))
         (Some (cipher_of obj rekeying inc ske_hash hash key kl false key_iv)).
Proof. eexists _, _, _, _. do 5 (split; [reflexivity|]). reflexivity. Qed.

(** ** Properties *)

(** C7: the key material: from the shared secret and the hash, the IVs, the
    encryption keys and the HMAC keys are the digests of the round bytes 0 to 5
    before them, a longer encryption key being extended by digests over what
    came before, as far as three of them reach; every key has the length asked
    for. *)
Theorem key_material_spec (prop : SilcSKESecurityProperties) `{!lawful (pr_hash prop)}
    (KEY : Z) (ske_hash : list Z) (ivl n : Z) :
  mp_size KEY < 1000000 -> zlen ske_hash < 1000000 -> 0 < ivl <= 64 -> 0 < n ->
  n / 8 <= 3 * digest_len_of (pr_hash prop) ->
  let km := keymat_spec (pr_hash prop) (mp_bytes KEY ++ ske_hash) ivl n in
  silc_ske_process_key_material prop KEY ske_hash ivl n (digest_len_of (pr_hash prop)) false =
    Some (km, None) /\
  zlen (send_iv km) = ivl /\ zlen (receive_iv km) = ivl /\
  zlen (send_enc_key km) = n / 8 /\ zlen (receive_enc_key km) = n / 8 /\
  zlen (send_hmac_key km) = digest_len_of (pr_hash prop) /\
  zlen (receive_hmac_key km) = digest_len_of (pr_hash prop).
Proof.
  intros HK Hs Hi Hn H3. cbn zeta. pose proof (mp_size_pos KEY). pose proof (mp_bytes_len KEY).
  pose proof (digest_range (pr_hash prop)). set (x := mp_bytes KEY ++ ske_hash). zlen_facts.
  assert (Lx : zlen x < 2000000) by (unfold x; rewrite zlen_app; lia).
  split.
  - by apply (key_material_ok prop KEY ske_hash ivl n false).
  - assert (Hd : 0 <= n / 8) by (apply Z.div_pos; lia).
    assert (D : forall i, zlen (digest_of (pr_hash prop) (i :: x)) = digest_len_of (pr_hash prop)).
    { intros i. apply (digest_of_len _), hashable_small. rewrite zlen_cons. lia. }
    assert (K : forall i, zlen (key_bytes (pr_hash prop) i x (n / 8)) = n / 8)
      by (intros i; by apply key_bytes_len).
    unfold keymat_spec. cbn [send_iv receive_iv send_enc_key receive_enc_key send_hmac_key
      receive_hmac_key]. rewrite !D, !K.
    rewrite !zlen_take by (rewrite zlen_app, D; change (zlen (zeros 64)) with 64; lia). done.
Qed.

(** C6: the two sides' keys fit: with the same key material, hash and negotiated
    algorithms, what the initiator encrypts and authenticates with is what the
    responder decrypts and verifies with, in both directions, key, IV and HMAC
    key, both in the first exchange and in a rekey; and one side fails only if
    the other does. *)
Theorem keys_cross (al : algorithms) (rekeying : bool) (ske_hash : list Z)
    (km : SilcSKEKeyMaterial) (p q : SilcSKESecurityProperties) (obj : SilcCipherObject) :
  same_prop p q -> (forall x, digest_of (pr_hash p) x = digest_of (pr_hash q) x) ->
  (forall x, zlen x = 8 -> 16 <= zlen (digest_of (pr_hash p) x) <= 64) ->
  4 <= zlen ske_hash -> 8 <= zlen (send_iv km) -> 8 <= zlen (receive_iv km) ->
  find_name co_name (elements (al_ciphers al)) (silc_cipher_get_name (pr_cipher p)) = Some obj ->
  co_iv_len obj <= 16 ->
  match silc_ske_set_keys al false rekeying ske_hash km p all_wanted,
        silc_ske_set_keys al true rekeying ske_hash km q all_wanted with
  | Some i, Some r =>
      paired (ret_send_key i) (ret_receive_key r) /\
      paired (ret_send_key r) (ret_receive_key i) /\
      ret_hmac_send i = ret_hmac_receive r /\ ret_hmac_send r = ret_hmac_receive i
  | None, None => True
  | _, _ => False
  end.
Proof.
  intros (Ef & _ & Ec & Eh & Em) Ed Hd Hs Hsi Hri Hf Ho.
  pose proof (set_keys_ok al false rekeying ske_hash km p obj (fun _ => Hs) Hsi Hri Hd Hf Ho) as I.
  pose proof (set_keys_ok al true rekeying ske_hash km q obj (fun _ => Hs) Hsi Hri) as R.
  rewrite <- (find_name_cong co_name _ _ _ Ec) in R.
  specialize (R ltac:(intros x Hx; rewrite <- Ed; by apply Hd) Hf Ho). cbn zeta in *.
  rewrite <- (hmac_alloc_cong _ _ _ _ Em), <- (hash_alloc_cong _ _ _ Eh), <- Ef in R.
  destruct (silc_hmac_alloc _ _ _ _) as [m|]; [|by rewrite I, R].
  destruct (silc_hash_alloc _ _) as [h|]; [|by rewrite I, R]. rewrite I, R.
  cbn [ret_send_key ret_receive_key ret_hmac_send ret_hmac_receive].
  rewrite <- !(cipher_of_cong obj rekeying _ ske_hash (pr_hash p) (pr_hash q)) by done.
  split; [apply cipher_of_paired|]. split; [apply cipher_of_paired|done].
Qed.

(** ** Examples *)

#[export] Instance sha1_lawful ctx : lawful (mkHash sha1_object ctx).
Proof. exact Sha1.sha1_laws. Defined.
#[export] Instance sha256_lawful ctx : lawful (mkHash sha256_object ctx).
Proof. exact Sha256.sha256_laws. Defined.
#[export] Instance md5_lawful ctx : lawful (mkHash md5_object ctx).
Proof. exact Md5.md5_laws. Defined.

(** The properties of the examples: AES-256 in counter mode with SHA-1, whose
    digests are shorter than the keys. *)
Definition ex_prop : SilcSKESecurityProperties :=
  mkProp 0 (List.nth 0 silc_ske_groups (mkGroup 0 [] 0 0 0))
    (mkCipherStruct (List.nth 0 silc_default_ciphers (mkCipherObject [] 0 0 0 0)) None (zeros 16))
    (mkHash sha1_object (ho_zero sha1_object))
    (mkHmacStruct (List.nth 1 silc_default_hmacs (mkHmacObject [] 0)) sha1_object
       (Hmac.mkHmac 12 (ho_zero sha1_object) (zeros 64) (zeros 64) None 0)) 0.

Lemma key_material_spec_witness :
  let km := keymat_spec (pr_hash ex_prop) (mp_bytes 66051 ++ replicate 20 7) 16 256 in
  silc_ske_process_key_material ex_prop 66051 (replicate 20 7) 16 256 20 false =
    Some (km, None) /\
  zlen (send_iv km) = 16 /\ zlen (receive_iv km) = 16 /\
  zlen (send_enc_key km) = 32 /\ zlen (receive_enc_key km) = 32 /\
  zlen (send_hmac_key km) = 20 /\ zlen (receive_hmac_key km) = 20.
Proof.
  apply (key_material_spec ex_prop 66051 (replicate 20 7) 16 256); done.
Defined.

Lemma keys_cross_witness :
  let km := keymat_spec (pr_hash ex_prop) (replicate 40 7) 16 256 in
  match silc_ske_set_keys default_algorithms false false (replicate 20 3) km ex_prop all_wanted,
        silc_ske_set_keys default_algorithms true false (replicate 20 3) km ex_prop all_wanted
  with
  | Some i, Some r =>
      paired (ret_send_key i) (ret_receive_key r) /\
      paired (ret_send_key r) (ret_receive_key i) /\
      ret_hmac_send i = ret_hmac_receive r /\ ret_hmac_send r = ret_hmac_receive i
  | None, None => True
  | _, _ => False
  end.
Proof.
  apply (keys_cross default_algorithms false (replicate 20 3)
    (keymat_spec (pr_hash ex_prop) (replicate 40 7) 16 256) ex_prop ex_prop
    (List.nth 0 silc_default_ciphers (mkCipherObject [] 0 0 0 0))).
  - done.
  - done.
  - intros x Hx. rewrite (digest_of_len (pr_hash ex_prop)); [done|apply hashable_small; lia].
  - done.
  - vm_compute. done.
  - vm_compute. done.
  - vm_compute. reflexivity.
  - done.
Defined.
