(* ===== verification/Ske.v ===== *)
(** * The key exchange ([lib/silcske/silcske.c])

    The state machines of the two sides.  A handler of the C code is a function
    from the exchange's context to the new context, the next state, and what it
    sends and reports; [None] stands for what the model does not describe, the
    use of memory that holds nothing.

    Public keys and signatures are the class [SkePkcs].  What a handler asks of
    the outside is an argument: random bytes, whether packets can be sent, and
    what the verification of the peer's public key says, which the application
    reports by a callback.  Retransmission, timers and the IDs set to the stream
    are left out. *)

From S2P Require Import Prelude CTypes Memory Buffer BuffFmt Mp SkePayload Registry SkeNegotiate SkeKeys.
Import Format Unformat RoundTrip Encoding.

(** ** Public keys *)

(** Public keys and private keys: encoding with the type, decoding, signing of
    a hash and verification. *)
Class SkePkcs (PK SK : Type) := {
  silc_pkcs_public_key_encode : PK -> option (list Z);
  silc_pkcs_get_type : PK -> Z;
  silc_pkcs_public_key_alloc : Z -> list Z -> option PK;
  silc_pkcs_sign : SK -> list Z -> option (list Z);
  silc_pkcs_verify : PK -> list Z -> list Z -> bool
}.

(** A key pair as the other side sees it: the public key is decoded to one that
    verifies what the private key signs; both fit their fields. *)
Class SkePair {PK SK : Type} `{SkePkcs PK SK} (pub : PK) (prv : SK) := {
  pair_data : list Z;
  pair_encode : silc_pkcs_public_key_encode pub = Some pair_data;
  pair_data_ok : 0 < zlen pair_data < 8192 /\ bytes_ok pair_data;
  pair_type : 1 <= silc_pkcs_get_type pub <= 5;
  pair_peer : PK;
  pair_alloc : silc_pkcs_public_key_alloc (silc_pkcs_get_type pub) pair_data = Some pair_peer;
  pair_sign m : exists s, silc_pkcs_sign prv m = Some s /\ 3 <= zlen s <= 2048 /\ bytes_ok s /\
                          silc_pkcs_verify pair_peer s m = true
}.

(** ** Packets, states and the context *)

Definition SILC_PACKET_SUCCESS : Z := 2.
Definition SILC_PACKET_FAILURE : Z := 3.
Definition SILC_PACKET_KEY_EXCHANGE : Z := 13.
Definition SILC_PACKET_KEY_EXCHANGE_1 : Z := 14.
Definition SILC_PACKET_KEY_EXCHANGE_2 : Z := 15.
Definition SILC_PACKET_REKEY : Z := 22.
Definition SILC_PACKET_REKEY_DONE : Z := 23.

(** A packet of the exchange: its type and its data. *)
Record ske_packet := mkPacket { pkt_type : Z; pkt_data : list Z }.

Definition pkt_buffer (p : ske_packet) : SilcBuffer :=
  silc_buffer_set (pkt_data p) (zlen (pkt_data p)).

(** The states, named as the functions of the source without [silc_ske_st_]. *)
Inductive st :=
  | initiator_start | initiator_phase1 | initiator_phase2 | initiator_phase3
  | initiator_phase4 | initiator_end | initiator_aborted | initiator_error
  | initiator_failure
  | responder_start | responder_phase1 | responder_phase2 | responder_phase4
  | responder_phase5 | responder_end | responder_aborted | responder_failure
  | responder_error
  | rekey_initiator_start | rekey_initiator_done | rekey_initiator_end
  | rekey_responder_wait | rekey_responder_start | rekey_responder_done
  | rekey_responder_end.

(** The keys of the packet stream, for a rekey; what else the stream does with
    its keys is in [Packet.v]. *)
Record stream_keys := mkStream {
  sk_send : option SilcCipher;
  sk_receive : option SilcCipher;
  sk_hmac_send : option SilcHmac;
  sk_hmac_receive : option SilcHmac;
  sk_iv_included : bool;
  sk_old_send : option SilcCipher;         (** the second element of the arrays *)
  sk_old_receive : option SilcCipher;
  sk_old_hmac_send : option SilcHmac;
  sk_old_hmac_receive : option SilcHmac
}.

Definition no_keys : stream_keys :=
  mkStream None None None None false None None None None.

(** What a handler returns: [SILC_FSM_CONTINUE], [SILC_FSM_WAIT],
    [SILC_FSM_FINISH], and the call that waits for the public key to be
    verified. *)
Inductive act := CONTINUE | WAIT | FINISH | VERIFY.

(** The arguments of the completion callback after the context. *)
Record completion := mkDone {
  c_status : Z;
  c_prop : option SilcSKESecurityProperties;
  c_keymat : option SilcSKEKeyMaterial;
  c_rekey : option SilcSKERekeyMaterial
}.

(** What does not change: the algorithms of the process, [ske->version],
    [ske->flags], [ske->session_port], the keys, and whether there are a
    repository and a [verify_key] callback. *)
Record config (PK SK : Type) := mkConfig {
  cf_al : algorithms;
  cf_version : list Z;
  cf_flags : Z;
  cf_session_port : Z;
  cf_public_key : PK;
  cf_private_key : option SK;
  cf_repository : bool;
  cf_verify_key : bool
}.
Arguments mkConfig {PK SK}.
Arguments cf_al {PK SK}.
Arguments cf_version {PK SK}.
Arguments cf_flags {PK SK}.
Arguments cf_session_port {PK SK}.
Arguments cf_public_key {PK SK}.
Arguments cf_private_key {PK SK}.
Arguments cf_repository {PK SK}.
Arguments cf_verify_key {PK SK}.

(** What a handler is given by the outside: the random bytes of the exponent,
    whether [silc_packet_send] succeeds, and the verdict on a public key. *)
Record inputs (PK : Type) := mkInputs {
  in_rnd : list Z; in_sent : bool; in_verdict : PK -> Z
}.
Arguments mkInputs {PK}.
Arguments in_rnd {PK}.
Arguments in_sent {PK}.
Arguments in_verdict {PK}.

Section Exchange.
Context {PK SK : Type} `{SkePkcs PK SK}.

(** [struct SilcSKEStruct], as far as the handlers change it; [peer_key] is
    [prop->public_key]. *)
Record SilcSKE := mkSke {
  status : Z;
  prop : option SilcSKESecurityProperties;
  peer_key : option PK;
  start_payload : option SilcSKEStartPayload;
  start_payload_copy : option SilcBuffer;
  ke1_payload : option SilcSKEKEPayload;
  ke2_payload : option SilcSKEKEPayload;
  ske_x : Z;
  KEY : option Z;
  ske_hash : option (list Z);
  remote_version : option (list Z);
  keymat : option SilcSKEKeyMaterial;
  rekey : option SilcSKERekeyMaterial;
  packet : option ske_packet;
  aborted : bool;
  failure_notified : bool;
  stream : stream_keys
}.

Definition set_status (v : Z) (s : SilcSKE) : SilcSKE :=
  mkSke v (prop s) (peer_key s) (start_payload s) (start_payload_copy s) (ke1_payload s) 
    (ke2_payload s) (ske_x s) (KEY s) (ske_hash s) (remote_version s) (keymat s) (rekey s) 
    (packet s) (aborted s) (failure_notified s) (stream s).
Definition set_prop (v : option SilcSKESecurityProperties) (s : SilcSKE) : SilcSKE :=
  mkSke (status s) v (peer_key s) (start_payload s) (start_payload_copy s) (ke1_payload s) 
    (ke2_payload s) (ske_x s) (KEY s) (ske_hash s) (remote_version s) (keymat s) (rekey s) 
    (packet s) (aborted s) (failure_notified s) (stream s).
Definition set_peer_key (v : option PK) (s : SilcSKE) : SilcSKE :=
  mkSke (status s) (prop s) v (start_payload s) (start_payload_copy s) (ke1_payload s) 
    (ke2_payload s) (ske_x s) (KEY s) (ske_hash s) (remote_version s) (keymat s) (rekey s) 
    (packet s) (aborted s) (failure_notified s) (stream s).
Definition set_start_payload (v : option SilcSKEStartPayload) (s : SilcSKE) : SilcSKE :=
  mkSke (status s) (prop s) (peer_key s) v (start_payload_copy s) (ke1_payload s) 
    (ke2_payload s) (ske_x s) (KEY s) (ske_hash s) (remote_version s) (keymat s) (rekey s) 
    (packet s) (aborted s) (failure_notified s) (stream s).
Definition set_start_payload_copy (v : option SilcBuffer) (s : SilcSKE) : SilcSKE :=
  mkSke (status s) (prop s) (peer_key s) (start_payload s) v (ke1_payload s) 
    (ke2_payload s) (ske_x s) (KEY s) (ske_hash s) (remote_version s) (keymat s) (rekey s) 
    (packet s) (aborted s) (failure_notified s) (stream s).
Definition set_ke1_payload (v : option SilcSKEKEPayload) (s : SilcSKE) : SilcSKE :=
  mkSke (status s) (prop s) (peer_key s) (start_payload s) (start_payload_copy s) v 
    (ke2_payload s) (ske_x s) (KEY s) (ske_hash s) (remote_version s) (keymat s) (rekey s) 
    (packet s) (aborted s) (failure_notified s) (stream s).
Definition set_ke2_payload (v : option SilcSKEKEPayload) (s : SilcSKE) : SilcSKE :=
  mkSke (status s) (prop s) (peer_key s) (start_payload s) (start_payload_copy s) 
    (ke1_payload s) v (ske_x s) (KEY s) (ske_hash s) (remote_version s) (keymat s) 
    (rekey s) (packet s) (aborted s) (failure_notified s) (stream s).
Definition set_ske_x (v : Z) (s : SilcSKE) : SilcSKE :=
  mkSke (status s) (prop s) (peer_key s) (start_payload s) (start_payload_copy s) 
    (ke1_payload s) (ke2_payload s) v (KEY s) (ske_hash s) (remote_version s) (keymat s) 
    (rekey s) (packet s) (aborted s) (failure_notified s) (stream s).
Definition set_KEY (v : option Z) (s : SilcSKE) : SilcSKE :=
  mkSke (status s) (prop s) (peer_key s) (start_payload s) (start_payload_copy s) 
    (ke1_payload s) (ke2_payload s) (ske_x s) v (ske_hash s) (remote_version s) (keymat s) 
    (rekey s) (packet s) (aborted s) (failure_notified s) (stream s).
Definition set_ske_hash (v : option (list Z)) (s : SilcSKE) : SilcSKE :=
  mkSke (status s) (prop s) (peer_key s) (start_payload s) (start_payload_copy s) 
    (ke1_payload s) (ke2_payload s) (ske_x s) (KEY s) v (remote_version s) (keymat s) 
    (rekey s) (packet s) (aborted s) (failure_notified s) (stream s).
Definition set_remote_version (v : option (list Z)) (s : SilcSKE) : SilcSKE :=
  mkSke (status s) (prop s) (peer_key s) (start_payload s) (start_payload_copy s) 
    (ke1_payload s) (ke2_payload s) (ske_x s) (KEY s) (ske_hash s) v (keymat s) (rekey s) 
    (packet s) (aborted s) (failure_notified s) (stream s).
Definition set_keymat (v : option SilcSKEKeyMaterial) (s : SilcSKE) : SilcSKE :=
  mkSke (status s) (prop s) (peer_key s) (start_payload s) (start_payload_copy s) 
    (ke1_payload s) (ke2_payload s) (ske_x s) (KEY s) (ske_hash s) (remote_version s) v 
    (rekey s) (packet s) (aborted s) (failure_notified s) (stream s).
Definition set_rekey (v : option SilcSKERekeyMaterial) (s : SilcSKE) : SilcSKE :=
  mkSke (status s) (prop s) (peer_key s) (start_payload s) (start_payload_copy s) 
    (ke1_payload s) (ke2_payload s) (ske_x s) (KEY s) (ske_hash s) (remote_version s) 
    (keymat s) v (packet s) (aborted s) (failure_notified s) (stream s).
Definition set_packet (v : option ske_packet) (s : SilcSKE) : SilcSKE :=
  mkSke (status s) (prop s) (peer_key s) (start_payload s) (start_payload_copy s) 
    (ke1_payload s) (ke2_payload s) (ske_x s) (KEY s) (ske_hash s) (remote_version s) 
    (keymat s) (rekey s) v (aborted s) (failure_notified s) (stream s).
Definition set_aborted (v : bool) (s : SilcSKE) : SilcSKE :=
  mkSke (status s) (prop s) (peer_key s) (start_payload s) (start_payload_copy s) 
    (ke1_payload s) (ke2_payload s) (ske_x s) (KEY s) (ske_hash s) (remote_version s) 
    (keymat s) (rekey s) (packet s) v (failure_notified s) (stream s).
Definition set_failure_notified (v : bool) (s : SilcSKE) : SilcSKE :=
  mkSke (status s) (prop s) (peer_key s) (start_payload s) (start_payload_copy s) 
    (ke1_payload s) (ke2_payload s) (ske_x s) (KEY s) (ske_hash s) (remote_version s) 
    (keymat s) (rekey s) (packet s) (aborted s) v (stream s).

Definition set_stream (v : stream_keys) (s : SilcSKE) : SilcSKE :=
  mkSke (status s) (prop s) (peer_key s) (start_payload s) (start_payload_copy s) 
    (ke1_payload s) (ke2_payload s) (ske_x s) (KEY s) (ske_hash s) (remote_version s) 
    (keymat s) (rekey s) (packet s) (aborted s) (failure_notified s) v.

(** ** Handlers *)

Record res := mkRes {
  r_ske : SilcSKE;
  r_next : st;
  r_act : act;
  r_out : list ske_packet;
  r_done : list completion
}.

Definition go (s : SilcSKE) (next : st) : option res := Some (mkRes s next CONTINUE [] []).
Definition wait (s : SilcSKE) (next : st) (out : list ske_packet) : option res :=
  Some (mkRes s next WAIT out []).

(** [ske->status = status; silc_fsm_next(fsm, next); return SILC_FSM_CONTINUE]. *)
Definition fail (status : Z) (s : SilcSKE) (next : st) : option res :=
  go (set_status status s) next.

Definition silc_ske_completion (s : SilcSKE) : list completion :=
  if aborted s then []
  else if negb (status s =? SILC_SKE_STATUS_OK) then [mkDone (status s) None None None]
  else [mkDone (status s) (prop s) (keymat s) (rekey s)].

(** A packet that is sent when packets can be. *)
Definition ske_send (i : inputs PK) (p : ske_packet) : list ske_packet :=
  if in_sent i then [p] else [].

Definition packet_of (type : Z) (b : SilcBuffer) : ske_packet :=
  mkPacket type (ztake (silc_buffer_len b) (silc_buffer_data b)).

Definition finish (s : SilcSKE) (next : st) (out : list ske_packet) : option res :=
  Some (mkRes s next FINISH out (silc_ske_completion s)).

(** *** Initiator *)

Definition silc_ske_st_initiator_start (i : inputs PK) (s : SilcSKE) : option res :=
  if aborted s then go s initiator_aborted
  else match silc_ske_payload_start_encode (start_payload s) with
  | SkeErr e => fail e s initiator_error
  | SkeOk payload_buf =>
      let s := set_start_payload_copy (Some payload_buf) s in
      if in_sent i
      then wait s initiator_phase1 [packet_of SILC_PACKET_KEY_EXCHANGE payload_buf]
      else fail SILC_SKE_STATUS_ERROR s initiator_error
  end.

(** An old packet that the other side sent again. *)
Definition old_packet (s : SilcSKE) (next : st) : option res := wait (set_packet None s) next [].

Definition silc_ske_st_initiator_phase1 (c : config PK SK) (s : SilcSKE) : option res :=
  match packet s, start_payload s with
  | Some p, Some own =>
      if negb (pkt_type p =? SILC_PACKET_KEY_EXCHANGE) then old_packet s initiator_phase1
      else
        let s := set_packet None s in
        match silc_ske_payload_start_decode (pkt_buffer p) with
        | SkeErr e => fail e s initiator_error
        | SkeOk payload =>
            let port := has_flag (sp_flags payload) SILC_SKE_SP_FLAG_IV_INCLUDED &&
                        negb (cf_session_port c =? 0) in
            let own_cookie := default [] (cookie own) in
            let remote_port := if port then SILC_GET16_MSB own_cookie else 0 in
            let coff := if port then 2 else 0 in
            if negb (bool_decide
                 (zslice coff (SILC_SKE_COOKIE_LEN - coff) own_cookie =
                  zslice coff (SILC_SKE_COOKIE_LEN - coff) (default [] (cookie payload))))
            then fail SILC_SKE_STATUS_INVALID_COOKIE s initiator_error
            else
              let s := set_remote_version
                         (silc_memdup (default [] (SkePayload.version payload))
                            (version_len payload)) s in
              let status := silc_ske_check_version (remote_version s) (Some (cf_version c)) in
              if negb (status =? SILC_SKE_STATUS_OK) then fail status s initiator_error
              else
                let s := set_start_payload None s in
                match take_selection (cf_al c) remote_port payload with
                | SkeErr e => fail e (set_prop None s) initiator_error
                | SkeOk prop =>
                    go (set_start_payload (Some payload) (set_prop (Some prop) s))
                      initiator_phase2
                end
        end
  | _, _ => None
  end.

Definition silc_ske_st_initiator_phase2 (c : config PK SK) (i : inputs PK) (s : SilcSKE)
    : option res :=
  match prop s with
  | None => None
  | Some pr =>
      let g := pr_group pr in
      match silc_ske_create_rnd (in_rnd i) (g_group_order g)
              (silc_mp_sizeinbase_2 (g_group_order g)) with
      | SkeErr e => fail e s initiator_error
      | SkeOk x =>
          match silc_pkcs_public_key_encode (cf_public_key c) with
          | None => fail SILC_SKE_STATUS_ERROR (set_ke1_payload None s) initiator_error
          | Some pk =>
              let e := silc_mp_pow_mod (g_generator g) x (g_group g) in
              let payload := mkKE (u16 (zlen pk)) (Some pk)
                               (u16 (silc_pkcs_get_type (cf_public_key c))) e 0 None in
              let signed :=
                match cf_private_key c with
                | Some sk =>
                    if has_flag (pr_flags pr) SILC_SKE_SP_FLAG_MUTUAL then
                      match silc_ske_make_hash (pr_hash pr) (start_payload_copy s) payload
                              payload 0 true with
                      | SkeErr _ => None      (* the hash and its length are not set *)
                      | SkeOk hash =>
                          match silc_pkcs_sign sk hash with
                          | None => Some None
                          | Some sign =>
                              Some (Some (mkKE (pk_len payload) (pk_data payload)
                                (pk_type payload) e (u16 (zlen sign)) (Some sign)))
                          end
                      end
                    else Some (Some payload)
                | None => Some (Some payload)
                end in
              match signed with
              | None => None
              | Some None =>
                  fail SILC_SKE_STATUS_SIGNATURE_ERROR (set_ke1_payload None s) initiator_error
              | Some (Some payload) =>
                  match silc_ske_payload_ke_encode (start_payload s) (Some payload) with
                  | SkeErr e => fail e (set_ke1_payload None s) initiator_error
                  | SkeOk payload_buf =>
                      let s := set_ske_x x (set_ke1_payload (Some payload) s) in
                      if in_sent i
                      then wait s initiator_phase3
                             [packet_of SILC_PACKET_KEY_EXCHANGE_1 payload_buf]
                      else fail SILC_SKE_STATUS_ERROR s initiator_error
                  end
              end
          end
      end
  end.

Definition silc_ske_st_initiator_phase3 (c : config PK SK) (s : SilcSKE) : option res :=
  match packet s, prop s with
  | Some p, Some pr =>
      if negb (pkt_type p =? SILC_PACKET_KEY_EXCHANGE_2) then old_packet s initiator_phase3
      else
        let s := set_packet None s in
        match silc_ske_payload_ke_decode (start_payload s) (pkt_buffer p) with
        | SkeErr e => fail e s initiator_error
        | SkeOk payload =>
            let s := set_ke2_payload (Some payload) s in
            let verify := cf_verify_key c || cf_repository c in
            if bool_decide (pk_data payload = None) && verify
            then None                         (* [ske->KEY], which is NULL, is released *)
            else
              let K := silc_mp_pow_mod (ke_x payload) (ske_x s) (g_group (pr_group pr)) in
              let s := set_KEY (Some K) s in
              match pk_data payload with
              | None => go s initiator_phase4
              | Some pk =>
                  match silc_pkcs_public_key_alloc (pk_type payload)
                          (ztake (pk_len payload) pk) with
                  | None =>
                      fail SILC_SKE_STATUS_UNSUPPORTED_PUBLIC_KEY
                        (set_KEY None (set_ke2_payload None s)) initiator_error
                  | Some peer =>
                      let s := set_peer_key (Some peer) s in
                      if verify then Some (mkRes s initiator_phase4 VERIFY [] [])
                      else go s initiator_phase4
                  end
              end
        end
  | _, _ => None
  end.

Definition silc_ske_st_initiator_phase4 (i : inputs PK) (s : SilcSKE) : option res :=
  if aborted s then go s initiator_aborted
  else if negb (status s =? SILC_SKE_STATUS_OK) then go s initiator_error
  else match prop s, ke1_payload s, ke2_payload s, KEY s with
  | Some pr, Some ke1, Some ke2, Some K =>
      let err e s := fail e (set_ske_hash None (set_KEY None (set_ke2_payload None s)))
                       initiator_error in
      match silc_ske_make_hash (pr_hash pr) (start_payload_copy s) ke1 ke2 K false with
      | SkeErr e => err e s
      | SkeOk hash =>
          let s := set_ske_hash (Some hash) s in
          if match peer_key s with
             | Some peer =>
                 negb (silc_pkcs_verify peer (ztake (sign_len ke2) (default [] (sign_data ke2)))
                         hash)
             | None => false
             end
          then err SILC_SKE_STATUS_INCORRECT_SIGNATURE s
          else
            let s := set_status SILC_SKE_STATUS_OK s in
            match rekey s with
            | Some _ => go s rekey_initiator_done
            | None =>
                match silc_ske_process_key_material pr K hash
                        (silc_cipher_get_block_len (pr_cipher pr))
                        (silc_cipher_get_key_len (pr_cipher pr))
                        (digest_len_of (pr_hash pr)) true with
                | None => err SILC_SKE_STATUS_ERROR s
                | Some (km, rk) =>
                    let s := set_rekey rk (set_keymat (Some km) s) in
                    if in_sent i
                    then wait s initiator_end
                           [mkPacket SILC_PACKET_SUCCESS (SILC_PUT32_MSB SILC_SKE_STATUS_OK)]
                    else fail SILC_SKE_STATUS_ERROR s initiator_error
                end
            end
      end
  | _, _, _, _ => None
  end.

Definition silc_ske_st_initiator_end (s : SilcSKE) : option res :=
  match packet s with
  | None => None
  | Some p =>
      if negb (pkt_type p =? SILC_PACKET_SUCCESS) then old_packet s initiator_end
      else finish (set_packet None s) initiator_end []
  end.

Definition failure_packet (status : Z) : ske_packet :=
  mkPacket SILC_PACKET_FAILURE (SILC_PUT32_MSB status).

Definition silc_ske_st_initiator_aborted (i : inputs PK) (s : SilcSKE) : option res :=
  finish s initiator_aborted (ske_send i (failure_packet SILC_SKE_STATUS_ERROR)).

Definition silc_ske_st_initiator_error (i : inputs PK) (s : SilcSKE) : option res :=
  let e := if SILC_SKE_STATUS_INVALID_COOKIE <? status s then SILC_SKE_STATUS_ERROR
           else status s in
  finish s initiator_error (ske_send i (failure_packet e)).

(** The status of a FAILURE packet.  A packet of another length stays in the
    context. *)
Definition failure_status (s : SilcSKE) : SilcSKE :=
  match packet s with
  | Some p =>
      if silc_buffer_len (pkt_buffer p) =? 4
      then set_status (SILC_GET32_MSB (pkt_data p)) (set_packet None s)
      else set_status SILC_SKE_STATUS_ERROR s
  | None => set_status SILC_SKE_STATUS_ERROR s
  end.

Definition silc_ske_st_initiator_failure (s : SilcSKE) : option res :=
  finish (failure_status s) initiator_failure [].

(** *** Responder *)

Definition silc_ske_st_responder_start (s : SilcSKE) : option res :=
  if aborted s then go s responder_aborted else wait s responder_phase1 [].

(** The flags after the responder's own are applied. *)
Definition forced_flags (own flags : Z) : Z :=
  let flags := if has_flag own SILC_SKE_SP_FLAG_MUTUAL
               then Z.lor flags SILC_SKE_SP_FLAG_MUTUAL else flags in
  let flags := if has_flag own SILC_SKE_SP_FLAG_PFS
               then Z.lor flags SILC_SKE_SP_FLAG_PFS else flags in
  if has_flag flags SILC_SKE_SP_FLAG_IV_INCLUDED &&
     negb (has_flag own SILC_SKE_SP_FLAG_IV_INCLUDED)
  then Z.land flags (Z.lnot SILC_SKE_SP_FLAG_IV_INCLUDED) else flags.

Definition set_sp_flags (flags : Z) (p : SilcSKEStartPayload) : SilcSKEStartPayload :=
  mkStart flags (sp_len p) (cookie p) (cookie_len p) (SkePayload.version p) (version_len p)
    (ke_grp_list p) (ke_grp_len p) (pkcs_alg_list p) (pkcs_alg_len p) (enc_alg_list p)
    (enc_alg_len p) (hash_alg_list p) (hash_alg_len p) (hmac_alg_list p) (hmac_alg_len p)
    (comp_alg_list p) (comp_alg_len p).

(** The type of the packet is not looked at. *)
Definition silc_ske_st_responder_phase1 (c : config PK SK) (i : inputs PK) (s : SilcSKE)
    : option res :=
  match packet s with
  | None => None
  | Some p =>
      match silc_ske_payload_start_decode (pkt_buffer p) with
      | SkeErr e => fail e (set_packet None s) responder_error
      | SkeOk rp =>
          let s := set_start_payload_copy (silc_buffer_copy (pkt_buffer p)) s in
          let s := set_packet None s in
          let rp := set_sp_flags (forced_flags (cf_flags c) (sp_flags rp)) rp in
          match silc_ske_select_security_properties (cf_al c) (cf_version c)
                  (cf_session_port c) rp with
          | SkeErr e => fail e s responder_error
          | SkeOk (pr, reply, rv) =>
              let s := set_remote_version rv
                         (set_start_payload (Some reply) (set_prop (Some pr) s)) in
              match silc_ske_payload_start_encode (Some reply) with
              | SkeErr e => fail e (set_prop None s) responder_error
              | SkeOk b =>
                  if in_sent i
                  then wait s responder_phase2 [packet_of SILC_PACKET_KEY_EXCHANGE b]
                  else fail SILC_SKE_STATUS_ERROR (set_prop None s) responder_error
              end
          end
      end
  end.

Definition silc_ske_st_responder_phase2 (c : config PK SK) (s : SilcSKE) : option res :=
  match packet s with
  | None => None
  | Some p =>
      if negb (pkt_type p =? SILC_PACKET_KEY_EXCHANGE_1) then old_packet s responder_phase2
      else
        let s := set_packet None s in
        match silc_ske_payload_ke_decode (start_payload s) (pkt_buffer p) with
        | SkeErr e => fail e s responder_error
        | SkeOk recv_payload =>
            let s := set_ke1_payload (Some recv_payload) s in
            match rekey s with
            | Some _ => go s responder_phase4
            | None =>
                match pk_data recv_payload with
                | None => fail SILC_SKE_STATUS_PUBLIC_KEY_NOT_PROVIDED s responder_error
                | Some pk =>
                    match silc_pkcs_public_key_alloc (pk_type recv_payload)
                            (ztake (pk_len recv_payload) pk) with
                    | None => fail SILC_SKE_STATUS_UNSUPPORTED_PUBLIC_KEY s responder_error
                    | Some peer =>
                        let s := set_peer_key (Some peer) s in
                        if cf_repository c || cf_verify_key c
                        then Some (mkRes s responder_phase4 VERIFY [] [])
                        else go s responder_phase4
                    end
                end
            end
        end
  end.

Definition silc_ske_st_responder_phase4 (i : inputs PK) (s : SilcSKE) : option res :=
  if aborted s then go s responder_aborted
  else if negb (status s =? SILC_SKE_STATUS_OK) then go s initiator_error
  else match prop s, ke1_payload s with
  | Some pr, Some ke1 =>
      let checked :=
        if mutual (start_payload s) then
          match silc_ske_make_hash (pr_hash pr) (start_payload_copy s) ke1 ke1 0 true with
          | SkeErr e => Some e
          | SkeOk hash =>
              match peer_key s with
              | Some peer =>
                  if silc_pkcs_verify peer (ztake (sign_len ke1) (default [] (sign_data ke1)))
                       hash
                  then Some SILC_SKE_STATUS_OK else Some SILC_SKE_STATUS_INCORRECT_SIGNATURE
              | None => None
              end
          end
        else Some SILC_SKE_STATUS_OK in
      match checked with
      | None => None
      | Some e =>
          if negb (e =? SILC_SKE_STATUS_OK) then fail e s responder_error
          else
            let g := pr_group pr in
            match silc_ske_create_rnd (in_rnd i) (g_group_order g)
                    (silc_mp_sizeinbase_2 (g_group_order g)) with
            | SkeErr e => fail e s responder_error
            | SkeOk x =>
                let f := silc_mp_pow_mod (g_generator g) x (g_group g) in
                let K := silc_mp_pow_mod (ke_x ke1) x (g_group g) in
                go (set_KEY (Some K)
                      (set_ke2_payload (Some (mkKE 0 None 0 f 0 None)) (set_ske_x x s)))
                  responder_phase5
            end
      end
  | _, _ => None
  end.

Definition silc_ske_st_responder_phase5 (c : config PK SK) (i : inputs PK) (s : SilcSKE)
    : option res :=
  match prop s, ke1_payload s, ke2_payload s, KEY s with
  | Some pr, Some ke1, Some ke2, Some K =>
      let pk :=
        match cf_private_key c with
        | Some _ => match silc_pkcs_public_key_encode (cf_public_key c) with
                    | Some pk => Some (Some pk)
                    | None => None
                    end
        | None => Some None
        end in
      match pk with
      | None => go s responder_error          (* [ske->status] is not set *)
      | Some pk =>
          let ke2 := match pk with
                     | Some pk => mkKE (u16 (zlen pk)) (Some pk) (pk_type ke2) (ke_x ke2) 0 None
                     | None => ke2
                     end in
          match silc_ske_make_hash (pr_hash pr) (start_payload_copy s) ke1 ke2 K false with
          | SkeErr e => fail e (set_ke2_payload (Some ke2) s) responder_error
          | SkeOk hash =>
              let s := set_ske_hash (Some hash) (set_ke2_payload (Some ke2) s) in
              let sign :=
                match cf_private_key c with
                | Some sk => match silc_pkcs_sign sk hash with
                             | Some sign => Some (Some sign)
                             | None => None
                             end
                | None => Some None
                end in
              match sign with
              | None => go s responder_error  (* [ske->status] is not set *)
              | Some sign =>
                  let type := u16 (silc_pkcs_get_type (cf_public_key c)) in
                  let ke2 :=
                    match sign with
                    | Some sign => mkKE (pk_len ke2) (pk_data ke2) type (ke_x ke2)
                                     (u16 (zlen sign)) (Some sign)
                    | None => mkKE (pk_len ke2) (pk_data ke2) type (ke_x ke2) (sign_len ke2)
                                (sign_data ke2)
                    end in
                  let s := set_ke2_payload (Some ke2) s in
                  match silc_ske_payload_ke_encode (start_payload s) (Some ke2) with
                  | SkeErr e => fail e s responder_error
                  | SkeOk b =>
                      if in_sent i then
                        match rekey s with
                        | Some _ =>
                            Some (mkRes s rekey_responder_done CONTINUE
                                    [packet_of SILC_PACKET_KEY_EXCHANGE_2 b] [])
                        | None =>
                            wait s responder_end [packet_of SILC_PACKET_KEY_EXCHANGE_2 b]
                        end
                      else fail SILC_SKE_STATUS_ERROR s responder_error
                  end
              end
          end
      end
  | _, _, _, _ => None
  end.

Definition silc_ske_st_responder_end (i : inputs PK) (s : SilcSKE) : option res :=
  match packet s, prop s, KEY s, ske_hash s with
  | Some p, Some pr, Some K, Some hash =>
      if negb (pkt_type p =? SILC_PACKET_SUCCESS) then old_packet s responder_end
      else
        let s := set_packet None s in
        match silc_ske_process_key_material pr K hash
                (silc_cipher_get_block_len (pr_cipher pr))
                (silc_cipher_get_key_len (pr_cipher pr)) (digest_len_of (pr_hash pr)) true with
        | None => fail SILC_SKE_STATUS_ERROR s responder_error
        | Some (km, rk) =>
            finish (set_rekey rk (set_keymat (Some km) s)) responder_end
              (ske_send i (mkPacket SILC_PACKET_SUCCESS (SILC_PUT32_MSB SILC_SKE_STATUS_OK)))
        end
  | _, _, _, _ => None
  end.

Definition silc_ske_st_responder_aborted (i : inputs PK) (s : SilcSKE) : option res :=
  finish s responder_aborted (ske_send i (failure_packet SILC_SKE_STATUS_ERROR)).

Definition silc_ske_st_responder_failure (s : SilcSKE) : option res :=
  finish (failure_status s) responder_failure [].

Definition silc_ske_st_responder_error (i : inputs PK) (s : SilcSKE) : option res :=
  let s := if SILC_SKE_STATUS_INVALID_COOKIE <? status s
           then set_status SILC_SKE_STATUS_BAD_PAYLOAD s else s in
  finish s responder_error (ske_send i (failure_packet (status s))).

(** *** Rekey *)

(** [silc_packet_set_keys]: what is NULL keeps its key.  With IVs included the
    old key is saved, when one was saved before.  The packet that it sends in a
    rekey is with its caller. *)
Definition new_key {A} (key current : option A) : option A :=
  match key with Some _ => key | None => current end.
Definition saved_key {A} (iv_included : bool) (key current old : option A) : option A :=
  match iv_included, old, key with
  | true, Some _, Some _ => current
  | _, _, _ => old
  end.
Definition silc_packet_set_keys (send_key receive_key : option SilcCipher)
    (send_hmac receive_hmac : option SilcHmac) (k : stream_keys) : stream_keys :=
  let inc := sk_iv_included k in
  mkStream (new_key send_key (sk_send k)) (new_key receive_key (sk_receive k))
    (new_key send_hmac (sk_hmac_send k)) (new_key receive_hmac (sk_hmac_receive k)) inc
    (saved_key inc send_key (sk_send k) (sk_old_send k))
    (saved_key inc receive_key (sk_receive k) (sk_old_receive k))
    (saved_key inc send_hmac (sk_hmac_send k) (sk_old_hmac_send k))
    (saved_key inc receive_hmac (sk_hmac_receive k) (sk_old_hmac_receive k)).

(** [prop] of a rekey: all zero but for the hash, and the group when there is
    one; [no_group] is a NULL group, whose number is left 0 where it is read.  The
    cipher and the HMAC are there only while [silc_ske_set_keys] is called. *)
Definition no_group : SilcSKEDiffieHellmanGroup := mkGroup 0 [] 0 0 0.
Definition with_group (g : SilcSKEDiffieHellmanGroup) (p : SilcSKESecurityProperties) :=
  mkProp (pr_flags p) g (pr_cipher p) (pr_hash p) (pr_hmac p) (pr_remote_port p).
Definition with_keys (cipher : SilcCipher) (hmac : SilcHmac) (p : SilcSKESecurityProperties) :=
  mkProp (pr_flags p) (pr_group p) cipher (pr_hash p) hmac (pr_remote_port p).

(** The properties that a rekey starts with: [silc_hash_alloc], and the keys of
    the stream where the code has NULL until it reads them there. *)
Definition rekey_prop (c : config PK SK) (rk : SilcSKERekeyMaterial) (k : stream_keys)
    : option (option SilcSKESecurityProperties) :=
  match rk_hash rk, sk_send k, sk_hmac_send k with
  | Some name, Some cipher, Some hmac =>
      match silc_hash_alloc (al_hashes (cf_al c)) name with
      | Some hash => Some (Some (mkProp 0 no_group cipher hash hmac 0))
      | None => Some None
      end
  | _, _, _ => None
  end.

Definition silc_ske_st_rekey_initiator_start (c : config PK SK) (i : inputs PK) (s : SilcSKE)
    : option res :=
  match rekey s with
  | None => None
  | Some rk =>
      if aborted s then go s initiator_aborted
      else match rekey_prop c rk (stream s) with
      | None => None
      | Some None => fail SILC_SKE_STATUS_OUT_OF_MEMORY s initiator_error
      | Some (Some pr) =>
          let s := set_prop (Some pr) s in
          if negb (in_sent i) then fail SILC_SKE_STATUS_ERROR s initiator_error
          else
            let next s state :=
              Some (mkRes s state CONTINUE [mkPacket SILC_PACKET_REKEY []] []) in
            if negb (rk_pfs rk) then next s rekey_initiator_done
            else match silc_ske_group_get_by_number (rk_ske_group rk) with
            | SkeErr _ => next s initiator_error          (* [ske->status] is not set *)
            | SkeOk g => next (set_prop (Some (with_group g pr)) s) initiator_phase2
            end
      end
  end.

(** The new key material: the shared secret with PFS, the old sending key
    without.  The outer [None] is a NULL pointer that is read. *)
Definition rekey_keymat (s : SilcSKE) (rk : SilcSKERekeyMaterial)
    (pr : SilcSKESecurityProperties) (cipher : SilcCipher) : option (option SilcSKEKeyMaterial) :=
  let key_len := silc_cipher_get_key_len cipher in
  let block_len := silc_cipher_get_block_len cipher in
  let hash_len := digest_len_of (pr_hash pr) in
  if rk_pfs rk then
    match KEY s with
    | None => None
    | Some K =>
        match silc_mp_mp2bin K 0 with
        | Some (pfsbuf, x_len) =>
            Some (silc_ske_process_key_material_data pfsbuf x_len block_len key_len hash_len
                    (pr_hash pr))
        | None => Some (keymat s)
        end
    end
  else
    match rk_send_enc_key rk with
    | None => None
    | Some key =>
        Some (silc_ske_process_key_material_data key (rk_enc_key_len rk / 8) block_len key_len
                hash_len (pr_hash pr))
    end.

Definition want_sending : wants := mkWants true false true false false.
Definition want_receiving : wants := mkWants false true false true false.

(** [silc_ske_st_rekey_initiator_done] and [silc_ske_st_rekey_responder_done]
    differ in the states they go to.  REKEY_DONE goes out under the old keys. *)
Definition rekey_done (responder : bool) (error wait_state : st) (c : config PK SK)
    (i : inputs PK) (s : SilcSKE) : option res :=
  match rekey s, prop s, sk_send (stream s), sk_hmac_send (stream s) with
  | Some rk, Some pr, Some send_key, Some hmac_send =>
      match rekey_keymat s rk pr send_key with
      | None => None
      | Some km =>
          let s := set_keymat km s in
          match km with
          | None => go s error                            (* [ske->status] is not set *)
          | Some km =>
              match silc_ske_set_keys (cf_al c) responder true (default [] (ske_hash s)) km
                      (with_keys send_key hmac_send pr) want_sending with
              | None => fail SILC_SKE_STATUS_ERROR s error
              | Some k =>
                  if in_sent i
                  then wait (set_stream (silc_packet_set_keys (ret_send_key k) None
                                           (ret_hmac_send k) None (stream s)) s) wait_state
                         [mkPacket SILC_PACKET_REKEY_DONE []]
                  else fail SILC_SKE_STATUS_ERROR s error
              end
          end
      end
  | _, _, _, _ => None
  end.

Definition silc_ske_st_rekey_initiator_done := rekey_done false initiator_error rekey_initiator_end.

(** [silc_ske_st_rekey_initiator_end] and [silc_ske_st_rekey_responder_end]. *)
Definition rekey_end (responder : bool) (error this : st) (c : config PK SK) (s : SilcSKE)
    : option res :=
  match packet s, rekey s, prop s, keymat s, sk_receive (stream s), sk_hmac_receive (stream s) with
  | Some p, Some rk, Some pr, Some km, Some receive_key, Some hmac_receive =>
      if negb (pkt_type p =? SILC_PACKET_REKEY_DONE) then old_packet s this
      else
        let pr' := with_keys receive_key hmac_receive pr in
        match silc_ske_set_keys (cf_al c) responder true (default [] (ske_hash s)) km pr'
                want_receiving with
        | None => fail SILC_SKE_STATUS_ERROR s error
        | Some k =>
            let s := set_stream (silc_packet_set_keys None (ret_receive_key k) None
                                   (ret_hmac_receive k) (stream s)) s in
            match silc_ske_make_rekey_material (Some pr') km with
            | None => fail SILC_SKE_STATUS_OUT_OF_MEMORY s error
            | Some new =>
                let new := mkRekey (rk_ske_group new) (rk_pfs rk) (rk_hash new) (rk_send_enc_key new)
                             (rk_enc_key_len new) in
                finish (set_packet None (set_rekey (Some new) s)) this []
            end
        end
  | _, _, _, _, _, _ => None
  end.

Definition silc_ske_st_rekey_initiator_end := rekey_end false initiator_error rekey_initiator_end.

Definition silc_ske_st_rekey_responder_wait (s : SilcSKE) : option res :=
  match rekey s with
  | None => None
  | Some _ =>
      if aborted s then go s responder_aborted
      else match packet s with
      | Some p => if pkt_type p =? SILC_PACKET_REKEY then go s rekey_responder_start
                  else wait s rekey_responder_start []
      | None => wait s rekey_responder_start []
      end
  end.

(** The REKEY packet stays in the context. *)
Definition silc_ske_st_rekey_responder_start (c : config PK SK) (s : SilcSKE) : option res :=
  match rekey s, packet s with
  | Some rk, Some p =>
      if negb (pkt_type p =? SILC_PACKET_REKEY)
      then fail SILC_SKE_STATUS_ERROR (set_packet None s) responder_error
      else match rekey_prop c rk (stream s) with
      | None => None
      | Some None => fail SILC_SKE_STATUS_OUT_OF_MEMORY s responder_error
      | Some (Some pr) =>
          let s := set_prop (Some pr) s in
          if negb (rk_pfs rk) then go s rekey_responder_done
          else match silc_ske_group_get_by_number (rk_ske_group rk) with
          | SkeErr _ => go s responder_error              (* [ske->status] is not set *)
          | SkeOk g => wait (set_prop (Some (with_group g pr)) s) responder_phase2 []
          end
      end
  | _, _ => None
  end.

Definition silc_ske_st_rekey_responder_done := rekey_done true responder_error rekey_responder_end.
Definition silc_ske_st_rekey_responder_end := rekey_end true responder_error rekey_responder_end.

(** ** Running *)

Definition handler (c : config PK SK) (i : inputs PK) (state : st) (s : SilcSKE) : option res :=
  match state with
  | initiator_start => silc_ske_st_initiator_start i s
  | initiator_phase1 => silc_ske_st_initiator_phase1 c s
  | initiator_phase2 => silc_ske_st_initiator_phase2 c i s
  | initiator_phase3 => silc_ske_st_initiator_phase3 c s
  | initiator_phase4 => silc_ske_st_initiator_phase4 i s
  | initiator_end => silc_ske_st_initiator_end s
  | initiator_aborted => silc_ske_st_initiator_aborted i s
  | initiator_error => silc_ske_st_initiator_error i s
  | initiator_failure => silc_ske_st_initiator_failure s
  | responder_start => silc_ske_st_responder_start s
  | responder_phase1 => silc_ske_st_responder_phase1 c i s
  | responder_phase2 => silc_ske_st_responder_phase2 c s
  | responder_phase4 => silc_ske_st_responder_phase4 i s
  | responder_phase5 => silc_ske_st_responder_phase5 c i s
  | responder_end => silc_ske_st_responder_end i s
  | responder_aborted => silc_ske_st_responder_aborted i s
  | responder_failure => silc_ske_st_responder_failure s
  | responder_error => silc_ske_st_responder_error i s
  | rekey_initiator_start => silc_ske_st_rekey_initiator_start c i s
  | rekey_initiator_done => silc_ske_st_rekey_initiator_done c i s
  | rekey_initiator_end => silc_ske_st_rekey_initiator_end c s
  | rekey_responder_wait => silc_ske_st_rekey_responder_wait s
  | rekey_responder_start => silc_ske_st_rekey_responder_start c s
  | rekey_responder_done => silc_ske_st_rekey_responder_done c i s
  | rekey_responder_end => silc_ske_st_rekey_responder_end c s
  end.

(** [silc_ske_pk_verified] and [silc_ske_skr_callback]. *)
Definition silc_ske_pk_verified (verdict : Z) (s : SilcSKE) : SilcSKE := set_status verdict s.

(** The machine runs until a handler waits or finishes. *)
Fixpoint run (fuel : nat) (c : config PK SK) (i : inputs PK) (state : st) (s : SilcSKE)
    : option res :=
  match fuel with
  | O => None
  | S fuel =>
      match handler c i state s with
      | None => None
      | Some r =>
          let more s :=
            match run fuel c i (r_next r) s with
            | None => None
            | Some r' => Some (mkRes (r_ske r') (r_next r') (r_act r') (r_out r ++ r_out r')
                                 (r_done r ++ r_done r'))
            end in
          match r_act r with
          | CONTINUE => more (r_ske r)
          | VERIFY =>
              match peer_key (r_ske r) with
              | None => None
              | Some pk => more (silc_ske_pk_verified (in_verdict i pk) (r_ske r))
              end
          | WAIT | FINISH => Some r
          end
      end
  end.

(** [silc_ske_notify_failure]: the state that the machine goes on in. *)
Definition silc_ske_notify_failure (responder : bool) (state : st) (s : SilcSKE)
    : st * SilcSKE :=
  if failure_notified s then (state, s)
  else (if responder then responder_failure else initiator_failure, set_failure_notified true s).

(** [silc_ske_packet_receive]: a packet for a machine that waits in [state].
    No path of handlers that continue is longer than six. *)
Definition silc_ske_packet_receive (c : config PK SK) (i : inputs PK) (responder : bool)
    (state : st) (s : SilcSKE) (p : ske_packet) : option res :=
  let s := set_packet (Some p) s in
  if aborted s then
    run 6 c i (if responder then responder_aborted else initiator_aborted) (set_packet None s)
  else if pkt_type p =? SILC_PACKET_FAILURE then
    let '(state, s) := silc_ske_notify_failure responder state s in run 6 c i state s
  else run 6 c i state s.

(** [silc_ske_timeout]. *)
Definition silc_ske_timeout (c : config PK SK) (i : inputs PK) (responder : bool) (state : st)
    (s : SilcSKE) : option res :=
  let s := set_status SILC_SKE_STATUS_TIMEOUT (set_packet None s) in
  let '(state, s) := silc_ske_notify_failure responder state s in run 6 c i state s.

Definition silc_ske_abort (s : SilcSKE) : SilcSKE := set_aborted true s.

(** [silc_ske_alloc]: nothing but the configuration is set. *)
Definition silc_ske_alloc : SilcSKE :=
  mkSke SILC_SKE_STATUS_OK None None None None None None 0 None None None None None None
    false false no_keys.

(** [silc_ske_initiator], up to the start of the machine; [rnd] is what the
    random number generator gives for the cookie, and [ske->session_port] is in
    the configuration. *)
Definition silc_ske_initiator (c : config PK SK) (flags : Z) (rnd : list Z)
    (start : option SilcSKEStartPayload) (s : SilcSKE) : option SilcSKE :=
  match start with
  | Some p => Some (set_start_payload (Some p) s)
  | None =>
      match silc_ske_assemble_security_properties (cf_al c) rnd (cf_session_port c) flags
              (cf_version c) with
      | Some p => Some (set_start_payload (Some p) s)
      | None => None
      end
  end.

(** [silc_ske_rekey_initiator] and [silc_ske_rekey_responder]: the context is a
    new one, with the material that the last exchange left and the keys that are
    in use; the machines start in [rekey_initiator_start] and
    [rekey_responder_wait]. *)
Definition silc_ske_rekey_initiator (rk : SilcSKERekeyMaterial) (keys : stream_keys)
    (s : SilcSKE) : SilcSKE := set_stream keys (set_rekey (Some rk) s).
Definition silc_ske_rekey_responder (rk : SilcSKERekeyMaterial) (keys : stream_keys)
    (p : option ske_packet) (s : SilcSKE) : SilcSKE :=
  set_packet p (set_stream keys (set_rekey (Some rk) s)).
End Exchange.
Arguments SilcSKE PK : clear implicits.
