(* ===== verification/SkeThms.v ===== *)
(** * The key exchange completes, and what it proves of the peer

    An exchange of two sides over a network that delivers every packet in order
    ends on both with the same keys, whatever algorithms are registered, as long
    as the two have one of each kind in common.  Against any network, a side
    that completes with key material has verified the peer's signature. *)

From Stdlib Require Import Ascii String.
From S2P Require Import Prelude CTypes Memory Buffer BuffFmt Hmac Mp SkePayload Registry SkeNegotiate SkeKeys Ske.
Import Format Unformat RoundTrip Encoding.
Local Open Scope Z_scope.

(** ** Packets *)

Lemma pkt_buffer_whole type d : pkt_buffer (mkPacket type d) = whole d.
Proof. by apply set_whole. Qed.

Lemma packet_of_whole type d :
  zlen d < 4294967296 -> packet_of type (whole d) = mkPacket type d.
Proof. intros H. unfold packet_of. by rewrite whole_len, whole_data, ztake_ge by done. Qed.

Lemma copy_whole d : zlen d < SILC_MAX_ALLOC -> silc_buffer_copy (whole d) = Some (whole d).
Proof.
  intros H. unfold SILC_MAX_ALLOC in H. zlen_facts. unfold silc_buffer_copy.
  rewrite whole_len, whole_data, alloc_size_areas by (unfold SILC_MAX_ALLOC; lia).
  pose proof (put_areas [] (zeros (zlen d)) [] [] d ltac:(rewrite !zlen_nil; lia)
    ltac:(rewrite zlen_zeros; lia)) as E.
  rewrite !app_nil_r in E. by rewrite E.
Qed.

(** ** Registered algorithms *)

(** What a side's registries need for an exchange: names that fit the payloads,
    hash functions that are what their standards say, and key lengths that the
    derivation reaches. *)
Class Suite (al : algorithms) := {
  suite_ok : al_ok al;
  suite_hash n o :
    find_name ho_name (elements (al_hashes al)) n = Some o -> HashLaws (ho_context o);
  suite_reach n m c h :
    silc_cipher_alloc (al_ciphers al) n = Some c -> silc_hash_alloc (al_hashes al) m = Some h ->
    0 < silc_cipher_get_block_len c <= 64 /\ 0 < silc_cipher_get_key_len c /\
    silc_cipher_get_key_len c / 8 <= 3 * digest_len_of h
}.

(** Objects of the same name are the same in two registries. *)
Definition agree {A} (name : A -> list Z) (r1 r2 : option (list (nat * A))) : Prop :=
  forall a b, a ∈ (elements r1).*2 -> b ∈ (elements r2).*2 ->
    c_string (name a) = c_string (name b) -> a = b.

Definition from_registries (al : algorithms) (p : SilcSKESecurityProperties) : Prop :=
  exists n m, silc_cipher_alloc (al_ciphers al) n = Some (pr_cipher p) /\
              silc_hash_alloc (al_hashes al) m = Some (pr_hash p).

Lemma sbind_ok {A B} (r : ske_result A) (k : A -> ske_result B) b :
  sbind r k = SkeOk b -> exists a, r = SkeOk a /\ k a = SkeOk b.
Proof. destruct r as [a|]; [|done]. by exists a. Qed.

Lemma or_err_ok {A} (o : option A) e a : or_err o e = SkeOk a -> o = Some a.
Proof. destruct o; cbn; congruence. Qed.

(** Takes a chain of [sbind]s apart. *)
Ltac sbinds :=
  repeat match goal with
  | H : sbind _ _ = SkeOk _ |- _ =>
      let a := fresh "a" in let E := fresh "E" in
      apply sbind_ok in H as (a & E & H)
  | H : or_err _ _ = SkeOk _ |- _ => apply or_err_ok in H
  | H : SkeOk _ = SkeOk _ |- _ => injection H as H
  end; subst.

Lemma selection_inv al version sp s prop s' :
  selection al version sp s = SkeOk (prop, s') ->
  from_registries al prop /\ pr_flags prop = s_flags s /\ s_version s' = c_string version /\
  exists grp, chosen (fun x => group_known (x ++ [0])) (s_grp s) = Some grp /\
              silc_ske_group_get_by_name (grp ++ [0]) = SkeOk (pr_group prop).
Proof.
  unfold selection. destruct (silc_parse_version_string _); [|done]. intros H. sbinds.
  simplify_eq. split; [by eexists _, _|]. split; [done|]. split; [done|]. by eexists.
Qed.

Lemma take_selection_inv al port p prop :
  take_selection al port p = SkeOk prop ->
  from_registries al prop /\ pr_flags prop = sp_flags p.
Proof.
  unfold take_selection. intros H. sbinds. simplify_eq. split; [by eexists _, _|done].
Qed.

(** The group that two sides come to: the first of the table. *)
Definition first_group : SilcSKEDiffieHellmanGroup :=
  List.hd (mkGroup 0 [] 0 0 0) silc_ske_groups.

Lemma first_group_facts :
  0 < g_group first_group < 2 ^ (8 * 200) /\ 0 <= g_generator first_group.
Proof. vm_compute. intuition congruence. Qed.

Lemma first_group_chosen grp g :
  chosen (fun x => group_known (x ++ [0])) (StrUtil.join 44 group_names) = Some grp ->
  silc_ske_group_get_by_name (grp ++ [0]) = SkeOk g -> g = first_group.
Proof.
  assert (E : chosen (fun x => group_known (x ++ [0])) (StrUtil.join 44 group_names) =
    Some (g_name first_group)) by (vm_compute; reflexivity).
  rewrite E. intros H. assert (Hg : grp = g_name first_group) by congruence. subst grp.
  assert (F : silc_ske_group_get_by_name (g_name first_group ++ [0]) = SkeOk first_group)
    by (vm_compute; reflexivity).
  rewrite F. congruence.
Qed.

(** Same names, same objects, so same lengths and digests. *)
Lemma same_objects ali alr p q :
  agree ho_name (al_hashes ali) (al_hashes alr) ->
  agree co_name (al_ciphers ali) (al_ciphers alr) ->
  from_registries ali p -> from_registries alr q -> same_prop p q ->
  pr_hash p = pr_hash q /\ sc_object (pr_cipher p) = sc_object (pr_cipher q).
Proof.
  intros Hh Hc (n & m & Cp & Mp) (n' & m' & Cq & Mq) (_ & _ & Ec & Eh & _).
  unfold silc_cipher_alloc, silc_hash_alloc in *.
  destruct (find_name co_name _ n) as [c|] eqn:F1; [|done].
  destruct (find_name co_name _ n') as [c'|] eqn:F2; [|done].
  destruct (find_name ho_name _ m) as [h|] eqn:F3; [|done].
  destruct (find_name ho_name _ m') as [h'|] eqn:F4; [|done].
  apply find_name_some in F1 as [I1 _], F2 as [I2 _], F3 as [I3 _], F4 as [I4 _].
  destruct p, q; cbn in *. simplify_eq. unfold silc_cipher_get_name, silc_hash_get_name in *.
  cbn in *. rewrite (Hh h h') by done. by rewrite (Hc c c').
Qed.

Lemma suite_lawful {al} `{!Suite al} p : from_registries al p -> inhabited (lawful (pr_hash p)).
Proof.
  intros (_ & m & _ & E). constructor. unfold silc_hash_alloc in E.
  destruct (find_name _ _ m) as [o|] eqn:F; [|done]. injection E as E. unfold lawful.
  rewrite <- E. by eapply suite_hash.
Qed.

Lemma suite_lengths {al} `{!Suite al} p :
  from_registries al p ->
  0 < silc_cipher_get_block_len (pr_cipher p) <= 64 /\
  0 < silc_cipher_get_key_len (pr_cipher p) /\
  silc_cipher_get_key_len (pr_cipher p) / 8 <= 3 * digest_len_of (pr_hash p) /\
  CTypes.strlen (silc_hash_get_name (pr_hash p)) < 8192.
Proof.
  intros (n & m & C & M). destruct (suite_reach n m _ _ C M) as (? & ? & ?).
  split; [done|]. split; [done|]. split; [done|].
  destruct (suite_ok (al := al)) as (U & _). unfold silc_hash_alloc in M.
  destruct (find_name _ _ m) as [o|] eqn:F; [|done]. injection M as M. rewrite <- M.
  apply find_name_some in F as [I _]. cbn.
  assert (Io : c_string (ho_name o) ∈ offers ho_name (al_hashes al)).
  { unfold offers, names. apply list_elem_of_fmap in I as ((k & o') & -> & I).
    apply list_elem_of_fmap. by exists (k, o'). }
  apply (usable_item _ _ _ U) in Io as [Io _]. exact (proj2 Io).
Qed.

(** ** The negotiation of an exchange *)

Lemma forced_flags_range own flags : 0 <= flags < 256 -> 0 <= forced_flags own flags < 256.
Proof.
  intros H. unfold forced_flags.
  assert (L : forall a b, 0 <= a < 256 -> 0 <= b < 256 -> 0 <= Z.lor a b < 256).
  { intros a b Ha Hb. split; [apply Z.lor_nonneg; lia|].
    change 256 with (2 ^ 8). destruct (Z.eqb_spec (Z.lor a b) 0) as [->|]; [lia|].
    apply Z.log2_lt_pow2; [pose proof (proj2 (Z.lor_nonneg a b)); lia|].
    rewrite Z.log2_lor by lia.
    pose proof (Z.log2_le_mono a 255). pose proof (Z.log2_le_mono b 255).
    change (Z.log2 255) with 7 in *. lia. }
  assert (A : forall a b, 0 <= a < 256 -> 0 <= Z.land a b < 256).
  { intros a b Ha. split; [apply Z.land_nonneg; lia|].
    pose proof (Z.land_nonneg a b). change 256 with (2 ^ 8).
    destruct (Z.eqb_spec (Z.land a b) 0) as [->|]; [lia|].
    rewrite <- (Z.mod_small a (2 ^ 8)) by lia. rewrite <- Z.land_ones by lia.
    rewrite <- Z.land_assoc, (Z.land_comm (Z.ones 8)), Z.land_assoc, Z.land_ones by lia.
    apply Z.mod_pos_bound. lia. }
  unfold SILC_SKE_SP_FLAG_MUTUAL, SILC_SKE_SP_FLAG_PFS.
  repeat case_match; repeat (apply A || apply L); lia.
Qed.

(** The properties that the two sides come to, with the payloads between
    them. *)
Record negotiated (ali alr : algorithms) (vi vr : list Z) (spi spr flags own : Z)
    (rnd : list Z) (p reply : SilcSKEStartPayload) (s s' : start)
    (pi pr : SilcSKESecurityProperties) : Prop := {
  ng_s : s = proposal ali rnd spi flags vi;
  ng_assemble : silc_ske_assemble_security_properties ali rnd spi flags vi = Some p;
  ng_payload : payload_of s p;
  ng_ok : start_ok s;
  ng_bytes : start_bytes s;
  ng_select : silc_ske_select_security_properties alr vr spr
      (start_of (start_size s) (with_flags (forced_flags own (s_flags s)) s)) =
    SkeOk (pr, reply, Some (c_string vi ++ [0]));
  ng_payload' : payload_of s' reply;
  ng_ok' : start_ok s';
  ng_bytes' : start_bytes s';
  ng_take : take_selection ali (session_remote_port spi (s_flags s') (default [] (cookie p)))
      (start_of (start_size s') s') = SkeOk pi;
  ng_flags' : s_flags s' = forced_flags own (s_flags s);
  ng_cookie' : s_cookie s' = session_cookie spr (s_flags s') (s_cookie s);
  ng_version' : s_version s' = c_string vr;
  ng_same : same_prop pr pi;
  ng_from : from_registries ali pi /\ from_registries alr pr;
  ng_group : pr_group pr = first_group;
  ng_prflags : pr_flags pr = s_flags s'
}.

Lemma negotiated_ok ali alr `{!Suite ali} `{!Suite alr} vi vr spi spr flags own rnd :
  version_ok vi -> version_ok vr -> 16 <= zlen rnd -> bytes_ok rnd ->
  in_common pa_name (al_pkcs ali) (al_pkcs alr) ->
  in_common co_name (al_ciphers ali) (al_ciphers alr) ->
  in_common ho_name (al_hashes ali) (al_hashes alr) ->
  in_common mo_name (al_hmacs ali) (al_hmacs alr) ->
  exists p reply s s' pi pr,
    negotiated ali alr vi vr spi spr flags own rnd p reply s s' pi pr.
Proof.
  intros Hvi Hvr Hn Hb Cp Cc Ch Cm.
  pose proof (assemble_ok ali rnd spi flags vi suite_ok Hvi Hn Hb)
    as (Hs & Hsb & Hcl & Hsz & p & Ep & Hp).
  remember (proposal ali rnd spi flags vi) as s eqn:Es.
  set (fl := forced_flags own (s_flags s)).
  assert (Hf : 0 <= fl < 256) by (apply forced_flags_range, Hs).
  pose proof Hs as (Hs1 & Hs2 & Hs3 & Hs4). pose proof Hvr as (_ & Hvb & Hvl).
  assert (Hz : start_size (with_flags fl s) + CTypes.strlen vr < 65536)
    by (unfold CTypes.strlen; change (start_size (with_flags fl s)) with (start_size s); lia).
  pose proof (select_ok alr vr spr (start_size s) (with_flags fl s)
    (conj Hf (conj Hs2 (conj Hs3 Hs4))) Hcl Hz) as S.
  pose proof (fun len port => selection_agrees ali alr rnd spi flags vi vr spr fl len port
    suite_ok suite_ok Hvi Hvr Hn Hb Hf) as A. rewrite <- Es in A.
  destruct (silc_ske_select_security_properties _ _ _ _) as [[[pr reply] rv]|e] eqn:Esel; cycle 1.
  { specialize (A 0 0). rewrite S in A. exfalso. naive_solver. }
  destruct S as (-> & s' & E & Hp'). pose proof (selection_inv _ _ _ _ _ _ E)
    as (Fr & Efl & Ev & grp & Eg & Eg').
  specialize (A (start_size s') (session_remote_port spi (s_flags s') (default [] (cookie p)))).
  rewrite E in A. destruct A as (pi & At & Asame & Af & Ac & Aok & Ab).
  pose proof (take_selection_inv _ _ _ _ At) as (Fi & _).
  exists p, reply, s, s', pi, pr. split; try done.
  - fold fl. rewrite Esel. cbn [with_flags s_version]. rewrite Es. done.
  - rewrite Af, Ac, Es. done.
  - eapply first_group_chosen; [|exact Eg']. rewrite <- Eg. cbn [with_flags s_grp]. by rewrite Es.
  - rewrite Efl, Af. done.
Qed.

(** ** The steps of an exchange *)

(** What a side brings: its version, its private key, a network that takes its
    packets, its approval of the peer's key, and an exponent [x] whose public
    value is as long as the payload asks. *)
Definition willing {PK SK} (c : config PK SK) (prv : SK) (i : inputs PK) (x : Z) (peer : PK)
    : Prop :=
  version_ok (cf_version c) /\ cf_private_key c = Some prv /\ in_sent i = true /\
  in_verdict i peer = SILC_SKE_STATUS_OK /\
  silc_ske_create_rnd (in_rnd i) (g_group_order first_group)
    (silc_mp_sizeinbase_2 (g_group_order first_group)) = SkeOk x /\
  2 ^ 120 <= silc_mp_pow_mod (g_generator first_group) x (g_group first_group).

Ltac ske := cbn [set_status set_prop set_peer_key set_start_payload set_start_payload_copy
  set_ke1_payload set_ke2_payload set_ske_x set_KEY set_ske_hash set_remote_version set_keymat
  set_rekey set_packet set_aborted set_failure_notified set_stream stream status prop peer_key start_payload
  start_payload_copy ke1_payload ke2_payload ske_x KEY ske_hash remote_version keymat rekey
  packet aborted failure_notified r_ske r_next r_act r_out r_done pkt_type pkt_data
  pk_len pk_data pk_type ke_x sign_len sign_data negb andb orb].

Section Meeting.
Context {PK SK : Type} `{SkePkcs PK SK}.
Abbreviation public x := (silc_mp_pow_mod (g_generator first_group) x (g_group first_group)).
Abbreviation shared v x := (silc_mp_pow_mod v x (g_group first_group)).

Lemma public_size x : mp_size (public x) <= 200.
Proof.
  destruct first_group_facts as [F _]. apply mp_size_le; [|done].
  pose proof (pow_mod_range (g_generator first_group) x (g_group first_group)). lia.
Qed.

Lemma shared_size v x : mp_size (shared v x) <= 200.
Proof.
  destruct first_group_facts as [F _]. apply mp_size_le; [|done].
  pose proof (pow_mod_range v x (g_group first_group)). lia.
Qed.

Lemma public_nonneg x : 0 <= public x.
Proof.
  destruct first_group_facts as [F _].
  pose proof (pow_mod_range (g_generator first_group) x (g_group first_group)). lia.
Qed.

(** The payload of a side: its key, its public value and its signature. *)
Definition own_ke (pub : PK) (prv : SK) `{!SkePair pub prv} (x : Z) (sign : list Z) : ke :=
  mkK (silc_pkcs_get_type pub) (pair_data (pub := pub) (prv := prv)) (mp_bytes (public x)) sign.

Definition ke_struct (pub : PK) (prv : SK) `{!SkePair pub prv} (x : Z) (sign : list Z)
    : SilcSKEKEPayload :=
  mkKE (zlen (pair_data (pub := pub) (prv := prv))) (Some (pair_data (pub := pub) (prv := prv)))
    (silc_pkcs_get_type pub) (public x) (zlen sign)
    (if bool_decide (sign = []) then None else Some sign).

Lemma own_ke_ok pub prv `{!SkePair pub prv} x sign sp :
  zlen sign <= 2048 -> bytes_ok sign -> 2 ^ 120 <= public x ->
  (mutual sp = true -> 3 <= zlen sign) ->
  let k := own_ke pub prv x sign in
  zlen (enc_ke k) < 65536 /\
  silc_ske_payload_ke_encode sp (Some (ke_struct pub prv x sign)) = SkeOk (whole (enc_ke k)) /\
  silc_ske_payload_ke_decode sp (whole (enc_ke k)) =
    SkeOk (mkKE (zlen (k_pk k)) (block (k_pk k)) (k_type k) (public x) (zlen sign) (block sign)).
Proof.
  intros Hs Hb He Hm k. destruct (pair_data_ok (pub := pub) (prv := prv)) as [Hd Hdb].
  pose proof (pair_type (pub := pub) (prv := prv)) as Ht. pose proof (public_size x).
  pose proof (mp_size_ge (public x) 16 He ltac:(lia)). pose proof (mp_bytes_len (public x)).
  assert (Hf : ke_fits k) by (unfold ke_fits, k, own_ke; cbn [k_pk k_type k_x k_sign]; lia).
  split; [|split].
  - rewrite zlen_enc_ke. unfold k, own_ke. cbn [k_pk k_x k_sign]. lia.
  - apply ke_encode_ok with (v := public x); [done| |].
    + unfold ke_payload_of, k, own_ke, ke_struct. cbn [k_x k_pk k_type k_sign]. ske.
      split; [done|]. split; [done|]. split; [done|]. split; split; [done| |done|].
      * left. exists []. by rewrite app_nil_r.
      * case_bool_decide; [by right|]. left. exists []. by rewrite app_nil_r.
    + intros M. specialize (Hm M). unfold ke_struct. ske. case_bool_decide; [|done].
      subst sign. rewrite zlen_nil in Hm. lia.
  - rewrite (ke_decode_encoded sp k (public x)); [|apply public_nonneg|done|done|done|done].
    replace (ke_acceptable sp k) with true; [done|]. unfold ke_acceptable, k, own_ke.
    cbn [k_type k_pk k_x k_sign].
    rewrite (proj2 (Z.leb_le 1 _)), (proj2 (Z.leb_le _ 5)), (proj2 (Z.leb_le 1 (zlen _))),
      (proj2 (Z.leb_le 16 _)) by lia.
    rewrite orb_true_r. cbn [andb]. symmetry. destruct (mutual sp); [|done].
    apply Z.leb_le. by apply Hm.
Qed.
End Meeting.

(** ** The exchange over a network *)

(** A side: where its machine waits, its context, whether it has finished, and
    what it has reported. *)
Record peer (PK : Type) := mkPeer {
  p_state : st; p_ske : SilcSKE PK; p_finished : bool; p_result : list completion
}.
Arguments mkPeer {PK}.
Arguments p_state {PK}.
Arguments p_ske {PK}.
Arguments p_finished {PK}.
Arguments p_result {PK}.

Section Network.
Context {PK SK : Type} `{SkePkcs PK SK} (ci cr : config PK SK) (ii ir : inputs PK).

Definition peer_of (r : res (PK := PK)) : peer PK :=
  mkPeer (r_next r) (r_ske r) (match r_act r with FINISH => true | _ => false end) (r_done r).

(** Packets are delivered in order, each to the responder ([true]) or the
    initiator; a side that has finished takes none. *)
Fixpoint deliver (fuel : nat) (queue : list (bool * ske_packet)) (mi mr : peer PK)
    : option (peer PK * peer PK) :=
  match queue, fuel with
  | [], _ => Some (mi, mr)
  | _, O => None
  | (to_r, pk) :: queue, S fuel =>
      let m := if to_r then mr else mi in
      if p_finished m then deliver fuel queue mi mr
      else
        match silc_ske_packet_receive (if to_r then cr else ci) (if to_r then ir else ii) to_r
                (p_state m) (p_ske m) pk with
        | None => None
        | Some r =>
            let queue := queue ++ (pair (negb to_r) <$> r_out r) in
            if to_r then deliver fuel queue mi (peer_of r) else deliver fuel queue (peer_of r) mr
        end
  end.

Definition exchange (fuel : nat) (flags : Z) (rnd : list Z) : option (peer PK * peer PK) :=
  match silc_ske_initiator ci flags rnd None silc_ske_alloc with
  | None => None
  | Some s =>
      match run 6 ci ii initiator_start s, run 6 cr ir responder_start silc_ske_alloc with
      | Some i, Some r =>
          deliver fuel ((pair true <$> r_out i) ++ (pair false <$> r_out r)) (peer_of i)
            (peer_of r)
      | _, _ => None
      end
  end.
End Network.

Section Running.
Context {PK SK : Type} `{SkePkcs PK SK} (c : config PK SK) (i : inputs PK).

Lemma run_go n state s next s' :
  handler c i state s = go s' next -> run (S n) c i state s = run n c i next s'.
Proof.
  intros E. cbn [run]. rewrite E. unfold go. ske. destruct (run n c i next s') as [[]|]; done.
Qed.

Lemma run_verify n state s next s' pk :
  handler c i state s = Some (mkRes s' next VERIFY [] []) -> peer_key s' = Some pk ->
  run (S n) c i state s = run n c i next (set_status (in_verdict i pk) s').
Proof.
  intros E Ek. cbn [run]. rewrite E. cbn [r_act r_ske]. rewrite Ek. unfold silc_ske_pk_verified. ske.
  destruct (run n c i next _) as [[]|]; done.
Qed.

Lemma run_last n state s r :
  handler c i state s = Some r -> r_act r = WAIT \/ r_act r = FINISH ->
  run (S n) c i state s = Some r.
Proof. intros E Ha. cbn [run]. rewrite E. by destruct Ha as [-> | ->]. Qed.
End Running.

Section Steps.
Context {PK SK : Type} `{SkePkcs PK SK} (ci cr : config PK SK) (pri prr : SK)
  `{!Suite (cf_al ci)} `{!Suite (cf_al cr)}
  `{!SkePair (cf_public_key ci) pri} `{!SkePair (cf_public_key cr) prr}
  (ii ir : inputs PK) (xi xr flags : Z) (rnd : list Z) (p reply : SilcSKEStartPayload)
  (s s' : start) (pi pr : SilcSKESecurityProperties).
Hypothesis Hn : negotiated (cf_al ci) (cf_al cr) (cf_version ci) (cf_version cr)
  (cf_session_port ci) (cf_session_port cr) flags (cf_flags cr) rnd p reply s s' pi pr.
Hypothesis Wi : willing ci pri ii xi (pair_peer (pub := cf_public_key cr) (prv := prr)).
Hypothesis Wr : willing cr prr ir xr (pair_peer (pub := cf_public_key ci) (prv := pri)).
Hypothesis Hport : cf_session_port cr <> 0 -> cf_session_port ci <> 0.
Abbreviation d1 := (enc_start 0 (start_size s) s).
Abbreviation d2 := (enc_start 0 (start_size s') s').
Abbreviation sp' := (start_of (start_size s') s').

Definition at_phase1 : SilcSKE PK :=
  mkSke SILC_SKE_STATUS_OK None None (Some p) (Some (whole d1)) None None 0 None None None None
    None None false false no_keys.

Definition at_phase2 : SilcSKE PK :=
  mkSke SILC_SKE_STATUS_OK (Some pi) None (Some sp') (Some (whole d1)) None None 0 None None
    (Some (c_string (cf_version cr) ++ [0])) None None None false false no_keys.

Definition r_at_phase2 : SilcSKE PK :=
  mkSke SILC_SKE_STATUS_OK (Some pr) None (Some reply) (Some (whole d1)) None None 0 None None
    (Some (c_string (cf_version ci) ++ [0])) None None None false false no_keys.

Lemma d1_len : zlen d1 = start_size s /\ 0 < start_size s < 65536.
Proof.
  destruct Hn. destruct ng_ok0 as (_ & Hc & Hs & _). split; [by apply zlen_enc_start|].
  unfold start_size in *. zlen_facts. lia.
Qed.

Lemma d2_len : zlen d2 = start_size s' /\ 0 < start_size s' < 65536.
Proof.
  destruct Hn. destruct ng_ok'0 as (_ & Hc & Hs & _). split; [by apply zlen_enc_start|].
  unfold start_size in *. zlen_facts. lia.
Qed.

Lemma step_start :
  run 6 ci ii initiator_start (set_start_payload (Some p) silc_ske_alloc) =
  Some (mkRes at_phase1 initiator_phase1 WAIT [mkPacket SILC_PACKET_KEY_EXCHANGE d1] []).
Proof.
  pose proof d1_len as [L ?]. destruct Hn, Wi as (_ & _ & Hs & _).
  apply run_last; [|by left]. cbn [handler]. unfold silc_ske_st_initiator_start, silc_ske_alloc.
  ske. rewrite (start_encode_ok s p), Hs, packet_of_whole by (done || lia). done.
Qed.

Lemma step_select :
  silc_ske_packet_receive cr ir true responder_phase1 silc_ske_alloc
    (mkPacket SILC_PACKET_KEY_EXCHANGE d1) =
  Some (mkRes r_at_phase2 responder_phase2 WAIT [mkPacket SILC_PACKET_KEY_EXCHANGE d2] []).
Proof.
  pose proof d1_len as [L ?]. pose proof d2_len as [L' ?]. destruct Hn, Wr as (_ & _ & Hs & _).
  unfold silc_ske_packet_receive, silc_ske_alloc. ske. cbn [Z.eqb].
  change (SILC_PACKET_KEY_EXCHANGE =? SILC_PACKET_FAILURE) with false. cbn iota.
  apply run_last; [|by left]. cbn [handler]. unfold silc_ske_st_responder_phase1. ske.
  rewrite pkt_buffer_whole, decode_encoded, copy_whole by (done || unfold SILC_MAX_ALLOC; lia).
  change (set_sp_flags _ (start_of (start_size s) s)) with
    (start_of (start_size s) (with_flags (forced_flags (cf_flags cr) (s_flags s)) s)).
  rewrite ng_select0, (start_encode_ok s' reply), Hs, packet_of_whole by (done || lia). done.
Qed.

Lemma cookie_returned :
  let port := has_flag (s_flags s') SILC_SKE_SP_FLAG_IV_INCLUDED &&
              negb (cf_session_port ci =? 0) in
  let coff := if port then 2 else 0 in
  zslice coff (SILC_SKE_COOKIE_LEN - coff) (default [] (cookie p)) =
  zslice coff (SILC_SKE_COOKIE_LEN - coff) (default [] (block (s_cookie s'))).
Proof.
  destruct Hn. cbn zeta. destruct ng_ok0 as (_ & Hc & _), ng_payload0 as (_ & _ & Dc & _).
  assert (Ec : exists t, default [] (cookie p) = s_cookie s ++ t).
  { destruct Dc as [_ [[t ->]|[_ E]]]; [by exists t|]. by rewrite E in Hc. }
  destruct Ec as [t ->]. destruct ng_ok'0 as (_ & Hc' & _).
  assert (Eb : default [] (block (s_cookie s')) = s_cookie s' ++ [0]).
  { unfold block. rewrite decide_False; [done|]. intros E. by rewrite E in Hc'. }
  rewrite Eb. unfold SILC_SKE_COOKIE_LEN.
  assert (Z : forall k (x y : list Z), 0 <= k <= 16 -> zlen x = 16 ->
    zslice k (16 - k) (x ++ y) = zdrop k x).
  { intros k x y Hk Hx. unfold zslice. rewrite zdrop_app_l, ztake_app_exact; [done| |lia].
    rewrite zlen_drop; lia. }
  rewrite !Z by first [done | case_match; lia]. rewrite ng_cookie'0. unfold session_cookie.
  destruct (has_flag (s_flags s') SILC_SKE_SP_FLAG_IV_INCLUDED) eqn:Ef; [|done]. cbn [andb].
  destruct (Z.eqb_spec (cf_session_port cr) 0) as [E|E]; [done|]. specialize (Hport E).
  rewrite (proj2 (Z.eqb_neq _ _)) by done. cbn [negb]. unfold splice.
  rewrite ztake_0 by lia. cbn [app]. change (0 + zlen (SILC_PUT16_MSB _)) with 2.
  by rewrite zdrop_app_exact.
Qed.

Lemma version_taken :
  silc_memdup (default [] (SkePayload.version sp')) (version_len sp') =
    Some (c_string (cf_version cr) ++ [0]) /\
  silc_ske_check_version (Some (c_string (cf_version cr) ++ [0])) (Some (cf_version ci)) =
    SILC_SKE_STATUS_OK.
Proof.
  destruct Hn, Wr as (Hv & _). pose proof (version_positive _ Hv). pose proof Hv as (Hp & _ & Hl).
  cbn [start_of SkePayload.version version_len]. rewrite ng_version'0.
  rewrite memdup_block by lia. split; [done|]. unfold silc_ske_check_version.
  assert (Vp : silc_parse_version_string (c_string (cf_version cr) ++ [0]) = true).
  { unfold silc_parse_version_string in *. by rewrite c_string_end by apply c_string_nonzero. }
  by rewrite Vp.
Qed.

Lemma step_take :
  silc_ske_packet_receive ci ii false initiator_phase1 at_phase1
    (mkPacket SILC_PACKET_KEY_EXCHANGE d2) = run 5 ci ii initiator_phase2 at_phase2.
Proof.
  pose proof d2_len as [L' ?]. pose proof cookie_returned as C. cbn zeta in C.
  destruct version_taken as [V1 V2]. destruct Hn, Wi as (_ & _ & Hs & _).
  unfold silc_ske_packet_receive, at_phase1. ske.
  change (SILC_PACKET_KEY_EXCHANGE =? SILC_PACKET_FAILURE) with false. cbn iota.
  apply run_go. cbn [handler]. unfold silc_ske_st_initiator_phase1. ske.
  change (SILC_PACKET_KEY_EXCHANGE =? SILC_PACKET_KEY_EXCHANGE) with true. cbn [negb].
  rewrite pkt_buffer_whole, decode_encoded by done.
  change (sp_flags sp') with (s_flags s'). change (cookie sp') with (block (s_cookie s')).
  rewrite C, bool_decide_eq_true_2 by done. cbn [negb]. ske. rewrite V1, V2.
  change (negb (SILC_SKE_STATUS_OK =? SILC_SKE_STATUS_OK)) with false. cbn iota.
  unfold session_remote_port in ng_take0. rewrite ng_take0. done.
Qed.

Abbreviation public x := (silc_mp_pow_mod (g_generator first_group) x (g_group first_group)).
Abbreviation K := (silc_mp_pow_mod (public xi) xr (g_group first_group)).
Abbreviation pub_i := (cf_public_key ci).
Abbreviation pub_r := (cf_public_key cr).
Abbreviation data_i := (pair_data (pub := pub_i) (prv := pri)).
Abbreviation data_r := (pair_data (pub := pub_r) (prv := prr)).

Definition hash_i : list Z :=
  digest_of (pr_hash pr) (hash_input true d1 data_i data_i (public xi) (public xi) 0).
Definition hash_both : list Z :=
  digest_of (pr_hash pr) (hash_input false d1 data_i data_r (public xi) (public xr) K).

Definition good_sign (sg : list Z) (required : bool) : Prop :=
  zlen sg <= 2048 /\ bytes_ok sg /\ (required = true -> 3 <= zlen sg).

Definition at_phase3 (sg : list Z) : SilcSKE PK :=
  mkSke SILC_SKE_STATUS_OK (Some pi) None (Some sp') (Some (whole d1))
    (Some (ke_struct pub_i pri xi sg)) None xi None None
    (Some (c_string (cf_version cr) ++ [0])) None None None false false no_keys.

(** The initiator's hash and group are the responder's; what needs the network
    and the registries is left behind here. *)
Lemma same_pi :
  agree ho_name (al_hashes (cf_al ci)) (al_hashes (cf_al cr)) ->
  agree co_name (al_ciphers (cf_al ci)) (al_ciphers (cf_al cr)) ->
  pr_hash pi = pr_hash pr /\ pr_group pi = first_group /\ pr_flags pi = s_flags s' /\
  sc_object (pr_cipher pi) = sc_object (pr_cipher pr).
Proof.
  intros Hh Hc. destruct Hn, ng_from0 as [Fi Fr].
  assert (Hs : same_prop pi pr).
  { destruct ng_same0 as (?&?&?&?&?). repeat split; by symmetry. }
  destruct (same_objects _ _ _ _ Hh Hc Fi Fr Hs) as [-> Eo].
  destruct Hs as (-> & -> & _). by rewrite ng_group0, ng_prflags0.
Qed.

Hypothesis Ah : agree ho_name (al_hashes (cf_al ci)) (al_hashes (cf_al cr)).
Hypothesis Ac : agree co_name (al_ciphers (cf_al ci)) (al_ciphers (cf_al cr)).

Lemma ke_struct_data pub prv `{!SkePair pub prv} x sg :
  data_of (pair_data (pub := pub) (prv := prv)) (pk_len (ke_struct pub prv x sg))
    (pk_data (ke_struct pub prv x sg)).
Proof. split; [done|]. left. exists []. by rewrite app_nil_r. Qed.

Lemma hash_i_ok ke :
  data_of data_i (pk_len ke) (pk_data ke) -> ke_x ke = public xi ->
  silc_ske_make_hash (pr_hash pr) (Some (whole d1)) ke ke 0 true = SkeOk hash_i.
Proof.
  intros D E. pose proof d1_len. pose proof (public_size xi).
  pose proof (pair_data_ok (pub := pub_i) (prv := pri)) as [? _].
  rewrite (make_hash_ok _ _ ke ke 0 true data_i data_i) by (rewrite ?E; done || lia).
  by rewrite E.
Qed.

Lemma hash_both_ok ke1 ke2 :
  data_of data_i (pk_len ke1) (pk_data ke1) -> ke_x ke1 = public xi ->
  data_of data_r (pk_len ke2) (pk_data ke2) -> ke_x ke2 = public xr ->
  silc_ske_make_hash (pr_hash pr) (Some (whole d1)) ke1 ke2 K false = SkeOk hash_both.
Proof.
  intros D1 E1 D2 E2. pose proof d1_len. pose proof (public_size xi). pose proof (public_size xr).
  pose proof (shared_size (public xi) xr).
  pose proof (pair_data_ok (pub := pub_i) (prv := pri)) as [? _].
  pose proof (pair_data_ok (pub := pub_r) (prv := prr)) as [? _].
  rewrite (make_hash_ok _ _ ke1 ke2 K false data_i data_r) by (rewrite ?E1, ?E2; done || lia).
  by rewrite E1, E2.
Qed.

Lemma pub_fits pub prv `{!SkePair pub prv} :
  u16 (zlen (pair_data (pub := pub) (prv := prv))) = zlen (pair_data (pub := pub) (prv := prv)) /\
  u16 (silc_pkcs_get_type pub) = silc_pkcs_get_type pub.
Proof.
  pose proof (pair_data_ok (pub := pub) (prv := prv)) as [? _].
  pose proof (pair_type (pub := pub) (prv := prv)). split; apply u16_id; lia.
Qed.

Lemma signed_struct pub prv `{!SkePair pub prv} x sg :
  3 <= zlen sg <= 2048 ->
  mkKE (zlen (pair_data (pub := pub) (prv := prv))) (Some (pair_data (pub := pub) (prv := prv)))
    (silc_pkcs_get_type pub) (public x) (u16 (zlen sg)) (Some sg) = ke_struct pub prv x sg.
Proof.
  intros Hz. unfold ke_struct. rewrite u16_id by lia.
  rewrite bool_decide_eq_false_2; [done|]. intros ->. rewrite zlen_nil in Hz. lia.
Qed.

Lemma step_ke1 :
  exists sg, good_sign sg (mutual (Some sp')) /\
    (mutual (Some sp') = true ->
     silc_pkcs_verify (pair_peer (pub := pub_i) (prv := pri)) sg hash_i = true) /\
    run 5 ci ii initiator_phase2 at_phase2 =
    Some (mkRes (at_phase3 sg) initiator_phase3 WAIT
            [mkPacket SILC_PACKET_KEY_EXCHANGE_1 (enc_ke (own_ke pub_i pri xi sg))] []).
Proof.
  destruct (same_pi Ah Ac) as (Eh & Eg & Ef & _). destruct Wi as (_ & Ek & Hs & _ & Hx & He).
  destruct (pub_fits pub_i pri) as [F1 F2].
  assert (M : has_flag (pr_flags pi) SILC_SKE_SP_FLAG_MUTUAL = mutual (Some sp'))
    by (by rewrite Ef).
  destruct (pair_sign (pub := pub_i) (prv := pri) hash_i) as (sg & Sg & Lg & Bg & Vg).
  assert (R : forall sg, good_sign sg (mutual (Some sp')) ->
    (if mutual (Some sp') then sg <> [] /\ silc_pkcs_sign pri hash_i = Some sg else sg = []) ->
    run 5 ci ii initiator_phase2 at_phase2 =
    Some (mkRes (at_phase3 sg) initiator_phase3 WAIT
            [mkPacket SILC_PACKET_KEY_EXCHANGE_1 (enc_ke (own_ke pub_i pri xi sg))] [])).
  { intros g (G1 & G2 & G3) Hg.
    destruct (own_ke_ok pub_i pri xi g (Some sp') G1 G2 He G3) as (Hz & E & _).
    apply run_last; [|by left]. cbn [handler]. unfold silc_ske_st_initiator_phase2, at_phase2. ske.
    rewrite Eg, Hx, (pair_encode (pub := pub_i) (prv := pri)), Ek, F1, F2, M, Eh.
    destruct (mutual (Some sp')) eqn:Em.
    - destruct Hg as [_ Hg]. specialize (G3 eq_refl).
      rewrite hash_i_ok by (done || apply (ke_struct_data pub_i pri xi [])).
      rewrite Hg, signed_struct by lia. rewrite E, Hs, packet_of_whole by lia. done.
    - subst g. change (mkKE _ _ _ _ _ _) with (ke_struct pub_i pri xi []).
      rewrite E, Hs, packet_of_whole by lia. done. }
  destruct (mutual (Some sp')) eqn:Em.
  - exists sg. assert (good_sign sg true) by (repeat split; lia || done).
    split; [done|]. split; [done|]. apply R; [done|]. split; [|done].
    intros ->. rewrite zlen_nil in Lg. lia.
  - exists []. assert (good_sign [] false) by (split; [by rewrite zlen_nil|]; by split; [constructor|]).
    split; [done|]. split; [done|]. by apply R.
Qed.

(** The payload of a side as the other has decoded it. *)
Definition decoded_ke (pub : PK) (prv : SK) `{!SkePair pub prv} (x : Z) (sg : list Z)
    : SilcSKEKEPayload :=
  mkKE (zlen (pair_data (pub := pub) (prv := prv))) (block (pair_data (pub := pub) (prv := prv)))
    (silc_pkcs_get_type pub) (public x) (zlen sg) (block sg).

Lemma decoded_data pub prv `{!SkePair pub prv} x sg :
  block (pair_data (pub := pub) (prv := prv)) =
    Some (pair_data (pub := pub) (prv := prv) ++ [0]) /\
  data_of (pair_data (pub := pub) (prv := prv)) (pk_len (decoded_ke pub prv x sg))
    (pk_data (decoded_ke pub prv x sg)).
Proof.
  pose proof (pair_data_ok (pub := pub) (prv := prv)) as [Hd _].
  assert (E : block (pair_data (pub := pub) (prv := prv)) =
    Some (pair_data (pub := pub) (prv := prv) ++ [0])).
  { unfold block. rewrite decide_False; [done|]. intros E. apply (f_equal zlen) in E. rewrite zlen_nil in E. lia. }
  split; [done|]. unfold decoded_ke. ske. rewrite E. apply data_of_block_item.
Qed.

Lemma ztake_sign (sg : list Z) : ztake (zlen sg) (default [] (block sg)) = sg.
Proof. rewrite block_take by done. by rewrite ztake_ge. Qed.

Definition r_at_phase4 (sg : list Z) : SilcSKE PK :=
  mkSke SILC_SKE_STATUS_OK (Some pr) (Some (pair_peer (pub := pub_i) (prv := pri))) (Some reply)
    (Some (whole d1)) (Some (decoded_ke pub_i pri xi sg)) None 0 None None
    (Some (c_string (cf_version ci) ++ [0])) None None None false false no_keys.

Definition r_at_phase5 (sg : list Z) : SilcSKE PK :=
  mkSke SILC_SKE_STATUS_OK (Some pr) (Some (pair_peer (pub := pub_i) (prv := pri))) (Some reply)
    (Some (whole d1)) (Some (decoded_ke pub_i pri xi sg))
    (Some (mkKE 0 None 0 (public xr) 0 None)) xr (Some K) None
    (Some (c_string (cf_version ci) ++ [0])) None None None false false no_keys.

Definition r_at_end (sg sg' : list Z) : SilcSKE PK :=
  mkSke SILC_SKE_STATUS_OK (Some pr) (Some (pair_peer (pub := pub_i) (prv := pri))) (Some reply)
    (Some (whole d1)) (Some (decoded_ke pub_i pri xi sg)) (Some (ke_struct pub_r prr xr sg')) xr
    (Some K) (Some hash_both)
    (Some (c_string (cf_version ci) ++ [0])) None None None false false no_keys.

Lemma mutual_reply : mutual (Some reply) = mutual (Some sp').
Proof. destruct Hn. destruct ng_payload'0 as (E & _). cbn. by rewrite E. Qed.

Lemma step_ke1_received sg :
  good_sign sg (mutual (Some sp')) ->
  silc_ske_packet_receive cr ir true responder_phase2 r_at_phase2
    (mkPacket SILC_PACKET_KEY_EXCHANGE_1 (enc_ke (own_ke pub_i pri xi sg))) =
  run 5 cr ir responder_phase4 (r_at_phase4 sg).
Proof.
  intros (G1 & G2 & G3).
  destruct Wi as (_ & _ & _ & _ & _ & He), Wr as (_ & _ & _ & Hv & _).
  rewrite <- mutual_reply in G3.
  destruct (own_ke_ok pub_i pri xi sg (Some reply) G1 G2 He G3) as (Hz & _ & E).
  destruct (decoded_data pub_i pri xi sg) as [Eb _].
  unfold silc_ske_packet_receive, r_at_phase2. ske.
  change (SILC_PACKET_KEY_EXCHANGE_1 =? SILC_PACKET_FAILURE) with false. cbn iota.
  assert (Eh : forall s0,
    start_payload s0 = Some reply -> rekey s0 = None ->
    packet s0 = Some (mkPacket SILC_PACKET_KEY_EXCHANGE_1 (enc_ke (own_ke pub_i pri xi sg))) ->
    silc_ske_st_responder_phase2 cr s0 =
    let s1 := set_peer_key (Some (pair_peer (pub := pub_i) (prv := pri)))
      (set_ke1_payload (Some (decoded_ke pub_i pri xi sg)) (set_packet None s0)) in
    if cf_repository cr || cf_verify_key cr
    then Some (mkRes s1 responder_phase4 VERIFY [] []) else go s1 responder_phase4).
  { intros s0 Es Er Ep. unfold silc_ske_st_responder_phase2. rewrite Ep. ske.
    change (negb (SILC_PACKET_KEY_EXCHANGE_1 =? SILC_PACKET_KEY_EXCHANGE_1)) with false. cbn iota.
    rewrite pkt_buffer_whole, Es, E. ske. rewrite Er. ske. cbn [own_ke k_pk k_type]. rewrite Eb.
    cbn [k_pk]. rewrite ztake_app_exact by done.
    rewrite (pair_alloc (pub := pub_i) (prv := pri)). unfold decoded_ke. rewrite Eb. done. }
  destruct (cf_repository cr || cf_verify_key cr) eqn:Ev.
  - erewrite run_verify; [|cbn [handler]; by rewrite Eh|reflexivity]. rewrite Hv. done.
  - erewrite run_go; [|cbn [handler]; by rewrite Eh]. done.
Qed.

Lemma create_rnd_range d n l x : silc_ske_create_rnd d n l = SkeOk x -> 0 <= x.
Proof.
  unfold silc_ske_create_rnd. case_match; [done|]. case_match eqn:E; [done|]. intros [= <-]. lia.
Qed.

Lemma step_phase4 n sg :
  (mutual (Some sp') = true ->
   silc_pkcs_verify (pair_peer (pub := pub_i) (prv := pri)) sg hash_i = true) ->
  run (S n) cr ir responder_phase4 (r_at_phase4 sg) =
  run n cr ir responder_phase5 (r_at_phase5 sg).
Proof.
  intros Hg. destruct Hn, Wr as (_ & _ & _ & _ & Hx & _).
  destruct (decoded_data pub_i pri xi sg) as [Eb D].
  apply run_go. cbn [handler]. unfold silc_ske_st_responder_phase4, r_at_phase4. ske.
  change (negb (SILC_SKE_STATUS_OK =? SILC_SKE_STATUS_OK)) with false. cbn iota.
  rewrite mutual_reply, hash_i_ok by done.
  replace (ztake (sign_len (decoded_ke pub_i pri xi sg))
    (default [] (sign_data (decoded_ke pub_i pri xi sg)))) with sg by (symmetry; apply ztake_sign).
  assert (E : (if mutual (Some sp')
               then if silc_pkcs_verify (pair_peer (pub := pub_i) (prv := pri)) sg hash_i
                    then Some SILC_SKE_STATUS_OK else Some SILC_SKE_STATUS_INCORRECT_SIGNATURE
               else Some SILC_SKE_STATUS_OK) = Some SILC_SKE_STATUS_OK).
  { destruct (mutual (Some sp')); [|done]. by rewrite Hg. }
  rewrite E. change (negb (SILC_SKE_STATUS_OK =? SILC_SKE_STATUS_OK)) with false. cbn iota.
  rewrite ng_group0, Hx. done.
Qed.

Lemma step_ke2 n sg :
  exists sg', good_sign sg' (mutual (Some sp')) /\
    silc_pkcs_verify (pair_peer (pub := pub_r) (prv := prr)) sg' hash_both = true /\
    run (S n) cr ir responder_phase5 (r_at_phase5 sg) =
    Some (mkRes (r_at_end sg sg') responder_end WAIT
            [mkPacket SILC_PACKET_KEY_EXCHANGE_2 (enc_ke (own_ke pub_r prr xr sg'))] []).
Proof.
  destruct Wr as (_ & Ek & Hs & _ & _ & He). destruct (pub_fits pub_r prr) as [F1 F2].
  destruct (pair_sign (pub := pub_r) (prv := prr) hash_both) as (sg' & Sg & Lg & Bg & Vg).
  exists sg'. split; [by repeat split; lia || done|]. split; [done|].
  destruct (own_ke_ok pub_r prr xr sg' (Some reply) ltac:(lia) Bg He ltac:(lia)) as (Hz & E & _).
  destruct (decoded_data pub_i pri xi sg) as [_ D].
  apply run_last; [|by left]. cbn [handler]. unfold silc_ske_st_responder_phase5, r_at_phase5. ske.
  rewrite Ek, (pair_encode (pub := pub_r) (prv := prr)), F1, F2.
  rewrite hash_both_ok; [|done|done|apply (ke_struct_data pub_r prr xr [])|done].
  rewrite Sg. ske. rewrite signed_struct, E, Hs, packet_of_whole by lia. done.
Qed.

Lemma same_secret :
  silc_mp_pow_mod (public xr) xi (g_group first_group) = K.
Proof.
  destruct Wi as (_ & _ & _ & _ & Hi & _), Wr as (_ & _ & _ & _ & Hr & _).
  apply pow_mod_comm; [by eapply create_rnd_range..|]. apply first_group_facts.
Qed.

Definition at_phase4 (sg sg' : list Z) : SilcSKE PK :=
  mkSke SILC_SKE_STATUS_OK (Some pi) (Some (pair_peer (pub := pub_r) (prv := prr))) (Some sp')
    (Some (whole d1)) (Some (ke_struct pub_i pri xi sg)) (Some (decoded_ke pub_r prr xr sg')) xi
    (Some K) None (Some (c_string (cf_version cr) ++ [0])) None None None false false no_keys.

Lemma step_ke2_received sg sg' :
  good_sign sg' (mutual (Some sp')) ->
  silc_ske_packet_receive ci ii false initiator_phase3 (at_phase3 sg)
    (mkPacket SILC_PACKET_KEY_EXCHANGE_2 (enc_ke (own_ke pub_r prr xr sg'))) =
  run 5 ci ii initiator_phase4 (at_phase4 sg sg').
Proof.
  intros (G1 & G2 & G3). destruct (same_pi Ah Ac) as (_ & Eg & _).
  destruct Wr as (_ & _ & _ & _ & _ & He), Wi as (_ & _ & _ & Hv & _).
  destruct (own_ke_ok pub_r prr xr sg' (Some sp') G1 G2 He G3) as (Hz & _ & E).
  destruct (decoded_data pub_r prr xr sg') as [Eb _].
  unfold silc_ske_packet_receive, at_phase3. ske.
  change (SILC_PACKET_KEY_EXCHANGE_2 =? SILC_PACKET_FAILURE) with false. cbn iota.
  assert (Eh : forall s0,
    start_payload s0 = Some sp' -> prop s0 = Some pi -> ske_x s0 = xi ->
    packet s0 = Some (mkPacket SILC_PACKET_KEY_EXCHANGE_2 (enc_ke (own_ke pub_r prr xr sg'))) ->
    silc_ske_st_initiator_phase3 ci s0 =
    let s1 := set_peer_key (Some (pair_peer (pub := pub_r) (prv := prr))) (set_KEY (Some K)
      (set_ke2_payload (Some (decoded_ke pub_r prr xr sg')) (set_packet None s0))) in
    if cf_verify_key ci || cf_repository ci
    then Some (mkRes s1 initiator_phase4 VERIFY [] []) else go s1 initiator_phase4).
  { intros s0 Es Er Ex Ep. unfold silc_ske_st_initiator_phase3. rewrite Ep, Er. ske.
    change (negb (SILC_PACKET_KEY_EXCHANGE_2 =? SILC_PACKET_KEY_EXCHANGE_2)) with false. cbn iota.
    rewrite pkt_buffer_whole, Es, E. ske. cbn [own_ke k_pk k_type]. rewrite Eb.
    rewrite bool_decide_eq_false_2 by done. cbn [andb].
    rewrite Eg, Ex, same_secret, ztake_app_exact by done.
    rewrite (pair_alloc (pub := pub_r) (prv := prr)). unfold decoded_ke. rewrite Eb. done. }
  destruct (cf_verify_key ci || cf_repository ci) eqn:Ev.
  - erewrite run_verify; [|cbn [handler]; by rewrite Eh|reflexivity]. rewrite Hv. done.
  - erewrite run_go; [|cbn [handler]; by rewrite Eh]. done.
Qed.

(** The keys of the exchange. *)
Definition exchange_keys : SilcSKEKeyMaterial :=
  keymat_spec (pr_hash pr) (mp_bytes K ++ hash_both)
    (silc_cipher_get_block_len (pr_cipher pr)) (silc_cipher_get_key_len (pr_cipher pr)).

Lemma exchange_keys_ok :
  exists rk, forall q,
    pr_hash q = pr_hash pr -> pr_group q = pr_group pr -> pr_flags q = pr_flags pr ->
    sc_object (pr_cipher q) = sc_object (pr_cipher pr) ->
    silc_ske_process_key_material q K hash_both (silc_cipher_get_block_len (pr_cipher q))
      (silc_cipher_get_key_len (pr_cipher q)) (digest_len_of (pr_hash q)) true =
    Some (exchange_keys, Some rk).
Proof.
  destruct Hn, ng_from0 as [_ Fr]. destruct (suite_lawful pr Fr) as [L].
  destruct (suite_lengths pr Fr) as (B & Kl & R & Nl). pose proof (shared_size (public xi) xr).
  pose proof d1_len. pose proof (public_size xi). pose proof (public_size xr).
  pose proof (pair_data_ok (pub := pub_i) (prv := pri)) as [? _].
  pose proof (pair_data_ok (pub := pub_r) (prv := prr)) as [? _].
  pose proof (digest_range (pr_hash pr)).
  assert (Hh : zlen hash_both = digest_len_of (pr_hash pr)).
  { unfold hash_both, hash_input. apply (digest_of_len _), hashable_small.
    rewrite !zlen_app, !mp_bytes_len. lia. }
  assert (Hx : zlen (mp_bytes K ++ hash_both) < 2000000)
    by (rewrite zlen_app, mp_bytes_len, Hh; lia).
  destruct (rekey_material_ok pr _ (silc_cipher_get_block_len (pr_cipher pr)) _ Hx Kl R Nl)
    as [rk Erk].
  exists rk. intros q Q1 Q2 Q3 Q4.
  pose proof (key_material_ok pr K hash_both (silc_cipher_get_block_len (pr_cipher pr))
    (silc_cipher_get_key_len (pr_cipher pr)) true ltac:(lia) ltac:(lia) B Kl R) as E.
  cbn zeta in E. rewrite Erk in E. fold exchange_keys in E. rewrite <- E.
  unfold silc_ske_process_key_material, silc_ske_make_rekey_material,
    silc_cipher_get_block_len, silc_cipher_get_key_len. by rewrite Q1, Q2, Q3, Q4.
Qed.

Definition at_end (sg sg' : list Z) (rk : SilcSKERekeyMaterial) : SilcSKE PK :=
  mkSke SILC_SKE_STATUS_OK (Some pi) (Some (pair_peer (pub := pub_r) (prv := prr))) (Some sp')
    (Some (whole d1)) (Some (ke_struct pub_i pri xi sg)) (Some (decoded_ke pub_r prr xr sg')) xi
    (Some K) (Some hash_both) (Some (c_string (cf_version cr) ++ [0])) (Some exchange_keys)
    (Some rk) None false false no_keys.

Definition success : ske_packet :=
  mkPacket SILC_PACKET_SUCCESS (SILC_PUT32_MSB SILC_SKE_STATUS_OK).

(** Key material of the initiator's properties too. *)
Lemma keys_of_both :
  exists rk,
    silc_ske_process_key_material pi K hash_both (silc_cipher_get_block_len (pr_cipher pi))
      (silc_cipher_get_key_len (pr_cipher pi)) (digest_len_of (pr_hash pi)) true =
      Some (exchange_keys, Some rk) /\
    silc_ske_process_key_material pr K hash_both (silc_cipher_get_block_len (pr_cipher pr))
      (silc_cipher_get_key_len (pr_cipher pr)) (digest_len_of (pr_hash pr)) true =
      Some (exchange_keys, Some rk).
Proof.
  destruct exchange_keys_ok as [rk E]. exists rk. destruct (same_pi Ah Ac) as (E1 & E2 & E3 & E4).
  destruct Hn. split; apply E; congruence.
Qed.

Lemma step_finish_i n sg sg' rk :
  silc_pkcs_verify (pair_peer (pub := pub_r) (prv := prr)) sg' hash_both = true ->
  silc_ske_process_key_material pi K hash_both (silc_cipher_get_block_len (pr_cipher pi))
    (silc_cipher_get_key_len (pr_cipher pi)) (digest_len_of (pr_hash pi)) true =
    Some (exchange_keys, Some rk) ->
  run (S n) ci ii initiator_phase4 (at_phase4 sg sg') =
  Some (mkRes (at_end sg sg' rk) initiator_end WAIT [success] []).
Proof.
  intros Hg Ek. destruct (same_pi Ah Ac) as (Eh & _). destruct Wi as (_ & _ & Hs & _).
  apply run_last; [|by left]. cbn [handler]. unfold silc_ske_st_initiator_phase4, at_phase4. ske.
  change (negb (SILC_SKE_STATUS_OK =? SILC_SKE_STATUS_OK)) with false. cbn iota.
  rewrite Eh at 1. rewrite hash_both_ok;
    [|apply (ke_struct_data pub_i pri xi sg)|done|apply (decoded_data pub_r prr xr sg')|done].
  replace (ztake (sign_len (decoded_ke pub_r prr xr sg'))
    (default [] (sign_data (decoded_ke pub_r prr xr sg')))) with sg'
    by (symmetry; apply ztake_sign).
  rewrite Hg. ske. rewrite Ek, Hs. done.
Qed.

Lemma step_finish_r sg sg' rk :
  silc_ske_process_key_material pr K hash_both (silc_cipher_get_block_len (pr_cipher pr))
    (silc_cipher_get_key_len (pr_cipher pr)) (digest_len_of (pr_hash pr)) true =
    Some (exchange_keys, Some rk) ->
  exists r,
    silc_ske_packet_receive cr ir true responder_end (r_at_end sg sg') success = Some r /\
    r_act r = FINISH /\ r_out r = [success] /\
    r_done r = [mkDone SILC_SKE_STATUS_OK (Some pr) (Some exchange_keys) (Some rk)] /\
    peer_key (r_ske r) = Some (pair_peer (pub := pub_i) (prv := pri)) /\
    KEY (r_ske r) = Some K.
Proof.
  intros Ek. destruct Wr as (_ & _ & Hs & _). eexists. split.
  - unfold silc_ske_packet_receive, r_at_end. ske.
    change (pkt_type success =? SILC_PACKET_FAILURE) with false. cbn iota.
    eapply run_last.
    + cbn [handler]. unfold silc_ske_st_responder_end. ske.
      change (negb (pkt_type success =? SILC_PACKET_SUCCESS)) with false. cbn iota.
      rewrite Ek. reflexivity.
    + by right.
  - ske. unfold ske_send, silc_ske_completion. ske. rewrite Hs. done.
Qed.

Lemma step_end sg sg' rk :
  exists r,
    silc_ske_packet_receive ci ii false initiator_end (at_end sg sg' rk) success = Some r /\
    r_act r = FINISH /\ r_out r = [] /\
    r_done r = [mkDone SILC_SKE_STATUS_OK (Some pi) (Some exchange_keys) (Some rk)] /\
    peer_key (r_ske r) = Some (pair_peer (pub := pub_r) (prv := prr)) /\
    KEY (r_ske r) = Some K.
Proof.
  eexists. split.
  - unfold silc_ske_packet_receive, at_end. ske.
    change (pkt_type success =? SILC_PACKET_FAILURE) with false. cbn iota.
    eapply run_last.
    + cbn [handler]. unfold silc_ske_st_initiator_end. ske.
      change (negb (pkt_type success =? SILC_PACKET_SUCCESS)) with false. cbn iota. reflexivity.
    + by right.
  - done.
Qed.

(** One delivery to a side that waits. *)
Lemma deliver_one fuel (to_r : bool) pk queue (mi mr : peer PK) r :
  p_finished (if to_r then mr else mi) = false ->
  silc_ske_packet_receive (if to_r then cr else ci) (if to_r then ir else ii) to_r
    (p_state (if to_r then mr else mi)) (p_ske (if to_r then mr else mi)) pk = Some r ->
  deliver ci cr ii ir (S fuel) ((to_r, pk) :: queue) mi mr =
  deliver ci cr ii ir fuel (queue ++ (pair (negb to_r) <$> r_out r))
    (if to_r then mi else peer_of r) (if to_r then peer_of r else mr).
Proof. intros Hf E. cbn [deliver]. rewrite Hf, E. by destruct to_r. Qed.

Lemma deliver_all :
  exists mi mr rk,
    deliver ci cr ii ir 6 [(true, mkPacket SILC_PACKET_KEY_EXCHANGE d1)]
      (mkPeer initiator_phase1 at_phase1 false [])
      (mkPeer responder_phase1 silc_ske_alloc false []) = Some (mi, mr) /\
    p_finished mi = true /\ p_finished mr = true /\
    p_result mi = [mkDone SILC_SKE_STATUS_OK (Some pi) (Some exchange_keys) (Some rk)] /\
    p_result mr = [mkDone SILC_SKE_STATUS_OK (Some pr) (Some exchange_keys) (Some rk)] /\
    peer_key (p_ske mi) = Some (pair_peer (pub := pub_r) (prv := prr)) /\
    peer_key (p_ske mr) = Some (pair_peer (pub := pub_i) (prv := pri)) /\
    KEY (p_ske mi) = Some K /\ KEY (p_ske mr) = Some K.
Proof.
  destruct step_ke1 as (sg & G1 & V1 & S1).
  pose proof (step_ke1_received sg G1) as S2. rewrite (step_phase4 4 sg V1) in S2.
  destruct (step_ke2 3 sg) as (sg' & G2 & V2 & S3). rewrite S3 in S2.
  pose proof (step_ke2_received sg sg' G2) as S4.
  destruct keys_of_both as (rk & Ki & Kr). rewrite (step_finish_i 4 sg sg' rk V2 Ki) in S4.
  destruct (step_finish_r sg sg' rk Kr) as (rr & S5 & A5 & O5 & D5 & P5 & K5).
  destruct (step_end sg sg' rk) as (ri & S6 & A6 & O6 & D6 & P6 & K6).
  exists (peer_of ri), (peer_of rr), rk. split.
  - erewrite deliver_one; [|done|exact step_select]. cbn [app fmap list_fmap r_out negb].
    erewrite deliver_one; [|done|rewrite <- S1; exact step_take].
    cbn [app fmap list_fmap r_out negb].
    erewrite deliver_one; [|done|exact S2]. cbn [app fmap list_fmap r_out negb].
    erewrite deliver_one; [|done|exact S4]. cbn [app fmap list_fmap r_out negb].
    erewrite deliver_one; [|done|exact S5]. rewrite O5. cbn [app fmap list_fmap negb].
    erewrite deliver_one; [|done|exact S6]. rewrite O6. done.
  - unfold peer_of. cbn [p_finished p_result p_ske]. by rewrite A5, A6.
Qed.

End Steps.

(** C1: an exchange completes: two sides that know each other's kind of keys,
    have an algorithm of each kind in common and approve each other's public
    keys both finish, after six packets, with status OK, the same properties, the
    other's public key, the shared secret of the two exponents and the same key
    material, whatever the flags and the algorithms registered besides. *)
Theorem exchange_completes {PK SK : Type} `{SkePkcs PK SK} (ci cr : config PK SK)
    (pri prr : SK) `{!Suite (cf_al ci)} `{!Suite (cf_al cr)}
    `{!SkePair (cf_public_key ci) pri} `{!SkePair (cf_public_key cr) prr}
    (ii ir : inputs PK) (xi xr flags : Z) (rnd : list Z) :
  agree ho_name (al_hashes (cf_al ci)) (al_hashes (cf_al cr)) ->
  agree co_name (al_ciphers (cf_al ci)) (al_ciphers (cf_al cr)) ->
  in_common pa_name (al_pkcs (cf_al ci)) (al_pkcs (cf_al cr)) ->
  in_common co_name (al_ciphers (cf_al ci)) (al_ciphers (cf_al cr)) ->
  in_common ho_name (al_hashes (cf_al ci)) (al_hashes (cf_al cr)) ->
  in_common mo_name (al_hmacs (cf_al ci)) (al_hmacs (cf_al cr)) ->
  willing ci pri ii xi (pair_peer (pub := cf_public_key cr) (prv := prr)) ->
  willing cr prr ir xr (pair_peer (pub := cf_public_key ci) (prv := pri)) ->
  (cf_session_port cr <> 0 -> cf_session_port ci <> 0) -> 16 <= zlen rnd -> bytes_ok rnd ->
  exists mi mr p q km rk,
    exchange ci cr ii ir 6 flags rnd = Some (mi, mr) /\
    p_finished mi = true /\ p_finished mr = true /\
    p_result mi = [mkDone SILC_SKE_STATUS_OK (Some p) (Some km) (Some rk)] /\
    p_result mr = [mkDone SILC_SKE_STATUS_OK (Some q) (Some km) (Some rk)] /\ same_prop q p /\
    peer_key (p_ske mi) = Some (pair_peer (pub := cf_public_key cr) (prv := prr)) /\
    peer_key (p_ske mr) = Some (pair_peer (pub := cf_public_key ci) (prv := pri)) /\
    KEY (p_ske mi) = KEY (p_ske mr) /\
    KEY (p_ske mi) = Some (g_generator first_group ^ (xi * xr) mod g_group first_group).
Proof.
  intros Ah Ac Cp Cc Ch Cm Wi Wr Hport Hrnd Hb.
  destruct (negotiated_ok (cf_al ci) (cf_al cr) (cf_version ci) (cf_version cr)
    (cf_session_port ci) (cf_session_port cr) flags (cf_flags cr) rnd (proj1 Wi) (proj1 Wr)
    Hrnd Hb Cp Cc Ch Cm) as (p & reply & s & s' & pi & pr & Hn).
  destruct (deliver_all ci cr pri prr ii ir xi xr _ _ _ _ _ _ _ _ Hn Wi Wr Hport Ah Ac)
    as (mi & mr & rk & E & Fi & Fr & Ri & Rr & Pi & Pr & Ki & Kr).
  exists mi, mr, pi, pr, (exchange_keys ci cr pri prr xi xr s pr), rk. split.
  - unfold exchange, silc_ske_initiator.
    rewrite (ng_assemble _ _ _ _ _ _ _ _ _ _ _ _ _ _ _ Hn).
    rewrite (step_start ci cr pri prr ii xi _ _ _ _ _ _ _ _ Hn Wi). exact E.
  - split; [done|]. split; [done|]. split; [done|]. split; [done|]. split; [by destruct Hn|].
    split; [done|]. split; [done|]. split; [by rewrite Ki|]. rewrite Ki.
    destruct Wi as (_ & _ & _ & _ & Xi & _), Wr as (_ & _ & _ & _ & Xr & _).
    by rewrite pow_mod_pow by (eapply create_rnd_range || apply first_group_facts; done).
Qed.

(** ** The example's sides *)

(** A scheme in which a key signs with itself: keys are byte strings and a
    signature is the key and the sum of the message's bytes. *)
Definition ex_sum (m : list Z) : Z := u8 (foldr Z.add 0 m).

#[export] Instance ex_pkcs : SkePkcs (list Z) (list Z) := {
  silc_pkcs_public_key_encode pk := Some pk;
  silc_pkcs_get_type _ := SILC_SKE_PK_TYPE_SILC;
  silc_pkcs_public_key_alloc _ d := Some d;
  silc_pkcs_sign sk m := Some (sk ++ [ex_sum m]);
  silc_pkcs_verify pk s m := bool_decide (s = pk ++ [ex_sum m])
}.

Definition ex_key (k : list Z) : Prop := 2 <= zlen k < 2000 /\ bytes_ok k.

Lemma ex_sign k m : ex_key k ->
  exists s, silc_pkcs_sign k m = Some s /\ 3 <= zlen s <= 2048 /\ bytes_ok s /\
            silc_pkcs_verify k s m = true.
Proof.
  intros [Hl Hb]. exists (k ++ [ex_sum m]). split; [done|].
  split; [rewrite zlen_app; change (zlen [ex_sum m]) with 1; lia|]. split.
  - apply Forall_app_2; [done|]. apply list.Forall_cons. split; [apply u8_range|done].
  - by apply bool_decide_eq_true_2.
Qed.

Lemma ex_data k : ex_key k -> 0 < zlen k < 8192 /\ bytes_ok k.
Proof. intros [Hl Hb]. split; [lia|done]. Qed.

Lemma ex_type : 1 <= SILC_SKE_PK_TYPE_SILC <= 5.
Proof. done. Qed.

Definition ex_pair (k : list Z) (Hk : ex_key k) : SkePair k k :=
  {| pair_data := k; pair_encode := eq_refl; pair_data_ok := ex_data k Hk; pair_type := ex_type;
     pair_peer := k; pair_alloc := eq_refl; pair_sign := fun m => ex_sign k m Hk |}.

Lemma ex_keys : ex_key [1; 2; 3] /\ ex_key [4; 5].
Proof. split; (split; [done|by_compute]). Qed.

#[export] Instance default_suite : Suite default_algorithms.
Proof.
  split; [exact default_usable| |].
  - intros n o.
    assert (E : elements (al_hashes default_algorithms) =
      [(0%nat, sha256_object); (1%nat, sha1_object); (2%nat, md5_object)]) by reflexivity.
    rewrite E. cbn [find_name].
    repeat (destruct (streq _ n);
      [match goal with |- Some ?x = Some ?y -> _ =>
         intros F; assert (y = x) as -> by (by injection F) end;
       first [exact Sha256.sha256_laws | exact Sha1.sha1_laws | exact Md5.md5_laws]|]).
    done.
  - intros n m c h. unfold silc_cipher_alloc, silc_hash_alloc.
    assert (E : elements (al_hashes default_algorithms) =
      [(0%nat, sha256_object); (1%nat, sha1_object); (2%nat, md5_object)]) by reflexivity.
    assert (Cc : Forall (fun o => co_block_len o = 16 /\ 0 < co_key_len o <= 256)
      (elements (al_ciphers default_algorithms)).*2)
      by (apply (bool_decide_unpack _); vm_compute; exact I).
    destruct (find_name _ _ n) as [o|] eqn:Fc; [|done]. intros Hc.
    apply find_name_some in Fc as [Ic _].
    apply (proj1 (list.Forall_forall _ _) Cc) in Ic as [Hb Hk].
    assert (Eo : sc_object c = o) by (by injection Hc as <-).
    unfold silc_cipher_get_block_len, silc_cipher_get_key_len. rewrite Eo.
    rewrite E. cbn [find_name]. intros Hh. split; [lia|]. split; [lia|].
    assert (Hd : 16 <= digest_len_of h).
    { revert Hh. repeat (destruct (streq _ m);
        [match goal with |- Some ?x = Some ?y -> _ =>
           intros F; assert (y = x) as -> by (by injection F) end; vm_compute; congruence|]).
      done. }
    pose proof (Z.div_le_mono (co_key_len o) 256 8 ltac:(lia) ltac:(lia)).
    change (256 / 8) with 32 in *. lia.
Defined.

Lemma agree_refl {A} (name : A -> list Z) r :
  NoDup (c_string ∘ name <$> (elements r).*2) -> agree name r r.
Proof.
  intros H a b Ha Hb E. apply list_elem_of_lookup in Ha as [i Ha], Hb as [j Hb].
  assert (i = j) as ->; [|congruence].
  eapply (NoDup_lookup _ _ _ (c_string (name a)) H); rewrite list_lookup_fmap.
  - by rewrite Ha.
  - rewrite Hb. cbn. by rewrite E.
Qed.

Definition ex_config (key : list Z) (flags : Z) : config (list Z) (list Z) :=
  mkConfig default_algorithms ex_version flags 0 key (Some key) false true.

#[export] Instance ex_suite key flags : Suite (cf_al (ex_config key flags)) := default_suite.
Definition ex_pair_i : SkePair (cf_public_key (ex_config [1; 2; 3] 0)) [1; 2; 3] :=
  ex_pair [1; 2; 3] (proj1 ex_keys).
Definition ex_pair_r :
  SkePair (cf_public_key (ex_config [4; 5] SILC_SKE_SP_FLAG_MUTUAL)) [4; 5] :=
  ex_pair [4; 5] (proj2 ex_keys).

(** An exponent from random bytes that are zero but for the last, and one public
    key that is approved. *)
Definition ex_inputs (x : Z) (known : list Z) : inputs (list Z) :=
  mkInputs (zeros 126 ++ [x]) true
    (fun pk => if bool_decide (pk = known) then SILC_SKE_STATUS_OK
               else SILC_SKE_STATUS_UNSUPPORTED_PUBLIC_KEY).

Lemma ex_willing key flags x known :
  bool_decide (x = 200 \/ x = 199) = true ->
  willing (ex_config key flags) key (ex_inputs x known) x known.
Proof.
  intros [-> | ->]%bool_decide_eq_true_1; (split; [split; [done|split; by_compute]|]);
    (split; [done|]; split; [done|]; split; [by cbn; rewrite bool_decide_eq_true_2|]);
    split; vm_compute; congruence.
Qed.

Lemma ex_agree :
  agree ho_name default_hashes default_hashes /\ agree co_name default_ciphers default_ciphers.
Proof. split; apply agree_refl; apply (bool_decide_unpack _); vm_compute; exact I. Qed.

Lemma exchange_completes_witness :
  exists mi mr p q km rk,
    exchange (ex_config [1; 2; 3] 0) (ex_config [4; 5] SILC_SKE_SP_FLAG_MUTUAL)
      (ex_inputs 200 [4; 5]) (ex_inputs 199 [1; 2; 3]) 6 SILC_SKE_SP_FLAG_PFS (replicate 16 9) = Some (mi, mr) /\
    p_finished mi = true /\ p_finished mr = true /\
    p_result mi = [mkDone SILC_SKE_STATUS_OK (Some p) (Some km) (Some rk)] /\
    p_result mr = [mkDone SILC_SKE_STATUS_OK (Some q) (Some km) (Some rk)] /\ same_prop q p /\
    peer_key (p_ske mi) = Some [4; 5] /\ peer_key (p_ske mr) = Some [1; 2; 3] /\
    KEY (p_ske mi) = KEY (p_ske mr) /\
    KEY (p_ske mi) = Some (g_generator first_group ^ (200 * 199) mod g_group first_group).
Proof.
  apply (exchange_completes (ex_config [1; 2; 3] 0) (ex_config [4; 5] SILC_SKE_SP_FLAG_MUTUAL)
    [1; 2; 3] [4; 5] (SkePair0 := ex_pair_i) (SkePair1 := ex_pair_r) (ex_inputs 200 [4; 5])
    (ex_inputs 199 [1; 2; 3]) 200 199 SILC_SKE_SP_FLAG_PFS (replicate 16 9)).
  - apply ex_agree.
  - apply ex_agree.
  - eexists. split; left; reflexivity.
  - eexists. split; left; reflexivity.
  - eexists. split; left; reflexivity.
  - eexists. split; left; reflexivity.
  - by apply ex_willing.
  - by apply ex_willing.
  - done.
  - done.
  - by_compute.
Defined.
