(* ===== verification/SkeSafe.v ===== *)
(** * What a key exchange proves of the peer

    The initiator against any network: whatever packets come, in whatever order,
    with timeouts and aborts in between, key material is reported only when the
    peer's public key was approved and its signature of the exchange verified. *)

From Stdlib Require Import Ascii String.
From S2P Require Import Prelude CTypes Memory Buffer BuffFmt Hmac Mp SkePayload Registry SkeNegotiate SkeKeys Ske SkeThms.
Local Open Scope Z_scope.

Section Initiator.
Context {PK SK : Type} `{SkePkcs PK SK} (c : config PK SK) (verdict : PK -> Z).

Definition wants_key : bool := cf_verify_key c || cf_repository c.

(** The value that this side has sent is that of its exponent. *)
Definition own_value (s : SilcSKE PK) : Prop :=
  exists pr ke1, prop s = Some pr /\ ke1_payload s = Some ke1 /\
    ke_x ke1 = silc_mp_pow_mod (g_generator (pr_group pr)) (ske_x s) (g_group (pr_group pr)).

(** The shared secret is made of the peer's value, and the peer's key is the one
    it has sent. *)
Definition their_value (s : SilcSKE PK) : Prop :=
  exists pr ke2, prop s = Some pr /\ ke2_payload s = Some ke2 /\
    KEY s = Some (silc_mp_pow_mod (ke_x ke2) (ske_x s) (g_group (pr_group pr))) /\
    (wants_key = true -> exists pk peer, pk_data ke2 = Some pk /\
       silc_pkcs_public_key_alloc (pk_type ke2) (ztake (pk_len ke2) pk) = Some peer /\
       peer_key s = Some peer).

(** The exchange hash of the context. *)
Definition hashed (s : SilcSKE PK) (hash : list Z) : Prop :=
  exists pr ke1 ke2 K, prop s = Some pr /\ ke1_payload s = Some ke1 /\
    ke2_payload s = Some ke2 /\ KEY s = Some K /\
    silc_ske_make_hash (pr_hash pr) (start_payload_copy s) ke1 ke2 K false = SkeOk hash.

(** The peer's signature of a hash verifies. *)
Definition signed (s : SilcSKE PK) (hash : list Z) : Prop :=
  exists ke2, ke2_payload s = Some ke2 /\ forall peer, peer_key s = Some peer ->
    silc_pkcs_verify peer (ztake (sign_len ke2) (default [] (sign_data ke2))) hash = true.

(** The key material is that of the secret and the hash. *)
Definition derived (s : SilcSKE PK) (hash : list Z) (km : SilcSKEKeyMaterial) : Prop :=
  exists pr K rk, prop s = Some pr /\ KEY s = Some K /\
    silc_ske_process_key_material pr K hash (silc_cipher_get_block_len (pr_cipher pr))
      (silc_cipher_get_key_len (pr_cipher pr)) (digest_len_of (pr_hash pr)) true = Some (km, rk).

Definition approved (s : SilcSKE PK) : Prop :=
  wants_key = true -> forall peer, peer_key s = Some peer -> verdict peer = SILC_SKE_STATUS_OK.

Definition authenticated (s : SilcSKE PK) (km : SilcSKEKeyMaterial) : Prop :=
  exists hash, own_value s /\ their_value s /\ hashed s hash /\ signed s hash /\
    derived s hash km /\ approved s.

(** No keys yet, and not the context of a rekey. *)
Definition keyless (s : SilcSKE PK) : Prop := keymat s = None /\ rekey s = None.

(** What holds in a state.  Key material is there only after the last check. *)
Definition inv (state : st) (s : SilcSKE PK) : Prop :=
  match state with
  | initiator_start | initiator_phase1 | initiator_phase2 => keyless s
  | initiator_phase3 => keyless s /\ own_value s
  | initiator_phase4 => keyless s /\ own_value s /\ their_value s /\
      (status s = SILC_SKE_STATUS_OK -> approved s)
  | initiator_end | initiator_error | initiator_aborted | initiator_failure =>
      forall km, keymat s = Some km -> authenticated s km
  | _ => False
  end.

Definition reported (r : res (PK := PK)) : Prop :=
  forall d km, d ∈ r_done r -> c_keymat d = Some km ->
    c_status d = SILC_SKE_STATUS_OK /\ authenticated (r_ske r) km.

(** What a handler leaves: a report that is justified, and the invariant of the
    next state once the peer's key has been looked at. *)
Definition fine (r : res (PK := PK)) : Prop :=
  reported r /\ (r_act r = FINISH \/ r_done r = []) /\
  match r_act r with
  | CONTINUE | WAIT => inv (r_next r) (r_ske r)
  | VERIFY => forall peer, peer_key (r_ske r) = Some peer ->
                inv (r_next r) (set_status (verdict peer) (r_ske r))
  | FINISH => True
  end.

(** The fields that the invariant does not look at. *)
Lemma authenticated_same s s' km :
  prop s = prop s' -> peer_key s = peer_key s' ->
  start_payload_copy s = start_payload_copy s' -> ke1_payload s = ke1_payload s' ->
  ke2_payload s = ke2_payload s' -> ske_x s = ske_x s' -> KEY s = KEY s' ->
  authenticated s km -> authenticated s' km.
Proof.
  unfold authenticated, own_value, their_value, hashed, signed, derived, approved.
  by intros <- <- <- <- <- <- <-.
Qed.

Lemma no_report s next act out : fine (mkRes s next act out []) <->
  match act with
  | CONTINUE | WAIT => inv next s
  | VERIFY => forall peer, peer_key s = Some peer -> inv next (set_status (verdict peer) s)
  | FINISH => True
  end.
Proof.
  unfold fine. cbn. split; [by intros (_ & _ & ?)|]. intros. split; [|split; [by right|done]].
  intros d km Hd. by apply not_elem_of_nil in Hd.
Qed.

Lemma finish_fine s next out r :
  (forall km, keymat s = Some km -> authenticated s km) ->
  finish s next out = Some r -> fine r.
Proof.
  intros Hs [= <-]. split; [|split; [by left|done]]. intros d km. cbn. unfold silc_ske_completion.
  destruct (aborted s); [intros Hd; by apply not_elem_of_nil in Hd|].
  destruct (Z.eqb_spec (status s) SILC_SKE_STATUS_OK) as [E|E]; cbn;
    intros ->%list_elem_of_singleton; cbn; [|done]. intros Hk. split; [done|by apply Hs].
Qed.

Lemma go_fine s next r : inv next s -> go s next = Some r -> fine r.
Proof. intros Hi [= <-]. by apply no_report. Qed.

Lemma wait_fine s next out r : inv next s -> wait s next out = Some r -> fine r.
Proof. intros Hi [= <-]. by apply no_report. Qed.

Lemma start_fine i s r : inv initiator_start s ->
  silc_ske_st_initiator_start i s = Some r -> fine r.
Proof.
  intros [Hi Hq]. unfold silc_ske_st_initiator_start, fail.
  repeat case_match; (apply go_fine || apply wait_fine); cbn; try done; by rewrite Hi.
Qed.

Lemma phase1_fine s r : inv initiator_phase1 s ->
  silc_ske_st_initiator_phase1 c s = Some r -> fine r.
Proof.
  intros [Hi Hq]. unfold silc_ske_st_initiator_phase1, fail, old_packet.
  repeat case_match; try done; (apply go_fine || apply wait_fine); cbn; try done; by rewrite Hi.
Qed.

Lemma phase2_fine i s r : inv initiator_phase2 s ->
  silc_ske_st_initiator_phase2 c i s = Some r -> fine r.
Proof.
  intros [Hi Hq]. unfold silc_ske_st_initiator_phase2, fail.
  destruct (prop s) as [pr|] eqn:Ep; [|done].
  destruct (silc_ske_create_rnd _ _ _) as [x|e]; [|apply go_fine; cbn; by rewrite Hi].
  destruct (silc_pkcs_public_key_encode _) as [pk|]; [|apply go_fine; cbn; by rewrite Hi].
  set (e := silc_mp_pow_mod _ _ _). set (payload := mkKE _ _ _ e 0 None).
  set (signed := match cf_private_key c with Some sk => _ | None => _ end).
  assert (Hx : forall q, signed = Some (Some q) -> ke_x q = e).
  { intros q. unfold signed. repeat case_match; intros; by simplify_eq. }
  destruct signed as [[q|]|] eqn:Es; [|apply go_fine; cbn; by rewrite Hi|done].
  destruct (silc_ske_payload_ke_encode _ _) as [b|]; [|apply go_fine; cbn; by rewrite Hi].
  case_match; [apply wait_fine|apply go_fine; cbn; by rewrite Hi].
  cbn. split; [done|]. exists pr, q. cbn. split; [done|]. split; [done|]. by apply Hx.
Qed.

Lemma phase3_fine s r : inv initiator_phase3 s ->
  silc_ske_st_initiator_phase3 c s = Some r -> fine r.
Proof.
  intros [[Hi Hq] Ho]. unfold silc_ske_st_initiator_phase3, fail, old_packet.
  destruct (packet s) as [p|]; [|done]. destruct (prop s) as [pr|] eqn:Ep; [|done].
  case_match; [by apply wait_fine|].
  destruct (silc_ske_payload_ke_decode _ _) as [payload|]; [|apply go_fine; cbn; by rewrite Hi].
  destruct (bool_decide (pk_data payload = None) && _) eqn:Ev; [done|].
  destruct (pk_data payload) as [pk|] eqn:Ek; cycle 1.
  - apply go_fine. cbn. split; [done|]. split; [done|]. rewrite bool_decide_eq_true_2 in Ev by done.
    cbn [andb] in Ev. fold wants_key in Ev. split; [|unfold approved; by rewrite Ev].
    exists pr, payload. cbn. split; [done|]. split; [done|]. split; [done|]. by rewrite Ev.
  - destruct (silc_pkcs_public_key_alloc _ _) as [peer|] eqn:Ea;
      [|apply go_fine; cbn; by rewrite Hi].
    assert (T : forall s', prop s' = Some pr -> ke2_payload s' = Some payload ->
      KEY s' = Some (silc_mp_pow_mod (ke_x payload) (ske_x s') (g_group (pr_group pr))) ->
      peer_key s' = Some peer -> their_value s').
    { intros s' E1 E2 E3 E4. exists pr, payload. do 3 (split; [done|]). intros _.
      exists pk, peer. done. }
    case_match eqn:Ew.
    + intros [= <-]. apply no_report. intros peer' [= <-]. cbn. split; [done|].
      split; [done|]. split; [by apply T|]. intros E _ peer' [= <-]. exact E.
    + apply go_fine. cbn. split; [done|]. split; [done|]. split; [by apply T|].
      unfold approved, wants_key. by rewrite Ew.
Qed.

Lemma phase4_fine i s r : inv initiator_phase4 s ->
  silc_ske_st_initiator_phase4 i s = Some r -> fine r.
Proof.
  intros ([Hi Hq] & Ho & Ht & Ha). unfold silc_ske_st_initiator_phase4, fail.
  destruct (aborted s); [apply go_fine; cbn; by rewrite Hi|].
  destruct (Z.eqb_spec (status s) SILC_SKE_STATUS_OK) as [Es|Es]; cbn [negb];
    [|apply go_fine; cbn; by rewrite Hi].
  destruct (prop s) as [pr|] eqn:Ep; [|done]. destruct (ke1_payload s) as [ke1|] eqn:E1; [|done].
  destruct (ke2_payload s) as [ke2|] eqn:E2; [|done]. destruct (KEY s) as [K|] eqn:EK; [|done].
  destruct (silc_ske_make_hash _ _ _ _ _ _) as [hash|] eqn:Eh; [|apply go_fine; cbn; by rewrite Hi].
  match goal with |- (if ?b then _ else _) = _ -> _ => destruct b eqn:Ev end;
    [apply go_fine; cbn; by rewrite Hi|]. cbn [rekey set_status set_ske_hash].
  rewrite Hq.
  destruct (silc_ske_process_key_material _ _ _ _ _ _ _) as [[km rk]|] eqn:Ek;
    [|apply go_fine; cbn; by rewrite Hi].
  assert (A : forall s', prop s' = prop s -> peer_key s' = peer_key s ->
    start_payload_copy s' = start_payload_copy s -> ke1_payload s' = ke1_payload s ->
    ke2_payload s' = ke2_payload s -> ske_x s' = ske_x s -> KEY s' = KEY s ->
    authenticated s' km).
  { intros s' ? ? ? ? ? ? ?. apply (authenticated_same s); try done.
    exists hash. split; [done|]. split; [done|]. split; [by exists pr, ke1, ke2, K|].
    split; [|split; [by exists pr, K, rk|by apply Ha]].
    exists ke2. split; [done|]. intros peer Hp. cbn [peer_key set_ske_hash] in Ev.
    rewrite Hp in Ev. by apply negb_false_iff in Ev. }
  destruct (in_sent i); [apply wait_fine|apply go_fine]; cbn; intros km' [= <-]; by apply A.
Qed.

Lemma ended_fine i state s r :
  inv state s ->
  match state with
  | initiator_end | initiator_error | initiator_aborted | initiator_failure => true
  | _ => false
  end = true ->
  handler c i state s = Some r -> fine r.
Proof.
  intros Hi Hs.
  assert (F : forall s' next out r, prop s' = prop s -> peer_key s' = peer_key s ->
    start_payload_copy s' = start_payload_copy s -> ke1_payload s' = ke1_payload s ->
    ke2_payload s' = ke2_payload s -> ske_x s' = ske_x s -> KEY s' = KEY s ->
    keymat s' = keymat s -> finish s' next out = Some r -> fine r).
  { intros s' next out r' ? ? ? ? ? ? ? Ek. apply finish_fine. rewrite Ek. intros km Hk.
    apply (authenticated_same s); try done. destruct state; try done; by apply Hi. }
  destruct state; try done; cbn [handler].
  - unfold silc_ske_st_initiator_end, old_packet. destruct (packet s); [|done].
    case_match; [by apply wait_fine|by apply F].
  - by apply F.
  - by apply F.
  - unfold silc_ske_st_initiator_failure, failure_status. repeat case_match; by apply F.
Qed.

Lemma handler_fine i state s r :
  inv state s -> handler c i state s = Some r -> fine r.
Proof.
  intros Hi. destruct state; try (by apply (ended_fine i _ s r Hi)); try done; cbn [handler].
  - by apply start_fine.
  - by apply phase1_fine.
  - by apply phase2_fine.
  - by apply phase3_fine.
  - by apply phase4_fine.
Qed.

Lemma run_fine i n : (forall pk, in_verdict i pk = verdict pk) -> forall state s r,
  inv state s -> run n c i state s = Some r ->
  reported r /\ (r_act r = FINISH \/ (r_act r = WAIT /\ inv (r_next r) (r_ske r))).
Proof.
  intros Hv. induction n as [|n IH]; [done|]. intros state s r Hi. cbn [run].
  destruct (handler c i state s) as [r0|] eqn:E; [|done].
  destruct (handler_fine _ _ _ _ Hi E) as (Hr & Hd & Ha).
  assert (M : forall s', r_act r0 <> FINISH -> inv (r_next r0) s' ->
    match run n c i (r_next r0) s' with
    | None => None
    | Some r' => Some (mkRes (r_ske r') (r_next r') (r_act r') (r_out r0 ++ r_out r')
                         (r_done r0 ++ r_done r'))
    end = Some r ->
    reported r /\ (r_act r = FINISH \/ (r_act r = WAIT /\ inv (r_next r) (r_ske r)))).
  { intros s' Hf Hi'. destruct Hd as [?| ->]; [done|].
    destruct (run n c i (r_next r0) s') as [r'|] eqn:E'; [|done]. intros [= <-].
    by apply (IH _ _ _ Hi') in E'. }
  destruct (r_act r0) eqn:Ea.
  - by apply M.
  - intros [= <-]. split; [done|]. right. by rewrite Ea.
  - intros [= <-]. split; [done|]. by left.
  - destruct (peer_key (r_ske r0)) as [pk|] eqn:Ek; [|done]. unfold silc_ske_pk_verified.
    rewrite Hv. apply M; [done|]. by apply Ha.
Qed.

(** ** Any network *)

(** What can happen to a machine that waits. *)
Inductive event := Packet (p : ske_packet) | Timeout | Abort.

Definition happens (e : event) (i : inputs PK) (state : st) (s : SilcSKE PK)
    : option (res (PK := PK)) :=
  match e with
  | Packet p => silc_ske_packet_receive c i false state s p
  | Timeout => silc_ske_timeout c i false state s
  | Abort => Some (mkRes (silc_ske_abort s) state WAIT [] [])
  end.

(** The states in which an initiator waits, after any events.  The random bytes
    and the failures to send are any; the verdicts are one function. *)
Inductive waits : st -> SilcSKE PK -> Prop :=
  | waits_start i flags rnd own s r :
      (forall pk, in_verdict i pk = verdict pk) ->
      silc_ske_initiator c flags rnd own silc_ske_alloc = Some s ->
      run 6 c i initiator_start s = Some r -> r_act r = WAIT -> waits (r_next r) (r_ske r)
  | waits_event e i state s r :
      waits state s -> (forall pk, in_verdict i pk = verdict pk) ->
      happens e i state s = Some r -> r_act r = WAIT -> waits (r_next r) (r_ske r).

Lemma inv_kept state s s' :
  prop s = prop s' -> peer_key s = peer_key s' ->
  start_payload_copy s = start_payload_copy s' -> ke1_payload s = ke1_payload s' ->
  ke2_payload s = ke2_payload s' -> ske_x s = ske_x s' -> KEY s = KEY s' ->
  keymat s = keymat s' -> rekey s = rekey s' -> status s = status s' -> inv state s -> inv state s'.
Proof.
  unfold inv, keyless, authenticated, own_value, their_value, hashed, signed, derived, approved.
  by intros <- <- <- <- <- <- <- <- <- <-.
Qed.
Lemma inv_failed state s : inv state s -> inv initiator_failure s /\ inv initiator_aborted s.
Proof.
  intros Hi. assert (forall km, keymat s = Some km -> authenticated s km); [|done].
  intros km Hk. destruct state; cbn in Hi; unfold keyless in Hi; try done; try (by apply Hi);
    destruct_and?; congruence.
Qed.

Lemma inv_status state s v : inv state s -> v <> SILC_SKE_STATUS_OK -> inv state (set_status v s).
Proof.
  intros Hi Hv. destruct state; try done; try exact Hi.
  destruct Hi as (? & ? & ? & _). do 3 (split; [done|]). intros E. cbn in E. congruence.
Qed.

Lemma notify_inv state s st' s' :
  inv state s -> silc_ske_notify_failure false state s = (st', s') -> inv st' s'.
Proof.
  intros Hi. unfold silc_ske_notify_failure. case_match; intros [= <- <-]; [done|].
  apply (inv_kept _ s); try done. by apply inv_failed in Hi as [? _].
Qed.

Lemma happens_fine e i state s r :
  (forall pk, in_verdict i pk = verdict pk) -> inv state s -> happens e i state s = Some r ->
  reported r /\ (r_act r = FINISH \/ (r_act r = WAIT /\ inv (r_next r) (r_ske r))).
Proof.
  intros Hv Hi. destruct e as [p| |]; cbn [happens].
  - unfold silc_ske_packet_receive. cbn [aborted set_packet].
    destruct (aborted s); [|case_match].
    + apply (run_fine i 6 Hv), (inv_kept _ s); try done. by apply inv_failed in Hi as [_ ?].
    + destruct (silc_ske_notify_failure _ _ _) as [st' s'] eqn:E. apply (run_fine i 6 Hv).
      eapply notify_inv; [|exact E]. by apply (inv_kept _ s).
    + apply (run_fine i 6 Hv). by apply (inv_kept _ s).
  - unfold silc_ske_timeout.
    destruct (silc_ske_notify_failure _ _ _) as [st' s'] eqn:E. apply (run_fine i 6 Hv).
    eapply notify_inv; [|exact E]. apply inv_status; [|done]. by apply (inv_kept _ s).
  - intros [= <-]. split; [intros d km Hd; by apply not_elem_of_nil in Hd|]. right.
    split; [done|]. cbn. by apply (inv_kept _ s).
Qed.

Lemma waits_inv state s : waits state s -> inv state s.
Proof.
  induction 1 as [i flags rnd own s r Hv Es Er Ha|e i state s r Hw IH Hv Er Ha].
  - apply (run_fine i 6 Hv) in Er as [_ [?|[_ ?]]]; [congruence|done|].
    unfold silc_ske_initiator in Es. cbn. destruct own; [by injection Es as <-|].
    destruct (silc_ske_assemble_security_properties _ _ _ _ _); [by injection Es as <-|done].
  - apply (happens_fine e i _ _ _ Hv IH) in Er as [_ [?|[_ ?]]]; [congruence|done].
Qed.

End Initiator.

(** ** Example *)

Section Delivered.
Context {PK SK : Type} `{SkePkcs PK SK} (ci cr : config PK SK) (ii ir : inputs PK).
Abbreviation waits_i := (waits ci (in_verdict ii)).

(** A side of [deliver] waits, and what it has reported is the report of an
    event. *)
Definition tracked (m : peer PK) : Prop :=
  (p_finished m = false -> waits_i (p_state m) (p_ske m)) /\
  forall d, d ∈ p_result m -> exists e state s r,
    waits_i state s /\ happens ci e ii state s = Some r /\ r_ske r = p_ske m /\ d ∈ r_done r.

Lemma deliver_tracked n : forall queue mi mr mi' mr',
  tracked mi -> deliver ci cr ii ir n queue mi mr = Some (mi', mr') -> tracked mi'.
Proof.
  induction n as [|n IH]; intros queue mi mr mi' mr' Hm.
  - destruct queue as [|[]]; [|done]. by intros [= <- <-].
  - destruct queue as [|[to_r pk] queue]; [by intros [= <- <-]|]. cbn [deliver].
    destruct (p_finished _) eqn:Ef; [by apply IH|].
    destruct (silc_ske_packet_receive _ _ _ _ _ _) as [r|] eqn:Er; [|done].
    destruct to_r; [by apply IH|]. apply IH. destruct Hm as [Hw _]. specialize (Hw Ef).
    split.
    + unfold peer_of. cbn [p_finished p_state p_ske]. intros Ha.
      eapply (waits_event _ _ (Packet pk) ii); [exact Hw|done|exact Er|].
      assert (Hi : inv ci (in_verdict ii) (p_state mi) (p_ske mi)) by by apply waits_inv.
      destruct (happens_fine ci (in_verdict ii) (Packet pk) ii _ _ r ltac:(done) Hi Er)
        as [_ [E|[E _]]]; [by rewrite E in Ha|done].
    + intros d Hd. by exists (Packet pk), (p_state mi), (p_ske mi), r.
Qed.

(** The exchange, whose start reports nothing. *)
Lemma exchange_tracked n flags rnd mi mr :
  match silc_ske_initiator ci flags rnd None silc_ske_alloc with
  | Some s => match run 6 ci ii initiator_start s with Some r => r_done r | None => [] end
  | None => []
  end = [] ->
  exchange ci cr ii ir n flags rnd = Some (mi, mr) -> tracked mi.
Proof.
  unfold exchange. destruct (silc_ske_initiator _ _ _ _ _) as [s|] eqn:Es; [|done].
  destruct (run 6 ci ii initiator_start s) as [r|] eqn:Er; [|done]. intros Hd.
  destruct (run 6 cr ir _ _) as [r'|]; [|done]. apply deliver_tracked.
  assert (Hi : inv ci (in_verdict ii) initiator_start s).
  { unfold silc_ske_initiator in Es. cbn.
    destruct (silc_ske_assemble_security_properties _ _ _ _ _); [by injection Es as <-|done]. }
  destruct (run_fine ci (in_verdict ii) ii 6 ltac:(done) _ _ _ Hi Er) as [_ Ha].
  unfold peer_of. split; cbn [p_finished p_state p_ske p_result].
  - intros Hf. destruct Ha as [E|[E _]]; [by rewrite E in Hf|]. by eapply waits_start.
  - rewrite Hd. intros d H0. by apply not_elem_of_nil in H0.
Qed.
End Delivered.

Definition ex_i : config (list Z) (list Z) := ex_config [1; 2; 3] 0.
Definition ex_ii : inputs (list Z) := ex_inputs 200 [4; 5].
Abbreviation ex_exchange :=
  (exchange ex_i (ex_config [4; 5] SILC_SKE_SP_FLAG_MUTUAL) ex_ii (ex_inputs 199 [1; 2; 3]) 6
    SILC_SKE_SP_FLAG_PFS (replicate 16 9)).

Lemma ex_start :
  match silc_ske_initiator ex_i SILC_SKE_SP_FLAG_PFS (replicate 16 9) None silc_ske_alloc with
  | Some s => match run 6 ex_i ex_ii initiator_start s with Some r => r_done r | None => [] end
  | None => []
  end = [].
Proof. vm_compute. reflexivity. Qed.

Lemma ex_reported : exists e state s r d km,
  waits ex_i (in_verdict ex_ii) state s /\ happens ex_i e ex_ii state s = Some r /\
  d ∈ r_done r /\ c_keymat d = Some km.
Proof.
  assert (K : match ex_exchange with
              | Some (mi, _) => match p_result mi with
                                | [d] => bool_decide (is_Some (c_keymat d)) | _ => false end
              | None => false end = true) by (vm_compute; reflexivity).
  destruct ex_exchange as [[mi mr]|] eqn:E; [|done].
  pose proof (exchange_tracked ex_i (ex_config [4; 5] SILC_SKE_SP_FLAG_MUTUAL) ex_ii
    (ex_inputs 199 [1; 2; 3]) 6 SILC_SKE_SP_FLAG_PFS (replicate 16 9) mi mr) as T.
  specialize (T ex_start E) as [_ T].
  destruct (p_result mi) as [|d [|]]; [done| |done]. apply bool_decide_eq_true_1 in K as [km K].
  destruct (T d ltac:(by left)) as (e & state & s & r & Hw & Hh & _ & Hd).
  exists e, state, s, r, d, km. exact (conj Hw (conj Hh (conj Hd K))).
Qed.


(** ** What the handlers of failures do *)

(** A FAILURE packet that says status 0 ends the exchange, in any state and on
    either side, with a report of success, without key material when there is
    none yet.  The servers take the keys of such a report into use. *)
Lemma zero_failure_is_success {PK SK : Type} `{SkePkcs PK SK} (c : config PK SK)
    (i : inputs PK) responder state s :
  aborted s = false -> failure_notified s = false -> exists r,
    silc_ske_packet_receive c i responder state s
      (mkPacket SILC_PACKET_FAILURE [0; 0; 0; 0]) = Some r /\ r_act r = FINISH /\
    r_done r = [mkDone SILC_SKE_STATUS_OK (prop s) (keymat s) (rekey s)].
Proof.
  intros Ha Hf. unfold silc_ske_packet_receive. cbn [aborted set_packet]. rewrite Ha.
  cbn [pkt_type]. change (SILC_PACKET_FAILURE =? SILC_PACKET_FAILURE) with true. cbn iota.
  unfold silc_ske_notify_failure. cbn [failure_notified set_packet]. rewrite Hf.
  assert (F : forall s' : SilcSKE PK, packet s' = Some (mkPacket SILC_PACKET_FAILURE [0; 0; 0; 0]) ->
    failure_status s' = set_status SILC_SKE_STATUS_OK (set_packet None s')).
  { intros s' E. unfold failure_status. rewrite E. reflexivity. }
  destruct responder; (eexists; split;
    [apply run_last; [cbn [handler]; reflexivity|by right]|]);
    (split; [reflexivity|]); rewrite F by done; unfold silc_ske_completion; cbn; by rewrite Ha.
Qed.

(** A timeout is reported as an error of another kind: its status is overwritten
    when there is no packet. *)
Lemma timeout_is_error {PK SK : Type} `{SkePkcs PK SK} (c : config PK SK) (i : inputs PK)
    responder state s :
  aborted s = false -> failure_notified s = false -> exists r,
    silc_ske_timeout c i responder state s = Some r /\
    r_done r = [mkDone SILC_SKE_STATUS_ERROR None None None].
Proof.
  intros Ha Hf. unfold silc_ske_timeout, silc_ske_notify_failure.
  cbn [failure_notified set_packet set_status]. rewrite Hf.
  destruct responder; (eexists; split; [reflexivity|]);
    unfold finish, silc_ske_completion; cbn; by rewrite Ha.
Qed.

(** A responder that cannot encode its public key tells the other side of status
    OK and reports success. *)
Lemma unencodable_key_is_success {PK SK : Type} `{SkePkcs PK SK} (c : config PK SK)
    (i : inputs PK) s pr ke1 ke2 K prv :
  prop s = Some pr -> ke1_payload s = Some ke1 -> ke2_payload s = Some ke2 ->
  KEY s = Some K -> cf_private_key c = Some prv ->
  silc_pkcs_public_key_encode (cf_public_key c) = None ->
  status s = SILC_SKE_STATUS_OK -> aborted s = false -> in_sent i = true ->
  exists r, run 6 c i responder_phase5 s = Some r /\
    r_out r = [failure_packet SILC_SKE_STATUS_OK] /\
    r_done r = [mkDone SILC_SKE_STATUS_OK (Some pr) (keymat s) (rekey s)].
Proof.
  intros Ep E1 E2 EK Ev Ee Es Ea Ei. erewrite run_go; cycle 1.
  { cbn [handler]. unfold silc_ske_st_responder_phase5. rewrite Ep, E1, E2, EK, Ev, Ee.
    reflexivity. }
  eexists. split.
  - eapply run_last.
    + cbn [handler]. unfold silc_ske_st_responder_error. rewrite Es. reflexivity.
    + by right.
  - cbn. unfold ske_send, silc_ske_completion. rewrite Ei, Ea, Es. cbn. by rewrite Ep.
Qed.
