(* ===== verification/SkeRekey.v ===== *)
(** * The rekey without perfect forward secrecy

    After a key exchange the two sides change keys now and then: new key material
    is made of the last sending key of the initiator, each side takes its new
    sending keys into use with its REKEY_DONE and its new receiving keys with the
    other's.  The keys cross again, and the material that is left is the same on
    both sides, so that any number of rekeys can follow. *)

From S2P Require Import Prelude CTypes Memory Hmac MerkleDamgard StrUtil Mp SkePayload Registry SkeNegotiate SkeKeys Ske SkeThms.
Local Open Scope Z_scope.

(** ** One direction at a time *)

Section Directions.
Context (al : algorithms) (obj : SilcCipherObject) (m : SilcHmac).

(** The keys of a direction that is sent in by the initiator, or is not. *)
Definition direction_key (initiators : bool) (km : SilcSKEKeyMaterial) : list Z :=
  if initiators then send_enc_key km else receive_enc_key km.
Definition direction_iv (initiators : bool) (km : SilcSKEKeyMaterial) : list Z :=
  if initiators then send_iv km else receive_iv km.
Definition direction_hmac (initiators : bool) (km : SilcSKEKeyMaterial) : list Z :=
  if initiators then send_hmac_key km else receive_hmac_key km.

Definition rekey_cipher (hash : SilcHash) (initiators enc : bool) (km : SilcSKEKeyMaterial)
    : SilcCipher :=
  cipher_of obj true false [] hash (direction_key initiators km) (enc_key_len km) enc
    (direction_iv initiators km).
Definition rekey_hmac (initiators : bool) (km : SilcSKEKeyMaterial) : SilcHmac :=
  set_hmac_key (direction_hmac initiators km) (hmac_key_len km) m.

Lemma set_keys_one km (prop : SilcSKESecurityProperties) (responder sending : bool) :
  has_flag (pr_flags prop) SILC_SKE_SP_FLAG_IV_INCLUDED = false ->
  8 <= zlen (send_iv km) -> 8 <= zlen (receive_iv km) ->
  (forall x, zlen x = 8 -> 16 <= zlen (digest_of (pr_hash prop) x) <= 64) ->
  find_name co_name (elements (al_ciphers al)) (silc_cipher_get_name (pr_cipher prop)) = Some obj ->
  co_iv_len obj <= 16 ->
  silc_hmac_alloc (al_hashes al) (al_hmacs al) (silc_hmac_get_name (pr_hmac prop)) None = Some m ->
  let initiators := if responder then negb sending else sending in
  let c := Some (rekey_cipher (pr_hash prop) initiators sending km) in
  let h := Some (rekey_hmac initiators km) in
  silc_ske_set_keys al responder true [] km prop
    (if sending then want_sending else want_receiving) =
  Some (if sending then mkKeys c None h None None else mkKeys None c None h None).
Proof.
  intros Hf Hs Hr Hd Hc Ho Hm. cbn zeta.
  assert (D : forall k, 8 <= zlen k -> 16 <= zlen (digest_of (pr_hash prop) (ztake 8 k)) <= 64)
    by (intros k Hk; apply Hd, zlen_take; lia).
  assert (S : forall key enc key_iv, 8 <= zlen key_iv -> exists iv,
    set_cipher true false [] (pr_hash prop) key (enc_key_len km) enc key_iv (zeros SILC_HASH_MAXLEN)
      (Some (mkCipherStruct obj None (zeros 16))) =
    (Some (cipher_of obj true false [] (pr_hash prop) key (enc_key_len km) enc key_iv), iv)).
  { intros key enc key_iv Hk.
    destruct (set_cipher_ok true false [] (pr_hash prop) key (enc_key_len km) enc key_iv _ obj Ho
      (zeros_good _ _) ltac:(done) Hk (D _ Hk)) as (iv & -> & _). by exists iv. }
  unfold silc_ske_set_keys, silc_cipher_alloc. rewrite Hc, Hm, Hf.
  destruct (S (send_enc_key km) sending _ Hs) as (i1 & S1).
  destruct (S (receive_enc_key km) sending _ Hr) as (i2 & S2).
  destruct sending, responder; cbn [want_sending want_receiving want_send want_receive
    want_hmac_send want_hmac_receive want_hash wanted negb set_cipher fmap option_fmap option_map];
    cbn [set_cipher] in S1, S2; by rewrite ?S1, ?S2.
Qed.
End Directions.

(** ** What a rekey needs, and leaves *)

Definition carries (k : stream_keys) (s r : SilcCipher) (hs hr : SilcHmac) : Prop :=
  sk_send k = Some s /\ sk_receive k = Some r /\
  sk_hmac_send k = Some hs /\ sk_hmac_receive k = Some hr.

(** The stream's keys are of one cipher and one HMAC, which are registered, and
    the material of the last exchange names a registered hash function and has
    the initiator's sending key. *)
Record rekeyable (al : algorithms) (obj : SilcCipherObject) (m : SilcHmac) (h : SilcHash)
    (rk : SilcSKERekeyMaterial) (k : stream_keys) : Prop := {
  ra_cipher : find_name co_name (elements (al_ciphers al)) (co_name obj) = Some obj;
  ra_hmac : silc_hmac_alloc (al_hashes al) (al_hmacs al) (mo_name (sm_object m)) None = Some m;
  ra_hash : exists n, rk_hash rk = Some n /\ silc_hash_alloc (al_hashes al) n = Some h;
  ra_pfs : rk_pfs rk = false;
  ra_key : exists key, rk_send_enc_key rk = Some key /\
    0 <= rk_enc_key_len rk / 8 <= zlen key /\ rk_enc_key_len rk / 8 < 1000000;
  ra_stream : exists s r hs hr, carries k s r hs hr /\
    sc_object s = obj /\ sc_object r = obj /\
    sm_object hs = sm_object m /\ sm_object hr = sm_object m
}.

(** Algorithms for which the derivation reaches. *)
Definition reaches (obj : SilcCipherObject) (h : SilcHash) : Prop :=
  8 <= co_block_len obj <= 64 /\ 0 < co_key_len obj /\
  co_key_len obj / 8 <= 3 * digest_len_of h /\ 16 <= digest_len_of h /\ co_iv_len obj <= 16 /\
  CTypes.strlen (ho_name (h_object h)) < 8192.

(** The new key material: the derivation from the old sending key. *)
Definition old_key (rk : SilcSKERekeyMaterial) : list Z :=
  ztake (rk_enc_key_len rk / 8) (default [] (rk_send_enc_key rk)).
Definition rekey_keys (obj : SilcCipherObject) (h : SilcHash) (rk : SilcSKERekeyMaterial)
    : SilcSKEKeyMaterial :=
  keymat_spec h (old_key rk) (co_block_len obj) (co_key_len obj).

(** The material for the rekey after it. *)
Definition next_material (obj : SilcCipherObject) (h : SilcHash) (rk : SilcSKERekeyMaterial)
    : SilcSKERekeyMaterial :=
  mkRekey 0 false (Some (c_string (ho_name (h_object h)) ++ [0]))
    (Some (send_enc_key (rekey_keys obj h rk) ++ [0])) (co_key_len obj).

Section Rekeying.
Context (obj : SilcCipherObject) (m : SilcHmac) (h : SilcHash) `{!lawful h}.
Hypothesis Hreach : reaches obj h.

Lemma digest_short x : zlen x = 8 -> 16 <= zlen (digest_of h x) <= 64.
Proof.
  intros Hx. destruct Hreach as (_ & _ & _ & ? & _). pose proof (digest_range h).
  rewrite (digest_of_len h) by (apply hashable_small; lia). lia.
Qed.

Lemma old_key_len al rk k : rekeyable al obj m h rk k ->
  zlen (old_key rk) = rk_enc_key_len rk / 8 /\ zlen (old_key rk) < 1000000 /\
  exists key, rk_send_enc_key rk = Some key /\ ztake (zlen (old_key rk)) key = old_key rk.
Proof.
  intros [_ _ _ _ (key & E & Hl & Hs) _]. unfold old_key. rewrite E.
  cbn [default from_option id]. rewrite zlen_take by lia. split; [done|]. split; [lia|].
  by exists key.
Qed.

Lemma rekey_keys_len al rk k : rekeyable al obj m h rk k ->
  let km := rekey_keys obj h rk in
  8 <= zlen (send_iv km) /\ 8 <= zlen (receive_iv km) /\
  zlen (send_enc_key km) = co_key_len obj / 8.
Proof.
  intros Hr. cbn zeta. pose proof (old_key_len _ _ _ Hr) as (_ & Hs & _).
  destruct Hreach as (B & K & R & D & _). pose proof (digest_range h).
  assert (0 <= co_key_len obj / 8) by (apply Z.div_pos; lia).
  unfold rekey_keys, keymat_spec. cbn [send_iv receive_iv send_enc_key].
  rewrite key_bytes_len by (done || lia).
  rewrite !zlen_take; [lia|rewrite zlen_app, (digest_of_len h), zlen_zeros
    by (done || lia || (apply hashable_small; rewrite zlen_cons; lia)); lia..].
Qed.

(** The derivation of a side, from its own sending cipher. *)
Lemma rekey_keymat_ok {PK : Type} al rk k (s : SilcSKE PK) pr c :
  rekeyable al obj m h rk k -> sc_object c = obj -> pr_hash pr = h ->
  rekey_keymat s rk pr c = Some (Some (rekey_keys obj h rk)).
Proof.
  intros Hr Hc Hp. pose proof (old_key_len _ _ _ Hr) as (El & Hs & key & Ek & Et).
  destruct Hreach as (B & K & R & D & _).
  unfold rekey_keymat, silc_cipher_get_key_len, silc_cipher_get_block_len.
  rewrite (ra_pfs _ _ _ _ _ _ Hr), Ek, Hc, Hp, <- El.
  by rewrite key_material_data_ok by (done || lia).
Qed.

Lemma next_material_ok al rk k pr :
  rekeyable al obj m h rk k -> pr_hash pr = h -> pr_flags pr = 0 -> pr_group pr = no_group ->
  silc_ske_make_rekey_material (Some pr) (rekey_keys obj h rk) = Some (next_material obj h rk).
Proof.
  intros Hr Hp Hf Hg. pose proof (rekey_keys_len _ _ _ Hr) as (_ & _ & Hk). cbn zeta in Hk.
  destruct Hreach as (B & K & R & D & _ & N).
  assert (0 <= co_key_len obj / 8) by (apply Z.div_pos; lia). pose proof (digest_range h).
  unfold silc_ske_make_rekey_material, silc_hash_get_name, CTypes.strlen in *.
  rewrite Hp, Hf, Hg. pose proof (StrUtil.c_string_len (ho_name (h_object h))). zlen_facts.
  rewrite silc_memdup_ok by (unfold SILC_MAX_ALLOC; lia).
  rewrite bool_decide_eq_true_2 by done. cbn [negb].
  change (has_flag 0 SILC_SKE_SP_FLAG_PFS) with false. cbn iota.
  change (enc_key_len (rekey_keys obj h rk)) with (co_key_len obj).
  rewrite silc_memdup_ok by (rewrite ?Hk; unfold SILC_MAX_ALLOC; lia).
  rewrite c_string_take, ztake_ge by lia. done.
Qed.

(** The material and the keys allow another rekey. *)
Lemma next_rekeyable al rk k kx i1 i2 i3 i4 e1 e2 :
  rekeyable al obj m h rk k ->
  carries kx (rekey_cipher obj h i1 e1 (rekey_keys obj h rk))
    (rekey_cipher obj h i2 e2 (rekey_keys obj h rk))
    (rekey_hmac m i3 (rekey_keys obj h rk)) (rekey_hmac m i4 (rekey_keys obj h rk)) ->
  rekeyable al obj m h (next_material obj h rk) kx /\
  old_key (next_material obj h rk) = send_enc_key (rekey_keys obj h rk).
Proof.
  intros Hr Hx. pose proof (rekey_keys_len _ _ _ Hr) as (_ & _ & Hk). cbn zeta in Hk.
  destruct Hreach as (B & K & R & D & _). pose proof (digest_range h).
  assert (0 <= co_key_len obj / 8) by (apply Z.div_pos; lia).
  destruct Hr as [Rc Rm (n & Rn & Ra) _ _ _]. split.
  - split; try done.
    + eexists. split; [reflexivity|].
      rewrite <- Ra. apply hash_alloc_cong. rewrite c_string_end by apply c_string_nonzero.
      unfold silc_hash_alloc in Ra. destruct (find_name _ _ n) as [o|] eqn:F; [|done].
      apply find_name_some in F as [_ F]. injection Ra as <-. exact F.
    + eexists. split; [reflexivity|]. cbn [rk_enc_key_len next_material].
      rewrite zlen_app, Hk. change (zlen [0]) with 1. lia.
    + eexists _, _, _, _. split; [exact Hx|done].
  - unfold old_key, next_material. cbn [rk_enc_key_len rk_send_enc_key default from_option id].
    by apply ztake_app_exact.
Qed.
End Rekeying.

(** ** The machines *)

Ltac ske := cbn [set_status set_prop set_peer_key set_start_payload set_start_payload_copy
  set_ke1_payload set_ke2_payload set_ske_x set_KEY set_ske_hash set_remote_version set_keymat
  set_rekey set_packet set_aborted set_failure_notified set_stream stream status prop peer_key
  start_payload start_payload_copy ke1_payload ke2_payload ske_x KEY ske_hash remote_version
  keymat rekey packet aborted failure_notified r_ske r_next r_act r_out r_done pkt_type pkt_data
  negb andb orb].

Section Machines.
Context {PK SK : Type} `{SkePkcs PK SK} (c : config PK SK) (i : inputs PK).
Context (obj : SilcCipherObject) (m : SilcHmac) (h : SilcHash) `{!lawful h}.
Context (rk : SilcSKERekeyMaterial) (k : stream_keys) (s r : SilcCipher) (hs hr : SilcHmac).
Hypothesis Hreach : reaches obj h.
Hypothesis Hk : carries k s r hs hr.
Hypothesis Hr : rekeyable (cf_al c) obj m h rk k.
Hypothesis Hsent : in_sent i = true.
Abbreviation km := (rekey_keys obj h rk).

Lemma stream_objects : sc_object s = obj /\ sc_object r = obj /\
  sm_object hs = sm_object m /\ sm_object hr = sm_object m.
Proof.
  destruct (ra_stream _ _ _ _ _ _ Hr) as (? & ? & ? & ? & (E1 & E2 & E3 & E4) & ?).
  destruct Hk as (F1 & F2 & F3 & F4). by simplify_eq.
Qed.

Definition own_prop : SilcSKESecurityProperties := mkProp 0 no_group s h hs 0.

Lemma rekey_prop_ok : rekey_prop c rk k = Some (Some own_prop).
Proof.
  destruct (ra_hash _ _ _ _ _ _ Hr) as (n & En & Eh). unfold rekey_prop.
  destruct Hk as (-> & _ & -> & _). by rewrite En, Eh.
Qed.

(** After REKEY_DONE, with the new sending keys; and at the end. *)
Definition sending_new (responder : bool) : stream_keys :=
  silc_packet_set_keys (Some (rekey_cipher obj h (negb responder) true km)) None
    (Some (rekey_hmac m (negb responder) km)) None k.
Definition all_new (responder : bool) : stream_keys :=
  silc_packet_set_keys None (Some (rekey_cipher obj h responder false km)) None
    (Some (rekey_hmac m responder km)) (sending_new responder).

Definition at_rekey_end (responder : bool) (p : option ske_packet) : SilcSKE PK :=
  set_stream (sending_new responder) (set_keymat (Some km) (set_prop (Some own_prop)
    (set_packet p (set_rekey (Some rk) silc_ske_alloc)))).

Lemma set_own (responder sending : bool) x y :
  sc_object x = obj -> sm_object y = sm_object m ->
  silc_ske_set_keys (cf_al c) responder true [] km (with_keys x y own_prop)
    (if sending then want_sending else want_receiving) =
  let initiators := if responder then negb sending else sending in
  let e := Some (rekey_cipher obj h initiators sending km) in
  let g := Some (rekey_hmac m initiators km) in
  Some (if sending then mkKeys e None g None None else mkKeys None e None g None).
Proof.
  intros Hx Hy. pose proof (rekey_keys_len obj m h Hreach _ _ _ Hr) as (L1 & L2 & _).
  apply (set_keys_one (cf_al c) obj m km (with_keys x y own_prop)); try done.
  - exact (digest_short obj h Hreach).
  - unfold silc_cipher_get_name, with_keys. cbn [pr_cipher]. rewrite Hx. apply Hr.
  - apply Hreach.
  - unfold silc_hmac_get_name, with_keys. cbn [pr_hmac]. rewrite Hy. apply Hr.
Qed.

Lemma step_done (responder : bool) error this p :
  rekey_done responder error this c i
    (set_stream k (set_prop (Some own_prop) (set_packet p (set_rekey (Some rk) silc_ske_alloc)))) =
  wait (at_rekey_end responder p) this [mkPacket SILC_PACKET_REKEY_DONE []].
Proof.
  destruct stream_objects as (O1 & O2 & O3 & O4). unfold rekey_done. ske.
  pose proof Hk as (K1 & _ & K3 & _). rewrite K1, K3. unfold silc_ske_alloc.
  rewrite (rekey_keymat_ok obj m h Hreach (cf_al c) _ k) by done. ske.
  cbn [default from_option id]. pose proof (set_own responder true s hs O1 O3) as E.
  cbn iota in E. rewrite E, Hsent. cbn zeta. by destruct responder.
Qed.

Lemma step_rekey_end (responder : bool) error this p0 p :
  pkt_type p = SILC_PACKET_REKEY_DONE -> exists res,
    rekey_end responder error this c (set_packet (Some p) (at_rekey_end responder p0)) = Some res /\
    r_act res = FINISH /\ r_out res = [] /\ c_status <$> r_done res = [SILC_SKE_STATUS_OK] /\
    stream (r_ske res) = all_new responder /\ rekey (r_ske res) = Some (next_material obj h rk) /\
    keymat (r_ske res) = Some km.
Proof.
  intros Hp. destruct stream_objects as (O1 & O2 & O3 & O4). eexists. split.
  - pose proof Hk as (_ & K2 & _ & K4). unfold rekey_end, at_rekey_end. ske.
    cbn [sk_receive sk_hmac_receive sending_new silc_packet_set_keys new_key]. rewrite K2, K4.
    rewrite Hp. change (negb (SILC_PACKET_REKEY_DONE =? SILC_PACKET_REKEY_DONE)) with false.
    cbn iota. unfold silc_ske_alloc. ske. cbn [default from_option id].
    pose proof (set_own responder false r hr O2 O4) as E. cbn iota in E. rewrite E. cbn zeta.
    rewrite (next_material_ok obj m h Hreach (cf_al c) _ k) by done.
    cbn [rk_ske_group rk_hash rk_send_enc_key rk_enc_key_len next_material].
    rewrite (ra_pfs _ _ _ _ _ _ Hr). reflexivity.
  - ske. do 2 (split; [reflexivity|]). split; [done|]. split; [by destruct responder|done].
Qed.
End Machines.

(** The keys that were in use are never saved: the second element of each array
    is set only where it is already there, and it starts NULL. *)
Lemma old_keys_never_saved a b c d k :
  sk_old_send k = None -> sk_old_receive k = None -> sk_old_hmac_send k = None ->
  sk_old_hmac_receive k = None ->
  let k' := silc_packet_set_keys a b c d k in
  sk_old_send k' = None /\ sk_old_receive k' = None /\ sk_old_hmac_send k' = None /\
  sk_old_hmac_receive k' = None.
Proof.
  intros E1 E2 E3 E4. cbn. rewrite E1, E2, E3, E4. by destruct (sk_iv_included k).
Qed.

(** A handler that sends and goes on. *)
Lemma run_out {PK SK : Type} `{SkePkcs PK SK} (c : config PK SK) (i : inputs PK) n state s next s'
    out r :
  handler c i state s = Some (mkRes s' next CONTINUE out []) -> run n c i next s' = Some r ->
  run (S n) c i state s =
  Some (mkRes (r_ske r) (r_next r) (r_act r) (out ++ r_out r) (r_done r)).
Proof. intros E1 E2. cbn [run]. rewrite E1. ske. by rewrite E2. Qed.

(** A rekey with a group that is not known tells the other side of status OK and
    reports success, with the old keys. *)
Lemma unknown_group_is_success {PK SK : Type} `{SkePkcs PK SK} (c : config PK SK)
    (i : inputs PK) rk k pr e :
  rk_pfs rk = true -> silc_ske_group_get_by_number (rk_ske_group rk) = SkeErr e ->
  rekey_prop c rk k = Some (Some pr) -> in_sent i = true ->
  exists r,
    run 6 c i rekey_initiator_start (silc_ske_rekey_initiator rk k silc_ske_alloc) = Some r /\
    r_out r = [mkPacket SILC_PACKET_REKEY []; failure_packet SILC_SKE_STATUS_OK] /\
    c_status <$> r_done r = [SILC_SKE_STATUS_OK] /\ stream (r_ske r) = k.
Proof.
  intros Hp Hg Ha Hs. eexists. split.
  - eapply run_out.
    + cbn [handler]. unfold silc_ske_st_rekey_initiator_start, silc_ske_rekey_initiator. ske.
      rewrite Ha, Hs, Hp, Hg. reflexivity.
    + apply run_last; [reflexivity|by right].
  - ske. unfold ske_send. rewrite Hs. done.
Qed.

(** ** The rekey over a network *)

(** The initiator's REKEY makes the other side start its machine with that
    packet; what follows is delivered in order. *)
Definition rekey_exchange {PK SK : Type} `{SkePkcs PK SK} (ci cr : config PK SK)
    (ii ir : inputs PK) (fuel : nat) (rki rkr : SilcSKERekeyMaterial) (ki kr : stream_keys)
    : option (peer PK * peer PK) :=
  match run 6 ci ii rekey_initiator_start (silc_ske_rekey_initiator rki ki silc_ske_alloc) with
  | None => None
  | Some i =>
      match r_out i with
      | [] => None
      | p :: out =>
          match run 6 cr ir rekey_responder_wait
                  (silc_ske_rekey_responder rkr kr (Some p) silc_ske_alloc) with
          | None => None
          | Some r =>
              deliver ci cr ii ir fuel ((pair true <$> out) ++ (pair false <$> r_out r))
                (peer_of i) (peer_of r)
          end
      end
  end.

Section Whole.
Context {PK SK : Type} `{SkePkcs PK SK} (ci cr : config PK SK) (ii ir : inputs PK).
Context (obj : SilcCipherObject) (m : SilcHmac) (h : SilcHash) `{!lawful h}.
Context (rk : SilcSKERekeyMaterial).
Hypothesis Hreach : reaches obj h.

Lemma start_i k s r hs hr :
  carries k s r hs hr -> rekeyable (cf_al ci) obj m h rk k -> in_sent ii = true ->
  run 6 ci ii rekey_initiator_start (silc_ske_rekey_initiator rk k silc_ske_alloc) =
  Some (mkRes (at_rekey_end obj m h rk k s hs false None) rekey_initiator_end WAIT
          [mkPacket SILC_PACKET_REKEY []; mkPacket SILC_PACKET_REKEY_DONE []] []).
Proof.
  intros Hk Hr Hs.
  pose (s1 := set_stream k (set_prop (Some (own_prop h s hs))
    (set_packet None (set_rekey (Some rk) (silc_ske_alloc (PK := PK)))))).
  assert (E1 : handler ci ii rekey_initiator_start
      (silc_ske_rekey_initiator rk k silc_ske_alloc) =
    Some (mkRes s1 rekey_initiator_done CONTINUE [mkPacket SILC_PACKET_REKEY []] [])).
  { cbn [handler]. unfold silc_ske_st_rekey_initiator_start, silc_ske_rekey_initiator. ske.
    rewrite (rekey_prop_ok ci obj m h rk k s r hs hr Hk Hr), Hs.
    rewrite (ra_pfs _ _ _ _ _ _ Hr). reflexivity. }
  assert (E2 : run 5 ci ii rekey_initiator_done s1 =
    Some (mkRes (at_rekey_end obj m h rk k s hs false None) rekey_initiator_end WAIT
            [mkPacket SILC_PACKET_REKEY_DONE []] [])).
  { apply run_last; [|by left]. exact (step_done ci ii obj m h rk k s r hs hr Hreach Hk Hr Hs false
      initiator_error rekey_initiator_end None). }
  by rewrite (run_out _ _ _ _ _ _ _ _ _ E1 E2).
Qed.

Lemma start_r k s r hs hr :
  carries k s r hs hr -> let p := mkPacket SILC_PACKET_REKEY [] in
  rekeyable (cf_al cr) obj m h rk k -> in_sent ir = true ->
  run 6 cr ir rekey_responder_wait (silc_ske_rekey_responder rk k (Some p) silc_ske_alloc) =
  Some (mkRes (at_rekey_end obj m h rk k s hs true (Some p)) rekey_responder_end WAIT
          [mkPacket SILC_PACKET_REKEY_DONE []] []).
Proof.
  intros Hk p Hr Hs. unfold silc_ske_rekey_responder, silc_ske_alloc.
  erewrite run_go by reflexivity.
  erewrite run_go; cycle 1.
  { cbn [handler]. unfold silc_ske_st_rekey_responder_start. ske. unfold p.
    change (negb (SILC_PACKET_REKEY =? SILC_PACKET_REKEY)) with false. cbn iota.
    rewrite (rekey_prop_ok cr obj m h rk k s r hs hr Hk Hr).
    rewrite (ra_pfs _ _ _ _ _ _ Hr). cbn [negb]. reflexivity. }
  apply run_last; [|by left]. cbn [handler]. unfold silc_ske_st_rekey_responder_done.
  exact (step_done cr ir obj m h rk k s r hs hr Hreach Hk Hr Hs true responder_error
    rekey_responder_end (Some p)).
Qed.

Lemma end_received (c : config PK SK) (i : inputs PK) (responder : bool) k s r hs hr p0 :
  carries k s r hs hr -> rekeyable (cf_al c) obj m h rk k ->
  exists res,
    silc_ske_packet_receive c i responder
      (if responder then rekey_responder_end else rekey_initiator_end)
      (at_rekey_end obj m h rk k s hs responder p0)
      (mkPacket SILC_PACKET_REKEY_DONE []) = Some res /\
    r_act res = FINISH /\ r_out res = [] /\ c_status <$> r_done res = [SILC_SKE_STATUS_OK] /\
    stream (r_ske res) = all_new obj m h rk k responder /\
    rekey (r_ske res) = Some (next_material obj h rk) /\
    keymat (r_ske res) = Some (rekey_keys obj h rk).
Proof.
  intros Hk Hr.
  destruct (step_rekey_end c obj m h rk k s r hs hr Hreach Hk Hr responder
    (if responder then responder_error else initiator_error)
    (if responder then rekey_responder_end else rekey_initiator_end) p0
    (mkPacket SILC_PACKET_REKEY_DONE []) eq_refl) as (res & E & T).
  exists res. split; [|exact T]. unfold silc_ske_packet_receive.
  change (aborted _) with false. cbn [pkt_type].
  change (SILC_PACKET_REKEY_DONE =? SILC_PACKET_FAILURE) with false. cbn iota.
  apply run_last; [|right; apply T]. destruct responder; exact E.
Qed.
End Whole.

(** C5: a rekey without perfect forward secrecy: of two sides whose streams use
    the same cipher and HMAC and that were left with the same material, both
    finish with status OK after REKEY and one REKEY_DONE each; the new keys are
    derived from the old sending key, what each side sends with is what the
    other receives with, and the material left, which is again the same, has the
    new sending key, so that the sides can rekey again. *)
Theorem rekey_agrees {PK SK : Type} `{SkePkcs PK SK} (ci cr : config PK SK) (ii ir : inputs PK)
    (obj : SilcCipherObject) (m : SilcHmac) (h : SilcHash) `{!lawful h}
    (rk : SilcSKERekeyMaterial) (ki kr : stream_keys) :
  reaches obj h -> rekeyable (cf_al ci) obj m h rk ki -> rekeyable (cf_al cr) obj m h rk kr ->
  in_sent ii = true -> in_sent ir = true ->
  exists mi mr rk',
    rekey_exchange ci cr ii ir 2 rk rk ki kr = Some (mi, mr) /\
    p_finished mi = true /\ p_finished mr = true /\
    c_status <$> p_result mi = [SILC_SKE_STATUS_OK] /\
    c_status <$> p_result mr = [SILC_SKE_STATUS_OK] /\
    keymat (p_ske mi) = Some (rekey_keys obj h rk) /\
    keymat (p_ske mr) = Some (rekey_keys obj h rk) /\
    (let si := stream (p_ske mi) in let sr := stream (p_ske mr) in
     paired (sk_send si) (sk_receive sr) /\ paired (sk_send sr) (sk_receive si) /\
     sk_hmac_send si = sk_hmac_receive sr /\ sk_hmac_send sr = sk_hmac_receive si /\
     rekey (p_ske mi) = Some rk' /\ rekey (p_ske mr) = Some rk' /\
     rekeyable (cf_al ci) obj m h rk' si /\ rekeyable (cf_al cr) obj m h rk' sr /\
     old_key rk' = send_enc_key (rekey_keys obj h rk)).
Proof.
  intros Hreach Hi Hr Si Sr.
  destruct (ra_stream _ _ _ _ _ _ Hi) as (s1 & r1 & hs1 & hr1 & K1 & _).
  destruct (ra_stream _ _ _ _ _ _ Hr) as (s2 & r2 & hs2 & hr2 & K2 & _).
  pose (p := mkPacket SILC_PACKET_REKEY []).
  destruct (end_received obj m h rk Hreach ci ii false _ _ _ _ _ None K1 Hi)
    as (ri & Ei & Ai & Oi & Di & Ti & Ki & Mi).
  destruct (end_received obj m h rk Hreach cr ir true _ _ _ _ _ (Some p) K2 Hr)
    as (rr & Er & Ar & Or & Dr & Tr & Kr & Mr).
  exists (peer_of ri), (peer_of rr), (next_material obj h rk). split.
  - unfold rekey_exchange. rewrite (start_i ci ii obj m h rk Hreach _ _ _ _ _ K1 Hi Si).
    cbn [r_out]. rewrite (start_r cr ir obj m h rk Hreach _ _ _ _ _ K2 Hr Sr).
    cbn [app fmap list_fmap r_out].
    erewrite (deliver_one ci cr ii ir); [|done|exact Er]. rewrite Or.
    cbn [app fmap list_fmap negb].
    erewrite (deliver_one ci cr ii ir); [|done|exact Ei]. rewrite Oi. done.
  - unfold peer_of. cbn [p_finished p_result p_ske]. rewrite Ai, Ar, Ti, Tr.
    do 6 (split; [done|]). cbn zeta.
    split; [apply cipher_of_paired|]. split; [apply cipher_of_paired|].
    split; [done|]. split; [done|]. split; [done|]. split; [done|].
    pose proof (next_rekeyable obj m h Hreach _ _ _ (all_new obj m h rk ki false) true false
      true false true false Hi ltac:(done)) as [Ni No].
    pose proof (next_rekeyable obj m h Hreach _ _ _ (all_new obj m h rk kr true) false true
      false true true false Hr ltac:(done)) as [Nr _]. done.
Qed.

(** ** Example *)

Definition ex_rekey : SilcSKERekeyMaterial :=
  mkRekey 0 false (Some (ho_name sha1_object)) (Some (replicate 33 5)) 256.
Definition ex_cipher (key : list Z) : SilcCipher :=
  mkCipherStruct (sc_object (pr_cipher ex_prop)) (Some (key, 256, true)) (zeros 16).
Definition ex_hmac : SilcHmac :=
  default (pr_hmac ex_prop)
    (silc_hmac_alloc default_hashes default_hmacs (mo_name (sm_object (pr_hmac ex_prop))) None).
Definition ex_stream : stream_keys :=
  mkStream (Some (ex_cipher [1])) (Some (ex_cipher [2])) (Some ex_hmac) (Some ex_hmac)
    false None None None None.

Lemma ex_reaches : reaches (sc_object (pr_cipher ex_prop)) (pr_hash ex_prop).
Proof. unfold reaches. vm_compute. intuition congruence. Qed.

Lemma ex_hmac_ok :
  silc_hmac_alloc default_hashes default_hmacs (mo_name (sm_object ex_hmac)) None = Some ex_hmac.
Proof.
  assert (E : mo_name (sm_object ex_hmac) = mo_name (sm_object (pr_hmac ex_prop)))
    by (vm_compute; reflexivity).
  rewrite E. unfold ex_hmac. clear E.
  assert (S : match silc_hmac_alloc default_hashes default_hmacs
                (mo_name (sm_object (pr_hmac ex_prop))) None with Some _ => true | None => false end
              = true) by (vm_compute; reflexivity).
  destruct (silc_hmac_alloc _ _ _ _); [reflexivity|discriminate S].
Qed.

Lemma ex_rekeyable :
  rekeyable default_algorithms (sc_object (pr_cipher ex_prop)) ex_hmac (pr_hash ex_prop) ex_rekey
    ex_stream.
Proof.
  split.
  - vm_compute. reflexivity.
  - exact ex_hmac_ok.
  - exists (ho_name sha1_object). split; [done|]. unfold silc_hash_alloc.
    assert (E : elements (al_hashes default_algorithms) =
      [(0%nat, sha256_object); (1%nat, sha1_object); (2%nat, md5_object)]) by reflexivity.
    rewrite E. cbn [find_name].
    assert (E1 : streq (ho_name sha256_object) (ho_name sha1_object) = false)
      by (vm_compute; reflexivity).
    assert (E2 : streq (ho_name sha1_object) (ho_name sha1_object) = true)
      by (vm_compute; reflexivity).
    rewrite E1, E2. reflexivity.
  - done.
  - exists (replicate 33 5). split; [done|]. vm_compute. intuition congruence.
  - exists (ex_cipher [1]), (ex_cipher [2]), ex_hmac, ex_hmac. done.
Qed.

Lemma rekey_agrees_witness : exists mi mr rk',
  rekey_exchange (ex_config [1; 2; 3] 0) (ex_config [4; 5] 0) (ex_inputs 200 [4; 5])
    (ex_inputs 199 [1; 2; 3]) 2 ex_rekey ex_rekey ex_stream ex_stream = Some (mi, mr) /\
  p_finished mi = true /\ p_finished mr = true /\
  c_status <$> p_result mi = [SILC_SKE_STATUS_OK] /\
  c_status <$> p_result mr = [SILC_SKE_STATUS_OK] /\
  keymat (p_ske mi) =
    Some (rekey_keys (sc_object (pr_cipher ex_prop)) (pr_hash ex_prop) ex_rekey) /\
  keymat (p_ske mr) =
    Some (rekey_keys (sc_object (pr_cipher ex_prop)) (pr_hash ex_prop) ex_rekey) /\
  (let si := stream (p_ske mi) in let sr := stream (p_ske mr) in
   paired (sk_send si) (sk_receive sr) /\ paired (sk_send sr) (sk_receive si) /\
   sk_hmac_send si = sk_hmac_receive sr /\ sk_hmac_send sr = sk_hmac_receive si /\
   rekey (p_ske mi) = Some rk' /\ rekey (p_ske mr) = Some rk' /\
   rekeyable default_algorithms (sc_object (pr_cipher ex_prop)) ex_hmac (pr_hash ex_prop) rk' si /\
   rekeyable default_algorithms (sc_object (pr_cipher ex_prop)) ex_hmac (pr_hash ex_prop) rk' sr /\
   old_key rk' =
     send_enc_key (rekey_keys (sc_object (pr_cipher ex_prop)) (pr_hash ex_prop) ex_rekey)).
Proof.
  exact (rekey_agrees (ex_config [1; 2; 3] 0) (ex_config [4; 5] 0) (ex_inputs 200 [4; 5])
    (ex_inputs 199 [1; 2; 3]) _ ex_hmac (pr_hash ex_prop) ex_rekey ex_stream ex_stream
    ex_reaches ex_rekeyable ex_rekeyable eq_refl eq_refl).
Defined.
